(* ===== verification/_CoqProject ===== *)
-Q . S2P
Prelude.v
Wire.v
Atr.v
Diag.v
Secure.v
PinPad.v
SerialFrame.v
T1Endpoint.v
PpsFsm.v
SelfHeal.v
DeviceProfile.v
CardInterface.v
Handler.v
HandlerFacts.v
HandlerSpec.v
ContactHandler.v
ContactSpec.v
UsbClass.v
UsbSpec.v
CardLink.v
CardLinkSpec.v
Smartcard.v
SmartcardSpec.v
UsartContract.v
Bitbang.v
BitbangSpec.v
Nci.v
NciSpec.v
NciDriver.v
NciDriverSpec.v
NciReaderSpec.v
NciLink.v
NciLinkSpec.v
Listen.v
ListenSpec.v
EspHandler.v
EspSpec.v
Snapshot.v
SerialServer.v
SerialSpec.v
Frontend.v
FrontendSpec.v
Mfrc522.v
Mfrc522Spec.v
Vpcd.v
VpcdSpec.v
SppServer.v
SppSpec.v
TcpServer.v
TcpSpec.v
UartServer.v
UartSpec.v
Pn532.v
Pn532Spec.v
BusRecovery.v
Pn7160Nfc.v
Pn7160NfcSpec.v
Readers.v
I2cMaster.v
I2cMasterSpec.v
PinUi.v
PinUiSpec.v
MainLoop.v
MainLoopSpec.v
Ota.v
BleConsole.v
BleSpec.v
