(* ===== verification/Prelude.v ===== *)
(** * ccid-firmware-rs: a verification development

    The repository is firmware for smartcard readers that speak CCID.  One
    reader is contact-based (STM32, USB, [src/firmware/ccid-firmware]); the
    others are contactless (ESP32, the GemPC Twin serial protocol over a
    UART, a CDC serial line, TCP or Bluetooth, or the vpcd protocol over TCP,
    [src/firmware/esp32-ccid]).  What they share is in [src/crates].  This
    library models the Rust code of both, from the wire to the card, as
    executable definitions, and proves what each part promises to the next.

    ** The program and how its parts meet

<<
    host, USB                           host, serial / TCP / Bluetooth / vpcd
       |                                      |
    UsbClass  (ccid.rs)             SerialServer; UartServer, TcpServer,
       |  \                                   |  SppServer, Vpcd; framing: SerialFrame
       |   MainLoop, PinUi, PinPad            |
    ContactHandler (ccid_core.rs)       EspHandler (ccid_handler.rs)
       |          \                      /    |   T1Endpoint
       |           Handler (handler.rs)       |
       |                (shared core)         |
    Smartcard, Bitbang                  Frontend (frontend.rs)
       |  CardLink, PpsFsm                |                 |
    the card, by wire             Mfrc522, Pn532        Pn7160Nfc
                                          |             NciDriver, Nci
                                        I2cMaster       NciLink
                                          the card, by radio
>>

    The seams are type classes with their laws, as the source has traits:
    [CardBackend], [SlotDriver] and [NfcDriver] (CardInterface.v, EspHandler.v,
    Frontend.v), [SmartcardDriver] (ContactHandler.v), [SmartcardIo]
    (CardLink.v), [GpioHw] (Bitbang.v), [Transport] (Nci.v), [RawI2cMaster]
    (I2cMaster.v).  A client is proved against the class and its laws; each driver of the repository is
    an instance that discharges them.  Code outside the repository (embedded-hal
    and ESP-IDF calls, the MFRC522, PN532 and ISO-DEP crates, the USB stack, the
    graphics library) and the hardware are classes without an instance but for
    the concrete ones the witnesses run on; what is asked of them is a class of
    laws next to the theorems.

    ** Conventions

    - A byte is a [Z] between 0 and 255 ([u8]), a message a [list Z], machine
      integers are [Z] with their wrap-around, saturation or [checked_] test
      written where the source has it; [usize] is 32 bits wide, as on both
      targets.  The release profile neither checks overflow nor unwinds, so
      arithmetic wraps and a panic is a reset: [outcome] has [Ret] and [Panic],
      and a slice or index out of range is [Panic].
    - A state is a [Record] with the source's fields; an operation takes the
      state and returns it; [&mut [u8]] buffers are passed in and returned.
      [Result] is [result], an enum an inductive type with the same
      constructors.
    - What the outside does in an operation is an argument or a part of the
      state: clock readings, ticks, the results of reads and writes, the stalls
      of a front end, touches.  A theorem that quantifies over them holds
      whatever they are.
    - [X.v] holds the definitions of a part and [XSpec.v] its theorems; a part
      with few theorems has them in one file.  Log lines are left out
      everywhere, since nothing reads them back (Vpcd.v models its redacted ones,
      because what they print is a security property).
    - A witness applies a theorem to a concrete run and is named after it
      ([..._witness]); the modules [Demo], [Bench], [Desk] and the like hold the
      drivers, hosts and cards the witnesses run on.

    ** The files

    Shared data.
    - Prelude.v: [outcome], [result], slices and stores, chunks, machine
      integers, bytes and checksums, bounded vectors, and the generic
      principles: runs of a state machine that keep an invariant or simulate
      another machine ([run_safe], [run_refines]), traces, and loops by
      doubling ([turns], with what ends them and what never does).
    - Wire.v: modules [Types], [Status], [Response], [Pps], [Params] --
      ccid-protocol/src/types.rs, status.rs, ccid-core/src/lib.rs.
    - Atr.v: ccid-protocol/src/atr.rs and the timing builders of
      ccid-firmware/src/smartcard_common.rs.
    - Diag.v: modules [Diagnostics] (ccid-core/src/diagnostics.rs) and
      [Turnaround] (ccid-service/src/turnaround.rs).
    - Secure.v: modules [Parse], [PinBuf], [Builders] --
      ccid-core/src/secure.rs.
    - SelfHeal.v: modules [Failures] (selfhealing.rs), [Validity]
      (ota_validity.rs), [Dwt] (dwt_watchdog.rs).

    The shared handler.
    - CardInterface.v: the traits of card-interface/src/lib.rs, their documented
      contract as [SlotDriverLaws] and [NfcDriverLaws]; the adapter and the mock
      of ccid-service/src/nfc.rs (modules [Adapter], [Mock]).
    - Handler.v: ccid-core/src/handler.rs, one definition per handler, and
      [process_command] and [check_card_change] over them, for both reader
      profiles ([ReaderProfile]).  HandlerFacts.v: the invariant [core_ok], what
      each handler does ([handled]).  HandlerSpec.v: the theorems.

    The contact reader.
    - ContactHandler.v: modules [CardAdapter], [Contact] (ccid_core.rs), the
      trait of driver.rs and [CardMock] (mock_driver.rs); ContactSpec.v.
    - DeviceProfile.v: device_profile.rs, the announced configuration.
    - UsbClass.v: module [Usb], ccid.rs; UsbSpec.v.
    - CardLink.v: module [Link], the byte-level protocols of
      smartcard_common.rs and smartcard.rs; CardLinkSpec.v.
    - Smartcard.v: modules [Uart] (smartcard.rs) and [Wrapper]
      ([SmartcardWrapper] of main.rs); SmartcardSpec.v; UsartContract.v: the
      wrapped driver is a [SmartcardDriver] that keeps its laws.
    - PpsFsm.v: pps_fsm.rs.
    - Bitbang.v: module [Bitbang], smartcard_bitbang.rs (the STM32F746) and its
      [SmartcardWrapper] of main.rs, over the registers of [GpioHw];
      BitbangSpec.v.
    - PinPad.v: modules [Entry], [Modify] (pinpad/state.rs), [VerifyResponse]
      (pinpad/apdu.rs).
    - PinUi.v: modules [Ui] (pinpad/ui.rs), [Screen] (main.rs), [Apps]
      (app_enum.rs); PinUiSpec.v.
    - MainLoop.v: module [Main], the loop of main.rs; MainLoopSpec.v.

    The contactless readers.
    - T1Endpoint.v: ccid-service/src/t1.rs.
    - EspHandler.v: ccid-service/src/ccid_handler.rs; EspSpec.v; Snapshot.v:
      which commands raise the snapshot request.
    - SerialFrame.v: module [Parser], ccid-transport-serial/src/lib.rs.
    - SerialServer.v: ccid-service/src/ccid_serial_server.rs ([TimeExtension])
      and cdc_burst.rs ([CdcBurst]); SerialSpec.v.
    - TcpServer.v: module [Tcp], tcp_server.rs; TcpSpec.v.
    - UartServer.v: module [UartMain], the loop of main.rs on UART0; UartSpec.v.
    - SppServer.v: modules [Spp] (spp_server.rs), [Shell] (spp_shell.rs);
      SppSpec.v.
    - Vpcd.v: module [Vpcd], vpcd.rs; VpcdSpec.v.
    - Frontend.v: modules [Retry], [Unavail], [Either], frontend.rs;
      FrontendSpec.v.
    - Mfrc522.v: modules [Pcd] (mfrc522-pcd/src/lib.rs), [Mfrc522]
      (mfrc522_driver.rs, board_ctor.rs); Mfrc522Spec.v.
    - Pn532.v: module [Pn532], pn532_driver.rs and the reader its main boots;
      Pn532Spec.v.
    - Nci.v: module [Nci], pn7160-nci/src/lib.rs and transport.rs; NciSpec.v.
    - NciDriver.v: module [Pn7160], pn7160-nci/src/driver.rs; NciDriverSpec.v,
      and NciReaderSpec.v over a link that delivers only readable frames.
    - NciLink.v: modules [Hal] (hal_transport.rs), [Esp] (esp_transport.rs,
      board.rs); NciLinkSpec.v.
    - I2cMaster.v: module [I2c], hal_i2c.rs; I2cMasterSpec.v.
    - BusRecovery.v: module [Recovery], mfrc522-pcd/src/bus_recovery.rs.
    - Pn7160Nfc.v: modules [Pn7160Nfc] (pn7160_driver.rs), [Wifi]
      (board_ctor.rs, and wifi_ccid.rs from the bring-up through the accept
      loop); Pn7160NfcSpec.v.
    - Readers.v: module [Mains], the mains of the MFRC522 and PN7160 serial images
      (main.rs, pn7160_ccid.rs) and their theorems.
    - BleConsole.v: modules [LogQueue] (ble_log_queue.rs), [Addr] (ble_addr.rs),
      [Server] (ble_debug.rs), [Logger] (ble_logger.rs); BleSpec.v.
    - Ota.v: modules [Header] (ota_header.rs), [Ota] (ota.rs).
    - Listen.v: module [Listen], the card emulation of listen.rs, responder.rs
      and pn7160_listen.rs; ListenSpec.v.

    ** The theorems

    - The handler core: every message is answered, but for the exact inputs it
      panics on ([process_command_answers]); the slot state machine
      ([slot_machine]); where a refused IccPowerOn names another slot state than
      the one it leaves ([refused_voltage_misreports]); the relay of an APDU ([xfr_relay]); the counters
      ([counters_exact]).  Each holds over any lawful driver and for both
      profiles, so of every reader.
    - The contact reader: reassembly of packets ([contact_reassembly]), at most
      one response per command over USB, and exactly which commands have none
      ([usb_exchange]), the raw exchange
      ([raw_exchange_relayed]), the rate after activation ([power_on_rate]), the
      termination of T=0 ([t0_exchange_ends]), the agreement of the two ATR
      readers ([atr_readers_agree]), PPS exactly on the echo
      ([pps_done_iff_echo]); the bit-banged line, whose receiver reads what its
      sender writes and keeps up with a block ([frame_roundtrip],
      [block_received]) and whose activation ends ([bitbang_activation]); the PIN pad from the host's command to the card
      ([pin_pad_session]), the loop's invariant ([main_loop_turn], run on the
      driver the firmware is built with; [long_answer_panics_probe] is a card
      outside its hypothesis) and the
      secrecy of the screen ([screen_hides_pin]).
    - The serial reader: the framing round trip ([serial_stream_roundtrip]), the
      server's safety ([serial_server_safe]) and its exchange
      ([serial_exchange]), answer or silence ([burst_answer_or_silence]); the
      T=1 endpoint ([t1_endpoint_safe], [t1_no_double_execution]), the life of a
      session ([t1_session_lifecycle]) and a command end to end
      ([t1_command_end_to_end]); the transports ([tcp_session], whose log follows
      the frame parser over the bytes read, [spp_wire], [vpcd_serves]) and the negotiated rate of the UART
      ([uart_rate_changes_acknowledged]).
    - The front ends: recovery ([degraded_recovery]), activation
      ([mfrc522_power_on]), the NCI exchange ([nci_exchange],
      [command_packets_roundtrip]), the driver's presence and sessions
      ([presence_polls_bounded], [removal_noticed], [session_exchange]), the two
      links as one ([nci_links_refine], [transact_contract]), the bus
      ([wire_shape]) and card emulation ([listen_reassembly]).
    - Composition: the whole MFRC522 reader ([booted_reader_serves]), the whole
      PN532 reader ([pn532_reader_serves]), the whole WiFi reader
      ([wifi_reader_serves]) and the serial images with their loops
      ([mfrc522_uart_reader_serves], [pn7160_cdc_reader_serves]), from the bus to
      the host.
    - The log console: what a drain delivers ([drain_delivers]), what the queue
      keeps ([queue_keeps_newest]), who is subscribed ([subscribed_on_request]).
    - Updates: only an authorised, complete and accepted image is booted
      ([ota_boots_only_offers]).
    - The data: [parse_atr_reading] reads the ATR by its interface groups, once
      as the code takes them and once as ISO 7816-3 gives them, and says where
      the two agree ([unambiguous]); [tb2_taken_for_t1] and
      [later_group_overwrites] are ATRs where they do not; [parse_atr_total_wf].
    Theorems that show a defect are stated as the code behaves; the definitions
    are not repaired.  So [process_command_answers] names the panics, and several
    theorems are a single run ([ifs_zero_livelock], [pad_left_on_screen], ...).

    ** Fuel and bounds

    A loop the source bounds is structural on that bound.  Where a loop is
    bounded by what the other side does, it runs on fuel, and a theorem says the
    fuel suffices.
    - ATR parser: the length of the ATR, one iteration per TD byte
      ([parse_atr_total_wf]).  ATS interface groups: [S (length ats)].
    - T=0: [pending + 2] turns for a card that sends [pending] more bytes
      ([t0_exchange_ends]); a card that never stops has no bound, since the
      source has none for 6C xx.
    - The ATR loop of the USART reader has no bound in the source: it goes on as
      long as the card sends.  It runs on [AtrFuel] and is [None] when the fuel
      runs out, never an answer; [SilentCard] is a card that stops, for which the
      fuel is enough ([power_on_rate]), and one that does not never activates,
      whatever the fuel ([babbling_card_never_activates]).
    - The busy waits of the bit-banged line: [forever] is an iteration of 2^32
      turns (two to the 32, by doubling), more than the cycle counter has values.  The
      fuel of its ATR is one turn for every nine ETU until the line falls quiet
      ([bitbang_activation]); no fuel is enough for a line held low.
    - PPS: a request is at most six bytes, so seven turns; a cold activation is
      repeated at most once, so depth two; card activation attempts: four.
    - Cutting into pieces ([chunks]): the length of the list.
    - Draining of whole milliseconds from the cycle count: the quotient
      ([drain_enough]).
    - Exchange with the NFC controller: twelve waiting rounds; the credit wait of
      card emulation: 24 polls; the event wait: eight rounds; soft reset of the
      MFRC522: 1024 polls; bus recovery: 32 clocks; boot attempts: five -- all
      the source's own.
    - [transact]: it waits for a number of silent rounds (200 in Hal, the budget
      over the tick in Esp) but takes every frame raised meanwhile, so the fuel is
      the frames the controller still raises ([supply]) plus the silent rounds
      plus one (two).  That it is enough is proved ([transact_returns],
      [esp_transact_returns]) from the
      laws of [Hal.Controller] and [Esp.Controller] -- the supply is finite, a
      delay lets a tick pass --, so the value of [transact] is never that of a
      loop cut short; under an endless supply the loop does not return
      ([flooded_transact]).  The listen loops: the link's backlog plus one.
    - The vpcd client: the number of arrivals plus one.  The drain of the
      Bluetooth ring: the rounds of callbacks plus five.  The walk of an I2C
      transaction: the number of operations (at most 32) plus one.
    - The pump of the log console: a turn for every queued line and one more
      ([drain_delivers]).
    - The transfer of an update: a turn for every 1024 bytes the client sends.
    - Message buffers are 271 bytes on every route; 261 is the APDU data a
      message may announce.  The T=1 endpoint's buffers are 512.

    ** Not modelled, and why

    - Bring-up and glue: clocks, pins, displays, LEDs, WiFi association,
      Bluetooth bring-up, the tasks and their stack sizes (both main.rs before their loops, wifi.rs,
      ble_console.rs, led.rs, m5stick_lcd.rs, crates/boards).  They call their platform and keep no state the parts
      above depend on.
    - Register access under the classes: USART input and output (the ATR loop
      reads the status and data registers through [SmartcardHw]), the
      embedded-hal and ESP-IDF calls.
    - The network of the WiFi image: association, the accepting socket, the
      rejection of a second client.
    - Mutexes and task scheduling: each global behind a mutex is a field of the
      one owner, and what another task does between two critical sections is an
      argument where it can matter (SppServer.v, SerialServer.v).
    - t1_engine.rs: [transmit_apdu_t1] has no caller.
    - The self-tests and diagnostic images of esp32-ccid (ccid_fuzz.rs,
      t1_fuzz.rs, pn7160_actdiag.rs, ...), ccid_spec_paths.rs (tests) and the
      host tools.

    ** Reading order

    Wire.v, CardInterface.v, Handler.v and HandlerSpec.v first; then either the
    contact side (ContactHandler.v, UsbClass.v, MainLoop.v) or the serial side
    (EspHandler.v, SerialServer.v, Mfrc522.v or NciDriver.v). *)
From Stdlib Require Import ZArith Lia ZifyBool.
From stdpp Require Import prelude.

(** ** Outcomes of Rust code

    [outcome A] is the result of a piece of Rust that may panic: the release
    profile aborts on panic, so [Panic] is a reset of the device.  Slices,
    array indexing and [assert!] are the sources of panics; integer overflow
    wraps (release profile, overflow checks off). *)
Inductive outcome (A : Type) : Type :=
| Ret (a : A)
| Panic.
Arguments Ret {A} a.
Arguments Panic {A}.

#[global] Instance outcome_ret : MRet outcome := @Ret.
#[global] Instance outcome_bind : MBind outcome :=
  fun _ _ k m => match m with Ret a => k a | Panic => Panic end.

(** Rust's [Result]. *)
Inductive result (A E : Type) : Type :=
| Ok (a : A)
| Err (e : E).
Arguments Ok {A E} a.
Arguments Err {A E} e.

Definition is_ok {A E} (r : result A E) : bool :=
  match r with Ok _ => true | Err _ => false end.

(** The computation returns (it does not panic). *)
Definition returns {A} (m : outcome A) : Prop := exists a, m = Ret a.

(** ** Machine integers

    A w-bit unsigned integer is a [Z] in [0, 2^w); arithmetic wraps. *)
Definition u8 (z : Z) : Prop := (0 <= z < 256)%Z.
Definition u16 (z : Z) : Prop := (0 <= z < 65536)%Z.
Definition u32 (z : Z) : Prop := (0 <= z < 4294967296)%Z.
Definition u8_max : Z := 255.
Definition u32_max : Z := 4294967295.
Definition u64_max : Z := 18446744073709551615.
Definition wrap8 (z : Z) : Z := (z mod 256)%Z.
Definition wrap16 (z : Z) : Z := (z mod 65536)%Z.
Definition wrap32 (z : Z) : Z := (z mod 4294967296)%Z.
(** [u32::saturating_add], [u32::wrapping_add], [u32::wrapping_sub]. *)
Definition sat_add32 (a b : Z) : Z := Z.min (a + b) u32_max.
Definition wrapping_add32 (a b : Z) : Z := wrap32 (a + b).
Definition wrapping_sub32 (a b : Z) : Z := wrap32 (a - b).
(** [div_ceil] on unsigned integers with a nonzero divisor. *)
Definition div_ceil (a b : Z) : Z := ((a + b - 1) / b)%Z.
Definition clamp (x lo hi : Z) : Z := Z.max lo (Z.min x hi).
(** [usize] is 32 bits wide on both firmware targets (thumbv7em, esp32). *)
Definition usize_add (a b : Z) : Z := wrap32 (a + b).

Definition bytes (l : list Z) : Prop := Forall u8 l.

(** [u32::to_le_bytes] and [u32::from_le_bytes]. *)
Definition to_le32 (z : Z) : list Z :=
  [z mod 256; (z / 256) mod 256; (z / 65536) mod 256; (z / 16777216) mod 256]%Z.
Definition from_le32 (a b c d : Z) : Z :=
  (a + 256 * b + 65536 * c + 16777216 * d)%Z.
Definition from_le16 (a b : Z) : Z := (a + 256 * b)%Z.

(** ** Slices and arrays *)
(** [l[a..b]] *)
Definition slice {A} (l : list A) (a b : nat) : outcome (list A) :=
  if decide (a <= b /\ b <= length l) then Ret (take (b - a) (drop a l)) else Panic.
(** [l[i]] *)
Definition index {A} (l : list A) (i : nat) : outcome A :=
  match l !! i with Some x => Ret x | None => Panic end.
(** [l[off..off + src.len()].copy_from_slice(src)] *)
Definition copy_at {A} (l : list A) (off : nat) (src : list A) : outcome (list A) :=
  if decide (off + length src <= length l)
  then Ret (take off l ++ src ++ drop (off + length src) l) else Panic.
(** [l[i] = x] *)
Definition store {A} (l : list A) (i : nat) (x : A) : outcome (list A) :=
  if decide (i < length l) then Ret (<[i := x]> l) else Panic.
(** [assert!(b)] *)
Definition assert (b : bool) : outcome unit := if b then Ret tt else Panic.

(** [heapless::Vec] of capacity [cap]: a push or an extension that does not fit
    fails and changes nothing; the code ignores the error ([let _ =]). *)
Definition vec_push {A} (cap : nat) (l : list A) (x : A) : list A :=
  if decide (length l < cap) then l ++ [x] else l.
Definition vec_extend {A} (cap : nat) (l src : list A) : list A :=
  if decide (length l + length src <= cap) then l ++ src else l.

(** [slice::chunks(n)], for a nonzero [n]: each chunk takes at least one
    element, so the list's length is enough fuel. *)
Fixpoint chunks_fuel {A} (fuel n : nat) (l : list A) : list (list A) :=
  match fuel, l with
  | O, _ | _, [] => []
  | S fuel, _ => take n l :: chunks_fuel fuel n (drop n l)
  end.
Definition chunks {A} (n : nat) (l : list A) : list (list A) := chunks_fuel (length l) n l.

(** How many elements satisfy [f]. *)
Fixpoint count {A} (f : A -> bool) (l : list A) : Z :=
  match l with [] => 0 | x :: l => (if f x then 1 else 0) + count f l end.

(** XOR of all bytes, the fold the LRC, TCK and PCK checks use. *)
Definition xor_all (l : list Z) : Z := fold_left Z.lxor l 0%Z.

(** ** Automation *)
Create Rewrite HintDb ccid_simp.
Create HintDb bytes.
Create HintDb ccid.

Ltac unfold_ints :=
  unfold u8, u16, u32, wrap8, wrap16, wrap32, wrapping_add32, wrapping_sub32,
    usize_add, sat_add32, u8_max, u32_max, u64_max in *.
(** [lia] with the integer definitions unfolded and [div]/[mod] explained. *)
Ltac int_lia := unfold_ints; try (Z.to_euclidean_division_equations; lia).

(** ** Lemmas on outcomes *)
Lemma bind_ret {A B} (a : A) (k : A -> outcome B) : (x ← Ret a; k x) = k a.
Proof. reflexivity. Qed.

Lemma bind_Ret_inv {A B} (m : outcome A) (k : A -> outcome B) b :
  (x ← m; k x) = Ret b -> exists a, m = Ret a /\ k a = Ret b.
Proof. destruct m as [a|]; [exists a; done | discriminate]. Qed.

Lemma returns_Ret {A} (a : A) : returns (Ret a).
Proof. by exists a. Qed.
#[export] Hint Resolve returns_Ret : ccid.

Lemma slice_ok {A} (l : list A) a b :
  a <= b -> b <= length l -> slice l a b = Ret (take (b - a) (drop a l)).
Proof. intros. unfold slice. by rewrite decide_True. Qed.

Lemma slice_prefix {A} (l : list A) n :
  n <= length l -> slice l 0 n = Ret (take n l).
Proof. intros. rewrite slice_ok by lia. by rewrite Nat.sub_0_r. Qed.

Lemma index_ok {A} (l : list A) i x : l !! i = Some x -> index l i = Ret x.
Proof. unfold index. by intros ->. Qed.

Lemma copy_at_ok {A} (l : list A) off src :
  off + length src <= length l ->
  copy_at l off src = Ret (take off l ++ src ++ drop (off + length src) l).
Proof. intros. unfold copy_at. by rewrite decide_True. Qed.

Lemma length_copy_at {A} (l l' : list A) off src :
  copy_at l off src = Ret l' -> length l' = length l.
Proof.
  unfold copy_at. case_decide; intros; simplify_eq.
  rewrite !length_app, length_take, length_drop. lia.
Qed.

Lemma copy_at_Panic {A} (l : list A) off src :
  copy_at l off src = Panic <-> (length l < off + length src)%nat.
Proof. unfold copy_at. case_decide; split; intros; try done; lia. Qed.

(** Copying into a zeroed array behind a filled head. *)
Lemma copy_at_replicate {A} (head src : list A) k (z : A) :
  length src <= k ->
  copy_at (head ++ replicate k z) (length head) src =
  Ret (head ++ src ++ replicate (k - length src) z).
Proof.
  intros H. rewrite copy_at_ok by (rewrite length_app, length_replicate; lia).
  rewrite take_app_length, drop_app_ge by lia.
  replace (length head + length src - length head) with (length src) by lia.
  by rewrite drop_replicate.
Qed.

(** Accesses at a known split of the list. *)
Lemma copy_at_middle {A} (l m r src : list A) off :
  off = length l -> length m = length src ->
  copy_at (l ++ m ++ r) off src = Ret (l ++ src ++ r).
Proof.
  intros -> H. rewrite copy_at_ok by (rewrite !length_app; lia).
  rewrite take_app_length. do 3 f_equal. rewrite (app_assoc l m r).
  apply drop_app_length'. rewrite length_app. lia.
Qed.

Lemma store_middle {A} (l r : list A) x y i :
  i = length l -> store (l ++ x :: r) i y = Ret (l ++ y :: r).
Proof.
  intros ->. unfold store. rewrite decide_True by (rewrite length_app; simpl; lia).
  by rewrite insert_app_r_alt, Nat.sub_diag by lia.
Qed.

Lemma slice_app {A} (l r : list A) n : n = length l -> slice (l ++ r) 0 n = Ret l.
Proof.
  intros ->. rewrite slice_prefix by (rewrite length_app; lia). by rewrite take_app_length.
Qed.

(** Every long enough list splits around its [n]-th element. *)
Lemma split_at {A} (l : list A) n : n < length l ->
  exists pre x, l = pre ++ x :: drop (S n) l /\ length pre = n.
Proof.
  intros H. destruct (lookup_lt_is_Some_2 l n H) as [x Hx].
  exists (take n l), x. split; [by rewrite take_drop_middle|]. rewrite length_take. lia.
Qed.

Lemma vec_push_fits {A} cap (l : list A) x : length l < cap -> vec_push cap l x = l ++ [x].
Proof. intros. unfold vec_push. by rewrite decide_True. Qed.

Lemma vec_extend_fits {A} cap (l src : list A) :
  length l + length src <= cap -> vec_extend cap l src = l ++ src.
Proof. intros. unfold vec_extend. by rewrite decide_True. Qed.

Lemma chunks_fuel_spec {A} fuel n (l : list A) : (0 < n)%nat -> (length l <= fuel)%nat ->
  concat (chunks_fuel fuel n l) = l /\
  Forall (fun c => (0 < length c <= n)%nat) (chunks_fuel fuel n l) /\
  (forall front last, chunks_fuel fuel n l = front ++ [last] -> Forall (fun c => length c = n) front).
Proof.
  intros Hn. revert l. induction fuel as [|fuel IH]; intros l Hl.
  { destruct l; [|cbn in Hl; lia]. split_and!; [done|constructor|]. intros [|? ?] ?; done. }
  destruct l as [|x l']; [split_and!; [done|constructor|]; intros [|? ?] ?; done|].
  set (l := x :: l') in *. change (chunks_fuel (S fuel) n l) with (take n l :: chunks_fuel fuel n (drop n l)).
  assert (0 < length l)%nat as H0 by (unfold l; cbn; lia).
  destruct (IH (drop n l)) as (Hc & Hf & Hfull); [rewrite length_drop; lia|].
  split_and!.
  - cbn [concat]. rewrite Hc. apply take_drop.
  - constructor; [rewrite length_take; lia|done].
  - intros front last E. destruct front as [|c front]; [constructor|].
    injection E as <- E. constructor; [|by eapply Hfull].
    rewrite length_take. destruct (decide (n <= length l)); [lia|].
    rewrite drop_ge in E by lia. destruct fuel; cbn in E; by destruct front.
Qed.

(** The chunks of a list: they concatenate to it, none is empty or longer than
    [n], and all but the last are full. *)
Lemma chunks_spec {A} n (l : list A) : (0 < n)%nat ->
  concat (chunks n l) = l /\
  Forall (fun c => (0 < length c <= n)%nat) (chunks n l) /\
  (forall front last, chunks n l = front ++ [last] -> Forall (fun c => length c = n) front).
Proof. intros. by apply chunks_fuel_spec. Qed.

Lemma map_replicate {A B} (f : A -> B) n x : map f (replicate n x) = replicate n (f x).
Proof. induction n as [|n IH]; [done|]. simpl. by rewrite IH. Qed.

(** ** Runs and refinement

    A component with step function [step] is run on a list of inputs,
    collecting the answers; a specification is a pure step function. *)
Fixpoint run {C E R} (step : C -> E -> outcome (C * R)) (c : C) (es : list E) :
    outcome (C * list R) :=
  match es with
  | [] => Ret (c, [])
  | e :: es => r ← step c e; rs ← run step r.1 es; Ret (rs.1, r.2 :: rs.2)
  end.

Fixpoint spec_run {A E R} (spec : A -> E -> A * R) (a : A) (es : list E) : A * list R :=
  match es with
  | [] => (a, [])
  | e :: es => let r := spec a e in let rs := spec_run spec r.1 es in (rs.1, r.2 :: rs.2)
  end.

Lemma run_app {C E R} (step : C -> E -> outcome (C * R)) c l1 l2 :
  run step c (l1 ++ l2) =
  (r1 ← run step c l1; r2 ← run step r1.1 l2; Ret (r2.1, r1.2 ++ r2.2)).
Proof.
  revert c. induction l1 as [|e l1 IH]; intros c; simpl.
  - destruct (run step c l2) as [[? ?]|]; done.
  - destruct (step c e) as [[c1 r1]|]; [|done]. simpl. rewrite IH.
    destruct (run step c1 l1) as [[c2 r2]|]; [|done]. simpl.
    destruct (run step c2 l2) as [[c3 r3]|]; done.
Qed.

Lemma length_run {C E R} (step : C -> E -> outcome (C * R)) c l c' rs :
  run step c l = Ret (c', rs) -> length rs = length l.
Proof.
  revert c rs. induction l as [|e l IH]; intros c rs; simpl; [by intros [= _ <-]|].
  destruct (step c e) as [[c1 r1]|]; [|done]. simpl.
  destruct (run step c1 l) as [[c2 r2]|] eqn:E1; [|done]. simpl. intros [= <- <-].
  simpl. f_equal. by apply (IH c1).
Qed.

(** A step-wise simulation lifts to runs: the component does not panic, gives
    the specification's answers and ends in a state that stands for the
    specification's state. *)
Section Simulation.
Context {C A E R : Type} (step : C -> E -> outcome (C * R)) (spec : A -> E -> A * R).
Context (inv : C -> Prop) (ok : E -> Prop) (abs : C -> A).

Definition simulates : Prop :=
  forall c e, inv c -> ok e ->
  exists c', step c e = Ret (c', (spec (abs c) e).2) /\ inv c' /\
             abs c' = (spec (abs c) e).1.

Lemma run_refines c es :
  simulates -> inv c -> Forall ok es ->
  exists c', run step c es = Ret (c', (spec_run spec (abs c) es).2) /\ inv c' /\
             abs c' = (spec_run spec (abs c) es).1.
Proof.
  intros Hsim Hc Hes. revert c Hc. induction Hes as [|e es He Hes IH]; intros c Hc.
  - by exists c.
  - destruct (Hsim c e Hc He) as (c1 & E1 & Hc1 & Ha1).
    destruct (IH c1 Hc1) as (c2 & E2 & Hc2 & Ha2).
    exists c2. simpl. rewrite E1, bind_ret. cbn [fst snd]. rewrite E2, bind_ret.
    by rewrite Ha1 in Ha2 |- *.
Qed.
End Simulation.

(** Safety of runs: an invariant that every step re-establishes, with every
    answer meeting [post]. *)
Lemma run_safe {C E R} (step : C -> E -> outcome (C * R)) (inv : C -> Prop)
    (ok : E -> Prop) (post : R -> Prop) c es :
  (forall c e, inv c -> ok e ->
   exists c' r, step c e = Ret (c', r) /\ inv c' /\ post r) ->
  inv c -> Forall ok es ->
  exists c' rs, run step c es = Ret (c', rs) /\ inv c' /\ Forall post rs.
Proof.
  intros Hstep Hc Hes. revert c Hc. induction Hes as [|e es He Hes IH]; intros c Hc.
  - by exists c, [].
  - destruct (Hstep c e Hc He) as (c1 & r1 & E1 & Hc1 & Hp1).
    destruct (IH c1 Hc1) as (c2 & rs & E2 & Hc2 & Hps).
    exists c2, (r1 :: rs). simpl. rewrite E1, bind_ret. cbn [fst snd].
    rewrite E2, bind_ret. by repeat constructor.
Qed.

(** ** Traces

    What happened between two states of a link, as a list of events. *)
Inductive trace {T E} (step : T -> E -> T -> Prop) : T -> list E -> T -> Prop :=
| trace_nil t : trace step t [] t
| trace_cons t e t1 tr t2 : step t e t1 -> trace step t1 tr t2 -> trace step t (e :: tr) t2.

Section Trace.
Context {T E : Type} {step : T -> E -> T -> Prop}.

Lemma trace_app t tr1 t1 tr2 t2 :
  trace step t tr1 t1 -> trace step t1 tr2 t2 -> trace step t (tr1 ++ tr2) t2.
Proof. induction 1; [done|]. intros. cbn [app]. econstructor; eauto. Qed.

Lemma trace_app_inv t tr1 tr2 t2 : trace step t (tr1 ++ tr2) t2 ->
  exists t1, trace step t tr1 t1 /\ trace step t1 tr2 t2.
Proof.
  revert t. induction tr1 as [|e tr1 IH]; intros t H; [exists t; split; [constructor|done]|].
  inversion H; subst. edestruct IH as (t3 & ? & ?); [eassumption|].
  exists t3. split; [econstructor; eauto|done].
Qed.

Lemma trace_one t e t' : step t e t' -> trace step t [e] t'.
Proof. intros. econstructor; [done|constructor]. Qed.
End Trace.

(** ** Lemmas on bytes *)

(** A boolean fact about every byte is checked by evaluation. *)
Lemma byte_forall (P : Z -> bool) :
  forallb P (map Z.of_nat (seq 0 256)) = true -> forall b, u8 b -> P b = true.
Proof.
  intros H b [Hlo Hhi]. rewrite forallb_forall in H. apply H.
  apply in_map_iff. exists (Z.to_nat b). split; [lia|].
  apply in_seq. lia.
Qed.

Ltac byte_eval P b H :=
  apply Is_true_true_1, (byte_forall (fun b => P b)); [vm_compute; reflexivity | exact H].


Lemma bytes_app l1 l2 : bytes (l1 ++ l2) <-> bytes l1 /\ bytes l2.
Proof. apply Forall_app. Qed.

Lemma bytes_snoc l b : bytes (l ++ [b]) <-> bytes l /\ u8 b.
Proof. unfold bytes. by rewrite Forall_app, Forall_singleton. Qed.

Lemma bytes_take n l : bytes l -> bytes (take n l).
Proof. apply Forall_take. Qed.
Lemma bytes_drop n l : bytes l -> bytes (drop n l).
Proof. apply Forall_drop. Qed.
#[export] Hint Resolve bytes_take bytes_drop : bytes.

Lemma length_store {A} (l l' : list A) i x : store l i x = Ret l' -> length l' = length l.
Proof. unfold store. case_decide; intros; simplify_eq. apply length_insert. Qed.

Lemma copy_at_bytes l off src l' :
  bytes l -> bytes src -> copy_at l off src = Ret l' -> bytes l'.
Proof.
  unfold copy_at. intros Hl Hs. case_decide; [|done]. intros [= <-].
  rewrite !bytes_app. auto with bytes.
Qed.

Lemma store_bytes l i x l' : bytes l -> u8 x -> store l i x = Ret l' -> bytes l'.
Proof.
  unfold store. intros Hl Hx. case_decide; [|done]. intros [= <-]. by apply Forall_insert.
Qed.

Lemma from_to_le32 z : u32 z ->
  from_le32 (z mod 256) ((z / 256) mod 256) ((z / 65536) mod 256)
    ((z / 16777216) mod 256) = z.
Proof. unfold from_le32. int_lia. Qed.

(** ** Bitwise operations on bytes *)
Lemma testbit_high z n i :
  (0 <= n -> 0 <= z < 2 ^ n -> n <= i -> Z.testbit z i = false)%Z.
Proof.
  intros Hn Hz Hi. rewrite <- (Z.mod_small z (2 ^ n)) by lia.
  by apply Z.mod_pow2_bits_high.
Qed.

Lemma bits_lt z n :
  (0 <= n -> 0 <= z -> (forall i, n <= i -> Z.testbit z i = false) -> z < 2 ^ n)%Z.
Proof.
  intros Hn Hz Hbits.
  replace z with (z mod 2 ^ n)%Z.
  - apply Z.mod_pos_bound. apply Z.pow_pos_nonneg; lia.
  - apply Z.bits_inj'. intros i Hi.
    destruct (Z.lt_ge_cases i n).
    + rewrite Z.mod_pow2_bits_low by lia. done.
    + rewrite Z.mod_pow2_bits_high, Hbits by lia. done.
Qed.

Ltac u8_bits :=
  intros; unfold u8 in *; split;
  [first [apply Z.lxor_nonneg | apply Z.lor_nonneg | apply Z.land_nonneg]; lia |];
  change 256%Z with (2 ^ 8)%Z in *; apply bits_lt;
  [lia
  |first [apply Z.lxor_nonneg | apply Z.lor_nonneg | apply Z.land_nonneg]; lia
  |intros; rewrite ?Z.lxor_spec, ?Z.lor_spec, ?Z.land_spec;
   rewrite !(testbit_high _ 8) by lia; done].

Lemma u8_lxor a b : u8 a -> u8 b -> u8 (Z.lxor a b).
Proof. u8_bits. Qed.
Lemma u8_lor a b : u8 a -> u8 b -> u8 (Z.lor a b).
Proof. u8_bits. Qed.
Lemma u8_land a b : u8 a -> u8 b -> u8 (Z.land a b).
Proof. u8_bits. Qed.
Lemma u8_wrap8 z : u8 (wrap8 z).
Proof. unfold u8, wrap8. by apply Z.mod_pos_bound. Qed.
#[export] Hint Resolve u8_lxor u8_lor u8_land u8_wrap8 : bytes.
#[export] Hint Extern 1 (u8 _) => unfold u8; lia : bytes.
#[export] Hint Extern 1 (bytes _) => unfold bytes : bytes.

(** A concrete byte string. *)
Lemma bytes_check l : forallb (fun z => (0 <=? z) && (z <? 256))%Z l = true -> bytes l.
Proof.
  unfold bytes. rewrite forallb_forall, Forall_forall. setoid_rewrite list_elem_of_In.
  intros H x Hx. specialize (H x Hx). unfold u8. lia.
Qed.
Ltac solve_bytes := apply bytes_check; vm_compute; reflexivity.

Lemma bytes_to_le32 z : bytes (to_le32 z).
Proof. unfold bytes, to_le32. repeat constructor; apply Z.mod_pos_bound; done. Qed.
#[export] Hint Resolve bytes_to_le32 : bytes.

(** ** The XOR checksum *)
Lemma fold_xor_acc l a : fold_left Z.lxor l a = Z.lxor a (xor_all l).
Proof.
  revert a. induction l as [|x l IH]; intros a.
  - simpl. by rewrite Z.lxor_0_r.
  - change (xor_all (x :: l)) with (fold_left Z.lxor l (Z.lxor 0 x)).
    rewrite Z.lxor_0_l, (IH x). simpl. rewrite IH. apply Z.lxor_assoc.
Qed.

Lemma xor_all_cons x l : xor_all (x :: l) = Z.lxor x (xor_all l).
Proof. unfold xor_all at 1. simpl. apply fold_xor_acc. Qed.

Lemma xor_all_app l1 l2 : xor_all (l1 ++ l2) = Z.lxor (xor_all l1) (xor_all l2).
Proof.
  unfold xor_all at 1. rewrite fold_left_app. apply fold_xor_acc.
Qed.

(** Appending its own checksum makes the XOR of the whole zero. *)
Lemma xor_all_self l : xor_all (l ++ [xor_all l]) = 0%Z.
Proof.
  rewrite xor_all_app, xor_all_cons. change (xor_all []) with 0%Z.
  by rewrite Z.lxor_0_r, Z.lxor_nilpotent.
Qed.

Lemma xor_all_zero_last l x : xor_all (l ++ [x]) = 0%Z <-> x = xor_all l.
Proof.
  rewrite xor_all_app, xor_all_cons. change (xor_all []) with 0%Z.
  rewrite Z.lxor_0_r, Z.lxor_eq_0_iff. naive_solver.
Qed.

Lemma u8_xor_all l : bytes l -> u8 (xor_all l).
Proof.
  induction 1; [by unfold u8, xor_all; simpl|].
  rewrite xor_all_cons. auto with bytes.
Qed.
#[export] Hint Resolve u8_xor_all : bytes.

Lemma count_nonneg {A} (f : A -> bool) l : (0 <= count f l)%Z.
Proof. induction l as [|x l IH]; simpl; [lia|]. case_match; lia. Qed.

Lemma count_app {A} (f : A -> bool) a b : count f (a ++ b) = (count f a + count f b)%Z.
Proof. induction a as [|x a IH]; cbn [app count]; [done|]. rewrite IH. lia. Qed.

(** A single changed byte changes the XOR: the checksum detects it. *)
Lemma xor_all_insert l i x y :
  l !! i = Some x -> xor_all (<[i := y]> l) = xor_all l -> y = x.
Proof.
  intros Hi. rewrite insert_take_drop by (by eapply lookup_lt_Some).
  rewrite <- (take_drop_middle l i x Hi) at 3.
  rewrite !xor_all_app, !xor_all_cons. intros H.
  apply (f_equal (Z.lxor (xor_all (take i l)))) in H.
  rewrite <- !Z.lxor_assoc, !Z.lxor_nilpotent, !Z.lxor_0_l in H.
  apply (f_equal (fun z => Z.lxor z (xor_all (drop (S i) l)))) in H.
  by rewrite !Z.lxor_assoc, !Z.lxor_nilpotent, !Z.lxor_0_r in H.
Qed.

(** ** Loops without a bound of their own

    [turns n step s] runs [step] two to the [n] times, or until it breaks
    ([inr]); [inl] is a loop that is still running then. *)
Fixpoint turns {S A} (n : nat) (step : S -> S + A) (s : S) : S + A :=
  match n with
  | O => step s
  | Datatypes.S n => match turns n step s with
                     | inl s => turns n step s
                     | inr a => inr a
                     end
  end.

Section Turns.
Context {S A : Type} (step : S -> S + A) (Inv : S -> Prop) (m : S -> Z).
Hypothesis keeps : forall s s', Inv s -> step s = inl s' -> Inv s' /\ (0 <= m s' < m s)%Z.

Lemma turns_measure n s : Inv s ->
  match turns n step s with
  | inl s' => Inv s' /\ (0 <= m s' /\ m s' + 2 ^ Z.of_nat n <= m s)%Z
  | inr a => exists s', Inv s' /\ step s' = inr a
  end.
Proof.
  revert s. induction n as [|n IH]; intros s Hs; cbn [turns].
  - destruct (step s) as [s'|a] eqn:Hstep; [|eauto].
    destruct (keeps _ _ Hs Hstep). cbn. split_and!; [done|lia|lia].
  - specialize (IH s Hs) as IH1. destruct (turns n step s) as [s1|a]; [|done].
    destruct IH1 as (Hs1 & Hm1 & Hle1). specialize (IH s1 Hs1).
    destruct (turns n step s1) as [s2|a]; [|done].
    replace (2 ^ Z.of_nat (Datatypes.S n))%Z with (2 * 2 ^ Z.of_nat n)%Z
      by (rewrite Nat2Z.inj_succ, Z.pow_succ_r; lia).
    destruct IH as (? & ? & ?). split_and!; [done|lia|lia].
Qed.

(** With as many turns as the measure has values, the loop breaks. *)
Lemma turns_end n s : Inv s -> (forall s', Inv s' -> 0 < m s')%Z -> (m s <= 2 ^ Z.of_nat n)%Z ->
  exists s' a, turns n step s = inr a /\ Inv s' /\ step s' = inr a.
Proof.
  intros Hs Hpos Hm. pose proof (turns_measure n s Hs) as Ht. destruct (turns n step s) as [s'|a].
  - destruct Ht as (Hs' & _ & Hle). specialize (Hpos _ Hs'). lia.
  - destruct Ht as (s' & ? & ?). eauto.
Qed.
End Turns.

(** A loop none of whose turns breaks is never over. *)
Lemma turns_forever {S A} (step : S -> S + A) (Inv : S -> Prop) n s :
  (forall s, Inv s -> exists s', step s = inl s' /\ Inv s') -> Inv s ->
  exists s', turns n step s = inl s' /\ Inv s'.
Proof.
  intros H. revert s. induction n as [|n IH]; intros s Hs; cbn [turns]; [by apply H|].
  destruct (IH s Hs) as (s1 & -> & H1). by apply IH.
Qed.

(** The value of an option that is known to have one. *)
Lemma is_Some_proj_eq {A} (o : option A) (H : is_Some o) a : o = Some a -> is_Some_proj H = a.
Proof. intros ->. done. Qed.
