(* ===== verification/Wire.v ===== *)
(** * CCID wire format

    The message types, header, status byte and response builders shared by
    every reader: [ccid-protocol/src/types.rs] and [status.rs] (modules
    [Types] and [Status]), and the [response], [pps] and [params] modules of
    [ccid-core/src/lib.rs].  Bytes are [Z], messages are lists of bytes. *)
From Stdlib Require Import ZArith Lia ZifyBool.
From stdpp Require Import prelude.
From S2P Require Import Prelude.
Local Open Scope Z_scope.

(** ** ccid-protocol/src/types.rs *)
Module Types.

Definition PC_TO_RDR_ICC_POWER_ON : Z := 0x62.
Definition PC_TO_RDR_ICC_POWER_OFF : Z := 0x63.
Definition PC_TO_RDR_GET_SLOT_STATUS : Z := 0x65.
Definition PC_TO_RDR_XFR_BLOCK : Z := 0x6F.
Definition PC_TO_RDR_GET_PARAMETERS : Z := 0x6C.
Definition PC_TO_RDR_SET_PARAMETERS : Z := 0x61.
Definition PC_TO_RDR_SECURE : Z := 0x69.
Definition PC_TO_RDR_T0_APDU : Z := 0x6A.
Definition PC_TO_RDR_ESCAPE : Z := 0x6B.
Definition PC_TO_RDR_RESET_PARAMETERS : Z := 0x6D.
Definition PC_TO_RDR_ICC_CLOCK : Z := 0x6E.
Definition PC_TO_RDR_MECHANICAL : Z := 0x71.
Definition PC_TO_RDR_ABORT : Z := 0x72.
Definition PC_TO_RDR_SET_DATA_RATE_AND_CLOCK_FREQ : Z := 0x73.

Definition RDR_TO_PC_DATABLOCK : Z := 0x80.
Definition RDR_TO_PC_SLOTSTATUS : Z := 0x81.
Definition RDR_TO_PC_PARAMETERS : Z := 0x82.
Definition RDR_TO_PC_ESCAPE : Z := 0x83.
Definition RDR_TO_PC_DATA_RATE_AND_CLOCK_FREQ : Z := 0x84.
Definition RDR_TO_PC_NOTIFY_SLOT_CHANGE : Z := 0x50.

Definition CCID_HEADER_SIZE : nat := 10.
Definition MAX_CCID_MESSAGE_LENGTH : nat := 271.

Definition ICC_STATUS_PRESENT_ACTIVE : Z := 0x00.
Definition ICC_STATUS_PRESENT_INACTIVE : Z := 0x01.
Definition ICC_STATUS_NO_ICC : Z := 0x02.

Definition COMMAND_STATUS_NO_ERROR : Z := 0x00.
Definition COMMAND_STATUS_FAILED : Z := 0x01.
Definition COMMAND_STATUS_TIME_EXTENSION : Z := 0x02.

Definition CCID_ERR_CMD_NOT_SUPPORTED : Z := 0x00.
Definition CCID_ERR_CMD_SLOT_BUSY : Z := 0xE0.
Definition CCID_ERR_PIN_CANCELLED : Z := 0xEF.
Definition CCID_ERR_PIN_TIMEOUT : Z := 0xF0.
Definition CCID_ERR_CARD_TIMEOUT : Z := 0xF0.
Definition CCID_ERR_HW_ERROR : Z := 0xFB.
Definition CCID_ERR_XFR_OVERRUN : Z := 0xFC.
Definition CCID_ERR_XFR_PARITY_ERROR : Z := 0xFD.
Definition CCID_ERR_ICC_MUTE : Z := 0xFE.
Definition CCID_ERR_CMD_ABORTED : Z := 0xFF.

Definition CARD_ABSENT : Z := 0x02.
Definition CARD_PRESENT : Z := 0x03.

Definition DEFAULT_T0_PARAMS : list Z := [0x11; 0x00; 0x00; 0x00; 0x00].
Definition DEFAULT_T1_PARAMS : list Z := [0x11; 0x00; 0x00; 0x03; 0x00; 0x20; 0x00].

Inductive SlotState := Absent | PresentInactive | PresentActive.

#[global] Instance SlotState_eq_dec : EqDecision SlotState.
Proof. solve_decision. Defined.

Definition icc_status (s : SlotState) : Z :=
  match s with
  | PresentActive => ICC_STATUS_PRESENT_ACTIVE
  | PresentInactive => ICC_STATUS_PRESENT_INACTIVE
  | Absent => ICC_STATUS_NO_ICC
  end.

(** The fields of the Rust struct, [specific : [u8; 3]] as a triple. *)
Record CcidHeader := mkHeader {
  message_type : Z;
  dw_length : Z;
  slot : Z;
  seq : Z;
  specific : Z * Z * Z
}.

Definition specific0 (h : CcidHeader) : Z := (specific h).1.1.

(** [None] exactly when fewer than ten bytes are given. *)
Definition CcidHeader_parse (bs : list Z) : option CcidHeader :=
  match bs with
  | b0 :: b1 :: b2 :: b3 :: b4 :: b5 :: b6 :: b7 :: b8 :: b9 :: _ =>
      Some {| message_type := b0;
              dw_length := from_le32 b1 b2 b3 b4;
              slot := b5;
              seq := b6;
              specific := (b7, b8, b9) |}
  | _ => None
  end.

Definition CcidHeader_build
    (msg_type len slot seq status error specific : Z) : list Z :=
  msg_type :: to_le32 len ++ [slot; seq; status; error; specific].

End Types.
Export Types.

(** ** ccid-protocol/src/status.rs *)
Module Status.

Definition build_bstatus (cmd_status icc_status : Z) : Z :=
  Z.lor (Z.shiftl (Z.land cmd_status 3) 6) (Z.land icc_status 3).

Definition slot_status_ok (icc_status : Z) : Z :=
  build_bstatus COMMAND_STATUS_NO_ERROR icc_status.
Definition slot_status_failed (icc_status : Z) : Z :=
  build_bstatus COMMAND_STATUS_FAILED icc_status.
Definition slot_status_time_ext (icc_status : Z) : Z :=
  build_bstatus COMMAND_STATUS_TIME_EXTENSION icc_status.

(** The host's reading of the byte: bmCommandStatus and bmICCStatus. *)
Definition cmd_of_bstatus (b : Z) : Z := Z.shiftr b 6.
Definition icc_of_bstatus (b : Z) : Z := Z.land b 3.
End Status.
Export Status.

(** ** ccid-core/src/lib.rs, mod response

    A response builder gets the caller's buffer and returns the buffer after
    the call and the number of bytes written (0 when the buffer is short). *)
Module Response.

Definition reply : Type := list Z * nat.

Definition write_message (msg_type slot seq status error specific : Z)
    (payload buf : list Z) : reply :=
  let total_len := (CCID_HEADER_SIZE + length payload)%nat in
  if decide (length buf < total_len)%nat then (buf, 0%nat)
  else
    let header := CcidHeader_build msg_type (wrap32 (Z.of_nat (length payload)))
                    slot seq status error specific in
    (header ++ payload ++ drop total_len buf, total_len).

Definition write_slot_status (slot seq icc_status cmd_status error clock_status : Z)
    (buf : list Z) : reply :=
  write_message RDR_TO_PC_SLOTSTATUS slot seq
    (build_bstatus cmd_status icc_status) error clock_status [] buf.

Definition write_data_block (slot seq icc_status cmd_status error chain_parameter : Z)
    (data buf : list Z) : reply :=
  write_message RDR_TO_PC_DATABLOCK slot seq
    (build_bstatus cmd_status icc_status) error chain_parameter data buf.

Definition write_parameters (slot seq icc_status cmd_status error protocol : Z)
    (params buf : list Z) : reply :=
  write_message RDR_TO_PC_PARAMETERS slot seq
    (build_bstatus cmd_status icc_status) error protocol params buf.

End Response.
Export Response.

(** ** ccid-core/src/lib.rs, mod pps *)
Module Pps.

Definition is_pps_request (apdu : list Z) : bool :=
  if negb ((3 <=? length apdu) && (length apdu <=? 5))%nat then false
  else match apdu with
       | ppss :: pps0 :: _ =>
           if negb (ppss =? 0xFF) then false
           else (Z.land pps0 0xE0 =? 0x00) && negb (pps0 =? 0x00)
       | _ => false
       end.

Definition build_pps_response (slot seq : Z) (pps_data buf : list Z) : reply :=
  write_data_block slot seq ICC_STATUS_PRESENT_ACTIVE COMMAND_STATUS_NO_ERROR
    0 0 pps_data buf.

End Pps.
Export Pps.

(** ** ccid-core/src/lib.rs, mod params *)
Module Params.

Definition default_params (protocol : Z) : list Z :=
  if protocol =? 0 then DEFAULT_T0_PARAMS else DEFAULT_T1_PARAMS.

Definition validate_params_length (protocol len : Z) : bool :=
  if protocol =? 0 then len =? 5
  else if protocol =? 1 then len =? 7
  else false.

(** [specific[0]], a panic on an empty slice. *)
Definition protocol_from_specific (specific : list Z) : outcome Z :=
  index specific 0.

End Params.
Export Params.

(** ** The status byte *)
Lemma bstatus_decode cmd icc :
  0 <= cmd < 4 -> 0 <= icc < 4 ->
  cmd_of_bstatus (build_bstatus cmd icc) = cmd /\
  icc_of_bstatus (build_bstatus cmd icc) = icc.
Proof.
  intros Hc Hi.
  assert (cmd = 0 \/ cmd = 1 \/ cmd = 2 \/ cmd = 3) as Hc' by lia.
  assert (icc = 0 \/ icc = 1 \/ icc = 2 \/ icc = 3) as Hi' by lia.
  destruct Hc' as [->|[->|[->| ->]]], Hi' as [->|[->|[->| ->]]]; done.
Qed.

Lemma icc_status_range s : 0 <= icc_status s < 4.
Proof. destruct s; done. Qed.
#[export] Hint Resolve icc_status_range : ccid.

Lemma icc_status_inj s1 s2 : icc_status s1 = icc_status s2 -> s1 = s2.
Proof. by destruct s1, s2. Qed.

(** Bit 6 of the status byte, the test [response[7] & (FAILED << 6)]. *)
Lemma bstatus_failed_bit cmd icc :
  0 <= cmd < 2 -> 0 <= icc < 4 ->
  Z.land (build_bstatus cmd icc) (Z.shiftl COMMAND_STATUS_FAILED 6) = Z.shiftl cmd 6.
Proof.
  intros Hc Hi.
  assert (cmd = 0 \/ cmd = 1) as Hc' by lia.
  assert (icc = 0 \/ icc = 1 \/ icc = 2 \/ icc = 3) as Hi' by lia.
  destruct Hc' as [->| ->], Hi' as [->|[->|[->| ->]]]; done.
Qed.

(** ** Headers *)
Lemma length_build m l s q st e sp : length (CcidHeader_build m l s q st e sp) = 10%nat.
Proof. done. Qed.

Lemma parse_build m l s q st e sp rest :
  u32 l ->
  CcidHeader_parse (CcidHeader_build m l s q st e sp ++ rest) =
  Some {| message_type := m; dw_length := l; slot := s; seq := q;
          specific := (st, e, sp) |}.
Proof.
  intros Hl. unfold CcidHeader_build, to_le32. simpl.
  by rewrite from_to_le32.
Qed.

Lemma parse_None bs : CcidHeader_parse bs = None <-> (length bs < 10)%nat.
Proof.
  split.
  - do 10 (destruct bs as [|? bs]; [simpl; lia|]). done.
  - intros H. do 10 (destruct bs as [|? bs]; [done|]). simpl in H. lia.
Qed.

Lemma parse_Some_length bs h : CcidHeader_parse bs = Some h -> (10 <= length bs)%nat.
Proof.
  intros H. destruct (Nat.lt_ge_cases (length bs) 10) as [Hlt|]; [|done].
  apply parse_None in Hlt. congruence.
Qed.

Lemma parse_bytes bs h :
  bytes bs -> CcidHeader_parse bs = Some h ->
  u8 (message_type h) /\ u32 (dw_length h) /\ u8 (slot h) /\ u8 (seq h) /\ u8 (specific0 h).
Proof.
  intros Hb. do 10 (destruct bs as [|? bs]; [done|]). intros [= <-].
  unfold bytes in Hb. rewrite !Forall_cons in Hb. unfold specific0. simpl.
  destruct_and!. split_and!; try done. unfold from_le32. int_lia.
Qed.

(** ** Responses *)
Lemma write_message_fits ty s q st e sp payload buf :
  (10 + length payload <= length buf)%nat ->
  write_message ty s q st e sp payload buf =
  (CcidHeader_build ty (wrap32 (Z.of_nat (length payload))) s q st e sp ++ payload ++
     drop (10 + length payload) buf, (10 + length payload)%nat).
Proof.
  intros H. unfold write_message, CCID_HEADER_SIZE.
  by rewrite decide_False by lia.
Qed.

Lemma write_message_short ty s q st e sp payload buf :
  (length buf < 10 + length payload)%nat ->
  write_message ty s q st e sp payload buf = (buf, 0%nat).
Proof. intros H. unfold write_message, CCID_HEADER_SIZE. by rewrite decide_True. Qed.

Lemma write_message_length ty s q st e sp payload buf :
  length (write_message ty s q st e sp payload buf).1 = length buf.
Proof.
  destruct (Nat.lt_ge_cases (length buf) (10 + length payload)).
  - by rewrite write_message_short.
  - rewrite write_message_fits by done. cbn [fst].
    rewrite !length_app, length_build, length_drop. lia.
Qed.
#[export] Hint Rewrite write_message_length : ccid_simp.

(** The written message is exactly the header followed by the payload. *)
Lemma write_message_take ty s q st e sp payload buf :
  (10 + length payload <= length buf)%nat ->
  take (10 + length payload) (write_message ty s q st e sp payload buf).1 =
  CcidHeader_build ty (wrap32 (Z.of_nat (length payload))) s q st e sp ++ payload.
Proof.
  intros H. rewrite write_message_fits by done. cbn [fst].
  rewrite app_assoc, take_app_length'; [done|].
  rewrite length_app, length_build. done.
Qed.

(** The status byte of a written message, [response[7]]. *)
Lemma write_message_status ty s q st e sp payload buf :
  (10 + length payload <= length buf)%nat ->
  (write_message ty s q st e sp payload buf).1 !! 7%nat = Some st.
Proof. intros H. by rewrite write_message_fits. Qed.
