(* ===== verification/Atr.v ===== *)
(** * ATR parsing and ISO 7816-3 timing

    [ccid-protocol/src/atr.rs]: the ATR parser and its TCK check, the T=0 and
    T=1 timing formulas, the T=0 procedure bytes, the activation plan; and the
    host-buildable part of [ccid-firmware/src/smartcard_common.rs].  The
    parser's loop is its body ([parse_atr_body]) iterated with fuel. *)
From Stdlib Require Import ZArith Lia ZifyBool.
From stdpp Require Import prelude.
From S2P Require Import Prelude.
Local Open Scope Z_scope.

(** ** Parameters *)
Record AtrParams := mkAtrParams {
  fi : Z;
  di : Z;
  ta1 : Z;
  protocol : Z;
  guard_time_n : Z;
  ifsc : Z;
  bwi : Z;
  cwi : Z;
  edc_type : Z;
  has_ta1 : bool
}.

Definition AtrParams_default : AtrParams :=
  {| fi := 372; di := 1; ta1 := 0; protocol := 0; guard_time_n := 0;
     ifsc := 32; bwi := 4; cwi := 13; edc_type := 0; has_ta1 := false |}.

Definition fi_from_ta1_high (nibble : Z) : Z :=
  let FI_TABLE := [372; 372; 558; 744; 1116; 1488; 1860; 0; 0; 512; 768; 1024;
                   1536; 2048; 0; 0] in
  default 372 (FI_TABLE !! Z.to_nat nibble).

Definition di_from_ta1_low (nibble : Z) : Z :=
  let DI_TABLE := [0; 1; 2; 4; 8; 16; 32; 64; 12; 20; 0; 0; 0; 0; 0; 0] in
  let x := default 1 (DI_TABLE !! Z.to_nat nibble) in
  if x =? 0 then 1 else x.

(** Field updates of the mutable local [p]. *)
Definition set_ta1 (ta : Z) (p : AtrParams) : AtrParams :=
  {| fi := fi_from_ta1_high (Z.shiftr ta 4);
     di := di_from_ta1_low (Z.land ta 0x0F);
     ta1 := ta; protocol := protocol p; guard_time_n := guard_time_n p;
     ifsc := ifsc p; bwi := bwi p; cwi := cwi p; edc_type := edc_type p;
     has_ta1 := true |}.
Definition set_ifsc (v : Z) (p : AtrParams) : AtrParams :=
  {| fi := fi p; di := di p; ta1 := ta1 p; protocol := protocol p;
     guard_time_n := guard_time_n p; ifsc := v; bwi := bwi p; cwi := cwi p;
     edc_type := edc_type p; has_ta1 := has_ta1 p |}.
Definition set_bwi_cwi (b c : Z) (p : AtrParams) : AtrParams :=
  {| fi := fi p; di := di p; ta1 := ta1 p; protocol := protocol p;
     guard_time_n := guard_time_n p; ifsc := ifsc p; bwi := b; cwi := c;
     edc_type := edc_type p; has_ta1 := has_ta1 p |}.
Definition set_guard_time_n (v : Z) (p : AtrParams) : AtrParams :=
  {| fi := fi p; di := di p; ta1 := ta1 p; protocol := protocol p;
     guard_time_n := v; ifsc := ifsc p; bwi := bwi p; cwi := cwi p;
     edc_type := edc_type p; has_ta1 := has_ta1 p |}.
Definition set_edc_type (v : Z) (p : AtrParams) : AtrParams :=
  {| fi := fi p; di := di p; ta1 := ta1 p; protocol := protocol p;
     guard_time_n := guard_time_n p; ifsc := ifsc p; bwi := bwi p; cwi := cwi p;
     edc_type := v; has_ta1 := has_ta1 p |}.
Definition set_protocol (v : Z) (p : AtrParams) : AtrParams :=
  {| fi := fi p; di := di p; ta1 := ta1 p; protocol := v;
     guard_time_n := guard_time_n p; ifsc := ifsc p; bwi := bwi p; cwi := cwi p;
     edc_type := edc_type p; has_ta1 := has_ta1 p |}.

(** ** The parser's loop *)

(** The mutable locals of [parse_atr]. *)
Record atr_locals := mkLocals {
  l_p : AtrParams;
  l_y : Z;
  l_idx : nat;
  l_level : Z;
  l_td : Z
}.

(** Either the loop goes on with these locals, or it broke with this result. *)
Inductive loop_ctl :=
| Continue (s : atr_locals)
| Break (p : AtrParams).

Definition and_then (c : loop_ctl) (k : atr_locals -> loop_ctl) : loop_ctl :=
  match c with Continue s => k s | Break p => Break p end.

(** One optional interface byte: [if y & bit != 0 { if idx >= len { break }
    let b = atr[idx]; idx += 1; .. }]. *)
Definition interface_byte (atr : list Z) (bit : Z)
    (use : Z -> atr_locals -> AtrParams) (s : atr_locals) : loop_ctl :=
  if negb (Z.land (l_y s) bit =? 0) then
    match atr !! l_idx s with
    | None => Break (l_p s)
    | Some b => Continue {| l_p := use b s; l_y := l_y s; l_idx := S (l_idx s);
                            l_level := l_level s; l_td := l_td s |}
    end
  else Continue s.

Definition use_ta (ta : Z) (s : atr_locals) : AtrParams :=
  if l_level s =? 1 then set_ta1 ta (l_p s)
  else if (3 <=? l_level s) && (l_td s =? 1) then set_ifsc ta (l_p s)
  else l_p s.

Definition use_tb (tb : Z) (s : atr_locals) : AtrParams :=
  if (2 <=? l_level s) && (l_td s =? 1)
  then set_bwi_cwi (Z.land (Z.shiftr tb 4) 0x0F) (Z.land tb 0x0F) (l_p s)
  else l_p s.

Definition use_tc (tc : Z) (s : atr_locals) : AtrParams :=
  if l_level s =? 1 then set_guard_time_n tc (l_p s)
  else if l_td s =? 1 then set_edc_type (Z.land tc 1) (l_p s)
  else l_p s.

(** The TD part: the next level, or the end of the loop. *)
Definition td_byte (atr : list Z) (s : atr_locals) : loop_ctl :=
  if negb (Z.land (l_y s) 0x08 =? 0) then
    match atr !! l_idx s with
    | None => Break (l_p s)
    | Some td =>
        let td_protocol := Z.land td 0x0F in
        let p := if l_level s =? 1 then set_protocol td_protocol (l_p s) else l_p s in
        if l_level s =? u8_max then Break p
        else Continue {| l_p := p; l_y := Z.land (Z.shiftr td 4) 0x0F;
                         l_idx := S (l_idx s); l_level := l_level s + 1;
                         l_td := td_protocol |}
    end
  else Break (l_p s).

Definition parse_atr_body (atr : list Z) (s : atr_locals) : loop_ctl :=
  and_then (interface_byte atr 0x01 use_ta s) (fun s =>
  and_then (interface_byte atr 0x02 use_tb s) (fun s =>
  and_then (interface_byte atr 0x04 use_tc s) (fun s =>
  td_byte atr s))).

Fixpoint parse_atr_loop (fuel : nat) (atr : list Z) (s : atr_locals) : option AtrParams :=
  match fuel with
  | O => None
  | S fuel => match parse_atr_body atr s with
              | Break p => Some p
              | Continue s' => parse_atr_loop fuel atr s'
              end
  end.

Definition parse_atr_start (t0 : Z) : atr_locals :=
  {| l_p := AtrParams_default; l_y := Z.land (Z.shiftr t0 4) 0x0F; l_idx := 2;
     l_level := 1; l_td := 0 |}.

(** [parse_atr]; the loop's fuel is the length of the ATR, which suffices
    ([loop_wf]). *)
Definition parse_atr (atr : list Z) : AtrParams :=
  match atr with
  | _ :: t0 :: _ =>
      default AtrParams_default (parse_atr_loop (length atr) atr (parse_atr_start t0))
  | _ => AtrParams_default
  end.

Definition verify_atr_tck (atr : list Z) (protocol : Z) : bool :=
  if negb (protocol =? 1) then true
  else if (length atr <? 3)%nat then true
  else
    let expected := xor_all (take (length atr - 2) (drop 1 atr)) in
    match last atr with
    | Some tck => expected =? tck
    | None => true
    end.

(** ** Timing *)
Definition t1_bwt_ms (bwi baud : Z) : Z :=
  if baud =? 0 then 5000
  else
    let bwt_etu := 11 + Z.shiftl 1 (Z.land bwi 0x0F) * 960 in
    Z.min (div_ceil (bwt_etu * 1000) baud) u32_max.

Definition T1_FIRST_BYTE_FLOOR_MS : Z := 500.
Definition T1_FIRST_BYTE_MAX_MS : Z := 5000.
Definition T1_INTER_BYTE_FLOOR_MS : Z := 50.

Definition t1_first_byte_timeout_ms (bwi baud : Z) : Z :=
  clamp (t1_bwt_ms bwi baud) T1_FIRST_BYTE_FLOOR_MS T1_FIRST_BYTE_MAX_MS.

Definition t1_cwt_ms (cwi baud : Z) : Z :=
  if baud =? 0 then T1_INTER_BYTE_FLOOR_MS
  else
    let cwt_etu := Z.shiftl 1 (Z.land cwi 0x0F) + 11 in
    Z.min (div_ceil (cwt_etu * 1000) baud) u32_max.

Definition t1_inter_byte_timeout_ms (cwi baud : Z) : Z :=
  clamp (t1_cwt_ms cwi baud) T1_INTER_BYTE_FLOOR_MS T1_FIRST_BYTE_MAX_MS.

Definition T1_CHAR_HALF_ETU_LEGACY_N2 : Z := 24.
Definition T1_CHAR_HALF_ETU_POST_135_MAX : Z := 27.

(** The [u64] products wrap. *)
Definition wrap64 (z : Z) : Z := z mod 18446744073709551616.

Definition t1_exchange_wire_time_ms
    (tx_chars rx_chars char_half_etu fi di card_clk_hz : Z) : Z :=
  if (di =? 0) || (card_clk_hz =? 0) || (fi =? 0) then u32_max
  else
    let half_etu_total := wrap64 (sat_add32 tx_chars rx_chars * char_half_etu) in
    let micros := wrap64 (wrap64 (half_etu_total * fi) * 1000000)
                  / wrap64 (2 * di * card_clk_hz) in
    Z.min (div_ceil micros 1000) u32_max.

Definition t0_wwt_ms (wi baud : Z) : Z :=
  if baud =? 0 then 5000
  else
    let wi := if wi =? 0 then 10 else wi in
    Z.min (div_ceil (wi * 960 * 1000) baud) u32_max.

(** [raw : [u8; 7]]: (BWI, CWI, IFSC). *)
Definition t1_bwi_cwi_ifsc (raw : list Z) : Z * Z * Z :=
  (Z.shiftr (nth 3 raw 0) 4, Z.land (nth 3 raw 0) 0x0F, nth 5 raw 0).

Definition t1_tb3 (bwi cwi : Z) : Z :=
  Z.lor (wrap8 (Z.shiftl bwi 4)) (Z.land cwi 0x0F).

(** ** T=0 procedure bytes *)
Inductive ProcedureByte :=
| Null
| AckAll
| AckOne
| PStatus (pb : Z)
| Unexpected (pb : Z).

Definition classify_t0_procedure_byte (ins pb : Z) : ProcedureByte :=
  if pb =? 0x60 then Null
  else if pb =? ins then AckAll
  else if pb =? Z.lxor ins 0xFF then AckOne
  else if ((0x60 <=? pb) && (pb <=? 0x6F)) || ((0x90 <=? pb) && (pb <=? 0x9F))
  then PStatus pb
  else Unexpected pb.

(** ** Activation *)
Inductive ActivationStep :=
| AssertReset
| EnablePower
| EnableClock
| ReleaseReset.

Definition activation_plan : list ActivationStep :=
  [AssertReset; EnablePower; EnableClock; ReleaseReset].

(** ** ccid-firmware/src/smartcard_common.rs *)
Definition t1_block_total_len (prologue : list Z) (buf_len : nat) : option nat :=
  match prologue with
  | _ :: _ :: len :: _ =>
      let total := (Z.to_nat len + 4)%nat in
      if decide (buf_len < total)%nat then None else Some total
  | _ => None
  end.

Definition CR2_STOP_SMARTCARD_1_5 : Z := 0x3000.
Definition GUARD_TIME_DEFAULT_N : Z := 2.

Definition t1_usart_framing (guard_time_n : Z) : Z * Z :=
  let gt := if guard_time_n =? 255 then 0 else guard_time_n in
  (CR2_STOP_SMARTCARD_1_5, gt).

Definition T0_GUARD_TIME_ETU : Z := 16.

(** ** The grammar of an ATR (ISO 7816-3), and two readings of it

    An ATR is TS, T0 (Y1 | K), then one group of optional interface bytes per
    level; a level after the first is announced by a TD byte carrying the
    protocol T and the presence bits of the next group. *)
Record level_bytes := mkLevel { lb_ta : option Z; lb_tb : option Z; lb_tc : option Z }.

Definition opt_bytes (o : option Z) : list Z :=
  match o with Some b => [b] | None => [] end.
Definition opt_bit (o : option Z) (bit : Z) : Z :=
  match o with Some _ => bit | None => 0 end.
Definition presence (g : level_bytes) (more : bool) : Z :=
  opt_bit (lb_ta g) 1 + opt_bit (lb_tb g) 2 + opt_bit (lb_tc g) 4 +
  (if more then 8 else 0).

Definition has_more {A} (l : list A) : bool := match l with [] => false | _ => true end.

Fixpoint encode_levels (g : level_bytes) (rest : list (Z * level_bytes)) : list Z :=
  opt_bytes (lb_ta g) ++ opt_bytes (lb_tb g) ++ opt_bytes (lb_tc g) ++
  match rest with
  | [] => []
  | (t, g') :: rest' => (16 * presence g' (has_more rest') + t) :: encode_levels g' rest'
  end.

Definition encode_atr (ts k : Z) (g : level_bytes) (rest : list (Z * level_bytes))
    (historical : list Z) : list Z :=
  ts :: (16 * presence g (has_more rest) + k) :: encode_levels g rest ++ historical.

Definition if_byte (o : option Z) (f : Z -> AtrParams -> AtrParams) (p : AtrParams) :=
  match o with Some b => f b p | None => p end.

(** What the parser does with a group at a time (the helper of its loop's lemmas;
    [code_reading] below says what comes of it).  Level 1 carries TA1 and TC1. *)
Definition interpret_first (g : level_bytes) (p : AtrParams) : AtrParams :=
  if_byte (lb_tc g) set_guard_time_n (if_byte (lb_ta g) set_ta1 p).

(** The parser uses a group at level [i >= 2] only when its TD announced T=1:
    TA_i from level 3 on, but TB_i and TC_i from level 2 on. *)
Definition interpret_level (i t : Z) (g : level_bytes) (p : AtrParams) : AtrParams :=
  if negb (t =? 1) then p
  else
    if_byte (lb_tc g) (fun tc => set_edc_type (tc mod 2))
      (if_byte (lb_tb g) (fun tb => set_bwi_cwi (tb / 16) (tb mod 16))
        (if_byte (if 3 <=? i then lb_ta g else None) set_ifsc p)).

Fixpoint interpret_rest (i : Z) (rest : list (Z * level_bytes)) (p : AtrParams) : AtrParams :=
  match rest with
  | [] => p
  | (t, g) :: rest' => interpret_rest (i + 1) rest' (interpret_level i t g p)
  end.

Definition interpret_atr (g : level_bytes) (rest : list (Z * level_bytes)) : AtrParams :=
  let p := interpret_first g AtrParams_default in
  match rest with
  | [] => p
  | (t, _) :: _ => interpret_rest 2 rest (set_protocol t p)
  end.

(** The parameters, with the T=1 bytes that are to be used: Fi, Di from TA1 (by
    the tables of the code), N from TC1, the protocol of the first TD; IFSC, BWI
    and CWI, and the EDC from the T=1 bytes. *)
Definition reading (g : level_bytes) (rest : list (Z * level_bytes)) (ta tb tc : option Z) : AtrParams :=
  {| fi := match lb_ta g with Some b => fi_from_ta1_high (b / 16) | None => 372 end;
     di := match lb_ta g with Some b => di_from_ta1_low (b mod 16) | None => 1 end;
     ta1 := default 0 (lb_ta g);
     protocol := match rest with (t, _) :: _ => t | [] => 0 end;
     guard_time_n := default 0 (lb_tc g);
     ifsc := default 32 ta;
     bwi := match tb with Some b => b / 16 | None => 4 end;
     cwi := match tb with Some b => b mod 16 | None => 13 end;
     edc_type := match tc with Some b => b mod 2 | None => 0 end;
     has_ta1 := match lb_ta g with Some _ => true | None => false end |}.

(** The groups announced for T=1. *)
Definition t1_groups (rest : list (Z * level_bytes)) : list level_bytes :=
  map snd (filter (fun tg => tg.1 = 1) rest).

(** The standard's T=1 bytes are the first TA, TB and TC of the T=1 groups from
    level 3 on: at level 2 the three are not T=1 bytes (TA2 selects the specific
    mode, TB2 is deprecated, TC2 is the WI of T=0). *)
Definition iso_byte (which : level_bytes -> option Z) (rest : list (Z * level_bytes)) : option Z :=
  head (omap which (t1_groups (tail rest))).
Definition iso_reading (g : level_bytes) (rest : list (Z * level_bytes)) : AtrParams :=
  reading g rest (iso_byte lb_ta rest) (iso_byte lb_tb rest) (iso_byte lb_tc rest).

(** The parser's are the last ones, TB and TC from level 2 on. *)
Definition code_reading (g : level_bytes) (rest : list (Z * level_bytes)) : AtrParams :=
  reading g rest (last (omap lb_ta (t1_groups (tail rest))))
    (last (omap lb_tb (t1_groups rest))) (last (omap lb_tc (t1_groups rest))).

(** No TB or TC at level 2 under T=1, and no T=1 byte given twice. *)
Definition unambiguous (rest : list (Z * level_bytes)) : Prop :=
  match rest with (t, g) :: _ => t = 1 -> lb_tb g = None /\ lb_tc g = None | [] => True end /\
  Forall (fun which => length (omap which (t1_groups (tail rest))) <= 1)%nat [lb_ta; lb_tb; lb_tc].

Definition level_ok (g : level_bytes) : Prop :=
  bytes (opt_bytes (lb_ta g) ++ opt_bytes (lb_tb g) ++ opt_bytes (lb_tc g)).
Definition levels_ok (rest : list (Z * level_bytes)) : Prop :=
  Forall (fun tg => 0 <= tg.1 < 16 /\ level_ok tg.2) rest.

(** ** Nibbles *)
Lemma nibbles y t :
  0 <= y < 16 -> 0 <= t < 16 ->
  Z.land (Z.shiftr (16 * y + t) 4) 0x0F = y /\ Z.land (16 * y + t) 0x0F = t.
Proof.
  intros Hy Ht. change 0x0F with (Z.ones 4). rewrite !Z.land_ones by lia.
  rewrite Z.shiftr_div_pow2 by lia. change (2 ^ 4) with 16. split; int_lia.
Qed.

Lemma shiftr4 b : u8 b -> Z.shiftr b 4 = b / 16.
Proof. intros. by rewrite Z.shiftr_div_pow2 by lia. Qed.
Lemma land15 b : Z.land b 0x0F = b mod 16.
Proof. change 0x0F with (Z.ones 4). by rewrite Z.land_ones by lia. Qed.
Lemma land1 b : Z.land b 1 = b mod 2.
Proof. change 1 with (Z.ones 1) at 1. by rewrite Z.land_ones by lia. Qed.
Lemma high_nibble b : u8 b -> Z.land (Z.shiftr b 4) 0x0F = b / 16.
Proof. intros Hb. rewrite shiftr4, land15 by done. int_lia. Qed.

Lemma presence_range g m : 0 <= presence g m < 16.
Proof. destruct g as [[] [] []], m; unfold presence; simpl; lia. Qed.

(** ** The parser implements the reading *)
Lemma interface_byte_encoded atr pre o post bit use p y level td :
  atr = pre ++ opt_bytes o ++ post ->
  (Z.land y bit =? 0) = (match o with Some _ => false | None => true end) ->
  interface_byte atr bit use (mkLocals p y (length pre) level td) =
  Continue (mkLocals
    (match o with Some b => use b (mkLocals p y (length pre) level td) | None => p end)
    y (length (pre ++ opt_bytes o)) level td).
Proof.
  intros -> Hbit. unfold interface_byte. simpl. rewrite Hbit.
  destruct o as [b|]; simpl.
  - rewrite list_lookup_middle by done. rewrite length_app. simpl.
    do 2 f_equal. lia.
  - by rewrite app_nil_r.
Qed.

Definition interpret_any (i t : Z) (g : level_bytes) (p : AtrParams) : AtrParams :=
  if i =? 1 then interpret_first g p else interpret_level i t g p.

Lemma body_encoded atr pre g post p more level td :
  level_ok g -> 1 <= level ->
  atr = pre ++ opt_bytes (lb_ta g) ++ opt_bytes (lb_tb g) ++ opt_bytes (lb_tc g) ++ post ->
  (level = 1 -> td = 0) ->
  parse_atr_body atr (mkLocals p (presence g more) (length pre) level td) =
  td_byte atr (mkLocals (interpret_any level td g p) (presence g more)
    (length (pre ++ opt_bytes (lb_ta g) ++ opt_bytes (lb_tb g) ++ opt_bytes (lb_tc g)))
    level td).
Proof.
  intros Hok Hlevel Hatr Htd. unfold parse_atr_body.
  rewrite (interface_byte_encoded _ pre (lb_ta g)
    (opt_bytes (lb_tb g) ++ opt_bytes (lb_tc g) ++ post)); [|done|by destruct g as [[] [] []], more].
  cbn [and_then].
  rewrite (interface_byte_encoded _ (pre ++ opt_bytes (lb_ta g)) (lb_tb g)
    (opt_bytes (lb_tc g) ++ post));
    [|by rewrite Hatr, <- !app_assoc|by destruct g as [[] [] []], more].
  cbn [and_then].
  rewrite (interface_byte_encoded _ ((pre ++ opt_bytes (lb_ta g)) ++ opt_bytes (lb_tb g))
    (lb_tc g) post);
    [|by rewrite Hatr, <- !app_assoc|by destruct g as [[] [] []], more].
  cbn [and_then]. rewrite <- !app_assoc. do 2 f_equal.
  unfold interpret_any, interpret_first, interpret_level, use_ta, use_tb, use_tc, if_byte.
  simpl.
  assert (forall tb, lb_tb g = Some tb -> u8 tb) as Htbok.
  { intros tb Htb. unfold level_ok in Hok. rewrite Htb, !bytes_app in Hok.
    destruct Hok as (_ & Hok & _). by apply Forall_cons in Hok as [? _]. }
  destruct (Z.eqb_spec level 1) as [->|Hne].
  - rewrite Htd by done. simpl. by destruct (lb_tb g), (lb_tc g), (lb_ta g).
  - replace (2 <=? level) with true by lia. simpl.
    destruct (Z.eqb_spec td 1); simpl; rewrite ?andb_true_r, ?andb_false_r.
    + destruct (3 <=? level), (lb_ta g), (lb_tb g) as [tb|] eqn:Htb, (lb_tc g);
        rewrite ?land1; try rewrite high_nibble, land15 by eauto; done.
    + by destruct (lb_tc g), (lb_tb g), (lb_ta g).
Qed.

Lemma loop_encoded fuel rest : forall atr pre g post p level td,
  level_ok g -> levels_ok rest -> 1 <= level ->
  atr = pre ++ encode_levels g rest ++ post ->
  (level = 1 -> td = 0) ->
  level + Z.of_nat (length rest) <= 255 ->
  (length rest < fuel)%nat ->
  parse_atr_loop fuel atr
    (mkLocals p (presence g (has_more rest)) (length pre) level td) =
  Some (interpret_rest (level + 1) rest
    (match rest with
     | (t, _) :: _ => if level =? 1 then set_protocol t (interpret_any level td g p)
                      else interpret_any level td g p
     | [] => interpret_any level td g p
     end)).
Proof.
  revert fuel. induction rest as [|[t g'] rest IH];
    intros fuel atr pre g post p level td Hg Hrest Hlv Hatr Htd Hbound Hfuel;
    (destruct fuel as [|fuel]; [simpl in Hfuel; lia|]); cbn [parse_atr_loop].
  - rewrite (body_encoded _ pre g post); [|done|done|by rewrite Hatr; simpl; rewrite <- !app_assoc|done].
    unfold td_byte. simpl. by destruct g as [[] [] []].
  - apply Forall_cons in Hrest as [[Ht Hg'] Hrest]. simpl in Ht, Hg'.
    rewrite (body_encoded _ pre g
      ((16 * presence g' (has_more rest) + t) :: encode_levels g' rest ++ post));
      [|done|done|by rewrite Hatr; simpl; rewrite <- !app_assoc|done].
    set (pre' := pre ++ _ ++ _ ++ _).
    unfold td_byte. cbn [l_y l_idx l_p l_level l_td].
    replace (Z.land (presence g (has_more ((t, g') :: rest))) 8 =? 0) with false
      by (by destruct g as [[] [] []]).
    cbn [negb].
    assert (atr = pre' ++ (16 * presence g' (has_more rest) + t) :: encode_levels g' rest ++ post)
      as Hatr' by (rewrite Hatr; unfold pre'; simpl; by rewrite <- !app_assoc).
    rewrite Hatr' at 1. rewrite list_lookup_middle by done.
    destruct (nibbles (presence g' (has_more rest)) t) as [Hn1 Hn2];
      [apply presence_range|done|].
    rewrite Hn1, Hn2. replace (level =? u8_max) with false
      by (unfold u8_max; simpl in Hbound; lia).
    replace (S (length pre')) with
      (length (pre' ++ [16 * presence g' (has_more rest) + t]))
      by (rewrite length_app; simpl; lia).
    rewrite (IH fuel atr _ g' post); try done.
    + cbn [interpret_rest]. f_equal.
      assert (forall q, interpret_any (level + 1) t g' q = interpret_level (level + 1) t g' q)
        as Hany by (intros; unfold interpret_any; by replace (level + 1 =? 1) with false by lia).
      replace (level + 1 =? 1) with false by lia. rewrite Hany.
      by destruct rest as [|[t2 g2] rest].
    + lia.
    + rewrite Hatr', <- app_assoc. done.
    + lia.
    + simpl in Hbound. lia.
    + simpl in Hfuel. lia.
Qed.

Lemma length_encode_levels g rest : (length rest <= length (encode_levels g rest))%nat.
Proof.
  revert g. induction rest as [|[t g'] rest IH]; intros g; simpl; [lia|].
  rewrite !length_app. simpl. specialize (IH g'). lia.
Qed.

Lemma last_default {A} (x : A) l : last (x :: l) = Some (default x (last l)).
Proof. rewrite last_cons. by destruct (last l). Qed.

(** The T=1 bytes of the groups after the first overwrite those before. *)
Definition with_t1 (ta tb tc : option Z) (p : AtrParams) : AtrParams :=
  if_byte tc (fun tc => set_edc_type (tc mod 2))
    (if_byte tb (fun tb => set_bwi_cwi (tb / 16) (tb mod 16)) (if_byte ta set_ifsc p)).

Lemma t1_groups_cons t g rest :
  t1_groups ((t, g) :: rest) = (if t =? 1 then [g] else []) ++ t1_groups rest.
Proof.
  unfold t1_groups. rewrite filter_cons. cbn [fst].
  destruct (Z.eqb_spec t 1) as [->|]; [by rewrite decide_True|by rewrite decide_False].
Qed.

Lemma with_t1_app which which' (l : list level_bytes) g p :
  with_t1 (last (omap which l)) (last (omap lb_tb l)) (last (omap lb_tc l))
    (with_t1 (which' g) (lb_tb g) (lb_tc g) p) =
  with_t1 (last (match which' g with Some b => b :: omap which l | None => omap which l end))
    (last (omap lb_tb (g :: l))) (last (omap lb_tc (g :: l))) p.
Proof.
  cbn [omap list_omap]. destruct (which' g), (lb_tb g), (lb_tc g); rewrite ?last_default;
    destruct (last (omap which l)), (last (omap lb_tb l)), (last (omap lb_tc l)); reflexivity.
Qed.

Lemma interpret_later i rest p : 3 <= i ->
  interpret_rest i rest p = with_t1 (last (omap lb_ta (t1_groups rest)))
    (last (omap lb_tb (t1_groups rest))) (last (omap lb_tc (t1_groups rest))) p.
Proof.
  revert i p. induction rest as [|[t g] rest IH]; intros i p Hi; [done|].
  cbn [interpret_rest]. rewrite IH by lia. rewrite t1_groups_cons. unfold interpret_level.
  destruct (t =? 1); cbn [negb app]; [|done].
  replace (3 <=? i) with true by lia. apply (with_t1_app lb_ta lb_ta).
Qed.

Lemma interpret_reading g rest : level_ok g -> interpret_atr g rest = code_reading g rest.
Proof.
  intros Hg. unfold interpret_atr, code_reading.
  assert (forall ta tb tc, with_t1 ta tb tc
    (match rest with (t, _) :: _ => set_protocol t (interpret_first g AtrParams_default)
     | [] => interpret_first g AtrParams_default end) = reading g rest ta tb tc) as Hr.
  { intros ta tb tc. unfold reading, interpret_first.
    assert (forall b, lb_ta g = Some b -> u8 b) as Hb
      by (intros b E; unfold level_ok in Hg; rewrite E in Hg; by inversion Hg).
    destruct (lb_ta g) as [b|]; [specialize (Hb b eq_refl); rewrite <- (shiftr4 b), <- (land15 b) by done|];
      destruct (lb_tc g), rest as [|[t g'] rest], ta, tb, tc; reflexivity. }
  rewrite <- Hr. destruct rest as [|[t g2] rest]; [done|].
  cbn [interpret_rest tail]. rewrite interpret_later by lia. rewrite t1_groups_cons.
  unfold interpret_level. destruct (t =? 1); cbn [negb app]; [|done].
  apply (with_t1_app lb_ta (fun _ => None)).
Qed.

Lemma single_last {A} (l : list A) : (length l <= 1)%nat -> last l = head l.
Proof. by destruct l as [|x [|y l]]; cbn; [..|lia]. Qed.

Lemma unambiguous_iso g rest : unambiguous rest -> code_reading g rest = iso_reading g rest.
Proof.
  intros [H2 [Ha [Hb [Hc _]%Forall_cons]%Forall_cons]%Forall_cons].
  unfold code_reading, iso_reading, iso_byte. rewrite <- !single_last by done.
  destruct rest as [|[t g2] rest]; [done|]. cbn [tail] in *. rewrite t1_groups_cons.
  destruct (Z.eqb_spec t 1) as [E|]; [|done]. destruct (H2 E) as [Etb Etc].
  cbn [app omap list_omap]. by rewrite Etb, Etc.
Qed.

(** C38: what the parser reads.  On every ATR of the ISO 7816-3 grammar (TS, T0,
    at most 253 levels after the first, of optional TA/TB/TC bytes linked by TD,
    historical bytes) the parser takes Fi/Di and N from level 1 and the protocol
    from the first TD, as the standard says; as T=1 bytes it takes the last TA
    (IFSC) of the groups announced for T=1 from level 3 on, and their last TB
    (BWI, CWI) and TC (EDC) from level 2 on ([code_reading]).  The standard
    takes the first of each, from level 3 on ([iso_reading]): the parser's
    reading is the standard's for every ATR that has no TB or TC at level 2
    under T=1 and gives no T=1 byte twice ([unambiguous]; where it differs is
    in [tb2_taken_for_t1] and [later_group_overwrites]). *)
Theorem parse_atr_reading ts k g rest historical :
  level_ok g -> levels_ok rest -> 0 <= k < 16 -> (length rest <= 253)%nat ->
  let p := parse_atr (encode_atr ts k g rest historical) in
  p = code_reading g rest /\ (unambiguous rest -> p = iso_reading g rest).
Proof.
  intros Hg Hrest Hk Hlen p.
  assert (p = code_reading g rest) as ->; [|split; [done|apply unambiguous_iso]].
  rewrite <- interpret_reading by done. unfold p, parse_atr, encode_atr, parse_atr_start.
  destruct (nibbles (presence g (has_more rest)) k) as [-> _];
    [apply presence_range|done|].
  set (atr := ts :: _).
  rewrite (loop_encoded (length atr) rest atr
    [ts; 16 * presence g (has_more rest) + k] g historical); try done; [|lia|].
  - simpl. unfold interpret_atr, interpret_any. simpl. by destruct rest as [|[]].
  - unfold atr. simpl. rewrite length_app. pose proof (length_encode_levels g rest). lia.
Qed.

(** A T=1 card: TA1 = 0x18, TD1 = 0x81, TD2 = 0x31, TA3 = 0xFE, TB3 = 0x45. *)
Example parse_atr_reading_witness :
  let rest := [(1, mkLevel None None None); (1, mkLevel (Some 0xFE) (Some 0x45) None)] in
  parse_atr [0x3B; 0x90; 0x18; 0x81; 0x31; 0xFE; 0x45] = iso_reading (mkLevel (Some 0x18) None None) rest /\
  iso_reading (mkLevel (Some 0x18) None None) rest = mkAtrParams 372 12 0x18 1 0 0xFE 4 5 0 true.
Proof.
  intros rest. split; [|reflexivity].
  refine (proj2 (parse_atr_reading 0x3B 0 (mkLevel (Some 0x18) None None) rest [] _ _ _ _) _);
    [solve_bytes| |lia|simpl; lia|].
  - repeat (apply Forall_cons; split; [split; [simpl; lia|solve_bytes]|]). constructor.
  - split; [by intros _|]. repeat (apply Forall_cons; split; [simpl; lia|]). constructor.
Defined.

(** TB2 = 0x75 under T=1: the parser has BWI 7 and CWI 5, the standard the
    defaults 4 and 13. *)
Example tb2_taken_for_t1 :
  let rest := [(1, mkLevel None (Some 0x75) None)] in
  let p := parse_atr (encode_atr 0x3B 0 (mkLevel None None None) rest []) in
  let q := iso_reading (mkLevel None None None) rest in
  (bwi p, cwi p) = (7, 5) /\ (bwi q, cwi q) = (4, 13).
Proof. split; reflexivity. Qed.

(** IFSC given at levels 3 and 4: the parser has the second, the standard the
    first. *)
Example later_group_overwrites :
  let rest := [(1, mkLevel None None None); (1, mkLevel (Some 0xFE) None None);
               (1, mkLevel (Some 0x20) None None)] in
  let p := parse_atr (encode_atr 0x3B 0 (mkLevel None None None) rest []) in
  ifsc p = 0x20 /\ ifsc (iso_reading (mkLevel None None None) rest) = 0xFE.
Proof. split; reflexivity. Qed.

(** ** Totality and ranges for arbitrary bytes *)
Record AtrParams_wf (p : AtrParams) : Prop := {
  wf_fi : fi p = 0 \/ 372 <= fi p <= 2048;
  wf_di : 1 <= di p <= 64;
  wf_ta1 : u8 (ta1 p);
  wf_protocol : 0 <= protocol p < 16;
  wf_guard : u8 (guard_time_n p);
  wf_ifsc : u8 (ifsc p);
  wf_bwi : 0 <= bwi p < 16;
  wf_cwi : 0 <= cwi p < 16;
  wf_edc : 0 <= edc_type p < 2
}.

Lemma AtrParams_default_wf : AtrParams_wf AtrParams_default.
Proof. split; simpl; unfold u8; lia. Qed.

Lemma default_lookup_Forall {A} (P : A -> Prop) (l : list A) (i : nat) (d : A) :
  Forall P l -> P d -> P (default d (l !! i)).
Proof.
  intros Hl Hd. destruct (l !! i) eqn:E; [|done]. by eapply Forall_lookup_1.
Qed.

Lemma fi_range n : fi_from_ta1_high n = 0 \/ 372 <= fi_from_ta1_high n <= 2048.
Proof.
  unfold fi_from_ta1_high.
  apply (default_lookup_Forall (fun x => x = 0 \/ 372 <= x <= 2048)); [|lia].
  repeat (apply Forall_cons; split; [lia|]). constructor.
Qed.

Lemma di_range n : 1 <= di_from_ta1_low n <= 64.
Proof.
  unfold di_from_ta1_low.
  set (x := default 1 _). assert (0 <= x <= 64) as Hx.
  { apply (default_lookup_Forall (fun x => 0 <= x <= 64)); [|lia].
    repeat (apply Forall_cons; split; [lia|]). constructor. }
  destruct (Z.eqb_spec x 0); lia.
Qed.

Lemma nibble_range z : 0 <= Z.land z 0x0F < 16.
Proof. rewrite land15. by apply Z.mod_pos_bound. Qed.
Lemma bit_range z : 0 <= Z.land z 1 < 2.
Proof. rewrite land1. by apply Z.mod_pos_bound. Qed.

Definition locals_wf (atr : list Z) (s : atr_locals) : Prop :=
  AtrParams_wf (l_p s) /\ (l_idx s <= length atr)%nat.

(** Every use of an interface byte keeps the parameters in range. *)
Lemma interface_byte_wf atr bit use s :
  bytes atr -> locals_wf atr s ->
  (forall b, u8 b -> AtrParams_wf (use b s)) ->
  match interface_byte atr bit use s with
  | Continue s' => locals_wf atr s' /\ (l_idx s <= l_idx s')%nat
  | Break p => AtrParams_wf p
  end.
Proof.
  intros Hb [Hp Hidx] Huse. unfold interface_byte.
  destruct (negb _); [|done].
  destruct (atr !! l_idx s) as [b|] eqn:Hlk; [|done].
  pose proof (lookup_lt_Some _ _ _ Hlk). split; [split|]; simpl; [|lia|lia].
  apply Huse. eapply Forall_lookup_1; [exact Hb|exact Hlk].
Qed.

Lemma use_ta_wf b s : u8 b -> AtrParams_wf (l_p s) -> AtrParams_wf (use_ta b s).
Proof.
  intros Hb []. unfold use_ta. repeat case_match; split; simpl; try done;
    auto using fi_range, di_range.
Qed.
Lemma use_tb_wf b s : u8 b -> AtrParams_wf (l_p s) -> AtrParams_wf (use_tb b s).
Proof. intros Hb []. unfold use_tb. case_match; split; simpl; try done; apply nibble_range. Qed.
Lemma use_tc_wf b s : u8 b -> AtrParams_wf (l_p s) -> AtrParams_wf (use_tc b s).
Proof.
  intros Hb []. unfold use_tc. repeat case_match; split; simpl; try done; apply bit_range.
Qed.

(** A continuing iteration consumed at least the TD byte. *)
Lemma body_wf atr s :
  bytes atr -> locals_wf atr s ->
  match parse_atr_body atr s with
  | Continue s' => locals_wf atr s' /\ (l_idx s < l_idx s')%nat
  | Break p => AtrParams_wf p
  end.
Proof.
  intros Hb Hs. unfold parse_atr_body.
  pose proof (interface_byte_wf atr 1 use_ta s Hb Hs
    ltac:(intros; apply use_ta_wf; [done|apply Hs])) as H1.
  destruct (interface_byte atr 1 use_ta s) as [s1|]; [|done]. destruct H1 as [H1 ?]. simpl.
  pose proof (interface_byte_wf atr 2 use_tb s1 Hb H1
    ltac:(intros; apply use_tb_wf; [done|apply H1])) as H2.
  destruct (interface_byte atr 2 use_tb s1) as [s2|]; [|done]. destruct H2 as [H2 ?]. simpl.
  pose proof (interface_byte_wf atr 4 use_tc s2 Hb H2
    ltac:(intros; apply use_tc_wf; [done|apply H2])) as H3.
  destruct (interface_byte atr 4 use_tc s2) as [s3|]; [|done]. destruct H3 as [[Hp3 Hi3] ?]. simpl.
  unfold td_byte. destruct (negb _); [|done].
  destruct (atr !! l_idx s3) as [td|] eqn:Hlk; [|done].
  pose proof (lookup_lt_Some _ _ _ Hlk).
  assert (AtrParams_wf (if l_level s3 =? 1 then set_protocol (Z.land td 15) (l_p s3) else l_p s3)).
  { destruct Hp3. case_match; split; simpl; try done; apply nibble_range. }
  destruct (l_level s3 =? u8_max); [done|]. split; [split|]; simpl; [done|lia|lia].
Qed.

Lemma loop_wf fuel : forall atr s,
  bytes atr -> locals_wf atr s -> (length atr < fuel + l_idx s)%nat ->
  exists p, parse_atr_loop fuel atr s = Some p /\ AtrParams_wf p.
Proof.
  induction fuel as [|fuel IH]; intros atr s Hb Hs Hf; [destruct Hs; lia|].
  simpl. pose proof (body_wf atr s Hb Hs) as Hbody.
  destruct (parse_atr_body atr s) as [s'|p]; [|by exists p].
  destruct Hbody as [? ?]. apply IH; [done|done|lia].
Qed.

Lemma parse_atr_wf atr : bytes atr -> AtrParams_wf (parse_atr atr).
Proof.
  intros Hb. unfold parse_atr.
  destruct atr as [|ts [|t0 l]]; [apply AtrParams_default_wf..|].
  destruct (loop_wf (length (ts :: t0 :: l)) (ts :: t0 :: l) (parse_atr_start t0))
    as (p & E & Hp); [done|split; [apply AtrParams_default_wf|simpl; lia]|simpl; lia|].
  by rewrite E.
Qed.

(** C39: on arbitrary card bytes the loop ends within its fuel (one iteration
    per TD byte) and every parameter is in range: Di is never 0, Fi is 0
    (reserved nibble) or within [372, 2048], BWI, CWI and the protocol are
    nibbles, the EDC type is a bit. *)
Theorem parse_atr_total_wf atr t0 :
  bytes atr -> (2 <= length atr)%nat ->
  exists p, parse_atr_loop (length atr) atr (parse_atr_start t0) = Some p /\
    AtrParams_wf p.
Proof.
  intros Hb Hlen. apply loop_wf; [done| |simpl; lia].
  split; [apply AtrParams_default_wf|done].
Qed.

(** A truncated ATR: every presence bit set, no bytes behind. *)
Example parse_atr_total_wf_witness :
  exists p, parse_atr_loop 4 [0x3B; 0xF0; 0x18; 0xFF] (parse_atr_start 0xF0) = Some p /\
    AtrParams_wf p.
Proof.
  refine (parse_atr_total_wf [0x3B; 0xF0; 0x18; 0xFF] 0xF0 _ _); [solve_bytes|simpl; lia].
Defined.

(** ** TCK *)
Lemma verify_atr_tck_snoc ts body tck :
  (1 <= length body)%nat ->
  verify_atr_tck (ts :: body ++ [tck]) 1 = (xor_all body =? tck).
Proof.
  intros Hlen. unfold verify_atr_tck. simpl. rewrite length_app. simpl.
  replace (S (length body + 1) <? 3)%nat with false by (symmetry; apply Nat.ltb_ge; lia).
  rewrite drop_0. replace (length body + 1 - 1)%nat with (length body) by lia.
  rewrite take_app_length. rewrite app_comm_cons, last_snoc. done.
Qed.

(** The T=1 check byte: an ATR that ends in the XOR of T0 and its
    successors verifies; changing any one byte from T0 to TCK makes the check
    fail; for T=0 nothing is checked. *)
Theorem verify_atr_tck_detects ts body i x y protocol :
  (1 <= length body)%nat -> body !! i = Some x -> y <> x ->
  let atr b := ts :: b ++ [xor_all body] in
  verify_atr_tck (atr body) 1 = true /\
  verify_atr_tck (atr (<[i := y]> body)) 1 = false /\
  (forall z, z <> xor_all body -> verify_atr_tck (ts :: body ++ [z]) 1 = false) /\
  (protocol <> 1 -> verify_atr_tck (atr body) protocol = true).
Proof.
  intros Hlen Hi Hne atr. unfold atr.
  rewrite !verify_atr_tck_snoc by (rewrite ?length_insert; done). split_and!.
  - apply Z.eqb_refl.
  - apply Z.eqb_neq. intros Hx. by apply (xor_all_insert _ _ x y) in Hx.
  - intros z Hz. rewrite verify_atr_tck_snoc by done. by apply Z.eqb_neq.
  - intros Hp. unfold verify_atr_tck. by replace (protocol =? 1) with false by lia.
Qed.

Example verify_atr_tck_detects_witness :
  let atr b := 0x3B :: b ++ [0x81] in
  verify_atr_tck (atr [0x80; 0x01]) 1 = true /\
  verify_atr_tck (atr [0x80; 0x03]) 1 = false /\
  (forall z, z <> 0x81 -> verify_atr_tck (0x3B :: [0x80; 0x01] ++ [z]) 1 = false) /\
  (0 <> 1 -> verify_atr_tck (atr [0x80; 0x01]) 0 = true).
Proof.
  refine (verify_atr_tck_detects 0x3B [0x80; 0x01] 1 0x01 0x03 0 _ _ _); [simpl; lia|done|done].
Defined.

(** ** Timing *)

(** [div_ceil] is the least integer [q] with [a <= q * b]. *)
Lemma div_ceil_spec a b : 0 < b -> a <= div_ceil a b * b < a + b.
Proof. intros Hb. unfold div_ceil. int_lia. Qed.

Lemma shiftl1_range n : 0 <= n < 16 -> 1 <= Z.shiftl 1 n <= 32768.
Proof.
  intros Hn. rewrite Z.shiftl_mul_pow2 by lia. rewrite Z.mul_1_l. split.
  - apply (Z.pow_le_mono_r 2 0); lia.
  - apply (Z.pow_le_mono_r 2 n 15); lia.
Qed.

Lemma div_ceil_small a b : 0 <= a -> 8 <= b -> a <= 34359738360 -> div_ceil a b <= u32_max.
Proof. intros Ha Hb Hm. unfold div_ceil, u32_max. apply Z.lt_succ_r, Z.div_lt_upper_bound; lia. Qed.

(** The reader's patience.  For every BWI and every wire rate of at least
    8 baud, [t1_bwt_ms] is the least number of milliseconds that covers
    11 + 2^BWI * 960 etu; the first-byte wait stays within [500, 5000] ms and
    covers the advertised BWT whenever the BWT fits under the ceiling; and the
    inter-byte wait covers the advertised CWT, within [50, 5000] ms, in the
    same sense. *)
Theorem t1_patience b c baud :
  8 <= baud ->
  let bwt_etu := 11 + 2 ^ (b mod 16) * 960 in
  let cwt_etu := 2 ^ (c mod 16) + 11 in
  bwt_etu * 1000 <= t1_bwt_ms b baud * baud < bwt_etu * 1000 + baud /\
  cwt_etu * 1000 <= t1_cwt_ms c baud * baud < cwt_etu * 1000 + baud /\
  500 <= t1_first_byte_timeout_ms b baud <= 5000 /\
  50 <= t1_inter_byte_timeout_ms c baud <= 5000 /\
  (t1_bwt_ms b baud <= 5000 -> t1_bwt_ms b baud <= t1_first_byte_timeout_ms b baud) /\
  (t1_cwt_ms c baud <= 5000 -> t1_cwt_ms c baud <= t1_inter_byte_timeout_ms c baud).
Proof.
  intros Hbaud bwt_etu cwt_etu.
  pose proof (shiftl1_range (b mod 16) ltac:(apply Z.mod_pos_bound; lia)) as Hb.
  pose proof (shiftl1_range (c mod 16) ltac:(apply Z.mod_pos_bound; lia)) as Hc.
  assert (t1_bwt_ms b baud = div_ceil (bwt_etu * 1000) baud) as Ebwt.
  { unfold t1_bwt_ms. replace (baud =? 0) with false by lia. rewrite land15.
    unfold bwt_etu. rewrite Z.shiftl_mul_pow2, Z.mul_1_l in * by (apply Z.mod_pos_bound; lia).
    apply Z.min_l, div_ceil_small; lia. }
  assert (t1_cwt_ms c baud = div_ceil (cwt_etu * 1000) baud) as Ecwt.
  { unfold t1_cwt_ms. replace (baud =? 0) with false by lia. rewrite land15.
    unfold cwt_etu. rewrite Z.shiftl_mul_pow2, Z.mul_1_l in * by (apply Z.mod_pos_bound; lia).
    apply Z.min_l, div_ceil_small; lia. }
  split; [rewrite Ebwt; apply div_ceil_spec; lia|].
  split; [rewrite Ecwt; apply div_ceil_spec; lia|].
  unfold t1_first_byte_timeout_ms, t1_inter_byte_timeout_ms, clamp, T1_FIRST_BYTE_FLOOR_MS,
    T1_FIRST_BYTE_MAX_MS, T1_INTER_BYTE_FLOOR_MS. lia.
Qed.

(** BWI 4 at the 10752 baud default: BWT 1430 ms. *)
Example t1_patience_witness :
  let bwt_etu := 11 + 2 ^ (4 mod 16) * 960 in
  let cwt_etu := 2 ^ (13 mod 16) + 11 in
  bwt_etu * 1000 <= t1_bwt_ms 4 10752 * 10752 < bwt_etu * 1000 + 10752 /\
  cwt_etu * 1000 <= t1_cwt_ms 13 10752 * 10752 < cwt_etu * 1000 + 10752 /\
  500 <= t1_first_byte_timeout_ms 4 10752 <= 5000 /\
  50 <= t1_inter_byte_timeout_ms 13 10752 <= 5000 /\
  (t1_bwt_ms 4 10752 <= 5000 -> t1_bwt_ms 4 10752 <= t1_first_byte_timeout_ms 4 10752) /\
  (t1_cwt_ms 13 10752 <= 5000 -> t1_cwt_ms 13 10752 <= t1_inter_byte_timeout_ms 13 10752).
Proof. apply (t1_patience 4 13 10752). lia. Defined.

(** The documented cross-over: BWI 6 is the first whose BWT exceeds the
    ceiling at 10752 and at 9600 baud. *)
Example bwt_crossover :
  map (fun b => t1_bwt_ms b 10752 <=? 5000) [5; 6] = [true; false] /\
  map (fun b => t1_bwt_ms b 9600 <=? 5000) [5; 6] = [true; false] /\
  t1_bwt_ms 6 10752 = 5716.
Proof. vm_compute. done. Qed.

(** ** Packed fields *)
Lemma nibble_pair_check :
  forallb (fun b => forallb (fun c =>
    (Z.shiftr (t1_tb3 b c) 4 =? b) && (Z.land (t1_tb3 b c) 0x0F =? c))
    (map Z.of_nat (seq 0 16))) (map Z.of_nat (seq 0 16)) = true.
Proof. vm_compute. done. Qed.

Lemma in_nibbles n : 0 <= n < 16 -> In n (map Z.of_nat (seq 0 16)).
Proof. intros. apply in_map_iff. exists (Z.to_nat n). rewrite in_seq. lia. Qed.

(** The TB3 encoder and the parameter-structure decoder agree. *)
Lemma t1_tb3_roundtrip b c i r0 r1 r2 r4 r6 :
  0 <= b < 16 -> 0 <= c < 16 ->
  t1_bwi_cwi_ifsc [r0; r1; r2; t1_tb3 b c; r4; i; r6] = (b, c, i).
Proof.
  intros Hb Hc. pose proof nibble_pair_check as H.
  rewrite forallb_forall in H. specialize (H b (in_nibbles b Hb)).
  rewrite forallb_forall in H. specialize (H c (in_nibbles c Hc)).
  apply andb_true_iff in H as [H1%Z.eqb_eq H2%Z.eqb_eq].
  unfold t1_bwi_cwi_ifsc. cbn [nth]. by rewrite H1, H2.
Qed.

(** ** Procedure bytes *)

(** ISO 7816-3 reserves 6X and 9X as INS values. *)
Definition valid_ins (ins : Z) : Prop :=
  u8 ins /\ ins / 16 <> 6 /\ ins / 16 <> 9.

(** For a valid INS the five readings of a procedure byte are disjoint and
    each is taken exactly on its own byte values: 60 waits, INS and its
    complement acknowledge, 61-6F and 90-9F are SW1, everything else is
    unexpected. *)
Theorem classify_procedure_byte_spec ins pb :
  valid_ins ins -> u8 pb ->
  let r := classify_t0_procedure_byte ins pb in
  (r = Null <-> pb = 0x60) /\
  (r = AckAll <-> pb = ins) /\
  (r = AckOne <-> pb = Z.lxor ins 0xFF) /\
  (r = PStatus pb <-> 0x61 <= pb <= 0x6F \/ 0x90 <= pb <= 0x9F) /\
  (r = Unexpected pb <->
     pb <> ins /\ pb <> Z.lxor ins 0xFF /\ pb / 16 <> 6 /\ pb / 16 <> 9).
Proof.
  intros (Hins & H6 & H9) Hpb r.
  assert (Z.lxor ins 0xFF = 255 - ins) as Hx.
  { apply Z.eqb_eq.
    apply (byte_forall (fun i => Z.lxor i 0xFF =? 255 - i)); [by vm_compute|done]. }
  subst r. unfold classify_t0_procedure_byte. rewrite Hx. unfold u8 in *.
  repeat case_match;
    split_and!; split; intros; try done; try discriminate; try int_lia.
Qed.

Example classify_procedure_byte_spec_witness :
  let r := classify_t0_procedure_byte 0xA4 0x61 in
  (r = Null <-> 0x61 = 0x60) /\
  (r = AckAll <-> 0x61 = 0xA4) /\
  (r = AckOne <-> 0x61 = Z.lxor 0xA4 0xFF) /\
  (r = PStatus 0x61 <-> 0x61 <= 0x61 <= 0x6F \/ 0x90 <= 0x61 <= 0x9F) /\
  (r = Unexpected 0x61 <->
     0x61 <> 0xA4 /\ 0x61 <> Z.lxor 0xA4 0xFF /\ 0x61 / 16 <> 6 /\ 0x61 / 16 <> 9).
Proof.
  refine (classify_procedure_byte_spec 0xA4 0x61 _ _); [|split; done].
  split; [split; done|split; done].
Defined.
