(* ===== verification/Diag.v ===== *)
(** * Diagnostics counters

    The two little-endian counter blocks the reader returns over CCID Escape:
    [ccid-core/src/diagnostics.rs] (Escape 0xD0, 28 bytes) and
    [ccid-service/src/turnaround.rs] (Escape 0xD2, 32 bytes). *)
From Stdlib Require Import ZArith Lia ZifyBool.
From stdpp Require Import prelude.
From S2P Require Import Prelude.
Local Open Scope Z_scope.

(** ** Words

    [buf[4*i..4*i+4].copy_from_slice(&w.to_le_bytes())] for consecutive [i],
    and [u32::from_le_bytes(buf[off..off+4])]. *)
Definition words (ws : list Z) : list Z := concat (map to_le32 ws).

Definition read_u32 (buf : list Z) (offset : nat) : Z :=
  match drop offset buf with
  | a :: b :: c :: d :: _ => from_le32 a b c d
  | _ => 0
  end.

Lemma length_words ws : length (words ws) = (4 * length ws)%nat.
Proof. unfold words. induction ws as [|w ws IH]; [done|]. simpl. rewrite IH. lia. Qed.

(** The [i]-th word reads back. *)
Lemma read_words ws rest i w :
  ws !! i = Some w -> u32 w -> read_u32 (words ws ++ rest) (4 * i) = w.
Proof.
  revert i. induction ws as [|w' ws IH]; intros i Hi Hw; [done|].
  destruct i as [|i].
  - simplify_eq/=. by apply from_to_le32.
  - replace (4 * S i)%nat with (4 + 4 * i)%nat by lia.
    unfold read_u32. rewrite <- drop_drop. by apply (IH i).
Qed.

(** ** ccid-core/src/diagnostics.rs *)
Module Diagnostics.

Record Diagnostics := mkDiagnostics {
  apdu_tx_count : Z;
  apdu_rx_count : Z;
  nak_count : Z;
  error_count : Z;
  reinit_count : Z;
  card_present : bool;
  uptime_ticks : Z
}.

Definition SERIALIZED_SIZE : nat := 28.

Definition new : Diagnostics :=
  {| apdu_tx_count := 0; apdu_rx_count := 0; nak_count := 0; error_count := 0;
     reinit_count := 0; card_present := false; uptime_ticks := 0 |}.

Definition fields (d : Diagnostics) : list Z :=
  [apdu_tx_count d; apdu_rx_count d; nak_count d; error_count d; reinit_count d;
   (if card_present d then 1 else 0); uptime_ticks d].

Definition to_bytes (d : Diagnostics) (buf : list Z) : list Z * nat :=
  if decide (length buf < SERIALIZED_SIZE)%nat then (buf, 0%nat)
  else (words (fields d) ++ drop SERIALIZED_SIZE buf, SERIALIZED_SIZE).

Definition from_bytes (buf : list Z) : option Diagnostics :=
  if decide (length buf < SERIALIZED_SIZE)%nat then None
  else Some {| apdu_tx_count := read_u32 buf 0;
               apdu_rx_count := read_u32 buf 4;
               nak_count := read_u32 buf 8;
               error_count := read_u32 buf 12;
               reinit_count := read_u32 buf 16;
               card_present := negb (read_u32 buf 20 =? 0);
               uptime_ticks := read_u32 buf 24 |}.

Definition wf (d : Diagnostics) : Prop :=
  u32 (apdu_tx_count d) /\ u32 (apdu_rx_count d) /\ u32 (nak_count d) /\
  u32 (error_count d) /\ u32 (reinit_count d) /\ u32 (uptime_ticks d).

(** Counter updates of the handler ([saturating_add(1)] and assignments). *)
Definition bump_tx (d : Diagnostics) : Diagnostics :=
  {| apdu_tx_count := sat_add32 (apdu_tx_count d) 1; apdu_rx_count := apdu_rx_count d;
     nak_count := nak_count d; error_count := error_count d;
     reinit_count := reinit_count d; card_present := card_present d;
     uptime_ticks := uptime_ticks d |}.
Definition bump_rx (d : Diagnostics) : Diagnostics :=
  {| apdu_tx_count := apdu_tx_count d; apdu_rx_count := sat_add32 (apdu_rx_count d) 1;
     nak_count := nak_count d; error_count := error_count d;
     reinit_count := reinit_count d; card_present := card_present d;
     uptime_ticks := uptime_ticks d |}.
Definition bump_nak (d : Diagnostics) : Diagnostics :=
  {| apdu_tx_count := apdu_tx_count d; apdu_rx_count := apdu_rx_count d;
     nak_count := sat_add32 (nak_count d) 1; error_count := error_count d;
     reinit_count := reinit_count d; card_present := card_present d;
     uptime_ticks := uptime_ticks d |}.
Definition bump_error (d : Diagnostics) : Diagnostics :=
  {| apdu_tx_count := apdu_tx_count d; apdu_rx_count := apdu_rx_count d;
     nak_count := nak_count d; error_count := sat_add32 (error_count d) 1;
     reinit_count := reinit_count d; card_present := card_present d;
     uptime_ticks := uptime_ticks d |}.
Definition set_reinit (v : Z) (d : Diagnostics) : Diagnostics :=
  {| apdu_tx_count := apdu_tx_count d; apdu_rx_count := apdu_rx_count d;
     nak_count := nak_count d; error_count := error_count d;
     reinit_count := v; card_present := card_present d;
     uptime_ticks := uptime_ticks d |}.
Definition set_card_present (v : bool) (d : Diagnostics) : Diagnostics :=
  {| apdu_tx_count := apdu_tx_count d; apdu_rx_count := apdu_rx_count d;
     nak_count := nak_count d; error_count := error_count d;
     reinit_count := reinit_count d; card_present := v;
     uptime_ticks := uptime_ticks d |}.
Definition set_uptime (v : Z) (d : Diagnostics) : Diagnostics :=
  {| apdu_tx_count := apdu_tx_count d; apdu_rx_count := apdu_rx_count d;
     nak_count := nak_count d; error_count := error_count d;
     reinit_count := reinit_count d; card_present := card_present d;
     uptime_ticks := v |}.

Lemma new_wf : wf new.
Proof. unfold wf, new, u32; simpl. lia. Qed.

End Diagnostics.

(** ** ccid-service/src/turnaround.rs *)
Module Turnaround.

Record TurnaroundStats := mkStats {
  last_turnaround_us : Z;
  max_turnaround_us : Z;
  last_card_exchange_us : Z;
  max_card_exchange_us : Z;
  last_exchange_blocks : Z;
  last_exchange_wtx_replies : Z;
  last_exchange_recoveries : Z;
  last_exchange_max_transceive_us : Z
}.

Inductive OutgoingBlockKind := IBlock | RBlock | SBlock.

Definition from_pcb (pcb : Z) : option OutgoingBlockKind :=
  let k := Z.shiftr pcb 6 in
  if k =? 0 then Some IBlock
  else if k =? 2 then Some RBlock
  else if k =? 3 then Some SBlock
  else None.

Definition SERIALIZED_SIZE : nat := 32.

Definition new : TurnaroundStats := mkStats 0 0 0 0 0 0 0 0.

Definition record_turnaround_us (us : Z) (t : TurnaroundStats) : TurnaroundStats :=
  mkStats us (Z.max (max_turnaround_us t) us) (last_card_exchange_us t)
    (max_card_exchange_us t) (last_exchange_blocks t) (last_exchange_wtx_replies t)
    (last_exchange_recoveries t) (last_exchange_max_transceive_us t).

Definition record_card_exchange_us (us : Z) (t : TurnaroundStats) : TurnaroundStats :=
  mkStats (last_turnaround_us t) (max_turnaround_us t) us
    (Z.max (max_card_exchange_us t) us) (last_exchange_blocks t)
    (last_exchange_wtx_replies t) (last_exchange_recoveries t)
    (last_exchange_max_transceive_us t).

Definition record_exchange_decomposition
    (blocks wtx_replies recoveries max_transceive_us : Z) (t : TurnaroundStats) :
    TurnaroundStats :=
  mkStats (last_turnaround_us t) (max_turnaround_us t) (last_card_exchange_us t)
    (max_card_exchange_us t) blocks wtx_replies recoveries max_transceive_us.

Definition fields (t : TurnaroundStats) : list Z :=
  [last_turnaround_us t; max_turnaround_us t; last_card_exchange_us t;
   max_card_exchange_us t; last_exchange_blocks t; last_exchange_wtx_replies t;
   last_exchange_recoveries t; last_exchange_max_transceive_us t].

Definition to_bytes (t : TurnaroundStats) (buf : list Z) : list Z * nat :=
  if decide (length buf < SERIALIZED_SIZE)%nat then (buf, 0%nat)
  else (words (fields t) ++ drop SERIALIZED_SIZE buf, SERIALIZED_SIZE).

Definition from_bytes (buf : list Z) : option TurnaroundStats :=
  if decide (length buf < SERIALIZED_SIZE)%nat then None
  else Some (mkStats (read_u32 buf 0) (read_u32 buf 4) (read_u32 buf 8) (read_u32 buf 12)
               (read_u32 buf 16) (read_u32 buf 20) (read_u32 buf 24) (read_u32 buf 28)).

Definition wf (t : TurnaroundStats) : Prop := Forall u32 (fields t).

End Turnaround.

(** ** The layouts round-trip *)
Lemma diagnostics_roundtrip d buf :
  Diagnostics.wf d -> (28 <= length buf)%nat ->
  Diagnostics.to_bytes d buf = (words (Diagnostics.fields d) ++ drop 28 buf, 28%nat) /\
  Diagnostics.from_bytes (words (Diagnostics.fields d) ++ drop 28 buf) = Some d.
Proof.
  intros (H1 & H2 & H3 & H4 & H5 & H6) Hlen.
  unfold Diagnostics.to_bytes, Diagnostics.from_bytes, Diagnostics.SERIALIZED_SIZE.
  rewrite !decide_False by (rewrite ?length_app, ?length_words; simpl; lia).
  split; [done|]. set (rest := drop 28 buf). set (l := words _ ++ rest).
  assert (forall i w, Diagnostics.fields d !! i = Some w -> u32 w ->
    read_u32 l (4 * i) = w) as Hr by (intros; by apply read_words).
  pose proof (Hr 0%nat _ eq_refl H1) as E0. pose proof (Hr 1%nat _ eq_refl H2) as E1.
  pose proof (Hr 2%nat _ eq_refl H3) as E2. pose proof (Hr 3%nat _ eq_refl H4) as E3.
  pose proof (Hr 4%nat _ eq_refl H5) as E4. pose proof (Hr 6%nat _ eq_refl H6) as E6.
  assert (u32 (if Diagnostics.card_present d then 1 else 0)) as H7 by by case_match.
  pose proof (Hr 5%nat _ eq_refl H7) as E5.
  simpl Nat.mul in *. rewrite E0, E1, E2, E3, E4, E5, E6.
  by destruct d as [? ? ? ? ? [] ?].
Qed.

Lemma turnaround_roundtrip t buf :
  Turnaround.wf t -> (32 <= length buf)%nat ->
  Turnaround.to_bytes t buf = (words (Turnaround.fields t) ++ drop 32 buf, 32%nat) /\
  Turnaround.from_bytes (words (Turnaround.fields t) ++ drop 32 buf) = Some t.
Proof.
  intros Ht Hlen.
  unfold Turnaround.to_bytes, Turnaround.from_bytes, Turnaround.SERIALIZED_SIZE.
  rewrite !decide_False by (rewrite ?length_app, ?length_words; simpl; lia).
  split; [done|]. set (rest := drop 32 buf). set (l := words _ ++ rest).
  assert (forall i w, Turnaround.fields t !! i = Some w -> read_u32 l (4 * i) = w) as Hr.
  { intros i w Hi. apply read_words; [done|]. by eapply Forall_lookup_1. }
  pose proof (Hr 0%nat _ eq_refl) as E0. pose proof (Hr 1%nat _ eq_refl) as E1.
  pose proof (Hr 2%nat _ eq_refl) as E2. pose proof (Hr 3%nat _ eq_refl) as E3.
  pose proof (Hr 4%nat _ eq_refl) as E4. pose proof (Hr 5%nat _ eq_refl) as E5.
  pose proof (Hr 6%nat _ eq_refl) as E6. pose proof (Hr 7%nat _ eq_refl) as E7.
  simpl Nat.mul in *. rewrite E0, E1, E2, E3, E4, E5, E6, E7. by destruct t.
Qed.

(** Both counter blocks survive the wire: serialising into any buffer that
    is long enough writes exactly 28 (32) bytes, leaves the rest of the buffer
    alone and reads back as the same counters; a shorter buffer is untouched
    and does not parse. *)
Theorem counters_roundtrip d t buf :
  Diagnostics.wf d -> Turnaround.wf t ->
  (if decide (28 <= length buf)%nat
   then (Diagnostics.to_bytes d buf).2 = 28%nat /\
        Diagnostics.from_bytes (Diagnostics.to_bytes d buf).1 = Some d /\
        drop 28 (Diagnostics.to_bytes d buf).1 = drop 28 buf
   else Diagnostics.to_bytes d buf = (buf, 0%nat) /\ Diagnostics.from_bytes buf = None) /\
  (if decide (32 <= length buf)%nat
   then (Turnaround.to_bytes t buf).2 = 32%nat /\
        Turnaround.from_bytes (Turnaround.to_bytes t buf).1 = Some t /\
        drop 32 (Turnaround.to_bytes t buf).1 = drop 32 buf
   else Turnaround.to_bytes t buf = (buf, 0%nat) /\ Turnaround.from_bytes buf = None).
Proof.
  intros Hd Ht. split; case_decide as Hlen.
  - destruct (diagnostics_roundtrip d buf Hd Hlen) as [-> E].
    split_and!; [done|done|]. cbn [fst]. by rewrite drop_app_length' by (by rewrite length_words).
  - unfold Diagnostics.to_bytes, Diagnostics.from_bytes, Diagnostics.SERIALIZED_SIZE.
    by rewrite !decide_True by lia.
  - destruct (turnaround_roundtrip t buf Ht Hlen) as [-> E].
    split_and!; [done|done|]. cbn [fst]. by rewrite drop_app_length' by (by rewrite length_words).
  - unfold Turnaround.to_bytes, Turnaround.from_bytes, Turnaround.SERIALIZED_SIZE.
    by rewrite !decide_True by lia.
Qed.

Example counters_roundtrip_witness :
  let d := Diagnostics.mkDiagnostics 3 2 1 70000 0 true 4294967295 in
  let t := Turnaround.mkStats 1 2 3 4 5 6 7 4294967295 in
  let buf := replicate 30 0 in
  (if decide (28 <= length buf)%nat
   then (Diagnostics.to_bytes d buf).2 = 28%nat /\
        Diagnostics.from_bytes (Diagnostics.to_bytes d buf).1 = Some d /\
        drop 28 (Diagnostics.to_bytes d buf).1 = drop 28 buf
   else Diagnostics.to_bytes d buf = (buf, 0%nat) /\ Diagnostics.from_bytes buf = None) /\
  (if decide (32 <= length buf)%nat
   then (Turnaround.to_bytes t buf).2 = 32%nat /\
        Turnaround.from_bytes (Turnaround.to_bytes t buf).1 = Some t /\
        drop 32 (Turnaround.to_bytes t buf).1 = drop 32 buf
   else Turnaround.to_bytes t buf = (buf, 0%nat) /\ Turnaround.from_bytes buf = None).
Proof.
  intros d t buf. refine (counters_roundtrip d t buf _ _).
  - unfold Diagnostics.wf, u32; simpl; lia.
  - unfold Turnaround.wf, Turnaround.fields; simpl.
    repeat (apply Forall_cons; split; [unfold u32; lia|]); constructor.
Defined.
