(* ===== verification/Secure.v ===== *)
(** * PC_to_RDR_Secure

    The PIN verification and modification structures, the PIN buffer and the
    reader-built VERIFY / CHANGE REFERENCE DATA commands of
    [ccid-core/src/secure.rs].  [Parse] holds the wire structures, [PinBuf] the
    digit buffer, [Builders] the APDU builders. *)
From Stdlib Require Import ZArith Lia ZifyBool.
From stdpp Require Import prelude.
From S2P Require Import Prelude.
Local Open Scope Z_scope.

Inductive PinResult := Success | Cancelled | Timeout | InvalidLength.

#[global] Instance PinResult_eq_dec : EqDecision PinResult.
Proof. solve_decision. Defined.

Inductive ApduError := PinTooShort | PinTooLong | InvalidPinLength | InvalidPinCharacter.

Definition is_ascii_digit (c : Z) : bool := (0x30 <=? c) && (c <=? 0x39).

(** ** The wire structures *)
Module Parse.

Record PinVerifyParams := mkVerify {
  v_timeout_secs : Z;
  v_min_len : Z;
  v_max_len : Z;
  v_format : Z;
  v_validation : Z;
  v_apdu_template : list Z;
  v_template_len : nat;
  v_pin_type : Z;
  v_time_slot : Z;
  v_message_index : Z;
  v_pin_block_string : Z;
  v_pin_length_format : Z;
  v_number_message : Z;
  v_lang_id : Z;
  v_teo_prologue : Z
}.

Definition verify_default : PinVerifyParams :=
  {| v_timeout_secs := 30; v_min_len := 6; v_max_len := 8; v_format := 0x82;
     v_validation := 0x02; v_apdu_template := [0x00; 0x20; 0x00; 0x81; 0x08];
     v_template_len := 5; v_pin_type := 0x81; v_time_slot := 100;
     v_message_index := 0; v_pin_block_string := 0x08; v_pin_length_format := 0x00;
     v_number_message := 0x01; v_lang_id := 0x0409; v_teo_prologue := 0x00 |}.

(** [PinVerifyParams::parse]. *)
Definition verify_parse (data : list Z) : outcome (option PinVerifyParams) :=
  if decide (length data < 14 + 4)%nat then Ret None
  else
    timeout_secs ← index data 0;
    format ← index data 1;
    pin_block_string ← index data 2;
    pin_length_format ← index data 3;
    max_len ← index data 4;
    min_len ← index data 5;
    validation ← index data 6;
    number_message ← index data 7;
    lang0 ← index data 8;
    lang1 ← index data 9;
    message_index ← index data 10;
    teo_prologue ← index data 11;
    cla ← index data 14;
    ins ← index data 15;
    p1 ← index data 16;
    p2 ← index data 17;
    Ret (Some {| v_timeout_secs := timeout_secs; v_min_len := min_len;
                 v_max_len := max_len; v_format := format; v_validation := validation;
                 v_apdu_template := [cla; ins; p1; p2; max_len];
                 v_template_len := 5; v_pin_type := p2; v_time_slot := 100;
                 v_message_index := message_index;
                 v_pin_block_string := pin_block_string;
                 v_pin_length_format := pin_length_format;
                 v_number_message := number_message;
                 v_lang_id := from_le16 lang0 lang1;
                 v_teo_prologue := teo_prologue |}).

Definition verify_is_user_pin (p : PinVerifyParams) : bool := v_pin_type p =? 0x81.
Definition verify_is_admin_pin (p : PinVerifyParams) : bool := v_pin_type p =? 0x83.

Record PinModifyParams := mkModify {
  m_timeout_secs : Z;
  m_min_len : Z;
  m_max_len : Z;
  m_format : Z;
  m_validation : Z;
  m_old_pin_offset : Z;
  m_new_pin_offset : Z;
  m_apdu_template : list Z;
  m_template_len : nat;
  m_pin_type : Z;
  m_time_slot : Z;
  m_msg_index_old : Z;
  m_msg_index_new : Z;
  m_msg_index_confirm : Z
}.

Definition modify_default : PinModifyParams :=
  {| m_timeout_secs := 30; m_min_len := 6; m_max_len := 8; m_format := 0x82;
     m_validation := 0x02; m_old_pin_offset := 5; m_new_pin_offset := 13;
     m_apdu_template := [0x00; 0x24; 0x00; 0x81; 0x10]; m_template_len := 5;
     m_pin_type := 0x81; m_time_slot := 100; m_msg_index_old := 0;
     m_msg_index_new := 1; m_msg_index_confirm := 2 |}.

(** [data.get(idx)?]: an early return of [None], not a panic. *)
Definition get_or_none {A} (data : list Z) (idx : nat)
    (k : Z -> outcome (option A)) : outcome (option A) :=
  match data !! idx with Some v => k v | None => Ret None end.

(** [PinModifyParams::parse]: bytes 0-13 are indexed (a panic when missing),
    the variable tail is read with [get]. *)
Definition modify_parse (data : list Z) : outcome (option PinModifyParams) :=
  if decide (length data < 11)%nat then Ret None
  else
    timeout_secs ← index data 0;
    format ← index data 1;
    _ ← index data 2;
    _ ← index data 3;
    old_pin_offset ← index data 4;
    new_pin_offset ← index data 5;
    max_len ← index data 6;
    min_len ← index data 7;
    _ ← index data 8;
    validation ← index data 9;
    number_message ← index data 10;
    msg_index_old ← index data 13;
    let tail (idx : nat) (msg_index_new msg_index_confirm : Z) :=
      get_or_none data idx (fun _ =>
      get_or_none data (idx + 3) (fun cla =>
      get_or_none data (idx + 4) (fun ins =>
      get_or_none data (idx + 5) (fun p1 =>
      get_or_none data (idx + 6) (fun p2 =>
      Ret (Some
        {| m_timeout_secs := timeout_secs; m_min_len := min_len;
           m_max_len := max_len; m_format := format; m_validation := validation;
           m_old_pin_offset := old_pin_offset; m_new_pin_offset := new_pin_offset;
           m_apdu_template := [cla; ins; p1; p2; wrap8 (max_len * 2)];
           m_template_len := 5; m_pin_type := p2; m_time_slot := 100;
           m_msg_index_old := msg_index_old; m_msg_index_new := msg_index_new;
           m_msg_index_confirm := msg_index_confirm |})))))) in
    let msg3 (idx : nat) (msg_index_new : Z) :=
      if 3 <=? number_message
      then get_or_none data idx (fun v => tail (idx + 1)%nat msg_index_new v)
      else tail idx msg_index_new 2 in
    if negb (number_message =? 0)
    then get_or_none data 14 (fun v => msg3 15%nat v)
    else msg3 14%nat 1.

Definition modify_is_user_pin (p : PinModifyParams) : bool := m_pin_type p =? 0x81.
Definition modify_is_admin_pin (p : PinModifyParams) : bool := m_pin_type p =? 0x83.

End Parse.
Export Parse.

(** ** The PIN buffer *)
Module PinBuf.

Record PinBuffer := mkBuf { digits : list Z; len : nat; max_len : nat }.

Definition new (max_len : nat) : PinBuffer :=
  {| digits := replicate 16 0; len := 0; max_len := max_len `min` 16 |}.

Definition push (b : PinBuffer) (digit : Z) : outcome (PinBuffer * bool) :=
  if decide (max_len b <= len b)%nat then Ret (b, false)
  else if 9 <? digit then Ret (b, false)
  else
    digits' ← store (digits b) (len b) digit;
    Ret ({| digits := digits'; len := S (len b); max_len := max_len b |}, true).

Definition pop (b : PinBuffer) : PinBuffer * bool :=
  if decide (len b = 0)%nat then (b, false)
  else ({| digits := digits b; len := len b - 1; max_len := max_len b |}, true).

Definition clear (b : PinBuffer) : PinBuffer :=
  {| digits := map (fun _ => 0) (digits b); len := 0; max_len := max_len b |}.

Definition is_empty (b : PinBuffer) : bool := (len b =? 0)%nat.
Definition has_minimum (b : PinBuffer) (min : nat) : bool := (min <=? len b)%nat.

Definition to_ascii (b : PinBuffer) : outcome (list Z) :=
  ds ← slice (digits b) 0 (len b);
  copy_at (replicate 16 0) 0 (map (fun d => wrap8 (d + 0x30)) ds).

Definition to_mask (b : PinBuffer) : list Z :=
  replicate (len b `min` 16) 0x2A ++ replicate (16 - len b) 0.

(** Well-formed: 16 cells, at most [max_len <= 16] of them in use, digits only. *)
Definition wf (b : PinBuffer) : Prop :=
  length (digits b) = 16%nat /\ (len b <= max_len b <= 16)%nat /\
  Forall (fun d => 0 <= d <= 9) (digits b).

(** The PIN the buffer stands for. *)
Definition pin (b : PinBuffer) : list Z := take (len b) (digits b).
End PinBuf.
Import PinBuf.

(** ** The APDU builders *)
Module Builders.

Record VerifyApduBuilder := mkVerifyBuilder { vb_cla : Z; vb_p1 : Z; vb_p2 : Z }.

Definition verify_user_pin : VerifyApduBuilder := mkVerifyBuilder 0x00 0x00 0x81.
Definition verify_admin_pin : VerifyApduBuilder := mkVerifyBuilder 0x00 0x00 0x83.
Definition verify_from_template (cla p1 p2 : Z) : VerifyApduBuilder :=
  mkVerifyBuilder cla p1 p2.
Definition vb_is_user_pin (b : VerifyApduBuilder) : bool := vb_p2 b =? 0x81.
Definition vb_is_admin_pin (b : VerifyApduBuilder) : bool := vb_p2 b =? 0x83.

(** [VerifyApduBuilder::build]: a 13-byte array. *)
Definition verify_build (b : VerifyApduBuilder) (pin_ascii : list Z) :
    outcome (result (list Z) ApduError) :=
  let n := length pin_ascii in
  if (n =? 0)%nat then Ret (Err PinTooShort)
  else if vb_is_admin_pin b && negb (n =? 8)%nat then Ret (Err InvalidPinLength)
  else if vb_is_user_pin b && ((n <? 6) || (8 <? n))%nat then Ret (Err InvalidPinLength)
  else if negb (forallb is_ascii_digit pin_ascii) then Ret (Err InvalidPinCharacter)
  else
    let apdu := [vb_cla b; 0x20; vb_p1 b; vb_p2 b; wrap8 (Z.of_nat n)] ++ replicate 8 0 in
    apdu ← copy_at apdu 5 pin_ascii;
    Ret (Ok (take (5 + n) apdu ++ map (fun _ => 0) (drop (5 + n) apdu))).

(** [VerifyApduBuilder::build_from_digits]. *)
Definition build_from_digits (b : VerifyApduBuilder) (ds : list Z) :
    outcome (result (list Z) ApduError) :=
  let n := (length ds `min` 8)%nat in
  if existsb (fun d => 9 <? d) (take n ds) then Ret (Err InvalidPinCharacter)
  else verify_build b (map (fun d => wrap8 (d + 0x30)) (take n ds)).

Definition verify_apdu_len (pin_len : nat) : nat := 5 + pin_len.

Record ModifyApduBuilder := mkModifyBuilder {
  mb_cla : Z; mb_p1 : Z; mb_p2 : Z; mb_old_pin_offset : Z; mb_new_pin_offset : Z
}.

Definition modify_user_pin : ModifyApduBuilder := mkModifyBuilder 0x00 0x00 0x81 5 13.
Definition modify_admin_pin : ModifyApduBuilder := mkModifyBuilder 0x00 0x00 0x83 5 13.
Definition modify_from_template (cla p1 p2 old_off new_off : Z) : ModifyApduBuilder :=
  mkModifyBuilder cla p1 p2 old_off new_off.
Definition mb_is_user_pin (b : ModifyApduBuilder) : bool := mb_p2 b =? 0x81.
Definition mb_is_admin_pin (b : ModifyApduBuilder) : bool := mb_p2 b =? 0x83.

(** [ModifyApduBuilder::build]: a 21-byte array. *)
Definition modify_build (b : ModifyApduBuilder) (old_pin new_pin : list Z) :
    outcome (result (list Z) ApduError) :=
  let o := length old_pin in
  let n := length new_pin in
  if ((o =? 0) || (n =? 0))%nat then Ret (Err PinTooShort)
  else if mb_is_admin_pin b && (negb (o =? 8) || negb (n =? 8))%nat
  then Ret (Err InvalidPinLength)
  else if mb_is_user_pin b && ((o <? 6) || (8 <? o) || (n <? 6) || (8 <? n))%nat
  then Ret (Err InvalidPinLength)
  else if negb (forallb is_ascii_digit (old_pin ++ new_pin))
  then Ret (Err InvalidPinCharacter)
  else
    let total_len := (o + n)%nat in
    let apdu :=
      [mb_cla b; 0x24; mb_p1 b; mb_p2 b; wrap8 (Z.of_nat total_len)] ++ replicate 16 0 in
    apdu ← copy_at apdu 5 old_pin;
    apdu ← copy_at apdu (5 + o) new_pin;
    Ret (Ok apdu).

Definition modify_apdu_len (old_len new_len : nat) : nat := 5 + old_len + new_len.

End Builders.
Export Builders.

(** ** The buffer is a bounded stack of digits *)
Inductive pin_op := OpPush (d : Z) | OpPop | OpClear.

Definition op_ok (op : pin_op) : Prop :=
  match op with OpPush d => u8 d | _ => True end.

(** Abstract: a list of digits of bounded length. *)
Definition spec_op (cap : nat) (l : list Z) (op : pin_op) : list Z * bool :=
  match op with
  | OpPush d => if decide (length l < cap)%nat then
                  if d <=? 9 then (l ++ [d], true) else (l, false)
                else (l, false)
  | OpPop => match l with [] => (l, false) | _ => (removelast l, true) end
  | OpClear => ([], true)
  end.

(** Concrete: the operations of the buffer. *)
Definition buf_op (b : PinBuffer) (op : pin_op) : outcome (PinBuffer * bool) :=
  match op with
  | OpPush d => push b d
  | OpPop => Ret (pop b)
  | OpClear => Ret (clear b, true)
  end.

Lemma wf_new cap : wf (new cap) /\ pin (new cap) = [].
Proof.
  unfold wf, pin. split; [|done]. cbn [digits len max_len new].
  split_and!; [done|lia..|]. by repeat constructor.
Qed.

Lemma length_pin b : wf b -> length (pin b) = len b.
Proof. intros (H1 & H2 & _). unfold pin. rewrite length_take. lia. Qed.

Lemma pin_digits b : wf b -> Forall (fun d => 0 <= d <= 9) (pin b).
Proof. intros (_ & _ & H). by apply Forall_take. Qed.

Lemma push_spec b d : wf b -> u8 d ->
  exists b', push b d = Ret (b', (spec_op (max_len b) (pin b) (OpPush d)).2) /\
    wf b' /\ max_len b' = max_len b /\
    pin b' = (spec_op (max_len b) (pin b) (OpPush d)).1.
Proof.
  intros Hwf Hd. pose proof (length_pin b Hwf) as Hl. destruct Hwf as (H1 & H2 & H3).
  unfold push, spec_op. rewrite Hl.
  case_decide; [rewrite decide_False by lia; exists b; done|].
  rewrite decide_True by lia.
  destruct (9 <? d) eqn:E.
  { replace (d <=? 9) with false by lia. by exists b. }
  replace (d <=? 9) with true by lia.
  unfold store. rewrite decide_True by lia. simpl.
  eexists. split; [done|]. unfold wf, pin in *. cbn [len digits max_len].
  rewrite length_insert. unfold u8 in Hd. split_and!; [lia..| |done|].
  - apply Forall_insert; [done|lia].
  - rewrite (take_S_r _ _ d) by (apply list_lookup_insert_eq; lia).
    by rewrite take_insert_ge by lia.
Qed.

Lemma removelast_take {A} (l : list A) n :
  (n <= length l)%nat -> removelast (take n l) = take (n - 1) l.
Proof.
  destruct n as [|n]; [done|]. intros H.
  destruct (lookup_lt_is_Some_2 l n) as [x Hx]; [lia|].
  rewrite (take_S_r _ _ _ Hx), removelast_last.
  by replace (S n - 1)%nat with n by lia.
Qed.

Lemma pop_spec b : wf b ->
  (pop b).2 = (spec_op (max_len b) (pin b) OpPop).2 /\
  wf (pop b).1 /\ max_len (pop b).1 = max_len b /\
  pin (pop b).1 = (spec_op (max_len b) (pin b) OpPop).1.
Proof.
  intros Hwf. pose proof (length_pin b Hwf) as Hl. destruct Hwf as (H1 & H2 & H3).
  unfold pop. case_decide as E.
  - assert (pin b = []) as Ep by (apply length_zero_iff_nil; lia). cbn [fst snd].
    rewrite Ep. by split_and!.
  - assert (removelast (pin b) = take (len b - 1) (digits b)) as Hr
      by (apply removelast_take; lia).
    unfold spec_op. destruct (pin b) eqn:Ep; [simpl in Hl; lia|]. rewrite <- Ep in *.
    unfold wf. cbn. split_and!; try done; lia.
Qed.

Lemma map_const_zero {A} (l : list A) : map (fun _ => 0) l = replicate (length l) 0.
Proof. by induction l as [|x l IH]; [|simpl; f_equal]. Qed.

Lemma clear_spec b : wf b ->
  wf (clear b) /\ max_len (clear b) = max_len b /\ pin (clear b) = [] /\
  digits (clear b) = replicate 16 0.
Proof.
  intros (H1 & H2 & H3).
  assert (digits (clear b) = replicate 16 0) as E.
  { unfold clear. cbn [digits]. rewrite <- H1. apply map_const_zero. }
  unfold wf. rewrite E. unfold pin. cbn [len clear max_len].
  split_and!; try done; try lia.
  rewrite Forall_forall. intros x ?%elem_of_replicate. lia.
Qed.

Lemma buf_op_spec b op : wf b -> op_ok op ->
  exists b', buf_op b op = Ret (b', (spec_op (max_len b) (pin b) op).2) /\
    wf b' /\ max_len b' = max_len b /\ pin b' = (spec_op (max_len b) (pin b) op).1.
Proof.
  intros Hwf Hop. destruct op as [d| |].
  - by apply push_spec.
  - destruct (pop_spec b Hwf) as (E & ? & ? & ?). exists (pop b).1.
    simpl buf_op. rewrite <- E. by destruct (pop b).
  - destruct (clear_spec b Hwf) as (? & ? & ? & ?). by exists (clear b).
Qed.
#[export] Hint Resolve wf_new : ccid.

Lemma to_ascii_spec b : wf b ->
  to_ascii b = Ret (map (fun d => d + 0x30) (pin b) ++ replicate (16 - len b) 0).
Proof.
  intros Hwf. pose proof (length_pin b Hwf) as Hl. pose proof (pin_digits b Hwf) as Hd.
  destruct Hwf as (H1 & H2 & H3). unfold to_ascii.
  rewrite slice_prefix by lia; rewrite bind_ret. fold (pin b).
  assert (map (fun d => wrap8 (d + 0x30)) (pin b) = map (fun d => d + 0x30) (pin b)) as ->.
  { clear Hl. induction Hd as [|x l ? ? IH]; [done|]. simpl. f_equal; [int_lia|done]. }
  rewrite copy_at_ok by (rewrite length_map; simpl; lia).
  rewrite length_map, Hl, take_0, drop_replicate. done.
Qed.

(** A PIN buffer is a bounded stack of decimal digits.  For every sequence
    of pushes, pops and clears on a fresh buffer no operation panics, each
    operation answers what the abstract stack of capacity min(max_len, 16)
    answers, the buffer then stands for the abstract stack's digits and
    [to_ascii] renders them padded with zeros; clearing afterwards leaves all
    sixteen cells zero. *)
Theorem pin_buffer_refines_stack cap ops :
  Forall op_ok ops ->
  let spec := spec_run (spec_op (cap `min` 16)) [] ops in
  exists b,
    run buf_op (new cap) ops = Ret (b, spec.2) /\ pin b = spec.1 /\
    (length spec.1 <= cap `min` 16)%nat /\
    Forall (fun d => 0 <= d <= 9) spec.1 /\
    to_ascii b =
      Ret (map (fun d => d + 0x30) spec.1 ++ replicate (16 - length spec.1) 0) /\
    digits (clear b) = replicate 16 0.
Proof.
  intros Hops spec. destruct (wf_new cap) as [Hwf Hpin].
  destruct (run_refines buf_op (spec_op (cap `min` 16))
    (fun b => wf b /\ max_len b = (cap `min` 16)%nat) op_ok pin (new cap) ops)
    as (b & E & [Hb Hm] & Hp); [|done|done|].
  { intros b op [Hb Hm] Hop. destruct (buf_op_spec b op Hb Hop) as (b' & ? & ? & ? & ?).
    exists b'. rewrite <- Hm. naive_solver. }
  rewrite Hpin in E, Hp.
  exists b. fold spec in E, Hp. pose proof (length_pin b Hb) as Hl.
  rewrite <- Hp, Hl. split_and!; try done.
  - destruct Hb as (? & ? & ?). lia.
  - by apply pin_digits.
  - by apply to_ascii_spec.
  - by apply clear_spec.
Qed.

Example pin_buffer_refines_stack_witness :
  let ops := [OpPush 1; OpPush 12; OpPush 2; OpPop; OpPush 3; OpPush 4] in
  let spec := spec_run (spec_op (2 `min` 16)) [] ops in
  spec = ([1; 3], [true; false; true; true; true; false]) /\
  exists b,
    run buf_op (new 2) ops = Ret (b, spec.2) /\ pin b = spec.1 /\
    (length spec.1 <= 2 `min` 16)%nat /\
    Forall (fun d => 0 <= d <= 9) spec.1 /\
    to_ascii b =
      Ret (map (fun d => d + 0x30) spec.1 ++ replicate (16 - length spec.1) 0) /\
    digits (clear b) = replicate 16 0.
Proof.
  intros ops spec. split; [reflexivity|].
  refine (pin_buffer_refines_stack 2 ops _).
  repeat (apply Forall_cons; split; [unfold op_ok, u8; lia || done|]); constructor.
Defined.

(** ** The built commands *)

(** The PIN lengths the builders accept for a P2: 6..8 for the user PIN, 8 for
    the admin PIN, anything nonempty otherwise. *)
Definition length_ok (p2 : Z) (n : nat) : Prop :=
  (1 <= n)%nat /\ (p2 = 0x81 -> (6 <= n <= 8)%nat) /\ (p2 = 0x83 -> n = 8%nat).

Definition ascii_pin (pin : list Z) : Prop := Forall (fun c => 0x30 <= c <= 0x39) pin.

Lemma forallb_ascii pin : forallb is_ascii_digit pin = true <-> ascii_pin pin.
Proof.
  unfold ascii_pin. rewrite forallb_forall, Forall_forall.
  setoid_rewrite list_elem_of_In. unfold is_ascii_digit. split; intros H x Hx;
    specialize (H x Hx); simpl in *; lia.
Qed.

(** A build is refused, panics on the array bound, or copies the PIN. *)
Lemma verify_build_cases b pin :
  length_ok (vb_p2 b) (length pin) /\ ascii_pin pin /\
    verify_build b pin =
      (if decide (length pin <= 8)%nat
       then Ret (Ok ([vb_cla b; 0x20; vb_p1 b; vb_p2 b; Z.of_nat (length pin)] ++ pin ++
                     replicate (8 - length pin) 0))
       else Panic) \/
  ~ (length_ok (vb_p2 b) (length pin) /\ ascii_pin pin) /\
    exists e, verify_build b pin = Ret (Err e).
Proof.
  rewrite <- forallb_ascii. unfold length_ok, verify_build, vb_is_admin_pin, vb_is_user_pin.
  repeat (case_match; [right; split; [intros []; lia|by eexists]|]).
  left. split_and!; [lia..|by destruct (forallb _ pin)|].
  set (head := [_; _; _; _; _]). case_decide as Hn.
  - rewrite (copy_at_replicate head) by lia. rewrite bind_ret.
    rewrite app_assoc, take_app_length', drop_app_length' by (rewrite length_app; simpl; lia).
    rewrite map_const_zero, length_replicate, <- app_assoc. unfold head, wrap8. by rewrite Z.mod_small by lia.
  - assert (copy_at (head ++ replicate 8 0) 5 pin = Panic) as ->; [|done].
    apply copy_at_Panic. rewrite length_app. simpl. lia.
Qed.

Lemma modify_build_cases b old new :
  let o := length old in let n := length new in
  (mb_p2 b = 0x81 \/ mb_p2 b = 0x83 -> length_ok (mb_p2 b) o /\ length_ok (mb_p2 b) n) /\
    (1 <= o)%nat /\ (1 <= n)%nat /\ ascii_pin (old ++ new) /\
    modify_build b old new =
      (if decide (o + n <= 16)%nat
       then Ret (Ok ([mb_cla b; 0x24; mb_p1 b; mb_p2 b; Z.of_nat (o + n)] ++ old ++ new ++
                     replicate (16 - (o + n)) 0))
       else Panic) \/
  ~ (length_ok (mb_p2 b) o /\ length_ok (mb_p2 b) n /\ ascii_pin (old ++ new)) /\
    exists e, modify_build b old new = Ret (Err e).
Proof.
  intros o n. rewrite <- forallb_ascii.
  unfold length_ok, modify_build, mb_is_admin_pin, mb_is_user_pin. fold o n.
  repeat (case_match; [right; split; [intros (? & ? & ?); lia|by eexists]|]).
  left. split_and!; [lia..|by destruct (forallb _ _)|].
  set (head := [_; _; _; _; _]).
  destruct (decide (o <= 16)%nat).
  - rewrite (copy_at_replicate head) by (fold o; lia). fold o. rewrite bind_ret.
    rewrite app_assoc. change (5 + o)%nat with (length head + length old)%nat.
    rewrite <- length_app. case_decide.
    + rewrite copy_at_replicate by (fold n; lia). fold n. rewrite bind_ret.
      unfold head, wrap8. rewrite Z.mod_small by lia. rewrite <- app_assoc.
      by replace (16 - o - n)%nat with (16 - (o + n))%nat by lia.
    + assert (copy_at ((head ++ old) ++ replicate (16 - o) 0) (length (head ++ old)) new
        = Panic) as ->; [|done].
      apply copy_at_Panic. rewrite !length_app, length_replicate. simpl. fold o n. lia.
  - rewrite decide_False by lia.
    assert (copy_at (head ++ replicate 16 0) 5 old = Panic) as ->; [|done].
    apply copy_at_Panic. rewrite length_app. simpl. fold o. lia.
Qed.

(** The VERIFY command.  The builder answers an APDU exactly for a PIN of
    ASCII digits whose length the P2 admits and which fits the 13-byte array,
    and that APDU is CLA 20 P1 P2 Lc, the PIN, and zeros; it panics exactly
    when an admissible PIN of an unknown P2 is longer than eight digits; every
    other input is refused with an error. *)
Theorem verify_apdu_layout b pin :
  let n := length pin in
  let ok := length_ok (vb_p2 b) n /\ ascii_pin pin in
  (forall apdu, verify_build b pin = Ret (Ok apdu) <->
     ok /\ (n <= 8)%nat /\
     apdu = [vb_cla b; 0x20; vb_p1 b; vb_p2 b; Z.of_nat n] ++ pin ++ replicate (8 - n) 0) /\
  (verify_build b pin = Panic <-> ok /\ (8 < n)%nat) /\
  ((exists e, verify_build b pin = Ret (Err e)) <-> ~ ok).
Proof.
  cbv zeta. destruct (verify_build_cases b pin) as [(H1 & H2 & E)|(H & e & E)]; rewrite E.
  - case_decide; (split_and!; [intros apdu| |]; split);
      try naive_solver lia; try (intros (? & ?); done); intros; simplify_eq; naive_solver lia.
  - split_and!; [intros apdu| |]; split; try done; naive_solver.
Qed.

(** The CHANGE REFERENCE DATA command.  When the builder answers an APDU
    it is CLA 24 P1 P2 Lc, the old PIN, the new PIN, zeros up to 21 bytes, with
    Lc the sum of the two lengths; for the user and admin P2 it answers one
    exactly for two admissible PINs of ASCII digits and never panics; for any
    other P2 it panics exactly when two nonempty digit strings have more than
    sixteen digits together. *)
Theorem change_apdu_layout b old new :
  let o := length old in let n := length new in
  let ok := length_ok (mb_p2 b) o /\ length_ok (mb_p2 b) n /\ ascii_pin (old ++ new) in
  (forall apdu, modify_build b old new = Ret (Ok apdu) <->
     ok /\ (o + n <= 16)%nat /\
     apdu = [mb_cla b; 0x24; mb_p1 b; mb_p2 b; Z.of_nat (o + n)] ++ old ++ new ++
            replicate (16 - (o + n)) 0) /\
  (modify_build b old new = Panic <-> ok /\ (16 < o + n)%nat) /\
  (mb_p2 b = 0x81 \/ mb_p2 b = 0x83 -> modify_build b old new <> Panic) /\
  ((exists e, modify_build b old new = Ret (Err e)) <-> ~ ok).
Proof.
  cbv zeta. destruct (modify_build_cases b old new) as [(H1 & H2 & H3 & H4 & E)|(H & e & E)];
    rewrite E; clear E.
  - assert (length_ok (mb_p2 b) (length old) /\ length_ok (mb_p2 b) (length new)) as [Ho Hn].
    { destruct (decide (mb_p2 b = 0x81 \/ mb_p2 b = 0x83)) as [Hp|Hp]; [by apply H1|].
      unfold length_ok. split_and!; try done; intros; naive_solver. }
    case_decide; (split_and!; [intros apdu| | |]; try split);
      try naive_solver lia; unfold length_ok in *; intros; simplify_eq; naive_solver lia.
  - split_and!; [intros apdu| | |]; try split; try done; naive_solver.
Qed.

(** ** Parsing what a PC/SC host sends

    libccid copies the PC/SC structures to the wire in order; bMsgIndex2 is
    left out when bNumberMessage = 0 and bMsgIndex3 when bNumberMessage < 3. *)
Record HostVerify := mkHostVerify {
  hv_timeout : Z; hv_format : Z; hv_pin_block : Z; hv_len_format : Z;
  hv_min : Z; hv_max : Z; hv_validation : Z; hv_number : Z;
  hv_lang0 : Z; hv_lang1 : Z; hv_msg : Z; hv_prologue : Z * Z * Z;
  hv_cla : Z; hv_ins : Z; hv_p1 : Z; hv_p2 : Z; hv_rest : list Z
}.

Definition encode_verify (h : HostVerify) : list Z :=
  [hv_timeout h; hv_format h; hv_pin_block h; hv_len_format h; hv_max h; hv_min h;
   hv_validation h; hv_number h; hv_lang0 h; hv_lang1 h; hv_msg h;
   (hv_prologue h).1.1; (hv_prologue h).1.2; (hv_prologue h).2;
   hv_cla h; hv_ins h; hv_p1 h; hv_p2 h] ++ hv_rest h.

Record HostModify := mkHostModify {
  hm_timeout : Z; hm_format : Z; hm_pin_block : Z; hm_len_format : Z;
  hm_old_off : Z; hm_new_off : Z; hm_min : Z; hm_max : Z; hm_confirm : Z;
  hm_validation : Z; hm_number : Z; hm_lang0 : Z; hm_lang1 : Z;
  hm_msg1 : Z; hm_msg2 : Z; hm_msg3 : Z; hm_prologue : Z * Z * Z;
  hm_cla : Z; hm_ins : Z; hm_p1 : Z; hm_p2 : Z; hm_rest : list Z
}.

Definition encode_modify (h : HostModify) : list Z :=
  [hm_timeout h; hm_format h; hm_pin_block h; hm_len_format h; hm_old_off h;
   hm_new_off h; hm_max h; hm_min h; hm_confirm h; hm_validation h; hm_number h;
   hm_lang0 h; hm_lang1 h; hm_msg1 h] ++
  (if hm_number h =? 0 then [] else [hm_msg2 h]) ++
  (if hm_number h <? 3 then [] else [hm_msg3 h]) ++
  [(hm_prologue h).1.1; (hm_prologue h).1.2; (hm_prologue h).2;
   hm_cla h; hm_ins h; hm_p1 h; hm_p2 h] ++ hm_rest h.

Lemma verify_parse_long data : (18 <= length data)%nat ->
  exists p, verify_parse data = Ret (Some p).
Proof.
  intros H. unfold verify_parse. rewrite decide_False by lia.
  do 18 (destruct data as [|? data]; [simpl in H; lia|]). by eexists.
Qed.

Lemma verify_parse_short data : (length data < 18)%nat -> verify_parse data = Ret None.
Proof. intros H. unfold verify_parse. by rewrite decide_True by lia. Qed.

Lemma verify_parse_returns data : returns (verify_parse data).
Proof.
  destruct (Nat.lt_ge_cases (length data) 18) as [H|H].
  - rewrite verify_parse_short by done. by eexists.
  - destruct (verify_parse_long data H) as [p ->]. by eexists.
Qed.

(** The verify structure is read the way hosts lay it out: the limits
    come in the order maximum, minimum and the APDU head follows the
    three-byte prologue; anything shorter than 18 bytes is refused, and no
    input panics. *)
Theorem verify_parse_host h :
  verify_parse (encode_verify h) = Ret (Some
    {| v_timeout_secs := hv_timeout h; v_min_len := hv_min h; v_max_len := hv_max h;
       v_format := hv_format h; v_validation := hv_validation h;
       v_apdu_template := [hv_cla h; hv_ins h; hv_p1 h; hv_p2 h; hv_max h];
       v_template_len := 5; v_pin_type := hv_p2 h; v_time_slot := 100;
       v_message_index := hv_msg h; v_pin_block_string := hv_pin_block h;
       v_pin_length_format := hv_len_format h; v_number_message := hv_number h;
       v_lang_id := hv_lang0 h + 256 * hv_lang1 h;
       v_teo_prologue := (hv_prologue h).1.1 |}) /\
  (forall data, verify_parse data = Ret None <-> (length data < 18)%nat) /\
  (forall data, returns (verify_parse data)).
Proof.
  split; [by destruct h|]. split; [|apply verify_parse_returns].
  intros data. destruct (Nat.lt_ge_cases (length data) 18) as [H|H].
  - split; [done|]. by intros _; apply verify_parse_short.
  - destruct (verify_parse_long data H) as [p ->]. split; [done|lia].
Qed.

Lemma get_or_none_returns {A} (data : list Z) idx (k : Z -> outcome (option A)) :
  (forall v, returns (k v)) -> returns (get_or_none data idx k).
Proof. intros H. unfold get_or_none. case_match; [apply H|by eexists]. Qed.

Lemma modify_parse_bounds data : modify_parse data = Panic <-> (11 <= length data <= 13)%nat.
Proof.
  unfold modify_parse. case_decide as Hd; [split; [done|lia]|].
  do 11 (destruct data as [|? data]; [simpl in Hd; lia|]).
  do 3 (destruct data as [|? data]; [simpl; split; [lia|done]|]).
  split; [|simpl; lia]. intros E. exfalso.
  match type of E with ?m = Panic => assert (returns m) as [? Hr]; [|congruence] end.
  clear E. cbn [index mbind outcome_bind lookup list_lookup].
  repeat case_match; repeat (apply get_or_none_returns; intros ?); by eexists.
Qed.

(** The modify structure is read the way hosts lay it out, with the two
    optional message indices present exactly when bNumberMessage says so and
    defaulting to 1 and 2, and Lc room for the old and the new PIN (in eight
    bits).  The reader panics exactly on structures of 11 to 13 bytes: the
    length check admits eleven bytes and byte 13 is indexed. *)
Theorem modify_parse_host h :
  modify_parse (encode_modify h) = Ret (Some
    {| m_timeout_secs := hm_timeout h; m_min_len := hm_min h; m_max_len := hm_max h;
       m_format := hm_format h; m_validation := hm_validation h;
       m_old_pin_offset := hm_old_off h; m_new_pin_offset := hm_new_off h;
       m_apdu_template := [hm_cla h; hm_ins h; hm_p1 h; hm_p2 h; (2 * hm_max h) mod 256];
       m_template_len := 5; m_pin_type := hm_p2 h; m_time_slot := 100;
       m_msg_index_old := hm_msg1 h;
       m_msg_index_new := (if hm_number h =? 0 then 1 else hm_msg2 h);
       m_msg_index_confirm := (if hm_number h <? 3 then 2 else hm_msg3 h) |}) /\
  (forall data, modify_parse data = Panic <-> (11 <= length data <= 13)%nat).
Proof.
  split.
  - unfold modify_parse, encode_modify. rewrite decide_False by (simpl; lia).
    destruct h as [? ? ? ? ? ? ? mx ? ? nm ? ? ? ? ? [[? ?] ?] ? ? ? ? ?]. simpl.
    unfold wrap8. rewrite (Z.mul_comm mx 2), (Z.ltb_antisym 3 nm).
    by destruct (nm =? 0) eqn:E1, (3 <=? nm) eqn:E2; try (exfalso; lia).
  - apply modify_parse_bounds.
Qed.
