(* ===== verification/PinPad.v ===== *)
(** * PIN pad state machines

    [firmware/ccid-firmware/src/pinpad/state.rs]: the single-entry machine
    ([Entry]) and the three-step modification machine ([Modify]), each over the
    PIN buffers of [Secure.PinBuf]; [pinpad/apdu.rs]: the reading of the
    card's answer ([VerifyResponse]).  Ticks are 32-bit and wrap. *)
From Stdlib Require Import ZArith Lia ZifyBool.
From stdpp Require Import prelude.
From S2P Require Import Prelude Secure.
Import PinBuf.
Local Open Scope Z_scope.

(** The user and timer events the UI loop feeds to either machine. *)
Inductive event :=
| Start (now : Z)
| Digit (d : Z)
| Backspace
| Submit
| Cancel
| CheckTimeout (now ticks_per_second : Z)
| Reset_ctx.

(** What the operation returned to its caller. *)
Inductive answer := Nothing | Flag (b : bool) | Outcome (r : PinResult).

(** [current_ticks.wrapping_sub(start) / ticks_per_second >= timeout_secs]; the
    division panics on zero. *)
Definition timed_out (now start tps timeout_secs : Z) : outcome bool :=
  if tps =? 0 then Panic
  else Ret (timeout_secs <=? wrapping_sub32 now start / tps).

Module Entry.

Inductive PinEntryState :=
  Idle | WaitingForPin | Completed | SCancelled | STimeout | SInvalidLength.

#[global] Instance PinEntryState_eq_dec : EqDecision PinEntryState.
Proof. solve_decision. Defined.

Record PinEntryContext := mkEntry {
  state : PinEntryState;
  buffer : PinBuffer;
  params : PinVerifyParams;
  start_ticks : Z;
  pressed_button : option Z
}.

Definition new (params : PinVerifyParams) : PinEntryContext :=
  mkEntry Idle (PinBuf.new (Z.to_nat (v_max_len params))) params 0 None.

Definition start (c : PinEntryContext) (now : Z) : PinEntryContext :=
  mkEntry WaitingForPin (clear (buffer c)) (params c) now None.

Definition with_buffer (c : PinEntryContext) (b : PinBuffer) : PinEntryContext :=
  mkEntry (state c) b (params c) (start_ticks c) (pressed_button c).
Definition with_state (c : PinEntryContext) (s : PinEntryState) : PinEntryContext :=
  mkEntry s (buffer c) (params c) (start_ticks c) (pressed_button c).

Definition add_digit (c : PinEntryContext) (digit : Z) : outcome (PinEntryContext * bool) :=
  if decide (state c = WaitingForPin) then
    r ← push (buffer c) digit; Ret (with_buffer c r.1, r.2)
  else Ret (c, false).

Definition backspace (c : PinEntryContext) : PinEntryContext * bool :=
  if decide (state c = WaitingForPin) then
    let r := pop (buffer c) in (with_buffer c r.1, r.2)
  else (c, false).

Definition submit (c : PinEntryContext) : PinEntryContext * PinResult :=
  if decide (state c = WaitingForPin) then
    if negb (has_minimum (buffer c) (Z.to_nat (v_min_len (params c))))
    then (with_state c SInvalidLength, InvalidLength)
    else (with_state c Completed, Success)
  else (c, Cancelled).

Definition cancel (c : PinEntryContext) : PinEntryContext :=
  with_buffer (with_state c SCancelled) (clear (buffer c)).

Definition check_timeout (c : PinEntryContext) (now tps : Z) :
    outcome (PinEntryContext * bool) :=
  if decide (state c = WaitingForPin) then
    if v_timeout_secs (params c) =? 0 then Ret (c, false)
    else
      t ← timed_out now (start_ticks c) tps (v_timeout_secs (params c));
      if (t : bool) then Ret (with_buffer (with_state c STimeout) (clear (buffer c)), true)
      else Ret (c, false)
  else Ret (c, false).

Definition is_active (c : PinEntryContext) : bool :=
  match state c with WaitingForPin => true | _ => false end.
Definition is_complete (c : PinEntryContext) : bool :=
  match state c with Completed | SCancelled | STimeout | SInvalidLength => true | _ => false end.
Definition result (c : PinEntryContext) : option PinResult :=
  match state c with
  | Completed => Some Success
  | SCancelled => Some Cancelled
  | STimeout => Some Timeout
  | SInvalidLength => Some InvalidLength
  | _ => None
  end.

Definition reset (c : PinEntryContext) : PinEntryContext :=
  mkEntry Idle (clear (buffer c)) (params c) 0 None.

Definition step (c : PinEntryContext) (e : event) : outcome (PinEntryContext * answer) :=
  match e with
  | Start now => Ret (start c now, Nothing)
  | Digit d => r ← add_digit c d; Ret (r.1, Flag r.2)
  | Backspace => let r := backspace c in Ret (r.1, Flag r.2)
  | Submit => let r := submit c in Ret (r.1, Outcome r.2)
  | Cancel => Ret (cancel c, Nothing)
  | CheckTimeout now tps => r ← check_timeout c now tps; Ret (r.1, Flag r.2)
  | Reset_ctx => Ret (reset c, Nothing)
  end.

End Entry.

Module Modify.

Inductive PinModifyStep :=
  Idle | OldPin | NewPin | ConfirmPin | Completed | SCancelled | STimeout
| Mismatch | SInvalidLength.

#[global] Instance PinModifyStep_eq_dec : EqDecision PinModifyStep.
Proof. solve_decision. Defined.

Record PinModifyContext := mkModify {
  step : PinModifyStep;
  old_buffer : PinBuffer;
  new_buffer : PinBuffer;
  confirm_buffer : PinBuffer;
  params : PinModifyParams;
  start_ticks : Z;
  pressed_button : option Z
}.

Definition new (params : PinModifyParams) : PinModifyContext :=
  let b := PinBuf.new (Z.to_nat (m_max_len params)) in
  mkModify Idle b b b params 0 None.

Definition with_step (c : PinModifyContext) (s : PinModifyStep) : PinModifyContext :=
  mkModify s (old_buffer c) (new_buffer c) (confirm_buffer c) (params c)
    (start_ticks c) (pressed_button c).

(** The context with all three buffers cleared. *)
Definition cleared (c : PinModifyContext) (s : PinModifyStep) : PinModifyContext :=
  mkModify s (clear (old_buffer c)) (clear (new_buffer c)) (clear (confirm_buffer c))
    (params c) (start_ticks c) (pressed_button c).

Definition start (c : PinModifyContext) (now : Z) : PinModifyContext :=
  mkModify OldPin (clear (old_buffer c)) (clear (new_buffer c)) (clear (confirm_buffer c))
    (params c) now None.

(** The [&mut] buffer of the current step, [None] outside the three entry
    steps, and the context with it replaced. *)
Definition current (c : PinModifyContext) : option PinBuffer :=
  match step c with
  | OldPin => Some (old_buffer c)
  | NewPin => Some (new_buffer c)
  | ConfirmPin => Some (confirm_buffer c)
  | _ => None
  end.
Definition with_current (c : PinModifyContext) (b : PinBuffer) : PinModifyContext :=
  match step c with
  | OldPin => mkModify OldPin b (new_buffer c) (confirm_buffer c) (params c)
                (start_ticks c) (pressed_button c)
  | NewPin => mkModify NewPin (old_buffer c) b (confirm_buffer c) (params c)
                (start_ticks c) (pressed_button c)
  | ConfirmPin => mkModify ConfirmPin (old_buffer c) (new_buffer c) b (params c)
                    (start_ticks c) (pressed_button c)
  | _ => c
  end.

Definition add_digit (c : PinModifyContext) (digit : Z) : outcome (PinModifyContext * bool) :=
  match current c with
  | Some b => r ← push b digit; Ret (with_current c r.1, r.2)
  | None => Ret (c, false)
  end.

Definition backspace (c : PinModifyContext) : PinModifyContext * bool :=
  match current c with
  | Some b => let r := pop b in (with_current c r.1, r.2)
  | None => (c, false)
  end.

Definition submit (c : PinModifyContext) : outcome (PinModifyContext * PinResult) :=
  let min := Z.to_nat (m_min_len (params c)) in
  match step c with
  | OldPin =>
      if negb (has_minimum (old_buffer c) min)
      then Ret (with_step c SInvalidLength, InvalidLength)
      else Ret (with_step c NewPin, Success)
  | NewPin =>
      if negb (has_minimum (new_buffer c) min)
      then Ret (with_step c SInvalidLength, InvalidLength)
      else Ret (with_step c ConfirmPin, Success)
  | ConfirmPin =>
      if negb (has_minimum (confirm_buffer c) min)
      then Ret (with_step c SInvalidLength, InvalidLength)
      else if negb (len (new_buffer c) =? len (confirm_buffer c))%nat
      then Ret (with_step c Mismatch, InvalidLength)
      else
        new_ascii ← to_ascii (new_buffer c);
        confirm_ascii ← to_ascii (confirm_buffer c);
        a ← slice new_ascii 0 (len (new_buffer c));
        b ← slice confirm_ascii 0 (len (confirm_buffer c));
        if decide (a = b)
        then Ret (mkModify Completed (old_buffer c) (new_buffer c)
                    (clear (confirm_buffer c)) (params c) (start_ticks c)
                    (pressed_button c), Success)
        else Ret (with_step c Mismatch, InvalidLength)
  | _ => Ret (c, Cancelled)
  end.

Definition cancel (c : PinModifyContext) : PinModifyContext := cleared c SCancelled.

Definition is_active (c : PinModifyContext) : bool :=
  match step c with OldPin | NewPin | ConfirmPin => true | _ => false end.

Definition check_timeout (c : PinModifyContext) (now tps : Z) :
    outcome (PinModifyContext * bool) :=
  if negb (is_active c) then Ret (c, false)
  else if m_timeout_secs (params c) =? 0 then Ret (c, false)
  else
    t ← timed_out now (start_ticks c) tps (m_timeout_secs (params c));
    if (t : bool) then Ret (cleared c STimeout, true) else Ret (c, false).

Definition is_complete (c : PinModifyContext) : bool :=
  match step c with
  | Completed | SCancelled | STimeout | Mismatch | SInvalidLength => true | _ => false end.
Definition result (c : PinModifyContext) : option PinResult :=
  match step c with
  | Completed => Some Success
  | SCancelled => Some Cancelled
  | STimeout => Some Timeout
  | Mismatch | SInvalidLength => Some InvalidLength
  | _ => None
  end.
Definition current_buffer_len (c : PinModifyContext) : nat :=
  match current c with Some b => len b | None => 0 end.

Definition reset (c : PinModifyContext) : PinModifyContext :=
  mkModify Idle (clear (old_buffer c)) (clear (new_buffer c)) (clear (confirm_buffer c))
    (params c) 0 None.

Definition step_event (c : PinModifyContext) (e : event) :
    outcome (PinModifyContext * answer) :=
  match e with
  | Start now => Ret (start c now, Nothing)
  | Digit d => r ← add_digit c d; Ret (r.1, Flag r.2)
  | Backspace => let r := backspace c in Ret (r.1, Flag r.2)
  | Submit => r ← submit c; Ret (r.1, Outcome r.2)
  | Cancel => Ret (cancel c, Nothing)
  | CheckTimeout now tps => r ← check_timeout c now tps; Ret (r.1, Flag r.2)
  | Reset_ctx => Ret (reset c, Nothing)
  end.

End Modify.

(** ** pinpad/apdu.rs *)
Module VerifyResponse.

Record VerifyResponse := mkResponse { sw1 : Z; sw2 : Z }.

Definition parse (data : list Z) : option VerifyResponse :=
  match rev data with
  | sw2 :: sw1 :: _ => Some (mkResponse sw1 sw2)
  | _ => None
  end.
Definition is_success (r : VerifyResponse) : bool := (sw1 r =? 0x90) && (sw2 r =? 0x00).
Definition wrong_pin (r : VerifyResponse) : option Z :=
  if (sw1 r =? 0x63) && (Z.land (sw2 r) 0xF0 =? 0xC0)
  then Some (Z.land (sw2 r) 0x0F) else None.
Definition is_blocked (r : VerifyResponse) : bool := (sw1 r =? 0x63) && (sw2 r =? 0xC0).
Definition not_allowed (r : VerifyResponse) : bool := (sw1 r =? 0x69) && (sw2 r =? 0x85).

End VerifyResponse.

(** ** The abstract machines

    Entry and modification as a user sees them: the digits typed so far, the
    start of the timer, the limits. *)
Definition event_ok (e : event) : Prop :=
  match e with
  | Digit d => u8 d
  | CheckTimeout _ tps => 0 < tps
  | _ => True
  end.

(** More than [timeout] seconds, counted in wrapping ticks, have passed. *)
Definition expired (timeout start now tps : Z) : bool :=
  negb (timeout =? 0) && (timeout * tps <=? (now - start) mod 4294967296).

Inductive aentry :=
| EIdle | EEntering (start : Z) (pin : list Z) | EDone (pin : list Z)
| ECancelled | ETimeout | ETooShort (pin : list Z).

Definition spec_entry (cap min : nat) (timeout : Z) (s : aentry) (e : event) :
    aentry * answer :=
  match e, s with
  | Start now, _ => (EEntering now [], Nothing)
  | Cancel, _ => (ECancelled, Nothing)
  | Reset_ctx, _ => (EIdle, Nothing)
  | Digit d, EEntering t p =>
      let r := spec_op cap p (OpPush d) in (EEntering t r.1, Flag r.2)
  | Backspace, EEntering t p =>
      let r := spec_op cap p OpPop in (EEntering t r.1, Flag r.2)
  | Submit, EEntering t p =>
      if (min <=? length p)%nat then (EDone p, Outcome Success)
      else (ETooShort p, Outcome InvalidLength)
  | CheckTimeout now tps, EEntering t p =>
      if expired timeout t now tps then (ETimeout, Flag true) else (s, Flag false)
  | Submit, _ => (s, Outcome Cancelled)
  | _, _ => (s, Flag false)
  end.

Inductive amodify :=
| MIdle
| MOld (start : Z) (old : list Z)
| MNew (start : Z) (old new : list Z)
| MConfirm (start : Z) (old new confirm : list Z)
| MDone (old new : list Z)
| MCancelled | MTimeout | MMismatch | MTooShort.

Definition spec_modify (cap min : nat) (timeout : Z) (s : amodify) (e : event) :
    amodify * answer :=
  let typed (l : list Z) (op : pin_op) (k : list Z -> amodify) :=
    let r := spec_op cap l op in (k r.1, Flag r.2) in
  let key (op : pin_op) :=
    match s with
    | MOld t o => typed o op (MOld t)
    | MNew t o n => typed n op (MNew t o)
    | MConfirm t o n k => typed k op (MConfirm t o n)
    | _ => (s, Flag false)
    end in
  let enough (l : list Z) (r : amodify * answer) :=
    if (min <=? length l)%nat then r else (MTooShort, Outcome InvalidLength) in
  match e with
  | Start now => (MOld now [], Nothing)
  | Cancel => (MCancelled, Nothing)
  | Reset_ctx => (MIdle, Nothing)
  | Digit d => key (OpPush d)
  | Backspace => key OpPop
  | Submit =>
      match s with
      | MOld t o => enough o (MNew t o [], Outcome Success)
      | MNew t o n => enough n (MConfirm t o n [], Outcome Success)
      | MConfirm t o n k =>
          enough k (if decide (n = k) then (MDone o n, Outcome Success)
                    else (MMismatch, Outcome InvalidLength))
      | _ => (s, Outcome Cancelled)
      end
  | CheckTimeout now tps =>
      match s with
      | MOld t _ | MNew t _ _ | MConfirm t _ _ _ =>
          if expired timeout t now tps then (MTimeout, Flag true) else (s, Flag false)
      | _ => (s, Flag false)
      end
  end.

(** What the concrete states stand for. *)
Definition abs_entry (c : Entry.PinEntryContext) : aentry :=
  let p := pin (Entry.buffer c) in
  match Entry.state c with
  | Entry.Idle => EIdle
  | Entry.WaitingForPin => EEntering (Entry.start_ticks c) p
  | Entry.Completed => EDone p
  | Entry.SCancelled => ECancelled
  | Entry.STimeout => ETimeout
  | Entry.SInvalidLength => ETooShort p
  end.

Definition abs_modify (c : Modify.PinModifyContext) : amodify :=
  let o := pin (Modify.old_buffer c) in
  let n := pin (Modify.new_buffer c) in
  let k := pin (Modify.confirm_buffer c) in
  let t := Modify.start_ticks c in
  match Modify.step c with
  | Modify.Idle => MIdle
  | Modify.OldPin => MOld t o
  | Modify.NewPin => MNew t o n
  | Modify.ConfirmPin => MConfirm t o n k
  | Modify.Completed => MDone o n
  | Modify.SCancelled => MCancelled
  | Modify.STimeout => MTimeout
  | Modify.Mismatch => MMismatch
  | Modify.SInvalidLength => MTooShort
  end.

(** ** Buffers of a given capacity *)

(** A well-formed buffer of capacity [cap]. *)
Definition buf (cap : nat) (b : PinBuffer) : Prop := wf b /\ max_len b = cap.
(** No digit is left in memory. *)
Definition blank (b : PinBuffer) : Prop := digits b = replicate 16 0 /\ len b = 0%nat.

Lemma buf_new n : buf (n `min` 16) (PinBuf.new n) /\ blank (PinBuf.new n).
Proof. split; [split; [apply wf_new|done]|done]. Qed.

Lemma buf_clear cap b : buf cap b -> buf cap (clear b) /\ blank (clear b).
Proof.
  intros [Hwf Hm]. destruct (clear_spec b Hwf) as (? & ? & ? & ?).
  split; [split; [done|congruence]|done].
Qed.

Lemma blank_pin b : blank b -> pin b = [].
Proof. intros [_ E]. unfold pin. by rewrite E. Qed.

Lemma buf_push cap b d : buf cap b -> u8 d ->
  exists b', push b d = Ret (b', (spec_op cap (pin b) (OpPush d)).2) /\ buf cap b' /\
             pin b' = (spec_op cap (pin b) (OpPush d)).1.
Proof.
  intros [Hwf <-] Hd. destruct (push_spec b d Hwf Hd) as (b' & ? & ? & ? & ?).
  by exists b'.
Qed.

Lemma buf_pop cap b : buf cap b ->
  (pop b).2 = (spec_op cap (pin b) OpPop).2 /\ buf cap (pop b).1 /\
  pin (pop b).1 = (spec_op cap (pin b) OpPop).1.
Proof. intros [Hwf <-]. destruct (pop_spec b Hwf) as (? & ? & ? & ?). done. Qed.

Lemma buf_minimum cap b m : buf cap b -> has_minimum b m = (m <=? length (pin b))%nat.
Proof. intros [Hwf _]. by rewrite (length_pin b Hwf). Qed.

Lemma timed_out_spec now start tps timeout :
  0 < tps ->
  timed_out now start tps timeout =
  Ret (timeout * tps <=? (now - start) mod 4294967296).
Proof.
  intros Htps. unfold timed_out. replace (tps =? 0) with false by lia.
  f_equal. apply eq_true_iff_eq. rewrite !Z.leb_le.
  unfold wrapping_sub32, wrap32. set (e := _ mod _). split; intros H.
  - pose proof (Z.mul_div_le e tps Htps). nia.
  - apply Z.div_le_lower_bound; lia.
Qed.

(** The two rendered PINs compare equal exactly when the digits do. *)
Lemma ascii_compare cap b : buf cap b ->
  (a ← to_ascii b; slice a 0 (len b)) = Ret (map (fun d => d + 0x30) (pin b)).
Proof.
  intros [Hwf _]. rewrite to_ascii_spec by done. rewrite bind_ret.
  pose proof (length_pin b Hwf) as Hl. destruct Hwf as (? & ? & ?).
  rewrite slice_prefix by (rewrite length_app, length_map, length_replicate; lia).
  rewrite take_app_length' by (rewrite length_map; lia). done.
Qed.

Lemma map_add_inj (l l' : list Z) :
  map (fun d => d + 0x30) l = map (fun d => d + 0x30) l' <-> l = l'.
Proof.
  split; [|by intros ->]. revert l'. induction l as [|x l IH]; intros [|y l']; try done.
  simpl. intros [= H1 H2]. f_equal; [lia|by apply IH].
Qed.

(** ** The entry machine refines its specification *)

Definition entry_inv (p : PinVerifyParams) (cap : nat) (c : Entry.PinEntryContext) : Prop :=
  buf cap (Entry.buffer c) /\ Entry.params c = p /\
  match Entry.state c with
  | Entry.Idle | Entry.SCancelled | Entry.STimeout => blank (Entry.buffer c)
  | Entry.Completed => (Z.to_nat (v_min_len p) <= length (pin (Entry.buffer c)))%nat
  | _ => True
  end.

Lemma entry_simulates p cap :
  simulates Entry.step (spec_entry cap (Z.to_nat (v_min_len p)) (v_timeout_secs p))
    (entry_inv p cap) event_ok abs_entry.
Proof.
  intros [st b q t btn] e (Hb & <- & Hst) He. cbn [Entry.buffer Entry.params Entry.state] in *.
  destruct (buf_clear cap b Hb) as [Hcb Hblank]. pose proof (blank_pin _ Hblank) as Hcp.
  destruct e as [now|d| | | |now tps|]; cbn [Entry.step]; simpl in He.
  - eexists. split; [reflexivity|]. unfold abs_entry, entry_inv. simpl. by rewrite Hcp.
  - unfold Entry.add_digit. case_decide as E; cbn [Entry.state Entry.buffer] in *.
    + subst. destruct (buf_push cap b d Hb He) as (b' & -> & Hb' & Hp').
      eexists. split; [reflexivity|]. unfold abs_entry, entry_inv. simpl in *. by rewrite Hp'.
    + exists (Entry.mkEntry st b q t btn). by destruct st.
  - unfold Entry.backspace. case_decide as E; cbn [Entry.state Entry.buffer] in *.
    + subst. destruct (buf_pop cap b Hb) as (Ha & Hb' & Hp').
      eexists. split; [simpl; simpl in Ha; by rewrite Ha|].
      unfold abs_entry, entry_inv. simpl in *. by rewrite Hp'.
    + exists (Entry.mkEntry st b q t btn). by destruct st.
  - unfold Entry.submit. case_decide as E; cbn [Entry.state Entry.buffer Entry.params] in *.
    + subst. rewrite (buf_minimum cap) by done. simpl. unfold abs_entry, entry_inv.
      destruct (_ <=? _)%nat eqn:Em; eexists; (split; [reflexivity|]); simpl;
        (split; [|done]); (split; [done|split; [done|]]); [lia|done].
    + exists (Entry.mkEntry st b q t btn). by destruct st.
  - eexists. split; [reflexivity|]. unfold abs_entry, entry_inv. done.
  - unfold Entry.check_timeout. case_decide as E;
      cbn [Entry.state Entry.buffer Entry.params Entry.start_ticks] in *.
    + subst. simpl. unfold expired. destruct (v_timeout_secs q =? 0); simpl.
      { by eexists. }
      rewrite timed_out_spec by done. rewrite bind_ret.
      destruct (_ <=? _); simpl; eexists; (split; [reflexivity|]); done.
    + exists (Entry.mkEntry st b q t btn). by destruct st.
  - eexists. split; [reflexivity|]. unfold abs_entry, entry_inv. done.
Qed.

(** PIN entry.  Whatever the user and the timer do from a fresh context, no
    step panics, every step answers what the abstract entry machine answers and
    the context stands for its state; in particular a completed entry holds at
    least the minimum and at most min(max, 16) decimal digits, and an idle,
    cancelled or timed-out context has no digit left in memory. *)
Theorem pin_entry_refines p es :
  Forall event_ok es ->
  let cap := (Z.to_nat (v_max_len p) `min` 16)%nat in
  let min := Z.to_nat (v_min_len p) in
  let s := spec_run (spec_entry cap min (v_timeout_secs p)) EIdle es in
  exists c,
    run Entry.step (Entry.new p) es = Ret (c, s.2) /\ abs_entry c = s.1 /\
    (Entry.state c = Entry.Completed ->
       s.1 = EDone (pin (Entry.buffer c)) /\
       (min <= length (pin (Entry.buffer c)) <= cap)%nat /\
       Forall (fun d => 0 <= d <= 9) (pin (Entry.buffer c))) /\
    (Entry.state c = Entry.Idle \/ Entry.state c = Entry.SCancelled \/
     Entry.state c = Entry.STimeout -> digits (Entry.buffer c) = replicate 16 0).
Proof.
  intros Hes cap min s. destruct (buf_new (Z.to_nat (v_max_len p))) as [Hb0 Hb1].
  destruct (run_refines _ _ _ _ _ (Entry.new p) es (entry_simulates p cap))
    as (c & E & (Hb & Hp & Hst) & Ha); [by split_and!|done|].
  exists c. split_and!; [done|done| |].
  - intros Hc. change (abs_entry (Entry.new p)) with EIdle in Ha. fold min s in Ha.
    rewrite Hc in Hst. rewrite <- Ha. unfold abs_entry. rewrite Hc.
    destruct Hb as [Hwf Hm]. pose proof (length_pin _ Hwf).
    split_and!; [done|done| |by apply pin_digits].
    destruct Hwf as (? & ? & ?). lia.
  - intros [Hc|[Hc|Hc]]; rewrite Hc in Hst; apply Hst.
Qed.

Example pin_entry_refines_witness :
  let es := [Start 5; Digit 1; Digit 2; Backspace; Digit 3; Submit] in
  let p := {| v_timeout_secs := 30; v_min_len := 2; v_max_len := 8; v_format := 0x82;
     v_validation := 0x02; v_apdu_template := [0x00; 0x20; 0x00; 0x81; 0x08];
     v_template_len := 5; v_pin_type := 0x81; v_time_slot := 100;
     v_message_index := 0; v_pin_block_string := 0x08; v_pin_length_format := 0x00;
     v_number_message := 0x01; v_lang_id := 0x0409; v_teo_prologue := 0x00 |} in
  let s := spec_run (spec_entry 8 2 30) EIdle es in
  s.1 = EDone [1; 3] /\
  exists c,
    run Entry.step (Entry.new p) es = Ret (c, s.2) /\ abs_entry c = s.1 /\
    (Entry.state c = Entry.Completed ->
       s.1 = EDone (pin (Entry.buffer c)) /\
       (2 <= length (pin (Entry.buffer c)) <= 8)%nat /\
       Forall (fun d => 0 <= d <= 9) (pin (Entry.buffer c))) /\
    (Entry.state c = Entry.Idle \/ Entry.state c = Entry.SCancelled \/
     Entry.state c = Entry.STimeout -> digits (Entry.buffer c) = replicate 16 0).
Proof.
  intros es p s. split; [reflexivity|]. refine (pin_entry_refines p es _).
  repeat (apply Forall_cons; split; [unfold event_ok, u8; lia || done|]); constructor.
Defined.

(** ** The modification machine refines its specification *)
#[local] Arguments spec_op : simpl never.

Definition modify_inv (p : PinModifyParams) (cap : nat) (c : Modify.PinModifyContext) : Prop :=
  let o := Modify.old_buffer c in
  let n := Modify.new_buffer c in
  let k := Modify.confirm_buffer c in
  let enough b := (Z.to_nat (m_min_len p) <= length (pin b))%nat in
  buf cap o /\ buf cap n /\ buf cap k /\ Modify.params c = p /\
  match Modify.step c with
  | Modify.Idle | Modify.SCancelled | Modify.STimeout => blank o /\ blank n /\ blank k
  | Modify.OldPin => blank n /\ blank k
  | Modify.NewPin => enough o /\ blank k
  | Modify.ConfirmPin => enough o /\ enough n
  | Modify.Completed => enough o /\ enough n /\ blank k
  | _ => True
  end.

(** Editing the current buffer, for pushes and pops alike. *)
Lemma modify_edit p cap c b b' r op :
  modify_inv p cap c -> Modify.current c = Some b ->
  r = (spec_op cap (pin b) op).2 -> buf cap b' -> pin b' = (spec_op cap (pin b) op).1 ->
  forall e, e = match op with OpPush d => Digit d | _ => Backspace end -> op <> OpClear ->
  Flag r = (spec_modify cap (Z.to_nat (m_min_len p)) (m_timeout_secs p) (abs_modify c) e).2 /\
  modify_inv p cap (Modify.with_current c b') /\
  abs_modify (Modify.with_current c b') =
    (spec_modify cap (Z.to_nat (m_min_len p)) (m_timeout_secs p) (abs_modify c) e).1.
Proof.
  destruct c as [st o n k q t btn].
  intros (Ho & Hn & Hk & Hq & Hst) Hcur -> Hb' Hp' e -> Hop.
  unfold modify_inv, abs_modify in *. simpl in *.
  destruct st; try discriminate Hcur; injection Hcur as ->; destruct op; try done;
    simpl in *; rewrite Hp'; (split; [done|split; [|done]]); naive_solver.
Qed.

Lemma modify_cleared p cap c st t :
  modify_inv p cap c ->
  match st with Modify.Idle | Modify.OldPin | Modify.SCancelled | Modify.STimeout => True
  | _ => False end ->
  forall btn, modify_inv p cap (Modify.mkModify st (clear (Modify.old_buffer c))
    (clear (Modify.new_buffer c)) (clear (Modify.confirm_buffer c)) (Modify.params c) t btn).
Proof.
  intros (Ho & Hn & Hk & <- & _) Hst btn. unfold modify_inv. simpl.
  destruct (buf_clear _ _ Ho), (buf_clear _ _ Hn), (buf_clear _ _ Hk).
  destruct st; naive_solver.
Qed.

Lemma modify_submit_simulates p cap c :
  modify_inv p cap c ->
  let sp := spec_modify cap (Z.to_nat (m_min_len p)) (m_timeout_secs p)
              (abs_modify c) Submit in
  exists c', Modify.step_event c Submit = Ret (c', sp.2) /\ modify_inv p cap c' /\
             abs_modify c' = sp.1.
Proof.
  destruct c as [st o n k q t btn]. intros Hinv sp.
  pose proof Hinv as (Ho & Hn & Hk & Hq & Hst). simpl in Ho, Hn, Hk, Hq, Hst. subst q.
  cbn [Modify.step_event]. unfold Modify.submit.
  destruct st; simpl in Hst;
    try (eexists; split; [reflexivity|]; split; [exact Hinv|reflexivity]);
    cbn [Modify.step Modify.old_buffer Modify.new_buffer Modify.confirm_buffer Modify.params];
    rewrite (buf_minimum cap) by done; subst sp; unfold abs_modify, modify_inv; simpl;
    (destruct (_ <=? _)%nat eqn:Em; simpl; [|by eexists]).
  - eexists; split; [reflexivity|]. simpl. destruct Hst as [Hbn Hbk].
    rewrite (blank_pin n) by done. split; [|done]. split_and!; try done; lia.
  - eexists; split; [reflexivity|]. simpl. destruct Hst as [Hbo Hbk].
    rewrite (blank_pin k) by done. split; [|done]. split_and!; try done; lia.
  - assert (length (pin n) = len n) as Hln by (apply length_pin, Hn).
    assert (length (pin k) = len k) as Hlk by (apply length_pin, Hk).
    destruct (len n =? len k)%nat eqn:El; simpl.
    + pose proof (ascii_compare cap n Hn) as E. pose proof (ascii_compare cap k Hk) as E'.
      destruct (to_ascii n) as [a|]; [|done]. destruct (to_ascii k) as [a'|]; [|done].
      rewrite !bind_ret in *. rewrite E, E', !bind_ret.
      destruct (buf_clear cap k Hk) as [Hck Hbk].
      destruct (decide (pin n = pin k)) as [Epin|Epin].
      * rewrite decide_True by (by rewrite Epin). eexists; split; [reflexivity|].
        simpl. split; [|done]. split_and!; try done; naive_solver.
      * rewrite decide_False by (by rewrite map_add_inj). by eexists.
    + rewrite decide_False by (intros Epin; rewrite Epin in Hln; lia). by eexists.
Qed.

Lemma modify_simulates p cap :
  simulates Modify.step_event
    (spec_modify cap (Z.to_nat (m_min_len p)) (m_timeout_secs p))
    (modify_inv p cap) event_ok abs_modify.
Proof.
  intros c e Hinv He.
  assert (forall e, Modify.current c = None -> e = Backspace \/ (exists d, e = Digit d) ->
    (Flag false = (spec_modify cap (Z.to_nat (m_min_len p)) (m_timeout_secs p)
                     (abs_modify c) e).2) /\
    abs_modify c = (spec_modify cap (Z.to_nat (m_min_len p)) (m_timeout_secs p)
                     (abs_modify c) e).1) as Hnone.
  { intros e' Hcur He'. unfold abs_modify. unfold Modify.current in Hcur.
    destruct (Modify.step c); try done; destruct He' as [->|[d ->]]; done. }
  pose proof Hinv as (Ho & Hn & Hk & Hq & _).
  destruct e as [now|d| | | |now tps|]; try (by apply modify_submit_simulates);
    cbn [Modify.step_event]; simpl in He.
  - eexists. split; [reflexivity|]. split; [by apply modify_cleared|].
    unfold abs_modify. simpl. by rewrite (blank_pin (clear _)) by (by eapply buf_clear).
  - unfold Modify.add_digit. destruct (Modify.current c) as [b|] eqn:Ec.
    + assert (buf cap b) as Hb
        by (unfold Modify.current in Ec; destruct (Modify.step c); naive_solver).
      destruct (buf_push cap b d Hb He) as (b' & -> & Hb' & Hp').
      destruct (modify_edit p cap c b b' _ (OpPush d) Hinv Ec eq_refl Hb' Hp' _ eq_refl)
        as (E1 & E2 & E3); [done|].
      rewrite bind_ret, <- E1. by eexists.
    + destruct (Hnone (Digit d) eq_refl) as [<- E]; [naive_solver|]. by exists c.
  - unfold Modify.backspace. destruct (Modify.current c) as [b|] eqn:Ec.
    + assert (buf cap b) as Hb
        by (unfold Modify.current in Ec; destruct (Modify.step c); naive_solver).
      destruct (buf_pop cap b Hb) as (Ha & Hb' & Hp').
      destruct (modify_edit p cap c b _ _ OpPop Hinv Ec Ha Hb' Hp' _ eq_refl)
        as (E1 & E2 & E3); [done|].
      rewrite <- E1. by eexists.
    + destruct (Hnone Backspace eq_refl) as [<- E]; [naive_solver|]. by exists c.
  - eexists. split; [reflexivity|]. split; [by apply modify_cleared|done].
  - unfold Modify.check_timeout, Modify.is_active. rewrite Hq.
    unfold abs_modify, spec_modify, expired.
    destruct (Modify.step c) eqn:Est; simpl;
      try (exists c; unfold abs_modify; rewrite Est; done);
      (destruct (m_timeout_secs p =? 0); simpl;
        [exists c; unfold abs_modify; by rewrite Est|]);
      rewrite timed_out_spec by done; rewrite bind_ret;
      (destruct (_ <=? _); simpl; eexists; (split; [reflexivity|]);
        [split; [by apply modify_cleared|done] | unfold abs_modify; by rewrite Est]).
  - eexists. split; [reflexivity|]. split; [by apply modify_cleared|done].
Qed.

(** PIN modification.  Whatever the user and the timer do from a fresh
    context, no step panics, every step answers what the abstract machine
    (old PIN, new PIN, confirmation, in that order, one shared timer) answers
    and the context stands for its state.  In particular the machine completes
    only with a new PIN that was typed twice: a completed context holds an old
    and a new PIN of at least the minimum and at most min(max, 16) digits with
    the confirmation erased, and an idle, cancelled or timed-out context has no
    digit left in any buffer. *)
Theorem pin_modify_refines p es :
  Forall event_ok es ->
  let cap := (Z.to_nat (m_max_len p) `min` 16)%nat in
  let min := Z.to_nat (m_min_len p) in
  let s := spec_run (spec_modify cap min (m_timeout_secs p)) MIdle es in
  exists c,
    run Modify.step_event (Modify.new p) es = Ret (c, s.2) /\ abs_modify c = s.1 /\
    (Modify.step c = Modify.Completed ->
       exists o n, s.1 = MDone o n /\
         (min <= length o <= cap)%nat /\ (min <= length n <= cap)%nat /\
         Forall (fun d => 0 <= d <= 9) (o ++ n) /\
         digits (Modify.confirm_buffer c) = replicate 16 0) /\
    (Modify.step c = Modify.Idle \/ Modify.step c = Modify.SCancelled \/
     Modify.step c = Modify.STimeout ->
       Forall (fun b => digits b = replicate 16 0)
         [Modify.old_buffer c; Modify.new_buffer c; Modify.confirm_buffer c]).
Proof.
  intros Hes cap min s. destruct (buf_new (Z.to_nat (m_max_len p))) as [Hb0 Hb1].
  destruct (run_refines _ _ _ _ _ (Modify.new p) es (modify_simulates p cap))
    as (c & E & (Ho & Hn & Hk & Hp & Hst) & Ha); [by split_and!|done|].
  change (abs_modify (Modify.new p)) with MIdle in *. fold min s in E, Ha.
  exists c. split_and!; [done|done| |].
  - intros Hc. rewrite Hc in Hst. destruct Hst as (Heo & Hen & Hbk & _).
    exists (pin (Modify.old_buffer c)), (pin (Modify.new_buffer c)).
    destruct Ho as [Hwo Hmo], Hn as [Hwn Hmn].
    pose proof (length_pin _ Hwo). pose proof (length_pin _ Hwn).
    split_and!; try done.
    + rewrite <- Ha. unfold abs_modify. by rewrite Hc.
    + destruct Hwo as (? & ? & ?). lia.
    + destruct Hwn as (? & ? & ?). lia.
    + apply Forall_app. split; by apply pin_digits.
  - intros [Hc|[Hc|Hc]]; rewrite Hc in Hst; destruct Hst as ([] & [] & []);
      by repeat constructor.
Qed.

Example pin_modify_refines_witness :
  let es := [Start 5; Digit 1; Submit; Digit 2; Digit 3; Submit; CheckTimeout 100 10;
             Digit 2; Digit 3; Submit] in
  let p := {| m_timeout_secs := 30; m_min_len := 1; m_max_len := 4; m_format := 0x82;
     m_validation := 0x02; m_old_pin_offset := 5; m_new_pin_offset := 13;
     m_apdu_template := [0x00; 0x24; 0x00; 0x81; 0x10]; m_template_len := 5;
     m_pin_type := 0x81; m_time_slot := 100; m_msg_index_old := 0;
     m_msg_index_new := 1; m_msg_index_confirm := 2 |} in
  let s := spec_run (spec_modify 4 1 30) MIdle es in
  s.1 = MDone [1] [2; 3] /\
  exists c,
    run Modify.step_event (Modify.new p) es = Ret (c, s.2) /\ abs_modify c = s.1 /\
    (Modify.step c = Modify.Completed ->
       exists o n, s.1 = MDone o n /\
         (1 <= length o <= 4)%nat /\ (1 <= length n <= 4)%nat /\
         Forall (fun d => 0 <= d <= 9) (o ++ n) /\
         digits (Modify.confirm_buffer c) = replicate 16 0) /\
    (Modify.step c = Modify.Idle \/ Modify.step c = Modify.SCancelled \/
     Modify.step c = Modify.STimeout ->
       Forall (fun b => digits b = replicate 16 0)
         [Modify.old_buffer c; Modify.new_buffer c; Modify.confirm_buffer c]).
Proof.
  intros es p s. split; [reflexivity|]. refine (pin_modify_refines p es _).
  repeat (apply Forall_cons; split; [unfold event_ok, u8; lia || done|]); constructor.
Defined.

(** A mismatched confirmation leaves the typed PINs in the buffers: only
    cancelling, timing out, restarting or resetting clears them. *)
Example mismatch_keeps_digits :
  let p := {| m_timeout_secs := 30; m_min_len := 1; m_max_len := 4; m_format := 0x82;
     m_validation := 0x02; m_old_pin_offset := 5; m_new_pin_offset := 13;
     m_apdu_template := [0x00; 0x24; 0x00; 0x81; 0x10]; m_template_len := 5;
     m_pin_type := 0x81; m_time_slot := 100; m_msg_index_old := 0;
     m_msg_index_new := 1; m_msg_index_confirm := 2 |} in
  match run Modify.step_event (Modify.new p)
    [Start 5; Digit 1; Submit; Digit 2; Submit; Digit 3; Submit] with
  | Ret (c, _) => Modify.step c = Modify.Mismatch /\
                  pin (Modify.old_buffer c) = [1] /\ pin (Modify.new_buffer c) = [2]
  | Panic => False
  end.
Proof. vm_compute. done. Qed.

(** The PIN timer is right across the wrap of the 32-bit tick counter: for
    every start time and every real elapsed time of less than 2^32 ticks, the
    check fires exactly when the elapsed ticks reach [timeout] seconds. *)
Theorem pin_timeout_wrap_safe t0 elapsed tps timeout :
  0 < tps -> 0 <= elapsed < 4294967296 ->
  timed_out (wrap32 (t0 + elapsed)) (wrap32 t0) tps timeout =
  Ret (timeout * tps <=? elapsed).
Proof.
  intros Htps He. rewrite timed_out_spec by done. unfold wrap32.
  by rewrite <- Zminus_mod, Z.add_simpl_l, Z.mod_small.
Qed.

Example pin_timeout_wrap_safe_witness :
  timed_out (wrap32 (4294967290 + 30)) (wrap32 4294967290) 10 3 = Ret true /\
  timed_out (wrap32 (4294967290 + 29)) (wrap32 4294967290) 10 3 = Ret false.
Proof.
  split.
  - refine (pin_timeout_wrap_safe 4294967290 30 10 3 _ _); lia.
  - refine (pin_timeout_wrap_safe 4294967290 29 10 3 _ _); lia.
Defined.
