(* ===== verification/SerialFrame.v ===== *)
(** * The GemPC serial framing

    [ccid-transport-serial/src/lib.rs]: the frame builders and the byte-fed
    [FrameParser].  The module [Parser] is the parser as written, five states
    over bounded vectors; [spec_feed] is its specification, a machine that
    collects the message and knows its length from the CCID header. *)
From Stdlib Require Import ZArith Lia ZifyBool.
From stdpp Require Import prelude.
From S2P Require Import Prelude Wire.
Local Open Scope Z_scope.

Definition SYNC : Z := 0x03.
Definition CTRL_ACK : Z := 0x06.
Definition CTRL_NAK : Z := 0x15.
Definition MAX_CCID_HEADER_LEN : nat := CCID_HEADER_SIZE.
Definition MAX_CCID_BYTES : nat := MAX_CCID_MESSAGE_LENGTH.
Definition MAX_CCID_PAYLOAD : Z := Z.of_nat MAX_CCID_BYTES - Z.of_nat MAX_CCID_HEADER_LEN.
Definition MAX_FRAME_BYTES : nat := 2 + MAX_CCID_BYTES + 1.

Inductive FrameError := InvalidLrc | InvalidCtrl | Overflow | NakReceived.
Inductive FrameEvent := Command (ccid_bytes : list Z) | Error (e : FrameError).

Definition calculate_lrc (frame : list Z) : Z := fold_left Z.lxor frame 0.

(** ** Builders: the caller's buffer after the call and the frame length. *)
Definition build_response_frame (ccid_response buf : list Z) : outcome (list Z * nat) :=
  let total_len := (2 + length ccid_response + 1)%nat in
  assert (length ccid_response <=? MAX_CCID_BYTES)%nat;;
  assert (total_len <=? length buf)%nat;;
  buf ← store buf 0 SYNC;
  buf ← store buf 1 CTRL_ACK;
  buf ← copy_at buf 2 ccid_response;
  body ← slice buf 0 (total_len - 1);
  buf ← store buf (total_len - 1) (calculate_lrc body);
  Ret (buf, total_len).

Definition build_nak_frame (buf : list Z) : outcome (list Z * nat) :=
  assert (3 <=? length buf)%nat;;
  buf ← store buf 0 SYNC;
  buf ← store buf 1 CTRL_NAK;
  body ← slice buf 0 2;
  buf ← store buf 2 (calculate_lrc body);
  Ret (buf, 3%nat).

Definition build_slot_change_notification (card_present : bool) (buf : list Z) :
    outcome (list Z * nat) :=
  assert (2 <=? length buf)%nat;;
  buf ← store buf 0 RDR_TO_PC_NOTIFY_SLOT_CHANGE;
  buf ← store buf 1 (if card_present then CARD_PRESENT else CARD_ABSENT);
  Ret (buf, 2%nat).

(** ** The parser *)
Module Parser.

Inductive ParserState :=
| WaitSync
| WaitCtrl
| ReadHeader (read : nat)
| ReadPayload (remaining : nat)
| CheckLrc.

Record FrameParser := mkParser {
  state : ParserState;
  frame : list Z;
  received_frame : list Z;
  ccid_bytes : list Z;
  payload_len : Z
}.

Definition new : FrameParser := mkParser WaitSync [] [] [] 0.

Definition with_state (p : FrameParser) (s : ParserState) : FrameParser :=
  mkParser s (frame p) (received_frame p) (ccid_bytes p) (payload_len p).
Definition with_payload_len (p : FrameParser) (n : Z) : FrameParser :=
  mkParser (state p) (frame p) (received_frame p) (ccid_bytes p) n.
Definition clear_frame (p : FrameParser) : FrameParser :=
  mkParser (state p) [] (received_frame p) (ccid_bytes p) (payload_len p).

Definition reset_state (p : FrameParser) : FrameParser :=
  mkParser WaitSync [] (received_frame p) [] 0.

Definition reset (p : FrameParser) : FrameParser :=
  reset_state (mkParser (state p) (frame p) [] (ccid_bytes p) (payload_len p)).

Definition push_frame_byte (p : FrameParser) (byte : Z) : FrameParser :=
  mkParser (state p) (vec_push MAX_FRAME_BYTES (frame p) byte) (received_frame p)
    (ccid_bytes p) (payload_len p).

Definition push_frame_and_ccid_byte (p : FrameParser) (byte : Z) : FrameParser :=
  let p := push_frame_byte p byte in
  mkParser (state p) (frame p) (received_frame p)
    (vec_push MAX_CCID_BYTES (ccid_bytes p) byte) (payload_len p).

Definition start_frame (p : FrameParser) (sync : Z) : FrameParser :=
  let p := push_frame_byte (mkParser (state p) [] (received_frame p) [] 0) sync in
  mkParser (state p) (frame p) [] (ccid_bytes p) (payload_len p).

Definition snapshot_received_frame (p : FrameParser) : FrameParser :=
  mkParser (state p) (frame p) (vec_extend MAX_FRAME_BYTES [] (frame p))
    (ccid_bytes p) (payload_len p).

Definition finish_with_command (p : FrameParser) : FrameParser * option FrameEvent :=
  let p := snapshot_received_frame p in
  (reset_state p, Some (Command (ccid_bytes p))).

Definition finish_with_error (p : FrameParser) (e : FrameError) :
    FrameParser * option FrameEvent :=
  (reset_state (snapshot_received_frame p), Some (Error e)).

Definition feed (p : FrameParser) (byte : Z) : outcome (FrameParser * option FrameEvent) :=
  match state p with
  | WaitSync =>
      if byte =? RDR_TO_PC_NOTIFY_SLOT_CHANGE then Ret (reset p, None)
      else if byte =? SYNC then Ret (with_state (start_frame p byte) WaitCtrl, None)
      else Ret (p, None)
  | WaitCtrl =>
      if byte =? SYNC then Ret (start_frame (clear_frame p) byte, None)
      else
        let p := push_frame_byte p byte in
        if byte =? CTRL_ACK then Ret (with_state p (ReadHeader 0), None)
        else if byte =? CTRL_NAK then Ret (finish_with_error p NakReceived)
        else Ret (finish_with_error p InvalidCtrl)
  | ReadHeader read =>
      let p := push_frame_and_ccid_byte p byte in
      let next_read := S read in
      if decide (next_read = MAX_CCID_HEADER_LEN) then
        b1 ← index (ccid_bytes p) 1;
        b2 ← index (ccid_bytes p) 2;
        b3 ← index (ccid_bytes p) 3;
        b4 ← index (ccid_bytes p) 4;
        let p := with_payload_len p (from_le32 b1 b2 b3 b4) in
        if MAX_CCID_PAYLOAD <? payload_len p then Ret (finish_with_error p Overflow)
        else Ret (with_state p (if payload_len p =? 0 then CheckLrc
                                else ReadPayload (Z.to_nat (payload_len p))), None)
      else Ret (with_state p (ReadHeader next_read), None)
  | ReadPayload remaining =>
      let p := push_frame_and_ccid_byte p byte in
      if decide (remaining = 1%nat) then Ret (with_state p CheckLrc, None)
      else Ret (with_state p (ReadPayload (remaining - 1)), None)
  | CheckLrc =>
      let p := push_frame_byte p byte in
      (* [frame.len() - 1] wraps on an empty frame and the slice panics *)
      assert (1 <=? length (frame p))%nat;;
      covered ← slice (frame p) 0 (length (frame p) - 1);
      if byte =? calculate_lrc covered then Ret (finish_with_command p)
      else Ret (finish_with_error p InvalidLrc)
  end.

Definition received_frame_bytes (p : FrameParser) : list Z :=
  match received_frame p with [] => frame p | _ => received_frame p end.

Definition mid_frame (p : FrameParser) : bool :=
  match state p with WaitSync => false | _ => true end.

End Parser.
Import Parser.

(** ** The specification

    Between frames the parser remembers the last frame (for the echo); inside
    one it collects the message after SYNC ACK. *)
Inductive aparser :=
| ASync (echo : list Z)
| ACtrl
| AData (msg : list Z).

(** The message is all there, by the length its header announces. *)
Definition complete (msg : list Z) : bool :=
  match CcidHeader_parse msg with
  | Some h => Z.of_nat (length msg) =? 10 + dw_length h
  | None => false
  end.

(** The header just completed announces more than 261 bytes. *)
Definition too_long (msg : list Z) : bool :=
  match CcidHeader_parse msg with
  | Some h => (length msg =? 10)%nat && (261 <? dw_length h)
  | None => false
  end.

Definition spec_feed (s : aparser) (b : Z) : aparser * option FrameEvent :=
  match s with
  | ASync echo =>
      if b =? RDR_TO_PC_NOTIFY_SLOT_CHANGE then (ASync [], None)
      else if b =? SYNC then (ACtrl, None) else (ASync echo, None)
  | ACtrl =>
      if b =? SYNC then (ACtrl, None)
      else if b =? CTRL_ACK then (AData [], None)
      else (ASync [SYNC; b],
            Some (Error (if b =? CTRL_NAK then NakReceived else InvalidCtrl)))
  | AData msg =>
      if complete msg then
        (ASync (SYNC :: CTRL_ACK :: msg ++ [b]),
         Some (if b =? xor_all (SYNC :: CTRL_ACK :: msg)
               then Command msg else Error InvalidLrc))
      else
        let msg := msg ++ [b] in
        if too_long msg then (ASync (SYNC :: CTRL_ACK :: msg), Some (Error Overflow))
        else (AData msg, None)
  end.

(** ** The parser refines the specification *)
Definition abs (p : FrameParser) : aparser :=
  match state p with
  | WaitSync => ASync (received_frame p)
  | WaitCtrl => ACtrl
  | _ => AData (ccid_bytes p)
  end.

(** Collecting the message [m]: nothing is echoed yet and the frame is the
    message behind SYNC ACK. *)
Definition collecting (p : FrameParser) : Prop :=
  received_frame p = [] /\ bytes (ccid_bytes p) /\
  frame p = SYNC :: CTRL_ACK :: ccid_bytes p.

(** The header is in and announces [payload_len p <= 261] bytes. *)
Definition header_read (p : FrameParser) : Prop :=
  payload_len p <= 261 /\
  exists h, CcidHeader_parse (ccid_bytes p) = Some h /\ dw_length h = payload_len p.

Definition parser_inv (p : FrameParser) : Prop :=
  match state p with
  | WaitSync => frame p = [] /\ ccid_bytes p = [] /\ payload_len p = 0 /\
                (length (received_frame p) <= MAX_FRAME_BYTES)%nat
  | WaitCtrl => frame p = [SYNC] /\ received_frame p = [] /\ ccid_bytes p = [] /\
                payload_len p = 0
  | ReadHeader n => (n < 10)%nat /\ length (ccid_bytes p) = n /\ collecting p
  | ReadPayload r => (1 <= r)%nat /\ header_read p /\ collecting p /\
      Z.of_nat (length (ccid_bytes p) + r) = 10 + payload_len p
  | CheckLrc => header_read p /\ collecting p /\
      Z.of_nat (length (ccid_bytes p)) = 10 + payload_len p
  end.

Lemma parse_app bs h rest :
  CcidHeader_parse bs = Some h -> CcidHeader_parse (bs ++ rest) = Some h.
Proof. intros H. do 10 (destruct bs as [|? bs]; [done|]). exact H. Qed.

Lemma dw_u32 bs h : bytes bs -> CcidHeader_parse bs = Some h -> u32 (dw_length h).
Proof. intros Hb H. by apply (parse_bytes bs h). Qed.

(** Pushing a message byte keeps the frame and the message in step. *)
Lemma collecting_push p b :
  collecting p -> u8 b -> (length (ccid_bytes p) < MAX_CCID_BYTES)%nat ->
  collecting (push_frame_and_ccid_byte p b) /\
  ccid_bytes (push_frame_and_ccid_byte p b) = ccid_bytes p ++ [b] /\
  state (push_frame_and_ccid_byte p b) = state p /\
  payload_len (push_frame_and_ccid_byte p b) = payload_len p.
Proof.
  intros (Hr & Hb & Hf) Hu Hl. unfold collecting, push_frame_and_ccid_byte, push_frame_byte.
  cbn [received_frame ccid_bytes frame state payload_len].
  rewrite Hf, !vec_push_fits by (unfold MAX_FRAME_BYTES; simpl length; lia).
  rewrite bytes_snoc. done.
Qed.

(** Finishing echoes the frame collected so far. *)
Lemma finish_inv p : (length (frame p) <= MAX_FRAME_BYTES)%nat ->
  parser_inv (reset_state (snapshot_received_frame p)) /\
  abs (reset_state (snapshot_received_frame p)) = ASync (frame p).
Proof.
  intros H. unfold parser_inv, abs. simpl. rewrite vec_extend_fits by done. done.
Qed.

Lemma incomplete_header msg : (length msg < 10)%nat -> complete msg = false.
Proof. intros H. unfold complete. by rewrite (proj2 (parse_None msg) H). Qed.

(** The four indexed reads are the header's dwLength. *)
Lemma read_dw_length {A} l h (k : Z -> outcome A) :
  CcidHeader_parse l = Some h ->
  (b1 ← index l 1; b2 ← index l 2; b3 ← index l 3; b4 ← index l 4;
   k (from_le32 b1 b2 b3 b4)) = k (dw_length h).
Proof. intros H. do 10 (destruct l as [|? l]; [done|]). by injection H as <-. Qed.

Lemma feed_header p n b : parser_inv p -> state p = ReadHeader n -> u8 b ->
  exists p', feed p b = Ret (p', (spec_feed (abs p) b).2) /\ parser_inv p' /\
             abs p' = (spec_feed (abs p) b).1.
Proof.
  intros Hinv Hst Hb. unfold parser_inv in Hinv. rewrite Hst in Hinv.
  destruct Hinv as (Hn & Hl & Hc).
  destruct (collecting_push p b Hc Hb) as (Hc' & Hm & Hs & Hpl);
    [unfold MAX_CCID_BYTES, MAX_CCID_MESSAGE_LENGTH; lia|].
  unfold feed, abs. rewrite Hst. cbn [spec_feed]. rewrite incomplete_header by lia.
  set (p1 := push_frame_and_ccid_byte p b) in *. clearbody p1.
  assert (length (ccid_bytes p1) = S n) as Hl1 by (rewrite Hm, length_app; simpl; lia).
  pose proof Hc' as (Hr1 & Hb1 & Hf1). rewrite <- Hm.
  case_decide as E; unfold MAX_CCID_HEADER_LEN, CCID_HEADER_SIZE in E.
  - destruct (CcidHeader_parse (ccid_bytes p1)) as [h|] eqn:Eh;
      [|apply parse_None in Eh; lia].
    unfold too_long. rewrite Eh, Hl1, E. cbn [Nat.eqb andb].
    pose proof (dw_u32 _ _ Hb1 Eh) as Hdw. unfold u32 in Hdw.
    rewrite (read_dw_length _ h (fun n => let p := with_payload_len p1 n in
      if MAX_CCID_PAYLOAD <? payload_len p then Ret (finish_with_error p Overflow)
        else Ret (with_state p (if payload_len p =? 0 then CheckLrc
                                else ReadPayload (Z.to_nat (payload_len p))), None))) by done.
    cbv zeta. cbn [payload_len with_payload_len]. change MAX_CCID_PAYLOAD with 261.
    destruct (261 <? dw_length h) eqn:E261.
    + destruct (finish_inv (with_payload_len p1 (dw_length h))) as [Hi Ha].
      { unfold MAX_FRAME_BYTES. cbn [frame with_payload_len]. rewrite Hf1. simpl. lia. }
      eexists. split; [reflexivity|]. cbn [fst snd]. rewrite <- Hf1. done.
    + eexists. split; [reflexivity|]. unfold parser_inv, header_read. cbn [state with_state].
      assert (collecting (with_state (with_payload_len p1 (dw_length h)) CheckLrc)) as Hcoll
        by done.
      destruct (dw_length h =? 0) eqn:E0; cbn; rewrite Hl1; (split; [|done]);
        split_and!; try done; try lia; by exists h.
  - unfold too_long.
    destruct (CcidHeader_parse (ccid_bytes p1)) as [h|] eqn:Eh;
      [apply parse_Some_length in Eh; lia|].
    eexists. split; [reflexivity|]. unfold parser_inv. cbn. rewrite Hl1. split; [|done].
    split_and!; try done; lia.
Qed.

Lemma feed_payload p r b : parser_inv p -> state p = ReadPayload r -> u8 b ->
  exists p', feed p b = Ret (p', (spec_feed (abs p) b).2) /\ parser_inv p' /\
             abs p' = (spec_feed (abs p) b).1.
Proof.
  intros Hinv Hst Hb. unfold parser_inv in Hinv. rewrite Hst in Hinv.
  destruct Hinv as (Hr & (Hmax & h & Eh & Edw) & Hc & Hl).
  pose proof (parse_Some_length _ _ Eh) as H10.
  destruct (collecting_push p b Hc Hb) as (Hc' & Hm & Hs & Hpl);
    [unfold MAX_CCID_BYTES, MAX_CCID_MESSAGE_LENGTH; lia|].
  unfold feed, abs. rewrite Hst. cbn [spec_feed]. unfold complete, too_long.
  rewrite (parse_app _ h) by done. rewrite Eh.
  replace (Z.of_nat (length (ccid_bytes p)) =? 10 + dw_length h) with false by lia.
  rewrite length_app. replace (length (ccid_bytes p) + length [b] =? 10)%nat with false
    by (simpl; lia). cbn [andb].
  pose proof (parse_app _ _ [b] Eh) as Eh'. rewrite <- Hm in Eh' |- *.
  assert (length (ccid_bytes p) + 1 = length (ccid_bytes (push_frame_and_ccid_byte p b)))%nat
    as Hl1 by (rewrite Hm, length_app; done).
  set (p1 := push_frame_and_ccid_byte p b) in *. clearbody p1.
  case_decide; eexists; (split; [reflexivity|]); unfold parser_inv, header_read, collecting;
    cbn; (split; [|done]); split_and!; try apply Hc'; try lia; exists h; split; done || lia.
Qed.

Lemma feed_lrc p b : parser_inv p -> state p = CheckLrc -> u8 b ->
  exists p', feed p b = Ret (p', (spec_feed (abs p) b).2) /\ parser_inv p' /\
             abs p' = (spec_feed (abs p) b).1.
Proof.
  intros Hinv Hst Hb. unfold parser_inv in Hinv. rewrite Hst in Hinv.
  destruct Hinv as ((Hmax & h & Eh & Edw) & (Hr & Hby & Hf) & Hl).
  unfold feed, abs. rewrite Hst. cbn [spec_feed]. unfold complete. rewrite Eh.
  replace (Z.of_nat (length (ccid_bytes p)) =? 10 + dw_length h) with true by lia.
  unfold push_frame_byte. cbn [frame]. rewrite Hf.
  rewrite vec_push_fits by (unfold MAX_FRAME_BYTES; simpl; lia). rewrite <- Hf.
  rewrite length_app. change (length [b]) with 1%nat.
  replace (1 <=? length (frame p) + 1)%nat with true by lia.
  unfold assert. rewrite bind_ret, slice_prefix by (rewrite length_app; simpl; lia).
  rewrite bind_ret, take_app_length' by lia. unfold calculate_lrc, xor_all.
  match goal with |- context [finish_with_command ?q] =>
    destruct (finish_inv q) as [Hi Ha] end.
  { cbn [frame]. rewrite length_app, Hf. change MAX_FRAME_BYTES with 274%nat. simpl. lia. }
  change (SYNC :: CTRL_ACK :: ccid_bytes p ++ [b])
    with ((SYNC :: CTRL_ACK :: ccid_bytes p) ++ [b]). rewrite <- Hf.
  destruct (b =? _); eexists; (split; [reflexivity|]); done.
Qed.

Lemma parser_simulates : simulates feed spec_feed parser_inv u8 abs.
Proof.
  intros p b Hinv Hb. destruct (state p) as [| |n|r|] eqn:Est.
  - unfold parser_inv in Hinv. rewrite Est in Hinv. destruct Hinv as (Hf & Hc & Hp & Hr).
    unfold feed, abs. rewrite Est. cbn [spec_feed].
    destruct (b =? RDR_TO_PC_NOTIFY_SLOT_CHANGE); [|destruct (b =? SYNC) eqn:E].
    + eexists. split; [reflexivity|]. unfold parser_inv. simpl. split_and!; try done; lia.
    + eexists. split; [reflexivity|]. unfold parser_inv. simpl.
      apply Z.eqb_eq in E as ->. done.
    + exists p. unfold parser_inv. by rewrite Est.
  - unfold parser_inv in Hinv. rewrite Est in Hinv. destruct Hinv as (Hf & Hr & Hc & Hp).
    unfold feed, abs. rewrite Est. cbn [spec_feed].
    destruct (b =? SYNC) eqn:E.
    { eexists. split; [reflexivity|]. unfold parser_inv. simpl. rewrite Est.
      apply Z.eqb_eq in E as ->. done. }
    destruct (finish_inv (push_frame_byte p b)) as [Hi Ha].
    { unfold push_frame_byte. cbn [frame]. rewrite Hf. vm_compute. lia. }
    assert (frame (push_frame_byte p b) = [SYNC; b]) as Hfr
      by (unfold push_frame_byte; cbn [frame]; by rewrite Hf).
    rewrite Hfr in Ha.
    destruct (b =? CTRL_ACK) eqn:E2; [|destruct (b =? CTRL_NAK)].
    + eexists. split; [reflexivity|]. unfold parser_inv, collecting. simpl in *.
      rewrite Hfr, Hr, Hc. apply Z.eqb_eq in E2 as ->. split_and!; try done; [lia|constructor].
    + eexists. split; [reflexivity|]. done.
    + eexists. split; [reflexivity|]. done.
  - by eapply feed_header.
  - by eapply feed_payload.
  - by apply feed_lrc.
Qed.

Lemma run_parser bs : Forall u8 bs ->
  exists p, run feed new bs = Ret (p, (spec_run spec_feed (ASync []) bs).2) /\
            parser_inv p /\ abs p = (spec_run spec_feed (ASync []) bs).1.
Proof.
  intros Hbs. apply (run_refines _ _ _ _ _ new bs parser_simulates); [|done].
  unfold parser_inv. simpl. split_and!; try done. lia.
Qed.

Lemma spec_run_app {A E R} (spec : A -> E -> A * R) a l1 l2 :
  spec_run spec a (l1 ++ l2) =
  ((spec_run spec (spec_run spec a l1).1 l2).1,
   (spec_run spec a l1).2 ++ (spec_run spec (spec_run spec a l1).1 l2).2).
Proof.
  revert a. induction l1 as [|e l1 IH]; intros a; simpl.
  - by destruct (spec_run spec a l2).
  - by rewrite IH.
Qed.

(** ** Messages and frames *)

(** A CCID message fit for the wire: its header announces its length, and it
    is at most 271 bytes long. *)
Definition message (m : list Z) : Prop :=
  bytes m /\ (length m <= MAX_CCID_BYTES)%nat /\
  exists h, CcidHeader_parse m = Some h /\ Z.of_nat (length m) = 10 + dw_length h.

Definition frame_of (m : list Z) : list Z :=
  SYNC :: CTRL_ACK :: m ++ [xor_all (SYNC :: CTRL_ACK :: m)].

Lemma message_complete m : message m -> complete m = true.
Proof. intros (_ & _ & h & Eh & El). unfold complete. rewrite Eh. lia. Qed.

Lemma parse_prefix m pre h :
  CcidHeader_parse m = Some h -> (exists r, m = pre ++ r) -> (10 <= length pre)%nat ->
  CcidHeader_parse pre = Some h.
Proof.
  intros Eh [r ->] Hl. destruct (CcidHeader_parse pre) as [h'|] eqn:E.
  - rewrite (parse_app _ _ _ E) in Eh. done.
  - apply parse_None in E. lia.
Qed.

(** Inside a message nothing is complete and nothing is too long. *)
Lemma message_prefix m pre b r :
  message m -> m = pre ++ b :: r -> complete pre = false /\ too_long (pre ++ [b]) = false.
Proof.
  intros (_ & Hmax & h & Eh & El) E.
  assert (length m = length pre + 1 + length r)%nat as Hl
    by (rewrite E, length_app; simpl; lia).
  change MAX_CCID_BYTES with 271%nat in Hmax. split.
  - unfold complete. destruct (CcidHeader_parse pre) as [h'|] eqn:E'; [|done].
    assert (10 <= length pre)%nat by (by eapply parse_Some_length).
    rewrite (parse_prefix m pre h) in E' by eauto. simplify_eq. lia.
  - unfold too_long. destruct (CcidHeader_parse (pre ++ [b])) as [h'|] eqn:E'; [|done].
    assert (10 <= length (pre ++ [b]))%nat by (by eapply parse_Some_length).
    rewrite (parse_prefix m (pre ++ [b]) h) in E'
      by (try done; exists r; by rewrite <- app_assoc). simplify_eq. lia.
Qed.

Lemma collect_message m pre bs : message m -> m = pre ++ bs ->
  spec_run spec_feed (AData pre) bs = (AData m, replicate (length bs) None).
Proof.
  intros Hm. revert pre. induction bs as [|b bs IH]; intros pre E.
  - by rewrite E, app_nil_r.
  - destruct (message_prefix m pre b bs Hm E) as [Hc Ht].
    cbn [spec_run spec_feed]. rewrite Hc, Ht. cbn [fst snd].
    rewrite (IH (pre ++ [b])) by (by rewrite E, <- app_assoc). done.
Qed.

(** A frame with any last byte: one event, at the end. *)
Lemma frame_run echo m lrc : message m ->
  spec_run spec_feed (ASync echo) (SYNC :: CTRL_ACK :: m ++ [lrc]) =
  (ASync (SYNC :: CTRL_ACK :: m ++ [lrc]),
   replicate (2 + length m) None ++
   [Some (if lrc =? xor_all (SYNC :: CTRL_ACK :: m) then Command m else Error InvalidLrc)]).
Proof.
  intros Hm. cbn [spec_run]. change (spec_feed (ASync echo) SYNC) with (ACtrl, @None FrameEvent).
  cbn [fst snd spec_run].
  change (spec_feed ACtrl CTRL_ACK) with (AData [], @None FrameEvent). cbn [fst snd].
  rewrite spec_run_app, (collect_message m [] m) by done. cbn [fst snd spec_run].
  cbn [spec_feed]. by rewrite message_complete.
Qed.

Lemma frame_of_run echo m : message m ->
  spec_run spec_feed (ASync echo) (frame_of m) =
  (ASync (frame_of m), replicate (2 + length m) None ++ [Some (Command m)]).
Proof. intros Hm. unfold frame_of. by rewrite frame_run, Z.eqb_refl. Qed.

(** Line noise: no SYNC among the bytes. *)
Lemma noise_run echo bs : Forall (fun b => b <> SYNC) bs ->
  exists echo', spec_run spec_feed (ASync echo) bs =
                (ASync echo', replicate (length bs) None).
Proof.
  intros H. revert echo. induction H as [|b bs Hb H IH]; intros echo; [by exists echo|].
  cbn [spec_run spec_feed]. replace (b =? SYNC) with false by lia.
  destruct (b =? RDR_TO_PC_NOTIFY_SLOT_CHANGE); cbn [fst snd].
  - destruct (IH []) as [e' ->]. by exists e'.
  - destruct (IH echo) as [e' ->]. by exists e'.
Qed.

Lemma u8_frame m : message m -> Forall u8 (frame_of m).
Proof.
  intros (Hb & _). unfold frame_of. repeat (apply Forall_cons; split; [done|]).
  apply Forall_app. split; [done|]. apply Forall_singleton, u8_xor_all.
  by repeat (apply Forall_cons; split; [done|]).
Qed.

(** ** Properties *)

(** What a reachable, complete message looks like. *)
Lemma complete_message p msg :
  parser_inv p -> abs p = AData msg -> complete msg = true -> message msg.
Proof.
  intros Hinv Ha Hc. unfold abs in Ha. unfold parser_inv in Hinv. unfold complete in Hc.
  destruct (state p) as [| |n|r|]; simplify_eq.
  - destruct Hinv as (Hn & Hl & _). rewrite (proj2 (parse_None _)) in Hc by lia. done.
  - destruct Hinv as (Hr & (_ & h & Eh & Edw) & _ & Hl). rewrite Eh in Hc. lia.
  - destruct Hinv as ((Hmax & h & Eh & Edw) & (_ & Hb & _) & Hl). rewrite Eh in Hc.
    split; [done|split; [change MAX_CCID_BYTES with 271%nat; lia|]]. exists h. split; [done|lia].
Qed.

(** The three vectors stay within their capacities. *)
Lemma inv_bounds p : parser_inv p ->
  (length (frame p) <= MAX_FRAME_BYTES)%nat /\
  (length (received_frame p) <= MAX_FRAME_BYTES)%nat /\
  (length (ccid_bytes p) <= MAX_CCID_BYTES)%nat.
Proof.
  unfold parser_inv. change MAX_FRAME_BYTES with 274%nat. change MAX_CCID_BYTES with 271%nat.
  unfold collecting, header_read. destruct (state p); intros; destruct_and!;
    repeat match goal with H : frame p = _ |- _ => rewrite H end;
    repeat match goal with H : received_frame p = _ |- _ => rewrite H end;
    repeat match goal with H : ccid_bytes p = [] |- _ => rewrite H end; simpl; lia.
Qed.

(** The serial parser is safe on any line.  After any bytes whatsoever, one
    more byte does not panic the parser and leaves its vectors within their
    capacities; when that byte completes a command, the command is a CCID
    message whose header announces exactly its length, at most 271 bytes, and
    the echo is its frame: SYNC ACK message LRC. *)
Theorem parser_safe bs b :
  bytes (bs ++ [b]) ->
  exists p events p' ev,
    run feed new bs = Ret (p, events) /\ feed p b = Ret (p', ev) /\
    (length (frame p') <= MAX_FRAME_BYTES)%nat /\
    (length (received_frame p') <= MAX_FRAME_BYTES)%nat /\
    (length (ccid_bytes p') <= MAX_CCID_BYTES)%nat /\
    (forall m, ev = Some (Command m) ->
       message m /\ received_frame_bytes p' = frame_of m).
Proof.
  intros [Hbs Hb]%bytes_snoc.
  destruct (run_parser bs Hbs) as (p & E & Hinv & Ha).
  destruct (parser_simulates p b Hinv Hb) as (p' & E' & Hinv' & Ha').
  exists p. eexists. exists p'. eexists. split; [exact E|]. split; [exact E'|].
  destruct (inv_bounds p' Hinv') as (? & ? & ?). split_and!; try done.
  intros m Hm. destruct (abs p) as [echo| |msg] eqn:Eabs; cbn [spec_feed] in Hm, Ha'.
  - repeat case_match; done.
  - repeat case_match; done.
  - destruct (complete msg) eqn:Ec; [|by repeat case_match].
    cbn [fst snd] in Hm, Ha'. destruct (b =? _) eqn:Eb; [|done].
    apply Z.eqb_eq in Eb. injection Hm as <-. split; [by apply (complete_message p)|].
    unfold abs in Ha'. destruct (state p') eqn:Es; try discriminate Ha'.
    injection Ha' as Ha'. unfold received_frame_bytes, frame_of. by rewrite Ha', Eb.
Qed.

Example parser_safe_witness :
  let bs := [0x55; SYNC; CTRL_ACK; 0x65; 0; 0; 0; 0; 0; 7; 0; 0; 0] in
  (match run feed new (bs ++ [0x67]) with
   | Ret (_, evs) => omap id evs = [Command [0x65; 0; 0; 0; 0; 0; 7; 0; 0; 0]]
   | Panic => False end) /\
  exists p events p' ev,
    run feed new bs = Ret (p, events) /\ feed p 0x67 = Ret (p', ev) /\
    (length (frame p') <= MAX_FRAME_BYTES)%nat /\
    (length (received_frame p') <= MAX_FRAME_BYTES)%nat /\
    (length (ccid_bytes p') <= MAX_CCID_BYTES)%nat /\
    (forall m, ev = Some (Command m) ->
       message m /\ received_frame_bytes p' = frame_of m).
Proof.
  intros bs. split; [vm_compute; reflexivity|].
  refine (parser_safe bs 0x67 _). solve_bytes.
Defined.

Lemma events_none {A} n : omap id (replicate n (@None A)) = [].
Proof. by induction n. Qed.

Lemma stream_run echo items :
  Forall (fun it : list Z * list Z => Forall (fun b => b <> SYNC) it.1 /\ message it.2) items ->
  exists echo',
    (spec_run spec_feed (ASync echo) (concat (map (fun it => it.1 ++ frame_of it.2) items))).1
      = ASync echo' /\
    omap id (spec_run spec_feed (ASync echo)
               (concat (map (fun it => it.1 ++ frame_of it.2) items))).2
      = map (fun it => Command it.2) items.
Proof.
  intros H. revert echo. induction H as [|[noise m] items [Hn Hm] H IH]; intros echo.
  - by exists echo.
  - cbn [map concat fst snd] in *. rewrite <- app_assoc, spec_run_app.
    destruct (noise_run echo noise Hn) as [e1 ->]. cbn [fst snd].
    rewrite spec_run_app, (frame_of_run e1 m) by done.
    cbn [fst snd]. destruct (IH (frame_of m)) as (e' & Es & Ee). exists e'.
    split; [exact Es|].
    rewrite !omap_app, !events_none. cbn [omap list_omap id app]. f_equal. exact Ee.
Qed.

Lemma build_response_frame_spec m buf :
  (length m <= MAX_CCID_BYTES)%nat -> (length m + 3 <= length buf)%nat ->
  build_response_frame m buf =
  Ret (frame_of m ++ drop (length m + 3) buf, (length m + 3)%nat).
Proof.
  intros Hl Hbuf. unfold build_response_frame.
  replace (length m <=? MAX_CCID_BYTES)%nat with true by lia.
  replace (2 + length m + 1 <=? length buf)%nat with true by lia.
  unfold assert. rewrite !bind_ret.
  destruct buf as [|b0 [|b1 buf]]; [simpl in Hbuf; lia..|]. simpl in Hbuf.
  assert (store (b0 :: b1 :: buf) 0 SYNC = Ret (SYNC :: b1 :: buf)) as -> by done.
  rewrite bind_ret.
  assert (store (SYNC :: b1 :: buf) 1 CTRL_ACK = Ret (SYNC :: CTRL_ACK :: buf)) as -> by done.
  rewrite bind_ret.
  destruct (split_at buf (length m)) as (pre & x & Ebuf & Hpre); [lia|].
  rewrite Ebuf at 1. change (SYNC :: CTRL_ACK :: pre ++ x :: drop (S (length m)) buf)
    with ([SYNC; CTRL_ACK] ++ pre ++ x :: drop (S (length m)) buf).
  rewrite copy_at_middle by done. rewrite bind_ret, app_assoc.
  rewrite slice_app by (rewrite length_app; simpl; lia). rewrite bind_ret.
  rewrite store_middle by (rewrite length_app; simpl; lia). rewrite bind_ret.
  f_equal. f_equal; [|lia]. unfold frame_of, calculate_lrc, xor_all.
  replace (length m + 3)%nat with (S (S (S (length m)))) by lia. cbn [drop].
  rewrite <- !app_assoc. cbn [app]. by rewrite <- app_assoc.
Qed.

(** C37: framing round-trips.  Framing a CCID message into any buffer with room
    for it writes SYNC ACK message LRC in front and leaves the rest alone; and
    on any line that carries such frames, separated by noise without SYNC
    bytes, the parser yields exactly the framed messages, in order, and is
    between frames at the end. *)
Theorem serial_stream_roundtrip items :
  Forall (fun it : list Z * list Z =>
    bytes it.1 /\ Forall (fun b => b <> SYNC) it.1 /\ message it.2) items ->
  let line := concat (map (fun it => it.1 ++ frame_of it.2) items) in
  (exists p events, run feed new line = Ret (p, events) /\
     omap id events = map (fun it => Command it.2) items /\ mid_frame p = false) /\
  Forall (fun it => forall buf, (length it.2 + 3 <= length buf)%nat ->
    exists buf', build_response_frame it.2 buf = Ret (buf', (length it.2 + 3)%nat) /\
      buf' = frame_of it.2 ++ drop (length it.2 + 3) buf) items.
Proof.
  intros Hit line. split.
  - assert (Forall u8 line) as Hline.
    { unfold line. clear line. induction Hit as [|[n m] items (Hn & _ & Hm) H IH];
        [constructor|]. cbn [map concat fst snd] in *. rewrite !Forall_app.
      split_and!; [done|by apply u8_frame|done]. }
    destruct (run_parser line Hline) as (p & E & Hinv & Ha).
    destruct (stream_run [] items) as (e & Es & Ee).
    { eapply Forall_impl; [exact Hit|]. simpl. naive_solver. }
    fold line in Es, Ee. exists p. eexists. split; [exact E|]. split; [exact Ee|].
    rewrite Es in Ha. unfold abs in Ha. unfold mid_frame. by destruct (state p).
  - eapply Forall_impl; [exact Hit|]. intros [n m] (_ & _ & Hm) buf Hbuf.
    eexists. by rewrite build_response_frame_spec by (done || apply Hm).
Qed.

(** Two GetSlotStatus frames on a line with noise. *)
Example serial_stream_roundtrip_witness :
  let m1 := [0x65; 0; 0; 0; 0; 0; 1; 0; 0; 0] in
  let m2 := [0x6F; 2; 0; 0; 0; 0; 2; 0; 0; 0; 0x03; 0x50] in
  let items := [([0x50; 0xFF], m1); ([], m2)] in
  let line := concat (map (fun it => it.1 ++ frame_of it.2) items) in
  (exists p events, run feed new line = Ret (p, events) /\
     omap id events = [Command m1; Command m2] /\ mid_frame p = false) /\
  Forall (fun it => forall buf, (length it.2 + 3 <= length buf)%nat ->
    exists buf', build_response_frame it.2 buf = Ret (buf', (length it.2 + 3)%nat) /\
      buf' = frame_of it.2 ++ drop (length it.2 + 3) buf) items.
Proof.
  intros m1 m2 items line. refine (serial_stream_roundtrip items _).
  repeat (apply Forall_cons; split); [..|constructor].
  - split; [solve_bytes|]. split; [by repeat constructor|].
    split; [solve_bytes|]. split; [vm_compute; lia|]. by eexists.
  - split; [solve_bytes|]. split; [constructor|].
    split; [solve_bytes|]. split; [vm_compute; lia|]. by eexists.
Defined.

Lemma message_insert m i y :
  message m -> u8 y -> (i = 0 \/ 5 <= i)%nat -> message (<[i := y]> m).
Proof.
  intros (Hb & Hl & h & Eh & El) Hy Hi. split; [by apply Forall_insert|].
  rewrite length_insert. split; [done|]. rewrite El.
  do 10 (destruct m as [|? m]; [done|]). injection Eh as <-.
  destruct i as [|[|[|[|[|i]]]]]; [by eexists|lia..|].
  do 5 (destruct i as [|i]; [by eexists|]). by eexists.
Qed.

(** One bad byte is caught.  Corrupt one byte of a framed message (any but
    the four length bytes) or its LRC: from every state between frames the
    parser yields exactly one event, [InvalidLrc], on the frame's last byte,
    never the message or a different one. *)
Theorem frame_corruption_detected history m i y lrc :
  bytes history -> message m -> (i = 0 \/ 5 <= i)%nat -> (i < length m)%nat ->
  u8 y -> u8 lrc ->
  let sent := xor_all (SYNC :: CTRL_ACK :: m) in
  (m !! i <> Some y /\ lrc = sent) \/ (m !! i = Some y /\ lrc <> sent) ->
  forall p events, run feed new history = Ret (p, events) -> mid_frame p = false ->
  exists p',
    run feed p (SYNC :: CTRL_ACK :: <[i := y]> m ++ [lrc]) =
    Ret (p', replicate (2 + length m) None ++ [Some (Error InvalidLrc)]) /\
    mid_frame p' = false.
Proof.
  intros Hh Hm Hi Hlen Hy Hlrc sent Hbad p events Hrun Hmid.
  destruct (run_parser history Hh) as (p0 & E & Hinv & Ha). rewrite Hrun in E.
  injection E as <- _. pose proof (message_insert m i y Hm Hy Hi) as Hm'.
  assert (exists echo, abs p = ASync echo) as [echo Hecho].
  { unfold abs. unfold mid_frame in Hmid. destruct (state p); try done. by eexists. }
  destruct (run_refines feed spec_feed parser_inv u8 abs p
    (SYNC :: CTRL_ACK :: <[i := y]> m ++ [lrc]) parser_simulates Hinv)
    as (p' & E & Hinv' & Ha').
  { repeat (apply Forall_cons; split; [done|]). apply Forall_app.
    split; [apply Hm'|by apply Forall_singleton]. }
  rewrite Hecho, frame_run in E, Ha' by done. rewrite length_insert in E.
  exists p'. split.
  - rewrite E. cbn [snd]. do 4 f_equal.
    replace (lrc =? xor_all (SYNC :: CTRL_ACK :: <[i:=y]> m)) with false; [done|].
    symmetry. apply Z.eqb_neq. destruct (lookup_lt_is_Some_2 m i Hlen) as [x Hx].
    destruct Hbad as [[Hne ->]|[Heq Hne]].
    + intros Hsame. apply Hne. rewrite Hx. f_equal.
      symmetry. apply (xor_all_insert (SYNC :: CTRL_ACK :: m) (S (S i)) x y); [done|].
      symmetry. exact Hsame.
    + by rewrite list_insert_id.
  - unfold abs in Ha'. unfold mid_frame. by destruct (state p').
Qed.

Example frame_corruption_detected_witness :
  let m := [0x65; 0; 0; 0; 0; 0; 7; 0; 0; 0] in
  exists p',
    run feed new (SYNC :: CTRL_ACK :: <[6%nat := 8]> m ++ [0x67]) =
    Ret (p', replicate 12 None ++ [Some (Error InvalidLrc)]) /\ mid_frame p' = false.
Proof.
  intros m.
  refine (frame_corruption_detected [] m 6 8 0x67 _ _ _ _ _ _ _ new [] eq_refl eq_refl);
    [constructor| |right; lia|simpl; lia|done|done|left; split; [done|reflexivity]].
  split; [solve_bytes|]. split; [vm_compute; lia|]. by eexists.
Defined.

(** Bytes still to come, at most, once the control byte is in. *)
Definition remaining (msg : list Z) : nat :=
  match CcidHeader_parse msg with
  | Some h => 11 + Z.to_nat (dw_length h) - length msg
  | None => 272 - length msg
  end.

Lemma remaining_step p b msg :
  parser_inv p -> abs p = AData msg -> u8 b ->
  (exists e, (spec_feed (AData msg) b).2 = Some e) \/
  exists msg', spec_feed (AData msg) b = (AData msg', None) /\
               (remaining msg' < remaining msg)%nat.
Proof.
  intros Hinv Ha Hb. cbn [spec_feed]. destruct (complete msg) eqn:Ec; [left; by eexists|].
  destruct (too_long (msg ++ [b])) eqn:Et; [left; by eexists|].
  right. eexists. split; [reflexivity|]. unfold remaining.
  destruct (CcidHeader_parse msg) as [h|] eqn:Eh.
  - rewrite (parse_app _ _ _ Eh), length_app. simpl.
    unfold complete in Ec. rewrite Eh in Ec.
    unfold parser_inv in Hinv. unfold abs in Ha. destruct (state p); simplify_eq.
    + apply parse_Some_length in Eh. lia.
    + destruct Hinv as (_ & (_ & h' & Eh' & ?) & _ & ?). rewrite Eh in Eh'. simplify_eq. lia.
    + destruct Hinv as ((_ & h' & Eh' & ?) & _ & ?). rewrite Eh in Eh'. simplify_eq. lia.
  - apply parse_None in Eh. unfold too_long in Et.
    destruct (CcidHeader_parse (msg ++ [b])) as [h|] eqn:Eh'.
    + rewrite length_app in *. simpl length in *.
      pose proof (parse_Some_length _ _ Eh'). rewrite length_app in *. simpl length in *. lia.
    + rewrite length_app. simpl. lia.
Qed.

(** No frame can hold the parser hostage.  Once SYNC ACK is in, the next
    272 bytes, whatever they are, produce an event (a command or an error). *)
Theorem frame_bounded history p events bs :
  bytes history -> run feed new history = Ret (p, events) ->
  (exists msg, abs p = AData msg) -> bytes bs -> length bs = 272%nat ->
  exists p' events' e, run feed p bs = Ret (p', events') /\ In (Some e) events'.
Proof.
  intros Hh Hrun [msg Ha] Hbs Hlen.
  destruct (run_parser history Hh) as (p0 & E & Hinv & _). rewrite Hrun in E.
  injection E as <- _. clear Hrun Hh.
  assert (remaining msg <= length bs)%nat as Hr.
  { rewrite Hlen. unfold remaining. unfold parser_inv in Hinv. unfold abs in Ha.
    destruct (CcidHeader_parse msg) as [h|] eqn:Eh; [|lia].
    pose proof (parse_Some_length _ _ Eh). destruct (state p); simplify_eq.
    - lia.
    - destruct Hinv as (_ & (? & h' & Eh' & ?) & _ & ?). rewrite Eh in Eh'. simplify_eq. lia.
    - destruct Hinv as ((? & h' & Eh' & ?) & _ & ?). rewrite Eh in Eh'. simplify_eq. lia. }
  clear Hlen. revert p msg Hinv Ha Hr. induction Hbs as [|b bs Hb Hbs IH];
    intros p msg Hinv Ha Hr.
  { exfalso. unfold remaining in Hr. unfold parser_inv in Hinv. unfold abs in Ha.
    simpl in Hr. destruct (state p); simplify_eq.
    - destruct Hinv as (? & ? & _). rewrite (proj2 (parse_None _)) in Hr by lia. lia.
    - destruct Hinv as (_ & (? & h' & Eh' & ?) & _ & ?). rewrite Eh' in Hr. lia.
    - destruct Hinv as ((? & h' & Eh' & ?) & _ & ?). rewrite Eh' in Hr. lia. }
  destruct (parser_simulates p b Hinv Hb) as (p1 & E1 & Hinv1 & Ha1).
  destruct (run_refines feed spec_feed parser_inv u8 abs p1 bs parser_simulates Hinv1 Hbs)
    as (p2 & E2 & _ & _).
  rewrite Ha in E1, Ha1. simpl in Hr. cbn [run]. rewrite E1, bind_ret. cbn [fst snd].
  destruct (remaining_step p b msg Hinv Ha Hb) as [[e He]|(msg' & Es & Hlt)].
  - rewrite E2, bind_ret. cbn [fst snd]. do 3 eexists. split; [reflexivity|]. left. exact He.
  - rewrite Es in Ha1. destruct (IH p1 msg' Hinv1 Ha1) as (p' & evs & e & -> & Hin); [lia|].
    rewrite bind_ret. do 3 eexists. split; [reflexivity|]. right. exact Hin.
Qed.

Example frame_bounded_witness :
  let p := mkParser (ReadHeader 0) [SYNC; CTRL_ACK] [] [] 0 in
  exists p' events' e, run feed p (replicate 272 0) = Ret (p', events') /\ In (Some e) events'.
Proof.
  refine (frame_bounded [SYNC; CTRL_ACK] _ [None; None] (replicate 272 0) _ eq_refl _ _ eq_refl).
  - solve_bytes.
  - by eexists.
  - solve_bytes.
Defined.
