(* ===== verification/T1Endpoint.v ===== *)
(** * The T=1 endpoint

    [ccid-service/src/t1.rs]: the card side of ISO 7816-3 T=1 that the
    contactless reader plays towards a TPDU-level host.  Host blocks go into
    [feed], the card's answers into [card_response]; blocks are
    [NAD PCB LEN INF LRC]. *)
From Stdlib Require Import ZArith Lia ZifyBool.
From stdpp Require Import prelude.
From S2P Require Import Prelude Atr.
Local Open Scope Z_scope.

Definition MAX_IFSC : Z := 254.
Definition MAX_RELAY : nat := 512.
Definition BLOCK_CAP : nat := 520.
Definition DEFAULT_HOST_IFSD : Z := 32.
Definition ATR_TB3_BWI : Z := 4.
Definition HOST_DEFAULT_BAUD : Z := 10752.
Definition WTX_TURNAROUND_MS : Z := 100.

Inductive SKind := Resync | Ifs | Abort_ | Wtx.

Inductive Pcb :=
| PI (ns : Z) (more : bool) (nr : Z)
| PR (nr err : Z)
| PS (kind : SKind) (response : bool).

#[global] Instance SKind_eq_dec : EqDecision SKind.
Proof. solve_decision. Defined.
#[global] Instance Pcb_eq_dec : EqDecision Pcb.
Proof. solve_decision. Defined.

Definition parse_pcb (pcb : Z) : option Pcb :=
  if Z.land pcb 0x80 =? 0x00 then
    Some (PI (Z.land (Z.shiftr pcb 6) 1) (negb (Z.land pcb 0x20 =? 0))
            (Z.land (Z.shiftr pcb 4) 1))
  else if Z.land pcb 0x80 =? 0x80 then
    if Z.land pcb 0xC0 =? 0x80 then
      Some (PR (Z.land (Z.shiftr pcb 4) 1) (Z.land pcb 0x03))
    else
      let response := negb (Z.land pcb 0x20 =? 0) in
      let k := Z.land pcb 0x03 in
      if k =? 0 then Some (PS Resync response)
      else if k =? 1 then Some (PS Ifs response)
      else if k =? 2 then Some (PS Abort_ response)
      else if k =? 3 then Some (PS Wtx response)
      else None
  else None.

Definition lrc (bs : list Z) : Z := fold_left Z.lxor bs 0.

Definition block (pcb : Z) (inf : list Z) : list Z :=
  let v := vec_extend BLOCK_CAP [] [0x00; pcb; wrap8 (Z.of_nat (length inf))] in
  let v := vec_extend BLOCK_CAP v inf in
  vec_push BLOCK_CAP v (lrc v).

Definition i_pcb (ns : Z) (more : bool) (nr : Z) : Z :=
  Z.lor (Z.lor (wrap8 (Z.shiftl ns 6)) (Z.shiftl (Z.b2z more) 5)) (wrap8 (Z.shiftl nr 4)).

Definition r_pcb (nr err : Z) : Z := Z.lor (Z.lor 0x80 (wrap8 (Z.shiftl nr 4))) err.

Definition s_pcb (kind : SKind) (response : bool) : Z :=
  let base := match kind with
              | Resync => 0xC0 | Ifs => 0xC1 | Abort_ => 0xC2 | Wtx => 0xC3 end in
  Z.lor base (Z.shiftl (Z.b2z response) 5).

Inductive FeedResult :=
| Immediate (b : list Z)
| Apdu (a : list Z).

Record T1Endpoint := mkT1 {
  ns : Z;
  host_ns : Z;
  send_ifsc : Z;
  host_ifsd : Z;
  recv_chain : list Z;
  send_chain : list Z;
  last_sent : option (list Z);
  wtx_pending : bool;
  host_bwi : Z;
  retry_ns : option Z;
  retry_first_frame : option (list Z)
}.

Definition new : T1Endpoint :=
  {| ns := 0; host_ns := 0; send_ifsc := 32; host_ifsd := DEFAULT_HOST_IFSD;
     recv_chain := []; send_chain := []; last_sent := None; wtx_pending := false;
     host_bwi := ATR_TB3_BWI; retry_ns := None; retry_first_frame := None |}.

Definition set_host_timing (bwi ifsc : Z) (t : T1Endpoint) : T1Endpoint :=
  {| ns := ns t; host_ns := host_ns t; send_ifsc := send_ifsc t;
     host_ifsd := clamp ifsc 16 MAX_IFSC; recv_chain := recv_chain t;
     send_chain := send_chain t; last_sent := last_sent t;
     wtx_pending := wtx_pending t; host_bwi := bwi; retry_ns := retry_ns t;
     retry_first_frame := retry_first_frame t |}.

Definition reset (t : T1Endpoint) : T1Endpoint := new.

(** Field updates. *)
Definition with_last_sent (b : list Z) (t : T1Endpoint) : T1Endpoint :=
  {| ns := ns t; host_ns := host_ns t; send_ifsc := send_ifsc t;
     host_ifsd := host_ifsd t; recv_chain := recv_chain t;
     send_chain := send_chain t; last_sent := Some b;
     wtx_pending := wtx_pending t; host_bwi := host_bwi t; retry_ns := retry_ns t;
     retry_first_frame := retry_first_frame t |}.
Definition with_ns (v : Z) (t : T1Endpoint) : T1Endpoint :=
  {| ns := v; host_ns := host_ns t; send_ifsc := send_ifsc t;
     host_ifsd := host_ifsd t; recv_chain := recv_chain t;
     send_chain := send_chain t; last_sent := last_sent t;
     wtx_pending := wtx_pending t; host_bwi := host_bwi t; retry_ns := retry_ns t;
     retry_first_frame := retry_first_frame t |}.
Definition with_host_ns (v : Z) (t : T1Endpoint) : T1Endpoint :=
  {| ns := ns t; host_ns := v; send_ifsc := send_ifsc t;
     host_ifsd := host_ifsd t; recv_chain := recv_chain t;
     send_chain := send_chain t; last_sent := last_sent t;
     wtx_pending := wtx_pending t; host_bwi := host_bwi t; retry_ns := retry_ns t;
     retry_first_frame := retry_first_frame t |}.
Definition with_send_ifsc (v : Z) (t : T1Endpoint) : T1Endpoint :=
  {| ns := ns t; host_ns := host_ns t; send_ifsc := v;
     host_ifsd := host_ifsd t; recv_chain := recv_chain t;
     send_chain := send_chain t; last_sent := last_sent t;
     wtx_pending := wtx_pending t; host_bwi := host_bwi t; retry_ns := retry_ns t;
     retry_first_frame := retry_first_frame t |}.
Definition with_recv_chain (v : list Z) (t : T1Endpoint) : T1Endpoint :=
  {| ns := ns t; host_ns := host_ns t; send_ifsc := send_ifsc t;
     host_ifsd := host_ifsd t; recv_chain := v;
     send_chain := send_chain t; last_sent := last_sent t;
     wtx_pending := wtx_pending t; host_bwi := host_bwi t; retry_ns := retry_ns t;
     retry_first_frame := retry_first_frame t |}.
Definition with_send_chain (v : list Z) (t : T1Endpoint) : T1Endpoint :=
  {| ns := ns t; host_ns := host_ns t; send_ifsc := send_ifsc t;
     host_ifsd := host_ifsd t; recv_chain := recv_chain t;
     send_chain := v; last_sent := last_sent t;
     wtx_pending := wtx_pending t; host_bwi := host_bwi t; retry_ns := retry_ns t;
     retry_first_frame := retry_first_frame t |}.
Definition with_wtx_pending (v : bool) (t : T1Endpoint) : T1Endpoint :=
  {| ns := ns t; host_ns := host_ns t; send_ifsc := send_ifsc t;
     host_ifsd := host_ifsd t; recv_chain := recv_chain t;
     send_chain := send_chain t; last_sent := last_sent t;
     wtx_pending := v; host_bwi := host_bwi t; retry_ns := retry_ns t;
     retry_first_frame := retry_first_frame t |}.
Definition with_retry (n : option Z) (f : option (list Z)) (t : T1Endpoint) : T1Endpoint :=
  {| ns := ns t; host_ns := host_ns t; send_ifsc := send_ifsc t;
     host_ifsd := host_ifsd t; recv_chain := recv_chain t;
     send_chain := send_chain t; last_sent := last_sent t;
     wtx_pending := wtx_pending t; host_bwi := host_bwi t; retry_ns := n;
     retry_first_frame := f |}.

Definition bad_block (t : T1Endpoint) : FeedResult := Immediate (block (r_pcb (host_ns t) 1) []).

(** [take_next_chain_block]; the [remove(0)] loop drops [chunk] bytes. *)
Definition take_next_chain_block (t : T1Endpoint) :
    outcome (T1Endpoint * option (list Z)) :=
  match send_chain t with
  | [] => Ret (t, None)
  | _ =>
      let chunk := (Z.to_nat (send_ifsc t) `min` length (send_chain t))%nat in
      let more := (chunk <? length (send_chain t))%nat in
      inf ← slice (send_chain t) 0 chunk;
      let inf := vec_extend MAX_RELAY [] inf in
      let t := with_send_chain (drop chunk (send_chain t)) t in
      let b := block (i_pcb (ns t) more (host_ns t)) inf in
      let t := if more then t else with_ns (Z.lxor (ns t) 1) t in
      Ret (with_last_sent b t, Some b)
  end.

Definition final_empty_block (t : T1Endpoint) : T1Endpoint * list Z :=
  let b := block (i_pcb (ns t) false (host_ns t)) [] in
  (with_last_sent b (with_ns (Z.lxor (ns t) 1) t), b).

Definition cache_retry_answer (frame : list Z) (t : T1Endpoint) : T1Endpoint :=
  with_retry (Some (Z.lxor (host_ns t) 1)) (Some frame) t.

Definition on_s_request (kind : SKind) (inf : list Z) (t : T1Endpoint) :
    T1Endpoint * FeedResult :=
  match kind with
  | Resync =>
      let t := with_send_chain [] (with_recv_chain [] (with_host_ns 0 (with_ns 0 t))) in
      let t := with_retry None None (with_wtx_pending false t) in
      let rsp := block (s_pcb Resync true) [] in
      (with_last_sent rsp t, Immediate rsp)
  | Ifs =>
      let new_ifs := match inf with x :: _ => x | [] => 32 end in
      let t := with_send_ifsc (Z.min new_ifs MAX_IFSC) t in
      let rsp := block (s_pcb Ifs true) inf in
      (with_last_sent rsp t, Immediate rsp)
  | Abort_ =>
      let t := with_recv_chain [] t in
      let rsp := block (s_pcb Abort_ true) inf in
      (with_last_sent rsp t, Immediate rsp)
  | Wtx =>
      let rsp := block (s_pcb Wtx true) inf in
      (with_last_sent rsp t, Immediate rsp)
  end.

(** Retransmit the last block, if any. *)
Definition resend_last (t : T1Endpoint) : FeedResult :=
  match last_sent t with Some last => Immediate last | None => bad_block t end.

Definition on_s_response (kind : SKind) (t : T1Endpoint) : outcome (T1Endpoint * FeedResult) :=
  if bool_decide (kind = Wtx) && wtx_pending t then
    let t := with_wtx_pending false t in
    r ← take_next_chain_block t;
    match r.2 with
    | Some b => Ret (with_retry (retry_ns r.1) (Some b) r.1, Immediate b)
    | None => Ret (r.1, bad_block r.1)
    end
  else Ret (t, resend_last t).

(** [on an R-block]. *)
Definition on_r_block (t : T1Endpoint) : outcome (T1Endpoint * FeedResult) :=
  match (if wtx_pending t then last_sent t else None) with
  | Some last => Ret (t, Immediate last)
  | None =>
      r ← take_next_chain_block t;
      match r.2 with
      | Some rest => Ret (r.1, Immediate rest)
      | None => Ret (r.1, resend_last r.1)
      end
  end.

(** [on an I-block]. *)
Definition on_i_block (bns : Z) (more : bool) (inf : list Z) (t : T1Endpoint) :
    T1Endpoint * FeedResult :=
  let again := Immediate (block (r_pcb (host_ns t) 0) []) in
  if negb (bns =? host_ns t) then
    if bool_decide (Some bns = retry_ns t) then
      if more then (t, Immediate (block (r_pcb bns 0) []))
      else match retry_first_frame t with
           | Some frame => (t, Immediate frame)
           | None => (t, again)
           end
    else (t, again)
  else if host_ifsd t <? Z.of_nat (length inf) then (t, bad_block t)
  else if (MAX_RELAY <? length (recv_chain t) + length inf)%nat then (t, bad_block t)
  else
    let t := with_recv_chain (vec_extend MAX_RELAY (recv_chain t) inf) t in
    if more then (t, Immediate (block (r_pcb bns 0) []))
    else
      let apdu := recv_chain t in
      (with_recv_chain [] (with_host_ns (Z.lxor (host_ns t) 1) t), Apdu apdu).

Definition feed (bs : list Z) (t : T1Endpoint) : outcome (T1Endpoint * FeedResult) :=
  if (length bs <? 4)%nat then Ret (t, bad_block t)
  else
    pcb ← index bs 1;
    len ← index bs 2;
    let inf_end := (3 + Z.to_nat len)%nat in
    if negb (length bs =? inf_end + 1)%nat || (MAX_IFSC <? len) then Ret (t, bad_block t)
    else
      body ← slice bs 0 inf_end;
      check ← index bs inf_end;
      if negb (lrc body =? check) then Ret (t, bad_block t)
      else
        inf ← slice bs 3 inf_end;
        match parse_pcb pcb with
        | Some (PS kind true) => on_s_response kind t
        | Some (PS kind false) => Ret (on_s_request kind inf t)
        | Some (PR _ _) => on_r_block t
        | Some (PI bns more _) => Ret (on_i_block bns more inf t)
        | None => Ret (t, bad_block t)
        end.

Definition card_response (rsp : list Z) (took_ms : Z) (t : T1Endpoint) :
    outcome (T1Endpoint * list Z) :=
  let cap := (length rsp `min` MAX_RELAY)%nat in
  staged ← slice rsp 0 cap;
  let t := with_send_chain (vec_extend MAX_RELAY [] staged) t in
  let bwt := t1_bwt_ms (host_bwi t) HOST_DEFAULT_BAUD in
  let need := wrapping_add32 took_ms WTX_TURNAROUND_MS in
  if bwt <? need then
    let m := wrap8 (clamp (div_ceil need bwt) 2 59) in
    let t := with_wtx_pending true t in
    let wtx := block (s_pcb Wtx false) [m] in
    Ret (cache_retry_answer wtx (with_last_sent wtx t), wtx)
  else
    r ← take_next_chain_block t;
    let '(t, first) := match r.2 with Some b => (r.1, b) | None => final_empty_block r.1 end in
    Ret (cache_retry_answer first t, first).

(** The injected clock's reading [now] (i64 microseconds). *)
Definition elapsed_ms_since (now started_us : Z) : Z :=
  wrap32 (Z.max (Z.quot (now - started_us) 1000) 0).

Definition is_s_block_request (bs : list Z) : bool :=
  if (length bs <? 4)%nat then false
  else match bs with
       | _ :: pcb :: _ => (Z.land pcb 0xC0 =? 0xC0) && (Z.land pcb 0x10 =? 0)
       | _ => false
       end.

(** ** Protocol control bytes *)

(** A sequence bit. *)
Definition bit (z : Z) : Prop := z = 0 \/ z = 1.

Lemma bit_flip z : bit z -> bit (Z.lxor z 1).
Proof. intros [-> | ->]; [by right|by left]. Qed.
#[export] Hint Resolve bit_flip : ccid.

Lemma parse_i_pcb n m more : bit n -> bit m -> parse_pcb (i_pcb n more m) = Some (PI n more m).
Proof. intros [-> | ->] [-> | ->]; by destruct more. Qed.

Lemma parse_r_pcb m e : bit m -> 0 <= e < 4 -> parse_pcb (r_pcb m e) = Some (PR m e).
Proof.
  intros [-> | ->] He;
    assert (e = 0 \/ e = 1 \/ e = 2 \/ e = 3) as [->|[->|[->| ->]]] by lia; reflexivity.
Qed.

Lemma parse_s_pcb k r : parse_pcb (s_pcb k r) = Some (PS k r).
Proof. by destruct k, r. Qed.

(** The parse of a byte: bits of an I-block are bits. *)
Lemma parse_pcb_total b : u8 b ->
  exists p, parse_pcb b = Some p /\
    match p with PI n _ m => bit n /\ bit m | PR m e => bit m /\ 0 <= e < 4 | _ => True end.
Proof.
  intros Hb.
  assert (match parse_pcb b with
          | Some (PI n _ m) => (0 <=? n) && (n <=? 1) && (0 <=? m) && (m <=? 1)
          | Some (PR m e) => (0 <=? m) && (m <=? 1) && (0 <=? e) && (e <? 4)
          | Some _ => true | None => false end = true) as Hs.
  { apply (byte_forall (fun b => match parse_pcb b with
          | Some (PI n _ m) => (0 <=? n) && (n <=? 1) && (0 <=? m) && (m <=? 1)
          | Some (PR m e) => (0 <=? m) && (m <=? 1) && (0 <=? e) && (e <? 4)
          | Some _ => true | None => false end)); [vm_compute; reflexivity|done]. }
  destruct (parse_pcb b) as [p|]; [|done]. exists p. split; [done|].
  unfold bit. destruct p; lia.
Qed.

(** Control bytes round-trip.  Every I-, R- and S-block control byte the
    endpoint builds parses back to the block it stands for, and no byte is
    left unparsed. *)
Theorem pcb_roundtrip :
  (forall n m more, bit n -> bit m -> parse_pcb (i_pcb n more m) = Some (PI n more m)) /\
  (forall m e, bit m -> 0 <= e < 4 -> parse_pcb (r_pcb m e) = Some (PR m e)) /\
  (forall k resp, parse_pcb (s_pcb k resp) = Some (PS k resp)) /\
  (forall b, u8 b -> is_Some (parse_pcb b)).
Proof.
  split_and!; auto using parse_i_pcb, parse_r_pcb, parse_s_pcb.
  intros b Hb. destruct (parse_pcb_total b Hb) as (p & -> & _). by eexists.
Qed.

Lemma u8_i_pcb n more m : u8 (i_pcb n more m).
Proof.
  unfold i_pcb. apply u8_lor; [apply u8_lor|]; auto with bytes.
  by destruct more.
Qed.
Lemma u8_r_pcb m e : u8 e -> u8 (r_pcb m e).
Proof. intros. unfold r_pcb. apply u8_lor; [apply u8_lor|]; auto with bytes. Qed.
Lemma u8_s_pcb k r : u8 (s_pcb k r).
Proof. by destruct k, r. Qed.
#[export] Hint Resolve u8_i_pcb u8_r_pcb u8_s_pcb : bytes.

(** ** Blocks *)

(** A well-formed block: NAD 0, a control byte, the length of at most 254
    information bytes, these, and the XOR of everything before. *)
Definition mk_block (pcb : Z) (inf : list Z) : list Z :=
  let body := 0x00 :: pcb :: Z.of_nat (length inf) :: inf in body ++ [xor_all body].

Definition wf_block (b : list Z) : Prop :=
  exists pcb inf, b = mk_block pcb inf /\ u8 pcb /\ bytes inf /\ (length inf <= 254)%nat.

Lemma block_spec pcb inf : (length inf <= 254)%nat -> block pcb inf = mk_block pcb inf.
Proof.
  intros H. unfold block, BLOCK_CAP.
  rewrite (vec_extend_fits _ []) by (simpl; lia).
  rewrite vec_extend_fits by (simpl; lia). rewrite vec_push_fits by (simpl; lia).
  unfold mk_block, wrap8. rewrite Z.mod_small by lia. done.
Qed.

Lemma wf_block_block pcb inf :
  u8 pcb -> bytes inf -> (length inf <= 254)%nat -> wf_block (block pcb inf).
Proof. intros. exists pcb, inf. by rewrite block_spec. Qed.

Lemma wf_block_props b : wf_block b ->
  bytes b /\ xor_all b = 0 /\ (4 <= length b <= 258)%nat.
Proof.
  intros (pcb & inf & -> & Hp & Hi & Hl). unfold mk_block.
  assert (bytes (0 :: pcb :: Z.of_nat (length inf) :: inf)) as Hb.
  { repeat (apply Forall_cons; split; [done || (unfold u8; lia)|]). done. }
  split_and!.
  - apply bytes_snoc; auto with bytes.
  - apply xor_all_self.
  - rewrite length_app. simpl. lia.
  - rewrite length_app. simpl. lia.
Qed.

(** ** The state invariant *)
Definition t1_inv (t : T1Endpoint) : Prop :=
  bit (ns t) /\ bit (host_ns t) /\ 0 <= send_ifsc t <= 254 /\ 16 <= host_ifsd t <= 254 /\
  bytes (recv_chain t) /\ (length (recv_chain t) <= MAX_RELAY)%nat /\
  bytes (send_chain t) /\ (length (send_chain t) <= MAX_RELAY)%nat /\
  (forall b, last_sent t = Some b -> wf_block b) /\
  (forall b, retry_first_frame t = Some b -> wf_block b).

Lemma new_inv : t1_inv new.
Proof. unfold t1_inv, bit. simpl. split_and!; try done; (by left) || lia || constructor. Qed.

Lemma bad_block_wf t : exists b, bad_block t = Immediate b /\ wf_block b.
Proof.
  eexists. split; [reflexivity|].
  apply wf_block_block; [by apply u8_r_pcb|constructor|simpl; lia].
Qed.

(** The next block of the outgoing chain, when there is one. *)
Definition chunk (t : T1Endpoint) : nat := Z.to_nat (send_ifsc t) `min` length (send_chain t).
Definition more (t : T1Endpoint) : bool := (chunk t <? length (send_chain t))%nat.
Definition next_block (t : T1Endpoint) : list Z :=
  mk_block (i_pcb (ns t) (more t) (host_ns t)) (take (chunk t) (send_chain t)).
Definition after_block (t : T1Endpoint) : T1Endpoint :=
  let t' := with_send_chain (drop (chunk t) (send_chain t)) t in
  with_last_sent (next_block t) (if more t then t' else with_ns (Z.lxor (ns t) 1) t').

Lemma take_next_spec t : t1_inv t ->
  take_next_chain_block t =
  Ret (if decide (send_chain t = []) then (t, None)
       else (after_block t, Some (next_block t))).
Proof.
  intros (_ & _ & Hi & _ & _ & _ & _ & Hs & _). unfold take_next_chain_block.
  case_decide as E; [by rewrite E|].
  destruct (send_chain t) as [|x l] eqn:El; [done|]. rewrite <- El in *. clear E.
  fold (chunk t). fold (more t).
  assert (chunk t <= length (send_chain t))%nat as Hc by (unfold chunk; lia).
  rewrite slice_prefix by done. rewrite bind_ret.
  rewrite vec_extend_fits by (simpl; rewrite length_take; lia).
  rewrite block_spec by (rewrite app_nil_l, length_take; unfold chunk; lia).
  unfold after_block, next_block. by destruct (more t).
Qed.

Lemma next_block_wf t : t1_inv t -> wf_block (next_block t).
Proof.
  intros (_ & _ & Hi & _ & _ & _ & Hb & Hs & _).
  exists (i_pcb (ns t) (more t) (host_ns t)), (take (chunk t) (send_chain t)).
  split_and!; auto with bytes. rewrite length_take. unfold chunk. lia.
Qed.

(** The invariant of an updated endpoint, field by field. *)
Ltac t1_inv_solve :=
  unfold t1_inv; simpl; split_and!; try done; auto with ccid bytes;
  try (by left); try (unfold MAX_RELAY in *; lia);
  try (intros ? [= <-]; auto with bytes; fail).

Lemma after_block_inv t : t1_inv t -> t1_inv (after_block t).
Proof.
  intros Hinv. pose proof (next_block_wf t Hinv) as Hwf.
  destruct Hinv as (Hn & Hh & Hi & Hd & Hr & Hrl & Hb & Hs & Hl & Hf).
  assert (length (drop (chunk t) (send_chain t)) <= MAX_RELAY)%nat
    by (rewrite length_drop; lia).
  unfold after_block. destruct (more t); t1_inv_solve.
Qed.

(** ** No step panics and every answer is a block or an APDU *)
Definition wf_result (r : FeedResult) : Prop :=
  match r with
  | Immediate b => wf_block b
  | Apdu a => bytes a /\ (length a <= MAX_RELAY)%nat
  end.

Lemma bad_block_ok t : wf_result (bad_block t).
Proof. apply wf_block_block; [by apply u8_r_pcb|constructor|simpl; lia]. Qed.

Lemma resend_last_ok t : t1_inv t -> wf_result (resend_last t).
Proof.
  intros (_ & _ & _ & _ & _ & _ & _ & _ & Hl & _). unfold resend_last.
  destruct (last_sent t) as [b|] eqn:E; [by apply Hl|apply bad_block_ok].
Qed.

Lemma r_ack_ok n : wf_block (block (r_pcb n 0) []).
Proof. apply wf_block_block; [by apply u8_r_pcb|constructor|simpl; lia]. Qed.
#[export] Hint Resolve bad_block_ok resend_last_ok r_ack_ok : ccid.

Lemma on_s_request_ok k inf t :
  t1_inv t -> bytes inf -> (length inf <= 254)%nat ->
  t1_inv (on_s_request k inf t).1 /\ wf_result (on_s_request k inf t).2.
Proof.
  intros (Hn & Hh & Hi & Hd & Hr & Hrl & Hb & Hs & Hl & Hf) Hinf Hlen.
  assert (forall k, wf_block (block (s_pcb k true) inf)) as Hblk
    by (intros; apply wf_block_block; auto with bytes).
  assert (wf_block (block (s_pcb Resync true) [])) as Hres
    by (apply wf_block_block; [done|constructor|simpl; lia]).
  assert (bytes []) by constructor.
  destruct k; (split; [|simpl; auto]); simpl; t1_inv_solve.
  all: unfold MAX_IFSC; destruct Hinf as [|x l Hx]; unfold u8 in *; lia.
Qed.

Lemma with_wtx_inv v t : t1_inv t -> t1_inv (with_wtx_pending v t).
Proof. intros (? & ? & ? & ? & ? & ? & ? & ? & ? & ?). t1_inv_solve. Qed.
#[export] Hint Resolve with_wtx_inv : ccid.

Lemma on_s_response_ok k t : t1_inv t ->
  exists t' r, on_s_response k t = Ret (t', r) /\ t1_inv t' /\ wf_result r.
Proof.
  intros Hinv. unfold on_s_response. destruct (_ && _).
  - assert (t1_inv (with_wtx_pending false t)) as Hinv'
      by (destruct Hinv as (? & ? & ? & ? & ? & ? & ? & ? & ? & ?); t1_inv_solve).
    set (t1 := with_wtx_pending false t) in *. clearbody t1.
    rewrite take_next_spec by done. rewrite bind_ret.
    case_decide; cbn [fst snd]; eexists _, _; (split; [reflexivity|]).
    + auto with ccid.
    + pose proof (next_block_wf _ Hinv') as Hwf.
      destruct (after_block_inv _ Hinv') as (? & ? & ? & ? & ? & ? & ? & ? & ? & ?).
      set (b := next_block t1) in *. clearbody b. set (t2 := after_block t1) in *.
      clearbody t2. split; [t1_inv_solve|done].
  - eexists _, _. split; [reflexivity|]. auto with ccid.
Qed.

Lemma on_r_block_ok t : t1_inv t ->
  exists t' r, on_r_block t = Ret (t', r) /\ t1_inv t' /\ wf_result r.
Proof.
  intros Hinv. unfold on_r_block.
  destruct (if wtx_pending t then last_sent t else None) as [last|] eqn:E.
  - eexists _, _. split; [reflexivity|]. split; [done|].
    destruct (wtx_pending t); [|done].
    destruct Hinv as (_ & _ & _ & _ & _ & _ & _ & _ & Hl & _). by apply Hl.
  - rewrite take_next_spec by done. rewrite bind_ret.
    case_decide; cbn [fst snd]; eexists _, _; (split; [reflexivity|]); [auto with ccid|].
    split; [by apply after_block_inv|by apply next_block_wf].
Qed.

Lemma on_i_block_ok n m inf t : t1_inv t -> bytes inf ->
  t1_inv (on_i_block n m inf t).1 /\ wf_result (on_i_block n m inf t).2.
Proof.
  intros Hinv Hinf. pose proof Hinv as (Hn & Hh & Hi & Hd & Hr & Hrl & Hb & Hs & Hl & Hf).
  unfold on_i_block. destruct (negb (n =? host_ns t)).
  { case_bool_decide; [|simpl; auto with ccid]. destruct m; [simpl; auto with ccid|].
    destruct (retry_first_frame t) eqn:E; simpl; auto with ccid. }
  destruct (host_ifsd t <? _); [split; [done|apply bad_block_ok]|].
  destruct (MAX_RELAY <? length (recv_chain t) + length inf)%nat eqn:El; [split; [done|apply bad_block_ok]|].
  rewrite vec_extend_fits by lia.
  assert (bytes (recv_chain t ++ inf)) by (by apply bytes_app).
  assert (length (recv_chain t ++ inf) <= MAX_RELAY)%nat by (rewrite length_app; lia).
  assert (bytes []) by constructor.
  destruct m; simpl; (split; [t1_inv_solve|]); auto with ccid.
Qed.

Lemma index_bytes bs i : bytes bs -> (i < length bs)%nat ->
  exists b, index bs i = Ret b /\ u8 b /\ bs !! i = Some b.
Proof.
  intros Hb Hi. destruct (lookup_lt_is_Some_2 bs i Hi) as [b Hx].
  exists b. unfold index. rewrite Hx. split_and!; try done. by eapply Forall_lookup_1.
Qed.

Lemma feed_ok bs t : t1_inv t -> bytes bs ->
  exists t' r, feed bs t = Ret (t', r) /\ t1_inv t' /\ wf_result r.
Proof.
  intros Hinv Hbs. unfold feed.
  destruct (length bs <? 4)%nat eqn:E4; [eexists _, _; split; [reflexivity|]; auto with ccid|].
  destruct (index_bytes bs 1) as (pcb & -> & Hpcb & _); [done|lia|]. rewrite bind_ret.
  destruct (index_bytes bs 2) as (len & -> & Hlen & _); [done|lia|]. rewrite bind_ret.
  unfold u8 in Hlen.
  destruct (_ || _) eqn:El; [eexists _, _; split; [reflexivity|]; auto with ccid|].
  rewrite slice_prefix by lia. rewrite bind_ret.
  destruct (index_bytes bs (3 + Z.to_nat len)) as (check & -> & _ & _); [done|lia|].
  rewrite bind_ret.
  destruct (negb (lrc _ =? _)); [eexists _, _; split; [reflexivity|]; auto with ccid|].
  rewrite slice_ok by lia. rewrite bind_ret.
  set (inf := take _ _). assert (bytes inf) as Hinf by (unfold inf; auto with bytes).
  assert (length inf <= 254)%nat as Hinfl
    by (unfold inf, MAX_IFSC in *; rewrite length_take; lia).
  destruct (parse_pcb_total pcb Hpcb) as (p & -> & _).
  destruct p as [n m nr|m e|k []].
  - destruct (on_i_block_ok n m inf t Hinv Hinf). eexists _, _.
    split; [by rewrite <- surjective_pairing|done].
  - by apply on_r_block_ok.
  - by apply on_s_response_ok.
  - destruct (on_s_request_ok k inf t Hinv Hinf Hinfl). eexists _, _.
    split; [by rewrite <- surjective_pairing|done].
Qed.

(** ** The card's answer *)

Lemma t1_bwt_pos b baud : 8 <= baud -> 0 < t1_bwt_ms b baud.
Proof.
  intros Hbaud. unfold t1_bwt_ms. replace (baud =? 0) with false by lia.
  rewrite land15. pose proof (shiftl1_range (b mod 16) ltac:(apply Z.mod_pos_bound; lia)) as H.
  match goal with |- context [div_ceil ?x baud] => pose proof (div_ceil_spec x baud) end.
  unfold u32_max. nia.
Qed.

Definition staged (rsp : list Z) (t : T1Endpoint) : T1Endpoint :=
  with_send_chain (take MAX_RELAY rsp) t.
Definition bwt (t : T1Endpoint) : Z := t1_bwt_ms (host_bwi t) HOST_DEFAULT_BAUD.
Definition need (took_ms : Z) : Z := wrapping_add32 took_ms WTX_TURNAROUND_MS.
Definition wtx_m (t : T1Endpoint) (took_ms : Z) : Z := clamp (div_ceil (need took_ms) (bwt t)) 2 59.
Definition wtx_request (t : T1Endpoint) (took_ms : Z) : list Z :=
  mk_block (s_pcb Wtx false) [wtx_m t took_ms].
(** The first block of an answer: the empty final block for an empty one. *)
Definition empty_block (t : T1Endpoint) : list Z := mk_block (i_pcb (ns t) false (host_ns t)) [].

Lemma wtx_m_range t took : 2 <= wtx_m t took <= 59.
Proof. unfold wtx_m, clamp. lia. Qed.

Lemma staged_inv rsp t : t1_inv t -> bytes rsp -> t1_inv (staged rsp t).
Proof.
  intros (Hn & Hh & Hi & Hd & Hr & Hrl & Hb & Hs & Hl & Hf) Hrsp.
  assert (length (take MAX_RELAY rsp) <= MAX_RELAY)%nat by (rewrite length_take; lia).
  unfold staged. assert (bytes (take MAX_RELAY rsp)) by auto with bytes.
  set (l := take MAX_RELAY rsp) in *. clearbody l. t1_inv_solve.
Qed.

Lemma wtx_request_wf t took : wf_block (wtx_request t took).
Proof.
  pose proof (wtx_m_range t took). eexists _, _. split; [reflexivity|].
  split_and!; [done| |simpl; lia]. apply Forall_singleton. unfold u8. lia.
Qed.

Lemma empty_block_wf t : wf_block (empty_block t).
Proof. eexists _, _. split; [reflexivity|]. split_and!; [auto with bytes|constructor|simpl; lia]. Qed.

(** [card_response] on every branch. *)
Lemma card_response_spec rsp took t : t1_inv t -> bytes rsp ->
  card_response rsp took t = Ret (
    let t0 := staged rsp t in
    if bwt t <? need took then
      (cache_retry_answer (wtx_request t took)
         (with_last_sent (wtx_request t took) (with_wtx_pending true t0)),
       wtx_request t took)
    else if decide (rsp = []) then
      (cache_retry_answer (empty_block t)
         (with_last_sent (empty_block t) (with_ns (Z.lxor (ns t) 1) t0)), empty_block t)
    else (cache_retry_answer (next_block t0) (after_block t0), next_block t0)).
Proof.
  intros Hinv Hrsp. unfold card_response.
  rewrite slice_prefix by lia. rewrite bind_ret.
  rewrite vec_extend_fits by (simpl; rewrite length_take; lia). cbn [app].
  assert (take (length rsp `min` MAX_RELAY) rsp = take MAX_RELAY rsp) as ->.
  { destruct (Nat.le_ge_cases (length rsp) MAX_RELAY).
    - rewrite Nat.min_l, firstn_all, take_ge by done. done.
    - by rewrite Nat.min_r. }
  fold (staged rsp t). set (t0 := staged rsp t). cbv zeta.
  change (t1_bwt_ms (host_bwi t0) HOST_DEFAULT_BAUD) with (bwt t). fold (need took).
  destruct (bwt t <? need took).
  - fold (wtx_m t took). pose proof (wtx_m_range t took).
    unfold wrap8. rewrite Z.mod_small by lia. by rewrite block_spec by (simpl; lia).
  - rewrite take_next_spec by (by apply staged_inv). rewrite bind_ret.
    assert (send_chain t0 = [] <-> rsp = []) as Hnil.
    { unfold t0, staged. simpl. destruct rsp; [done|]. split; [|done].
      discriminate. }
    destruct (decide (rsp = [])) as [E|E].
    + rewrite decide_True by tauto. cbn [fst snd]. unfold final_empty_block.
      by rewrite block_spec by (simpl; lia).
    + by rewrite decide_False by tauto.
Qed.

Lemma card_response_ok rsp took t : t1_inv t -> bytes rsp ->
  exists t' b, card_response rsp took t = Ret (t', b) /\ t1_inv t' /\ wf_block b.
Proof.
  intros Hinv Hrsp. rewrite card_response_spec by done. cbv zeta.
  pose proof (staged_inv rsp t Hinv Hrsp) as Hst.
  pose proof (wtx_request_wf t took) as Hw. pose proof (empty_block_wf t) as He.
  pose proof (next_block_wf _ Hst) as Hnb. pose proof (after_block_inv _ Hst) as Hab.
  set (w := wtx_request t took) in *. set (e := empty_block t) in *.
  set (n := next_block (staged rsp t)) in *. set (a := after_block (staged rsp t)) in *.
  set (s := staged rsp t) in *. clearbody w e n a.
  assert (ns t = ns s) as -> by done. clearbody s.
  destruct Hst as (? & ? & ? & ? & ? & ? & ? & ? & ? & ?).
  destruct Hab as (? & ? & ? & ? & ? & ? & ? & ? & ? & ?).
  destruct (bwt t <? need took); [|case_decide]; eexists _, _;
    (split; [reflexivity|]); (split; [|done]); t1_inv_solve.
Qed.

(** ** Property: safety *)
Inductive t1_op := OFeed (bs : list Z) | OCard (rsp : list Z) (took_ms : Z)
                 | OTiming (bwi ifsc : Z) | OReset.

Definition t1_op_ok (o : t1_op) : Prop :=
  match o with OFeed bs => bytes bs | OCard rsp _ => bytes rsp | _ => True end.

(** One call on the endpoint and what it hands back. *)
Definition t1_step (t : T1Endpoint) (o : t1_op) : outcome (T1Endpoint * option FeedResult) :=
  match o with
  | OFeed bs => r ← feed bs t; Ret (r.1, Some r.2)
  | OCard rsp took => r ← card_response rsp took t; Ret (r.1, Some (Immediate r.2))
  | OTiming bwi ifsc => Ret (set_host_timing bwi ifsc t, None)
  | OReset => Ret (reset t, None)
  end.

Lemma set_host_timing_inv bwi ifsc t : t1_inv t -> t1_inv (set_host_timing bwi ifsc t).
Proof.
  intros (? & ? & ? & ? & ? & ? & ? & ? & ? & ?).
  t1_inv_solve; unfold clamp, MAX_IFSC; lia.
Qed.

(** The endpoint is safe.  For every sequence of host blocks (any bytes),
    card answers, timing updates and resets, no call panics; everything sent
    to the host is a well-formed block (NAD 0, LEN = |INF| <= 254, LRC right);
    every APDU handed to the card has at most 512 bytes; and the sequence bits
    stay bits, the buffers within 512 bytes, the IFSC at most 254 and the IFSD
    between 16 and 254. *)
Theorem t1_endpoint_safe ops :
  Forall t1_op_ok ops ->
  exists t answers, run t1_step new ops = Ret (t, answers) /\
    t1_inv t /\ Forall (fun a => match a with Some r => wf_result r | None => True end) answers.
Proof.
  apply (run_safe t1_step t1_inv t1_op_ok); [|apply new_inv].
  intros t [bs|rsp took|bwi ifsc|] Hinv Hok; cbn [t1_step].
  - destruct (feed_ok bs t Hinv Hok) as (t' & r & -> & ? & ?). by eexists _, _.
  - destruct (card_response_ok rsp took t Hinv Hok) as (t' & b & -> & ? & ?).
    by eexists _, _.
  - eexists _, _. split; [reflexivity|]. split; [by apply set_host_timing_inv|done].
  - eexists _, _. split; [reflexivity|]. split; [apply new_inv|done].
Qed.

Example t1_endpoint_safe_witness :
  let ops := [OFeed [0; 0xC1; 1; 0xFE; 0x3E]; OFeed [0; 0; 0xFF]; OCard [0x90; 0x00] 5000] in
  exists t answers, run t1_step new ops = Ret (t, answers) /\
    t1_inv t /\ Forall (fun a => match a with Some r => wf_result r | None => True end) answers.
Proof.
  intros ops. refine (t1_endpoint_safe ops _).
  repeat (apply Forall_cons; split; [solve_bytes|]); constructor.
Defined.

(** ** Host blocks

    A received block, with any node address. *)
Definition host_block (nad pcb : Z) (inf : list Z) : list Z :=
  let body := nad :: pcb :: Z.of_nat (length inf) :: inf in body ++ [xor_all body].

(** What a parsed block does to the endpoint. *)
Definition dispatch (p : Pcb) (inf : list Z) (t : T1Endpoint) : outcome (T1Endpoint * FeedResult) :=
  match p with
  | PS kind true => on_s_response kind t
  | PS kind false => Ret (on_s_request kind inf t)
  | PR _ _ => on_r_block t
  | PI bns more _ => Ret (on_i_block bns more inf t)
  end.

Lemma feed_host_block nad pcb inf p t :
  (length inf <= 254)%nat -> parse_pcb pcb = Some p ->
  feed (host_block nad pcb inf) t = dispatch p inf t.
Proof.
  intros Hl Hp. unfold feed, host_block.
  set (body := nad :: pcb :: Z.of_nat (length inf) :: inf).
  assert (length body = 3 + length inf)%nat as Hb by done.
  rewrite length_app, Hb. change (length [xor_all body]) with 1%nat.
  replace (3 + length inf + 1 <? 4)%nat with false by lia.
  assert (index (body ++ [xor_all body]) 1 = Ret pcb) as -> by done.
  assert (index (body ++ [xor_all body]) 2 = Ret (Z.of_nat (length inf))) as -> by done.
  rewrite !bind_ret, Nat2Z.id, Nat.eqb_refl.
  replace (MAX_IFSC <? Z.of_nat (length inf)) with false by (unfold MAX_IFSC; lia).
  cbn [negb orb]. rewrite slice_app by done. rewrite bind_ret.
  assert (index (body ++ [xor_all body]) (3 + length inf) = Ret (xor_all body)) as ->.
  { apply index_ok. by rewrite lookup_app_r, Hb, Nat.sub_diag by lia. }
  rewrite bind_ret. change (lrc body) with (xor_all body). rewrite Z.eqb_refl. cbn [negb].
  rewrite slice_ok by (rewrite ?length_app, ?Hb; simpl; lia). rewrite bind_ret.
  assert (take (3 + length inf - 3) (drop 3 (body ++ [xor_all body])) = inf) as ->.
  { unfold body. cbn [app drop]. replace (3 + length inf - 3)%nat with (length inf) by lia.
    apply take_app_length. }
  rewrite Hp. by destruct p as [| |k []].
Qed.

(** A received byte string is a block or is answered with R(N(R),1). *)
Lemma feed_cases bs : bytes bs ->
  (exists nad pcb inf p, bs = host_block nad pcb inf /\ (length inf <= 254)%nat /\
     u8 pcb /\ bytes inf /\ parse_pcb pcb = Some p) \/
  (forall t, feed bs t = Ret (t, bad_block t)) /\
  ~ (exists nad pcb inf, (length inf <= 254)%nat /\ bs = host_block nad pcb inf).
Proof.
  intros Hb. destruct bs as [|nad [|pcb [|len [|x tl]]]];
    try (right; split; [done|intros (? & ? & inf & _ & E); unfold host_block in E;
      apply (f_equal length) in E; rewrite length_app in E; simpl in E; lia]).
  assert (exists inf check, x :: tl = inf ++ [check]) as (inf & check & E).
  { destruct (exists_last (l := x :: tl)) as (inf & check & E); [done|]. by exists inf, check. }
  rewrite E in *. unfold bytes in Hb. rewrite !Forall_cons, Forall_app, Forall_singleton in Hb.
  destruct Hb as (Hnad & Hpcb & Hlen & Hinf & Hcheck). unfold u8 in Hlen.
  set (body := nad :: pcb :: len :: inf).
  destruct (decide (len = Z.of_nat (length inf) /\ len <= 254 /\ check = xor_all body))
    as [(E1 & E2 & E3)|Hbad].
  - left. destruct (parse_pcb_total pcb Hpcb) as (p & Ep & _).
    exists nad, pcb, inf, p. split_and!; try done; [|lia].
    unfold host_block. rewrite <- E1. fold body. by rewrite <- E3.
  - right. split.
    + intros t. unfold feed. fold body.
      change (nad :: pcb :: len :: inf ++ [check]) with (body ++ [check]).
      assert (length body = 3 + length inf)%nat as Hbl by done.
      rewrite length_app, Hbl. change (length [check]) with 1%nat.
      replace (3 + length inf + 1 <? 4)%nat with false by lia.
      assert (index (body ++ [check]) 1 = Ret pcb) as -> by done.
      assert (index (body ++ [check]) 2 = Ret len) as -> by done.
      rewrite !bind_ret. unfold MAX_IFSC.
      destruct (negb (3 + length inf + 1 =? 3 + Z.to_nat len + 1)%nat || (254 <? len)) eqn:Eg;
        [done|].
      assert (len = Z.of_nat (length inf)) as El by lia.
      rewrite slice_app by lia. rewrite bind_ret.
      rewrite (index_ok _ _ check) by
        (rewrite lookup_app_r, Hbl by lia;
         replace (3 + Z.to_nat len - (3 + length inf))%nat with 0%nat by lia; done).
      rewrite bind_ret. change (lrc body) with (xor_all body).
      replace (xor_all body =? check) with false by (symmetry; apply Z.eqb_neq; naive_solver lia).
      done.
    + intros (n & p & i & Hi & Eq). unfold host_block in Eq. cbn [app] in Eq.
      injection Eq as -> -> -> Eq. apply app_inj_tail in Eq as [<- ->].
      apply Hbad. split_and!; try done. lia.
Qed.

(** Garbage changes nothing.  A byte string that is not a T=1 block (too
    short, LEN not the length of INF, LEN above 254 or a wrong LRC) leaves the
    endpoint as it is and is answered with R(N(R), 1), whatever the state. *)
Theorem feed_rejects_malformed bs t :
  bytes bs -> bit (host_ns t) ->
  ~ (exists nad pcb inf, (length inf <= 254)%nat /\ bs = host_block nad pcb inf) ->
  exists answer, feed bs t = Ret (t, Immediate answer) /\
    parse_pcb (nth 1 answer 0) = Some (PR (host_ns t) 1) /\ length answer = 4%nat.
Proof.
  intros Hb Hbit Hno. destruct (feed_cases bs Hb) as [(nad & pcb & inf & p & E & Hl & _)|[H _]].
  - exfalso. apply Hno. by exists nad, pcb, inf.
  - eexists. split; [apply H|]. rewrite block_spec by (simpl; lia).
    split; [|done]. by apply parse_r_pcb.
Qed.

(** A corrupted LRC. *)
Example feed_rejects_malformed_witness :
  exists answer, feed [0; 0; 1; 0xAA; 0xAC] new = Ret (new, Immediate answer) /\
    parse_pcb (nth 1 answer 0) = Some (PR 0 1) /\ length answer = 4%nat.
Proof.
  refine (feed_rejects_malformed [0; 0; 1; 0xAA; 0xAC] new _ _ _); [solve_bytes|by left|].
  intros (nad & pcb & inf & Hl & E).
  unfold host_block in E. cbn [app] in E. injection E as <- <- El E.
  destruct inf as [|x [|? ?]]; [discriminate El| |simpl in El; lia].
  injection E as <- E. discriminate E.
Defined.

(** ** Chains

    The blocks of a chain with N(S) [n] and N(R) [nr]: M set on all but the
    last. *)
Fixpoint chain_blocks (n nr : Z) (pieces : list (list Z)) : list (list Z) :=
  match pieces with
  | [] => []
  | [p] => [mk_block (i_pcb n false nr) p]
  | p :: ps => mk_block (i_pcb n true nr) p :: chain_blocks n nr ps
  end.

(** Feeding a list of blocks. *)
Definition feeds (t : T1Endpoint) (bs : list (list Z)) :=
  run (fun t b => feed b t) t bs.

Lemma feed_i_block t n nr m inf :
  bit n -> bit nr -> (length inf <= 254)%nat ->
  feed (mk_block (i_pcb n m nr) inf) t = Ret (on_i_block n m inf t).
Proof.
  intros Hn Hnr Hl. rewrite (feed_host_block 0 _ _ (PI n m nr)); [done|done|].
  by apply parse_i_pcb.
Qed.

Lemma feed_r_block t m e : bit m -> 0 <= e < 4 ->
  feed (mk_block (r_pcb m e) []) t = on_r_block t.
Proof.
  intros Hm He. rewrite (feed_host_block 0 _ _ (PR m e)); [done|simpl; lia|].
  by apply parse_r_pcb.
Qed.

(** An accepted piece. *)
Lemma on_i_block_accept t m inf :
  (Z.of_nat (length inf) <= host_ifsd t) ->
  (length (recv_chain t) + length inf <= MAX_RELAY)%nat ->
  on_i_block (host_ns t) m inf t =
  if m then (with_recv_chain (recv_chain t ++ inf) t,
             Immediate (mk_block (r_pcb (host_ns t) 0) []))
  else (with_recv_chain [] (with_host_ns (Z.lxor (host_ns t) 1) t),
        Apdu (recv_chain t ++ inf)).
Proof.
  intros H1 H2. unfold on_i_block. rewrite Z.eqb_refl. cbn [negb].
  replace (host_ifsd t <? Z.of_nat (length inf)) with false by lia.
  replace (MAX_RELAY <? length (recv_chain t) + length inf)%nat with false by lia.
  rewrite vec_extend_fits by done. rewrite block_spec by (simpl; lia). by destruct m.
Qed.

Lemma chain_reassembled t nr pieces :
  t1_inv t -> bit nr -> recv_chain t = [] -> pieces <> [] ->
  Forall (fun p => Z.of_nat (length p) <= host_ifsd t) pieces ->
  (length (concat pieces) <= MAX_RELAY)%nat ->
  feeds t (chain_blocks (host_ns t) nr pieces) =
  Ret (with_host_ns (Z.lxor (host_ns t) 1) t,
       replicate (length pieces - 1) (Immediate (mk_block (r_pcb (host_ns t) 0) [])) ++
       [Apdu (concat pieces)]).
Proof.
  intros Hinv Hnr Hrc Hne Hlen Htot.
  assert (forall acc t', t' = with_recv_chain acc t ->
    (length acc + length (concat pieces) <= MAX_RELAY)%nat ->
    feeds t' (chain_blocks (host_ns t) nr pieces) =
    Ret (with_recv_chain [] (with_host_ns (Z.lxor (host_ns t) 1) t),
         replicate (length pieces - 1) (Immediate (mk_block (r_pcb (host_ns t) 0) [])) ++
         [Apdu (acc ++ concat pieces)])) as Hgen.
  { destruct Hinv as (_ & Hh & _ & Hd & _). clear Htot Hrc.
    induction pieces as [|p ps IH]; [done|]. intros acc t' -> Hacc.
    apply Forall_cons in Hlen as [Hp Hps]. cbn [concat] in Hacc |- *.
    rewrite length_app in Hacc.
    assert (length p <= 254)%nat by lia. unfold feeds in *.
    destruct ps as [|p2 ps].
    - cbn [chain_blocks run]. rewrite feed_i_block by done.
      rewrite (on_i_block_accept (with_recv_chain acc t)) by (simpl in *; lia).
      rewrite bind_ret. cbn [run fst snd]. rewrite bind_ret. cbn [fst snd].
      by rewrite app_nil_r.
    - change (chain_blocks (host_ns t) nr (p :: p2 :: ps)) with
        (mk_block (i_pcb (host_ns t) true nr) p :: chain_blocks (host_ns t) nr (p2 :: ps)).
      cbn [run]. rewrite feed_i_block by done.
      rewrite (on_i_block_accept (with_recv_chain acc t)) by (simpl in *; lia).
      rewrite bind_ret. cbn [fst snd].
      rewrite (IH ltac:(done) Hps (acc ++ p)) by (done || (rewrite length_app; lia)).
      rewrite bind_ret. cbn [fst snd length]. by rewrite <- app_assoc, !Nat.sub_succ, !Nat.sub_0_r. }
  rewrite (Hgen [] t); [by destruct t; simpl in *; subst|by destruct t; simpl in *; subst|].
  simpl. lia.
Qed.

(** Chained commands are reassembled.  A host that sends a command of at
    most 512 bytes as a chain of I-blocks carrying the expected N(S), each
    within the IFSD, gets R(N(S), 0) for every block but the last, and the last
    hands the card exactly the concatenation of the pieces; the endpoint then
    expects the other N(S) and nothing else has changed. *)
Theorem t1_chain_reassembled t nr pieces :
  t1_inv t -> bit nr -> recv_chain t = [] -> pieces <> [] ->
  Forall (fun p => Z.of_nat (length p) <= host_ifsd t) pieces ->
  (length (concat pieces) <= MAX_RELAY)%nat ->
  feeds t (chain_blocks (host_ns t) nr pieces) =
  Ret (with_host_ns (Z.lxor (host_ns t) 1) t,
       replicate (length pieces - 1) (Immediate (mk_block (r_pcb (host_ns t) 0) [])) ++
       [Apdu (concat pieces)]).
Proof. apply chain_reassembled. Qed.

(** Two pieces of 32 and 3 bytes. *)
Example t1_chain_reassembled_witness :
  let pieces := [replicate 32 0xAA; [1; 2; 3]] in
  feeds new (chain_blocks 0 0 pieces) =
  Ret (with_host_ns 1 new,
       replicate 1 (Immediate (mk_block (r_pcb 0 0) [])) ++ [Apdu (concat pieces)]).
Proof.
  intros pieces.
  refine (t1_chain_reassembled new 0 pieces new_inv _ eq_refl _ _ _).
  - by left.
  - done.
  - repeat (apply Forall_cons; split; [vm_compute; congruence|]); constructor.
  - vm_compute. lia.
Defined.

(** ** Answers *)

(** The pieces [take_next_chain_block] cuts off, [fuel] at most. *)
Fixpoint cut (fuel ifsc : nat) (l : list Z) : list (list Z) :=
  match fuel with
  | O => []
  | S fuel =>
      if decide (length l <= ifsc)%nat then [l]
      else take ifsc l :: cut fuel ifsc (drop ifsc l)
  end.

Definition pieces_of (ifsc : nat) (l : list Z) : list (list Z) := cut (S (length l)) ifsc l.

Lemma cut_spec fuel ifsc l : (1 <= ifsc)%nat -> (length l < fuel)%nat ->
  concat (cut fuel ifsc l) = l /\ cut fuel ifsc l <> [] /\
  Forall (fun p => length p <= ifsc)%nat (cut fuel ifsc l) /\
  (l <> [] -> Forall (fun p => p <> []) (cut fuel ifsc l)).
Proof.
  intros Hi. revert l. induction fuel as [|fuel IH]; intros l Hl; [lia|].
  cbn [cut]. case_decide as E.
  - cbn [concat]. rewrite app_nil_r. split; [done|split; [done|]].
    split; [by apply Forall_singleton|]. intros H. by apply Forall_singleton.
  - destruct (IH (drop ifsc l)) as (E1 & E2 & E3 & E4); [rewrite length_drop; lia|].
    cbn [concat]. rewrite E1, take_drop. split_and!; try done.
    + constructor; [rewrite length_take; lia|done].
    + intros _. constructor.
      * intros H. apply (f_equal length) in H. rewrite length_take in H. simpl in H. lia.
      * apply E4. intros H. apply (f_equal length) in H. rewrite length_drop in H.
        simpl in H. lia.
Qed.

Lemma cut_fuel f1 f2 ifsc l : (1 <= ifsc)%nat -> (length l < f1)%nat -> (length l < f2)%nat ->
  cut f1 ifsc l = cut f2 ifsc l.
Proof.
  intros Hi. revert f2 l. induction f1 as [|f1 IH]; intros [|f2] l H1 H2; try lia.
  cbn [cut]. case_decide; [done|]. f_equal. apply IH; rewrite length_drop; lia.
Qed.

Lemma pieces_of_more ifsc l : (1 <= ifsc)%nat ->
  pieces_of ifsc l =
  if decide (length l <= ifsc)%nat then [l]
  else take ifsc l :: pieces_of ifsc (drop ifsc l).
Proof.
  intros Hi. unfold pieces_of at 1. cbn [cut]. case_decide; [done|]. f_equal.
  apply cut_fuel; [done|rewrite length_drop; lia|rewrite length_drop; lia].
Qed.

(** Taking block after block sends the pieces of the chain. *)
Lemma take_next_chain t rs : t1_inv t -> 1 <= send_ifsc t -> wtx_pending t = false ->
  send_chain t <> [] ->
  let pieces := pieces_of (Z.to_nat (send_ifsc t)) (send_chain t) in
  Forall (fun r => exists m e, bit m /\ 0 <= e < 4 /\ r = mk_block (r_pcb m e) []) rs ->
  length rs = (length pieces - 1)%nat ->
  exists t' bs,
    feeds (after_block t) rs = Ret (t', map Immediate bs) /\
    next_block t :: bs = chain_blocks (ns t) (host_ns t) pieces /\
    send_chain t' = [] /\ ns t' = Z.lxor (ns t) 1 /\ host_ns t' = host_ns t /\
    retry_ns t' = retry_ns t /\ retry_first_frame t' = retry_first_frame t.
Proof.
  intros Hinv Hi Hw Hne pieces Hrs Hlen. revert t Hinv Hi Hw Hne pieces Hlen.
  induction Hrs as [|r rs (m & e & Hm & He & ->) Hrs IH]; intros t Hinv Hi Hw Hne pieces Hlen;
    unfold pieces in *; rewrite pieces_of_more in * by lia.
  - case_decide as Hd.
    + exists (after_block t), []. unfold feeds. cbn [run map].
      unfold after_block, next_block, more, chunk in *. rewrite Nat.min_r by lia.
      rewrite Nat.ltb_irrefl, take_ge, drop_ge by lia. done.
    + exfalso. destruct (cut_spec (S (length (drop (Z.to_nat (send_ifsc t)) (send_chain t))))
        (Z.to_nat (send_ifsc t)) (drop (Z.to_nat (send_ifsc t)) (send_chain t)))
        as (_ & Hn & _); [lia|lia|]. unfold pieces_of in Hlen.
      destruct (cut _ _ _); [done|]. simpl in Hlen. lia.
  - case_decide as Hd; [simpl in Hlen; lia|].
    assert (chunk t = Z.to_nat (send_ifsc t)) as Hc by (unfold chunk; lia).
    assert (more t = true) as Hmore by (unfold more; lia).
    set (t1 := after_block t).
    assert (send_chain t1 = drop (Z.to_nat (send_ifsc t)) (send_chain t)) as Hs1
      by (unfold t1, after_block; by rewrite Hmore, Hc).
    assert (send_chain t1 <> []) as Hne1.
    { rewrite Hs1. intros H. apply (f_equal length) in H. rewrite length_drop in H.
      simpl in H. lia. }
    assert (t1_inv t1) as Hinv1 by (by apply after_block_inv).
    assert (send_ifsc t1 = send_ifsc t /\ wtx_pending t1 = false /\ ns t1 = ns t /\
      host_ns t1 = host_ns t /\ retry_ns t1 = retry_ns t /\
      retry_first_frame t1 = retry_first_frame t) as (F1 & F2 & F3 & F4 & F5 & F6)
      by (unfold t1, after_block; by rewrite Hmore).
    destruct (IH t1 Hinv1) as (t' & bs & E & Hbs & R1 & R2 & R3 & R4 & R5);
      [by rewrite F1|done|done| |].
    { rewrite F1, Hs1. cbn [length] in Hlen. lia. }
    rewrite F1, F3, F4, Hs1 in Hbs. rewrite F3 in R2. rewrite F4 in R3. rewrite F5 in R4.
    rewrite F6 in R5.
    exists t', (next_block t1 :: bs). unfold feeds in *. cbn [run].
    rewrite feed_r_block by done. unfold on_r_block. rewrite F2.
    rewrite take_next_spec by done. rewrite bind_ret, decide_False by done. cbn [fst snd].
    rewrite bind_ret. cbn [fst snd]. rewrite E, bind_ret.
    split; [done|]. split; [|done]. rewrite Hbs. unfold next_block. rewrite Hmore, Hc.
    unfold pieces_of at 2. cbn [cut]. unfold pieces_of. cbn [cut].
    by case_decide.
Qed.

(** An R-block, any N(R), any error code. *)
Definition r_block (b : list Z) : Prop :=
  exists m e, bit m /\ 0 <= e < 4 /\ b = mk_block (r_pcb m e) [].

Lemma after_block_retry n f t :
  after_block (with_retry n f t) = with_retry n f (after_block t).
Proof.
  unfold after_block. change (more (with_retry n f t)) with (more t).
  by destruct (more t).
Qed.

Lemma host_ns_after_block t : host_ns (after_block t) = host_ns t.
Proof. unfold after_block. by destruct (more t). Qed.

Lemma with_retry_inv n f t : t1_inv t -> wf_block f -> t1_inv (with_retry n (Some f) t).
Proof. intros (? & ? & ? & ? & ? & ? & ? & ? & ? & ?) Hf. t1_inv_solve. Qed.

(** The staged answer with the replay cache armed for it. *)
Definition armed (rsp : list Z) (t : T1Endpoint) : T1Endpoint :=
  with_retry (Some (Z.lxor (host_ns t) 1)) (Some (next_block (staged rsp t))) (staged rsp t).

Lemma armed_inv rsp t : t1_inv t -> bytes rsp -> t1_inv (armed rsp t).
Proof.
  intros Hinv Hb. pose proof (staged_inv rsp t Hinv Hb). apply with_retry_inv; [done|].
  by apply next_block_wf.
Qed.

Lemma card_response_quick rsp took t :
  t1_inv t -> bytes rsp -> need took <= bwt t -> rsp <> [] ->
  card_response rsp took t = Ret (after_block (armed rsp t), next_block (armed rsp t)).
Proof.
  intros Hinv Hb Hn Hne. rewrite card_response_spec by done. cbv zeta.
  replace (bwt t <? need took) with false by lia. rewrite decide_False by done.
  unfold armed. rewrite after_block_retry. unfold cache_retry_answer.
  by rewrite host_ns_after_block.
Qed.

Lemma answer_chained t rsp took rs :
  t1_inv t -> 1 <= send_ifsc t -> wtx_pending t = false ->
  bytes rsp -> (length rsp <= MAX_RELAY)%nat -> need took <= bwt t ->
  let pieces := pieces_of (Z.to_nat (send_ifsc t)) rsp in
  Forall r_block rs -> length rs = (length pieces - 1)%nat ->
  exists t1 first t2 bs,
    card_response rsp took t = Ret (t1, first) /\
    feeds t1 rs = Ret (t2, map Immediate bs) /\
    first :: bs = chain_blocks (ns t) (host_ns t) pieces /\
    concat pieces = rsp /\
    Forall (fun p => Z.of_nat (length p) <= send_ifsc t) pieces /\
    send_chain t2 = [] /\ ns t2 = Z.lxor (ns t) 1.
Proof.
  intros Hinv Hi Hw Hrsp Hl Hneed pieces Hrs Hlen.
  destruct (cut_spec (S (length rsp)) (Z.to_nat (send_ifsc t)) rsp) as (P1 & P2 & P3 & _);
    [lia..|]. fold (pieces_of (Z.to_nat (send_ifsc t)) rsp) in P1, P2, P3.
  fold pieces in P1, P2, P3.
  assert (Forall (fun p => Z.of_nat (length p) <= send_ifsc t) pieces) as P4
    by (eapply Forall_impl; [exact P3|]; simpl; lia).
  subst pieces. destruct (decide (rsp = [])) as [E|E].
  - rewrite card_response_spec by done. cbv zeta.
    replace (bwt t <? need took) with false by lia. rewrite decide_True by done.
    assert (pieces_of (Z.to_nat (send_ifsc t)) rsp = [[]]) as Ep
      by (rewrite pieces_of_more, E, decide_True by (simpl; lia); done).
    rewrite Ep in *. assert (rs = []) as -> by (by apply length_zero_iff_nil).
    eexists _, _, _, []. split; [reflexivity|]. split; [reflexivity|].
    subst rsp. by split_and!.
  - rewrite card_response_quick by done.
    assert (send_chain (armed rsp t) = rsp) as Hs
      by (unfold armed, staged; simpl; by apply take_ge).
    destruct (take_next_chain (armed rsp t) rs) as (t2 & bs & R & Hbs & Hsc & Hns & _);
      [by apply armed_inv|done|done|by rewrite Hs|done|by rewrite Hs|].
    rewrite Hs in Hbs. by eexists _, _, t2, bs.
Qed.

(** Answers are chained.  When the card's answer (at most 512 bytes, quick
    enough to need no waiting-time extension) is staged and the host sends one
    R-block per remaining block, the blocks that go out are exactly the chain
    of the answer cut at the negotiated IFSC: their information fields
    concatenate to the answer, all carry the endpoint's N(S) and N(R), M is set
    on all but the last; afterwards nothing is left to send and N(S) has
    toggled. *)
Theorem t1_answer_chained t rsp took rs :
  t1_inv t -> 1 <= send_ifsc t -> wtx_pending t = false ->
  bytes rsp -> (length rsp <= MAX_RELAY)%nat -> need took <= bwt t ->
  let pieces := pieces_of (Z.to_nat (send_ifsc t)) rsp in
  Forall r_block rs -> length rs = (length pieces - 1)%nat ->
  exists t1 first t2 bs,
    card_response rsp took t = Ret (t1, first) /\
    feeds t1 rs = Ret (t2, map Immediate bs) /\
    first :: bs = chain_blocks (ns t) (host_ns t) pieces /\
    concat pieces = rsp /\
    Forall (fun p => Z.of_nat (length p) <= send_ifsc t) pieces /\
    send_chain t2 = [] /\ ns t2 = Z.lxor (ns t) 1.
Proof. apply answer_chained. Qed.

(** A 40-byte answer in two blocks of 32 and 8 bytes. *)
Example t1_answer_chained_witness :
  let rsp := replicate 40 0x5A in
  let rs := [mk_block (r_pcb 1 0) []] in
  let pieces := pieces_of 32 rsp in
  map length pieces = [32; 8]%nat /\
  exists t1 first t2 bs,
    card_response rsp 20 new = Ret (t1, first) /\
    feeds t1 rs = Ret (t2, map Immediate bs) /\
    first :: bs = chain_blocks 0 0 pieces /\
    concat pieces = rsp /\
    Forall (fun p => Z.of_nat (length p) <= 32) pieces /\
    send_chain t2 = [] /\ ns t2 = Z.lxor 0 1.
Proof.
  intros rsp rs pieces. split; [reflexivity|].
  refine (t1_answer_chained new rsp 20 rs new_inv _ eq_refl _ _ _ _ _).
  - vm_compute. congruence.
  - solve_bytes.
  - vm_compute. lia.
  - vm_compute. congruence.
  - apply Forall_singleton. exists 1, 0. split_and!; [by right|lia|lia|done].
  - reflexivity.
Defined.

(** ** Retransmissions *)

(** A byte string that made the endpoint hand over an APDU is an I-block with
    the expected N(S) and M clear. *)
Lemma feed_apdu_inv bs t t1 a : t1_inv t -> bytes bs -> feed bs t = Ret (t1, Apdu a) ->
  exists inf, t1 = with_recv_chain [] (with_host_ns (Z.lxor (host_ns t) 1) t) /\
    forall t', feed bs t' = Ret (on_i_block (host_ns t) false inf t').
Proof.
  intros Hinv Hbs E. destruct (feed_cases bs Hbs)
    as [(nad & pcb & inf & p & -> & Hl & Hpcb & Hinf & Hp)|[Hbad _]];
    [|by rewrite Hbad in E].
  assert (forall t, feed (host_block nad pcb inf) t = dispatch p inf t) as Hd
    by (intros; by apply feed_host_block).
  rewrite Hd in E. destruct p as [n m nr|m e|k r]; cbn [dispatch] in E.
  - unfold on_i_block in E.
    destruct (n =? host_ns t) eqn:En; cbn [negb] in E;
      [|case_bool_decide; [destruct m; [done|by destruct (retry_first_frame t)]|done]].
    apply Z.eqb_eq in En as ->.
    destruct (_ <? _); [done|].
    destruct (MAX_RELAY <? length (recv_chain t) + length inf)%nat; [done|].
    destruct m; [done|]. injection E as <- _. by exists inf.
  - unfold on_r_block in E. destruct (if wtx_pending t then last_sent t else None); [done|].
    rewrite take_next_spec in E by done. rewrite bind_ret in E.
    case_decide; cbn [fst snd] in E; [|done]. unfold resend_last in E.
    by destruct (last_sent t).
  - assert (forall t, exists b, resend_last t = Immediate b) as Hrl
      by (intros u; unfold resend_last; destruct (last_sent u); by eexists).
    destruct r.
    + unfold on_s_response in E. destruct (_ && _).
      * rewrite take_next_spec in E
          by (destruct Hinv as (? & ? & ? & ? & ? & ? & ? & ? & ? & ?); t1_inv_solve).
        rewrite bind_ret in E. by case_decide.
      * destruct (Hrl t) as [b Hb]. by rewrite Hb in E.
    + by destruct k.
Qed.

(** An R-block keeps the host's N(S) and the replay cache. *)
Lemma r_block_keeps t r t' res : t1_inv t -> r_block r -> feed r t = Ret (t', res) ->
  t1_inv t' /\ host_ns t' = host_ns t /\ retry_ns t' = retry_ns t /\
  retry_first_frame t' = retry_first_frame t.
Proof.
  intros Hinv (m & e & Hm & He & ->). rewrite feed_r_block by done. unfold on_r_block.
  destruct (if wtx_pending t then last_sent t else None) as [l|];
    [intros [= <- _]; done|].
  rewrite take_next_spec by done. rewrite bind_ret.
  case_decide; cbn [fst snd]; intros [= <- _]; [done|].
  split; [by apply after_block_inv|]. unfold after_block. by destruct (more t).
Qed.

Lemma r_blocks_keep rs t t' res : t1_inv t -> Forall r_block rs ->
  feeds t rs = Ret (t', res) ->
  host_ns t' = host_ns t /\ retry_ns t' = retry_ns t /\
  retry_first_frame t' = retry_first_frame t.
Proof.
  unfold feeds. intros Hinv Hrs. revert t res Hinv.
  induction Hrs as [|r rs Hr Hrs IH]; intros t res Hinv; cbn [run].
  - by intros [= <- _].
  - intros E. apply bind_Ret_inv in E as ([t1 r1] & E1 & E).
    apply bind_Ret_inv in E as ([t2 rs2] & E2 & E). cbn [fst snd] in *.
    injection E as -> _.
    destruct (r_block_keeps t r t1 r1 Hinv Hr E1) as (Hi1 & F1 & F2 & F3).
    destruct (IH t1 rs2 Hi1 E2) as (G1 & G2 & G3). by rewrite G1, G2, G3.
Qed.

(** C36: no command is executed twice.  After a block has completed a command
    and the card's answer has been framed, the host may have lost that answer
    and send the same block again, also after any number of R-blocks: the
    endpoint replays the first frame of the answer, hands nothing to the card
    and does not change. *)
Theorem t1_no_double_execution t bs t1 a rsp took t2 first rs t3 res :
  t1_inv t -> bytes bs -> feed bs t = Ret (t1, Apdu a) ->
  bytes rsp -> card_response rsp took t1 = Ret (t2, first) ->
  Forall r_block rs -> feeds t2 rs = Ret (t3, res) ->
  feed bs t3 = Ret (t3, Immediate first).
Proof.
  intros Hinv Hbs Ea Hrsp Ec Hrs Er.
  destruct (feed_apdu_inv bs t t1 a Hinv Hbs Ea) as (inf & Et1 & Hfeed).
  destruct (feed_ok bs t Hinv Hbs) as (t1' & r' & E & Hinv1 & _).
  rewrite Ea in E. injection E as <- _.
  destruct (card_response_ok rsp took t1 Hinv1 Hrsp) as (t2' & b & E & Hinv2 & _).
  rewrite Ec in E. injection E as <- _.
  destruct (r_blocks_keep rs t2 t3 res Hinv2 Hrs Er) as (F1 & F2 & F3).
  assert (bit (host_ns t)) as Hbit by apply Hinv.
  assert (host_ns t2 = Z.lxor (host_ns t) 1 /\ retry_ns t2 = Some (host_ns t) /\
          retry_first_frame t2 = Some first) as (G1 & G2 & G3).
  { assert (host_ns t1 = Z.lxor (host_ns t) 1) as Hh1 by (by rewrite Et1).
    assert (Z.lxor (host_ns t1) 1 = host_ns t) as Hxx
      by (rewrite Hh1, Z.lxor_assoc, Z.lxor_nilpotent; apply Z.lxor_0_r).
    rewrite card_response_spec in Ec by done. cbv zeta in Ec.
    destruct (bwt t1 <? need took); [|case_decide]; injection Ec as <- <-;
      unfold cache_retry_answer; cbn [host_ns retry_ns retry_first_frame with_retry];
      rewrite ?host_ns_after_block; cbn [host_ns staged with_send_chain with_last_sent
        with_wtx_pending with_ns]; by rewrite ?Hxx, ?Hh1. }
  rewrite Hfeed. unfold on_i_block. rewrite F1, G1, F2, G2, F3, G3.
  replace (host_ns t =? Z.lxor (host_ns t) 1) with false by (by destruct Hbit as [-> | ->]).
  cbn [negb]. by rewrite bool_decide_true.
Qed.

Example t1_no_double_execution_witness :
  let cmd := mk_block (i_pcb 0 false 0) [0x00; 0xA4; 0x04; 0x00] in
  let t1 := with_host_ns 1 new in
  let answer := mk_block (i_pcb 0 false 1) [0x90; 0x00] in
  let t2 := with_retry (Some 0) (Some answer) (with_last_sent answer (with_ns 1 t1)) in
  feed cmd t2 = Ret (t2, Immediate answer).
Proof.
  intros cmd t1 answer t2.
  refine (t1_no_double_execution new cmd t1 [0x00; 0xA4; 0x04; 0x00] [0x90; 0x00] 20
    t2 answer [] t2 [] new_inv _ eq_refl _ eq_refl _ eq_refl);
    [solve_bytes|solve_bytes|constructor].
Defined.

(** ** Waiting-time extension *)

(** Slow cards.  When the exchange plus the turnaround margin exceeds the
    host's block waiting time, the endpoint asks for S(WTX request m) with
    2 <= m <= 59, and m block waiting times cover the exchange whenever 59 do;
    once the host grants it, the block that goes out is the one a quick card's
    answer would have produced, and it is what a retransmission then replays. *)
Theorem t1_wtx_deferral t rsp took inf :
  t1_inv t -> bytes rsp -> rsp <> [] -> bytes inf -> (length inf <= 254)%nat ->
  0 <= took -> took + 100 < 4294967296 -> bwt t < took + 100 ->
  exists t1 m,
    card_response rsp took t = Ret (t1, mk_block (s_pcb Wtx false) [m]) /\
    2 <= m <= 59 /\
    (took + 100 <= 59 * bwt t -> took + 100 <= m * bwt t) /\
    exists t2, feed (mk_block (s_pcb Wtx true) inf) t1 =
                 Ret (t2, Immediate (next_block (staged rsp t))) /\
               retry_first_frame t2 = Some (next_block (staged rsp t)) /\
               (need 0 <= bwt t -> exists t3, card_response rsp 0 t =
                   Ret (t3, next_block (staged rsp t)) /\ send_chain t2 = send_chain t3 /\
                   ns t2 = ns t3).
Proof.
  intros Hinv Hrsp Hne Hinf Hl Ht0 Htb Hslow.
  assert (need took = took + 100) as Hneed
    by (unfold need, wrapping_add32, wrap32, WTX_TURNAROUND_MS; rewrite Z.mod_small; lia).
  assert (0 < bwt t) as Hpos by (by apply t1_bwt_pos).
  rewrite card_response_spec by done. cbv zeta. rewrite Hneed.
  replace (bwt t <? took + 100) with true by lia.
  pose proof (staged_inv rsp t Hinv Hrsp) as Hst. set (s := staged rsp t) in *.
  assert (send_chain s <> []) as Hsne by (by destruct rsp).
  eexists _, (wtx_m t took). split; [reflexivity|]. split; [apply wtx_m_range|]. split.
  { unfold wtx_m, clamp. rewrite Hneed.
    pose proof (div_ceil_spec (took + 100) (bwt t) Hpos) as Hd. nia. }
  set (t1 := cache_retry_answer _ _).
  assert (t1_inv t1) as Hinv1.
  { apply with_retry_inv; [|apply wtx_request_wf]. pose proof (wtx_request_wf t took) as Hw.
    set (w := wtx_request t took) in *. clearbody w s.
    destruct Hst as (? & ? & ? & ? & ? & ? & ? & ? & ? & ?). t1_inv_solve. }
  rewrite (feed_host_block 0 _ _ (PS Wtx true)) by (done || apply parse_s_pcb).
  cbn [dispatch]. unfold on_s_response. rewrite bool_decide_true by done.
  change (wtx_pending t1) with true. cbn [andb].
  rewrite take_next_spec by auto with ccid. rewrite bind_ret.
  change (send_chain (with_wtx_pending false t1)) with (send_chain s).
  rewrite decide_False by done. cbn [fst snd].
  change (next_block (with_wtx_pending false t1)) with (next_block s).
  eexists. split; [reflexivity|]. split; [done|].
  intros H0. rewrite card_response_spec by done. cbv zeta.
  replace (bwt t <? need 0) with false by lia. rewrite decide_False by done.
  eexists. split; [reflexivity|]. unfold after_block.
  change (more (with_wtx_pending false t1)) with (more s).
  fold s. destruct (more s); split; reflexivity.
Qed.

(** A 3-second card at BWI 4 (BWT 1430 ms): m = 3. *)
Example t1_wtx_deferral_witness :
  let rsp := [0x90; 0x00] in
  wtx_m new 3000 = 3 /\
  exists t1 m,
    card_response rsp 3000 new = Ret (t1, mk_block (s_pcb Wtx false) [m]) /\
    2 <= m <= 59 /\
    (3000 + 100 <= 59 * bwt new -> 3000 + 100 <= m * bwt new) /\
    exists t2, feed (mk_block (s_pcb Wtx true) [3]) t1 =
                 Ret (t2, Immediate (next_block (staged rsp new))) /\
               retry_first_frame t2 = Some (next_block (staged rsp new)) /\
               (need 0 <= bwt new -> exists t3, card_response rsp 0 new =
                   Ret (t3, next_block (staged rsp new)) /\ send_chain t2 = send_chain t3 /\
                   ns t2 = ns t3).
Proof.
  intros rsp. split; [reflexivity|].
  refine (t1_wtx_deferral new rsp 3000 [3] new_inv _ _ _ _ _ _ _);
    [solve_bytes|done|solve_bytes|simpl; lia|lia|lia|reflexivity].
Defined.

(** ** A host that announces an IFSC of zero *)

(** An S(IFS request 0) is accepted, and from then on every answer is
    stuck: the first block of a nonempty answer is empty with M set, and any
    number of R-blocks yields only further empty blocks, with the whole answer
    still to be sent. *)
Theorem ifs_zero_livelock t rsp took rs :
  t1_inv t -> bytes rsp -> rsp <> [] -> (length rsp <= MAX_RELAY)%nat ->
  need took <= bwt t -> wtx_pending t = false -> Forall r_block rs ->
  exists t0 t1 t2,
    feed (mk_block (s_pcb Ifs false) [0]) t =
      Ret (t0, Immediate (mk_block (s_pcb Ifs true) [0])) /\
    let stuck := mk_block (i_pcb (ns t) true (host_ns t)) [] in
    card_response rsp took t0 = Ret (t1, stuck) /\
    feeds t1 rs = Ret (t2, map (fun _ => Immediate stuck) rs) /\
    send_chain t2 = rsp.
Proof.
  intros Hinv Hrsp Hne Hl Hneed Hw Hrs.
  set (ifs_rsp := mk_block (s_pcb Ifs true) [0]).
  set (t0 := with_last_sent ifs_rsp (with_send_ifsc 0 t)).
  set (stuck := mk_block (i_pcb (ns t) true (host_ns t)) []).
  assert (wf_block ifs_rsp) as Hwf.
  { eexists _, _. split; [reflexivity|]. split_and!; [done| |simpl; lia].
    by apply Forall_singleton. }
  assert (t1_inv t0) as Hinv0.
  { unfold t0. clearbody ifs_rsp.
    destruct Hinv as (? & ? & ? & ? & ? & ? & ? & ? & ? & ?). t1_inv_solve. }
  assert (forall s, ns s = ns t -> host_ns s = host_ns t -> send_ifsc s = 0 ->
    send_chain s = rsp -> next_block s = stuck /\ more s = true) as Hstuck.
  { intros s E1 E2 E3 E4. assert (chunk s = 0%nat) as Hc by (unfold chunk; by rewrite E3).
    assert (more s = true) as Hm.
    { unfold more. rewrite Hc, E4. destruct rsp; [done|]. simpl. lia. }
    split; [|done]. unfold next_block. by rewrite Hm, Hc, E1, E2, take_0. }
  set (P s := t1_inv s /\ wtx_pending s = false /\ ns s = ns t /\ host_ns s = host_ns t /\
              send_ifsc s = 0 /\ send_chain s = rsp).
  assert (forall s, P s -> P (after_block s)) as Hpres.
  { intros s (Hi & H1 & H2 & H3 & H4 & H5). destruct (Hstuck s) as [Hb Hm]; [done..|].
    split; [by apply after_block_inv|]. unfold after_block. rewrite Hm. simpl.
    unfold chunk. by rewrite H4, H5. }
  assert (P (armed rsp t0)) as Ha.
  { split; [by apply armed_inv|]. unfold armed, staged. simpl. split_and!; try done.
    by apply take_ge. }
  exists t0, (after_block (armed rsp t0)).
  assert (forall rs s, Forall r_block rs -> P s -> exists s', P s' /\
    feeds s rs = Ret (s', map (fun _ => Immediate stuck) rs)) as Hrun.
  { clear rs Hrs. intros rs s Hrs. revert s. unfold feeds.
    induction Hrs as [|r rs (m & e & Hm & He & ->) Hrs IH]; intros s Hs; [by exists s|].
    destruct (IH (after_block s) (Hpres s Hs)) as (s' & Hs' & E). exists s'. split; [done|].
    destruct Hs as (Hi & H1 & H2 & H3 & H4 & H5). destruct (Hstuck s) as [Hb Hmore]; [done..|].
    cbn [run map]. rewrite feed_r_block by done. unfold on_r_block. rewrite H1.
    rewrite take_next_spec by done. rewrite bind_ret, decide_False by (by rewrite H5).
    cbn [fst snd]. rewrite bind_ret. cbn [fst snd]. by rewrite E, bind_ret, Hb. }
  destruct (Hrun rs _ Hrs (Hpres _ Ha)) as (t2 & (_ & _ & _ & _ & _ & Hsc) & E).
  exists t2. split.
  - rewrite (feed_host_block 0 _ _ (PS Ifs false)) by (simpl; lia || apply parse_s_pcb).
    cbn [dispatch on_s_request]. by rewrite block_spec by (simpl; lia).
  - cbv zeta. fold stuck. split_and!; [|done|done].
    rewrite card_response_quick by done.
    destruct Ha as (_ & _ & H2 & H3 & H4 & H5).
    by destruct (Hstuck (armed rsp t0) H2 H3 H4 H5) as [-> _].
Qed.

Example ifs_zero_livelock_witness :
  let rs := replicate 50 (mk_block (r_pcb 1 0) []) in
  exists t0 t1 t2,
    feed (mk_block (s_pcb Ifs false) [0]) new =
      Ret (t0, Immediate (mk_block (s_pcb Ifs true) [0])) /\
    let stuck := mk_block (i_pcb 0 true 0) [] in
    card_response [0x90; 0x00] 20 t0 = Ret (t1, stuck) /\
    feeds t1 rs = Ret (t2, map (fun _ => Immediate stuck) rs) /\
    send_chain t2 = [0x90; 0x00].
Proof.
  intros rs. refine (ifs_zero_livelock new [0x90; 0x00] 20 rs new_inv _ _ _ _ eq_refl _).
  - solve_bytes.
  - done.
  - vm_compute. lia.
  - vm_compute. congruence.
  - apply Forall_forall. intros r [-> _]%elem_of_replicate.
    exists 1, 0. split_and!; [by right|lia|lia|done].
Defined.
