(* ===== verification/PpsFsm.v ===== *)
(** * PPS negotiation

    [firmware/ccid-firmware/src/pps_fsm.rs]: the byte-driven machine that
    builds a PPS request and checks the card's response (ISO 7816-3 §9).
    Buffers are six bytes; every access is an indexed one.  [spec_byte] is the
    specification: collect the response announced by PPS0 and compare it with
    the request. *)
From Stdlib Require Import ZArith Lia ZifyBool.
From stdpp Require Import prelude.
From S2P Require Import Prelude.
Local Open Scope Z_scope.

Inductive PpsState :=
| Init | TxRequest | WaitPpsx | WaitPps0 | WaitPps1 | WaitPps2 | WaitPps3 | WaitPck
| Done | Failed.

#[global] Instance PpsState_eq_dec : EqDecision PpsState.
Proof. solve_decision. Defined.

Inductive PpsResult := Success | Mismatch | Timeout | Error.

Definition PPS_MAX_LEN : nat := 6.

Record PpsFsm := mkFsm {
  state : PpsState;
  tx_buf : list Z;
  tx_len : nat;
  rx_buf : list Z;
  rx_len : nat;
  pps0_recv : Z;
  fi : Z;
  di : Z;
  protocol : Z
}.

Definition new : PpsFsm :=
  mkFsm Init (replicate PPS_MAX_LEN 0) 0 (replicate PPS_MAX_LEN 0) 0 0 372 1 0.

Definition with_state (f : PpsFsm) (s : PpsState) : PpsFsm :=
  mkFsm s (tx_buf f) (tx_len f) (rx_buf f) (rx_len f) (pps0_recv f) (fi f) (di f) (protocol f).
Definition with_pps0 (f : PpsFsm) (b : Z) : PpsFsm :=
  mkFsm (state f) (tx_buf f) (tx_len f) (rx_buf f) (rx_len f) b (fi f) (di f) (protocol f).

(** [self.tx_buf[self.tx_len] = b; self.tx_len += 1], and the same for rx. *)
Definition push_tx (f : PpsFsm) (b : Z) : outcome PpsFsm :=
  buf ← store (tx_buf f) (tx_len f) b;
  Ret (mkFsm (state f) buf (S (tx_len f)) (rx_buf f) (rx_len f) (pps0_recv f)
         (fi f) (di f) (protocol f)).
Definition push_rx (f : PpsFsm) (b : Z) : outcome PpsFsm :=
  buf ← store (rx_buf f) (rx_len f) b;
  Ret (mkFsm (state f) (tx_buf f) (tx_len f) buf (S (rx_len f)) (pps0_recv f)
         (fi f) (di f) (protocol f)).

Definition request (f : PpsFsm) : outcome (list Z) := slice (tx_buf f) 0 (tx_len f).

Definition begin_request (f : PpsFsm) (protocol : Z) : PpsFsm :=
  mkFsm (state f) (tx_buf f) 0 (rx_buf f) 0 0 (fi f) (di f) protocol.

Definition build_request (f : PpsFsm) (protocol ta1 : Z) : outcome (PpsFsm * list Z) :=
  f ← push_tx (begin_request f protocol) 0xFF;
  f ← push_tx f (Z.lor 0x10 (Z.land protocol 0x0F));
  f ← push_tx f ta1;
  sent ← slice (tx_buf f) 0 (tx_len f);
  f ← push_tx f (xor_all sent);
  let f := with_state f TxRequest in
  req ← request f;
  Ret (f, req).

Definition build_minimal_request (f : PpsFsm) (protocol : Z) : outcome (PpsFsm * list Z) :=
  f ← push_tx (begin_request f protocol) 0xFF;
  f ← push_tx f (Z.land protocol 0x0F);
  sent ← slice (tx_buf f) 0 (tx_len f);
  f ← push_tx f (xor_all sent);
  let f := with_state f TxRequest in
  req ← request f;
  Ret (f, req).

Definition start_response (f : PpsFsm) : PpsFsm :=
  mkFsm WaitPpsx (tx_buf f) (tx_len f) (rx_buf f) 0 (pps0_recv f) (fi f) (di f) (protocol f).

Definition verify_response (f : PpsFsm) : outcome PpsFsm :=
  if negb (rx_len f =? tx_len f)%nat then Ret (with_state f Failed)
  else
    rx ← slice (rx_buf f) 0 (tx_len f);
    tx ← slice (tx_buf f) 0 (tx_len f);
    Ret (with_state f (if decide (rx = tx) then Done else Failed)).

Definition has (byte mask : Z) : bool := negb (Z.land byte mask =? 0).

Definition process_byte (f : PpsFsm) (byte : Z) : outcome (PpsFsm * PpsState) :=
  f ← match state f with
      | WaitPpsx =>
          if byte =? 0xFF then f ← push_rx f byte; Ret (with_state f WaitPps0)
          else Ret (with_state f Failed)
      | WaitPps0 =>
          f ← push_rx f byte;
          let f := with_pps0 f byte in
          Ret (with_state f (if has byte 0x10 then WaitPps1
                             else if has byte 0x20 then WaitPps2
                             else if has byte 0x40 then WaitPps3 else WaitPck))
      | WaitPps1 =>
          f ← push_rx f byte;
          Ret (with_state f (if has (pps0_recv f) 0x20 then WaitPps2
                             else if has (pps0_recv f) 0x40 then WaitPps3 else WaitPck))
      | WaitPps2 =>
          f ← push_rx f byte;
          Ret (with_state f (if has (pps0_recv f) 0x40 then WaitPps3 else WaitPck))
      | WaitPps3 => f ← push_rx f byte; Ret (with_state f WaitPck)
      | WaitPck =>
          f ← push_rx f byte;
          covered ← slice (rx_buf f) 0 (rx_len f - 1);
          if negb (xor_all covered =? byte) then Ret (with_state f Failed)
          else verify_response f
      | _ => Ret f
      end;
  Ret (f, state f).

Definition result (f : PpsFsm) : PpsResult :=
  match state f with Done => Success | Failed => Mismatch | _ => Error end.

Definition set_timeout (f : PpsFsm) : PpsFsm := with_state f Failed.

Definition reset (f : PpsFsm) : PpsFsm :=
  mkFsm Init (tx_buf f) 0 (rx_buf f) 0 0 (fi f) (di f) (protocol f).

Definition FI_TABLE : list Z :=
  [0; 372; 558; 744; 1116; 1488; 1860; 0; 0; 512; 768; 1024; 1536; 2048; 0; 0].
Definition DI_TABLE : list Z := [0; 1; 2; 4; 8; 16; 32; 64; 12; 20; 0; 0; 0; 0; 0; 0].

Definition fi_from_ta1 (ta1 : Z) : Z :=
  let v := nth (Z.to_nat (Z.shiftr ta1 4)) FI_TABLE 0 in if v =? 0 then 372 else v.
Definition di_from_ta1 (ta1 : Z) : Z :=
  let v := nth (Z.to_nat (Z.land ta1 0x0F)) DI_TABLE 0 in if v =? 0 then 1 else v.

(** ** Specification *)

(** Length of the response that starts like [r]: PPSS, PPS0, PCK and one byte
    per parameter bit of PPS0. *)
Definition bitn (byte mask : Z) : nat := if has byte mask then 1 else 0.
Definition announced (pps0 : Z) : nat :=
  3 + bitn pps0 0x10 + bitn pps0 0x20 + bitn pps0 0x40.

Inductive apps := AWait (r : list Z) | ADone | AFailed | AIdle.

Definition spec_byte (tx : list Z) (s : apps) (b : Z) : apps :=
  match s with
  | AWait [] => if b =? 0xFF then AWait [b] else AFailed
  | AWait [s] => AWait [s; b]
  | AWait (s :: pps0 :: r) =>
      let resp := s :: pps0 :: r ++ [b] in
      if (length resp <? announced pps0)%nat then AWait resp
      else if decide (resp = tx) then ADone else AFailed
  | _ => s
  end.

(** A PPS frame: PPSS, a PPS0 that announces its length, the checksum. *)
Definition pps_frame (tx : list Z) : Prop :=
  exists pps0 params, tx = 0xFF :: pps0 :: params ++ [xor_all (0xFF :: pps0 :: params)] /\
    length tx = announced pps0.

Definition rx (f : PpsFsm) : list Z := take (rx_len f) (rx_buf f).
Definition tx (f : PpsFsm) : list Z := take (tx_len f) (tx_buf f).

Definition abs (f : PpsFsm) : apps :=
  match state f with
  | Init | TxRequest => AIdle
  | Done => ADone
  | Failed => AFailed
  | _ => AWait (rx f)
  end.

(** How many bytes are in when the machine waits for each part. *)
Definition expected_len (f : PpsFsm) : nat :=
  let p := pps0_recv f in
  match state f with
  | WaitPpsx => 0
  | WaitPps0 => 1
  | WaitPps1 => 2
  | WaitPps2 => 2 + bitn p 0x10
  | WaitPps3 => 2 + bitn p 0x10 + bitn p 0x20
  | WaitPck => 2 + bitn p 0x10 + bitn p 0x20 + bitn p 0x40
  | _ => rx_len f
  end.

(** The buffers are in bounds and the request is [t], a PPS frame. *)
Definition base (t : list Z) (f : PpsFsm) : Prop :=
  length (tx_buf f) = 6%nat /\ length (rx_buf f) = 6%nat /\ (tx_len f <= 6)%nat /\
  tx f = t /\ pps_frame t.

(** What is known in each state. *)
Definition progress (f : PpsFsm) : Prop :=
  match state f with
  | Init | TxRequest | Done | Failed => True
  | WaitPpsx | WaitPps0 => rx_len f = expected_len f
  | st => rx_len f = expected_len f /\ rx f !! 1%nat = Some (pps0_recv f) /\
      match st with
      | WaitPps1 => has (pps0_recv f) 0x10 = true
      | WaitPps2 => has (pps0_recv f) 0x20 = true
      | WaitPps3 => has (pps0_recv f) 0x40 = true
      | _ => True
      end
  end.

Definition fsm_inv (t : list Z) (f : PpsFsm) : Prop := base t f /\ progress f.

(** ** The machine refines the specification *)
Definition pps_step (f : PpsFsm) (b : Z) : outcome (PpsFsm * unit) :=
  r ← process_byte f b; Ret (r.1, tt).
Definition pps_spec (t : list Z) (s : apps) (b : Z) : apps * unit := (spec_byte t s b, tt).

Lemma push_rx_spec t f b : base t f -> (rx_len f < 6)%nat ->
  exists f1, push_rx f b = Ret f1 /\ base t f1 /\ rx f1 = rx f ++ [b] /\
    rx_len f1 = S (rx_len f) /\ pps0_recv f1 = pps0_recv f /\ length (rx f1) = rx_len f1.
Proof.
  intros (H1 & Hl & H3 & H4 & H5) Hn. unfold push_rx, store. rewrite decide_True by lia.
  eexists. split; [reflexivity|].
  assert (take (S (rx_len f)) (<[rx_len f := b]> (rx_buf f)) = rx f ++ [b]) as E.
  { rewrite (take_S_r _ _ b) by (apply list_lookup_insert_eq; lia).
    unfold rx. by rewrite take_insert_ge by lia. }
  split.
  - unfold base, tx in *. cbn [tx_buf rx_buf tx_len]. by rewrite length_insert.
  - unfold rx at 1 3. cbn [rx_buf rx_len pps0_recv]. split_and!; try done.
    rewrite length_take, length_insert. lia.
Qed.

Lemma bitn_le p m : (bitn p m <= 1)%nat.
Proof. unfold bitn. destruct (has p m); lia. Qed.

(** A frame's last byte is the checksum of the others. *)
Lemma frame_checksum t l b : pps_frame t -> t = l ++ [b] -> xor_all l = b.
Proof.
  intros (pps0 & ps & -> & _) E.
  change (0xFF :: pps0 :: ps ++ [xor_all (0xFF :: pps0 :: ps)])
    with ((0xFF :: pps0 :: ps) ++ [xor_all (0xFF :: pps0 :: ps)]) in E.
  by apply app_inj_tail in E as [<- <-].
Qed.

Lemma verify_response_spec f t : base t f -> (rx_len f <= 6)%nat ->
  verify_response f = Ret (with_state f (if decide (rx f = t) then Done else Failed)).
Proof.
  intros (Ht & Hrl & Hl & <- & _) Hr.
  unfold verify_response. destruct (rx_len f =? tx_len f)%nat eqn:E; cbn [negb].
  - rewrite !slice_prefix by lia. rewrite !bind_ret. unfold rx, tx.
    by replace (rx_len f) with (tx_len f) by lia.
  - rewrite decide_False; [done|]. intros Heq. apply (f_equal length) in Heq.
    unfold rx, tx in Heq. rewrite !length_take in Heq. lia.
Qed.

Lemma spec_wait t r pps0 b : r !! 1%nat = Some pps0 ->
  spec_byte t (AWait r) b =
  if (length r + 1 <? announced pps0)%nat then AWait (r ++ [b])
  else if decide (r ++ [b] = t) then ADone else AFailed.
Proof.
  destruct r as [|x [|y r]]; try done. intros [= ->]. cbn [spec_byte].
  change (x :: pps0 :: r ++ [b]) with ((x :: pps0 :: r) ++ [b]).
  by rewrite length_app.
Qed.

(** One byte, from a state [s] to the machine [g]. *)
Definition simulated (t : list Z) (f : PpsFsm) (b : Z) : Prop :=
  exists g, process_byte f b = Ret (g, state g) /\ fsm_inv t g /\
            abs g = spec_byte t (abs f) b.

Lemma byte_ppsx t f b : base t f -> state f = WaitPpsx -> rx_len f = 0%nat -> simulated t f b.
Proof.
  intros Hb Est Hr. unfold simulated, process_byte. rewrite Est.
  assert (abs f = AWait []) as -> by (unfold abs, rx; by rewrite Est, Hr).
  cbn [spec_byte]. destruct (b =? 0xFF).
  - destruct (push_rx_spec t f b Hb) as (f1 & -> & Hb1 & Hrx & Hlen & _); [lia|].
    rewrite !bind_ret. eexists. split; [reflexivity|]. split.
    + split; [exact Hb1|]. unfold progress, expected_len. simpl. lia.
    + unfold abs. simpl. change (rx (with_state f1 WaitPps0)) with (rx f1).
      rewrite Hrx. unfold rx. by rewrite Hr.
  - eexists. split; [reflexivity|]. split; [by split|done].
Qed.

Lemma byte_pps0 t f b : base t f -> state f = WaitPps0 -> rx_len f = 1%nat -> simulated t f b.
Proof.
  intros Hb Est Hr. unfold simulated, process_byte. rewrite Est.
  destruct (push_rx_spec t f b Hb) as (f1 & -> & Hb1 & Hrx & Hlen & _ & Hl1); [lia|].
  rewrite !bind_ret.
  assert (exists x, rx f = [x]) as [x Ex].
  { rewrite Hrx, length_app in Hl1. simpl in Hl1.
    destruct (rx f) as [|x [|? ?]]; simpl in Hl1; try lia. by exists x. }
  rewrite Ex in Hrx. cbn [app] in Hrx.
  assert (abs f = AWait [x]) as -> by (unfold abs; by rewrite Est, Ex).
  cbn [spec_byte]. set (g := with_pps0 f1 b). set (s := if has b 0x10 then _ else _).
  exists (with_state g s). split; [done|]. split.
  - split; [exact Hb1|]. unfold progress, expected_len, bitn.
    change (rx (with_state g s)) with (rx f1). rewrite Hrx. subst s. simpl.
    destruct (has b 16) eqn:B1; [|destruct (has b 32) eqn:B2; [|destruct (has b 64) eqn:B3]];
      simpl; rewrite ?B1, ?B2, ?B3; split_and!; try done; lia.
  - unfold abs. change (rx (with_state g s)) with (rx f1). rewrite Hrx. subst s. simpl.
    by destruct (has b 16); [|destruct (has b 32); [|destruct (has b 64)]].
Qed.

(** The parameter bytes: the next state is decided by PPS0. *)
Lemma byte_param t f b s : base t f -> progress f ->
  match state f with WaitPps1 | WaitPps2 | WaitPps3 => True | _ => False end ->
  s = (let p := pps0_recv f in
       match state f with
       | WaitPps1 => if has p 0x20 then WaitPps2 else if has p 0x40 then WaitPps3 else WaitPck
       | WaitPps2 => if has p 0x40 then WaitPps3 else WaitPck
       | _ => WaitPck
       end) ->
  simulated t f b.
Proof.
  intros Hb Hp Hst Es.
  pose proof (bitn_le (pps0_recv f)) as Hbits.
  pose proof (Hbits 0x10) as H10. pose proof (Hbits 0x20) as H20. pose proof (Hbits 0x40) as H40.
  assert (rx_len f = expected_len f /\ rx f !! 1%nat = Some (pps0_recv f) /\
    (rx_len f + 2 <= announced (pps0_recv f) /\ rx_len f < 6)%nat) as (Hr & Hx & Han & H6).
  { unfold progress, expected_len, announced, bitn in *.
    destruct (state f); try done; destruct Hp as (-> & ? & Hbit); rewrite Hbit;
      split_and!; try done; simpl in *; lia. }
  unfold simulated.
  destruct (push_rx_spec t f b Hb) as (f1 & E & Hb1 & Hrx & Hlen & Hp0 & Hl1); [lia|].
  exists (with_state f1 s). split; [|split].
  - unfold process_byte. destruct (state f); try done; rewrite E, !bind_ret, Es, ?Hp0; done.
  - split; [exact Hb1|]. unfold progress, expected_len, bitn in *.
    change (rx (with_state f1 s)) with (rx f1). cbn [state with_state rx_len pps0_recv].
    rewrite Hrx, Hp0, (lookup_app_l_Some _ _ _ _ Hx), Hlen. subst s.
    destruct (state f); try done; destruct Hp as (Hr' & _ & Hbit); cbv zeta;
      rewrite ?Hr' in *; rewrite ?Hbit in *;
      destruct (has (pps0_recv f) 16) eqn:?, (has (pps0_recv f) 32) eqn:?,
        (has (pps0_recv f) 64) eqn:?; simpl; split_and!; try done; lia.
  - unfold abs at 2. assert (length (rx f) = rx_len f) as Hlf
      by (rewrite Hrx, length_app in Hl1; simpl in Hl1; lia).
    unfold abs. change (rx (with_state f1 s)) with (rx f1). cbn [state with_state].
    destruct (state f); try done; rewrite (spec_wait _ _ _ _ Hx), Hlf;
      replace (rx_len f + 1 <? announced (pps0_recv f))%nat with true by lia;
      rewrite Hrx, Es; cbv zeta; by repeat case_match.
Qed.

Lemma byte_pck t f b : base t f -> progress f -> state f = WaitPck -> simulated t f b.
Proof.
  intros Hb Hp Est. unfold progress, expected_len in Hp. rewrite Est in Hp.
  destruct Hp as (Hr & Hx & _). pose proof (bitn_le (pps0_recv f)) as Hbits.
  pose proof (Hbits 0x10). pose proof (Hbits 0x20). pose proof (Hbits 0x40).
  unfold simulated, process_byte. rewrite Est.
  destruct (push_rx_spec t f b Hb) as (f1 & -> & Hb1 & Hrx & Hlen & Hp0 & Hl1); [lia|].
  rewrite bind_ret.
  assert (length (rx f) = rx_len f) as Hlf
    by (rewrite Hrx, length_app in Hl1; simpl in Hl1; lia).
  assert (take (rx_len f1 - 1) (rx_buf f1) = rx f) as Hcov.
  { replace (rx_len f1 - 1)%nat with (rx_len f) by lia.
    apply (f_equal (take (rx_len f))) in Hrx. unfold rx at 1 in Hrx.
    rewrite take_take, Nat.min_l, take_app_length' in Hrx by lia. done. }
  rewrite slice_prefix by (destruct Hb1 as (_ & ? & _); lia). rewrite bind_ret, Hcov.
  assert (spec_byte t (abs f) b = if decide (rx f ++ [b] = t) then ADone else AFailed) as ->.
  { unfold abs. rewrite Est, (spec_wait _ _ _ _ Hx), Hlf.
    by replace (rx_len f + 1 <? announced (pps0_recv f))%nat with false
      by (unfold announced; lia). }
  destruct (xor_all (rx f) =? b) eqn:Ex; cbn [negb].
  - rewrite (verify_response_spec f1 t) by (done || lia). rewrite bind_ret, Hrx.
    eexists. split; [reflexivity|]. split; [split; [exact Hb1|]|]; unfold progress, abs; simpl;
      by destruct (decide (rx f ++ [b] = t)).
  - rewrite bind_ret. eexists. split; [reflexivity|]. split; [split; [exact Hb1|done]|].
    rewrite decide_False; [done|]. intros Et.
    destruct Hb as (_ & _ & _ & _ & Hfr).
    pose proof (frame_checksum t (rx f) b Hfr (eq_sym Et)). lia.
Qed.

Lemma byte_simulated t f b : fsm_inv t f -> simulated t f b.
Proof.
  intros [Hb Hp]. destruct (state f) eqn:Est;
    try (exists f; destruct f; simpl in Est; subst; split; [done|split; [by split|done]]).
  - apply byte_ppsx; try done. unfold progress, expected_len in Hp. by rewrite Est in Hp.
  - apply byte_pps0; try done. unfold progress, expected_len in Hp. by rewrite Est in Hp.
  - eapply byte_param; try done. by rewrite Est.
  - eapply byte_param; try done. by rewrite Est.
  - eapply byte_param; try done. by rewrite Est.
  - by apply byte_pck.
Qed.

Lemma pps_simulates t : simulates pps_step (pps_spec t) (fsm_inv t) (fun _ => True) abs.
Proof.
  intros f b Hf _. destruct (byte_simulated t f b Hf) as (g & E & Hg & Ha).
  exists g. unfold pps_step. by rewrite E.
Qed.

(** ** The specification accepts exactly the echo *)

(** The response [r] so far, still short of what it announces. *)
Definition short (r : list Z) : Prop :=
  match r with
  | [] => True
  | [x] => x = 0xFF
  | x :: p :: _ => x = 0xFF /\ (length r < announced p)%nat
  end.

Lemma spec_settled t s bs : s = ADone \/ s = AFailed ->
  (spec_run (pps_spec t) s bs).1 = s.
Proof. intros [-> | ->]; (induction bs as [|b bs IH]; [done|exact IH]). Qed.

Lemma frame_prefix t r : pps_frame t -> short r -> ~ (exists rest, r = t ++ rest).
Proof.
  intros (p & ps & -> & Hl) Hs [rest ->]. unfold short in Hs. cbn [app] in Hs.
  destruct Hs as [_ Hs]. rewrite <- Hl in Hs. cbn [length] in Hs. rewrite !length_app in Hs.
  lia.
Qed.

Lemma spec_accepts t r bs : pps_frame t -> short r ->
  (spec_run (pps_spec t) (AWait r) bs).1 = ADone <-> exists rest, r ++ bs = t ++ rest.
Proof.
  intros Hfr. revert r. induction bs as [|b bs IH]; intros r Hs.
  { cbn [spec_run fst]. rewrite app_nil_r. split; [done|].
    intros H. by destruct (frame_prefix t r Hfr Hs). }
  assert (forall P, ~ P -> (AFailed = ADone <-> P)) as Hno by (intros; split; done).
  pose proof Hfr as (p & ps & Et & Hlt).
  cbn [spec_run pps_spec fst snd]. destruct r as [|x [|y r]]; cbn [spec_byte].
  - destruct (b =? 0xFF) eqn:Eb.
    + rewrite IH by (simpl; lia). done.
    + rewrite spec_settled by (by right). apply Hno. intros [rest E]. rewrite Et in E.
      injection E as E _. lia.
  - rewrite IH; [done|]. simpl in Hs |- *. split; [done|]. unfold announced. lia.
  - set (resp := x :: y :: r ++ [b]).
    assert ((x :: y :: r) ++ b :: bs = resp ++ bs) as ->
      by (unfold resp; cbn [app]; by rewrite <- app_assoc).
    destruct (length resp <? announced y)%nat eqn:El.
    + apply IH. destruct Hs as [-> _]. split; [done|lia].
    + destruct Hs as [-> Hs].
      assert (length resp = announced y) as Hlr
        by (unfold resp in *; cbn [length] in *; rewrite length_app in *; simpl in *; lia).
      case_decide as Er.
      * rewrite spec_settled by (by left). rewrite Er. split; [by exists bs|done].
      * rewrite spec_settled by (by right). apply Hno. intros [rest E].
        assert (y = p) as Hy by (rewrite Et in E; by injection E).
        apply Er. apply (app_inj_1 resp t bs rest); [by rewrite Hlr, Hlt, Hy|exact E].
Qed.

(** Six bytes settle it. *)
Lemma spec_settles t r bs : short r -> (6 <= length r + length bs)%nat ->
  (spec_run (pps_spec t) (AWait r) bs).1 = ADone \/
  (spec_run (pps_spec t) (AWait r) bs).1 = AFailed.
Proof.
  revert r. induction bs as [|b bs IH]; intros r Hs Hl; cbn [spec_run pps_spec fst snd].
  - exfalso. destruct r as [|x [|y r]]; simpl in *; try lia.
    destruct Hs as [_ Hs]. unfold announced in Hs.
    pose proof (bitn_le y 0x10). pose proof (bitn_le y 0x20). pose proof (bitn_le y 0x40). lia.
  - assert (forall s, s = ADone \/ s = AFailed ->
      (spec_run (pps_spec t) s bs).1 = ADone \/ (spec_run (pps_spec t) s bs).1 = AFailed)
      as Hset by (intros s Hcase; by rewrite spec_settled).
    destruct r as [|x [|y r]]; cbn [spec_byte].
    + destruct (b =? 0xFF) eqn:Eb; [|apply Hset; by right].
      apply IH; [simpl; lia|simpl in *; lia].
    + apply IH; [|simpl in *; lia]. simpl in *. split; [done|unfold announced; lia].
    + set (resp := x :: y :: r ++ [b]). destruct (length resp <? announced y)%nat eqn:El.
      * apply IH; [destruct Hs as [-> _]; split; [done|lia]|].
        unfold resp. simpl in *. rewrite length_app. simpl. lia.
      * apply Hset. case_decide; [by left|by right].
Qed.

(** ** Requests *)
Lemma push_tx_spec f b : length (tx_buf f) = 6%nat -> (tx_len f < 6)%nat ->
  exists buf, push_tx f b = Ret (mkFsm (state f) buf (S (tx_len f)) (rx_buf f) (rx_len f)
                (pps0_recv f) (fi f) (di f) (protocol f)) /\
    length buf = 6%nat /\ take (S (tx_len f)) buf = tx f ++ [b].
Proof.
  intros Hl Hn. unfold push_tx, store. rewrite decide_True by lia.
  eexists. split; [reflexivity|]. rewrite length_insert. split; [done|].
  rewrite (take_S_r _ _ b) by (apply list_lookup_insert_eq; lia).
  unfold tx. by rewrite take_insert_ge by lia.
Qed.

Ltac push_tx_step :=
  match goal with
  | |- context [push_tx ?f ?b] =>
      let buf := fresh "buf" in let E := fresh "E" in let Hl := fresh "Hl" in
      let Ht := fresh "Ht" in
      destruct (push_tx_spec f b) as (buf & E & Hl & Ht); [simpl; done|simpl; lia|];
      rewrite E; rewrite bind_ret; clear E; unfold tx in Ht; cbn [tx_len tx_buf] in Ht
  end.

Lemma build_request_spec f p ta1 : length (tx_buf f) = 6%nat -> length (rx_buf f) = 6%nat ->
  let head := [0xFF; Z.lor 0x10 (Z.land p 0x0F); ta1] in
  exists g, build_request f p ta1 = Ret (g, head ++ [xor_all head]) /\
    length (tx_buf g) = 6%nat /\ length (rx_buf g) = 6%nat /\ (tx_len g <= 6)%nat /\
    tx g = head ++ [xor_all head] /\ fi g = fi f /\ di g = di f /\ state g = TxRequest.
Proof.
  intros Hl Hr head. unfold build_request. do 3 push_tx_step. cbn [tx_len tx_buf].
  rewrite slice_prefix by (simpl in *; lia). rewrite bind_ret.
  simpl in Ht, Ht0, Ht1 |- *. rewrite Ht1, Ht0, Ht. cbn [app]. fold head.
  push_tx_step. unfold request. cbn [tx_len tx_buf with_state].
  rewrite slice_prefix by (simpl in *; lia). rewrite bind_ret.
  simpl in Ht2 |- *. rewrite Ht2, Ht1, Ht0, Ht. eexists. split; [reflexivity|].
  unfold tx. simpl. rewrite Ht2, Ht1, Ht0, Ht. split_and!; try done. lia.
Qed.

Lemma build_minimal_request_spec f p :
  length (tx_buf f) = 6%nat -> length (rx_buf f) = 6%nat ->
  let head := [0xFF; Z.land p 0x0F] in
  exists g, build_minimal_request f p = Ret (g, head ++ [xor_all head]) /\
    length (tx_buf g) = 6%nat /\ length (rx_buf g) = 6%nat /\ (tx_len g <= 6)%nat /\
    tx g = head ++ [xor_all head] /\ fi g = fi f /\ di g = di f /\ state g = TxRequest.
Proof.
  intros Hl Hr head. unfold build_minimal_request. do 2 push_tx_step. cbn [tx_len tx_buf].
  rewrite slice_prefix by (simpl in *; lia). rewrite bind_ret.
  simpl in Ht, Ht0 |- *. rewrite Ht0, Ht. cbn [app]. fold head.
  push_tx_step. unfold request. cbn [tx_len tx_buf with_state].
  rewrite slice_prefix by (simpl in *; lia). rewrite bind_ret.
  simpl in Ht1 |- *. rewrite Ht1, Ht0, Ht. eexists. split; [reflexivity|].
  unfold tx. simpl. rewrite Ht1, Ht0, Ht. split_and!; try done. lia.
Qed.

Lemma request_announces p : u8 p ->
  announced (Z.lor 0x10 (Z.land p 0x0F)) = 4%nat /\ announced (Z.land p 0x0F) = 3%nat.
Proof.
  intros Hp. apply (byte_forall (fun p =>
    (announced (Z.lor 0x10 (Z.land p 0x0F)) =? 4)%nat &&
    (announced (Z.land p 0x0F) =? 3)%nat)) in Hp; [|vm_compute; reflexivity]. lia.
Qed.

(** The speed fields are left alone by reception. *)
Lemma process_byte_keeps f b g s : process_byte f b = Ret (g, s) -> fi g = fi f /\ di g = di f.
Proof.
  unfold process_byte. intros H. apply bind_Ret_inv in H as (h & H & [= <- _]).
  assert (forall f1, push_rx f b = Ret f1 -> fi f1 = fi f /\ di f1 = di f) as Hpush.
  { unfold push_rx. intros f1 E. apply bind_Ret_inv in E as (buf & _ & [= <-]). done. }
  assert (forall f1 h, verify_response f1 = Ret h -> fi h = fi f1 /\ di h = di f1) as Hver.
  { intros f1 h' E. unfold verify_response in E. destruct (negb _); [by injection E as <-|].
    apply bind_Ret_inv in E as (? & _ & E). apply bind_Ret_inv in E as (? & _ & [= <-]). done. }
  destruct (state f); try (by injection H as <-);
    try (apply bind_Ret_inv in H as (f1 & E & H); apply Hpush in E; simpl in H);
    try (injection H as <-; exact E).
  - destruct (b =? 0xFF); [|by injection H as <-].
    apply bind_Ret_inv in H as (f1 & E & [= <-]). by apply Hpush in E.
  - apply bind_Ret_inv in H as (c & _ & H). destruct (negb _); [by injection H as <-|].
    apply Hver in H as [-> ->]. exact E.
Qed.

Lemma run_keeps f bs h u : run pps_step f bs = Ret (h, u) -> fi h = fi f /\ di h = di f.
Proof.
  revert f u. induction bs as [|b bs IH]; intros f u; cbn [run]; [by intros [= <- _]|].
  intros H. apply bind_Ret_inv in H as ([f1 []] & E & H).
  apply bind_Ret_inv in H as ([f2 u2] & E2 & [= <- _]). cbn [fst snd] in *.
  unfold pps_step in E. apply bind_Ret_inv in E as ([f3 s] & E & [= <-]).
  destruct (process_byte_keeps _ _ _ _ E) as [F1 F2].
  destruct (IH _ _ E2) as [G1 G2]. by rewrite G1, G2.
Qed.

(** The request, and the machine waiting for its echo. *)
Definition request_of (protocol ta1 : Z) (minimal : bool) : list Z :=
  let head := if minimal then [0xFF; Z.land protocol 0x0F]
              else [0xFF; Z.lor 0x10 (Z.land protocol 0x0F); ta1] in
  head ++ [xor_all head].

Lemma request_started f protocol ta1 (minimal : bool) :
  length (tx_buf f) = 6%nat -> length (rx_buf f) = 6%nat -> u8 protocol ->
  exists g,
    (if minimal then build_minimal_request f protocol else build_request f protocol ta1)
      = Ret (g, request_of protocol ta1 minimal) /\
    fsm_inv (request_of protocol ta1 minimal) (start_response g) /\
    pps_frame (request_of protocol ta1 minimal) /\
    abs (start_response g) = AWait [] /\ fi g = fi f /\ di g = di f.
Proof.
  intros Htl Hrl Hp. destruct (request_announces protocol Hp) as [Ha4 Ha3].
  set (req := request_of protocol ta1 minimal).
  assert (exists g, (if minimal then build_minimal_request f protocol
                     else build_request f protocol ta1) = Ret (g, req) /\
    length (tx_buf g) = 6%nat /\ length (rx_buf g) = 6%nat /\ (tx_len g <= 6)%nat /\
    tx g = req /\ fi g = fi f /\ di g = di f /\ state g = TxRequest)
    as (g & E & G1 & G2 & G3 & G4 & G5 & G6 & _)
    by (destruct minimal; [by apply build_minimal_request_spec|by apply build_request_spec]).
  assert (pps_frame req) as Hfr.
  { unfold req, request_of. destruct minimal; [exists (Z.land protocol 0x0F), []|
      exists (Z.lor 0x10 (Z.land protocol 0x0F)), [ta1]]; (split; [done|]); cbn [length app]; lia. }
  exists g. split_and!; try done.
Qed.

Lemma short_length r : short r -> (length r <= 5)%nat.
Proof.
  destruct r as [|x [|y r]]; cbn [short length]; [lia..|]. intros [_ H].
  unfold announced in H. pose proof (bitn_le y 0x10). pose proof (bitn_le y 0x20).
  pose proof (bitn_le y 0x40). cbn [length] in H. lia.
Qed.

(** One more byte of a response that is still short. *)
Lemma wait_step t r b : short r ->
  match spec_byte t (AWait r) b with
  | AWait r' => r' = r ++ [b] /\ short r'
  | ADone => r ++ [b] = t
  | AFailed => True
  | AIdle => False
  end.
Proof.
  intros Hs. destruct r as [|x [|y r]]; cbn [spec_byte].
  - destruct (b =? 0xFF) eqn:E; [|done]. split; [done|cbn; lia].
  - split; [done|]. cbn in *. split; [done|unfold announced; lia].
  - destruct (_ <? _)%nat eqn:E; [|by case_decide]. destruct Hs as [-> _].
    split; [done|]. split; [done|]. lia.
Qed.

(** C40: PPS negotiation succeeds exactly on the echo.  The request is PPSS,
    PPS0, (TA1 for the full form) and the checksum.  After it, whatever bytes
    the card answers: no access is out of bounds; the machine ends in [Done]
    exactly when the answer starts with the request itself; six bytes always
    settle the negotiation one way or the other; and the Fi and Di fields keep
    the values they had before. *)
Theorem pps_done_iff_echo f protocol ta1 (minimal : bool) bs :
  length (tx_buf f) = 6%nat -> length (rx_buf f) = 6%nat -> u8 protocol ->
  let head := if minimal then [0xFF; Z.land protocol 0x0F]
              else [0xFF; Z.lor 0x10 (Z.land protocol 0x0F); ta1] in
  let req := head ++ [xor_all head] in
  exists g h u,
    (if minimal then build_minimal_request f protocol else build_request f protocol ta1)
      = Ret (g, req) /\
    run pps_step (start_response g) bs = Ret (h, u) /\
    (state h = Done <-> exists rest, bs = req ++ rest) /\
    (result h = Success <-> state h = Done) /\
    ((6 <= length bs)%nat -> state h = Done \/ state h = Failed) /\
    fi h = fi f /\ di h = di f.
Proof.
  intros Htl Hrl Hp head req.
  destruct (request_started f protocol ta1 minimal Htl Hrl Hp) as (g & E & Hinv & Hfr & _ & G5 & G6).
  change (request_of protocol ta1 minimal) with req in *.
  destruct (run_refines pps_step (pps_spec req) (fsm_inv req) (fun _ => True) abs
    (start_response g) bs (pps_simulates req)) as (h & Er & Hh & Hah).
  { done. }
  { by apply Forall_true. }
  change (abs (start_response g)) with (AWait []) in *.
  destruct (run_keeps _ _ _ _ Er) as [K1 K2]. simpl in K1, K2.
  assert (state h = Done <-> abs h = ADone) as Hd by (unfold abs; by destruct (state h)).
  assert (state h = Failed <-> abs h = AFailed) as Hf by (unfold abs; by destruct (state h)).
  eexists g, h, _. split; [exact E|]. split; [exact Er|]. split_and!.
  - rewrite Hd, Hah. apply (spec_accepts req [] bs Hfr I).
  - unfold result. by destruct (state h).
  - intros Hl. rewrite Hd, Hf, Hah. by apply spec_settles.
  - congruence.
  - congruence.
Qed.

Example pps_done_iff_echo_witness :
  let req := [0xFF; 0x11; 0x18; 0xF6] in
  let bs := req ++ [0x3B; 0x00] in
  exists g h u,
    build_request new 1 0x18 = Ret (g, req) /\
    run pps_step (start_response g) bs = Ret (h, u) /\
    (state h = Done <-> exists rest, bs = req ++ rest) /\
    (result h = Success <-> state h = Done) /\
    ((6 <= length bs)%nat -> state h = Done \/ state h = Failed) /\
    fi h = fi new /\ di h = di new.
Proof.
  intros req bs. refine (pps_done_iff_echo new 1 0x18 false bs eq_refl eq_refl _).
  unfold u8. lia.
Defined.
