(* ===== verification/SelfHeal.v ===== *)
(** * Health and validity trackers

    [firmware/ccid-firmware/src/selfhealing.rs] (module [Failures]: the failure
    streak that triggers a power cycle), [ccid-service/src/ota_validity.rs]
    (module [Validity]: mark the image valid once), and
    [firmware/ccid-firmware/src/dwt_watchdog.rs] (module [Dwt]: timeouts and
    uptime over the wrapping cycle counter, whose reading is an argument). *)
From Stdlib Require Import ZArith Lia ZifyBool.
From stdpp Require Import prelude.
From S2P Require Import Prelude.
Local Open Scope Z_scope.

(** ** selfhealing.rs *)
Module Failures.

Definition REINIT_THRESHOLD : Z := 3.

Inductive Outcome := Success | Mute | Failure.

#[global] Instance Outcome_eq_dec : EqDecision Outcome.
Proof. solve_decision. Defined.

Definition of_len (len : nat) (is_err : bool) : Outcome :=
  if is_err then Failure else if (len =? 0)%nat then Mute else Success.

Record FailureTracker := mkTracker {
  consecutive_failures : Z;
  reinit_count : Z;
  reinit_pending : bool
}.

Definition new : FailureTracker := mkTracker 0 0 false.

Definition session_start (t : FailureTracker) : FailureTracker :=
  mkTracker 0 (reinit_count t) (reinit_pending t).

Definition sat_add8 (a b : Z) : Z := Z.min (a + b) u8_max.

Definition record (t : FailureTracker) (outcome : Outcome) : FailureTracker * bool :=
  match outcome with
  | Success => (mkTracker 0 (reinit_count t) (reinit_pending t), false)
  | Mute | Failure =>
      let n := sat_add8 (consecutive_failures t) 1 in
      if REINIT_THRESHOLD <=? n
      then (mkTracker 0 (sat_add32 (reinit_count t) 1) true, true)
      else (mkTracker n (reinit_count t) (reinit_pending t), false)
  end.

Definition take_reinit_pending (t : FailureTracker) : FailureTracker * bool :=
  (mkTracker (consecutive_failures t) (reinit_count t) false, reinit_pending t).

(** The calls of one boot. *)
Inductive call := Exchange (len : nat) (is_err : bool) | Session | Take.

Definition step (t : FailureTracker) (c : call) : FailureTracker * bool :=
  match c with
  | Exchange len is_err => record t (of_len len is_err)
  | Session => (session_start t, false)
  | Take => take_reinit_pending t
  end.

(** The lengths of the failure runs: the current one and the finished ones.  A
    run ends at a success or at a session boundary. *)
Fixpoint failure_runs (cur : nat) (cs : list call) : nat * list nat :=
  match cs with
  | [] => (cur, [])
  | Exchange len is_err :: cs =>
      match of_len len is_err with
      | Success => let r := failure_runs 0 cs in (r.1, cur :: r.2)
      | _ => failure_runs (S cur) cs
      end
  | Session :: cs => let r := failure_runs 0 cs in (r.1, cur :: r.2)
  | Take :: cs => failure_runs cur cs
  end.

(** One re-initialisation for every third failure of a run. *)
Definition thirds (runs : list nat) : nat := sum_list_with (fun k => k / 3)%nat runs.

End Failures.

(** ** ota_validity.rs

    The installed marker is a function pointer, here its identity; the calls of
    the pointer are collected. *)
Module Validity.

Record ValidityGate := mkGate { marker : option nat; marked : bool }.

Definition new : ValidityGate := mkGate None false.
Definition armed (g : ValidityGate) : bool := match marker g with Some _ => true | None => false end.

Definition arm (m : nat) (g : ValidityGate) : ValidityGate * bool :=
  if marked g then (g, false) else (mkGate (Some m) (marked g), true).

(** The gate, the answer and the markers called. *)
Definition note_serve_evidence (g : ValidityGate) : ValidityGate * bool * list nat :=
  match marker g with
  | None => (g, false, [])
  | Some m => if marked g then (g, false, []) else (mkGate (marker g) true, true, [m])
  end.

Inductive call := Arm (m : nat) | Evidence.

Fixpoint calls (g : ValidityGate) (cs : list call) : ValidityGate * list nat :=
  match cs with
  | [] => (g, [])
  | Arm m :: cs => calls (arm m g).1 cs
  | Evidence :: cs =>
      let r := note_serve_evidence g in
      let rs := calls r.1.1 cs in (rs.1, r.2 ++ rs.2)
  end.

End Validity.

(** ** dwt_watchdog.rs *)
Module Dwt.

Definition ms_to_cycles (ms hz : Z) : Z :=
  let cycles := Z.min (ms * hz) u64_max / 1000 in
  if u32_max <? cycles then u32_max else cycles.

Record DwtWatchdog := mkDog { start_cycles : Z; timeout_cycles : Z }.

Definition new (timeout : Z) : DwtWatchdog := mkDog 0 timeout.
Definition from_ms (ms hz : Z) : DwtWatchdog := new (ms_to_cycles ms hz).
Definition start (cyccnt : Z) (d : DwtWatchdog) : DwtWatchdog := mkDog cyccnt (timeout_cycles d).
Definition elapsed_cycles (cyccnt : Z) (d : DwtWatchdog) : Z := wrapping_sub32 cyccnt (start_cycles d).
Definition expired (cyccnt : Z) (d : DwtWatchdog) : bool :=
  timeout_cycles d <=? elapsed_cycles cyccnt d.
Definition remaining_cycles (cyccnt : Z) (d : DwtWatchdog) : Z :=
  Z.max 0 (timeout_cycles d - elapsed_cycles cyccnt d).

Record DwtUptime := mkUptime {
  last_cycles : Z; accum_cycles : Z; ticks_ms : Z; cycles_per_ms : Z
}.

Definition uptime_new (clock_hz : Z) : DwtUptime :=
  let raw := clock_hz / 1000 in mkUptime 0 0 0 (if raw =? 0 then 1 else raw).

(** [while accum >= per_ms { accum -= per_ms; ticks += 1 }]. *)
Fixpoint drain (fuel : nat) (accum ticks per_ms : Z) : option (Z * Z) :=
  if per_ms <=? accum then
    match fuel with
    | O => None
    | S fuel => drain fuel (accum - per_ms) (wrapping_add32 ticks 1) per_ms
    end
  else Some (accum, ticks).

(** [poll]; [None] when the fuel runs out, which [drain_enough] excludes. *)
Definition poll (u : DwtUptime) (now_cycles : Z) : option (DwtUptime * Z) :=
  let delta := wrapping_sub32 now_cycles (last_cycles u) in
  let accum := wrapping_add32 (accum_cycles u) delta in
  match drain (Z.to_nat (accum / cycles_per_ms u)) accum (ticks_ms u) (cycles_per_ms u) with
  | Some (a, t) => Some (mkUptime now_cycles a t (cycles_per_ms u), t)
  | None => None
  end.

Fixpoint polls (u : DwtUptime) (nows : list Z) : option (DwtUptime * list Z) :=
  match nows with
  | [] => Some (u, [])
  | n :: nows =>
      match poll u n with
      | Some (u, t) => match polls u nows with
                       | Some (u, ts) => Some (u, t :: ts) | None => None end
      | None => None
      end
  end.

End Dwt.

(** ** The failure streak *)

Lemma record_failure t o cur : o <> Failures.Success ->
  Failures.consecutive_failures t = Z.of_nat (cur mod 3) ->
  let fired := (S cur mod 3 =? 0)%nat in
  (Failures.record t o).2 = fired /\
  Failures.consecutive_failures (Failures.record t o).1 = Z.of_nat (S cur mod 3) /\
  Failures.reinit_count (Failures.record t o).1 =
    (if fired then sat_add32 (Failures.reinit_count t) 1 else Failures.reinit_count t) /\
  Failures.reinit_pending (Failures.record t o).1 = (fired || Failures.reinit_pending t) /\
  (S cur / 3 = cur / 3 + if fired then 1 else 0)%nat.
Proof.
  intros Ho Hc fired.
  assert (Failures.record t o = Failures.record t Failures.Failure) as -> by (by destruct o).
  unfold Failures.record, Failures.sat_add8, Failures.REINIT_THRESHOLD, u8_max.
  rewrite Hc. subst fired.
  pose proof (Nat.div_mod_eq cur 3). pose proof (Nat.div_mod_eq (S cur) 3).
  pose proof (Nat.mod_upper_bound cur 3). pose proof (Nat.mod_upper_bound (S cur) 3).
  set (q := (cur / 3)%nat) in *. set (m := (cur mod 3)%nat) in *.
  set (q' := (S cur / 3)%nat) in *. set (m' := (S cur mod 3)%nat) in *. clearbody q m q' m'.
  destruct (3 <=? _) eqn:E, (m' =? 0)%nat eqn:E';
    cbn [fst snd Failures.consecutive_failures Failures.reinit_count Failures.reinit_pending orb];
    split_and!; try done; lia.
Qed.

Lemma runs_step cs t cur n :
  Failures.consecutive_failures t = Z.of_nat (cur mod 3) ->
  Failures.reinit_count t = Z.min (Z.of_nat (n + cur / 3)) u32_max ->
  let r := fold_left (fun t c => (Failures.step t c).1) cs t in
  let runs := Failures.failure_runs cur cs in
  Failures.consecutive_failures r = Z.of_nat (runs.1 mod 3) /\
  Failures.reinit_count r = Z.min (Z.of_nat (n + Failures.thirds (runs.1 :: runs.2))) u32_max.
Proof.
  unfold Failures.thirds. revert t cur n.
  induction cs as [|c cs IH]; intros t cur n Hc Hr.
  { cbn [fold_left Failures.failure_runs fst snd sum_list_with]. by rewrite Nat.add_0_r. }
  assert (forall t', Failures.consecutive_failures t' = 0 ->
    Failures.reinit_count t' = Failures.reinit_count t ->
    let r := fold_left (fun t c => (Failures.step t c).1) cs t' in
    let runs := Failures.failure_runs 0 cs in
    Failures.consecutive_failures r = Z.of_nat (runs.1 mod 3) /\
    Failures.reinit_count r = Z.min (Z.of_nat
      (n + sum_list_with (fun k => k / 3)%nat (runs.1 :: cur :: runs.2))) u32_max) as Hnew.
  { intros t' E1 E2. cbv zeta.
    destruct (IH t' 0%nat (n + cur / 3)%nat E1) as [F1 F2].
    - rewrite E2, Hr. by rewrite Nat.Div0.div_0_l, Nat.add_0_r.
    - split; [exact F1|]. rewrite F2. cbn [sum_list_with]. f_equal. lia. }
  assert (forall o, o <> Failures.Success ->
    let r := fold_left (fun t c => (Failures.step t c).1) cs (Failures.record t o).1 in
    let runs := Failures.failure_runs (S cur) cs in
    Failures.consecutive_failures r = Z.of_nat (runs.1 mod 3) /\
    Failures.reinit_count r = Z.min (Z.of_nat
      (n + sum_list_with (fun k => k / 3)%nat (runs.1 :: runs.2))) u32_max) as Hfail.
  { intros o Ho. destruct (record_failure t o cur Ho Hc) as (_ & E1 & E2 & _ & E3).
    apply (IH _ (S cur) n E1). rewrite E2, Hr. unfold sat_add32, u32_max. case_match; lia. }
  cbn [fold_left]. destruct c as [len is_err| |]; cbn [Failures.step Failures.failure_runs].
  - destruct (Failures.of_len len is_err); [by apply Hnew|by apply Hfail|by apply Hfail].
  - by apply Hnew.
  - by apply IH.
Qed.

(** A mute or failing card is power-cycled at every third failure in a row.
    Over any sequence of exchanges, session boundaries and event reads, cut
    into runs of failure-class exchanges (errors and zero-byte answers, which
    only a success or a session boundary ends), a run of k failures triggers
    k/3 re-initialisations: the counter is their sum (saturating), the streak
    is the current run modulo 3, the next exchange triggers a re-initialisation
    exactly when it is the third failure, and the event then stays pending
    until it is read. *)
Theorem reinit_every_third_failure cs len is_err :
  let t := fold_left (fun t c => (Failures.step t c).1) cs Failures.new in
  let runs := Failures.failure_runs 0 cs in
  Failures.reinit_count t =
    Z.min (Z.of_nat (Failures.thirds (runs.1 :: runs.2))) u32_max /\
  Failures.consecutive_failures t = Z.of_nat (runs.1 mod 3) /\
  let r := Failures.record t (Failures.of_len len is_err) in
  r.2 = (is_err || (len =? 0)%nat) && (runs.1 mod 3 =? 2)%nat /\
  Failures.reinit_pending r.1 = (r.2 || Failures.reinit_pending t) /\
  (Failures.take_reinit_pending r.1).2 = Failures.reinit_pending r.1 /\
  Failures.reinit_pending (Failures.take_reinit_pending r.1).1 = false.
Proof.
  intros t runs. destruct (runs_step cs Failures.new 0 0) as [H1 H2]; [done|done|].
  fold t runs in H1, H2. split; [exact H2|]. split; [exact H1|]. intros r.
  split; [|split; [|done]].
  - destruct (decide (Failures.of_len len is_err = Failures.Success)) as [E|E].
    + subst r. rewrite E. unfold Failures.of_len in E.
      destruct is_err; [done|]. by destruct (len =? 0)%nat.
    + destruct (record_failure t _ runs.1 E H1) as (E2 & _). subst r. rewrite E2.
      unfold Failures.of_len in E.
      assert (is_err || (len =? 0)%nat = true) as ->
        by (destruct is_err; [done|]; by destruct (len =? 0)%nat).
      pose proof (Nat.div_mod_eq runs.1 3). pose proof (Nat.div_mod_eq (S runs.1) 3).
      pose proof (Nat.mod_upper_bound runs.1 3). pose proof (Nat.mod_upper_bound (S runs.1) 3).
      cbn [andb]. lia.
  - destruct (decide (Failures.of_len len is_err = Failures.Success)) as [E|E].
    + subst r. by rewrite E.
    + destruct (record_failure t _ runs.1 E H1) as (E2 & _ & _ & E3 & _).
      subst r. by rewrite E3, E2.
Qed.

(** ** The validity gate *)

(** The first evidence after an arming, and the marker armed last before it. *)
Fixpoint first_marked (armed : option nat) (cs : list Validity.call) : option nat :=
  match cs with
  | [] => None
  | Validity.Arm m :: cs => first_marked (Some m) cs
  | Validity.Evidence :: cs =>
      match armed with Some m => Some m | None => first_marked None cs end
  end.

(** An image is marked valid at most once per boot, at the first evidence of
    service after a marker was installed, and by the marker installed last
    before that evidence; later installations are refused and evidence before
    any installation does not count. *)
Theorem validity_marked_once cs :
  let r := Validity.calls Validity.new cs in
  r.2 = match first_marked None cs with Some m => [m] | None => [] end /\
  Validity.marked r.1 = match first_marked None cs with Some _ => true | None => false end /\
  (Validity.marked r.1 = true -> forall m,
     Validity.arm m r.1 = (r.1, false) /\
     Validity.note_serve_evidence r.1 = (r.1, false, [])).
Proof.
  assert (forall cs g, Validity.marked g = true -> Validity.marker g <> None ->
    Validity.calls g cs = (g, [])) as Hdone.
  { clear cs. intros cs g Hm Hn. induction cs as [|[m|] cs IH]; [done| |];
      cbn [Validity.calls].
    - unfold Validity.arm. by rewrite Hm.
    - unfold Validity.note_serve_evidence. rewrite Hm.
      destruct (Validity.marker g); [|done]. cbn [fst snd]. by rewrite IH. }
  assert (forall a, let r := Validity.calls (Validity.mkGate a false) cs in
    r.2 = match first_marked a cs with Some m => [m] | None => [] end /\
    Validity.marked r.1 = match first_marked a cs with Some _ => true | None => false end /\
    (Validity.marked r.1 = true -> Validity.marker r.1 <> None)) as Hgen.
  { induction cs as [|[m|] cs IH]; intros a; cbn [Validity.calls first_marked]; [done| |].
    - apply (IH (Some m)).
    - destruct a as [m|]; [|apply (IH None)].
      unfold Validity.note_serve_evidence. cbn [Validity.marker Validity.marked fst snd].
      by rewrite Hdone. }
  intros r. destruct (Hgen None) as (H1 & H2 & H3). fold r in H1, H2, H3.
  split; [exact H1|]. split; [exact H2|]. intros Hm m.
  specialize (H3 Hm). unfold Validity.arm, Validity.note_serve_evidence. rewrite Hm.
  by destruct (Validity.marker r.1).
Qed.

(** ** Timeouts and uptime *)

(** The cycle watchdog is right across the wrap of the counter: started at
    any real time [t0] and asked less than 2^32 cycles later, it has expired
    exactly when the elapsed cycles reach the timeout, reports the elapsed and
    remaining cycles; and a timeout given in milliseconds is the whole number
    of cycles in them, unless that exceeds 32 bits. *)
Theorem watchdog_wrap_safe t0 elapsed timeout ms hz :
  0 <= elapsed < 4294967296 -> u32 timeout -> u32 ms -> u32 hz ->
  let d := Dwt.start (wrap32 t0) (Dwt.new timeout) in
  let now := wrap32 (t0 + elapsed) in
  Dwt.elapsed_cycles now d = elapsed /\
  Dwt.expired now d = (timeout <=? elapsed) /\
  Dwt.remaining_cycles now d = Z.max 0 (timeout - elapsed) /\
  u32 (Dwt.ms_to_cycles ms hz) /\
  (ms * hz / 1000 <= u32_max ->
     Dwt.ms_to_cycles ms hz * 1000 <= ms * hz < (Dwt.ms_to_cycles ms hz + 1) * 1000).
Proof.
  intros He Ht Hms Hhz d now.
  assert (Dwt.elapsed_cycles now d = elapsed) as E.
  { unfold Dwt.elapsed_cycles, now, d, Dwt.start. cbn [Dwt.start_cycles].
    unfold wrapping_sub32, wrap32. rewrite <- Zminus_mod, Z.add_simpl_l. by apply Z.mod_small. }
  unfold Dwt.expired, Dwt.remaining_cycles. rewrite E.
  assert (0 <= ms * hz <= u64_max) as Hp by (unfold u32, u64_max in *; nia).
  unfold Dwt.ms_to_cycles. rewrite Z.min_l by lia.
  split_and!; try done; unfold u32, u32_max in *.
  - pose proof (Z.div_pos (ms * hz) 1000 ltac:(lia) ltac:(lia)). case_match; lia.
  - intros Hle. replace (4294967295 <? ms * hz / 1000) with false by lia.
    pose proof (Z.div_mod (ms * hz) 1000). pose proof (Z.mod_pos_bound (ms * hz) 1000). lia.
Qed.

Example watchdog_wrap_safe_witness :
  let d := Dwt.start (wrap32 4294967000) (Dwt.new 1000) in
  let now := wrap32 (4294967000 + 1000) in
  Dwt.elapsed_cycles now d = 1000 /\
  Dwt.expired now d = (1000 <=? 1000) /\
  Dwt.remaining_cycles now d = Z.max 0 (1000 - 1000) /\
  u32 (Dwt.ms_to_cycles 100 180000000) /\
  (100 * 180000000 / 1000 <= u32_max ->
     Dwt.ms_to_cycles 100 180000000 * 1000 <= 100 * 180000000
       < (Dwt.ms_to_cycles 100 180000000 + 1) * 1000).
Proof. refine (watchdog_wrap_safe 4294967000 1000 1000 100 180000000 _ _ _ _); unfold u32; lia. Defined.

(** The loop divides: enough fuel is the quotient. *)
Lemma drain_enough fuel accum ticks per :
  0 < per -> 0 <= accum -> (Z.to_nat (accum / per) <= fuel)%nat -> u32 ticks ->
  Dwt.drain fuel accum ticks per = Some (accum mod per, wrap32 (ticks + accum / per)).
Proof.
  intros Hper. revert accum ticks. induction fuel as [|fuel IH]; intros accum ticks Ha Hf Ht;
    cbn [Dwt.drain].
  - pose proof (Z.div_pos accum per Ha Hper). assert (accum / per = 0) as E by lia.
    pose proof (Z.div_small_iff accum per ltac:(lia)) as [Hs _].
    destruct (Hs E) as [Hs'|Hs']; [|lia].
    replace (per <=? accum) with false by lia. rewrite E, Z.add_0_r, Z.mod_small by lia.
    unfold wrap32, u32 in *. by rewrite Z.mod_small.
  - destruct (per <=? accum) eqn:E.
    + assert (accum / per = (accum - per) / per + 1) as Ediv.
      { replace accum with ((accum - per) + 1 * per) at 1 by lia. by rewrite Z.div_add by lia. }
      assert (accum mod per = (accum - per) mod per) as Emod.
      { replace accum with ((accum - per) + 1 * per) at 1 by lia. by rewrite Z.mod_add by lia. }
      pose proof (Z.div_pos (accum - per) per ltac:(lia) Hper).
      rewrite IH; [|lia|lia|unfold u32, wrapping_add32, wrap32; apply Z.mod_pos_bound; lia].
      rewrite Ediv, Emod. unfold wrapping_add32, wrap32. f_equal. f_equal.
      rewrite Zplus_mod_idemp_l. f_equal. lia.
    + rewrite Z.mod_small, Z.div_small, Z.add_0_r by lia.
      unfold wrap32, u32 in *. by rewrite Z.mod_small.
Qed.

(** The real times of the polls: nondecreasing, no gap of nearly 2^32. *)
Fixpoint poll_times (per last : Z) (ts : list Z) : Prop :=
  match ts with
  | [] => True
  | t :: ts => last <= t /\ t - last <= 4294967296 - per /\ poll_times per t ts
  end.

Lemma polls_exact per ts u last : 0 < per <= 4294967295 -> 0 <= last ->
  Dwt.last_cycles u = wrap32 last -> Dwt.accum_cycles u = last mod per ->
  Dwt.ticks_ms u = wrap32 (last / per) -> Dwt.cycles_per_ms u = per ->
  poll_times per last ts ->
  exists u', Dwt.polls u (map wrap32 ts) = Some (u', map (fun t => wrap32 (t / per)) ts).
Proof.
  intros Hper. revert u last. induction ts as [|t ts IH]; intros u last Hl E1 E2 E3 E4 Hts;
    [by eexists|].
  destruct Hts as (Hge & Hgap & Hts). cbn [map Dwt.polls]. unfold Dwt.poll.
  rewrite E1, E2, E3, E4.
  pose proof (Z.mod_pos_bound last per ltac:(lia)) as Hm.
  assert (wrapping_sub32 (wrap32 t) (wrap32 last) = t - last) as Ed.
  { unfold wrapping_sub32, wrap32. rewrite <- Zminus_mod. apply Z.mod_small. lia. }
  rewrite Ed. set (a := wrapping_add32 (last mod per) (t - last)).
  assert (a = t - per * (last / per)) as Ea.
  { subst a. unfold wrapping_add32, wrap32. pose proof (Z.div_mod last per ltac:(lia)).
    rewrite Z.mod_small by lia. lia. }
  assert (a / per = t / per - last / per /\ a mod per = t mod per) as [Eq Er].
  { rewrite Ea. replace (t - per * (last / per)) with (t + (- (last / per)) * per) by lia.
    rewrite Z.div_add, Z.mod_add by lia. lia. }
  rewrite drain_enough by
    (lia || (unfold a, wrapping_add32, wrap32; apply Z.mod_pos_bound; lia) ||
     (unfold u32, wrap32; apply Z.mod_pos_bound; lia)).
  assert (wrap32 (wrap32 (last / per) + a / per) = wrap32 (t / per)) as ->.
  { unfold wrap32. rewrite Zplus_mod_idemp_l, Eq. f_equal. lia. }
  destruct (IH (Dwt.mkUptime (wrap32 t) (a mod per) (wrap32 (t / per)) per) t)
    as [u' ->]; try done; [lia|]. by eexists.
Qed.

(** The uptime clock loses nothing.  However often it is polled (with gaps
    of at most 2^32 cycles less one millisecond), across any number of wraps
    of the cycle counter, every poll answers the real elapsed time in whole
    milliseconds, modulo 2^32; in particular the accumulation loop ends. *)
Theorem uptime_exact clock_hz ts :
  1000 <= clock_hz <= 4294967295 ->
  let per := clock_hz / 1000 in
  poll_times per 0 ts ->
  exists u, Dwt.polls (Dwt.uptime_new clock_hz) (map wrap32 ts) =
            Some (u, map (fun t => wrap32 (t / per)) ts).
Proof.
  intros Hhz per Hts.
  assert (1 <= per <= 4294967295) as Hper.
  { unfold per. split; [apply Z.div_le_lower_bound; lia|].
    apply Z.div_le_upper_bound; lia. }
  apply (polls_exact per ts _ 0); unfold Dwt.uptime_new; fold per;
    replace (per =? 0) with false by lia; try done; lia.
Qed.

(** At 180 MHz, polled past the wrap of the counter at 23.8 s. *)
Example uptime_exact_witness :
  exists u, Dwt.polls (Dwt.uptime_new 180000000)
              (map wrap32 [90000; 200000; 4294967295; 4295100000]) =
            Some (u, map (fun t => wrap32 (t / 180000)) [90000; 200000; 4294967295; 4295100000]).
Proof.
  refine (uptime_exact 180000000 [90000; 200000; 4294967295; 4295100000] _ _); [lia|].
  vm_compute. repeat split; congruence.
Defined.
