(* ===== verification/DeviceProfile.v ===== *)
(** * USB device profiles

    [ccid-firmware/src/device_profile.rs]: the configuration of the three
    emulated readers and the CCID class descriptor generated from it.  A host
    reads the descriptor back ([decode], the field layout of CCID Rev 1.1
    Table 5.1-1) and trusts it; [ContactSpec.v] shows that the handler honours
    what the profiles announce. *)
From Stdlib Require Import ZArith Lia ZifyBool.
From stdpp Require Import prelude strings.
From S2P Require Import Prelude.
Local Open Scope Z_scope.

Module Profile.

Definition FEAT_AUTO_PARAM_ATR : Z := 0x00000002.
Definition FEAT_AUTO_ACTIVATE : Z := 0x00000004.
Definition FEAT_AUTO_VOLTAGE : Z := 0x00000008.
Definition FEAT_AUTO_CLOCK : Z := 0x00000010.
Definition FEAT_AUTO_BAUD : Z := 0x00000020.
Definition FEAT_AUTO_PPS_NEG : Z := 0x00000040.
Definition FEAT_AUTO_PPS : Z := 0x00000080.
Definition FEAT_CLOCK_STOP : Z := 0x00000100.
Definition FEAT_NAD_OTHER : Z := 0x00000200.
Definition FEAT_AUTO_IFSD : Z := 0x00000400.
Definition FEAT_LEVEL_CHARACTER : Z := 0x00000000.
Definition FEAT_LEVEL_TPDU : Z := 0x00010000.
Definition FEAT_LEVEL_SHORT_APDU : Z := 0x00020000.
Definition FEAT_LEVEL_EXTENDED_APDU : Z := 0x00040000.
Definition FEAT_LEVEL_MASK : Z := 0x00070000.

Definition PIN_VERIFY : Z := 0x01.
Definition PIN_MODIFY : Z := 0x02.
Definition PIN_VERIFY_MODIFY : Z := 0x03.

Inductive ExchangeLevel := Tpdu | ShortApdu | ExtendedApdu.

Record DeviceProfile := mkProfile {
  vendor_id : Z; product_id : Z; device_release : Z;
  manufacturer : string; product : string; serial_number : string;
  bcd_ccid : Z; max_slot_index : Z; voltage_support : Z; protocols : Z;
  default_clock_khz : Z; max_clock_khz : Z; num_clocks : Z;
  default_data_rate : Z; max_data_rate : Z; num_data_rates : Z;
  max_ifsd : Z; synch_protocols : Z; mechanical : Z;
  features : Z;
  max_ccid_message_length : Z;
  class_get_response : Z; class_envelope : Z;
  lcd_layout : Z * Z; pin_support : Z; max_busy_slots : Z;
  interface_class : Z;
  exchange_level : ExchangeLevel
}.

(** A little-endian field of the descriptor: [x & 0xFF], [(x >> 8) & 0xFF], ... *)
Definition le16 (x : Z) : list Z := [Z.land x 0xFF; Z.land (Z.shiftr x 8) 0xFF].
Definition le32 (x : Z) : list Z :=
  le16 x ++ [Z.land (Z.shiftr x 16) 0xFF; Z.land (Z.shiftr x 24) 0xFF].

(** [ccid_descriptor]: the 52 bytes, field by field. *)
Definition ccid_descriptor (p : DeviceProfile) : list Z :=
  le16 (bcd_ccid p) ++ [max_slot_index p; voltage_support p] ++
  le32 (protocols p) ++ le32 (default_clock_khz p) ++ le32 (max_clock_khz p) ++
  [num_clocks p] ++ le32 (default_data_rate p) ++ le32 (max_data_rate p) ++
  [num_data_rates p] ++ le32 (max_ifsd p) ++ le32 (synch_protocols p) ++
  le32 (mechanical p) ++ le32 (features p) ++ le32 (max_ccid_message_length p) ++
  [class_get_response p; class_envelope p; (lcd_layout p).1; (lcd_layout p).2;
   pin_support p; max_busy_slots p].

Definition is_short_apdu (p : DeviceProfile) : bool :=
  match exchange_level p with ShortApdu => true | _ => false end.
Definition has_pin_pad (p : DeviceProfile) : bool := negb (pin_support p =? 0).
Definition has_lcd (p : DeviceProfile) : bool :=
  (0 <? (lcd_layout p).1) && (0 <? (lcd_layout p).2).

Definition BASE_PROFILE : DeviceProfile := {|
  vendor_id := 0x0000; product_id := 0x0000; device_release := 0x0100;
  manufacturer := ""; product := ""; serial_number := "";
  bcd_ccid := 0x0110; max_slot_index := 0; voltage_support := 0x01; protocols := 0x03;
  default_clock_khz := 4000; max_clock_khz := 20000; num_clocks := 0;
  default_data_rate := 10752; max_data_rate := 344086; num_data_rates := 0;
  max_ifsd := 254; synch_protocols := 0; mechanical := 0;
  features :=
    Z.lor (Z.lor (Z.lor (Z.lor (Z.lor FEAT_AUTO_PARAM_ATR FEAT_AUTO_VOLTAGE) FEAT_AUTO_CLOCK)
      FEAT_AUTO_BAUD) FEAT_AUTO_PPS) FEAT_LEVEL_TPDU;
  max_ccid_message_length := 271;
  class_get_response := 0xFF; class_envelope := 0xFF;
  lcd_layout := (0, 0); pin_support := 0x00; max_busy_slots := 1;
  interface_class := 0x0B;
  exchange_level := Tpdu
|}.

Definition PROFILE_CHERRY_SMARTTERMINAL_ST2XXX : DeviceProfile := {|
  vendor_id := 0x046A; product_id := 0x003E; device_release := device_release BASE_PROFILE;
  manufacturer := "Cherry GmbH"; product := "SmartTerminal ST-2xxx";
  serial_number := "ST2XXX-001";
  bcd_ccid := 0x0100; max_slot_index := max_slot_index BASE_PROFILE;
  voltage_support := 0x01; protocols := protocols BASE_PROFILE;
  default_clock_khz := default_clock_khz BASE_PROFILE; max_clock_khz := 8000;
  num_clocks := num_clocks BASE_PROFILE;
  default_data_rate := 10753; max_data_rate := 344105;
  num_data_rates := num_data_rates BASE_PROFILE;
  max_ifsd := max_ifsd BASE_PROFILE; synch_protocols := synch_protocols BASE_PROFILE;
  mechanical := mechanical BASE_PROFILE; features := features BASE_PROFILE;
  max_ccid_message_length := 270;
  class_get_response := class_get_response BASE_PROFILE;
  class_envelope := class_envelope BASE_PROFILE;
  lcd_layout := (0, 0); pin_support := PIN_VERIFY_MODIFY;
  max_busy_slots := max_busy_slots BASE_PROFILE;
  interface_class := 0xFF;
  exchange_level := Tpdu
|}.

(** The two Gemalto readers differ in their identity only. *)
Definition gemalto (product_id : Z) (product serial_number : string) : DeviceProfile := {|
  vendor_id := 0x08E6; product_id := product_id;
  device_release := device_release BASE_PROFILE;
  manufacturer := "Gemalto"; product := product; serial_number := serial_number;
  bcd_ccid := 0x0101; max_slot_index := max_slot_index BASE_PROFILE;
  voltage_support := voltage_support BASE_PROFILE; protocols := protocols BASE_PROFILE;
  default_clock_khz := 4800; max_clock_khz := 4800; num_clocks := num_clocks BASE_PROFILE;
  default_data_rate := 12903; max_data_rate := 825806;
  num_data_rates := num_data_rates BASE_PROFILE;
  max_ifsd := max_ifsd BASE_PROFILE; synch_protocols := synch_protocols BASE_PROFILE;
  mechanical := mechanical BASE_PROFILE;
  features :=
    Z.lor (Z.lor (Z.lor FEAT_AUTO_CLOCK FEAT_AUTO_BAUD) FEAT_NAD_OTHER) FEAT_LEVEL_TPDU;
  max_ccid_message_length := max_ccid_message_length BASE_PROFILE;
  class_get_response := 0x00; class_envelope := 0x00;
  lcd_layout := (0, 0); pin_support := 0x00;
  max_busy_slots := max_busy_slots BASE_PROFILE;
  interface_class := interface_class BASE_PROFILE;
  exchange_level := Tpdu
|}.
Definition PROFILE_GEMALTO_IDBRIDGE_CT30 : DeviceProfile :=
  gemalto 0x3437 "IDBridge CT30" "CT30-001".
Definition PROFILE_GEMALTO_IDBRIDGE_K30 : DeviceProfile :=
  gemalto 0x3438 "IDBridge K30" "K30-001".

(** The build's [CURRENT_PROFILE] is one of these. *)
Definition profiles : list DeviceProfile :=
  [PROFILE_CHERRY_SMARTTERMINAL_ST2XXX; PROFILE_GEMALTO_IDBRIDGE_CT30;
   PROFILE_GEMALTO_IDBRIDGE_K30].

End Profile.

Import Profile.

(** ** What a host reads back *)

(** The fields are of the widths the Rust struct gives them. *)
Definition profile_wf (p : DeviceProfile) : Prop :=
  u16 (bcd_ccid p) /\ u8 (max_slot_index p) /\ u8 (voltage_support p) /\ u32 (protocols p) /\
  u32 (default_clock_khz p) /\ u32 (max_clock_khz p) /\ u8 (num_clocks p) /\
  u32 (default_data_rate p) /\ u32 (max_data_rate p) /\ u8 (num_data_rates p) /\
  u32 (max_ifsd p) /\ u32 (synch_protocols p) /\ u32 (mechanical p) /\ u32 (features p) /\
  u32 (max_ccid_message_length p) /\ u8 (class_get_response p) /\ u8 (class_envelope p) /\
  u8 (lcd_layout p).1 /\ u8 (lcd_layout p).2 /\ u8 (pin_support p) /\ u8 (max_busy_slots p).

(** The layout of Table 5.1-1, by offset. *)
Definition byte_at (d : list Z) (i : nat) : Z := default 0 (d !! i).
Definition word_at (d : list Z) (i : nat) : Z :=
  from_le32 (byte_at d i) (byte_at d (i + 1)) (byte_at d (i + 2)) (byte_at d (i + 3)).

Lemma le16_value x : u16 x -> le16 x = [x mod 256; x / 256].
Proof.
  intros Hx. unfold le16. change 0xFF with (Z.ones 8).
  rewrite !Z.land_ones, Z.shiftr_div_pow2 by lia. change (2 ^ 8) with 256.
  do 2 f_equal. unfold u16 in Hx. apply Z.mod_small.
  split; [apply Z.div_pos; lia|apply Z.div_lt_upper_bound; lia].
Qed.

Lemma le32_value x : le32 x = to_le32 x.
Proof.
  unfold le32, le16, to_le32. change 0xFF with (Z.ones 8).
  by rewrite !Z.land_ones, !Z.shiftr_div_pow2 by lia.
Qed.

Lemma u8_mod x : u8 (x mod 256).
Proof. apply Z.mod_pos_bound. lia. Qed.
Lemma u8_div x : u16 x -> u8 (x / 256).
Proof. unfold u8. int_lia. Qed.

(** The class descriptor says what the profile says.  It is 52 bytes, and
    a host that reads the fields at the offsets of CCID Rev 1.1 Table 5.1-1
    recovers every capability of the profile. *)
Theorem descriptor_roundtrip p :
  profile_wf p ->
  let d := ccid_descriptor p in
  length d = 52%nat /\ bytes d /\
  from_le16 (byte_at d 0) (byte_at d 1) = bcd_ccid p /\
  byte_at d 2 = max_slot_index p /\ byte_at d 3 = voltage_support p /\
  word_at d 4 = protocols p /\ word_at d 8 = default_clock_khz p /\
  word_at d 12 = max_clock_khz p /\ byte_at d 16 = num_clocks p /\
  word_at d 17 = default_data_rate p /\ word_at d 21 = max_data_rate p /\
  byte_at d 25 = num_data_rates p /\ word_at d 26 = max_ifsd p /\
  word_at d 30 = synch_protocols p /\ word_at d 34 = mechanical p /\
  word_at d 38 = features p /\ word_at d 42 = max_ccid_message_length p /\
  byte_at d 46 = class_get_response p /\ byte_at d 47 = class_envelope p /\
  (byte_at d 48, byte_at d 49) = lcd_layout p /\
  byte_at d 50 = pin_support p /\ byte_at d 51 = max_busy_slots p.
Proof.
  intros Hp. unfold profile_wf in Hp. destruct_and!. cbv zeta. unfold ccid_descriptor.
  rewrite !le32_value, !le16_value by done.
  split; [done|]. split.
  { cbn [app to_le32]. repeat (apply Forall_cons; split); try apply Forall_nil; try done;
      first [by apply u8_mod | by apply u8_div]. }
  unfold word_at, byte_at. cbn [app lookup list_lookup default to_le32 Nat.add].
  destruct (lcd_layout p).
  split_and!; first [done | by apply from_to_le32 | unfold from_le16, id; int_lia].
Qed.

Example descriptor_roundtrip_witness :
  Forall profile_wf profiles /\
  word_at (ccid_descriptor PROFILE_CHERRY_SMARTTERMINAL_ST2XXX) 38 = 0x000100BA.
Proof.
  assert (Forall profile_wf profiles) as H by
    (repeat (apply Forall_cons; split; [vm_compute; intuition congruence|]);
     by apply Forall_nil).
  split; [exact H|].
  assert (profile_wf PROFILE_CHERRY_SMARTTERMINAL_ST2XXX) as Hc by (by inversion H).
  destruct (descriptor_roundtrip _ Hc) as (_&_&_&_&_&_&_&_&_&_&_&_&_&_&_&E&_).
  rewrite E. reflexivity.
Defined.
