(* ===== verification/CardInterface.v ===== *)
(** * The card driver interface

    [card-interface/src/lib.rs]: the traits the CCID handler core is generic
    over, as type classes ([CardBackend], [SlotDriver]), with the documented
    contract of an implementation as a third class ([SlotDriverLaws]).  The
    handler is proved against the classes.  Two implementations from
    [ccid-service/src/nfc.rs] discharge them: the scripted [MockNfcDriver] and
    [CardDriverAdapter], which stamps every exchange with the injected clock. *)
From Stdlib Require Import ZArith Lia ZifyBool.
From stdpp Require Import prelude.
From S2P Require Import Prelude Diag.
Local Open Scope Z_scope.

Inductive XfrErrorKind := Parity | Overrun | XTimeout | XMute | Hardware | Unclassified.

(** A call that fills a caller's buffer: the driver and the buffer afterwards,
    and the number of bytes written or an error. *)
Definition filled (D E : Type) : Type := D * list Z * result nat E.

Class CardBackend (D E : Type) := {
  power_on : D -> list Z -> filled D E;
  power_off : D -> D;
  is_card_present : D -> D * bool;
  transmit_apdu : D -> list Z -> list Z -> filled D E;
  xfr_error_class : D -> E -> XfrErrorKind;
  reinit_count : D -> Z
}.

Class SlotDriver (D E : Type) `{!CardBackend D E} := {
  poll_card_presence : D -> D * bool;
  session_active : D -> bool;
  card_uid : D -> option (list Z)
}.

(** What the trait documentation promises: a call writes into the buffer it is
    given (never resizes it) and answers the number of bytes written; a UID is
    an anticollision UID of at most ten bytes.  An exchange is promised for the
    buffers the reader passes, of 32 bytes at least.  [driver_ok] is the driver's own
    invariant. *)
Definition fills {D E} (ok : D -> Prop) (buf : list Z) (r : filled D E) : Prop :=
  ok r.1.1 /\ length r.1.2 = length buf /\ (bytes buf -> bytes r.1.2) /\
  match r.2 with Ok n => (n <= length buf)%nat | Err _ => True end.

Class SlotDriverLaws (D E : Type) `{!CardBackend D E, !SlotDriver D E} := {
  driver_ok : D -> Prop;
  power_on_fills d buf : driver_ok d -> fills driver_ok buf (power_on d buf);
  transmit_fills d cmd buf : driver_ok d -> (32 <= length buf)%nat ->
    fills driver_ok buf (transmit_apdu d cmd buf);
  power_off_ok d : driver_ok d -> driver_ok (power_off d);
  is_card_present_ok d : driver_ok d -> driver_ok (is_card_present d).1;
  poll_ok d : driver_ok d -> driver_ok (poll_card_presence d).1;
  card_uid_ok d u : driver_ok d -> card_uid d = Some u -> bytes u /\ (length u <= 10)%nat;
  reinit_count_ok d : driver_ok d -> u32 (reinit_count d)
}.

(** ** ccid-service/src/nfc.rs *)
Inductive NfcError := NotInitialized | NoCard | CommunicationError | NTimeout | BufferOverflow.

(** The slice of the [NfcDriver] trait the adapter uses. *)
Class NfcDriver (D E : Type) := {
  nfc_is_card_present : D -> D * bool;
  nfc_poll_card_presence : D -> D * bool;
  nfc_session_active : D -> bool;
  nfc_power_on : D -> list Z -> filled D E;
  nfc_power_off : D -> D;
  nfc_transmit_apdu : D -> list Z -> list Z -> filled D E;
  nfc_card_uid : D -> option (list Z);
  nfc_reinit_count : D -> Z;
  nfc_exchange_decomposition : D -> option (Z * Z * Z * Z)
}.

(** *** The mock driver (without its pure test probes) *)
Module Mock.

Record MockNfcDriver := mkMock {
  card_present : bool;
  atr : list Z;
  apdu_response : list Z;
  mock_session_active : bool;
  uid : list Z;
  poll_count : Z;
  last_apdu : list Z
}.

Definition new (card_present : bool) (atr apdu_response : list Z) : MockNfcDriver :=
  mkMock card_present atr apdu_response false [] 0 [].

Definition with_session (b : bool) (d : MockNfcDriver) : MockNfcDriver :=
  mkMock (card_present d) (atr d) (apdu_response d) b (uid d) (poll_count d) (last_apdu d).

Definition set_card_present (b : bool) (d : MockNfcDriver) : MockNfcDriver :=
  mkMock b (atr d) (apdu_response d) (if b then mock_session_active d else false)
    (uid d) (poll_count d) (last_apdu d).

Definition is_card_present (d : MockNfcDriver) : MockNfcDriver * bool :=
  (mkMock (card_present d) (atr d) (apdu_response d) (mock_session_active d) (uid d)
     (wrap32 (poll_count d + 1)) (last_apdu d), card_present d).

Definition poll_card_presence (d : MockNfcDriver) : MockNfcDriver * bool :=
  let '(d, present) := is_card_present d in
  (if present then d else with_session false d, present).

(** [buf[..src.len()].copy_from_slice(src)], after the length check. *)
Definition answer_with (d : MockNfcDriver) (buf src : list Z) : filled MockNfcDriver NfcError :=
  (d, src ++ drop (length src) buf, Ok (length src)).

Definition power_on (d : MockNfcDriver) (buf : list Z) : filled MockNfcDriver NfcError :=
  if negb (card_present d) then (with_session false d, buf, Err NoCard)
  else if (length buf <? length (atr d))%nat then (d, buf, Err BufferOverflow)
  else answer_with (with_session true d) buf (atr d).

Definition power_off (d : MockNfcDriver) : MockNfcDriver := with_session false d.

Definition transmit_apdu (d : MockNfcDriver) (command buf : list Z) :
    filled MockNfcDriver NfcError :=
  if negb (card_present d) then (with_session false d, buf, Err NoCard)
  else if negb (mock_session_active d) then (d, buf, Err NotInitialized)
  else
    let d := mkMock (card_present d) (atr d) (apdu_response d) (mock_session_active d)
               (uid d) (poll_count d) command in
    if (length buf <? length (apdu_response d))%nat then (d, buf, Err BufferOverflow)
    else answer_with d buf (apdu_response d).

Definition card_uid (d : MockNfcDriver) : option (list Z) :=
  match uid d with [] => None | u => Some u end.

#[global] Instance mock_nfc : NfcDriver MockNfcDriver NfcError := {
  nfc_is_card_present := is_card_present;
  nfc_poll_card_presence := poll_card_presence;
  nfc_session_active := mock_session_active;
  nfc_power_on := power_on;
  nfc_power_off := power_off;
  nfc_transmit_apdu := transmit_apdu;
  nfc_card_uid := card_uid;
  nfc_reinit_count _ := 0;
  nfc_exchange_decomposition _ := None
}.

Definition ok (d : MockNfcDriver) : Prop :=
  bytes (atr d) /\ bytes (apdu_response d) /\ bytes (uid d) /\ (length (uid d) <= 10)%nat.

End Mock.

(** *** The adapter

    The driver, the turnaround counters, and the readings the injected
    monotonic clock is going to give ([0] when none is installed). *)
Module Adapter.

Record CardDriverAdapter (D : Type) := mkAdapter {
  driver : D;
  stats : Turnaround.TurnaroundStats;
  clock : list Z
}.
Arguments mkAdapter {D} driver stats clock.
Arguments driver {D} _.
Arguments stats {D} _.
Arguments clock {D} _.

Definition new {D} (d : D) (clock : list Z) : CardDriverAdapter D :=
  mkAdapter d Turnaround.new clock.

(** [now_us()]: the reading and the remaining ones. *)
Definition now_us (clock : list Z) : Z * list Z :=
  match clock with t :: ts => (t, ts) | [] => (0, []) end.

Section Adapter.
Context {D E : Type} `{!NfcDriver D E}.

Definition with_driver (a : CardDriverAdapter D) (d : D) : CardDriverAdapter D :=
  mkAdapter d (stats a) (clock a).

Definition transmit_apdu (a : CardDriverAdapter D) (command buf : list Z) :
    filled (CardDriverAdapter D) E :=
  let '(started_us, ts) := now_us (clock a) in
  let '(d, buf, result) := nfc_transmit_apdu (driver a) command buf in
  let '(ended_us, ts) := now_us ts in
  let elapsed_us := clamp (ended_us - started_us) 0 u32_max in
  let st := Turnaround.record_card_exchange_us elapsed_us (stats a) in
  let st := match nfc_exchange_decomposition d with
            | Some (d0, d1, d2, d3) =>
                Turnaround.record_exchange_decomposition d0 d1 d2 d3 st
            | None => st
            end in
  (mkAdapter d st ts, buf, result).

#[global] Instance adapter_backend : CardBackend (CardDriverAdapter D) E := {
  power_on a buf :=
    let r := nfc_power_on (driver a) buf in (with_driver a r.1.1, r.1.2, r.2);
  power_off a := with_driver a (nfc_power_off (driver a));
  is_card_present a :=
    let r := nfc_is_card_present (driver a) in (with_driver a r.1, r.2);
  transmit_apdu := transmit_apdu;
  xfr_error_class _ _ := Unclassified;
  reinit_count a := nfc_reinit_count (driver a)
}.

#[global] Instance adapter_slot : SlotDriver (CardDriverAdapter D) E := {
  poll_card_presence a :=
    let r := nfc_poll_card_presence (driver a) in (with_driver a r.1, r.2);
  session_active a := nfc_session_active (driver a);
  card_uid a := nfc_card_uid (driver a)
}.
End Adapter.

End Adapter.


(** ** The implementations keep the contract *)

Lemma fills_answer (d : Mock.MockNfcDriver) buf src : Mock.ok d -> bytes src ->
  (length src <= length buf)%nat -> fills Mock.ok buf (Mock.answer_with d buf src).
Proof.
  intros Hd Hs Hl. unfold fills, Mock.answer_with. cbn [fst snd].
  rewrite length_app, length_drop. split_and!; [done|lia| |done].
  intros Hb. apply bytes_app. auto with bytes.
Qed.

Lemma fills_unchanged {D E} (ok : D -> Prop) d buf (e : E) :
  ok d -> fills ok buf (d, buf, Err e).
Proof. intros. by unfold fills. Qed.

Lemma mock_power_on_fills d buf : Mock.ok d -> fills Mock.ok buf (Mock.power_on d buf).
Proof.
  intros Hd. unfold Mock.power_on. destruct (negb _); [by apply fills_unchanged|].
  destruct (_ <? _)%nat eqn:E; [by apply fills_unchanged|].
  apply fills_answer; [done|apply Hd|lia].
Qed.

Lemma mock_transmit_fills d cmd buf : Mock.ok d -> fills Mock.ok buf (Mock.transmit_apdu d cmd buf).
Proof.
  intros Hd. unfold Mock.transmit_apdu. destruct (negb _); [by apply fills_unchanged|].
  destruct (negb _); [by apply fills_unchanged|]. cbv zeta. cbn [Mock.apdu_response].
  destruct (_ <? _)%nat eqn:E; [by apply fills_unchanged|].
  apply fills_answer; [done|apply Hd|lia].
Qed.

(** The same contract for the slice of [NfcDriver], and the two instances: the
    mock keeps it, and the adapter over any driver that keeps it is a lawful
    [SlotDriver], whatever the clock and the counters. *)
Class NfcDriverLaws (D E : Type) `{!NfcDriver D E} := {
  nfc_ok : D -> Prop;
  nfc_power_on_fills d buf : nfc_ok d -> fills nfc_ok buf (nfc_power_on d buf);
  nfc_transmit_fills d cmd buf : nfc_ok d -> fills nfc_ok buf (nfc_transmit_apdu d cmd buf);
  nfc_power_off_ok d : nfc_ok d -> nfc_ok (nfc_power_off d);
  nfc_is_card_present_ok d : nfc_ok d -> nfc_ok (nfc_is_card_present d).1;
  nfc_poll_ok d : nfc_ok d -> nfc_ok (nfc_poll_card_presence d).1;
  nfc_card_uid_ok d u : nfc_ok d -> nfc_card_uid d = Some u -> bytes u /\ (length u <= 10)%nat;
  nfc_reinit_count_ok d : nfc_ok d -> u32 (nfc_reinit_count d)
}.

#[export] Instance mock_nfc_laws : NfcDriverLaws Mock.MockNfcDriver NfcError.
Proof.
  refine {| nfc_ok := Mock.ok |}.
  - apply mock_power_on_fills.
  - apply mock_transmit_fills.
  - intros d Hd. exact Hd.
  - intros d Hd. exact Hd.
  - intros [[] ? ? ? ? ? ?] Hd; exact Hd.
  - intros d u (_ & _ & Hu & Hl) E. simpl in E. unfold Mock.card_uid in E.
    destruct (Mock.uid d); [done|]. by injection E as <-.
  - intros d _. simpl. unfold u32. lia.
Defined.

#[export] Instance adapter_laws {D E} `{!NfcDriver D E, !NfcDriverLaws D E} :
  SlotDriverLaws (Adapter.CardDriverAdapter D) E.
Proof.
  refine {| driver_ok := fun a => nfc_ok (Adapter.driver a) |}.
  - intros a buf Ha. exact (nfc_power_on_fills (Adapter.driver a) buf Ha).
  - intros a cmd buf Ha _. pose proof (nfc_transmit_fills (Adapter.driver a) cmd buf Ha) as H.
    simpl. unfold Adapter.transmit_apdu.
    destruct (Adapter.now_us (Adapter.clock a)) as [t0 ts]. simpl in *.
    destruct (nfc_transmit_apdu (Adapter.driver a) cmd buf) as [[d b] r]. simpl in *.
    by destruct (Adapter.now_us ts).
  - intros a Ha. exact (nfc_power_off_ok _ Ha).
  - intros a Ha. exact (nfc_is_card_present_ok _ Ha).
  - intros a Ha. exact (nfc_poll_ok _ Ha).
  - intros a u Ha. exact (nfc_card_uid_ok _ u Ha).
  - intros a Ha. exact (nfc_reinit_count_ok _ Ha).
Defined.

(** The NFC serving kernel's driver, over the mock. *)
Definition MockSlot : Type := Adapter.CardDriverAdapter Mock.MockNfcDriver.

(** The adapter is transparent.  Over any NFC driver, an exchange through
    the adapter is the driver's exchange (same command, same buffer, same
    answer) plus the bookkeeping: the exchange time is the difference of two
    clock readings clamped to 32 bits, the maximum never falls, the serve-loop
    half of the counters is untouched, and the block counters are the driver's
    when it reports them. *)
Theorem adapter_transparent {D E} `{!NfcDriver D E} (a : Adapter.CardDriverAdapter D) cmd buf t0 t1 ts :
  Adapter.clock a = t0 :: t1 :: ts ->
  let r := Adapter.transmit_apdu a cmd buf in
  let r0 := nfc_transmit_apdu (Adapter.driver a) cmd buf in
  let s := Adapter.stats r.1.1 in
  Adapter.driver r.1.1 = r0.1.1 /\ r.1.2 = r0.1.2 /\ r.2 = r0.2 /\ Adapter.clock r.1.1 = ts /\
  (0 <= t1 - t0 <= u32_max -> Turnaround.last_card_exchange_us s = t1 - t0) /\
  u32 (Turnaround.last_card_exchange_us s) /\
  Turnaround.max_card_exchange_us s =
    Z.max (Turnaround.max_card_exchange_us (Adapter.stats a)) (Turnaround.last_card_exchange_us s) /\
  Turnaround.last_turnaround_us s = Turnaround.last_turnaround_us (Adapter.stats a) /\
  Turnaround.max_turnaround_us s = Turnaround.max_turnaround_us (Adapter.stats a) /\
  (forall q, nfc_exchange_decomposition r0.1.1 = Some q ->
     (Turnaround.last_exchange_blocks s, Turnaround.last_exchange_wtx_replies s,
      Turnaround.last_exchange_recoveries s, Turnaround.last_exchange_max_transceive_us s) = q).
Proof.
  intros Hc r r0 s. subst r r0 s. simpl. unfold Adapter.transmit_apdu. rewrite Hc. simpl.
  destruct (nfc_transmit_apdu (Adapter.driver a) cmd buf) as [[d b] res]. simpl.
  unfold clamp, u32, u32_max.
  destruct (nfc_exchange_decomposition d) as [[[[q0 q1] q2] q3]|]; simpl;
    split_and!; try done; try lia; intros; simplify_eq; lia || done.
Qed.

Example adapter_transparent_witness :
  let a := Adapter.mkAdapter (Mock.new true [0x3B] [0x90; 0x00]) Turnaround.new [1000; 1250] in
  let r := Adapter.transmit_apdu a [0; 0xA4; 0; 0] [0; 0] in
  Turnaround.last_card_exchange_us (Adapter.stats r.1.1) = 250 /\
  Adapter.driver r.1.1 = (nfc_transmit_apdu (Adapter.driver a) [0; 0xA4; 0; 0] [0; 0]).1.1.
Proof.
  intros a r.
  destruct (adapter_transparent a [0; 0xA4; 0; 0] [0; 0] 1000 1250 [] eq_refl)
    as (H1 & _ & _ & _ & H2 & _).
  split; [apply H2; vm_compute; split; congruence|exact H1].
Defined.
