(* ===== verification/Handler.v ===== *)
(** * The CCID handler core

    [ccid-core/src/handler.rs]: the message handler of every reader, generic
    over the card driver ([CardBackend], [SlotDriver]) and the reader profile
    ([ReaderProfile]: contact or contactless serial).  A handler takes the
    core, the header, the payload and the caller's response buffer and returns
    the core and the buffer afterwards with the length of the response, or
    panics.  This file holds the operations; [HandlerFacts.v] what
    each one does, [HandlerSpec.v] the theorems. *)
From Stdlib Require Import ZArith Lia ZifyBool.
From stdpp Require Import prelude.
From S2P Require Import Prelude Wire Atr Diag Secure CardInterface.
Import PinBuf.
Local Open Scope Z_scope.

Definition ICC_NOT_ACTIVE : Z := 0x05.

Definition xfr_failure_b_error (kind : XfrErrorKind) : Z :=
  match kind with
  | Parity => CCID_ERR_XFR_PARITY_ERROR
  | Overrun => CCID_ERR_XFR_OVERRUN
  | XTimeout => CCID_ERR_CARD_TIMEOUT
  | XMute => CCID_ERR_ICC_MUTE
  | Hardware => CCID_ERR_HW_ERROR
  | Unclassified => CCID_ERR_CARD_TIMEOUT
  end.

Class ReaderProfile := { CONTACT : bool; PSEUDO_APDUS : bool }.
Definition SerialNfcProfile : ReaderProfile := {| CONTACT := false; PSEUDO_APDUS := true |}.
Definition ContactProfile : ReaderProfile := {| CONTACT := true; PSEUDO_APDUS := false |}.

Record ContactWireTiming := mkTiming {
  wt_fi : Z; wt_di : Z; wt_guard_time_n : Z; wt_protocol : Z
}.

Inductive SecureState :=
| SecureIdle
| WaitingForPinVerify (seq : Z) (params : PinVerifyParams)
| WaitingForPinModify (seq : Z) (params : PinModifyParams).

Record Core (D : Type) := mkCore {
  nfc : D;
  slot_state : SlotState;
  present : bool;
  tx_buf : list Z;
  sync_notifications : bool;
  diagnostic_snapshot_requested : bool;
  current_protocol : Z;
  diagnostics : Diagnostics.Diagnostics;
  firmware_version : list Z;
  card_reset_event : bool;
  parameters_accepted_event : bool;
  pin_pad : bool;
  secure_state : SecureState;
  host_params : option (Z * list Z);
  atr_params : AtrParams;
  diagnostics_fold : option (D -> Diagnostics.Diagnostics -> Diagnostics.Diagnostics)
}.
Arguments mkCore {D}.
Arguments nfc {D} _.
Arguments slot_state {D} _.
Arguments present {D} _.
Arguments tx_buf {D} _.
Arguments sync_notifications {D} _.
Arguments diagnostic_snapshot_requested {D} _.
Arguments current_protocol {D} _.
Arguments diagnostics {D} _.
Arguments firmware_version {D} _.
Arguments card_reset_event {D} _.
Arguments parameters_accepted_event {D} _.
Arguments pin_pad {D} _.
Arguments secure_state {D} _.
Arguments host_params {D} _.
Arguments atr_params {D} _.
Arguments diagnostics_fold {D} _.

(** ** Field assignments *)
Section Setters.
Context {D : Type}.
Implicit Types c : Core D.

Definition set_nfc v c : Core D :=
  mkCore v (slot_state c) (present c) (tx_buf c) (sync_notifications c)
    (diagnostic_snapshot_requested c) (current_protocol c) (diagnostics c)
    (firmware_version c) (card_reset_event c) (parameters_accepted_event c) (pin_pad c)
    (secure_state c) (host_params c) (atr_params c) (diagnostics_fold c).
Definition set_slot_state v c : Core D :=
  mkCore (nfc c) v (present c) (tx_buf c) (sync_notifications c)
    (diagnostic_snapshot_requested c) (current_protocol c) (diagnostics c)
    (firmware_version c) (card_reset_event c) (parameters_accepted_event c) (pin_pad c)
    (secure_state c) (host_params c) (atr_params c) (diagnostics_fold c).
Definition set_present v c : Core D :=
  mkCore (nfc c) (slot_state c) v (tx_buf c) (sync_notifications c)
    (diagnostic_snapshot_requested c) (current_protocol c) (diagnostics c)
    (firmware_version c) (card_reset_event c) (parameters_accepted_event c) (pin_pad c)
    (secure_state c) (host_params c) (atr_params c) (diagnostics_fold c).
Definition set_tx_buf v c : Core D :=
  mkCore (nfc c) (slot_state c) (present c) v (sync_notifications c)
    (diagnostic_snapshot_requested c) (current_protocol c) (diagnostics c)
    (firmware_version c) (card_reset_event c) (parameters_accepted_event c) (pin_pad c)
    (secure_state c) (host_params c) (atr_params c) (diagnostics_fold c).
Definition set_sync_notifications v c : Core D :=
  mkCore (nfc c) (slot_state c) (present c) (tx_buf c) v
    (diagnostic_snapshot_requested c) (current_protocol c) (diagnostics c)
    (firmware_version c) (card_reset_event c) (parameters_accepted_event c) (pin_pad c)
    (secure_state c) (host_params c) (atr_params c) (diagnostics_fold c).
Definition set_snapshot_requested v c : Core D :=
  mkCore (nfc c) (slot_state c) (present c) (tx_buf c) (sync_notifications c)
    v (current_protocol c) (diagnostics c)
    (firmware_version c) (card_reset_event c) (parameters_accepted_event c) (pin_pad c)
    (secure_state c) (host_params c) (atr_params c) (diagnostics_fold c).
Definition set_current_protocol v c : Core D :=
  mkCore (nfc c) (slot_state c) (present c) (tx_buf c) (sync_notifications c)
    (diagnostic_snapshot_requested c) v (diagnostics c)
    (firmware_version c) (card_reset_event c) (parameters_accepted_event c) (pin_pad c)
    (secure_state c) (host_params c) (atr_params c) (diagnostics_fold c).
Definition set_diagnostics v c : Core D :=
  mkCore (nfc c) (slot_state c) (present c) (tx_buf c) (sync_notifications c)
    (diagnostic_snapshot_requested c) (current_protocol c) v
    (firmware_version c) (card_reset_event c) (parameters_accepted_event c) (pin_pad c)
    (secure_state c) (host_params c) (atr_params c) (diagnostics_fold c).
Definition set_card_reset_event v c : Core D :=
  mkCore (nfc c) (slot_state c) (present c) (tx_buf c) (sync_notifications c)
    (diagnostic_snapshot_requested c) (current_protocol c) (diagnostics c)
    (firmware_version c) v (parameters_accepted_event c) (pin_pad c)
    (secure_state c) (host_params c) (atr_params c) (diagnostics_fold c).
Definition set_parameters_accepted v c : Core D :=
  mkCore (nfc c) (slot_state c) (present c) (tx_buf c) (sync_notifications c)
    (diagnostic_snapshot_requested c) (current_protocol c) (diagnostics c)
    (firmware_version c) (card_reset_event c) v (pin_pad c)
    (secure_state c) (host_params c) (atr_params c) (diagnostics_fold c).
Definition set_secure_state v c : Core D :=
  mkCore (nfc c) (slot_state c) (present c) (tx_buf c) (sync_notifications c)
    (diagnostic_snapshot_requested c) (current_protocol c) (diagnostics c)
    (firmware_version c) (card_reset_event c) (parameters_accepted_event c) (pin_pad c)
    v (host_params c) (atr_params c) (diagnostics_fold c).
Definition set_host_params v c : Core D :=
  mkCore (nfc c) (slot_state c) (present c) (tx_buf c) (sync_notifications c)
    (diagnostic_snapshot_requested c) (current_protocol c) (diagnostics c)
    (firmware_version c) (card_reset_event c) (parameters_accepted_event c) (pin_pad c)
    (secure_state c) v (atr_params c) (diagnostics_fold c).
Definition set_atr_params v c : Core D :=
  mkCore (nfc c) (slot_state c) (present c) (tx_buf c) (sync_notifications c)
    (diagnostic_snapshot_requested c) (current_protocol c) (diagnostics c)
    (firmware_version c) (card_reset_event c) (parameters_accepted_event c) (pin_pad c)
    (secure_state c) (host_params c) v (diagnostics_fold c).
Definition set_diagnostics_fold v c : Core D :=
  mkCore (nfc c) (slot_state c) (present c) (tx_buf c) (sync_notifications c)
    (diagnostic_snapshot_requested c) (current_protocol c) (diagnostics c)
    (firmware_version c) (card_reset_event c) (parameters_accepted_event c) (pin_pad c)
    (secure_state c) (host_params c) (atr_params c) v.
End Setters.

(** An element of a fixed-size Rust array at a constant index (in bounds by
    typing). *)
Definition arr (l : list Z) (i : nat) : Z := default 0 (l !! i).

Definition TX_BUF_SIZE : nat := 271.
Definition CARD_RESP_SIZE : nat := 261.

(** The host-parameter views of the transport glue. *)
Section Views.
Context {D : Type}.
Implicit Types c : Core D.

Definition current_icc_status c : Z := icc_status (slot_state c).

Definition with_diagnostics_fold c fold : Core D := set_diagnostics_fold (Some fold) c.

Definition take_snapshot_request c : Core D * bool :=
  (set_snapshot_requested false c, diagnostic_snapshot_requested c).
Definition take_card_reset c : Core D * bool :=
  (set_card_reset_event false c, card_reset_event c).
Definition take_parameters_accepted c : Core D * bool :=
  (set_parameters_accepted false c, parameters_accepted_event c).

Definition applied_t1_timing c : option (Z * Z * Z) :=
  match host_params c with
  | None => None
  | Some (proto, raw) =>
      if negb (proto =? 1) || negb (current_protocol c =? 1) then None
      else Some (t1_bwi_cwi_ifsc raw)
  end.

Definition accepted_contact_timing c : option ContactWireTiming :=
  match host_params c with
  | None => None
  | Some (proto, raw) =>
      Some {| wt_fi := fi_from_ta1_high (Z.shiftr (arr raw 0) 4);
              wt_di := di_from_ta1_low (Z.land (arr raw 0) 0x0F);
              wt_guard_time_n := arr raw 2;
              wt_protocol := proto |}
  end.

Definition is_pin_verify_active c : bool :=
  match secure_state c with WaitingForPinVerify _ _ => true | _ => false end.
Definition is_pin_modify_active c : bool :=
  match secure_state c with WaitingForPinModify _ _ => true | _ => false end.
Definition is_pin_entry_active c : bool :=
  match secure_state c with
  | WaitingForPinVerify _ _ | WaitingForPinModify _ _ => true
  | SecureIdle => false
  end.

Definition take_secure_params c : Core D * option (Z * PinVerifyParams) :=
  (set_secure_state SecureIdle c,
   match secure_state c with WaitingForPinVerify seq p => Some (seq, p) | _ => None end).
Definition take_secure_modify_params c : Core D * option (Z * PinModifyParams) :=
  (set_secure_state SecureIdle c,
   match secure_state c with WaitingForPinModify seq p => Some (seq, p) | _ => None end).
Definition cancel_secure c : Core D := set_secure_state SecureIdle c.

Definition record_nak c : Core D := set_diagnostics (Diagnostics.bump_nak (diagnostics c)) c.
Definition record_protocol_error c : Core D :=
  set_diagnostics (Diagnostics.bump_error (diagnostics c)) c.

(** [complete_pin_entry]: writes the deferred answer and ends the session. *)
Definition complete_pin_entry c (seq : Z) (result : PinResult)
    (apdu_response : option (list Z)) (response : list Z) : Core D * reply :=
  let '(cmd_status, error, data) :=
    match result with
    | Success => (COMMAND_STATUS_NO_ERROR, 0, default [] apdu_response)
    | Cancelled => (COMMAND_STATUS_FAILED, CCID_ERR_PIN_CANCELLED, [])
    | Timeout => (COMMAND_STATUS_FAILED, CCID_ERR_PIN_TIMEOUT, [])
    | InvalidLength => (COMMAND_STATUS_FAILED, CCID_ERR_CMD_ABORTED, [])
    end in
  (set_secure_state SecureIdle c,
   write_message RDR_TO_PC_DATABLOCK 0 seq (build_bstatus cmd_status (current_icc_status c))
     error 0 data response).

(** The replies nearly every handler ends in. *)
Definition slot_status_failed_reply c (h : CcidHeader) (icc error : Z) (response : list Z)
    : Core D * reply :=
  (c, write_slot_status (slot h) (seq h) icc COMMAND_STATUS_FAILED error 0 response).
Definition slot_status_ok_reply c (h : CcidHeader) (response : list Z) : Core D * reply :=
  (c, write_slot_status (slot h) (seq h) (current_icc_status c) COMMAND_STATUS_NO_ERROR 0 0
        response).
Definition data_block_reply c (h : CcidHeader) (data response : list Z) : Core D * reply :=
  (c, write_message RDR_TO_PC_DATABLOCK (slot h) (seq h)
        (build_bstatus COMMAND_STATUS_NO_ERROR ICC_STATUS_PRESENT_ACTIVE) 0 0 data response).
Definition data_block_failed_reply c (h : CcidHeader) (icc error : Z) (response : list Z)
    : Core D * reply :=
  (c, write_message RDR_TO_PC_DATABLOCK (slot h) (seq h)
        (build_bstatus COMMAND_STATUS_FAILED icc) error 0 [] response).
Definition escape_reply c (h : CcidHeader) (cmd specific : Z) (data response : list Z)
    : Core D * reply :=
  (c, write_message RDR_TO_PC_ESCAPE (slot h) (seq h)
        (build_bstatus cmd (current_icc_status c)) 0 specific data response).
End Views.

(** ** The handlers *)
Section Handler.
Context {D E : Type} `{!CardBackend D E, !SlotDriver D E} {P : ReaderProfile}.
Implicit Types (c : Core D) (h : CcidHeader).

(** [with_profile]; [new] is the serial profile without PIN pad. *)
Definition with_profile (nfc : D) (firmware_version : list Z) (pin_pad : bool) : Core D :=
  {| nfc := nfc; slot_state := Absent; present := false;
     tx_buf := replicate TX_BUF_SIZE 0; sync_notifications := false;
     diagnostic_snapshot_requested := false;
     current_protocol := (if CONTACT then 0 else 1);
     diagnostics := Diagnostics.set_reinit (reinit_count nfc) Diagnostics.new;
     firmware_version := firmware_version; card_reset_event := false;
     parameters_accepted_event := false; pin_pad := pin_pad; secure_state := SecureIdle;
     host_params := None; atr_params := AtrParams_default; diagnostics_fold := None |}.

Definition refresh_diagnostics c (uptime_ticks : Z) : Core D :=
  set_diagnostics
    (Diagnostics.set_reinit (reinit_count (nfc c))
       (Diagnostics.set_uptime uptime_ticks (diagnostics c))) c.

(** [count_transmit]: apdu_tx at every call, apdu_rx when the card answers;
    the caller's buffer afterwards comes back beside the result. *)
Definition transmit_counted c (command buf : list Z) : Core D * list Z * result nat E :=
  let c := set_diagnostics (Diagnostics.bump_tx (diagnostics c)) c in
  let '(d, buf, result) := transmit_apdu (nfc c) command buf in
  let c := set_nfc d c in
  let c := if is_ok result
           then set_diagnostics (Diagnostics.bump_rx (diagnostics c)) c else c in
  (c, buf, result).

(** The exchange with the card's answer scratch both PIN exchanges end in. *)
Definition pin_exchange c (seq : Z) (apdu response : list Z) : outcome (Core D * reply) :=
  let '(c, card_resp, result) := transmit_counted c apdu (replicate CARD_RESP_SIZE 0) in
  match result with
  | Ok resp_len =>
      answer ← slice card_resp 0 resp_len;
      Ret (complete_pin_entry c seq Success (Some answer) response)
  | Err _ => Ret (complete_pin_entry c seq Cancelled None response)
  end.

Definition complete_pin_verify_exchange c (seq : Z) (result : PinResult) (buffer : PinBuffer)
    (params : PinVerifyParams) (response : list Z) : outcome (Core D * reply) :=
  match result with
  | Success =>
      ascii_pin ← to_ascii buffer;
      pin ← slice ascii_pin 0 (len buffer);
      let t := v_apdu_template params in
      built ← verify_build (verify_from_template (arr t 0) (arr t 2) (arr t 3)) pin;
      match built with
      | Ok apdu =>
          command ← slice apdu 0 (5 + len buffer);
          pin_exchange c seq command response
      | Err _ => Ret (complete_pin_entry c seq InvalidLength None response)
      end
  | Cancelled | Timeout | InvalidLength =>
      Ret (complete_pin_entry c seq result None response)
  end.

Definition complete_pin_modify_exchange c (seq : Z) (result : PinResult)
    (old_buffer new_buffer : PinBuffer) (params : PinModifyParams) (response : list Z) :
    outcome (Core D * reply) :=
  match result with
  | Success =>
      old_ascii ← to_ascii old_buffer;
      new_ascii ← to_ascii new_buffer;
      old_pin ← slice old_ascii 0 (len old_buffer);
      new_pin ← slice new_ascii 0 (len new_buffer);
      let t := m_apdu_template params in
      built ← modify_build
                (modify_from_template (arr t 0) (arr t 2) (arr t 3)
                   (m_old_pin_offset params) (m_new_pin_offset params)) old_pin new_pin;
      match built with
      | Ok apdu =>
          command ← slice apdu 0 (5 + len old_buffer + len new_buffer);
          pin_exchange c seq command response
      | Err _ => Ret (complete_pin_entry c seq InvalidLength None response)
      end
  | Cancelled | Timeout | InvalidLength =>
      Ret (complete_pin_entry c seq result None response)
  end.

(** *** Power and presence *)

(** [check_card_change]: the presence poll of the serve loop. *)
Definition check_card_change c : Core D * option bool :=
  if session_active (nfc c) then
    (set_diagnostics (Diagnostics.set_card_present true (diagnostics c))
       (set_slot_state PresentActive (set_present true c)), None)
  else
    let '(d, now) := poll_card_presence (nfc c) in
    let c := set_nfc d c in
    let c := set_diagnostics
               (Diagnostics.set_reinit (reinit_count (nfc c))
                  (Diagnostics.set_card_present now (diagnostics c))) c in
    if negb CONTACT && bool_decide (slot_state c = PresentActive) && now then
      (set_card_reset_event true (set_present now (set_slot_state PresentInactive c)),
       Some true)
    else if negb (eqb now (present c)) then
      let c := set_present now c in
      let c :=
        if now then set_slot_state PresentInactive c
        else
          let c := if CONTACT
                   then set_secure_state SecureIdle (set_nfc (power_off (nfc c)) c)
                   else c in
          set_slot_state Absent c in
      (c, Some now)
    else (c, None).

(** [handle_power_on_contact] and [handle_power_on]. *)
Definition handle_power_on_contact c h (response : list Z) : outcome (Core D * reply) :=
  if negb (dw_length h =? 0) then
    Ret (slot_status_failed_reply c h (current_icc_status c) CCID_ERR_CMD_NOT_SUPPORTED
           response)
  else
    let '(d, card) := is_card_present (nfc c) in
    let c := set_nfc d c in
    if negb card then
      Ret (slot_status_failed_reply c h ICC_STATUS_NO_ICC CCID_ERR_ICC_MUTE response)
    else
      let power_select := specific0 h in
      if (power_select =? 0x02) || (power_select =? 0x03) then
        Ret (slot_status_failed_reply c h ICC_STATUS_PRESENT_INACTIVE
               CCID_ERR_CMD_NOT_SUPPORTED response)
      else
        let '(d, tx, result) := power_on (nfc c) (tx_buf c) in
        let c := set_tx_buf tx (set_nfc d c) in
        match result with
        | Ok atr_len =>
            let c := set_slot_state PresentActive (set_present true c) in
            atr ← slice (tx_buf c) 0 atr_len;
            let c := set_atr_params (parse_atr atr) c in
            let c := set_current_protocol (protocol (atr_params c)) c in
            let c := set_card_reset_event true (set_host_params None c) in
            Ret (data_block_reply c h atr response)
        | Err _ =>
            Ret (slot_status_failed_reply (set_slot_state PresentInactive c) h
                   ICC_STATUS_PRESENT_INACTIVE CCID_ERR_ICC_MUTE response)
        end.

Definition handle_power_on c h (response : list Z) : outcome (Core D * reply) :=
  if CONTACT then handle_power_on_contact c h response
  else if negb (present c) then
    Ret (slot_status_failed_reply c h ICC_STATUS_NO_ICC CCID_ERR_CMD_NOT_SUPPORTED response)
  else
    let '(d, tx, result) := power_on (nfc c) (tx_buf c) in
    let c := set_tx_buf tx (set_nfc d c) in
    match result with
    | Ok atr_len =>
        let c := set_card_reset_event true
                   (set_slot_state PresentActive (set_present true c)) in
        atr ← slice (tx_buf c) 0 atr_len;
        Ret (data_block_reply c h atr response)
    | Err _ =>
        let c := set_slot_state PresentInactive c in
        Ret (slot_status_failed_reply c h (current_icc_status c) CCID_ERR_HW_ERROR response)
    end.

Definition handle_power_off c h (response : list Z) : Core D * reply :=
  let c := set_nfc (power_off (nfc c)) c in
  let c := set_slot_state PresentInactive c in
  let c := if CONTACT then set_current_protocol 0 c else c in
  slot_status_ok_reply c h response.

Definition handle_get_slot_status c h (response : list Z) : Core D * reply :=
  slot_status_ok_reply c h response.

(** *** Data exchange *)
Definition handle_xfr_block_contact c h (apdu response : list Z) : outcome (Core D * reply) :=
  if negb (bool_decide (slot_state c = PresentActive)) then
    Ret (slot_status_failed_reply c h (current_icc_status c) CCID_ERR_ICC_MUTE response)
  else if (261 <? length apdu)%nat then
    Ret (slot_status_failed_reply c h ICC_STATUS_PRESENT_ACTIVE 0x07 response)
  else if is_pps_request apdu then Ret (data_block_reply c h apdu response)
  else
    let '(c, tx, result) := transmit_counted c apdu (tx_buf c) in
    let c := set_tx_buf tx c in
    match result with
    | Ok resp_len =>
        answer ← slice (tx_buf c) 0 resp_len;
        Ret (data_block_reply c h answer response)
    | Err e =>
        let b_error := xfr_failure_b_error (xfr_error_class (nfc c) e) in
        Ret (data_block_failed_reply c h ICC_STATUS_PRESENT_ACTIVE b_error response)
    end.

Definition write_sw c h (sw response : list Z) : Core D * reply :=
  data_block_reply c h sw response.

Definition answer_get_uid c h (response : list Z) : outcome (Core D * reply) :=
  match card_uid (nfc c) with
  | None => Ret (write_sw c h [0x63; 0x00] response)
  | Some uid =>
      let uid_len := length uid in
      tx ← copy_at (tx_buf c) 0 uid;
      tx ← store tx uid_len 0x90;
      tx ← store tx (uid_len + 1) 0x00;
      let c := set_tx_buf tx c in
      answer ← slice (tx_buf c) 0 (uid_len + 2);
      Ret (data_block_reply c h answer response)
  end.

(** [apdu_pipeline]: PPS echo, reader-level pseudo-APDUs, card relay. *)
Definition apdu_pipeline c h (apdu response : list Z) : outcome (Core D * reply) :=
  if is_pps_request apdu then Ret (data_block_reply c h apdu response)
  else if PSEUDO_APDUS && bool_decide (head apdu = Some 0xFF) && (4 <=? length apdu)%nat then
    if (arr apdu 1 =? 0xCA) && (arr apdu 2 =? 0x00) && (arr apdu 3 =? 0x00)
    then answer_get_uid c h response
    else if arr apdu 1 =? 0xCA then Ret (write_sw c h [0x6A; 0x86] response)
    else Ret (write_sw c h [0x63; 0x00] response)
  else
    let '(c, tx, result) := transmit_counted c apdu (tx_buf c) in
    let c := set_tx_buf tx c in
    match result with
    | Ok resp_len =>
        answer ← slice (tx_buf c) 0 resp_len;
        Ret (data_block_reply c h answer response)
    | Err e =>
        let b_error := xfr_failure_b_error (xfr_error_class (nfc c) e) in
        let c := set_slot_state PresentInactive c in
        Ret (data_block_failed_reply c h (current_icc_status c) b_error response)
    end.

Definition handle_xfr_block c h (apdu response : list Z) : outcome (Core D * reply) :=
  if CONTACT then handle_xfr_block_contact c h apdu response
  else if negb (bool_decide (slot_state c = PresentActive)) then
    Ret (data_block_failed_reply c h (current_icc_status c) ICC_NOT_ACTIVE response)
  else apdu_pipeline c h apdu response.

(** *** Parameters *)

(** [parameter_payload]: the structure's bytes and bProtocolNum. *)
Definition atr_payload (p : AtrParams) (proto : Z) : list Z :=
  if proto =? 1 then
    [(if has_ta1 p then ta1 p else 0x11);
     Z.shiftl (Z.land (edc_type p) 1) 4;
     guard_time_n p;
     Z.lor (wrap8 (Z.shiftl (bwi p) 4)) (Z.land (cwi p) 0x0F);
     0x00;
     Z.min (ifsc p) 254;
     0x00]
  else [(if has_ta1 p then ta1 p else 0x11); 0x00; guard_time_n p; 0x00; 0x00; 0x00; 0x00].

Definition parameter_payload c : list Z * Z :=
  let proto := current_protocol c in
  if negb CONTACT then
    let defaults := (take 7 (default_params proto), proto) in
    match host_params c with
    | Some (p, raw) => if (p =? proto) && (p =? 1) then (take 7 raw, p) else defaults
    | None => defaults
    end
  else
    let len := if proto =? 1 then 7%nat else 5%nat in
    let derived := (take len (atr_payload (atr_params c) proto), proto) in
    match host_params c with
    | Some (p, raw) =>
        if p =? proto then (take (if p =? 1 then 7%nat else 5%nat) raw, p) else derived
    | None => derived
    end.

Definition write_parameters c h (response : list Z) : Core D * reply :=
  let '(payload, protocol) := parameter_payload c in
  (c, write_message RDR_TO_PC_PARAMETERS (slot h) (seq h)
        (build_bstatus COMMAND_STATUS_NO_ERROR (current_icc_status c)) 0 protocol payload
        response).

(** The field assignments to [atr_params] of an accepted SetParameters. *)
Definition adopt_host_params (proto : Z) (raw : list Z) (p : AtrParams) : AtrParams :=
  let p := set_guard_time_n (arr raw 2) (set_ta1 (arr raw 0) p) in
  if proto =? 1 then
    let '(b, w, i) := t1_bwi_cwi_ifsc raw in
    set_ifsc i (set_edc_type (Z.land (arr raw 1) 1) (set_bwi_cwi b w p))
  else p.

Definition handle_set_parameters_contact c h (payload response : list Z) :
    outcome (Core D * reply) :=
  let data_len := dw_length h in
  let implied := if data_len =? 5 then Some 0 else if data_len =? 7 then Some 1 else None in
  match implied with
  | None => Ret (slot_status_failed_reply c h (current_icc_status c) 0x07 response)
  | Some length_implied_protocol =>
      let copy_len := ((Z.to_nat data_len `min` 7) `min` length payload)%nat in
      src ← slice payload 0 copy_len;
      raw ← copy_at (replicate 7 0) 0 src;
      let requested_protocol := specific0 h in
      let valid :=
        (requested_protocol =? length_implied_protocol) &&
        (if requested_protocol =? 1
         then (Z.land (arr raw 1) 0xFE =? 0) &&
              ((16 <=? arr raw 5) && (arr raw 5 <=? 254)) && (arr raw 6 =? 0)
         else Z.land (arr raw 1) 0x7F =? 0) in
      if negb valid then
        Ret (c, write_message RDR_TO_PC_PARAMETERS (slot h) (seq h)
                  (build_bstatus COMMAND_STATUS_FAILED (current_icc_status c)) 0x08 0 []
                  response)
      else
        let c := set_current_protocol requested_protocol c in
        let c := set_host_params (Some (requested_protocol, raw)) c in
        let c := set_parameters_accepted true c in
        let c := set_atr_params (adopt_host_params requested_protocol raw (atr_params c)) c in
        Ret (write_parameters c h response)
  end.

Definition handle_set_parameters c h (payload response : list Z) : outcome (Core D * reply) :=
  if CONTACT then handle_set_parameters_contact c h payload response
  else if 1 <? specific0 h then
    Ret (slot_status_failed_reply c h (current_icc_status c) CCID_ERR_CMD_NOT_SUPPORTED
           response)
  else
    let c := set_current_protocol (specific0 h) c in
    let c := if (specific0 h =? 1) && (dw_length h =? 7) && (7 <=? length payload)%nat
             then set_host_params (Some (1, take 7 payload)) c else c in
    Ret (write_parameters (set_parameters_accepted true c) h response).

Definition handle_reset_parameters c h (response : list Z) : Core D * reply :=
  if CONTACT then
    let c := set_atr_params AtrParams_default c in
    let c := set_host_params None (set_current_protocol 0 c) in
    write_parameters (set_parameters_accepted true c) h response
  else
    write_parameters (set_parameters_accepted true (set_current_protocol 1 c)) h response.

(** *** Escape *)
Definition handle_escape c h (payload response : list Z) : Core D * reply :=
  if bool_decide (head payload = Some 0xD0) then
    let diag := match diagnostics_fold c with
                | Some fold => fold (nfc c) (diagnostics c)
                | None => diagnostics c
                end in
    let diag_buf :=
      (Diagnostics.to_bytes diag (replicate Diagnostics.SERIALIZED_SIZE 0)).1 in
    escape_reply c h COMMAND_STATUS_NO_ERROR 0 diag_buf response
  else if negb CONTACT && bool_decide (head payload = Some 0xD1) then
    let c := set_snapshot_requested true c in
    escape_reply c h COMMAND_STATUS_NO_ERROR 0 [0xD1] response
  else if negb CONTACT && bool_decide (head payload = Some 0x02) then
    escape_reply c h COMMAND_STATUS_NO_ERROR 0 (firmware_version c) response
  else if negb CONTACT && bool_decide (take 3 payload = [0x01; 0x01; 0x01]) then
    let c := set_sync_notifications true c in
    escape_reply c h COMMAND_STATUS_NO_ERROR 0 [0x01; 0x01; 0x01] response
  else if bool_decide (payload = [0x1F; 0x02]) then
    escape_reply c h COMMAND_STATUS_FAILED CCID_ERR_CMD_NOT_SUPPORTED [] response
  else escape_reply c h COMMAND_STATUS_FAILED CCID_ERR_CMD_NOT_SUPPORTED [] response.

(** *** Secure *)
Definition secure_not_supported c h (response : list Z) : Core D * reply :=
  if CONTACT
  then data_block_failed_reply c h (current_icc_status c) CCID_ERR_CMD_NOT_SUPPORTED response
  else slot_status_failed_reply c h (current_icc_status c) CCID_ERR_CMD_NOT_SUPPORTED response.

Definition handle_secure c h (payload response : list Z) : outcome (Core D * reply) :=
  if negb (pin_pad c) then Ret (secure_not_supported c h response)
  else if negb (bool_decide (slot_state c = PresentActive)) then
    Ret (data_block_failed_reply c h (current_icc_status c) CCID_ERR_CMD_SLOT_BUSY response)
  else
    match payload with
    | [] => Ret (secure_not_supported c h response)
    | pin_operation :: pin_data =>
        if pin_operation =? 0x00 then
          parsed ← verify_parse pin_data;
          match parsed with
          | Some params =>
              Ret (set_secure_state (WaitingForPinVerify (seq h) params) c,
                   (response, 0%nat))
          | None => Ret (secure_not_supported c h response)
          end
        else if pin_operation =? 0x01 then
          parsed ← modify_parse pin_data;
          match parsed with
          | Some params =>
              Ret (set_secure_state (WaitingForPinModify (seq h) params) c,
                   (response, 0%nat))
          | None => Ret (secure_not_supported c h response)
          end
        else Ret (secure_not_supported c h response)
    end.

(** *** Dispatch *)
Definition dispatch c h (payload response : list Z) : outcome (Core D * reply) :=
  let t := message_type h in
  if t =? PC_TO_RDR_ICC_POWER_ON then handle_power_on c h response
  else if t =? PC_TO_RDR_ICC_POWER_OFF then Ret (handle_power_off c h response)
  else if t =? PC_TO_RDR_GET_SLOT_STATUS then Ret (handle_get_slot_status c h response)
  else if t =? PC_TO_RDR_XFR_BLOCK then handle_xfr_block c h payload response
  else if t =? PC_TO_RDR_GET_PARAMETERS then Ret (write_parameters c h response)
  else if t =? PC_TO_RDR_SET_PARAMETERS then handle_set_parameters c h payload response
  else if t =? PC_TO_RDR_RESET_PARAMETERS then Ret (handle_reset_parameters c h response)
  else if t =? PC_TO_RDR_ESCAPE then Ret (handle_escape c h payload response)
  else if t =? PC_TO_RDR_SECURE then handle_secure c h payload response
  else if (t =? PC_TO_RDR_ABORT) && CONTACT then Ret (slot_status_ok_reply c h response)
  else Ret (slot_status_failed_reply c h (current_icc_status c) CCID_ERR_CMD_NOT_SUPPORTED
              response).

(** [len > 7 && response[7] & (COMMAND_STATUS_FAILED << 6) != 0] *)
Definition account_failure (r : Core D * reply) : outcome (Core D * reply) :=
  let '(c, (response, len)) := r in
  if (7 <? len)%nat then
    status ← index response 7;
    Ret (if negb (Z.land status (Z.shiftl COMMAND_STATUS_FAILED 6) =? 0)
         then (record_protocol_error c, (response, len)) else r)
  else Ret r.

Definition process_command c (ccid_msg response : list Z) : outcome (Core D * reply) :=
  match CcidHeader_parse ccid_msg with
  | None => Ret (c, (response, 0%nat))
  | Some h =>
      let msg_end := usize_add (Z.of_nat CCID_HEADER_SIZE) (dw_length h) in
      if Z.of_nat (length ccid_msg) <? msg_end then
        let c := record_protocol_error c in
        Ret (slot_status_failed_reply c h (current_icc_status c) CCID_ERR_CMD_NOT_SUPPORTED
               response)
      else
        payload ← slice ccid_msg CCID_HEADER_SIZE (Z.to_nat msg_end);
        r ← dispatch c h payload response;
        account_failure r
  end.
End Handler.

(** [CcidHandlerCore::new]. *)
Definition new {D E} `{!CardBackend D E} (nfc : D) (firmware_version : list Z) : Core D :=
  with_profile (P := SerialNfcProfile) nfc firmware_version false.
