(* ===== verification/HandlerFacts.v ===== *)
(** * The CCID handler core: what every command does

    The invariant of the core, the contract every handler keeps ([handled]:
    the reply, the slot state, the card, the counters and the parameters), and
    the theorems about [Handler.process_command] and the presence poll. *)
From Stdlib Require Import ZArith Lia ZifyBool.
From stdpp Require Import prelude.
From S2P Require Import Prelude Wire Atr Diag Secure CardInterface Handler.
Import PinBuf.
Local Open Scope Z_scope.

Ltac solve_u8 :=
  first [assumption | cbn [fst snd]; assumption | vm_compute; split; [discriminate|reflexivity]].

(** ** The invariant of the core *)
Definition host_ok (hp : option (Z * list Z)) : Prop :=
  match hp with
  | None => True
  | Some (p, raw) => (p = 0 \/ p = 1) /\ length raw = 7%nat /\ bytes raw
  end.

Record core_ok {D E} `{!CardBackend D E, !SlotDriver D E, !SlotDriverLaws D E}
    (c : Core D) : Prop := mkCoreOk {
  ok_driver : driver_ok (nfc c);
  ok_tx_length : length (tx_buf c) = TX_BUF_SIZE;
  ok_tx_bytes : bytes (tx_buf c);
  ok_diagnostics : Diagnostics.wf (diagnostics c);
  ok_firmware : bytes (firmware_version c) /\ (length (firmware_version c) <= 261)%nat;
  ok_protocol : u8 (current_protocol c);
  ok_host : host_ok (host_params c);
  ok_atr : AtrParams_wf (atr_params c)
}.

(** ** The contract of a command

    [failed] is bmCommandStatus of the reply. *)

(** The reply's message type, by command and outcome. *)
Definition reply_type (t ty : Z) (failed : bool) : bool :=
  if negb failed then
    if (t =? PC_TO_RDR_ICC_POWER_ON) || (t =? PC_TO_RDR_XFR_BLOCK) then ty =? RDR_TO_PC_DATABLOCK
    else if (t =? PC_TO_RDR_GET_PARAMETERS) || (t =? PC_TO_RDR_SET_PARAMETERS) ||
            (t =? PC_TO_RDR_RESET_PARAMETERS) then ty =? RDR_TO_PC_PARAMETERS
    else if t =? PC_TO_RDR_ESCAPE then ty =? RDR_TO_PC_ESCAPE
    else ((t =? PC_TO_RDR_ICC_POWER_OFF) || (t =? PC_TO_RDR_GET_SLOT_STATUS) ||
          (t =? PC_TO_RDR_ABORT)) && (ty =? RDR_TO_PC_SLOTSTATUS)
  else if (t =? PC_TO_RDR_ICC_POWER_OFF) || (t =? PC_TO_RDR_GET_SLOT_STATUS) ||
          (t =? PC_TO_RDR_GET_PARAMETERS) || (t =? PC_TO_RDR_RESET_PARAMETERS) then false
  else if t =? PC_TO_RDR_ESCAPE then ty =? RDR_TO_PC_ESCAPE
  else if (t =? PC_TO_RDR_XFR_BLOCK) || (t =? PC_TO_RDR_SECURE)
       then (ty =? RDR_TO_PC_DATABLOCK) || (ty =? RDR_TO_PC_SLOTSTATUS)
  else if t =? PC_TO_RDR_SET_PARAMETERS
       then (ty =? RDR_TO_PC_PARAMETERS) || (ty =? RDR_TO_PC_SLOTSTATUS)
  else ty =? RDR_TO_PC_SLOTSTATUS.

(** The largest payload of a reply: only what a card says, an ATR or an answer,
    may fill the transmit buffer; everything else fits a 271-byte message. *)
Definition room (h : CcidHeader) (failed : bool) : nat :=
  if negb failed && ((message_type h =? PC_TO_RDR_XFR_BLOCK) ||
                     (message_type h =? PC_TO_RDR_ICC_POWER_ON))
  then TX_BUF_SIZE else 261.

Lemma room_small h failed n : (n <= 261)%nat -> (n <= room h failed)%nat.
Proof. unfold room, TX_BUF_SIZE. case_match; lia. Qed.

Lemma room_card h :
  message_type h = PC_TO_RDR_XFR_BLOCK \/ message_type h = PC_TO_RDR_ICC_POWER_ON ->
  room h false = TX_BUF_SIZE.
Proof. unfold room. by intros [-> | ->]. Qed.

Lemma room_max h failed : (room h failed <= TX_BUF_SIZE)%nat.
Proof. unfold room, TX_BUF_SIZE. case_match; lia. Qed.

Lemma reply_type_u8 t ty failed : reply_type t ty failed = true -> u8 ty.
Proof.
  unfold reply_type, u8, RDR_TO_PC_DATABLOCK, RDR_TO_PC_PARAMETERS, RDR_TO_PC_ESCAPE,
    RDR_TO_PC_SLOTSTATUS. repeat case_match; try done; intros; lia.
Qed.

(** The slot state a reply may report: the state as it is afterwards; a failed
    IccPowerOn may instead report no card, or an inactive one -- over a slot that
    a refusal leaves active, too. *)
Definition reported (t : Z) (failed : bool) (s : SlotState) (icc : Z) : Prop :=
  icc = icc_status s \/
  t = PC_TO_RDR_ICC_POWER_ON /\ failed = true /\
    (icc = ICC_STATUS_NO_ICC \/ icc = ICC_STATUS_PRESENT_INACTIVE).

(** A reply to [h]: a message that echoes bSlot and bSeq, of the command's
    reply type, whose bmICCStatus is the slot state afterwards ([reported]),
    or a deferred answer of an armed PIN
    session. *)
Inductive answered {D} (h : CcidHeader) (buf : list Z) (c' : Core D) : bool -> reply -> Prop :=
| Answered ty failed icc err sp data :
    reply_type (message_type h) ty failed = true ->
    0 <= icc <= 2 ->
    reported (message_type h) failed (slot_state c') icc ->
    u8 err -> u8 sp -> bytes data ->
    (length data <= room h failed)%nat ->
    answered h buf c' failed
      (write_message ty (slot h) (seq h)
         (build_bstatus (if failed then COMMAND_STATUS_FAILED else COMMAND_STATUS_NO_ERROR) icc)
         err sp data buf)
| Deferred :
    message_type h = PC_TO_RDR_SECURE -> is_pin_entry_active c' = true ->
    answered h buf c' false (buf, 0%nat).

(** The slot's state machine, one command. *)
Inductive slot_step (contact : bool) (t : Z) : SlotState -> bool -> SlotState -> Prop :=
| Activated s : t = PC_TO_RDR_ICC_POWER_ON -> slot_step contact t s false PresentActive
| ActivationFailed s :
    t = PC_TO_RDR_ICC_POWER_ON -> slot_step contact t s true PresentInactive
| Deactivated s : t = PC_TO_RDR_ICC_POWER_OFF -> slot_step contact t s false PresentInactive
| Exchanged : t = PC_TO_RDR_XFR_BLOCK -> slot_step contact t PresentActive false PresentActive
| ExchangeFailed :
    t = PC_TO_RDR_XFR_BLOCK ->
    slot_step contact t PresentActive true (if contact then PresentActive else PresentInactive)
| Refused s :
    t <> PC_TO_RDR_ICC_POWER_OFF ->
    (t = PC_TO_RDR_XFR_BLOCK -> s = PresentActive -> contact = true) ->
    slot_step contact t s true s
| Kept s failed :
    t <> PC_TO_RDR_ICC_POWER_ON -> t <> PC_TO_RDR_ICC_POWER_OFF -> t <> PC_TO_RDR_XFR_BLOCK ->
    slot_step contact t s failed s.

(** The APDU counters: a relayed command counts tx, an answered one rx. *)
Inductive counted (t : Z) (d : Diagnostics.Diagnostics) :
    bool -> Diagnostics.Diagnostics -> Prop :=
| CountedNone failed : counted t d failed d
| CountedTx : t = PC_TO_RDR_XFR_BLOCK -> counted t d true (Diagnostics.bump_tx d)
| CountedBoth :
    t = PC_TO_RDR_XFR_BLOCK ->
    counted t d false (Diagnostics.bump_rx (Diagnostics.bump_tx d)).

(** Commands that may change the negotiated parameters. *)
Definition changes_params (t : Z) : bool :=
  (t =? PC_TO_RDR_SET_PARAMETERS) || (t =? PC_TO_RDR_RESET_PARAMETERS) ||
  (t =? PC_TO_RDR_ICC_POWER_ON) || (t =? PC_TO_RDR_ICC_POWER_OFF).

(** Commands that, when they succeed, raise the event flags the transport
    glue consumes. *)
Definition resets_card (t : Z) : bool := t =? PC_TO_RDR_ICC_POWER_ON.
Definition sets_params (t : Z) : bool :=
  (t =? PC_TO_RDR_SET_PARAMETERS) || (t =? PC_TO_RDR_RESET_PARAMETERS).

Record stepped {D E} `{!CardBackend D E, !SlotDriver D E, !SlotDriverLaws D E} {P : ReaderProfile}
    (c : Core D) (h : CcidHeader) (failed : bool) (c' : Core D) : Prop := mkStepped {
  st_ok : core_ok c';
  st_slot : slot_step CONTACT (message_type h) (slot_state c) failed (slot_state c');
  st_counted : counted (message_type h) (diagnostics c) failed (diagnostics c');
  st_card : message_type h = PC_TO_RDR_ICC_POWER_ON \/
            message_type h = PC_TO_RDR_ICC_POWER_OFF \/
            message_type h = PC_TO_RDR_XFR_BLOCK /\ slot_state c = PresentActive \/
            nfc c' = nfc c;
  st_params : changes_params (message_type h) = false ->
              host_params c' = host_params c /\ current_protocol c' = current_protocol c /\
              atr_params c' = atr_params c;
  st_present : present c = true -> present c' = true;
  st_fixed : firmware_version c' = firmware_version c /\ pin_pad c' = pin_pad c /\
             diagnostics_fold c' = diagnostics_fold c;
  st_events :
    card_reset_event c' = card_reset_event c || resets_card (message_type h) && negb failed /\
    parameters_accepted_event c' =
      parameters_accepted_event c || sets_params (message_type h) && negb failed
}.

(** The command returns, and keeps the contract. *)
Definition completes {D E} `{!CardBackend D E, !SlotDriver D E, !SlotDriverLaws D E}
    {P : ReaderProfile} (c : Core D) h buf (m : outcome (Core D * reply)) : Prop :=
  exists failed c' r,
    m = Ret (c', r) /\ stepped c h failed c' /\ answered h buf c' failed r.

Section Facts.
Context {D E : Type} `{!CardBackend D E, !SlotDriver D E, !SlotDriverLaws D E}
  {P : ReaderProfile}.
Implicit Types (c : Core D) (h : CcidHeader).

Lemma wf_bump_tx d : Diagnostics.wf d -> Diagnostics.wf (Diagnostics.bump_tx d).
Proof. unfold Diagnostics.wf. simpl. int_lia. Qed.
Lemma wf_bump_rx d : Diagnostics.wf d -> Diagnostics.wf (Diagnostics.bump_rx d).
Proof. unfold Diagnostics.wf. simpl. int_lia. Qed.
Lemma wf_bump_error d : Diagnostics.wf d -> Diagnostics.wf (Diagnostics.bump_error d).
Proof. unfold Diagnostics.wf. simpl. int_lia. Qed.

(** The buffers the reader hands to its driver. *)
Lemma tx_buf_room c : core_ok c -> (32 <= length (tx_buf c))%nat.
Proof. intros Hc. rewrite (ok_tx_length _ Hc). unfold TX_BUF_SIZE. lia. Qed.
Lemma response_room : (32 <= length (replicate CARD_RESP_SIZE 0%Z))%nat.
Proof. rewrite length_replicate. unfold CARD_RESP_SIZE. lia. Qed.

Lemma icc_range s : 0 <= icc_status s <= 2.
Proof. destruct s; done. Qed.

Lemma xfr_failure_u8 k : u8 (xfr_failure_b_error k).
Proof. by destruct k. Qed.

(** The transmit helper, under the driver's contract. *)
Lemma transmit_counted_spec c cmd buf c' buf' res :
  core_ok c -> (32 <= length buf)%nat -> transmit_counted c cmd buf = (c', buf', res) ->
  let r := transmit_apdu (nfc c) cmd buf in
  buf' = r.1.2 /\ res = r.2 /\
  c' = set_diagnostics
         (if is_ok r.2 then Diagnostics.bump_rx (Diagnostics.bump_tx (diagnostics c))
          else Diagnostics.bump_tx (diagnostics c)) (set_nfc r.1.1 c) /\
  core_ok c' /\ fills driver_ok buf (r.1.1, buf', res).
Proof.
  intros Hc Hl. unfold transmit_counted. simpl.
  pose proof (transmit_fills (nfc c) cmd buf (ok_driver _ Hc) Hl) as Hf.
  destruct (transmit_apdu (nfc c) cmd buf) as [[d b] [n|e]]; simpl in *; intros [= <- <- <-];
    (split_and!; [done..| |done]); destruct Hc; constructor; simpl; try done;
    try apply Hf; auto using wf_bump_tx, wf_bump_rx.
Qed.

(** A reply helper completes a command that made a legal step. *)
Lemma complete_slot_status_failed c h buf c' icc err :
  stepped c h true c' -> reply_type (message_type h) RDR_TO_PC_SLOTSTATUS true = true ->
  0 <= icc <= 2 ->
  reported (message_type h) true (slot_state c') icc -> u8 err ->
  completes c h buf (Ret (slot_status_failed_reply c' h icc err buf)).
Proof.
  intros Hs Ht Hi Hicc He. exists true, c'. eexists. split; [done|]. split; [done|].
  apply (Answered h buf c' RDR_TO_PC_SLOTSTATUS true icc err 0 []); try done;
    [constructor|apply room_small; simpl; lia].
Qed.

Lemma complete_slot_status_ok c h buf c' :
  stepped c h false c' -> reply_type (message_type h) RDR_TO_PC_SLOTSTATUS false = true ->
  completes c h buf (Ret (slot_status_ok_reply c' h buf)).
Proof.
  intros Hs Ht. exists false, c'. eexists. split; [done|]. split; [done|].
  apply (Answered h buf c' RDR_TO_PC_SLOTSTATUS false _ 0 0 []); try done;
    [apply icc_range|by left|constructor|apply room_small; simpl; lia].
Qed.

Lemma complete_data_block c h buf c' data :
  stepped c h false c' -> reply_type (message_type h) RDR_TO_PC_DATABLOCK false = true ->
  slot_state c' = PresentActive -> bytes data -> (length data <= room h false)%nat ->
  completes c h buf (Ret (data_block_reply c' h data buf)).
Proof.
  intros Hs Ht Ha Hb Hl. exists false, c'. eexists. split; [done|]. split; [done|].
  apply (Answered h buf c' RDR_TO_PC_DATABLOCK false _ 0 0 data); try done;
    left; by rewrite Ha.
Qed.

Lemma complete_data_block_failed c h buf c' icc err :
  stepped c h true c' -> reply_type (message_type h) RDR_TO_PC_DATABLOCK true = true ->
  icc = current_icc_status c' -> u8 err ->
  completes c h buf (Ret (data_block_failed_reply c' h icc err buf)).
Proof.
  intros Hs Ht -> He. exists true, c'. eexists. split; [done|]. split; [done|].
  apply (Answered h buf c' RDR_TO_PC_DATABLOCK true _ err 0 []); try done;
    [apply icc_range|by left|constructor|apply room_small; simpl; lia].
Qed.

Lemma complete_escape c h buf c' failed sp data :
  stepped c h failed c' -> message_type h = PC_TO_RDR_ESCAPE -> u8 sp -> bytes data ->
  (length data <= room h failed)%nat ->
  completes c h buf
    (Ret (escape_reply c' h
            (if failed then COMMAND_STATUS_FAILED else COMMAND_STATUS_NO_ERROR) sp data buf)).
Proof.
  intros Hs Ht Hsp Hb Hl. exists failed, c'. eexists. split; [done|]. split; [done|].
  apply (Answered h buf c' RDR_TO_PC_ESCAPE failed _ 0 sp data); try done;
    [rewrite Ht; by destruct failed|apply icc_range|by left].
Qed.

(** Steps: refusing a command, and steps that leave card and counters alone. *)
Lemma stepped_refused c h :
  core_ok c -> message_type h <> PC_TO_RDR_ICC_POWER_OFF ->
  (message_type h = PC_TO_RDR_XFR_BLOCK -> slot_state c = PresentActive -> CONTACT = true) ->
  stepped c h true c.
Proof.
  intros Hc Ht Hx. constructor; try done; [by apply Refused|constructor|naive_solver|].
  by rewrite !andb_false_r, !orb_false_r.
Qed.

Lemma stepped_kept c h failed :
  core_ok c -> message_type h <> PC_TO_RDR_ICC_POWER_ON ->
  message_type h <> PC_TO_RDR_ICC_POWER_OFF -> message_type h <> PC_TO_RDR_XFR_BLOCK ->
  sets_params (message_type h) = false ->
  stepped c h failed c.
Proof.
  intros Hc H1 H2 H3 H4. constructor; try done; [by apply Kept|constructor|naive_solver|].
  rewrite H4. unfold resets_card. replace (_ =? _) with false by lia. by rewrite !orb_false_r.
Qed.

(** What the driver wrote can be sliced out of the buffer. *)
Lemma fills_slice buf d b n :
  fills driver_ok buf (d, b, @Ok nat E n) -> bytes buf ->
  slice b 0 n = Ret (take n b) /\ bytes (take n b) /\
  (length (take n b) <= length buf)%nat /\ (n <= length buf)%nat.
Proof.
  intros (_ & Hl & Hb & Hn) Hbuf. cbn [fst snd] in *.
  rewrite slice_prefix by lia. split_and!; auto with bytes.
  rewrite length_take. lia.
Qed.

(** The core after a driver call keeps its invariant. *)
Lemma core_ok_filled c buf (r : filled D E) :
  core_ok c -> buf = tx_buf c -> fills driver_ok buf r ->
  core_ok (set_tx_buf r.1.2 (set_nfc r.1.1 c)).
Proof.
  intros [] -> (? & Hl & Hb & _). constructor; simpl; auto. by rewrite Hl.
Qed.

Ltac solve_core_ok :=
  match goal with
  | H : core_ok _ |- core_ok _ => destruct H; constructor; simpl in *; auto
  end.

(** A legal step, field by field; [slot] applies the slot transition. *)
Ltac step slot :=
  constructor; simpl;
  [try solve [solve_core_ok]
  |slot; solve [eauto | congruence
               | match goal with Ht : message_type _ = _ |- _ => by rewrite Ht end]
  |once (solve [constructor; done])
  |solve [auto]
  |first [by intros | match goal with Ht : message_type _ = _ |- _ => by rewrite Ht end]
  |done
  |done
  |match goal with Ht : message_type _ = _ |- _ => rewrite Ht end;
   simpl; by rewrite ?orb_true_r, ?orb_false_r].

Lemma handle_power_on_contact_completes c h buf :
  core_ok c -> message_type h = PC_TO_RDR_ICC_POWER_ON ->
  completes c h buf (handle_power_on_contact c h buf).
Proof.
  intros Hc Ht. unfold handle_power_on_contact.
  assert (message_type h <> PC_TO_RDR_ICC_POWER_OFF /\ message_type h <> PC_TO_RDR_XFR_BLOCK)
    as [Hoff Hx] by (by rewrite Ht).
  case_match.
  { apply complete_slot_status_failed; try done; [by apply stepped_refused|by rewrite Ht|
      apply icc_range|by left]. }
  pose proof (is_card_present_ok (nfc c) (ok_driver _ Hc)) as Hd.
  destruct (is_card_present (nfc c)) as [d card]. simpl in Hd.
  assert (core_ok (set_nfc d c)) as Hc1 by solve_core_ok.
  assert (forall icc err, icc = ICC_STATUS_NO_ICC \/ icc = ICC_STATUS_PRESENT_INACTIVE -> u8 err ->
    completes c h buf (Ret (slot_status_failed_reply (set_nfc d c) h icc err buf))) as Hrefuse.
  { intros icc err Hicc Herr. apply complete_slot_status_failed; try done;
      [|by rewrite Ht|destruct Hicc as [-> | ->]; done|by right].
    step ltac:(apply Refused). }
  case_match; [by apply Hrefuse; auto|]. cbv zeta.
  case_match; [by apply Hrefuse; auto|].
  pose proof (power_on_fills (nfc (set_nfc d c)) (tx_buf (set_nfc d c)) (ok_driver _ Hc1)) as Hf.
  pose proof (core_ok_filled _ _ _ Hc1 eq_refl Hf) as Hc2.
  destruct (power_on _ _) as [[d2 tx] [n|e]]; simpl in Hc2.
  - destruct (fills_slice _ _ _ _ Hf (ok_tx_bytes _ Hc1)) as (E1 & Hb & Hl & _). simpl.
    rewrite E1, bind_ret. simpl in Hl. rewrite (ok_tx_length _ Hc) in Hl.
    pose proof (parse_atr_wf (take n tx) Hb) as Hatr.
    apply complete_data_block; try done; [|by rewrite Ht|rewrite room_card; auto].
    step ltac:(apply Activated).
    solve_core_ok. destruct Hatr. unfold u8. lia.
  - apply complete_slot_status_failed; try done; [|by rewrite Ht|by left].
    step ltac:(apply ActivationFailed).
Qed.

Lemma handle_power_on_completes c h buf :
  core_ok c -> message_type h = PC_TO_RDR_ICC_POWER_ON ->
  completes c h buf (handle_power_on c h buf).
Proof.
  intros Hc Ht. unfold handle_power_on.
  destruct CONTACT eqn:EC; [by apply handle_power_on_contact_completes|].
  case_match.
  { apply complete_slot_status_failed; try done; [|by rewrite Ht|by right; auto].
    apply stepped_refused; [done|by rewrite Ht..]. }
  pose proof (power_on_fills (nfc c) (tx_buf c) (ok_driver _ Hc)) as Hf.
  pose proof (core_ok_filled _ _ _ Hc eq_refl Hf) as Hc2.
  destruct (power_on _ _) as [[d2 tx] [n|e]]; simpl in Hc2.
  - destruct (fills_slice _ _ _ _ Hf (ok_tx_bytes _ Hc)) as (E1 & Hb & Hl & _). simpl.
    rewrite E1, bind_ret. rewrite (ok_tx_length _ Hc) in Hl.
    apply complete_data_block; try done; [|by rewrite Ht|rewrite room_card; auto].
    step ltac:(apply Activated).
  - apply complete_slot_status_failed; try done; [|by rewrite Ht|by left].
    step ltac:(apply ActivationFailed).
Qed.

Lemma handle_power_off_completes c h buf :
  core_ok c -> message_type h = PC_TO_RDR_ICC_POWER_OFF ->
  completes c h buf (Ret (handle_power_off c h buf)).
Proof.
  intros Hc Ht. pose proof (power_off_ok (nfc c) (ok_driver _ Hc)) as Hd.
  unfold handle_power_off. apply complete_slot_status_ok; [|by rewrite Ht].
  destruct CONTACT eqn:EC; step ltac:(rewrite ?EC; apply Deactivated).
  solve_core_ok. by unfold u8.
Qed.

(** The relay both profiles share: what [transmit_counted] leaves behind. *)
Lemma relay_spec c h apdu c' tx res :
  core_ok c -> message_type h = PC_TO_RDR_XFR_BLOCK -> slot_state c = PresentActive ->
  transmit_counted c apdu (tx_buf c) = (c', tx, res) ->
  slot_state c' = PresentActive /\
  match res with
  | Ok n => slice tx 0 n = Ret (take n tx) /\ bytes (take n tx) /\
            (length (take n tx) <= TX_BUF_SIZE)%nat /\ stepped c h false (set_tx_buf tx c')
  | Err _ => stepped c h true
               (set_slot_state (if CONTACT then PresentActive else PresentInactive)
                  (set_tx_buf tx c'))
  end.
Proof.
  intros Hc Ht Ha Ett. destruct (transmit_counted_spec _ _ _ _ _ _ Hc (tx_buf_room c Hc) Ett) as (-> & -> & -> & Hc1 & Hf).
  pose proof (transmit_fills (nfc c) apdu (tx_buf c) (ok_driver _ Hc) (tx_buf_room c Hc)) as Hf'.
  destruct (transmit_apdu (nfc c) apdu (tx_buf c)) as [[d b] [n|e]]; simpl in *;
    (split; [done|]).
  - destruct (fills_slice _ _ _ _ Hf (ok_tx_bytes _ Hc)) as (E1 & Hb & Hl & _).
    rewrite (ok_tx_length _ Hc) in Hl. split_and!; try done.
    destruct Hf as (_ & Hlen & Hby & _). simpl in *.
    assert (core_ok (set_tx_buf b (set_diagnostics
      (Diagnostics.bump_rx (Diagnostics.bump_tx (diagnostics c))) (set_nfc d c)))) as Hc2.
    { destruct Hc1, Hc; constructor; simpl in *; auto. by rewrite Hlen. }
    constructor; simpl; try done; [rewrite Ha; by apply Exchanged|by constructor|auto|].
    by rewrite Ht, !orb_false_r.
  - destruct Hf as (_ & Hlen & Hby & _). simpl in *.
    constructor; simpl; try done;
      [|rewrite Ha; by apply ExchangeFailed|by constructor|auto|by rewrite Ht, !orb_false_r].
    destruct Hc1, Hc; constructor; simpl in *; auto. by rewrite Hlen.
Qed.

Lemma set_slot_state_same c : set_slot_state (slot_state c) c = c.
Proof. by destruct c. Qed.

Lemma stepped_answered_locally c h tx :
  core_ok c -> message_type h = PC_TO_RDR_XFR_BLOCK -> slot_state c = PresentActive ->
  length tx = TX_BUF_SIZE -> bytes tx -> stepped c h false (set_tx_buf tx c).
Proof.
  intros Hc Ht Ha Hl Hb. step ltac:(rewrite Ha; apply Exchanged).
Qed.

Lemma set_tx_buf_same c : set_tx_buf (tx_buf c) c = c.
Proof. by destruct c. Qed.

Lemma local_answer_completes c h buf data :
  core_ok c -> message_type h = PC_TO_RDR_XFR_BLOCK -> slot_state c = PresentActive ->
  bytes data -> (length data <= TX_BUF_SIZE)%nat ->
  completes c h buf (Ret (data_block_reply c h data buf)).
Proof.
  intros Hc Ht Ha Hb Hl.
  apply complete_data_block; try done; [|by rewrite Ht|rewrite room_card; auto].
  rewrite <- (set_tx_buf_same c) at 2. apply stepped_answered_locally; try done; apply Hc.
Qed.

Lemma pps_short apdu : is_pps_request apdu = true -> (length apdu <= 5)%nat.
Proof. unfold is_pps_request. case_match; [done|]. intros _. lia. Qed.

Lemma handle_xfr_block_contact_completes c h apdu buf :
  CONTACT = true ->
  core_ok c -> message_type h = PC_TO_RDR_XFR_BLOCK -> bytes apdu ->
  completes c h buf (handle_xfr_block_contact c h apdu buf).
Proof.
  intros EC Hc Ht Hb. unfold handle_xfr_block_contact. cbv zeta.
  assert (stepped c h true c) as Hrefused by (apply stepped_refused; [done|by rewrite Ht|done]).
  case_bool_decide as Ha; simpl.
  2: { apply complete_slot_status_failed; try done; [by rewrite Ht|apply icc_range|by left]. }
  case_match.
  { apply complete_slot_status_failed; try done; [by rewrite Ht|].
    left. unfold current_icc_status. by rewrite Ha. }
  case_match eqn:Hpps.
  { apply local_answer_completes; try done. apply pps_short in Hpps. unfold TX_BUF_SIZE. lia. }
  destruct (transmit_counted c apdu (tx_buf c)) as [[c' tx] res] eqn:Et.
  destruct (relay_spec c h apdu c' tx res Hc Ht Ha Et) as [Ha' Hr].
  destruct res as [n|e].
  - destruct Hr as (E1 & Hb1 & Hl & Hs). simpl. rewrite E1, bind_ret.
    apply complete_data_block; try done; [by rewrite Ht|rewrite room_card; auto].
  - apply complete_data_block_failed; [|by rewrite Ht| |apply xfr_failure_u8].
    + rewrite EC in Hr. replace (set_tx_buf tx c') with
        (set_slot_state PresentActive (set_tx_buf tx c')); [done|].
      rewrite <- Ha'. by destruct c'.
    + unfold current_icc_status. simpl. by rewrite Ha'.
Qed.

(** The UID and its status word, written into the head of the buffer. *)
Lemma uid_answer (tx u : list Z) :
  (length u + 2 <= length tx)%nat ->
  exists tx' t1 t2,
    copy_at tx 0 u = Ret t1 /\ store t1 (length u) 0x90 = Ret t2 /\
    store t2 (length u + 1) 0x00 = Ret tx' /\
    slice tx' 0 (length u + 2) = Ret (u ++ [0x90; 0x00]).
Proof.
  intros Hl.
  assert (exists x y rest, drop (length u) tx = x :: y :: rest) as (x & y & rest & Ed).
  { destruct (drop (length u) tx) as [|x [|y rest]] eqn:Ed; [| |by eauto];
      apply (f_equal length) in Ed; rewrite length_drop in Ed; simpl in Ed; lia. }
  exists ((u ++ [0x90; 0x00]) ++ rest), (u ++ x :: y :: rest), (u ++ 0x90 :: y :: rest).
  rewrite copy_at_ok by lia. simpl. rewrite Ed. split_and!; [done|by apply store_middle| |].
  - change (u ++ 0x90 :: y :: rest) with (u ++ [0x90] ++ y :: rest).
    rewrite app_assoc, store_middle by (rewrite length_app; simpl; lia). by rewrite <- !app_assoc.
  - by rewrite slice_app by (rewrite length_app; simpl; lia).
Qed.

Lemma answer_get_uid_completes c h buf :
  core_ok c -> message_type h = PC_TO_RDR_XFR_BLOCK -> slot_state c = PresentActive ->
  completes c h buf (answer_get_uid c h buf).
Proof.
  intros Hc Ht Ha. unfold answer_get_uid, write_sw.
  destruct (card_uid (nfc c)) as [u|] eqn:Eu.
  2: { apply local_answer_completes; try done; [solve_bytes|unfold TX_BUF_SIZE; simpl; lia]. }
  destruct (card_uid_ok _ _ (ok_driver _ Hc) Eu) as [Hbu Hlu].
  pose proof (ok_tx_length _ Hc) as Hl. pose proof (ok_tx_bytes _ Hc) as Hb.
  destruct (uid_answer (tx_buf c) u) as (tx & t1 & t2 & E1 & E2 & E3 & E4).
  { rewrite Hl. unfold TX_BUF_SIZE. lia. }
  cbv zeta. rewrite E1, bind_ret, E2, bind_ret, E3, bind_ret. cbn [tx_buf set_tx_buf].
  rewrite E4, bind_ret. apply complete_data_block; try done; [|by rewrite Ht| |].
  - pose proof (copy_at_bytes _ _ _ _ Hb Hbu E1) as Hb1.
    pose proof (store_bytes _ _ 0x90 _ Hb1 ltac:(solve_u8) E2) as Hb2.
    pose proof (store_bytes _ _ 0x00 _ Hb2 ltac:(solve_u8) E3) as Hb3.
    apply stepped_answered_locally; try done.
    rewrite (length_store _ _ _ _ E3), (length_store _ _ _ _ E2). by rewrite (length_copy_at _ _ _ _ E1).
  - rewrite bytes_app. split; [done|solve_bytes].
  - rewrite length_app. rewrite room_card by auto. unfold TX_BUF_SIZE. simpl. lia.
Qed.

Lemma apdu_pipeline_completes c h apdu buf :
  CONTACT = false ->
  core_ok c -> message_type h = PC_TO_RDR_XFR_BLOCK -> slot_state c = PresentActive ->
  bytes apdu -> completes c h buf (apdu_pipeline c h apdu buf).
Proof.
  intros EC Hc Ht Ha Hb. unfold apdu_pipeline, write_sw. cbv zeta.
  case_match eqn:Hpps.
  { apply local_answer_completes; try done. apply pps_short in Hpps. unfold TX_BUF_SIZE. lia. }
  repeat case_match;
    try (apply local_answer_completes; try done; [solve_bytes|unfold TX_BUF_SIZE; simpl; lia]);
    try by apply answer_get_uid_completes.
  all: match goal with Et : transmit_counted _ _ _ = _ |- _ =>
         destruct (relay_spec c h apdu _ _ _ Hc Ht Ha Et) as [Ha' Hr] end.
  - destruct Hr as (E1 & Hb1 & Hl & Hs). simpl. rewrite E1, bind_ret.
    apply complete_data_block; try done; [by rewrite Ht|rewrite room_card; auto].
  - rewrite EC in Hr. apply complete_data_block_failed; [done|by rewrite Ht|done|].
    apply xfr_failure_u8.
Qed.

Lemma handle_xfr_block_completes c h apdu buf :
  core_ok c -> message_type h = PC_TO_RDR_XFR_BLOCK -> bytes apdu ->
  completes c h buf (handle_xfr_block c h apdu buf).
Proof.
  intros Hc Ht Hb. unfold handle_xfr_block.
  destruct CONTACT eqn:EC; [by apply handle_xfr_block_contact_completes|].
  case_bool_decide as Ha; simpl; [by apply apdu_pipeline_completes|].
  apply complete_data_block_failed; try done; [|by rewrite Ht].
  apply stepped_refused; [done|by rewrite Ht|done].
Qed.

(** *** Parameters *)
Lemma atr_payload_bytes p proto : AtrParams_wf p -> bytes (atr_payload p proto).
Proof.
  intros []. unfold atr_payload.
  assert (u8 (if has_ta1 p then ta1 p else 0x11)) by (by case_match).
  assert (u8 (Z.shiftl (Z.land (edc_type p) 1) 4)).
  { assert (edc_type p = 0 \/ edc_type p = 1) as [-> | ->] by lia; done. }
  assert (u8 (Z.land (cwi p) 0x0F)) by (pose proof (nibble_range (cwi p)); unfold u8; lia).
  unfold bytes. destruct (proto =? 1); repeat (apply Forall_cons; split); auto with bytes.
  unfold u8 in *. lia.
Qed.

Lemma default_params_ok proto :
  bytes (default_params proto) /\ (length (default_params proto) <= 7)%nat.
Proof. unfold default_params. case_match; split; simpl; (lia || solve_bytes). Qed.

Lemma parameter_payload_ok c :
  core_ok c -> bytes (parameter_payload c).1 /\ u8 (parameter_payload c).2 /\
               (length (parameter_payload c).1 <= 7)%nat.
Proof.
  intros Hc. pose proof (ok_host _ Hc) as Hh. pose proof (ok_protocol _ Hc) as Hp.
  pose proof (atr_payload_bytes _ (current_protocol c) (ok_atr _ Hc)).
  destruct (default_params_ok (current_protocol c)).
  assert (length (atr_payload (atr_params c) (current_protocol c)) = 7%nat)
    by (unfold atr_payload; by case_match).
  unfold parameter_payload.
  destruct (host_params c) as [[p raw]|]; simpl in Hh; repeat case_match; simpl;
    rewrite ?length_take; split_and!; auto with bytes; try lia; unfold u8 in *;
    destruct_and?; auto with bytes; lia.
Qed.

Lemma write_parameters_completes c h buf c' :
  stepped c h false c' -> core_ok c' ->
  reply_type (message_type h) RDR_TO_PC_PARAMETERS false = true ->
  completes c h buf (Ret (write_parameters c' h buf)).
Proof.
  intros Hs Hc Ht. destruct (parameter_payload_ok c' Hc) as (H1 & H2 & H3).
  unfold write_parameters. destruct (parameter_payload c') as [payload proto]. simpl in *.
  exists false, c'. eexists. split; [done|]. split; [done|].
  apply (Answered h buf c' RDR_TO_PC_PARAMETERS false _ 0 proto payload); try done;
    [apply icc_range|by left|apply room_small; lia].
Qed.

Lemma arr_u8 l i : bytes l -> u8 (arr l i).
Proof.
  intros Hb. unfold arr. apply (default_lookup_Forall u8); [done|by unfold u8].
Qed.

Lemma t1_bwi_cwi_ifsc_range raw : bytes raw ->
  let '(b, w, i) := t1_bwi_cwi_ifsc raw in 0 <= b < 16 /\ 0 <= w < 16 /\ u8 i.
Proof.
  intros Hb. unfold t1_bwi_cwi_ifsc. rewrite !nth_lookup.
  pose proof (arr_u8 raw 3 Hb) as H3. pose proof (arr_u8 raw 5 Hb) as H5. unfold arr in *.
  split_and!; try apply nibble_range; try exact H5;
    rewrite Z.shiftr_div_pow2 by lia; simpl; int_lia.
Qed.

Lemma adopt_host_params_wf proto raw p :
  bytes raw -> AtrParams_wf p -> AtrParams_wf (adopt_host_params proto raw p).
Proof.
  intros Hb Hp. unfold adopt_host_params.
  pose proof (t1_bwi_cwi_ifsc_range raw Hb) as Hr.
  pose proof (fi_range (Z.shiftr (arr raw 0) 4)). pose proof (di_range (Z.land (arr raw 0) 0x0F)).
  pose proof (arr_u8 raw 0 Hb). pose proof (arr_u8 raw 2 Hb).
  pose proof (bit_range (arr raw 1)).
  destruct (t1_bwi_cwi_ifsc raw) as [[b w] i]. destruct Hp. destruct_and!.
  case_match; constructor; simpl; auto.
Qed.

(** Accepting a set of parameters. *)
Lemma stepped_params c h hp proto atr :
  core_ok c -> changes_params (message_type h) = true ->
  message_type h <> PC_TO_RDR_ICC_POWER_ON -> message_type h <> PC_TO_RDR_ICC_POWER_OFF ->
  message_type h <> PC_TO_RDR_XFR_BLOCK -> sets_params (message_type h) = true ->
  host_ok hp -> u8 proto -> AtrParams_wf atr ->
  stepped c h false
    (set_parameters_accepted true (set_host_params hp (set_current_protocol proto
       (set_atr_params atr c)))).
Proof.
  intros Hc Hch H1 H2 H3 H4 Hh Hp Ha. constructor; simpl; try done;
    [solve_core_ok|by apply Kept|constructor|auto|by rewrite Hch|].
  rewrite H4. unfold resets_card. replace (_ =? _) with false by lia.
  by rewrite orb_true_r, orb_false_r.
Qed.

Lemma handle_set_parameters_contact_completes c h payload buf :
  core_ok c -> message_type h = PC_TO_RDR_SET_PARAMETERS -> bytes payload ->
  completes c h buf (handle_set_parameters_contact c h payload buf).
Proof.
  intros Hc Ht Hb. unfold handle_set_parameters_contact. cbv zeta.
  assert (stepped c h true c) as Hrefused by (by apply stepped_refused; rewrite ?Ht).
  destruct (if dw_length h =? 5 then _ else _) as [lp|] eqn:El.
  2: { apply complete_slot_status_failed; try done; [by rewrite Ht|apply icc_range|by left]. }
  set (n := ((Z.to_nat (dw_length h) `min` 7) `min` length payload)%nat).
  rewrite slice_prefix by lia. rewrite bind_ret.
  pose proof (copy_at_replicate [] (take (n - 0) (drop 0 payload)) 7 0) as Ecopy.
  rewrite Nat.sub_0_r, drop_0 in Ecopy. cbn [app length] in Ecopy.
  rewrite Ecopy by (rewrite length_take; lia). rewrite bind_ret. clear Ecopy.
  set (raw := take n payload ++ _).
  assert (length raw = 7%nat) as Hlr
    by (unfold raw; rewrite length_app, length_replicate, length_take; lia).
  assert (bytes raw) as Hbr.
  { unfold raw. rewrite bytes_app. split; [auto with bytes|].
    apply Forall_replicate. by unfold u8. }
  destruct (negb _) eqn:Ev.
  - exists true, c. eexists. split; [done|]. split; [done|].
    apply (Answered h buf c RDR_TO_PC_PARAMETERS true _ 0x08 0 []);
      [by rewrite Ht|apply icc_range|by left|by unfold u8|by unfold u8|constructor|
       apply room_small; simpl; lia].
  - assert (specific0 h = 0 \/ specific0 h = 1) as Hp.
    { repeat case_match; simplify_eq; lia. }
    assert (AtrParams_wf (adopt_host_params (specific0 h) raw (atr_params c))) as Hatr
      by (apply adopt_host_params_wf; [done|apply Hc]).
    pose proof (stepped_params c h (Some (specific0 h, raw)) (specific0 h)
      (adopt_host_params (specific0 h) raw (atr_params c)) Hc) as Hs.
    rewrite Ht in Hs.
    match goal with |- completes _ _ _ (Ret (write_parameters ?c' _ _)) =>
      assert (stepped c h false c') as Hs' end.
    { apply Hs; try done. unfold u8. lia. }
    apply write_parameters_completes; [done|apply Hs'|by rewrite Ht].
Qed.

Lemma handle_set_parameters_completes c h payload buf :
  core_ok c -> message_type h = PC_TO_RDR_SET_PARAMETERS -> bytes payload -> u8 (specific0 h) ->
  completes c h buf (handle_set_parameters c h payload buf).
Proof.
  intros Hc Ht Hb Hsp. unfold handle_set_parameters.
  case_match; [by apply handle_set_parameters_contact_completes|].
  case_match.
  { apply complete_slot_status_failed; try done; [|by rewrite Ht|apply icc_range|by left].
    by apply stepped_refused; rewrite ?Ht. }
  cbv zeta. set (accept := _ && _).
  match goal with |- completes _ _ _ (Ret (write_parameters ?c' _ _)) =>
    assert (stepped c h false c') as Hs end.
  { pose proof (stepped_params c h
      (if accept then Some (1, take 7 payload) else host_params c) (specific0 h)
      (atr_params c) Hc) as Hs. rewrite Ht in Hs.
    destruct accept eqn:Ea; (apply Hs; try done; try apply Hc).
    split_and!; [by right| |auto with bytes].
    unfold accept in Ea. rewrite length_take. lia. }
  apply write_parameters_completes; [done|apply Hs|by rewrite Ht].
Qed.

Lemma handle_reset_parameters_completes c h buf :
  core_ok c -> message_type h = PC_TO_RDR_RESET_PARAMETERS ->
  completes c h buf (Ret (handle_reset_parameters c h buf)).
Proof.
  intros Hc Ht. unfold handle_reset_parameters. cbv zeta.
  case_match;
    (match goal with |- completes _ _ _ (Ret (write_parameters ?c' _ _)) =>
       assert (stepped c h false c') as Hs;
         [|apply write_parameters_completes; [done|apply Hs|by rewrite Ht]] end).
  - pose proof (stepped_params c h None 0 AtrParams_default Hc) as Hs.
    rewrite Ht in Hs. apply Hs; try done. apply AtrParams_default_wf.
  - pose proof (stepped_params c h (host_params c) 1 (atr_params c) Hc) as Hs.
    rewrite Ht in Hs. apply Hs; try done; apply Hc.
Qed.

(** *** Escape and Secure *)
Lemma words_bytes ws : bytes (words ws).
Proof.
  unfold words. induction ws as [|w ws IH]; [constructor|].
  cbn [map concat]. apply bytes_app. auto with bytes.
Qed.

Lemma handle_escape_completes c h payload buf :
  core_ok c -> message_type h = PC_TO_RDR_ESCAPE ->
  completes c h buf (Ret (handle_escape c h payload buf)).
Proof.
  intros Hc Ht. unfold handle_escape. cbv zeta.
  assert (forall failed, stepped c h failed c) as Hs
    by (intros f; by apply stepped_kept; rewrite ?Ht).
  assert (forall v, stepped c h false (set_snapshot_requested v c)) as Hs1.
  { intros v. step ltac:(apply Kept). }
  assert (forall v, stepped c h false (set_sync_notifications v c)) as Hs2.
  { intros v. step ltac:(apply Kept). }
  case_match.
  { apply (complete_escape _ _ _ _ false); try done.
    - unfold Diagnostics.to_bytes. case_match; simpl; [solve_bytes|].
      change (bytes (words (Diagnostics.fields
        (match diagnostics_fold c with Some fold => fold (nfc c) (diagnostics c)
         | None => diagnostics c end)) ++ [])). rewrite app_nil_r. apply words_bytes.
    - apply room_small. unfold Diagnostics.to_bytes. case_match; simpl; lia. }
  repeat (case_match;
    [first [apply (complete_escape _ _ _ _ false) | apply (complete_escape _ _ _ _ true)];
     try done; try solve [solve_bytes | apply room_small; simpl; lia
                         | destruct (ok_firmware _ Hc); done || by apply room_small]|]).
  apply (complete_escape _ _ _ _ true); try done; [constructor|apply room_small; simpl; lia].
Qed.

Lemma secure_not_supported_completes c h buf :
  core_ok c -> message_type h = PC_TO_RDR_SECURE ->
  completes c h buf (Ret (secure_not_supported c h buf)).
Proof.
  intros Hc Ht. unfold secure_not_supported.
  assert (stepped c h true c) by (by apply stepped_refused; rewrite ?Ht).
  case_match.
  - apply complete_data_block_failed; try done. by rewrite Ht.
  - apply complete_slot_status_failed; try done; [by rewrite Ht|apply icc_range|by left].
Qed.

Lemma armed_completes c h buf st :
  core_ok c -> message_type h = PC_TO_RDR_SECURE -> st <> SecureIdle ->
  completes c h buf (Ret (set_secure_state st c, (buf, 0%nat))).
Proof.
  intros Hc Ht Hst. exists false. eexists _, _. split; [done|]. split.
  - step ltac:(apply Kept).
  - apply Deferred; [done|]. by destruct st.
Qed.

(** The payload on which [modify_parse] indexes past the end. *)
Definition pin_modify_overrun c (payload : list Z) : Prop :=
  pin_pad c = true /\ slot_state c = PresentActive /\
  head payload = Some 0x01 /\ (12 <= length payload <= 14)%nat.

Lemma modify_parse_Panic data : modify_parse data = Panic <-> (11 <= length data <= 13)%nat.
Proof. apply modify_parse_bounds. Qed.

Lemma handle_secure_cases c h payload buf :
  core_ok c -> message_type h = PC_TO_RDR_SECURE ->
  (pin_modify_overrun c payload -> handle_secure c h payload buf = Panic) /\
  (~ pin_modify_overrun c payload -> completes c h buf (handle_secure c h payload buf)).
Proof.
  intros Hc Ht. pose proof (secure_not_supported_completes c h buf Hc Ht) as Hns.
  unfold handle_secure, pin_modify_overrun.
  destruct (pin_pad c); simpl; [|split; [naive_solver|done]].
  case_bool_decide as Ha; simpl.
  2: { split; [naive_solver|intros _]. apply complete_data_block_failed; try done; [|by rewrite Ht].
       by apply stepped_refused; rewrite ?Ht. }
  destruct payload as [|op data]; [split; [naive_solver|done]|]. simpl.
  destruct (Z.eqb_spec op 0) as [->|H0].
  { split; [naive_solver|intros _]. destruct (verify_parse_returns data) as [[p|] ->];
      rewrite bind_ret; [|done]. by apply armed_completes. }
  destruct (Z.eqb_spec op 1) as [->|H1]; [|split; [naive_solver|done]].
  destruct (modify_parse data) as [[p|]|] eqn:Em; simpl.
  1,2: assert (~ (11 <= length data <= 13)%nat) as Hl
         by (rewrite <- modify_parse_Panic, Em; done).
  1,2: split; [intros (_ & _ & _ & ?); lia|intros _; by try apply armed_completes].
  apply modify_parse_Panic in Em. split; [done|]. intros Hn. exfalso. apply Hn.
  split_and!; (done || lia).
Qed.

(** *** The dispatcher *)
Ltac rewrite_type :=
  try match goal with Ht : message_type ?h = _ |- context [message_type ?h] => rewrite Ht end.

Lemma dispatch_cases c h payload buf :
  core_ok c -> bytes payload -> u8 (specific0 h) ->
  let overrun := message_type h = PC_TO_RDR_SECURE /\ pin_modify_overrun c payload in
  (overrun -> dispatch c h payload buf = Panic) /\
  (~ overrun -> completes c h buf (dispatch c h payload buf)).
Proof.
  intros Hc Hb Hsp overrun. unfold dispatch. cbv zeta.
  destruct (decide (message_type h = PC_TO_RDR_SECURE)) as [Ht|Ht].
  { rewrite Ht. simpl. destruct (handle_secure_cases c h payload buf Hc Ht) as [H1 H2].
    unfold overrun. split; [by intros [_ ?]; apply H1|intros Hn; apply H2; naive_solver]. }
  split; [by intros [? _]|]. intros _.
  repeat (match goal with |- context [?t =? ?k] => destruct (Z.eqb_spec t k) as [?|?] end);
    simpl; try done;
    eauto using handle_power_on_completes, handle_power_off_completes,
      handle_xfr_block_completes, handle_set_parameters_completes,
      handle_reset_parameters_completes, handle_escape_completes.
  - apply complete_slot_status_ok; [|by rewrite_type]. by apply stepped_kept; rewrite_type.
  - apply write_parameters_completes; [|done|by rewrite_type].
    by apply stepped_kept; rewrite_type.
  - assert (forall f, stepped c h f c) as Hs by (intros f; by apply stepped_kept; rewrite_type).
    destruct CONTACT; [by apply complete_slot_status_ok; [|rewrite_type]|].
    apply complete_slot_status_failed; try done; [by rewrite_type|apply icc_range|by left].
  - apply complete_slot_status_failed; try done; [by apply stepped_refused| |apply icc_range|by left].
    unfold reply_type. simpl. rewrite !(proj2 (Z.eqb_neq _ _)) by done. done.
Qed.

(** *** Failure accounting *)
Lemma answered_cases h buf c' failed r :
  answered h buf c' failed r ->
  r = (buf, 0%nat) \/
  (10 <= r.2)%nat /\ exists icc, 0 <= icc <= 2 /\
    r.1 !! 7%nat = Some (build_bstatus
      (if failed then COMMAND_STATUS_FAILED else COMMAND_STATUS_NO_ERROR) icc).
Proof.
  intros [ty f icc err sp data Hty Hicc _ _ _ _ _|]; [|by left].
  destruct (Nat.lt_ge_cases (length buf) (10 + length data)).
  - left. by apply write_message_short.
  - right. split; [rewrite write_message_fits by done; simpl; lia|].
    exists icc. split; [done|]. by apply write_message_status.
Qed.

(** FAILED replies that reached the buffer are counted, nothing else is. *)
Definition account (failed : bool) (c' : Core D) (r : reply) : Core D :=
  if failed && (7 <? r.2)%nat then record_protocol_error c' else c'.

Lemma account_failure_spec h buf c' failed r :
  answered h buf c' failed r ->
  account_failure (c', r) = Ret (account failed c' r, r).
Proof.
  intros Ha. destruct (answered_cases _ _ _ _ _ Ha) as [->|(Hr & icc & Hicc & Hs)].
  - simpl. unfold account. by rewrite andb_false_r.
  - destruct r as [b n]. unfold account_failure, account. cbn [fst snd] in *.
    replace (7 <? n)%nat with true by lia. unfold index. rewrite Hs. simpl.
    rewrite bstatus_failed_bit by (destruct failed; unfold COMMAND_STATUS_FAILED,
      COMMAND_STATUS_NO_ERROR; lia). by destruct failed.
Qed.

(** The same for a reply known in full. *)
Lemma account_message c ty s q (failed : bool) icc err sp data buf :
  0 <= icc <= 2 -> (10 + length data <= length buf)%nat ->
  let st := build_bstatus (if failed then COMMAND_STATUS_FAILED else COMMAND_STATUS_NO_ERROR)
              icc in
  account_failure (c, write_message ty s q st err sp data buf) =
    Ret (if failed then record_protocol_error c else c,
         write_message ty s q st err sp data buf).
Proof.
  intros Hicc Hl st. unfold account_failure.
  pose proof (write_message_status ty s q st err sp data buf Hl) as Hs.
  destruct (write_message _ _ _ _ _ _ _ _) as [b n] eqn:Ew.
  assert (n = 10 + length data)%nat as ->.
  { rewrite write_message_fits in Ew by done. by injection Ew. }
  replace (7 <? 10 + length data)%nat with true by lia. unfold index. cbn [fst] in Hs.
  rewrite Hs, bind_ret. unfold st.
  rewrite bstatus_failed_bit by (destruct failed; unfold COMMAND_STATUS_FAILED,
    COMMAND_STATUS_NO_ERROR; lia). by destruct failed.
Qed.

Lemma core_ok_record_error c : core_ok c -> core_ok (record_protocol_error c).
Proof. intros []. constructor; simpl; auto using wf_bump_error. Qed.

(** The three ways a message is processed. *)
Definition complete_message (msg : list Z) h : Prop :=
  CcidHeader_parse msg = Some h /\ 10 + dw_length h <= Z.of_nat (length msg).
Definition payload_of (msg : list Z) h : list Z :=
  take (Z.to_nat (dw_length h)) (drop 10 msg).

Lemma process_complete c msg buf h :
  bytes msg -> complete_message msg h -> 10 + dw_length h <= u32_max ->
  process_command c msg buf =
    (r ← dispatch c h (payload_of msg h) buf; account_failure r).
Proof.
  intros Hb [Hp Hl] Hd. unfold process_command. rewrite Hp.
  destruct (parse_bytes _ _ Hb Hp) as (_ & Hdw & _).
  assert (usize_add (Z.of_nat CCID_HEADER_SIZE) (dw_length h) = 10 + dw_length h) as ->.
  { unfold usize_add, wrap32, CCID_HEADER_SIZE, u32_max in *. apply Z.mod_small.
    unfold u32 in Hdw. lia. }
  unfold u32 in Hdw. replace (_ <? _) with false by lia.
  unfold CCID_HEADER_SIZE. rewrite slice_ok by lia. rewrite bind_ret.
  unfold payload_of. by replace (Z.to_nat (10 + dw_length h) - 10)%nat
    with (Z.to_nat (dw_length h)) by lia.
Qed.

(** A command as the host builds it. *)
Definition command_header (t s q : Z) (sp : Z * Z * Z) (payload : list Z) : CcidHeader :=
  mkHeader t (Z.of_nat (length payload)) s q sp.
Definition command (t s q : Z) (sp : Z * Z * Z) (payload : list Z) : list Z :=
  CcidHeader_build t (Z.of_nat (length payload)) s q sp.1.1 sp.1.2 sp.2 ++ payload.
Definition small (payload : list Z) : Prop := Z.of_nat (length payload) <= 65535.

Lemma bytes_command t s q sp payload :
  u8 t -> u8 s -> u8 q -> u8 sp.1.1 -> u8 sp.1.2 -> u8 sp.2 -> bytes payload ->
  bytes (command t s q sp payload).
Proof.
  intros. unfold command, CcidHeader_build. apply bytes_app. split; [|done].
  apply Forall_cons. split; [done|]. apply bytes_app. split; [apply bytes_to_le32|].
  by repeat (apply Forall_cons; split; [done|]).
Qed.

Lemma parse_command t s q sp payload :
  small payload ->
  CcidHeader_parse (command t s q sp payload) = Some (command_header t s q sp payload).
Proof.
  intros Hs. unfold command. rewrite parse_build by (unfold u32, small in *; lia).
  by destruct sp as [[? ?] ?].
Qed.

Lemma complete_command t s q sp payload :
  small payload -> complete_message (command t s q sp payload) (command_header t s q sp payload).
Proof.
  intros Hs. split; [by apply parse_command|]. unfold command, command_header.
  rewrite length_app, length_build. cbn [dw_length]. lia.
Qed.

Lemma process_built c t s q sp payload buf :
  bytes (command t s q sp payload) -> small payload ->
  process_command c (command t s q sp payload) buf =
    (r ← dispatch c (command_header t s q sp payload) payload buf; account_failure r).
Proof.
  intros Hb Hs.
  rewrite (process_complete c _ buf (command_header t s q sp payload)); try done.
  - unfold payload_of, command, command_header. cbn [dw_length]. rewrite Nat2Z.id.
    change (drop 10 (_ ++ payload)) with payload. by rewrite firstn_all.
  - by apply complete_command.
  - unfold command_header, small, u32_max in *. cbn [dw_length]. lia.
Qed.

Lemma process_wrapped c msg buf h :
  bytes msg -> CcidHeader_parse msg = Some h -> u32_max < 10 + dw_length h ->
  process_command c msg buf = Panic.
Proof.
  intros Hb Hp Hd. unfold process_command. rewrite Hp.
  pose proof (parse_Some_length _ _ Hp). destruct (parse_bytes _ _ Hb Hp) as (_ & Hdw & _).
  unfold u32, u32_max in *.
  assert (usize_add (Z.of_nat CCID_HEADER_SIZE) (dw_length h) = 10 + dw_length h - 4294967296)
    as ->.
  { unfold usize_add, wrap32, CCID_HEADER_SIZE. symmetry. apply (Z.mod_unique_pos _ _ 1); lia. }
  replace (_ <? _) with false by lia.
  unfold slice, CCID_HEADER_SIZE. by rewrite decide_False by lia.
Qed.

Lemma process_truncated c msg buf h :
  bytes msg -> CcidHeader_parse msg = Some h ->
  10 + dw_length h <= u32_max -> Z.of_nat (length msg) < 10 + dw_length h ->
  process_command c msg buf =
    Ret (record_protocol_error c,
         write_slot_status (slot h) (seq h) (current_icc_status c) COMMAND_STATUS_FAILED
           CCID_ERR_CMD_NOT_SUPPORTED 0 buf).
Proof.
  intros Hb Hp Hd Hl. unfold process_command. rewrite Hp.
  destruct (parse_bytes _ _ Hb Hp) as (_ & Hdw & _). unfold u32, u32_max in *.
  assert (usize_add (Z.of_nat CCID_HEADER_SIZE) (dw_length h) = 10 + dw_length h) as ->.
  { unfold usize_add, wrap32, CCID_HEADER_SIZE. apply Z.mod_small. lia. }
  by replace (_ <? _) with true by lia.
Qed.

(** A complete command that does not overrun a modify structure is handled. *)
Lemma process_handled c msg buf h :
  core_ok c -> bytes msg -> complete_message msg h -> 10 + dw_length h <= u32_max ->
  ~ (message_type h = PC_TO_RDR_SECURE /\ pin_modify_overrun c (payload_of msg h)) ->
  exists failed c' r,
    process_command c msg buf = Ret (account failed c' r, r) /\
    stepped c h failed c' /\ answered h buf c' failed r.
Proof.
  intros Hc Hb Hm Hd Hn. rewrite (process_complete c msg buf h) by done.
  destruct (parse_bytes _ _ Hb (proj1 Hm)) as (_ & _ & _ & _ & Hsp).
  destruct (dispatch_cases c h (payload_of msg h) buf Hc) as [_ H]; [|done|].
  { unfold payload_of. auto with bytes. }
  destruct (H Hn) as (failed & c' & r & E1 & Hs & Ha). exists failed, c', r.
  rewrite E1, bind_ret. by rewrite (account_failure_spec _ _ _ _ _ Ha).
Qed.

Lemma with_profile_ok d fw pp :
  driver_ok d -> bytes fw -> (length fw <= 261)%nat -> core_ok (with_profile d fw pp).
Proof.
  intros Hd Hb Hl. constructor; simpl; try done.
  - solve_bytes.
  - pose proof (reinit_count_ok d Hd). unfold Diagnostics.wf, u32 in *. simpl. lia.
  - by destruct CONTACT; unfold u8.
  - apply AtrParams_default_wf.
Qed.

Lemma account_ok failed c' r : core_ok c' -> core_ok (account failed c' r).
Proof. unfold account. case_match; [apply core_ok_record_error|done]. Qed.
End Facts.

(** Side conditions of a built command. *)
Ltac solve_command :=
  apply bytes_command; first [solve_u8 | assumption | solve_bytes].
Ltac solve_small := unfold small; simpl; lia.

#[export] Hint Resolve wf_bump_tx wf_bump_rx wf_bump_error icc_range xfr_failure_u8 : ccid.
