(* ===== verification/HandlerSpec.v ===== *)
(** * The CCID handler core: theorems

    What a host can rely on when it talks to [Handler.process_command]: every
    message is answered or the panic is one of two known inputs, the slot state
    machine, the exchange relay, the counters, the parameters and the PIN
    sessions.  Witnesses run the core over the adapter and the mock driver of
    [CardInterface.v]. *)
From Stdlib Require Import ZArith Lia ZifyBool.
From stdpp Require Import prelude.
From S2P Require Import Prelude Wire Atr Diag Secure CardInterface Handler HandlerFacts.
Import PinBuf.
Local Open Scope Z_scope.

(** ** What the host reads *)

(** A reply as the host parses it: nothing (deferred, or a buffer too small
    for the payload), or one message with the echoed slot and sequence number, a payload of the
    announced length, the command status and the slot's state. *)
Definition replied {D} (h : CcidHeader) (buf : list Z) (c' : Core D) (failed : bool) (r : reply)
    : Prop :=
  (r = (buf, 0%nat) /\
     (message_type h = PC_TO_RDR_SECURE /\ failed = false /\ is_pin_entry_active c' = true \/
      (length buf < 10 + room h failed)%nat)) \/
  exists hdr,
    CcidHeader_parse (take r.2 r.1) = Some hdr /\
    Z.of_nat r.2 = 10 + dw_length hdr /\
    drop r.2 r.1 = drop r.2 buf /\
    slot hdr = slot h /\ seq hdr = seq h /\
    reply_type (message_type h) (message_type hdr) failed = true /\
    cmd_of_bstatus (specific0 hdr) =
      (if failed then COMMAND_STATUS_FAILED else COMMAND_STATUS_NO_ERROR) /\
    reported (message_type h) failed (slot_state c') (icc_of_bstatus (specific0 hdr)).

Lemma answered_replied {D} h buf (c' : Core D) failed r :
  answered h buf c' failed r -> replied h buf c' failed r /\ length r.1 = length buf.
Proof.
  intros [ty f icc err sp data Hty Hicc Hslot _ _ _ Hlen|Ht Hpin].
  2: { split; [left; split; [done|by left]|done]. }
  split; [|apply write_message_length].
  destruct (Nat.lt_ge_cases (length buf) (10 + length data)) as [Hs|Hs].
  - left. rewrite write_message_short by done. split; [done|right; lia].
  - right. pose proof (room_max h f).
    assert (u32 (Z.of_nat (length data))) as Hu by (unfold u32, TX_BUF_SIZE in *; lia).
    destruct (bstatus_decode (if f then COMMAND_STATUS_FAILED else COMMAND_STATUS_NO_ERROR) icc)
      as [E1 E2]; [by destruct f|lia|].
    assert (wrap32 (Z.of_nat (length data)) = Z.of_nat (length data)) as Ew
      by (unfold wrap32; apply Z.mod_small; exact Hu).
    eexists. split_and!.
    + rewrite write_message_fits at 1 by done. cbn [snd]. rewrite write_message_take by done.
      rewrite Ew. by apply parse_build.
    + rewrite write_message_fits by done. simpl. lia.
    + rewrite write_message_fits by done. cbn [fst snd]. rewrite app_assoc.
      apply drop_app_length'. rewrite length_app, length_build. lia.
    + done.
    + done.
    + done.
    + exact E1.
    + unfold specific0. cbn [specific fst]. rewrite E2. naive_solver.
Qed.

(** The inputs on which the handler panics: a dwLength that wraps the 32-bit
    message end, and a PIN modify structure of 11 to 13 bytes on an armed-able
    slot. *)
Definition panics {D} (c : Core D) (msg : list Z) : Prop :=
  exists h, CcidHeader_parse msg = Some h /\
    (u32_max < 10 + dw_length h \/
     complete_message msg h /\ message_type h = PC_TO_RDR_SECURE /\
     pin_modify_overrun c (payload_of msg h)).

Section Theorems.
Context {D E : Type} `{!CardBackend D E, !SlotDriver D E, !SlotDriverLaws D E}
  {P : ReaderProfile}.
Implicit Types (c : Core D) (h : CcidHeader).

Lemma account_slot failed c r : slot_state (account failed c r) = slot_state c.
Proof. unfold account. by case_match. Qed.
Lemma account_secure failed c r : secure_state (account failed c r) = secure_state c.
Proof. unfold account. by case_match. Qed.

Lemma replied_account h buf c' failed r :
  replied h buf c' failed r -> replied h buf (account failed c' r) failed r.
Proof.
  unfold replied, is_pin_entry_active. by rewrite account_slot, account_secure.
Qed.

(** Every message is processed in one of these ways. *)
Lemma process_cases c msg buf :
  core_ok c -> bytes msg ->
  (CcidHeader_parse msg = None /\ process_command c msg buf = Ret (c, (buf, 0%nat))) \/
  (panics c msg /\ process_command c msg buf = Panic) \/
  (exists h, CcidHeader_parse msg = Some h /\ ~ complete_message msg h /\
     process_command c msg buf =
       Ret (record_protocol_error c,
            write_slot_status (slot h) (seq h) (current_icc_status c) COMMAND_STATUS_FAILED
              CCID_ERR_CMD_NOT_SUPPORTED 0 buf)) \/
  (exists h failed c' r, complete_message msg h /\
     process_command c msg buf = Ret (account failed c' r, r) /\
     stepped c h failed c' /\ answered h buf c' failed r).
Proof.
  intros Hc Hb. destruct (CcidHeader_parse msg) as [h|] eqn:Hp.
  2: { left. split; [done|]. unfold process_command. by rewrite Hp. }
  right. destruct (Z.lt_ge_cases u32_max (10 + dw_length h)) as [Hw|Hw].
  { left. split; [exists h; auto|]. by eapply process_wrapped. }
  destruct (Z.lt_ge_cases (Z.of_nat (length msg)) (10 + dw_length h)) as [Ht|Ht].
  { right. left. exists h. split; [done|]. split; [intros []; lia|]. by apply process_truncated. }
  assert (complete_message msg h) as Hm by done.
  destruct (dispatch_cases c h (payload_of msg h) buf Hc) as [Hover Hok].
  { unfold payload_of. auto with bytes. }
  { by destruct (parse_bytes _ _ Hb Hp) as (_ & _ & _ & _ & ?). }
  assert (Decision (message_type h = PC_TO_RDR_SECURE /\ pin_modify_overrun c (payload_of msg h)))
    as Hdec by (unfold pin_modify_overrun; apply _).
  destruct Hdec as [Ho|Ho].
  - left. split; [exists h; auto|]. rewrite (process_complete c msg buf h) by done.
    by rewrite Hover.
  - right. right. destruct (process_handled c msg buf h) as (f & c' & r & ?); try done.
    by exists h, f, c', r.
Qed.

Lemma panics_not_complete c msg h :
  panics c msg -> CcidHeader_parse msg = Some h -> ~ complete_message msg h ->
  u32_max < 10 + dw_length h.
Proof. intros (h' & Hp & [?|[? _]]) Hp' Hn; simplify_eq; done. Qed.

Lemma panics_process c msg buf :
  core_ok c -> bytes msg -> panics c msg -> process_command c msg buf = Panic.
Proof.
  intros Hc Hb (h & Hp & Hcase).
  destruct (Z.lt_ge_cases u32_max (10 + dw_length h)); [by eapply process_wrapped|].
  destruct Hcase as [Hw|(Hm & Ht & Ho)]; [lia|].
  rewrite (process_complete c msg buf h) by done.
  destruct (dispatch_cases c h (payload_of msg h) buf Hc) as [Hover _].
  { unfold payload_of. auto with bytes. }
  { by destruct (parse_bytes _ _ Hb Hp) as (_ & _ & _ & _ & ?). }
  by rewrite Hover.
Qed.

(** C1: every message is answered.  The handler panics exactly on the inputs
    of [panics]; on all others it returns, keeps its invariant and the length
    of the response buffer, ignores what is shorter than a header, refuses a
    truncated message with a FAILED SlotStatus and a counted error, and
    otherwise answers with one well-formed message of the command's reply
    type that echoes bSlot and bSeq and reports the slot as it is afterwards --
    but for a failed IccPowerOn, which may report no card or an inactive one
    whatever the slot is ([reported]: a refused voltage leaves an active slot
    active and says inactive).  The answer of an accepted PIN command is
    deferred, and a reply too long for the buffer is lost, which with 271 bytes
    only what a card says can be.  It holds over any driver that keeps its
    contract ([SlotDriverLaws]). *)
Theorem process_command_answers c msg buf :
  core_ok c -> bytes msg ->
  (process_command c msg buf = Panic <-> panics c msg) /\
  (forall c' r, process_command c msg buf = Ret (c', r) ->
     core_ok c' /\ length r.1 = length buf /\
     match CcidHeader_parse msg with
     | None => c' = c /\ r = (buf, 0%nat)
     | Some h =>
         if decide (10 + dw_length h <= Z.of_nat (length msg))
         then exists failed, replied h buf c' failed r
         else c' = record_protocol_error c /\
              r = write_slot_status (slot h) (seq h) (icc_status (slot_state c))
                    COMMAND_STATUS_FAILED CCID_ERR_CMD_NOT_SUPPORTED 0 buf
     end).
Proof.
  intros Hc Hb.
  destruct (process_cases c msg buf Hc Hb) as
    [[Hp Epc]|[[Hpanic Epc]|[(h & Hp & Hn & Epc)|(h & f & c1 & r1 & Hm & Epc & Hs & Ha)]]];
    rewrite Epc.
  - rewrite Hp. split; [split; [done|intros (h & ? & _); congruence]|].
    intros c' r [= <- <-]. done.
  - split; [done|]. by intros.
  - split.
    + split; [done|]. intros Hpanic. pose proof (panics_not_complete _ _ _ Hpanic Hp Hn) as Hw.
      erewrite process_wrapped in Epc by done. done.
    + rewrite Hp. intros c' r [= <- <-]. split; [by apply core_ok_record_error|].
      split; [apply write_message_length|].
      rewrite decide_False by (intros ?; by apply Hn). done.
  - destruct (answered_replied _ _ _ _ _ Ha) as [Hr Hl]. destruct Hm as [Hp Hlen].
    split.
    + split; [done|]. intros Hpanic.
      pose proof (panics_process c msg buf Hc Hb Hpanic). congruence.
    + rewrite Hp. intros c' r [= <- <-]. split; [apply account_ok, Hs|].
      split; [done|]. rewrite decide_True by done. exists f. by apply replied_account.
Qed.

(** ** The slot *)

(** The presence poll, as steps of the slot and the presence flag: the answer
    is the notification for the host. *)
Inductive poll_step (session now : bool) :
    SlotState * bool -> option bool -> SlotState * bool -> Prop :=
| PollSession sp : session = true -> poll_step session now sp None (PresentActive, true)
| PollQuiet s :
    session = false -> (CONTACT = true \/ s <> PresentActive \/ now = false) ->
    poll_step session now (s, now) None (s, now)
| PollInserted s :
    session = false -> now = true -> (CONTACT = true \/ s <> PresentActive) ->
    poll_step session now (s, false) (Some true) (PresentInactive, true)
| PollRemoved s :
    session = false -> now = false ->
    poll_step session now (s, true) (Some false) (Absent, false)
| PollSessionLost p :
    session = false -> now = true -> CONTACT = false ->
    poll_step session now (PresentActive, p) (Some true) (PresentInactive, true).

(** C2: the slot state machine.  A command moves the slot only along
    [slot_step]: it becomes active only by a successful IccPowerOn, leaves
    the active state only by IccPowerOff, a failed activation or (serial
    profile) a failed exchange; the card driver is called only by the power
    commands and by an XfrBlock on an active slot; the status byte is the
    state reached, but for a failed IccPowerOn, which may report no card or an
    inactive one instead ([reported]).  The presence poll moves it along [poll_step] and its
    answer is exactly the change the host must hear of. *)
Theorem slot_machine c msg h buf c' r :
  core_ok c -> bytes msg -> complete_message msg h ->
  process_command c msg buf = Ret (c', r) ->
  (exists failed,
     slot_step CONTACT (message_type h) (slot_state c) failed (slot_state c') /\
     replied h buf c' failed r) /\
  (nfc c' = nfc c \/ message_type h = PC_TO_RDR_ICC_POWER_ON \/
   message_type h = PC_TO_RDR_ICC_POWER_OFF \/
   message_type h = PC_TO_RDR_XFR_BLOCK /\ slot_state c = PresentActive) /\
  (let p := check_card_change c in
   poll_step (session_active (nfc c)) (poll_card_presence (nfc c)).2
     (slot_state c, present c) p.2 (slot_state p.1, present p.1)).
Proof.
  intros Hc Hb Hm E1.
  assert (let p := check_card_change c in
    poll_step (session_active (nfc c)) (poll_card_presence (nfc c)).2
     (slot_state c, present c) p.2 (slot_state p.1, present p.1)) as Hpoll.
  { unfold check_card_change. destruct (session_active (nfc c)); [by constructor|].
    destruct (poll_card_presence (nfc c)) as [d now]. simpl.
    destruct CONTACT eqn:EC, (slot_state c) eqn:Es, now, (present c) eqn:Ep; simpl;
      rewrite ?Es, ?Ep;
      first [ apply PollSessionLost; done
            | apply PollQuiet; [done|]; first [by left | by right; left | by right; right]
            | apply PollInserted; [done..|]; first [by left | by right]
            | apply PollRemoved; done ]. }
  split; [|split; [|exact Hpoll]].
  all: destruct (process_cases c msg buf Hc Hb) as
    [[Hp Epc]|[[Hpanic Epc]|[(h' & Hp & Hn & Epc)|(h' & f & c1 & r1 & Hm' & Epc & Hs & Ha)]]];
    rewrite E1 in Epc; try done;
    try (destruct Hm; congruence);
    try (destruct Hm as [Hp' Hl']; rewrite Hp in Hp'; injection Hp' as <-; by destruct Hn).
  all: destruct Hm as [Hp Hlen], Hm' as [Hp' _]; simplify_eq.
  - exists f. rewrite account_slot. split; [apply Hs|].
    apply replied_account. by apply answered_replied.
  - assert (nfc (account f c1 r1) = nfc c1) as -> by (unfold account; by case_match).
    destruct (st_card _ _ _ _ Hs) as [?|[?|[?|?]]]; auto.
Qed.

Lemma complete_process c msg h buf c' r :
  core_ok c -> bytes msg -> complete_message msg h ->
  process_command c msg buf = Ret (c', r) ->
  exists failed c1, c' = account failed c1 r /\ stepped c h failed c1 /\
    answered h buf c1 failed r.
Proof.
  intros Hc Hb Hm E1.
  destruct (process_cases c msg buf Hc Hb) as
    [[Hp Epc]|[[Hpanic Epc]|[(h' & Hp & Hn & Epc)|(h' & f & c1 & r1 & Hm' & Epc & Hs & Ha)]]];
    rewrite E1 in Epc; [destruct Hm; congruence|done| |].
  - destruct Hm as [Hp' Hl']. rewrite Hp in Hp'. injection Hp' as <-. by destruct Hn.
  - destruct Hm as [Hp _], Hm' as [Hp' _]. rewrite Hp in Hp'. injection Hp' as <-.
    injection Epc as -> ->. eauto.
Qed.

Lemma check_card_change_ok c : core_ok c -> core_ok (check_card_change c).1.
Proof.
  intros Hc. unfold check_card_change.
  assert (forall b, Diagnostics.wf (Diagnostics.set_card_present b (diagnostics c))) as Hcp
    by (intros b; apply (ok_diagnostics _ Hc)).
  case_match; [destruct Hc; constructor; simpl; auto|].
  pose proof (poll_ok (nfc c) (ok_driver _ Hc)) as Hd.
  destruct (poll_card_presence (nfc c)) as [d now]. simpl in Hd. cbn [nfc set_nfc].
  assert (core_ok (set_diagnostics (Diagnostics.set_reinit (reinit_count d)
    (Diagnostics.set_card_present now (diagnostics c))) (set_nfc d c))) as Hc1.
  { pose proof (reinit_count_ok d Hd) as Hr. pose proof (ok_diagnostics _ Hc) as Hdiag.
    unfold Diagnostics.wf in Hdiag. destruct_and!.
    destruct Hc; constructor; simpl; auto; unfold Diagnostics.wf; simpl; by split_and!. }
  pose proof (power_off_ok d Hd) as Hd'.
  simpl. repeat case_match; destruct Hc1; constructor; simpl in *; auto.
Qed.

(** *** Runs of a reader: commands and presence polls *)
Inductive event := Command (msg : list Z) | Poll.
Inductive answer := Replied (r : reply) | Polled (session : bool) (change : option bool).

Definition serve (buf : list Z) c (e : event) : outcome (Core D * answer) :=
  match e with
  | Command msg => r ← process_command c msg buf; Ret (r.1, Replied r.2)
  | Poll => let p := check_card_change c in
            Ret (p.1, Polled (session_active (nfc c)) p.2)
  end.

Definition event_ok (e : event) : Prop :=
  match e with Command msg => bytes msg | Poll => True end.

(** The header of a message that carries all it announces. *)
Definition header_of (msg : list Z) : option CcidHeader :=
  match CcidHeader_parse msg with
  | Some h => if 10 + dw_length h <=? Z.of_nat (length msg) then Some h else None
  | None => None
  end.
Definition failed_reply (r : reply) : bool :=
  (10 <=? r.2)%nat && (cmd_of_bstatus (arr r.1 7) =? COMMAND_STATUS_FAILED).

(** Is the card powered, judged from the trace alone: the last power event was
    a successful IccPowerOn (or the driver reported a live session), with no
    IccPowerOff and no card change after it. *)
Definition powered_step (on : bool) (ea : event * answer) : bool :=
  match ea with
  | (Command msg, Replied r) =>
      match header_of msg with
      | Some h =>
          if (message_type h =? PC_TO_RDR_ICC_POWER_ON) && negb (failed_reply r) then true
          else if message_type h =? PC_TO_RDR_ICC_POWER_OFF then false
          else on
      | None => on
      end
  | (Poll, Polled true _) => true
  | (Poll, Polled false (Some _)) => false
  | _ => on
  end.
Definition powered (trace : list (event * answer)) : bool := fold_left powered_step trace false.

Lemma header_of_Some msg h : header_of msg = Some h <-> complete_message msg h.
Proof.
  unfold header_of, complete_message. destruct (CcidHeader_parse msg) as [h'|]; [|naive_solver].
  destruct (Z.leb_spec (10 + dw_length h') (Z.of_nat (length msg))); [naive_solver|].
  split; [done|]. intros [[= ->] ?]. lia.
Qed.

Lemma answered_failed h buf c' failed r :
  answered h buf c' failed r -> failed_reply r = failed && (10 <=? r.2)%nat.
Proof.
  intros Ha. unfold failed_reply.
  destruct (answered_cases _ _ _ _ _ Ha) as [->|(Hl & icc & Hicc & Hs)].
  - by rewrite !andb_false_r.
  - replace (10 <=? r.2)%nat with true by lia. unfold arr. rewrite Hs.
    destruct (bstatus_decode (if failed then COMMAND_STATUS_FAILED else COMMAND_STATUS_NO_ERROR)
      icc) as [E1 _]; [by destruct failed|lia|].
    cbn [from_option]; unfold id. rewrite E1. by destruct failed.
Qed.

(** What a returned command says about the step it made. *)
Lemma process_command_ok c msg buf c' r :
  core_ok c -> bytes msg -> process_command c msg buf = Ret (c', r) ->
  core_ok c' /\
  match header_of msg with
  | Some h => exists failed,
      slot_step CONTACT (message_type h) (slot_state c) failed (slot_state c') /\
      failed_reply r = failed && (10 <=? r.2)%nat
  | None => slot_state c' = slot_state c /\ nfc c' = nfc c
  end.
Proof.
  intros Hc Hb E1. destruct (header_of msg) as [h|] eqn:Eh.
  - apply header_of_Some in Eh.
    destruct (complete_process c msg h buf c' r Hc Hb Eh E1) as (f & c1 & -> & Hs & Ha).
    split; [apply account_ok, Hs|]. exists f. rewrite account_slot.
    split; [apply Hs|by eapply answered_failed].
  - assert (forall h, ~ complete_message msg h) as Hn
      by (intros h Hm; apply header_of_Some in Hm; congruence).
    destruct (process_cases c msg buf Hc Hb) as
      [[Hp Epc]|[[Hpanic Epc]|[(h' & Hp & _ & Epc)|(h' & f & c1 & r1 & Hm' & _)]]];
      [| | |by destruct (Hn h')]; rewrite E1 in Epc; try done; injection Epc as -> ->;
      split; try done. by apply core_ok_record_error.
Qed.

Lemma powered_sound buf c e c' a on :
  core_ok c -> event_ok e -> serve buf c e = Ret (c', a) ->
  (slot_state c = PresentActive -> on = true) ->
  core_ok c' /\ (slot_state c' = PresentActive -> powered_step on (e, a) = true).
Proof.
  intros Hc He Hserve Hon. destruct e as [msg|]; simpl in Hserve.
  - apply bind_Ret_inv in Hserve as ([c1 r] & E1 & [= <- <-]). simpl.
    destruct (process_command_ok c msg buf c1 r Hc He E1) as [Hc1 Hcase].
    split; [done|].
    destruct (header_of msg) as [h|] eqn:Eh.
    2: { destruct Hcase as [Hs _]. by rewrite Hs. }
    destruct Hcase as (failed & Hstep & Hf).
    inversion Hstep as [s Ht|s Ht|s Ht|Ht|Ht|s Ht Hx|s f Hn1 Hn2 Hn3]; subst;
      rewrite ?Hf; intros Ha; try (rewrite Ht; done);
      (assert (message_type h <> PC_TO_RDR_ICC_POWER_OFF) by (by rewrite ?Ht));
      repeat case_match; try done; try lia; apply Hon; congruence.
  - injection Hserve as <- <-. split; [by apply check_card_change_ok|].
    simpl. unfold check_card_change. destruct (session_active (nfc c)); [done|].
    destruct (poll_card_presence (nfc c)) as [d now]. simpl.
    repeat case_match; simpl; intros; try done; by apply Hon.
Qed.

Lemma powered_run buf es c c' answers on :
  core_ok c -> Forall event_ok es -> run (serve buf) c es = Ret (c', answers) ->
  (slot_state c = PresentActive -> on = true) ->
  core_ok c' /\
  (slot_state c' = PresentActive -> fold_left powered_step (zip es answers) on = true).
Proof.
  intros Hc Hes. revert c c' answers on Hc.
  induction Hes as [|e es He Hes IH]; intros c c' answers on Hc Hrun Hon; simpl in Hrun.
  { injection Hrun as <- <-. done. }
  apply bind_Ret_inv in Hrun as ([c1 a] & E1 & Hrun).
  apply bind_Ret_inv in Hrun as ([c2 rs] & E2 & [= <- <-]).
  destruct (powered_sound buf c e c1 a on Hc He E1 Hon) as [Hc1 Hon1].
  simpl. by apply (IH c1 c2 rs (powered_step on (e, a))).
Qed.

(** No exchange without power.  In every run of commands and presence
    polls, an XfrBlock that arrives when the trace does not show a powered
    card (no successful IccPowerOn and no live session since the last
    IccPowerOff or card change) never reaches the card driver: the driver
    and the slot are left alone and the reply is not a success. *)
Theorem exchange_needs_power buf es c answers c1 msg h :
  core_ok c -> slot_state c <> PresentActive -> Forall event_ok es ->
  run (serve buf) c es = Ret (c1, answers) ->
  powered (zip es answers) = false ->
  bytes msg -> header_of msg = Some h -> message_type h = PC_TO_RDR_XFR_BLOCK ->
  10 + dw_length h <= u32_max -> (271 <= length buf)%nat ->
  exists c2 r, process_command c1 msg buf = Ret (c2, r) /\ failed_reply r = true /\
    nfc c2 = nfc c1 /\ slot_state c2 = slot_state c1.
Proof.
  intros Hc Hs Hes Hrun Hpow Hb Hh Ht Hw Hbuf. apply header_of_Some in Hh.
  destruct (powered_run buf es c c1 answers false Hc Hes Hrun) as [Hc1 Hact]; [done|].
  assert (slot_state c1 <> PresentActive) as Hn.
  { intros Ha. apply Hact in Ha. unfold powered in Hpow. congruence. }
  destruct (process_handled c1 msg buf h) as (f & c2 & r & E1 & Hst & Ha); try done.
  { rewrite Ht. by intros [? _]. }
  exists (account f c2 r), r.
  pose proof (answered_replied _ _ _ _ _ Ha) as [Hrep _].
  assert (f = true) as ->.
  { pose proof (st_slot _ _ _ _ Hst) as Hsl. rewrite Ht in Hsl. by inversion Hsl. }
  split; [done|]. rewrite (answered_failed _ _ _ _ _ Ha), account_slot.
  assert (nfc (account true c2 r) = nfc c2) as -> by (unfold account; by case_match).
  split_and!.
  - destruct Hrep as [[-> [(Ht' & _)|Hl]]|(hdr & Hhdr & Hl & _)];
      [by rewrite Ht in Ht'|cbn in Hl; lia|].
    apply parse_Some_length in Hhdr. rewrite length_take in Hhdr. lia.
  - destruct (st_card _ _ _ _ Hst) as [Ho|[Ho|[[_ ?]|?]]]; try done; by rewrite Ht in Ho.
  - pose proof (st_slot _ _ _ _ Hst) as Hsl. rewrite Ht in Hsl. inversion Hsl; done || congruence.
Qed.

(** ** The counters *)
Definition is_xfr (msg : list Z) : bool :=
  match header_of msg with Some h => message_type h =? PC_TO_RDR_XFR_BLOCK | None => false end.

Definition diag_query (seq : Z) : list Z :=
  command PC_TO_RDR_ESCAPE 0 seq (0, 0, 0) [0xD0].

Lemma counters_step c msg buf c' r :
  core_ok c -> bytes msg -> (271 <= length buf)%nat ->
  process_command c msg buf = Ret (c', r) ->
  core_ok c' /\ diagnostics_fold c' = diagnostics_fold c /\
  let d := diagnostics c in let d' := diagnostics c' in
  Diagnostics.error_count d' =
    sat_add32 (Diagnostics.error_count d) (if failed_reply r then 1 else 0) /\
  Diagnostics.apdu_tx_count d <= Diagnostics.apdu_tx_count d' <=
    Diagnostics.apdu_tx_count d + (if is_xfr msg then 1 else 0) /\
  Diagnostics.apdu_rx_count d <= Diagnostics.apdu_rx_count d' /\
  (Diagnostics.apdu_rx_count d <= Diagnostics.apdu_tx_count d ->
   Diagnostics.apdu_rx_count d' <= Diagnostics.apdu_tx_count d').
Proof.
  intros Hc Hb Hbuf E1.
  pose proof (ok_diagnostics _ Hc) as (H1 & H2 & _ & H4 & _). unfold is_xfr.
  destruct (header_of msg) as [h|] eqn:Eh.
  - apply header_of_Some in Eh.
    destruct (complete_process c msg h buf c' r Hc Hb Eh E1) as (f & c1 & -> & Hs & Ha).
    split; [apply account_ok, Hs|].
    assert (diagnostics_fold (account f c1 r) = diagnostics_fold c1) as ->
      by (unfold account; by case_match).
    split; [apply Hs|]. rewrite (answered_failed _ _ _ _ _ Ha).
    assert (diagnostics (account f c1 r) =
      (if f && (10 <=? r.2)%nat then Diagnostics.bump_error (diagnostics c1)
       else diagnostics c1)) as ->.
    { unfold account. destruct (answered_cases _ _ _ _ _ Ha) as [->|(Hl & _)].
      - by rewrite !andb_false_r.
      - replace (7 <? r.2)%nat with true by lia. replace (10 <=? r.2)%nat with true by lia.
        by destruct f. }
    set (wrote := (10 <=? r.2)%nat).
    destruct (st_counted _ _ _ _ Hs) as [failed|Ht|Ht]; rewrite ?Ht;
      [destruct failed|..]; destruct wrote; simpl; repeat case_match; int_lia.
  - assert (forall h, ~ complete_message msg h) as Hn
      by (intros h Hm; apply header_of_Some in Hm; congruence).
    destruct (process_cases c msg buf Hc Hb) as
      [[Hp Epc]|[[Hpanic Epc]|[(h' & Hp & _ & Epc)|(h' & f & c1 & r1 & Hm' & _)]]];
      [| | |by destruct (Hn h')]; rewrite E1 in Epc; try done; injection Epc as -> ->.
    + split_and!; try done; unfold failed_reply; simpl; int_lia.
    + assert (failed_reply (write_slot_status (slot h') (seq h') (current_icc_status c)
        COMMAND_STATUS_FAILED CCID_ERR_CMD_NOT_SUPPORTED 0 buf) = true) as ->.
      { unfold failed_reply, write_slot_status. rewrite write_message_fits by (simpl; lia).
        cbn [fst snd]. unfold arr, current_icc_status. by destruct (slot_state c). }
      split_and!; try done; [by apply core_ok_record_error|simpl; int_lia..].
Qed.

Lemma escape_diagnostics c buf seq c' r :
  core_ok c -> diagnostics_fold c = None -> u8 seq -> (271 <= length buf)%nat ->
  process_command c (diag_query seq) buf = Ret (c', r) ->
  r.2 = 38%nat /\ Diagnostics.from_bytes (drop 10 r.1) = Some (diagnostics c) /\
  diagnostics c' = diagnostics c.
Proof.
  intros Hc Hfold Hseq Hbuf E1.
  unfold diag_query in E1. rewrite process_built in E1;
    [|solve_command|solve_small].
  set (h := command_header _ _ _ _ _) in E1.
  change (dispatch c h [0xD0] buf) with (Ret (handle_escape c h [0xD0] buf)) in E1.
  pose proof (ok_diagnostics _ Hc) as Hwf.
  assert (handle_escape c h [0xD0] buf = escape_reply c h COMMAND_STATUS_NO_ERROR 0
    (words (Diagnostics.fields (diagnostics c))) buf) as Eh.
  { unfold handle_escape. rewrite bool_decide_eq_true_2, Hfold by done.
    destruct (diagnostics_roundtrip (diagnostics c)
      (replicate Diagnostics.SERIALIZED_SIZE 0)) as [Eb _]; [done|done|].
    cbv zeta. rewrite Eb. cbn [fst]. change (drop 28 (replicate _ 0)) with (@nil Z).
    by rewrite app_nil_r. }
  assert (10 + length (words (Diagnostics.fields (diagnostics c))) <= length buf)%nat as Hl
    by (rewrite length_words; simpl; lia).
  rewrite Eh, bind_ret in E1. unfold escape_reply in E1.
  rewrite (account_message c _ _ _ false) in E1 by (done || apply icc_range).
  injection E1 as <- <-. rewrite write_message_fits by done. cbn [fst snd].
  rewrite length_words. split_and!; [done| |done].
  rewrite (drop_app_length' (CcidHeader_build _ _ _ _ _ _ _)) by done.
  replace (10 + _)%nat with (10 + 28)%nat by done. rewrite <- drop_drop.
  apply diagnostics_roundtrip; [done|]. rewrite length_drop. lia.
Qed.

Lemma sat_add32_twice a m n : 0 <= m -> 0 <= n -> 0 <= a <= u32_max ->
  Z.min (sat_add32 a m + n) u32_max = Z.min (a + (m + n)) u32_max.
Proof. unfold sat_add32. lia. Qed.

(** C33: the counters tell the truth.  Over any run of commands, error_count
    has grown by exactly the number of FAILED replies the host received
    (saturating), apdu_tx by at most the number of XfrBlocks and apdu_rx never
    overtakes apdu_tx; and a reader without a fold answers Escape 0xD0 with
    exactly these counters, without changing them. *)
Theorem counters_exact buf msgs c c1 rs seq c2 r :
  core_ok c -> diagnostics_fold c = None -> Forall bytes msgs -> (271 <= length buf)%nat ->
  u8 seq ->
  run (fun c msg => process_command c msg buf) c msgs = Ret (c1, rs) ->
  process_command c1 (diag_query seq) buf = Ret (c2, r) ->
  exists d, Diagnostics.from_bytes (drop 10 r.1) = Some d /\
    diagnostics c1 = d /\ diagnostics c2 = d /\
    Diagnostics.error_count d =
      Z.min (Diagnostics.error_count (diagnostics c) + count failed_reply rs) u32_max /\
    Diagnostics.apdu_tx_count d <=
      Diagnostics.apdu_tx_count (diagnostics c) + count is_xfr msgs /\
    (Diagnostics.apdu_rx_count (diagnostics c) <= Diagnostics.apdu_tx_count (diagnostics c) ->
     Diagnostics.apdu_rx_count d <= Diagnostics.apdu_tx_count d).
Proof.
  intros Hc Hfold Hmsgs Hbuf Hseq Hrun Hq. exists (diagnostics c1).
  assert (core_ok c1 /\ diagnostics_fold c1 = None /\
    Diagnostics.error_count (diagnostics c1) =
      Z.min (Diagnostics.error_count (diagnostics c) + count failed_reply rs) u32_max /\
    Diagnostics.apdu_tx_count (diagnostics c1) <=
      Diagnostics.apdu_tx_count (diagnostics c) + count is_xfr msgs /\
    (Diagnostics.apdu_rx_count (diagnostics c) <= Diagnostics.apdu_tx_count (diagnostics c) ->
     Diagnostics.apdu_rx_count (diagnostics c1) <= Diagnostics.apdu_tx_count (diagnostics c1)))
    as (Hc1 & Hf1 & H1 & H2 & H3).
  { clear Hq. revert c c1 rs Hc Hfold Hrun.
    induction Hmsgs as [|msg msgs Hm Hmsgs IH]; intros c c1 rs Hc Hfold Hrun; simpl in Hrun.
    - injection Hrun as <- <-. pose proof (ok_diagnostics _ Hc) as (_ & _ & _ & He & _).
      simpl. split_and!; try done; unfold u32, u32_max in *; lia.
    - apply bind_Ret_inv in Hrun as ([c' r'] & E1 & Hrun).
      apply bind_Ret_inv in Hrun as ([c'' rs'] & E2 & [= <- <-]). cbn [fst snd] in *.
      destruct (counters_step c msg buf c' r' Hc Hm Hbuf E1)
        as (Hc' & Hf' & He' & [_ Htx] & _ & Hle).
      rewrite Hfold in Hf'.
      destruct (IH c' c'' rs' Hc' Hf' E2) as (Hc2 & Hf2 & H1 & H2 & H3).
      split_and!; [done|done| |simpl; case_match; lia|auto].
      pose proof (ok_diagnostics _ Hc) as (_ & _ & _ & He & _).
      pose proof (count_nonneg failed_reply rs').
      rewrite H1, He'. cbn [count]. rewrite sat_add32_twice; [done|destruct (failed_reply r'); lia|lia|].
      unfold u32, u32_max in *. lia. }
  destruct (escape_diagnostics c1 buf seq c2 r Hc1 Hf1 Hseq Hbuf Hq) as (_ & Hd & ->). done.
Qed.

(** ** Parameters *)

(** The parameter structures a contact reader accepts for bProtocolNum [p]. *)
Definition valid_params (p : Z) (raw : list Z) : bool :=
  if p =? 1
  then (length raw =? 7)%nat && (Z.land (arr raw 1) 0xFE =? 0) &&
       ((16 <=? arr raw 5) && (arr raw 5 <=? 254)) && (arr raw 6 =? 0)
  else (p =? 0) && (length raw =? 5)%nat && (Z.land (arr raw 1) 0x7F =? 0).

Definition pad7 (raw : list Z) : list Z := raw ++ replicate (7 - length raw) 0.

Definition accepted c (p : Z) (raw : list Z) : Core D :=
  let c := set_parameters_accepted true
             (set_host_params (Some (p, pad7 raw)) (set_current_protocol p c)) in
  if CONTACT then set_atr_params (adopt_host_params p (pad7 raw) (atr_params c)) c else c.

Definition params_reply (s q p icc : Z) (raw : list Z) : list Z :=
  CcidHeader_build RDR_TO_PC_PARAMETERS (Z.of_nat (length raw)) s q
    (build_bstatus COMMAND_STATUS_NO_ERROR icc) 0 p ++ raw.

Lemma valid_params_length p raw :
  valid_params p raw = true -> p = 1 /\ length raw = 7%nat \/ p = 0 /\ length raw = 5%nat.
Proof. unfold valid_params. case_match; lia. Qed.

Lemma arr_pad7 raw i : (i < length raw)%nat -> arr (pad7 raw) i = arr raw i.
Proof. intros H. unfold arr, pad7. by rewrite lookup_app_l. Qed.

Lemma accept_dispatch c p raw s q buf :
  valid_params p raw = true -> CONTACT = true \/ p = 1 ->
  let h := command_header PC_TO_RDR_SET_PARAMETERS s q (p, 0, 0) raw in
  dispatch c h raw buf = Ret (write_parameters (accepted c p raw) h buf).
Proof.
  intros Hv Hp h. pose proof (valid_params_length p raw Hv) as Hl.
  change (dispatch c h raw buf) with (handle_set_parameters c h raw buf).
  unfold handle_set_parameters, accepted. destruct CONTACT eqn:EC.
  - unfold handle_set_parameters_contact. cbn [dw_length h command_header].
    assert ((if Z.of_nat (length raw) =? 5 then Some 0
             else if Z.of_nat (length raw) =? 7 then Some 1 else None) = Some p) as ->
      by (destruct Hl as [[-> ->]|[-> ->]]; done).
    rewrite Nat2Z.id. replace ((length raw `min` 7) `min` length raw)%nat with (length raw) by lia.
    rewrite slice_prefix, firstn_all, bind_ret by done.
    pose proof (copy_at_replicate [] raw 7 0) as Ecopy. cbn [app length] in Ecopy.
    rewrite Ecopy, bind_ret by lia. fold (pad7 raw).
    change (specific0 h) with p. cbv zeta. rewrite Z.eqb_refl. unfold valid_params in Hv.
    assert (arr (pad7 raw) 1 = arr raw 1) as -> by (apply arr_pad7; lia).
    destruct Hl as [[-> Hl]|[-> Hl]]; simpl Z.eqb in *; cbv iota in *.
    + rewrite !arr_pad7 by lia. rewrite Hl in Hv. simpl in Hv |- *. by rewrite Hv.
    + rewrite Hl in Hv. simpl in Hv |- *. by rewrite Hv.
  - destruct Hp as [Hp|Hp]; [done|]. destruct Hl as [[-> Hl]|[? _]]; [|lia].
    change (specific0 h) with 1. cbn [dw_length h command_header]. rewrite Hl. simpl.
    unfold pad7. rewrite Hl. simpl replicate. rewrite app_nil_r.
    by rewrite take_ge by lia.
Qed.

(** What GetParameters answers while a host set is in force. *)
Lemma host_payload c p raw :
  valid_params p raw = true -> CONTACT = true \/ p = 1 ->
  host_params c = Some (p, pad7 raw) -> current_protocol c = p ->
  parameter_payload c = (raw, p).
Proof.
  intros Hv Hp Hh Hc. unfold parameter_payload. rewrite Hh, Hc, Z.eqb_refl.
  assert (forall n, n = length raw -> take n (pad7 raw) = raw) as Ht
    by (intros n ->; unfold pad7; by rewrite take_app_length).
  destruct (valid_params_length p raw Hv) as [[-> Hl]|[-> Hl]], CONTACT; simpl;
    try (destruct Hp; done); f_equal; by apply Ht.
Qed.

Lemma write_host_parameters c p raw h buf :
  parameter_payload c = (raw, p) -> small raw -> (10 + length raw <= length buf)%nat ->
  exists r : reply, (r ← Ret (write_parameters c h buf); account_failure r) = Ret (c, r) /\
    take r.2 r.1 = params_reply (slot h) (seq h) p (current_icc_status c) raw.
Proof.
  intros Hpay Hs Hl. unfold write_parameters. rewrite Hpay. rewrite bind_ret.
  rewrite (account_message c _ _ _ false) by (done || apply icc_range).
  eexists. split; [done|]. rewrite write_message_fits at 1 by done. cbn [snd].
  rewrite write_message_take by done. unfold params_reply.
  assert (wrap32 (Z.of_nat (length raw)) = Z.of_nat (length raw)) as ->; [|done].
  unfold wrap32, small in *. apply Z.mod_small. lia.
Qed.

(** A command that is complete leaves the parameters alone unless its type
    says otherwise; an incomplete one always does. *)
Definition keeps_params (msg : list Z) : Prop :=
  bytes msg /\ forall h, header_of msg = Some h -> changes_params (message_type h) = false.

Lemma keeps_params_step c msg buf c' r :
  core_ok c -> keeps_params msg -> process_command c msg buf = Ret (c', r) ->
  core_ok c' /\ host_params c' = host_params c /\ current_protocol c' = current_protocol c /\
  atr_params c' = atr_params c.
Proof.
  intros Hc [Hb Hk] E1. destruct (header_of msg) as [h|] eqn:Eh.
  - specialize (Hk h eq_refl). apply header_of_Some in Eh.
    destruct (complete_process c msg h buf c' r Hc Hb Eh E1) as (f & c1 & -> & Hs & _).
    split; [apply account_ok, Hs|]. destruct (st_params _ _ _ _ Hs Hk) as (? & ? & ?).
    unfold account. by case_match.
  - assert (forall h, ~ complete_message msg h) as Hn
      by (intros h Hm; apply header_of_Some in Hm; congruence).
    destruct (process_cases c msg buf Hc Hb) as
      [[Hp Epc]|[[Hpanic Epc]|[(h' & Hp & _ & Epc)|(h' & f & c1 & r1 & Hm' & _)]]];
      [| | |by destruct (Hn h')]; rewrite E1 in Epc; try done; injection Epc as -> ->; [done|].
    split; [by apply core_ok_record_error|done].
Qed.

Lemma keeps_params_run buf msgs c c' rs :
  core_ok c -> Forall keeps_params msgs ->
  run (fun c msg => process_command c msg buf) c msgs = Ret (c', rs) ->
  core_ok c' /\ host_params c' = host_params c /\ current_protocol c' = current_protocol c /\
  atr_params c' = atr_params c.
Proof.
  intros Hc Hms. revert c c' rs Hc. induction Hms as [|m ms Hm Hms IH]; intros c c' rs Hc Hrun;
    simpl in Hrun.
  { by injection Hrun as <- <-. }
  apply bind_Ret_inv in Hrun as ([c1 r] & E1 & Hrun).
  apply bind_Ret_inv in Hrun as ([c2 rs'] & E2 & [= <- <-]). cbn [fst snd] in *.
  destruct (keeps_params_step c m buf c1 r Hc Hm E1) as (Hc1 & ? & ? & ?).
  destruct (IH c1 c2 rs' Hc1 E2) as (? & ? & ? & ?). split_and!; congruence.
Qed.

(** An accepted SetParameters governs.  A valid structure is accepted
    (bProtocolNum 0 or 1 on a contact reader, 1 on a serial reader) and
    echoed; after any run of commands that are not power commands and set no
    parameters, GetParameters answers byte for byte that structure, and the
    wire timing handed to the reader's serial driver is the host's: Fi and Di
    of its first byte, its guard time, its protocol, its BWI, CWI and IFSC. *)
Theorem parameters_echo buf c p raw s q c1 r1 msgs c2 rs s' q' :
  core_ok c -> bytes raw -> u8 s -> u8 q -> u8 s' -> u8 q' -> (271 <= length buf)%nat ->
  valid_params p raw = true -> CONTACT = true \/ p = 1 ->
  process_command c (command PC_TO_RDR_SET_PARAMETERS s q (p, 0, 0) raw) buf = Ret (c1, r1) ->
  Forall keeps_params msgs ->
  run (fun c msg => process_command c msg buf) c1 msgs = Ret (c2, rs) ->
  take r1.2 r1.1 = params_reply s q p (icc_status (slot_state c)) raw /\
  parameters_accepted_event c1 = true /\
  (exists r2, process_command c2 (command PC_TO_RDR_GET_PARAMETERS s' q' (0, 0, 0) []) buf =
                Ret (c2, r2) /\
     take r2.2 r2.1 = params_reply s' q' p (icc_status (slot_state c2)) raw) /\
  accepted_contact_timing c2 =
    Some {| wt_fi := fi_from_ta1_high (Z.shiftr (arr raw 0) 4);
            wt_di := di_from_ta1_low (Z.land (arr raw 0) 0x0F);
            wt_guard_time_n := arr raw 2; wt_protocol := p |} /\
  applied_t1_timing c2 = (if p =? 1 then Some (t1_bwi_cwi_ifsc raw) else None).
Proof.
  intros Hc Hb Hs Hq Hs' Hq' Hbuf Hv Hp E1 Hms Hrun.
  pose proof (valid_params_length p raw Hv) as Hl.
  assert (small raw) as Hsm by (unfold small; lia).
  assert (u8 p) as Hp8 by (unfold u8; lia).
  set (msg := command PC_TO_RDR_SET_PARAMETERS s q (p, 0, 0) raw) in *.
  assert (bytes msg) as Hbm by (unfold msg; solve_command).
  pose proof (complete_command PC_TO_RDR_SET_PARAMETERS s q (p, 0, 0) raw Hsm) as Hm.
  destruct (complete_process c msg _ buf c1 r1 Hc Hbm Hm E1) as (f & c1' & Ec1 & Hst & _).
  assert (core_ok c1) as Hc1 by (rewrite Ec1; apply account_ok, Hst).
  unfold msg in E1. rewrite process_built in E1 by done.
  pose proof (accept_dispatch c p raw s q buf Hv Hp) as Ed. cbv zeta in Ed.
  rewrite Ed in E1.
  destruct (write_host_parameters (accepted c p raw) p raw
    (command_header PC_TO_RDR_SET_PARAMETERS s q (p, 0, 0) raw) buf) as (r & Er & Ht);
    [apply host_payload; try done; unfold accepted; by case_match|done|lia|].
  rewrite Er in E1. injection E1 as E1 <-.
  assert (host_params c1 = Some (p, pad7 raw) /\ current_protocol c1 = p /\
          parameters_accepted_event c1 = true) as (Hh & Hcp & Hev).
  { rewrite <- E1. unfold accepted. by case_match. }
  destruct (keeps_params_run buf msgs c1 c2 rs Hc1 Hms Hrun) as (Hc2 & Hh2 & Hcp2 & _).
  rewrite Hh in Hh2. rewrite Hcp in Hcp2.
  split_and!.
  - rewrite Ht. unfold current_icc_status, accepted. by case_match.
  - done.
  - rewrite process_built by (solve_command || solve_small).
    apply write_host_parameters; [by apply host_payload|done|lia].
  - unfold accepted_contact_timing. rewrite Hh2. by rewrite !arr_pad7 by lia.
  - unfold applied_t1_timing. rewrite Hh2, Hcp2.
    destruct Hl as [[-> Hl]|[-> Hl]]; simpl; [|done].
    unfold pad7. rewrite Hl. simpl. by rewrite app_nil_r.
Qed.

(** ** The exchange *)

(** An XfrBlock payload that goes to the card (and is not answered by the
    reader itself or refused). *)
Definition pseudo_apdu (apdu : list Z) : bool :=
  PSEUDO_APDUS && bool_decide (head apdu = Some 0xFF) && (4 <=? length apdu)%nat.
Definition relays (apdu : list Z) : bool :=
  negb (is_pps_request apdu) &&
  (if CONTACT then (length apdu <=? 261)%nat else negb (pseudo_apdu apdu)).

Definition data_reply (s q icc : Z) (failed : bool) (err : Z) (data : list Z) : list Z :=
  CcidHeader_build RDR_TO_PC_DATABLOCK (Z.of_nat (length data)) s q
    (build_bstatus (if failed then COMMAND_STATUS_FAILED else COMMAND_STATUS_NO_ERROR) icc)
    err 0 ++ data.

Lemma relay_dispatch c s q sp apdu buf :
  slot_state c = PresentActive -> relays apdu = true ->
  let h := command_header PC_TO_RDR_XFR_BLOCK s q sp apdu in
  dispatch c h apdu buf =
    (let '(c, tx, result) := transmit_counted c apdu (tx_buf c) in
     let c := set_tx_buf tx c in
     match result with
     | Ok n => answer ← slice tx 0 n; Ret (data_block_reply c h answer buf)
     | Err e =>
         let c := if CONTACT then c else set_slot_state PresentInactive c in
         Ret (data_block_failed_reply c h
                (if CONTACT then ICC_STATUS_PRESENT_ACTIVE else current_icc_status c)
                (xfr_failure_b_error (xfr_error_class (nfc c) e)) buf)
     end).
Proof.
  intros Ha Hr h. change (dispatch c h apdu buf) with (handle_xfr_block c h apdu buf).
  unfold relays in Hr. apply andb_prop in Hr as [Hpps Hr]. apply negb_true_iff in Hpps.
  unfold handle_xfr_block, handle_xfr_block_contact, apdu_pipeline, pseudo_apdu in *.
  rewrite Ha, bool_decide_eq_true_2, Hpps by done. cbn [negb].
  destruct CONTACT.
  - replace (261 <? length apdu)%nat with false by lia.
    by destruct (transmit_counted c apdu (tx_buf c)) as [[? ?] [?|?]].
  - apply negb_true_iff in Hr. rewrite Hr.
    by destruct (transmit_counted c apdu (tx_buf c)) as [[? ?] [?|?]].
Qed.

Lemma take_message ty s q (failed : bool) icc err sp data buf :
  (10 + length data <= length buf)%nat -> small data ->
  let r := write_message ty s q
    (build_bstatus (if failed then COMMAND_STATUS_FAILED else COMMAND_STATUS_NO_ERROR) icc)
    err sp data buf in
  take r.2 r.1 =
    CcidHeader_build ty (Z.of_nat (length data)) s q
      (build_bstatus (if failed then COMMAND_STATUS_FAILED else COMMAND_STATUS_NO_ERROR) icc)
      err sp ++ data.
Proof.
  intros Hl Hs r. subst r. rewrite write_message_fits at 1 by done. cbn [snd].
  rewrite write_message_take by done.
  assert (wrap32 (Z.of_nat (length data)) = Z.of_nat (length data)) as ->; [|done].
  unfold wrap32, small in *. apply Z.mod_small. lia.
Qed.

Lemma data_block_replies c s q sp apdu data buf h :
  h = command_header PC_TO_RDR_XFR_BLOCK s q sp apdu ->
  (length data <= TX_BUF_SIZE)%nat ->
  exists r, account_failure (data_block_reply c h data buf) = Ret (c, r) /\
    if decide (10 + length data <= length buf)%nat
    then take r.2 r.1 = data_reply s q ICC_STATUS_PRESENT_ACTIVE false 0 data
    else r = (buf, 0%nat).
Proof.
  intros -> Hd. unfold data_block_reply. case_decide as Hl.
  - rewrite (account_message c _ _ _ false) by done. eexists. split; [done|].
    apply (take_message _ _ _ false); [done|]. unfold small, TX_BUF_SIZE in *. lia.
  - rewrite write_message_short by lia. by eexists.
Qed.

Lemma uid_command (apdu : list Z) :
  take 4 apdu = [0xFF; 0xCA; 0x00; 0x00] ->
  head apdu = Some 0xFF /\ (4 <=? length apdu)%nat = true /\
  arr apdu 1 = 0xCA /\ arr apdu 2 = 0x00 /\ arr apdu 3 = 0x00.
Proof.
  intros Hcmd. do 4 (destruct apdu as [|? apdu]; [done|]). by injection Hcmd as -> -> -> ->.
Qed.

Section Exchange.
Context c (s q : Z) (sp : Z * Z * Z) (apdu buf : list Z) (Hc : core_ok c) (Ha : slot_state c = PresentActive)
  (Hs : u8 s) (Hq : u8 q) (H0 : u8 sp.1.1) (H1 : u8 sp.1.2) (H2 : u8 sp.2)
  (Hb : bytes apdu) (Hsm : small apdu) (Hbuf : (32 <= length buf)%nat).
Let msg := command PC_TO_RDR_XFR_BLOCK s q sp apdu.
Let h := command_header PC_TO_RDR_XFR_BLOCK s q sp apdu.

Lemma exchange_process :
  process_command c msg buf = (r ← dispatch c h apdu buf; account_failure r).
Proof. apply process_built; [solve_command|done]. Qed.

Lemma exchange_relayed :
  relays apdu = true ->
  let t := transmit_apdu (nfc c) apdu (tx_buf c) in
  exists c' r, process_command c msg buf = Ret (c', r) /\ nfc c' = t.1.1 /\
  match t.2 with
  | Ok n =>
      slot_state c' = PresentActive /\
      if decide (10 + n <= length buf)%nat
      then take r.2 r.1 = data_reply s q ICC_STATUS_PRESENT_ACTIVE false 0 (take n t.1.2)
      else r = (buf, 0%nat)
  | Err e =>
      slot_state c' = (if CONTACT then PresentActive else PresentInactive) /\
      take r.2 r.1 = data_reply s q (icc_status (slot_state c')) true
                       (xfr_failure_b_error (xfr_error_class t.1.1 e)) []
  end.
Proof.
  intros Hr t. rewrite exchange_process. unfold h. rewrite relay_dispatch by done. fold h.
  destruct (transmit_counted c apdu (tx_buf c)) as [[c1 tx] res] eqn:Et.
  destruct (transmit_counted_spec _ _ _ _ _ _ Hc (tx_buf_room c Hc) Et) as (Etx & Eres & Ec1 & _ & Hf).
  fold t in Etx, Eres, Ec1, Hf. cbv zeta.
  assert (slot_state c1 = PresentActive /\ nfc c1 = t.1.1) as [Ha1 Hn1].
  { rewrite Ec1. simpl. done. }
  clear Ec1. destruct t as [[d b] res']. simpl in *. subst.
  destruct res' as [n|e].
  - destruct (fills_slice _ _ _ _ Hf (ok_tx_bytes _ Hc)) as (Es & Hby & Hl & Hn).
    rewrite (ok_tx_length _ Hc) in Hl. rewrite Es, !bind_ret.
    destruct (data_block_replies (set_tx_buf b c1) s q sp apdu (take n b) buf h eq_refl Hl)
      as (r & Er & Hr').
    exists (set_tx_buf b c1), r. split_and!; try done.
    assert (length (take n b) = n) as Hln.
    { destruct Hf as (_ & Hlb & _). simpl in Hlb. rewrite length_take. lia. }
    by rewrite Hln in Hr'.
  - rewrite bind_ret. set (c2 := if CONTACT then _ else _).
    assert (slot_state c2 = (if CONTACT then PresentActive else PresentInactive) /\
            nfc c2 = nfc c1) as [Ha2 Hn2] by (unfold c2; by case_match).
    assert ((if CONTACT then ICC_STATUS_PRESENT_ACTIVE else current_icc_status c2) =
            icc_status (slot_state c2)) as ->.
    { unfold current_icc_status. rewrite Ha2. by case_match. }
    unfold data_block_failed_reply. rewrite Hn2.
    rewrite (account_message c2 _ _ _ true) by (apply icc_range || (simpl; lia)).
    exists (record_protocol_error c2). eexists. split; [done|]. split; [done|].
    split; [done|]. apply (take_message _ _ _ true); [simpl; lia|solve_small].
Qed.

Lemma exchange_pps :
  is_pps_request apdu = true ->
  exists r, process_command c msg buf = Ret (c, r) /\
    take r.2 r.1 = data_reply s q ICC_STATUS_PRESENT_ACTIVE false 0 apdu.
Proof.
  intros Hp. pose proof (pps_short _ Hp) as Hl5. rewrite exchange_process.
  assert (dispatch c h apdu buf = Ret (data_block_reply c h apdu buf)) as ->.
  { change (dispatch c h apdu buf) with (handle_xfr_block c h apdu buf).
    unfold handle_xfr_block, handle_xfr_block_contact, apdu_pipeline.
    rewrite Ha, bool_decide_eq_true_2, Hp by done.
    replace (261 <? length apdu)%nat with false by lia. by destruct CONTACT. }
  rewrite bind_ret.
  destruct (data_block_replies c s q sp apdu apdu buf h eq_refl) as (r & Er & Hr);
    [unfold TX_BUF_SIZE; lia|].
  exists r. split; [done|]. by rewrite decide_True in Hr by lia.
Qed.

Lemma exchange_uid :
  CONTACT = false -> PSEUDO_APDUS = true -> take 4 apdu = [0xFF; 0xCA; 0x00; 0x00] ->
  is_pps_request apdu = false ->
  exists c' r, process_command c msg buf = Ret (c', r) /\ nfc c' = nfc c /\
    take r.2 r.1 = data_reply s q ICC_STATUS_PRESENT_ACTIVE false 0
      (match card_uid (nfc c) with Some uid => uid ++ [0x90; 0x00] | None => [0x63; 0x00] end).
Proof.
  intros EC EP Hcmd Hpps. rewrite exchange_process.
  assert (dispatch c h apdu buf = answer_get_uid c h buf) as ->.
  { change (dispatch c h apdu buf) with (handle_xfr_block c h apdu buf).
    unfold handle_xfr_block, apdu_pipeline.
    rewrite EC, Ha, bool_decide_eq_true_2, Hpps, EP by done.
    destruct (uid_command apdu Hcmd) as (-> & -> & -> & -> & ->). done. }
  unfold answer_get_uid, write_sw. destruct (card_uid (nfc c)) as [u|] eqn:Eu.
  - destruct (card_uid_ok _ _ (ok_driver _ Hc) Eu) as [_ Hlu].
    destruct (uid_answer (tx_buf c) u) as (tx & t1 & t2 & E1 & E2 & E3 & E4).
    { rewrite (ok_tx_length _ Hc). unfold TX_BUF_SIZE. lia. }
    cbv zeta. rewrite E1, bind_ret, E2, bind_ret, E3, bind_ret. cbn [tx_buf set_tx_buf].
    rewrite E4, !bind_ret.
    destruct (data_block_replies (set_tx_buf tx c) s q sp apdu (u ++ [0x90; 0x00]) buf h eq_refl)
      as (r & Er & Hr); [rewrite length_app; unfold TX_BUF_SIZE; simpl; lia|].
    exists (set_tx_buf tx c), r. split; [done|]. split; [done|].
    by rewrite decide_True in Hr by (rewrite length_app; simpl; lia).
  - rewrite bind_ret.
    destruct (data_block_replies c s q sp apdu [0x63; 0x00] buf h eq_refl)
      as (r & Er & Hr); [unfold TX_BUF_SIZE; simpl; lia|].
    exists c, r. split; [done|]. split; [done|].
    by rewrite decide_True in Hr by (simpl; lia).
Qed.
End Exchange.

(** C3: the relay is transparent.  On an active slot a payload that is the
    card's reaches the driver unchanged, exactly once, and the answer comes
    back verbatim in a successful DataBlock (or not at all when the caller's
    buffer cannot hold it); a failed exchange is a FAILED DataBlock whose
    bError is the class of the driver's error, which deactivates the slot
    only on a serial reader.  A PPS request is echoed and the GET UID
    pseudo-APDU answered by the reader, without the card. *)
Theorem xfr_relay c s q sp apdu buf :
  core_ok c -> slot_state c = PresentActive ->
  u8 s -> u8 q -> u8 sp.1.1 -> u8 sp.1.2 -> u8 sp.2 -> bytes apdu -> small apdu ->
  (32 <= length buf)%nat ->
  let t := transmit_apdu (nfc c) apdu (tx_buf c) in
  exists c' r, process_command c (command PC_TO_RDR_XFR_BLOCK s q sp apdu) buf = Ret (c', r) /\
  (relays apdu = true ->
     nfc c' = t.1.1 /\
     match t.2 with
     | Ok n =>
         slot_state c' = PresentActive /\
         if decide (10 + n <= length buf)%nat
         then take r.2 r.1 = data_reply s q ICC_STATUS_PRESENT_ACTIVE false 0 (take n t.1.2)
         else r = (buf, 0%nat)
     | Err e =>
         slot_state c' = (if CONTACT then PresentActive else PresentInactive) /\
         take r.2 r.1 = data_reply s q (icc_status (slot_state c')) true
                          (xfr_failure_b_error (xfr_error_class t.1.1 e)) []
     end) /\
  (is_pps_request apdu = true ->
     c' = c /\ take r.2 r.1 = data_reply s q ICC_STATUS_PRESENT_ACTIVE false 0 apdu) /\
  (CONTACT = false -> PSEUDO_APDUS = true -> take 4 apdu = [0xFF; 0xCA; 0x00; 0x00] ->
     is_pps_request apdu = false ->
     nfc c' = nfc c /\
     take r.2 r.1 = data_reply s q ICC_STATUS_PRESENT_ACTIVE false 0
       (match card_uid (nfc c) with Some uid => uid ++ [0x90; 0x00] | None => [0x63; 0x00] end)).
Proof.
  intros Hc Ha Hs Hq H0 H1 H2 Hb Hsm Hbuf t.
  set (msg := command PC_TO_RDR_XFR_BLOCK s q sp apdu).
  pose proof (complete_command PC_TO_RDR_XFR_BLOCK s q sp apdu Hsm) as Hm.
  destruct (process_handled c msg buf _ Hc ltac:(unfold msg; solve_command) Hm)
    as (f & c' & r & Ep & _ & _); [unfold command_header, small, u32_max in *; simpl; lia
                                  |by intros [? _]|].
  exists (account f c' r), r. split; [done|]. split_and!.
  - intros Hr. destruct (exchange_relayed c s q sp apdu buf) as (c2 & r2 & E2 & ?); try done.
    fold msg in E2. rewrite Ep in E2. by injection E2 as -> ->.
  - intros Hp. destruct (exchange_pps c s q sp apdu buf) as (r2 & E2 & ?); try done.
    fold msg in E2. rewrite Ep in E2. by injection E2 as -> ->.
  - intros EC EP Hcmd Hpps.
    destruct (exchange_uid c s q sp apdu buf) as (c2 & r2 & E2 & ?); try done.
    fold msg in E2. rewrite Ep in E2. by injection E2 as -> ->.
Qed.

(** ** Silence *)

(** How many bytes the card has to say to a command. *)
Definition said h (msg : list Z) c : nat :=
  let r := if message_type h =? PC_TO_RDR_XFR_BLOCK
           then (transmit_apdu (nfc c) (payload_of msg h) (tx_buf c)).2
           else (power_on (is_card_present (nfc c)).1 (tx_buf c)).2 in
  match r with Ok n => n | Err _ => 0%nat end.

Lemma write_message_silent ty s q st err sp data buf b :
  write_message ty s q st err sp data buf = (b, 0%nat) -> (length buf < 10 + length data)%nat.
Proof. unfold write_message, CCID_HEADER_SIZE. case_decide; [done|discriminate]. Qed.

Lemma slice_front_length (l : list Z) n x : slice l 0 n = Ret x -> length x = n.
Proof.
  unfold slice. case_match; [|done]. intros [= <-]. rewrite length_take, length_drop. lia.
Qed.

Lemma account_silent (r : Core D * reply) c' b n :
  account_failure r = Ret (c', (b, n)) -> r.2 = (b, n).
Proof.
  destruct r as [c [b' n']]. unfold account_failure. destruct (7 <? n')%nat; [|by intros [= <- <- <-]].
  destruct (index b' 7); [|done]. cbn. by case_match; intros [= <- <- <-].
Qed.

Ltac silent :=
  let H := fresh in intros H; injection H; clear H; intros;
  match goal with H : write_message _ _ _ _ _ _ _ _ = (_, 0%nat) |- _ =>
    apply write_message_silent in H; cbn [length] in H; lia end.

(** A contact reader with the full buffer keeps silent about a card only when the
    card has more to say than a message holds. *)
Lemma process_silent c msg buf h c' b : CONTACT = true ->
  bytes msg -> complete_message msg h -> 10 + dw_length h <= u32_max -> length buf = 271%nat ->
  (length (payload_of msg h) <= 261)%nat ->
  message_type h = PC_TO_RDR_XFR_BLOCK \/ message_type h = PC_TO_RDR_ICC_POWER_ON ->
  process_command c msg buf = Ret (c', (b, 0%nat)) -> (261 < said h msg c)%nat.
Proof.
  intros HC Hb Hc Hd Hl Hp Ht. rewrite (process_complete c msg buf h Hb Hc Hd).
  destruct (dispatch _ _ _ _) as [[c1 r]|] eqn:Ed; [|done]. rewrite bind_ret.
  intros Ha%account_silent. cbn [snd] in Ha. subst r. revert Ed. unfold dispatch, said.
  destruct Ht as [-> | ->]; cbn [Z.eqb Pos.eqb PC_TO_RDR_XFR_BLOCK PC_TO_RDR_ICC_POWER_ON
    PC_TO_RDR_ICC_POWER_OFF PC_TO_RDR_GET_SLOT_STATUS];
    [unfold handle_xfr_block, handle_xfr_block_contact, transmit_counted|
     unfold handle_power_on, handle_power_on_contact]; rewrite HC;
    unfold slot_status_failed_reply, write_slot_status, data_block_reply, data_block_failed_reply.
  - change (tx_buf (set_diagnostics _ c)) with (tx_buf c). change (nfc (set_diagnostics _ c)) with (nfc c).
    destruct (negb _); [silent|]. destruct (261 <? _)%nat; [silent|]. destruct (is_pps_request _); [silent|].
    destruct (transmit_apdu _ _ _) as [[d tx] [n|e]]; cbn [tx_buf set_tx_buf]; [|silent].
    destruct (slice tx 0 n) as [x|] eqn:Ex; [|done]. rewrite bind_ret.
    apply slice_front_length in Ex. cbn [snd]. silent.
  - destruct (negb (dw_length h =? 0)); [silent|].
    destruct (is_card_present (nfc c)) as [d card]. cbn [fst]. destruct (negb card); [silent|].
    change (nfc (set_nfc d c)) with d. change (tx_buf (set_nfc d c)) with (tx_buf c).
    destruct (_ || _); [silent|].
    destruct (power_on d (tx_buf c)) as [[d2 tx] [n|e]]; [|silent].
    cbn [tx_buf set_tx_buf set_slot_state set_present].
    destruct (slice _ 0 n) as [x|] eqn:Ex; [|done]. rewrite bind_ret.
    apply slice_front_length in Ex. cbn [snd]. silent.
Qed.

(** ** Activation of a contact card *)

(** The structure GetParameters answers when no host set is in force. *)
Definition derived_params (a : AtrParams) : list Z :=
  let ta1 := if has_ta1 a then ta1 a else 0x11 in
  if protocol a =? 1
  then [ta1; 16 * edc_type a; guard_time_n a; 16 * bwi a + cwi a; 0; Z.min (ifsc a) 254; 0]
  else [ta1; 0; guard_time_n a; 0; 0].

Lemma nibble_pack_check :
  forallb (fun b => forallb (fun w =>
    Z.lor (wrap8 (Z.shiftl b 4)) (Z.land w 0x0F) =? 16 * b + w)
    (map Z.of_nat (List.seq 0 16))) (map Z.of_nat (List.seq 0 16)) = true.
Proof. vm_compute. done. Qed.

Lemma nibble_pack b w : 0 <= b < 16 -> 0 <= w < 16 ->
  Z.lor (wrap8 (Z.shiftl b 4)) (Z.land w 0x0F) = 16 * b + w.
Proof.
  intros Hb Hw. pose proof nibble_pack_check as H.
  rewrite forallb_forall in H. specialize (H b (in_nibbles b Hb)).
  rewrite forallb_forall in H. specialize (H w (in_nibbles w Hw)). lia.
Qed.

Lemma derived_payload c :
  CONTACT = true -> AtrParams_wf (atr_params c) -> host_params c = None ->
  current_protocol c = protocol (atr_params c) ->
  parameter_payload c = (derived_params (atr_params c), protocol (atr_params c)).
Proof.
  intros EC Hwf Hh Hp. unfold parameter_payload. rewrite EC, Hh, Hp. cbn [negb].
  destruct Hwf. unfold derived_params, atr_payload. rewrite nibble_pack by done.
  assert (Z.shiftl (Z.land (edc_type (atr_params c)) 1) 4 = 16 * edc_type (atr_params c)) as ->.
  { assert (edc_type (atr_params c) = 0 \/ edc_type (atr_params c) = 1) as [-> | ->] by lia; done. }
  by destruct (protocol (atr_params c) =? 1).
Qed.

(** The reader's own structure, sent back by SetParameters, is refused for a
    T=1 card that uses the CRC: GetParameters puts the EDC at bit 4 of
    bmTCCKST1, SetParameters expects it at bit 0. *)
Lemma derived_params_accepted a :
  AtrParams_wf a ->
  valid_params (protocol a) (derived_params a) =
    if protocol a =? 1 then (edc_type a =? 0) && (16 <=? ifsc a) else (protocol a =? 0).
Proof.
  intros []. unfold valid_params, derived_params, arr.
  destruct (Z.eqb_spec (protocol a) 1) as [E1|E1]; cbn [length lookup list_lookup default id].
  - rewrite Z.eqb_refl.
    assert (edc_type a = 0 \/ edc_type a = 1) as [-> | ->] by lia; simpl; lia.
  - replace (protocol a =? 1) with false by lia. simpl. by rewrite !andb_true_r.
Qed.

(** A contact activation starts afresh.  A successful IccPowerOn answers
    the card's ATR in a DataBlock, makes the slot active, forgets the host's
    parameters, and from then on the negotiated state is what the ATR says:
    GetParameters reports TA1 (or 0x11), the EDC bit, the guard time, BWI and
    CWI packed, and the IFSC up to 254.  Without a card or with a 3 V or
    1.8 V request the card is not activated; a card that does not answer is
    reported mute on an inactive slot. *)
Theorem power_on_contact c s q p1 p2 ps buf d card :
  CONTACT = true -> core_ok c -> u8 s -> u8 q -> u8 ps -> u8 p1 -> u8 p2 ->
  (281 <= length buf)%nat -> is_card_present (nfc c) = (d, card) ->
  let msg := command PC_TO_RDR_ICC_POWER_ON s q (ps, p1, p2) [] in
  let t := power_on d (tx_buf c) in
  exists c' r, process_command c msg buf = Ret (c', r) /\
  if card && negb ((ps =? 2) || (ps =? 3)) then
    nfc c' = t.1.1 /\
    match t.2 with
    | Ok n =>
        let atr := take n t.1.2 in
        slot_state c' = PresentActive /\ present c' = true /\ card_reset_event c' = true /\
        host_params c' = None /\ atr_params c' = parse_atr atr /\
        parameter_payload c' = (derived_params (parse_atr atr), protocol (parse_atr atr)) /\
        take r.2 r.1 = data_reply s q ICC_STATUS_PRESENT_ACTIVE false 0 atr
    | Err _ =>
        slot_state c' = PresentInactive /\
        take r.2 r.1 = CcidHeader_build RDR_TO_PC_SLOTSTATUS 0 s q
          (build_bstatus COMMAND_STATUS_FAILED ICC_STATUS_PRESENT_INACTIVE) CCID_ERR_ICC_MUTE 0
    end
  else
    nfc c' = d /\ slot_state c' = slot_state c /\
    take r.2 r.1 = CcidHeader_build RDR_TO_PC_SLOTSTATUS 0 s q
      (build_bstatus COMMAND_STATUS_FAILED
         (if card then ICC_STATUS_PRESENT_INACTIVE else ICC_STATUS_NO_ICC))
      (if card then CCID_ERR_CMD_NOT_SUPPORTED else CCID_ERR_ICC_MUTE) 0.
Proof.
  intros EC Hc Hs Hq Hps Hp1 Hp2 Hbuf Ecard msg t. unfold msg.
  rewrite process_built by (solve_command || solve_small).
  set (h := command_header _ _ _ _ _).
  change (dispatch c h [] buf) with (handle_power_on c h buf).
  unfold handle_power_on. rewrite EC. unfold handle_power_on_contact.
  change (negb (dw_length h =? 0)) with false. cbv iota. rewrite Ecard.
  pose proof (is_card_present_ok (nfc c) (ok_driver _ Hc)) as Hd. rewrite Ecard in Hd.
  cbn [fst] in Hd. cbv zeta. change (specific0 h) with ps.
  assert (forall c' icc err, 0 <= icc <= 2 ->
    (r ← Ret (slot_status_failed_reply c' h icc err buf); account_failure r) =
    Ret (record_protocol_error c', write_slot_status s q icc COMMAND_STATUS_FAILED err 0 buf) /\
    let r := write_slot_status s q icc COMMAND_STATUS_FAILED err 0 buf in
    take r.2 r.1 = CcidHeader_build RDR_TO_PC_SLOTSTATUS 0 s q
      (build_bstatus COMMAND_STATUS_FAILED icc) err 0) as Hfail.
  { intros c' icc err Hicc. rewrite bind_ret. split.
    - by apply (account_message c' _ _ _ true); [|simpl; lia].
    - rewrite <- (app_nil_r (CcidHeader_build _ _ _ _ _ _ _)).
      apply (take_message _ _ _ true); [simpl; lia|solve_small]. }
  destruct card; cbn [negb andb].
  2: { destruct (Hfail (set_nfc d c) ICC_STATUS_NO_ICC CCID_ERR_ICC_MUTE) as [-> Ht]; [done|].
       by eexists _, _. }
  destruct ((ps =? 2) || (ps =? 3)); cbn [negb].
  { destruct (Hfail (set_nfc d c) ICC_STATUS_PRESENT_INACTIVE CCID_ERR_CMD_NOT_SUPPORTED)
      as [-> Ht]; [done|]. by eexists _, _. }
  pose proof (power_on_fills d (tx_buf c) Hd) as Hf. fold t in Hf.
  change (power_on (nfc (set_nfc d c)) (tx_buf (set_nfc d c))) with t.
  destruct t as [[d2 tx] [n|e]]; cbn [fst snd] in *.
  2: { set (c2 := set_slot_state PresentInactive _).
       destruct (Hfail c2 ICC_STATUS_PRESENT_INACTIVE CCID_ERR_ICC_MUTE) as [-> Ht]; [done|].
       by eexists _, _. }
  destruct (fills_slice _ _ _ _ Hf (ok_tx_bytes _ Hc)) as (Es & Hby & Hl & Hn).
  rewrite (ok_tx_length _ Hc) in Hl. cbn [tx_buf set_tx_buf set_slot_state set_present].
  rewrite Es, !bind_ret.
  set (c' := set_card_reset_event true _).
  pose proof (parse_atr_wf (take n tx) Hby) as Hwf.
  unfold data_block_reply. rewrite (account_message c' _ _ _ false)
    by (done || unfold TX_BUF_SIZE in *; lia).
  exists c'. eexists. split; [done|]. split_and!; try done.
  - by apply (derived_payload c').
  - apply (take_message _ _ _ false); unfold TX_BUF_SIZE, small in *; lia.
Qed.

(** ** PIN sessions *)

(** The ASCII digits a PIN buffer stands for. *)
Definition ascii_of (b : PinBuffer) : list Z := map (fun d => d + 0x30) (pin b).

Lemma ascii_of_ok b :
  wf b -> ascii_pin (ascii_of b) /\ length (ascii_of b) = len b /\
          to_ascii b = Ret (ascii_of b ++ replicate (16 - len b) 0).
Proof.
  intros Hb. unfold ascii_of. rewrite length_map. split_and!.
  - unfold ascii_pin. apply Forall_map. eapply Forall_impl; [by apply pin_digits|].
    intros d Hd. simpl in *. lia.
  - by apply length_pin.
  - by apply to_ascii_spec.
Qed.

(** The deferred answer of a PIN session that failed with [err]. *)
Definition pin_reply_failed c (seq err : Z) : list Z :=
  data_reply 0 seq (icc_status (slot_state c)) true err [].

Lemma complete_failed c seq result rd buf :
  result <> Success -> (10 <= length buf)%nat ->
  let r := complete_pin_entry c seq result rd buf in
  r.1 = set_secure_state SecureIdle c /\
  take r.2.2 r.2.1 = pin_reply_failed c seq
    (match result with
     | Cancelled => CCID_ERR_PIN_CANCELLED
     | Timeout => CCID_ERR_PIN_TIMEOUT
     | _ => CCID_ERR_CMD_ABORTED
     end).
Proof.
  intros Hres Hl. unfold complete_pin_entry, pin_reply_failed, data_reply.
  destruct result; [done|..]; (split; [done|]);
    apply (take_message _ _ _ true _ _ _ []); (done || solve_small).
Qed.

(** What an exchange of a built APDU does: the APDU reaches the card once,
    counted, and the session ends with the card's answer or Cancelled. *)
Lemma pin_exchange_spec c seq apdu buf :
  core_ok c -> (10 + CARD_RESP_SIZE <= length buf)%nat ->
  let t := transmit_apdu (nfc c) apdu (replicate CARD_RESP_SIZE 0) in
  exists c' r, pin_exchange c seq apdu buf = Ret (c', r) /\
    nfc c' = t.1.1 /\ secure_state c' = SecureIdle /\ slot_state c' = slot_state c /\
    take r.2 r.1 = match t.2 with
                   | Ok n => data_reply 0 seq (icc_status (slot_state c)) false 0 (take n t.1.2)
                   | Err _ => pin_reply_failed c seq CCID_ERR_PIN_CANCELLED
                   end.
Proof.
  intros Hc Hbuf t. unfold pin_exchange.
  destruct (transmit_counted c apdu (replicate CARD_RESP_SIZE 0)) as [[c1 tx] res] eqn:Et.
  destruct (transmit_counted_spec _ _ _ _ _ _ Hc response_room Et) as (-> & -> & Ec1 & _ & Hf).
  fold t in Ec1, Hf |- *.
  assert (slot_state c1 = slot_state c /\ nfc c1 = t.1.1) as [Hs Hn] by (by rewrite Ec1).
  clear Ec1 Et. destruct t as [[d b] [n|e]]; cbn [fst snd] in *.
  - destruct (fills_slice _ _ _ _ Hf) as (Es & Hby & Hl & _).
    { apply Forall_replicate. by unfold u8. }
    rewrite length_replicate in Hl. rewrite Es, bind_ret.
    eexists _, _. split; [done|]. split_and!; try done.
    rewrite <- Hs. apply (take_message _ _ _ false); unfold CARD_RESP_SIZE, small in *; lia.
  - unfold complete_pin_entry. eexists _, _. split; [done|]. split_and!; try done.
    unfold pin_reply_failed. rewrite <- Hs.
    apply (take_message _ _ _ true _ _ _ []); [simpl; unfold CARD_RESP_SIZE in *; lia|solve_small].
Qed.

(** The four ways an exchange goes: nothing to verify, a PIN that P2 does not
    admit, one that overruns the array, and the exchange with the card. *)
Lemma verify_exchange_cases c seq result b params buf : wf b ->
  let t := v_apdu_template params in
  let apdu := [arr t 0; 0x20; arr t 2; arr t 3; Z.of_nat (len b)] ++ ascii_of b in
  let admitted := length_ok (arr t 3) (len b) in
  let run := complete_pin_verify_exchange c seq result b params buf in
  (result <> Success /\ run = Ret (complete_pin_entry c seq result None buf)) \/
  (result = Success /\ ~ admitted /\ run = Ret (complete_pin_entry c seq InvalidLength None buf)) \/
  (result = Success /\ admitted /\ (8 < len b)%nat /\ run = Panic) \/
  (result = Success /\ admitted /\ (len b <= 8)%nat /\ run = pin_exchange c seq apdu buf).
Proof.
  intros Hb t apdu admitted run. destruct (ascii_of_ok b Hb) as (Hascii & Hlen & Eascii).
  destruct (decide (result = Success)) as [->|Hres]; [|left; by destruct result].
  right. unfold run, complete_pin_verify_exchange.
  rewrite Eascii, bind_ret, slice_app by done. rewrite bind_ret. fold t. cbv zeta.
  set (builder := verify_from_template _ _ _).
  destruct (verify_build_cases builder (ascii_of b)) as [(Hok & _ & Eb)|(Hn & e & Eb)];
    rewrite Eb; clear Eb; rewrite ?Hlen.
  2: { rewrite Hlen in Hn. left. rewrite bind_ret. split_and!; [done|by intros Ha; apply Hn|done]. }
  rewrite Hlen in Hok. change admitted in Hok. right. case_decide as H8; [right|left].
  - rewrite bind_ret, (app_assoc _ (ascii_of b)).
    rewrite slice_app by (rewrite length_app, Hlen; done). rewrite bind_ret.
    by split_and!.
  - split_and!; (done || lia).
Qed.

(** PIN verification.  For the digits in the buffer and the host's
    template, the card receives exactly one VERIFY command, CLA 20 P1 P2 Lc
    and the ASCII digits and nothing after them, and its answer comes back in
    the deferred DataBlock (Cancelled when the exchange fails); a PIN whose
    length P2 does not admit never reaches the card; more than eight digits
    under an unknown P2 overrun the array.  A session that was cancelled or
    timed out never reaches the card.  Afterwards no session is armed. *)
Theorem pin_verify_exchange c seq result b params buf :
  core_ok c -> wf b -> (10 + CARD_RESP_SIZE <= length buf)%nat ->
  let t := v_apdu_template params in
  let apdu := [arr t 0; 0x20; arr t 2; arr t 3; Z.of_nat (len b)] ++ ascii_of b in
  let admitted := length_ok (arr t 3) (len b) in
  let run := complete_pin_verify_exchange c seq result b params buf in
  let x := transmit_apdu (nfc c) apdu (replicate CARD_RESP_SIZE 0) in
  (run = Panic <-> result = Success /\ admitted /\ (8 < len b)%nat) /\
  (forall c' r, run = Ret (c', r) ->
     secure_state c' = SecureIdle /\ slot_state c' = slot_state c /\
     (result = Success -> admitted ->
        nfc c' = x.1.1 /\
        take r.2 r.1 = match x.2 with
          | Ok n => data_reply 0 seq (icc_status (slot_state c)) false 0 (take n x.1.2)
          | Err _ => pin_reply_failed c seq CCID_ERR_PIN_CANCELLED
          end) /\
     (result = Success -> ~ admitted ->
        nfc c' = nfc c /\ take r.2 r.1 = pin_reply_failed c seq CCID_ERR_CMD_ABORTED) /\
     (result <> Success ->
        nfc c' = nfc c /\
        take r.2 r.1 = pin_reply_failed c seq
          (match result with
           | Cancelled => CCID_ERR_PIN_CANCELLED
           | Timeout => CCID_ERR_PIN_TIMEOUT
           | _ => CCID_ERR_CMD_ABORTED
           end))).
Proof.
  intros Hc Hb Hbuf t apdu admitted run x.
  destruct (verify_exchange_cases c seq result b params buf Hb)
    as [[Hr Er0]|[(-> & Hn & Er0)|[(-> & Ha & H8 & Er0)|(-> & Ha & H8 & Er0)]]]; fold run t in Er0.
  - destruct (complete_failed c seq result None buf Hr) as [E1 E2];
      [unfold CARD_RESP_SIZE in *; lia|].
    rewrite Er0. split; [split; [done|naive_solver]|].
    intros c' r [= Er]. rewrite Er in E1, E2. cbn [fst snd] in *. subst c'. by split_and!.
  - destruct (complete_failed c seq InvalidLength None buf) as [E1 E2];
      [done|unfold CARD_RESP_SIZE in *; lia|].
    rewrite Er0. split; [split; [done|by intros (_ & Ha & _)]|].
    destruct (complete_pin_entry c seq InvalidLength None buf) as [c1 r1]. cbn [fst snd] in *.
    intros c' r [= <- <-]. subst c1. by split_and!.
  - rewrite Er0. by split; [split|].
  - destruct (pin_exchange_spec c seq apdu buf Hc Hbuf) as (c1 & r1 & E1 & ? & ? & ? & ?).
    match type of Er0 with _ = pin_exchange _ _ ?a _ => change a with apdu in Er0 end.
    rewrite Er0, E1. split; [split; [done|intros (_ & _ & ?); lia]|]. by intros c' r [= <- <-].
Qed.
End Theorems.

(** ** The theorems at work

    A reader over the adapter and the mock driver of [CardInterface.v]: a card
    with a T=1 ATR that answers 90 00. *)
Module Demo.
Definition driver (present : bool) : MockSlot :=
  Adapter.new (Mock.new present [0x3B; 0x81; 0x01; 0x11; 0x90] [0x6A; 0x82]) [1; 2; 3; 4].
Definition firmware : list Z := [0x47; 0x65; 0x6D].
Definition buf : list Z := replicate 300 0xAA.

(** A serial reader that has seen its card, and a contact reader with one. *)
Definition serial : Core MockSlot :=
  (check_card_change (P := SerialNfcProfile) (Handler.new (driver true) firmware)).1.
Definition contact : Core MockSlot :=
  with_profile (P := ContactProfile) (driver true) firmware true.
Definition active (P : ReaderProfile) : Core MockSlot :=
  set_slot_state PresentActive
    (with_profile (Adapter.with_driver (driver true)
       (Mock.with_session true (Adapter.driver (driver true)))) firmware true).

Definition cmd (t : Z) (payload : list Z) : list Z := command t 0 7 (0, 0, 0) payload.
End Demo.

Lemma driver_demo_ok b : driver_ok (Demo.driver b).
Proof. split_and!; try solve_bytes. simpl. lia. Qed.

Lemma serial_demo_ok : core_ok Demo.serial.
Proof.
  apply check_card_change_ok. apply with_profile_ok; [apply driver_demo_ok|solve_bytes|simpl; lia].
Qed.

Lemma contact_demo_ok : core_ok Demo.contact.
Proof. apply with_profile_ok; [apply driver_demo_ok|solve_bytes|simpl; lia]. Qed.

Lemma active_demo_ok P : core_ok (Demo.active P).
Proof.
  assert (core_ok (with_profile (P := P) (Adapter.with_driver (Demo.driver true)
    (Mock.with_session true (Adapter.driver (Demo.driver true)))) Demo.firmware true)) as [].
  { apply with_profile_ok; [split_and!; try solve_bytes; simpl; lia|solve_bytes|simpl; lia]. }
  by constructor.
Qed.

(** A concrete list all of whose elements [tac] settles. *)
Ltac solve_all tac := repeat (apply Forall_cons; split; [tac|]); apply Forall_nil; exact I.

Example process_command_answers_witness :
  exists c' r failed,
    process_command (P := SerialNfcProfile) Demo.serial (Demo.cmd PC_TO_RDR_ICC_POWER_ON [])
      Demo.buf = Ret (c', r) /\
    core_ok c' /\
    replied (command_header PC_TO_RDR_ICC_POWER_ON 0 7 (0, 0, 0) []) Demo.buf c' failed r.
Proof.
  destruct (process_command_answers (P := SerialNfcProfile) Demo.serial
    (Demo.cmd PC_TO_RDR_ICC_POWER_ON []) Demo.buf serial_demo_ok ltac:(solve_bytes)) as [_ H].
  destruct (process_command _ _ _) as [[c' r]|] eqn:E; [|vm_compute in E; discriminate].
  destruct (H c' r eq_refl) as (Hok & _ & failed & Hr). by exists c', r, failed.
Defined.

Example slot_machine_witness :
  exists c' r failed,
    process_command (P := SerialNfcProfile) Demo.serial (Demo.cmd PC_TO_RDR_ICC_POWER_ON [])
      Demo.buf = Ret (c', r) /\
    slot_step false PC_TO_RDR_ICC_POWER_ON PresentInactive failed (slot_state c').
Proof.
  destruct (process_command (P := SerialNfcProfile) Demo.serial
    (Demo.cmd PC_TO_RDR_ICC_POWER_ON []) Demo.buf) as [[c' r]|] eqn:E;
    [|vm_compute in E; discriminate].
  destruct (slot_machine (P := SerialNfcProfile) Demo.serial
    (Demo.cmd PC_TO_RDR_ICC_POWER_ON [])
    (command_header PC_TO_RDR_ICC_POWER_ON 0 7 (0, 0, 0) []) Demo.buf c' r)
    as ((failed & Hs & _) & _);
    [exact serial_demo_ok|solve_bytes|by apply complete_command; solve_small|exact E|].
  by exists c', r, failed.
Defined.

(** After IccPowerOn and IccPowerOff an XfrBlock is refused. *)
Example exchange_needs_power_witness :
  let serve := serve (P := SerialNfcProfile) Demo.buf in
  let es := [Command (Demo.cmd PC_TO_RDR_ICC_POWER_ON []); Poll;
             Command (Demo.cmd PC_TO_RDR_ICC_POWER_OFF [])] in
  exists c1 answers c2 r,
    run serve Demo.serial es = Ret (c1, answers) /\
    process_command (P := SerialNfcProfile) c1 (Demo.cmd PC_TO_RDR_XFR_BLOCK [0; 0xA4; 4; 0])
      Demo.buf = Ret (c2, r) /\
    failed_reply r = true /\ nfc c2 = nfc c1.
Proof.
  intros serve es. destruct (run serve Demo.serial es) as [[c1 answers]|] eqn:E;
    [|vm_compute in E; discriminate].
  assert (powered (zip es answers) = false) as Hp
    by (vm_compute in E; injection E as <- <-; vm_compute; reflexivity).
  destruct (exchange_needs_power (P := SerialNfcProfile) Demo.buf es Demo.serial answers c1
    (Demo.cmd PC_TO_RDR_XFR_BLOCK [0; 0xA4; 4; 0])
    (command_header PC_TO_RDR_XFR_BLOCK 0 7 (0, 0, 0) [0; 0xA4; 4; 0])
    serial_demo_ok) as (c2 & r & E2 & Hf & Hn & _);
    [vm_compute; discriminate|solve_all ltac:(first [exact I | solve_bytes])|exact E|exact Hp|solve_bytes
    |reflexivity|reflexivity|vm_compute; discriminate|vm_compute; lia|].
  by exists c1, answers, c2, r.
Defined.

(** A card error that is not an exchange error, a refused XfrBlock after
    IccPowerOff and an unknown command: two FAILED replies are counted. *)
Example counters_exact_witness :
  let step := fun c msg => process_command (P := SerialNfcProfile) c msg Demo.buf in
  let msgs := [Demo.cmd PC_TO_RDR_ICC_POWER_ON []; Demo.cmd PC_TO_RDR_XFR_BLOCK [0; 0xA4; 4; 0];
               Demo.cmd PC_TO_RDR_ICC_POWER_OFF []; Demo.cmd PC_TO_RDR_XFR_BLOCK [0; 0xA4; 4; 0];
               Demo.cmd 0x99 []] in
  exists c1 rs c2 r d,
    run step Demo.serial msgs = Ret (c1, rs) /\ step c1 (diag_query 9) = Ret (c2, r) /\
    Diagnostics.from_bytes (drop 10 r.1) = Some d /\
    Diagnostics.error_count d = 2 /\ Diagnostics.apdu_tx_count d <= 2.
Proof.
  intros step msgs. destruct (run step Demo.serial msgs) as [[c1 rs]|] eqn:E;
    [|vm_compute in E; discriminate].
  destruct (step c1 (diag_query 9)) as [[c2 r]|] eqn:E2;
    [|vm_compute in E; injection E as <- <-; vm_compute in E2; discriminate].
  destruct (counters_exact (P := SerialNfcProfile) Demo.buf msgs Demo.serial c1 rs 9 c2 r)
    as (d & Hd & _ & _ & He & Ht & _);
    [exact serial_demo_ok|reflexivity|solve_all solve_bytes
    |vm_compute; lia|unfold u8; lia|exact E|exact E2|].
  exists c1, rs, c2, r, d. split; [done|]. split; [done|]. split; [done|]. split.
  - rewrite He. vm_compute in E. injection E as _ <-. reflexivity.
  - exact Ht.
Defined.

(** A contact reader told T=1 with TA1 = 0x18, BWI 4, CWI 5, IFSC 254. *)
Example parameters_echo_witness :
  let step := fun c msg => process_command (P := ContactProfile) c msg Demo.buf in
  let raw := [0x18; 0x01; 0x00; 0x45; 0x00; 0xFE; 0x00] in
  exists c1 r1 c2 rs r2,
    step Demo.contact (command PC_TO_RDR_SET_PARAMETERS 0 7 (1, 0, 0) raw) = Ret (c1, r1) /\
    run step c1 [Demo.cmd PC_TO_RDR_GET_SLOT_STATUS []; Demo.cmd PC_TO_RDR_XFR_BLOCK [0]] =
      Ret (c2, rs) /\
    step c2 (command PC_TO_RDR_GET_PARAMETERS 0 8 (0, 0, 0) []) = Ret (c2, r2) /\
    take r2.2 r2.1 = params_reply 0 8 1 ICC_STATUS_NO_ICC raw /\
    accepted_contact_timing c2 = Some (mkTiming 372 12 0 1).
Proof.
  intros step raw.
  destruct (step Demo.contact (command PC_TO_RDR_SET_PARAMETERS 0 7 (1, 0, 0) raw))
    as [[c1 r1]|] eqn:E1; [|vm_compute in E1; discriminate].
  set (msgs := [_; _]). destruct (run step c1 msgs) as [[c2 rs]|] eqn:E2;
    [|vm_compute in E1; injection E1 as <- <-; vm_compute in E2; discriminate].
  destruct (parameters_echo (P := ContactProfile) Demo.buf Demo.contact 1 raw 0 7 c1 r1 msgs c2 rs
    0 8) as (_ & _ & (r2 & E3 & Ht) & Hw & _);
    [exact contact_demo_ok|solve_bytes|unfold u8; lia..|vm_compute; lia|reflexivity|by left|exact E1
    |solve_all ltac:(split; [solve_bytes|by intros h [= <-]])|exact E2|].
  exists c1, r1, c2, rs, r2. split; [done|]. split; [done|]. split; [exact E3|]. split.
  - rewrite Ht. vm_compute in E1. injection E1 as <- <-. vm_compute in E2. by injection E2 as <- <-.
  - exact Hw.
Defined.

(** SELECT is relayed; the file is not there. *)
Example xfr_relay_witness :
  exists c' r,
    process_command (P := SerialNfcProfile) (Demo.active SerialNfcProfile)
      (command PC_TO_RDR_XFR_BLOCK 0 7 (0, 0, 0) [0x00; 0xA4; 0x04; 0x00]) Demo.buf =
      Ret (c', r) /\
    slot_state c' = PresentActive /\
    take r.2 r.1 = data_reply 0 7 ICC_STATUS_PRESENT_ACTIVE false 0 [0x6A; 0x82].
Proof.
  destruct (xfr_relay (P := SerialNfcProfile) (Demo.active SerialNfcProfile) 0 7 (0, 0, 0)
    [0x00; 0xA4; 0x04; 0x00] Demo.buf) as (c' & r & E & H & _);
    [apply active_demo_ok|reflexivity|simpl; unfold u8; lia..|solve_bytes|solve_small|vm_compute; lia|].
  destruct (H eq_refl) as (_ & Hs & Ht). by exists c', r.
Defined.

(** The card of [Demo] announces T=1: GetParameters switches to its values. *)
Example power_on_contact_witness :
  exists c' r,
    process_command (P := ContactProfile) Demo.contact
      (command PC_TO_RDR_ICC_POWER_ON 0 7 (1, 0, 0) []) Demo.buf = Ret (c', r) /\
    slot_state c' = PresentActive /\
    parameter_payload (P := ContactProfile) c' = ([0x11; 0; 0; 0x4D; 0; 32; 0], 1).
Proof.
  destruct (power_on_contact (P := ContactProfile) Demo.contact 0 7 0 0 1 Demo.buf
    (is_card_present (nfc Demo.contact)).1 true) as (c' & r & E & _ & H);
    [reflexivity|exact contact_demo_ok|unfold u8; lia..|vm_compute; lia|reflexivity|].
  exists c', r. split; [exact E|]. destruct H as (Hs & _ & _ & _ & _ & Hp & _).
  split; [exact Hs|exact Hp].
Defined.

(** The user PIN 123456 under P2 = 0x81. *)
Example pin_verify_exchange_witness :
  let b := mkBuf ([1; 2; 3; 4; 5; 6] ++ replicate 10 0) 6 8 in
  let params := mkVerify 30 6 8 0 2 [0x00; 0x20; 0x00; 0x81; 0x08] 5 0x81 100 0 0 0 0 0 0 in
  exists c' r,
    complete_pin_verify_exchange (Demo.active ContactProfile) 7 Success b params Demo.buf =
      Ret (c', r) /\
    secure_state c' = SecureIdle /\
    Mock.last_apdu (Adapter.driver (nfc c')) =
      [0x00; 0x20; 0x00; 0x81; 6; 0x31; 0x32; 0x33; 0x34; 0x35; 0x36] /\
    take r.2 r.1 = data_reply 0 7 ICC_STATUS_PRESENT_ACTIVE false 0 [0x6A; 0x82].
Proof.
  intros b params.
  destruct (pin_verify_exchange (Demo.active ContactProfile) 7 Success b params Demo.buf)
    as [_ H]; [apply active_demo_ok| |vm_compute; lia|].
  { split; [reflexivity|]. split; [simpl; lia|]. repeat (constructor; [lia|]). constructor. }
  destruct (complete_pin_verify_exchange _ _ _ _ _ _) as [[c' r]|] eqn:E;
    [|vm_compute in E; discriminate].
  destruct (H c' r eq_refl) as (Hi & _ & Hadm & _).
  destruct (Hadm eq_refl) as [Hn Ht]; [split; [simpl; lia|split; [simpl; lia|done]]|].
  exists c', r. split; [done|]. split; [exact Hi|]. split; [by rewrite Hn|exact Ht].
Defined.

(** ** Two behaviours worth knowing *)

(** IccPowerOff on an empty slot leaves it "present, inactive": the replies
    claim a card, and presence polls that see none do not correct it. *)
Example power_off_invents_card :
  let c := Handler.new (Demo.driver false) Demo.firmware in
  let serve := serve (P := SerialNfcProfile) Demo.buf in
  let es := [Command (Demo.cmd PC_TO_RDR_GET_SLOT_STATUS []);
             Command (Demo.cmd PC_TO_RDR_ICC_POWER_OFF []); Poll; Poll;
             Command (Demo.cmd PC_TO_RDR_GET_SLOT_STATUS [])] in
  match run serve c es with
  | Ret (c', answers) =>
      map (fun a => match a with
                    | Replied r => icc_of_bstatus (arr r.1 7)
                    | Polled _ (Some _) => 100
                    | Polled _ None => 200
                    end) answers
      = [ICC_STATUS_NO_ICC; ICC_STATUS_PRESENT_INACTIVE; 200; 200; ICC_STATUS_PRESENT_INACTIVE]
      /\ present c' = false
  | Panic => False
  end.
Proof. vm_compute. done. Qed.

(** On a serial reader ResetParameters keeps the host's T=1 structure: its reply
    is the override, not the default. *)
Example serial_reset_keeps_override :
  let step := fun c msg => process_command (P := SerialNfcProfile) c msg Demo.buf in
  let raw := [0x18; 0x00; 0x00; 0x45; 0x00; 0xFE; 0x00] in
  match run step Demo.serial
          [command PC_TO_RDR_SET_PARAMETERS 0 7 (1, 0, 0) raw;
           Demo.cmd PC_TO_RDR_RESET_PARAMETERS []] with
  | Ret (c', [_; r]) =>
      take r.2 r.1 = params_reply 0 7 1 ICC_STATUS_PRESENT_INACTIVE raw /\
      raw <> DEFAULT_T1_PARAMS
  | _ => False
  end.
Proof. vm_compute. done. Qed.

(** A voltage the contact reader does not supply, asked for over an active card:
    the refusal says the card is inactive, and the slot stays active. *)
Example refused_voltage_misreports :
  let m := command PC_TO_RDR_ICC_POWER_ON 0 7 (2, 0, 0) [] in
  match process_command (P := ContactProfile) (Demo.active ContactProfile) m Demo.buf with
  | Ret (c, (b, n)) => slot_state c = PresentActive /\
      take n b = [RDR_TO_PC_SLOTSTATUS; 0; 0; 0; 0; 0; 7; 0x41; 0; 0]
  | Panic => False
  end.
Proof. vm_compute. by split_and!. Qed.
