(* ===== verification/ContactHandler.v ===== *)
(** * The STM32 contact handler

    [ccid-firmware/src/ccid_core.rs]: the handler of the USB contact readers.
    It owns the shared core of [Handler.v] (contact profile, over an adapter of
    the board's smartcard driver), reassembles the bulk packets of the host,
    answers the clock, data-rate and vendor escapes itself, and re-programs the
    smartcard interface when the core accepts parameters.  The trait
    [SmartcardDriver] ([driver.rs]) is the class of the same name; the mock of
    [mock_driver.rs] implements it.  The theorems are in [ContactSpec.v]. *)
From Stdlib Require Import ZArith Lia ZifyBool.
From stdpp Require Import prelude.
From S2P Require Import Prelude Wire Atr Diag Secure CardInterface Handler SelfHeal.
Import PinBuf.
Local Open Scope Z_scope.

#[local] Existing Instance ContactProfile.

(** ** The driver trait ([driver.rs]), as far as the handler calls it *)
Class SmartcardDriver (D E : Type) := {
  sc_power_on : D -> D * result (list Z) E;
  sc_power_off : D -> D;
  sc_is_card_present : D -> bool;
  sc_transmit_apdu : D -> list Z -> list Z -> filled D E;
  sc_set_protocol : D -> Z -> D;
  sc_set_clock : D -> bool -> D;
  sc_set_clock_and_rate : D -> Z -> Z -> D * result (Z * Z) E;
  sc_set_wire_timing : D -> Z -> Z -> Z -> D;
  sc_xfr_error_class : D -> E -> XfrErrorKind;
  sc_reinit_count : D -> Z;
  sc_take_reinit_pending : D -> D * bool;
  sc_diagnostics : D -> Diagnostics.Diagnostics -> Diagnostics.Diagnostics
}.

(** What an implementation keeps: its own invariant, the length of the buffers
    it fills, and byte- and word-sized answers. *)
Class SmartcardLaws (D E : Type) `{!SmartcardDriver D E} := {
  sc_ok : D -> Prop;
  sc_power_on_ok d : sc_ok d ->
    sc_ok (sc_power_on d).1 /\ match (sc_power_on d).2 with Ok atr => bytes atr | Err _ => True end;
  sc_power_off_ok d : sc_ok d -> sc_ok (sc_power_off d);
  sc_transmit_ok d cmd buf : sc_ok d -> (32 <= length buf)%nat ->
    fills sc_ok buf (sc_transmit_apdu d cmd buf);
  sc_set_protocol_ok d p : sc_ok d -> sc_ok (sc_set_protocol d p);
  sc_set_clock_ok d b : sc_ok d -> sc_ok (sc_set_clock d b);
  sc_set_rate_ok d c r : sc_ok d -> sc_ok (sc_set_clock_and_rate d c r).1;
  sc_set_timing_ok d f i n : sc_ok d -> sc_ok (sc_set_wire_timing d f i n);
  sc_take_reinit_ok d : sc_ok d -> sc_ok (sc_take_reinit_pending d).1;
  sc_reinit_count_ok d : sc_ok d -> u32 (sc_reinit_count d)
}.

(** ** The mock driver ([mock_driver.rs], without its raw exchanges) *)
Module CardMock.

Inductive MockCall :=
| PowerOn | PowerOff | TransmitApdu (cmd_len : nat) | SetProtocol (protocol : Z)
| SetClock (enable : bool) | SetClockAndRate (clock_hz rate_bps : Z)
| SetWireTiming (fi di guard_time_n : Z).

Inductive MockError := PowerOnFailed | TransmitFailed.

Definition MAX_CALL_LOG : nat := 64.

Record MockSmartcardDriver := mkCardMock {
  card_present : bool;
  atr : list Z;
  protocol : Z;
  apdu_responses : list (list Z);
  apdu_response_idx : nat;
  power_on_should_fail : bool;
  transmit_apdu_should_fail : bool;
  transmit_error_class : XfrErrorKind;
  diag_card_present : option bool;
  mock_reinit_count : Z;
  mock_reinit_pending : bool;
  call_log : list MockCall
}.

Definition new (present : bool) (atr : list Z) (responses : list (list Z)) : MockSmartcardDriver :=
  mkCardMock present atr 0 responses 0 false false Unclassified None 0 false [].

Definition log (c : MockCall) (d : MockSmartcardDriver) : MockSmartcardDriver :=
  mkCardMock (card_present d) (atr d) (protocol d) (apdu_responses d) (apdu_response_idx d)
    (power_on_should_fail d) (transmit_apdu_should_fail d) (transmit_error_class d)
    (diag_card_present d) (mock_reinit_count d) (mock_reinit_pending d)
    (vec_push MAX_CALL_LOG (call_log d) c).
Definition with_protocol (p : Z) (d : MockSmartcardDriver) : MockSmartcardDriver :=
  mkCardMock (card_present d) (atr d) p (apdu_responses d) (apdu_response_idx d)
    (power_on_should_fail d) (transmit_apdu_should_fail d) (transmit_error_class d)
    (diag_card_present d) (mock_reinit_count d) (mock_reinit_pending d) (call_log d).
Definition with_idx (i : nat) (d : MockSmartcardDriver) : MockSmartcardDriver :=
  mkCardMock (card_present d) (atr d) (protocol d) (apdu_responses d) i
    (power_on_should_fail d) (transmit_apdu_should_fail d) (transmit_error_class d)
    (diag_card_present d) (mock_reinit_count d) (mock_reinit_pending d) (call_log d).
Definition with_reinit (n : Z) (b : bool) (d : MockSmartcardDriver) : MockSmartcardDriver :=
  mkCardMock (card_present d) (atr d) (protocol d) (apdu_responses d) (apdu_response_idx d)
    (power_on_should_fail d) (transmit_apdu_should_fail d) (transmit_error_class d)
    (diag_card_present d) n b (call_log d).
Definition set_reinit_event (n : Z) (d : MockSmartcardDriver) : MockSmartcardDriver :=
  with_reinit n true d.

Definition power_on (d : MockSmartcardDriver) : MockSmartcardDriver * result (list Z) MockError :=
  let d := log PowerOn d in
  (d, if power_on_should_fail d then Err PowerOnFailed else Ok (atr d)).

Definition transmit_apdu (d : MockSmartcardDriver) (command response : list Z) :
    filled MockSmartcardDriver MockError :=
  let d := log (TransmitApdu (length command)) d in
  if transmit_apdu_should_fail d then (d, response, Err TransmitFailed)
  else match apdu_responses d !! apdu_response_idx d with
       | Some r =>
           let r := take (length response) r in
           (with_idx (S (apdu_response_idx d)) d, r ++ drop (length r) response, Ok (length r))
       | None => (d, response, Ok 0%nat)
       end.

#[global] Instance card_mock : SmartcardDriver MockSmartcardDriver MockError := {
  sc_power_on := power_on;
  sc_power_off d := with_protocol 0 (log PowerOff d);
  sc_is_card_present := card_present;
  sc_transmit_apdu := transmit_apdu;
  sc_set_protocol d p := with_protocol p (log (SetProtocol p) d);
  sc_set_clock d b := log (SetClock b) d;
  sc_set_clock_and_rate d c r := (log (SetClockAndRate c r) d, Ok (c, r));
  sc_set_wire_timing d f i n := log (SetWireTiming f i n) d;
  sc_xfr_error_class d _ := transmit_error_class d;
  sc_reinit_count := mock_reinit_count;
  sc_take_reinit_pending d :=
    (with_reinit (mock_reinit_count d) false d, mock_reinit_pending d);
  sc_diagnostics d base :=
    match diag_card_present d with
    | Some p => Diagnostics.set_card_present p base
    | None => base
    end
}.

Definition ok (d : MockSmartcardDriver) : Prop :=
  bytes (atr d) /\ Forall bytes (apdu_responses d) /\ u32 (mock_reinit_count d).

End CardMock.

(** ** [SmartcardCoreAdapter]: the driver behind the core's slot contract *)
Module CardAdapter.

Record SmartcardCoreAdapter (D : Type) := mkCardAdapter {
  driver : D;
  forced_presence : option bool
}.
Arguments mkCardAdapter {D} driver forced_presence.
Arguments driver {D} _.
Arguments forced_presence {D} _.

Section CardAdapter.
Context {D E : Type} `{!SmartcardDriver D E}.

Definition with_driver (d : D) (a : SmartcardCoreAdapter D) : SmartcardCoreAdapter D :=
  mkCardAdapter d (forced_presence a).

Definition power_on (a : SmartcardCoreAdapter D) (atr_buf : list Z) :
    filled (SmartcardCoreAdapter D) E :=
  let '(d, r) := sc_power_on (driver a) in
  let a := with_driver d a in
  match r with
  | Ok atr =>
      let len := (length atr `min` length atr_buf)%nat in
      (a, take len atr ++ drop len atr_buf, Ok len)
  | Err e => (a, atr_buf, Err e)
  end.

Definition is_card_present (a : SmartcardCoreAdapter D) : bool :=
  match forced_presence a with Some p => p | None => sc_is_card_present (driver a) end.

#[global] Instance card_backend : CardBackend (SmartcardCoreAdapter D) E := {
  CardInterface.power_on := power_on;
  power_off a := with_driver (sc_power_off (driver a)) a;
  CardInterface.is_card_present a := (a, is_card_present a);
  transmit_apdu a command response :=
    let r := sc_transmit_apdu (driver a) command response in
    (with_driver r.1.1 a, r.1.2, r.2);
  xfr_error_class a e := sc_xfr_error_class (driver a) e;
  reinit_count a := sc_reinit_count (driver a)
}.

#[global] Instance card_slot : SlotDriver (SmartcardCoreAdapter D) E := {
  poll_card_presence a := (a, is_card_present a);
  session_active _ := false;
  card_uid _ := None
}.
End CardAdapter.

End CardAdapter.
Import CardAdapter.

(** ** [CcidMessageHandler] *)
Module Contact.

Definition PIN_PAD_VENDOR_ID : Z := 0x046A.
Definition GEMALTO_VENDOR_ID : Z := 0x08E6.
(** The core clock of the three builds. *)
Inductive Build := F469 | F746 | HostBuild.
Definition UPTIME_CLOCK_HZ (b : Build) : Z :=
  match b with F469 => 168000000 | F746 => 216000000 | HostBuild => 1000 end.

Definition PinVerifyPending : Type := Z * PinResult * PinBuffer * PinVerifyParams.
Definition PinModifyPending : Type := Z * PinResult * PinBuffer * PinBuffer * PinModifyParams.

Record CcidMessageHandler (D : Type) := mkContact {
  core : Core (SmartcardCoreAdapter D);
  rx_buffer : list Z;
  rx_len : nat;
  tx_buffer : list Z;
  tx_len : nat;
  cmd_busy : bool;
  vendor_id : Z;
  uptime : Dwt.DwtUptime;
  pin_result_pending : option PinVerifyPending;
  pin_modify_result_pending : option PinModifyPending
}.
Arguments mkContact {D}.
Arguments core {D} _.
Arguments rx_buffer {D} _.
Arguments rx_len {D} _.
Arguments tx_buffer {D} _.
Arguments tx_len {D} _.
Arguments cmd_busy {D} _.
Arguments vendor_id {D} _.
Arguments uptime {D} _.
Arguments pin_result_pending {D} _.
Arguments pin_modify_result_pending {D} _.

Section Setters.
Context {D : Type}.
Implicit Types m : CcidMessageHandler D.

Definition set_core v m : CcidMessageHandler D :=
  mkContact v (rx_buffer m) (rx_len m) (tx_buffer m) (tx_len m) (cmd_busy m) (vendor_id m)
    (uptime m) (pin_result_pending m) (pin_modify_result_pending m).
Definition set_rx buf n m : CcidMessageHandler D :=
  mkContact (core m) buf n (tx_buffer m) (tx_len m) (cmd_busy m) (vendor_id m)
    (uptime m) (pin_result_pending m) (pin_modify_result_pending m).
Definition set_tx (r : reply) m : CcidMessageHandler D :=
  mkContact (core m) (rx_buffer m) (rx_len m) r.1 r.2 (cmd_busy m) (vendor_id m)
    (uptime m) (pin_result_pending m) (pin_modify_result_pending m).
Definition set_busy b m : CcidMessageHandler D :=
  mkContact (core m) (rx_buffer m) (rx_len m) (tx_buffer m) (tx_len m) b (vendor_id m)
    (uptime m) (pin_result_pending m) (pin_modify_result_pending m).
Definition set_uptime u m : CcidMessageHandler D :=
  mkContact (core m) (rx_buffer m) (rx_len m) (tx_buffer m) (tx_len m) (cmd_busy m)
    (vendor_id m) u (pin_result_pending m) (pin_modify_result_pending m).
Definition set_verify_pending p m : CcidMessageHandler D :=
  mkContact (core m) (rx_buffer m) (rx_len m) (tx_buffer m) (tx_len m) (cmd_busy m)
    (vendor_id m) (uptime m) p (pin_modify_result_pending m).
Definition set_modify_pending p m : CcidMessageHandler D :=
  mkContact (core m) (rx_buffer m) (rx_len m) (tx_buffer m) (tx_len m) (cmd_busy m)
    (vendor_id m) (uptime m) (pin_result_pending m) p.
End Setters.

(** [declared_fits]: the subtraction never wraps. *)
Definition declared_fits (declared : Z) (buffer_len : nat) : bool :=
  (CCID_HEADER_SIZE <=? buffer_len)%nat &&
  (declared <=? Z.of_nat buffer_len - Z.of_nat CCID_HEADER_SIZE).

(** The 21-byte [GEMALTO_FIRMWARE_FEATURES] structure. *)
Definition firmware_features : list Z :=
  [0; 0; 0; 0; 0; 0; 0; 0; 0; 0; 0; 0; 1; 0; 0; 0; 0; 0; 0; 0; 0].

Section Contact.
Context {D E : Type} `{!SmartcardDriver D E}.
Implicit Types m : CcidMessageHandler D.

(** [self.core.driver().driver] and assignments through
    [self.core.driver_mut().driver]. *)
Definition driver m : D := CardAdapter.driver (nfc (core m)).
Definition set_driver (d : D) m : CcidMessageHandler D :=
  set_core (set_nfc (CardAdapter.with_driver d (nfc (core m))) (core m)) m.

Definition new (d : D) (vendor_id : Z) (build : Build) : CcidMessageHandler D :=
  let c := with_diagnostics_fold
             (with_profile (mkCardAdapter d None) [] (vendor_id =? PIN_PAD_VENDOR_ID))
             (fun a diag => sc_diagnostics (CardAdapter.driver a) diag) in
  mkContact (check_card_change c).1
    (replicate MAX_CCID_MESSAGE_LENGTH 0) 0 (replicate MAX_CCID_MESSAGE_LENGTH 0) 0
    false vendor_id (Dwt.uptime_new (UPTIME_CLOCK_HZ build)) None None.

(** [transmit_counted]: the caller's buffer beside the result. *)
Definition transmit_counted m (command response : list Z) :
    CcidMessageHandler D * list Z * result nat E :=
  let '(c, buf, r) := Handler.transmit_counted (core m) command response in
  (set_core c m, buf, r).

(** [poll_diagnostics]; the fuel of the DWT loop always suffices. *)
Definition poll_diagnostics (now_cycles : Z) m : outcome (CcidMessageHandler D) :=
  match Dwt.poll (uptime m) now_cycles with
  | Some (u, ticks) => Ret (set_core (refresh_diagnostics (core m) ticks) (set_uptime u m))
  | None => Panic
  end.

(** *** Reassembly *)
Definition declared_length m : Z :=
  from_le32 (arr (rx_buffer m) 1) (arr (rx_buffer m) 2) (arr (rx_buffer m) 3)
    (arr (rx_buffer m) 4).

Definition drop_unassemblable m : CcidMessageHandler D :=
  if (CCID_HEADER_SIZE <=? rx_len m)%nat &&
     negb (declared_fits (declared_length m) (length (rx_buffer m)))
  then set_rx (rx_buffer m) 0 m else m.

Definition feed (data : list Z) m : outcome (CcidMessageHandler D) :=
  let remaining := (length (rx_buffer m) - rx_len m)%nat in
  let copy_len := (length data `min` remaining)%nat in
  buf ← copy_at (rx_buffer m) (rx_len m) (take copy_len data);
  Ret (drop_unassemblable (set_rx buf (rx_len m + copy_len) m)).

Definition message_ready m : bool :=
  if (rx_len m <? CCID_HEADER_SIZE)%nat then false
  else
    let msg_len := declared_length m in
    if negb (declared_fits msg_len (length (rx_buffer m))) then false
    else usize_add (Z.of_nat CCID_HEADER_SIZE) msg_len <=? Z.of_nat (rx_len m).

(** *** Answers *)
Definition get_icc_status m : Z := current_icc_status (core m).

Definition send_slot_status_with_clock (seq cmd_status icc_status error clock_status : Z) m :
    CcidMessageHandler D :=
  set_tx (write_slot_status 0 seq icc_status cmd_status error clock_status (tx_buffer m)) m.
Definition send_slot_status (seq cmd_status icc_status error : Z) m : CcidMessageHandler D :=
  send_slot_status_with_clock seq cmd_status icc_status error 0 m.

Definition send_err_resp (msg_type seq error : Z) m : CcidMessageHandler D :=
  let icc := get_icc_status m in
  if msg_type =? PC_TO_RDR_ESCAPE
  then set_tx (write_message RDR_TO_PC_ESCAPE 0 seq (build_bstatus COMMAND_STATUS_FAILED icc)
                 error 0 [] (tx_buffer m)) m
  else send_slot_status seq COMMAND_STATUS_FAILED icc error m.

Definition delegate_to_core m : outcome (CcidMessageHandler D) :=
  msg ← slice (rx_buffer m) 0 (rx_len m);
  r ← process_command (core m) msg (tx_buffer m);
  Ret (set_tx r.2 (set_core r.1 m)).

(** *** Commands answered by the wrapper *)
Definition handle_set_data_rate_and_clock (seq : Z) m : CcidMessageHandler D :=
  let rx := arr (rx_buffer m) in
  if (rx_len m <? 18)%nat then
    send_slot_status seq COMMAND_STATUS_FAILED (get_icc_status m) CCID_ERR_CMD_NOT_SUPPORTED m
  else
    let clock_hz := from_le32 (rx 10%nat) (rx 11%nat) (rx 12%nat) (rx 13%nat) in
    let rate_bps := from_le32 (rx 14%nat) (rx 15%nat) (rx 16%nat) (rx 17%nat) in
    let '(d, r) := sc_set_clock_and_rate (driver m) clock_hz rate_bps in
    let m := set_driver d m in
    match r with
    | Ok (actual_clock, actual_rate) =>
        set_tx (write_message RDR_TO_PC_DATA_RATE_AND_CLOCK_FREQ 0 seq
                  (build_bstatus COMMAND_STATUS_NO_ERROR (get_icc_status m)) 0 0
                  (to_le32 actual_clock ++ to_le32 actual_rate) (tx_buffer m)) m
    | Err _ => send_slot_status seq COMMAND_STATUS_FAILED (get_icc_status m) CCID_ERR_HW_ERROR m
    end.

Definition handle_icc_clock (seq : Z) m : CcidMessageHandler D :=
  let icc := get_icc_status m in
  if negb (icc =? ICC_STATUS_PRESENT_ACTIVE) then
    send_slot_status_with_clock seq COMMAND_STATUS_FAILED icc CCID_ERR_ICC_MUTE 0 m
  else
    let clock_command := if (7 <? rx_len m)%nat then arr (rx_buffer m) 7 else 0 in
    let enable := clock_command =? 0 in
    let m := set_driver (sc_set_clock (driver m) enable) m in
    send_slot_status_with_clock seq COMMAND_STATUS_NO_ERROR icc 0 (if enable then 0 else 1) m.

Definition handle_escape (seq : Z) m : outcome (CcidMessageHandler D) :=
  let first := if 1 <=? declared_length m then Some (arr (rx_buffer m) CCID_HEADER_SIZE)
               else None in
  let is_gemalto := vendor_id m =? GEMALTO_VENDOR_ID in
  if is_gemalto && bool_decide (first = Some 0x6A) then
    Ret (set_tx (write_message RDR_TO_PC_ESCAPE 0 seq
                   (build_bstatus COMMAND_STATUS_NO_ERROR (get_icc_status m)) 0 0
                   firmware_features (tx_buffer m)) m)
  else if negb is_gemalto && negb (bool_decide (first = Some 0xD0)) then
    Ret (send_err_resp PC_TO_RDR_ESCAPE seq CCID_ERR_CMD_NOT_SUPPORTED m)
  else delegate_to_core m.

(** *** [handle_message] *)

(** The [match msg_type] of an accepted message. *)
Definition route (msg_type seq : Z) m : outcome (CcidMessageHandler D) :=
  if msg_type =? PC_TO_RDR_ICC_CLOCK then Ret (handle_icc_clock seq m)
  else if msg_type =? PC_TO_RDR_SET_DATA_RATE_AND_CLOCK_FREQ
       then Ret (handle_set_data_rate_and_clock seq m)
  else if msg_type =? PC_TO_RDR_ESCAPE then handle_escape seq m
  else if (msg_type =? PC_TO_RDR_XFR_BLOCK) && (261 <? declared_length m) then
    Ret (send_slot_status seq COMMAND_STATUS_FAILED ICC_STATUS_PRESENT_ACTIVE 0x07 m)
  else if (msg_type =? PC_TO_RDR_T0_APDU) || (msg_type =? PC_TO_RDR_MECHANICAL) then
    Ret (send_err_resp msg_type seq CCID_ERR_CMD_NOT_SUPPORTED m)
  else delegate_to_core m.

(** Accepted parameters re-program the driver. *)
Definition apply_parameters m : CcidMessageHandler D :=
  let k := take_parameters_accepted (core m) in
  let m := set_core k.1 m in
  if k.2 then
    let m := set_driver (sc_set_protocol (driver m) (current_protocol (core m))) m in
    match accepted_contact_timing (core m) with
    | Some t => set_driver (sc_set_wire_timing (driver m) (wt_fi t) (wt_di t)
                              (wt_guard_time_n t)) m
    | None => set_driver (sc_set_wire_timing (driver m) 0 0 0) m
    end
  else m.

(** A self-healing re-init refreshes the diagnostics word. *)
Definition surface_reinit m : CcidMessageHandler D :=
  let '(d, pending) := sc_take_reinit_pending (driver m) in
  let m := set_driver d m in
  if pending
  then set_core (set_diagnostics (Diagnostics.set_reinit (sc_reinit_count (driver m))
                                    (diagnostics (core m))) (core m)) m
  else m.

Definition handle_message m : outcome (CcidMessageHandler D) :=
  if (rx_len m <? CCID_HEADER_SIZE)%nat then Ret m
  else
    let msg_type := arr (rx_buffer m) 0 in
    let slot := arr (rx_buffer m) 5 in
    let seq := arr (rx_buffer m) 6 in
    if negb (slot =? 0) then
      Ret (send_slot_status seq COMMAND_STATUS_FAILED ICC_STATUS_NO_ICC 0x05 m)
    else if cmd_busy m then
      Ret (send_slot_status seq COMMAND_STATUS_FAILED (get_icc_status m)
             CCID_ERR_CMD_SLOT_BUSY m)
    else
      m ← route msg_type seq (set_busy true m);
      Ret (surface_reinit (apply_parameters m)).

(** *** The transport's other calls *)
Definition take_response m : CcidMessageHandler D * list Z :=
  (set_busy false (set_tx (tx_buffer m, 0%nat) (set_rx (rx_buffer m) 0 m)),
   take (tx_len m) (tx_buffer m)).

Definition check_card_presence m : CcidMessageHandler D * option bool :=
  let r := check_card_change (core m) in
  let m := set_core r.1 m in
  let changed := match r.2 with Some _ => Some true | None => None end in
  (match changed with
   | Some _ =>
       if negb (present (core m))
       then set_modify_pending None (set_verify_pending None
              (set_busy false (set_rx (rx_buffer m) 0 m)))
       else m
   | None => m
   end, changed).

Definition notify_slot_change_bytes (card_present changed : bool) : list Z :=
  [RDR_TO_PC_NOTIFY_SLOT_CHANGE;
   Z.lor (if card_present then 0x01 else 0) (if changed then 0x02 else 0)].

Definition is_card_present m : bool := CardAdapter.is_card_present (nfc (core m)).
Definition is_card_active m : bool := bool_decide (slot_state (core m) = PresentActive).
Definition get_tx_buffer m : list Z := take (tx_len m) (tx_buffer m).

Definition set_card_present (b : bool) m : CcidMessageHandler D :=
  let c := set_nfc (mkCardAdapter (driver m) (Some b)) (core m) in
  set_core (check_card_change c).1 m.

Definition set_rx_data (data : list Z) m : outcome (CcidMessageHandler D) :=
  buf ← copy_at (rx_buffer m) 0 data;
  Ret (set_rx buf (length data) m).

(** *** The PIN-entry seam *)
Definition take_secure_params m : CcidMessageHandler D * option (Z * PinVerifyParams) :=
  let k := Handler.take_secure_params (core m) in (set_core k.1 m, k.2).
Definition take_secure_modify_params m : CcidMessageHandler D * option (Z * PinModifyParams) :=
  let k := Handler.take_secure_modify_params (core m) in (set_core k.1 m, k.2).

Definition complete_pin_entry (seq : Z) (result : PinResult) (apdu_response : option (list Z)) m :
    CcidMessageHandler D :=
  let r := Handler.complete_pin_entry (core m) seq result apdu_response (tx_buffer m) in
  set_tx r.2 (set_core r.1 m).

Definition set_pin_result (seq : Z) (result : PinResult) (buffer : PinBuffer)
    (params : PinVerifyParams) m : CcidMessageHandler D :=
  set_verify_pending (Some (seq, result, buffer, params)) m.

Definition process_pin_result m : outcome (CcidMessageHandler D) :=
  match pin_result_pending m with
  | None => Ret m
  | Some (seq, result, buffer, params) =>
      let m := set_verify_pending None m in
      r ← complete_pin_verify_exchange (core m) seq result buffer params (tx_buffer m);
      Ret (set_tx r.2 (set_core r.1 m))
  end.

Definition set_pin_modify_result (seq : Z) (result : PinResult) (old_buffer new_buffer : PinBuffer)
    (params : PinModifyParams) m : CcidMessageHandler D :=
  set_modify_pending (Some (seq, result, old_buffer, new_buffer, params)) m.

Definition process_pin_modify_result m : outcome (CcidMessageHandler D) :=
  match pin_modify_result_pending m with
  | None => Ret m
  | Some (seq, result, old_buffer, new_buffer, params) =>
      let m := set_modify_pending None m in
      r ← complete_pin_modify_exchange (core m) seq result old_buffer new_buffer params
            (tx_buffer m);
      Ret (set_tx r.2 (set_core r.1 m))
  end.
End Contact.

End Contact.
