(* ===== verification/ContactSpec.v ===== *)
(** * The STM32 contact handler: theorems

    The adapter keeps the slot contract of the core, so everything proved of
    [Handler.v] holds behind USB too; on top of it: reassembly never wedges,
    every complete message is answered once, accepted parameters re-program
    the smartcard interface, and a removed card resets the exchange. *)
From Stdlib Require Import ZArith Lia ZifyBool.
From stdpp Require Import prelude.
From S2P Require Import Prelude Wire Atr Diag Secure CardInterface Handler SelfHeal.
From S2P Require Import HandlerFacts HandlerSpec DeviceProfile ContactHandler.
Import PinBuf CardAdapter Contact.
Local Open Scope Z_scope.

#[local] Existing Instance ContactProfile.

(** ** The adapter is a lawful slot driver *)
#[export] Instance card_adapter_laws {D E} `{!SmartcardDriver D E, !SmartcardLaws D E} :
  SlotDriverLaws (SmartcardCoreAdapter D) E.
Proof.
  refine {| driver_ok := fun a => sc_ok (CardAdapter.driver a) |}.
  - intros a buf Ha. pose proof (sc_power_on_ok (CardAdapter.driver a) Ha) as [Hd Hr].
    simpl. unfold CardAdapter.power_on.
    destruct (sc_power_on (CardAdapter.driver a)) as [d [atr|e]]; simpl in *;
      [|by apply fills_unchanged].
    unfold fills. cbn [fst snd]. split; [done|]. split.
    { rewrite length_app, length_take, length_drop. lia. }
    split; [|lia]. intros Hb. apply bytes_app. auto with bytes.
  - intros a cmd buf. apply (sc_transmit_ok (CardAdapter.driver a) cmd buf).
  - intros a Ha. exact (sc_power_off_ok _ Ha).
  - intros a Ha. exact Ha.
  - intros a Ha. exact Ha.
  - discriminate.
  - intros a Ha. exact (sc_reinit_count_ok _ Ha).
Defined.

#[export] Instance card_mock_laws : SmartcardLaws CardMock.MockSmartcardDriver CardMock.MockError.
Proof.
  refine {| sc_ok := CardMock.ok |}; try (intros d; intros; assumption).
  - intros d (Ha & Hr & Hn). simpl. unfold CardMock.power_on. cbv zeta.
    split; [done|]. by destruct (CardMock.power_on_should_fail _).
  - intros d cmd buf (Ha & Hr & Hn) _. simpl. unfold CardMock.transmit_apdu. cbv zeta.
    destruct (CardMock.transmit_apdu_should_fail _); [by apply fills_unchanged|].
    cbn [CardMock.apdu_responses CardMock.log CardMock.apdu_response_idx].
    destruct (_ !! _) as [r|] eqn:E; [|by unfold fills; cbn [fst snd]; split_and!; try done; lia].
    pose proof (Forall_lookup_1 _ _ _ _ Hr E). unfold fills. cbn [fst snd].
    split; [done|]. split.
    { rewrite length_app, length_drop, length_take. lia. }
    split; [|rewrite length_take; lia]. intros Hb. apply bytes_app. auto with bytes.
  - intros d (_ & _ & Hn). exact Hn.
Defined.

(** ** The invariant *)

(** The bytes received of the message under assembly. *)
Definition rx {D} (m : CcidMessageHandler D) : list Z := take (rx_len m) (rx_buffer m).

(** A header that announces more than the buffer holds. *)
Definition unassemblable (bs : list Z) : bool :=
  match CcidHeader_parse bs with Some h => 261 <? dw_length h | None => false end.

Record contact_wf {D E} `{!SmartcardDriver D E, !SmartcardLaws D E} (m : CcidMessageHandler D) :
    Prop := mkContactWf {
  mo_core : core_ok (core m);
  mo_rx_length : length (rx_buffer m) = 271%nat;
  mo_rx_bytes : bytes (rx_buffer m);
  mo_rx_len : (rx_len m <= 271)%nat;
  mo_rx_fits : unassemblable (rx m) = false;
  mo_tx_length : length (tx_buffer m) = 271%nat;
  mo_tx_len : (tx_len m <= 271)%nat;
  mo_uptime : 1 <= Dwt.cycles_per_ms (uptime m) <= 4294967295 /\ u32 (Dwt.ticks_ms (uptime m))
}.

(** Between two commands no accepted parameters are left unapplied. *)
Definition contact_ok {D E} `{!SmartcardDriver D E, !SmartcardLaws D E}
    (m : CcidMessageHandler D) : Prop :=
  contact_wf m /\ parameters_accepted_event (core m) = false.

Section Reassembly.
Context {D E : Type} `{!SmartcardDriver D E, !SmartcardLaws D E}.
Implicit Types m : CcidMessageHandler D.

Lemma length_rx m : length (rx_buffer m) = 271%nat -> (rx_len m <= 271)%nat ->
  length (rx m) = rx_len m.
Proof. intros. unfold rx. rewrite length_take. lia. Qed.

Lemma arr_rx m i : (i < rx_len m)%nat -> arr (rx_buffer m) i = arr (rx m) i.
Proof. intros. unfold arr, rx. by rewrite lookup_take_lt by lia. Qed.

(** The declared length is the dwLength of the received header. *)
Lemma declared_parse m h : CcidHeader_parse (rx m) = Some h -> declared_length m = dw_length h.
Proof.
  intros Hp. pose proof (parse_Some_length _ _ Hp) as Hl. unfold rx in Hl.
  rewrite length_take in Hl. unfold declared_length. rewrite !arr_rx by lia.
  unfold arr. unfold CcidHeader_parse in Hp. repeat case_match; try done.
  by injection Hp as <-.
Qed.

Lemma parse_long (bs : list Z) : (10 <= length bs)%nat -> exists h, CcidHeader_parse bs = Some h.
Proof.
  intros. destruct (CcidHeader_parse bs) as [h|] eqn:Ep; [eauto|]. apply parse_None in Ep. lia.
Qed.

Lemma drop_unassemblable_spec m :
  length (rx_buffer m) = 271%nat -> (rx_len m <= 271)%nat ->
  drop_unassemblable m = if unassemblable (rx m) then set_rx (rx_buffer m) 0 m else m.
Proof.
  intros Hb Hl. unfold drop_unassemblable, unassemblable, declared_fits, CCID_HEADER_SIZE.
  rewrite Hb. pose proof (length_rx m Hb Hl) as Hr. destruct (CcidHeader_parse (rx m)) as [h|] eqn:Hp.
  - pose proof (parse_Some_length _ _ Hp). rewrite (declared_parse m h Hp).
    replace (10 <=? rx_len m)%nat with true by lia. simpl.
    destruct (Z.ltb_spec 261 (dw_length h)); [by replace (dw_length h <=? _) with false by lia|].
    by replace (dw_length h <=? _) with true by lia.
  - apply parse_None in Hp. by replace (10 <=? rx_len m)%nat with false by lia.
Qed.

(** What a packet does to the message under assembly. *)
Definition assemble (bs data : list Z) : list Z :=
  let s := take 271 (bs ++ data) in if unassemblable s then [] else s.

Lemma feed_spec m data :
  contact_wf m -> bytes data ->
  exists m', feed data m = Ret m' /\ contact_wf m' /\ rx m' = assemble (rx m) data /\
    m' = set_rx (rx_buffer m') (rx_len m') m.
Proof.
  intros Hm Hd. pose proof (mo_rx_length _ Hm) as Hb. pose proof (mo_rx_len _ Hm) as Hl.
  pose proof (mo_rx_bytes _ Hm) as Hby.
  unfold feed. rewrite Hb. set (n := (length data `min` (271 - rx_len m))%nat).
  assert (length (take n data) = n) as Hn by (rewrite length_take; lia).
  rewrite copy_at_ok by lia. rewrite bind_ret, Hn.
  set (buf := take (rx_len m) (rx_buffer m) ++ take n data ++ drop (rx_len m + n) (rx_buffer m)).
  assert (length buf = 271%nat) as Hbuf
    by (unfold buf; rewrite !length_app, length_take, length_drop; lia).
  assert (bytes buf) as Hbb by (unfold buf; rewrite !bytes_app; auto with bytes).
  set (m1 := set_rx buf (rx_len m + n) m).
  assert (rx m1 = take 271 (rx m ++ data)) as Hrx.
  { unfold m1, rx. cbn [rx_len rx_buffer set_rx]. unfold buf.
    pose proof (length_rx m Hb Hl) as Hr. unfold rx in Hr.
    rewrite app_assoc, take_app_length' by (rewrite length_app; lia).
    rewrite take_app, Hr. f_equal; [rewrite take_take; f_equal; lia|].
    destruct (Nat.le_gt_cases (length data) (271 - rx_len m)).
    - rewrite !take_ge by lia. done.
    - f_equal. lia. }
  rewrite drop_unassemblable_spec by (simpl; lia). unfold assemble.
  eexists. split; [reflexivity|]. rewrite <- Hrx.
  destruct Hm. destruct (unassemblable (rx m1)) eqn:Hu.
  - split; [by constructor; simpl; try done; lia|]. done.
  - split; [by constructor; simpl; try done; lia|]. done.
Qed.

Lemma message_ready_spec m : contact_wf m ->
  message_ready m = true <-> exists h, complete_message (rx m) h.
Proof.
  intros Hm. pose proof (mo_rx_length _ Hm) as Hb. pose proof (mo_rx_len _ Hm) as Hl.
  pose proof (length_rx m Hb Hl) as Hr. pose proof (mo_rx_fits _ Hm) as Hf.
  unfold message_ready, CCID_HEADER_SIZE, complete_message, unassemblable in *.
  destruct (CcidHeader_parse (rx m)) as [h|] eqn:Hp.
  - pose proof (parse_Some_length _ _ Hp) as Hge. rewrite (declared_parse m h Hp), Hb.
    replace (rx_len m <? 10)%nat with false by lia.
    assert (bytes (rx m)) as Hbr by (unfold rx; destruct Hm; auto with bytes).
    destruct (parse_bytes _ _ Hbr Hp) as (_ & Hdw & _). unfold u32 in Hdw.
    unfold declared_fits, CCID_HEADER_SIZE. replace (_ && _) with true by lia.
    cbn [negb]. replace (usize_add (Z.of_nat 10) (dw_length h)) with (10 + dw_length h)
      by (unfold usize_add, wrap32; rewrite Z.mod_small; lia).
    split; [intros; exists h; split; [done|lia]|]. intros (h' & [= <-] & ?). lia.
  - apply parse_None in Hp. replace (rx_len m <? 10)%nat with true by lia.
    split; [done|]. by intros (h & ? & _).
Qed.

(** A stream of packets. *)
Fixpoint feeds (packets : list (list Z)) m : outcome (CcidMessageHandler D) :=
  match packets with [] => Ret m | p :: ps => m ← feed p m; feeds ps m end.

Lemma feeds_spec ps : forall m, contact_wf m -> Forall bytes ps ->
  exists m', feeds ps m = Ret m' /\ contact_wf m' /\ rx m' = fold_left assemble ps (rx m) /\
    m' = set_rx (rx_buffer m') (rx_len m') m.
Proof.
  induction ps as [|p ps IH]; intros m Hm Hps; [exists m; by destruct m|].
  apply Forall_cons in Hps as [Hp Hps].
  destruct (feed_spec m p Hm Hp) as (m1 & E1 & Hm1 & Hr1 & Hs1).
  destruct (IH m1 Hm1 Hps) as (m' & E2 & Hm' & Hr2 & Hs2).
  exists m'. simpl. rewrite E1, bind_ret, <- Hr1. split_and!; try done.
  rewrite Hs2, Hs1. done.
Qed.

Lemma header_parse_prefix (a b : list Z) h :
  CcidHeader_parse a = Some h -> CcidHeader_parse (a ++ b) = Some h.
Proof. unfold CcidHeader_parse. do 10 (destruct a as [|? a]; [done|]). done. Qed.

Lemma unassemblable_prefix (a b : list Z) :
  unassemblable a = true -> unassemblable (a ++ b) = true.
Proof.
  unfold unassemblable. destruct (CcidHeader_parse a) as [h|] eqn:Hp; [|done].
  by rewrite (header_parse_prefix a b h Hp).
Qed.

Lemma assemble_stream ps : forall bs,
  (length (bs ++ concat ps) <= 271)%nat -> unassemblable (bs ++ concat ps) = false ->
  fold_left assemble ps bs = bs ++ concat ps.
Proof.
  induction ps as [|p ps IH]; intros bs Hl Hu; [by rewrite app_nil_r|].
  simpl in *. rewrite app_assoc in Hl, Hu. rewrite app_assoc. unfold assemble at 2.
  rewrite take_ge by (rewrite length_app in Hl; lia).
  destruct (unassemblable (bs ++ p)) eqn:Hp; [|by apply IH].
  by rewrite (unassemblable_prefix _ (concat ps) Hp) in Hu.
Qed.

(** C4: packets reassemble, and no header wedges the reader.  However the host
    cuts its stream into packets, the reader keeps its invariant and never
    panics; a stream that is no more than one message the buffer can hold is
    kept byte for byte, and is ready exactly when it is complete; a stream
    whose last packet completes a header announcing more than 261 bytes (up to
    the dwLengths at which 10 + dwLength would wrap) leaves an empty buffer. *)
Theorem contact_reassembly m ps p :
  contact_ok m -> rx m = [] -> Forall bytes (ps ++ [p]) ->
  let stream := concat ps ++ p in
  exists m', feeds (ps ++ [p]) m = Ret m' /\ contact_ok m' /\ core m' = core m /\
  ((length stream <= 271)%nat -> unassemblable stream = false ->
     rx m' = stream /\
     (message_ready m' = true <-> exists h, complete_message stream h)) /\
  ((length (concat ps) < 10)%nat -> unassemblable stream = true ->
     rx m' = [] /\ message_ready m' = false).
Proof.
  intros [Hm Hev] Hrx Hb stream.
  destruct (feeds_spec (ps ++ [p]) m Hm Hb) as (m' & E1 & Hm' & Hr & Hs).
  exists m'. split; [done|]. assert (core m' = core m) as Hc by (by rewrite Hs).
  split; [split; [done|by rewrite Hc]|]. split; [done|].
  assert (concat (ps ++ [p]) = stream) as Hcat by (by rewrite concat_app; simpl; rewrite app_nil_r).
  rewrite Hrx in Hr. split.
  - intros Hl Hu. rewrite assemble_stream in Hr by (simpl; rewrite Hcat; done).
    rewrite Hcat in Hr. split; [done|]. rewrite message_ready_spec by done. by rewrite Hr.
  - intros Hl Hu. assert (rx m' = []) as Hr'.
    { rewrite Hr, fold_left_app. simpl.
      rewrite (assemble_stream ps []); simpl; [|lia|].
      2: { unfold unassemblable. by rewrite (proj2 (parse_None _)). }
      unfold assemble. fold stream.
      assert (unassemblable (take 271 stream) = true) as Ht; [|by rewrite Ht].
      unfold unassemblable in *.
      destruct (CcidHeader_parse stream) as [h|] eqn:Hp; [|done].
      pose proof (parse_Some_length _ _ Hp).
      destruct (parse_long (take 271 stream)) as [h' Hp']; [rewrite length_take; lia|].
      rewrite Hp'. pose proof (header_parse_prefix _ (drop 271 stream) _ Hp') as Hp2.
      rewrite take_drop in Hp2. by simplify_eq. }
    split; [done|]. destruct (message_ready m') eqn:Er; [|done].
    apply message_ready_spec in Er as (h & Hp & _); [|done]. by rewrite Hr' in Hp.
Qed.
End Reassembly.

(** ** Answers *)

(** The reply's type: the core's, and those of the wrapper's own commands. *)
Definition contact_type (t ty : Z) (failed : bool) : bool :=
  if t =? PC_TO_RDR_ICC_CLOCK then ty =? RDR_TO_PC_SLOTSTATUS
  else if t =? PC_TO_RDR_SET_DATA_RATE_AND_CLOCK_FREQ
       then ty =? (if failed then RDR_TO_PC_SLOTSTATUS else RDR_TO_PC_DATA_RATE_AND_CLOCK_FREQ)
  else reply_type t ty failed.

(** The answer as the transport sends it: one message with the sequence number
    of the command, the command status and the state of the slot; or nothing
    (an armed PIN session, or more than 261 bytes from the card). *)
Definition contact_replied {D} (h : CcidHeader) (m' : CcidMessageHandler D) (failed : bool) : Prop :=
  (tx_len m' = 0%nat /\ failed = false /\
     (message_type h = PC_TO_RDR_SECURE /\ is_pin_entry_active (core m') = true \/
      message_type h = PC_TO_RDR_XFR_BLOCK \/ message_type h = PC_TO_RDR_ICC_POWER_ON)) \/
  exists hdr,
    CcidHeader_parse (get_tx_buffer m') = Some hdr /\
    Z.of_nat (tx_len m') = 10 + dw_length hdr /\
    slot hdr = 0 /\ seq hdr = seq h /\
    contact_type (message_type h) (message_type hdr) failed = true /\
    cmd_of_bstatus (specific0 hdr) =
      (if failed then COMMAND_STATUS_FAILED else COMMAND_STATUS_NO_ERROR) /\
    reported (message_type h) failed (slot_state (core m')) (icc_of_bstatus (specific0 hdr)).

Section Answers.
Context {D E : Type} `{!SmartcardDriver D E, !SmartcardLaws D E}.
Implicit Types m : CcidMessageHandler D.

Lemma write_message_bound ty s q st e sp payload buf :
  ((write_message ty s q st e sp payload buf).2 <= length buf)%nat.
Proof.
  destruct (Nat.lt_ge_cases (length buf) (10 + length payload)).
  - rewrite write_message_short by done. simpl. lia.
  - rewrite write_message_fits by done. simpl. lia.
Qed.

Lemma answered_bound {A} h buf (c' : Core A) failed r :
  answered h buf c' failed r -> (r.2 <= length buf)%nat /\ length r.1 = length buf.
Proof.
  intros [ty f icc err sp data _ _ _ _ _ _ _|_ _]; [|simpl; lia].
  split; [apply write_message_bound|apply write_message_length].
Qed.

Lemma wf_tx r m : contact_wf m -> (r.2 <= 271)%nat -> length r.1 = 271%nat ->
  contact_wf (set_tx r m).
Proof. intros [] ? ?. by constructor. Qed.

Lemma wf_core c m : contact_wf m -> core_ok c -> contact_wf (set_core c m).
Proof. intros [] ?. by constructor. Qed.

Lemma wf_busy b m : contact_wf m -> contact_wf (set_busy b m).
Proof. intros []. by constructor. Qed.

Lemma wf_driver d m : contact_wf m -> sc_ok d -> contact_wf (set_driver d m).
Proof.
  intros Hm Hd. apply wf_core; [done|]. destruct (mo_core _ Hm). by constructor.
Qed.

Lemma sc_driver m : contact_wf m -> sc_ok (driver m).
Proof. intros Hm. apply (ok_driver _ (mo_core _ Hm)). Qed.

(** The wrapper's own messages. *)
Lemma wf_send ty q st e sp data m : contact_wf m ->
  contact_wf (set_tx (write_message ty 0 q st e sp data (tx_buffer m)) m).
Proof.
  intros Hm. pose proof (mo_tx_length _ Hm) as Ht. apply wf_tx; [done|rewrite <- Ht..].
  - apply write_message_bound.
  - apply write_message_length.
Qed.

Lemma sent h (failed : bool) ty icc err sp data m :
  contact_wf m -> contact_type (message_type h) ty failed = true ->
  icc = icc_status (slot_state (core m)) -> (length data <= 261)%nat ->
  contact_replied h
    (set_tx (write_message ty 0 (seq h)
       (build_bstatus (if failed then COMMAND_STATUS_FAILED else COMMAND_STATUS_NO_ERROR) icc)
       err sp data (tx_buffer m)) m) failed.
Proof.
  intros Hm Hty Hicc Hd. right. pose proof (mo_tx_length _ Hm) as Ht.
  assert (10 + length data <= length (tx_buffer m))%nat as Hfit by lia.
  assert (wrap32 (Z.of_nat (length data)) = Z.of_nat (length data)) as Ew
    by (unfold wrap32; rewrite Z.mod_small; lia).
  pose proof (icc_range (slot_state (core m))) as Hr.
  destruct (bstatus_decode (if failed then COMMAND_STATUS_FAILED else COMMAND_STATUS_NO_ERROR) icc)
    as [E1 E2]; [by destruct failed|lia|].
  eexists. split_and!.
  - unfold get_tx_buffer. cbn [tx_len tx_buffer set_tx].
    rewrite write_message_fits at 1 by done. cbn [snd].
    rewrite write_message_take by done. rewrite Ew.
    apply parse_build. unfold u32. lia.
  - simpl. rewrite write_message_fits by done. simpl. lia.
  - done.
  - done.
  - done.
  - exact E1.
  - left. unfold specific0. cbn [specific fst]. rewrite E2. done.
Qed.

Lemma answered_contact h c' failed r m :
  length (tx_buffer m) = 271%nat -> slot h = 0 ->
  message_type h <> PC_TO_RDR_ICC_CLOCK ->
  message_type h <> PC_TO_RDR_SET_DATA_RATE_AND_CLOCK_FREQ ->
  answered h (tx_buffer m) c' failed r ->
  contact_replied h (set_tx r (set_core c' m)) failed.
Proof.
  intros Ht Hslot Hn1 Hn2 Ha. destruct (answered_replied _ _ _ _ _ Ha) as [Hr _].
  destruct Hr as [(-> & Hcase)|(hdr & Hp & Hl & _ & Hs & Hq & Hty & Hst & Hicc)].
  - left. split; [done|]. destruct Hcase as [(? & ? & ?)|Hroom]; [by auto|].
    rewrite Ht in Hroom. unfold room in Hroom. destruct failed; simpl in Hroom; [lia|].
    split; [done|]. unfold TX_BUF_SIZE in Hroom. right. case_match; lia.
  - right. exists hdr. split_and!; try done.
    + by rewrite Hs.
    + unfold contact_type.
      by replace (_ =? _) with false by lia; replace (_ =? _) with false by lia.
Qed.

(** What dispatching an accepted message does. *)
Record routed (h : CcidHeader) m (failed : bool) m' : Prop := mkRouted {
  ro_wf : contact_wf m';
  ro_reply : contact_replied h m' failed;
  ro_slot : slot_step true (message_type h) (slot_state (core m)) failed
              (slot_state (core m'));
  ro_event : parameters_accepted_event (core m') =
             parameters_accepted_event (core m) || sets_params (message_type h) && negb failed;
  ro_frame : rx_buffer m' = rx_buffer m /\ rx_len m' = rx_len m /\ cmd_busy m' = cmd_busy m /\
             uptime m' = uptime m
}.

Definition dispatched h m (o : outcome (CcidMessageHandler D)) : Prop :=
  (o = Panic /\ panics (core m) (rx m)) \/
  (~ panics (core m) (rx m) /\ exists failed m', o = Ret m' /\ routed h m failed m').

Lemma not_panics m h : contact_wf m -> complete_message (rx m) h ->
  message_type h <> PC_TO_RDR_SECURE -> ~ panics (core m) (rx m).
Proof.
  intros Hm [Hp Hl] Hn (h' & Hp' & [Hw|(_ & Ht & _)]); rewrite Hp in Hp'; simplify_eq.
  pose proof (length_rx m (mo_rx_length _ Hm) (mo_rx_len _ Hm)). pose proof (mo_rx_len _ Hm).
  unfold u32_max in Hw. lia.
Qed.

Lemma rx_bytes m : contact_wf m -> bytes (rx m).
Proof. intros Hm. unfold rx. pose proof (mo_rx_bytes _ Hm). auto with bytes. Qed.

Lemma delegate_spec m h : contact_wf m -> complete_message (rx m) h -> slot h = 0 ->
  message_type h <> PC_TO_RDR_ICC_CLOCK ->
  message_type h <> PC_TO_RDR_SET_DATA_RATE_AND_CLOCK_FREQ ->
  dispatched h m (delegate_to_core m).
Proof.
  intros Hm Hc Hslot Hn1 Hn2. pose proof (rx_bytes m Hm) as Hb.
  pose proof (mo_tx_length _ Hm) as Ht.
  unfold delegate_to_core. rewrite slice_prefix by (destruct Hm; lia). rewrite bind_ret.
  fold (rx m).
  destruct (process_cases (core m) (rx m) (tx_buffer m) (mo_core _ Hm) Hb) as
    [[Hp _]|[[Hpanic ->]|[(h' & Hp & Hn & _)|(h' & f & c1 & r1 & Hm' & Epc & Hs & Ha)]]].
  - destruct Hc. congruence.
  - by left.
  - destruct Hn. destruct Hc as [Hp' Hl]. split; [congruence|]. rewrite Hp in Hp'. by simplify_eq.
  - assert (h' = h) as -> by (destruct Hc, Hm'; congruence). right. split.
    { intros Hpanic.
      pose proof (panics_process _ _ (tx_buffer m) (mo_core _ Hm) Hb Hpanic). congruence. }
    rewrite Epc, bind_ret. exists f. eexists. split; [reflexivity|]. cbn [fst snd].
    destruct (answered_bound _ _ _ _ _ Ha). rewrite Ht in *.
    constructor.
    + apply wf_tx; [|lia|lia]. apply wf_core; [done|]. apply account_ok, Hs.
    + pose proof (answered_contact h c1 f r1 m Ht Hslot Hn1 Hn2 Ha) as Hr.
      unfold contact_replied, is_pin_entry_active in *. simpl in *.
      by rewrite account_slot, account_secure.
    + simpl. rewrite account_slot. apply Hs.
    + simpl. destruct (st_events _ _ _ _ Hs) as [_ He]. rewrite <- He.
      unfold account. by case_match.
    + done.
Qed.

Lemma slot_step_kept t s failed : t <> PC_TO_RDR_ICC_POWER_ON -> t <> PC_TO_RDR_ICC_POWER_OFF ->
  t <> PC_TO_RDR_XFR_BLOCK -> slot_step true t s failed s.
Proof. by constructor 7. Qed.

(** A command the wrapper answers with a message of its own. *)
Lemma answered_locally h m m1 (failed : bool) ty err sp data :
  contact_wf m -> contact_wf m1 -> complete_message (rx m) h ->
  m1 = m \/ (exists d, m1 = set_driver d m) ->
  (message_type h <> PC_TO_RDR_ICC_POWER_ON /\ message_type h <> PC_TO_RDR_ICC_POWER_OFF /\
   message_type h <> PC_TO_RDR_XFR_BLOCK /\ message_type h <> PC_TO_RDR_SECURE /\
   sets_params (message_type h) = false) ->
  contact_type (message_type h) ty failed = true -> (length data <= 261)%nat ->
  dispatched h m (Ret (set_tx (write_message ty 0 (seq h)
    (build_bstatus (if failed then COMMAND_STATUS_FAILED else COMMAND_STATUS_NO_ERROR)
       (icc_status (slot_state (core m1)))) err sp data (tx_buffer m1)) m1)).
Proof.
  intros Hm Hm1 Hc Hsame (H1 & H2 & H3 & H4 & Hsp) Hty Hd. right.
  split; [by eapply not_panics|]. exists failed. eexists. split; [reflexivity|].
  constructor.
  - by apply wf_send.
  - by apply sent.
  - destruct Hsame as [->|[d ->]]; by apply slot_step_kept.
  - rewrite Hsp, orb_false_r. by destruct Hsame as [->|[d ->]].
  - by destruct Hsame as [->|[d ->]].
Qed.

Ltac other_command E := rewrite E; split_and!; try discriminate; reflexivity.

Lemma icc_clock_spec m h : contact_wf m -> complete_message (rx m) h ->
  message_type h = PC_TO_RDR_ICC_CLOCK -> dispatched h m (Ret (handle_icc_clock (seq h) m)).
Proof.
  intros Hm Hc E1. unfold handle_icc_clock, send_slot_status_with_clock, write_slot_status,
    get_icc_status, current_icc_status. cbv zeta. destruct (negb _) eqn:Ei.
  - apply (answered_locally h m m true); try done; [by left|other_command E1|by rewrite E1|simpl; lia].
  - set (d := sc_set_clock _ _).
    assert (contact_wf (set_driver d m)) as Hd by (apply wf_driver, sc_set_clock_ok, sc_driver; done).
    apply (answered_locally h m (set_driver d m) false); try done;
      [right; by eexists|other_command E1|by rewrite E1|simpl; lia].
Qed.

Lemma set_rate_spec m h : contact_wf m -> complete_message (rx m) h ->
  message_type h = PC_TO_RDR_SET_DATA_RATE_AND_CLOCK_FREQ ->
  dispatched h m (Ret (handle_set_data_rate_and_clock (seq h) m)).
Proof.
  intros Hm Hc E1. unfold handle_set_data_rate_and_clock, send_slot_status,
    send_slot_status_with_clock, write_slot_status, get_icc_status, current_icc_status. cbv zeta.
  destruct (_ <? _)%nat.
  - apply (answered_locally h m m true); try done; [by left|other_command E1|by rewrite E1|simpl; lia].
  - set (clock := from_le32 _ _ _ _). set (rate := from_le32 _ _ _ _).
    pose proof (sc_set_rate_ok (driver m) clock rate (sc_driver m Hm)) as Hd.
    destruct (sc_set_clock_and_rate (driver m) clock rate) as [d r]. simpl in Hd.
    apply (wf_driver d m) in Hd; [|done].
    destruct r as [[actual_clock actual_rate]|e].
    + apply (answered_locally h m (set_driver d m) false); try done;
        [right; by eexists|other_command E1|by rewrite E1|simpl; lia].
    + apply (answered_locally h m (set_driver d m) true); try done;
        [right; by eexists|other_command E1|by rewrite E1|simpl; lia].
Qed.

Lemma escape_spec m h : contact_wf m -> complete_message (rx m) h -> slot h = 0 ->
  message_type h = PC_TO_RDR_ESCAPE -> dispatched h m (handle_escape (seq h) m).
Proof.
  intros Hm Hc Hslot E1. unfold handle_escape, send_err_resp, get_icc_status,
    current_icc_status. cbv zeta. destruct (_ && _); [|destruct (_ && _)].
  - apply (answered_locally h m m false); try done; [by left|other_command E1|by rewrite E1|simpl; lia].
  - apply (answered_locally h m m true); try done; [by left|other_command E1|by rewrite E1|simpl; lia].
  - apply delegate_spec; try done; by rewrite E1.
Qed.

Lemma route_spec m h : contact_wf m -> complete_message (rx m) h -> slot h = 0 ->
  dispatched h m (route (message_type h) (seq h) m).
Proof.
  intros Hm Hc Hslot. unfold route.
  destruct (Z.eqb_spec (message_type h) PC_TO_RDR_ICC_CLOCK) as [E1|N1]; [by apply icc_clock_spec|].
  destruct (Z.eqb_spec (message_type h) PC_TO_RDR_SET_DATA_RATE_AND_CLOCK_FREQ) as [E2|N2];
    [by apply set_rate_spec|].
  destruct (Z.eqb_spec (message_type h) PC_TO_RDR_ESCAPE) as [E3|N3]; [by apply escape_spec|].
  assert ((261 <? declared_length m) = false) as ->.
  { destruct Hc as [Hp _]. rewrite (declared_parse m h Hp).
    pose proof (mo_rx_fits _ Hm) as Hf. unfold unassemblable in Hf. by rewrite Hp in Hf. }
  rewrite andb_false_r. destruct (_ || _) eqn:E4; [|by apply delegate_spec].
  unfold send_err_resp, send_slot_status, send_slot_status_with_clock, write_slot_status,
    get_icc_status, current_icc_status. cbv zeta.
  replace (message_type h =? PC_TO_RDR_ESCAPE) with false by lia.
  apply (answered_locally h m m true); try done; [by left| | |simpl; lia].
  - apply orb_true_iff in E4 as [E4|E4]; apply Z.eqb_eq in E4; other_command E4.
  - apply orb_true_iff in E4 as [E4|E4]; apply Z.eqb_eq in E4; by rewrite E4.
Qed.

Lemma take_response_ok m : contact_ok m -> contact_ok (take_response m).1.
Proof.
  intros [Hm Hev]. split; [|done]. destruct Hm. constructor; simpl; try done; lia.
Qed.

(** What consuming the core's events and the re-init latch leaves alone. *)
Definition same_exchange m m' : Prop :=
  slot_state (core m') = slot_state (core m) /\ secure_state (core m') = secure_state (core m) /\
  rx_buffer m' = rx_buffer m /\ rx_len m' = rx_len m /\ tx_buffer m' = tx_buffer m /\
  tx_len m' = tx_len m /\ cmd_busy m' = cmd_busy m.

Lemma same_exchange_trans m1 m2 m3 :
  same_exchange m1 m2 -> same_exchange m2 m3 -> same_exchange m1 m3.
Proof. unfold same_exchange. intuition congruence. Qed.

Lemma apply_parameters_spec m : contact_wf m ->
  contact_wf (apply_parameters m) /\ same_exchange m (apply_parameters m) /\
  parameters_accepted_event (core (apply_parameters m)) = false.
Proof.
  intros Hm. unfold apply_parameters.
  set (m1 := set_core (take_parameters_accepted (core m)).1 m).
  assert (contact_wf m1) as H1.
  { apply wf_core; [done|]. destruct (mo_core _ Hm). by constructor. }
  destruct (take_parameters_accepted (core m)).2; [|done]. cbv zeta.
  set (m2 := set_driver (sc_set_protocol _ _) m1).
  assert (contact_wf m2) as H2 by (apply wf_driver, sc_set_protocol_ok, sc_driver; done).
  destruct (accepted_contact_timing _);
    (split; [apply wf_driver, sc_set_timing_ok, sc_driver; done|done]).
Qed.

Lemma surface_reinit_spec m : contact_wf m ->
  contact_wf (surface_reinit m) /\ same_exchange m (surface_reinit m) /\
  parameters_accepted_event (core (surface_reinit m)) = parameters_accepted_event (core m).
Proof.
  intros Hm. unfold surface_reinit.
  pose proof (sc_take_reinit_ok (driver m) (sc_driver m Hm)) as Hd.
  destruct (sc_take_reinit_pending (driver m)) as [d pending]. simpl in Hd.
  apply (wf_driver d m) in Hd; [|done]. destruct pending; [|done].
  split; [|done]. apply wf_core; [done|].
  pose proof (sc_reinit_count_ok _ (sc_driver _ Hd)) as Hn.
  pose proof (ok_diagnostics _ (mo_core _ Hd)) as Hdiag.
  destruct (mo_core _ Hd). constructor; try done.
  unfold Diagnostics.wf in *. simpl in *. destruct_and!. by split_and!.
Qed.

Lemma replied_same h m m' failed :
  same_exchange m m' -> contact_replied h m failed -> contact_replied h m' failed.
Proof.
  unfold same_exchange, contact_replied, is_pin_entry_active, get_tx_buffer.
  intros (-> & -> & _ & _ & -> & -> & _). done.
Qed.

Lemma header_fields m h : CcidHeader_parse (rx m) = Some h ->
  arr (rx_buffer m) 0 = message_type h /\ arr (rx_buffer m) 5 = slot h /\
  arr (rx_buffer m) 6 = seq h.
Proof.
  intros Hp. pose proof (parse_Some_length _ _ Hp) as Hl. unfold rx in Hl.
  rewrite length_take in Hl. rewrite !arr_rx by lia. unfold arr.
  unfold CcidHeader_parse in Hp. repeat case_match; try done. by injection Hp as <-.
Qed.

(** [handle_message] on a complete message, by case. *)
Lemma handle_message_cases m h : complete_message (rx m) h ->
  handle_message m =
    if negb (slot h =? 0) then
      Ret (send_slot_status (seq h) COMMAND_STATUS_FAILED ICC_STATUS_NO_ICC 0x05 m)
    else if cmd_busy m then
      Ret (send_slot_status (seq h) COMMAND_STATUS_FAILED (icc_status (slot_state (core m)))
             CCID_ERR_CMD_SLOT_BUSY m)
    else m1 ← route (message_type h) (seq h) (set_busy true m);
         Ret (surface_reinit (apply_parameters m1)).
Proof.
  intros [Hp _]. destruct (header_fields m h Hp) as (E0 & E5 & E6).
  pose proof (parse_Some_length _ _ Hp) as Hl. unfold rx in Hl. rewrite length_take in Hl.
  unfold handle_message, CCID_HEADER_SIZE. replace (rx_len m <? 10)%nat with false by lia.
  by rewrite E0, E5, E6.
Qed.

Lemma handle_message_spec m h :
  contact_ok m -> complete_message (rx m) h ->
  (handle_message m = Panic <->
     slot h = 0 /\ cmd_busy m = false /\ panics (core m) (rx m)) /\
  forall m', handle_message m = Ret m' ->
    contact_ok m' /\ rx m' = rx m /\
    if negb (slot h =? 0) then
      m' = send_slot_status (seq h) COMMAND_STATUS_FAILED ICC_STATUS_NO_ICC 0x05 m
    else if cmd_busy m then
      m' = send_slot_status (seq h) COMMAND_STATUS_FAILED (icc_status (slot_state (core m)))
             CCID_ERR_CMD_SLOT_BUSY m
    else cmd_busy m' = true /\ exists failed,
      slot_step true (message_type h) (slot_state (core m)) failed (slot_state (core m')) /\
      contact_replied h m' failed.
Proof.
  intros [Hm Hev] Hc. rewrite (handle_message_cases m h Hc).
  destruct (Z.eqb_spec (slot h) 0) as [Hs|Hs]; simpl.
  2: { split; [split; [done|by intros (? & _)]|]. intros m' [= <-].
       split; [|done]. split; [by apply wf_send|done]. }
  destruct (cmd_busy m) eqn:Hbusy.
  { split; [split; [done|by intros (_ & ? & _)]|]. intros m' [= <-].
    split; [|done]. split; [by apply wf_send|done]. }
  destruct (route_spec (set_busy true m) h (wf_busy true m Hm) Hc Hs) as
    [[-> Hp]|[Hn (failed & m1 & -> & [Hwf Hr Hslot He (Hb & Hl & Hbu & _)])]]; [done|].
  split; [split; [done|by intros (_ & _ & ?)]|]. intros m' [= <-].
  destruct (apply_parameters_spec m1 Hwf) as (Hwf2 & Hsame2 & Hev2).
  destruct (surface_reinit_spec _ Hwf2) as (Hwf3 & Hsame3 & Hev3).
  pose proof (same_exchange_trans _ _ _ Hsame2 Hsame3) as Hsame.
  pose proof (replied_same h _ _ failed Hsame Hr) as Hr3.
  destruct Hsame as (S1 & _ & S3 & S4 & _ & _ & S7).
  split; [split; [done|by rewrite Hev3]|].
  split; [unfold rx; by rewrite S3, S4, Hb, Hl|].
  split; [by rewrite S7, Hbu|]. exists failed. split; [by rewrite S1|done].
Qed.

(** The answer of an executed command is missing only for an armed PIN session or
    for a card with more than 261 bytes to say. *)
Lemma handle_message_silent m h m' :
  contact_ok m -> complete_message (rx m) h -> slot h = 0 -> cmd_busy m = false ->
  dw_length h <= 261 -> Z.of_nat (length (rx m)) = 10 + dw_length h ->
  handle_message m = Ret m' -> tx_len m' = 0%nat ->
  message_type h = PC_TO_RDR_SECURE /\ is_pin_entry_active (core m') = true \/
  (261 < said h (rx m) (core m))%nat.
Proof.
  intros Hm Hc Hs Hb Hd Hlen E1 Htx. destruct (handle_message_spec m h Hm Hc) as [_ Hret].
  destruct (Hret m' E1) as (_ & _ & Hr). rewrite Hs, Hb in Hr. destruct Hr as (_ & failed & _ & Hr).
  destruct Hr as [(_ & _ & [?|Ht])|(hdr & Hp & Hl & _)]; [by left| |].
  2: { apply parse_Some_length in Hp. unfold get_tx_buffer in Hp. rewrite length_take in Hp. lia. }
  right. rewrite (handle_message_cases m h Hc), Hs, Hb in E1. cbn [Z.eqb negb] in E1.
  destruct (route _ _ _) as [m1|] eqn:Er; [|done]. rewrite bind_ret in E1. injection E1 as <-.
  destruct Hm as [Hm _]. pose proof (wf_busy true m Hm) as Hm1.
  assert (contact_wf m1) as Hw1.
  { destruct (route_spec (set_busy true m) h Hm1 Hc Hs) as [[Ex _]|[_ (f & m2 & Ex & Hro)]]; [congruence|].
    rewrite Er in Ex. injection Ex as <-. apply Hro. }
  destruct (apply_parameters_spec m1 Hw1) as (Hwf2 & (_ & _ & _ & _ & _ & T2 & _) & _).
  destruct (surface_reinit_spec _ Hwf2) as (_ & (_ & _ & _ & _ & _ & T3 & _) & _).
  rewrite T3, T2 in Htx. clear T2 T3 Hwf2.
  assert (declared_length (set_busy true m) = dw_length h) as Hdl.
  { apply declared_parse, Hc. }
  revert Er. unfold route. rewrite Hdl. replace (261 <? dw_length h) with false by lia. rewrite andb_false_r.
  replace (delegate_to_core (set_busy true m)) with
    (r ← process_command (core m) (rx m) (tx_buffer m); Ret (set_tx r.2 (set_core r.1 (set_busy true m)))).
  2: { unfold delegate_to_core. rewrite slice_prefix by (destruct Hm; cbn; lia). by rewrite bind_ret. }
  assert (forall m1, (r ← process_command (core m) (rx m) (tx_buffer m); Ret (set_tx r.2 (set_core r.1 (set_busy true m)))) = Ret m1 ->
    tx_len m1 = 0%nat -> (261 < said h (rx m) (core m))%nat) as Hdel.
  { intros m2. destruct (process_command _ _ _) as [[c' [b n]]|] eqn:Ep; [|done]. rewrite bind_ret.
    intros [= <-]. cbn. intros ->.
    apply (process_silent (core m) (rx m) (tx_buffer m) h c' b); try done; [by apply rx_bytes|unfold u32_max; lia|
      apply (mo_tx_length _ Hm)|]. unfold payload_of. rewrite length_take, length_drop. lia. }
  destruct Ht as [-> | ->]; cbn; intros Er; exact (Hdel m1 Er Htx).
Qed.

(** Every message behind USB is answered, once.  On a complete message the
    handler panics exactly when the core would (slot 0, not busy: a PIN modify
    structure of 11 to 13 bytes); otherwise it keeps its invariant and the
    received bytes, and either refuses a foreign slot or a second command
    before the first one's answer was taken (the core untouched), or executes
    the command: the slot moves by the core's slot machine, the handler is
    busy, and the answer is one well-formed message of the command's type with
    its sequence number, the outcome and the slot's state.  Taking the answer
    frees the handler for the next message. *)
Theorem contact_answers m h :
  contact_ok m -> complete_message (rx m) h ->
  (handle_message m = Panic <->
     slot h = 0 /\ cmd_busy m = false /\ panics (core m) (rx m)) /\
  forall m', handle_message m = Ret m' ->
    contact_ok m' /\ rx m' = rx m /\
    if negb (slot h =? 0) then
      m' = send_slot_status (seq h) COMMAND_STATUS_FAILED ICC_STATUS_NO_ICC 0x05 m
    else if cmd_busy m then
      m' = send_slot_status (seq h) COMMAND_STATUS_FAILED (icc_status (slot_state (core m)))
             CCID_ERR_CMD_SLOT_BUSY m
    else cmd_busy m' = true /\ exists failed,
      slot_step true (message_type h) (slot_state (core m)) failed (slot_state (core m')) /\
      contact_replied h m' failed /\
      rx (take_response m').1 = [] /\ cmd_busy (take_response m').1 = false /\
      contact_ok (take_response m').1 /\ (take_response m').2 = get_tx_buffer m'.
Proof.
  intros Hm Hc. destruct (handle_message_spec m h Hm Hc) as [Hp Hr]. split; [done|].
  intros m' E1. destruct (Hr m' E1) as (Hok & Hrx & Hcase). split; [done|]. split; [done|].
  destruct (negb _); [done|]. destruct (cmd_busy m); [done|].
  destruct Hcase as (Hb & failed & Hs & Hrep). split; [done|]. exists failed.
  split_and!; try done. by apply take_response_ok.
Qed.
End Answers.

(** ** Accepted parameters re-program the smartcard interface *)
Section Parameters.
Context {D E : Type} `{!SmartcardDriver D E, !SmartcardLaws D E}.
Implicit Types m : CcidMessageHandler D.

(** A delegated command, known in full. *)
Lemma handle_delegated m t q sp payload c1 r :
  contact_ok m -> cmd_busy m = false -> rx m = command t 0 q sp payload ->
  u8 t -> u8 q -> small payload ->
  (t =? PC_TO_RDR_SET_PARAMETERS) || (t =? PC_TO_RDR_RESET_PARAMETERS) = true ->
  process_command (core m) (rx m) (tx_buffer m) = Ret (c1, r) ->
  handle_message m = Ret (surface_reinit (apply_parameters (set_tx r (set_core c1 (set_busy true m))))).
Proof.
  intros [Hm _] Hbusy Hrx Ht Hq Hs Hty Hp.
  assert (complete_message (rx m) (command_header t 0 q sp payload)) as Hc
    by (rewrite Hrx; by apply complete_command).
  rewrite (handle_message_cases m _ Hc), Hbusy. cbn [slot command_header message_type seq].
  change (negb (0 =? 0)) with false. cbv iota.
  assert (route t q (set_busy true m) = delegate_to_core (set_busy true m)) as ->.
  { unfold route, PC_TO_RDR_ICC_CLOCK, PC_TO_RDR_SET_DATA_RATE_AND_CLOCK_FREQ, PC_TO_RDR_ESCAPE,
      PC_TO_RDR_XFR_BLOCK, PC_TO_RDR_T0_APDU, PC_TO_RDR_MECHANICAL,
      PC_TO_RDR_SET_PARAMETERS, PC_TO_RDR_RESET_PARAMETERS in *.
    apply orb_true_iff in Hty as [E1|E1]; apply Z.eqb_eq in E1; subst t; reflexivity. }
  unfold delegate_to_core. rewrite slice_prefix by (destruct Hm; simpl; lia). rewrite bind_ret.
  cbn [core rx_buffer rx_len tx_buffer set_busy]. fold (rx m). by rewrite Hp.
Qed.

(** Parameters the contact reader refuses change nothing. *)
Lemma refuse_dispatch c p raw s q buf :
  valid_params p raw = false -> small raw ->
  let h := command_header PC_TO_RDR_SET_PARAMETERS s q (p, 0, 0) raw in
  exists ty err sp, dispatch (E := E) (D := SmartcardCoreAdapter D) c h raw buf =
    Ret (c, write_message ty s q (build_bstatus COMMAND_STATUS_FAILED (current_icc_status c))
              err sp [] buf).
Proof.
  intros Hv Hs h.
  change (dispatch c h raw buf) with (handle_set_parameters c h raw buf).
  unfold handle_set_parameters. cbn [CONTACT ContactProfile].
  unfold handle_set_parameters_contact. cbn [dw_length h command_header].
  unfold valid_params in Hv. cbv zeta.
  assert ((length raw <= 7)%nat ->
    slice raw 0 ((Z.to_nat (Z.of_nat (length raw)) `min` 7) `min` length raw)%nat = Ret raw /\
    copy_at (replicate 7 0) 0 raw = Ret (pad7 raw)) as Hsrc.
  { intros Hle. rewrite Nat2Z.id.
    replace ((length raw `min` 7) `min` length raw)%nat with (length raw) by lia.
    rewrite slice_prefix, firstn_all by done. split; [done|].
    pose proof (copy_at_replicate [] raw 7 0) as Ecopy. cbn [app length] in Ecopy.
    by rewrite Ecopy. }
  change (specific0 h) with p.
  destruct (Z.eqb_spec (Z.of_nat (length raw)) 5) as [H5|H5];
    [|destruct (Z.eqb_spec (Z.of_nat (length raw)) 7) as [H7|H7]; [|by eexists _, _, _]].
  - destruct Hsrc as [E1 E2]; [lia|]. rewrite E1, bind_ret, E2, bind_ret.
    rewrite !arr_pad7 by lia.
    replace (length raw =? 7)%nat with false in Hv by lia.
    replace (length raw =? 5)%nat with true in Hv by lia.
    destruct (Z.eqb_spec p 0) as [->|]; simpl in *; [rewrite Hv; by eexists _, _, _|by eexists _, _, _].
  - destruct Hsrc as [E1 E2]; [lia|]. rewrite E1, bind_ret, E2, bind_ret.
    rewrite !arr_pad7 by lia.
    replace (length raw =? 7)%nat with true in Hv by lia.
    destruct (Z.eqb_spec p 1) as [->|]; simpl in *; [rewrite Hv; by eexists _, _, _|by eexists _, _, _].
Qed.

(** The interface as the handler leaves it: programmed, if parameters were
    accepted, and the re-init latch consumed. *)
Definition programmed (timing : option (Z * Z * Z * Z)) (d : D) : D :=
  let d := match timing with
           | Some (p, fi, di, n) => sc_set_wire_timing (sc_set_protocol d p) fi di n
           | None => d
           end in
  (sc_take_reinit_pending d).1.

Lemma driver_surface m : driver (surface_reinit m) = (sc_take_reinit_pending (driver m)).1.
Proof. unfold surface_reinit. by destruct (sc_take_reinit_pending (driver m)) as [d []]. Qed.

Lemma driver_apply m :
  driver (apply_parameters m) =
    if parameters_accepted_event (core m) then
      let d := sc_set_protocol (driver m) (current_protocol (core m)) in
      match accepted_contact_timing (core m) with
      | Some t => sc_set_wire_timing d (wt_fi t) (wt_di t) (wt_guard_time_n t)
      | None => sc_set_wire_timing d 0 0 0
      end
    else driver m.
Proof.
  unfold apply_parameters. cbn [take_parameters_accepted fst snd core set_core].
  destruct (parameters_accepted_event _); [|done].
  unfold accepted_contact_timing. simpl. by destruct (host_params _) as [[p raw]|].
Qed.

(** A message whose core command is known: its answer and the interface. *)
Lemma handle_parameters m t q sp payload c1 r :
  contact_ok m -> cmd_busy m = false -> rx m = command t 0 q sp payload ->
  u8 t -> u8 q -> small payload ->
  (t =? PC_TO_RDR_SET_PARAMETERS) || (t =? PC_TO_RDR_RESET_PARAMETERS) = true ->
  process_command (core m) (rx m) (tx_buffer m) = Ret (c1, r) ->
  exists m', handle_message m = Ret m' /\ get_tx_buffer m' = take r.2 r.1 /\
    driver m' =
      programmed (if parameters_accepted_event c1 then
                    Some (match accepted_contact_timing c1 with
                          | Some t => (current_protocol c1, wt_fi t, wt_di t, wt_guard_time_n t)
                          | None => (current_protocol c1, 0, 0, 0)
                          end)
                  else None) (CardAdapter.driver (nfc c1)).
Proof.
  intros Hm Hbusy Hrx Ht Hq Hs Hty Hp.
  rewrite (handle_delegated m t q sp payload c1 r) by done. eexists. split; [done|].
  set (m1 := set_tx r (set_core c1 (set_busy true m))).
  split.
  - unfold surface_reinit, apply_parameters.
    destruct (take_parameters_accepted _).2; [destruct (accepted_contact_timing _)|];
      destruct (sc_take_reinit_pending _) as [d []]; done.
  - rewrite driver_surface, driver_apply. unfold programmed. cbn [core set_tx set_core m1].
    destruct (parameters_accepted_event c1); [|done].
    by destruct (accepted_contact_timing c1).
Qed.

Lemma parameters_command m t q p raw :
  contact_wf m -> rx m = command t 0 q (p, 0, 0) raw ->
  small raw /\ length (tx_buffer m) = 271%nat /\
  process_command (core m) (rx m) (tx_buffer m) =
    (r ← dispatch (core m) (command_header t 0 q (p, 0, 0) raw) raw (tx_buffer m);
     account_failure r).
Proof.
  intros Hm Hrx. assert (small raw) as Hs.
  { assert (length (rx m) <= 271)%nat as Hl
      by (unfold rx; rewrite length_take; destruct Hm; lia).
    rewrite Hrx in Hl. unfold command in Hl. rewrite length_app in Hl. unfold small. lia. }
  split; [done|]. split; [apply Hm|]. rewrite Hrx.
  apply process_built; [rewrite <- Hrx; by apply rx_bytes|done].
Qed.

(** The interface follows the accepted parameters, and only those.  A valid
    SetParameters (T=0 or T=1) is echoed, and the smartcard interface is then
    switched to its protocol with exactly the Fi, Di and guard time of its
    bytes; ResetParameters switches it to T=0 with the default guard time and
    leaves the rate alone; a SetParameters the reader refuses touches nothing
    on the interface. *)
Theorem parameters_program_interface m q p raw :
  contact_ok m -> cmd_busy m = false -> u8 q -> u8 p -> bytes raw ->
  (rx m = command PC_TO_RDR_SET_PARAMETERS 0 q (p, 0, 0) raw ->
     exists m', handle_message m = Ret m' /\
     if valid_params p raw then
       get_tx_buffer m' = params_reply 0 q p (icc_status (slot_state (core m))) raw /\
       driver m' = programmed (Some (p, fi_from_ta1_high (Z.shiftr (arr raw 0) 4),
                                     di_from_ta1_low (Z.land (arr raw 0) 0x0F), arr raw 2))
                     (driver m)
     else driver m' = programmed None (driver m)) /\
  (rx m = command PC_TO_RDR_RESET_PARAMETERS 0 q (p, 0, 0) [] ->
     exists m', handle_message m = Ret m' /\
     get_tx_buffer m' = params_reply 0 q 0 (icc_status (slot_state (core m))) [0x11; 0; 0; 0; 0] /\
     driver m' = programmed (Some (0, 0, 0, 0)) (driver m)).
Proof.
  intros Hok Hbusy Hq Hp8 Hb. pose proof Hok as [Hwf Hev]. split; intros Hrx.
  - destruct (parameters_command m _ q p raw Hwf Hrx) as (Hs & Ht & Ep).
    destruct (valid_params p raw) eqn:Hv.
    + pose proof (valid_params_length p raw Hv).
      pose proof (accept_dispatch (core m) p raw 0 q (tx_buffer m) Hv (or_introl eq_refl)) as Ed.
      cbv zeta in Ed. rewrite Ed in Ep.
      destruct (write_host_parameters (accepted (core m) p raw) p raw
        (command_header PC_TO_RDR_SET_PARAMETERS 0 q (p, 0, 0) raw) (tx_buffer m))
        as (r & Er & Hreply); [by apply host_payload; auto|done|lia|].
      rewrite Er in Ep.
      destruct (handle_parameters m PC_TO_RDR_SET_PARAMETERS q (p, 0, 0) raw _ _ Hok Hbusy Hrx
        ltac:(done) Hq Hs eq_refl Ep) as (m' & E1 & E2 & E3).
      exists m'. split; [done|]. split; [by rewrite E2, Hreply|]. rewrite E3.
      cbn [accepted CONTACT ContactProfile parameters_accepted_event accepted_contact_timing
           host_params set_atr_params set_parameters_accepted set_host_params
           set_current_protocol current_protocol wt_fi wt_di wt_guard_time_n nfc].
      by rewrite !arr_pad7 by lia.
    + destruct (refuse_dispatch (core m) p raw 0 q (tx_buffer m) Hv Hs) as (ty & err & sp & Er).
      rewrite Er, bind_ret, (account_message _ _ _ _ true) in Ep by (apply icc_range || simpl; lia).
      destruct (handle_parameters m PC_TO_RDR_SET_PARAMETERS q (p, 0, 0) raw _ _ Hok Hbusy Hrx
        ltac:(done) Hq Hs eq_refl Ep) as (m' & E1 & _ & E3).
      exists m'. split; [done|]. rewrite E3. simpl. by rewrite Hev.
  - destruct (parameters_command m _ q p [] Hwf Hrx) as (_ & Ht & Ep).
    destruct (write_host_parameters
      (set_parameters_accepted true (set_host_params None (set_current_protocol 0
         (set_atr_params AtrParams_default (core m))))) 0 [0x11; 0; 0; 0; 0]
      (command_header PC_TO_RDR_RESET_PARAMETERS 0 q (p, 0, 0) []) (tx_buffer m))
      as (r & Er & Hreply); [done|done|simpl; lia|].
    assert (process_command (core m) (rx m) (tx_buffer m) =
      Ret (set_parameters_accepted true (set_host_params None (set_current_protocol 0
         (set_atr_params AtrParams_default (core m)))), r)) as Ep'
      by (rewrite Ep; exact Er).
    destruct (handle_parameters m PC_TO_RDR_RESET_PARAMETERS q (p, 0, 0) [] _ _ Hok Hbusy Hrx
      ltac:(done) Hq ltac:(done) eq_refl Ep') as (m' & E1 & E2 & E3).
    exists m'. split; [done|]. split; [by rewrite E2, Hreply|]. by rewrite E3.
Qed.
End Parameters.

(** ** Presence, construction and the announced profile *)
Section Lifecycle.
Context {D E : Type} `{!SmartcardDriver D E, !SmartcardLaws D E}.
Implicit Types m : CcidMessageHandler D.

Lemma contact_new_ok d vid b : sc_ok d -> contact_ok (Contact.new d vid b).
Proof.
  intros Hd. unfold Contact.new.
  set (c := with_diagnostics_fold _ _).
  assert (core_ok c) as Hc.
  { assert (core_ok (with_profile (mkCardAdapter d None) [] (vid =? PIN_PAD_VENDOR_ID))) as H
      by (apply with_profile_ok; [exact Hd|apply Forall_nil; done|simpl; lia]).
    destruct H. by constructor. }
  split.
  - constructor; cbn [core rx_buffer rx_len tx_buffer tx_len uptime].
    + by apply check_card_change_ok.
    + apply length_replicate.
    + by apply Forall_replicate.
    + lia.
    + reflexivity.
    + apply length_replicate.
    + lia.
    + destruct b; vm_compute; intuition congruence.
  - cbn [core]. subst c. unfold check_card_change. simpl.
    by destruct (CardAdapter.is_card_present _).
Qed.

Lemma check_card_presence_ok m : contact_ok m ->
  contact_ok (check_card_presence m).1 /\ tx_len (check_card_presence m).1 = tx_len m.
Proof.
  intros [Hm Hev]. pose proof (check_card_change_ok _ (mo_core _ Hm)) as Hc.
  assert (parameters_accepted_event (check_card_change (core m)).1 = false) as Hev'.
  { unfold check_card_change. simpl. rewrite <- Hev. by repeat case_match. }
  unfold check_card_presence. destruct (check_card_change (core m)) as [c ch]. cbn [fst] in *.
  pose proof (wf_core c m Hm Hc) as [].
  destruct ch; [destruct (negb _)|]; (split; [split; [|done]|done]);
    constructor; simpl in *; try done; lia.
Qed.

(** Removing the card ends whatever was going on.  The presence poll that
    finds the slot empty powers the driver down, drops the half-received
    message, the pending PIN results and the PIN session, and frees the
    handler for the next command; a poll that finds no change changes no part
    of the exchange. *)
Theorem removal_resets_exchange m :
  contact_ok m ->
  let now := is_card_present m in
  let r := check_card_presence m in
  contact_ok r.1 /\
  (now = present (core m) -> r.2 = None /\ same_exchange m r.1 /\ driver r.1 = driver m) /\
  (now <> present (core m) -> r.2 = Some true /\ present (core r.1) = now) /\
  (now = false -> present (core m) = true ->
     slot_state (core r.1) = Absent /\ driver r.1 = sc_power_off (driver m) /\
     rx r.1 = [] /\ cmd_busy r.1 = false /\ is_pin_entry_active (core r.1) = false /\
     Contact.process_pin_result r.1 = Ret r.1 /\
     Contact.process_pin_modify_result r.1 = Ret r.1).
Proof.
  intros [Hm Hev] now r. pose proof (check_card_change_ok _ (mo_core _ Hm)) as Hc.
  unfold r, check_card_presence. unfold is_card_present in now.
  destruct (check_card_change (core m)) as [c ch] eqn:Ecc. cbn [fst snd] in *.
  unfold check_card_change in Ecc. simpl in Ecc. fold now in Ecc. subst r.
  destruct now eqn:En, (present (core m)) eqn:Ep; simpl in Ecc; injection Ecc as Ec Ech; subst ch.
  all: apply (wf_core c m) in Hc; [|done]; cbn [core set_core].
  all: assert (parameters_accepted_event c = false) as Hev' by (by subst c).
  all: assert (present c = now) as Hpc by (subst c; simpl; congruence).
  all: rewrite ?Hpc, ?En; simpl.
  - split; [done|]. split; [intros _; subst c; done|]. split; done.
  - split; [done|]. split; [done|]. split; [intros _; split; [done|by subst c]|]. done.
  - split.
    { split; [|done]. destruct Hc; constructor; simpl in *; try done; lia. }
    split; [done|]. split; [intros _; split; [done|by subst c]|]. intros _ _. by subst c.
  - split; [done|]. split; [intros _; subst c; done|]. split; done.
Qed.

(** The reader can do what its descriptor announces.  A handler built for
    any of the three profiles starts in its invariant; it offers the PIN
    commands exactly when the profile announces a PIN pad; and every message
    up to the announced dwMaxCCIDMessageLength fits its reassembly buffer. *)
Theorem profile_honoured p d b :
  In p Profile.profiles -> sc_ok d ->
  let m := Contact.new d (Profile.vendor_id p) b in
  contact_ok m /\ pin_pad (core m) = Profile.has_pin_pad p /\
  forall msg h, complete_message msg h ->
    10 + dw_length h <= Profile.max_ccid_message_length p ->
    unassemblable msg = false /\
    (Z.of_nat (length msg) = 10 + dw_length h -> (length msg <= 271)%nat).
Proof.
  intros Hp Hd m. split; [by apply contact_new_ok|].
  assert (pin_pad (core m) = (Profile.vendor_id p =? PIN_PAD_VENDOR_ID)) as ->.
  { unfold m, Contact.new. cbn [core]. unfold check_card_change. simpl.
    by destruct (CardAdapter.is_card_present _). }
  assert (Profile.max_ccid_message_length p <= 271 /\
          (Profile.vendor_id p =? PIN_PAD_VENDOR_ID) = Profile.has_pin_pad p) as [Hmax Hpin].
  { repeat (destruct Hp as [<-|Hp]; [vm_compute; split; [discriminate|reflexivity]|]). done. }
  split; [done|]. intros msg h [Hparse _] Hl. split; [|lia].
  unfold unassemblable. rewrite Hparse. lia.
Qed.
End Lifecycle.

Lemma feeds_ok {D E} `{!SmartcardDriver D E, !SmartcardLaws D E} (m m' : CcidMessageHandler D) ps :
  contact_ok m -> Forall bytes ps -> feeds ps m = Ret m' -> contact_ok m'.
Proof.
  intros [Hm Hev] Hb E1. destruct (feeds_spec ps m Hm Hb) as (m1 & E2 & Hm1 & _ & Hs).
  rewrite E1 in E2. injection E2 as <-. split; [done|]. by rewrite Hs.
Qed.

(** ** Witnesses *)
Module ContactDemo.
Definition card : CardMock.MockSmartcardDriver :=
  CardMock.new true [0x3B; 0x00] [[0x90; 0x00]].
Definition idle : CcidMessageHandler CardMock.MockSmartcardDriver :=
  Contact.new card 0x046A HostBuild.
Definition must (o : outcome (CcidMessageHandler CardMock.MockSmartcardDriver)) :=
  match o with Ret m => m | Panic => idle end.
Definition received (msg : list Z) := must (feeds [take 7 msg; drop 7 msg] idle).
Definition power_on : list Z := command PC_TO_RDR_ICC_POWER_ON 0 9 (1, 0, 0) [].
Definition set_t1 : list Z :=
  command PC_TO_RDR_SET_PARAMETERS 0 9 (1, 0, 0) [0x18; 0x00; 0x02; 0x4D; 0; 0xFE; 0].
Definition oversized : list Z := [0x6F; 0xFA; 0xFF; 0xFF; 0xFF; 0; 1; 0; 0; 0].
End ContactDemo.

Lemma idle_ok : contact_ok ContactDemo.idle.
Proof.
  apply contact_new_ok. repeat split; try (repeat constructor; lia); vm_compute; discriminate.
Qed.

Lemma cut_bytes msg : bytes msg -> Forall bytes [take 7 msg; drop 7 msg].
Proof.
  intros Hb. do 2 (apply Forall_cons; split; [auto with bytes|]). by apply Forall_nil.
Qed.

Lemma received_ok msg : bytes msg -> contact_ok (ContactDemo.received msg).
Proof.
  intros Hb. unfold ContactDemo.received.
  destruct (feeds _ _) as [m|] eqn:E1; [|apply idle_ok].
  by apply (feeds_ok _ _ _ idle_ok (cut_bytes msg Hb) E1).
Qed.

Example contact_reassembly_witness :
  (exists m', feeds ([take 7 ContactDemo.power_on] ++ [drop 7 ContactDemo.power_on])
                ContactDemo.idle = Ret m' /\ message_ready m' = true) /\
  (exists m', feeds ([] ++ [ContactDemo.oversized]) ContactDemo.idle = Ret m' /\ rx m' = []).
Proof.
  split.
  - destruct (contact_reassembly ContactDemo.idle [take 7 ContactDemo.power_on]
      (drop 7 ContactDemo.power_on)) as (m' & E1 & _ & _ & Hs & _);
      [apply idle_ok|reflexivity|apply (cut_bytes ContactDemo.power_on); solve_bytes|].
    exists m'. split; [exact E1|]. apply Hs; [vm_compute; lia|reflexivity|].
    eexists. split; [reflexivity|]. vm_compute. discriminate.
  - destruct (contact_reassembly ContactDemo.idle [] ContactDemo.oversized)
      as (m' & E1 & _ & _ & _ & Hs); [apply idle_ok|reflexivity|apply Forall_cons; split;
        [solve_bytes|by apply Forall_nil]|].
    exists m'. split; [exact E1|]. apply Hs; [simpl; lia|reflexivity].
Defined.

Example contact_answers_witness :
  exists m', handle_message (ContactDemo.received ContactDemo.power_on) = Ret m' /\
    contact_ok m' /\ cmd_busy m' = true /\ slot_state (core m') = PresentActive.
Proof.
  set (m := ContactDemo.received ContactDemo.power_on).
  destruct (contact_answers m (command_header PC_TO_RDR_ICC_POWER_ON 0 9 (1, 0, 0) []))
    as [_ H].
  - apply received_ok. solve_bytes.
  - vm_compute. split; [reflexivity|discriminate].
  - destruct (handle_message m) as [m'|] eqn:E1; [|vm_compute in E1; discriminate].
    destruct (H m' eq_refl) as (Hok & _ & Hb). exists m'. split; [reflexivity|].
    split; [exact Hok|]. split; [exact (proj1 Hb)|].
    vm_compute in E1. injection E1 as <-. reflexivity.
Defined.

Example parameters_program_interface_witness :
  exists m', handle_message (ContactDemo.received ContactDemo.set_t1) = Ret m' /\
    CardMock.call_log (driver m') =
      [CardMock.SetProtocol 1; CardMock.SetWireTiming 372 12 2].
Proof.
  set (m := ContactDemo.received ContactDemo.set_t1).
  destruct (parameters_program_interface m 9 1 [0x18; 0x00; 0x02; 0x4D; 0; 0xFE; 0]) as [H _];
    [apply received_ok; solve_bytes|reflexivity|vm_compute; intuition congruence..|solve_bytes|].
  destruct H as (m' & E1 & H); [reflexivity|]. exists m'. split; [exact E1|].
  assert (valid_params 1 [0x18; 0x00; 0x02; 0x4D; 0; 0xFE; 0] = true) as Ev by reflexivity.
  rewrite Ev in H. destruct H as [_ ->]. vm_compute. reflexivity.
Defined.

Example removal_resets_exchange_witness :
  let m := Contact.set_busy true (ContactDemo.received ContactDemo.power_on) in
  let gone := set_driver (CardMock.new false [] []) m in
  (check_card_presence gone).2 = Some true /\ cmd_busy (check_card_presence gone).1 = false.
Proof.
  intros m gone. assert (contact_ok gone) as Hok.
  { destruct (received_ok ContactDemo.power_on ltac:(solve_bytes)) as [Hm Hev].
    split; [|reflexivity]. apply wf_driver; [by apply wf_busy|].
    split; [apply Forall_nil; exact I|split; [apply Forall_nil; exact I|]].
    vm_compute. split; [discriminate|reflexivity]. }
  destruct (removal_resets_exchange gone Hok) as (_ & _ & H1 & H2).
  split; [apply H1; vm_compute; discriminate|].
  apply H2; vm_compute; reflexivity.
Defined.

Example profile_honoured_witness :
  pin_pad (core (Contact.new ContactDemo.card
    (Profile.vendor_id Profile.PROFILE_GEMALTO_IDBRIDGE_K30) F469)) = false.
Proof.
  destruct (profile_honoured Profile.PROFILE_GEMALTO_IDBRIDGE_K30 ContactDemo.card F469)
    as (_ & E1 & _).
  - right. right. left. reflexivity.
  - repeat split; try (repeat constructor; lia); vm_compute; discriminate.
  - rewrite E1. reflexivity.
Defined.
