(* ===== verification/UsbClass.v ===== *)
(** * The USB CCID class

    [ccid-firmware/src/ccid.rs]: the transport of the contact readers over the
    bulk endpoints.  The endpoints belong to the [usb-device] crate: what a
    read or a write answers is an argument of the operations, and the packets
    handed to the bulk IN endpoint are part of their result.  Logging and the
    configuration descriptor's writer are not modelled.  The theorems are in
    [UsbSpec.v]. *)
From Stdlib Require Import ZArith Lia ZifyBool.
From stdpp Require Import prelude.
From S2P Require Import Prelude Wire Handler DeviceProfile ContactHandler.
Import Contact.
Local Open Scope Z_scope.

Module Usb.

Definition PACKET_SIZE : nat := 64.
Definition REQUEST_ABORT : Z := 0x01.
Definition REQUEST_GET_CLOCK_FREQUENCIES : Z := 0x02.
Definition REQUEST_GET_DATA_RATES : Z := 0x03.

(** What an endpoint answers. *)
Inductive UsbError := WouldBlock | BusError.
Definition written : Type := result nat UsbError.
Definition received : Type := result (list Z) UsbError.

Record CcidClass (D : Type) := mkClass {
  handler : CcidMessageHandler D;
  tx_offset : nat;
  tx_pending : bool;
  needs_zlp : bool
}.
Arguments mkClass {D}.
Arguments handler {D} _.
Arguments tx_offset {D} _.
Arguments tx_pending {D} _.
Arguments needs_zlp {D} _.

(** ** Class-specific control requests *)
Inductive ControlReply := NotForUs | AcceptWith (bs : list Z) | Accept | Reject.

Definition control_in (p : Profile.DeviceProfile) (interface index : Z) (is_class : bool)
    (request : Z) : ControlReply :=
  if negb (wrap8 index =? interface) then NotForUs
  else if negb is_class then NotForUs
  else if request =? REQUEST_GET_CLOCK_FREQUENCIES
       then AcceptWith (to_le32 (Profile.default_clock_khz p))
  else if request =? REQUEST_GET_DATA_RATES
       then AcceptWith (to_le32 (Profile.default_data_rate p))
  else Reject.

Definition control_out (interface index : Z) (is_class : bool) (request : Z) : ControlReply :=
  if negb (wrap8 index =? interface) then NotForUs
  else if negb is_class then NotForUs
  else if request =? REQUEST_ABORT then Accept else Reject.

Section Usb.
Context {D E : Type} `{!SmartcardDriver D E}.
Implicit Types u : CcidClass D.

Definition new (d : D) (p : Profile.DeviceProfile) (b : Build) : CcidClass D :=
  mkClass (Contact.new d (Profile.vendor_id p) b) 0 false false.

Definition with_handler m u : CcidClass D :=
  mkClass m (tx_offset u) (tx_pending u) (needs_zlp u).

(** The end of a response, or of the attempt to send one. *)
Definition finish (zlp : bool) u : CcidClass D :=
  mkClass (take_response (handler u)).1 0 false zlp.

(** [try_send], with what the bulk IN endpoint answers if it is written to:
    the class afterwards and the packet that was handed to the endpoint. *)
Definition try_send (w : written) u : outcome (CcidClass D * option (list Z)) :=
  if needs_zlp u then
    Ret (match w with
         | Err WouldBlock => u
         | _ => mkClass (handler u) (tx_offset u) (tx_pending u) false
         end, Some [])
  else if negb (tx_pending u) then Ret (u, None)
  else
    let tx_data := get_tx_buffer (handler u) in
    let remaining := wrap32 (Z.of_nat (length tx_data) - Z.of_nat (tx_offset u)) in
    let chunk_size := Z.to_nat (Z.min remaining (Z.of_nat PACKET_SIZE)) in
    chunk ← slice tx_data (tx_offset u) (tx_offset u + chunk_size);
    Ret (match w with
         | Ok n =>
             if (length tx_data <=? tx_offset u + n)%nat
             then finish (length tx_data mod PACKET_SIZE =? 0)%nat u
             else mkClass (handler u) (tx_offset u + n) (tx_pending u) (needs_zlp u)
         | Err WouldBlock => u
         | Err BusError => finish (needs_zlp u) u
         end, Some chunk).

(** The read half of [poll]. *)
Definition receive (r : received) u : outcome (CcidClass D) :=
  match r with
  | Ok data =>
      m ← feed data (handler u);
      if message_ready m
      then m ← handle_message m; Ret (mkClass m 0 true (needs_zlp u))
      else Ret (with_handler m u)
  | Err _ => Ret u
  end.

(** [poll]: the notification on the interrupt endpoint and the two packets
    offered to the bulk IN endpoint. *)
Definition poll (now_cycles : Z) (w1 : written) (r : received) (w2 : written) u :
    outcome (CcidClass D * (option (list Z) * option (list Z) * option (list Z))) :=
  m ← poll_diagnostics now_cycles (handler u);
  let '(m, changed) := check_card_presence m in
  let u := with_handler m u in
  let notification :=
    match changed with
    | Some true => Some (notify_slot_change_bytes (is_card_present m) true)
    | _ => None
    end in
  s1 ← try_send w1 u;
  u ← receive r s1.1;
  s2 ← try_send w2 u;
  Ret (s2.1, (notification, s1.2, s2.2)).

(** [endpoint_in_complete] *)
Definition endpoint_in_complete (is_ep_in : bool) (w : written) u :
    outcome (CcidClass D * option (list Z)) :=
  if is_ep_in then try_send w u else Ret (u, None).

(** The PIN seam of the display build's main loop. *)
Definition process_pin_result u : outcome (CcidClass D) :=
  m ← Contact.process_pin_result (handler u); Ret (with_handler m u).
Definition process_pin_modify_result u : outcome (CcidClass D) :=
  m ← Contact.process_pin_modify_result (handler u); Ret (with_handler m u).
End Usb.

End Usb.
