(* ===== verification/UsbSpec.v ===== *)
(** * The USB CCID class: theorems

    A poll never breaks the class whatever the endpoints answer, a response is
    delivered packet by packet and terminated by a short packet, and a command
    sent in any packets is answered by exactly one response, after which the
    class is idle again.  The last part shows what the transport does with the
    answers of PIN sessions. *)
From Stdlib Require Import ZArith Lia ZifyBool.
From stdpp Require Import prelude.
From S2P Require Import Prelude Wire Atr Diag Secure CardInterface Handler SelfHeal HandlerFacts.
From S2P Require Import HandlerSpec DeviceProfile ContactHandler ContactSpec UsbClass.
Import PinBuf CardAdapter Contact Usb.
Local Open Scope Z_scope.

#[local] Existing Instance ContactProfile.

(** ** The invariant *)
Record usb_ok {D E} `{!SmartcardDriver D E, !SmartcardLaws D E} (u : CcidClass D) : Prop :=
  mkUsbOk {
  uo_handler : contact_ok (handler u);
  uo_offset : (tx_offset u <= tx_len (handler u))%nat;
  uo_idle : tx_pending u = false -> tx_offset u = 0%nat
}.

Section Usb.
Context {D E : Type} `{!SmartcardDriver D E, !SmartcardLaws D E}.
Implicit Types u : CcidClass D.

(** The packet [try_send] hands to the endpoint. *)
Definition offered u : option (list Z) :=
  if needs_zlp u then Some []
  else if negb (tx_pending u) then None
  else Some (take PACKET_SIZE (drop (tx_offset u) (get_tx_buffer (handler u)))).

Lemma length_tx u : usb_ok u -> length (get_tx_buffer (handler u)) = tx_len (handler u).
Proof.
  intros [[Hm _] _ _]. unfold get_tx_buffer. rewrite length_take. destruct Hm. lia.
Qed.

Lemma try_send_eq w u : usb_ok u ->
  try_send w u =
    Ret (if needs_zlp u then
           match w with
           | Err WouldBlock => u
           | _ => mkClass (handler u) (tx_offset u) (tx_pending u) false
           end
         else if negb (tx_pending u) then u
         else match w with
              | Ok n =>
                  if (tx_len (handler u) <=? tx_offset u + n)%nat
                  then finish (tx_len (handler u) mod PACKET_SIZE =? 0)%nat u
                  else mkClass (handler u) (tx_offset u + n) true false
              | Err WouldBlock => u
              | Err BusError => finish false u
              end, offered u).
Proof.
  intros Hu. unfold try_send, offered. destruct (needs_zlp u) eqn:Ez; [done|].
  destruct (tx_pending u) eqn:Ep; [|done]. simpl negb. cbv iota.
  rewrite (length_tx u Hu). pose proof (uo_offset _ Hu) as Ho.
  assert (tx_len (handler u) <= 271)%nat as Hl by (destruct Hu as [[[] _] _ _]; done).
  set (rem := wrap32 _).
  assert (rem = Z.of_nat (tx_len (handler u) - tx_offset u)) as ->
    by (unfold rem, wrap32; rewrite Z.mod_small by lia; lia).
  unfold PACKET_SIZE.
  rewrite slice_ok by (rewrite ?length_tx by done; lia). rewrite bind_ret.
  do 2 f_equal. f_equal.
  pose proof (length_tx u Hu) as Hlt.
  destruct (Nat.le_gt_cases (tx_len (handler u) - tx_offset u) 64).
  - rewrite !take_ge by (rewrite length_drop; lia). done.
  - f_equal. lia.
Qed.

Lemma finish_ok zlp u : usb_ok u -> usb_ok (finish zlp u).
Proof. intros [Hm _ _]. constructor; [by apply take_response_ok|simpl; lia|done]. Qed.

Lemma try_send_ok w u : usb_ok u ->
  exists u', try_send w u = Ret (u', offered u) /\ usb_ok u'.
Proof.
  intros Hu. rewrite (try_send_eq w u Hu). eexists. split; [reflexivity|].
  destruct (needs_zlp u); [destruct Hu; by destruct w as [|[]]|].
  destruct (tx_pending u) eqn:Ep; simpl; [|done].
  destruct w as [n|[]]; [|done|by apply finish_ok].
  destruct (_ <=? _)%nat eqn:El; [by apply finish_ok|].
  destruct Hu. constructor; simpl; [done|lia|done].
Qed.

(** A packet from the host completes a message on which the core panics. *)
Definition fatal (r : received) u : Prop :=
  match r with
  | Ok data => exists h, complete_message (assemble (rx (handler u)) data) h /\ slot h = 0 /\
      cmd_busy (handler u) = false /\ panics (core (handler u)) (assemble (rx (handler u)) data)
  | Err _ => False
  end.

Definition received_bytes (r : received) : Prop :=
  match r with Ok data => bytes data | Err _ => True end.

Lemma receive_spec r u : usb_ok u -> received_bytes r ->
  (receive r u = Panic <-> fatal r u) /\
  forall u', receive r u = Ret u' -> usb_ok u'.
Proof.
  intros Hu Hr. destruct r as [data|e]; [|split; [split; done|by intros u' [= <-]]].
  destruct Hu as [[Hm Hev] Ho Hi].
  destruct (feed_spec (handler u) data Hm Hr) as (m1 & E1 & Hm1 & Hrx & Hs).
  assert (contact_ok m1) as Hok1 by (split; [done|by rewrite Hs]).
  assert (core m1 = core (handler u) /\ cmd_busy m1 = cmd_busy (handler u) /\
          tx_len m1 = tx_len (handler u)) as (Ec & Eb & Et) by (by rewrite Hs).
  unfold receive, fatal. rewrite E1, bind_ret, <- Hrx, <- Ec, <- Eb.
  pose proof (message_ready_spec m1 Hm1) as Hready.
  destruct (message_ready m1) eqn:Er.
  - destruct (proj1 Hready eq_refl) as [h Hc].
    destruct (handle_message_spec m1 h Hok1 Hc) as [Hp Hret].
    destruct (handle_message m1) as [m2|] eqn:Eh; simpl.
    + split; [|intros u' [= <-]; constructor; simpl; [by apply Hret|lia|done]].
      split; [done|]. intros (h' & Hc' & Hfat). assert (h' = h) as ->
        by (destruct Hc, Hc'; congruence).
      exfalso. apply Hp in Hfat. discriminate.
    + split; [|done]. split; [|done]. intros _. exists h. split; [done|].
      by apply Hp.
  - split; [|intros u' [= <-]; constructor; simpl; [done|lia|done]].
    split; [done|]. intros (h & Hc & _). assert (false = true) as X by (apply Hready; eauto). done.
Qed.

Lemma poll_diagnostics_ok now (m : CcidMessageHandler D) :
  contact_ok m ->
  exists m', poll_diagnostics now m = Ret m' /\ contact_ok m' /\ same_exchange m m' /\
    nfc (core m') = nfc (core m).
Proof.
  intros [Hm Hev]. destruct (mo_uptime _ Hm) as [Hper Hticks].
  unfold poll_diagnostics, Dwt.poll.
  set (accum := wrapping_add32 _ _).
  assert (0 <= accum) as Hacc by (unfold accum, wrapping_add32, wrap32; apply Z.mod_pos_bound; lia).
  rewrite drain_enough by (lia || done). cbn [Dwt.drain].
  eexists. split; [reflexivity|].
  set (t := wrap32 _). assert (u32 t) as Ht by (unfold t, u32, wrap32; apply Z.mod_pos_bound; lia).
  split; [|done]. split; [|done].
  destruct Hm. constructor; simpl; try done.
  destruct mo_core as [Hd ? ? Hdiag ? ? ? ?]. pose proof (reinit_count_ok _ Hd) as Hn.
  constructor; try done. unfold Diagnostics.wf in *. simpl. destruct_and!. by split_and!.
Qed.

(** [poll] up to the read of the bulk OUT endpoint. *)
Definition before_read (now : Z) (w1 : written) u : outcome (CcidClass D) :=
  m ← poll_diagnostics now (handler u);
  s1 ← try_send w1 (with_handler (check_card_presence m).1 u);
  Ret s1.1.

Lemma with_handler_ok m u : usb_ok u -> contact_ok m -> (tx_len (handler u) <= tx_len m)%nat ->
  usb_ok (with_handler m u).
Proof. intros [] ? ?. constructor; simpl; [done|lia|done]. Qed.

(** The USB class never breaks.  Whatever the clock says, whatever the two
    bulk endpoints answer (data, would-block, errors, any byte count) and
    whether or not a card came or went, a poll keeps the invariant and never
    slices out of bounds; it panics only when the packet it reads completes a
    message the handler core panics on. *)
Theorem usb_poll_safe now w1 r w2 u :
  usb_ok u -> received_bytes r ->
  exists u1, before_read now w1 u = Ret u1 /\ usb_ok u1 /\
    (poll now w1 r w2 u = Panic <-> fatal r u1) /\
    forall u' out, poll now w1 r w2 u = Ret (u', out) -> usb_ok u'.
Proof.
  intros Hu Hr. destruct (poll_diagnostics_ok now (handler u) (uo_handler _ Hu))
    as (m & E1 & Hm & Hsame & _).
  unfold before_read, poll. rewrite E1, !bind_ret.
  pose proof (check_card_presence_ok m Hm) as [Hcp Htl].
  destruct (check_card_presence m) as [m1 ch]. cbn [fst] in *.
  assert (usb_ok (with_handler m1 u)) as H1.
  { apply with_handler_ok; [done..|]. unfold same_exchange in Hsame. lia. }
  destruct (try_send_ok w1 _ H1) as (u1 & E2 & Hu1). rewrite E2, !bind_ret. cbn [fst snd].
  exists u1. split; [done|]. split; [done|].
  destruct (receive_spec r u1 Hu1 Hr) as [Hp Hret].
  destruct (receive r u1) as [u2|] eqn:Er; cbn [mbind outcome_bind].
  - destruct (try_send_ok w2 u2 (Hret u2 eq_refl)) as (u3 & E3 & Hu3).
    rewrite E3. cbn [mbind outcome_bind fst snd].
    split; [|by intros u' out [= <- _]]. split; [done|]. intros Hf. apply Hp in Hf. done.
  - split; [|done]. split; [|done]. intros _. by apply Hp.
Qed.
End Usb.

(** ** Delivery of a response *)

(** The packets of a response: full packets, then a short one, which is empty
    when the length is a multiple of the packet size. *)
Fixpoint chunks (fuel : nat) (l : list Z) : list (list Z) :=
  match fuel with
  | O => [l]
  | S fuel =>
      if (length l <=? PACKET_SIZE)%nat then [l]
      else take PACKET_SIZE l :: chunks fuel (drop PACKET_SIZE l)
  end.
Definition zlp (n : nat) : list (list Z) := if (n mod PACKET_SIZE =? 0)%nat then [[]] else [].
Definition packets (l : list Z) : list (list Z) := chunks (length l) l ++ zlp (length l).

Lemma chunks_fuel n1 n2 l : (length l <= n1)%nat -> (length l <= n2)%nat ->
  chunks n1 l = chunks n2 l.
Proof.
  revert n2 l. induction n1 as [|n1 IH]; intros n2 l H1 H2.
  - destruct l; [|simpl in H1; lia]. by destruct n2.
  - destruct n2 as [|n2]; [destruct l; [done|simpl in H2; lia]|].
    cbn [chunks]. destruct (_ <=? _)%nat eqn:E1; [done|]. f_equal.
    unfold PACKET_SIZE in *. apply IH; rewrite length_drop; lia.
Qed.

Lemma chunks_nonempty n l : chunks n l <> [].
Proof. destruct n; simpl; [done|by case_match]. Qed.

Lemma concat_chunks n l : concat (chunks n l) = l.
Proof.
  revert l. induction n as [|n IH]; intros l; simpl; [by rewrite app_nil_r|].
  destruct (_ <=? _)%nat; [by rewrite concat_cons, app_nil_r|].
  by rewrite concat_cons, IH, take_drop.
Qed.

Lemma chunks_shape n l : (length l <= n)%nat -> l <> [] ->
  exists full last, chunks n l = full ++ [last] /\
    Forall (fun p => length p = PACKET_SIZE) full /\ (0 < length last <= PACKET_SIZE)%nat /\
    (length l mod PACKET_SIZE = length last mod PACKET_SIZE)%nat.
Proof.
  revert l. induction n as [|n IH]; intros l Hn Hne; [destruct l; simpl in *; [done|lia]|].
  assert (0 < length l)%nat by (destruct l; simpl in *; [done|lia]).
  cbn [chunks]. destruct (_ <=? _)%nat eqn:E1.
  - exists [], l. split_and!; [done|by apply Forall_nil|lia|unfold PACKET_SIZE in *; lia|done].
  - unfold PACKET_SIZE in *. destruct (IH (drop 64 l)) as (full & last & E2 & Hf & Hl & Hm).
    + rewrite length_drop. lia.
    + intros E2. assert (length (drop 64 l) = 0%nat) as E3 by (by rewrite E2).
      rewrite length_drop in E3. lia.
    + exists (take 64 l :: full), last. rewrite E2. split_and!; try done; try lia.
      * apply Forall_cons. split; [|done]. rewrite length_take. lia.
      * rewrite <- Hm, length_drop.
        replace (length l) with (length l - 64 + 1 * 64)%nat at 1 by lia.
        by rewrite Nat.Div0.mod_add.
Qed.

(** Every packet but the last is full, and the last is short: that is how the
    host sees the end of the transfer. *)
Lemma packets_shape l : l <> [] ->
  concat (packets l) = l /\
  exists full last, packets l = full ++ [last] /\
    Forall (fun p => length p = PACKET_SIZE) full /\ (length last < PACKET_SIZE)%nat.
Proof.
  intros Hne. unfold packets. split.
  { rewrite concat_app, concat_chunks. unfold zlp. case_match; simpl; by rewrite ?app_nil_r. }
  destruct (chunks_shape (length l) l ltac:(lia) Hne) as (full & last & -> & Hf & Hl & Hm).
  unfold zlp. rewrite Hm. destruct (_ =? 0)%nat eqn:E1.
  - exists (full ++ [last]), []. split; [done|]. split; [|unfold PACKET_SIZE; simpl; lia].
    apply Forall_app. split; [done|]. apply Forall_cons. split; [|by apply Forall_nil].
    apply Nat.eqb_eq in E1. unfold PACKET_SIZE in *.
    destruct (Nat.eq_dec (length last) 64%nat); [done|]. rewrite Nat.mod_small in E1 by lia. lia.
  - exists full, last. rewrite app_nil_r. split; [done|]. split; [done|].
    apply Nat.eqb_neq in E1. unfold PACKET_SIZE in *.
    destruct (Nat.eq_dec (length last) 64%nat) as [E2|]; [|lia]. rewrite E2 in E1. done.
Qed.

Section Delivery.
Context {D E : Type} `{!SmartcardDriver D E, !SmartcardLaws D E}.
Implicit Types u : CcidClass D.

(** The endpoint takes the whole packet, or would block; the packet that got
    onto the wire. *)
Definition offer (taken : bool) u : outcome (CcidClass D * list (list Z)) :=
  let packet := offered u in
  r ← try_send (if taken then Ok (match packet with Some p => length p | None => 0%nat end)
                else Err WouldBlock) u;
  Ret (r.1, match packet with Some p => if taken then [p] else [] | None => [] end).

Fixpoint offers (takes : list bool) u : outcome (CcidClass D * list (list Z)) :=
  match takes with
  | [] => Ret (u, [])
  | b :: bs => r ← offer b u; r' ← offers bs r.1; Ret (r'.1, r.2 ++ r'.2)
  end.

(** The packets still to come. *)
Definition to_send u : list (list Z) :=
  if needs_zlp u then [[]]
  else if negb (tx_pending u) then []
  else let rest := drop (tx_offset u) (get_tx_buffer (handler u)) in
       chunks (length rest) rest ++ zlp (tx_len (handler u)).

(** The response is given up for the next command when its last data packet
    leaves. *)
Definition sent_from u u' : Prop :=
  handler u' = (if tx_pending u && negb (tx_pending u')
                then (take_response (handler u)).1 else handler u) /\
  (needs_zlp u = true -> tx_pending u = false) /\ (tx_pending u = false -> tx_pending u' = false).

Lemma offer_spec b u : usb_ok u -> (needs_zlp u = true -> tx_pending u = false) ->
  exists u' w, offer b u = Ret (u', w) /\ usb_ok u' /\ sent_from u u' /\
    (needs_zlp u' = true -> tx_pending u' = false) /\ to_send u = w ++ to_send u' /\
    w = (if b then take 1 (to_send u) else []).
Proof.
  intros Hu Hz. unfold offer. destruct (try_send_ok
    (if b then Ok (match offered u with Some p => length p | None => 0%nat end)
     else Err WouldBlock) u Hu) as (u' & E1 & Hu').
  rewrite E1, bind_ret. cbn [fst]. rewrite (try_send_eq _ u Hu) in E1. injection E1 as E1.
  eexists u', _. split; [reflexivity|]. split; [done|].
  destruct b; [|].
  2: { assert (u' = u) as -> by (by destruct (needs_zlp u), (tx_pending u)).
       unfold sent_from. split; [by destruct (tx_pending u)|]. split; [done|].
       split; [by destruct (offered u)|]. by destruct (offered u). }
  unfold sent_from, to_send, offered in *.
  destruct (needs_zlp u) eqn:Ez.
  { rewrite (Hz eq_refl) in *. subst u'. simpl. rewrite ?(Hz eq_refl). done. }
  destruct (tx_pending u) eqn:Ep; simpl in *; [|subst u'; by rewrite Ez, Ep].
  set (rest := drop (tx_offset u) (get_tx_buffer (handler u))) in *.
  assert (length rest = tx_len (handler u) - tx_offset u)%nat as Hrest
    by (unfold rest; rewrite length_drop, length_tx by done; lia).
  pose proof (uo_offset _ Hu) as Ho. rewrite length_take in E1. unfold PACKET_SIZE in *.
  destruct (Nat.le_gt_cases (length rest) 64) as [Hs|Hs].
  - replace (tx_len (handler u) <=? _)%nat with true in E1 by lia. subst u'. simpl.
    replace (chunks (length rest) rest) with [rest].
    2: { destruct (length rest) eqn:El; [done|]. cbn [chunks]. unfold PACKET_SIZE.
         by replace (length rest <=? 64)%nat with true by lia. }
    rewrite (take_ge rest) by lia. unfold zlp, PACKET_SIZE. simpl.
    by destruct (tx_len (handler u) mod 64 =? 0)%nat.
  - replace (tx_len (handler u) <=? _)%nat with false in E1 by lia. subst u'.
    cbn [handler tx_offset tx_pending needs_zlp negb andb].
    assert (chunks (length rest) rest = take 64 rest :: chunks (length rest - 64) (drop 64 rest))
      as ->.
    { destruct (length rest) as [|n] eqn:El; [lia|]. cbn [chunks]. unfold PACKET_SIZE.
      rewrite El. replace (S n <=? 64)%nat with false by lia. f_equal.
      apply chunks_fuel; rewrite length_drop; lia. }
    replace (tx_offset u + 64 `min` length rest)%nat with (tx_offset u + 64)%nat by lia.
    assert (drop (tx_offset u + 64) (get_tx_buffer (handler u)) = drop 64 rest) as ->
      by (unfold rest; by rewrite drop_drop).
    split; [done|]. split; [done|]. split; [|done]. cbn [app]. f_equal. f_equal.
    apply chunks_fuel; rewrite length_drop; lia.
Qed.

Lemma sent_from_trans u1 u2 u3 : sent_from u1 u2 -> sent_from u2 u3 -> sent_from u1 u3.
Proof.
  unfold sent_from. intros (H1 & Z1 & P1) (H2 & Z2 & P2).
  destruct (tx_pending u1), (tx_pending u2), (tx_pending u3); simpl in *; try done;
    split_and?; try done; try congruence; try naive_solver.
Qed.

Lemma offers_spec bs : forall u, usb_ok u -> (needs_zlp u = true -> tx_pending u = false) ->
  exists u' w, offers bs u = Ret (u', w) /\ usb_ok u' /\
    (needs_zlp u' = true -> tx_pending u' = false) /\
    (bs = [] \/ sent_from u u') /\ to_send u = w ++ to_send u' /\
    w = take (Z.to_nat (count id bs)) (to_send u).
Proof.
  induction bs as [|b bs IH]; intros u Hu Hz.
  { exists u, []. split_and!; try done. by left. }
  destruct (offer_spec b u Hu Hz) as (u1 & w1 & E1 & Hu1 & Hs1 & Hz1 & Ht1 & Hw1).
  destruct (IH u1 Hu1 Hz1) as (u' & w2 & E2 & Hu' & Hz' & Hs2 & Ht2 & Hw2).
  exists u', (w1 ++ w2). simpl. rewrite E1, bind_ret. cbn [fst snd].
  rewrite E2, bind_ret. split; [done|]. split; [done|]. split; [done|].
  split.
  { right. destruct Hs2 as [->|Hs2]; [|by eapply sent_from_trans].
    simpl in E2. by injection E2 as <- _. }
  split; [by rewrite Ht1, Ht2, app_assoc|].
  pose proof (count_nonneg id bs) as Hc.
  rewrite Hw2. destruct b; simpl in *.
  - replace (Z.to_nat (1 + count id bs)) with (S (Z.to_nat (count id bs))) by lia.
    rewrite Ht1. destruct (to_send u) as [|p ps] eqn:Et; simpl in *; subst w1; simpl in *.
    + by rewrite <- Ht1, !take_nil.
    + injection Ht1 as Ht1. by rewrite <- Ht1.
  - subst w1. simpl in *. by rewrite <- Ht1.
Qed.
End Delivery.

(** ** A whole exchange *)
Section Exchange.
Context {D E : Type} `{!SmartcardDriver D E, !SmartcardLaws D E}.
Implicit Types u : CcidClass D.

Fixpoint receives (rs : list received) u : outcome (CcidClass D) :=
  match rs with [] => Ret u | r :: rs => u ← receive r u; receives rs u end.

Lemma receives_app rs1 rs2 u :
  receives (rs1 ++ rs2) u = (u ← receives rs1 u; receives rs2 u).
Proof.
  revert u. induction rs1 as [|r rs1 IH]; intros u; [done|]. simpl.
  destruct (receive r u); [apply IH|done].
Qed.

(** One message, exactly. *)
Definition exact_message (msg : list Z) (h : CcidHeader) : Prop :=
  CcidHeader_parse msg = Some h /\ Z.of_nat (length msg) = 10 + dw_length h /\
  (length msg <= 271)%nat.

Lemma assemble_prefix h bs data rest : bytes (bs ++ data) ->
  exact_message (bs ++ data ++ rest) h -> assemble bs data = bs ++ data.
Proof.
  intros Hb (Hp & Hl & Hle). rewrite !length_app in *. unfold assemble.
  rewrite take_ge by (rewrite length_app; lia).
  destruct (unassemblable (bs ++ data)) eqn:Hu; [|done].
  apply unassemblable_prefix with (b := rest) in Hu. rewrite <- app_assoc in Hu.
  unfold unassemblable in Hu. rewrite Hp in Hu. lia.
Qed.

Lemma prefix_incomplete h a rest : exact_message (a ++ rest) h -> rest <> [] ->
  ~ exists h', complete_message a h'.
Proof.
  intros (Hp & Hl & _) Hne (h' & Hp' & Hl'). rewrite (header_parse_prefix a rest h' Hp') in Hp.
  injection Hp as ->. rewrite length_app in Hl. destruct rest; [done|simpl in Hl; lia].
Qed.

(** Packets of an unfinished message are collected. *)
Lemma receives_partial h ps : forall u rest,
  usb_ok u -> Forall bytes ps -> exact_message (rx (handler u) ++ concat ps ++ rest) h ->
  rest <> [] ->
  exists m, receives (map Ok ps) u = Ret (with_handler m u) /\ contact_ok m /\
    rx m = rx (handler u) ++ concat ps /\ m = set_rx (rx_buffer m) (rx_len m) (handler u).
Proof.
  induction ps as [|p ps IH]; intros u rest Hu Hb Hm Hne.
  { exists (handler u). rewrite app_nil_r. split_and!; [by destruct u|apply Hu|done|].
    by destruct (handler u). }
  apply Forall_cons in Hb as [Hp Hb]. destruct (uo_handler _ Hu) as [Hwf Hev].
  destruct (feed_spec (handler u) p Hwf Hp) as (m1 & E1 & Hm1 & Hrx & Hs).
  simpl in Hm. rewrite <- app_assoc in Hm.
  rewrite (assemble_prefix h _ p (concat ps ++ rest)) in Hrx;
    [|apply bytes_app; split; [by apply rx_bytes|done]|done].
  assert (message_ready m1 = false) as Hr.
  { destruct (message_ready m1) eqn:Er; [|done]. exfalso.
    apply message_ready_spec in Er; [|done]. rewrite Hrx in Er. revert Er.
    apply (prefix_incomplete h _ (concat ps ++ rest)); [by rewrite <- app_assoc|].
    by intros [_ ->]%app_nil. }
  assert (contact_ok m1) as Hok1 by (split; [done|by rewrite Hs]).
  assert (usb_ok (with_handler m1 u)) as Hu1
    by (apply with_handler_ok; [done..|rewrite Hs; simpl; lia]).
  destruct (IH (with_handler m1 u) rest Hu1 Hb) as (m & E2 & Hok & Hrx2 & Hs2); [|done|].
  { simpl. rewrite Hrx, <- app_assoc. done. }
  exists m. simpl. rewrite E1, bind_ret, Hr. simpl. rewrite E2. simpl in *.
  split_and!; [done|done|by rewrite Hrx2, Hrx, <- app_assoc|]. by rewrite Hs2, Hs.
Qed.

Definition idle u : Prop :=
  rx (handler u) = [] /\ cmd_busy (handler u) = false /\ tx_pending u = false /\
  needs_zlp u = false.

Lemma delivered u bs :
  usb_ok u -> tx_pending u = true -> needs_zlp u = false -> tx_offset u = 0%nat ->
  let response := get_tx_buffer (handler u) in
  exists u' wire, offers bs u = Ret (u', wire) /\ usb_ok u' /\
    wire = take (Z.to_nat (count id bs)) (packets response) /\
    (Z.of_nat (length (packets response)) <= count id bs ->
       wire = packets response /\ handler u' = (take_response (handler u)).1 /\
       tx_pending u' = false /\ needs_zlp u' = false).
Proof.
  intros Hu Hp Hz Ho response.
  destruct (offers_spec bs u Hu ltac:(congruence)) as (u' & w & E1 & Hu' & Hz' & Hs & Ht & Hw).
  assert (to_send u = packets response) as Hts.
  { unfold to_send. rewrite Hz, Hp, Ho. simpl. unfold packets.
    by rewrite <- (length_tx u Hu). }
  rewrite Hts in *. exists u', w. split; [done|]. split; [done|]. split; [done|].
  intros Hn. assert (w = packets response) as Hw' by (rewrite Hw; apply take_ge; lia).
  assert (to_send u' = []) as Hnil.
  { rewrite Hw' in Ht. rewrite <- (app_nil_r (packets response)) in Ht at 1.
    by apply app_inv_head in Ht. }
  unfold to_send in Hnil. destruct (needs_zlp u') eqn:Ez; [done|].
  destruct (tx_pending u') eqn:Ep.
  { cbn [negb] in Hnil. by apply app_nil, proj1, chunks_nonempty in Hnil. }
  split; [done|]. split; [|done]. destruct Hs as [->|(Hh & _ & _)].
  - simpl in E1. injection E1 as -> _. congruence.
  - by rewrite Hh, Hp, Ep.
Qed.

(** A response is delivered whole, in order, and ends in a short packet.
    However often the endpoint is busy in between, the packets on the wire are
    always the first ones of the response cut into 64-byte packets; once it
    has taken all of them the handler is free for the next command.  The cut
    is what a host needs to find the end: all packets but the last are full,
    the last is shorter (empty when the length is a multiple of 64). *)
Theorem usb_response_delivered u bs :
  usb_ok u -> tx_pending u = true -> needs_zlp u = false -> tx_offset u = 0%nat ->
  let response := get_tx_buffer (handler u) in
  (exists u' wire, offers bs u = Ret (u', wire) /\ usb_ok u' /\
     wire = take (Z.to_nat (count id bs)) (packets response) /\
     (Z.of_nat (length (packets response)) <= count id bs ->
        wire = packets response /\ handler u' = (take_response (handler u)).1 /\
        tx_pending u' = false /\ needs_zlp u' = false)) /\
  (response <> [] -> concat (packets response) = response /\
     exists full last, packets response = full ++ [last] /\
       Forall (fun p => length p = PACKET_SIZE) full /\ (length last < PACKET_SIZE)%nat).
Proof.
  intros Hu Hp Hz Ho response. split; [by apply delivered|apply packets_shape].
Qed.

(** C7: a command over USB is executed once and answered at most once, and exactly
    once but for two named cases.  From an idle class, a message of at most 271
    bytes for slot 0, cut into packets in any way, is executed when (and only
    when) its last byte arrives: the slot moves by the core's slot machine, and
    the answer is one well-formed reply to this command.  There is no answer
    only to a PIN command that was accepted (the session answers later) and to
    an IccPowerOn or XfrBlock for which the card has more than 261 bytes to say.
    The answer is delivered packet by packet, and the class is idle again for
    the next command.  This is over any card driver that keeps its contract
    ([SmartcardLaws]); the PIN modify structures on which the core panics are
    excluded. *)
Theorem usb_exchange u ps p h bs :
  usb_ok u -> idle u -> Forall bytes (ps ++ [p]) -> p <> [] ->
  exact_message (concat ps ++ p) h -> slot h = 0 ->
  ~ panics (core (handler u)) (concat ps ++ p) ->
  exists u0 u1 failed, receives (map Ok ps) u = Ret u0 /\ core (handler u0) = core (handler u) /\
    receive (Ok p) u0 = Ret u1 /\
    slot_step true (message_type h) (slot_state (core (handler u))) failed
      (slot_state (core (handler u1))) /\
    contact_replied h (handler u1) failed /\
    (tx_len (handler u1) = 0%nat ->
       message_type h = PC_TO_RDR_SECURE /\ is_pin_entry_active (core (handler u1)) = true \/
       (261 < said h (concat ps ++ p) (core (handler u)))%nat) /\
    let response := get_tx_buffer (handler u1) in
    (Z.of_nat (length (packets response)) <= count id bs ->
     exists u2, offers bs u1 = Ret (u2, packets response) /\ usb_ok u2 /\ idle u2 /\
       core (handler u2) = core (handler u1)).
Proof.
  intros Hu (Hrx & Hbusy & Hp & Hz) Hb Hne Hm Hslot Hnp.
  apply Forall_app in Hb as [Hbs Hbp]. apply Forall_cons in Hbp as [Hbp _].
  destruct (receives_partial h ps u p Hu Hbs) as (m & E1 & Hok & Hrxm & Hs); [by rewrite Hrx|done|].
  rewrite Hrx in Hrxm. simpl in Hrxm.
  assert (core m = core (handler u) /\ cmd_busy m = false) as [Ec Eb] by (by rewrite Hs).
  destruct (feed_spec m p (proj1 Hok) Hbp) as (m1 & E2 & Hm1 & Hrx1 & Hs1).
  assert (rx m1 = concat ps ++ p) as Hrx1'.
  { rewrite Hrx1, Hrxm. apply (assemble_prefix h _ _ []); [|by rewrite app_nil_r].
    apply bytes_app. split; [|done]. rewrite <- Hrxm. apply rx_bytes, Hok. }
  assert (complete_message (rx m1) h) as Hc.
  { destruct Hm as (Hparse & Hl & _). rewrite Hrx1'. split; [done|lia]. }
  assert (message_ready m1 = true) as Hready by (apply message_ready_spec; eauto).
  assert (contact_ok m1 /\ core m1 = core (handler u) /\ cmd_busy m1 = false) as (Hok1 & Ec1 & Eb1).
  { split; [split; [done|rewrite Hs1; simpl; apply Hok]|]. rewrite Hs1. simpl. by rewrite Ec. }
  destruct (handle_message_spec m1 h Hok1 Hc) as [Hpan Hret].
  assert (dw_length h <= 261 /\ Z.of_nat (length (rx m1)) = 10 + dw_length h) as [Hdw Hlen].
  { destruct Hm as (_ & Hl & Hmax). rewrite Hrx1'. lia. }
  pose proof (fun m2 => handle_message_silent m1 h m2 Hok1 Hc Hslot Eb1 Hdw Hlen) as Hsil.
  clear Hdw Hlen. rewrite Hslot, Eb1, Ec1, Hrx1' in *. simpl in Hret.
  destruct (handle_message m1) as [m2|] eqn:Eh.
  2: { exfalso. apply Hnp. by apply Hpan. }
  destruct (Hret m2 eq_refl) as (Hok2 & Hrx2 & Hb2 & failed & Hst & Hrep).
  exists (with_handler m u), (mkClass m2 0 true (needs_zlp u)), failed.
  split; [done|]. split; [done|]. split.
  { simpl. rewrite E2, bind_ret, Hready. by rewrite Eh. }
  split; [done|]. split; [done|]. split.
  { exact (Hsil m2 eq_refl). }
  intros response Hn.
  assert (usb_ok (mkClass m2 0 true (needs_zlp u))) as Hu2 by (constructor; simpl; [done|lia|done]).
  destruct (delivered _ bs Hu2 eq_refl Hz eq_refl) as (u2 & w & E3 & Hok3 & _ & Hall).
  destruct (Hall Hn) as (Ew & Eh3 & Ep3 & Ez3). exists u2. subst w.
  split; [done|]. split; [done|]. unfold idle. rewrite Eh3. done.
Qed.
End Exchange.

(** ** What the transport does with late answers

    The answer of a PIN session is written into the transmit buffer by the main
    loop, but only [receive] raises [tx_pending]: the answer is never offered
    to the endpoint.  If a reply is still in flight when it is written, the
    offset of that reply can lie behind the new length. *)
Section LateAnswers.
Context {D E : Type} `{!SmartcardDriver D E, !SmartcardLaws D E}.
Implicit Types u : CcidClass D.

Lemma pin_answer_never_sent u u' w :
  tx_pending u = false -> needs_zlp u = false ->
  Usb.process_pin_result u = Ret u' -> try_send w u' = Ret (u', None).
Proof.
  intros Hp Hz E1. unfold Usb.process_pin_result in E1.
  destruct (Contact.process_pin_result (handler u)); [|done]. injection E1 as <-.
  unfold try_send. simpl. by rewrite Hp, Hz.
Qed.

Lemma reply_in_flight_panics u w :
  needs_zlp u = false -> tx_pending u = true -> length (tx_buffer (handler u)) = 271%nat ->
  (tx_len (handler u) < tx_offset u <= 271)%nat ->
  try_send w u = Panic.
Proof.
  intros Hz Hp Hl Ho. unfold try_send. rewrite Hz, Hp. simpl negb. cbv iota.
  assert (length (get_tx_buffer (handler u)) = tx_len (handler u)) as ->
    by (unfold get_tx_buffer; rewrite length_take; lia).
  set (n := Z.to_nat _). unfold slice.
  rewrite decide_False; [done|]. unfold get_tx_buffer. rewrite length_take. lia.
Qed.

(** A zero-length packet behind a command (the usual end of a transfer whose
    length is a multiple of 64) re-runs [handle_message] while the command's
    message is still in the buffer: the rest of the reply is replaced. *)
Lemma empty_packet_restarts u h :
  usb_ok u -> complete_message (rx (handler u)) h -> slot h = 0 ->
  cmd_busy (handler u) = true ->
  exists u', receive (Ok []) u = Ret u' /\ tx_offset u' = 0%nat /\ tx_pending u' = true /\
    get_tx_buffer (handler u') =
      get_tx_buffer (send_slot_status (seq h) COMMAND_STATUS_FAILED
        (icc_status (slot_state (core (handler u)))) CCID_ERR_CMD_SLOT_BUSY (handler u)).
Proof.
  intros Hu Hc Hs Hb. destruct (uo_handler _ Hu) as [Hm Hev].
  destruct (feed_spec (handler u) [] Hm ltac:(by apply Forall_nil)) as (m1 & E1 & Hm1 & Hrx & Hst).
  assert (rx m1 = rx (handler u)) as Hrx'.
  { rewrite Hrx. unfold assemble. rewrite app_nil_r.
    pose proof (length_rx _ (mo_rx_length _ Hm) (mo_rx_len _ Hm)). pose proof (mo_rx_len _ Hm).
    rewrite take_ge by lia. by rewrite (mo_rx_fits _ Hm). }
  unfold receive. rewrite E1, bind_ret.
  assert (message_ready m1 = true) as ->.
  { apply message_ready_spec; [done|]. rewrite Hrx'. eauto. }
  rewrite (handle_message_cases m1 h) by (by rewrite Hrx'). rewrite Hs. simpl negb. cbv iota.
  assert (cmd_busy m1 = true /\ core m1 = core (handler u) /\
          tx_buffer m1 = tx_buffer (handler u)) as (-> & Ec & Et) by (by rewrite Hst).
  eexists. split; [reflexivity|]. split; [done|]. split; [done|].
  unfold get_tx_buffer, send_slot_status, send_slot_status_with_clock. simpl.
  by rewrite Ec, Et.
Qed.
End LateAnswers.

(** ** Witnesses *)
Module UsbDemo.
Definition card : CardMock.MockSmartcardDriver :=
  CardMock.new true [0x3B; 0x00] [[0x90; 0x00]].
Definition fresh : CcidClass CardMock.MockSmartcardDriver :=
  Usb.new card Profile.PROFILE_CHERRY_SMARTTERMINAL_ST2XXX HostBuild.
Definition power_on : list Z := command PC_TO_RDR_ICC_POWER_ON 0 1 (1, 0, 0) [].
(** A PIN verify session: 30 s, 4 to 8 digits, VERIFY 00 20 00 81 00. *)
Definition secure : list Z :=
  command PC_TO_RDR_SECURE 0 2 (0, 0, 0)
    ([0; 30; 0x82; 0x04; 0x00; 8; 4; 2; 1; 9; 4; 0; 0; 0; 0] ++ [0x00; 0x20; 0x00; 0x81; 0x00]).
Definition get_status : list Z := command PC_TO_RDR_GET_SLOT_STATUS 0 3 (0, 0, 0) [].

(** A command in one packet, and an endpoint that takes everything. *)
Definition exchange (msg : list Z) (u : CcidClass CardMock.MockSmartcardDriver) :
    outcome (CcidClass CardMock.MockSmartcardDriver * list (list Z)) :=
  u ← receive (Ok msg) u; offers [true; true; true] u.

(** The host powers the card and starts a PIN session; the user enters 123456. *)
Definition pin_session : outcome (CcidClass CardMock.MockSmartcardDriver *
    list (list Z) * list (list Z) * list (list Z)) :=
  r0 ← exchange power_on fresh;
  r1 ← exchange secure r0.1;
  let t := take_secure_params (handler r1.1) in
  let m := match t.2 with
           | Some (seq, params) =>
               set_pin_result seq Success (mkBuf ([1; 2; 3; 4; 5; 6] ++ replicate 10 0) 6 8) params t.1
           | None => t.1
           end in
  u ← Usb.process_pin_result (with_handler m r1.1);
  r2 ← offers [true; true; true] u;
  r3 ← exchange get_status r2.1;
  Ret (u, r1.2, r2.2, r3.2).
End UsbDemo.

(** The host sees two empty packets for its Secure command; VERIFY runs on the
    card (its 90 00 is in the transmit buffer, in a DataBlock with sequence
    number 2), nothing of it reaches the wire, and the next command's answer
    takes its place. *)
Example pin_answer_lost :
  match UsbDemo.pin_session with
  | Ret (u, deferred, late, next) =>
      deferred = [[]; []] /\
      get_tx_buffer (handler u) = [0x80; 2; 0; 0; 0; 0; 2; 0; 0; 0; 0x90; 0x00] /\
      late = [] /\ next = [[0x81; 0; 0; 0; 0; 0; 3; 0; 0; 0]] /\
      CardMock.call_log (driver (handler u)) =
        [CardMock.PowerOn; CardMock.TransmitApdu 11]
  | Panic => False
  end.
Proof. vm_compute. repeat split. Qed.

Lemma fresh_ok : usb_ok UsbDemo.fresh.
Proof.
  constructor; [|vm_compute; lia|done]. apply contact_new_ok.
  repeat split; try (repeat constructor; lia); vm_compute; discriminate.
Qed.

Example usb_poll_safe_witness :
  exists u1, before_read 1000 (Err WouldBlock) UsbDemo.fresh = Ret u1 /\
    (poll 1000 (Err WouldBlock) (Ok UsbDemo.power_on) (Err BusError) UsbDemo.fresh = Panic <->
     fatal (Ok UsbDemo.power_on) u1).
Proof.
  destruct (usb_poll_safe 1000 (Err WouldBlock) (Ok UsbDemo.power_on) (Err BusError)
    UsbDemo.fresh fresh_ok) as (u1 & E1 & _ & Hp & _); [solve_bytes|].
  exists u1. split; [exact E1|exact Hp].
Defined.

Example usb_response_delivered_witness :
  let u := mkClass (set_tx (replicate 271 7, 64%nat) (handler UsbDemo.fresh)) 0 true false in
  exists u', offers [true; false; true] u = Ret (u', [replicate 64 7; []]).
Proof.
  intros u. assert (usb_ok u) as Hu.
  { destruct fresh_ok as [[Hm Hev] _ _]. constructor; [|simpl; lia|discriminate].
    split; [|exact Hev]. apply wf_tx; [exact Hm|simpl; lia|reflexivity]. }
  destruct (usb_response_delivered u [true; false; true] Hu eq_refl eq_refl eq_refl)
    as [(u' & w & E1 & _ & _ & H) _].
  exists u'. rewrite E1. destruct H as (-> & _); [vm_compute; discriminate|].
  vm_compute. reflexivity.
Defined.

Example usb_exchange_witness :
  exists u0 u1 u2, receives [Ok (take 7 UsbDemo.power_on)] UsbDemo.fresh = Ret u0 /\
    receive (Ok (drop 7 UsbDemo.power_on)) u0 = Ret u1 /\
    offers [true; false; true] u1 = Ret (u2, packets (get_tx_buffer (handler u1))) /\
    idle u2.
Proof.
  destruct (usb_exchange UsbDemo.fresh [take 7 UsbDemo.power_on] (drop 7 UsbDemo.power_on)
    (command_header PC_TO_RDR_ICC_POWER_ON 0 1 (1, 0, 0) []) [true; false; true])
    as (u0 & u1 & failed & E0 & _ & E1 & _ & _ & _ & H);
    [exact fresh_ok|repeat split|apply (cut_bytes UsbDemo.power_on); solve_bytes|discriminate
    |vm_compute; repeat split; lia|reflexivity| |].
  - intros Hpan. apply (panics_process _ _ (replicate 271 0)) in Hpan;
      [|apply fresh_ok|solve_bytes]. vm_compute in Hpan. discriminate.
  - exists u0, u1. destruct H as (u2 & E2 & _ & Hidle & _).
    + assert (Ret u0 = receives [Ok (take 7 UsbDemo.power_on)] UsbDemo.fresh) as X
        by (symmetry; exact E0).
      vm_compute in X. injection X as ->. vm_compute in E1. injection E1 as <-.
      vm_compute. discriminate.
    + exists u2. split; [exact E0|]. split; [exact E1|]. split; [exact E2|exact Hidle].
Defined.
