(* ===== verification/CardLink.v ===== *)
(** * The contact card's link layer

    The byte-level protocol code below the driver trait of
    [ContactHandler.v]: [ccid-firmware/src/smartcard_common.rs] (module [arm]:
    ATR reading, T=1 IFS negotiation, the T=0 exchange) and the parts of
    [smartcard.rs] that are protocol logic: the raw exchange, the T=1 block
    relay, wire timing and the data rate.  The byte I/O ([SmartcardIo]) is the
    class of the same name; register access below it is not modelled, but the
    values of the baud-rate and guard-time registers are part of the state.
    Loops that a card can prolong run on fuel. *)
From Stdlib Require Import ZArith Lia ZifyBool.
From stdpp Require Import prelude.
From S2P Require Import Prelude Atr CardInterface SelfHeal.
From S2P Require PpsFsm.
Local Open Scope Z_scope.

Module Link.

Definition SC_T0_GET_RESPONSE_MAX : Z := 32.
Definition SW1_NULL : Z := 0x60.
Definition SW1_GET_RESPONSE : Z := 0x61.
Definition SW1_WRONG_LENGTH : Z := 0x6C.
Definition INS_GET_RESPONSE : Z := 0xC0.
Definition DEFAULT_TA1 : Z := 0x11.
Definition SC_ATR_MAX_LEN : nat := 33.

Inductive SmartcardError :=
| NoCard | Timeout | InvalidATR | ParityError | ProtocolError | BufferOverflow | HardwareError.

Definition smartcard_error_class (e : SmartcardError) : XfrErrorKind :=
  match e with
  | ParityError => Parity
  | Timeout => XTimeout
  | _ => Unclassified
  end.

Class SmartcardIo (T : Type) := {
  send_byte : T -> Z -> T * result unit SmartcardError;
  recv_byte_timeout : T -> Z -> T * result Z SmartcardError;
  prepare_rx : T -> T
}.

(** How many more bytes the card will ever send: what the fuel of its exchanges
    is taken from.  The code has no such number. *)
Class CardStream (T : Type) := pending : T -> nat.

(** ** Computations over the link

    The state is the link and the caller's response buffer; [None] is a loop
    that ran out of fuel. *)
Section Monad.
Context {T : Type} `{!SmartcardIo T}.

Definition M (A : Type) : Type := T * list Z -> option (T * list Z * result A SmartcardError).

Definition ret {A} (a : A) : M A := fun s => Some (s, Ok a).
Definition fail {A} (e : SmartcardError) : M A := fun s => Some (s, Err e).
Definition bind {A B} (m : M A) (k : A -> M B) : M B := fun s =>
  match m s with
  | Some (s, Ok a) => k a s
  | Some (s, Err e) => Some (s, Err e)
  | None => None
  end.

Definition send (b : Z) : M unit := fun s =>
  let '(t, r) := send_byte s.1 b in Some ((t, s.2), r).
Definition recv (ms : Z) : M Z := fun s =>
  let '(t, r) := recv_byte_timeout s.1 ms in Some ((t, s.2), r).
Definition drain : M unit := fun s => Some ((prepare_rx s.1, s.2), Ok tt).
(** [response[i] = b], which the code guards or bounds. *)
Definition put (i : nat) (b : Z) : M unit := fun s => Some ((s.1, <[i := b]> s.2), Ok tt).

Fixpoint sends (bs : list Z) : M unit :=
  match bs with [] => ret tt | b :: bs => bind (send b) (fun _ => sends bs) end.
End Monad.
Arguments M T A : clear implicits.

Declare Scope link_scope.
Delimit Scope link_scope with link.
Notation "'let!' x ':=' m 'in' k" := (bind m (fun x => k))
  (at level 100, x name, m at level 100, k at level 200, right associativity) : link_scope.
Notation "m ;;! k" := (bind m (fun _ => k)) (at level 100, k at level 200, right associativity) : link_scope.
Local Open Scope link_scope.

(** ** The T=0 exchange *)
Section T0.
Context {T : Type} `{!SmartcardIo T}.
Variables (command : list Z) (max_response : nat) (procedure_timeout_ms byte_timeout_ms : Z).

(** A procedure byte other than NULL. *)
Fixpoint procedure_byte (fuel : nat) : M T Z :=
  match fuel with
  | O => fun _ => None
  | S fuel =>
      let! pb := recv procedure_timeout_ms in
      if pb =? SW1_NULL then procedure_byte fuel else ret pb
  end.

(** [if response_len + 2 <= max_response { .. }] *)
Definition put_sw (response_len : nat) (sw1 sw2 : Z) : M T unit :=
  if (response_len + 2 <=? max_response)%nat
  then put response_len sw1 ;;! put (response_len + 1) sw2
  else ret tt.

(** [for i in 0..n { response[response_len + i] = recv()? }] *)
Fixpoint recv_into (n off : nat) : M T unit :=
  match n with
  | O => ret tt
  | S n => let! b := recv byte_timeout_ms in put off b ;;! recv_into n (S off)
  end.

Definition GET_RESPONSE (le : Z) : list Z := [0x00; INS_GET_RESPONSE; 0x00; 0x00; le].

(** What follows the procedure byte [pb]; [loop] goes on with the exchange. *)
Definition t0_procedure (loop : bool -> list Z -> nat -> nat -> Z -> M T nat) (fuel : nat)
    (header : list Z) (body_offset response_len : nat) (get_response_count pb : Z) : M T nat :=
  let ins := nth 1 command 0 in
  if pb =? ins then
    let! sw1 := recv procedure_timeout_ms in
    let! sw2 := recv byte_timeout_ms in
    put_sw response_len sw1 sw2 ;;!
    let response_len := (response_len + 2)%nat in
    if sw1 =? SW1_WRONG_LENGTH then
      loop true (<[4%nat := sw2]> header) 5%nat response_len get_response_count
    else if (sw1 =? SW1_GET_RESPONSE) && (get_response_count <? SC_T0_GET_RESPONSE_MAX) then
      sends (GET_RESPONSE sw2) ;;!
      let! pb := procedure_byte fuel in
      if (pb =? INS_GET_RESPONSE) || (pb =? 0x4F) then
        let le := if sw2 =? 0 then 256%nat else Z.to_nat sw2 in
        let n := (le `min` (max_response - response_len))%nat in
        recv_into n response_len ;;!
        let response_len := (response_len + n)%nat in
        let! sw1 := recv byte_timeout_ms in
        let! sw2 := recv byte_timeout_ms in
        put_sw response_len sw1 sw2 ;;!
        let response_len := (response_len + 2)%nat in
        if sw1 =? SW1_GET_RESPONSE
        then loop true (GET_RESPONSE sw2) 5%nat response_len (get_response_count + 1)
        else ret response_len
      else ret response_len
    else ret response_len
  else if pb =? Z.lxor ins 0xFF then
    if (body_offset <? length command)%nat
    then send (nth body_offset command 0) ;;!
         loop false header (S body_offset) response_len get_response_count
    else loop false header body_offset response_len get_response_count
  else if pb =? SW1_GET_RESPONSE then
    let! sw2 := recv byte_timeout_ms in
    if SC_T0_GET_RESPONSE_MAX <=? get_response_count then
      put_sw response_len SW1_GET_RESPONSE sw2 ;;! ret (response_len + 2)%nat
    else loop true (GET_RESPONSE sw2) 5%nat response_len (get_response_count + 1)
  else if pb =? SW1_WRONG_LENGTH then
    let! sw2 := recv byte_timeout_ms in
    loop true (<[4%nat := sw2]> header) 5%nat response_len get_response_count
  else
    let! sw2 := recv byte_timeout_ms in
    put_sw response_len pb sw2 ;;! ret (response_len + 2)%nat.

(** The two loops of [transmit_apdu_t0]: [start] is a turn of the outer loop
    ([continue 'send']), which transmits the header and what is left of the
    body first. *)
Fixpoint t0_loop (fuel : nat) (start : bool) (header : list Z) (body_offset response_len : nat)
    (get_response_count : Z) : M T nat :=
  match fuel with
  | O => fun _ => None
  | S fuel =>
    (if start then sends header ;;! sends (drop body_offset command) else ret tt) ;;!
    let body_offset := if start then Nat.max body_offset (length command) else body_offset in
    let! pb := procedure_byte fuel in
    t0_procedure (t0_loop fuel) fuel header body_offset response_len get_response_count pb
  end.

Definition transmit_apdu_t0 (fuel : nat) : M T nat :=
  if (length command <? 5)%nat then fail ProtocolError
  else t0_loop fuel true (take 5 command) 5 0 0.
End T0.

(** ** T=1 *)
Section T1.
Context {T : Type} `{!SmartcardIo T}.

Definition S_IFS_REQ : Z := 0xC1.
Definition S_IFS_RESP : Z := 0xE1.
Definition IFSD : Z := 254.

Definition do_ifs_negotiation_t1 : M T Z :=
  sends [0; S_IFS_REQ; 1; IFSD; Z.lxor (Z.lxor S_IFS_REQ 1) IFSD] ;;!
  drain ;;!
  let! nad := recv 2000 in
  let! pcb := recv 500 in
  let! len := recv 500 in
  if negb (Z.land pcb 0xC0 =? 0xC0) || negb (len =? 1) then fail ProtocolError
  else
    let! ifsc := recv 500 in
    let! lrc_recv := recv 500 in
    if negb (lrc_recv =? Z.lxor (Z.lxor (Z.lxor nad pcb) len) ifsc) then fail ProtocolError
    else if pcb =? S_IFS_RESP then ret ifsc else fail ProtocolError.

(** [while total_len < bound { .. }] with one timeout per byte; the errors are
    mapped by [on_error]. *)
Fixpoint fill (n total_len : nat) (timeout_ms : nat -> Z)
    (on_error : SmartcardError -> SmartcardError) : M T unit :=
  match n with
  | O => ret tt
  | S n => fun s =>
      match recv (timeout_ms total_len) s with
      | Some (s, Ok byte) =>
          (put total_len byte ;;! fill n (S total_len) timeout_ms on_error) s
      | Some (s, Err e) => Some (s, Err (on_error e))
      | None => None
      end
  end.

(** The T=1 arm of [transmit_raw] after the send: one block. *)
Definition recv_t1_block (first_byte_ms inter_byte_ms : Z) (response_len : nat) : M T nat :=
  fill 3 0 (fun i => if (i =? 0)%nat then first_byte_ms else inter_byte_ms) (fun e => e) ;;!
  (fun s =>
    let expected := default response_len (t1_block_total_len (take 3 s.2) response_len) in
    (fill (expected - 3) 3 (fun _ => inter_byte_ms)
       (fun e => match e with Timeout => ProtocolError | e => e end) ;;!
     ret expected) s).

(** The other arm: bytes until the line falls silent. *)
Fixpoint recv_until_silent (n total_len : nat) : M T nat :=
  match n with
  | O => ret total_len
  | S n => fun s =>
      match recv (if (total_len =? 0)%nat then 500 else 50) s with
      | Some (s, Ok byte) => (put total_len byte ;;! recv_until_silent n (S total_len)) s
      | Some (s, Err Timeout) => Some (s, Ok total_len)
      | Some (s, Err e) => Some (s, Err e)
      | None => None
      end
  end.
End T1.

(** ** The firmware's copy of the ATR reading *)
Definition arm_set_ta1 (ta : Z) (p : AtrParams) : AtrParams :=
  {| fi := PpsFsm.fi_from_ta1 ta; di := PpsFsm.di_from_ta1 ta;
     ta1 := ta; protocol := protocol p; guard_time_n := guard_time_n p;
     ifsc := ifsc p; bwi := bwi p; cwi := cwi p; edc_type := edc_type p;
     has_ta1 := true |}.

Definition arm_use_ta (ta : Z) (s : atr_locals) : AtrParams :=
  if l_level s =? 1 then arm_set_ta1 ta (l_p s)
  else if (3 <=? l_level s) && (l_td s =? 1) then set_ifsc ta (l_p s)
  else l_p s.

(** The TD part; [level += 1] wraps. *)
Definition arm_td_byte (atr : list Z) (s : atr_locals) : loop_ctl :=
  if negb (Z.land (l_y s) 0x08 =? 0) then
    match atr !! l_idx s with
    | None => Break (l_p s)
    | Some td =>
        let td_protocol := Z.land td 0x0F in
        let p := if l_level s =? 1 then set_protocol td_protocol (l_p s) else l_p s in
        Continue {| l_p := p; l_y := Z.land (Z.shiftr td 4) 0x0F; l_idx := S (l_idx s);
                    l_level := wrap8 (l_level s + 1); l_td := td_protocol |}
    end
  else Break (l_p s).

Definition arm_parse_body (atr : list Z) (s : atr_locals) : loop_ctl :=
  and_then (interface_byte atr 0x01 arm_use_ta s) (fun s =>
  and_then (interface_byte atr 0x02 use_tb s) (fun s =>
  and_then (interface_byte atr 0x04 use_tc s) (fun s =>
  arm_td_byte atr s))).

Fixpoint arm_parse_loop (fuel : nat) (atr : list Z) (s : atr_locals) : option AtrParams :=
  match fuel with
  | O => None
  | S fuel => match arm_parse_body atr s with
              | Break p => Some p
              | Continue s' => arm_parse_loop fuel atr s'
              end
  end.

Definition arm_parse_atr (atr : list Z) : AtrParams :=
  match atr with
  | _ :: t0 :: _ =>
      default AtrParams_default (arm_parse_loop (length atr) atr (parse_atr_start t0))
  | _ => AtrParams_default
  end.

Definition detect_protocol_from_atr (atr : list Z) : Z :=
  if (length atr <? 3)%nat then 0
  else
    let y1 := Z.land (Z.shiftr (nth 1 atr 0) 4) 0x0F in
    let skip mask := if negb (Z.land y1 mask =? 0) then 1%nat else 0%nat in
    let idx := (2 + skip 0x01%Z + skip 0x02%Z + skip 0x04%Z)%nat in
    if negb (Z.land y1 0x08 =? 0) && (idx <? length atr)%nat
    then Z.land (nth idx atr 0) 0x0F else 0.

End Link.
