(* ===== verification/CardLinkSpec.v ===== *)
(** * The contact card's link layer: theorems

    About [CardLink.v].  What happens on the line is a trace of events; the
    lemmas relate the result of a computation to its trace, for any
    implementation of the byte I/O.  Then: T=0 exchanges end when the card
    falls silent, and the firmware reads an ATR as the shared parser does. *)
From Stdlib Require Import ZArith Lia ZifyBool.
From stdpp Require Import prelude.
From S2P Require Import Prelude Atr CardLink.
From S2P Require PpsFsm.
Import Link.
Local Open Scope Z_scope.
Local Open Scope link_scope.

(** ** Traces *)
Section Traces.
Context {T : Type} `{!SmartcardIo T}.

#[global] Instance SmartcardError_eq_dec : EqDecision SmartcardError.
Proof. solve_decision. Defined.

Inductive event :=
| Tx (b : Z) (r : result unit SmartcardError)
| Rx (ms : Z) (r : result Z SmartcardError)
| Purge.

(** One event of the line. *)
Definition stepped (t : T) (e : event) (t' : T) : Prop :=
  match e with
  | Tx b r => send_byte t b = (t', r)
  | Rx ms r => recv_byte_timeout t ms = (t', r)
  | Purge => t' = prepare_rx t
  end.

Definition line : T -> list event -> T -> Prop := trace stepped.

Definition sent (bs : list Z) : list event := (fun b => Tx b (Ok tt)) <$> bs.
(** Bytes received from offset [off] on, with the timeouts [tmo]. *)
Fixpoint received (tmo : nat -> Z) (off : nat) (bs : list Z) : list event :=
  match bs with [] => [] | b :: bs => Rx (tmo off) (Ok b) :: received tmo (S off) bs end.

Lemma received_app tmo off bs b :
  received tmo off (bs ++ [b]) = received tmo off bs ++ [Rx (tmo (off + length bs)%nat) (Ok b)].
Proof.
  revert off. induction bs as [|c bs IH]; intros off; cbn.
  - by rewrite Nat.add_0_r.
  - rewrite IH. by rewrite Nat.add_succ_r.
Qed.

(** ** Computations and their traces *)
(** [m] ends with the result [r]; its trace is [tr] and the response buffer
    becomes [buf']. *)
Definition runs {A} (m : M T A) (t : T) (buf : list Z) (tr : list event) (t' : T)
    (buf' : list Z) (r : result A SmartcardError) : Prop :=
  m (t, buf) = Some ((t', buf'), r) /\ line t tr t'.

Lemma runs_bind_ok {A B} (m : M T A) (k : A -> M T B) t buf tr1 t1 buf1 a tr2 t2 buf2 r :
  runs m t buf tr1 t1 buf1 (Ok a) -> runs (k a) t1 buf1 tr2 t2 buf2 r ->
  runs (bind m k) t buf (tr1 ++ tr2) t2 buf2 r.
Proof.
  intros [E1 L1] [E2 L2]. split; [unfold bind; by rewrite E1|]. by eapply trace_app.
Qed.

Lemma runs_bind_err {A B} (m : M T A) (k : A -> M T B) t buf tr t1 buf1 e :
  runs m t buf tr t1 buf1 (Err e) -> runs (bind m k) t buf tr t1 buf1 (Err e).
Proof. intros [E L]. split; [unfold bind; by rewrite E|done]. Qed.

Lemma runs_ret {A} (a : A) t buf : runs (ret a) t buf [] t buf (Ok a).
Proof. split; [done|constructor]. Qed.

Lemma runs_recv ms t buf :
  exists t' r, runs (recv ms) t buf [Rx ms r] t' buf r.
Proof.
  destruct (recv_byte_timeout t ms) as [t' r] eqn:E. exists t', r.
  split; [unfold recv; cbn [fst snd]; by rewrite E|by apply trace_one].
Qed.

Lemma runs_send b t buf :
  exists t' r, runs (send b) t buf [Tx b r] t' buf r.
Proof.
  destruct (send_byte t b) as [t' r] eqn:E. exists t', r.
  split; [unfold send; cbn [fst snd]; by rewrite E|by apply trace_one].
Qed.

Lemma runs_drain t buf : runs drain t buf [Purge] (prepare_rx t) buf (Ok tt).
Proof. split; [done|by apply trace_one]. Qed.

(** Sending: all bytes, or a prefix and the failing one. *)
Lemma runs_sends bs t buf :
  exists t' (r : result unit SmartcardError), match r with
  | Ok _ => runs (sends bs) t buf (sent bs) t' buf (Ok tt)
  | Err e => exists k b, bs !! k = Some b /\
      runs (sends bs) t buf (sent (take k bs) ++ [Tx b (Err e)]) t' buf (Err e)
  end.
Proof.
  revert t. induction bs as [|b bs IH]; intros t; [exists t, (Ok tt); apply runs_ret|].
  destruct (runs_send b t buf) as (t1 & r1 & H1).
  destruct r1 as [[]|e].
  - destruct (IH t1) as (t2 & [[]|e] & H2).
    + exists t2, (Ok tt). cbn [sends]. by eapply (runs_bind_ok _ _ _ _ [Tx b (Ok tt)]).
    + destruct H2 as (k & c & Hk & H2). exists t2, (Err e), (S k), c. split; [done|].
      cbn [sends]. by eapply (runs_bind_ok _ _ _ _ [Tx b (Ok tt)]).
  - exists t1, (Err e), 0%nat, b. split; [done|]. cbn [sends]. by eapply runs_bind_err.
Qed.

(** [bs] written at offset [off]. *)
Definition splice (off : nat) (bs buf : list Z) : list Z :=
  take off buf ++ bs ++ drop (off + length bs) buf.

Lemma splice_nil off buf : splice off [] buf = buf.
Proof. unfold splice. cbn. rewrite Nat.add_0_r. apply take_drop. Qed.
Lemma length_splice off bs buf : (off + length bs <= length buf)%nat ->
  length (splice off bs buf) = length buf.
Proof. intros. unfold splice. rewrite !length_app, length_take, length_drop. lia. Qed.
Lemma splice_cons off b bs buf : (off < length buf)%nat ->
  splice (S off) bs (<[off := b]> buf) = splice off (b :: bs) buf.
Proof.
  intros H. unfold splice.
  rewrite (take_S_r _ _ b) by (apply list_lookup_insert_eq; lia).
  rewrite take_insert_ge by lia. rewrite drop_insert_lt by lia.
  rewrite <- app_assoc. cbn [app length]. by rewrite Nat.add_succ_r.
Qed.
Lemma splice_0 bs buf : splice 0 bs buf = bs ++ drop (length bs) buf.
Proof. reflexivity. Qed.

(** [fill]: [n] bytes received, or fewer and the error that ended it. *)
Lemma runs_fill n off tmo on_error t buf : (off + n <= length buf)%nat ->
  exists bs t' (r : result unit SmartcardError), match r with
  | Ok _ => length bs = n /\
      runs (fill n off tmo on_error) t buf (received tmo off bs) t' (splice off bs buf) (Ok tt)
  | Err e => (length bs < n)%nat /\
      runs (fill n off tmo on_error) t buf
        (received tmo off bs ++ [Rx (tmo (off + length bs)%nat) (Err e)]) t'
        (splice off bs buf) (Err (on_error e))
  end.
Proof.
  revert off t buf. induction n as [|n IH]; intros off t buf Hn.
  { exists [], t, (Ok tt). rewrite splice_nil. split; [done|apply runs_ret]. }
  destruct (runs_recv (tmo off) t buf) as (t1 & r1 & E1 & L1). destruct r1 as [b|e].
  - destruct (IH (S off) t1 (<[off := b]> buf)) as (bs & t2 & r & H);
      [rewrite length_insert; lia|].
    assert (splice (S off) bs (<[off:=b]> buf) = splice off (b :: bs) buf) as Es
      by (apply splice_cons; lia).
    exists (b :: bs), t2, r. rewrite Es in H. cbn [length].
    destruct r as [[]|e]; destruct H as [Hl [E2 L2]]; (split; [lia|]); split.
    1, 3: cbn [fill]; rewrite E1; unfold bind, put; cbn [fst snd]; apply E2.
    1, 2: cbn [received app]; inversion L1 as [|? ? ? ? ? S1 L3]; inversion L3; subst.
    + econstructor; eauto.
    + rewrite Nat.add_succ_r. econstructor; eauto.
  - exists [], t1, (Err e). rewrite splice_nil. cbn [received app length].
    rewrite Nat.add_0_r. split; [lia|]. split; [|done]. cbn [fill]. by rewrite E1.
Qed.

(** ** The raw exchange *)
(** One timeout for the first byte, another for the rest. *)
Definition waits (first rest : Z) (i : nat) : Z := if (i =? 0)%nat then first else rest.

(** The length of the T=1 block whose first bytes are [bs], in a buffer of
    [size] bytes. *)
Definition block_len (size : nat) (bs : list Z) : nat :=
  default size (t1_block_total_len (take 3 bs) size).

Lemma block_len_range size bs : (4 <= size)%nat -> (4 <= block_len size bs <= size)%nat.
Proof.
  intros. unfold block_len, t1_block_total_len. repeat case_match; cbn; lia.
Qed.

Lemma received_split first rest off bs1 bs2 :
  received (waits first rest) off (bs1 ++ bs2) =
  received (waits first rest) off bs1 ++ received (waits first rest) (off + length bs1) bs2.
Proof.
  revert off. induction bs1 as [|b bs1 IH]; intros off; cbn.
  - by rewrite Nat.add_0_r.
  - rewrite IH. by rewrite Nat.add_succ_r.
Qed.

Lemma received_rest first rest off bs : (0 < off)%nat ->
  received (fun _ => rest) off bs = received (waits first rest) off bs.
Proof.
  revert off. induction bs as [|b bs IH]; intros off Ho; [done|]. cbn [received].
  rewrite IH by lia. unfold waits. destruct off; [lia|done].
Qed.

Lemma splice_splice bs1 bs2 buf :
  splice (length bs1) bs2 (splice 0 bs1 buf) = splice 0 (bs1 ++ bs2) buf.
Proof.
  rewrite !splice_0. unfold splice. rewrite take_app_length.
  rewrite (drop_app_ge bs1) by lia. rewrite drop_drop, length_app, <- app_assoc.
  do 3 f_equal. lia.
Qed.

Lemma take_splice k bs buf : (k <= length bs)%nat -> take k (splice 0 bs buf) = take k bs.
Proof. intros. rewrite splice_0. by apply take_app_le. Qed.

(** One block: its prologue, then what the prologue announces. *)
Lemma runs_t1_block first rest t buf : (4 <= length buf)%nat ->
  exists bs t' (r : result unit SmartcardError), match r with
  | Ok _ => length bs = block_len (length buf) bs /\
      runs (recv_t1_block first rest (length buf)) t buf (received (waits first rest) 0 bs)
        t' (splice 0 bs buf) (Ok (length bs))
  | Err e => (length bs < 3 \/ length bs < block_len (length buf) bs)%nat /\
      runs (recv_t1_block first rest (length buf)) t buf
        (received (waits first rest) 0 bs ++ [Rx (waits first rest (length bs)) (Err e)])
        t' (splice 0 bs buf)
        (Err (if (3 <=? length bs)%nat then match e with Timeout => ProtocolError | e => e end
              else e))
  end.
Proof.
  intros Hb. unfold recv_t1_block.
  destruct (runs_fill 3 0 (waits first rest) (fun e => e) t buf) as (bs1 & t1 & r1 & H1); [lia|].
  destruct r1 as [[]|e]; destruct H1 as [Hl1 H1]; cycle 1.
  { exists bs1, t1, (Err e). split; [lia|]. rewrite (proj2 (Nat.leb_gt _ _)) by lia.
    by eapply runs_bind_err. }
  destruct (block_len_range (length buf) bs1 Hb) as [Hlo Hhi].
  set (k := block_len (length buf) bs1) in *.
  assert (forall bs2, block_len (length buf) (bs1 ++ bs2) = k) as Ek.
  { intros. unfold k, block_len. by rewrite take_app_le by lia. }
  assert (default (length buf) (t1_block_total_len (take 3 (splice 0 bs1 buf)) (length buf)) = k)
    as Ed by (unfold k, block_len; by rewrite take_splice by lia).
  destruct (runs_fill (k - 3) 3 (fun _ => rest)
      (fun e => match e with Timeout => ProtocolError | e => e end) t1 (splice 0 bs1 buf))
    as (bs2 & t2 & r2 & H2); [rewrite length_splice; cbn; lia|].
  rewrite (received_rest first) in H2 by lia.
  assert (splice 3 bs2 (splice 0 bs1 buf) = splice 0 (bs1 ++ bs2) buf) as Es
    by (rewrite <- Hl1; apply splice_splice).
  rewrite Es in H2.
  exists (bs1 ++ bs2), t2, r2. rewrite Ek, received_split, length_app, Hl1. cbn [plus].
  destruct r2 as [[]|e]; destruct H2 as [Hl2 H2]; (split; [lia|]).
  - eapply runs_bind_ok; [exact H1|].
    destruct (runs_bind_ok _ (fun _ => ret (default (length buf)
      (t1_block_total_len (take 3 (splice 0 bs1 buf)) (length buf)))) _ _ _ _ _ _ _ _ _ _ H2
      (runs_ret _ _ _)) as [E L].
    rewrite app_nil_r in L. split; [|done]. cbn [snd]. rewrite Ed in *. rewrite E.
    do 3 f_equal. lia.
  - replace (3 <=? 3 + length bs2)%nat with true by (symmetry; apply Nat.leb_le; lia).
    rewrite <- app_assoc. eapply runs_bind_ok; [exact H1|].
    destruct (runs_bind_err _ (fun _ => ret k) _ _ _ _ _ _ H2) as [E L].
    split; [cbn [snd]; by rewrite Ed|]. unfold waits at 2. exact L.
Qed.

(** Bytes until the line is silent, or the buffer is full. *)
Lemma runs_until_silent n off t buf : (off + n = length buf)%nat ->
  exists bs t' (r : result unit SmartcardError), match r with
  | Ok _ => (length bs = n)%nat /\
      runs (recv_until_silent n off) t buf (received (waits 500 50) off bs) t'
        (splice off bs buf) (Ok (length buf))
  | Err e => (length bs < n)%nat /\
      runs (recv_until_silent n off) t buf
        (received (waits 500 50) off bs ++ [Rx (waits 500 50 (off + length bs)) (Err e)])
        t' (splice off bs buf)
        (match e with Timeout => Ok (off + length bs)%nat | e => Err e end)
  end.
Proof.
  revert off t buf. induction n as [|n IH]; intros off t buf Hn.
  { exists [], t, (Ok tt). rewrite splice_nil. split; [done|].
    replace (length buf) with off by lia. apply runs_ret. }
  destruct (runs_recv (waits 500 50 off) t buf) as (t1 & r1 & E1 & L1). destruct r1 as [b|e].
  - destruct (IH (S off) t1 (<[off := b]> buf)) as (bs & t2 & r & H);
      [rewrite length_insert; lia|].
    assert (splice (S off) bs (<[off:=b]> buf) = splice off (b :: bs) buf) as Es
      by (apply splice_cons; lia).
    rewrite Es, length_insert in H. exists (b :: bs), t2, r. cbn [length].
    destruct r as [[]|e]; destruct H as [Hl [E2 L2]]; (split; [lia|]); split.
    1, 3: cbn [recv_until_silent]; unfold waits in E1; rewrite E1; unfold bind, put; cbn [fst snd];
      rewrite E2; by rewrite ?Nat.add_succ_r.
    1, 2: cbn [received app]; inversion L1 as [|? ? ? ? ? S1 L3]; inversion L3; subst.
    + econstructor; eauto.
    + rewrite Nat.add_succ_r. econstructor; eauto.
  - exists [], t1, (Err e). rewrite splice_nil. cbn [received app length].
    rewrite Nat.add_0_r. split; [lia|]. split; [|done].
    cbn [recv_until_silent]. unfold waits in E1. rewrite E1. by destruct e.
Qed.

(** What a raw exchange does: the bytes [bs] it received, what happened on the
    line, and the result.  [t1]: the block relay. *)
Inductive relayed (t1 : bool) (first rest : Z) (data : list Z) (size : nat) :
    list event -> list Z -> result nat SmartcardError -> Prop :=
| relay_send_failed k b e :
    data !! k = Some b ->
    relayed t1 first rest data size (sent (take k data) ++ [Tx b (Err e)]) [] (Err e)
| relay_block bs :
    t1 = true -> length bs = block_len size bs ->
    relayed t1 first rest data size
      (sent data ++ Purge :: received (waits first rest) 0 bs) bs (Ok (length bs))
| relay_no_prologue bs e :
    t1 = true -> (length bs < 3)%nat ->
    relayed t1 first rest data size
      (sent data ++ Purge :: received (waits first rest) 0 bs
         ++ [Rx (waits first rest (length bs)) (Err e)]) bs (Err e)
| relay_truncated bs e :
    t1 = true -> (3 <= length bs < block_len size bs)%nat ->
    relayed t1 first rest data size
      (sent data ++ Purge :: received (waits first rest) 0 bs
         ++ [Rx (waits first rest (length bs)) (Err e)]) bs
      (Err match e with Timeout => ProtocolError | e => e end)
| relay_full bs :
    t1 = false -> length bs = size -> (0 < size)%nat ->
    relayed t1 first rest data size
      (sent data ++ Purge :: received (waits 500 50) 0 bs) bs (Ok size)
| relay_no_room :
    t1 = false -> size = 0%nat ->
    relayed t1 first rest data size (sent data ++ [Purge]) [] (Err Timeout)
| relay_silence bs :
    t1 = false -> (0 < length bs < size)%nat ->
    relayed t1 first rest data size
      (sent data ++ Purge :: received (waits 500 50) 0 bs
         ++ [Rx (waits 500 50 (length bs)) (Err Timeout)]) bs (Ok (length bs))
| relay_mute :
    t1 = false ->
    relayed t1 first rest data size (sent data ++ [Purge; Rx 500 (Err Timeout)]) [] (Err Timeout)
| relay_line_error bs e :
    t1 = false -> (length bs < size)%nat -> e <> Timeout ->
    relayed t1 first rest data size
      (sent data ++ Purge :: received (waits 500 50) 0 bs
         ++ [Rx (waits 500 50 (length bs)) (Err e)]) bs (Err e).

Lemma relayed_bounds t1 first rest data size tr bs r :
  (t1 = true -> (4 <= size)%nat) -> relayed t1 first rest data size tr bs r ->
  (length bs <= size)%nat /\
  (forall n, r = Ok n -> n = length bs /\ (0 < n)%nat /\ (t1 = true -> n = block_len size bs)).
Proof.
  intros H4 H.
  assert (t1 = true -> (4 <= block_len size bs <= size)%nat) as Hb
    by (intros Ht; apply block_len_range, H4, Ht).
  destruct H as [k b e _|bs Ht Hl|bs e Ht Hl|bs e Ht Hl|bs Ht Hl Hs|Ht Hs|bs Ht Hl|Ht|bs e Ht Hl _];
    try specialize (Hb Ht); (split; [cbn [length] in *; lia|]); intros n E; try discriminate;
    injection E as <-; (split; [lia|]); (split; [lia|]); intros Ht'; congruence.
Qed.

Lemma runs_after_purge {A} (m : M T A) data t buf t1 tr t2 buf2 r :
  runs (sends data) t buf (sent data) t1 buf (Ok tt) ->
  runs m (prepare_rx t1) buf tr t2 buf2 r ->
  runs (sends data ;;! drain ;;! m) t buf (sent data ++ Purge :: tr) t2 buf2 r.
Proof.
  intros H1 H2. eapply runs_bind_ok; [exact H1|].
  eapply (runs_bind_ok _ _ _ _ [Purge]); [apply runs_drain|exact H2].
Qed.

(** The last check of the second arm. *)
Lemma runs_nonempty n t buf tr t' buf' k :
  runs (recv_until_silent n 0) t buf tr t' buf' (Ok k) ->
  runs (let! total_len := recv_until_silent n 0 in
        if (total_len =? 0)%nat then fail Timeout else ret total_len) t buf tr t' buf'
    (if (k =? 0)%nat then Err Timeout else Ok k).
Proof.
  intros H. rewrite <- (app_nil_r tr). eapply runs_bind_ok; [exact H|].
  case_match; split; try done; constructor.
Qed.

(** Straight-line code always ends and leaves the response buffer alone. *)
Definition always {A} (m : M T A) : Prop := forall t buf, exists t' r, m (t, buf) = Some ((t', buf), r).

Lemma always_ret {A} (a : A) : always (ret a).
Proof. intros t buf. by eexists _, _. Qed.
Lemma always_fail {A} e : always (fail (A:=A) e).
Proof. intros t buf. by eexists _, _. Qed.
Lemma always_recv ms : always (recv ms).
Proof. intros t buf. destruct (runs_recv ms t buf) as (t' & r & E & _). by exists t', r. Qed.
Lemma always_drain : always drain.
Proof. intros t buf. by eexists _, _. Qed.
Lemma always_sends bs : always (sends bs).
Proof.
  intros t buf. destruct (runs_sends bs t buf) as (t' & [[]|e] & H).
  - destruct H as [E _]. by eexists _, _.
  - destruct H as (? & ? & _ & E & _). by eexists _, _.
Qed.
Lemma always_bind {A B} (m : M T A) (k : A -> M T B) :
  always m -> (forall a, always (k a)) -> always (bind m k).
Proof.
  intros Hm Hk t buf. unfold bind. destruct (Hm t buf) as (t1 & [a|e] & ->); [apply Hk|by eexists _, _].
Qed.

Lemma always_ifs : always do_ifs_negotiation_t1.
Proof.
  unfold do_ifs_negotiation_t1.
  repeat first [ apply always_ret | apply always_fail | apply always_recv | apply always_drain
    | apply always_sends | apply always_bind; [|intros] | case_match ].
Qed.
End Traces.

(** ** The T=0 exchange ends *)
(** A card that sends finitely many bytes. *)
Class FiniteCard (T : Type) `{!SmartcardIo T, !CardStream T} := {
  fc_send t b : (pending (send_byte t b).1 <= pending t)%nat;
  fc_recv t ms :
    match recv_byte_timeout t ms with
    | (t', Ok _) => (pending t' < pending t)%nat
    | (t', Err _) => (pending t' <= pending t)%nat
    end;
  fc_purge t : (pending (prepare_rx t) <= pending t)%nat
}.

Section Termination.
Context {T : Type} `{!SmartcardIo T, !CardStream T, !FiniteCard T}.

(** From a state in which the card has at most [n] bytes to send, [m] ends, and
    if it succeeds the card has sent at least [c] of them. *)
Definition ends {A} (c n : nat) (m : M T A) : Prop := forall t buf, (pending t <= n)%nat ->
  exists t' buf' r, m (t, buf) = Some ((t', buf'), r) /\ length buf' = length buf /\
    (pending t' <= pending t)%nat /\ (is_ok r -> pending t' + c <= pending t)%nat.

Lemma ends_ret {A} n (a : A) : ends 0 n (ret a).
Proof. intros t buf Hp. exists t, buf, (Ok a). split_and!; [done|done|lia|intros _; lia]. Qed.
Lemma ends_fail {A} c n e : ends c n (fail (A:=A) e).
Proof. intros t buf Hp. exists t, buf, (Err e). split_and!; [done|done|lia|done]. Qed.
Lemma ends_put n i b : ends 0 n (put i b).
Proof.
  intros t buf Hp. exists t, (<[i := b]> buf), (Ok tt).
  split_and!; [done|apply length_insert|lia|intros _; lia].
Qed.
Lemma ends_send n b : ends 0 n (send b).
Proof.
  intros t buf Hp. pose proof (fc_send t b) as L. destruct (send_byte t b) as [t' r] eqn:E.
  exists t', buf, r. cbn in L. split_and!; [unfold send; cbn; by rewrite E|done|lia|intros _; lia].
Qed.
Lemma ends_recv n ms : ends 1 n (recv ms).
Proof.
  intros t buf Hp. pose proof (fc_recv t ms) as L. destruct (recv_byte_timeout t ms) as [t' r] eqn:E.
  exists t', buf, r. split_and!; [unfold recv; cbn; by rewrite E|done|..];
    destruct r; cbn; try lia; intros []; lia.
Qed.
Lemma ends_bind {A B} c n (m : M T A) (k : A -> M T B) :
  ends c n m -> (forall a, (c <= n)%nat -> ends 0 (n - c) (k a)) -> ends 0 n (bind m k).
Proof.
  intros Hm Hk t buf Hp. destruct (Hm t buf Hp) as (t1 & buf1 & [a|e] & E1 & Hl1 & H1 & H2).
  - specialize (H2 I). destruct (Hk a ltac:(lia) t1 buf1) as (t2 & buf2 & r & E2 & Hl2 & H3 & _); [lia|].
    exists t2, buf2, r. unfold bind. rewrite E1, E2. split_and!; [done|congruence|lia|intros _; lia].
  - exists t1, buf1, (Err e). unfold bind. rewrite E1. split_and!; done.
Qed.
Lemma ends_if {A} c n (b : bool) (m1 m2 : M T A) :
  ends c n m1 -> ends c n m2 -> ends c n (if b then m1 else m2).
Proof. by destruct b. Qed.

Lemma ends_sends n bs : ends 0 n (sends bs).
Proof.
  revert n. induction bs as [|b bs IH]; intros n; [apply ends_ret|].
  eapply ends_bind; [apply ends_send|]. intros _ _. apply IH.
Qed.
Lemma ends_put_sw n max rl sw1 sw2 : ends 0 n (put_sw max rl sw1 sw2).
Proof.
  apply ends_if; [|apply ends_ret]. eapply ends_bind; [apply ends_put|]. intros _ _. apply ends_put.
Qed.
Lemma ends_recv_into bt k off n : ends 0 n (recv_into bt k off).
Proof.
  revert off n. induction k as [|k IH]; intros off n; [apply ends_ret|].
  eapply ends_bind; [apply ends_recv|]. intros b _. eapply ends_bind; [apply ends_put|]. intros _ _. apply IH.
Qed.
Lemma ends_procedure_byte pt fuel n : (n < fuel)%nat -> ends 1 n (procedure_byte pt fuel).
Proof.
  revert n. induction fuel as [|fuel IH]; intros n Hn t buf Hp; [lia|].
  destruct (ends_recv n pt t buf Hp) as (t1 & buf1 & [pb|e] & E1 & Hl & H1 & H2);
    cbn [procedure_byte]; unfold bind; rewrite E1; [|by exists t1, buf1, (Err e)].
  specialize (H2 I). case_match; [|by exists t1, buf1, (Ok pb)].
  destruct (IH (n - 1)%nat ltac:(lia) t1 buf1) as (t2 & buf2 & r & E2 & Hl2 & H3 & H4); [lia|].
  exists t2, buf2, r. split_and!; [done|congruence|lia|]. intros Hr. specialize (H4 Hr). lia.
Qed.

Ltac ends_step := first
  [ apply ends_ret | apply ends_fail | apply ends_send | apply ends_sends | apply ends_put_sw
  | apply ends_recv_into | apply ends_if
  | eapply ends_bind; [apply ends_recv|intros ? ?]
  | eapply ends_bind; [apply ends_procedure_byte; lia|intros ? ?]
  | eapply ends_bind; [apply ends_send|intros ? ?]
  | eapply ends_bind; [apply ends_sends|intros ? ?]
  | eapply ends_bind; [apply ends_put_sw|intros ? ?]
  | eapply ends_bind; [apply ends_recv_into|intros ? ?] ].

Lemma ends_t0_procedure cmd max pt bt loop fuel n hdr bo rl g pb :
  (n < fuel)%nat ->
  (forall m start hdr bo rl g, (m <= n)%nat -> ends 0 m (loop start hdr bo rl g)) ->
  ends 0 n (t0_procedure cmd max pt bt loop fuel hdr bo rl g pb).
Proof.
  intros Hn Hloop. unfold t0_procedure.
  repeat (cbv zeta; first [ends_step | apply Hloop; lia]).
Qed.

Lemma ends_t0_loop cmd max pt bt fuel n start hdr bo rl g :
  (n + 2 <= fuel)%nat -> ends 0 n (t0_loop cmd max pt bt fuel start hdr bo rl g).
Proof.
  revert n start hdr bo rl g. induction fuel as [|fuel IH]; intros n start hdr bo rl g Hn; [lia|].
  cbn [t0_loop]. eapply (ends_bind 0).
  { apply ends_if; [|apply ends_ret]. eapply ends_bind; [apply ends_sends|]. intros _ _. apply ends_sends. }
  intros _ _. cbv zeta. eapply ends_bind; [apply ends_procedure_byte; lia|]. intros pb Hc.
  apply ends_t0_procedure; [lia|]. intros. apply IH. lia.
Qed.

Lemma ends_transmit_apdu_t0 cmd max pt bt fuel n :
  (n + 2 <= fuel)%nat -> ends 0 n (transmit_apdu_t0 cmd max pt bt fuel).
Proof. intros. apply ends_if; [apply ends_fail|by apply ends_t0_loop]. Qed.
End Termination.

(** ** The firmware's ATR reading and the shared one *)
(** The only difference: Fi and Di come from the tables of the PPS machine. *)
Definition table_timing (p : AtrParams) : AtrParams :=
  if has_ta1 p then arm_set_ta1 (ta1 p) p else p.

Definition table_locals (s : atr_locals) : atr_locals :=
  mkLocals (table_timing (l_p s)) (l_y s) (l_idx s) (l_level s) (l_td s).
Definition table_ctl (c : loop_ctl) : loop_ctl :=
  match c with Continue s => Continue (table_locals s) | Break p => Break (table_timing p) end.

Lemma table_and_then c k k' :
  (forall s, k' (table_locals s) = table_ctl (k s)) ->
  and_then (table_ctl c) k' = table_ctl (and_then c k).
Proof. intros H. by destruct c; cbn. Qed.

Lemma table_interface_byte atr bit use use' s :
  (forall b, use' b (table_locals s) = table_timing (use b s)) ->
  interface_byte atr bit use' (table_locals s) = table_ctl (interface_byte atr bit use s).
Proof.
  intros H. unfold interface_byte. cbn [table_locals l_y l_idx].
  repeat case_match; try done. cbn. unfold table_locals at 2. cbn. by rewrite H.
Qed.

Lemma table_use_ta b s : arm_use_ta b (table_locals s) = table_timing (use_ta b s).
Proof.
  unfold arm_use_ta, use_ta, table_locals, table_timing. destruct s as [p ? ? lv td]. cbn.
  destruct (lv =? 1); [cbn; by destruct (has_ta1 p)|].
  by destruct ((3 <=? lv) && (td =? 1)); cbn; destruct (has_ta1 p).
Qed.
Lemma table_use_tb b s : use_tb b (table_locals s) = table_timing (use_tb b s).
Proof.
  unfold use_tb, table_locals, table_timing. destruct s as [p ? ? lv td]. cbn.
  by destruct ((2 <=? lv) && (td =? 1)); cbn; destruct (has_ta1 p).
Qed.
Lemma table_use_tc b s : use_tc b (table_locals s) = table_timing (use_tc b s).
Proof.
  unfold use_tc, table_locals, table_timing. destruct s as [p ? ? lv td]. cbn.
  by destruct (lv =? 1), (td =? 1); cbn; destruct (has_ta1 p).
Qed.
Lemma table_td_byte atr s : 0 <= l_level s < 255 ->
  arm_td_byte atr (table_locals s) = table_ctl (td_byte atr s).
Proof.
  intros Hl. unfold arm_td_byte, td_byte. cbn [table_locals l_y l_idx l_level l_p].
  destruct (negb _); [|done]. destruct (atr !! l_idx s) as [td|]; [|done].
  replace (l_level s =? u8_max) with false by (unfold u8_max; lia).
  cbn [table_ctl]. unfold table_locals. cbn. do 2 f_equal.
  - unfold table_timing, arm_set_ta1. by destruct (l_level s =? 1), (has_ta1 (l_p s)) eqn:E; cbn; rewrite ?E.
  - unfold wrap8. rewrite Z.mod_small; lia.
Qed.

(** The interface bytes leave the level alone. *)
Lemma interface_byte_level atr bit use s s' :
  interface_byte atr bit use s = Continue s' -> l_level s' = l_level s.
Proof. unfold interface_byte. intros. by repeat case_match; simplify_eq. Qed.

Lemma table_body atr s : 0 <= l_level s < 255 ->
  arm_parse_body atr (table_locals s) = table_ctl (parse_atr_body atr s).
Proof.
  intros Hl. unfold arm_parse_body, parse_atr_body.
  rewrite (table_interface_byte _ _ use_ta) by (intros; apply table_use_ta).
  destruct (interface_byte atr 1 use_ta s) as [s1|] eqn:E1; [|done].
  apply interface_byte_level in E1. cbn [and_then table_ctl].
  rewrite (table_interface_byte _ _ use_tb) by (intros; apply table_use_tb).
  destruct (interface_byte atr 2 use_tb s1) as [s2|] eqn:E2; [|done].
  apply interface_byte_level in E2. cbn [and_then table_ctl].
  rewrite (table_interface_byte _ _ use_tc) by (intros; apply table_use_tc).
  destruct (interface_byte atr 4 use_tc s2) as [s3|] eqn:E3; [|done].
  apply interface_byte_level in E3. cbn [and_then table_ctl].
  apply table_td_byte. lia.
Qed.

Lemma body_level atr s s' : bytes atr -> locals_wf atr s ->
  parse_atr_body atr s = Continue s' -> l_level s < 255 -> l_level s' = l_level s + 1.
Proof.
  intros _ _ E Hl. unfold parse_atr_body in E.
  destruct (interface_byte atr 1 use_ta s) as [s1|] eqn:E1; [|done].
  cbn [and_then] in E. destruct (interface_byte atr 2 use_tb s1) as [s2|] eqn:E2; [|done].
  cbn [and_then] in E. destruct (interface_byte atr 4 use_tc s2) as [s3|] eqn:E3; [|done].
  cbn [and_then] in E. apply interface_byte_level in E1, E2, E3.
  unfold td_byte in E. repeat case_match; simplify_eq; cbn; lia.
Qed.

Lemma table_loop fuel atr s : bytes atr -> locals_wf atr s ->
  1 <= l_level s < Z.of_nat (l_idx s) -> Z.of_nat (length atr) < 255 ->
  arm_parse_loop fuel atr (table_locals s) = table_timing <$> parse_atr_loop fuel atr s.
Proof.
  revert s. induction fuel as [|fuel IH]; intros s Hb Hs Hl Hlen; [done|].
  pose proof Hs as [_ Hidx]. cbn [arm_parse_loop parse_atr_loop]. rewrite table_body by lia.
  pose proof (body_wf atr s Hb Hs) as Hwf.
  destruct (parse_atr_body atr s) as [s'|p] eqn:E; cbn [table_ctl]; [|done].
  destruct Hwf as [Hwf Hi]. apply body_level in E; [|done..|lia]. apply IH; [done|done|lia|done].
Qed.

Lemma arm_parse_atr_eq atr : bytes atr -> (length atr < 255)%nat ->
  arm_parse_atr atr = table_timing (parse_atr atr).
Proof.
  intros Hb Hlen. destruct atr as [|ts [|t0 atr]]; [done..|]. unfold arm_parse_atr, parse_atr.
  change (parse_atr_start t0) with (table_locals (parse_atr_start t0)) at 1.
  assert (locals_wf (ts :: t0 :: atr) (parse_atr_start t0)) as Hwf.
  { split; [apply AtrParams_default_wf|cbn; lia]. }
  rewrite table_loop; [|done|done|cbn; lia|lia].
  destruct (loop_wf (length (ts :: t0 :: atr)) (ts :: t0 :: atr) (parse_atr_start t0)) as
    (p & -> & _); [done|done|cbn; lia|done].
Qed.

(** What every interface byte keeps, the parser keeps. *)
Section ParserInvariant.
Context (P : AtrParams -> Prop) (atr : list Z).
Hypothesis P_default : P AtrParams_default.
Hypothesis P_byte : forall b p, u8 b -> P p ->
  P (set_ta1 b p) /\ P (set_ifsc b p) /\ P (set_guard_time_n b p).
Hypothesis P_nibbles : forall b c p, P p ->
  P (set_bwi_cwi b c p) /\ P (set_edc_type b p) /\ P (Atr.set_protocol b p).
Hypothesis atr_bytes : bytes atr.

Definition ctl_inv (c : loop_ctl) : Prop :=
  match c with Continue s => P (l_p s) | Break p => P p end.

Lemma interface_byte_inv bit use s k : P (l_p s) ->
  (forall b, u8 b -> P (use b s)) -> (forall s', P (l_p s') -> ctl_inv (k s')) ->
  ctl_inv (and_then (interface_byte atr bit use s) k).
Proof.
  intros Hs Hu Hk. unfold interface_byte. destruct (negb _); [|by apply Hk].
  destruct (atr !! l_idx s) as [b|] eqn:E; [|done]. apply Hk, Hu. by eapply Forall_lookup_1.
Qed.

Lemma parse_atr_body_inv s : P (l_p s) -> ctl_inv (parse_atr_body atr s).
Proof.
  intros Hs. apply interface_byte_inv; [done| |].
  { intros. unfold use_ta. repeat case_match; try done; by apply P_byte. }
  intros s1 Hs1. apply interface_byte_inv; [done| |].
  { intros. unfold use_tb. case_match; [by apply P_nibbles|done]. }
  intros s2 Hs2. apply interface_byte_inv; [done| |].
  { intros. unfold use_tc. repeat case_match; [by apply P_byte|by apply (P_nibbles _ 0)|done]. }
  intros s3 Hs3. unfold td_byte.
  repeat case_match; simplify_eq; cbn; try done; by apply (P_nibbles _ 0).
Qed.

Lemma parse_atr_inv : P (parse_atr atr).
Proof.
  assert (forall fuel s, P (l_p s) -> P (default AtrParams_default (parse_atr_loop fuel atr s)))
    as Hloop.
  { induction fuel as [|fuel IH]; intros s Hs; [done|]. cbn.
    pose proof (parse_atr_body_inv s Hs). destruct (parse_atr_body atr s); [by apply IH|done]. }
  unfold parse_atr. destruct atr as [|ts [|t0 l]]; [done..|]. by apply Hloop.
Qed.
End ParserInvariant.

(** Fi and Di are those of TA1, or the defaults. *)
Definition timing_of_ta1 (p : AtrParams) : Prop :=
  if has_ta1 p
  then u8 (ta1 p) /\ fi p = fi_from_ta1_high (Z.shiftr (ta1 p) 4) /\
       di p = di_from_ta1_low (Z.land (ta1 p) 0x0F)
  else fi p = 372 /\ di p = 1.

Lemma parse_atr_timing atr : bytes atr -> timing_of_ta1 (parse_atr atr).
Proof. intros Hb. apply parse_atr_inv; [done|by intros b p Hu Hp..|done]. Qed.

(** The two tables, entry by entry. *)
Lemma tables_agree ta : u8 ta ->
  PpsFsm.fi_from_ta1 ta =
    (if fi_from_ta1_high (Z.shiftr ta 4) =? 0 then 372 else fi_from_ta1_high (Z.shiftr ta 4)) /\
  PpsFsm.di_from_ta1 ta = di_from_ta1_low (Z.land ta 0x0F).
Proof.
  intros H. apply (byte_forall (fun ta =>
    (PpsFsm.fi_from_ta1 ta =?
      (if fi_from_ta1_high (Z.shiftr ta 4) =? 0 then 372 else fi_from_ta1_high (Z.shiftr ta 4))) &&
    (PpsFsm.di_from_ta1 ta =? di_from_ta1_low (Z.land ta 0x0F)))) in H; [|vm_compute; reflexivity].
  lia.
Qed.

Definition with_fi (v : Z) (p : AtrParams) : AtrParams :=
  mkAtrParams v (di p) (ta1 p) (Atr.protocol p) (guard_time_n p) (Atr.ifsc p) (bwi p) (cwi p)
    (edc_type p) (has_ta1 p).

Lemma arm_parse_atr_shared atr : bytes atr -> (length atr <= SC_ATR_MAX_LEN)%nat ->
  arm_parse_atr atr =
    with_fi (if fi (parse_atr atr) =? 0 then 372 else fi (parse_atr atr)) (parse_atr atr).
Proof.
  intros Hb Hl. unfold SC_ATR_MAX_LEN in Hl. rewrite arm_parse_atr_eq by (done || lia).
  pose proof (parse_atr_timing atr Hb) as Ht. unfold timing_of_ta1, table_timing in *.
  destruct (parse_atr atr) as [f d ta pr g i bw cw ed [|]]; cbn in *.
  - destruct Ht as (Hu & -> & ->). destruct (tables_agree ta Hu) as [E1 E2].
    unfold arm_set_ta1, with_fi. cbn. by rewrite E1, E2.
  - by destruct Ht as [-> ->].
Qed.

(** *** The protocol *)
Lemma interface_byte_protocol atr bit use s :
  (forall b, Atr.protocol (use b s) = Atr.protocol (l_p s)) ->
  match interface_byte atr bit use s with
  | Continue s' => Atr.protocol (l_p s') = Atr.protocol (l_p s)
  | Break p => p = l_p s
  end.
Proof. intros H. unfold interface_byte. destruct (negb _); [|done]. by destruct (atr !! l_idx s); [apply H|]. Qed.

(** Up to the TD byte, a turn leaves the protocol alone. *)
Lemma interface_bytes_protocol atr s :
  match and_then (interface_byte atr 0x01 use_ta s) (fun s =>
        and_then (interface_byte atr 0x02 use_tb s) (fun s =>
        interface_byte atr 0x04 use_tc s)) with
  | Continue s' => Atr.protocol (l_p s') = Atr.protocol (l_p s)
  | Break p => Atr.protocol p = Atr.protocol (l_p s)
  end.
Proof.
  assert (forall b s, Atr.protocol (use_ta b s) = Atr.protocol (l_p s)) as Ha
    by (intros; unfold use_ta; by repeat case_match).
  assert (forall b s, Atr.protocol (use_tb b s) = Atr.protocol (l_p s)) as Hb
    by (intros; unfold use_tb; by repeat case_match).
  assert (forall b s, Atr.protocol (use_tc b s) = Atr.protocol (l_p s)) as Hc
    by (intros; unfold use_tc; by repeat case_match).
  pose proof (interface_byte_protocol atr 1 use_ta s (fun b => Ha b s)) as H1.
  destruct (interface_byte atr 1 use_ta s) as [s1|p]; cbn [and_then]; [|by subst].
  pose proof (interface_byte_protocol atr 2 use_tb s1 (fun b => Hb b s1)) as H2.
  destruct (interface_byte atr 2 use_tb s1) as [s2|p]; cbn [and_then]; [|by subst].
  pose proof (interface_byte_protocol atr 4 use_tc s2 (fun b => Hc b s2)) as H3.
  destruct (interface_byte atr 4 use_tc s2) as [s3|p]; [|subst]; congruence.
Qed.

Lemma parse_atr_body_split atr s :
  parse_atr_body atr s =
  and_then (and_then (interface_byte atr 0x01 use_ta s) (fun s =>
            and_then (interface_byte atr 0x02 use_tb s) (fun s =>
            interface_byte atr 0x04 use_tc s))) (td_byte atr).
Proof.
  unfold parse_atr_body. destruct (interface_byte atr 1 use_ta s) as [s1|]; [|done].
  cbn [and_then]. by destruct (interface_byte atr 2 use_tb s1).
Qed.

Lemma interface_bytes_level atr s s' :
  and_then (interface_byte atr 0x01 use_ta s) (fun s =>
  and_then (interface_byte atr 0x02 use_tb s) (fun s =>
  interface_byte atr 0x04 use_tc s)) = Continue s' -> l_level s' = l_level s.
Proof.
  destruct (interface_byte atr 1 use_ta s) as [s1|] eqn:E1; [|done]. cbn [and_then].
  destruct (interface_byte atr 2 use_tb s1) as [s2|] eqn:E2; [|done]. cbn [and_then].
  intros E3. apply interface_byte_level in E1, E2, E3. lia.
Qed.

Lemma loop_protocol fuel atr s p : 2 <= l_level s ->
  parse_atr_loop fuel atr s = Some p -> Atr.protocol p = Atr.protocol (l_p s).
Proof.
  revert s. induction fuel as [|fuel IH]; intros s Hl; [done|]. cbn [parse_atr_loop].
  rewrite parse_atr_body_split. pose proof (interface_bytes_protocol atr s) as H1.
  pose proof (interface_bytes_level atr s) as H2.
  destruct (and_then _ _) as [s'|q]; cbn [and_then]; [|by intros [= <-]].
  specialize (H2 _ eq_refl). unfold td_byte. replace (l_level s' =? 1) with false by lia.
  rewrite <- H1. destruct (negb _); [|by intros [= <-]].
  destruct (atr !! l_idx s'); [|by intros [= <-]].
  destruct (l_level s' =? u8_max); [by intros [= <-]|].
  intros E. apply IH in E; [done|cbn; lia].
Qed.

Definition skip (y mask : Z) : nat := if negb (Z.land y mask =? 0) then 1 else 0.

Lemma interface_byte_idx atr bit use s :
  match interface_byte atr bit use s with
  | Continue s' => l_idx s' = (l_idx s + skip (l_y s) bit)%nat /\ l_y s' = l_y s
  | Break _ => (length atr <= l_idx s)%nat
  end.
Proof.
  unfold interface_byte, skip. destruct (negb _); [|by rewrite Nat.add_0_r].
  destruct (atr !! l_idx s) eqn:E; [cbn; split; [lia|done]|by apply lookup_ge_None_1].
Qed.

Lemma interface_bytes_idx atr s :
  match and_then (interface_byte atr 0x01 use_ta s) (fun s =>
        and_then (interface_byte atr 0x02 use_tb s) (fun s =>
        interface_byte atr 0x04 use_tc s)) with
  | Continue s' =>
      l_idx s' = (l_idx s + skip (l_y s) 1 + skip (l_y s) 2 + skip (l_y s) 4)%nat /\
      l_y s' = l_y s
  | Break _ =>
      (length atr <= l_idx s + skip (l_y s) 1 + skip (l_y s) 2 + skip (l_y s) 4)%nat
  end.
Proof.
  pose proof (interface_byte_idx atr 1 use_ta s) as H1.
  destruct (interface_byte atr 1 use_ta s) as [s1|p]; cbn [and_then]; [|lia].
  destruct H1 as [H1 Hy1]. pose proof (interface_byte_idx atr 2 use_tb s1) as H2.
  destruct (interface_byte atr 2 use_tb s1) as [s2|p]; cbn [and_then]; [|lia].
  destruct H2 as [H2 Hy2]. pose proof (interface_byte_idx atr 4 use_tc s2) as H3.
  rewrite <- Hy1, <- Hy2 in *. destruct (interface_byte atr 4 use_tc s2) as [s3|p]; [|lia].
  destruct H3 as [H3 Hy3]. split; [lia|done].
Qed.

Lemma detect_protocol_shared atr : bytes atr -> (length atr < 255)%nat ->
  detect_protocol_from_atr atr = Atr.protocol (parse_atr atr).
Proof.
  intros Hb Hlen. destruct atr as [|ts [|t0 l]]; [done..|].
  set (atr := ts :: t0 :: l) in *. set (s := parse_atr_start t0).
  assert (locals_wf atr s) as Hwf by (split; [apply AtrParams_default_wf|cbn; lia]).
  destruct (loop_wf (length atr) atr s) as (p & E & _); [done|done|cbn; lia|].
  assert (parse_atr atr = p) as -> by (change (default AtrParams_default (parse_atr_loop (length atr) atr s) = p); by rewrite E).
  change (length atr) with (S (length (t0 :: l))) in E.
  change (parse_atr_loop (S ?n) ?a ?s) with (match parse_atr_body a s with
    Break p => Some p | Continue s' => parse_atr_loop n a s' end) in E.
  rewrite parse_atr_body_split in E.
  pose proof (interface_bytes_idx atr s) as Hi. pose proof (interface_bytes_protocol atr s) as Hp.
  pose proof (interface_bytes_level atr s) as Hv.
  set (idx := (l_idx s + skip (l_y s) 1 + skip (l_y s) 2 + skip (l_y s) 4)%nat) in *.
  assert (detect_protocol_from_atr atr =
    if (length atr <? 3)%nat then 0
    else if negb (Z.land (l_y s) 8 =? 0) && (idx <? length atr)%nat
    then Z.land (nth idx atr 0) 0x0F else 0) as -> by done.
  destruct (and_then (interface_byte atr 1 use_ta s) _) as [s'|q]; cbn [and_then] in E.
  - destruct Hi as [Hi Hy]. specialize (Hv _ eq_refl). unfold td_byte in E. rewrite Hy, Hi in E.
    destruct (negb (Z.land (l_y s) 8 =? 0)); cbn [andb].
    + destruct (atr !! idx) as [td|] eqn:Etd.
      * pose proof (lookup_lt_Some _ _ _ Etd) as Hlt. rewrite (nth_lookup_Some _ _ _ _ Etd).
        replace (l_level s') with 1 in E by (by rewrite Hv).
        change (1 =? 1) with true in E. change (1 =? u8_max) with false in E.
        cbv beta iota zeta in E. apply loop_protocol in E; [|cbn; lia]. rewrite E. cbn [l_p].
        rewrite (proj2 (Nat.ltb_lt _ _) Hlt). rewrite (proj2 (Nat.ltb_ge _ _)); [done|].
        unfold idx in Hlt. cbn in *. lia.
      * injection E as <-. rewrite Hp. apply lookup_ge_None_1 in Etd.
        rewrite (proj2 (Nat.ltb_ge idx _) Etd). by destruct (_ <? 3)%nat.
    + injection E as <-. rewrite Hp. by destruct (_ <? 3)%nat.
  - injection E as <-. rewrite Hp. rewrite (proj2 (Nat.ltb_ge idx _) Hi), andb_false_r.
    by destruct (_ <? 3)%nat.
Qed.

Lemma arm_parse_atr_range atr : bytes atr -> (length atr <= SC_ATR_MAX_LEN)%nat ->
  let p := arm_parse_atr atr in
  u8 (Atr.protocol p) /\ 372 <= fi p <= 2048 /\ 1 <= di p <= 64 /\ u8 (guard_time_n p).
Proof.
  intros Hb Hl. cbv zeta. rewrite arm_parse_atr_shared by done.
  destruct (parse_atr_wf atr Hb) as [Hf Hd _ Hp Hg _ _ _ _]. cbn. unfold u8 in *.
  split_and!; try lia; case_match; lia.
Qed.

(** ** T=0 exchanges that end in a status *)
Section Status.
Context {T : Type} `{!SmartcardIo T}.
Variables (command : list Z) (max_response : nat) (pt bt : Z).
Hypothesis command_length : (5 <= length command)%nat.
Hypothesis room : (2 <= max_response)%nat.

Definition ins : Z := nth 1 command 0.
(** NULL, and the acknowledgement of single bytes: everything is sent. *)
Definition idle (p : Z) : Prop := p = SW1_NULL \/ p = Z.lxor ins 0xFF.
Definition polls (ps : list Z) : list event := (fun p => Rx pt (Ok p)) <$> ps.
Definition apdu_sent (header : list Z) : list event := sent header ++ sent (drop 5 command).

(** The card asks for another length any number of times, then answers. *)
Inductive status_exchange : list Z -> list event -> Z -> Z -> Prop :=
| status_answer header ps sw1 sw2 :
    Forall idle ps -> ~ idle sw1 ->
    sw1 <> ins -> sw1 <> SW1_GET_RESPONSE -> sw1 <> SW1_WRONG_LENGTH ->
    status_exchange header
      (apdu_sent header ++ polls ps ++ [Rx pt (Ok sw1); Rx bt (Ok sw2)]) sw1 sw2
| status_retry header ps le tr sw1 sw2 :
    Forall idle ps -> ~ idle SW1_WRONG_LENGTH -> ins <> SW1_WRONG_LENGTH ->
    status_exchange (<[4%nat := le]> header) tr sw1 sw2 ->
    status_exchange header
      (apdu_sent header ++ polls ps ++ [Rx pt (Ok SW1_WRONG_LENGTH); Rx bt (Ok le)] ++ tr) sw1 sw2.

Lemma line_recv t ms b tr t2 buf :
  line t (Rx ms (Ok b) :: tr) t2 -> exists t1, recv ms (t, buf) = Some ((t1, buf), Ok b) /\ line t1 tr t2.
Proof.
  intros H. inversion H as [|? ? t1 ? ? S1 L]; subst. exists t1. split; [|done].
  unfold recv. cbn in *. by rewrite S1.
Qed.

Lemma line_sends bs t tr t2 buf :
  line t (sent bs ++ tr) t2 -> exists t1, sends bs (t, buf) = Some ((t1, buf), Ok tt) /\ line t1 tr t2.
Proof.
  revert t. induction bs as [|b bs IH]; intros t; [by exists t|]. cbn [sent fmap list_fmap app sends].
  intros H. inversion H as [|? ? t1 ? ? S1 L]; subst. destruct (IH t1 L) as (t3 & E & L').
  exists t3. split; [|done]. unfold bind, send. cbn in *. by rewrite S1, E.
Qed.

(** The continuation after a procedure byte. *)
Let after (fuel : nat) (header : list Z) (pb : Z) : M T nat :=
  t0_procedure command max_response pt bt (t0_loop command max_response pt bt fuel) fuel header
    (length command) 0 0 pb.

Lemma after_ack fuel header s :
  after (S fuel) header (Z.lxor ins 0xFF) s = bind (procedure_byte pt fuel) (after fuel header) s.
Proof.
  unfold after at 1, t0_procedure. fold ins.
  replace (Z.lxor ins 0xFF =? ins) with false.
  2:{ symmetry. apply Z.eqb_neq. intros Hx. apply (f_equal (Z.lxor ins)) in Hx.
      rewrite <- Z.lxor_assoc, Z.lxor_nilpotent, Z.lxor_0_l in Hx. done. }
  rewrite Z.eqb_refl, Nat.ltb_irrefl. done.
Qed.

Lemma t0_polls ps f1 f2 header t p tr t2 buf :
  Forall idle ps -> ~ idle p -> (length ps < f1)%nat -> (length ps < f2)%nat ->
  line t (polls ps ++ Rx pt (Ok p) :: tr) t2 ->
  exists f t1, bind (procedure_byte pt f1) (after f2 header) (t, buf) = after f header p (t1, buf) /\
    line t1 tr t2 /\ (f2 - length ps <= f)%nat.
Proof.
  intros Hps Hp. revert f1 f2 t. induction Hps as [|q ps Hq Hps IH]; intros f1 f2 t H1 H2 L;
    (destruct f1 as [|f1]; [lia|]); cbn [polls fmap list_fmap app] in L;
    apply (line_recv _ _ _ _ _ buf) in L as (t1 & E & L).
  - exists f2, t1. split; [|split; [done|lia]]. unfold bind. cbn [procedure_byte].
    unfold bind. rewrite E. replace (p =? SW1_NULL) with false; [done|].
    symmetry. apply Z.eqb_neq. intros ->. apply Hp. by left.
  - cbn [length] in *. destruct (q =? SW1_NULL) eqn:Eq.
    + destruct (IH f1 f2 t1) as (f & t3 & E2 & L2 & Hf); [lia..|done|].
      exists f, t3. split; [|split; [done|lia]]. rewrite <- E2.
      unfold bind. cbn [procedure_byte]. unfold bind. by rewrite E, Eq.
    + destruct Hq as [-> | ->]; [done|]. destruct f2 as [|f2]; [lia|].
      destruct (IH f2 f2 t1) as (f & t3 & E2 & L2 & Hf); [lia..|done|].
      exists f, t3. split; [|split; [done|lia]]. rewrite <- E2.
      unfold bind at 1. cbn [procedure_byte]. unfold bind at 1. rewrite E, Eq.
      cbv beta iota delta [ret]. by rewrite after_ack.
Qed.

Lemma t0_turn ps fuel header bo t p tr t2 buf :
  (bo <= 5)%nat -> drop bo command = drop 5 command ->
  Forall idle ps -> ~ idle p -> (length ps + 1 < fuel)%nat ->
  line t (apdu_sent header ++ polls ps ++ Rx pt (Ok p) :: tr) t2 ->
  exists f t1, t0_loop command max_response pt bt fuel true header bo 0 0 (t, buf) =
      after f header p (t1, buf) /\ line t1 tr t2 /\ (fuel - 1 - length ps <= f)%nat.
Proof.
  intros Hbo Hd Hps Hp Hf L. destruct fuel as [|fuel]; [lia|]. unfold apdu_sent in L.
  rewrite <- app_assoc in L. apply (line_sends _ _ _ _ buf) in L as (ta & E1 & L).
  apply (line_sends _ _ _ _ buf) in L as (tb & E2 & L).
  destruct (t0_polls ps fuel fuel header tb p tr t2 buf) as (f & t1 & E3 & L3 & H3); try done; [lia..|].
  exists f, t1. split; [|split; [done|lia]]. rewrite <- E3. cbn [t0_loop].
  unfold bind at 1 2. rewrite E1, Hd, E2. cbv zeta.
  replace (bo `max` length command)%nat with (length command) by lia. done.
Qed.

Lemma status_exchange_spec header tr sw1 sw2 bo fuel t t2 buf :
  status_exchange header tr sw1 sw2 -> bo = 5%nat -> (length tr < fuel)%nat -> line t tr t2 ->
  (2 <= length buf)%nat ->
  t0_loop command max_response pt bt fuel true header bo 0 0 (t, buf) =
    Some ((t2, splice 0 [sw1; sw2] buf), Ok 2%nat).
Proof.
  intros H. revert bo fuel t.
  induction H as [header ps sw1 sw2 Hps Hi N1 N2 N3|header ps le tr sw1 sw2 Hps Hi N1 H IH];
    intros bo fuel t -> Hf L Hb; rewrite !length_app in Hf; cbn [length] in Hf;
    unfold polls in Hf; rewrite length_fmap in Hf.
  - destruct (t0_turn ps fuel header 5 t sw1 [Rx bt (Ok sw2)] t2 buf) as (f & t1 & -> & L1 & Hf1);
      [done..|lia|done|].
    apply (line_recv _ _ _ _ _ buf) in L1 as (t3 & E & L3). inversion L3; subst.
    unfold after, t0_procedure. fold ins.
    rewrite (proj2 (Z.eqb_neq _ _) N1), (proj2 (Z.eqb_neq _ _) N2), (proj2 (Z.eqb_neq _ _) N3).
    replace (sw1 =? Z.lxor ins 255) with false
      by (symmetry; apply Z.eqb_neq; intros ->; apply Hi; by right).
    unfold bind. rewrite E. unfold put_sw. rewrite (proj2 (Nat.leb_le _ _)) by (cbn; lia).
    destruct buf as [|b0 [|b1 buf]]; cbn in Hb; [lia..|]. done.
  - destruct (t0_turn ps fuel header 5 t SW1_WRONG_LENGTH (Rx bt (Ok le) :: tr) t2 buf) as
      (f & t1 & -> & L1 & Hf1); [done..|lia|done|].
    apply (line_recv _ _ _ _ _ buf) in L1 as (t3 & E & L3).
    rewrite <- (IH 5%nat f t3) by (done || lia). unfold after, t0_procedure. fold ins.
    replace (SW1_WRONG_LENGTH =? ins) with false by (symmetry; apply Z.eqb_neq; congruence).
    replace (SW1_WRONG_LENGTH =? Z.lxor ins 255) with false
      by (symmetry; apply Z.eqb_neq; intros Hx; apply Hi; by right).
    change (SW1_WRONG_LENGTH =? SW1_GET_RESPONSE) with false. rewrite Z.eqb_refl.
    cbv beta iota. unfold bind at 1. by rewrite E.
Qed.
End Status.

(** ** Properties *)
(** A scripted card, for the witnesses: what it sends, and what it was sent. *)
Module Script.
Record card := mkCard { incoming : list Z; outgoing : list Z }.

#[global] Instance script_io : SmartcardIo card := {
  send_byte c b := (mkCard (incoming c) (outgoing c ++ [b]), Ok tt);
  recv_byte_timeout c _ :=
    match incoming c with
    | b :: l => (mkCard l (outgoing c), Ok b)
    | [] => (c, Err Timeout)
    end;
  prepare_rx c := c
}.
#[global] Instance script_stream : CardStream card := fun c => length (incoming c).
#[global] Instance script_finite : FiniteCard card.
Proof. split; [done| |done]. intros [[|b l] o] ms; cbn; lia. Qed.
End Script.

(** C34: a T=0 exchange ends.  Against any card that sends finitely many more
    bytes ([pending]), the exchange returns (with a result or an error) within
    [pending + 2] turns, whatever the command and the bytes; the response
    buffer keeps its length. *)
Theorem t0_exchange_ends {T} `{!SmartcardIo T, !CardStream T, !FiniteCard T}
    command max_response pt bt fuel (t : T) buf :
  (pending t + 2 <= fuel)%nat ->
  exists t' buf' r,
    transmit_apdu_t0 command max_response pt bt fuel (t, buf) = Some ((t', buf'), r) /\
    length buf' = length buf /\ (pending t' <= pending t)%nat.
Proof.
  intros Hf. destruct (ends_transmit_apdu_t0 command max_response pt bt fuel (pending t) Hf t buf)
    as (t' & buf' & r & E & Hl & Hp & _); [done|]. by exists t', buf', r.
Qed.

Example t0_exchange_ends_witness :
  let c := Script.mkCard [0x60; 0xA4; 0x61; 0x02; 0xC0; 0xAA; 0xBB; 0x90; 0x00] [] in
  exists t' buf' r,
    transmit_apdu_t0 [0x00; 0xA4; 0x04; 0x00; 0x00] 20 5000 200 11 (c, replicate 20 0)
      = Some ((t', buf'), r) /\
    length buf' = length (replicate 20 0) /\ (pending t' <= pending c)%nat.
Proof. intros c. apply (t0_exchange_ends _ _ _ _ _ c). vm_compute. lia. Defined.

(** A T=0 exchange that ends in a status.  The reader sends the header and
    the whole body, skips NULL and acknowledgement bytes, sends the command
    again with the length the card proposes after [6C xx] (any number of
    times), and returns the card's two status bytes. *)
Theorem t0_status_exchange {T} `{!SmartcardIo T} command pt bt fuel (t t' : T) buf tr sw1 sw2 :
  (5 <= length command)%nat -> (2 <= length buf)%nat -> (length tr < fuel)%nat ->
  status_exchange command pt bt (take 5 command) tr sw1 sw2 -> line t tr t' ->
  transmit_apdu_t0 command (length buf) pt bt fuel (t, buf) =
    Some ((t', [sw1; sw2] ++ drop 2 buf), Ok 2%nat).
Proof.
  intros Hc Hb Hf Hx L. unfold transmit_apdu_t0. rewrite (proj2 (Nat.ltb_ge _ _)) by lia.
  by eapply (status_exchange_spec command (length buf) pt bt).
Qed.

Example t0_status_exchange_witness :
  let cmd := [0x00; 0xC0; 0x00; 0x00; 0x00] in
  let c := Script.mkCard [0x60; 0x6C; 0x05; 0x60; 0x69; 0x82] [] in
  transmit_apdu_t0 cmd (length (replicate 10 0)) 5000 200 20 (c, replicate 10 0) =
    Some ((Script.mkCard [] [0; 0xC0; 0; 0; 0; 0; 0xC0; 0; 0; 5], [0x69; 0x82] ++ drop 2 (replicate 10 0)), Ok 2%nat).
Proof.
  intros cmd c.
  eapply (t0_status_exchange cmd 5000 200 20 c _ (replicate 10 0)
    ((apdu_sent cmd cmd ++ polls 5000 [0x60] ++ [Rx 5000 (Ok 0x6C); Rx 200 (Ok 5)] ++
      (apdu_sent cmd (<[4%nat := 5]> cmd) ++ polls 5000 [0x60] ++
       [Rx 5000 (Ok 0x69); Rx 200 (Ok 0x82)]))%list)).
  - vm_compute. lia.
  - vm_compute. lia.
  - vm_compute. lia.
  - apply status_retry.
    + repeat constructor.
    + intros [H|H]; by vm_compute in H.
    + by vm_compute.
    + apply status_answer; try (by vm_compute).
      * repeat constructor.
      * intros [H|H]; by vm_compute in H.
  - repeat econstructor.
Defined.

(** C35: the firmware reads an ATR as the shared parser does.  On every ATR the
    interface can store (33 bytes), its own copy of the parser returns the same
    parameters, except that it takes Fi = 372 where the shared one reports a
    reserved Fi; and the protocol it selects is the parser's. *)
Theorem atr_readers_agree atr :
  bytes atr -> (length atr <= SC_ATR_MAX_LEN)%nat ->
  let p := parse_atr atr in
  arm_parse_atr atr = with_fi (if fi p =? 0 then 372 else fi p) p /\
  detect_protocol_from_atr atr = Atr.protocol p /\
  372 <= fi (arm_parse_atr atr) <= 2048 /\ 1 <= di (arm_parse_atr atr) <= 64.
Proof.
  intros Hb Hl p. destruct (arm_parse_atr_range atr Hb Hl) as (_ & Hf & Hd & _).
  split; [by apply arm_parse_atr_shared|]. split; [|done].
  apply detect_protocol_shared; [done|unfold SC_ATR_MAX_LEN in Hl; lia].
Qed.

Example atr_readers_agree_witness :
  let atr := [0x3B; 0x90; 0x71; 0x01; 0x80] in
  let p := parse_atr atr in
  (fi p = 0 /\ fi (arm_parse_atr atr) = 372) /\
  arm_parse_atr atr = with_fi (if fi p =? 0 then 372 else fi p) p /\
  detect_protocol_from_atr atr = Atr.protocol p /\
  372 <= fi (arm_parse_atr atr) <= 2048 /\ 1 <= di (arm_parse_atr atr) <= 64.
Proof.
  intros atr p. split; [by vm_compute|]. apply (atr_readers_agree atr); [solve_bytes|vm_compute; lia].
Defined.

(** The exchange of the IFS negotiation. *)
Definition ifs_trace (nad ifsc lrc : Z) : list event :=
  sent [0; S_IFS_REQ; 1; IFSD; 0x3E] ++
  [Purge; Rx 2000 (Ok nad); Rx 500 (Ok S_IFS_RESP); Rx 500 (Ok 1); Rx 500 (Ok ifsc); Rx 500 (Ok lrc)].

Lemma bind_ok_inv {T A B} (m : M T A) (k : A -> M T B) s s' b :
  bind m k s = Some (s', Ok b) -> exists s1 a, m s = Some (s1, Ok a) /\ k a s1 = Some (s', Ok b).
Proof. unfold bind. destruct (m s) as [[s1 [a|e]]|]; [by exists s1, a|done..]. Qed.

Lemma recv_ok_inv {T} `{!SmartcardIo T} ms t (buf : list Z) t' buf' b :
  recv ms (t, buf) = Some ((t', buf'), Ok b) -> line t [Rx ms (Ok b)] t' /\ buf' = buf.
Proof.
  destruct (runs_recv ms t buf) as (t1 & r & E & L). rewrite E. by intros [= <- <- ->].
Qed.

Lemma sends_ok_inv {T} `{!SmartcardIo T} bs t (buf : list Z) t' buf' :
  sends bs (t, buf) = Some ((t', buf'), Ok tt) -> line t (sent bs) t' /\ buf' = buf.
Proof.
  destruct (runs_sends bs t buf) as (t1 & [[]|e] & H).
  - destruct H as [E L]. rewrite E. by intros [= <- <-].
  - destruct H as (k & b & _ & E & _). by rewrite E.
Qed.

Ltac step_recv H x := let E := fresh "E" in let L := fresh "L" in
  apply bind_ok_inv in H as ([? ?] & x & E & H); apply recv_ok_inv in E as [L ->].

(** The IFS negotiation accepts exactly the card's well-formed answer.  It
    returns IFSC = [v] precisely when the line carried S(IFS request) for 254,
    then a purge, then a block E1 01 [v] with a correct LRC, within the
    timeouts 2000 and 500 ms; anything else is refused. *)
Theorem ifs_accepts_exactly {T} `{!SmartcardIo T} (t t' : T) buf v :
  do_ifs_negotiation_t1 (t, buf) = Some ((t', buf), Ok v) <->
  exists nad, line t (ifs_trace nad v (Z.lxor (Z.lxor (Z.lxor nad S_IFS_RESP) 1) v)) t'.
Proof.
  unfold do_ifs_negotiation_t1, ifs_trace. change (Z.lxor (Z.lxor S_IFS_REQ 1) IFSD) with 0x3E. split.
  - intros H. apply bind_ok_inv in H as ([ta b1] & [] & Es & H). apply sends_ok_inv in Es as [Ls ->].
    apply bind_ok_inv in H as ([tb b2] & [] & Ed & H). injection Ed as <- <-.
    step_recv H nad. step_recv H pcb. step_recv H len.
    destruct (negb _ || negb _) eqn:Eh; [done|]. step_recv H vv. step_recv H chk.
    destruct (negb (chk =? _)) eqn:El; [done|]. destruct (pcb =? S_IFS_RESP) eqn:Ep; [|done].
    injection H as <- <- . exists nad. apply Z.eqb_eq in Ep as ->.
    apply negb_false_iff, Z.eqb_eq in El as ->.
    apply orb_false_iff in Eh as [_ Eh]. apply negb_false_iff, Z.eqb_eq in Eh as ->.
    eapply trace_app; [exact Ls|]. apply (trace_app _ [Purge] (prepare_rx ta)); [by apply trace_one|].
    repeat (eapply (trace_app _ [_]); [eassumption|]). constructor.
  - intros (nad & L). apply (line_sends _ _ _ _ buf) in L as (ta & Es & L).
    inversion L as [|? ? tb ? ? S1 L1]; subst. cbn in S1. subst tb.
    do 5 (apply (line_recv _ _ _ _ _ buf) in L1 as (? & ? & L1)).
    inversion L1; subst. unfold bind. rewrite Es. unfold drain. cbn [fst snd].
    repeat match goal with
      | E : recv _ _ = _ |- _ => rewrite E; clear E
      | |- context [negb (Z.land S_IFS_RESP 192 =? 192) || negb (1 =? 1)] =>
          change (negb (Z.land S_IFS_RESP 192 =? 192) || negb (1 =? 1)) with false; cbv beta iota
      end.
    by rewrite Z.eqb_refl.
Qed.
