(* ===== verification/Smartcard.v ===== *)
(** * The USART smartcard driver

    [ccid-firmware/src/smartcard.rs] (the STM32F469 interface) with the
    configuration of [smartcard_common.rs], and [SmartcardWrapper] of
    [main.rs], which counts failures and power-cycles a dead card.  The
    protocol code it calls is in [CardLink.v]; pins, the receiver and the cycle
    counter are the hardware class below, the values written to the USART
    registers are part of the state.  The theorems are in [SmartcardSpec.v]. *)
From Stdlib Require Import ZArith Lia ZifyBool.
From stdpp Require Import prelude.
From S2P Require Import Prelude Atr Diag CardInterface SelfHeal ContactHandler CardLink.
From S2P Require PpsFsm.
Import Link.
Local Open Scope Z_scope.
Local Open Scope link_scope.

(** ** Configuration ([smartcard_common.rs]) *)
Record SmartcardConfig := mkConfig {
  power_on_delay_ms : Z;
  reset_delay_ms : Z;
  atr_post_rst_delay_ms : Z;
  clk_to_rst_delay_ms : Z;
  atr_timeout_ms : Z;
  atr_byte_timeout_ms : Z;
  byte_timeout_ms : Z;
  procedure_timeout_ms : Z;
  default_etu : Z;
  max_clk_hz : Z
}.

Definition SMARTCARD_CONFIG_DEFAULT : SmartcardConfig :=
  mkConfig 50 25 20 15 400 1000 200 5000 372 5000000.

(** ** The hardware below the driver

    [deactivate] and [activate] are the power and reset pins with their
    delays, [set_line_rate] the effect of a write to BRR; [read_sr], [read_dr]
    and [read_cyccnt] read the USART's status and data registers and the cycle
    counter of the core, [delay_1ms] is [delay_ms(1)]. *)
Class SmartcardHw (T : Type) `{!SmartcardIo T} := {
  pres_pin : T -> bool;
  deactivate : T -> T;
  activate : T -> T;
  set_line_rate : T -> Z -> T;
  read_sr : T -> T * Z;
  read_dr : T -> T * Z;
  delay_1ms : T -> T;
  read_cyccnt : T -> T * Z
}.

(** The turns the model gives the loop that collects an ATR, as a power of two.
    The code has no bound: it goes on for as long as the card sends. *)
Class AtrFuel (T : Type) := atr_fuel : T -> nat.

Module Uart.

Record SmartcardUart (T : Type) := mkUart {
  wire : T;
  brr : Z;
  gtpr : Z;
  cr2 : Z;
  cr3 : Z;
  atr : list Z;
  powered : bool;
  protocol : Z;
  ifsc : Z;
  t1_ns : Z;
  t1_bwi : Z;
  t1_cwi : Z;
  pclk1_hz : Z;
  card_clk_hz : Z;
  pps_speedup_active : bool;
  negotiated_baud : Z;
  pps_suppress_once : bool;
  config : SmartcardConfig
}.
Arguments mkUart {T}.
Arguments wire {T} _.
Arguments brr {T} _.
Arguments gtpr {T} _.
Arguments cr2 {T} _.
Arguments cr3 {T} _.
Arguments atr {T} _.
Arguments powered {T} _.
Arguments protocol {T} _.
Arguments ifsc {T} _.
Arguments t1_ns {T} _.
Arguments t1_bwi {T} _.
Arguments t1_cwi {T} _.
Arguments pclk1_hz {T} _.
Arguments card_clk_hz {T} _.
Arguments pps_speedup_active {T} _.
Arguments negotiated_baud {T} _.
Arguments pps_suppress_once {T} _.
Arguments config {T} _.

Section Setters.
Context {T : Type}.
Implicit Types u : SmartcardUart T.

Definition with_wire v_wire u : SmartcardUart T :=
  mkUart v_wire (brr u) (gtpr u) (cr2 u) (cr3 u) (atr u) (powered u) (protocol u) (ifsc u)
    (t1_ns u) (t1_bwi u) (t1_cwi u) (pclk1_hz u) (card_clk_hz u) (pps_speedup_active u)
    (negotiated_baud u) (pps_suppress_once u) (config u).
Definition with_brr v_brr u : SmartcardUart T :=
  mkUart (wire u) v_brr (gtpr u) (cr2 u) (cr3 u) (atr u) (powered u) (protocol u) (ifsc u)
    (t1_ns u) (t1_bwi u) (t1_cwi u) (pclk1_hz u) (card_clk_hz u) (pps_speedup_active u)
    (negotiated_baud u) (pps_suppress_once u) (config u).
Definition with_gtpr v_gtpr u : SmartcardUart T :=
  mkUart (wire u) (brr u) v_gtpr (cr2 u) (cr3 u) (atr u) (powered u) (protocol u) (ifsc u)
    (t1_ns u) (t1_bwi u) (t1_cwi u) (pclk1_hz u) (card_clk_hz u) (pps_speedup_active u)
    (negotiated_baud u) (pps_suppress_once u) (config u).
Definition with_cr2 v_cr2 u : SmartcardUart T :=
  mkUart (wire u) (brr u) (gtpr u) v_cr2 (cr3 u) (atr u) (powered u) (protocol u) (ifsc u)
    (t1_ns u) (t1_bwi u) (t1_cwi u) (pclk1_hz u) (card_clk_hz u) (pps_speedup_active u)
    (negotiated_baud u) (pps_suppress_once u) (config u).
Definition with_cr3 v_cr3 u : SmartcardUart T :=
  mkUart (wire u) (brr u) (gtpr u) (cr2 u) v_cr3 (atr u) (powered u) (protocol u) (ifsc u)
    (t1_ns u) (t1_bwi u) (t1_cwi u) (pclk1_hz u) (card_clk_hz u) (pps_speedup_active u)
    (negotiated_baud u) (pps_suppress_once u) (config u).
Definition with_atr v_atr u : SmartcardUart T :=
  mkUart (wire u) (brr u) (gtpr u) (cr2 u) (cr3 u) v_atr (powered u) (protocol u) (ifsc u)
    (t1_ns u) (t1_bwi u) (t1_cwi u) (pclk1_hz u) (card_clk_hz u) (pps_speedup_active u)
    (negotiated_baud u) (pps_suppress_once u) (config u).
Definition with_powered v_powered u : SmartcardUart T :=
  mkUart (wire u) (brr u) (gtpr u) (cr2 u) (cr3 u) (atr u) v_powered (protocol u) (ifsc u)
    (t1_ns u) (t1_bwi u) (t1_cwi u) (pclk1_hz u) (card_clk_hz u) (pps_speedup_active u)
    (negotiated_baud u) (pps_suppress_once u) (config u).
Definition with_protocol v_protocol u : SmartcardUart T :=
  mkUart (wire u) (brr u) (gtpr u) (cr2 u) (cr3 u) (atr u) (powered u) v_protocol (ifsc u)
    (t1_ns u) (t1_bwi u) (t1_cwi u) (pclk1_hz u) (card_clk_hz u) (pps_speedup_active u)
    (negotiated_baud u) (pps_suppress_once u) (config u).
Definition with_ifsc v_ifsc u : SmartcardUart T :=
  mkUart (wire u) (brr u) (gtpr u) (cr2 u) (cr3 u) (atr u) (powered u) (protocol u) v_ifsc
    (t1_ns u) (t1_bwi u) (t1_cwi u) (pclk1_hz u) (card_clk_hz u) (pps_speedup_active u)
    (negotiated_baud u) (pps_suppress_once u) (config u).
Definition with_waits v_t1_bwi v_t1_cwi u : SmartcardUart T :=
  mkUart (wire u) (brr u) (gtpr u) (cr2 u) (cr3 u) (atr u) (powered u) (protocol u) (ifsc
    u) (t1_ns u) v_t1_bwi v_t1_cwi (pclk1_hz u) (card_clk_hz u) (pps_speedup_active u)
    (negotiated_baud u) (pps_suppress_once u) (config u).
Definition with_t1_ns v_t1_ns u : SmartcardUart T :=
  mkUart (wire u) (brr u) (gtpr u) (cr2 u) (cr3 u) (atr u) (powered u) (protocol u) (ifsc
    u) v_t1_ns (t1_bwi u) (t1_cwi u) (pclk1_hz u) (card_clk_hz u) (pps_speedup_active u)
    (negotiated_baud u) (pps_suppress_once u) (config u).
Definition with_speedup v_pps_speedup_active u : SmartcardUart T :=
  mkUart (wire u) (brr u) (gtpr u) (cr2 u) (cr3 u) (atr u) (powered u) (protocol u) (ifsc
    u) (t1_ns u) (t1_bwi u) (t1_cwi u) (pclk1_hz u) (card_clk_hz u) v_pps_speedup_active
    (negotiated_baud u) (pps_suppress_once u) (config u).
Definition with_negotiated v_negotiated_baud u : SmartcardUart T :=
  mkUart (wire u) (brr u) (gtpr u) (cr2 u) (cr3 u) (atr u) (powered u) (protocol u) (ifsc
    u) (t1_ns u) (t1_bwi u) (t1_cwi u) (pclk1_hz u) (card_clk_hz u) (pps_speedup_active u)
    v_negotiated_baud (pps_suppress_once u) (config u).
Definition with_suppress v_pps_suppress_once u : SmartcardUart T :=
  mkUart (wire u) (brr u) (gtpr u) (cr2 u) (cr3 u) (atr u) (powered u) (protocol u) (ifsc
    u) (t1_ns u) (t1_bwi u) (t1_cwi u) (pclk1_hz u) (card_clk_hz u) (pps_speedup_active u)
    (negotiated_baud u) v_pps_suppress_once (config u).
End Setters.


Section Uart.
Context {T : Type} `{!SmartcardIo T, !SmartcardHw T, !AtrFuel T}.
Implicit Types u : SmartcardUart T.

(** *** Registers *)
Definition write_brr (brr_val : Z) u : SmartcardUart T :=
  with_wire (set_line_rate (wire u) (wrap16 brr_val)) (with_brr (wrap16 brr_val) u).
(** The guard time is the upper byte of GTPR; the prescaler is kept. *)
Definition write_guard_time (gt : Z) u : SmartcardUart T :=
  with_gtpr (Z.lor (Z.shiftl gt 8) (Z.land (gtpr u) 0xFF)) u.

Definition default_baud u : Z :=
  (card_clk_hz u + default_etu (config u) / 2) / default_etu (config u).
Definition reset_baud_default u : SmartcardUart T :=
  write_brr (pclk1_hz u / default_baud u) u.

Definition new (w : T) (pclk1 : Z) (cfg : SmartcardConfig) : SmartcardUart T :=
  let prescaler := Z.max 1 (Z.min ((pclk1 + 2 * max_clk_hz cfg - 1) / (2 * max_clk_hz cfg)) 31) in
  let card_clk := pclk1 / (2 * prescaler) in
  reset_baud_default
    (mkUart w 0 (Z.lor (Z.shiftl 16 8) prescaler) 0x3900 0x0020 [] false 0 32 0 4 13
       pclk1 card_clk false 0 false cfg).

Definition is_card_present u : bool := pres_pin (wire u).
Definition set_protocol (p : Z) u : SmartcardUart T := with_protocol p u.

Definition CLKEN : Z := 0x0800.
Definition set_clock (enable : bool) u : SmartcardUart T :=
  with_cr2 (if enable then Z.lor (cr2 u) CLKEN else Z.land (cr2 u) (Z.lnot CLKEN)) u.

Definition MIN_BAUD : Z := 9600.
Definition MAX_BAUD : Z := 5000000.
(** [clamp] panics on an empty range; [SmartcardSpec] shows it is not empty. *)
Definition set_clock_and_rate (clock_hz rate_bps : Z) u :
    SmartcardUart T * result (Z * Z) SmartcardError :=
  let rate_bps :=
    clamp rate_bps
      (if pps_speedup_active u then Z.max (negotiated_baud u) MIN_BAUD else MIN_BAUD) MAX_BAUD in
  if rate_bps =? 0 then (u, Err ProtocolError)
  else
    let brr_val := pclk1_hz u / rate_bps in
    if brr_val <? 16 then (u, Err ProtocolError)
    else (write_brr brr_val u, Ok (card_clk_hz u, pclk1_hz u / brr_val)).

(** Division by zero panics. *)
Definition set_baud_from_fi_di (fi di : Z) u : outcome (SmartcardUart T * bool) :=
  if di =? 0 then Ret (u, false)
  else if fi =? 0 then Panic
  else
    let baudrate := wrap32 (card_clk_hz u * di) / fi in
    if baudrate =? 0 then Panic
    else
      let brr_val := pclk1_hz u / baudrate in
      if brr_val <? 16 then Ret (u, false)
      else Ret (with_negotiated baudrate (write_brr brr_val u), true).

Definition wire_baud u : Z :=
  if pps_speedup_active u && (0 <? negotiated_baud u) then negotiated_baud u
  else card_clk_hz u / Z.max (default_etu (config u)) 1.

Definition set_wire_timing (fi di guard_time_n : Z) u : outcome (SmartcardUart T) :=
  let u := write_guard_time (t1_usart_framing guard_time_n).2 u in
  if (di =? 0) || (fi =? 0) then Ret u
  else
    let requested := wrap32 (card_clk_hz u * di) / fi in
    let current := wire_baud u in
    let proven := (pps_speedup_active u && (negotiated_baud u =? requested))
                  || (negb (pps_speedup_active u) && (requested =? current)) in
    if requested =? current then Ret u
    else if negb proven then Ret u
    else r ← set_baud_from_fi_di fi di u; Ret r.1.

(** *** PPS *)
(** The receive loop; the caller ignores which error ended it. *)
Fixpoint pps_receive (fuel : nat) (fsm : PpsFsm.PpsFsm) : M T unit :=
  match fuel with
  | O => fun _ => None
  | S fuel =>
      let! byte := recv 200 in
      match PpsFsm.process_byte fsm byte with
      | Ret (_, PpsFsm.Done) => ret tt
      | Ret (_, PpsFsm.Failed) => fail ProtocolError
      | Ret (fsm, _) => pps_receive fuel fsm
      | Panic => fun _ => None
      end
  end.

(** [pps_apply] is [PPS_APPLY_NEGOTIATED_BAUD]; the machine takes at most
    [PPS_MAX_LEN] bytes. *)
Definition negotiate_pps_fsm (pps_apply : bool) (params : AtrParams) (suppress_speedup : bool) u :
    option (SmartcardUart T) :=
  if negb (Atr.has_ta1 params) || (Atr.ta1 params =? DEFAULT_TA1) then Some u
  else
    let speedup := pps_apply && negb suppress_speedup in
    match (if speedup then PpsFsm.build_request PpsFsm.new (Atr.protocol params) (Atr.ta1 params)
           else PpsFsm.build_minimal_request PpsFsm.new (Atr.protocol params)) with
    | Panic => None
    | Ret (fsm, req) =>
        match (sends req ;;! drain ;;!
               pps_receive (S PpsFsm.PPS_MAX_LEN) (PpsFsm.start_response fsm)) (wire u, []) with
        | None => None
        | Some (w, _, Err _) => Some (with_wire w u)
        | Some (w, _, Ok _) =>
            let u := with_wire w u in
            if speedup then
              match set_baud_from_fi_di (Atr.fi params) (Atr.di params) u with
              | Ret (u, ok) => Some (with_speedup ok u)
              | Panic => None
              end
            else Some u
        end
    end.

(** *** Activation *)
(** RXNE and ORE of the status register. *)
Definition rxne (sr : Z) : bool := Z.testbit sr 5.
Definition ore (sr : Z) : bool := Z.testbit sr 3.

Definition SYSCLK_HZ : Z := 168000000.
Definition ATR_SILENCE_MS : Z := 50.

(** [while !rxne { delay_ms(1); countdown -= 1; if countdown == 0 { return } }];
    the register is read once more for the log.  [None]: timed out. *)
Fixpoint await_ts (countdown : nat) (t : T) : T * option unit :=
  let '(t, sr) := read_sr t in
  if rxne sr then (t, Some tt)
  else
    let t := delay_1ms t in
    match countdown with
    | S (S _ as countdown) => await_ts countdown t
    | _ => ((read_sr t).1, None)
    end.

(** One turn of the loop that collects the ATR: a byte is kept (a leading zero
    is not, and leaves the watchdog as it is), or the watchdog ends the loop. *)
Definition atr_step (s : T * Dwt.DwtWatchdog * list Z) :
    T * Dwt.DwtWatchdog * list Z + T * list Z :=
  let '(t, wd, raw) := s in
  let '(t, sr) := read_sr t in
  if rxne sr || ore sr then
    let '(t, dr) := read_dr t in
    let b := wrap8 dr in
    if (length raw =? 0)%nat && (b =? 0) then inl (t, wd, raw)
    else
      let raw := if (length raw <? SC_ATR_MAX_LEN)%nat then raw ++ [b] else raw in
      let '(t, now) := read_cyccnt t in
      inl (t, Dwt.start now wd, raw)
  else
    let '(t, now) := read_cyccnt t in
    if Dwt.expired now wd then inr (t, raw) else inl (t, wd, raw).

(** The countdown is a [u32]: from zero it would wrap. *)
Definition first_wait (ms : Z) : nat := Z.to_nat (if ms =? 0 then 2 ^ 32 else ms).

(** [read_atr]; [None] when the loop is still running after its fuel, as for a
    card that never stops sending. *)
Definition read_atr u : option (SmartcardUart T * result unit SmartcardError) :=
  let '(t, sr) := read_sr (wire u) in
  let t := if ore sr && negb (rxne sr) then (read_dr t).1 else t in
  match await_ts (first_wait (atr_timeout_ms (config u))) t with
  | (t, None) => Some (with_wire t u, Err Timeout)
  | (t, Some _) =>
      let '(t, now) := read_cyccnt t in
      let wd := Dwt.start now (Dwt.from_ms ATR_SILENCE_MS SYSCLK_HZ) in
      match turns (atr_fuel t) atr_step (t, wd, []) with
      | inl _ => None
      | inr (t, []) => Some (with_wire t u, Err InvalidATR)
      | inr (t, raw) => Some (with_atr raw (with_wire t u), Ok tt)
      end
  end.

Definition power_off u : SmartcardUart T :=
  let u := with_wire (deactivate (wire u)) u in
  let u := with_t1_ns 0 (with_ifsc 32 (with_protocol 0 (with_atr [] (with_powered false u)))) in
  let u := reset_baud_default (with_speedup false u) in
  write_guard_time T0_GUARD_TIME_ETU (with_cr2 (Z.lor (cr2 u) 0x3000) u).

(** [do_ifs_negotiation_t1(self)] *)
Definition ifs_negotiation u : option (SmartcardUart T * option Z) :=
  match do_ifs_negotiation_t1 (wire u, []) with
  | Some (w, _, Ok ifsc) => Some (with_ifsc ifsc (with_wire w u), Some ifsc)
  | Some (w, _, Err _) => Some (with_wire w u, None)
  | None => None
  end.

Definition CR3_NACK : Z := 0x10.

(** [power_on] once the ATR is in, up to the IFS exchange: protocol, TCK, PPS,
    framing.  [None] in the second component: the protocol is T=1. *)
Definition start_session (pps_apply pps_suppress : bool) u :
    option (SmartcardUart T * option (result (list Z) SmartcardError)) :=
  let u := with_powered true u in
  let params := arm_parse_atr (atr u) in
  let u := with_waits (Atr.bwi params) (Atr.cwi params) u in
  let u := with_protocol (detect_protocol_from_atr (atr u)) u in
  if negb (verify_atr_tck (atr u) (protocol u))
  then Some (with_powered false u, Some (Err InvalidATR))
  else
    match negotiate_pps_fsm pps_apply params pps_suppress u with
    | None => None
    | Some u =>
        let u := if protocol u =? 0 then with_cr3 (Z.lor (cr3 u) CR3_NACK) u else u in
        if protocol u =? 1 then
          let u := with_ifsc (Atr.ifsc params) u in
          let n_atr := if Atr.guard_time_n params =? 0 then GUARD_TIME_DEFAULT_N
                       else Atr.guard_time_n params in
          Some (write_guard_time (t1_usart_framing n_atr).2 u, None)
        else Some (u, Some (Ok (atr u)))
    end.

(** [power_on] up to the IFS exchange. *)
Definition activate_card (pps_apply : bool) u :
    option (SmartcardUart T * option (result (list Z) SmartcardError)) :=
  if negb (is_card_present u) then Some (u, Some (Err NoCard))
  else
    let u := with_powered false (with_atr [] (with_wire (deactivate (wire u)) u)) in
    let u := reset_baud_default (with_speedup false u) in
    let pps_suppress := pps_suppress_once u in
    let u := with_suppress false u in
    let u := with_wire (activate (prepare_rx (wire u))) u in
    match read_atr u with
    | None => None
    | Some (u, Err e) => Some (u, Some (Err e))
    | Some (u, Ok _) => start_session pps_apply pps_suppress u
    end.

(** [power_on]: the IFS exchange of a T=1 card, and the ladder that leaves a
    rate at which it fails (same rate, default rate, cold reset without PPS).
    [depth] counts the cold resets; [None] is an activation that does not end,
    or a panic. *)
Fixpoint power_on (depth : nat) (pps_apply : bool) u :
    option (SmartcardUart T * result (list Z) SmartcardError) :=
  match depth with
  | O => None
  | S depth =>
    match activate_card pps_apply u with
    | None => None
    | Some (u, Some r) => Some (u, r)
    | Some (u, None) =>
      match ifs_negotiation u with
      | None => None
      | Some (u, Some _) => Some (u, Ok (atr u))
      | Some (u, None) =>
        if negb (pps_speedup_active u) then Some (u, Ok (atr u))
        else
          match ifs_negotiation u with
          | None => None
          | Some (u, Some _) => Some (u, Ok (atr u))
          | Some (u, None) =>
            match ifs_negotiation (reset_baud_default (with_speedup false u)) with
            | None => None
            | Some (u, Some _) => Some (u, Ok (atr u))
            | Some (u, None) =>
              match power_on depth pps_apply (power_off (with_suppress true u)) with
              | None => None
              | Some (u, Ok _) => Some (u, Ok (atr u))
              | Some (u, Err _) => let u := with_suppress false u in Some (u, Ok (atr u))
              end
            end
          end
      end
    end
  end.

(** *** Exchanges *)
Definition on_wire {A} (m : M T A) u (response : list Z) :
    option (SmartcardUart T * list Z * result A SmartcardError) :=
  match m (wire u, response) with
  | Some (w, response, r) => Some (with_wire w u, response, r)
  | None => None
  end.

Definition transmit_raw (data : list Z) u (response : list Z) :
    option (SmartcardUart T * list Z * result nat SmartcardError) :=
  if negb (powered u) then Some (u, response, Err HardwareError)
  else
    on_wire
      (sends data ;;! drain ;;!
       if (protocol u =? 1) && (4 <=? length response)%nat then
         recv_t1_block (t1_first_byte_timeout_ms (t1_bwi u) (wire_baud u))
           (t1_inter_byte_timeout_ms (t1_cwi u) (wire_baud u)) (length response)
       else
         let! total_len := recv_until_silent (length response) 0 in
         if (total_len =? 0)%nat then fail Timeout else ret total_len) u response.

(** [fuel] bounds the procedure bytes of a T=0 exchange. *)
Definition transmit_apdu (fuel : nat) (command : list Z) u (response : list Z) :
    option (SmartcardUart T * list Z * result nat SmartcardError) :=
  if negb (powered u) then Some (u, response, Err HardwareError)
  else if protocol u =? 1 then transmit_raw command u response
  else
    on_wire (transmit_apdu_t0 command (length response) (procedure_timeout_ms (config u))
               (byte_timeout_ms (config u)) fuel) u response.
End Uart.

End Uart.

(** ** [SmartcardWrapper] of the F469 build ([main.rs]) *)
Module Wrapper.

Record SmartcardWrapper (T : Type) := mkWrapper {
  uart : Uart.SmartcardUart T;
  heal : Failures.FailureTracker
}.
Arguments mkWrapper {T}.
Arguments uart {T} _.
Arguments heal {T} _.

Definition PPS_APPLY_NEGOTIATED_BAUD : bool := false.

(** The wrapper's calls return: no activation and no exchange goes on for ever
    or panics.  [SmartcardSpec] shows it for every card that falls silent. *)
Class CardReturns (T : Type) `{!SmartcardIo T, !SmartcardHw T, !AtrFuel T, !CardStream T} : Prop := {
  power_on_returns (u : Uart.SmartcardUart T) :
    is_Some (Uart.power_on 2 PPS_APPLY_NEGOTIATED_BAUD u);
  transmit_returns command (u : Uart.SmartcardUart T) response :
    is_Some (Uart.transmit_apdu (2 + pending (Uart.wire u)) command u response)
}.

Section Wrapper.
Context {T : Type} `{!SmartcardIo T, !SmartcardHw T, !AtrFuel T, !CardStream T, !CardReturns T}.
Implicit Types w : SmartcardWrapper T.

Definition new (u : Uart.SmartcardUart T) : SmartcardWrapper T := mkWrapper u Failures.new.
Definition with_uart u w : SmartcardWrapper T := mkWrapper u (heal w).
Definition with_heal h w : SmartcardWrapper T := mkWrapper (uart w) h.

Definition uart_power_on (u : Uart.SmartcardUart T) :
    Uart.SmartcardUart T * result (list Z) SmartcardError :=
  is_Some_proj (power_on_returns u).
Definition uart_transmit (u : Uart.SmartcardUart T) (command response : list Z) :
    filled (Uart.SmartcardUart T) SmartcardError :=
  is_Some_proj (transmit_returns command u response).

Definition track_transmit (r : result nat SmartcardError) w :
    SmartcardWrapper T * result nat SmartcardError :=
  let outcome := match r with
                 | Ok O => Failures.Mute
                 | Ok _ => Failures.Success
                 | Err _ => Failures.Failure
                 end in
  let '(heal, fired) := Failures.record (heal w) outcome in
  let w := with_heal heal w in
  let w := if fired then with_uart (uart_power_on (Uart.power_off (uart w))).1 w else w in
  (w, match r with Ok O => Err Timeout | r => r end).

Definition power_on w : SmartcardWrapper T * result (list Z) SmartcardError :=
  let w := with_heal (Failures.session_start (heal w)) w in
  let '(u, r) := uart_power_on (uart w) in
  (with_uart u w, r).

Definition power_off w : SmartcardWrapper T :=
  with_uart (Uart.power_off (uart w)) (with_heal (Failures.session_start (heal w)) w).

Definition transmit_apdu w (command response : list Z) : filled (SmartcardWrapper T) SmartcardError :=
  let '(u, response, r) := uart_transmit (uart w) command response in
  let '(w, r) := track_transmit r (with_uart u w) in
  (w, response, r).

#[global] Instance wrapper_driver : SmartcardDriver (SmartcardWrapper T) SmartcardError := {
  sc_power_on := power_on;
  sc_power_off := power_off;
  sc_is_card_present w := Uart.is_card_present (uart w);
  sc_transmit_apdu := transmit_apdu;
  sc_set_protocol w p := with_uart (Uart.set_protocol p (uart w)) w;
  sc_set_clock w b := with_uart (Uart.set_clock b (uart w)) w;
  sc_set_clock_and_rate w c r :=
    let '(u, r) := Uart.set_clock_and_rate c r (uart w) in (with_uart u w, r);
  sc_set_wire_timing w fi di n :=
    match Uart.set_wire_timing fi di n (uart w) with
    | Ret u => with_uart u w
    | Panic => w
    end;
  sc_xfr_error_class _ := smartcard_error_class;
  sc_reinit_count w := Failures.reinit_count (heal w);
  sc_take_reinit_pending w :=
    let '(h, b) := Failures.take_reinit_pending (heal w) in (with_heal h w, b);
  sc_diagnostics _ base := base
}.
End Wrapper.

End Wrapper.
