(* ===== verification/SmartcardSpec.v ===== *)
(** * The USART smartcard driver: theorems

    About [Smartcard.v], for any hardware below it: the ATR is read to its end
    from a card that falls silent, the raw exchange is a faithful relay, activation ends with the interface at a rate the card is
    known to run at, the wire timing of the host does not move that rate, and
    failing exchanges re-activate the card. *)
From Stdlib Require Import ZArith Lia ZifyBool.
From stdpp Require Import prelude.
From S2P Require Import Prelude Wire Atr Diag CardInterface SelfHeal DeviceProfile Handler HandlerFacts ContactHandler CardLink CardLinkSpec Smartcard.
From S2P Require PpsFsm.
Import Link.
Local Open Scope Z_scope.
Local Open Scope link_scope.

Section Driver.
Context {T : Type} `{!SmartcardIo T, !SmartcardHw T, !AtrFuel T}.
Implicit Types u : Uart.SmartcardUart T.

(** With T=1 selected a raw exchange reads one block. *)
Definition reads_block u (response : list Z) : bool :=
  (Uart.protocol u =? 1) && (4 <=? length response)%nat.

Lemma on_wire_runs {A} (m : M T A) u buf tr t' buf' r :
  runs m (Uart.wire u) buf tr t' buf' r ->
  Uart.on_wire m u buf = Some (Uart.with_wire t' u, buf', r) /\ line (Uart.wire u) tr t'.
Proof. intros [E L]. split; [|done]. unfold Uart.on_wire. by rewrite E. Qed.

(** A raw exchange always ends, and is one of those of [relayed]. *)
Lemma transmit_raw_spec data u response :
  Uart.powered u = true ->
  let t1 := (Uart.protocol u =? 1) && (4 <=? length response)%nat in
  exists tr bs t' r,
    Uart.transmit_raw data u response =
      Some (Uart.with_wire t' u, splice 0 bs response, r) /\
    line (Uart.wire u) tr t' /\
    relayed t1 (t1_first_byte_timeout_ms (Uart.t1_bwi u) (Uart.wire_baud u))
      (t1_inter_byte_timeout_ms (Uart.t1_cwi u) (Uart.wire_baud u)) data (length response) tr bs r.
Proof.
  intros Hp t1. unfold Uart.transmit_raw. rewrite Hp. cbn [negb]. fold t1.
  set (first := t1_first_byte_timeout_ms _ _). set (rest := t1_inter_byte_timeout_ms _ _).
  destruct (runs_sends data (Uart.wire u) response) as (ta & [[]|e] & H1); cycle 1.
  { destruct H1 as (k & b & Hk & H1). exists (sent (take k data) ++ [Tx b (Err e)]), [], ta, (Err e).
    rewrite splice_nil. eapply runs_bind_err, on_wire_runs in H1 as [-> H1].
    split_and!; [done|done|by constructor]. }
  destruct t1 eqn:Et.
  - destruct (runs_t1_block first rest (prepare_rx ta) response) as (bs & tb & [[]|e] & Hl & H2);
      [unfold t1 in Et; lia|..].
    + eapply runs_after_purge, on_wire_runs in H2 as [E L]; [|exact H1].
      do 4 eexists. split_and!; [exact E|exact L|by constructor].
    + eapply runs_after_purge, on_wire_runs in H2 as [E L]; [|exact H1].
      do 4 eexists. split_and!; [exact E|exact L|].
      destruct (3 <=? length bs)%nat eqn:E3; constructor; try done; lia.
  - destruct (runs_until_silent (length response) 0 (prepare_rx ta) response) as
      (bs & tb & [[]|e] & Hl & H2); [lia|..].
    + apply runs_nonempty in H2. eapply runs_after_purge, on_wire_runs in H2 as [E L]; [|exact H1].
      do 4 eexists. split_and!; [exact E|exact L|].
      destruct (length response) eqn:E0; cbn [Nat.eqb].
      * destruct bs; [by constructor|done].
      * constructor; lia || done.
    + assert (runs (let! total_len := recv_until_silent (length response) 0 in
                    if (total_len =? 0)%nat then fail Timeout else ret total_len) (prepare_rx ta)
                response (received (waits 500 50) 0 bs ++ [Rx (waits 500 50 (length bs)) (Err e)])
                tb (splice 0 bs response)
                (if decide (e = Timeout /\ bs <> []) then Ok (length bs) else Err e)) as H3.
      { case_decide as D.
        - destruct D as [-> Hne]. apply runs_nonempty in H2. by destruct bs.
        - destruct e; try (by eapply runs_bind_err).
          destruct bs; [|naive_solver]. by apply runs_nonempty in H2. }
      eapply runs_after_purge, on_wire_runs in H3 as [E L]; [|exact H1].
      do 4 eexists. split_and!; [exact E|exact L|].
      case_decide as D.
      * destruct D as [-> Hne]. constructor; [done|]. destruct bs; [done|]. cbn in *. lia.
      * destruct (decide (e = Timeout)) as [->|Hne]; [|by constructor].
        destruct bs; [by constructor|naive_solver].
Qed.

(** ** PPS *)
(** The request for the rate of TA1 and its exact echo, on the line. *)
Definition echo_trace (req : list Z) : list event :=
  sent req ++ Purge :: ((fun b => Rx 200 (Ok b)) <$> req).

Lemma runs_pps_receive req fuel f r0 t buf :
  PpsFsm.fsm_inv req f -> PpsFsm.abs f = PpsFsm.AWait r0 -> PpsFsm.short r0 ->
  (7 <= length r0 + fuel)%nat ->
  exists tr t' r, runs (Uart.pps_receive fuel f) t buf tr t' buf r /\
    (r = Ok tt -> exists bs, tr = (fun b => Rx 200 (Ok b)) <$> bs /\ r0 ++ bs = req).
Proof.
  revert f r0 t. induction fuel as [|fuel IH]; intros f r0 t Hinv Ha Hs Hf.
  { pose proof (PpsFsm.short_length r0 Hs). lia. }
  destruct (runs_recv 200 t buf) as (t1 & [b|e] & H1); cycle 1.
  { do 3 eexists. split; [by eapply runs_bind_err|done]. }
  destruct (PpsFsm.byte_simulated req f b Hinv) as (g & Eg & Hg & Hag).
  pose proof (PpsFsm.wait_step req r0 b Hs) as Hw. rewrite Ha in Hag. rewrite <- Hag in Hw.
  assert (forall {tr t' r}, runs (match PpsFsm.state g with
      | PpsFsm.Done => ret tt | PpsFsm.Failed => fail ProtocolError
      | _ => Uart.pps_receive fuel g end) t1 buf tr t' buf r ->
    runs (Uart.pps_receive (S fuel) f) t buf (Rx 200 (Ok b) :: tr) t' buf r) as Hstep.
  { intros tr t' r H2. eapply (runs_bind_ok _ _ _ _ [_]); [exact H1|]. cbv beta. rewrite Eg.
    by destruct (PpsFsm.state g). }
  assert (forall r, PpsFsm.abs g = PpsFsm.AWait r -> exists tr t' r,
    runs (Uart.pps_receive (S fuel) f) t buf tr t' buf r /\
    (r = Ok tt -> exists bs, tr = (fun b => Rx 200 (Ok b)) <$> bs /\ r0 ++ bs = req)) as Hwait.
  { intros r Hr. rewrite Hr in Hw. destruct Hw as [-> Hs'].
    destruct (IH g (r0 ++ [b]) t1 Hg Hr Hs') as (tr & t2 & r & H2 & Hok);
      [rewrite length_app; cbn; lia|].
    exists (Rx 200 (Ok b) :: tr), t2, r. split.
    - apply Hstep. unfold PpsFsm.abs in Hr. by destruct (PpsFsm.state g).
    - intros E. destruct (Hok E) as (bs & -> & Eb). exists (b :: bs). split; [done|].
      by rewrite <- Eb, <- app_assoc. }
  unfold PpsFsm.abs in Hw, Hwait. destruct (PpsFsm.state g) eqn:Es; try done;
    try (by eapply Hwait).
  - do 3 eexists. split; [apply Hstep, runs_ret|]. intros _. exists [b]. done.
  - exists [Rx 200 (Ok b)], t1, (Err ProtocolError). split; [|done].
    apply Hstep. split; [done|constructor].
Qed.

(** ** The rate of the line *)
Definition at_default u : Prop := Uart.brr u = wrap16 (Uart.pclk1_hz u / Uart.default_baud u).

(** The rate of TA1, which the card confirmed by echoing the request. *)
Definition sped_up u : Prop :=
  let p := arm_parse_atr (Uart.atr u) in
  Uart.negotiated_baud u = Uart.card_clk_hz u * di p / fi p /\
  0 < Uart.negotiated_baud u /\ 16 <= Uart.pclk1_hz u / Uart.negotiated_baud u /\
  Uart.brr u = wrap16 (Uart.pclk1_hz u / Uart.negotiated_baud u) /\
  exists t t', line t (echo_trace (PpsFsm.request_of (Atr.protocol p) (ta1 p) false)) t'.

Definition rate_known u : Prop :=
  if Uart.pps_speedup_active u then sped_up u else at_default u.

Definition clocks_ok u : Prop := 2048 <= Uart.card_clk_hz u <= 5000000.

Definition params_ok (p : AtrParams) : Prop :=
  u8 (Atr.protocol p) /\ 372 <= fi p <= 2048 /\ 1 <= di p <= 64.

(** What PPS can change. *)
Definition with_rate (w : T) (active : bool) (negotiated brr : Z) u : Uart.SmartcardUart T :=
  Uart.with_speedup active (Uart.with_negotiated negotiated (Uart.with_brr brr (Uart.with_wire w u))).

Lemma set_baud_spec fi di u : clocks_ok u -> 372 <= fi <= 2048 -> 1 <= di <= 64 ->
  let baud := Uart.card_clk_hz u * di / fi in
  Uart.set_baud_from_fi_di fi di u = Ret (
    if Uart.pclk1_hz u / baud <? 16 then (u, false)
    else (Uart.with_negotiated baud (Uart.write_brr (Uart.pclk1_hz u / baud) u), true)) /\ 0 < baud.
Proof.
  intros Hc Hf Hd baud. unfold clocks_ok in Hc. unfold Uart.set_baud_from_fi_di.
  replace (di =? 0) with false by lia. replace (fi =? 0) with false by lia.
  assert (2048 <= Uart.card_clk_hz u * di <= 5000000 * 64) as Hm by nia.
  assert (wrap32 (Uart.card_clk_hz u * di) = Uart.card_clk_hz u * di) as ->
    by (unfold wrap32; apply Z.mod_small; lia).
  fold baud. assert (0 < baud) as Hb by (apply Z.div_str_pos; lia).
  replace (baud =? 0) with false by lia. split; [|done]. by case_match.
Qed.

Lemma negotiate_spec apply p suppress u : (apply = true -> clocks_ok u) -> params_ok p ->
  Uart.pps_speedup_active u = false ->
  exists w a n b, Uart.negotiate_pps_fsm apply p suppress u = Some (with_rate w a n b u) /\
    if a then
      apply = true /\ suppress = false /\ n = Uart.card_clk_hz u * di p / fi p /\ 0 < n /\
      16 <= Uart.pclk1_hz u / n /\ b = wrap16 (Uart.pclk1_hz u / n) /\
      exists t t', line t (echo_trace (PpsFsm.request_of (Atr.protocol p) (ta1 p) false)) t'
    else b = Uart.brr u.
Proof.
  intros Hc (Hp & Hf & Hd) Ha. unfold Uart.negotiate_pps_fsm.
  destruct (negb (has_ta1 p) || (ta1 p =? DEFAULT_TA1)).
  { exists (Uart.wire u), false, (Uart.negotiated_baud u), (Uart.brr u).
    split; [unfold with_rate; destruct u; cbn in Ha; by subst|done]. }
  set (speedup := apply && negb suppress).
  destruct (PpsFsm.request_started PpsFsm.new (Atr.protocol p) (ta1 p) (negb speedup)) as
    (g & E & Hinv & _ & Habs & _); [done|done|done|].
  set (req := PpsFsm.request_of (Atr.protocol p) (ta1 p) (negb speedup)) in *.
  replace (if speedup then PpsFsm.build_request PpsFsm.new (Atr.protocol p) (ta1 p)
           else PpsFsm.build_minimal_request PpsFsm.new (Atr.protocol p)) with (Ret (g, req))
    by (rewrite <- E; by destruct speedup).
  assert (forall w, Some (Uart.with_wire w u) = Some
    (with_rate w false (Uart.negotiated_baud u) (Uart.brr u) u)) as Hkeep.
  { intros w. unfold with_rate. destruct u; cbn in Ha. by subst. }
  destruct (runs_sends req (Uart.wire u) []) as (ta & [[]|e] & Hs); cycle 1.
  { destruct Hs as (k & b & _ & Hs). eapply runs_bind_err in Hs as [-> _].
    rewrite Hkeep. by do 4 eexists. }
  destruct (runs_pps_receive req (S PpsFsm.PPS_MAX_LEN) (PpsFsm.start_response g) []
    (prepare_rx ta) [] Hinv Habs I) as (tr & tb & r & Hr & Hok); [unfold PpsFsm.PPS_MAX_LEN; cbn; lia|].
  destruct (runs_after_purge _ _ _ _ _ _ _ _ _ Hs Hr) as [-> L].
  destruct r as [[]|e]; [|rewrite Hkeep; by do 4 eexists].
  destruct speedup eqn:Esp; [|rewrite Hkeep; by do 4 eexists].
  assert (clocks_ok u) as Hc' by (apply Hc; by destruct apply).
  destruct (set_baud_spec (fi p) (di p) (Uart.with_wire tb u) Hc' Hf Hd) as [-> Hpos].
  cbn [Uart.pclk1_hz Uart.card_clk_hz Uart.with_wire] in *.
  destruct (_ <? 16) eqn:E16.
  - exists tb, false, (Uart.negotiated_baud u), (Uart.brr u). done.
  - eexists _, true, _, _. split; [reflexivity|]. destruct (Hok eq_refl) as (bs & -> & Eb).
    cbn in Eb. subst bs. apply andb_true_iff in Esp as [Ea Es]. apply negb_true_iff in Es.
    split_and!; try done; [lia|by exists (Uart.wire u), tb].
Qed.

(** ** Activation *)
(** Everything but the line and its rate. *)
Definition same_clocks u u' : Prop :=
  Uart.pclk1_hz u' = Uart.pclk1_hz u /\ Uart.card_clk_hz u' = Uart.card_clk_hz u /\
  Uart.config u' = Uart.config u.

Lemma same_clocks_trans u u1 u2 : same_clocks u u1 -> same_clocks u1 u2 -> same_clocks u u2.
Proof. intros (A & B & C) (D & E & F). split_and!; congruence. Qed.

(** A card that falls silent.  [clock] counts the cycles since reset (the
    register shows its low 32 bits) and [rx_left] how often the receiver will
    still find something: a read of the data register that a flag announced
    uses one up, nothing else brings more, and a look at a quiet line takes
    between one cycle and 2^31 (12 s).  [AtrFuel] allows for as much. *)
Class SilentCard := {
  clock : T -> Z;
  rx_left : T -> nat;
  sl_sr t : (rx_left (read_sr t).1 <= rx_left t)%nat;
  sl_dr t : let r := read_sr t in Uart.rxne r.2 || Uart.ore r.2 = true ->
    (rx_left (read_dr r.1).1 < rx_left t)%nat;
  sl_cyccnt t : (rx_left (read_cyccnt t).1 <= rx_left t)%nat /\
    (read_cyccnt t).2 = wrap32 (clock (read_cyccnt t).1);
  sl_look t : clock t < clock (read_cyccnt (read_sr t).1).1 <= clock t + 2 ^ 31;
  sl_fuel t : (34 + rx_left t <= atr_fuel t)%nat
}.

Section ReadAtr.
Context `{!SilentCard}.
Implicit Types s : T * Dwt.DwtWatchdog * list Z.

Definition atr_dog : Z := 8400000.

(** Cycles on the watchdog, and the bytes kept so far. *)
Definition on_dog s : Z := (clock s.1.1 - Dwt.start_cycles s.1.2) mod 2 ^ 32.
Definition atr_inv s : Prop :=
  Dwt.timeout_cycles s.1.2 = atr_dog /\
  bytes s.2 /\ (length s.2 <= SC_ATR_MAX_LEN)%nat /\ (s.2 <> [] -> nth 0 s.2 0 <> 0).
(** What is left of the silence, and of the card. *)
Definition silence_left s : Z :=
  if on_dog s <? atr_dog then atr_dog - on_dog s else atr_dog + 2 ^ 32 - on_dog s.
Definition atr_measure s : Z := Z.of_nat (rx_left s.1.1) * 2 ^ 33 + silence_left s.

Lemma silence_range s : 0 < silence_left s <= 2 ^ 33 - 1.
Proof.
  unfold silence_left, atr_dog. pose proof (Z.mod_pos_bound (clock s.1.1 - Dwt.start_cycles s.1.2)
    (2 ^ 32) ltac:(lia)) as Hm. fold (on_dog s) in Hm. destruct (on_dog s <? 8400000) eqn:E; lia.
Qed.

(** A look at a quiet line shortens the silence that is left. *)
Lemma look_shortens t t' wd raw :
  clock t < clock t' <= clock t + 2 ^ 31 -> Dwt.timeout_cycles wd = atr_dog ->
  Dwt.expired (wrap32 (clock t')) wd = false ->
  silence_left (t', wd, raw) < silence_left (t, wd, raw).
Proof.
  intros Hc Hd He. unfold Dwt.expired, Dwt.elapsed_cycles, wrapping_sub32, wrap32 in He.
  rewrite Hd, Zminus_mod_idemp_l in He. unfold silence_left, on_dog, atr_dog in *. cbn [fst snd] in *.
  change 4294967296 with (2 ^ 32) in He.
  set (s0 := Dwt.start_cycles wd) in *. clearbody s0.
  set (e' := (clock t' - s0) mod 2 ^ 32) in *. set (e := (clock t - s0) mod 2 ^ 32) in *.
  assert (exists q, clock t' - s0 = 2 ^ 32 * q + e' /\ 0 <= e' < 2 ^ 32) as (q' & Q1 & Q2)
    by (exists ((clock t' - s0) / 2 ^ 32); split; [by apply Z.div_mod|by apply Z.mod_pos_bound]).
  assert (exists q, clock t - s0 = 2 ^ 32 * q + e /\ 0 <= e < 2 ^ 32) as (q & Q3 & Q4)
    by (exists ((clock t - s0) / 2 ^ 32); split; [by apply Z.div_mod|by apply Z.mod_pos_bound]).
  clearbody e e'. change (2 ^ 32) with 4294967296 in *. change (2 ^ 31) with 2147483648 in *.
  replace (e' <? 8400000) with true by lia. destruct (e <? 8400000) eqn:Ee; nia.
Qed.

Lemma atr_step_keeps s s' : atr_inv s -> Uart.atr_step s = inl s' ->
  atr_inv s' /\ 0 <= atr_measure s' < atr_measure s.
Proof.
  destruct s as [[t wd] raw]. intros (Hd & Hb & Hl & Hz). unfold Uart.atr_step. cbn [fst snd] in *.
  pose proof (sl_sr t) as H1. pose proof (sl_dr t) as H2. pose proof (sl_look t) as H3.
  cbv zeta in H2. destruct (read_sr t) as [t1 sr]. cbn [fst snd] in *.
  destruct (Uart.rxne sr || Uart.ore sr).
  - specialize (H2 eq_refl). destruct (read_dr t1) as [t2 dr]. cbn [fst snd] in *.
    assert (forall t' wd' raw', (rx_left t' <= rx_left t2)%nat ->
      0 <= atr_measure (t', wd', raw') < atr_measure (t, wd, raw)) as Hm.
    { intros t' wd' raw' Hle. unfold atr_measure. cbn [fst snd].
      pose proof (silence_range (t', wd', raw')). pose proof (silence_range (t, wd, raw)). nia. }
    destruct (_ && _) eqn:E0.
    + intros [= <-]. split; [done|]. by apply Hm.
    + pose proof (sl_cyccnt t2) as [H4 _]. destruct (read_cyccnt t2) as [t3 now]. cbn [fst snd] in *.
      intros [= <-]. split; [|by apply Hm]. unfold atr_inv. cbn [fst snd]. split; [done|].
      destruct (length raw <? SC_ATR_MAX_LEN)%nat eqn:El; [|done].
      split; [apply Forall_app; split; [done|]; apply Forall_singleton, u8_wrap8|].
      rewrite length_app. cbn [length]. split; [lia|]. intros _.
      destruct raw as [|b raw]; [cbn in E0 |- *; lia|by apply Hz].
  - pose proof (sl_cyccnt t1) as [H4 H5]. destruct (read_cyccnt t1) as [t2 now]. cbn [fst snd] in *.
    destruct (Dwt.expired now wd) eqn:He; [done|]. intros [= <-]. split; [done|].
    unfold atr_measure. cbn [fst snd]. rewrite H5 in He.
    pose proof (look_shortens t t2 wd raw H3 Hd He).
    pose proof (silence_range (t2, wd, raw)). nia.
Qed.

Lemma atr_step_stops s x : Uart.atr_step s = inr x -> x.2 = s.2.
Proof.
  destruct s as [[t wd] raw]. unfold Uart.atr_step. repeat case_match; try done.
  by intros [= <-].
Qed.

(** The reading ends: with an ATR, or because the card did not answer. *)
Lemma read_atr_spec u :
  exists w r raw, Uart.read_atr u = Some (Uart.with_atr raw (Uart.with_wire w u), r) /\
    match r with
    | Ok _ => bytes raw /\ (1 <= length raw <= SC_ATR_MAX_LEN)%nat /\ nth 0 raw 0 <> 0
    | Err e => raw = Uart.atr u /\ (e = Timeout \/ e = InvalidATR)
    end.
Proof.
  unfold Uart.read_atr. destruct (read_sr (Uart.wire u)) as [t0 sr].
  destruct (Uart.await_ts _ _) as [t1 [[]|]].
  2: { exists t1, (Err Timeout), (Uart.atr u). split; [by destruct u|auto]. }
  destruct (read_cyccnt t1) as [t2 now].
  set (s := (t2, Dwt.start now (Dwt.from_ms Uart.ATR_SILENCE_MS Uart.SYSCLK_HZ), [])).
  destruct (turns_end Uart.atr_step atr_inv atr_measure atr_step_keeps (atr_fuel t2) s) as
    (s' & [t3 raw] & E & (_ & Hb & Hl & Hz) & Hs).
  - split; [vm_compute; reflexivity|]. cbn. split; [by constructor|]. split; [lia|done].
  - intros s' _. unfold atr_measure. pose proof (silence_range s'). lia.
  - unfold atr_measure. pose proof (silence_range s) as Hr. pose proof (sl_fuel t2) as Hf.
    change (rx_left s.1.1) with (rx_left t2).
    transitivity (2 ^ 33 * (Z.of_nat (rx_left t2) + 1)); [lia|].
    transitivity (2 ^ 33 * 2 ^ (Z.of_nat (rx_left t2) + 1)).
    { apply Z.mul_le_mono_nonneg_l; [lia|]. apply Z.lt_le_incl, Z.pow_gt_lin_r; lia. }
    rewrite <- Z.pow_add_r by lia. apply Z.pow_le_mono_r; lia.
  - rewrite E. apply atr_step_stops in Hs. cbn [snd] in Hs. subst raw.
    destruct s'.2 as [|b raw].
    + exists t3, (Err InvalidATR), (Uart.atr u). split; [by destruct u|auto].
    + exists t3, (Ok tt), (b :: raw). split; [done|]. split; [done|]. cbn in *.
      split; [lia|]. by apply Hz.
Qed.
End ReadAtr.

(** A card that never stops sending: whatever the bytes, and however many turns
    are allowed, the ATR is never complete and activation does not return. *)
Lemma babbling_card_never_activates u :
  (forall t, Uart.rxne (read_sr t).2 = true) -> Uart.read_atr u = None.
Proof.
  intros Hrx. unfold Uart.read_atr. destruct (read_sr (Uart.wire u)) as [t0 sr].
  assert (forall n t, exists t', Uart.await_ts n t = (t', Some tt)) as Hw.
  { intros n t. pose proof (Hrx t). destruct n; cbn [Uart.await_ts]; destruct (read_sr t) as [t' b];
      cbn [snd] in *; exists t'; by destruct (Uart.rxne b). }
  destruct (Hw (Uart.first_wait (atr_timeout_ms (Uart.config u)))
    (if Uart.ore sr && negb (Uart.rxne sr) then (read_dr t0).1 else t0)) as [t1 ->].
  destruct (read_cyccnt t1) as [t2 now].
  edestruct (turns_forever Uart.atr_step (fun _ => True) (atr_fuel t2)) as (s' & -> & _); [|done..].
  intros [[t wd] raw] _. unfold Uart.atr_step. pose proof (Hrx t).
  destruct (read_sr t) as [t3 b]. cbn [snd] in *.
  replace (Uart.rxne b || Uart.ore b) with true by (by destruct (Uart.rxne b)).
  destruct (read_dr t3) as [t4 dr]. destruct (_ && _); [by eexists|].
  destruct (read_cyccnt t4) as [t5 now']. by eexists.
Qed.

Lemma reset_default u : at_default (Uart.reset_baud_default u).
Proof. done. Qed.

Lemma default_known u u' : at_default u -> Uart.pps_speedup_active u' = false ->
  Uart.brr u' = Uart.brr u -> same_clocks u u' -> rate_known u'.
Proof.
  intros H Ha Hb (S1 & S2 & S3). unfold rate_known, at_default, Uart.default_baud in *.
  by rewrite Ha, Hb, S1, S2, S3.
Qed.

Lemma rate_known_ext u u' : rate_known u -> same_clocks u u' ->
  Uart.pps_speedup_active u' = Uart.pps_speedup_active u ->
  Uart.negotiated_baud u' = Uart.negotiated_baud u -> Uart.brr u' = Uart.brr u ->
  Uart.atr u' = Uart.atr u -> rate_known u'.
Proof.
  unfold rate_known, sped_up, at_default, Uart.default_baud.
  intros H (S1 & S2 & S3) E1 E2 E3 E4. by rewrite E1, E2, E3, E4, S1, S2, S3.
Qed.

Lemma with_rate_known (apply suppress : bool) p w a n b u : at_default u -> p = arm_parse_atr (Uart.atr u) ->
  (if a : bool then
      apply = true /\ suppress = false /\ n = Uart.card_clk_hz u * di p / fi p /\ 0 < n /\
      16 <= Uart.pclk1_hz u / n /\ b = wrap16 (Uart.pclk1_hz u / n) /\
      exists t t', line t (echo_trace (PpsFsm.request_of (Atr.protocol p) (ta1 p) false)) t'
    else b = Uart.brr u) ->
  rate_known (with_rate w a n b u).
Proof.
  intros Hd -> H. unfold rate_known. cbn [Uart.pps_speedup_active with_rate Uart.with_speedup].
  destruct a.
  - destruct H as (_ & _ & -> & H1 & H2 & -> & H3). by split_and!.
  - subst b. exact Hd.
Qed.

(** The guard time the ATR asks for. *)
Definition atr_guard (p : AtrParams) : Z :=
  (t1_usart_framing (if guard_time_n p =? 0 then GUARD_TIME_DEFAULT_N else guard_time_n p)).2.

Lemma write_guard_time_read gt u : 0 <= gt -> Z.shiftr (Uart.gtpr (Uart.write_guard_time gt u)) 8 = gt.
Proof.
  intros. cbn. rewrite Z.shiftr_lor, Z.shiftr_shiftl_l by lia. cbn [Z.sub].
  rewrite Z.shiftr_land. change (Z.shiftr 255 8) with 0.
  by rewrite Z.land_0_r, Z.lor_0_r, Z.shiftl_0_r.
Qed.

(** What the session starts with: a refused ATR, a card that needs no IFS
    exchange, or a T=1 card with the guard time of its ATR. *)
Definition session_result u (r : option (result (list Z) SmartcardError)) : Prop :=
  match r with
  | Some (Err _) => Uart.powered u = false /\ Uart.pps_speedup_active u = false
  | _ =>
      Uart.powered u = true /\
      bytes (Uart.atr u) /\ (1 <= length (Uart.atr u) <= SC_ATR_MAX_LEN)%nat /\
      Uart.protocol u = Atr.protocol (parse_atr (Uart.atr u)) /\
      match r with
      | Some (Ok a) => a = Uart.atr u /\ Uart.protocol u <> 1
      | _ => Uart.protocol u = 1 /\
          Z.shiftr (Uart.gtpr u) 8 = atr_guard (arm_parse_atr (Uart.atr u))
      end
  end.

(** The interface before the ATR. *)
Definition cold u : Uart.SmartcardUart T :=
  let u := Uart.with_powered false (Uart.with_atr [] (Uart.with_wire (deactivate (Uart.wire u)) u)) in
  let u := Uart.with_suppress false (Uart.reset_baud_default (Uart.with_speedup false u)) in
  Uart.with_wire (activate (prepare_rx (Uart.wire u))) u.

Lemma cold_spec u : same_clocks u (cold u) /\ at_default (cold u) /\
  Uart.pps_speedup_active (cold u) = false /\ Uart.powered (cold u) = false /\
  Uart.pps_suppress_once (cold u) = false.
Proof. by destruct u. Qed.

(** The ATR's parameters are in. *)
Definition identified u : Uart.SmartcardUart T :=
  Uart.with_protocol (detect_protocol_from_atr (Uart.atr u))
    (Uart.with_waits (bwi (arm_parse_atr (Uart.atr u))) (cwi (arm_parse_atr (Uart.atr u)))
       (Uart.with_powered true u)).

Definition framed (p : AtrParams) u :
    Uart.SmartcardUart T * option (result (list Z) SmartcardError) :=
  let u := if Uart.protocol u =? 0
           then Uart.with_cr3 (Z.lor (Uart.cr3 u) Uart.CR3_NACK) u else u in
  if Uart.protocol u =? 1
  then (Uart.write_guard_time (atr_guard p) (Uart.with_ifsc (Atr.ifsc p) u), None)
  else (u, Some (Ok (Uart.atr u))).

Lemma start_session_eq apply suppress u :
  Uart.start_session apply suppress u =
  if negb (verify_atr_tck (Uart.atr (identified u)) (Uart.protocol (identified u)))
  then Some (Uart.with_powered false (identified u), Some (Err InvalidATR))
  else framed (arm_parse_atr (Uart.atr u)) <$>
    Uart.negotiate_pps_fsm apply (arm_parse_atr (Uart.atr u)) suppress (identified u).
Proof.
  unfold Uart.start_session. fold (identified u). destruct (negb _); [done|].
  destruct (Uart.negotiate_pps_fsm _ _ _ _); [|done].
  cbn [fmap option_fmap option_map]. unfold framed. by destruct (_ =? 1).
Qed.

Lemma framed_spec u : rate_known u -> Uart.powered u = true -> bytes (Uart.atr u) ->
  (1 <= length (Uart.atr u) <= SC_ATR_MAX_LEN)%nat ->
  Uart.protocol u = detect_protocol_from_atr (Uart.atr u) ->
  let '(u', r) := framed (arm_parse_atr (Uart.atr u)) u in
  same_clocks u u' /\ rate_known u' /\ Uart.atr u' = Uart.atr u /\
  Uart.pps_speedup_active u' = Uart.pps_speedup_active u /\
  Uart.pps_suppress_once u' = Uart.pps_suppress_once u /\ session_result u' r.
Proof.
  intros Hk Hp Hb Hl Hpr. destruct (arm_parse_atr_range (Uart.atr u) Hb) as (_ & _ & _ & Rg); [lia|].
  assert (detect_protocol_from_atr (Uart.atr u) = Atr.protocol (parse_atr (Uart.atr u))) as Hdet
    by (apply detect_protocol_shared; [done|unfold SC_ATR_MAX_LEN in Hl; lia]).
  unfold framed. destruct (Uart.protocol u =? 0) eqn:E0.
  - cbn [Uart.protocol Uart.with_cr3]. replace (Uart.protocol u =? 1) with false by lia.
    do 2 (split; [done || by eapply rate_known_ext|]). do 3 (split; [done|]).
    unfold session_result. cbn [Uart.powered Uart.atr Uart.protocol Uart.with_cr3].
    do 3 (split; [done|]). split; [congruence|]. split; [done|lia].
  - destruct (Uart.protocol u =? 1) eqn:E1.
    + do 2 (split; [done || by eapply rate_known_ext|]). do 3 (split; [done|]).
      unfold session_result.
      rewrite write_guard_time_read; [|unfold atr_guard, t1_usart_framing, u8, GUARD_TIME_DEFAULT_N in *;
        cbn; repeat case_match; lia].
      cbn [Uart.powered Uart.atr Uart.protocol Uart.write_guard_time Uart.with_gtpr Uart.with_ifsc].
      do 3 (split; [done|]). split; [congruence|]. split; [lia|done].
    + do 5 (split; [done|]). unfold session_result.
      do 3 (split; [done|]). split; [congruence|]. split; [done|lia].
Qed.

Lemma start_session_spec apply suppress u : (apply = true -> clocks_ok u) -> at_default u ->
  Uart.pps_speedup_active u = false -> Uart.pps_suppress_once u = false ->
  bytes (Uart.atr u) -> (1 <= length (Uart.atr u) <= SC_ATR_MAX_LEN)%nat ->
  exists u' r, Uart.start_session apply suppress u = Some (u', r) /\
    same_clocks u u' /\ rate_known u' /\
    (Uart.pps_speedup_active u' = true -> apply = true /\ suppress = false) /\
    Uart.pps_suppress_once u' = false /\ Uart.atr u' = Uart.atr u /\ session_result u' r.
Proof.
  intros Hc Hd Ha Hx Hb Hl.
  destruct (arm_parse_atr_range (Uart.atr u) Hb) as (Rp & Rf & Rdi & Rg); [lia|].
  assert (detect_protocol_from_atr (Uart.atr u) = Atr.protocol (parse_atr (Uart.atr u))) as Hdet
    by (apply detect_protocol_shared; [done|unfold SC_ATR_MAX_LEN in Hl; lia]).
  rewrite start_session_eq. set (p := arm_parse_atr (Uart.atr u)) in *.
  set (u1 := identified u). change (Uart.atr u1) with (Uart.atr u).
  change (Uart.protocol u1) with (detect_protocol_from_atr (Uart.atr u)).
  destruct (negb (verify_atr_tck _ _)) eqn:Etck.
  { exists (Uart.with_powered false u1), (Some (Err InvalidATR)).
    split_and!; try done. { by eapply default_known. } intros E. cbn in E. congruence. }
  destruct (negotiate_spec apply p suppress u1) as (w & a & n & b & -> & Hrate);
    [done|exact (conj Rp (conj Rf Rdi))|done|].
  set (u2 := with_rate w a n b u1).
  assert (rate_known u2) as Hk by (apply (with_rate_known apply suppress p); [exact Hd|done|exact Hrate]).
  pose proof (framed_spec u2 Hk eq_refl Hb Hl eq_refl) as F.
  change (arm_parse_atr (Uart.atr u2)) with p in F. cbn [fmap option_fmap option_map].
  destruct (framed p u2) as [u' r]. destruct F as (F1 & F2 & F3 & F4 & F5 & F6).
  exists u', r. split; [done|]. split; [exact F1|]. split; [exact F2|]. split.
  { rewrite F4. intros E. cbn in E. subst a. by destruct Hrate as (? & ? & _). }
  split; [by rewrite F5|]. split; [exact F3|exact F6].
Qed.

Lemma activate_card_spec `{!SilentCard} apply u :
  (apply = true -> clocks_ok u) -> Uart.is_card_present u = true ->
  exists u' r, Uart.activate_card apply u = Some (u', r) /\
    same_clocks u u' /\ rate_known u' /\
    (Uart.pps_speedup_active u' = true -> apply = true /\ Uart.pps_suppress_once u = false) /\
    Uart.pps_suppress_once u' = false /\ session_result u' r.
Proof.
  intros Hc Hpr. unfold Uart.activate_card. rewrite Hpr. cbn [negb].
  destruct (cold_spec u) as (Hs1 & Hd1 & Ha1 & Hp1 & Hx1).
  change (Uart.with_wire _ (Uart.with_suppress false _)) with (cold u).
  change (Uart.pps_suppress_once (Uart.reset_baud_default _)) with (Uart.pps_suppress_once u).
  set (u1 := cold u) in *. clearbody u1.
  assert (apply = true -> clocks_ok u1) as Hc1
    by (unfold clocks_ok in *; by rewrite (proj1 (proj2 Hs1))).
  destruct (read_atr_spec u1) as (w & r & raw & -> & Hr). set (u2 := Uart.with_atr raw _).
  destruct r as [[]|e].
  - destruct Hr as (Hb & Hl & _).
    destruct (start_session_spec apply (Uart.pps_suppress_once u) u2 Hc1 Hd1 Ha1 Hx1 Hb Hl) as
      (u' & r & -> & S1 & S2 & S3 & S4 & _ & S5).
    exists u', r. split; [done|]. split; [|done]. by apply (same_clocks_trans u u1).
  - exists u2, (Some (Err e)). split; [done|]. split; [exact Hs1|].
    split; [by eapply default_known|]. split; [intros E; cbn in E; congruence|]. done.
Qed.

Lemma ifs_negotiation_spec u : exists w o,
  Uart.ifs_negotiation u =
    Some (match o with Some i => Uart.with_ifsc i (Uart.with_wire w u)
          | None => Uart.with_wire w u end, o) /\
  (forall i, o = Some i -> do_ifs_negotiation_t1 (Uart.wire u, []) = Some (w, [], Ok i)).
Proof.
  unfold Uart.ifs_negotiation. destruct (always_ifs (Uart.wire u) []) as (w & [i|e] & E); rewrite E.
  - exists w, (Some i). split; [done|]. by intros ? [= <-].
  - by exists w, None.
Qed.

(** The result of activation: a session at a known rate, or a card that is off. *)
Definition session u (r : result (list Z) SmartcardError) : Prop :=
  rate_known u /\ Uart.pps_suppress_once u = false /\
  match r with
  | Ok a =>
      a = Uart.atr u /\ Uart.powered u = true /\
      bytes a /\ (1 <= length a <= SC_ATR_MAX_LEN)%nat /\
      Uart.protocol u = Atr.protocol (parse_atr a) /\
      (Uart.protocol u = 1 -> Z.shiftr (Uart.gtpr u) 8 = atr_guard (arm_parse_atr a))
  | Err _ => Uart.powered u = false /\ Uart.pps_speedup_active u = false
  end.

(** The line and the IFSC can change. *)
Definition at_wire u u' : Prop := exists w i, u' = Uart.with_ifsc i (Uart.with_wire w u).

Lemma session_at_wire u u' r : at_wire u u' -> session u r -> session u' r.
Proof.
  intros (w & i & ->) (H1 & H2 & H3). split; [by eapply rate_known_ext|]. split; [done|exact H3].
Qed.

Lemma session_of_result u r :
  rate_known u -> Uart.pps_suppress_once u = false -> session_result u r ->
  session u (match r with Some r => r | None => Ok (Uart.atr u) end).
Proof.
  intros H1 H2 H3. split; [done|]. split; [done|].
  destruct r as [[a|e]|]; [|done|].
  - destruct H3 as (K1 & K2 & K3 & K4 & -> & K5). do 5 (split; [done|]). done.
  - destruct H3 as (K1 & K2 & K3 & K4 & K5 & K6). do 5 (split; [done|]). done.
Qed.

(** Activation without a speed-up. *)
Lemma power_on_plain d apply u u1 r :
  Uart.activate_card apply u = Some (u1, r) -> Uart.pps_speedup_active u1 = false ->
  exists u', Uart.power_on (S d) apply u =
    Some (u', match r with Some r => r | None => Ok (Uart.atr u1) end) /\ at_wire u1 u'.
Proof.
  intros E Ha. cbn [Uart.power_on]. rewrite E. destruct r as [r|].
  { exists u1. split; [done|]. exists (Uart.wire u1), (Uart.ifsc u1). by destruct u1. }
  destruct (ifs_negotiation_spec u1) as (w & [i|] & -> & _).
  - eexists. split; [reflexivity|]. by exists w, i.
  - cbn [Uart.pps_speedup_active Uart.with_wire]. rewrite Ha. cbn [negb].
    eexists. split; [reflexivity|]. exists w, (Uart.ifsc u1). by destruct u1.
Qed.

(** What a cold reset in the ladder leaves, from an interface that is off. *)
Lemma power_on_suppressed `{!SilentCard} d apply u : (apply = true -> clocks_ok u) -> at_default u ->
  Uart.pps_speedup_active u = false -> Uart.powered u = false -> Uart.pps_suppress_once u = true ->
  exists u' r, Uart.power_on (S d) apply u = Some (u', r) /\ same_clocks u u' /\
    rate_known u' /\ Uart.pps_speedup_active u' = false /\
    match r with Ok a => session u' r | Err _ => Uart.powered u' = false end.
Proof.
  intros Hc Hd Ha Hp Hs. destruct (Uart.is_card_present u) eqn:Hpr; cycle 1.
  { exists u, (Err NoCard). split; [cbn; unfold Uart.activate_card; by rewrite Hpr|].
    split; [done|]. split; [by apply (default_known u u)|]. done. }
  destruct (activate_card_spec apply u Hc Hpr) as (u1 & r & E & S1 & S2 & S3 & S4 & S5).
  assert (Uart.pps_speedup_active u1 = false) as Ha1.
  { destruct (Uart.pps_speedup_active u1); [|done]. destruct (S3 eq_refl). congruence. }
  destruct (power_on_plain d apply u u1 r E Ha1) as (u' & -> & Hw).
  pose proof (session_at_wire _ _ _ Hw (session_of_result u1 r S2 S4 S5)) as Hse.
  set (r' := match r with Some r => r | None => _ end) in *. clearbody r'.
  destruct Hw as (w & i & Eu). exists u', r'. split; [done|].
  split; [subst u'; exact S1|]. split; [apply Hse|]. split; [by subst u'|].
  destruct r' as [a|e]; [exact Hse|]. by destruct Hse as (_ & _ & ? & _).
Qed.

(** The speed-up survives only if the card answered at that rate. *)
Definition answered u : Prop :=
  Uart.protocol u = 1 ->
  exists t, do_ifs_negotiation_t1 (t, []) = Some (Uart.wire u, [], Ok (Uart.ifsc u)).

Definition outcome_ok (apply : bool) u u' (r : result (list Z) SmartcardError) : Prop :=
  same_clocks u u' /\ rate_known u' /\
  (Uart.pps_speedup_active u' = true -> apply = true /\ answered u') /\
  (session u' r \/ apply = true /\ Uart.powered u' = false /\ r = Ok (Uart.atr u')).

Lemma reset_session u : session_result u None -> Uart.pps_suppress_once u = false ->
  session (Uart.reset_baud_default (Uart.with_speedup false u)) (Ok (Uart.atr u)).
Proof.
  intros (K1 & K2 & K3 & K4 & K5 & K6) Hx. split; [exact (reset_default _)|]. split; [exact Hx|].
  do 5 (split; [done|]). done.
Qed.

Lemma power_on_spec `{!SilentCard} d apply u : (apply = true -> clocks_ok u) -> Uart.is_card_present u = true ->
  exists u' r, Uart.power_on (S (S d)) apply u = Some (u', r) /\ outcome_ok apply u u' r.
Proof.
  intros Hc Hpr. pose proof (power_on_suppressed d apply) as Hin. generalize dependent (S d).
  intros d' Hin. cbn [Uart.power_on].
  destruct (activate_card_spec apply u Hc Hpr) as (u1 & r & -> & S1 & S2 & S3 & S4 & S5).
  pose proof (session_of_result u1 r S2 S4 S5) as Hse1. destruct r as [r|].
  { exists u1, r. split; [done|]. split; [done|]. split; [done|]. split; [|by left].
    intros Ha. split; [by apply S3|]. intros Hpr1. destruct r as [a|e]; [|by destruct S5; congruence].
    by destruct S5 as (_ & _ & _ & _ & _ & ?). }
  destruct (ifs_negotiation_spec u1) as (w1 & [i1|] & -> & H1).
  { eexists _, _. split; [reflexivity|]. split; [done|]. split; [by eapply rate_known_ext|]. split.
    - intros Ha. split; [by apply S3|]. intros _. exists (Uart.wire u1). by apply H1.
    - left. eapply session_at_wire; [by exists w1, i1|exact Hse1]. }
  cbn [Uart.pps_speedup_active Uart.with_wire].
  destruct (Uart.pps_speedup_active u1) eqn:Ea1; cbn [negb]; cycle 1.
  { eexists _, _. split; [reflexivity|]. split; [done|]. split; [by eapply rate_known_ext|].
    split; [cbn; congruence|]. left. apply (session_at_wire u1); [|exact Hse1].
    exists w1, (Uart.ifsc u1). by destruct u1. }
  destruct (ifs_negotiation_spec (Uart.with_wire w1 u1)) as (w2 & [i2|] & -> & H2).
  { eexists _, _. split; [reflexivity|]. split; [done|]. split; [by eapply rate_known_ext|]. split.
    - intros Ha. split; [by apply S3|]. intros _. exists w1. by apply H2.
    - left. eapply (session_at_wire u1); [by exists w2, i2|exact Hse1]. }
  set (u2 := Uart.with_wire w2 (Uart.with_wire w1 u1)).
  pose proof (reset_session u2 S5 S4) as Hr.
  set (u3 := Uart.reset_baud_default (Uart.with_speedup false u2)) in *.
  assert (at_default u3 /\ Uart.pps_speedup_active u3 = false /\ same_clocks u u3) as (D3 & A3 & C3)
    by (split; [exact (reset_default _)|done]).
  destruct (ifs_negotiation_spec u3) as (w3 & [i3|] & -> & _).
  { eexists _, _. split; [reflexivity|]. split; [done|]. split; [by eapply default_known|].
    split; [cbn; congruence|]. left. eapply session_at_wire; [by exists w3, i3|exact Hr]. }
  set (u4 := Uart.power_off (Uart.with_suppress true (Uart.with_wire w3 u3))).
  assert (same_clocks u u4) as C4 by done.
  destruct (Hin u4) as (u5 & r5 & -> & C5 & R5 & A5 & S6);
    [intros A; specialize (Hc A); unfold clocks_ok in *; by rewrite (proj1 (proj2 C4))|done..|].
  destruct (S3 eq_refl) as [-> _]. destruct r5 as [a|e].
  - exists u5, (Ok (Uart.atr u5)). split; [done|]. split; [by eapply same_clocks_trans|].
    split; [done|]. split; [congruence|]. left. destruct S6 as (K1 & K2 & K3 & K4).
    split; [done|]. split; [done|]. by rewrite <- K3.
  - eexists _, _. split; [reflexivity|]. split; [by eapply (same_clocks_trans u u4)|].
    split; [by eapply rate_known_ext|]. split; [cbn; congruence|]. by right.
Qed.

(** ** The driver's states *)
Definition speed_ok u : Prop := Uart.pps_speedup_active u = true -> 0 < Uart.negotiated_baud u.

(** The states a driver reaches: created with a clock, then any calls; power-on
    with or without the experimental speed-up. *)
Inductive reachable : Uart.SmartcardUart T -> Prop :=
| r_new w pclk1 : 4096 <= pclk1 <= 200000000 ->
    reachable (Uart.new w pclk1 SMARTCARD_CONFIG_DEFAULT)
| r_power_on apply u u' r : reachable u -> Uart.power_on 2 apply u = Some (u', r) -> reachable u'
| r_power_off u : reachable u -> reachable (Uart.power_off u)
| r_transmit fuel command u response u' response' r : reachable u ->
    Uart.transmit_apdu fuel command u response = Some (u', response', r) -> reachable u'
| r_transmit_raw data u response u' response' r : reachable u ->
    Uart.transmit_raw data u response = Some (u', response', r) -> reachable u'
| r_set_protocol p u : reachable u -> reachable (Uart.set_protocol p u)
| r_set_clock b u : reachable u -> reachable (Uart.set_clock b u)
| r_set_rate c r u : reachable u -> reachable (Uart.set_clock_and_rate c r u).1
| r_set_timing fi di n u u' : reachable u -> Uart.set_wire_timing fi di n u = Ret u' -> reachable u'.

Lemma timing_inert fi di n u : speed_ok u ->
  Uart.set_wire_timing fi di n u = Ret (Uart.write_guard_time (t1_usart_framing n).2 u).
Proof.
  intros Hs. unfold Uart.set_wire_timing. set (v := Uart.write_guard_time _ u).
  destruct (_ || _); [done|]. cbv zeta. set (req := wrap32 _ / _).
  destruct (req =? Uart.wire_baud v) eqn:E; [done|].
  assert (negb (Uart.pps_speedup_active v && (Uart.negotiated_baud v =? req)
            || negb (Uart.pps_speedup_active v) && false) = true) as Hn.
  { unfold Uart.wire_baud in E. change (Uart.pps_speedup_active v) with (Uart.pps_speedup_active u) in *.
    change (Uart.negotiated_baud v) with (Uart.negotiated_baud u) in *.
    unfold speed_ok in Hs. destruct (Uart.pps_speedup_active u); [|done].
    specialize (Hs eq_refl). replace (0 <? Uart.negotiated_baud u) with true in E by lia.
    cbn in E |- *. rewrite orb_false_r. apply negb_true_iff. rewrite Z.eqb_sym. exact E. }
  by rewrite Hn.
Qed.

Lemma rate_speed_ok u : rate_known u -> speed_ok u.
Proof. intros H Ha. unfold rate_known in H. rewrite Ha in H. by destruct H as (_ & ? & _). Qed.

Lemma on_wire_keeps {A} (m : M T A) u buf u' buf' r :
  Uart.on_wire m u buf = Some (u', buf', r) -> exists w, u' = Uart.with_wire w u.
Proof.
  unfold Uart.on_wire. destruct (m _) as [[[w b] r']|]; [|done]. intros [= <- _ _]. by exists w.
Qed.

Lemma transmit_raw_keeps data u response u' response' r :
  Uart.transmit_raw data u response = Some (u', response', r) -> exists w, u' = Uart.with_wire w u.
Proof.
  unfold Uart.transmit_raw. destruct (negb _); [|apply on_wire_keeps].
  intros [= <- _ _]. exists (Uart.wire u). by destruct u.
Qed.

Lemma transmit_apdu_keeps fuel command u response u' response' r :
  Uart.transmit_apdu fuel command u response = Some (u', response', r) ->
  exists w, u' = Uart.with_wire w u.
Proof.
  unfold Uart.transmit_apdu. destruct (negb _).
  - intros [= <- _ _]. exists (Uart.wire u). by destruct u.
  - destruct (_ =? 1); [apply transmit_raw_keeps|apply on_wire_keeps].
Qed.

(** Clocks in range, and a rate in use is not zero. *)
Definition driver_ok u : Prop := clocks_ok u /\ speed_ok u.

Lemma reachable_ok `{!SilentCard} u : reachable u -> driver_ok u.
Proof.
  induction 1 as [w pclk1 Hp|apply u u' r _ [Hc Hs] E|u _ [Hc Hs]|fuel c u b u' b' r _ IH E
    |c u b u' b' r _ IH E|p u _ [Hc Hs]|b u _ [Hc Hs]|c r u _ [Hc Hs]|fi di n u u' _ [Hc Hs] E].
  - split; [|done]. unfold clocks_ok. cbn. Z.to_euclidean_division_equations. nia.
  - destruct (Uart.is_card_present u) eqn:Hpr.
    + destruct (power_on_spec 0 apply u (fun _ => Hc) Hpr) as (u1 & r1 & E1 & (_ & C & _) & R & _).
      rewrite E in E1. injection E1 as <- <-. split; [|by apply rate_speed_ok].
      unfold clocks_ok in *. by rewrite C.
    + cbn in E. unfold Uart.activate_card in E. rewrite Hpr in E. by injection E as <- <-.
  - split; [done|]. by intros Ha.
  - apply transmit_apdu_keeps in E as [w ->]. exact IH.
  - apply transmit_raw_keeps in E as [w ->]. exact IH.
  - done.
  - done.
  - unfold Uart.set_clock_and_rate. repeat case_match; done.
  - rewrite timing_inert in E by done. by injection E as <-.
Qed.
End Driver.

(** ** Every call of the wrapper returns *)
Section Returns.
Context {T : Type} `{!SmartcardIo T, !SmartcardHw T, !AtrFuel T, !CardStream T}.
Context `{!FiniteCard T, !SilentCard (T := T)}.
Implicit Types u : Uart.SmartcardUart T.

(** An exchange ends within the fuel the wrapper gives it. *)
Lemma transmit_apdu_ends u command response :
  exists u' response' r,
    Uart.transmit_apdu (2 + pending (Uart.wire u)) command u response = Some (u', response', r) /\
    length response' = length response /\ (exists t, u' = Uart.with_wire t u) /\
    (Uart.powered u = true -> Uart.protocol u = 1 -> forall n, r = Ok n -> (0 < n <= length response)%nat).
Proof.
  destruct (Uart.powered u) eqn:Hp; cycle 1.
  { exists u, response, (Err HardwareError). unfold Uart.transmit_apdu. rewrite Hp.
    split_and!; try done. exists (Uart.wire u). by destruct u. }
  destruct (Uart.protocol u =? 1) eqn:E1.
  - destruct (transmit_raw_spec command u response Hp) as (tr & bs & t' & r & E & _ & Hr).
    apply relayed_bounds in Hr as [Hbs Hr]; [|lia].
    do 3 eexists. split; [unfold Uart.transmit_apdu; rewrite Hp; cbn [negb]; rewrite E1; exact E|].
    split; [by apply length_splice|]. split; [by exists t'|]. intros _ _ n Hn.
    destruct (Hr n Hn) as (-> & ? & _). lia.
  - destruct (ends_transmit_apdu_t0 command (length response)
      (procedure_timeout_ms (Uart.config u)) (byte_timeout_ms (Uart.config u))
      (2 + pending (Uart.wire u)) (pending (Uart.wire u)) ltac:(lia) (Uart.wire u) response) as
      (t' & buf' & r & E & Hl & _ & _); [done|].
    exists (Uart.with_wire t' u), buf', r. unfold Uart.transmit_apdu, Uart.on_wire.
    rewrite Hp, E1. cbn [negb]. rewrite E. split_and!; [done|done|by exists t'|]. intros _ ?. lia.
Qed.

Lemma power_on_absent u : Uart.is_card_present u = false ->
  Uart.power_on 2 false u = Some (u, Err NoCard).
Proof. intros Hpr. cbn. unfold Uart.activate_card. by rewrite Hpr. Qed.

(** Without the speed-up an activation ends from every state of the driver. *)
Lemma power_on_ends u : exists u' r, Uart.power_on 2 false u = Some (u', r).
Proof.
  destruct (Uart.is_card_present u) eqn:Hpr.
  - destruct (power_on_spec 0 false u ltac:(done) Hpr) as (u' & r & E & _). by exists u', r.
  - exists u, (Err NoCard). by apply power_on_absent.
Qed.

#[global] Instance card_returns : Wrapper.CardReturns T.
Proof.
  constructor.
  - intros u. destruct (power_on_ends u) as (u' & r & E). eexists. exact E.
  - intros command u response. destruct (transmit_apdu_ends u command response) as (u' & b & r & E & _).
    eexists. exact E.
Qed.
End Returns.

(** ** A scripted card and its interface *)
Module Bench.
(** Each cold reset plays the next ATR ([arriving]: what is left of it); reading
    the cycle counter takes a million cycles. *)
Record bench := mkBoard {
  present : bool;
  atrs : list (list Z);
  incoming : list Z;
  outgoing : list Z;
  arriving : list Z;
  cycles : Z
}.
Definition mkBench present atrs incoming outgoing : bench :=
  mkBoard present atrs incoming outgoing [] 0.
Definition set_arriving l b : bench :=
  mkBoard (present b) (atrs b) (incoming b) (outgoing b) l (cycles b).

#[global] Instance bench_io : SmartcardIo bench := {
  send_byte b x := (mkBoard (present b) (atrs b) (incoming b) (outgoing b ++ [x]) (arriving b) (cycles b), Ok tt);
  recv_byte_timeout b _ :=
    match incoming b with
    | x :: l => (mkBoard (present b) (atrs b) l (outgoing b) (arriving b) (cycles b), Ok x)
    | [] => (b, Err Timeout)
    end;
  prepare_rx b := b
}.
#[global] Instance bench_stream : CardStream bench := fun b => length (incoming b).
#[global] Instance bench_finite : FiniteCard bench.
Proof. split; [done| |done]. intros [p a [|x l] o r c] ms; cbn; lia. Qed.
#[global] Instance bench_hw : SmartcardHw bench := {
  pres_pin := present;
  deactivate := set_arriving [];
  activate b :=
    mkBoard (present b) (tail (atrs b)) (incoming b) (outgoing b) (default [] (head (atrs b))) (cycles b);
  set_line_rate b _ := b;
  read_sr b := (b, if (length (arriving b) =? 0)%nat then 0 else 0x20);
  read_dr b := (set_arriving (tail (arriving b)) b, default 0 (head (arriving b)));
  delay_1ms b := b;
  read_cyccnt b :=
    let b := mkBoard (present b) (atrs b) (incoming b) (outgoing b) (arriving b) (cycles b + 1000000) in
    (b, wrap32 (cycles b))
}.
#[global] Instance bench_fuel : AtrFuel bench := fun b => (34 + length (arriving b))%nat.
#[global] Instance bench_silent : SilentCard (T := bench).
Proof.
  refine {| clock := cycles; rx_left b := length (arriving b) |}; try done.
  - intros [p a i o [|x l] c]; cbn; [done|lia].
  - intros [p a i o r c]. cbn. lia.
Defined.

(** A T=0 ATR; a T=1 ATR with TA1 = 18 and its check byte. *)
Definition atr_t0 : list Z := [0x3B; 0x00].
Definition atr_t1 : list Z := [0x3B; 0x90; 0x18; 0x01; 0x89].
(** The PPS echo (minimal request) and the answer to S(IFS request). *)
Definition pps_echo : list Z := [0xFF; 0x01; 0xFE].
Definition ifs_answer : list Z := [0; 0xE1; 1; 0xFE; 0x1E].

Definition board (b : bench) : Uart.SmartcardUart bench := Uart.new b 42000000 SMARTCARD_CONFIG_DEFAULT.
Definition on (u : Uart.SmartcardUart bench) : Uart.SmartcardUart bench :=
  (Wrapper.uart_power_on u).1.
End Bench.
Import Bench.

Lemma board_clocks b : clocks_ok (board b).
Proof. unfold clocks_ok. vm_compute. split; discriminate. Qed.

(** ** What modelling showed *)
(** NACK stays enabled after a T=0 session: power-off does not clear it, so the
    next T=1 card runs with it (the code means it for T=0 only). *)
Example nack_survives_session :
  let b := mkBench true [atr_t0; atr_t1] (pps_echo ++ ifs_answer) [] in
  let u1 := on (board b) in
  let u2 := on (Uart.power_off u1) in
  Uart.protocol u1 = 0 /\ Uart.cr3 u1 = 0x30 /\ Uart.protocol u2 = 1 /\ Uart.powered u2 = true /\
  Z.land (Uart.cr3 u2) Uart.CR3_NACK = Uart.CR3_NACK.
Proof. vm_compute. repeat split. Qed.

(** A stopped card clock is not restarted by power-off and power-on. *)
Example clock_stays_stopped :
  let b := mkBench true [atr_t0; atr_t0] [] [] in
  let u := on (Uart.power_off (Uart.set_clock false (on (board b)))) in
  Uart.powered u = true /\ Z.land (Uart.cr2 u) Uart.CLKEN = 0.
Proof. vm_compute. repeat split. Qed.

(** READ BINARY of five bytes: the card acknowledges, sends the five bytes and
    9000; the reader returns the first two bytes as the answer. *)
Example t0_read_truncated :
  let b := mkBench true [atr_t0] [0xB0; 0xD1; 0xD2; 0xD3; 0xD4; 0xD5; 0x90; 0x00] [] in
  match Uart.transmit_apdu 20 [0x00; 0xB0; 0x00; 0x00; 0x05] (on (board b)) (replicate 10 0) with
  | Some (u, response, Ok n) =>
      take n response = [0xD1; 0xD2] /\ incoming (Uart.wire u) = [0xD3; 0xD4; 0xD5; 0x90; 0x00]
  | _ => False
  end.
Proof. vm_compute. repeat split. Qed.

(** SELECT with a body, answered 61 02: GET RESPONSE goes out with the body of
    SELECT behind it, and the answer is the procedure byte C0 and one byte. *)
Example t0_get_response_resends_body :
  let b := mkBench true [atr_t0] [0x61; 0x02; 0xC0; 0xAA; 0xBB; 0x90; 0x00] [] in
  match Uart.transmit_apdu 20 [0x00; 0xA4; 0x04; 0x00; 0x02; 0x3F; 0x00] (on (board b))
          (replicate 10 0) with
  | Some (u, response, Ok n) =>
      outgoing (Uart.wire u) =
        [0x00; 0xA4; 0x04; 0x00; 0x02; 0x3F; 0x00] ++ [0x00; 0xC0; 0x00; 0x00; 0x02; 0x3F; 0x00] /\
      take n response = [0xC0; 0xAA]
  | _ => False
  end.
Proof. vm_compute. repeat split. Qed.

(** A card that goes on asking for another length after acknowledging: the
    count of response bytes passes the end of the buffer. *)
Definition stubborn_card : bench :=
  mkBench true [atr_t0] (concat (replicate 136 [0xA4; 0x6C; 0x00]) ++ [0x90; 0x00]) [].

Example t0_overruns_buffer :
  match Uart.transmit_apdu 2000 [0x00; 0xA4; 0x00; 0x00; 0x00] (on (board stubborn_card))
          (replicate 271 0) with
  | Some (_, _, Ok n) => n = 274%nat
  | _ => False
  end.
Proof. vm_compute. repeat split. Qed.

(** With the experimental speed-up, a card that answers PPS and then nothing:
    power-on reports success with an empty ATR and no power. *)
Example dead_card_reported_active :
  let b := mkBench true [atr_t1] [0xFF; 0x11; 0x18; 0xF6] [] in
  match Uart.power_on 2 true (board b) with
  | Some (u, Ok atr) => atr = [] /\ Uart.powered u = false
  | _ => False
  end.
Proof. vm_compute. repeat split. Qed.

(** ** The wrapper *)
Section Wrapper.
Context {T : Type} `{!SmartcardIo T, !SmartcardHw T, !AtrFuel T, !CardStream T}.
Context `{!FiniteCard T, !Wrapper.CardReturns T}.
Implicit Types u : Uart.SmartcardUart T.
Implicit Types w : Wrapper.SmartcardWrapper T.

Lemma uart_power_on_eq u x : Uart.power_on 2 false u = Some x -> Wrapper.uart_power_on u = x.
Proof. apply is_Some_proj_eq. Qed.

(** What one exchange of the wrapper does. *)
Lemma wrapper_transmit w command response :
  exists t response' r,
    Uart.transmit_apdu (2 + pending (Uart.wire (Wrapper.uart w))) command (Wrapper.uart w) response
      = Some (Uart.with_wire t (Wrapper.uart w), response', r) /\
    let f := Failures.record (Wrapper.heal w)
               (match r with Ok O => Failures.Mute | Ok _ => Failures.Success | Err _ => Failures.Failure end) in
    let u := Uart.with_wire t (Wrapper.uart w) in
    Wrapper.transmit_apdu w command response =
      (Wrapper.mkWrapper (if f.2 then (Wrapper.uart_power_on (Uart.power_off u)).1 else u) f.1,
       response', match r with Ok O => Err Timeout | r => r end).
Proof.
  destruct (transmit_apdu_ends (Wrapper.uart w) command response) as
    (u' & response' & r & E & _ & (t & ->) & _).
  exists t, response', r. split; [done|]. cbv zeta.
  unfold Wrapper.transmit_apdu, Wrapper.uart_transmit. rewrite (is_Some_proj_eq _ _ _ E).
  cbv beta iota. unfold Wrapper.track_transmit. cbn [Wrapper.heal Wrapper.with_uart].
  destruct (Failures.record _ _) as [h fired]. cbn [fst snd]. by destruct fired.
Qed.

(** A run of exchanges: commands with their response buffers. *)
Fixpoint exchanges w (cs : list (list Z * list Z)) :
    Wrapper.SmartcardWrapper T * list (result nat SmartcardError) :=
  match cs with
  | [] => (w, [])
  | (command, response) :: cs =>
      let r := Wrapper.transmit_apdu w command response in
      let rs := exchanges r.1.1 cs in (rs.1, r.2 :: rs.2)
  end.

Definition failed (r : result nat SmartcardError) : bool := negb (is_ok r).

Lemma wrapper_failure w command response n :
  Failures.consecutive_failures (Wrapper.heal w) = Z.of_nat n -> (n < 3)%nat ->
  failed (Wrapper.transmit_apdu w command response).2 = true ->
  exists t, let w' := (Wrapper.transmit_apdu w command response).1.1 in
    if (n =? 2)%nat
    then Wrapper.uart w' =
           (Wrapper.uart_power_on (Uart.power_off (Uart.with_wire t (Wrapper.uart w)))).1 /\
         Wrapper.heal w' =
           Failures.mkTracker 0 (sat_add32 (Failures.reinit_count (Wrapper.heal w)) 1) true
    else Wrapper.uart w' = Uart.with_wire t (Wrapper.uart w) /\
         Wrapper.heal w' = Failures.mkTracker (Z.of_nat (S n))
           (Failures.reinit_count (Wrapper.heal w)) (Failures.reinit_pending (Wrapper.heal w)).
Proof.
  intros Hn Hlt Hf. destruct (wrapper_transmit w command response) as (t & response' & r & _ & E).
  exists t. cbv zeta in *. rewrite E in *. cbn [fst snd Wrapper.uart Wrapper.heal] in *.
  assert (Failures.record (Wrapper.heal w) (match r with Ok O => Failures.Mute
    | Ok _ => Failures.Success | Err _ => Failures.Failure end) =
    Failures.record (Wrapper.heal w) Failures.Failure) as ->
    by (destruct r as [[|k]|e]; [done|discriminate Hf|done]).
  unfold Failures.record, Failures.sat_add8, Failures.REINIT_THRESHOLD, u8_max. rewrite Hn.
  destruct (n =? 2)%nat eqn:E2.
  - replace (3 <=? Z.min (Z.of_nat n + 1) 255) with true by lia. done.
  - replace (3 <=? Z.min (Z.of_nat n + 1) 255) with false by lia. split; [done|].
    cbn. f_equal. lia.
Qed.

(** A failing card is re-activated.  When three exchanges in a row fail (an
    error, or no byte at all, which the host also sees as an error), the third
    one power-cycles the interface: the card is deactivated and activated
    again, at a known line rate if it is still there; the re-initialisation
    count goes up by one and the pending event is reported exactly once. *)
Theorem failing_card_reactivated `{!SilentCard (T := T)} w c1 c2 c3 :
  Failures.consecutive_failures (Wrapper.heal w) = 0 ->
  clocks_ok (Wrapper.uart w) ->
  forallb failed (exchanges w [c1; c2; c3]).2 = true ->
  let w' := (exchanges w [c1; c2; c3]).1 in
  (exists t r, let off := Uart.power_off (Uart.with_wire t (Wrapper.uart w)) in
     Uart.power_on 2 false off = Some (Wrapper.uart w', r) /\
     if Uart.is_card_present off then session (Wrapper.uart w') r
     else Wrapper.uart w' = off /\ r = Err NoCard) /\
  Failures.reinit_count (Wrapper.heal w') =
    sat_add32 (Failures.reinit_count (Wrapper.heal w)) 1 /\
  (sc_take_reinit_pending w').2 = true /\
  (sc_take_reinit_pending (sc_take_reinit_pending w').1).2 = false.
Proof.
  intros H0 Hc Hf. destruct c1 as [a1 b1], c2 as [a2 b2], c3 as [a3 b3].
  cbn [exchanges fst snd forallb] in *. rewrite !andb_true_iff in Hf. destruct Hf as (F1 & F2 & F3 & _).
  destruct (wrapper_failure w a1 b1 0 H0 ltac:(lia) F1) as (t1 & U1 & G1).
  set (w1 := (Wrapper.transmit_apdu w a1 b1).1.1) in *.
  assert (Failures.consecutive_failures (Wrapper.heal w1) = Z.of_nat 1) as H1 by by rewrite G1.
  destruct (wrapper_failure w1 a2 b2 1 H1 ltac:(lia) F2) as (t2 & U2 & G2).
  set (w2 := (Wrapper.transmit_apdu w1 a2 b2).1.1) in *.
  assert (Failures.consecutive_failures (Wrapper.heal w2) = Z.of_nat 2) as H2 by by rewrite G2.
  destruct (wrapper_failure w2 a3 b3 2 H2 ltac:(lia) F3) as (t3 & U3 & G3).
  set (w3 := (Wrapper.transmit_apdu w2 a3 b3).1.1) in *. clearbody w1 w2 w3. cbv zeta.
  rewrite U2, U1 in U3.
  change (Uart.with_wire t3 _) with (Uart.with_wire t3 (Wrapper.uart w)) in U3.
  set (u := Uart.power_off (Uart.with_wire t3 (Wrapper.uart w))) in *.
  split; [|split; [by rewrite G3, G2, G1|cbn; by rewrite G3]].
  destruct (Uart.is_card_present u) eqn:Hpr.
  - destruct (power_on_spec 0 false u (fun _ => Hc) Hpr) as (u' & r & E & _ & _ & _ & Hs).
    rewrite (uart_power_on_eq _ _ E) in U3. cbn [fst] in U3. subst u'. exists t3, r. cbv zeta. fold u. rewrite Hpr.
    split; [exact E|]. by destruct Hs as [Hs|[? _]].
  - assert (Uart.power_on 2 false u = Some (u, Err NoCard)) as E
      by (cbn; unfold Uart.activate_card; by rewrite Hpr).
    rewrite (uart_power_on_eq _ _ E) in U3. cbn [fst] in U3. exists t3, (Err NoCard). cbv zeta. fold u. rewrite Hpr, U3.
    split; [exact E|done].
Qed.
End Wrapper.

(** ** Properties *)
Section Properties.
Context {T : Type} `{!SmartcardIo T, !SmartcardHw T, !AtrFuel T}.
Implicit Types u : Uart.SmartcardUart T.

(** C8: the raw exchange is a faithful relay, and always returns.  A powered
    interface sends exactly the host's bytes, then reads: with T=1 selected
    exactly one block, whose length its prologue announces, waiting BWT for the
    first byte and CWT for the others; otherwise bytes until the line falls
    silent.  The buffer holds what the card sent and is unchanged behind it.
    A mute card is a timeout, a truncated block a protocol error; an answer is
    never empty and never longer than the buffer.  Nothing else of the
    interface's state changes. *)
Theorem raw_exchange_relayed data u response :
  Uart.powered u = true ->
  exists tr bs t' r,
    Uart.transmit_raw data u response = Some (Uart.with_wire t' u, splice 0 bs response, r) /\
    line (Uart.wire u) tr t' /\
    relayed (reads_block u response) (t1_first_byte_timeout_ms (Uart.t1_bwi u) (Uart.wire_baud u))
      (t1_inter_byte_timeout_ms (Uart.t1_cwi u) (Uart.wire_baud u)) data (length response) tr bs r /\
    length (splice 0 bs response) = length response /\
    (forall n, r = Ok n -> n = length bs /\ (0 < n <= length response)%nat /\
       (reads_block u response = true -> n = block_len (length response) bs)).
Proof.
  intros Hp. destruct (transmit_raw_spec data u response Hp) as (tr & bs & t' & r & E & L & R).
  exists tr, bs, t', r. split; [exact E|]. split; [exact L|]. split; [exact R|].
  apply relayed_bounds in R as [Hl Hr]; [|lia].
  split; [by apply length_splice|]. intros n Hn. destruct (Hr n Hn) as (H1 & H2 & H3).
  split; [done|]. split; [lia|exact H3].
Qed.

(** C12: activation ends at a rate the card is known to run at.  For an inserted
    card that falls silent (SilentCard: its receiver events are finite in
    number, and a look at the quiet line takes one to 2^31 cycles), at a card
    clock of 2048 Hz to 5 MHz, with or without the experimental speed-up:
    [power_on] returns (the ATR loop ends, and two cold resets suffice), and
    afterwards the line runs at the ATR-default rate, or at the rate of TA1 if
    the card echoed the PPS request for it exactly and, under T=1, answered an
    IFS request at it.  Without the speed-up it either fails with the card off,
    or succeeds with the ATR's parameters in place: the protocol, and under T=1
    the guard time.  (A card that never stops sending is outside: its ATR loop
    does not end, [babbling_card_never_activates].) *)
Theorem power_on_rate `{!SilentCard (T := T)} apply u :
  clocks_ok u -> Uart.is_card_present u = true ->
  exists u' r, Uart.power_on 2 apply u = Some (u', r) /\
    same_clocks u u' /\ rate_known u' /\
    (Uart.pps_speedup_active u' = true -> apply = true /\ answered u') /\
    (session u' r \/ apply = true /\ Uart.powered u' = false /\ r = Ok (Uart.atr u')).
Proof.
  intros Hc Hp. destruct (power_on_spec 0 apply u (fun _ => Hc) Hp) as (u' & r & E & H1 & H2 & H3 & H4).
  by exists u', r.
Qed.

(** The host's timing parameters never move the line.  In every state the
    driver reaches, from any clock of 4 kHz to 200 MHz and by any calls,
    [set_wire_timing] does not panic and programs the guard time and nothing
    else: the branch that would apply Fi and Di is dead. *)
Theorem wire_timing_keeps_rate `{!SilentCard (T := T)} u fi di n :
  reachable u ->
  Uart.set_wire_timing fi di n u = Ret (Uart.write_guard_time (t1_usart_framing n).2 u).
Proof. intros Hr. apply timing_inert. by apply reachable_ok in Hr as [_ ?]. Qed.
End Properties.

Example raw_exchange_relayed_witness :
  let b := mkBench true [atr_t1] (pps_echo ++ ifs_answer ++ [0x00; 0x00; 0x02; 0x90; 0x00; 0x92]) [] in
  let u := on (board b) in
  exists t' bs,
    Uart.transmit_raw [0x00; 0x00; 0x01; 0xAA; 0xAB] u (replicate 261 0) =
      Some (Uart.with_wire t' u, splice 0 bs (replicate 261 0), Ok 6%nat) /\
    bs = [0x00; 0x00; 0x02; 0x90; 0x00; 0x92].
Proof.
  intros b u. destruct (raw_exchange_relayed [0x00; 0x00; 0x01; 0xAA; 0xAB] u (replicate 261 0)) as
    (tr & bs & t' & r & E & _ & _ & _ & Hr); [reflexivity|].
  exists t', bs. assert (Uart.transmit_raw [0x00; 0x00; 0x01; 0xAA; 0xAB] u (replicate 261 0) <> None
    /\ (snd <$> Uart.transmit_raw [0x00; 0x00; 0x01; 0xAA; 0xAB] u (replicate 261 0)) = Some (Ok 6%nat)
    /\ ((fun x => take 6 x.1.2) <$> Uart.transmit_raw [0x00; 0x00; 0x01; 0xAA; 0xAB] u (replicate 261 0))
       = Some [0x00; 0x00; 0x02; 0x90; 0x00; 0x92]) as (_ & E1 & E2).
  { split; [|split]; vm_compute; [discriminate|reflexivity|reflexivity]. }
  rewrite E in E1, E2. injection E1 as ->. split; [exact E|].
  destruct (Hr 6%nat eq_refl) as (Hl & _ & _). injection E2 as E2.
  rewrite splice_0, take_app_le, take_ge in E2 by lia. exact E2.
Defined.

Example power_on_rate_witness :
  let b := mkBench true [atr_t1] (pps_echo ++ ifs_answer) [] in
  exists u' r, Uart.power_on 2 false (board b) = Some (u', r) /\ session u' r /\
    r = Ok atr_t1 /\ Uart.ifsc u' = 254.
Proof.
  intros b. destruct (power_on_rate false (board b)) as (u' & r & E & _ & _ & _ & Hs);
    [apply board_clocks|reflexivity|].
  exists u', r. split; [exact E|]. destruct Hs as [Hs|[? _]]; [|discriminate].
  split; [exact Hs|].
  assert ((fun x => (snd x, Uart.ifsc (fst x))) <$> Uart.power_on 2 false (board b) =
    Some (Ok atr_t1, 254)) as E2 by (vm_compute; reflexivity).
  rewrite E in E2. injection E2 as -> ->. split; reflexivity.
Defined.

Example wire_timing_keeps_rate_witness :
  let u := on (board (mkBench true [atr_t1] (pps_echo ++ ifs_answer) [])) in
  Uart.set_wire_timing 372 12 5 u = Ret (Uart.write_guard_time 5 u) /\ Uart.powered u = true.
Proof.
  intros u. split; [|reflexivity]. apply (wire_timing_keeps_rate u 372 12 5).
  assert (exists r, Uart.power_on 2 false (board (mkBench true [atr_t1] (pps_echo ++ ifs_answer) []))
    = Some (u, r)) as [r E] by (exists (Ok atr_t1); vm_compute; reflexivity).
  apply (r_power_on false _ u r) in E; [exact E|]. apply r_new. lia.
Defined.

Example failing_card_reactivated_witness :
  let b := mkBench true [atr_t1; atr_t1] (pps_echo ++ ifs_answer) [] in
  let w := (Wrapper.power_on (Wrapper.new (board b))).1 in
  let xfr := ([0x00; 0x00; 0x01; 0xAA; 0xAB], replicate 261 0) in
  let w' := (exchanges w [xfr; xfr; xfr]).1 in
  Failures.reinit_count (Wrapper.heal w') = 1 /\ Uart.powered (Wrapper.uart w') = true /\
  (sc_take_reinit_pending w').2 = true /\
  (sc_take_reinit_pending (sc_take_reinit_pending w').1).2 = false.
Proof.
  intros b w xfr w'.
  destruct (failing_card_reactivated w xfr xfr xfr) as (_ & H1 & H2 & H3);
    [reflexivity|vm_compute; split; discriminate|vm_compute; reflexivity|].
  split; [etransitivity; [exact H1|vm_compute; reflexivity]|]. split; [vm_compute; reflexivity|]. split; [exact H2|exact H3].
Defined.

(** ** The whole contact reader *)
(** The handler of [ContactHandler.v] over this driver. *)
Module Reader.
Import Contact.
Definition Handler := CcidMessageHandler (Wrapper.SmartcardWrapper bench).

Definition fresh (b : bench) : Handler :=
  Contact.new (Wrapper.new (board b)) (Profile.vendor_id Profile.PROFILE_CHERRY_SMARTTERMINAL_ST2XXX) F469.
(** One command in one packet, and its answer. *)
Definition exchange (msg : list Z) (m : Handler) : outcome (Handler * list Z) :=
  m ← feed msg m; m ← handle_message m; Ret (take_response m).
Definition power_on : list Z := command PC_TO_RDR_ICC_POWER_ON 0 1 (0, 0, 0) [].
Definition xfr (apdu : list Z) : list Z := command PC_TO_RDR_XFR_BLOCK 0 2 (0, 0, 0) apdu.
Definition session (b : bench) (apdu : list Z) : outcome (list Z * list Z) :=
  r1 ← exchange power_on (fresh b); r2 ← exchange (xfr apdu) r1.1; Ret (r1.2, r2.2).
End Reader.

(** The host powers a T=1 card and exchanges a block with it. *)
Example reader_t1_session :
  let block := [0x00; 0x00; 0x02; 0x90; 0x00; 0x92] in
  Reader.session (mkBench true [atr_t1] (pps_echo ++ ifs_answer ++ block) []) [0x00; 0x00; 0x01; 0xAA; 0xAB] =
    Ret ([0x80; 5; 0; 0; 0; 0; 1; 0; 0; 0] ++ atr_t1, [0x80; 6; 0; 0; 0; 0; 2; 0; 0; 0] ++ block).
Proof. vm_compute. reflexivity. Qed.

(** The driver's count of [t0_overruns_buffer] reaches the core's slice: the
    reader panics, which resets it. *)
Example stubborn_card_resets_reader :
  Reader.session stubborn_card [0x00; 0xA4; 0x00; 0x00; 0x00] = Panic.
Proof. vm_compute. reflexivity. Qed.
