(* ===== verification/UsartContract.v ===== *)
(** * The USART driver keeps the contract of a card driver

    The theorems about the CCID handler, the USB class and the main loop ask of
    a card driver that it keeps [SmartcardLaws].  This file says when the F469
    build's driver ([SmartcardWrapper], [Smartcard.v]) does: for as long as the
    card's T=0 answers are not counted past the caller's buffer ([tidy]), and
    that a card which sends at most 32 bytes is such a card.
    [SmartcardSpec.stubborn_card_resets_reader] is one that is not. *)
From Stdlib Require Import ZArith Lia ZifyBool.
From stdpp Require Import prelude relations.
From S2P Require Import Prelude Wire Atr Diag CardInterface SelfHeal ContactHandler CardLink CardLinkSpec Smartcard SmartcardSpec.
Import Link.
Local Open Scope Z_scope.
Local Open Scope link_scope.

(** The line carries bytes. *)
Class ByteLine (T : Type) `{!SmartcardIo T} :=
  byte_line : forall t ms t' b, recv_byte_timeout t ms = (t', Ok b) -> u8 b.

(** ** Bytes come out as bytes *)
Section Bytes.
Context {T : Type} `{!SmartcardIo T, !ByteLine T}.

(** A computation that keeps a buffer of bytes, with [V] of its value. *)
Definition bytewise {A} (V : A -> Prop) (m : M T A) : Prop := forall t buf, bytes buf ->
  match m (t, buf) with
  | Some (_, buf', r) => bytes buf' /\ match r with Ok a => V a | Err _ => True end
  | None => True
  end.

Lemma bytewise_ret {A} (V : A -> Prop) a : V a -> bytewise V (ret a).
Proof. by intros H t buf Hb. Qed.
Lemma bytewise_fail {A} (V : A -> Prop) e : bytewise V (fail (A:=A) e).
Proof. by intros t buf Hb. Qed.
Lemma bytewise_none {A} (V : A -> Prop) : bytewise V (fun _ : T * list Z => @None (T * list Z * result A SmartcardError)).
Proof. by intros t buf Hb. Qed.
Lemma bytewise_bind {A B} (V : A -> Prop) (W : B -> Prop) (m : M T A) (k : A -> M T B) :
  bytewise V m -> (forall a, V a -> bytewise W (k a)) -> bytewise W (bind m k).
Proof.
  intros Hm Hk t buf Hb. specialize (Hm t buf Hb). unfold bind.
  destruct (m (t, buf)) as [[[t' buf'] [a|e]]|]; [|done|done].
  destruct Hm as [Hb' Ha]. by apply Hk.
Qed.
Lemma bytewise_if {A} (V : A -> Prop) (c : bool) (m m' : M T A) :
  bytewise V m -> bytewise V m' -> bytewise V (if c then m else m').
Proof. by destruct c. Qed.
Lemma bytewise_recv ms : bytewise u8 (recv ms).
Proof.
  intros t buf Hb. unfold recv. cbn [fst snd]. destruct (recv_byte_timeout t ms) as [t' [b|e]] eqn:E; [|done].
  split; [done|]. by eapply byte_line.
Qed.
Lemma bytewise_send b : bytewise (fun _ => True) (send b).
Proof. intros t buf Hb. unfold send. cbn [fst snd]. destruct (send_byte t b) as [t' [[]|e]]; done. Qed.
Lemma bytewise_sends bs : bytewise (fun _ => True) (sends bs).
Proof.
  induction bs as [|b bs IH]; [by apply bytewise_ret|].
  eapply bytewise_bind; [apply bytewise_send|]. intros _ _. exact IH.
Qed.
Lemma bytewise_drain : bytewise (fun _ => True) drain.
Proof. by intros t buf Hb. Qed.
Lemma bytewise_put i b : u8 b -> bytewise (fun _ => True) (put i b).
Proof. intros Hu t buf Hb. split; [|done]. by apply Forall_insert. Qed.

Ltac bytewise_step := first
  [ by apply bytewise_ret | apply bytewise_fail | apply bytewise_none | apply bytewise_send
  | apply bytewise_sends | apply bytewise_drain | apply bytewise_put; done
  | eapply bytewise_bind; [apply bytewise_recv|intros ? ?]
  | eapply bytewise_bind; [apply bytewise_send|intros ? _]
  | eapply bytewise_bind; [apply bytewise_sends|intros ? _]
  | eapply bytewise_bind; [apply bytewise_drain|intros ? _]
  | eapply bytewise_bind; [apply bytewise_put; done|intros ? _]
  | apply bytewise_if ].

Lemma bytewise_procedure_byte pt fuel : bytewise u8 (procedure_byte pt fuel).
Proof. induction fuel as [|fuel IH]; cbn [procedure_byte]; repeat bytewise_step. exact IH. Qed.
Lemma bytewise_put_sw max n a b : u8 a -> u8 b -> bytewise (fun _ => True) (put_sw max n a b).
Proof. intros Ha Hb. unfold put_sw. repeat bytewise_step. Qed.
Lemma bytewise_recv_into bt k off : bytewise (fun _ => True) (recv_into bt k off).
Proof. revert off. induction k as [|k IH]; intros off; cbn [recv_into]; repeat bytewise_step. apply IH. Qed.

Lemma bytewise_t0_procedure cmd max pt bt loop fuel hdr bo rl g pb : u8 pb ->
  (forall start hdr bo rl g, bytewise (fun _ => True) (loop start hdr bo rl g)) ->
  bytewise (fun _ => True) (t0_procedure cmd max pt bt loop fuel hdr bo rl g pb).
Proof.
  intros Hpb Hloop. unfold t0_procedure.
  repeat (cbv zeta; first [ bytewise_step | apply Hloop
    | eapply bytewise_bind; [by apply bytewise_put_sw|intros ? _]
    | eapply bytewise_bind; [apply bytewise_procedure_byte|intros ? ?]
    | eapply bytewise_bind; [apply bytewise_recv_into|intros ? _] ]).
Qed.

Lemma bytewise_transmit_apdu_t0 cmd max pt bt fuel :
  bytewise (fun _ => True) (transmit_apdu_t0 cmd max pt bt fuel).
Proof.
  apply bytewise_if; [apply bytewise_fail|].
  assert (forall start hdr bo rl g,
    bytewise (fun _ => True) (t0_loop cmd max pt bt fuel start hdr bo rl g)) as H; [|apply H].
  induction fuel as [|fuel IH]; intros start hdr bo rl g; cbn [t0_loop]; [apply bytewise_none|].
  eapply (bytewise_bind (fun _ => True)); [repeat bytewise_step|]. intros _ _. cbv zeta.
  eapply bytewise_bind; [apply bytewise_procedure_byte|]. intros pb Hpb.
  by apply bytewise_t0_procedure.
Qed.

Lemma bytewise_fill n off tmo oe : bytewise (fun _ => True) (fill n off tmo oe).
Proof.
  revert off. induction n as [|n IH]; intros off t buf Hb; [done|]. cbn [fill].
  pose proof (bytewise_recv (tmo off) t buf Hb) as Hr.
  destruct (recv _ _) as [[[t' buf'] [b|e]]|]; [|done|done].
  destruct Hr as [Hb' Hu]. assert (bytewise (fun _ => True) (put off b ;;! fill n (S off) tmo oe)) as H
    by (eapply bytewise_bind; [by apply bytewise_put|intros _ _; apply IH]).
  exact (H t' buf' Hb').
Qed.

Lemma bytewise_until_silent n off : bytewise (fun _ => True) (recv_until_silent (T:=T) n off).
Proof.
  revert off. induction n as [|n IH]; intros off t buf Hb; [done|]. cbn [recv_until_silent].
  pose proof (bytewise_recv (if (off =? 0)%nat then 500 else 50) t buf Hb) as Hr.
  destruct (recv _ _) as [[[t' buf'] [b|e]]|]; [|by destruct e|done].
  destruct Hr as [Hb' Hu]. assert (bytewise (fun _ => True) (put off b ;;! recv_until_silent n (S off))) as H
    by (eapply bytewise_bind; [by apply bytewise_put|intros _ _; apply IH]).
  exact (H t' buf' Hb').
Qed.

Lemma bytewise_t1_block first rest n : bytewise (fun _ => True) (recv_t1_block (T:=T) first rest n).
Proof.
  eapply bytewise_bind; [apply bytewise_fill|]. intros _ _ t buf Hb. cbv zeta.
  set (k := default _ _). clearbody k.
  assert (bytewise (fun _ => True) (fill (T:=T) (k - 3) 3 (fun _ => rest)
    (fun e => match e with Timeout => ProtocolError | e => e end) ;;! ret k)) as H
    by (eapply bytewise_bind; [apply bytewise_fill|intros _ _; by apply bytewise_ret]).
  exact (H t buf Hb).
Qed.

(** An exchange leaves bytes in the buffer. *)
Lemma transmit_bytes `{!SmartcardHw T, !AtrFuel T} fuel command (u : Uart.SmartcardUart T) buf u' buf' r :
  bytes buf -> Uart.transmit_apdu fuel command u buf = Some (u', buf', r) -> bytes buf'.
Proof.
  assert (forall A (m : M T A) u' buf' r, bytewise (fun _ => True) m -> bytes buf ->
    Uart.on_wire m u buf = Some (u', buf', r) -> bytes buf') as Hw.
  { intros A m v b q Hm Hb. unfold Uart.on_wire. specialize (Hm (Uart.wire u) buf Hb).
    destruct (m _) as [[[w b'] q']|]; [|done]. intros [= _ <- _]. apply Hm. }
  intros Hb. unfold Uart.transmit_apdu, Uart.transmit_raw.
  destruct (negb _); [by intros [= _ <- _]|]. destruct (_ =? 1); (intros E; eapply Hw; [|exact Hb|exact E]).
  - eapply bytewise_bind; [apply bytewise_sends|]. intros _ _.
    eapply bytewise_bind; [apply bytewise_drain|]. intros _ _.
    destruct (_ && _); [apply bytewise_t1_block|].
    eapply bytewise_bind; [apply bytewise_until_silent|]. intros n _.
    repeat bytewise_step.
  - apply bytewise_transmit_apdu_t0.
Qed.
End Bytes.

(** ** The contract *)
Section Contract.
Context {T : Type} `{!SmartcardIo T, !SmartcardHw T, !AtrFuel T, !CardStream T, !ByteLine T}.
Context {FC : FiniteCard T} {SI : SilentCard (T := T)}.
Implicit Types w : Wrapper.SmartcardWrapper T.

(** The calls the reader makes. *)
Inductive called : Wrapper.SmartcardWrapper T -> Wrapper.SmartcardWrapper T -> Prop :=
| called_power_on w : called w (sc_power_on w).1
| called_power_off w : called w (sc_power_off w)
| called_transmit w command buf : (32 <= length buf)%nat -> called w (sc_transmit_apdu w command buf).1.1
| called_set_protocol w p : called w (sc_set_protocol w p)
| called_set_clock w b : called w (sc_set_clock w b)
| called_set_rate w c r : called w (sc_set_clock_and_rate w c r).1
| called_set_timing w fi di n : called w (sc_set_wire_timing w fi di n)
| called_take_reinit w : called w (sc_take_reinit_pending w).1.

(** No T=0 exchange, in this state or a later one, counts more response bytes
    than its buffer holds. *)
Definition tidy w : Prop := forall w' command buf n, rtc called w w' ->
  (32 <= length buf)%nat -> Uart.protocol (Wrapper.uart w') <> 1 ->
  (sc_transmit_apdu w' command buf).2 = Ok n -> (n <= length buf)%nat.

Lemma tidy_later w w' : called w w' -> tidy w -> tidy w'.
Proof. intros Hc Ht w'' command buf n Hr. apply Ht. by eapply rtc_l. Qed.

Definition counted w : Prop := u32 (Failures.reinit_count (Wrapper.heal w)).

Lemma record_counted f o : u32 (Failures.reinit_count f) ->
  u32 (Failures.reinit_count (Failures.record f o).1).
Proof.
  unfold Failures.record. intros H. repeat case_match; try done; cbn; int_lia.
Qed.

Lemma counted_transmit w command buf : counted w -> counted (sc_transmit_apdu w command buf).1.1.
Proof.
  intros Hw. destruct (wrapper_transmit w command buf) as (t & buf' & r & _ & E).
  cbn [sc_transmit_apdu Wrapper.wrapper_driver]. rewrite E. by apply record_counted.
Qed.

Lemma power_on_bytes w : match (sc_power_on w).2 with Ok atr => bytes atr | Err _ => True end.
Proof.
  cbn [sc_power_on Wrapper.wrapper_driver]. unfold Wrapper.power_on. set (w1 := Wrapper.with_heal _ w).
  destruct (Uart.is_card_present (Wrapper.uart w1)) eqn:Hpr.
  - destruct (power_on_spec 0 false (Wrapper.uart w1) ltac:(done) Hpr) as (u' & r & E & _ & _ & _ & Hs).
    rewrite (uart_power_on_eq _ _ E). cbn [snd]. destruct Hs as [(_ & _ & Hs)|[? _]]; [|done].
    destruct r; [apply Hs|done].
  - rewrite (uart_power_on_eq _ (Wrapper.uart w1, Err NoCard)); [done|].
    by apply power_on_absent.
Qed.

(** The contract holds for as long as the card is tidy. *)
#[global] Instance usart_laws : SmartcardLaws (Wrapper.SmartcardWrapper T) SmartcardError.
Proof.
  refine {| sc_ok w := tidy w /\ counted w |}.
  - intros w [Ht Hn]. split; [|apply power_on_bytes]. split; [exact (tidy_later _ _ (called_power_on w) Ht)|].
    cbn. unfold Wrapper.power_on. by destruct (Wrapper.uart_power_on _).
  - intros w [Ht Hn]. split; [exact (tidy_later _ _ (called_power_off w) Ht)|exact Hn].
  - intros w command buf [Ht Hn] Hl. unfold fills.
    split; [split; [exact (tidy_later _ _ (called_transmit w command buf Hl) Ht)|by apply counted_transmit]|].
    pose proof (fun n => Ht w command buf n (rtc_refl _ _) Hl) as Hle.
    cbn [sc_transmit_apdu Wrapper.wrapper_driver] in *.
    destruct (wrapper_transmit w command buf) as (t & buf' & r & E & Eq).
    destruct (transmit_apdu_ends (Wrapper.uart w) command buf) as (u' & b & r' & E' & Hlen & _ & Hok).
    rewrite E in E'. injection E' as <- <- <-. rewrite Eq in Hle |- *. cbn [fst snd] in *.
    split; [done|]. split; [intros Hb; by eapply transmit_bytes|].
    destruct r as [[|n]|e]; try done. destruct (Z.eq_dec (Uart.protocol (Wrapper.uart w)) 1) as [Hp|Hp];
      [|by apply Hle].
    apply Hok; [|done|done]. destruct (Uart.powered (Wrapper.uart w)) eqn:Hpw; [done|].
    unfold Uart.transmit_apdu in E. by rewrite Hpw in E.
  - intros w p [Ht Hn]. split; [exact (tidy_later _ _ (called_set_protocol w p) Ht)|exact Hn].
  - intros w b [Ht Hn]. split; [exact (tidy_later _ _ (called_set_clock w b) Ht)|exact Hn].
  - intros w c r [Ht Hn]. split; [exact (tidy_later _ _ (called_set_rate w c r) Ht)|].
    cbn. by destruct (Uart.set_clock_and_rate _ _ _).
  - intros w fi di n [Ht Hn]. split; [exact (tidy_later _ _ (called_set_timing w fi di n) Ht)|].
    cbn. by destruct (Uart.set_wire_timing _ _ _ _).
  - intros w [Ht Hn]. split; [exact (tidy_later _ _ (called_take_reinit w) Ht)|exact Hn].
  - intros w [_ Hn]. exact Hn.
Defined.
End Contract.

(** ** A card that sends little *)
Section Short.
Context {T : Type} `{!SmartcardIo T, !CardStream T, !FiniteCard T}.

(** A success has used up [k] of the card's bytes; a count of response bytes
    that started at [rl] has grown by no more than were used up. *)
Definition spends {A} (k : nat) (m : M T A) : Prop := forall t buf,
  match m (t, buf) with
  | Some (t', _, Ok _) => (k + pending t' <= pending t)%nat
  | _ => True
  end.
Definition tallies (rl : nat) (m : M T nat) : Prop := forall t buf,
  match m (t, buf) with
  | Some (t', _, Ok n) => (n + pending t' <= rl + pending t)%nat
  | _ => True
  end.

Lemma spends_bind {A B} k k' (m : M T A) (f : A -> M T B) :
  spends k m -> (forall a, spends k' (f a)) -> spends (k + k') (bind m f).
Proof.
  intros Hm Hf t buf. specialize (Hm t buf). unfold bind.
  destruct (m (t, buf)) as [[[t' buf'] [a|e]]|]; [|done|done]. specialize (Hf a t' buf').
  destruct (f a (t', buf')) as [[[t'' buf''] [b|e]]|]; [lia|done|done].
Qed.
Lemma tallies_bind {A} k rl (m : M T A) (f : A -> M T nat) :
  spends k m -> (forall a, tallies (rl + k) (f a)) -> tallies rl (bind m f).
Proof.
  intros Hm Hf t buf. specialize (Hm t buf). unfold bind.
  destruct (m (t, buf)) as [[[t' buf'] [a|e]]|]; [|done|done]. specialize (Hf a t' buf').
  destruct (f a (t', buf')) as [[[t'' buf''] [b|e]]|]; [lia|done|done].
Qed.
Lemma tallies_mono rl rl' m : (rl' <= rl)%nat -> tallies rl' m -> tallies rl m.
Proof.
  intros Hle Hm t buf. specialize (Hm t buf).
  destruct (m (t, buf)) as [[[t' buf'] [a|e]]|]; [lia|done|done].
Qed.
Lemma tallies_ret rl n : (n <= rl)%nat -> tallies rl (ret n).
Proof. intros Hn t buf. cbn. lia. Qed.
Lemma tallies_none rl : tallies rl (fun _ => None).
Proof. by intros t buf. Qed.
Lemma tallies_fail rl e : tallies rl (fail e).
Proof. by intros t buf. Qed.
Lemma tallies_if rl (c : bool) m m' : tallies rl m -> tallies rl m' -> tallies rl (if c then m else m').
Proof. by destruct c. Qed.

Lemma spends_recv ms : spends 1 (recv ms).
Proof.
  intros t buf. unfold recv. cbn [fst snd]. pose proof (fc_recv t ms) as H.
  destruct (recv_byte_timeout t ms) as [t' [b|e]]; [lia|done].
Qed.
Lemma spends_send b : spends 0 (send b).
Proof.
  intros t buf. unfold send. cbn [fst snd]. pose proof (fc_send t b) as H.
  destruct (send_byte t b) as [t' [[]|e]]; cbn in *; [lia|done].
Qed.
Lemma spends_ret {A} (a : A) : spends 0 (ret a).
Proof. intros t buf. cbn. lia. Qed.
Lemma spends_sends bs : spends 0 (sends bs).
Proof.
  induction bs as [|b bs IH]; [apply spends_ret|]. apply (spends_bind 0 0); [apply spends_send|by intros _].
Qed.
Lemma spends_put_sw max n a b : spends 0 (put_sw max n a b).
Proof. unfold put_sw. destruct (_ <=? _)%nat; intros t buf; cbn; lia. Qed.
Lemma spends_recv_into bt k off : spends k (recv_into bt k off).
Proof.
  revert off. induction k as [|k IH]; intros off; [apply spends_ret|]. cbn [recv_into].
  apply (spends_bind 1 k); [apply spends_recv|]. intros b.
  apply (spends_bind 0 k); [intros t buf; cbn; lia|]. intros _. apply IH.
Qed.
Lemma spends_procedure_byte pt fuel : spends 1 (procedure_byte pt fuel).
Proof.
  induction fuel as [|fuel IH]; [by intros t buf|]. cbn [procedure_byte].
  intros t buf. pose proof (spends_recv pt t buf) as H. unfold bind.
  destruct (recv pt (t, buf)) as [[[t' buf'] [pb|e]]|]; [|done|done].
  destruct (pb =? SW1_NULL); [|cbn; lia]. specialize (IH t' buf').
  destruct (procedure_byte pt fuel (t', buf')) as [[[t'' buf''] [b|e]]|]; [lia|done|done].
Qed.

Ltac tallies_step := first
  [ apply tallies_ret; lia | apply tallies_fail | apply tallies_none
  | eapply tallies_bind; [apply spends_recv|intros ?]
  | eapply tallies_bind; [apply spends_send|intros _]
  | eapply tallies_bind; [apply spends_sends|intros _]
  | eapply tallies_bind; [apply spends_put_sw|intros _]
  | eapply tallies_bind; [apply spends_recv_into|intros _]
  | eapply tallies_bind; [apply spends_procedure_byte|intros ?]
  | apply tallies_if ].

Lemma tallies_t0_procedure cmd max pt bt loop fuel hdr bo rl k g pb : (rl + 1 <= k)%nat ->
  (forall start hdr bo rl g, tallies rl (loop start hdr bo rl g)) ->
  tallies k (t0_procedure cmd max pt bt loop fuel hdr bo rl g pb).
Proof.
  intros Hk Hloop. unfold t0_procedure.
  repeat (cbv zeta; first [ tallies_step | eapply tallies_mono; [|apply Hloop]; lia ]).
Qed.

Lemma tallies_t0_loop cmd max pt bt fuel start hdr bo rl g :
  tallies rl (t0_loop cmd max pt bt fuel start hdr bo rl g).
Proof.
  revert start hdr bo rl g. induction fuel as [|fuel IH]; intros; cbn [t0_loop]; [apply tallies_none|].
  apply (tallies_bind 0).
  { destruct start; [|apply spends_ret]. apply (spends_bind 0 0); [|intros _]; apply spends_sends. }
  intros _. cbv zeta. eapply tallies_bind; [apply spends_procedure_byte|]. intros pb.
  apply tallies_t0_procedure; [lia|]. intros. apply IH.
Qed.

(** The count of a T=0 answer is at most the number of bytes the card sent. *)
Lemma tallies_transmit_apdu_t0 cmd max pt bt fuel : tallies 0 (transmit_apdu_t0 cmd max pt bt fuel).
Proof. apply tallies_if; [apply tallies_fail|apply tallies_t0_loop]. Qed.
End Short.

(** A card that never has more than 32 bytes to send is tidy. *)
Lemma short_card_tidy {T : Type} `{!SmartcardIo T, !SmartcardHw T, !AtrFuel T, !CardStream T}
    `{FC : !FiniteCard T, SI : !SilentCard (T := T)} (w : Wrapper.SmartcardWrapper T) :
  (forall t : T, (pending t <= 32)%nat) -> tidy w.
Proof.
  intros Hp w' command buf n _ Hl Hpr. cbn [sc_transmit_apdu Wrapper.wrapper_driver].
  destruct (wrapper_transmit w' command buf) as (t & buf' & r & E & ->). cbn [snd].
  destruct r as [[|k]|e]; [done| |done]. intros [= <-].
  unfold Uart.transmit_apdu in E. destruct (negb _); [done|].
  replace (_ =? 1) with false in E by lia. unfold Uart.on_wire in E.
  set (u := Wrapper.uart w') in *.
  pose proof (tallies_transmit_apdu_t0 command (length buf) (procedure_timeout_ms (Uart.config u))
    (byte_timeout_ms (Uart.config u)) (2 + pending (Uart.wire u)) (Uart.wire u) buf) as Ht.
  destruct (transmit_apdu_t0 _ _ _ _ _ _) as [[[t' b'] r']|]; [|done]. injection E as _ _ ->.
  specialize (Hp (Uart.wire u)). lia.
Qed.

(** ** A scripted card that sends little *)
Module ShortCard.
(** The bench of [SmartcardSpec], of whose card only the next 32 bytes come. *)
Record short := mkShort { inner : Bench.bench }.
Definition coming (s : short) : list Z := take 32 (Bench.incoming (inner s)).
Definition set_incoming l (b : Bench.bench) : Bench.bench :=
  Bench.mkBoard (Bench.present b) (Bench.atrs b) l (Bench.outgoing b) (Bench.arriving b) (Bench.cycles b).

#[global] Instance short_io : SmartcardIo short := {
  send_byte s x := (mkShort (send_byte (inner s) x).1, Ok tt);
  recv_byte_timeout s _ :=
    match coming s with
    | x :: l => (mkShort (set_incoming l (inner s)), Ok (wrap8 x))
    | [] => (s, Err Timeout)
    end;
  prepare_rx s := s
}.
#[global] Instance short_stream : CardStream short := fun s => length (coming s).
#[global] Instance short_finite : FiniteCard short.
Proof.
  split; [done| |done]. intros s ms. cbn [recv_byte_timeout short_io]. unfold pending, short_stream.
  assert (length (coming s) <= 32)%nat as Hl by (unfold coming; rewrite length_take; lia).
  destruct (coming s) as [|x l] eqn:E; [by rewrite E|]. cbn [length] in Hl |- *.
  unfold coming. cbn [set_incoming inner Bench.incoming]. rewrite length_take. lia.
Qed.
#[global] Instance short_bytes : ByteLine short.
Proof.
  intros s ms s' b. cbn. destruct (coming s); [done|]. intros [= _ <-]. apply u8_wrap8.
Qed.
#[global] Instance short_hw : SmartcardHw short := {
  pres_pin s := pres_pin (inner s);
  deactivate s := mkShort (deactivate (inner s));
  activate s := mkShort (activate (inner s));
  set_line_rate s r := mkShort (set_line_rate (inner s) r);
  read_sr s := (mkShort (read_sr (inner s)).1, (read_sr (inner s)).2);
  read_dr s := (mkShort (read_dr (inner s)).1, (read_dr (inner s)).2);
  delay_1ms s := mkShort (delay_1ms (inner s));
  read_cyccnt s := (mkShort (read_cyccnt (inner s)).1, (read_cyccnt (inner s)).2)
}.
#[global] Instance short_fuel : AtrFuel short := fun s => atr_fuel (inner s).
#[global] Instance short_silent : SilentCard (T := short).
Proof.
  refine {| clock s := clock (inner s); rx_left s := rx_left (inner s) |}; intros [b].
  - apply (sl_sr b).
  - apply (sl_dr b).
  - apply (sl_cyccnt b).
  - apply (sl_look b).
  - apply (sl_fuel b).
Defined.

(** The F469's driver on a board with such a card. *)
Definition driver (b : Bench.bench) : Wrapper.SmartcardWrapper short :=
  Wrapper.new (Uart.new (mkShort b) 42000000 SMARTCARD_CONFIG_DEFAULT).
End ShortCard.

(** It keeps the contract. *)
Lemma short_driver_ok b : sc_ok (ShortCard.driver b).
Proof.
  split; [|by vm_compute]. apply short_card_tidy. intros s.
  unfold pending, ShortCard.short_stream, ShortCard.coming. rewrite length_take. lia.
Qed.
