(* ===== verification/Bitbang.v ===== *)
(** * The bit-banged smartcard driver

    [ccid-firmware/src/smartcard_bitbang.rs], the interface of the STM32F746
    reader, and its [SmartcardWrapper] of [main.rs].  The I/O line of the card is
    a GPIO pin; a byte is timed against the cycle counter of the core, whose
    readings wrap.  Registers, HAL pins and the delay of the core are the class
    [GpioHw].  The protocol code is [CardLink.v].  Log lines are left out; the
    RAM log read over the debugger is not.  The theorems are in
    [BitbangSpec.v]. *)
From Stdlib Require Import ZArith Lia ZifyBool.
From stdpp Require Import prelude.
From S2P Require Import Prelude Atr Diag CardInterface ContactHandler CardLink.
From S2P Require PpsFsm.
Import Link.
Local Open Scope Z_scope.
Local Open Scope link_scope.

(** ** The hardware *)
Inductive reg :=
| CYCCNT | DWT_CTRL | DEMCR
| GPIOF_BSRR | GPIOF_MODER | GPIOF_AFRL | GPIOI_IDR | GPIOI_BSRR
| RCC_APB2ENR
| TIM10_CR1 | TIM10_PSC | TIM10_ARR | TIM10_CCR1 | TIM10_CCMR1 | TIM10_CCER.

Inductive pin := IO | RST | PWR.

Class GpioHw (H : Type) := {
  rd : reg -> H -> H * Z;
  wr : reg -> Z -> H -> H;
  set_pin : pin -> bool -> H -> H;
  pres_is_high : H -> bool;
  dwt_unlock : H -> H;
  asm_delay : Z -> H -> H;
  interrupts : bool -> H -> H
}.

Module Bitbang.

Definition SYSCLK_HZ : Z := 216000000.
Definition CARD_CLK_HZ : Z := 5000000.
Definition FI_DEFAULT : Z := 372.
Definition DI_DEFAULT : Z := 1.
Definition ETU_CPU_CYCLES : Z := (SYSCLK_HZ / CARD_CLK_HZ) * FI_DEFAULT / DI_DEFAULT.
Definition GPIO_CLK_HALF_CYCLES : Z := SYSCLK_HZ / (CARD_CLK_HZ * 2).
Definition SC_ATR_TIMEOUT_CYCLES : Z := SYSCLK_HZ * 4.
Definition SC_ATR_BYTE_TIMEOUT_CYCLES : Z := SYSCLK_HZ / 25.
Definition SC_BYTE_TIMEOUT_CYCLES : Z := SYSCLK_HZ / 20.
Definition SC_PROCEDURE_TIMEOUT_CYCLES : Z := SYSCLK_HZ * 9.
Definition SC_POWER_ON_DELAY_MS : nat := 50.
Definition SC_CLK_TO_RST_DELAY_CARD_CLKS : N := 50000.

(** ** Loops without a bound

    [forever step] runs [step] until it breaks ([inr]).  The fuel is two to the
    32 turns, more than the counter has values; [None] is a loop that is still
    running then. *)
Definition forever {S A} (step : S -> S + A) (s : S) : option A :=
  match turns 32 step s with inl _ => None | inr a => Some a end.

(** ** The RAM log *)
Definition DIAG_BUF_SIZE : nat := 261.
Definition DTAG_IO_READBACK : Z := 0x01.
Definition DTAG_ATR : Z := 0x02.
Definition DTAG_TX_SINGLE : Z := 0x03.
Definition DTAG_TX_BYTE_ERR : Z := 0x04.
Definition DTAG_DWT_STAMP : Z := 0x05.
Definition DTAG_END : Z := 0xFF.

Record DiagLog := mkLog { diag_buf : list Z; diag_len : nat }.

Definition diag_clear : DiagLog := mkLog (replicate DIAG_BUF_SIZE 0) 0.
Definition diag_push (byte : Z) (d : DiagLog) : DiagLog :=
  if (diag_len d <? length (diag_buf d))%nat
  then mkLog (<[diag_len d := byte]> (diag_buf d)) (S (diag_len d)) else d.
Fixpoint diag_pushes (bs : list Z) (d : DiagLog) : DiagLog :=
  match bs with [] => d | b :: bs => diag_pushes bs (diag_push b d) end.
Definition diag_tlv (tag : Z) (data : list Z) (d : DiagLog) : DiagLog :=
  if (255 <? length data)%nat then d
  else diag_pushes data (diag_push (Z.of_nat (length data)) (diag_push tag d)).
Definition diag_end (d : DiagLog) : DiagLog := diag_push 0 (diag_push DTAG_END d).
Definition read_diag (d : DiagLog) : outcome (list Z) := slice (diag_buf d) 0 (diag_len d).

Definition b2z (b : bool) : Z := if b then 1 else 0.

(** ** The line *)
Section Line.
Context {H : Type} `{!GpioHw H}.
Implicit Types h : H.

Definition modify (r : reg) (f : Z -> Z) h : H := let '(h, v) := rd r h in wr r (f v) h.

Definition enable_dwt h : H :=
  let h := modify DEMCR (fun r => Z.lor r (Z.shiftl 1 24)) h in
  let h := wr CYCCNT 0 (dwt_unlock h) in
  modify DWT_CTRL (fun r => Z.lor r 1) h.

Definition cyccnt h : H * Z := rd CYCCNT h.

(** [while deadline.wrapping_sub(cyccnt()) < 0x8000_0000 {}] *)
Definition delay_step (deadline : Z) h : H + H :=
  let '(h, now) := cyccnt h in
  if wrap32 (deadline - now) <? 0x80000000 then inl h else inr h.
Definition delay_until (deadline : Z) h : option H := forever (delay_step deadline) h.
Definition delay_cycles (n : Z) h : option H :=
  let '(h, now) := cyccnt h in delay_until (wrap32 (now + n)) h.

Definition delay_ms (ms : nat) h : H := Nat.iter ms (asm_delay 216000) h.

Definition io_is_high h : H * bool :=
  let '(h, v) := rd GPIOI_IDR h in (h, negb (Z.land v (Z.shiftl 1 0) =? 0)).
Definition io_drive_low h : H := wr GPIOI_BSRR (Z.shiftl 1 (0 + 16)) h.
Definition io_release_high h : H := wr GPIOI_BSRR (Z.shiftl 1 0) h.
Definition clk_high h : H := wr GPIOF_BSRR (Z.shiftl 1 6) h.
Definition clk_low h : H := wr GPIOF_BSRR (Z.shiftl 1 (6 + 16)) h.

(** *** Receiving a byte *)
(** One turn of the wait for a start bit: [inr true] when the line is low,
    [inr false] at the deadline. *)
Definition poll_step (deadline : Z) h : H + (H * bool) :=
  let h := clk_high h in
  let '(h, io_high) := io_is_high h in
  let h := clk_low h in
  if negb io_high then inr (h, true)
  else
    let '(h, now) := cyccnt h in
    if 0x80000000 <=? wrap32 (deadline - now) then inr (h, false) else inl h.

(** [for bit_index in 0..8], from the bits still to come *)
Fixpoint sample_bits (etu t0 : Z) (bits : list Z) (byte : Z) h : option (H * Z) :=
  match bits with
  | [] => Some (h, byte)
  | bit_index :: bits =>
      h ← delay_until (wrap32 (t0 + (etu + etu / 2 + etu * bit_index))) h;
      let '(h, high) := io_is_high h in
      sample_bits etu t0 bits (if high then Z.lor byte (Z.shiftl 1 bit_index) else byte) h
  end.

Definition BITS : list Z := [0; 1; 2; 3; 4; 5; 6; 7].

Definition count_ones (byte : Z) : Z := foldr (fun i n => b2z (Z.testbit byte i) + n) 0 BITS.

(** The frame behind a start bit. *)
Definition recv_frame (etu protocol : Z) h : option (H * result Z SmartcardError) :=
  let '(h, t0) := cyccnt h in
  h ← delay_until (wrap32 (t0 + etu / 2)) h;
  '(h, byte) ← sample_bits etu t0 BITS 0 h;
  h ← delay_until (wrap32 (t0 + (etu * 9 + etu / 2))) h;
  let '(h, parity_high) := io_is_high h in
  let total_ones := count_ones byte + b2z parity_high in
  if negb (total_ones mod 2 =? 0) then Some (h, Err ParityError)
  else
    h ← delay_until (wrap32 (t0 + etu * (11 + (if protocol =? 1 then 0 else 1)))) h;
    Some (h, Ok byte).

Definition line_recv (etu protocol timeout_cycles : Z) h : option (H * result Z SmartcardError) :=
  let h := io_release_high h in
  let '(h, now) := cyccnt h in
  let deadline := wrap32 (now + timeout_cycles) in
  '(h, started) ← forever (poll_step deadline) h;
  if negb started then Some (h, Err Timeout) else recv_frame etu protocol h.

(** *** Sending a byte *)
Definition drive (level : bool) h : H := if level then io_release_high h else io_drive_low h.

Fixpoint drive_bits (etu t0 byte : Z) (bits : list Z) h : option H :=
  match bits with
  | [] => Some h
  | bit_index :: bits =>
      let h := drive (negb (Z.land (Z.shiftr byte bit_index) 1 =? 0)) h in
      h ← delay_until (wrap32 (t0 + etu * (1 + bit_index + 1))) h;
      drive_bits etu t0 byte bits h
  end.

Definition guard_etu : Z := 2.
Definition total_etu : Z := 10 + guard_etu.

(** The line afterwards, and the two readings of the line. *)
Definition line_send (etu byte : Z) h : option (H * bool * bool) :=
  let parity_is_one := count_ones byte mod 2 =? 1 in
  let h := io_drive_low h in
  let '(h, t0) := cyccnt h in
  let '(h, high) := io_is_high h in
  let low_ok := negb high in
  h ← delay_until (wrap32 (t0 + etu)) h;
  h ← drive_bits etu t0 byte BITS h;
  let h := drive parity_is_one h in
  h ← delay_until (wrap32 (t0 + etu * 10)) h;
  let h := io_release_high h in
  let '(h, high_ok) := io_is_high h in
  h ← delay_until (wrap32 (t0 + etu * total_etu)) h;
  Some (h, low_ok, high_ok).

(** *** The clock of the card *)
Definition TIM10EN : Z := Z.shiftl 1 17.
Definition CC1E : Z := 1.
(** [oc1m().pwm_mode1()], [oc1pe().set_bit()] *)
Definition PWM_MODE1_PRELOAD : Z := Z.lor (Z.shiftl 6 4) (Z.shiftl 1 3).

Definition start_timer h : H :=
  let h := clk_high h in
  let h := modify GPIOF_MODER
             (fun v => Z.lor (Z.land v (Z.lnot (Z.shiftl 3 12))) (Z.shiftl 2 12)) h in
  let h := modify GPIOF_AFRL
             (fun v => Z.lor (Z.land v (Z.lnot (Z.shiftl 0xf 24))) (Z.shiftl 3 24)) h in
  let h := modify RCC_APB2ENR (fun v => Z.lor v TIM10EN) h in
  let h := asm_delay 10 h in
  let h := wr TIM10_CR1 0 h in
  let h := wr TIM10_PSC 0 h in
  let h := wr TIM10_ARR (SYSCLK_HZ / CARD_CLK_HZ - 1) h in
  let h := wr TIM10_CCR1 (SYSCLK_HZ / CARD_CLK_HZ / 2) h in
  let h := wr TIM10_CCMR1 PWM_MODE1_PRELOAD h in
  let h := wr TIM10_CCER CC1E h in
  wr TIM10_CR1 (Z.lor (Z.shiftl 1 7) 1) h.

Definition stop_timer h : H :=
  let h := wr TIM10_CR1 0 h in
  let h := wr TIM10_CCER 0 h in
  let h := modify GPIOF_MODER
             (fun v => Z.lor (Z.land v (Z.lnot (Z.shiftl 3 12))) (Z.shiftl 1 12)) h in
  let h := modify GPIOF_AFRL (fun v => Z.land v (Z.lnot (Z.shiftl 0xf 24))) h in
  clk_low h.

(** One period of the clock toggled by hand, before the timer runs. *)
Definition clk_period h : H :=
  asm_delay GPIO_CLK_HALF_CYCLES (clk_low (asm_delay GPIO_CLK_HALF_CYCLES (clk_high h))).
End Line.

(** ** The driver *)
Record SmartcardBitbang (H : Type) := mkBitbang {
  pins : H;
  atr_raw : list Z;
  atr_len : nat;
  powered : bool;
  protocol : Z;
  ifsc : Z;
  t1_ns : Z;
  etu_cycles : Z;
  clock_running : bool;
  diag : DiagLog
}.
Arguments mkBitbang {H}.
Arguments pins {H} _.
Arguments atr_raw {H} _.
Arguments atr_len {H} _.
Arguments powered {H} _.
Arguments protocol {H} _.
Arguments ifsc {H} _.
Arguments t1_ns {H} _.
Arguments etu_cycles {H} _.
Arguments clock_running {H} _.
Arguments diag {H} _.

Section Setters.
Context {H : Type}.
Implicit Types u : SmartcardBitbang H.

Definition with_pins v_pins u : SmartcardBitbang H :=
  mkBitbang v_pins (atr_raw u) (atr_len u) (powered u) (protocol u) (ifsc u) (t1_ns u)
    (etu_cycles u) (clock_running u) (diag u).
Definition with_atr raw len u : SmartcardBitbang H :=
  mkBitbang (pins u) raw len (powered u) (protocol u) (ifsc u) (t1_ns u)
    (etu_cycles u) (clock_running u) (diag u).
Definition with_powered v_powered u : SmartcardBitbang H :=
  mkBitbang (pins u) (atr_raw u) (atr_len u) v_powered (protocol u) (ifsc u) (t1_ns u)
    (etu_cycles u) (clock_running u) (diag u).
Definition with_protocol v_protocol u : SmartcardBitbang H :=
  mkBitbang (pins u) (atr_raw u) (atr_len u) (powered u) v_protocol (ifsc u) (t1_ns u)
    (etu_cycles u) (clock_running u) (diag u).
Definition with_ifsc v_ifsc u : SmartcardBitbang H :=
  mkBitbang (pins u) (atr_raw u) (atr_len u) (powered u) (protocol u) v_ifsc (t1_ns u)
    (etu_cycles u) (clock_running u) (diag u).
Definition with_clock v_clock u : SmartcardBitbang H :=
  mkBitbang (pins u) (atr_raw u) (atr_len u) (powered u) (protocol u) (ifsc u) (t1_ns u)
    (etu_cycles u) v_clock (diag u).
Definition with_diag v_diag u : SmartcardBitbang H :=
  mkBitbang (pins u) (atr_raw u) (atr_len u) (powered u) (protocol u) (ifsc u) (t1_ns u)
    (etu_cycles u) (clock_running u) v_diag.
(** The fields [power_on_atr] and [power_off] put back. *)
Definition session_defaults u : SmartcardBitbang H :=
  mkBitbang (pins u) (replicate SC_ATR_MAX_LEN 0) 0 false 0 32 0
    ETU_CPU_CYCLES (clock_running u) (diag u).
End Setters.

Section Driver.
Context {H : Type} `{!GpioHw H}.
Implicit Types u : SmartcardBitbang H.

Definition on_pins (f : H -> H) u : SmartcardBitbang H := with_pins (f (pins u)) u.

Definition new (h : H) : SmartcardBitbang H :=
  let h := set_pin PWR true (set_pin RST false (set_pin IO true (enable_dwt h))) in
  mkBitbang h (replicate SC_ATR_MAX_LEN 0) 0 false 0 32 0 ETU_CPU_CYCLES false diag_clear.

Definition start_continuous_clock u : SmartcardBitbang H := with_clock true (on_pins start_timer u).
Definition stop_continuous_clock u : SmartcardBitbang H :=
  if negb (clock_running u) then u else with_clock false (on_pins stop_timer u).

Definition is_card_present u : bool := pres_is_high (pins u).
Definition set_protocol (p : Z) u : SmartcardBitbang H := with_protocol p u.
Definition set_clock (_enable : bool) u : SmartcardBitbang H := u.
Definition set_clock_and_rate (_clock_hz _rate_bps : Z) u :
    SmartcardBitbang H * result (Z * Z) SmartcardError := (u, Ok (1000000, 9600)).

(** *** Bytes; [None] is a wait that does not end. *)
Definition recv_byte_timeout (timeout_cycles : Z) u :
    option (SmartcardBitbang H * result Z SmartcardError) :=
  '(h, r) ← line_recv (etu_cycles u) (protocol u) timeout_cycles (pins u);
  Some (with_pins h u, r).

Definition send_byte (byte : Z) u : option (SmartcardBitbang H * result unit SmartcardError) :=
  '(h, low_ok, high_ok) ← line_send (etu_cycles u) byte (pins u);
  let u := with_pins h u in
  let u := if negb low_ok || negb high_ok
           then with_diag (diag_tlv DTAG_TX_BYTE_ERR [byte; b2z low_ok; b2z high_ok] (diag u)) u
           else u in
  Some (u, Ok tt).

Definition seal_diag u : SmartcardBitbang H :=
  let '(h, now) := rd CYCCNT (pins u) in
  with_diag (diag_end (diag_tlv DTAG_DWT_STAMP (to_le32 now) (diag u))) (with_pins h u).

Definition io_readback_test u : option (SmartcardBitbang H) :=
  h ← delay_cycles (etu_cycles u) (io_release_high (pins u));
  let '(h, high_ok) := io_is_high h in
  let '(h, high) := io_is_high (io_drive_low h) in
  let low_ok := negb high in
  h ← delay_cycles (etu_cycles u) (io_release_high h);
  Some (with_diag (diag_tlv DTAG_IO_READBACK [b2z high_ok; b2z low_ok] (diag u)) (with_pins h u)).

(** *** Activation *)
(** [raw[len] = b] is guarded by the test before it. *)
Fixpoint read_atr (fuel len : nat) u : option (SmartcardBitbang H * result unit SmartcardError) :=
  match fuel with
  | O => None
  | S fuel =>
      '(u, r) ← recv_byte_timeout
                  (if (len =? 0)%nat then SC_ATR_TIMEOUT_CYCLES else SC_ATR_BYTE_TIMEOUT_CYCLES) u;
      match r with
      | Ok b =>
          if (len =? 0)%nat && (b =? 0) then read_atr fuel len u
          else if (SC_ATR_MAX_LEN <=? len)%nat then Some (u, Err BufferOverflow)
          else read_atr fuel (S len) (with_atr (<[len := b]> (atr_raw u)) (atr_len u) u)
      | Err Timeout =>
          if (0 <? len)%nat then Some (with_atr (atr_raw u) len u, Ok tt) else Some (u, Err Timeout)
      | Err e => Some (u, Err e)
      end
  end.

Fixpoint send_bytes (bs : list Z) u : option (SmartcardBitbang H) :=
  match bs with [] => Some u | b :: bs => '(u, _) ← send_byte b u; send_bytes bs u end.

(** Whatever ends the negotiation, the caller ignores it.  The machine settles
    within [PPS_MAX_LEN] bytes. *)
Fixpoint pps_receive (fuel : nat) (fsm : PpsFsm.PpsFsm) u : option (SmartcardBitbang H) :=
  match fuel with
  | O => None
  | S fuel =>
      '(u, r) ← recv_byte_timeout SC_BYTE_TIMEOUT_CYCLES u;
      match r with
      | Ok byte =>
          match PpsFsm.process_byte fsm byte with
          | Ret (fsm, state) =>
              if decide (state = PpsFsm.Done \/ state = PpsFsm.Failed) then Some u
              else pps_receive fuel fsm u
          | Panic => None
          end
      | Err _ => Some u
      end
  end.

Definition negotiate_pps_fsm (params : AtrParams) u : option (SmartcardBitbang H) :=
  if negb (Atr.has_ta1 params) || (Atr.ta1 params =? DEFAULT_TA1) then Some u
  else
    match PpsFsm.build_minimal_request PpsFsm.new (Atr.protocol params) with
    | Panic => None
    | Ret (fsm, req) =>
        u ← send_bytes req u;
        pps_receive (S PpsFsm.PPS_MAX_LEN) (PpsFsm.start_response fsm) u
    end.

(** What [power_on_atr] does before it releases RST. *)
Definition cold_start u : option (SmartcardBitbang H) :=
  let u := stop_continuous_clock (with_diag diag_clear u) in
  let u := on_pins (fun h => delay_ms 200 (io_release_high (set_pin RST false (set_pin PWR true h)))) u in
  u ← io_readback_test (session_defaults u);
  let u := on_pins (fun h => delay_ms SC_POWER_ON_DELAY_MS (set_pin PWR false h)) u in
  let u := on_pins (fun h => N.iter SC_CLK_TO_RST_DELAY_CARD_CLKS clk_period h) u in
  Some (on_pins (fun h => interrupts false (set_pin RST true h)) (start_continuous_clock u)).

(** [fuel] bounds the bytes of the ATR with the zero bytes before it. *)
Definition power_on (fuel : nat) u : option (SmartcardBitbang H * result (list Z) SmartcardError) :=
  if negb (is_card_present u) then Some (u, Err NoCard)
  else
    u ← cold_start u;
    '(u, r) ← read_atr fuel 0 u;
    match r with
    | Ok _ =>
        let atr := take (atr_len u) (atr_raw u) in
        let params := arm_parse_atr atr in
        let u := with_diag (diag_tlv DTAG_ATR atr (diag u)) (with_powered true u) in
        let u := with_ifsc (Atr.ifsc params) (with_protocol (detect_protocol_from_atr atr) u) in
        let u := on_pins (interrupts true) u in
        u ← (if Atr.protocol params =? 1 then negotiate_pps_fsm params u else Some u);
        Some (seal_diag u, Ok atr)
    | Err e => Some (on_pins (interrupts true) u, Err e)
    end.

Definition power_off u : SmartcardBitbang H :=
  let u := stop_continuous_clock (on_pins (set_pin RST false) u) in
  session_defaults (on_pins (fun h => io_release_high (set_pin PWR true h)) u).

(** *** Exchanges *)
(** [SmartcardIo]: the two answers of a wait that does not end are never given
    ([BitbangSpec]). *)
#[global] Instance bitbang_io : SmartcardIo (SmartcardBitbang H) := {
  Link.send_byte u byte := default (u, Err HardwareError) (send_byte byte u);
  Link.recv_byte_timeout u timeout_ms :=
    default (u, Err HardwareError)
      (recv_byte_timeout (Z.min (timeout_ms * (SYSCLK_HZ / 1000)) u32_max) u);
  prepare_rx u := u
}.

Definition recv_cycles (timeout_cycles : Z) : M (SmartcardBitbang H) Z := fun s =>
  match recv_byte_timeout timeout_cycles s.1 with
  | Some (u, r) => Some ((u, s.2), r)
  | None => None
  end.

Fixpoint send_all (data : list Z) : M (SmartcardBitbang H) unit :=
  match data with
  | [] => ret tt
  | byte :: data =>
      (fun s => match send_byte byte s.1 with Some (u, r) => Some ((u, s.2), r) | None => None end) ;;!
      send_all data
  end.

(** [while total_len < response.len()], over what is left of the buffer *)
Fixpoint recv_response (n total_len : nat) (timeout_cycles : Z) : M (SmartcardBitbang H) nat :=
  match n with
  | O => ret total_len
  | S n => fun s =>
      match recv_cycles timeout_cycles s with
      | Some (s, Ok byte) =>
          (put total_len byte ;;! recv_response n (S total_len) SC_BYTE_TIMEOUT_CYCLES) s
      | Some (s, Err Timeout) => Some (s, Ok total_len)
      | Some (s, Err e) => Some (s, Err e)
      | None => None
      end
  end.

Definition on_state (f : SmartcardBitbang H -> SmartcardBitbang H) : M (SmartcardBitbang H) unit :=
  fun s => Some ((f s.1, s.2), Ok tt).

Definition transmit_raw_inner (data : list Z) (response_len : nat) : M (SmartcardBitbang H) nat :=
  send_all data ;;!
  on_state (on_pins io_release_high) ;;!
  let! total_len := recv_response response_len 0 SC_PROCEDURE_TIMEOUT_CYCLES in
  if (total_len =? 0)%nat then fail Timeout else ret total_len.

(** [cortex_m::interrupt::disable(); let r = m; enable(); r] *)
Definition uninterrupted {A} (m : M (SmartcardBitbang H) A) : M (SmartcardBitbang H) A := fun s =>
  match m (on_pins (interrupts false) s.1, s.2) with
  | Some (s, r) => Some ((on_pins (interrupts true) s.1, s.2), r)
  | None => None
  end.

Definition transmit_raw (data response : list Z) u :
    option (SmartcardBitbang H * list Z * result nat SmartcardError) :=
  if negb (powered u) then Some (u, response, Err HardwareError)
  else uninterrupted (transmit_raw_inner data (length response)) (u, response).

(** [fuel] bounds the procedure bytes of a T=0 exchange. *)
Definition transmit_apdu (fuel : nat) (command response : list Z) u :
    option (SmartcardBitbang H * list Z * result nat SmartcardError) :=
  if negb (powered u) then Some (u, response, Err HardwareError)
  else if protocol u =? 1 then transmit_raw_inner command (length response) (u, response)
  else
    uninterrupted
      (transmit_apdu_t0 command (length response)
         (SC_PROCEDURE_TIMEOUT_CYCLES / (SYSCLK_HZ / 1000))
         (SC_BYTE_TIMEOUT_CYCLES / (SYSCLK_HZ / 1000)) fuel) (u, response).
End Driver.

(** ** [SmartcardWrapper] of the F746 build ([main.rs])

    The defaults are the results of waits that do not end. *)
Section Wrapper.
Context {H : Type} `{!GpioHw H, !CardStream (SmartcardBitbang H)}.
Implicit Types u : SmartcardBitbang H.

Definition stamp_presence (present : bool) (base : Diagnostics.Diagnostics) : Diagnostics.Diagnostics :=
  Diagnostics.mkDiagnostics (Diagnostics.apdu_tx_count base) (Diagnostics.apdu_rx_count base)
    (Diagnostics.nak_count base) (Diagnostics.error_count base) (Diagnostics.reinit_count base)
    present (Diagnostics.uptime_ticks base).

#[global] Instance bitbang_driver : SmartcardDriver (SmartcardBitbang H) SmartcardError := {
  sc_power_on u := default (u, Err HardwareError) (power_on (2 + pending u) u);
  sc_power_off := power_off;
  sc_is_card_present := is_card_present;
  sc_transmit_apdu u command response :=
    default (u, response, Err HardwareError) (transmit_apdu (2 + pending u) command response u);
  sc_set_protocol u p := set_protocol p u;
  sc_set_clock u b := set_clock b u;
  sc_set_clock_and_rate u c r := set_clock_and_rate c r u;
  sc_set_wire_timing u _ _ _ := u;
  sc_xfr_error_class _ := smartcard_error_class;
  sc_reinit_count _ := 0;
  sc_take_reinit_pending u := (u, false);
  sc_diagnostics u base := stamp_presence (is_card_present u) base
}.
End Wrapper.

End Bitbang.
