(* ===== verification/BitbangSpec.v ===== *)
(** * The bit-banged smartcard driver: theorems

    About [Bitbang.v], over any hardware whose accesses take a bounded number of
    cycles: a frame on the line is received as the byte it carries and a sent
    byte is such a frame; how far a receiver may lag behind a block; exchanges
    and activation end, but for a line that is held low. *)
From Stdlib Require Import ZArith Lia ZifyBool.
From stdpp Require Import prelude.
From S2P Require Import Prelude Atr Diag CardInterface ContactHandler CardLink CardLinkSpec Bitbang.
From S2P Require PpsFsm.
Import Link Bitbang.
Local Open Scope Z_scope.

(** ** The hardware in time

    [now] counts the cycles without wrapping; an access takes between one and
    [cost] of them and happens at its last.  [ours h t] is the level the reader's
    pin has at [t] (after [now h]: if it is left alone), [card h t] the level the
    card will leave on the line as long as the reader only listens; the line is
    low when one of them is. *)
Class CycleHw (H : Type) `{!GpioHw H} := {
  now : H -> Z;
  ours : H -> Z -> bool;
  card : H -> Z -> bool;
  cost : Z;
  ch_rd r h : now h < now (rd r h).1 <= now h + cost /\
    (forall t, ours (rd r h).1 t = ours h t) /\ forall t, card (rd r h).1 t = card h t;
  ch_clk v h : now h < now (wr GPIOF_BSRR v h) <= now h + cost /\
    (forall t, ours (wr GPIOF_BSRR v h) t = ours h t) /\
    forall t, card (wr GPIOF_BSRR v h) t = card h t;
  ch_drive level h : now h < now (drive level h) <= now h + cost /\
    (forall t, ours (drive level h) t = if t <? now (drive level h) then ours h t else level) /\
    (level = true -> (forall t, now h <= t -> ours h t = true) ->
     forall t, card (drive level h) t = card h t);
  ch_cyccnt h : (rd CYCCNT h).2 = wrap32 (now (rd CYCCNT h).1);
  ch_idr h : Z.testbit (rd GPIOI_IDR h).2 0 =
    ours h (now (rd GPIOI_IDR h).1) && card h (now (rd GPIOI_IDR h).1)
}.

(** ** Loops *)
Section Loops.
Context {S A : Type} (step : S -> S + A) (Inv : S -> Prop) (m : S -> Z).
Hypothesis keeps : forall s s', Inv s -> step s = inl s' -> Inv s' /\ 0 <= m s' < m s.

Lemma forever_ends s : Inv s -> m s <= 2 ^ 32 -> (forall s, Inv s -> 0 < m s) ->
  exists s' a, forever step s = Some a /\ Inv s' /\ step s' = inr a.
Proof.
  intros Hs Hm Hpos. unfold forever.
  destruct (turns_end step Inv m keeps 32 s Hs Hpos Hm) as (s' & a & -> & ?). eauto.
Qed.
End Loops.

#[local] Opaque forever.

Lemma some_bind {A B} (f : A -> option B) a : Some a ≫= f = f a.
Proof. done. Qed.

Section Line.
Context {H : Type} `{!GpioHw H} {CH : CycleHw H}.
Implicit Types h : H.

(** Time passed, and nothing was done to the line. *)
Definition listened h h' : Prop :=
  now h <= now h' /\ (forall t, ours h' t = ours h t) /\ forall t, card h' t = card h t.

Lemma listened_refl h : listened h h.
Proof. done. Qed.
Lemma listened_trans h1 h2 h3 : listened h1 h2 -> listened h2 h3 -> listened h1 h3.
Proof.
  intros (? & Ho1 & Hc1) (? & Ho2 & Hc2). split_and!; [lia| |]; intros t.
  - by rewrite Ho2. - by rewrite Hc2.
Qed.

Lemma rd_spec r h : listened h (rd r h).1 /\ now h < now (rd r h).1 <= now h + cost.
Proof. destruct (ch_rd r h) as (Ht & Ho & Hc). split; [split_and!; [lia|done|done]|done]. Qed.
Lemma clk_spec v h : listened h (wr GPIOF_BSRR v h) /\
  now h < now (wr GPIOF_BSRR v h) <= now h + cost.
Proof. destruct (ch_clk v h) as (Ht & Ho & Hc). split; [split_and!; [lia|done|done]|done]. Qed.

Lemma cost_pos h : 0 < cost.
Proof. destruct (ch_rd CYCCNT h) as [? _]. lia. Qed.

Lemma cyccnt_spec h : exists h', cyccnt h = (h', wrap32 (now h')) /\ listened h h' /\
  now h < now h' <= now h + cost.
Proof.
  destruct (rd_spec CYCCNT h). exists (rd CYCCNT h).1. split; [|done].
  unfold cyccnt. rewrite <- ch_cyccnt. by destruct (rd CYCCNT h).
Qed.

(** The line as the input register shows it. *)
Definition line h (t : Z) : bool := ours h t && card h t.

Lemma line_listened h h' t : listened h h' -> line h' t = line h t.
Proof. intros (_ & Ho & Hc). unfold line. by rewrite Ho, Hc. Qed.

Lemma land_1 v : negb (Z.land v (Z.shiftl 1 0) =? 0) = Z.testbit v 0.
Proof.
  change (Z.shiftl 1 0) with (Z.ones 1). rewrite Z.land_ones by lia.
  change (2 ^ 1) with 2. rewrite <- Z.bit0_mod. by destruct (Z.testbit v 0).
Qed.

Lemma io_spec h : exists h', io_is_high h = (h', line h (now h')) /\ listened h h' /\
  now h < now h' <= now h + cost.
Proof.
  destruct (rd_spec GPIOI_IDR h) as [Hl Ht]. exists (rd GPIOI_IDR h).1. split; [|done].
  pose proof (ch_idr h) as Hi. unfold io_is_high. unfold line. rewrite <- Hi, <- land_1.
  by destruct (rd GPIOI_IDR h).
Qed.

(** *** Waiting *)
Lemma wrap_sub d t : wrap32 (wrap32 d - wrap32 t) = wrap32 (d - t).
Proof. unfold wrap32. by rewrite <- Zminus_mod. Qed.

Lemma wrap_below d : - 2 ^ 31 <= d < 2 ^ 31 -> (wrap32 d <? 0x80000000) = (0 <=? d).
Proof.
  intros Hd. unfold wrap32. destruct (Z.leb_spec 0 d).
  - rewrite Z.mod_small by lia. apply Z.ltb_lt. lia.
  - rewrite <- (Z.mod_unique d 4294967296 (-1) (d + 4294967296)) by lia. apply Z.ltb_ge. lia.
Qed.

Lemma delay_until_spec d h : cost <= 2 ^ 30 -> now h - 2 ^ 30 <= d < now h + 2 ^ 31 ->
  exists h', delay_until (wrap32 d) h = Some h' /\ listened h h' /\
    d < now h' /\ now h < now h' <= Z.max (now h) d + cost.
Proof.
  intros Hc Hd. pose proof (cost_pos h).
  set (Inv := fun h' => listened h h' /\ now h' <= Z.max (now h) d).
  assert (Hstep : forall h1, Inv h1 -> exists h2, listened h1 h2 /\ now h1 < now h2 <= now h1 + cost /\
    delay_step (wrap32 d) h1 = if now h2 <=? d then inl h2 else inr h2).
  { intros h1 [(Hn & _) Hmax]. destruct (cyccnt_spec h1) as (h2 & Heq & Hl & Ht). exists h2.
    split_and!; [done|lia|lia|]. unfold delay_step. rewrite Heq, wrap_sub, wrap_below by lia.
    replace (0 <=? d - now h2) with (now h2 <=? d) by lia. done. }
  destruct (forever_ends (delay_step (wrap32 d)) Inv (fun h' => Z.max (now h) d + 1 - now h'))
    with (s := h) as (h1 & h2 & Heq & Hi & Hs).
  - intros h1 h2 Hi Hs. destruct (Hstep h1 Hi) as (h3 & Hl & Ht & Hs'). rewrite Hs in Hs'.
    destruct (now h3 <=? d) eqn:Hle; simplify_eq. destruct Hi as [Hl1 Hmax].
    split; [|lia]. split; [by eapply listened_trans|lia].
  - split; [apply listened_refl|lia].
  - lia.
  - intros h1 [_ ?]. lia.
  - exists h2. destruct (Hstep h1 Hi) as (h3 & Hl & Ht & Hs'). rewrite Hs in Hs'.
    destruct (now h3 <=? d) eqn:Hle; simplify_eq. destruct Hi as [Hl1 Hmax].
    split_and!; [done|by eapply listened_trans|lia|destruct Hl1; lia|lia].
Qed.

(** *** The wait for a start bit *)
Lemma poll_step_spec d h : exists x h2 h3,
  now h + 1 < x <= now h + 2 * cost /\ x < now h2 <= x + cost /\ now h2 < now h3 <= now h2 + cost /\
  listened h h2 /\ listened h h3 /\
  poll_step (wrap32 d) h =
    (if negb (line h x) then inr (h2, true)
     else if 0x80000000 <=? wrap32 (d - now h3) then inr (h3, false) else inl h3).
Proof.
  unfold poll_step, clk_high, clk_low.
  destruct (clk_spec (Z.shiftl 1 6) h) as [Hl0 Ht0]. set (h0 := wr GPIOF_BSRR _ h) in *.
  destruct (io_spec h0) as (h1 & -> & Hl1 & Ht1).
  destruct (clk_spec (Z.shiftl 1 (6 + 16)) h1) as [Hl2 Ht2]. set (h2 := wr GPIOF_BSRR _ h1) in *.
  destruct (cyccnt_spec h2) as (h3 & Heq & Hl3 & Ht3).
  exists (now h1), h2, h3. split_and!; try lia.
  - do 2 (eapply listened_trans; [eassumption|]). done.
  - do 3 (eapply listened_trans; [eassumption|]). done.
  - rewrite (line_listened h h0) by done.
    destruct (line h (now h1)); cbn [negb]; [|done]. rewrite Heq, wrap_sub. done.
Qed.

Lemma poll_spec d h (Inv : H -> Prop) : cost <= 2 ^ 28 -> now h <= d < now h + 2 ^ 32 ->
  Inv h ->
  (forall h1 h3 x, Inv h1 -> listened h1 h3 -> now h1 + 1 < x <= now h1 + 2 * cost ->
     x < now h3 <= x + 2 * cost -> line h x = true -> Inv h3) ->
  exists h1 h2 x b, forever (poll_step (wrap32 d)) h = Some (h2, b) /\
    Inv h1 /\ listened h h1 /\ listened h1 h2 /\ now h1 + 1 < x <= now h1 + 2 * cost /\
    now h1 <= d /\ line h x = negb b /\
    if b then x < now h2 <= x + cost
    else x < now h2 <= x + 2 * cost /\ (d < now h2 \/ 2 ^ 31 <= d - now h2).
Proof.
  intros Hc Hd Hi Hkeep. pose proof (cost_pos h).
  destruct (forever_ends (poll_step (wrap32 d)) (fun h1 => Inv h1 /\ listened h h1 /\ now h1 <= d)
    (fun h1 => d + 1 - now h1)) with (s := h) as (h1 & r & Heq & (Hi1 & Hl1 & Hd1) & Hs).
  - intros h1 h3 (Hi1 & Hl1 & Hd1) Hs.
    destruct (poll_step_spec d h1) as (x & h2 & h3' & Hx & H2 & H3 & Hl2 & Hl3 & Hs').
    rewrite Hs in Hs'. rewrite (line_listened h h1) in Hs' by done.
    destruct (line h x) eqn:Hline; [|done]. cbn [negb] in Hs'.
    destruct (0x80000000 <=? wrap32 (d - now h3')) eqn:Hw; [done|]. injection Hs' as ->.
    assert (now h3' <= d).
    { destruct (Z.le_gt_cases (now h3') d); [done|]. apply Z.leb_gt in Hw.
      assert (E := wrap_below (d - now h3')). lia. }
    split; [split_and!|lia].
    + apply (Hkeep h1 h3' x); [done|done|lia|lia|done].
    + by eapply listened_trans.
    + lia.
  - split_and!; [done|apply listened_refl|lia].
  - lia.
  - intros h1 (_ & _ & ?). lia.
  - destruct (poll_step_spec d h1) as (x & h2 & h3 & Hx & H2 & H3 & Hl2 & Hl3 & Hs').
    rewrite Hs in Hs'. rewrite (line_listened h h1) in Hs' by done.
    destruct (line h x) eqn:Hline; cbn [negb] in Hs'.
    + destruct (0x80000000 <=? wrap32 (d - now h3)) eqn:Hw; [|done]. injection Hs' as ->.
      exists h1, h3, x, false. split_and!; try done; try lia.
      apply Z.leb_le in Hw. destruct (Z.lt_ge_cases d (now h3)); [by left|right].
      assert (E := wrap_below (d - now h3)). destruct (Z.lt_ge_cases (d - now h3) (2 ^ 31)); [|done]. lia.
    + injection Hs' as ->. exists h1, h2, x, true. split_and!; try done; lia.
Qed.

(** *** The bits of a frame *)
(** An ETU leaves room for the accesses of a bit. *)
Definition timing (etu : Z) : Prop := 16 * cost <= etu <= 2 ^ 26.

(** The level at a reading in the middle of the [i]-th bit behind the start bit. *)
Definition sampled etu t0 h (i : Z) (b : bool) : Prop := exists x,
  t0 + (etu + etu / 2 + etu * i) < x <= t0 + (etu + etu / 2 + etu * i) + 2 * cost /\ line h x = b.

Fixpoint collect (bits : list Z) (bs : list bool) (byte : Z) : Z :=
  match bits, bs with
  | i :: bits, b :: bs => collect bits bs (if b then Z.lor byte (Z.shiftl 1 i) else byte)
  | _, _ => byte
  end.

Lemma half_etu etu : timing etu -> 8 * cost <= etu / 2 /\ 2 * (etu / 2) <= etu <= 2 * (etu / 2) + 1.
Proof. unfold timing. intros. pose proof (Z.div_mod etu 2). pose proof (Z.mod_pos_bound etu 2). lia. Qed.

Lemma sample_spec etu t0 d h : timing etu -> now h <= t0 + d -> 0 <= d <= 12 * etu -> t0 <= now h ->
  exists h1 h2 x, delay_until (wrap32 (t0 + d)) h = Some h1 /\ io_is_high h1 = (h2, line h x) /\
    listened h h2 /\ now h2 = x /\ t0 + d < x <= t0 + d + 2 * cost.
Proof.
  unfold timing. intros He Hd Hr Ht0. pose proof (cost_pos h).
  destruct (delay_until_spec (t0 + d) h) as (h1 & -> & Hl1 & Hd1 & Ht1); [lia|lia|].
  destruct (io_spec h1) as (h2 & Heq & Hl2 & Ht2). exists h1, h2, (now h2).
  rewrite Heq, (line_listened h h1) by done. split_and!; try done; try lia.
  by eapply listened_trans.
Qed.

Lemma sample_bits_spec etu t0 n i byte h : timing etu -> 0 <= i -> i + Z.of_nat n <= 8 ->
  t0 <= now h <= t0 + (etu + etu / 2 + etu * i) ->
  exists h' bs, sample_bits etu t0 (seqZ i (Z.of_nat n)) byte h =
      Some (h', collect (seqZ i (Z.of_nat n)) bs byte) /\
    Forall2 (sampled etu t0 h) (seqZ i (Z.of_nat n)) bs /\ listened h h' /\
    t0 <= now h' <= t0 + (etu + etu / 2 + etu * (i + Z.of_nat n)).
Proof.
  intros He. revert i byte h. induction n as [|n IH]; intros i byte h Hi Hn Hh.
  - exists h, []. rewrite (seqZ_nil i (Z.of_nat 0)) by lia. cbn [sample_bits collect].
    split_and!; [done|constructor|apply listened_refl|lia|lia].
  - rewrite seqZ_cons by lia. cbn [sample_bits]. pose proof (half_etu etu He). unfold timing in He.
    destruct (sample_spec etu t0 (etu + etu / 2 + etu * i) h) as (h1 & h2 & x & -> & Heq & Hl & Hn2 & Hx);
      [done|lia|nia|lia|].
    cbn [mbind option_bind]. rewrite Heq.
    replace (Z.pred (Z.of_nat (S n))) with (Z.of_nat n) by lia.
    destruct (IH (Z.succ i) (if line h x then Z.lor byte (Z.shiftl 1 i) else byte) h2)
      as (h' & bs & -> & Hf & Hl' & Hh'); [lia|lia|pose proof (cost_pos h); nia|].
    exists h', (line h x :: bs). split_and!; [done| |by eapply listened_trans|lia|lia].
    constructor; [by exists x|]. eapply Forall2_impl; [exact Hf|].
    intros j b (y & Hy & <-). exists y. by rewrite (line_listened h h2).
Qed.

Lemma collect_byte bs : length bs = 8%nat ->
  u8 (collect BITS bs 0) /\ forall i : nat, (i < 8)%nat -> Some (Z.testbit (collect BITS bs 0) (Z.of_nat i)) = bs !! i.
Proof.
  intros Hlen. do 9 (destruct bs as [|[] bs]; try done); clear Hlen;
    (split; [vm_compute; split; [discriminate|reflexivity]|]);
    intros i Hi; do 8 (destruct i as [|i]; [reflexivity|]); lia.
Qed.

(** What the receiver makes of eight bits and a parity bit. *)
Definition frame_result (b : Z) (p : bool) : result Z SmartcardError :=
  if (count_ones b + b2z p) mod 2 =? 0 then Ok b else Err ParityError.
Definition guard_time (protocol : Z) : Z := 11 + (if protocol =? 1 then 0 else 1).

(** A frame read from the time [t0]. *)
Definition frame_read etu t0 h (b : Z) (p : bool) : Prop :=
  u8 b /\ (forall i, 0 <= i < 8 -> sampled etu t0 h i (Z.testbit b i)) /\ sampled etu t0 h 8 p.

Lemma bits_spec etu t0 h : timing etu -> t0 <= now h <= t0 + (etu + etu / 2) ->
  exists h1 b h2 h3 p, sample_bits etu t0 BITS 0 h = Some (h1, b) /\
    delay_until (wrap32 (t0 + (etu * 9 + etu / 2))) h1 = Some h2 /\ io_is_high h2 = (h3, p) /\
    frame_read etu t0 h b p /\ listened h h3 /\
    t0 + (etu * 9 + etu / 2) < now h3 <= t0 + (etu * 9 + etu / 2) + 2 * cost.
Proof.
  intros He Hh. destruct (half_etu etu He) as [Hhalf1 Hhalf2].
  destruct (sample_bits_spec etu t0 8 0 0 h) as (h1 & bs & Heq & Hf & Hl1 & Ht1); [done|lia|lia|nia|].
  change (seqZ 0 (Z.of_nat 8)) with BITS in *.
  destruct (sample_spec etu t0 (etu * 9 + etu / 2) h1) as (h2 & h3 & x & Hd & Hio & Hl3 & Hn3 & Hx);
    [done|nia|unfold timing in He; pose proof (cost_pos h); lia|lia|].
  exists h1, (collect BITS bs 0), h2, h3, (line h1 x).
  assert (Hlen : length bs = 8%nat) by (by rewrite <- (Forall2_length _ _ _ Hf)).
  destruct (collect_byte bs Hlen) as [Hu8 Hbits].
  split_and!; try done; try lia.
  - split; [done|]. split.
    + intros i Hi. assert (Hb := Hbits (Z.to_nat i)). rewrite Z2Nat.id in Hb by lia.
      symmetry in Hb; ospecialize (Hb _); [lia|].
      eapply (Forall2_lookup_lr _ _ _ (Z.to_nat i)); [exact Hf| |exact Hb].
      unfold BITS. assert (Hcase : i = 0 \/ i = 1 \/ i = 2 \/ i = 3 \/ i = 4 \/ i = 5 \/ i = 6 \/ i = 7) by lia.
      destruct_or! Hcase; subst i; reflexivity.
    + exists x. rewrite <- (line_listened h h1) by done. split; [nia|done].
  - by eapply listened_trans.
Qed.

(** *** Receiving *)
Definition released h : Prop := forall t, now h <= t -> ours h t = true.

Lemma released_listened h h' : released h -> listened h h' -> released h'.
Proof. intros Hr (Hn & Ho & _) t Ht. rewrite Ho. apply Hr. lia. Qed.

Lemma release_spec h : exists h', io_release_high h = h' /\ released h' /\
  now h < now h' <= now h + cost /\ (released h -> listened h h').
Proof.
  destruct (ch_drive true h) as (Ht & Ho & Hc). exists (io_release_high h). unfold io_release_high.
  change (wr GPIOI_BSRR (Z.shiftl 1 0) h) with (drive true h).
  split_and!; [done| |lia|lia|].
  - intros t Hle. rewrite Ho. by destruct (Z.ltb_spec t (now (drive true h))); [lia|].
  - intros Hr. split_and!; [lia| |].
    + intros t. rewrite Ho. destruct (Z.ltb_spec t (now (drive true h))); [done|].
      symmetry. apply Hr. lia.
    + intros t. apply Hc; [done|]. intros. by apply Hr.
Qed.

(** How [line_recv] ends, from the hardware [h] behind the release: with a reading
    at [x] that came too late for the deadline, or with the frame whose start bit
    it found.  [Inv] held at the last turn of the wait. *)
Inductive received (Inv : H -> Prop) etu protocol h d : H -> result Z SmartcardError -> Prop :=
| received_nothing h1 x h2 : Inv h1 -> now h < x -> now h1 <= d -> now h1 + 1 < x <= now h1 + 2 * cost ->
    line h x = true -> listened h h2 -> x < now h2 <= x + 2 * cost ->
    (d < now h2 \/ 2 ^ 31 <= d - now h2) -> received Inv etu protocol h d h2 (Err Timeout)
| received_frame h1 x t0 b p h2 : Inv h1 -> now h < x -> now h1 <= d ->
    now h1 + 1 < x <= now h1 + 2 * cost -> line h x = false -> x < t0 <= x + 2 * cost ->
    frame_read etu t0 h b p -> listened h h2 ->
    t0 + 9 * etu < now h2 <= t0 + etu * guard_time protocol + cost ->
    (frame_result b p = Ok b -> t0 + etu * guard_time protocol < now h2) ->
    received Inv etu protocol h d h2 (frame_result b p).

Lemma frame_read_listened etu t0 h h' b p : listened h h' -> frame_read etu t0 h' b p -> frame_read etu t0 h b p.
Proof.
  intros Hl (Hb & Hs & Hp).
  assert (Hsam : forall i c, sampled etu t0 h' i c -> sampled etu t0 h i c).
  { intros i c (x & Hx & Hc). exists x. by rewrite <- (line_listened h h'). }
  split_and!; [done|intros i Hi; auto|auto].
Qed.

Lemma guard_time_range protocol : 11 <= guard_time protocol <= 12.
Proof. unfold guard_time. case_match; lia. Qed.

Lemma wrap_wrap t z : wrap32 (wrap32 t + z) = wrap32 (t + z).
Proof. unfold wrap32. by rewrite Zplus_mod_idemp_l. Qed.

Lemma sample_bits_wrap etu t0 bits byte h :
  sample_bits etu (wrap32 t0) bits byte h = sample_bits etu t0 bits byte h.
Proof.
  revert byte h. induction bits as [|i bits IH]; intros byte h; [done|]. cbn [sample_bits].
  rewrite wrap_wrap. destruct (delay_until _ _); [|done]. cbn [mbind option_bind].
  destruct (io_is_high _). apply IH.
Qed.

Lemma recv_frame_spec etu protocol h : timing etu ->
  exists t0 b p h', recv_frame etu protocol h = Some (h', frame_result b p) /\
    now h < t0 <= now h + cost /\ frame_read etu t0 h b p /\ listened h h' /\
    t0 + 9 * etu < now h' <= t0 + etu * guard_time protocol + cost /\
    (frame_result b p = Ok b -> t0 + etu * guard_time protocol < now h').
Proof.
  intros He. pose proof (cost_pos h). assert (He' := He). unfold timing in He'.
  destruct (half_etu etu He) as [Hh1 Hh2]. unfold recv_frame.
  destruct (cyccnt_spec h) as (h4 & -> & Hl4 & Ht4). set (t0 := now h4) in *.
  rewrite !wrap_wrap.
  destruct (delay_until_spec (t0 + etu / 2) h4) as (h5 & -> & Hl5 & Hd5 & Ht5); [lia|lia|].
  rewrite some_bind, sample_bits_wrap.
  destruct (bits_spec etu t0 h5) as (h6 & byte & h7 & h8 & p & -> & Hdel & Hio & Hfr & Hl8 & Ht8);
    [done|destruct Hl5; lia|].
  rewrite some_bind. cbn iota beta. rewrite Hdel, some_bind, Hio. cbn iota beta.
  assert (Hl : listened h h5) by (by eapply listened_trans).
  apply (frame_read_listened etu t0 h h5) in Hfr; [|done].
  assert (Hl' : listened h h8) by (by eapply listened_trans).
  pose proof (guard_time_range protocol) as Hg.
  exists t0, byte, p. unfold frame_result.
  destruct ((count_ones byte + b2z p) mod 2 =? 0); cbn [negb].
  - destruct (delay_until_spec (t0 + etu * guard_time protocol) h8) as (h9 & Hd9 & Hl9 & Hgt & Ht9);
      [lia|nia|].
    exists h9. unfold guard_time in Hd9. rewrite Hd9, some_bind.
    split_and!; try done; try nia. by eapply listened_trans.
  - exists h8. split_and!; try done; nia.
Qed.

Lemma line_recv_spec etu protocol timeout h : timing etu ->
  let h0 := io_release_high h in
  exists h1, listened h0 h1 /\ now h0 < now h1 <= now h0 + cost /\
    forall Inv : H -> Prop, Inv h1 ->
     (forall h2 h3 x, Inv h2 -> listened h2 h3 -> now h1 < x -> now h2 + 1 < x <= now h2 + 2 * cost ->
        x < now h3 <= x + 2 * cost -> line h1 x = true -> Inv h3) ->
     exists h2 r, line_recv etu protocol timeout h = Some (h2, r) /\
       received Inv etu protocol h1 (now h1 + wrap32 timeout) h2 r.
Proof.
  intros He h0. destruct (cyccnt_spec h0) as (h1 & Hcyc & Hl1 & Ht1).
  exists h1. split_and!; [done|lia|lia|]. intros Inv Hi Hkeep.
  pose proof (cost_pos h). assert (He' := He). unfold timing in He'.
  pose proof (Z.mod_pos_bound timeout 4294967296) as Hw. fold (wrap32 timeout) in Hw.
  assert (Hd : wrap32 (wrap32 (now h1) + timeout) = wrap32 (now h1 + wrap32 timeout)).
  { unfold wrap32. by rewrite Zplus_mod_idemp_l, Zplus_mod_idemp_r. }
  set (d := now h1 + wrap32 timeout) in *.
  destruct (poll_spec d h1 (fun h => Inv h /\ now h1 <= now h)) as
    (h2 & h3 & x & b & Hpoll & [Hi2 Hn2] & Hl2 & Hl3 & Hx & Hd2 & Hline & Hend); [lia|lia|split; [done|lia]| |].
  { intros h4 h5 y [Hi4 Hn4] Hl5 Hy Hn5 Hy'. split; [|destruct Hl5; lia].
    apply (Hkeep h4 h5 y); [exact Hi4|done|lia|done|done|done]. }
  unfold line_recv. fold h0. rewrite Hcyc, Hd, Hpoll, some_bind. cbn iota beta.
  assert (Hl13 : listened h1 h3) by (by eapply listened_trans).
  destruct b; cbn [negb] in *.
  - destruct (recv_frame_spec etu protocol h3 He) as (t0 & byte & p & h4 & -> & Ht0 & Hfr & Hl4 & Ht4 & Hok).
    exists h4, (frame_result byte p). split; [done|].
    eapply (received_frame Inv etu protocol h1 d h2 x t0 byte p); try done; try lia.
    + by eapply frame_read_listened.
    + by eapply listened_trans.
  - destruct Hend as [Hx3 Hdl]. exists h3, (Err Timeout). split; [done|].
    by eapply (received_nothing Inv etu protocol h1 d h2 x h3); try done; lia.
Qed.

(** ** A frame on the line

    [shows etu m s b p h]: a frame with the byte [b] and the parity bit [p] starts
    at [s]; around the edges behind the start bit [m] cycles are open. *)
Definition level (b : Z) (p : bool) (i : Z) : bool := if i <? 8 then Z.testbit b i else p.
Definition shows etu m s b p h : Prop :=
  (forall t, s <= t <= s + etu - m -> line h t = false) /\
  forall i t, 0 <= i <= 8 -> s + etu * (i + 1) + m <= t <= s + etu * (i + 2) - m ->
    line h t = level b p i.
Definition high_between h a b : Prop := forall t, a <= t < b -> line h t = true.

Lemma u8_ext a b : u8 a -> u8 b -> (forall i, 0 <= i < 8 -> Z.testbit a i = Z.testbit b i) -> a = b.
Proof.
  intros Ha Hb Hbits. apply Z.bits_inj'. intros i Hi. destruct (Z.lt_ge_cases i 8) as [Hlt|Hge]; [auto|].
  unfold u8 in *.
  assert (Hhigh : forall z, 0 <= z < 256 -> Z.testbit z i = false).
  { intros z Hz. destruct (Z.eq_dec z 0) as [->|]; [apply Z.bits_0|].
    apply Z.bits_above_log2; [lia|]. assert (Z.log2 z < 8) by (apply Z.log2_lt_pow2; lia). lia. }
  by rewrite !Hhigh.
Qed.

Lemma sampled_level etu m s t0 lag h i b c p : timing etu -> shows etu m s b p h -> 0 <= i <= 8 ->
  s < t0 <= s + lag -> m <= etu / 2 -> lag + 2 * cost + etu / 2 + m <= etu ->
  sampled etu t0 h i c -> c = level b p i.
Proof.
  intros He [_ Hs] Hi Ht0 Hm Hlag (x & Hx & <-). apply Hs; [done|].
  destruct (half_etu etu He). nia.
Qed.

Lemma frame_read_shows etu m s t0 lag h b p b' p' : timing etu -> shows etu m s b p h -> u8 b ->
  s < t0 <= s + lag -> m <= etu / 2 -> lag + 2 * cost + etu / 2 + m <= etu ->
  frame_read etu t0 h b' p' -> b' = b /\ p' = p.
Proof.
  intros He Hs Hb Ht0 Hm Hlag (Hb' & Hbits & Hp). split.
  - apply u8_ext; [done|done|]. intros i Hi.
    rewrite (sampled_level etu m s t0 lag h i b (Z.testbit b' i) p); try done; [|lia|by apply Hbits].
    unfold level. by rewrite (proj2 (Z.ltb_lt i 8)) by lia.
  - by apply (sampled_level etu m s t0 lag h 8 b p' p) in Hp.
Qed.

Lemma shows_listened etu m s b p h h' : listened h h' -> shows etu m s b p h -> shows etu m s b p h'.
Proof.
  intros Hl [Hs Hb]. split.
  - intros t Ht. rewrite (line_listened h h') by done. auto.
  - intros i t Hi Ht. rewrite (line_listened h h') by done. auto.
Qed.

Lemma high_listened h h' a b : listened h h' -> high_between h a b -> high_between h' a b.
Proof. intros Hl Hh t Ht. rewrite (line_listened h h') by done. auto. Qed.

Definition late h s : Z := Z.max 0 (now h - s).

Lemma receive_frame etu protocol timeout m s b p h : timing etu -> released h -> u8 b ->
  high_between h (now h) s -> shows etu m s b p h -> 0 <= m <= etu / 2 ->
  late h s + 8 * cost + etu / 2 + m <= etu ->
  s + 2 * cost <= now h + timeout -> 0 <= timeout < 2 ^ 31 ->
  exists h', line_recv etu protocol timeout h = Some (h', frame_result b p) /\ listened h h' /\
    now h' <= Z.max (now h) s + etu * guard_time protocol + 7 * cost /\
    (frame_result b p = Ok b -> s + etu * guard_time protocol < now h').
Proof.
  intros He Hr Hb Hidle Hs Hm Hlate Hto Hto'. unfold late in Hlate. pose proof (cost_pos h).
  destruct (line_recv_spec etu protocol timeout h He) as (h1 & Hl1 & Ht1 & Hrecv).
  destruct (release_spec h) as (h0 & Heq0 & Hr0 & Ht0 & Hl0). rewrite Heq0 in *. specialize (Hl0 Hr).
  assert (Hl : listened h h1) by (by eapply listened_trans).
  apply (high_listened h h1) in Hidle; [|done]. apply (shows_listened etu m s b p h h1) in Hs; [|done].
  destruct (half_etu etu He) as [Hh1 Hh2].
  assert (Hlow : forall x, s <= x <= Z.max (now h) s + 4 * cost -> line h1 x = false)
    by (intros x Hx; apply Hs; lia).
  destruct (Hrecv (fun h2 => now h2 <= Z.max (now h) s + 2 * cost)) as (h2 & r & Heq & Hr2).
  - lia.
  - intros h2 h3 x Hi Hl3 Hnx Hx Hn3 Hline. destruct (Z.lt_ge_cases x s); [lia|].
    rewrite Hlow in Hline by lia. done.
  - assert (Hw : wrap32 timeout = timeout) by (unfold wrap32; apply Z.mod_small; lia).
    rewrite Hw in Hr2.
    inversion Hr2 as [h3 x h4 Hi Hnx Hd3 Hx Hline Hl4 Hn4 Hd|h3 x t0 b' p' h4 Hi Hnx Hd3 Hx Hline Ht0' Hfr Hl4 Hn4 Hok];
      subst.
    + exfalso. destruct (Z.lt_ge_cases x s); [lia|]. rewrite Hlow in Hline by lia. done.
    + assert (s <= x).
      { destruct (Z.lt_ge_cases x s); [|done]. rewrite Hidle in Hline by lia. done. }
      destruct (frame_read_shows etu m s t0 (Z.max 0 (now h - s) + 6 * cost) h1 b p b' p')
        as [-> ->]; try done; try lia.
      exists h2. split_and!; [done|by eapply listened_trans|lia|].
      intros Hf. specialize (Hok Hf). lia.
Qed.

Lemma receive_silence etu protocol timeout h : timing etu -> released h -> 0 <= timeout < 2 ^ 31 ->
  high_between h (now h) (now h + timeout + 8 * cost) ->
  exists h', line_recv etu protocol timeout h = Some (h', Err Timeout) /\ listened h h' /\
    now h + timeout < now h' <= now h + timeout + 6 * cost.
Proof.
  intros He Hr Hto Hidle. pose proof (cost_pos h).
  destruct (line_recv_spec etu protocol timeout h He) as (h1 & Hl1 & Ht1 & Hrecv).
  destruct (release_spec h) as (h0 & Heq0 & Hr0 & Ht0 & Hl0). rewrite Heq0 in *. specialize (Hl0 Hr).
  assert (Hl : listened h h1) by (by eapply listened_trans).
  apply (high_listened h h1) in Hidle; [|done].
  destruct (Hrecv (fun _ => True)) as (h2 & r & Heq & Hr2); [done|done|].
  assert (Hw : wrap32 timeout = timeout) by (unfold wrap32; apply Z.mod_small; lia).
  rewrite Hw in Hr2.
  inversion Hr2 as [h3 x h4 _ Hnx Hd3 Hx Hline Hl4 Hn4 Hd|h3 x t0 b' p' h4 _ Hnx Hd3 Hx Hline]; subst.
  - exists h2. split_and!; [done|by eapply listened_trans|lia|lia].
  - rewrite Hidle in Hline by lia. done.
Qed.

(** *** Sending *)
Lemma drive_spec l h : now h < now (drive l h) <= now h + cost /\
  forall t, ours (drive l h) t = if t <? now (drive l h) then ours h t else l.
Proof. by destruct (ch_drive l h) as (? & ? & _). Qed.

(** The line between [h] and [h']: what it was up to [now h], and [l] from one
    access later on. *)
Definition switched (l : bool) h h' : Prop :=
  (forall t, t <= now h -> ours h' t = ours h t) /\ forall t, now h + cost <= t -> ours h' t = l.

Lemma hold_spec etu t0 l d h h1 : timing etu -> h1 = drive l h \/ listened (drive l h) h1 /\ now h1 <= now h + 3 * cost ->
  t0 <= now h -> now h + 3 * cost <= t0 + d -> 0 <= d <= 12 * etu ->
  exists h2, delay_until (wrap32 (t0 + d)) h1 = Some h2 /\ t0 + d < now h2 <= t0 + d + cost /\
    switched l h h2.
Proof.
  unfold timing. intros He Hh1 Ht0 Hd Hr. pose proof (cost_pos h). destruct (drive_spec l h) as [Htd Hod].
  assert (Hl1 : listened (drive l h) h1 /\ now h1 <= now h + 3 * cost)
    by (destruct Hh1 as [->|?]; [split; [apply listened_refl|lia]|done]).
  destruct Hl1 as [Hl1 Ht1].
  destruct (delay_until_spec (t0 + d) h1) as (h2 & -> & Hl2 & Hd2 & Ht2); [lia|destruct Hl1; lia|].
  exists h2. split; [done|]. split; [lia|].
  assert (Hl : forall t, ours h2 t = ours (drive l h) t)
    by (intros t; destruct Hl1 as (_ & Ho1 & _), Hl2 as (_ & Ho2 & _); by rewrite Ho2, Ho1).
  split; intros t Ht; rewrite Hl, Hod; destruct (Z.ltb_spec t (now (drive l h))); try done; lia.
Qed.

Lemma drive_bits_wrap etu t0 byte bits h :
  drive_bits etu (wrap32 t0) byte bits h = drive_bits etu t0 byte bits h.
Proof.
  revert h. induction bits as [|i bits IH]; intros h; [done|]. cbn [drive_bits].
  rewrite wrap_wrap. destruct (delay_until _ _); [|done]. rewrite !some_bind. apply IH.
Qed.

Lemma data_bit byte i : 0 <= i -> negb (Z.land (Z.shiftr byte i) 1 =? 0) = Z.testbit byte i.
Proof. intros Hi. change 1 with (Z.shiftl 1 0) at 1. rewrite land_1, Z.shiftr_spec by lia. done. Qed.

Lemma drive_bits_spec etu t0 byte n i h : timing etu -> 0 <= i -> i + Z.of_nat n <= 8 ->
  t0 + etu * (i + 1) < now h <= t0 + etu * (i + 1) + cost ->
  exists h', drive_bits etu t0 byte (seqZ i (Z.of_nat n)) h = Some h' /\
    t0 + etu * (i + Z.of_nat n + 1) < now h' <= t0 + etu * (i + Z.of_nat n + 1) + cost /\
    (forall t, t <= now h -> ours h' t = ours h t) /\
    forall j t, i <= j < i + Z.of_nat n ->
      t0 + etu * (j + 1) + 2 * cost <= t <= t0 + etu * (j + 2) -> ours h' t = Z.testbit byte j.
Proof.
  intros He. revert i h. induction n as [|n IH]; intros i h Hi Hn Hh.
  - exists h. rewrite (seqZ_nil i (Z.of_nat 0)) by lia. split_and!; [done|lia|lia|done|lia].
  - rewrite seqZ_cons by lia. cbn [drive_bits]. pose proof (cost_pos h). assert (He' := He). unfold timing in He'.
    rewrite data_bit by done.
    destruct (hold_spec etu t0 (Z.testbit byte i) (etu * (1 + i + 1)) h (drive (Z.testbit byte i) h))
      as (h1 & -> & Ht1 & Hold & Hnew); [done|by left|nia|nia|nia|].
    rewrite some_bind.
    replace (Z.pred (Z.of_nat (S n))) with (Z.of_nat n) by lia.
    destruct (IH (Z.succ i) h1) as (h' & -> & Hh' & Hkeep & Hbits); [lia|lia|lia|].
    exists h'. split; [done|]. split; [lia|]. split.
    + intros t Ht. rewrite Hkeep by nia. auto.
    + intros j t Hj Ht. destruct (Z.eq_dec j i) as [->|Hji].
      * rewrite Hkeep by lia. apply Hnew. lia.
      * apply Hbits; lia.
Qed.

Definition parity (byte : Z) : bool := count_ones byte mod 2 =? 1.

(** The line while a byte is sent from [s] on. *)
Definition sent etu s byte h h' : Prop :=
  (forall t, t < s -> ours h' t = ours h t) /\
  (forall t, s <= t <= s + etu -> ours h' t = false) /\
  (forall i t, 0 <= i <= 8 -> s + etu * (i + 1) + 4 * cost <= t <= s + etu * (i + 2) ->
     ours h' t = level byte (parity byte) i) /\
  (forall t, s + etu * 10 + 4 * cost <= t -> ours h' t = true).

Lemma line_send_spec etu byte h : timing etu ->
  exists s h' low_ok high_ok, line_send etu byte h = Some (h', low_ok, high_ok) /\
    now h < s <= now h + cost /\ sent etu s byte h h' /\
    s + etu * total_etu < now h' <= s + etu * total_etu + 2 * cost.
Proof.
  intros He. pose proof (cost_pos h). assert (He' := He). unfold timing in He'.
  unfold line_send, io_drive_low. change (wr GPIOI_BSRR (Z.shiftl 1 (0 + 16)) h) with (drive false h).
  destruct (drive_spec false h) as [Hts Hos]. set (s := now (drive false h)) in *.
  destruct (cyccnt_spec (drive false h)) as (h1 & -> & Hl1 & Ht1). fold s in Ht1. set (t0 := now h1) in *.
  destruct (io_spec h1) as (h2 & -> & Hl2 & Ht2). fold t0 in Ht2.
  rewrite !wrap_wrap.
  assert (Hl12 : listened (drive false h) h2) by (by eapply listened_trans).
  destruct (delay_until_spec (t0 + etu) h2) as (h3 & -> & Hl3 & Hd3 & Ht3); [lia|lia|].
  assert (Hl13 : listened (drive false h) h3) by (by eapply listened_trans).
  rewrite some_bind, drive_bits_wrap.
  destruct (drive_bits_spec etu t0 byte 8 0 h3) as (h4 & Hbits & Ht4 & Hkeep4 & Hb4); [done|lia|lia|lia|].
  change (seqZ 0 (Z.of_nat 8)) with BITS in Hbits. rewrite Hbits, some_bind. fold (parity byte).
  destruct (hold_spec etu t0 (parity byte) (etu * 10) h4 (drive (parity byte) h4))
    as (h5 & -> & Ht5 & Hold5 & Hnew5); [done|by left|nia|nia|nia|].
  rewrite some_bind. unfold io_release_high. change (wr GPIOI_BSRR (Z.shiftl 1 0) h5) with (drive true h5).
  destruct (drive_spec true h5) as [Ht6 _].
  destruct (io_spec (drive true h5)) as (h6 & -> & Hl6 & Ht6').
  destruct (hold_spec etu t0 true (etu * total_etu) h5 h6)
    as (h7 & -> & Ht7 & Hold7 & Hnew7); [done|right; split; [done|lia]|nia|unfold total_etu, guard_etu; lia|
    unfold total_etu, guard_etu; lia|].
  rewrite some_bind. exists s, h7, (negb (line h1 (now h2))), (line (drive true h5) (now h6)).
  assert (Hlow : forall t, t <= now h3 -> ours h7 t = ours (drive false h) t).
  { intros t Ht. rewrite Hold7, Hold5, Hkeep4 by nia. by destruct Hl13 as (_ & Ho & _). }
  split; [done|]. split; [done|]. split; [|unfold total_etu, guard_etu in *; lia].
  split_and!.
  - intros t Ht. rewrite Hlow, Hos by lia. by destruct (Z.ltb_spec t s); [|lia].
  - intros t Ht. rewrite Hlow, Hos by lia. by destruct (Z.ltb_spec t s); [lia|].
  - intros i t Hi Ht. unfold level. destruct (Z.ltb_spec i 8) as [Hi8|Hi8].
    + rewrite Hold7, Hold5 by nia. apply Hb4; nia.
    + replace i with 8 in * by lia. rewrite Hold7 by nia. apply Hnew5. nia.
  - intros t Ht. apply Hnew7. lia.
Qed.

(** *** A block *)
(** The frames that follow the one that started at [s0]: [pitch] cycles or more
    behind each other, within the timeout between bytes, high in between and
    behind the last. *)
Fixpoint follows etu m pitch s0 (frames : list (Z * Z)) h : Prop :=
  match frames with
  | [] => forall t, s0 + 10 * etu + m <= t -> line h t = true
  | (s, b) :: frames =>
      s0 + pitch <= s <= s0 + 11 * etu + SC_BYTE_TIMEOUT_CYCLES - 2 * cost /\
      high_between h (s0 + 10 * etu + m) s /\ u8 b /\ shows etu m s b (parity b) h /\
      follows etu m pitch s frames h
  end.

(** What a receiver may fall behind with every byte. *)
Definition gain etu protocol pitch : Z := Z.max 0 (etu * guard_time protocol + 7 * cost - pitch).

Lemma follows_listened etu m pitch s0 frames h h' : listened h h' ->
  follows etu m pitch s0 frames h -> follows etu m pitch s0 frames h'.
Proof.
  intros Hl. revert s0. induction frames as [|[s b] frames IH]; intros s0; cbn [follows].
  - intros Hq t Ht. rewrite (line_listened h h') by done. auto.
  - intros (Hs & Hh & Hb & Hsh & Hf). split_and!; [lia|lia|by eapply high_listened|done| |auto].
    by eapply shows_listened.
Qed.

Lemma frame_result_parity b : frame_result b (parity b) = Ok b.
Proof.
  unfold frame_result, parity. pose proof (Z.mod_pos_bound (count_ones b) 2) as Hm.
  rewrite Z.add_mod by lia. destruct (Z.eqb_spec (count_ones b mod 2) 1) as [->|Hn]; [done|].
  by replace (count_ones b mod 2) with 0 by lia.
Qed.

Lemma byte_timeout_value : SC_BYTE_TIMEOUT_CYCLES = 10800000.
Proof. reflexivity. Qed.

Lemma recv_block (u : SmartcardBitbang H) m pitch frames n off s0 buf :
  let etu := etu_cycles u in
  timing etu -> 0 <= m <= etu / 2 -> released (pins u) ->
  Z.of_nat (length frames) * gain etu (protocol u) pitch + late (pins u) (s0 + pitch) +
    8 * cost + etu / 2 + m <= etu ->
  s0 + etu * guard_time (protocol u) < now (pins u) ->
  follows etu m pitch s0 frames (pins u) ->
  (length frames <= n)%nat -> (off + n <= length buf)%nat ->
  exists h', recv_response n off SC_BYTE_TIMEOUT_CYCLES (u, buf) =
    Some ((with_pins h' u, splice off (frames.*2) buf), Ok (off + length frames)%nat).
Proof.
  intros etu He Hm. revert n off s0 u buf etu He Hm.
  induction frames as [|[s b] frames IH]; intros n off s0 u buf etu He Hm Hr Hlate Hnow Hf Hn Hbuf;
    pose proof (cost_pos (pins u)) as Hc; pose proof (guard_time_range (protocol u)) as Hg;
    pose proof (half_etu etu He) as [Hh1 Hh2]; cbn [length] in *.
  - rewrite splice_nil, Nat.add_0_r. destruct n as [|n]; [by exists (pins u); destruct u|].
    destruct (receive_silence etu (protocol u) SC_BYTE_TIMEOUT_CYCLES (pins u)) as (h' & Heq & Hl & _);
      [done|done|rewrite byte_timeout_value; lia|intros t Ht; apply Hf; nia|].
    exists h'. cbn [recv_response]. unfold recv_cycles, recv_byte_timeout. cbn [fst snd].
    fold etu. rewrite Heq. done.
  - destruct n as [|n]; [lia|]. cbn [follows] in Hf. destruct Hf as (Hs & Hhigh & Hb & Hsh & Hf).
    unfold late in Hlate.
    assert (Hgain : 0 <= gain etu (protocol u) pitch) by (unfold gain; lia).
    destruct (receive_frame etu (protocol u) SC_BYTE_TIMEOUT_CYCLES m s b (parity b) (pins u))
      as (h' & Heq & Hl & Hn' & Hok); try done.
    { intros t Ht. apply Hhigh. nia. }
    { unfold late. nia. }
    { nia. }
    rewrite frame_result_parity in *. specialize (Hok eq_refl).
    destruct (IH n (S off) s (with_pins h' u) (<[off := b]> buf)) as (h2 & Heq2); try done.
    { by eapply released_listened. }
    { unfold late, gain in *. cbn [pins with_pins protocol etu_cycles]. fold etu. nia. }
    { by eapply follows_listened. }
    { lia. }
    { rewrite length_insert. lia. }
    exists h2. cbn [recv_response]. unfold recv_cycles, recv_byte_timeout. cbn [fst snd].
    fold etu. rewrite Heq, some_bind. cbn iota beta. unfold bind, put. cbn [fst snd].
    rewrite Heq2, splice_cons by lia. cbn [fmap list_fmap snd]. do 2 f_equal. f_equal. lia.
Qed.

(** ** Every wait ends *)
Lemma frame_result_cases b p : frame_result b p = Ok b \/ frame_result b p = Err ParityError.
Proof. unfold frame_result. case_match; [by left|by right]. Qed.

Lemma line_recv_ends etu protocol timeout h : timing etu ->
  exists h' r, line_recv etu protocol timeout h = Some (h', r) /\
    match r with Ok b => u8 b | Err e => e = Timeout \/ e = ParityError end.
Proof.
  intros He. destruct (line_recv_spec etu protocol timeout h He) as (h1 & _ & _ & Hrecv).
  destruct (Hrecv (fun _ => True)) as (h2 & r & Heq & Hr); [done|done|].
  exists h2, r. split; [done|]. destruct Hr as [|h3 x t0 b p h2 _ _ _ _ _ _ (Hb & _) _ _ _]; [by left|].
  destruct (frame_result_cases b p) as [->| ->]; [done|by right].
Qed.

Definition same_rate (u u' : SmartcardBitbang H) : Prop :=
  etu_cycles u' = etu_cycles u /\ protocol u' = protocol u /\ powered u' = powered u.

Lemma recv_ends timeout (u : SmartcardBitbang H) : timing (etu_cycles u) ->
  exists h' r, recv_byte_timeout timeout u = Some (with_pins h' u, r) /\
    match r with Ok b => u8 b | Err e => e = Timeout \/ e = ParityError end.
Proof.
  intros He. unfold recv_byte_timeout.
  destruct (line_recv_ends (etu_cycles u) (protocol u) timeout (pins u) He) as (h' & r & -> & Hr).
  by exists h', r.
Qed.

Lemma send_ends byte (u : SmartcardBitbang H) : timing (etu_cycles u) ->
  exists u', send_byte byte u = Some (u', Ok tt) /\ same_rate u u' /\
    atr_raw u' = atr_raw u /\ atr_len u' = atr_len u.
Proof.
  intros He. unfold send_byte.
  destruct (line_send_spec (etu_cycles u) byte (pins u) He) as (s & h' & lo & hi & -> & _).
  rewrite some_bind. cbn iota beta. eexists. split; [reflexivity|]. unfold same_rate. by case_match.
Qed.

Lemma send_all_ends data (u : SmartcardBitbang H) buf : timing (etu_cycles u) ->
  exists u', send_all data (u, buf) = Some ((u', buf), Ok tt) /\ same_rate u u'.
Proof.
  revert u. induction data as [|b data IH]; intros u He; [by exists u|].
  destruct (send_ends b u He) as (u1 & Heq & (He1 & Hp1 & Hw1) & _).
  destruct (IH u1) as (u2 & Heq2 & He2 & Hp2 & Hw2); [by rewrite He1|].
  exists u2. split; [|unfold same_rate; repeat split; congruence].
  cbn [send_all]. unfold bind. cbn [fst snd]. by rewrite Heq.
Qed.

Lemma recv_response_ends n off timeout (u : SmartcardBitbang H) buf : timing (etu_cycles u) ->
  (off + n <= length buf)%nat ->
  exists u' buf' r, recv_response n off timeout (u, buf) = Some ((u', buf'), r) /\
    length buf' = length buf /\ same_rate u u' /\ (bytes buf -> bytes buf') /\
    match r with
    | Ok k => (off <= k <= off + n)%nat
    | Err e => e = ParityError
    end.
Proof.
  revert off timeout u buf. induction n as [|n IH]; intros off timeout u buf He Hbuf.
  { exists u, buf, (Ok off). split_and!; try done; lia. }
  destruct (recv_ends timeout u He) as (h' & r & Heq & Hr).
  cbn [recv_response]. unfold recv_cycles. cbn [fst snd]. rewrite Heq.
  destruct r as [b|e].
  - unfold bind, put. cbn [fst snd].
    destruct (IH (S off) SC_BYTE_TIMEOUT_CYCLES (with_pins h' u) (<[off := b]> buf))
      as (u' & buf' & r & -> & Hlen & Hrate & Hby & Hr'); [done|rewrite length_insert; lia|].
    exists u', buf', r. rewrite length_insert in Hlen. split_and!; try done.
    + intros Hbs. apply Hby. by apply Forall_insert.
    + destruct r; [lia|done].
  - destruct Hr as [->| ->]; do 3 eexists; (split; [reflexivity|]); split_and!; try done; lia.
Qed.

Lemma raw_inner_ends data (u : SmartcardBitbang H) buf : timing (etu_cycles u) ->
  exists u' buf' r, transmit_raw_inner data (length buf) (u, buf) = Some ((u', buf'), r) /\
    length buf' = length buf /\ same_rate u u' /\ (bytes buf -> bytes buf') /\
    match r with
    | Ok k => (0 < k <= length buf)%nat
    | Err e => e = Timeout \/ e = ParityError
    end.
Proof.
  intros He. unfold transmit_raw_inner, bind.
  destruct (send_all_ends data u buf He) as (u1 & -> & Hr1). cbn [on_state fst snd].
  assert (He1 := He). destruct Hr1 as (E1 & E2 & E3). rewrite <- E1 in He1.
  destruct (recv_response_ends (length buf) 0 SC_PROCEDURE_TIMEOUT_CYCLES (on_pins io_release_high u1) buf)
    as (u2 & buf2 & r & -> & Hlen & (E4 & E5 & E6) & Hby & Hr); [done|done|].
  assert (Hsame : same_rate u u2) by (unfold same_rate in *; cbn in *; repeat split; congruence).
  destruct r as [[|k]|e]; cbn [Nat.eqb].
  - exists u2, buf2, (Err Timeout). split_and!; try done. by left.
  - exists u2, buf2, (Ok (S k)). split_and!; try done; lia.
  - exists u2, buf2, (Err e). split_and!; try done. by right.
Qed.

(** *** Activation *)
Lemma read_atr_S fuel len (u : SmartcardBitbang H) : read_atr (S fuel) len u =
  ('(u, r) ← recv_byte_timeout
               (if (len =? 0)%nat then SC_ATR_TIMEOUT_CYCLES else SC_ATR_BYTE_TIMEOUT_CYCLES) u;
   match r with
   | Ok b =>
       if (len =? 0)%nat && (b =? 0) then read_atr fuel len u
       else if (SC_ATR_MAX_LEN <=? len)%nat then Some (u, Err BufferOverflow)
       else read_atr fuel (S len) (with_atr (<[len := b]> (atr_raw u)) (atr_len u) u)
   | Err Timeout =>
       if (0 <? len)%nat then Some (with_atr (atr_raw u) len u, Ok tt) else Some (u, Err Timeout)
   | Err e => Some (u, Err e)
   end).
Proof. done. Qed.

Lemma read_atr_ends fuel len quiet (u : SmartcardBitbang H) : timing (etu_cycles u) -> released (pins u) ->
  (forall t, quiet <= t -> line (pins u) t = true) ->
  quiet <= now (pins u) + 9 * etu_cycles u * Z.of_nat fuel ->
  length (atr_raw u) = SC_ATR_MAX_LEN -> (len <= SC_ATR_MAX_LEN)%nat -> bytes (atr_raw u) ->
  exists u' r, read_atr (S fuel) len u = Some (u', r) /\ same_rate u u' /\
    length (atr_raw u') = SC_ATR_MAX_LEN /\ bytes (atr_raw u') /\
    (r = Ok tt -> (0 < atr_len u' <= SC_ATR_MAX_LEN)%nat).
Proof.
  revert len u. induction fuel as [|fuel IH]; intros len u He Hr Hq Hfuel Hlen Hmax Hby; rewrite read_atr_S;
    set (timeout := if (len =? 0)%nat then SC_ATR_TIMEOUT_CYCLES else SC_ATR_BYTE_TIMEOUT_CYCLES);
    pose proof (cost_pos (pins u)) as Hc;
    destruct (line_recv_spec (etu_cycles u) (protocol u) timeout (pins u) He) as (h1 & Hl1 & Ht1 & Hrecv);
    destruct (release_spec (pins u)) as (h0 & Heq0 & Hr0 & Ht0 & Hl0); rewrite Heq0 in *; specialize (Hl0 Hr);
    (assert (Hl : listened (pins u) h1) by (by eapply listened_trans));
    (destruct (Hrecv (fun _ => True)) as (h2 & r & Heq & Hrec); [done|done|]);
    unfold recv_byte_timeout; rewrite Heq, some_bind; cbn iota beta; rewrite some_bind; cbn iota beta.
  all: destruct Hrec as [h3 x h2 _ Hnx Hd Hx Hline Hl2 Hn2 _|h3 x t0 b p h2 _ Hnx Hd Hx Hline Ht0' (Hb & _) Hl2 Hn2 _].
  all: try (destruct (0 <? len)%nat eqn:Hpos;
    [exists (with_atr (atr_raw u) len (with_pins h2 u)), (Ok tt)|exists (with_pins h2 u), (Err Timeout)];
    (split_and!; [done|done|done|done|]); [intros _; cbn; lia|done]).
  - exfalso. rewrite (line_listened (pins u) h1) in Hline by done. rewrite Hq in Hline by (unfold timing in He; lia). done.
  - unfold frame_result. destruct ((count_ones b + b2z p) mod 2 =? 0).
    2: { exists (with_pins h2 u), (Err ParityError). by split_and!. }
    assert (Hnow : quiet <= now h2 + 9 * etu_cycles u * Z.of_nat fuel) by lia.
    assert (Hq2 : forall t, quiet <= t -> line h2 t = true).
    { intros t Ht. rewrite (line_listened (pins u) h2); [auto|by eapply listened_trans]. }
    assert (Hr2 : released h2).
    { eapply released_listened; [exact Hr|by eapply listened_trans]. }
    destruct ((len =? 0)%nat && (b =? 0)).
    { destruct (IH len (with_pins h2 u)) as (u' & r & -> & H1 & H2 & H3); try done. by exists u', r. }
    destruct (SC_ATR_MAX_LEN <=? len)%nat eqn:Hfull.
    { exists (with_pins h2 u), (Err BufferOverflow). by split_and!. }
    set (v := with_pins h2 u). destruct (IH (S len) (with_atr (<[len := b]> (atr_raw v)) (atr_len v) v))
      as (u' & r & -> & H1 & H2 & H3); try done.
    { cbn. by rewrite length_insert. }
    { apply Nat.leb_gt in Hfull. lia. }
    { by apply Forall_insert. }
    by exists u', r.
Qed.

(** A line that is held low reads as an endless run of zero bytes, which the loop
    skips. *)
Lemma low_line_received etu protocol timeout h : timing etu -> released h ->
  (forall t, now h <= t -> line h t = false) ->
  exists h', line_recv etu protocol timeout h = Some (h', Ok 0) /\ listened h h'.
Proof.
  intros He Hr Hlow. pose proof (cost_pos h).
  destruct (line_recv_spec etu protocol timeout h He) as (h1 & Hl1 & Ht1 & Hrecv).
  destruct (release_spec h) as (h0 & Heq0 & Hr0 & Ht0 & Hl0). rewrite Heq0 in *. specialize (Hl0 Hr).
  assert (Hl : listened h h1) by (by eapply listened_trans).
  destruct (Hrecv (fun _ => True)) as (h2 & r & Heq & Hrec); [done|done|].
  exists h2. destruct Hrec as [h3 x h2 _ Hnx Hd Hx Hline Hl2 Hn2 _|h3 x t0 b p h2 _ Hnx Hd Hx Hline Ht0' Hfr Hl2 Hn2 _].
  - exfalso. rewrite (line_listened h h1), Hlow in Hline; [done|lia|done].
  - split; [|by eapply listened_trans].
    destruct (half_etu etu He) as [Hh1 Hh2].
    assert (Hlv : forall i c, 0 <= i -> sampled etu t0 h1 i c -> c = false).
    { intros i c Hi (y & Hy & <-). rewrite (line_listened h h1) by done. apply Hlow. nia. }
    destruct Hfr as (Hb & Hbits & Hp).
    assert (b = 0) as ->.
    { apply u8_ext; [done|done|]. intros i Hi. rewrite Z.bits_0. apply (Hlv i); [lia|by apply Hbits]. }
    by rewrite (Hlv 8 p) in Heq.
Qed.

Lemma stuck_line_hangs fuel (u : SmartcardBitbang H) : timing (etu_cycles u) -> released (pins u) ->
  (forall t, now (pins u) <= t -> line (pins u) t = false) -> read_atr fuel 0 u = None.
Proof.
  revert u. induction fuel as [|fuel IH]; intros u He Hr Hlow; [done|]. cbn [read_atr].
  destruct (low_line_received (etu_cycles u) (protocol u) SC_ATR_TIMEOUT_CYCLES (pins u))
    as (h' & Heq & Hl); [done|done|done|].
  unfold recv_byte_timeout. cbn [Nat.eqb]. rewrite Heq, some_bind. cbn iota beta. rewrite some_bind. cbn [Nat.eqb andb Z.eqb].
  apply IH; [done|by eapply released_listened|].
  intros t Ht. cbn [pins with_pins] in *. rewrite (line_listened (pins u) h') by done.
  apply Hlow. destruct Hl. lia.
Qed.

Lemma delay_cycles_ends n h : cost <= 2 ^ 28 -> 0 <= n < 2 ^ 30 -> exists h', delay_cycles n h = Some h'.
Proof.
  intros Hc Hn. unfold delay_cycles. pose proof (cost_pos h).
  destruct (cyccnt_spec h) as (h1 & -> & Hl & Ht). rewrite wrap_wrap.
  destruct (delay_until_spec (now h1 + n) h1) as (h2 & -> & _); [lia|lia|by exists h2].
Qed.

Lemma cold_start_ends (u : SmartcardBitbang H) : timing ETU_CPU_CYCLES ->
  exists u', cold_start u = Some u' /\ etu_cycles u' = ETU_CPU_CYCLES /\ powered u' = false /\
    atr_raw u' = replicate SC_ATR_MAX_LEN 0 /\ protocol u' = 0.
Proof.
  intros He. unfold cold_start, io_readback_test.
  assert (Hc : cost <= 2 ^ 28) by (unfold timing in He; lia).
  match goal with |- context [session_defaults ?v] => generalize v end. intros v.
  destruct (delay_cycles_ends (etu_cycles (session_defaults v)) (io_release_high (pins (session_defaults v))))
    as (h1 & ->); [done|vm_compute; split; [discriminate|done]|].
  rewrite some_bind. destruct (io_spec h1) as (h2 & -> & _).
  destruct (io_spec (io_drive_low h2)) as (h3 & -> & _).
  destruct (delay_cycles_ends (etu_cycles (session_defaults v)) (io_release_high h3))
    as (h4 & ->); [done|vm_compute; split; [discriminate|done]|].
  rewrite !some_bind. eexists. split; [reflexivity|done].
Qed.

Lemma send_bytes_ends bs (u : SmartcardBitbang H) : timing (etu_cycles u) ->
  exists u', send_bytes bs u = Some u' /\ same_rate u u'.
Proof.
  revert u. induction bs as [|b bs IH]; intros u He; [by exists u|]. cbn [send_bytes].
  destruct (send_ends b u He) as (u1 & -> & (E1 & E2 & E3) & _). rewrite some_bind.
  destruct (IH u1) as (u2 & -> & (E4 & E5 & E6)); [by rewrite E1|].
  exists u2. split; [done|]. unfold same_rate. repeat split; congruence.
Qed.

Lemma pps_receive_ends req fuel f r0 (u : SmartcardBitbang H) : timing (etu_cycles u) ->
  PpsFsm.fsm_inv req f -> PpsFsm.abs f = PpsFsm.AWait r0 -> PpsFsm.short r0 ->
  (7 <= length r0 + fuel)%nat ->
  exists u', pps_receive fuel f u = Some u' /\ same_rate u u'.
Proof.
  revert f r0 u. induction fuel as [|fuel IH]; intros f r0 u He Hinv Ha Hs Hf.
  { pose proof (PpsFsm.short_length r0 Hs). lia. }
  destruct (recv_ends SC_BYTE_TIMEOUT_CYCLES u He) as (h' & [b|e] & Heq & Hr);
    cbn [pps_receive]; rewrite Heq, some_bind; cbn iota beta; [|by eexists].
  destruct (PpsFsm.byte_simulated req f b Hinv) as (g & Eg & Hg & Hag). rewrite Eg.
  pose proof (PpsFsm.wait_step req r0 b Hs) as Hw. rewrite Ha in Hag. rewrite <- Hag in Hw.
  case_decide as Hset; [by eexists|].
  destruct (PpsFsm.abs g) as [r| | |] eqn:Hag'; [| | |done].
  - destruct Hw as [-> Hs'].
    destruct (IH g (r0 ++ [b]) (with_pins h' u)) as (u' & -> & Hrate); try done.
    { rewrite length_app. cbn. lia. }
    by exists u'.
  - exfalso. apply Hset. unfold PpsFsm.abs in Hag'. left. by destruct (PpsFsm.state g).
  - exfalso. apply Hset. unfold PpsFsm.abs in Hag'. right. by destruct (PpsFsm.state g).
Qed.

Lemma negotiate_ends params (u : SmartcardBitbang H) : timing (etu_cycles u) -> Atr.protocol params = 1 ->
  exists u', negotiate_pps_fsm params u = Some u' /\ same_rate u u'.
Proof.
  intros He Hp. unfold negotiate_pps_fsm. case_match; [by exists u|].
  destruct (PpsFsm.request_started PpsFsm.new (Atr.protocol params) 0 true) as (g & E & Hinv & _ & Hs & _);
    [done|done|rewrite Hp; done|].
  rewrite E. destruct (send_bytes_ends (PpsFsm.request_of (Atr.protocol params) 0 true) u He)
    as (u1 & -> & (E1 & E2 & E3)). rewrite some_bind.
  destruct (pps_receive_ends _ (S PpsFsm.PPS_MAX_LEN) _ [] u1 ltac:(by rewrite E1) Hinv eq_refl I)
    as (u2 & -> & (E4 & E5 & E6)); [unfold PpsFsm.PPS_MAX_LEN; cbn; lia|].
  exists u2. split; [done|]. unfold same_rate. repeat split; congruence.
Qed.
End Line.

(** ** A bench

    Every access takes [c] cycles; the card's line is a function of the time. *)
Module Scope.

Record bench (c : positive) := mkBench { tick : Z; switches : list (Z * bool); wave : Z -> bool }.
Arguments mkBench {c}.
Arguments tick {c} _.
Arguments switches {c} _.
Arguments wave {c} _.

(** The newest switch comes first. *)
Fixpoint level_at (sw : list (Z * bool)) (t : Z) : bool :=
  match sw with
  | [] => true
  | (s, l) :: sw => if s <=? t then l else level_at sw t
  end.

Definition access {c} (b : bench c) : bench c := mkBench (tick b + Zpos c) (switches b) (wave b).
Definition switch {c} (l : bool) (b : bench c) : bench c :=
  mkBench (tick b) ((tick b, l) :: switches b) (wave b).

#[global] Instance bench_gpio c : GpioHw (bench c) := {
  rd r b :=
    let b := access b in
    (b, match r with
        | CYCCNT => wrap32 (tick b)
        | GPIOI_IDR => b2z (level_at (switches b) (tick b) && wave b (tick b))
        | _ => 0
        end);
  wr r v b :=
    let b := access b in
    match r with
    | GPIOI_BSRR => if Z.testbit v 0 then switch true b else if Z.testbit v 16 then switch false b else b
    | _ => b
    end;
  set_pin p l b := match p with IO => switch l b | _ => b end;
  pres_is_high _ := true;
  dwt_unlock b := b;
  asm_delay n b := mkBench (tick b + n) (switches b) (wave b);
  interrupts _ b := b
}.

#[global] Instance bench_cycles c : CycleHw (bench c).
Proof.
  refine {| now := tick; ours b := level_at (switches b); card := wave; cost := Zpos c |}.
  - intros r b. cbn. split_and!; [lia|lia|done|done].
  - intros v b. cbn. split_and!; [lia|lia|done|done].
  - intros l b. replace (drive l b) with (switch l (access b)) by (by destruct l).
    cbn. split_and!; [lia|lia| |done]. intros t.
    destruct (Z.leb_spec (tick b + Zpos c) t), (Z.ltb_spec t (tick b + Zpos c)); try done; lia.
  - done.
  - intros b. cbn. by destruct (level_at _ _), (wave _ _).
Defined.

(** The frames [(start, byte)] of a card with even parity. *)
Fixpoint card_wave (frames : list (Z * Z)) (t : Z) : bool :=
  match frames with
  | [] => true
  | (s, b) :: frames =>
      if (s <=? t) && (t <? s + 10 * ETU_CPU_CYCLES) then
        let i := (t - s) / ETU_CPU_CYCLES in
        if i =? 0 then false else level b (parity b) (i - 1)
      else card_wave frames t
  end.

Definition card_line (frames : list (Z * Z)) {c} (now : Z) : bench c := mkBench now [] (card_wave frames).

Lemma wave_high frames t :
  Forall (fun f => t < f.1 \/ f.1 + 10 * ETU_CPU_CYCLES <= t) frames -> card_wave frames t = true.
Proof.
  induction 1 as [|[s b] frames Hf _ IH]; [done|]. cbn [card_wave fst] in *.
  replace ((s <=? t) && (t <? s + 10 * ETU_CPU_CYCLES)) with false; [done|].
  symmetry. apply andb_false_iff. rewrite Z.leb_gt, Z.ltb_ge. tauto.
Qed.

Lemma wave_frame pre s b post t : Forall (fun f => f.1 + 10 * ETU_CPU_CYCLES <= s) pre ->
  s <= t < s + 10 * ETU_CPU_CYCLES ->
  card_wave (pre ++ (s, b) :: post) t =
    (let i := (t - s) / ETU_CPU_CYCLES in if i =? 0 then false else level b (parity b) (i - 1)).
Proof.
  intros Hpre Ht. induction Hpre as [|[s' b'] pre Hf _ IH]; cbn [app card_wave].
  - by rewrite (proj2 (Z.leb_le s t)), (proj2 (Z.ltb_lt t (s + 10 * ETU_CPU_CYCLES))) by lia.
  - cbn [fst] in Hf. by rewrite (proj2 (Z.ltb_ge t (s' + 10 * ETU_CPU_CYCLES))), andb_false_r by lia.
Qed.

Lemma wave_shows pre s b post c now : Forall (fun f => f.1 + 10 * ETU_CPU_CYCLES <= s) pre ->
  shows (H := bench c) ETU_CPU_CYCLES 1 s b (parity b) (card_line (pre ++ (s, b) :: post) now).
Proof.
  intros Hpre. change ETU_CPU_CYCLES with 15996 in *.
  split; [intros t Ht|intros i t Hi Ht]; unfold line; cbn; rewrite wave_frame
    by (try done; change ETU_CPU_CYCLES with 15996; lia); cbv zeta; change ETU_CPU_CYCLES with 15996.
  - by rewrite <- (Z.div_unique (t - s) 15996 0 (t - s)) by lia.
  - rewrite <- (Z.div_unique (t - s) 15996 (i + 1) (t - s - 15996 * (i + 1))) by lia.
    rewrite (proj2 (Z.eqb_neq (i + 1) 0)) by lia. f_equal. lia.
Qed.

Lemma line_high frames c now a b :
  Forall (fun f => b <= f.1 \/ f.1 + 10 * ETU_CPU_CYCLES <= a) frames ->
  high_between (H := bench c) (card_line frames now) a b.
Proof.
  intros Hf t Ht. unfold line. cbn. apply wave_high. eapply Forall_impl; [exact Hf|]. cbn. lia.
Qed.

(** An interface under T=1 in front of this line. *)
Definition reader c (frames : list (Z * Z)) : SmartcardBitbang (bench c) :=
  mkBitbang (card_line frames 0) (replicate SC_ATR_MAX_LEN 0) 0 true 1 32 0 ETU_CPU_CYCLES true diag_clear.

(** [n] frames, [pitch] apart. *)
Definition train (n : nat) (pitch : Z) : list (Z * Z) :=
  (fun i => (20000 + pitch * Z.of_nat i, Z.of_nat (i * 37))) <$> seq 0 n.
End Scope.

(** C14: what one interface sends, another one receives.  The sender puts the byte
    on the line as a frame with even parity; any receiver that sees this line,
    was listening before the frame began and waits long enough reads exactly this
    byte, whatever cycles the accesses of either take, as long as half an ETU has
    room for eight accesses of the receiver and four of the sender. *)
Theorem frame_roundtrip {G H} `{!GpioHw G, !GpioHw H} {CG : CycleHw G} {CH : CycleHw H}
    etu protocol timeout byte (h : H) :
  timing (H := G) etu -> timing (H := H) etu -> u8 byte -> 0 <= timeout < 2 ^ 31 ->
  8 * cost (H := G) + 4 * cost (H := H) + etu / 2 <= etu ->
  exists h' low_ok high_ok, line_send etu byte h = Some (h', low_ok, high_ok) /\
    forall g : G, released g -> (forall t, now g <= t -> ours h t = true) ->
      (forall t, now g <= t -> card g t = ours h' t) ->
      now g <= now h -> now h + cost (H := H) + 2 * cost (H := G) <= now g + timeout ->
      exists g', line_recv etu protocol timeout g = Some (g', Ok byte).
Proof.
  intros HeG HeH Hb Hto Hroom.
  destruct (line_send_spec etu byte h HeH) as (s & h' & lo & hi & Heq & Hs & (Hbefore & Hstart & Hbits & _) & _).
  exists h', lo, hi. split; [done|]. intros g Hr Hidle Hwire Hn Hd.
  pose proof (cost_pos h) as Hch. pose proof (cost_pos g) as Hcg. destruct (half_etu (H := G) etu HeG) as [Hh1 Hh2].
  assert (Hline : forall t, now g <= t -> line g t = ours h' t).
  { intros t Ht. unfold line. by rewrite Hr, Hwire by done. }
  destruct (receive_frame etu protocol timeout (4 * cost (H := H)) s byte (parity byte) g)
    as (g' & Hrecv & _); try done; try lia.
  - intros t Ht. rewrite Hline, Hbefore by lia. apply Hidle. lia.
  - split; [intros t Ht|intros i t Hi Ht]; rewrite Hline by nia; [apply Hstart; lia|apply Hbits; lia].
  - unfold late. lia.
  - exists g'. by rewrite Hrecv, frame_result_parity.
Qed.

Example frame_roundtrip_witness :
  let h := Scope.mkBench (c := 600) 5000 [] (fun _ => true) in
  exists h' low_ok high_ok, line_send ETU_CPU_CYCLES 0xA5 h = Some (h', low_ok, high_ok) /\
    let g := Scope.mkBench (c := 600) 0 [] (Scope.level_at (Scope.switches h')) in
    exists g', line_recv ETU_CPU_CYCLES 0 SC_BYTE_TIMEOUT_CYCLES g = Some (g', Ok 0xA5).
Proof.
  intros h.
  assert (He : timing (H := Scope.bench 600) ETU_CPU_CYCLES) by (vm_compute; split; discriminate).
  destruct (frame_roundtrip (G := Scope.bench 600) ETU_CPU_CYCLES 0 SC_BYTE_TIMEOUT_CYCLES 0xA5 h)
    as (h' & lo & hi & Heq & Hg).
  - exact He.
  - exact He.
  - vm_compute. split; [discriminate|reflexivity].
  - vm_compute. split; [discriminate|reflexivity].
  - vm_compute. discriminate.
  - exists h', lo, hi. split; [exact Heq|]. apply Hg.
    + intros t _. reflexivity.
    + intros t _. reflexivity.
    + intros t _. reflexivity.
    + cbn. lia.
    + vm_compute. discriminate.
Defined.

(** C13: a block is received whole.  The card sends its frames at least [pitch]
    cycles apart, the first within the procedure timeout and each within the byte
    timeout of the one before, and then falls silent.  The receiver writes exactly
    the bytes of the block into the buffer, in order, and returns their number,
    provided it never falls behind by more than what half an ETU allows; it falls
    behind by what the guard time it waits for and seven accesses exceed the pitch,
    with every byte.  (At a pitch of twelve ETU this is nothing under T=1, and the
    block may have any length; at the eleven ETU T=1 allows, it grows.) *)
Theorem block_received {H} `{!GpioHw H} {CH : CycleHw H} (u : SmartcardBitbang H) m pitch s b frames buf :
  let etu := etu_cycles u in
  timing etu -> 0 <= m <= etu / 2 -> released (pins u) -> u8 b ->
  now (pins u) <= s <= now (pins u) + SC_PROCEDURE_TIMEOUT_CYCLES - 2 * cost ->
  high_between (pins u) (now (pins u)) s -> shows etu m s b (parity b) (pins u) ->
  follows etu m pitch s frames (pins u) ->
  Z.of_nat (S (length frames)) * gain etu (protocol u) pitch + 8 * cost + etu / 2 + m <= etu ->
  (length frames < length buf)%nat ->
  exists h', recv_response (length buf) 0 SC_PROCEDURE_TIMEOUT_CYCLES (u, buf) =
    Some ((with_pins h' u, splice 0 (b :: frames.*2) buf), Ok (S (length frames))).
Proof.
  intros etu He Hm Hr Hb Hs Hidle Hsh Hf Hlate Hbuf.
  assert (Hgain : 0 <= gain etu (protocol u) pitch) by (unfold gain; lia).
  assert (Hproc : SC_PROCEDURE_TIMEOUT_CYCLES = 1944000000) by reflexivity.
  destruct (length buf) as [|n] eqn:Hlen; [lia|]. cbn [recv_response].
  destruct (receive_frame etu (protocol u) SC_PROCEDURE_TIMEOUT_CYCLES m s b (parity b) (pins u))
    as (h' & Heq & Hl & Hn' & Hok); try done; try lia; [unfold late; lia|].
  rewrite frame_result_parity in *. specialize (Hok eq_refl).
  unfold recv_cycles, recv_byte_timeout. cbn [fst snd]. fold etu. rewrite Heq, some_bind. cbn iota beta.
  destruct (recv_block (with_pins h' u) m pitch frames n 1 s (<[0%nat := b]> buf)) as (h2 & Heq2); try done.
  - by eapply released_listened.
  - unfold late, gain in *. cbn [pins with_pins protocol etu_cycles]. fold etu. nia.
  - by eapply follows_listened.
  - lia.
  - rewrite length_insert. lia.
  - exists h2. unfold bind, put. cbn [fst snd]. rewrite Heq2, splice_cons by lia. done.
Qed.

Ltac apart := apply (bool_decide_unpack _); vm_compute; exact I.

Example block_received_witness :
  exists h', recv_response 8 0 SC_PROCEDURE_TIMEOUT_CYCLES
      (Scope.reader 200 (Scope.train 3 (12 * ETU_CPU_CYCLES)), replicate 8 0) =
    Some ((with_pins h' (Scope.reader 200 (Scope.train 3 (12 * ETU_CPU_CYCLES))),
           [0; 37; 74; 0; 0; 0; 0; 0]), Ok 3%nat).
Proof.
  pose proof (fun pre post s b => Scope.wave_shows pre s b post 200 0) as Hshow.
  set (E := 12 * ETU_CPU_CYCLES). set (fs := [(20000, 0); (20000 + E, 37); (20000 + E * 2, 74)]).
  apply (block_received (Scope.reader 200 (Scope.train 3 E)) 1 E 20000 0
           [(20000 + E, 37); (20000 + E * 2, 74)] (replicate 8 0)).
  - vm_compute. split; discriminate.
  - vm_compute. split; discriminate.
  - intros t _. reflexivity.
  - vm_compute. split; [discriminate|reflexivity].
  - vm_compute. split; discriminate.
  - apply (Scope.line_high fs 200 0). apart.
  - exact (Hshow [] [(20000 + E, 37); (20000 + E * 2, 74)] 20000 0 ltac:(apart)).
  - cbn [follows].
    refine (conj _ (conj _ (conj _ (conj _ (conj _ (conj _ (conj _ (conj _ _)))))))).
    + vm_compute. split; discriminate.
    + apply (Scope.line_high fs 200 0). apart.
    + vm_compute. split; [discriminate|reflexivity].
    + exact (Hshow [(20000, 0)] [(20000 + E * 2, 74)] (20000 + E) 37 ltac:(apart)).
    + vm_compute. split; discriminate.
    + apply (Scope.line_high fs 200 0). apart.
    + vm_compute. split; [discriminate|reflexivity].
    + exact (Hshow [(20000, 0); (20000 + E, 37)] [] (20000 + E * 2) 74 ltac:(apart)).
    + intros t Ht. change (Scope.card_wave fs t = true).
      change (20000 + E * 2 + 10 * ETU_CPU_CYCLES + 1 <= t) in Ht.
      apply Scope.wave_high. unfold fs, E in *. change ETU_CPU_CYCLES with 15996 in *.
      rewrite !Forall_cons, Forall_nil. cbn [fst]. lia.
  - vm_compute. discriminate.
  - vm_compute. lia.
Defined.

(** At the pitch of eleven ETU that T=1 allows, the receiver falls behind with
    every byte, because it only looks for the next start bit once the guard time
    it has waited for is over: the block is lost in the middle. *)
Theorem tight_block_lost :
  let receive pitch := snd <$> recv_response 16 0 SC_PROCEDURE_TIMEOUT_CYCLES
    (Scope.reader 200 (Scope.train 16 pitch), replicate 16 0) in
  receive (12 * ETU_CPU_CYCLES) = Some (Ok 16%nat) /\
  receive (11 * ETU_CPU_CYCLES) = Some (Err ParityError).
Proof. split; vm_compute; reflexivity. Qed.

(** An exchange always ends.  Whatever the card does with the line, a raw
    exchange of a powered interface returns, and an APDU under T=1 with it: the
    buffer keeps its length and holds bytes, an answer has at least one byte and
    fits; otherwise it was a timeout or a byte with bad parity, which is never
    delivered.  Rate, protocol and power are left alone. *)
Theorem bitbang_exchange_ends {H} `{!GpioHw H} {CH : CycleHw H} (u : SmartcardBitbang H) fuel data response :
  timing (etu_cycles u) -> powered u = true -> bytes response ->
  let ended m := exists u' response' r, m = Some (u', response', r) /\
    length response' = length response /\ bytes response' /\ same_rate u u' /\
    match r with
    | Ok n => (0 < n <= length response)%nat
    | Err e => e = Timeout \/ e = ParityError
    end in
  ended (transmit_raw data response u) /\
  (protocol u = 1 -> ended (transmit_apdu fuel data response u)).
Proof.
  intros He Hp Hb ended. split.
  - unfold transmit_raw, uninterrupted. rewrite Hp. cbn [negb fst snd].
    destruct (raw_inner_ends data (on_pins (interrupts false) u) response He)
      as (u' & r' & r & -> & Hlen & Hrate & Hby & Hr).
    do 3 eexists. split; [reflexivity|]. by split_and!; auto.
  - intros Hone. unfold transmit_apdu. rewrite Hp, Hone. cbn [negb Z.eqb].
    destruct (raw_inner_ends data u response He) as (u' & r' & r & -> & Hlen & Hrate & Hby & Hr).
    do 3 eexists. split; [reflexivity|]. by split_and!; auto.
Qed.

(** C15: activation ends exactly as far as the line allows.  If the line a cold
    start leaves falls quiet some time, then with enough turns -- one for every
    nine ETU until then, and one more -- [power_on] returns: with an ATR of one to
    33 bytes, the interface powered and on the ATR's protocol, or with an error
    and the interface unpowered.  If the line is held low instead, the reading of
    the ATR never returns, however many turns it is given: every frame reads as a
    zero byte, and leading zero bytes are skipped without end. *)
Theorem bitbang_activation {H} `{!GpioHw H} {CH : CycleHw H} (u u1 : SmartcardBitbang H) fuel :
  timing ETU_CPU_CYCLES -> is_card_present u = true -> cold_start u = Some u1 -> released (pins u1) ->
  ((exists quiet, (forall t, quiet <= t -> line (pins u1) t = true) /\
      quiet <= now (pins u1) + 9 * ETU_CPU_CYCLES * Z.of_nat fuel) ->
   exists u' r, power_on (S fuel) u = Some (u', r) /\
     match r with
     | Ok atr => bytes atr /\ (0 < length atr <= SC_ATR_MAX_LEN)%nat /\ powered u' = true /\
         protocol u' = detect_protocol_from_atr atr
     | Err _ => powered u' = false
     end) /\
  ((forall t, now (pins u1) <= t -> line (pins u1) t = false) -> forall n, power_on n u = None).
Proof.
  intros He Hpres Hcold Hr. destruct (cold_start_ends u He) as (u1' & Heq & E1 & E2 & E3 & E4).
  rewrite Hcold in Heq. injection Heq as <-. unfold power_on. rewrite Hpres, Hcold, some_bind. cbn [negb].
  split.
  - intros (quiet & Hq & Hfuel).
    destruct (read_atr_ends fuel 0 quiet u1) as (u2 & r & -> & (E5 & E6 & E7) & Hlen & Hby & Hok);
      rewrite ?E1, ?E3; try done; [lia|by apply Forall_replicate|].
    rewrite some_bind. destruct r as [[]|e]; cbn iota beta zeta.
    2: { do 2 eexists. split; [reflexivity|]. cbn. congruence. }
    specialize (Hok eq_refl). set (atr := take (atr_len u2) (atr_raw u2)).
    match goal with |- context [negotiate_pps_fsm (arm_parse_atr atr) ?v] => set (u3 := v) end.
    assert (Hend : exists u4, (if Atr.protocol (arm_parse_atr atr) =? 1
        then negotiate_pps_fsm (arm_parse_atr atr) u3 else Some u3) = Some u4 /\ same_rate u3 u4).
    { destruct (Z.eqb_spec (Atr.protocol (arm_parse_atr atr)) 1); [|by exists u3].
      apply negotiate_ends; [|done]. cbn. congruence. }
    destruct Hend as (u4 & -> & (_ & E8 & E9)). rewrite some_bind.
    do 2 eexists. split; [reflexivity|]. split_and!.
    + by apply Forall_take.
    + unfold atr. rewrite length_take. lia.
    + unfold atr. rewrite length_take. lia.
    + unfold seal_diag. destruct (rd CYCCNT (pins u4)). cbn. rewrite E9. done.
    + unfold seal_diag. destruct (rd CYCCNT (pins u4)). cbn. rewrite E8. done.
  - intros Hlow n. rewrite some_bind, stuck_line_hangs; [done|by rewrite E1|done|done].
Qed.

Example bitbang_exchange_ends_witness :
  let u := Scope.reader 600 [] in
  exists u' response' r, transmit_raw [0x00; 0xC1; 0x01; 0xFE; 0x3E] (replicate 4 0) u = Some (u', response', r) /\
    length response' = 4%nat /\ bytes response' /\ same_rate u u' /\
    match r with
    | Ok n => (0 < n <= 4)%nat
    | Err e => e = Timeout \/ e = ParityError
    end.
Proof.
  intros u. destruct (bitbang_exchange_ends u 0 [0x00; 0xC1; 0x01; 0xFE; 0x3E] (replicate 4 0)) as [Hraw _].
  - vm_compute. split; discriminate.
  - reflexivity.
  - apply bytes_check. reflexivity.
  - exact Hraw.
Defined.

(** A cold reader, and what a cold start makes of it. *)
Definition cold (w : Z -> bool) : SmartcardBitbang (Scope.bench 600) := new (Scope.mkBench 0 [] w).

Example bitbang_activation_witness :
  (exists u' r, power_on 1 (cold (fun _ => true)) = Some (u', r) /\
    match r with
    | Ok atr => bytes atr /\ (0 < length atr <= SC_ATR_MAX_LEN)%nat /\ powered u' = true /\
        protocol u' = detect_protocol_from_atr atr
    | Err _ => powered u' = false
    end) /\
  (forall n, power_on n (cold (fun _ => false)) = None).
Proof.
  assert (He : timing (H := Scope.bench 600) ETU_CPU_CYCLES) by (vm_compute; split; discriminate).
  split.
  - destruct (cold_start_ends (cold (fun _ => true)) He) as (u1 & Hcold & _).
    apply (bitbang_activation (cold (fun _ => true)) u1 0 He eq_refl Hcold);
      vm_compute in Hcold; injection Hcold as <-.
    + intros t Ht. cbn in *. by case_match; [|lia].
    + exists 116148610. split; [|vm_compute; discriminate].
      intros t Ht. unfold line. cbn. by case_match; [|lia].
  - destruct (cold_start_ends (cold (fun _ => false)) He) as (u1 & Hcold & _).
    apply (bitbang_activation (cold (fun _ => false)) u1 0 He eq_refl Hcold);
      vm_compute in Hcold; injection Hcold as <-.
    + intros t Ht. cbn in *. by case_match; [|lia].
    + intros t Ht. unfold line. apply andb_false_r.
Defined.
