(* ===== verification/Nci.v ===== *)
(** * The NCI protocol core of the NFC reader

    [pn7160-nci/src/lib.rs] and [transport.rs]: the frames of the NFC
    controller's interface, the link-level [Transport] trait as a class with
    the mock transport of the test build as an instance, the notifications a
    reader waits for, the bring-up ladder, the exchange of an APDU over the RF
    data connection, and the ATR made from a contactless card's ATS.  Slices
    that the code does not guard give [Panic].  The theorems are in
    [NciSpec.v]; the driver's session is in [NciDriver.v]. *)
From Stdlib Require Import ZArith Lia ZifyBool.
From stdpp Require Import prelude strings.
From S2P Require Import Prelude.
Local Open Scope Z_scope.

Module Nci.

Definition HEADER_LEN : nat := 3.
Definition MAX_FRAME : nat := HEADER_LEN + 255.

Definition MT_DATA : Z := 0x00.
Definition MT_CMD : Z := 0x20.
Definition MT_RSP : Z := 0x40.
Definition MT_NTF : Z := 0x60.

Definition GID_CORE : Z := 0x00.
Definition GID_RF : Z := 0x01.
Definition GID_PROP : Z := 0x0F.

Definition OID_CORE_RESET : Z := 0x00.
Definition OID_CORE_INIT : Z := 0x01.
Definition OID_CORE_SET_CONFIG : Z := 0x02.
Definition OID_RF_DISCOVER_MAP : Z := 0x00.
Definition OID_RF_DISCOVER : Z := 0x03.
Definition OID_RF_DISCOVER_SELECT : Z := 0x04.
Definition OID_RF_DEACTIVATE : Z := 0x06.
Definition OID_CORE_CONN_CREDITS : Z := 0x06.

Definition RF_TECH_PASSIVE_NFCA : Z := 0x00.
Definition NCI_PROTOCOL_ISO_DEP : Z := 0x04.
Definition NCI_INTERFACE_ISO_DEP : Z := 0x02.
Definition STATUS_OK : Z := 0x00.

Definition NTF_RF_DISCOVER : Z := 0x03.
Definition NTF_RF_INTF_ACTIVATED : Z := 0x05.
Definition NTF_RF_DEACTIVATE : Z := 0x06.
Definition NTF_PROP_RF_WTX : Z := 0x17.

Definition NTF_STASH_SLOTS : nat := 4.
(** Division by zero panics. *)
Definition tick_period_us (config_tick_rate_hz : Z) : outcome Z :=
  if config_tick_rate_hz =? 0 then Panic else Ret (1000000 / config_tick_rate_hz).

Definition CID_MASK : Z := 0x0F.
Definition PBF_MASK : Z := 0x10.

Definition DEACTIVATE_TYPE_IDLE : Z := 0x00.
Definition DEACTIVATE_TYPE_DISCOVERY : Z := 0x03.
Definition DEACTIVATE_REASON_RF_LINK_LOSS_NXP : Z := 0x02.
Definition reason_is_link_loss (reason : Z) : bool :=
  reason =? DEACTIVATE_REASON_RF_LINK_LOSS_NXP.

(** ** Frames *)
Record Frame := mkFrame {
  mt : Z;
  gid : Z;
  oid : Z;
  pbf : bool;
  payload : list Z; (* [u8; 255] *)
  len : nat
}.

Definition is_wtx_ntf (f : Frame) : bool :=
  (mt f =? MT_NTF) && (gid f =? GID_PROP) && (oid f =? NTF_PROP_RF_WTX).
Definition is_conn_credits_ntf (f : Frame) : bool :=
  (mt f =? MT_NTF) && (gid f =? GID_CORE) && (oid f =? OID_CORE_CONN_CREDITS).
Definition is_transact_reply (f : Frame) : bool := negb (mt f =? MT_NTF).

(** The array of 255 bytes with [body] at its front. *)
Definition padded (body : list Z) : list Z := body ++ replicate (255 - length body) 0.

Definition decode (buf : list Z) : option Frame :=
  match buf with
  | b0 :: b1 :: b2 :: rest =>
      let m := Z.land b0 0xE0 in
      if negb (m =? MT_DATA) && negb (m =? MT_CMD) && negb (m =? MT_RSP) && negb (m =? MT_NTF)
      then None
      else
        let plen := Z.to_nat b2 in
        if (length buf <? HEADER_LEN + plen)%nat then None
        else Some (mkFrame m (Z.land b0 0x0F) b1 (negb (Z.land b0 PBF_MASK =? 0))
                     (padded (take plen rest)) plen)
  | _ => None
  end.

Definition is_rsp_to (f : Frame) (cmd : list Z) : bool :=
  match cmd with
  | c0 :: c1 :: _ => (mt f =? MT_RSP) && (gid f =? Z.land c0 0x0F) && (oid f =? c1)
  | _ => false
  end.

(** [payload[i]] for a constant [i] below 255. *)
Definition pl (f : Frame) (i : nat) : Z := nth i (payload f) 0.
Definition body (f : Frame) : list Z := take (len f) (payload f).

Definition status (f : Frame) : option Z :=
  if (1 <=? len f)%nat then Some (pl f 0) else None.

(** *** Commands *)
Definition CORE_RESET : list Z := [MT_CMD; OID_CORE_RESET; 0x01; 0x01].
Definition CORE_INIT : list Z := [MT_CMD; OID_CORE_INIT; 0x02; 0x00; 0x00].
Definition SET_CONFIG_TOTAL_DURATION : list Z :=
  [MT_CMD; OID_CORE_SET_CONFIG; 0x05; 0x01; 0x00; 0x02; 0xFE; 0x01].
Definition set_config_fwitox (v0 v1 : Z) : list Z :=
  [MT_CMD; OID_CORE_SET_CONFIG; 0x06; 0x01; 0xA0; 0x65; 0x02; v0; v1].
Definition RF_DISCOVER_MAP_ISO_DEP : list Z :=
  [Z.lor MT_CMD GID_RF; OID_RF_DISCOVER_MAP; 0x04; 0x01; NCI_PROTOCOL_ISO_DEP;
   NCI_INTERFACE_ISO_DEP; 0x01].
Definition RF_DISCOVER_PASSIVE_A : list Z :=
  [Z.lor MT_CMD GID_RF; OID_RF_DISCOVER; 0x03; 0x01; RF_TECH_PASSIVE_NFCA; 0x01].
Definition RF_DEACTIVATE_IDLE : list Z :=
  [Z.lor MT_CMD GID_RF; OID_RF_DEACTIVATE; 0x01; DEACTIVATE_TYPE_IDLE].
Definition RF_DEACTIVATE_DISCOVERY : list Z :=
  [Z.lor MT_CMD GID_RF; OID_RF_DEACTIVATE; 0x01; DEACTIVATE_TYPE_DISCOVERY].
Definition rf_discover_select (discovery_id protocol interface : Z) : list Z :=
  [Z.lor MT_CMD GID_RF; OID_RF_DISCOVER_SELECT; 0x04; discovery_id; protocol; interface; 0x00].

(** *** DATA packets *)
Definition MAX_DATA_FRAGMENT : nat := 253.

(** The frame, or [None] for the [false] of the code. *)
Definition encode_fragment (conn_id : Z) (pbf : bool) (payload : list Z) : option (list Z) :=
  if (255 <? length payload)%nat then None
  else
    let octet0 := Z.lor (Z.land conn_id CID_MASK) (if pbf then PBF_MASK else 0) in
    Some ([octet0; 0; wrap8 (Z.of_nat (length payload))] ++ payload).
Definition encode (conn_id : Z) (payload : list Z) : option (list Z) :=
  encode_fragment conn_id false payload.

Record DataPacket := mkPacket {
  conn_id : Z;
  fragmented : bool;
  dp_payload : list Z;
  dp_len : nat
}.

Definition data_decode (buf : list Z) : option DataPacket :=
  match buf with
  | b0 :: _ :: b2 :: rest =>
      let plen := Z.to_nat b2 in
      if (length buf <? HEADER_LEN + plen)%nat then None
      else Some (mkPacket (Z.land b0 CID_MASK) (negb (Z.land b0 PBF_MASK =? 0))
                   (padded (take plen rest)) plen)
  | _ => None
  end.

(** ** The link *)
Class Transport (T : Type) := {
  t_send : T -> list Z -> T * bool;
  poll_frame : T -> T * option Frame;
  transact : T -> list Z -> T * option Frame;
  drain : T -> T * option Frame;
  wait_ms : T -> Z -> T;
  link_probe : T -> T * bool
}.

(** ** Notifications *)
Record DiscoverNtf := mkNtf {
  discovery_id : Z;
  protocol : Z;
  tech_and_mode : Z;
  interface : Z;
  tech_params : list Z; (* [u8; 16] *)
  tech_params_len : nat
}.

(** The array of 16 bytes with [src] at its front. *)
Definition tech16 (src : list Z) : list Z := src ++ replicate (16 - length src) 0.

Definition is_rf_ntf (o : Z) (f : Frame) : bool :=
  (mt f =? MT_NTF) && (gid f =? GID_RF) && (oid f =? o).

Definition DiscoverNtf_decode (f : Frame) : option DiscoverNtf :=
  if negb (is_rf_ntf NTF_RF_DISCOVER f) || (len f <? 5)%nat then None
  else
    let params_len := Z.to_nat (pl f 3) in
    let interface_idx := (4 + params_len)%nat in
    if (len f <=? interface_idx)%nat then None
    else
      let copy_len := (params_len `min` 16)%nat in
      Some (mkNtf (pl f 0) (pl f 1) (pl f 2) (pl f interface_idx)
              (tech16 (take copy_len (drop 4 (payload f)))) params_len).

Definition nfca_uid (n : DiscoverNtf) : outcome (option (list Z)) :=
  if (tech_params_len n <? 4)%nat then Ret None
  else
    let uid_len := Z.to_nat (nth 2 (tech_params n) 0) in
    if (tech_params_len n <? 3 + uid_len)%nat || (uid_len =? 0)%nat then Ret None
    else uid ← slice (tech_params n) 3 (3 + uid_len); Ret (Some uid).

Definition activated_summary (f : Frame) : option (Z * Z * Z) :=
  if negb (is_rf_ntf NTF_RF_INTF_ACTIVATED f) || (len f <? 3)%nat then None
  else Some (pl f 0, pl f 1, pl f 2).

Definition tech_params_slice (f : Frame) : option (list Z) :=
  let tlen := Z.to_nat (pl f 6) in
  if (len f <? 7 + tlen)%nat then None else Some (take tlen (drop 7 (payload f))).

Definition activation_to_discover (f : Frame) : outcome (option DiscoverNtf) :=
  if negb (is_rf_ntf NTF_RF_INTF_ACTIVATED f) || (len f <? 5)%nat then Ret None
  else
    let ntf params n := mkNtf (pl f 0) (pl f 2) (pl f 3) (pl f 1) params n in
    if (8 <=? len f)%nat then
      match tech_params_slice f with
      | None => Ret None
      | Some v =>
          uid_len ← index v 2;
          let uid_len := Z.to_nat uid_len in
          if (0 <? uid_len)%nat && (3 + uid_len <=? length v)%nat then
            let copy := ((3 + uid_len) `min` 16)%nat in
            Ret (Some (ntf (tech16 (take copy v)) copy))
          else Ret (Some (ntf (tech16 []) 0%nat))
      end
    else Ret (Some (ntf (tech16 []) 0%nat)).

(** [heapless::Vec<u8, 32>]: an ATS that does not fit is no ATS. *)
Definition activation_ats (f : Frame) : option (list Z) :=
  if negb (is_rf_ntf NTF_RF_INTF_ACTIVATED f) then None
  else
    match tech_params_slice f with
    | None => None
    | Some v =>
        let ats_len_pos := (7 + length v + 3)%nat in
        if (len f <=? ats_len_pos)%nat then None
        else
          let ats_len := Z.to_nat (pl f ats_len_pos) in
          if (ats_len =? 0)%nat || (len f <? ats_len_pos + 1 + ats_len)%nat then None
          else
            let ats := take ats_len (drop (ats_len_pos + 1) (payload f)) in
            if (32 <? length ats)%nat then None
            else if (2 <=? length ats)%nat && (nth 0 ats 0 + 1 =? Z.of_nat (length ats))
                 then Some (drop 1 ats) else Some ats
    end.

Inductive TagEvent :=
| Tag (n : DiscoverNtf) (ats : option (list Z))
| LinkLost.

Definition event_of (f : Frame) : outcome (option TagEvent) :=
  match DiscoverNtf_decode f with
  | Some n => Ret (Some (Tag n None))
  | None =>
      a ← activation_to_discover f;
      match a with
      | Some n => Ret (Some (Tag n (activation_ats f)))
      | None =>
          if is_rf_ntf NTF_RF_DEACTIVATE f && (2 <=? len f)%nat && reason_is_link_loss (pl f 1)
          then Ret (Some LinkLost) else Ret None
      end
  end.

Definition extract_ats (activation : Frame) : option (list Z) :=
  if (len activation <? 6)%nat then None
  else
    let params_len := Z.to_nat (pl activation 5) in
    if (len activation <? 6 + params_len)%nat || (params_len =? 0)%nat then None
    else Some (take params_len (drop 6 (payload activation))).

(** ** [ats_to_atr] ([transport.rs]) *)
(** One group of interface bytes under the mask [y]: where the next one starts
    and its mask. *)
Fixpoint ats_group (bits : list Z) (ats : list Z) (y : Z) (i : nat) (next : Z) :
    option (nat * Z) :=
  match bits with
  | [] => Some (i, next)
  | bit :: bits =>
      if Z.land y bit =? 0 then ats_group bits ats y i next
      else
        match ats !! i with
        | None => None
        | Some b => ats_group bits ats y (S i) (if bit =? 0x10 then Z.land b 0xF0 else next)
        end
  end.

(** The groups; each takes at least one byte, so [fuel] beyond the ATS's length
    is enough. *)
Fixpoint ats_groups (fuel : nat) (ats : list Z) (y : Z) (i : nat) : option nat :=
  match fuel with
  | O => None
  | S fuel =>
      if y =? 0 then Some i
      else
        match ats_group [0x80; 0x40; 0x20; 0x10] ats y i 0 with
        | None => None
        | Some (i, next) => ats_groups fuel ats next i
        end
  end.

Definition ats_to_atr (ats : list Z) : option (list Z) :=
  match ats with
  | [] => None
  | t0 :: _ =>
      match ats_groups (S (length ats)) ats (Z.land t0 0xF0) 1 with
      | None => None
      | Some i =>
          let hist := drop i ats in
          let atr := [0x3B; Z.lor 0x80 (Z.land (wrap8 (Z.of_nat (length hist))) 0x0F);
                      0x81; 0x31; 0xFE; 0x45] in
          if (32 <? length atr + length hist)%nat then None
          else
            let atr := atr ++ hist in
            Some (vec_push 32 atr (xor_all (drop 1 atr)))
      end
  end.

(** ** The reader's operations

    [T] is the link.  Errors are the code's messages. *)
Section Reader.
Context {T : Type} `{!Transport T}.
Implicit Types t : T.

Fixpoint wait_for_tag_rounds (n : nat) t : outcome (T * option (DiscoverNtf * option (list Z))) :=
  match n with
  | O => Ret (t, None)
  | S n =>
      let '(t, f) := drain t in
      match f with
      | None => Ret (t, None)
      | Some f =>
          match DiscoverNtf_decode f with
          | Some d => Ret (t, Some (d, None))
          | None =>
              a ← activation_to_discover f;
              match a with
              | Some d => Ret (t, Some (d, activation_ats f))
              | None => wait_for_tag_rounds n t
              end
          end
      end
  end.
Definition wait_for_tag t : outcome (T * option (DiscoverNtf * option (list Z))) :=
  wait_for_tag_rounds 8 t.
Definition wait_for_discovery t : outcome (T * option DiscoverNtf) :=
  r ← wait_for_tag t; Ret (r.1, option_map fst r.2).

Fixpoint wait_for_event_rounds (n : nat) t : outcome (T * option TagEvent) :=
  match n with
  | O => Ret (t, None)
  | S n =>
      let '(t, f) := drain t in
      match f with
      | None => Ret (t, None)
      | Some f =>
          ev ← event_of f;
          match ev with
          | Some ev => Ret (t, Some ev)
          | None => wait_for_event_rounds n t
          end
      end
  end.
Definition wait_for_event t : outcome (T * option TagEvent) := wait_for_event_rounds 8 t.

Definition select_tag t (n : DiscoverNtf) : T * result Frame string :=
  let cmd := rf_discover_select (discovery_id n) (protocol n) (interface n) in
  let '(t, rsp) := transact t cmd in
  match rsp with
  | None => (t, Err "no select response"%string)
  | Some rsp =>
      if negb (is_rsp_to rsp cmd) then (t, Err "select response mismatch"%string)
      else if negb (bool_decide (status rsp = Some STATUS_OK))
      then (t, Err "select status != OK"%string)
      else
        let '(t, f) := drain t in
        (t, match f with Some f => Ok f | None => Err "no activation notification"%string end)
  end.

(** *** The exchange of an APDU *)
Inductive ExchangeOutcome :=
| Data (v : list Z)
| Timeout
| XLinkLost.

Definition DATA_COLLECT_ROUNDS : nat := 12.
Definition DATA_COLLECT_WAIT_MS : Z := 200.
Definition DATA_FIRST_PHASE_MS : list Z := [10; 20; 40; 80].
Definition STALL_REPORT_MS : Z := 1500.
Definition RESPONSE_CAP : nat := 1024.

(** [phase_wait]: the sum of the first waits up to this round. *)
Definition phase_wait (round_in_phase : nat) : Z :=
  if (round_in_phase <? length DATA_FIRST_PHASE_MS)%nat
  then foldr Z.add 0 (take (S round_in_phase) DATA_FIRST_PHASE_MS)
  else DATA_COLLECT_WAIT_MS.

(** The counters of an exchange: waited rounds, the next stall report, WTX
    advisories, and the elapsed times the stall hook was called with. *)
Record Collect := mkCollect {
  waited_rounds : nat;
  next_stall_ms : Z;
  wtx : Z;
  reports : list Z
}.
Definition Collect_new : Collect := mkCollect 0 STALL_REPORT_MS 0 [].
Definition count_wtx (f : Frame) (c : Collect) : Collect :=
  if is_wtx_ntf f
  then mkCollect (waited_rounds c) (next_stall_ms c) (wrap32 (wtx c + 1)) (reports c) else c.

(** [stall] says whether a hook is installed. *)
Definition round_waited (stall : bool) (ms : Z) (c : Collect) t : T * Collect :=
  let waited := S (waited_rounds c) in
  let elapsed := Z.of_nat waited * DATA_COLLECT_WAIT_MS in
  (wait_ms t ms,
   if next_stall_ms c <=? elapsed
   then mkCollect waited (sat_add32 (next_stall_ms c) STALL_REPORT_MS) (wtx c)
          (reports c ++ (if stall then [elapsed] else []))
   else mkCollect waited (next_stall_ms c) (wtx c) (reports c)).

Definition is_link_lost (ev : option TagEvent) : bool :=
  match ev with Some LinkLost => true | _ => false end.

Inductive gate := Credited | Exhausted | GateLost.

(** Frames are collected until the credit comes back; the budget that is left
    goes on to the next phase. *)
Fixpoint credit_gate (stall : bool) (budget credit_round : nat) (c : Collect) t :
    outcome (T * Collect * nat * gate) :=
  match budget with
  | O => Ret (t, c, O, Exhausted)
  | S rest =>
      let '(t, f) := poll_frame t in
      match f with
      | None =>
          let '(t, c) := round_waited stall (phase_wait credit_round) c t in
          credit_gate stall rest (S credit_round) c t
      | Some f =>
          let c := count_wtx f c in
          ev ← event_of f;
          if is_link_lost ev then Ret (t, c, budget, GateLost)
          else if is_conn_credits_ntf f then Ret (t, c, budget, Credited)
          else
            let '(t, c) := round_waited stall (phase_wait credit_round) c t in
            credit_gate stall rest (S credit_round) c t
      end
  end.

(** The answer's packets; the last component is what goes into
    [LAST_DATA_ARRIVAL_MS]. *)
Fixpoint collect_reply (conn_id : Z) (stall : bool) (budget rx_round : nat) (response : list Z)
    (c : Collect) t : outcome (T * Collect * ExchangeOutcome * option Z) :=
  match budget with
  | O => Ret (t, c, Timeout, None)
  | S rest =>
      let '(t, f) := poll_frame t in
      let again response c t :=
        let '(t, c) := round_waited stall (phase_wait rx_round) c t in
        collect_reply conn_id stall rest (S rx_round) response c t in
      match f with
      | None => again response c t
      | Some f =>
          let c := count_wtx f c in
          ev ← event_of f;
          if is_link_lost ev then Ret (t, c, XLinkLost, None)
          else if (mt f =? MT_DATA) && (gid f =? conn_id) && (0 <? len f)%nat then
            if (RESPONSE_CAP <? length response + len f)%nat then Ret (t, c, Timeout, None)
            else
              let response := response ++ body f in
              if negb (pbf f)
              then Ret (t, c, Data response, Some (phase_wait (rx_round - 1)))
              else again response c t
          else again response c t
      end
  end.

(** The fragments of the command, then the answer. *)
Fixpoint send_fragments (conn_id : Z) (stall : bool) (fragments : list (list Z)) (budget : nat)
    (c : Collect) t : outcome (T * Collect * ExchangeOutcome * option Z) :=
  match fragments with
  | [] => collect_reply conn_id stall budget 0 [] c t
  | fragment :: rest =>
      let last := match rest with [] => true | _ => false end in
      match encode_fragment conn_id (negb last) fragment with
      | None => Ret (t, c, Timeout, None)
      | Some frame =>
          let '(t, sent) := t_send t frame in
          if negb sent then Ret (t, c, Timeout, None)
          else if last then collect_reply conn_id stall budget 0 [] c t
          else
            g ← credit_gate stall budget 0 c t;
            let '(t, c, budget, g) := g in
            match g with
            | GateLost => Ret (t, c, XLinkLost, None)
            | Exhausted => Ret (t, c, Timeout, None)
            | Credited => send_fragments conn_id stall rest budget c t
            end
      end
  end.

(** An empty command is one empty packet. *)
Definition fragments_of (apdu : list Z) : list (list Z) :=
  match apdu with [] => [[]] | _ => chunks MAX_DATA_FRAGMENT apdu end.

Definition exchange_detailed (conn_id : Z) (apdu : list Z) (stall : bool) t :
    outcome (T * Collect * ExchangeOutcome * option Z) :=
  send_fragments conn_id stall (fragments_of apdu) DATA_COLLECT_ROUNDS Collect_new t.

Definition exchange (conn_id : Z) (apdu : list Z) t : outcome (T * option (list Z)) :=
  r ← exchange_detailed conn_id apdu false t;
  let '(t, _, o, _) := r in
  Ret (t, match o with Data v => Some v | _ => None end).

(** *** Commands with their response *)
Definition STRICT_RSP_POLLS : nat := 20.
Definition STRICT_RSP_WAIT_MS : Z := 10.

Fixpoint strict_rounds (cmd : list Z) (n : nat) (first : bool) t : T * result Frame string :=
  match n with
  | O => (t, Err "no matching response"%string)
  | S n =>
      let t := if first then t else wait_ms t STRICT_RSP_WAIT_MS in
      let '(t, f) := poll_frame t in
      match f with
      | Some f => if is_rsp_to f cmd then (t, Ok f) else strict_rounds cmd n false t
      | None => strict_rounds cmd n false t
      end
  end.
Definition transact_strict t (cmd : list Z) : T * result Frame string :=
  let '(t, sent) := t_send t cmd in
  if negb sent then (t, Err "write failed"%string)
  else strict_rounds cmd STRICT_RSP_POLLS true t.

Definition DRAIN_LINK_CAP : nat := 16.
Fixpoint drain_rounds (n drained : nat) t : T * nat :=
  match n with
  | O => (t, drained)
  | S n =>
      let '(t, f) := drain t in
      match f with None => (t, drained) | Some _ => drain_rounds n (S drained) t end
  end.
Definition drain_link t : T * nat := drain_rounds DRAIN_LINK_CAP 0 t.

Definition SETTLE_MAX_BEATS : nat := 3.
Fixpoint settle_beats (n : nat) t : T :=
  match n with
  | O => t
  | S n =>
      let t := wait_ms (drain_link t).1 DATA_COLLECT_WAIT_MS in
      let '(t, drained) := drain_link t in
      if (drained =? 0)%nat then t else settle_beats n t
  end.
Definition settle_drain t : T := settle_beats SETTLE_MAX_BEATS t.

Definition deactivate_idle t : T * result unit string :=
  let '(t, rsp) := transact t RF_DEACTIVATE_IDLE in
  match rsp with
  | None => (t, Err "no deactivate response"%string)
  | Some rsp =>
      if negb (is_rsp_to rsp RF_DEACTIVATE_IDLE) then (t, Err "deactivate response mismatch"%string)
      else
        let '(t, f) := drain t in
        (t, match f with Some _ => Ok tt | None => Err "no deactivate notification"%string end)
  end.

(** [transact_strict], then a successful status. *)
Definition strict_ok t (cmd : list Z) (none refused : string) : T * result unit string :=
  let '(t, rsp) := transact_strict t cmd in
  match rsp with
  | Err _ => (t, Err none)
  | Ok rsp => if negb (bool_decide (status rsp = Some STATUS_OK)) then (t, Err refused) else (t, Ok tt)
  end.

Definition deactivate_to_discovery t : T * result unit string :=
  let '(t, r) := strict_ok t RF_DEACTIVATE_DISCOVERY "no deactivate response"%string
                   "deactivate status != OK"%string in
  match r with
  | Ok _ => ((drain_link t).1, Ok tt)
  | Err e => (t, Err e)
  end.

Definition restart_discovery t : T * result unit string :=
  strict_ok t RF_DISCOVER_PASSIVE_A "no discover response"%string "discover status != OK"%string.

(** *** The bring-up ladder *)
Inductive Step := CoreReset | CoreInit | SetConfigTotalDuration | RfDiscoverMap | RfDiscover.

Definition tx_bytes (s : Step) : list Z :=
  match s with
  | CoreReset => CORE_RESET
  | CoreInit => CORE_INIT
  | SetConfigTotalDuration => SET_CONFIG_TOTAL_DURATION
  | RfDiscoverMap => RF_DISCOVER_MAP_ISO_DEP
  | RfDiscover => RF_DISCOVER_PASSIVE_A
  end.
Definition advisory (s : Step) : bool :=
  match s with SetConfigTotalDuration => true | _ => false end.
Definition status_err (s : Step) : string :=
  match s with
  | CoreInit => "CoreInit status != OK"
  | RfDiscoverMap => "RfDiscoverMap status != OK"
  | RfDiscover => "RfDiscover status != OK"
  | _ => "step status != OK"
  end%string.

Fixpoint run_steps (steps : list Step) t : T * result unit string :=
  match steps with
  | [] => (t, Ok tt)
  | step :: steps =>
      let '(t, rsp) := transact t (tx_bytes step) in
      match rsp with
      | None => (t, Err "transport ran dry"%string)
      | Some rsp =>
          if negb (is_rsp_to rsp (tx_bytes step))
          then (t, Err "response does not match command"%string)
          else if negb (bool_decide (status rsp = Some STATUS_OK)) && negb (advisory step)
          then (t, Err (status_err step))
          else run_steps steps t
      end
  end.

Definition run_ladder t : T * result unit string :=
  let '(t, rsp) := transact t CORE_RESET in
  match rsp with
  | None => (t, Err "no CORE_RESET response"%string)
  | Some rsp =>
      if negb (is_rsp_to rsp CORE_RESET) then (t, Err "malformed CORE_RESET response"%string)
      else run_steps [CoreInit; RfDiscoverMap; RfDiscover] (drain t).1
  end.
End Reader.

(** ** The mock transport of the test build *)
Record MockTransport := mkMock {
  sent : list (list Z);
  replies : list (list Z);
  notifications : list (list Z);
  drained : Z;
  pending_rsp : option (list Z);
  stash : list (list Z);
  transacts : Z;
  waited_ms : Z;
  late_on_wait : list (list Z);
  link_alive : bool
}.
Definition MockTransport_new : MockTransport := mkMock [] [] [] 0 None [] 0 0 [] true.

Definition push_reply (raw : list Z) (m : MockTransport) : MockTransport :=
  mkMock (sent m) (replies m ++ [raw]) (notifications m) (drained m) (pending_rsp m) (stash m)
    (transacts m) (waited_ms m) (late_on_wait m) (link_alive m).
Definition push_notification (raw : list Z) (m : MockTransport) : MockTransport :=
  mkMock (sent m) (replies m) (notifications m ++ [raw]) (drained m) (pending_rsp m) (stash m)
    (transacts m) (waited_ms m) (late_on_wait m) (link_alive m).

Definition stash_ntf (stash : list (list Z)) (raw : list Z) : list (list Z) :=
  (if (length stash =? NTF_STASH_SLOTS)%nat then drop 1 stash else stash) ++ [raw].

Definition with_queues (m : MockTransport) sent replies notifications drained pending_rsp stash
    transacts : MockTransport :=
  mkMock sent replies notifications drained pending_rsp stash transacts (waited_ms m)
    (late_on_wait m) (link_alive m).

(** [while let Some(raw) = self.replies.pop_front()]: what is left of the
    queue, the stash and the reply. *)
Fixpoint first_reply (replies stash : list (list Z)) :
    list (list Z) * list (list Z) * option Frame :=
  match replies with
  | [] => ([], stash, None)
  | raw :: replies =>
      match decode raw with
      | None => (replies, stash, None)
      | Some f =>
          if is_transact_reply f then (replies, stash, Some f)
          else first_reply replies (stash_ntf stash raw)
      end
  end.

Definition counted (f : option Frame) (n : Z) : Z := match f with Some _ => n + 1 | None => n end.

#[global] Instance mock_transport : Transport MockTransport := {
  t_send m cmd :=
    (match replies m with
     | raw :: rest =>
         with_queues m (sent m ++ [cmd]) rest (notifications m) (drained m) (Some raw)
           (stash m) (transacts m)
     | [] =>
         with_queues m (sent m ++ [cmd]) [] (notifications m) (drained m) (pending_rsp m)
           (stash m) (transacts m)
     end, true);
  poll_frame m :=
    match pending_rsp m with
    | Some raw =>
        (with_queues m (sent m) (replies m) (notifications m) (drained m) None (stash m)
           (transacts m), decode raw)
    | None =>
        match notifications m with
        | [] => (m, None)
        | raw :: rest =>
            let f := decode raw in
            (with_queues m (sent m) (replies m) rest (counted f (drained m)) None (stash m)
               (transacts m), f)
        end
    end;
  transact m cmd :=
    let '(replies, stash, f) := first_reply (replies m) (stash m) in
    (with_queues m (sent m ++ [cmd]) replies (notifications m) (drained m) (pending_rsp m)
       stash (transacts m + 1), f);
  drain m :=
    match stash m, notifications m with
    | raw :: rest, _ =>
        let f := decode raw in
        (with_queues m (sent m) (replies m) (notifications m) (counted f (drained m))
           (pending_rsp m) rest (transacts m), f)
    | [], raw :: rest =>
        let f := decode raw in
        (with_queues m (sent m) (replies m) rest (counted f (drained m)) (pending_rsp m) []
           (transacts m), f)
    | [], [] => (m, None)
    end;
  wait_ms m ms :=
    let '(late, ntfs) :=
      match late_on_wait m with
      | raw :: rest => (rest, notifications m ++ [raw])
      | [] => ([], notifications m)
      end in
    mkMock (sent m) (replies m) ntfs (drained m) (pending_rsp m) (stash m) (transacts m)
      (waited_ms m + ms) late (link_alive m);
  link_probe m := (m, link_alive m)
}.
End Nci.
