(* ===== verification/NciSpec.v ===== *)
(** * The NCI protocol core: theorems

    About [Nci.v].  Packets and their round trip; the ATR made from an ATS, as
    the shared parser of [Atr.v] reads it; the link's traces, and the exchange
    of an APDU over any link: flow control, reassembly and its bounds. *)
From Stdlib Require Import ZArith Lia ZifyBool.
From stdpp Require Import prelude strings.
From S2P Require Import Prelude Atr Nci.
Import Nci.
Local Open Scope Z_scope.

(** ** Frames *)
(** The type invariant of [Frame]: an array of 255 bytes and a length in it. *)
Definition frame_ok (f : Frame) : Prop :=
  bytes (payload f) /\ length (payload f) = 255%nat /\ (len f <= 255)%nat.

Lemma length_padded l : (length l <= 255)%nat -> length (padded l) = 255%nat.
Proof. intros. unfold padded. rewrite length_app, length_replicate. lia. Qed.

Lemma bytes_replicate n z : u8 z -> bytes (replicate n z).
Proof. intros. by apply Forall_replicate. Qed.
#[local] Hint Resolve bytes_replicate : bytes.

Lemma padded_ok l : bytes l -> (length l <= 255)%nat ->
  bytes (padded l) /\ length (padded l) = 255%nat /\ take (length l) (padded l) = l.
Proof.
  intros Hb Hl. split_and!; [|by apply length_padded|].
  - unfold padded. apply bytes_app. split; [done|]. apply bytes_replicate. unfold u8. lia.
  - unfold padded. apply take_app_length.
Qed.

Lemma decode_ok buf f : bytes buf -> decode buf = Some f -> frame_ok f.
Proof.
  unfold decode. destruct buf as [|b0 [|b1 [|b2 rest]]]; try done.
  intros Hb. destruct (_ && _); [done|]. destruct (_ <? _)%nat eqn:E; [done|]. intros [= <-].
  apply Forall_cons in Hb as [_ Hb]. apply Forall_cons in Hb as [_ Hb].
  apply Forall_cons in Hb as [H2 Hb]. unfold u8 in H2.
  destruct (padded_ok (take (Z.to_nat b2) rest)) as (? & ? & ?);
    [auto with bytes|rewrite length_take; lia|].
  split_and!; [done|done|cbn [len]; lia].
Qed.

Lemma length_body f : frame_ok f -> length (body f) = len f.
Proof. intros (_ & Hl & Hn). unfold body. rewrite length_take. lia. Qed.

(** *** Packets *)
Lemma data_octet c (b : bool) : 0 <= c < 16 ->
  let o := Z.lor (Z.land c CID_MASK) (if b then PBF_MASK else 0) in
  Z.land o 0xE0 = 0 /\ Z.land o 0x0F = c /\ negb (Z.land o PBF_MASK =? 0) = b /\ 0 <= o < 256.
Proof.
  intros H. assert (In c (map Z.of_nat (seq 0 16))) as Hin.
  { apply in_map_iff. exists (Z.to_nat c). split; [lia|]. apply in_seq. lia. }
  assert (forallb (fun c => forallb (fun b : bool =>
    let o := Z.lor (Z.land c CID_MASK) (if b then PBF_MASK else 0) in
    (Z.land o 0xE0 =? 0) && (Z.land o 0x0F =? c) && eqb (negb (Z.land o PBF_MASK =? 0)) b &&
    (0 <=? o) && (o <? 256)) [true; false]) (map Z.of_nat (seq 0 16)) = true) as Hall
    by (vm_compute; reflexivity).
  rewrite forallb_forall in Hall. specialize (Hall c Hin). rewrite forallb_forall in Hall.
  specialize (Hall b ltac:(destruct b; simpl; auto)). cbv zeta in Hall |- *.
  apply andb_true_iff in Hall as [Hall ?]. apply andb_true_iff in Hall as [Hall ?].
  apply andb_true_iff in Hall as [Hall Hb]. apply andb_true_iff in Hall as [? ?].
  apply eqb_prop in Hb. split_and!; try lia; done.
Qed.

Lemma encode_decode conn more p :
  0 <= conn < 16 -> bytes p -> (length p <= 255)%nat ->
  exists wire, encode_fragment conn more p = Some wire /\ (length wire <= MAX_FRAME)%nat /\
    bytes wire /\
    decode wire = Some (mkFrame MT_DATA conn 0 more (padded p) (length p)) /\
    data_decode wire = Some (mkPacket conn more (padded p) (length p)).
Proof.
  intros Hc Hp Hl. unfold encode_fragment. rewrite (proj2 (Nat.ltb_ge _ _)) by lia.
  destruct (data_octet conn more Hc) as (H1 & H2 & H3 & H4).
  set (o := Z.lor _ _) in *. eexists. split; [reflexivity|].
  assert (wrap8 (Z.of_nat (length p)) = Z.of_nat (length p)) as -> by int_lia.
  split; [cbn; unfold MAX_FRAME, HEADER_LEN; lia|]. split.
  { apply bytes_app. split; [|done]. unfold bytes. rewrite !Forall_cons. unfold u8.
    split_and!; try lia. constructor. }
  cbn [app]. split.
  - unfold decode. rewrite H1, H3. cbn [length]. rewrite Nat2Z.id.
    change (Z.land o 0x0F) with (Z.land o 15). rewrite H2. cbn [negb andb orb Z.eqb MT_DATA].
    unfold HEADER_LEN. rewrite (proj2 (Nat.ltb_ge _ _)) by lia. by rewrite firstn_all.
  - unfold data_decode, CID_MASK. rewrite H3. cbn [length]. rewrite Nat2Z.id, H2.
    unfold HEADER_LEN. rewrite (proj2 (Nat.ltb_ge _ _)) by lia. by rewrite firstn_all.
Qed.

(** ** Traces of the link *)
Section Traces.
Context {T : Type} `{!Transport T}.

Inductive event :=
| Sent (frame : list Z) (ok : bool)
| Polled (f : option Frame)
| Drained (f : option Frame)
| Asked (cmd : list Z) (f : option Frame)
| Waited (ms : Z).

Definition stepped (t : T) (e : event) (t' : T) : Prop :=
  match e with
  | Sent frame ok => t_send t frame = (t', ok)
  | Polled f => poll_frame t = (t', f)
  | Drained f => drain t = (t', f)
  | Asked cmd f => transact t cmd = (t', f)
  | Waited ms => t' = wait_ms t ms
  end.
Definition link : T -> list event -> T -> Prop := trace stepped.
End Traces.

(** What a trace amounts to. *)
Definition sends (tr : list event) : list (list Z) :=
  omap (fun e => match e with Sent frame _ => Some frame | _ => None end) tr.
Definition frames_of (tr : list event) : list Frame :=
  omap (fun e => match e with Polled (Some f) => Some f | _ => None end) tr.
Definition polls (tr : list event) : Z :=
  count (fun e => match e with Polled _ => true | _ => false end) tr.
Definition waits (tr : list event) : list Z :=
  omap (fun e => match e with Waited ms => Some ms | _ => None end) tr.
Definition total_wait (tr : list event) : Z := foldr Z.add 0 (waits tr).
Definition credits (tr : list event) : Z := count is_conn_credits_ntf (frames_of tr).
Definition advisories (tr : list event) : Z := count is_wtx_ntf (frames_of tr).
(** The packets of an answer on a connection. *)
Definition is_answer (conn : Z) (f : Frame) : bool :=
  (mt f =? MT_DATA) && (gid f =? conn) && (0 <? len f)%nat.
Definition answers (conn : Z) (tr : list event) : list Frame :=
  List.filter (is_answer conn) (frames_of tr).

Lemma sends_app a b : sends (a ++ b) = sends a ++ sends b.
Proof. apply omap_app. Qed.
Lemma frames_app a b : frames_of (a ++ b) = frames_of a ++ frames_of b.
Proof. apply omap_app. Qed.
Lemma polls_app a b : polls (a ++ b) = polls a + polls b.
Proof. apply count_app. Qed.
Lemma total_wait_app a b : total_wait (a ++ b) = total_wait a + total_wait b.
Proof.
  unfold total_wait, waits. rewrite omap_app. induction (omap _ a) as [|x l IH]; [done|].
  cbn [app foldr]. lia.
Qed.
Lemma credits_app a b : credits (a ++ b) = credits a + credits b.
Proof. unfold credits. rewrite frames_app. apply count_app. Qed.
Lemma advisories_app a b : advisories (a ++ b) = advisories a + advisories b.
Proof. unfold advisories. rewrite frames_app. apply count_app. Qed.
Lemma answers_app c a b : answers c (a ++ b) = answers c a ++ answers c b.
Proof. unfold answers. by rewrite frames_app, List.filter_app. Qed.

(** ** The exchange *)
Section Exchange.
Context {T : Type} `{!Transport T}.
Implicit Types t : T.

Lemma phase_wait_bound r : 0 <= phase_wait r <= DATA_COLLECT_WAIT_MS.
Proof.
  unfold phase_wait. destruct (r <? _)%nat eqn:E; [|unfold DATA_COLLECT_WAIT_MS; lia].
  apply Nat.ltb_lt in E. cbn in E.
  destruct r as [|[|[|[|r]]]]; [vm_compute; split; congruence..|lia].
Qed.

(** A phase of the exchange: it only polls and waits, one wait per round of the
    budget it uses up, and ends behind a poll if it does not use up all. *)
Record quiet (tr : list event) (used : nat) : Prop := {
  q_sends : sends tr = [];
  q_polls : Z.of_nat used <= polls tr <= Z.of_nat used + 1;
  q_wait : 0 <= total_wait tr <= DATA_COLLECT_WAIT_MS * Z.of_nat used
}.
Record phase (tr : list event) (c : Collect) (used : nat) (c' : Collect) : Prop := {
  ph_quiet : quiet tr used;
  ph_rounds : waited_rounds c' = (waited_rounds c + used)%nat;
  ph_wtx : wtx c' mod 2 ^ 32 = (wtx c + advisories tr) mod 2 ^ 32
}.

(** The last frame of the trace. *)
Definition ends_with (tr : list event) (f : Frame) : Prop :=
  exists tr', tr = tr' ++ [Polled (Some f)].

Lemma ends_with_cons e tr f : ends_with tr f -> ends_with (e :: tr) f.
Proof. intros [tr' ->]. by exists (e :: tr'). Qed.
Lemma ends_with_app tr1 tr2 f : ends_with tr2 f -> ends_with (tr1 ++ tr2) f.
Proof. intros [tr' ->]. exists (tr1 ++ tr'). by rewrite app_assoc. Qed.
Lemma ends_with_one f : ends_with [Polled (Some f)] f.
Proof. by exists []. Qed.

Lemma phase_nil c : phase [] c 0 c.
Proof. split; cbn; [by split; cbn|lia|by rewrite Z.add_0_r]. Qed.

Lemma count_wtx_spec f c :
  waited_rounds (count_wtx f c) = waited_rounds c /\
  wtx (count_wtx f c) mod 2 ^ 32 = (wtx c + advisories [Polled (Some f)]) mod 2 ^ 32.
Proof.
  unfold count_wtx, advisories. cbn [frames_of omap list_omap count].
  destruct (is_wtx_ntf f); cbn [waited_rounds wtx]; split; try done.
  - unfold wrap32. change (2 ^ 32) with 4294967296. rewrite Z.mod_mod by lia. f_equal; lia.
  - f_equal; lia.
Qed.

Lemma quiet_last f : quiet [Polled f] 0.
Proof. by split; cbn. Qed.

Lemma phase_last f c : phase [Polled (Some f)] c 0 (count_wtx f c).
Proof.
  destruct (count_wtx_spec f c) as [H1 H2]. split; [apply quiet_last|lia|done].
Qed.

Definition noted (f : option Frame) (c : Collect) : Collect :=
  match f with Some f => count_wtx f c | None => c end.

Lemma noted_spec f c :
  waited_rounds (noted f c) = waited_rounds c /\
  wtx (noted f c) mod 2 ^ 32 = (wtx c + advisories [Polled f]) mod 2 ^ 32.
Proof.
  destruct f as [f|]; [apply count_wtx_spec|]. cbn. split; [done|]. f_equal; lia.
Qed.

Lemma quiet_turn f ms tr used :
  0 <= ms <= DATA_COLLECT_WAIT_MS -> quiet tr used -> quiet (Polled f :: Waited ms :: tr) (S used).
Proof.
  intros Hms [Hs Hp Hw]. change (Polled f :: Waited ms :: tr) with ([Polled f] ++ [Waited ms] ++ tr).
  split.
  - rewrite !sends_app, Hs. done.
  - rewrite !polls_app. cbn. lia.
  - rewrite !total_wait_app. cbn. lia.
Qed.

Lemma phase_turn stall f ms c t tr used c' :
  0 <= ms <= DATA_COLLECT_WAIT_MS ->
  phase tr (round_waited stall ms (noted f c) t).2 used c' ->
  phase (Polled f :: Waited ms :: tr) c (S used) c'.
Proof.
  intros Hms [Hq Hr Hx]. destruct (noted_spec f c) as [N1 N2].
  assert (waited_rounds (round_waited stall ms (noted f c) t).2 = S (waited_rounds c) /\
          wtx (round_waited stall ms (noted f c) t).2 = wtx (noted f c)) as [R1 R2].
  { unfold round_waited. cbn [snd]. destruct (_ <=? _); cbn [waited_rounds wtx]; by rewrite N1. }
  split; [by apply quiet_turn|rewrite Hr, R1; lia|].
  change (Polled f :: Waited ms :: tr) with ([Polled f] ++ [Waited ms] ++ tr).
  rewrite Hx, R2, !advisories_app. change (advisories [Waited ms]) with 0.
  replace (wtx c + (advisories [Polled f] + (0 + advisories tr)))
    with (wtx c + advisories [Polled f] + advisories tr) by lia.
  rewrite <- Z.add_mod_idemp_l, N2, Z.add_mod_idemp_l by lia. done.
Qed.

Lemma link_turn t f t1 ms t2 tr :
  poll_frame t = (t1, f) -> link (wait_ms t1 ms) tr t2 ->
  link t (Polled f :: Waited ms :: tr) t2.
Proof. intros H1 H2. econstructor; [exact H1|]. econstructor; [reflexivity|exact H2]. Qed.
Lemma link_poll t f t1 : poll_frame t = (t1, f) -> link t [Polled f] t1.
Proof. intros H. by apply trace_one. Qed.

(** A computation that panics does so on the last frame it polled. *)
Definition panicked (tr : list event) : Prop := exists f, ends_with tr f /\ event_of f = Panic.
Definition stopped (budget : nat) (tr : list event) : Prop :=
  exists used, (used <= budget)%nat /\ quiet tr used /\ panicked tr.
Definition lost (tr : list event) : Prop :=
  exists f, ends_with tr f /\ event_of f = Ret (Some LinkLost).

Lemma lost_last tr :
  lost tr <-> exists f, last tr = Some (Polled (Some f)) /\ event_of f = Ret (Some LinkLost).
Proof.
  unfold lost, ends_with. split; intros (f & H & E); exists f; (split; [|exact E]).
  - destruct H as [tr' ->]. by rewrite last_snoc.
  - by apply last_Some in H.
Qed.

Lemma not_lost_frame f : event_of f <> Ret (Some LinkLost) -> ~ lost [Polled (Some f)].
Proof. intros Hf. rewrite lost_last. cbn. intros (g & [= <-] & E). done. Qed.
Lemma not_lost_turn f ms tr : ~ lost tr -> ~ lost (Polled f :: Waited ms :: tr).
Proof.
  rewrite !lost_last, !last_cons. intros H (g & E & Hg). apply H. exists g.
  destruct (last tr); by simplify_eq.
Qed.
Lemma not_lost_sent w b tr : ~ lost tr -> ~ lost (Sent w b :: tr).
Proof.
  rewrite !lost_last, last_cons. intros H (g & E & Hg). apply H. exists g.
  destruct (last tr); by simplify_eq.
Qed.
Lemma not_lost_app a tr : tr <> [] -> ~ lost tr -> ~ lost (a ++ tr).
Proof.
  rewrite !lost_last, last_app. intros Hne H (g & E & Hg). apply H. exists g.
  destruct (last tr) eqn:El; [done|]. by apply last_None in El.
Qed.

Lemma stopped_turn budget f ms tr : 0 <= ms <= DATA_COLLECT_WAIT_MS ->
  stopped budget tr -> stopped (S budget) (Polled f :: Waited ms :: tr).
Proof.
  intros Hms (used & Hu & Hq & g & Hg & Hev). exists (S used). split; [lia|].
  split; [by apply quiet_turn|]. exists g. split; [by do 2 apply ends_with_cons|done].
Qed.

Lemma stopped_here budget f : event_of f = Panic -> stopped budget [Polled (Some f)].
Proof.
  intros Hev. exists 0%nat. split; [lia|]. split; [apply quiet_last|].
  exists f. split; [apply ends_with_one|done].
Qed.

Lemma is_link_lost_true ev : is_link_lost ev = true -> ev = Some LinkLost.
Proof. by destruct ev as [[]|]. Qed.

(** *** The credit gate *)
Definition gate_post budget c (tr : list event) (t' : T) (r : outcome (T * Collect * nat * gate)) : Prop :=
  match r with
  | Panic => stopped budget tr
  | Ret (t'', c', n, g) =>
      t'' = t' /\ (n <= budget)%nat /\ phase tr c (budget - n) c' /\
      match g with
      | Credited => 1 <= credits tr
      | GateLost => lost tr
      | Exhausted => n = 0%nat /\ ~ lost tr
      end
  end.

Lemma nothing_not_lost : ~ lost [].
Proof. rewrite lost_last. by intros (f & ? & _). Qed.

Lemma gate_turn stall budget c f ms t tr t' r :
  0 <= ms <= DATA_COLLECT_WAIT_MS ->
  gate_post budget (round_waited stall ms (noted f c) t).2 tr t' r ->
  gate_post (S budget) c (Polled f :: Waited ms :: tr) t' r.
Proof.
  intros Hms. destruct r as [[[[t'' c'] n] g]|]; cbn [gate_post].
  - intros (-> & Hl & Hp & Hg). split; [done|]. split; [lia|]. split.
    { rewrite Nat.sub_succ_l by lia. by eapply phase_turn. }
    destruct g; [|split; [apply Hg|apply not_lost_turn, Hg]|].
    + change (Polled f :: Waited ms :: tr) with ([Polled f; Waited ms] ++ tr).
      rewrite credits_app. pose proof (count_nonneg is_conn_credits_ntf (frames_of [Polled f; Waited ms])).
      unfold credits in *. lia.
    + destruct Hg as (g & Hg & Hev). exists g. split; [by do 2 apply ends_with_cons|done].
  - by apply stopped_turn.
Qed.

Lemma credit_gate_spec stall budget r c t :
  exists tr t', link t tr t' /\ gate_post budget c tr t' (credit_gate stall budget r c t).
Proof.
  revert r c t. induction budget as [|budget IH]; intros r c t.
  { exists [], t. split; [constructor|]. cbn. split_and!; [done|lia|apply phase_nil|done|apply nothing_not_lost]. }
  cbn [credit_gate]. destruct (poll_frame t) as [t1 f] eqn:Ep.
  assert (forall c0, exists tr t', link t (Polled f :: Waited (phase_wait r) :: tr) t' /\
    gate_post budget (round_waited stall (phase_wait r) c0 t1).2 tr t'
      (credit_gate stall budget (S r) (round_waited stall (phase_wait r) c0 t1).2
         (wait_ms t1 (phase_wait r)))) as Hagain.
  { intros c0. destruct (IH (S r) (round_waited stall (phase_wait r) c0 t1).2
      (wait_ms t1 (phase_wait r))) as (tr & t' & L & G).
    exists tr, t'. split; [by eapply link_turn|exact G]. }
  destruct f as [f|].
  - destruct (event_of f) as [ev|] eqn:Ee; cycle 1.
    { exists [Polled (Some f)], t1. split; [by apply link_poll|]. by apply stopped_here. }
    rewrite bind_ret. destruct (is_link_lost ev) eqn:El.
    { exists [Polled (Some f)], t1. split; [by apply link_poll|]. cbn [gate_post].
      rewrite Nat.sub_diag. split_and!; [done|lia|apply phase_last|].
      exists f. split; [apply ends_with_one|]. by rewrite Ee, (is_link_lost_true _ El). }
    destruct (is_conn_credits_ntf f) eqn:Ec.
    { exists [Polled (Some f)], t1. split; [by apply link_poll|]. cbn [gate_post].
      rewrite Nat.sub_diag. split_and!; [done|lia|apply phase_last|].
      unfold credits. cbn. rewrite Ec. lia. }
    destruct (Hagain (count_wtx f c)) as (tr & t' & L & G).
    exists (Polled (Some f) :: Waited (phase_wait r) :: tr), t'. split; [exact L|].
    unfold round_waited at 1. cbn [fst snd].
    apply (gate_turn stall _ _ (Some f) _ t1); [apply phase_wait_bound|exact G].
  - destruct (Hagain c) as (tr & t' & L & G).
    exists (Polled None :: Waited (phase_wait r) :: tr), t'. split; [exact L|].
    unfold round_waited at 1. cbn [fst snd].
    apply (gate_turn stall _ _ None _ t1); [apply phase_wait_bound|exact G].
Qed.
(** *** The answer *)
(** All packets but the last announce more. *)
Definition chained (l : list Frame) : Prop :=
  exists front last, l = front ++ [last] /\ Forall (fun f => pbf f = true) front /\ pbf last = false.
Definition lens (l : list Frame) : nat := list_sum (map len l).

Definition reply_post conn budget (response : list Z) c (tr : list event) (t' : T)
    (r : outcome (T * Collect * ExchangeOutcome * option Z)) : Prop :=
  match r with
  | Panic => stopped budget tr
  | Ret (t'', c', o, _) =>
      t'' = t' /\ exists used, (used <= budget)%nat /\ phase tr c used c' /\
      match o with
      | Data v => ~ lost tr /\ v = response ++ concat (map body (answers conn tr)) /\
          (length v <= RESPONSE_CAP)%nat /\ chained (answers conn tr)
      | XLinkLost => lost tr
      | Timeout => ~ lost tr /\
          (used = budget \/ (RESPONSE_CAP < length response + lens (answers conn tr))%nat)
      end
  end.

Lemma length_body_le f : (length (body f) <= len f)%nat.
Proof. unfold body. rewrite length_take. lia. Qed.

(** A turn that ends without an answer. *)
Lemma reply_turn stall conn budget response c f ms t tr t' r :
  0 <= ms <= DATA_COLLECT_WAIT_MS -> answers conn [Polled f] = [] ->
  reply_post conn budget response (round_waited stall ms (noted f c) t).2 tr t' r ->
  reply_post conn (S budget) response c (Polled f :: Waited ms :: tr) t' r.
Proof.
  intros Hms Ha.
  assert (answers conn (Polled f :: Waited ms :: tr) = answers conn tr) as Ht.
  { change (Polled f :: Waited ms :: tr) with ([Polled f] ++ [Waited ms] ++ tr).
    by rewrite !answers_app, Ha. }
  destruct r as [[[[t'' c'] o] a]|]; cbn [reply_post].
  - intros (-> & used & Hu & Hp & Ho). split; [done|]. exists (S used). split; [lia|].
    split; [by eapply phase_turn|]. rewrite Ht. destruct o as [v| |].
    + destruct Ho as [Hn Ho]. split; [by apply not_lost_turn|exact Ho].
    + destruct Ho as [Hn Ho]. split; [by apply not_lost_turn|]. destruct Ho as [->|Ho]; [by left|by right].
    + destruct Ho as (g & Hg & Hev). exists g. split; [by do 2 apply ends_with_cons|done].
  - by apply stopped_turn.
Qed.

(** A turn that adds a packet to the answer. *)
Lemma reply_more stall conn budget response c f ms t tr t' r :
  0 <= ms <= DATA_COLLECT_WAIT_MS -> is_answer conn f = true -> pbf f = true ->
  reply_post conn budget (response ++ body f) (round_waited stall ms (count_wtx f c) t).2 tr t' r ->
  reply_post conn (S budget) response c (Polled (Some f) :: Waited ms :: tr) t' r.
Proof.
  intros Hms Ha Hm.
  assert (answers conn (Polled (Some f) :: Waited ms :: tr) = f :: answers conn tr) as Ht.
  { change (Polled (Some f) :: Waited ms :: tr) with ([Polled (Some f)] ++ [Waited ms] ++ tr).
    rewrite !answers_app. unfold answers at 1. cbn. by rewrite Ha. }
  destruct r as [[[[t'' c'] o] a]|]; cbn [reply_post].
  - intros (-> & used & Hu & Hp & Ho). split; [done|]. exists (S used). split; [lia|].
    split; [by eapply (phase_turn _ (Some f))|]. rewrite Ht. destruct o as [v| |].
    + destruct Ho as (Hn & Hv & Hl & front & last & He & Hf & Hlast).
      split; [by apply not_lost_turn|]. split_and!; [|done|].
      * rewrite Hv. cbn [map concat]. by rewrite app_assoc.
      * exists (f :: front), last. rewrite He. split_and!; [done|by constructor|done].
    + destruct Ho as [Hn Ho]. split; [by apply not_lost_turn|].
      destruct Ho as [->|Ho]; [by left|right]. unfold lens in *. cbn [map list_sum foldr].
      rewrite length_app in Ho. pose proof (length_body_le f). unfold list_sum in *. lia.
    + destruct Ho as (g & Hg & Hev). exists g. split; [by do 2 apply ends_with_cons|done].
  - by apply stopped_turn.
Qed.

Lemma answers_one conn f :
  answers conn [Polled (Some f)] = if is_answer conn f then [f] else [].
Proof. unfold answers. cbn. by destruct (is_answer conn f). Qed.

Lemma collect_reply_spec conn stall budget r response c t :
  exists tr t', link t tr t' /\
    reply_post conn budget response c tr t' (collect_reply conn stall budget r response c t).
Proof.
  revert r response c t. induction budget as [|budget IH]; intros r response c t.
  { exists [], t. split; [constructor|]. cbn. split; [done|]. exists 0%nat.
    split_and!; [lia|apply phase_nil|apply nothing_not_lost|by left]. }
  cbn [collect_reply]. destruct (poll_frame t) as [t1 f] eqn:Ep. cbv zeta.
  assert (forall response c0, exists tr t', link t (Polled f :: Waited (phase_wait r) :: tr) t' /\
    reply_post conn budget response (round_waited stall (phase_wait r) c0 t1).2 tr t'
      (collect_reply conn stall budget (S r) response
         (round_waited stall (phase_wait r) c0 t1).2 (wait_ms t1 (phase_wait r)))) as Hagain.
  { intros response0 c0. destruct (IH (S r) response0 (round_waited stall (phase_wait r) c0 t1).2
      (wait_ms t1 (phase_wait r))) as (tr & t' & L & G).
    exists tr, t'. split; [by eapply link_turn|exact G]. }
  destruct f as [f|]; cycle 1.
  { destruct (Hagain response c) as (tr & t' & L & G).
    exists (Polled None :: Waited (phase_wait r) :: tr), t'. split; [exact L|].
    unfold round_waited at 1. cbn [fst snd].
    apply (reply_turn stall _ _ _ _ None _ t1); [apply phase_wait_bound|done|exact G]. }
  destruct (event_of f) as [ev|] eqn:Ee; cycle 1.
  { exists [Polled (Some f)], t1. split; [by apply link_poll|]. by apply stopped_here. }
  rewrite bind_ret. destruct (is_link_lost ev) eqn:El.
  { exists [Polled (Some f)], t1. split; [by apply link_poll|]. cbn [reply_post].
    split; [done|]. exists 0%nat. split_and!; [lia|apply phase_last|].
    exists f. split; [apply ends_with_one|]. by rewrite Ee, (is_link_lost_true _ El). }
  assert (event_of f <> Ret (Some LinkLost)) as Hnl.
  { rewrite Ee. by intros [= ->]. }
  fold (is_answer conn f). pose proof (answers_one conn f) as Hone.
  destruct (is_answer conn f) eqn:Ea; cycle 1.
  { destruct (Hagain response (count_wtx f c)) as (tr & t' & L & G).
    exists (Polled (Some f) :: Waited (phase_wait r) :: tr), t'. split; [exact L|].
    unfold round_waited at 1. cbn [fst snd].
    apply (reply_turn stall _ _ _ _ (Some f) _ t1); [apply phase_wait_bound|done|exact G]. }
  destruct (_ <? _)%nat eqn:Ecap.
  { exists [Polled (Some f)], t1. split; [by apply link_poll|]. cbn [reply_post].
    split; [done|]. exists 0%nat. split_and!; [lia|apply phase_last|by apply not_lost_frame|right].
    rewrite Hone.
    unfold lens. cbn. apply Nat.ltb_lt in Ecap. lia. }
  apply Nat.ltb_ge in Ecap. destruct (pbf f) eqn:Em; cbn [negb].
  - destruct (Hagain (response ++ body f) (count_wtx f c)) as (tr & t' & L & G).
    exists (Polled (Some f) :: Waited (phase_wait r) :: tr), t'. split; [exact L|].
    unfold round_waited at 1. cbn [fst snd].
    apply (reply_more stall _ _ _ _ f _ t1); [apply phase_wait_bound|done|done|exact G].
  - exists [Polled (Some f)], t1. split; [by apply link_poll|]. cbn [reply_post].
    split; [done|]. exists 0%nat. split; [lia|]. split; [apply phase_last|].
    split; [by apply not_lost_frame|]. rewrite Hone. split_and!.
    + cbn. by rewrite app_nil_r.
    + rewrite length_app. pose proof (length_body_le f). lia.
    + exists [], f. done.
Qed.
(** *** The whole exchange *)
Definition packet (conn : Z) (more : bool) (p : list Z) : list Z :=
  default [] (encode_fragment conn more p).
(** The fragments as packets: all but the last announce more. *)
Fixpoint packets (conn : Z) (fs : list (list Z)) : list (list Z) :=
  match fs with
  | [] => []
  | [f] => [packet conn false f]
  | f :: fs => packet conn true f :: packets conn fs
  end.

(** One packet may go out per credit, and one before the first. *)
Definition flow_controlled (tr : list event) : Prop :=
  forall a b, tr = a ++ b -> Z.of_nat (length (sends a)) <= credits a + 1.

Lemma sends_cons w b tr : sends (Sent w b :: tr) = w :: sends tr.
Proof. done. Qed.
Lemma credits_cons w b tr : credits (Sent w b :: tr) = credits tr.
Proof. done. Qed.
Lemma credits_nonneg tr : 0 <= credits tr.
Proof. apply count_nonneg. Qed.

Lemma sends_prefix a b : sends (a ++ b) = [] -> sends a = [].
Proof. rewrite sends_app. by intros [? ?]%app_eq_nil. Qed.

Lemma flow_quiet tr : sends tr = [] -> flow_controlled tr.
Proof. intros H a b ->. rewrite (sends_prefix _ _ H). pose proof (credits_nonneg a). cbn. lia. Qed.

Lemma flow_last w b tr : sends tr = [] -> flow_controlled (Sent w b :: tr).
Proof.
  intros H [|e a] b' E; [cbn; lia|]. injection E as <- ->. rewrite sends_cons, credits_cons.
  rewrite (sends_prefix _ _ H). pose proof (credits_nonneg a). cbn. lia.
Qed.

Lemma flow_gate w b g rest : sends g = [] -> 1 <= credits g -> flow_controlled rest ->
  flow_controlled (Sent w b :: g ++ rest).
Proof.
  intros Hg Hc Hr [|e a] b' E; [cbn; lia|]. injection E as <- E. rewrite sends_cons, credits_cons.
  apply app_eq_app in E as (m & [[-> Hb]|[-> ->]]).
  - rewrite (sends_prefix _ _ Hg). pose proof (credits_nonneg a). cbn. lia.
  - specialize (Hr m b' eq_refl). rewrite sends_app, credits_app, Hg. cbn. lia.
Qed.

(** [tr2] is what follows the last packet that went out. *)
Definition answer_part (tr tr2 : list event) : Prop :=
  exists tr1 w, tr = tr1 ++ Sent w true :: tr2 /\ sends tr2 = [].

Definition exchanged conn fs budget c (tr : list event) (t' : T)
    (r : outcome (T * Collect * ExchangeOutcome * option Z)) : Prop :=
  flow_controlled tr /\ (exists k, sends tr = take k (packets conn fs)) /\
  polls tr <= Z.of_nat budget + Z.of_nat (length fs) /\
  0 <= total_wait tr <= DATA_COLLECT_WAIT_MS * Z.of_nat budget /\
  match r with
  | Panic => panicked tr
  | Ret (t'', c', o, _) =>
      t'' = t' /\ wtx c' mod 2 ^ 32 = (wtx c + advisories tr) mod 2 ^ 32 /\
      match o with
      | Data v => ~ lost tr /\ sends tr = packets conn fs /\
          exists tr2, answer_part tr tr2 /\ v = concat (map body (answers conn tr2)) /\
            (length v <= RESPONSE_CAP)%nat /\ chained (answers conn tr2)
      | XLinkLost => lost tr
      | Timeout => ~ lost tr /\
          ((exists tr' w, tr = tr' ++ [Sent w false]) \/
           waited_rounds c' = (waited_rounds c + budget)%nat \/
           exists tr2, answer_part tr tr2 /\ (RESPONSE_CAP < lens (answers conn tr2))%nat)
      end
  end.

(** The bounds of the answer phase, behind the last packet [w]. *)
Lemma exchanged_bounds w conn fs budget used tr :
  fs <> [] -> [w] = packets conn fs -> (used <= budget)%nat -> quiet tr used ->
  flow_controlled (Sent w true :: tr) /\
  (exists k, sends (Sent w true :: tr) = take k (packets conn fs)) /\
  polls (Sent w true :: tr) <= Z.of_nat budget + Z.of_nat (length fs) /\
  0 <= total_wait (Sent w true :: tr) <= DATA_COLLECT_WAIT_MS * Z.of_nat budget.
Proof.
  intros Hne Hw Hu [Hs Hp Hwt]. split; [by apply flow_last|]. split.
  { exists (length (packets conn fs)). by rewrite firstn_all, sends_cons, Hs. }
  change (polls (Sent w true :: tr)) with (polls tr).
  change (total_wait (Sent w true :: tr)) with (total_wait tr).
  unfold DATA_COLLECT_WAIT_MS in *. destruct fs; [done|]. cbn [length]. lia.
Qed.

Lemma exchanged_reply conn stall fs budget c t w :
  fs <> [] -> [w] = packets conn fs ->
  exists tr t', link t tr t' /\
    exchanged conn fs budget c (Sent w true :: tr) t' (collect_reply conn stall budget 0 [] c t).
Proof.
  intros Hne Hw. destruct (collect_reply_spec conn stall budget 0 [] c t) as (tr & t' & L & R).
  exists tr, t'. split; [done|]. unfold exchanged, reply_post in *.
  destruct (collect_reply _ _ _ _ _ _ _) as [[[[t'' c'] o] arr]|].
  - destruct R as (-> & used & Hu & [Hq Hr Hx] & Ho).
    destruct (exchanged_bounds w conn fs budget used tr) as (? & ? & ? & ?); [done..|].
    split_and!; try done; try lia. destruct o as [v| |].
    + destruct Ho as (Hn & -> & Hl & Hch). destruct Hq as [Hs _ _].
      split; [by apply not_lost_sent|]. split; [by rewrite sends_cons, Hs, Hw|].
      exists tr. split; [by exists [], w|done].
    + destruct Ho as [Hn Ho]. split; [by apply not_lost_sent|].
      destruct Ho as [->|Ho]; [right; left; exact Hr|]. right. right.
      exists tr. split; [|exact Ho]. destruct Hq as [Hs _ _]. by exists [], w.
    + destruct Ho as (g & Hg & Hev). exists g. split; [by apply ends_with_cons|done].
  - destruct R as (used & Hu & Hq & g & Hg & Hev).
    destruct (exchanged_bounds w conn fs budget used tr) as (? & ? & ? & ?); [done..|].
    split_and!; try done; try lia. exists g. split; [by apply ends_with_cons|done].
Qed.
(** A trace that stops before the next packet. *)
Lemma exchanged_stop conn f fs budget used g w b :
  fs <> [] -> w = packet conn true f -> (used <= budget)%nat -> quiet g used ->
  flow_controlled (Sent w b :: g) /\
  (exists k, sends (Sent w b :: g) = take k (packets conn (f :: fs))) /\
  polls (Sent w b :: g) <= Z.of_nat budget + Z.of_nat (length (f :: fs)) /\
  0 <= total_wait (Sent w b :: g) <= DATA_COLLECT_WAIT_MS * Z.of_nat budget.
Proof.
  intros Hne -> Hu [Hs Hp Hwt]. split; [by apply flow_last|]. split.
  { exists 1%nat. destruct fs; [done|]. rewrite sends_cons, Hs. done. }
  change (polls (Sent (packet conn true f) b :: g)) with (polls g).
  change (total_wait (Sent (packet conn true f) b :: g)) with (total_wait g).
  unfold DATA_COLLECT_WAIT_MS in *. cbn [length]. lia.
Qed.

(** A packet, the gate, and the rest of the exchange. *)
Lemma exchanged_gate conn f fs budget c used c1 g tr t' r :
  fs <> [] -> (used <= budget)%nat -> phase g c used c1 -> 1 <= credits g -> tr <> [] ->
  exchanged conn fs (budget - used) c1 tr t' r ->
  exchanged conn (f :: fs) budget c (Sent (packet conn true f) true :: g ++ tr) t' r.
Proof.
  intros Hne Hu [[Hs Hp Hwt] Hr Hx] Hc Htr (Hflow & (k & Hk) & Hpoll & Hwait & Ho).
  set (w := packet conn true f). change (Sent w true :: g ++ tr) with ([Sent w true] ++ g ++ tr).
  assert (packets conn (f :: fs) = w :: packets conn fs) as Hpk by (by destruct fs).
  assert (sends ([Sent w true] ++ g ++ tr) = w :: sends tr) as Hsend
    by (by rewrite !sends_app, Hs).
  split; [by apply (flow_gate w true g tr)|]. split; [exists (S k); by rewrite Hsend, Hk, Hpk|].
  split; [rewrite !polls_app; cbn [length]; change (polls [Sent w true]) with 0; lia|].
  split; [rewrite !total_wait_app; change (total_wait [Sent w true]) with 0;
          unfold DATA_COLLECT_WAIT_MS in *; lia|].
  destruct r as [[[[t'' c'] o] arr]|].
  - destruct Ho as (-> & Hw & Ho). split; [done|]. split.
    { rewrite !advisories_app. change (advisories [Sent w true]) with 0.
      rewrite Hw, <- Z.add_mod_idemp_l, Hx, Z.add_mod_idemp_l by lia. f_equal; lia. }
    assert (forall tr2, answer_part tr tr2 -> answer_part ([Sent w true] ++ g ++ tr) tr2) as Hpart.
    { intros tr2 (tr1 & x & -> & H2). exists ([Sent w true] ++ g ++ tr1), x.
      by rewrite <- !app_assoc. }
    assert (~ lost tr -> ~ lost ([Sent w true] ++ g ++ tr)) as Hnl
      by (intros Hn; by apply not_lost_sent, not_lost_app).
    destruct o as [v| |].
    + destruct Ho as (Hn & H1 & tr2 & H2 & H3). split; [by apply Hnl|].
      split; [by rewrite Hsend, H1, Hpk|]. exists tr2. split; [by apply Hpart|done].
    + destruct Ho as [Hn Ho]. split; [by apply Hnl|].
      destruct Ho as [(tr' & x & ->)|[Ho|(tr2 & H2 & Ho)]].
      * left. exists ([Sent w true] ++ g ++ tr'), x. by rewrite <- !app_assoc.
      * right. left. rewrite Ho, Hr. lia.
      * right. right. exists tr2. split; [by apply Hpart|done].
    + destruct Ho as (h & Hh & Hev). exists h. split; [by do 2 apply ends_with_app|done].
  - destruct Ho as (h & Hh & Hev). exists h. split; [by do 2 apply ends_with_app|done].
Qed.

Lemma link_sent t w b t1 tr t2 : t_send t w = (t1, b) -> link t1 tr t2 -> link t (Sent w b :: tr) t2.
Proof. intros H L. econstructor; [exact H|exact L]. Qed.

(** The write of a packet fails. *)
Lemma exchanged_unsent conn fs budget c t w arr :
  (exists k, [w] = take k (packets conn fs)) ->
  exchanged conn fs budget c [Sent w false] t (Ret (t, c, Timeout, arr)).
Proof.
  intros Hk. split; [by apply flow_last|]. split; [done|]. split; [cbn; lia|].
  split; [unfold DATA_COLLECT_WAIT_MS; cbn; lia|]. split; [done|].
  split; [f_equal; cbn; lia|]. split; [apply not_lost_sent, nothing_not_lost|]. left. by exists [], w.
Qed.

Lemma encode_packet conn more f : (length f <= 255)%nat ->
  encode_fragment conn more f = Some (packet conn more f).
Proof. intros H. unfold packet, encode_fragment. by rewrite (proj2 (Nat.ltb_ge _ _)) by lia. Qed.

Lemma send_fragments_spec conn stall fs budget c t :
  fs <> [] -> Forall (fun f => (length f <= 255)%nat) fs ->
  exists tr t', link t tr t' /\ tr <> [] /\
    exchanged conn fs budget c tr t' (send_fragments conn stall fs budget c t).
Proof.
  revert budget c t. induction fs as [|f fs IH]; intros budget c t Hne Hl; [done|].
  apply Forall_cons in Hl as [Hf Hl]. cbn [send_fragments].
  rewrite encode_packet by done. destruct (t_send t _) as [t1 ok] eqn:Es.
  destruct (decide (fs = [])) as [->|Hfs].
  { cbn [negb] in *. destruct ok; cbn [negb].
    - destruct (exchanged_reply conn stall [f] budget c t1 (packet conn false f)) as (tr & t' & L & R);
        [done..|]. exists (Sent (packet conn false f) true :: tr), t'. split; [by eapply link_sent|]. split; [done|exact R].
    - exists [Sent (packet conn false f) false], t1. split; [eapply link_sent; [done|constructor]|]. split; [done|].
      apply exchanged_unsent. by exists 1%nat. }
  assert (match fs with [] => true | _ => false end = false) as Hlast by (by destruct fs).
  rewrite Hlast in *. cbn [negb] in *. set (w := packet conn true f) in *.
  destruct ok; cbn [negb]; cycle 1.
  { exists [Sent w false], t1. split; [eapply link_sent; [done|constructor]|]. split; [done|].
    apply exchanged_unsent. exists 1%nat. by destruct fs. }
  destruct (credit_gate_spec stall budget 0 c t1) as (g & t2 & L & G).
  destruct (credit_gate stall budget 0 c t1) as [[[[t2' c1] n] gt]|] eqn:Eg; cycle 1.
  { cbn [mbind outcome_bind]. exists (Sent w true :: g), t2. split; [by eapply link_sent|]. split; [done|].
    destruct G as (used & Hu & Hq & h & Hh & Hev).
    destruct (exchanged_stop conn f fs budget used g w true) as (? & ? & ? & ?); [done..|].
    split_and!; try done; try lia. exists h. split; [by apply ends_with_cons|done]. }
  rewrite bind_ret. destruct G as (-> & Hn & Hp & Hg). destruct gt.
  - destruct (IH n c1 t2 Hfs Hl) as (tr & t' & L2 & Htr & R).
    exists (Sent w true :: g ++ tr), t'. split; [eapply link_sent; [done|by eapply trace_app]|]. split; [done|].
    apply (exchanged_gate conn f fs budget c (budget - n) c1); try done; [lia|].
    replace (budget - (budget - n))%nat with n by lia. exact R.
  - exists (Sent w true :: g), t2. split; [by eapply link_sent|]. split; [done|]. destruct Hg as [-> Hnl].
    destruct Hp as [Hq Hr Hx].
    destruct (exchanged_stop conn f fs budget budget g w true) as (? & ? & ? & ?); [done|done|lia|by rewrite Nat.sub_0_r in Hq|].
    rewrite Nat.sub_0_r in Hr. split_and!; try done; try lia; by apply not_lost_sent.
  - exists (Sent w true :: g), t2. split; [by eapply link_sent|]. split; [done|].
    destruct Hp as [Hq Hr Hx].
    destruct (exchanged_stop conn f fs budget (budget - n) g w true) as (? & ? & ? & ?); [done|done|lia|done|].
    split_and!; try done; try lia. destruct Hg as (h & Hh & Hev). exists h. split; [by apply ends_with_cons|done].
Qed.
End Exchange.

(** ** The command's packets *)
Definition command_packets (conn : Z) (apdu : list Z) : list (list Z) :=
  packets conn (fragments_of apdu).

Lemma fragments_ok apdu :
  concat (fragments_of apdu) = apdu /\ fragments_of apdu <> [] /\
  Forall (fun f => (length f <= MAX_DATA_FRAGMENT)%nat) (fragments_of apdu).
Proof.
  destruct apdu as [|b l]; [split_and!; [done|done|repeat constructor; cbn; unfold MAX_DATA_FRAGMENT; lia]|].
  change (fragments_of (b :: l)) with (chunks MAX_DATA_FRAGMENT (b :: l)).
  destruct (chunks_spec MAX_DATA_FRAGMENT (b :: l)) as (Hc & Hf & _); [unfold MAX_DATA_FRAGMENT; lia|].
  split; [done|]. split; [intros E; by rewrite E in Hc|].
  eapply Forall_impl; [exact Hf|]. cbn. lia.
Qed.

(** The frames the packets of [fs] decode to. *)
Fixpoint packet_frames (conn : Z) (fs : list (list Z)) : list Frame :=
  match fs with
  | [] => []
  | [f] => [mkFrame MT_DATA conn 0 false (padded f) (length f)]
  | f :: fs => mkFrame MT_DATA conn 0 true (padded f) (length f) :: packet_frames conn fs
  end.

Lemma packet_frames_cons conn f g fs : packet_frames conn (f :: g :: fs) =
  mkFrame MT_DATA conn 0 true (padded f) (length f) :: packet_frames conn (g :: fs).
Proof. done. Qed.
Lemma packets_cons conn f g fs :
  packets conn (f :: g :: fs) = packet conn true f :: packets conn (g :: fs).
Proof. done. Qed.

Lemma packet_decodes conn more f : 0 <= conn < 16 -> bytes f -> (length f <= MAX_DATA_FRAGMENT)%nat ->
  decode (packet conn more f) = Some (mkFrame MT_DATA conn 0 more (padded f) (length f)).
Proof.
  intros Hc Hb Hl. unfold MAX_DATA_FRAGMENT in Hl.
  destruct (encode_decode conn more f Hc Hb) as (w & E & _ & _ & D & _); [lia|].
  unfold packet. by rewrite E.
Qed.

Lemma packet_frames_spec conn fs : 0 <= conn < 16 -> fs <> [] -> Forall bytes fs ->
  Forall (fun f => (length f <= MAX_DATA_FRAGMENT)%nat) fs ->
  map decode (packets conn fs) = map Some (packet_frames conn fs) /\
  map body (packet_frames conn fs) = fs /\ chained (packet_frames conn fs) /\
  Forall (fun f => mt f = MT_DATA /\ gid f = conn /\ (len f <= MAX_DATA_FRAGMENT)%nat)
    (packet_frames conn fs).
Proof.
  intros Hc Hne Hb Hl. induction fs as [|f [|g fs] IH]; [done| |].
  - apply Forall_cons in Hb as [Hb _]. apply Forall_cons in Hl as [Hl _]. cbn [packets packet_frames map].
    rewrite packet_decodes by done. split; [done|]. split.
    { f_equal. unfold body. cbn [len payload]. apply padded_ok; [done|unfold MAX_DATA_FRAGMENT in *; lia]. }
    split; [exists []; eexists; by split_and!|]. constructor; [done|constructor].
  - apply Forall_cons in Hb as [Hb Hbs]. apply Forall_cons in Hl as [Hl Hls].
    destruct (IH ltac:(done) Hbs Hls) as (H1 & H2 & (front & l & H3 & H4 & H5) & H6).
    rewrite packet_frames_cons, packets_cons. cbn [map].
    rewrite packet_decodes by done. split_and!.
    + by rewrite H1.
    + rewrite H2. f_equal. unfold body. cbn [len payload]. apply padded_ok; [done|unfold MAX_DATA_FRAGMENT in *; lia].
    + exists (mkFrame MT_DATA conn 0 true (padded f) (length f) :: front), l. rewrite H3.
      split_and!; [done|by constructor|done].
    + by constructor.
Qed.

Lemma Forall_concat_inv {A} (P : A -> Prop) ls : Forall P (concat ls) -> Forall (Forall P) ls.
Proof.
  induction ls as [|l ls IH]; [constructor|]. cbn. rewrite Forall_app. intros [? ?].
  constructor; auto.
Qed.

(** A command survives its fragmentation.  The packets a command is cut
    into are NCI DATA packets of its connection that every receiver decodes,
    none longer than the 253 bytes of an ISO-DEP block, all but the last with
    the boundary flag set, and their payloads are the command, byte for byte
    (the empty command is one empty packet). *)
Theorem command_packets_roundtrip conn apdu :
  0 <= conn < 16 -> bytes apdu ->
  exists fs, map decode (command_packets conn apdu) = map Some fs /\
    concat (map body fs) = apdu /\ chained fs /\
    Forall (fun f => mt f = MT_DATA /\ gid f = conn /\ (len f <= MAX_DATA_FRAGMENT)%nat) fs.
Proof.
  intros Hc Hb. destruct (fragments_ok apdu) as (Hcat & Hne & Hl).
  exists (packet_frames conn (fragments_of apdu)).
  destruct (packet_frames_spec conn (fragments_of apdu)) as (H1 & H2 & H3 & H4); try done.
  { apply Forall_concat_inv. by rewrite Hcat. }
  split_and!; try done. by rewrite H2.
Qed.

Example command_packets_roundtrip_witness :
  0 <= 3 < 16 /\ exists fs,
    map decode (command_packets 3 (replicate 300 0x5A)) = map Some fs /\
    concat (map body fs) = replicate 300 0x5A.
Proof.
  split; [lia|].
  destruct (command_packets_roundtrip 3 (replicate 300 0x5A) ltac:(lia) ltac:(solve_bytes))
    as (fs & H1 & H2 & _). by exists fs.
Defined.

(** C31: the exchange of a command over any link.  It always ends, after at
    most twelve waiting rounds (2.4 seconds); what it does is on the link's
    trace.  The packets go out in order, one per credit the controller has
    granted; an answer is returned only if the whole command went out, and
    then it is the payload of all the DATA packets that arrived on the
    connection behind the last packet sent ([answer_part]), in order, up to the
    first that announces no more, and never longer than 1024 bytes.  A lost
    link is reported exactly when its notification was the last frame;
    otherwise a write failed, the rounds are used up or the answer was too
    long.  WTX advisories are counted.  The one panic is the one of the
    notification reader. *)
Theorem nci_exchange {T} `{!Transport T} conn apdu stall (t : T) :
  exists tr t', link t tr t' /\
    flow_controlled tr /\
    (exists k, sends tr = take k (command_packets conn apdu)) /\
    polls tr <= 12 + Z.of_nat (length (command_packets conn apdu)) /\
    0 <= total_wait tr <= 2400 /\
    match exchange_detailed conn apdu stall t with
    | Panic => panicked tr
    | Ret (t'', c, o, _) =>
        t'' = t' /\ wtx c mod 2 ^ 32 = advisories tr mod 2 ^ 32 /\
        (o = XLinkLost <-> lost tr) /\
        match o with
        | Data v => sends tr = command_packets conn apdu /\
            exists tr2, answer_part tr tr2 /\ v = concat (map body (answers conn tr2)) /\
              (length v <= 1024)%nat /\ chained (answers conn tr2)
        | XLinkLost => True
        | Timeout =>
            (exists tr' w, tr = tr' ++ [Sent w false]) \/ waited_rounds c = 12%nat \/
            exists tr2, answer_part tr tr2 /\ (1024 < lens (answers conn tr2))%nat
        end
    end.
Proof.
  destruct (fragments_ok apdu) as (_ & Hne & Hl).
  destruct (send_fragments_spec conn stall (fragments_of apdu) DATA_COLLECT_ROUNDS Collect_new t Hne)
    as (tr & t' & L & _ & Hflow & Hk & Hp & Hw & Ho).
  { eapply Forall_impl; [exact Hl|]. unfold MAX_DATA_FRAGMENT. cbn. lia. }
  exists tr, t'. split; [done|]. split; [done|]. split; [done|].
  assert (length (command_packets conn apdu) = length (fragments_of apdu)) as ->.
  { unfold command_packets. clear. induction (fragments_of apdu) as [|f [|g fs] IH]; [done..|].
    rewrite packets_cons. cbn [length] in *. by rewrite IH. }
  split; [unfold DATA_COLLECT_ROUNDS in *; lia|].
  split; [unfold DATA_COLLECT_WAIT_MS, DATA_COLLECT_ROUNDS in *; lia|].
  unfold exchange_detailed. destruct (send_fragments _ _ _ _ _ _) as [[[[t'' c] o] arr]|]; [|exact Ho].
  destruct Ho as (-> & Hx & Ho). split; [done|]. split; [exact Hx|].
  destruct o as [v| |].
  - destruct Ho as [Hn Ho]. split; [by split|exact Ho].
  - destruct Ho as [Hn Ho]. split; [by split|exact Ho].
  - split; [by split|done].
Qed.

(** A command of one packet, its credit, and an answer in two packets. *)
Example nci_exchange_witness :
  let t := push_notification [0x00; 0x00; 0x02; 0x90; 0x00]
    (push_notification [0x10; 0x00; 0x03; 0xAA; 0xBB; 0xCC]
    (push_notification [0x60; 0x06; 0x03; 0x01; 0x00; 0x01] MockTransport_new)) in
  exists tr t' tr2, link t tr t' /\ sends tr = command_packets 0 [0x00; 0xA4; 0x00; 0x00] /\
    answer_part tr tr2 /\
    concat (map body (answers 0 tr2)) = [0xAA; 0xBB; 0xCC; 0x90; 0x00].
Proof.
  intros t. destruct (nci_exchange 0 [0x00; 0xA4; 0x00; 0x00] false t) as (tr & t' & L & _ & _ & _ & _ & H).
  destruct (exchange_detailed 0 [0x00; 0xA4; 0x00; 0x00] false t) as [[[[t'' c] o] arr]|] eqn:E;
    vm_compute in E; [|discriminate].
  injection E as <- <- <- <-. destruct H as (_ & _ & _ & Hs & tr2 & Hp & Hv & _).
  exists tr, t', tr2. split; [done|]. split; [exact Hs|]. split; [done|]. symmetry. exact Hv.
Defined.

(** ** The ATR of a contactless card *)
(** A group of interface bytes moves the index by at least one when its mask is
    not empty, and never past the ATS. *)
Lemma ats_group_spec bits ats y i next j next' :
  (i <= length ats)%nat -> ats_group bits ats y i next = Some (j, next') ->
  (i <= j <= length ats)%nat /\ (existsb (fun b => negb (Z.land y b =? 0)) bits = true -> (i < j)%nat).
Proof.
  revert i next. induction bits as [|bit bits IH]; intros i next Hi; cbn [ats_group existsb].
  { intros [= <- <-]. split; [lia|done]. }
  destruct (Z.land y bit =? 0) eqn:Eb; cbn [negb orb].
  { intros E. by apply IH in E. }
  destruct (ats !! i) as [b|] eqn:Ei; [|done]. apply lookup_lt_Some in Ei. intros E.
  apply IH in E as [? _]; [|lia]. split; lia.
Qed.

Lemma mask_bits y : 0 <= y < 256 -> Z.land y 0x0F = 0 -> y <> 0 ->
  existsb (fun b => negb (Z.land y b =? 0)) [0x80; 0x40; 0x20; 0x10] = true.
Proof.
  intros Hy. pose proof (byte_forall (fun y => negb (Z.land y 0x0F =? 0) || (y =? 0) ||
    existsb (fun b => negb (Z.land y b =? 0)) [0x80; 0x40; 0x20; 0x10])
    ltac:(vm_compute; reflexivity) y Hy) as H. cbn beta in H.
  intros H0 Hn. rewrite H0 in H. cbn [negb Z.eqb orb] in H.
  apply orb_true_iff in H as [H|H]; [lia|exact H].
Qed.

Lemma mask_nibble b : u8 b -> 0 <= Z.land b 0xF0 < 256 /\ Z.land (Z.land b 0xF0) 0x0F = 0.
Proof.
  intros H. pose proof (byte_forall (fun b => (0 <=? Z.land b 0xF0) && (Z.land b 0xF0 <? 256) &&
    (Z.land (Z.land b 0xF0) 0x0F =? 0)) ltac:(vm_compute; reflexivity) b H) as E. cbn beta in E. lia.
Qed.

Lemma ats_group_mask bits ats y i next j next' : bytes ats ->
  0 <= next < 256 /\ Z.land next 0x0F = 0 -> ats_group bits ats y i next = Some (j, next') ->
  0 <= next' < 256 /\ Z.land next' 0x0F = 0.
Proof.
  intros Hb. revert i next. induction bits as [|bit bits IH]; intros i next Hn; cbn [ats_group].
  { by intros [= <- <-]. }
  destruct (Z.land y bit =? 0); [by apply IH|].
  destruct (ats !! i) as [b|] eqn:Ei; [|done]. apply IH.
  destruct (bit =? 0x10); [|done]. apply mask_nibble. by eapply Forall_lookup in Ei.
Qed.

(** The groups end within the ATS; fuel beyond its length is never used up. *)
Lemma ats_groups_spec fuel ats y i : bytes ats -> 0 <= y < 256 -> Z.land y 0x0F = 0 ->
  (i <= length ats)%nat -> (length ats - i < fuel)%nat ->
  (forall j, ats_groups fuel ats y i = Some j -> (i <= j <= length ats)%nat) /\
  (forall fuel', (fuel <= fuel')%nat -> ats_groups fuel' ats y i = ats_groups fuel ats y i).
Proof.
  intros Hb. revert y i. induction fuel as [|fuel IH]; intros y i Hy Hn Hi Hf; [lia|].
  split; [intros j|intros [|fuel'] Hle; [lia|]]; cbn [ats_groups].
  - destruct (y =? 0) eqn:E0; [intros [= <-]; lia|].
    destruct (ats_group _ _ _ _ _) as [[k next]|] eqn:Eg; [|done].
    pose proof (ats_group_spec _ _ _ _ _ _ _ Hi Eg) as [Hk Hlt].
    specialize (Hlt (mask_bits y Hy Hn ltac:(lia))).
    destruct (ats_group_mask _ _ _ _ _ _ _ Hb (conj (conj (Z.le_refl 0) eq_refl) eq_refl) Eg) as [? ?].
    intros E. apply IH in E; try done; lia.
  - destruct (y =? 0) eqn:E0; [done|].
    destruct (ats_group _ _ _ _ _) as [[k next]|] eqn:Eg; [|done].
    pose proof (ats_group_spec _ _ _ _ _ _ _ Hi Eg) as [Hk Hlt].
    specialize (Hlt (mask_bits y Hy Hn ltac:(lia))).
    destruct (ats_group_mask _ _ _ _ _ _ _ Hb (conj (conj (Z.le_refl 0) eq_refl) eq_refl) Eg) as [? ?].
    apply IH; try done; lia.
Qed.

Definition atr_head (n : nat) : list Z :=
  [0x3B; Z.lor 0x80 (Z.land (wrap8 (Z.of_nat n)) 0x0F); 0x81; 0x31; 0xFE; 0x45].

Lemma atr_t0 n : Z.land (Z.shiftr (Z.lor 0x80 (Z.land (wrap8 (Z.of_nat n)) 0x0F)) 4) 0x0F = 8.
Proof.
  pose proof (byte_forall (fun b => Z.land (Z.shiftr (Z.lor 0x80 (Z.land b 0x0F)) 4) 0x0F =? 8)
    ltac:(vm_compute; reflexivity) (wrap8 (Z.of_nat n)) (u8_wrap8 _)) as H. cbn beta in H. lia.
Qed.

Definition contactless_params : AtrParams := mkAtrParams 372 1 0 1 0 254 4 5 0 false.

Lemma parse_contactless n tail : parse_atr (atr_head n ++ tail) = contactless_params.
Proof.
  unfold parse_atr, atr_head. cbn [app length parse_atr_loop]. unfold parse_atr_start.
  rewrite atr_t0. destruct tail; reflexivity.
Qed.

Lemma verify_tck_snoc ts l : verify_atr_tck ((ts :: l) ++ [xor_all l]) 1 = true.
Proof.
  unfold verify_atr_tck. cbn [negb Z.eqb Pos.eqb]. rewrite last_snoc, length_app. cbn [length app skipn].
  destruct (_ <? _)%nat; [done|]. rewrite drop_0, take_app_le by (cbn; lia).
  rewrite firstn_all2 by (cbn; lia). apply Z.eqb_refl.
Qed.

(** The reader's own ATR is accepted.  When an ATS gives an ATR, the ATR
    carries the ATS's last bytes as historical bytes, and the shared parser
    reads it as a T=1 card with IFSC 254, BWI 4, CWI 5 and the default rate.
    With at most 25 historical bytes it ends in the correct check byte; with
    26 the check byte does not fit and is silently left out. *)
Theorem contactless_atr_read ats atr :
  bytes ats -> ats_to_atr ats = Some atr ->
  parse_atr atr = contactless_params /\ (length atr <= 32)%nat /\
  exists skipped hist, ats = skipped ++ hist /\ (length hist <= 26)%nat /\
    if (length hist <=? 25)%nat
    then atr = atr_head (length hist) ++ hist ++ [xor_all (drop 1 (atr_head (length hist) ++ hist))] /\
         verify_atr_tck atr (Atr.protocol (parse_atr atr)) = true
    else atr = atr_head (length hist) ++ hist.
Proof.
  unfold ats_to_atr. destruct ats as [|t0 rest]; [done|]. set (ats := t0 :: rest). intros Hb.
  destruct (ats_groups _ _ _ _) as [i|] eqn:Ei; [|done]. cbv zeta. fold (atr_head (length (drop i ats))).
  destruct (mask_nibble t0) as [Hy Hn]; [by apply Forall_cons in Hb as [? _]|].
  apply ats_groups_spec in Ei; [|done..|cbn; lia|cbn; lia].
  set (hist := drop i ats) in *. set (n := length hist) in *.
  destruct (_ <? _)%nat eqn:E; [done|]. apply Nat.ltb_ge in E. cbn [length atr_head] in E.
  assert (length (atr_head n ++ hist) = 6 + n)%nat as Hlen by (by rewrite length_app).
  intros Ha. apply (inj Some) in Ha as <-. unfold vec_push. rewrite Hlen. case_decide as Hd; rewrite <- ?app_assoc.
  - rewrite parse_contactless. split; [done|]. split; [rewrite !length_app; cbn; lia|].
    exists (take i ats), hist. split; [symmetry; apply take_drop|]. split; [lia|].
    rewrite (proj2 (Nat.leb_le _ _)) by lia. split; [done|].
    rewrite app_assoc. apply (verify_tck_snoc 0x3B (drop 1 (atr_head n ++ hist))).
  - rewrite parse_contactless. split; [done|]. split; [lia|].
    exists (take i ats), hist. split; [symmetry; apply take_drop|]. split; [lia|].
    by rewrite (proj2 (Nat.leb_gt _ _)) by lia.
Qed.

Example contactless_atr_read_witness :
  let ats := [0x78; 0x77; 0x91; 0x02; 0x80; 0x73; 0xC8; 0x21; 0x10] in
  let atr := [0x3B; 0x85; 0x81; 0x31; 0xFE; 0x45; 0x80; 0x73; 0xC8; 0x21; 0x10; 0x84] in
  ats_to_atr ats = Some atr /\ parse_atr atr = contactless_params.
Proof.
  intros ats atr. split; [vm_compute; reflexivity|].
  apply (contactless_atr_read ats atr); [solve_bytes|vm_compute; reflexivity].
Defined.

(** In an ATS, bit 5 of T0 announces TA(1) (ISO/IEC 14443-4); the code takes
    the byte for a TD and lets it announce further bytes: historical bytes are
    skipped. *)
Example ta_read_as_td :
  ats_to_atr [0x15; 0x70; 0x80; 0x73; 0x08] =
    Some [0x3B; 0x80; 0x81; 0x31; 0xFE; 0x45; 0x8B] /\
  ats_to_atr [0x15; 0x70; 0x80; 0x73; 0xC8] = None.
Proof. split; vm_compute; reflexivity. Qed.

(** *** Notifications that abort the reader *)
(** An activation of at least eight bytes with fewer than three bytes of
    technology parameters. *)
Example activation_without_params_aborts :
  option_map event_of (decode [0x61; 0x05; 0x08; 0x01; 0x02; 0x04; 0x00; 0xFF; 0x01; 0x00; 0x00]) =
  Some Panic.
Proof. reflexivity. Qed.

(** A discovery whose UID length points past the sixteen bytes kept. *)
Example long_uid_aborts :
  option_map (fun f => option_map nfca_uid (DiscoverNtf_decode f))
    (decode ([0x61; 0x03; 0x19; 0x01; 0x04; 0x00; 0x14; 0x44; 0x00; 0x0E] ++ replicate 17 0x11 ++ [0x02])) =
  Some (Some Panic).
Proof. reflexivity. Qed.
