(* ===== verification/NciDriver.v ===== *)
(** * The NFC controller's driver

    [pn7160-nci/src/driver.rs]: the session and the presence of a contactless
    card behind the link of [Nci.v].  Presence is edge-triggered, so the driver
    re-arms discovery; the re-arm is a state machine ([RearmPhase]) that takes
    one bounded step per presence poll.  The global [LAST_DATA_ARRIVAL_MS] is a
    field of the one driver there is.  The theorems are in
    [NciDriverSpec.v]. *)
From Stdlib Require Import ZArith Lia ZifyBool.
From stdpp Require Import prelude strings.
From S2P Require Import Prelude Nci.
Import Nci.
Local Open Scope Z_scope.

Module Pn7160.

Inductive Error :=
| BringUp (s : string)
| Select (s : string)
| NoCard
| ExchangeFailed
| BufferTooSmall.

Inductive RearmPhase :=
| AwaitRsp (polls : Z)
| AwaitNtf (polls : Z)
| DiscoverProbeRsp (polls : Z).

Record Pn7160Driver (T : Type) := mkDriver {
  transport : T;
  active : bool;
  uid : list Z; (* [u8; 10] *)
  uid_len : nat;
  last_ntf : option DiscoverNtf;
  last_auto_ats : option (list Z);
  collect_rounds : Z;
  polls_since_ntf : Z;
  absent_rearms : Z;
  rearm : option RearmPhase;
  probe_armed : bool;
  discovery_parked : bool;
  last_rearm_ms : option Z;
  silent_rearms : Z;
  stall_hook : bool; (* whether a hook is installed *)
  wtx_last : Z;
  wtx_total : Z;
  last_data_arrival_ms : Z
}.
Arguments mkDriver {T}.
Arguments transport {T} _.
Arguments active {T} _.
Arguments uid {T} _.
Arguments uid_len {T} _.
Arguments last_ntf {T} _.
Arguments last_auto_ats {T} _.
Arguments collect_rounds {T} _.
Arguments polls_since_ntf {T} _.
Arguments absent_rearms {T} _.
Arguments rearm {T} _.
Arguments probe_armed {T} _.
Arguments discovery_parked {T} _.
Arguments last_rearm_ms {T} _.
Arguments silent_rearms {T} _.
Arguments stall_hook {T} _.
Arguments wtx_last {T} _.
Arguments wtx_total {T} _.
Arguments last_data_arrival_ms {T} _.

Definition PRESENCE_REARM_POLLS : Z := 8.
Definition PARKED_REARM_POLLS : Z := 32.
Definition PARKED_REARM_MS : Z := 12800.
Definition ABSENT_REARMS_TO_CLEAR : Z := 2.
Definition REARM_RSP_POLLS : Z := 2.
Definition REARM_NTF_POLLS : Z := 2.

Section Setters.
Context {T : Type}.
Implicit Types d : Pn7160Driver T.
Definition with_transport v_transport d : Pn7160Driver T := mkDriver v_transport (active d) (uid
  d) (uid_len d) (last_ntf d) (last_auto_ats d) (collect_rounds d) (polls_since_ntf d)
  (absent_rearms d) (rearm d) (probe_armed d) (discovery_parked d) (last_rearm_ms d)
  (silent_rearms d) (stall_hook d) (wtx_last d) (wtx_total d) (last_data_arrival_ms d).
Definition with_active v_active d : Pn7160Driver T := mkDriver (transport d) v_active (uid d)
  (uid_len d) (last_ntf d) (last_auto_ats d) (collect_rounds d) (polls_since_ntf d)
  (absent_rearms d) (rearm d) (probe_armed d) (discovery_parked d) (last_rearm_ms d)
  (silent_rearms d) (stall_hook d) (wtx_last d) (wtx_total d) (last_data_arrival_ms d).
Definition with_last_ntf v_last_ntf d : Pn7160Driver T := mkDriver (transport d) (active d) (uid
  d) (uid_len d) v_last_ntf (last_auto_ats d) (collect_rounds d) (polls_since_ntf d)
  (absent_rearms d) (rearm d) (probe_armed d) (discovery_parked d) (last_rearm_ms d)
  (silent_rearms d) (stall_hook d) (wtx_last d) (wtx_total d) (last_data_arrival_ms d).
Definition with_auto_ats v_last_auto_ats d : Pn7160Driver T := mkDriver (transport d) (active d)
  (uid d) (uid_len d) (last_ntf d) v_last_auto_ats (collect_rounds d) (polls_since_ntf d)
  (absent_rearms d) (rearm d) (probe_armed d) (discovery_parked d) (last_rearm_ms d)
  (silent_rearms d) (stall_hook d) (wtx_last d) (wtx_total d) (last_data_arrival_ms d).
Definition with_collect_rounds v_collect_rounds d : Pn7160Driver T := mkDriver (transport d)
  (active d) (uid d) (uid_len d) (last_ntf d) (last_auto_ats d) v_collect_rounds
  (polls_since_ntf d) (absent_rearms d) (rearm d) (probe_armed d) (discovery_parked d)
  (last_rearm_ms d) (silent_rearms d) (stall_hook d) (wtx_last d) (wtx_total d)
  (last_data_arrival_ms d).
Definition with_polls v_polls_since_ntf d : Pn7160Driver T := mkDriver (transport d) (active d)
  (uid d) (uid_len d) (last_ntf d) (last_auto_ats d) (collect_rounds d) v_polls_since_ntf
  (absent_rearms d) (rearm d) (probe_armed d) (discovery_parked d) (last_rearm_ms d)
  (silent_rearms d) (stall_hook d) (wtx_last d) (wtx_total d) (last_data_arrival_ms d).
Definition with_absent v_absent_rearms d : Pn7160Driver T := mkDriver (transport d) (active d)
  (uid d) (uid_len d) (last_ntf d) (last_auto_ats d) (collect_rounds d) (polls_since_ntf d)
  v_absent_rearms (rearm d) (probe_armed d) (discovery_parked d) (last_rearm_ms d)
  (silent_rearms d) (stall_hook d) (wtx_last d) (wtx_total d) (last_data_arrival_ms d).
Definition with_rearm v_rearm d : Pn7160Driver T := mkDriver (transport d) (active d) (uid d)
  (uid_len d) (last_ntf d) (last_auto_ats d) (collect_rounds d) (polls_since_ntf d)
  (absent_rearms d) v_rearm (probe_armed d) (discovery_parked d) (last_rearm_ms d)
  (silent_rearms d) (stall_hook d) (wtx_last d) (wtx_total d) (last_data_arrival_ms d).
Definition with_probe v_probe_armed d : Pn7160Driver T := mkDriver (transport d) (active d) (uid
  d) (uid_len d) (last_ntf d) (last_auto_ats d) (collect_rounds d) (polls_since_ntf d)
  (absent_rearms d) (rearm d) v_probe_armed (discovery_parked d) (last_rearm_ms d)
  (silent_rearms d) (stall_hook d) (wtx_last d) (wtx_total d) (last_data_arrival_ms d).
Definition with_parked v_discovery_parked d : Pn7160Driver T := mkDriver (transport d) (active
  d) (uid d) (uid_len d) (last_ntf d) (last_auto_ats d) (collect_rounds d) (polls_since_ntf d)
  (absent_rearms d) (rearm d) (probe_armed d) v_discovery_parked (last_rearm_ms d)
  (silent_rearms d) (stall_hook d) (wtx_last d) (wtx_total d) (last_data_arrival_ms d).
Definition with_last_rearm v_last_rearm_ms d : Pn7160Driver T := mkDriver (transport d) (active
  d) (uid d) (uid_len d) (last_ntf d) (last_auto_ats d) (collect_rounds d) (polls_since_ntf d)
  (absent_rearms d) (rearm d) (probe_armed d) (discovery_parked d) v_last_rearm_ms
  (silent_rearms d) (stall_hook d) (wtx_last d) (wtx_total d) (last_data_arrival_ms d).
Definition with_silent v_silent_rearms d : Pn7160Driver T := mkDriver (transport d) (active d)
  (uid d) (uid_len d) (last_ntf d) (last_auto_ats d) (collect_rounds d) (polls_since_ntf d)
  (absent_rearms d) (rearm d) (probe_armed d) (discovery_parked d) (last_rearm_ms d)
  v_silent_rearms (stall_hook d) (wtx_last d) (wtx_total d) (last_data_arrival_ms d).
Definition with_hook v_stall_hook d : Pn7160Driver T := mkDriver (transport d) (active d) (uid
  d) (uid_len d) (last_ntf d) (last_auto_ats d) (collect_rounds d) (polls_since_ntf d)
  (absent_rearms d) (rearm d) (probe_armed d) (discovery_parked d) (last_rearm_ms d)
  (silent_rearms d) v_stall_hook (wtx_last d) (wtx_total d) (last_data_arrival_ms d).
Definition with_uid v_uid v_uid_len d : Pn7160Driver T := mkDriver (transport d) (active d)
  v_uid v_uid_len (last_ntf d) (last_auto_ats d) (collect_rounds d) (polls_since_ntf d)
  (absent_rearms d) (rearm d) (probe_armed d) (discovery_parked d) (last_rearm_ms d)
  (silent_rearms d) (stall_hook d) (wtx_last d) (wtx_total d) (last_data_arrival_ms d).
Definition with_wtx v_wtx_last v_wtx_total v_last_data_arrival_ms d : Pn7160Driver T := mkDriver
  (transport d) (active d) (uid d) (uid_len d) (last_ntf d) (last_auto_ats d) (collect_rounds d)
  (polls_since_ntf d) (absent_rearms d) (rearm d) (probe_armed d) (discovery_parked d)
  (last_rearm_ms d) (silent_rearms d) (stall_hook d) v_wtx_last v_wtx_total
  v_last_data_arrival_ms.
End Setters.

(** [u8::saturating_add(1)] and [u32::saturating_add(1)]. *)
Definition sat_inc8 (z : Z) : Z := Z.min (z + 1) u8_max.
Definition sat_inc32 (z : Z) : Z := sat_add32 z 1.

Section Driver.
Context {T : Type} `{!Transport T}.
Implicit Types d : Pn7160Driver T.

Definition new (t : T) : Pn7160Driver T :=
  mkDriver t false (replicate 10 0) 0 None None 0 0 0 None false false None 0 false 0 0 0.

(** *** The link, from the driver *)
Definition send d (cmd : list Z) : Pn7160Driver T * bool :=
  let '(t, sent) := t_send (transport d) cmd in (with_transport t d, sent).
Definition poll d : Pn7160Driver T * option Frame :=
  let '(t, f) := poll_frame (transport d) in (with_transport t d, f).
Definition next_event d : outcome (Pn7160Driver T * option TagEvent) :=
  r ← wait_for_event (transport d); Ret (with_transport r.1 d, r.2).
Definition to_discovery d : Pn7160Driver T * bool :=
  let '(t, r) := deactivate_to_discovery (transport d) in (with_transport t d, is_ok r).
Definition discover d : Pn7160Driver T * bool :=
  let '(t, r) := restart_discovery (transport d) in (with_transport t d, is_ok r).

(** *** Presence *)
Definition latch_tag (n : DiscoverNtf) (ats : option (list Z)) d : Pn7160Driver T :=
  with_silent 0 (with_parked false (with_probe true (with_rearm None (with_absent 0
    (with_polls 0 (with_auto_ats ats (with_last_ntf (Some n) d))))))).

Definition clear_tag d : Pn7160Driver T :=
  with_parked false (with_probe true (with_rearm None (with_absent 0
    (with_polls 0 (with_auto_ats None (with_last_ntf None d)))))).

Definition teardown_on_link_loss d : Pn7160Driver T :=
  clear_tag (with_uid (uid d) 0 (with_active false d)).

Definition absorb_event (ev : TagEvent) d : Pn7160Driver T :=
  match ev with
  | Tag n ats => latch_tag n ats d
  | LinkLost => clear_tag d
  end.

Definition advance_or_give_up (polls : Z) d : Pn7160Driver T :=
  if REARM_RSP_POLLS <=? polls + 1
  then with_rearm None (with_silent (sat_inc8 (silent_rearms d)) d)
  else with_rearm (Some (AwaitRsp (polls + 1))) d.

Definition advance_probe_or_give_up (polls : Z) d : Pn7160Driver T :=
  if REARM_RSP_POLLS <=? polls + 1
  then with_rearm None (with_silent (sat_inc8 (silent_rearms d)) d)
  else with_rearm (Some (DiscoverProbeRsp (polls + 1))) d.

Definition status_ok (f : Frame) : bool := bool_decide (status f = Some STATUS_OK).

(** The three phases of [step_rearm]. *)
Definition step_await_rsp (polls : Z) d : outcome (Pn7160Driver T) :=
  let '(d, f) := poll d in
  match f with
  | None => Ret (advance_or_give_up polls d)
  | Some f =>
      if is_rsp_to f RF_DEACTIVATE_DISCOVERY then
        if status_ok f then Ret (with_rearm (Some (AwaitNtf 0)) (with_silent 0 d))
        else
          let '(d, sent) := send d RF_DISCOVER_PASSIVE_A in
          Ret (with_rearm (if sent then Some (DiscoverProbeRsp 0) else None) d)
      else
        ev ← event_of f;
        Ret (match ev with
             | Some ev => absorb_event ev d
             | None => advance_or_give_up polls d
             end)
  end.

Definition step_await_ntf (polls : Z) d : Pn7160Driver T :=
  if REARM_NTF_POLLS <=? polls + 1 then
    let d := with_absent (sat_inc8 (absent_rearms d)) (with_polls 0 (with_rearm None d)) in
    let d :=
      if ABSENT_REARMS_TO_CLEAR <=? absent_rearms d
      then with_parked true (with_absent 0 (with_auto_ats None (with_last_ntf None d)))
      else d in
    if probe_armed d then
      let '(d, sent) := send d RF_DISCOVER_PASSIVE_A in
      if sent then with_rearm (Some (DiscoverProbeRsp 0)) (with_probe false d) else d
    else d
  else with_rearm (Some (AwaitNtf (polls + 1))) d.

Definition step_probe_rsp (polls : Z) d : outcome (Pn7160Driver T) :=
  let '(d, f) := poll d in
  match f with
  | None => Ret (advance_probe_or_give_up polls d)
  | Some f =>
      if is_rsp_to f RF_DISCOVER_PASSIVE_A then
        Ret (with_rearm (if status_ok f then Some (AwaitNtf 0) else None) d)
      else
        ev ← event_of f;
        Ret (match ev with
             | Some ev => absorb_event ev d
             | None => advance_probe_or_give_up polls d
             end)
  end.

Definition step_rearm d : outcome (Pn7160Driver T) :=
  match rearm d with
  | None => Ret d
  | Some (AwaitRsp polls) => step_await_rsp polls d
  | Some (AwaitNtf polls) => Ret (step_await_ntf polls d)
  | Some (DiscoverProbeRsp polls) => step_probe_rsp polls d
  end.

(** The cadence at the end of a poll that saw nothing. *)
Definition rearm_when_due d : Pn7160Driver T :=
  match rearm d with
  | Some _ => d
  | None =>
      let cadence := if discovery_parked d then PARKED_REARM_POLLS else PRESENCE_REARM_POLLS in
      let d := with_polls (sat_inc32 (polls_since_ntf d)) d in
      if cadence <=? polls_since_ntf d then
        let '(d, sent) := send (with_polls 0 d) RF_DEACTIVATE_DISCOVERY in
        if sent then with_rearm (Some (AwaitRsp 0)) d else d
      else d
  end.

Definition is_card_present d : outcome (Pn7160Driver T * bool) :=
  if active d then
    r ← next_event d;
    let '(d, ev) := r in
    match ev with
    | Some LinkLost => Ret (teardown_on_link_loss d, false)
    | Some (Tag n ats) => Ret (latch_tag n ats d, true)
    | None => Ret (d, true)
    end
  else
    d ← step_rearm d;
    r ← next_event d;
    let '(d, ev) := r in
    match ev with
    | Some (Tag n ats) => Ret (latch_tag n ats d, true)
    | Some LinkLost => Ret (clear_tag d, false)
    | None =>
        match last_auto_ats d with
        | Some _ => Ret (d, true)
        | None =>
            let d := rearm_when_due d in
            Ret (d, match last_ntf d with Some _ => true | None => false end)
        end
    end.

(** The time-driven re-arm of a parked driver. *)
Definition poll_maintenance (now_ms : Z) d : outcome (Pn7160Driver T) :=
  d ← step_rearm d;
  r ← next_event d;
  let d := match r.2 with Some ev => absorb_event ev r.1 | None => r.1 end in
  if negb (discovery_parked d) || match rearm d with Some _ => true | None => false end
  then Ret d
  else
    let due := match last_rearm_ms d with
               | Some last => PARKED_REARM_MS <=? Z.max 0 (now_ms - last)
               | None => true
               end in
    if due then
      let '(d, sent) := send d RF_DEACTIVATE_DISCOVERY in
      Ret (if sent then with_rearm (Some (AwaitRsp 0)) (with_last_rearm (Some now_ms) d) else d)
    else Ret d.

(** *** Bring-up *)
Definition init d : Pn7160Driver T * result unit Error :=
  let '(t, r) := run_ladder (transport d) in
  let d := with_transport t d in
  match r with
  | Ok _ => (with_polls PRESENCE_REARM_POLLS d, Ok tt)
  | Err s => (d, Err (BringUp s))
  end.

(** [recover] is the caller's closure. *)
Fixpoint bring_up_rounds (recover : T -> T) (n : nat) (t : T) : Pn7160Driver T * bool :=
  match n with
  | O => (new t, false)
  | S n =>
      let '(d, r) := init (new t) in
      match r with
      | Ok _ => (d, true)
      | Err _ => bring_up_rounds recover n (recover (transport d))
      end
  end.
Definition bring_up (t : T) (attempts : nat) (recover : T -> T) : Pn7160Driver T * bool :=
  bring_up_rounds recover (Nat.max attempts 1) t.

(** *** Power on *)
(** The collect loop: a fresh activation, [None] when the rounds are used up,
    or the loss of the link. *)
Fixpoint collect_tag (n : nat) d :
    outcome (Pn7160Driver T * result (option (DiscoverNtf * option (list Z))) Error) :=
  r ← next_event d;
  let '(d, ev) := r in
  match ev with
  | Some (Tag ntf ats) =>
      Ret (with_auto_ats ats (with_last_ntf (Some ntf) d), Ok (Some (ntf, ats)))
  | Some LinkLost => Ret (clear_tag d, Err NoCard)
  | None =>
      match n with
      | O => Ret (d, Ok None)
      | S n =>
          let d := with_collect_rounds (collect_rounds d + 1) d in
          collect_tag n (with_transport (wait_ms (transport d) 150) d)
      end
  end.

Definition note_uid (ntf : DiscoverNtf) d : outcome (Pn7160Driver T) :=
  u ← nfca_uid ntf;
  match u with
  | None => Ret d
  | Some u =>
      let n := (length u `min` 10)%nat in
      buf ← copy_at (uid d) 0 (take n u);
      Ret (with_uid buf n d)
  end.

Definition activate_with (ats atr : list Z) d :
    outcome (Pn7160Driver T * list Z * result nat Error) :=
  match ats_to_atr ats with
  | None => Ret (d, atr, Err (Select "ATS too short for ATR construction"%string))
  | Some a =>
      if (length atr <? length a)%nat then Ret (d, atr, Err BufferTooSmall)
      else
        atr ← copy_at atr 0 a;
        Ret (with_active true d, atr, Ok (length a))
  end.

(** The forced re-activation: deactivate, then collect again. *)
Definition reactivate (atr : list Z) d : outcome (Pn7160Driver T * list Z * result nat Error) :=
  let d := with_collect_rounds 0 (to_discovery d).1 in
  c ← collect_tag 8 d;
  let '(d, c) := c in
  match c with
  | Err e => Ret (d, atr, Err e)
  | Ok None => Ret (d, atr, Err NoCard)
  | Ok (Some (_, None)) => Ret (d, atr, Err (Select "re-activation carried no ATS"%string))
  | Ok (Some (ntf, Some ats)) => d ← note_uid ntf d; activate_with ats atr d
  end.

(** The activation of a tag that was discovered but not activated. *)
Definition select_ats (ntf : DiscoverNtf) d : Pn7160Driver T * result (list Z) Error :=
  let '(t, r) := select_tag (transport d) ntf in
  let d := with_transport t d in
  match r with
  | Err s => (d, Err (Select s))
  | Ok activation =>
      match extract_ats activation with
      | None => (d, Err (Select "activation carries no ATS"%string))
      | Some v => if (32 <? length v)%nat then (d, Err (Select "ATS too long"%string)) else (d, Ok v)
      end
  end.

Definition power_on (atr : list Z) d : outcome (Pn7160Driver T * list Z * result nat Error) :=
  c ← collect_tag 8 (with_collect_rounds 0 d);
  let '(d, c) := c in
  match c with
  | Err e => Ret (d, atr, Err e)
  | Ok fresh =>
      match fresh, last_ntf d, last_auto_ats d with
      | None, Some _, None => Ret (clear_tag d, atr, Err NoCard)
      | None, None, _ => reactivate atr d
      | _, _, _ =>
          match (match fresh with Some (n, _) => Some n | None => last_ntf d end) with
          | None => Ret (d, atr, Err NoCard)
          | Some ntf =>
              let auto_ats := match fresh with
                              | Some (_, Some ats) => Some ats
                              | _ => last_auto_ats d
                              end in
              d ← note_uid ntf d;
              match auto_ats with
              | Some ats => activate_with ats atr d
              | None =>
                  let '(d, r) := select_ats ntf d in
                  match r with
                  | Err e => Ret (d, atr, Err e)
                  | Ok ats => activate_with ats atr d
                  end
              end
          end
      end
  end.

(** *** Power off and exchange *)
Definition power_off d : Pn7160Driver T :=
  match last_auto_ats d with
  | Some _ => with_parked false (with_probe true (with_active false d))
  | None =>
      let d :=
        if active d then
          let '(d, ok) := to_discovery d in
          if ok then d
          else let d := (discover d).1 in with_transport (drain_link (transport d)).1 d
        else d in
      with_silent 0 (with_parked false (with_probe true (with_rearm None (with_auto_ats None
        (with_last_ntf None (with_uid (uid d) 0 (with_active false d)))))))
  end.

Definition end_session d : Pn7160Driver T := with_uid (uid d) 0 (with_active false d).

(** The teardown after a timeout: resynchronise the link. *)
Definition resync d : Pn7160Driver T :=
  let '(d, ok) := to_discovery d in
  let d := if ok then d else (discover d).1 in
  end_session (clear_tag (with_transport (settle_drain (transport d)) d)).

(** The answer, with the elapsed times the stall hook was called with. *)
Definition transmit_apdu (command response : list Z) d :
    outcome (Pn7160Driver T * list Z * result nat Error * list Z) :=
  if negb (active d) then Ret (d, response, Err NoCard, [])
  else
    x ← exchange_detailed 0 command (stall_hook d) (transport d);
    let '(t, c, o, arrival) := x in
    let d := with_wtx (wtx c) (sat_add32 (wtx_total d) (wtx c))
               (default (last_data_arrival_ms d) arrival) (with_transport t d) in
    r ← (match o with
         | Data rsp =>
             match rsp with
             | [] => Ret (end_session (clear_tag d), response, Err ExchangeFailed)
             | _ =>
                 if (length response <? length rsp)%nat then Ret (d, response, Err BufferTooSmall)
                 else response ← copy_at response 0 rsp; Ret (d, response, Ok (length rsp))
             end
         | Timeout => Ret (resync d, response, Err ExchangeFailed)
         | XLinkLost => Ret (teardown_on_link_loss d, response, Err ExchangeFailed)
         end);
    Ret (r, reports c).

Definition session_active d : bool := active d.
Definition card_uid d : list Z := take (uid_len d) (uid d).
Definition silent_rearm_streak d : Z := silent_rearms d.
Definition set_stall_hook (hook : bool) d : Pn7160Driver T := with_hook hook d.
Definition wtx_counters d : Z * Z := (wtx_last d, wtx_total d).
End Driver.

End Pn7160.
