(* ===== verification/NciDriverSpec.v ===== *)
(** * The NFC controller's driver: theorems

    About [NciDriver.v].  Presence polls never wait, and write at most once;
    the re-arm writes are rationed; a card that leaves an idle reader is
    noticed; what a session's operations keep and return. *)
From Stdlib Require Import ZArith Lia ZifyBool.
From stdpp Require Import prelude strings.
From S2P Require Import Prelude Atr CardInterface Nci NciSpec NciDriver.
Import Nci Pn7160.
Local Open Scope Z_scope.

(** ** Traces without waiting *)
Definition drains (tr : list event) : Z :=
  count (fun e => match e with Drained _ => true | _ => false end) tr.
Definition blocking (tr : list event) : Z :=
  count (fun e => match e with Waited _ | Asked _ _ => true | _ => false end) tr.
(** The writes that stop the RF field and start discovery again. *)
Definition deactivations (tr : list event) : Z :=
  count (fun w => bool_decide (w = RF_DEACTIVATE_DISCOVERY)) (sends tr).

Lemma drains_app a b : drains (a ++ b) = drains a + drains b.
Proof. apply count_app. Qed.
Lemma blocking_app a b : blocking (a ++ b) = blocking a + blocking b.
Proof. apply count_app. Qed.
Lemma deactivations_app a b : deactivations (a ++ b) = deactivations a + deactivations b.
Proof. unfold deactivations. rewrite sends_app. apply count_app. Qed.

(** At most [s] writes, [p] polls and [n] drains, and no wait. *)
Record bounded (s p n : Z) (tr : list event) : Prop := {
  b_sends : Z.of_nat (length (sends tr)) <= s;
  b_polls : polls tr <= p;
  b_drains : drains tr <= n;
  b_blocking : blocking tr = 0
}.

Lemma bounded_app s1 p1 n1 s2 p2 n2 a b :
  bounded s1 p1 n1 a -> bounded s2 p2 n2 b -> bounded (s1 + s2) (p1 + p2) (n1 + n2) (a ++ b).
Proof.
  intros [H1 H2 H3 H4] [K1 K2 K3 K4].
  split; rewrite ?sends_app, ?length_app, ?polls_app, ?drains_app, ?blocking_app; lia.
Qed.
Lemma bounded_le s1 p1 n1 s2 p2 n2 tr : bounded s1 p1 n1 tr ->
  s1 <= s2 -> p1 <= p2 -> n1 <= n2 -> bounded s2 p2 n2 tr.
Proof. intros []. split; lia. Qed.
Lemma bounded_nil s p n : 0 <= s -> 0 <= p -> 0 <= n -> bounded s p n [].
Proof. intros. by split; cbn. Qed.

(** A notification that cannot be read. *)
Definition unreadable (tr : list event) : Prop :=
  exists tr' f, (tr = tr' ++ [Polled (Some f)] \/ tr = tr' ++ [Drained (Some f)]) /\
    event_of f = Panic.

Lemma unreadable_app a b : unreadable b -> unreadable (a ++ b).
Proof.
  intros (tr & f & Hor & E). exists (a ++ tr), f. split; [|done].
  destruct Hor as [->| ->]; rewrite app_assoc; auto.
Qed.

Section Driver.
Context {T : Type} `{!Transport T}.
Implicit Types (t : T) (d : Pn7160Driver T).

Lemma wait_for_event_spec n t :
  exists tr t', link t tr t' /\ bounded 0 0 (Z.of_nat n) tr /\ sends tr = [] /\
    match wait_for_event_rounds n t with
    | Panic => unreadable tr
    | Ret (t'', ev) => t'' = t'
    end.
Proof.
  revert t. induction n as [|n IH]; intros t.
  { exists [], t. split; [constructor|]. split; [by apply bounded_nil|done]. }
  cbn [wait_for_event_rounds]. destruct (drain t) as [t1 f] eqn:Ed.
  assert (link t [Drained f] t1) as L1 by (by apply trace_one).
  assert (bounded 0 0 1 [Drained f]) as B1 by (by split; cbn).
  assert (bounded 0 0 (Z.of_nat (S n)) [Drained f]) as B2 by (eapply bounded_le; [exact B1|lia..]).
  destruct f as [f|]; [|by exists [Drained None], t1].
  destruct (event_of f) as [ev|] eqn:Ee; cycle 1.
  { exists [Drained (Some f)], t1. split; [done|]. split; [done|]. split; [done|].
    exists [], f. auto. }
  rewrite bind_ret. destruct ev as [ev|]; [by exists [Drained (Some f)], t1|].
  destruct (IH t1) as (tr & t' & L & B & Hs & R).
  exists ([Drained (Some f)] ++ tr), t'. split; [by eapply trace_app|].
  split; [eapply bounded_le; [exact (bounded_app _ _ _ _ _ _ _ _ B1 B)|lia..]|].
  split; [by rewrite sends_app, Hs|].
  destruct (wait_for_event_rounds n t1) as [[]|]; [done|by apply unreadable_app].
Qed.

(** One operation of the driver: its trace starts at its link and ends at the
    new one, unless a notification could not be read. *)
Definition op {A} (s p n : Z) d (m : outcome A) (get : A -> Pn7160Driver T)
    (P : list event -> A -> Prop) : Prop :=
  exists tr t', link (transport d) tr t' /\ bounded s p n tr /\
    match m with
    | Ret a => transport (get a) = t' /\ P tr a
    | Panic => unreadable tr
    end.

Lemma op_ret {A} s p n d (a : A) get (P : list event -> A -> Prop) :
  0 <= s -> 0 <= p -> 0 <= n -> transport (get a) = transport d -> P [] a -> op s p n d (Ret a) get P.
Proof.
  intros. exists [], (transport d). split; [constructor|]. split; [by apply bounded_nil|done].
Qed.

Lemma op_le {A} s1 p1 n1 s2 p2 n2 d (m : outcome A) get P :
  op s1 p1 n1 d m get P -> s1 <= s2 -> p1 <= p2 -> n1 <= n2 -> op s2 p2 n2 d m get P.
Proof. intros (tr & t' & L & B & R) ???. exists tr, t'. split; [done|]. split; [by eapply bounded_le|done]. Qed.

Lemma op_bind {A B} s1 p1 n1 s2 p2 n2 d (m : outcome A) get P (k : A -> outcome B) get' Q :
  0 <= s2 -> 0 <= p2 -> 0 <= n2 ->
  op s1 p1 n1 d m get P ->
  (forall tr a, P tr a -> op s2 p2 n2 (get a) (k a) get' (fun tr' => Q (tr ++ tr'))) ->
  op (s1 + s2) (p1 + p2) (n1 + n2) d (a ← m; k a) get' Q.
Proof.
  intros Hs Hp Hn (tr & t' & L & B1 & R) Hk. destruct m as [a|]; cycle 1.
  { exists tr, t'. split; [done|]. split; [eapply bounded_le; [done|lia..]|done]. }
  destruct R as [<- R]. destruct (Hk tr a R) as (tr2 & t2 & L2 & B2 & R2).
  exists (tr ++ tr2), t2. split; [by eapply trace_app|].
  split; [exact (bounded_app _ _ _ _ _ _ _ _ B1 B2)|].
  rewrite bind_ret. destruct (k a); [done|by apply unreadable_app].
Qed.

(** The same, with weaker bounds in the end. *)
Lemma op_seq {A B} s1 p1 n1 s2 p2 n2 s p n d (m : outcome A) get P (k : A -> outcome B) get' Q :
  op s1 p1 n1 d m get P ->
  (forall tr a, P tr a -> op s2 p2 n2 (get a) (k a) get' (fun tr' => Q (tr ++ tr'))) ->
  0 <= s2 -> 0 <= p2 -> 0 <= n2 -> s1 + s2 <= s -> p1 + p2 <= p -> n1 + n2 <= n ->
  op s p n d (a ← m; k a) get' Q.
Proof.
  intros H1 H2 ??????. eapply op_le; [exact (op_bind s1 p1 n1 s2 p2 n2 d m get P k get' Q
    ltac:(lia) ltac:(lia) ltac:(lia) H1 H2)|lia..].
Qed.

(** *** The pieces of a presence poll *)
(** The ration: eight polls per re-arm write. *)
Definition ration (k : Z) d (tr : list event) d' : Prop :=
  0 <= polls_since_ntf d ->
  0 <= polls_since_ntf d' /\ 8 * deactivations tr + polls_since_ntf d' <= polls_since_ntf d + k.

Lemma next_event_op d : op 0 0 8 d (next_event d) fst
  (fun tr r => sends tr = [] /\ r.1 = with_transport (transport r.1) d).
Proof.
  unfold next_event. destruct (wait_for_event_spec 8 (transport d)) as (tr & t' & L & B & Hs & R).
  exists tr, t'. split; [done|]. split; [exact B|]. unfold wait_for_event.
  destruct (wait_for_event_rounds 8 (transport d)) as [[t1 ev]|]; [by subst|done].
Qed.

Lemma op_prefix {A} tr0 s0 p0 n0 s p n d d1 (m : outcome A) get P :
  link (transport d) tr0 (transport d1) -> bounded s0 p0 n0 tr0 ->
  op s p n d1 m get (fun tr => P (tr0 ++ tr)) -> op (s0 + s) (p0 + p) (n0 + n) d m get P.
Proof.
  intros L0 B0 (tr & t' & L & B & R). exists (tr0 ++ tr), t'.
  split; [by eapply trace_app|]. split; [exact (bounded_app _ _ _ _ _ _ _ _ B0 B)|].
  destruct m; [done|by apply unreadable_app].
Qed.

Lemma op_sent {A} cmd ok t1 s p n d (m : outcome A) get P :
  t_send (transport d) cmd = (t1, ok) ->
  op s p n (with_transport t1 d) m get (fun tr => P ([Sent cmd ok] ++ tr)) ->
  op (1 + s) p n d m get P.
Proof.
  intros H. apply (op_prefix [Sent cmd ok] 1 0 0); [by apply trace_one|by split; cbn].
Qed.

Lemma op_polled {A} f t1 s p n d (m : outcome A) get P :
  poll_frame (transport d) = (t1, f) ->
  op s p n (with_transport t1 d) m get (fun tr => P ([Polled f] ++ tr)) ->
  op s (1 + p) n d m get P.
Proof.
  intros H. apply (op_prefix [Polled f] 0 1 0); [by apply trace_one|by split; cbn].
Qed.

Lemma op_unreadable {A} f t1 s n d get (P : list event -> A -> Prop) :
  0 <= s -> 0 <= n -> poll_frame (transport d) = (t1, Some f) -> event_of f = Panic ->
  op s 1 n d Panic get P.
Proof.
  intros Hs Hn H E. exists [Polled (Some f)], t1. split; [by apply trace_one|].
  split; [eapply (bounded_le 0 1 0); [by split; cbn|lia..]|]. exists [], f. auto.
Qed.

(** What the driver does between link operations leaves the link alone and
    never counts the polls up. *)
Lemma absorb_transport ev d : transport (absorb_event ev d) = transport d.
Proof. by destruct ev. Qed.
Lemma absorb_polls ev d : polls_since_ntf (absorb_event ev d) = 0.
Proof. by destruct ev. Qed.

Lemma ration_absorb ev d d' tr : deactivations tr = 0 -> ration 0 d tr (absorb_event ev d').
Proof. intros H Hd. rewrite absorb_polls, H. lia. Qed.
Lemma ration_same d d' tr : deactivations tr = 0 -> polls_since_ntf d' = polls_since_ntf d ->
  ration 0 d tr d'.
Proof. intros H E Hd. rewrite E, H. lia. Qed.
Lemma ration_reset d d' tr : deactivations tr = 0 -> polls_since_ntf d' = 0 -> ration 0 d tr d'.
Proof. intros H E Hd. rewrite E, H. lia. Qed.

Lemma give_up_spec polls d :
  transport (advance_or_give_up polls d) = transport d /\
  polls_since_ntf (advance_or_give_up polls d) = polls_since_ntf d.
Proof. unfold advance_or_give_up. by destruct (_ <=? _). Qed.
Lemma probe_give_up_spec polls d :
  transport (advance_probe_or_give_up polls d) = transport d /\
  polls_since_ntf (advance_probe_or_give_up polls d) = polls_since_ntf d.
Proof. unfold advance_probe_or_give_up. by destruct (_ <=? _). Qed.

Lemma step_await_rsp_op polls d :
  op 1 1 0 d (step_await_rsp polls d) id (ration 0 d).
Proof.
  unfold step_await_rsp, poll. destruct (poll_frame (transport d)) as [t1 f] eqn:Ep.
  assert (forall d', transport d' = t1 /\ polls_since_ntf d' = polls_since_ntf d ->
    op 1 1 0 d (Ret d') id (ration 0 d)) as Hsame.
  { intros d' [H1 H2]. apply (op_polled f t1 1 0 0); [done|]. apply op_ret; try done.
    by apply ration_same. }
  destruct f as [f|]; [|by apply Hsame, (give_up_spec polls (with_transport t1 d))].
  destruct (is_rsp_to f _).
  - destruct (status_ok f); [by apply Hsame|].
    unfold send. cbn [transport with_transport].
    destruct (t_send t1 RF_DISCOVER_PASSIVE_A) as [t2 ok] eqn:Es.
    apply (op_polled (Some f) t1 1 0 0); [done|].
    apply (op_sent RF_DISCOVER_PASSIVE_A ok t2 0 0 0); [done|].
    apply op_ret; try done. by apply ration_same.
  - destruct (event_of f) as [ev|] eqn:Ee; [|by eapply op_unreadable].
    rewrite bind_ret. destruct ev as [ev|]; [|by apply Hsame, (give_up_spec polls (with_transport t1 d))].
    apply (op_polled (Some f) t1 1 0 0); [done|]. apply op_ret; try done.
    + unfold id. by rewrite absorb_transport.
    + by apply ration_absorb.
Qed.

Lemma step_probe_rsp_op polls d :
  op 1 1 0 d (step_probe_rsp polls d) id (ration 0 d).
Proof.
  unfold step_probe_rsp, poll. destruct (poll_frame (transport d)) as [t1 f] eqn:Ep.
  assert (forall d', transport d' = t1 /\ polls_since_ntf d' = polls_since_ntf d ->
    op 1 1 0 d (Ret d') id (ration 0 d)) as Hsame.
  { intros d' [H1 H2]. apply (op_polled f t1 1 0 0); [done|]. apply op_ret; try done.
    by apply ration_same. }
  destruct f as [f|]; [|by apply Hsame, (probe_give_up_spec polls (with_transport t1 d))].
  destruct (is_rsp_to f _); [by apply Hsame|].
  destruct (event_of f) as [ev|] eqn:Ee; [|by eapply op_unreadable].
  rewrite bind_ret. destruct ev as [ev|]; [|by apply Hsame, (probe_give_up_spec polls (with_transport t1 d))].
  apply (op_polled (Some f) t1 1 0 0); [done|]. apply op_ret; try done.
  - unfold id. by rewrite absorb_transport.
  - by apply ration_absorb.
Qed.

Lemma step_await_ntf_op polls d :
  op 1 1 0 d (Ret (step_await_ntf polls d)) id (ration 0 d).
Proof.
  unfold step_await_ntf. destruct (_ <=? _).
  - set (d1 := if _ <=? _ then _ else _).
    assert (transport d1 = transport d /\ polls_since_ntf d1 = 0) as [Ht Hp].
    { unfold d1. by destruct (_ <=? _). }
    destruct (probe_armed d1); [|apply op_ret; try done; by apply ration_reset].
    unfold send. destruct (t_send (transport d1) _) as [t2 ok] eqn:Es. rewrite Ht in Es.
    apply (op_sent RF_DISCOVER_PASSIVE_A ok t2 0 1 0); [done|].
    apply op_ret; try done; [by destruct ok|]. apply ration_reset; [done|by destruct ok].
  - apply op_ret; try done. by apply ration_same.
Qed.

Lemma step_rearm_op d : op 1 1 0 d (step_rearm d) id (ration 0 d).
Proof.
  unfold step_rearm. destruct (rearm d) as [[polls|polls|polls]|].
  - apply step_await_rsp_op.
  - apply step_await_ntf_op.
  - apply step_probe_rsp_op.
  - apply op_ret; try done. by apply ration_same.
Qed.

(** While a re-arm is in flight the cadence stands still at zero. *)
Definition paced d : Prop := 0 <= polls_since_ntf d /\ (rearm d = None \/ polls_since_ntf d = 0).

Lemma deactivations_nonneg tr : 0 <= deactivations tr.
Proof. apply count_nonneg. Qed.

Lemma rearm_when_due_idle d : polls_since_ntf d = 0 ->
  op 0 0 0 d (Ret (rearm_when_due d)) id (ration 1 d).
Proof.
  intros H0. unfold rearm_when_due. destruct (rearm d) eqn:Er.
  - apply op_ret; try done. intros Hd. unfold id. change (deactivations []) with 0. lia.
  - rewrite H0. cbn [polls_since_ntf with_polls]. destruct (_ <=? _) eqn:E.
    { exfalso. unfold sat_inc32, sat_add32, PARKED_REARM_POLLS, PRESENCE_REARM_POLLS in E.
      destruct (discovery_parked d); cbn in E; lia. }
    apply op_ret; try done. intros Hd. cbn. unfold sat_inc32, sat_add32, u32_max.
    change (deactivations []) with 0. lia.
Qed.

Lemma rearm_when_due_op d : op 1 0 0 d (Ret (rearm_when_due d)) id
  (fun tr d' => ration 1 d tr d' /\ (paced d -> paced d')).
Proof.
  unfold rearm_when_due. destruct (rearm d) eqn:Er.
  - apply op_ret; try done. split; [|done]. intros Hd. unfold id. change (deactivations []) with 0. lia.
  - set (cadence := if discovery_parked d then _ else _).
    assert (8 <= cadence) as Hc by (unfold cadence; by destruct (discovery_parked d)).
    cbn [polls_since_ntf with_polls]. destruct (_ <=? _) eqn:E.
    + unfold send. cbn [transport with_polls].
      destruct (t_send (transport d) RF_DEACTIVATE_DISCOVERY) as [t2 ok] eqn:Es.
      apply (op_sent RF_DEACTIVATE_DISCOVERY ok t2 0 0 0); [done|].
      apply op_ret; try done; [by destruct ok|]. split.
      * intros Hd. change (deactivations _) with 1. unfold sat_inc32, sat_add32 in E.
        destruct ok; cbn [id polls_since_ntf with_rearm with_transport with_polls]; lia.
      * intros _. split; [by destruct ok|right; by destruct ok].
    + apply op_ret; try done. split.
      * intros Hd. cbn. unfold sat_inc32, sat_add32, u32_max. change (deactivations []) with 0. lia.
      * intros [Hp _]. split; [|by left]. cbn. unfold sat_inc32, sat_add32, u32_max. lia.
Qed.

Lemma ration_trans k1 k2 k d d1 d2 tr1 tr2 :
  ration k1 d tr1 d1 -> ration k2 d1 tr2 d2 -> k1 + k2 = k -> ration k d (tr1 ++ tr2) d2.
Proof.
  intros H1 H2 Hk Hd. destruct (H1 Hd) as [Hd1 ?]. destruct (H2 Hd1) as [? ?].
  rewrite deactivations_app. lia.
Qed.

(** The event of a poll, in every state. *)
Lemma event_op d0 k d : ration k d0 [] d ->
  op 0 0 8 d (next_event d) fst (fun tr r => ration k d0 tr r.1 /\
    exists t, r.1 = with_transport t d).
Proof.
  intros Hr. destruct (next_event_op d) as (tr & t' & L & B & R). exists tr, t'. split; [done|].
  split; [done|]. destruct (next_event d) as [[d1 ev]|]; [|done]. cbn [fst] in *.
  destruct R as (Ht & Hs & Hd). split; [done|]. split; [|by exists (transport d1)].
  intros H0. destruct (Hr H0) as [H1 H2]. rewrite Hd. unfold deactivations. rewrite Hs. cbn.
  change (deactivations []) with 0 in H2. lia.
Qed.

(** What a poll makes of the event it read. *)
Definition settle (r : Pn7160Driver T * option TagEvent) : outcome (Pn7160Driver T * bool) :=
  let '(d, ev) := r in
  match ev with
  | Some (Tag n ats) => Ret (latch_tag n ats d, true)
  | Some LinkLost => Ret (clear_tag d, false)
  | None =>
      match last_auto_ats d with
      | Some _ => Ret (d, true)
      | None =>
          let d := rearm_when_due d in
          Ret (d, match last_ntf d with Some _ => true | None => false end)
      end
  end.

Lemma is_card_present_eq d : is_card_present d =
  if active d then
    r ← next_event d;
    let '(d, ev) := r in
    match ev with
    | Some LinkLost => Ret (teardown_on_link_loss d, false)
    | Some (Tag n ats) => Ret (latch_tag n ats d, true)
    | None => Ret (d, true)
    end
  else d ← step_rearm d; r ← next_event d; settle r.
Proof. done. Qed.

Definition polled_ok d (tr : list event) (r : Pn7160Driver T * bool) : Prop :=
  ration 1 d tr r.1 /\ (paced d -> paced r.1).

Lemma polled_reset d d' tr b : deactivations tr = 0 -> polls_since_ntf d' = 0 ->
  polled_ok d tr (d', b).
Proof.
  intros H1 H2. split; [intros Hd; cbn [fst]; rewrite H1, H2; lia|].
  intros _. split; cbn [fst]; [lia|auto].
Qed.

(** [settle] writes only when the cadence is up, never right after a re-arm
    step.  [pre] is what the poll has done before. *)
Lemma settle_op d0 d t ev s pre : 0 <= s ->
  (s = 0 -> polls_since_ntf d = 0) -> ration 0 d0 pre d -> (paced d0 -> paced d) ->
  op s 0 0 (with_transport t d) (settle (with_transport t d, ev)) fst
    (fun tr => polled_ok d0 (pre ++ tr)).
Proof.
  intros Hs0 Hs Hr Hpc. unfold settle.
  assert (forall d' b, polls_since_ntf d' = 0 -> polled_ok d0 (pre ++ []) (d', b)) as Hreset.
  { intros d' b H0. rewrite app_nil_r. split; [|intros _; split; cbn [fst]; [lia|auto]].
    intros Hd. destruct (Hr Hd). cbn [fst]. rewrite H0. lia. }
  destruct ev as [[n ats|]|].
  - apply op_ret; try done. by apply Hreset.
  - apply op_ret; try done. by apply Hreset.
  - cbn [last_auto_ats with_transport]. destruct (last_auto_ats d).
    { apply op_ret; try done. rewrite app_nil_r. split; [|intros H; apply Hpc in H; exact H].
      intros Hd. cbn. destruct (Hr Hd). lia. }
    set (d1 := with_transport t d).
    assert (exists tr t', link (transport d1) tr t' /\ bounded s 0 0 tr /\
      transport (rearm_when_due d1) = t' /\ ration 1 d1 tr (rearm_when_due d1) /\
      (paced d1 -> paced (rearm_when_due d1))) as (tr & t' & L & B & Ht & Hrt & Hp).
    { destruct (decide (s = 0)) as [->|Hne].
      - destruct (rearm_when_due_idle d1 (Hs eq_refl)) as (tr & t' & L & B & Ht & Hrt).
        destruct (rearm_when_due_op d1) as (_ & _ & _ & _ & _ & _ & Hp).
        exists tr, t'. by split_and!.
      - destruct (rearm_when_due_op d1) as (tr & t' & L & B & Ht & Hrt & Hp).
        exists tr, t'. split_and!; try done. eapply bounded_le; [exact B|lia..]. }
    exists tr, t'. split; [done|]. split; [done|]. split; [done|]. split.
    + intros Hd. rewrite deactivations_app. destruct (Hr Hd) as [H1 H2].
      destruct (Hrt H1) as [H3 H4]. cbn [polls_since_ntf d1 with_transport] in H4. cbn [fst]. lia.
    + intros H. apply Hp. apply Hpc in H. exact H.
Qed.

Lemma no_sends_deactivations tr : sends tr = [] -> deactivations tr = 0.
Proof. intros H. unfold deactivations. by rewrite H. Qed.

(** A poll with a session open only reads. *)
Lemma active_poll_op d : active d = true -> op 0 0 8 d (is_card_present d) fst (polled_ok d).
Proof.
  intros Ha. rewrite is_card_present_eq, Ha.
  eapply (op_seq 0 0 8 0 0 0); [apply (next_event_op d)| |lia..].
  intros tr [d1 ev] [Hs Hd]. cbn [fst] in Hd. apply no_sends_deactivations in Hs.
  rewrite Hd. destruct ev as [[n ats|]|]; apply op_ret; try done;
    rewrite app_nil_r; try (by apply polled_reset).
  split; [intros Hp; cbn; rewrite Hs; lia|done].
Qed.

(** A poll without a session: [s] writes at its end, behind the re-arm step. *)
Lemma idle_poll_op s1 s d : active d = false -> 0 <= s ->
  op s1 1 0 d (step_rearm d) id (fun tr d1 => ration 0 d tr d1 /\
    (s = 0 -> polls_since_ntf d1 = 0) /\ (paced d -> paced d1)) ->
  op (s1 + s) 1 8 d (is_card_present d) fst (polled_ok d).
Proof.
  intros Ha H0 Hstep. rewrite is_card_present_eq, Ha.
  eapply (op_seq s1 1 0 s 0 8); [exact Hstep| |lia..].
  intros tr1 d1 (Hr1 & Hs1 & Hp1). unfold id.
  eapply (op_seq 0 0 8 s 0 0); [apply (next_event_op d1)| |lia..].
  intros tr2 [d2 ev] [Hs2 Hd2]. cbn [fst] in *. rewrite Hd2. apply no_sends_deactivations in Hs2.
  destruct (settle_op d d1 (transport d2) ev s (tr1 ++ tr2)) as (tr & t' & R); try done.
  { intros Hd. destruct (Hr1 Hd). rewrite deactivations_app. lia. }
  exists tr, t'. by rewrite app_assoc.
Qed.

(** In every state a poll writes at most twice, ... *)
Lemma any_poll_op d : (paced d -> False) -> op 2 1 8 d (is_card_present d) fst (polled_ok d).
Proof.
  intros Hn. destruct (active d) eqn:Ha.
  { eapply op_le; [by apply active_poll_op|lia..]. }
  apply (idle_poll_op 1 1); [done|lia|].
  destruct (step_rearm_op d) as (tr & t' & L & B & R). exists tr, t'. split; [done|].
  split; [done|]. destruct (step_rearm d); [|done]. destruct R as [Ht Hr]. by split_and!.
Qed.

(** ... and once while the re-arm is paced. *)
Lemma presence_poll_op d : paced d -> op 1 1 8 d (is_card_present d) fst (polled_ok d).
Proof.
  intros [Hn Hpc]. destruct (active d) eqn:Ha.
  { eapply op_le; [by apply active_poll_op|lia..]. }
  destruct (rearm d) as [ph|] eqn:Er.
  - destruct Hpc as [Hpc|Hpc]; [done|]. apply (idle_poll_op 1 0); [done|lia|].
    destruct (step_rearm_op d) as (tr & t' & L & B & R). exists tr, t'. split; [done|].
    split; [done|]. destruct (step_rearm d) as [d1|]; [|done]. destruct R as [Ht Hr].
    assert (polls_since_ntf d1 = 0) as H0.
    { destruct (Hr Hn) as [? ?]. pose proof (deactivations_nonneg tr). lia. }
    split; [done|]. split; [done|]. split; [done|]. intros _. split; [lia|by right].
  - apply (idle_poll_op 0 1); [done|lia|].
    assert (step_rearm d = Ret d) as -> by (unfold step_rearm; by rewrite Er).
    apply op_ret; try done. split; [by apply ration_same|]. done.
Qed.

(** The maintenance call of an idle server. *)
Lemma maintenance_op now d : op 2 1 8 d (poll_maintenance now d) id (ration 8 d).
Proof.
  unfold poll_maintenance. eapply (op_seq 1 1 0 1 0 8); [apply step_rearm_op| |lia..].
  intros tr1 d1 H1. unfold id. eapply (op_seq 0 0 8 1 0 0); [apply (next_event_op d1)| |lia..].
  intros tr2 [d2 ev] [Hs2 Hd2]. cbn [fst snd] in *. apply no_sends_deactivations in Hs2.
  set (d3 := match ev with Some ev => _ | None => _ end).
  assert (transport d3 = transport d2 /\ (0 <= polls_since_ntf d1 ->
    0 <= polls_since_ntf d3 <= polls_since_ntf d1)) as [Ht3 Hp3].
  { unfold d3. rewrite Hd2. destruct ev as [ev|]; [|cbn; split; [done|lia]].
    rewrite absorb_transport, absorb_polls. split; [done|lia]. }
  assert (forall d4 tr, (deactivations tr <= 1) -> polls_since_ntf d4 = polls_since_ntf d3 ->
    ration 8 d (tr1 ++ tr2 ++ tr) d4) as Hrt.
  { intros d4 tr Ht E Hd. destruct (H1 Hd) as [? ?]. rewrite !deactivations_app, Hs2, E. lia. }
  assert (op 1 0 0 d2 (Ret d3) id (fun tr => ration 8 d (tr1 ++ tr2 ++ tr))) as Hkeep.
  { apply op_ret; try done. by apply Hrt. }
  clearbody d3. destruct (_ || _); [exact Hkeep|]. cbv zeta.
  destruct (match last_rearm_ms d3 with Some last => _ | None => _ end); [|exact Hkeep].
  unfold send. rewrite Ht3. destruct (t_send (transport d2) RF_DEACTIVATE_DISCOVERY) as [t4 ok] eqn:Es.
  apply (op_sent RF_DEACTIVATE_DISCOVERY ok t4 0 0 0); [done|].
  apply op_ret; try done; [by destruct ok|]. apply Hrt; [by vm_compute|by destruct ok].
Qed.

(** ** Any sequence of polls *)
Inductive Poll := Presence | Maintain (now_ms : Z).
Definition is_presence (p : Poll) : bool := match p with Presence => true | _ => false end.

(** The server's calls while no command runs, with the presence answers. *)
Fixpoint polls_run (ps : list Poll) d : outcome (Pn7160Driver T * list bool) :=
  match ps with
  | [] => Ret (d, [])
  | Presence :: ps => r ← is_card_present d; rs ← polls_run ps r.1; Ret (rs.1, r.2 :: rs.2)
  | Maintain now :: ps => d ← poll_maintenance now d; polls_run ps d
  end.

(** What the polls may write of the commands that cycle the field, in eighths. *)
Definition allowance (ps : list Poll) : Z :=
  count is_presence ps + 8 * count (fun p => negb (is_presence p)) ps.

(** The writes of a trace, when every poll is a presence poll of a paced driver. *)
Definition paced_writes (ps : list Poll) d (tr : list event) (n : Z) : Prop :=
  paced d -> forallb is_presence ps = true -> Z.of_nat (length (sends tr)) <= n.

Lemma op_writes {A} s p n s' d (m : outcome A) get (P : list event -> A -> Prop) :
  op s p n d m get P -> s <= s' ->
  exists tr t', link (transport d) tr t' /\ bounded s' p n tr /\ Z.of_nat (length (sends tr)) <= s /\
    match m with Ret a => transport (get a) = t' /\ P tr a | Panic => unreadable tr end.
Proof.
  intros (tr & t' & L & B & R) Hs. exists tr, t'. split; [done|].
  split; [eapply bounded_le; [exact B|lia..]|]. split; [by destruct B|done].
Qed.

Lemma paced_dec d : paced d \/ (paced d -> False).
Proof.
  unfold paced. destruct (Z.le_gt_cases 0 (polls_since_ntf d)); [|right; lia].
  destruct (rearm d) eqn:E; [|left; auto].
  destruct (Z.eq_dec (polls_since_ntf d) 0); [left; auto|right; intros [_ [?|?]]; [done|lia]].
Qed.

(** A presence poll, in whatever state. *)
Lemma one_poll_op d : exists tr t', link (transport d) tr t' /\ bounded 2 1 8 tr /\
  (paced d -> Z.of_nat (length (sends tr)) <= 1) /\
  match is_card_present d with
  | Ret r => transport r.1 = t' /\ polled_ok d tr r
  | Panic => unreadable tr
  end.
Proof.
  destruct (paced_dec d) as [Hp|Hp].
  - destruct (op_writes _ _ _ 2 _ _ _ _ (presence_poll_op d Hp) ltac:(lia)) as (tr & t' & ? & ? & ? & ?).
    by exists tr, t'.
  - destruct (any_poll_op d Hp) as (tr & t' & ? & ? & ?). by exists tr, t'.
Qed.

Lemma polls_run_op ps d : exists tr t', link (transport d) tr t' /\
  bounded (2 * Z.of_nat (length ps)) (Z.of_nat (length ps)) (8 * Z.of_nat (length ps)) tr /\
  paced_writes ps d tr (Z.of_nat (length ps)) /\
  match polls_run ps d with
  | Ret (d', _) => transport d' = t' /\ ration (allowance ps) d tr d' /\
      (paced d -> forallb is_presence ps = true -> paced d')
  | Panic => unreadable tr
  end.
Proof.
  revert d. induction ps as [|p ps IH]; intros d.
  { exists [], (transport d). split; [constructor|]. split; [by apply bounded_nil|].
    split; [by intros _ _|]. cbn. split; [done|]. split; [|done].
    intros ?. change (allowance []) with 0. change (deactivations []) with 0. lia. }
  destruct p as [|now]; cbn [polls_run].
  - destruct (one_poll_op d) as (tr & t1 & L & B & Hw & R).
    destruct (is_card_present d) as [[d1 b]|]; cycle 1.
    { exists tr, t1. split; [done|]. split; [eapply bounded_le; [exact B|cbn [length]; lia..]|].
      split; [intros Hd _; specialize (Hw Hd); cbn [length]; lia|done]. }
    destruct R as (<- & Hr & Hp). rewrite bind_ret. cbn [fst] in *.
    destruct (IH d1) as (tr2 & t2 & L2 & B2 & Hw2 & R2). exists (tr ++ tr2), t2.
    split; [by eapply trace_app|].
    split; [eapply bounded_le; [exact (bounded_app _ _ _ _ _ _ _ _ B B2)|cbn [length]; lia..]|].
    split. { intros Hd Hall. rewrite sends_app, length_app. specialize (Hw Hd).
      specialize (Hw2 (Hp Hd) Hall). cbn [length]. lia. }
    destruct (polls_run ps d1) as [[d2 bs]|]; [|by apply unreadable_app].
    destruct R2 as (<- & Hr2 & Hp2). rewrite bind_ret. cbn [fst snd]. split; [done|]. split.
    + eapply ration_trans; [exact Hr|exact Hr2|]. unfold allowance. cbn [count is_presence negb]. lia.
    + intros Hd Hall. by apply Hp2; [apply Hp|].
  - destruct (maintenance_op now d) as (tr & t1 & L & B & R).
    destruct (poll_maintenance now d) as [d1|]; cycle 1.
    { exists tr, t1. split; [done|]. split; [eapply bounded_le; [exact B|cbn [length]; lia..]|].
      split; [by intros _|done]. }
    destruct R as (<- & Hr). rewrite bind_ret. unfold id.
    destruct (IH d1) as (tr2 & t2 & L2 & B2 & _ & R2). exists (tr ++ tr2), t2.
    split; [by eapply trace_app|].
    split; [eapply bounded_le; [exact (bounded_app _ _ _ _ _ _ _ _ B B2)|cbn [length]; lia..]|].
    split; [by intros _|].
    destruct (polls_run ps d1) as [[d2 bs]|]; [|by apply unreadable_app].
    destruct R2 as (<- & Hr2 & _). split; [done|]. split; [|done].
    eapply ration_trans; [exact Hr|exact Hr2|]. unfold allowance. cbn [count is_presence negb]. lia.
Qed.

(** A series of presence polls. *)
Fixpoint presence_polls (n : nat) d : outcome (Pn7160Driver T * list bool) :=
  match n with
  | O => Ret (d, [])
  | S n => r ← is_card_present d; rs ← presence_polls n r.1; Ret (rs.1, r.2 :: rs.2)
  end.
End Driver.

(** C30: polling neither stalls the reader nor wears out the controller.  In
    every state of the driver (its poll counter is a natural number), for any
    sequence of presence polls and maintenance calls and whatever the
    controller answers: each of them writes at most twice, polls the link at
    most once, reads at most eight pending notifications and never waits for a
    response.  The writes that cycle the RF field are at most one per
    maintenance call and one in eight presence polls, counting the polls
    already made.  While the driver is paced (no re-arm in flight, or its poll
    counter at zero) a run of presence polls writes at most once per poll and
    leaves it paced; a maintenance call may end that
    ([maintenance_doubles_write]).  The only panic is on a notification the
    reader cannot read. *)
Theorem presence_polls_bounded {T} `{!Transport T} ps (d : Pn7160Driver T) :
  0 <= polls_since_ntf d ->
  let n := Z.of_nat (length ps) in
  exists tr t', link (transport d) tr t' /\
    Z.of_nat (length (sends tr)) <= 2 * n /\ polls tr <= n /\
    drains tr <= 8 * n /\ blocking tr = 0 /\
    (paced d -> forallb is_presence ps = true -> Z.of_nat (length (sends tr)) <= n) /\
    match polls_run ps d with
    | Ret (d', _) => transport d' = t' /\ 0 <= polls_since_ntf d' /\
        8 * deactivations tr <= count is_presence ps +
          8 * count (fun p => negb (is_presence p)) ps + polls_since_ntf d /\
        (paced d -> forallb is_presence ps = true -> paced d')
    | Panic => unreadable tr
    end.
Proof.
  intros Hd n. destruct (polls_run_op ps d) as (tr & t' & L & [H1 H2 H3 H4] & Hw & R).
  exists tr, t'. split_and!; try done. destruct (polls_run ps d) as [[d' bs]|]; [|done].
  destruct R as (Ht & Hr & Hp). destruct (Hr Hd) as [? ?]. unfold allowance in *.
  split; [done|]. split; [done|]. split; [lia|done].
Qed.

(** ** An idle reader notices that the card has left *)
(** What the driver relies on of a controller whose field is empty: every write
    is taken, a response confirms the last command and comes no later than the
    next poll of the link, and no other frame is an event. *)
Class EmptyField (T : Type) `{!Transport T} := {
  empty_field : option (list Z) -> T -> Prop;
  empty_send p t cmd : empty_field p t -> (2 <= length cmd)%nat ->
    (t_send t cmd).2 = true /\ empty_field (Some cmd) (t_send t cmd).1;
  empty_poll p t : empty_field p t ->
    empty_field None (poll_frame t).1 /\
    match p, (poll_frame t).2 with
    | Some cmd, Some f => is_rsp_to f cmd = true /\ status f = Some STATUS_OK
    | Some _, None => False
    | None, Some f => event_of f = Ret None
    | None, None => True
    end;
  empty_drain p t : empty_field p t ->
    empty_field p (drain t).1 /\
    match (drain t).2 with Some f => event_of f = Ret None | None => True end
}.

Section EmptyField.
Context {T : Type} `{!Transport T, !EmptyField T}.
Implicit Types (t : T) (d : Pn7160Driver T).

(** The command whose response is still to come. *)
Definition awaited (r : option RearmPhase) : option (list Z) :=
  match r with
  | Some (AwaitRsp _) => Some RF_DEACTIVATE_DISCOVERY
  | Some (DiscoverProbeRsp _) => Some RF_DISCOVER_PASSIVE_A
  | _ => None
  end.

(** The idle driver over an empty field. *)
Record idle d : Prop := {
  i_active : active d = false;
  i_ats : last_auto_ats d = None;
  i_field : empty_field (awaited (rearm d)) (transport d)
}.

Lemma empty_events n p t : empty_field p t ->
  exists t', wait_for_event_rounds n t = Ret (t', None) /\ empty_field p t'.
Proof.
  revert t. induction n as [|n IH]; intros t H; [by exists t|].
  cbn [wait_for_event_rounds]. destruct (empty_drain p t H) as [H1 H2].
  destruct (drain t) as [t1 [f|]]; cbn [fst snd] in *; [|by exists t1].
  rewrite H2, bind_ret. apply IH, H1.
Qed.

(** The abstract presence machine: what is left of the driver's state. *)
Record view := mkView {
  v_shown : bool; (* a tag is latched *)
  v_polls : Z;
  v_absent : Z;
  v_rearm : option RearmPhase;
  v_probe : bool;
  v_parked : bool
}.
Definition view_of d : view :=
  mkView (match last_ntf d with Some _ => true | None => false end) (polls_since_ntf d)
    (absent_rearms d) (rearm d) (probe_armed d) (discovery_parked d).

Definition step_view (v : view) : view :=
  match v_rearm v with
  | None => v
  | Some (AwaitRsp _) | Some (DiscoverProbeRsp _) =>
      mkView (v_shown v) (v_polls v) (v_absent v) (Some (AwaitNtf 0)) (v_probe v) (v_parked v)
  | Some (AwaitNtf n) =>
      if REARM_NTF_POLLS <=? n + 1 then
        let a := sat_inc8 (v_absent v) in
        let v := if ABSENT_REARMS_TO_CLEAR <=? a
                 then mkView false 0 0 None (v_probe v) true
                 else mkView (v_shown v) 0 a None (v_probe v) (v_parked v) in
        if v_probe v
        then mkView (v_shown v) 0 (v_absent v) (Some (DiscoverProbeRsp 0)) false (v_parked v)
        else v
      else mkView (v_shown v) (v_polls v) (v_absent v) (Some (AwaitNtf (n + 1))) (v_probe v) (v_parked v)
  end.
Definition due_view (v : view) : view :=
  match v_rearm v with
  | Some _ => v
  | None =>
      let p := sat_inc32 (v_polls v) in
      if (if v_parked v then PARKED_REARM_POLLS else PRESENCE_REARM_POLLS) <=? p
      then mkView (v_shown v) 0 (v_absent v) (Some (AwaitRsp 0)) (v_probe v) (v_parked v)
      else mkView (v_shown v) p (v_absent v) None (v_probe v) (v_parked v)
  end.
Definition poll_view (v : view) : view := due_view (step_view v).

Lemma step_rearm_view d : idle d ->
  exists d', step_rearm d = Ret d' /\ idle d' /\ view_of d' = step_view (view_of d).
Proof.
  intros [Ha Hs Hf]. unfold step_rearm, view_of, step_view. cbn [v_rearm v_polls v_absent v_shown v_probe v_parked].
  destruct (rearm d) as [[n|n|n]|] eqn:Er; cbn [awaited] in Hf.
  - unfold step_await_rsp, poll. destruct (empty_poll _ _ Hf) as [H1 H2].
    destruct (poll_frame (transport d)) as [t1 [f|]]; [|done]. cbn [fst snd] in *.
    destruct H2 as [-> Hst]. unfold status_ok. rewrite Hst. cbn [bool_decide].
    eexists. split; [reflexivity|]. split; [|done]. by split.
  - unfold step_await_ntf. destruct (REARM_NTF_POLLS <=? n + 1) eqn:En.
    + eexists. split; [reflexivity|]. unfold send.
      destruct (empty_send _ (transport d) RF_DISCOVER_PASSIVE_A Hf ltac:(cbn; lia)) as [H1 H2].
      destruct (t_send (transport d) RF_DISCOVER_PASSIVE_A) as [t1 ok] eqn:Es. cbn [fst snd] in *.
      rewrite H1 in Es. clear H1 ok.
      cbn [absent_rearms with_absent with_polls with_rearm].
      destruct (ABSENT_REARMS_TO_CLEAR <=? sat_inc8 (absent_rearms d));
        cbn [probe_armed with_parked with_absent with_auto_ats with_last_ntf with_polls with_rearm transport];
        destruct (probe_armed d) eqn:Ep; rewrite ?Es; split; try (by split);
        cbn [with_parked with_absent with_auto_ats with_last_ntf with_polls with_rearm with_probe
          with_transport last_ntf polls_since_ntf absent_rearms rearm probe_armed discovery_parked
          v_probe v_shown v_absent v_parked]; by rewrite ?Ep.
    + eexists. split; [reflexivity|]. split; [|done]. by split.
  - unfold step_probe_rsp, poll. destruct (empty_poll _ _ Hf) as [H1 H2].
    destruct (poll_frame (transport d)) as [t1 [f|]]; [|done]. cbn [fst snd] in *.
    destruct H2 as [-> Hst]. unfold status_ok. rewrite Hst.
    eexists. split; [reflexivity|]. split; [|done]. by split.
  - exists d. split; [done|]. split; [|by rewrite Er]. split; [done|done|by rewrite Er].
Qed.

Lemma rearm_when_due_view d : idle d ->
  idle (rearm_when_due d) /\ view_of (rearm_when_due d) = due_view (view_of d).
Proof.
  intros [Ha Hs Hf]. unfold rearm_when_due, due_view, view_of. cbn [v_rearm v_polls v_parked].
  destruct (rearm d) as [ph|] eqn:Er.
  { split; [|by rewrite Er]. split; [done|done|by rewrite Er]. }
  cbn [polls_since_ntf with_polls].
  destruct ((if discovery_parked d then PARKED_REARM_POLLS else PRESENCE_REARM_POLLS) <=?
            sat_inc32 (polls_since_ntf d)).
  - unfold send. cbn [transport with_polls].
    destruct (empty_send _ (transport d) RF_DEACTIVATE_DISCOVERY Hf ltac:(cbn; lia)) as [H1 H2].
    destruct (t_send (transport d) RF_DEACTIVATE_DISCOVERY) as [t1 ok]. cbn [fst snd] in *.
    rewrite H1. split; [|done]. by split.
  - split; [|cbn; by rewrite Er]. split; [done|done|]. cbn. by rewrite Er.
Qed.

(** A poll of the idle driver over an empty field is a step of the machine. *)
Lemma idle_poll d : idle d ->
  exists d', is_card_present d = Ret (d', v_shown (poll_view (view_of d))) /\
    idle d' /\ view_of d' = poll_view (view_of d).
Proof.
  intros Hd. rewrite is_card_present_eq, (i_active d Hd).
  destruct (step_rearm_view d Hd) as (d1 & -> & Hd1 & Hv1). rewrite bind_ret.
  unfold next_event, wait_for_event.
  destruct (empty_events 8 _ _ (i_field d1 Hd1)) as (t' & -> & Ht'). rewrite !bind_ret.
  cbn [fst snd settle last_auto_ats with_transport]. rewrite (i_ats d1 Hd1).
  destruct (rearm_when_due_view (with_transport t' d1)) as [Hd2 Hv2].
  { destruct Hd1. by split. }
  eexists. split; [|split; [exact Hd2|]].
  - do 2 f_equal. change (match last_ntf ?d with Some _ => true | None => false end) with
      (v_shown (view_of d)). rewrite Hv2. unfold poll_view. rewrite <- Hv1. done.
  - rewrite Hv2. unfold poll_view. by rewrite <- Hv1.
Qed.

Fixpoint shown (n : nat) (v : view) : list bool :=
  match n with O => [] | S n => v_shown (poll_view v) :: shown n (poll_view v) end.

Lemma idle_polls n d : idle d ->
  exists d', presence_polls n d = Ret (d', shown n (view_of d)) /\ idle d'.
Proof.
  revert d. induction n as [|n IH]; intros d Hd; [by exists d|].
  cbn [presence_polls shown]. destruct (idle_poll d Hd) as (d1 & -> & Hd1 & Hv). rewrite bind_ret.
  cbn [fst snd]. destruct (IH d1 Hd1) as (d2 & -> & Hd2). rewrite bind_ret. exists d2.
  cbn [fst snd]. by rewrite Hv.
Qed.

(** Nothing brings a forgotten tag back but an event. *)
Lemma forgotten_stays n v : v_shown v = false -> shown n v = replicate n false.
Proof.
  revert v. induction n as [|n IH]; intros v Hv; [done|]. cbn [shown replicate].
  assert (v_shown (poll_view v) = false) as H.
  { unfold poll_view, due_view, step_view. destruct v as [s p a r pr pk]. cbn in Hv. subst s.
    cbn [v_rearm v_shown v_polls v_absent v_probe v_parked].
    destruct r as [[k|k|k]|]; repeat (cbn [v_rearm v_shown v_polls v_absent v_probe v_parked];
      match goal with
      | |- context [if ?b then _ else _] => lazymatch b with context [if _ then _ else _] => fail | _ => destruct b end
      end); done. }
  by rewrite H, IH.
Qed.

Lemma shown_app m n v : shown (m + n) v = shown m v ++ shown n (Nat.iter m poll_view v).
Proof.
  revert v. induction m as [|m IH]; intros v; [done|]. cbn [shown Nat.add app].
  rewrite IH. by rewrite Nat.iter_succ_r.
Qed.
End EmptyField.

(** A controller that keeps the contract: it confirms every command. *)
Definition Prompt : Type := option (list Z).
Definition confirmation (cmd : list Z) : Frame :=
  mkFrame MT_RSP (Z.land (nth 0 cmd 0) 0x0F) (nth 1 cmd 0) false (padded [STATUS_OK]) 1.
#[export] Instance prompt_transport : Transport Prompt := {
  t_send _ cmd := (Some cmd, true);
  poll_frame p := (None, option_map confirmation p);
  transact _ cmd := (None, Some (confirmation cmd));
  drain p := (p, None);
  wait_ms p _ := p;
  link_probe p := (p, true)
}.
#[export] Instance prompt_empty : EmptyField Prompt.
Proof.
  refine {| empty_field p (t : Prompt) := p = t /\
    match t with Some cmd => (2 <= length cmd)%nat | None => True end |}.
  - intros p t cmd _ H. by cbn.
  - intros p t [-> H]. split; [done|]. destruct t as [cmd|]; [|done].
    cbn [poll_frame prompt_transport option_map fst snd].
    destruct cmd as [|c0 [|c1 cmd]]; [cbn in H; lia..|].
    split; [|done]. unfold is_rsp_to, confirmation. cbn [mt gid oid nth]. lia.
  - intros p t H. by cbn.
Defined.

(** The driver right after a tag was latched that was not activated: the
    state [latch_tag] leaves. *)
Definition latched {T} (d : Pn7160Driver T) : Prop :=
  active d = false /\ last_auto_ats d = None /\ (exists n, last_ntf d = Some n) /\
  polls_since_ntf d = 0 /\ absent_rearms d = 0 /\ rearm d = None /\
  probe_armed d = true /\ discovery_parked d = false.

(** A card that leaves an idle reader is noticed.  After a tag was latched
    and the field is empty, over any controller that confirms the commands it
    gets, the first thirteen presence polls still report the tag, the
    fourteenth reports it gone, and so does every later one, however many
    there are: two re-arms, the second one probed, without a notification. *)
Theorem removal_noticed {T} `{!Transport T, !EmptyField T} n (d : Pn7160Driver T) :
  latched d -> empty_field None (transport d) ->
  exists d', presence_polls (14 + n) d =
    Ret (d', replicate 13 true ++ false :: replicate n false).
Proof.
  intros (Ha & Hs & [ntf Hn] & Hp & Hab & Hr & Hpr & Hpk) Hf.
  assert (idle d) as Hi by (split; [done|done|by rewrite Hr]).
  assert (view_of d = mkView true 0 0 None true false) as Hv.
  { unfold view_of. by rewrite Hn, Hp, Hab, Hr, Hpr, Hpk. }
  destruct (idle_polls (14 + n) d Hi) as (d' & E & _).
  exists d'. rewrite E, Hv, shown_app, (forgotten_stays n) by reflexivity. reflexivity.
Qed.

Example removal_noticed_witness :
  let d := latch_tag (mkNtf 1 4 0 2 [] 0) None (new (None : Prompt)) in
  exists d', presence_polls (14 + 100) d =
    Ret (d', replicate 13 true ++ false :: replicate 100 false).
Proof.
  intros d. apply (removal_noticed 100 d); [|by cbn].
  split_and!; try done. by eexists.
Defined.

Example presence_polls_bounded_witness :
  let d := latch_tag (mkNtf 1 4 0 2 [] 0) None (new (None : Prompt)) in
  let ps := replicate 50 Presence ++ Maintain 0 :: replicate 49 Presence in
  exists tr t', link (transport d) tr t' /\ blocking tr = 0 /\ polls tr <= 100 /\ deactivations tr <= 13.
Proof.
  intros d ps. destruct (presence_polls_bounded ps d) as (tr & t' & H1 & _ & H2 & _ & H3 & _ & H4); [done|].
  exists tr, t'. split; [done|]. split; [done|]. split; [exact H2|].
  destruct (polls_run ps d) as [[d' bs]|] eqn:E; [|vm_compute in E; discriminate].
  destruct H4 as (_ & H0 & H4 & _). cbn in H4. lia.
Defined.

(** A controller that takes one write, refuses what it asks and then takes no
    other; the writes are counted. *)
Record Failing := mkFailing { writes : nat }.
#[export] Instance failing_transport : Transport Failing := {
  t_send f _ := (mkFailing (S (writes f)), (writes f =? 0)%nat);
  poll_frame f := (f, decode [0x41; 0x06; 0x01; 0x03]);
  transact f _ := (f, None);
  drain f := (f, None);
  wait_ms f _ := f;
  link_probe f := (f, true)
}.

(** A maintenance call ends the pacing of a parked driver: it re-arms while the
    cadence is one poll from its end; when that re-arm is refused and the probe
    behind it does not go out, a presence poll writes twice. *)
Example maintenance_doubles_write :
  let parked := with_polls 31 (with_parked true (new (mkFailing 0))) in
  paced parked /\ exists d d' b, poll_maintenance 60000 parked = Ret d /\ is_card_present d = Ret (d', b) /\
    writes (transport d) = 1%nat /\ writes (transport d') = 3%nat.
Proof.
  intros parked. split; [by split; [|left]|]. eexists _, _, _.
  split; [vm_compute; reflexivity|]. split; [vm_compute; reflexivity|]. done.
Qed.

(** ** Sessions *)
(** Operations that never panic: from the driver's link to the new one. *)
Section Runs.
Context {T : Type} `{!Transport T}.
Implicit Types t : T.

Definition runs {A} t (r : T * A) (P : list event -> A -> Prop) : Prop :=
  exists tr, link t tr r.1 /\ P tr r.2.

Lemma runs_bind {A B} t (r : T * A) P (k : T -> A -> T * B) Q :
  runs t r P ->
  (forall tr t' a, P tr a -> runs t' (k t' a) (fun tr' => Q (tr ++ tr'))) ->
  runs t (k r.1 r.2) Q.
Proof.
  intros (tr & L & H) Hk. destruct r as [t1 a]. destruct (Hk tr t1 a H) as (tr2 & L2 & H2).
  exists (tr ++ tr2). split; [by eapply trace_app|done].
Qed.

Lemma runs_event {A} t e t1 (r : T * A) Q : stepped t e t1 ->
  runs t1 r (fun tr => Q (e :: tr)) -> runs t r Q.
Proof. intros H (tr & L & HQ). exists (e :: tr). split; [by econstructor|done]. Qed.

Lemma runs_mono {A} t (r : T * A) (P Q : list event -> A -> Prop) :
  runs t r P -> (forall tr, P tr r.2 -> Q tr r.2) -> runs t r Q.
Proof. intros (tr & L & H) HPQ. exists tr. auto. Qed.

(** The command is among the writes. *)
Definition wrote (cmd : list Z) (tr : list (@event)) : Prop := cmd ∈ sends tr.

Lemma wrote_cons cmd e tr : wrote cmd tr -> wrote cmd (e :: tr).
Proof.
  unfold wrote. change (e :: tr) with ([e] ++ tr). rewrite sends_app, elem_of_app. auto.
Qed.
Lemma wrote_app cmd a b : wrote cmd a \/ wrote cmd b -> wrote cmd (a ++ b).
Proof. unfold wrote. by rewrite sends_app, elem_of_app. Qed.

Lemma strict_rounds_runs cmd n first t :
  runs t (strict_rounds cmd n first t) (fun _ _ => True).
Proof.
  revert first t. induction n as [|n IH]; intros first t; [by exists []; split; [constructor|]|].
  cbn [strict_rounds].
  assert (forall t, runs t (let '(t, f) := poll_frame t in
    match f with
    | Some f => if is_rsp_to f cmd then (t, Ok f) else strict_rounds cmd n false t
    | None => strict_rounds cmd n false t
    end) (fun _ _ => True)) as H.
  { intros t2. destruct (poll_frame t2) as [t1 f] eqn:E.
    eapply (runs_event t2 (Polled f)); [exact E|]. destruct f as [f|]; [|apply IH].
    destruct (is_rsp_to f cmd); [|apply IH]. exists []. by split; [constructor|]. }
  destruct first; [apply H|]. by eapply (runs_event t (Waited STRICT_RSP_WAIT_MS)); [done|apply H].
Qed.

Lemma transact_strict_runs cmd t :
  runs t (transact_strict t cmd) (fun tr _ => wrote cmd tr).
Proof.
  unfold transact_strict. destruct (t_send t cmd) as [t1 ok] eqn:E.
  eapply (runs_event t (Sent cmd ok)); [exact E|].
  assert (forall tr, wrote cmd (Sent cmd ok :: tr)) as Hw by (intros tr; apply list_elem_of_here).
  destruct ok; cbn [negb].
  - eapply runs_mono; [apply strict_rounds_runs|auto].
  - exists []. split; [constructor|apply Hw].
Qed.

Lemma strict_ok_runs cmd none refused t :
  runs t (strict_ok t cmd none refused) (fun tr _ => wrote cmd tr).
Proof.
  unfold strict_ok. destruct (transact_strict_runs cmd t) as (tr & L & H).
  exists tr. destruct (transact_strict t cmd) as [t1 [rsp|e]]; [|done].
  by destruct (negb _).
Qed.

Lemma drain_rounds_runs n k t : runs t (drain_rounds n k t) (fun _ _ => True).
Proof.
  revert k t. induction n as [|n IH]; intros k t; [by exists []; split; [constructor|]|].
  cbn [drain_rounds]. destruct (drain t) as [t1 f] eqn:E.
  eapply (runs_event t (Drained f)); [exact E|]. destruct f; [apply IH|].
  exists []. by split; [constructor|].
Qed.
Lemma drain_link_runs t : runs t (drain_link t) (fun _ _ => True).
Proof. apply drain_rounds_runs. Qed.

Lemma settle_beats_runs n t : exists tr, link t tr (settle_beats n t).
Proof.
  revert t. induction n as [|n IH]; intros t; [by exists []; constructor|]. cbn [settle_beats].
  destruct (drain_link_runs t) as (tr1 & L1 & _). set (t1 := wait_ms _ _).
  destruct (drain_link_runs t1) as (tr2 & L2 & _).
  assert (link t (tr1 ++ [Waited DATA_COLLECT_WAIT_MS] ++ tr2) (drain_link t1).1) as L.
  { eapply trace_app; [exact L1|]. eapply trace_app; [by apply trace_one|exact L2]. }
  destruct (drain_link t1) as [t2 k]. destruct (k =? 0)%nat; [by eexists|].
  destruct (IH t2) as [tr3 L3]. eexists. by eapply trace_app.
Qed.

Lemma to_discovery_runs t :
  runs t (deactivate_to_discovery t) (fun tr _ => wrote RF_DEACTIVATE_DISCOVERY tr).
Proof.
  unfold deactivate_to_discovery.
  destruct (strict_ok_runs RF_DEACTIVATE_DISCOVERY "no deactivate response"
    "deactivate status != OK" t) as (tr & L & H).
  destruct (strict_ok t _ _ _) as [t1 [|e]]; [|by exists tr].
  destruct (drain_link_runs t1) as (tr2 & L2 & _). exists (tr ++ tr2).
  split; [by eapply trace_app|]. apply wrote_app. auto.
Qed.

(** The resynchronisation after a timeout. *)
Lemma resync_runs (d : Pn7160Driver T) : exists tr,
  link (transport d) tr (transport (resync d)) /\ wrote RF_DEACTIVATE_DISCOVERY tr /\
  active (resync d) = false /\ uid_len (resync d) = 0%nat /\
  last_ntf (resync d) = None /\ last_auto_ats (resync d) = None /\
  wtx_last (resync d) = wtx_last d /\ wtx_total (resync d) = wtx_total d.
Proof.
  unfold resync, to_discovery. destruct (to_discovery_runs (transport d)) as (tr & L & H).
  destruct (deactivate_to_discovery (transport d)) as [t1 r]. cbn [fst snd] in *.
  set (d1 := if is_ok r then _ else _).
  assert (exists tr1, link t1 tr1 (transport d1) /\ wtx_last d1 = wtx_last d /\
    wtx_total d1 = wtx_total d) as (tr1 & L1 & Hw1 & Hw2).
  { unfold d1. destruct (is_ok r); [by exists []; split; [constructor|]|].
    unfold discover. cbn [transport with_transport].
    destruct (strict_ok_runs RF_DISCOVER_PASSIVE_A "no discover response"
      "discover status != OK" t1) as (tr1 & L1 & _).
    exists tr1. unfold restart_discovery. by destruct (strict_ok t1 _ _ _). }
  destruct (settle_beats_runs SETTLE_MAX_BEATS (transport d1)) as [tr2 L2].
  exists (tr ++ tr1 ++ tr2). split; [|split].
  - eapply trace_app; [exact L|]. eapply trace_app; [exact L1|exact L2].
  - apply wrote_app. auto.
  - by split_and!.
Qed.
End Runs.

(** An answer was received: the whole command went out, and what came back on
    connection 0 behind its last packet is [v]. *)
Definition answered (cmd v : list Z) (tr : list event) : Prop :=
  sends tr = command_packets 0 cmd /\ exists tr2, answer_part tr tr2 /\
    v = concat (map body (answers 0 tr2)) /\ (length v <= 1024)%nat /\ chained (answers 0 tr2).

(** The session is over and no tag is shown any more. *)
Definition session_closed {T} (d : Pn7160Driver T) : Prop :=
  active d = false /\ card_uid d = [] /\ last_ntf d = None /\ last_auto_ats d = None.

(** An APDU over an active session.  The caller's buffer keeps its length.
    On success its first bytes are exactly the answer of the card to the whole
    command, nothing else in it changes, and the session stays active; an
    answer that does not fit leaves the buffer alone and the session active;
    every other failure leaves the buffer alone, closes the session and
    forgets the tag, and was a lost link, an answer without a byte, or a
    timeout after which the link was resynchronised with a deactivation.  The
    WTX advisories are added to the driver's total, which saturates. *)
Theorem session_exchange {T} `{!Transport T} cmd buf (d : Pn7160Driver T) :
  active d = true ->
  exists tr tr' t', link (transport d) (tr ++ tr') t' /\
    flow_controlled tr /\
    match transmit_apdu cmd buf d with
    | Panic => panicked tr
    | Ret (d', buf', r, _) =>
        transport d' = t' /\ wtx_last d' mod 2 ^ 32 = advisories tr mod 2 ^ 32 /\
        wtx_total d' = sat_add32 (wtx_total d) (wtx_last d') /\
        match r with
        | Ok n => tr' = [] /\ active d' = true /\ (0 < n <= length buf)%nat /\
            answered cmd (take n buf') tr /\ drop n buf' = drop n buf
        | Err BufferTooSmall => tr' = [] /\ active d' = true /\ buf' = buf /\
            exists v, answered cmd v tr /\ (length buf < length v)%nat
        | Err ExchangeFailed => session_closed d' /\ buf' = buf /\
            (tr' = [] /\ (lost tr \/ answered cmd [] tr) \/ wrote RF_DEACTIVATE_DISCOVERY tr')
        | Err _ => False
        end
    end.
Proof.
  intros Ha. unfold transmit_apdu. rewrite Ha. cbn [negb].
  destruct (fragments_ok cmd) as (_ & Hne & Hl).
  destruct (send_fragments_spec 0 (stall_hook d) (fragments_of cmd) DATA_COLLECT_ROUNDS
    Collect_new (transport d) Hne) as (tr & t' & L & _ & Hflow & _ & _ & _ & R).
  { eapply Forall_impl; [exact Hl|]. unfold MAX_DATA_FRAGMENT. cbn. lia. }
  exists tr. unfold exchange_detailed.
  destruct (send_fragments 0 (stall_hook d) (fragments_of cmd) DATA_COLLECT_ROUNDS Collect_new
    (transport d)) as [[[[t1 c] o] arrival]|]; cycle 1.
  { exists [], t'. by rewrite app_nil_r. }
  rewrite bind_ret. destruct R as (-> & Hw & Ho). change (wtx Collect_new) with 0 in Hw.
  set (d1 := with_wtx _ _ _ _). destruct o as [v| |].
  - assert (answered cmd v tr) as Hv by exact (proj2 Ho). clear Ho.
    exists [], t'. rewrite app_nil_r. split; [done|]. split; [done|].
    destruct v as [|x v].
    { rewrite bind_ret. split_and!; try done. auto. }
    destruct (length buf <? length (x :: v))%nat eqn:El.
    { rewrite bind_ret. split_and!; try done. eexists. split; [exact Hv|lia]. }
    rewrite copy_at_ok by (cbn in *; lia). rewrite !bind_ret. split_and!; try done; [cbn; lia|cbn in *; lia| |].
    + change (take 0 buf) with (@nil Z). rewrite app_nil_l, (take_app_length' (x :: v)) by done. exact Hv.
    + change (take 0 buf) with (@nil Z). by rewrite app_nil_l, (drop_app_length' (x :: v)).
  - rewrite bind_ret. destruct (resync_runs d1) as (tr2 & L2 & Hwr & H1 & H2 & H3 & H4 & H5 & H6).
    exists tr2, (transport (resync d1)). split; [by eapply trace_app|]. split; [done|].
    split; [done|]. rewrite H5, H6. split; [done|]. split; [done|].
    split; [|auto]. unfold session_closed, card_uid. rewrite H2. by split_and!.
  - exists [], t'. rewrite app_nil_r, bind_ret. split_and!; try done. auto.
Qed.

Definition scripted_session : Pn7160Driver MockTransport :=
  with_active true (new (push_reply [0; 0; 2; 0x90; 0] MockTransport_new)).

Example session_exchange_witness :
  active scripted_session = true /\
  (exists d', transmit_apdu [0; 0xB0; 0; 0; 2] (replicate 4 0xFF) scripted_session =
     Ret (d', [0x90; 0; 0xFF; 0xFF], Ok 2%nat, [])) /\
  exists tr, answered [0; 0xB0; 0; 0; 2] [0x90; 0] tr.
Proof.
  split; [done|]. split; [eexists; vm_compute; reflexivity|].
  destruct (session_exchange [0; 0xB0; 0; 0; 2] (replicate 4 0xFF) scripted_session eq_refl)
    as (tr & tr' & t' & _ & _ & R).
  exists tr. revert R.
  assert (exists d', transmit_apdu [0; 0xB0; 0; 0; 2] (replicate 4 0xFF) scripted_session =
     Ret (d', [0x90; 0; 0xFF; 0xFF], Ok 2%nat, [])) as [d' ->] by (eexists; vm_compute; reflexivity).
  intros (_ & _ & _ & _ & _ & _ & H & _). exact H.
Defined.
