(* ===== verification/NciReaderSpec.v ===== *)
(** * The reader over a readable link: theorems

    About [NciDriver.v], over a link that delivers only frames the reader can
    take ([ReadableLink]): no operation of the driver panics and every one keeps
    the driver well formed; what a power-on returns. *)
From Stdlib Require Import ZArith Lia ZifyBool.
From stdpp Require Import prelude strings.
From S2P Require Import Prelude Atr CardInterface Nci NciSpec NciDriver NciDriverSpec.
Import Nci Pn7160.
Local Open Scope Z_scope.

(** ** What the link delivers *)
(** A frame the reader can take: well formed, and neither reading it as a
    notification nor reading the UID of the tag it announces runs past an
    array. *)
Definition readable (f : Frame) : Prop :=
  exists ev, event_of f = Ret ev /\
    match ev with Some (Tag n _) => exists u, nfca_uid n = Ret u | _ => True end.
Definition heard (f : Frame) : Prop := frame_ok f /\ readable f.
Definition event_heard (e : event) : Prop :=
  match e with
  | Polled (Some f) | Drained (Some f) | Asked _ (Some f) => heard f
  | _ => True
  end.

(** A link that delivers only such frames, with its invariant. *)
Class ReadableLink (T : Type) `{!Transport T} := {
  link_ok : T -> Prop;
  link_ok_step t e t' : link_ok t -> stepped t e t' -> link_ok t' /\ event_heard e
}.

(** The tag of a notification, and an event with its ATS. *)
Definition tag_ok (n : DiscoverNtf) : Prop := bytes (tech_params n) /\ exists u, nfca_uid n = Ret u.
Definition ats_ok (ats : option (list Z)) : Prop := forall a, ats = Some a -> bytes a.
Definition event_ok (ev : TagEvent) : Prop :=
  match ev with
  | Tag n ats => tag_ok n /\ ats_ok ats
  | LinkLost => True
  end.

Lemma bytes_tech16 l : bytes l -> bytes (tech16 l).
Proof. intros H. unfold tech16. apply bytes_app. split; [done|]. by apply bytes_replicate. Qed.

Lemma tech_slice_bytes f v : bytes (payload f) -> tech_params_slice f = Some v -> bytes v.
Proof.
  unfold tech_params_slice. intros Hb. case_match; [done|]. intros [= <-]. auto with bytes.
Qed.

Lemma activation_ats_bytes f : bytes (payload f) -> ats_ok (activation_ats f).
Proof.
  intros Hb a. unfold activation_ats. destruct (negb _); [done|].
  destruct (tech_params_slice f) as [v|]; [|done].
  repeat (case_match; try done); intros [= <-]; auto with bytes.
Qed.

Lemma activation_bytes f n : bytes (payload f) -> activation_to_discover f = Ret (Some n) ->
  bytes (tech_params n).
Proof.
  intros Hb. unfold activation_to_discover. destruct (negb _ || _)%bool; [done|].
  destruct (8 <=? len f)%nat; [|intros [= <-]; apply bytes_tech16; by constructor].
  destruct (tech_params_slice f) as [v|] eqn:E; [|done]. apply tech_slice_bytes in E; [|done].
  destruct (index v 2) as [u|]; [|done]. rewrite bind_ret.
  case_match; intros [= <-]; apply bytes_tech16; [auto with bytes|by constructor].
Qed.

Lemma heard_event f : heard f ->
  exists ev, event_of f = Ret ev /\ match ev with Some e => event_ok e | None => True end.
Proof.
  intros [[Hb _] (ev & E & H)]. exists ev. split; [done|]. revert E. unfold event_of.
  destruct (DiscoverNtf_decode f) as [n|] eqn:Ed.
  { intros [= <-]. repeat split; [|done|done]. revert Ed. unfold DiscoverNtf_decode.
    repeat (case_match; [done|]). intros [= <-]. cbn [tech_params]. apply bytes_tech16. auto with bytes. }
  destruct (activation_to_discover f) as [[n|]|] eqn:Ea; [| |done]; rewrite bind_ret.
  - intros [= <-]. repeat split; [by eapply activation_bytes|done|by apply activation_ats_bytes].
  - destruct (_ && _)%bool; by intros [= <-].
Qed.

(** ** The driver's invariant *)
Section Reader.
Context {T : Type} `{!Transport T, !ReadableLink T}.
Implicit Types (t : T) (d : Pn7160Driver T).

Lemma link_heard t tr t' : link_ok t -> link t tr t' -> link_ok t' /\ Forall event_heard tr.
Proof.
  intros Ht L. induction L as [t|t e t1 tr t2 H L IH]; [by split|].
  destruct (link_ok_step _ _ _ Ht H) as [H1 He]. destruct (IH H1) as [H2 Htr]. by split; [|constructor].
Qed.

Lemma heard_readable f : heard f -> event_of f <> Panic.
Proof. intros H E. destruct (heard_event f H) as (ev & E' & _). by rewrite E in E'. Qed.

(** What the traces of the panics end with was not heard. *)
Lemma unreadable_heard tr : Forall event_heard tr -> ~ unreadable tr.
Proof.
  intros H (tr' & f & Hor & E).
  destruct Hor as [-> | ->]; apply Forall_app in H as [_ H]; apply Forall_cons in H as [H _];
    by destruct (heard_readable f H).
Qed.
Lemma panicked_heard tr : Forall event_heard tr -> ~ panicked tr.
Proof.
  intros H (f & (tr' & ->) & E). apply Forall_app in H as [_ H]. apply Forall_cons in H as [H _].
  by destruct (heard_readable f H).
Qed.

(** The buffer for the UID, the tag that is latched and its ATS. *)
Record driver_wf d : Prop := {
  wf_link : link_ok (transport d);
  wf_uid : length (uid d) = 10%nat /\ bytes (uid d);
  wf_uid_len : (uid_len d <= 10)%nat;
  wf_tag : forall n, last_ntf d = Some n -> tag_ok n;
  wf_ats : ats_ok (last_auto_ats d)
}.

(** Fields the invariant does not mention, and those it does. *)
Lemma wf_set_link t d : driver_wf d -> link_ok t -> driver_wf (with_transport t d).
Proof. by intros []. Qed.

Lemma wf_latch n ats d : driver_wf d -> event_ok (Tag n ats) -> driver_wf (latch_tag n ats d).
Proof. intros [H1 H2 H3 _ _] [Hn Ha]. split; try done. by intros ? [= <-]. Qed.
Lemma wf_clear d : driver_wf d -> driver_wf (clear_tag d).
Proof. intros [H1 H2 H3 _ _]. by split. Qed.
Lemma wf_end d : driver_wf d -> driver_wf (end_session d).
Proof. intros [H1 H2 H3 H4 H5]. split; try done. cbn. lia. Qed.
Lemma wf_teardown d : driver_wf d -> driver_wf (teardown_on_link_loss d).
Proof. intros Hd. apply wf_clear, (wf_end d Hd). Qed.
Lemma wf_absorb ev d : driver_wf d -> event_ok ev -> driver_wf (absorb_event ev d).
Proof. intros Hd He. destruct ev as [n ats|]; [by apply wf_latch|by apply wf_clear]. Qed.

(** *** The link, from the driver *)
Lemma next_event_wf d : driver_wf d ->
  exists t ev, next_event d = Ret (with_transport t d, ev) /\ link_ok t /\
    match ev with Some e => event_ok e | None => True end.
Proof.
  intros Hd. unfold next_event, wait_for_event. pose proof (wf_link d Hd) as Ht.
  generalize 8%nat as n. generalize dependent (transport d). intros t Ht n. revert t Ht.
  induction n as [|n IH]; intros t Ht; [by exists t, None|].
  cbn [wait_for_event_rounds]. destruct (drain t) as [t1 f] eqn:Ed.
  destruct (link_ok_step t (Drained f) t1 Ht Ed) as [H1 Hf].
  destruct f as [f|]; [|by exists t1, None].
  destruct (heard_event f Hf) as (ev & -> & Hev). rewrite bind_ret.
  destruct ev as [ev|]; [by exists t1, (Some ev)|by apply IH].
Qed.

Lemma poll_wf d : driver_wf d ->
  exists t f, poll d = (with_transport t d, f) /\ link_ok t /\
    match f with Some f => heard f | None => True end.
Proof.
  intros Hd. unfold poll. destruct (poll_frame (transport d)) as [t f] eqn:E.
  destruct (link_ok_step _ (Polled f) t (wf_link d Hd) E) as [H1 Hf]. exists t, f. by destruct f.
Qed.

Lemma send_wf d cmd : driver_wf d ->
  exists t ok, send d cmd = (with_transport t d, ok) /\ link_ok t.
Proof.
  intros Hd. unfold send. destruct (t_send (transport d) cmd) as [t ok] eqn:E.
  destruct (link_ok_step _ (Sent cmd ok) t (wf_link d Hd) E) as [H1 _]. by exists t, ok.
Qed.

Lemma runs_link_ok {A} t (r : T * A) P : link_ok t -> runs t r P -> link_ok r.1.
Proof. intros Ht (tr & L & _). by apply (link_heard t tr). Qed.

(** *** Presence *)
(** What a step of the re-arm keeps. *)
Definition steps_to d (m : outcome (Pn7160Driver T)) : Prop :=
  exists d', m = Ret d' /\ driver_wf d' /\ active d' = active d.

Lemma step_give_up polls d : driver_wf d ->
  driver_wf (advance_or_give_up polls d) /\ driver_wf (advance_probe_or_give_up polls d) /\
  active (advance_or_give_up polls d) = active d /\
  active (advance_probe_or_give_up polls d) = active d.
Proof.
  intros []. unfold advance_or_give_up, advance_probe_or_give_up. by case_match; split_and!.
Qed.

Lemma absorb_active ev d : active (absorb_event ev d) = active d.
Proof. by destruct ev. Qed.

Lemma step_await_rsp_wf polls d : driver_wf d -> steps_to d (step_await_rsp polls d).
Proof.
  intros Hd. unfold step_await_rsp, steps_to. destruct (poll_wf d Hd) as (t & f & -> & Ht & Hf).
  pose proof (wf_set_link t d Hd Ht) as H1. set (d1 := with_transport t d) in *.
  change (active d) with (active d1). clearbody d1. clear Hd.
  destruct (step_give_up polls d1 H1) as (G1 & _ & G2 & _).
  destruct f as [f|]; [|by eexists].
  destruct (is_rsp_to f _).
  - destruct (status_ok f).
    + eexists. split; [done|]. split; [by destruct H1|done].
    + destruct (send_wf d1 RF_DISCOVER_PASSIVE_A H1) as (t1 & ok & -> & H2).
      eexists. split; [done|]. split; [|done]. by destruct H1; split.
  - destruct (heard_event f Hf) as (ev & -> & Hev). rewrite bind_ret. eexists. split; [done|].
    destruct ev as [ev|]; [|done]. split; [by apply wf_absorb|by apply absorb_active].
Qed.

Lemma step_probe_rsp_wf polls d : driver_wf d -> steps_to d (step_probe_rsp polls d).
Proof.
  intros Hd. unfold step_probe_rsp, steps_to. destruct (poll_wf d Hd) as (t & f & -> & Ht & Hf).
  pose proof (wf_set_link t d Hd Ht) as H1. set (d1 := with_transport t d) in *.
  change (active d) with (active d1). clearbody d1. clear Hd.
  destruct (step_give_up polls d1 H1) as (_ & G1 & _ & G2).
  destruct f as [f|]; [|by eexists].
  destruct (is_rsp_to f _).
  - eexists. split; [done|]. split; [by destruct H1; split|done].
  - destruct (heard_event f Hf) as (ev & -> & Hev). rewrite bind_ret. eexists. split; [done|].
    destruct ev as [ev|]; [|done]. split; [by apply wf_absorb|by apply absorb_active].
Qed.

Lemma step_await_ntf_wf polls d : driver_wf d ->
  driver_wf (step_await_ntf polls d) /\ active (step_await_ntf polls d) = active d.
Proof.
  intros Hd. unfold step_await_ntf. case_match; [|by destruct Hd].
  set (d1 := with_absent _ _). assert (driver_wf d1 /\ active d1 = active d) as [H1 Ha] by (by destruct Hd).
  clearbody d1. set (d2 := if _ <=? _ then _ else _).
  assert (driver_wf d2 /\ active d2 = active d) as [H2 Ha2].
  { unfold d2. case_match; [|done]. split; [|done]. by destruct H1. }
  clearbody d2. destruct (probe_armed d2); [|done].
  destruct (send_wf d2 RF_DISCOVER_PASSIVE_A H2) as (t & ok & -> & Ht).
  destruct ok; (split; [by destruct H2; split|done]).
Qed.

Lemma step_rearm_wf d : driver_wf d -> steps_to d (step_rearm d).
Proof.
  intros Hd. unfold step_rearm. destruct (rearm d) as [[polls|polls|polls]|].
  - by apply step_await_rsp_wf.
  - eexists. split; [done|by apply step_await_ntf_wf].
  - by apply step_probe_rsp_wf.
  - by eexists.
Qed.

Lemma rearm_when_due_wf d : driver_wf d ->
  driver_wf (rearm_when_due d) /\ active (rearm_when_due d) = active d.
Proof.
  intros Hd. unfold rearm_when_due. destruct (rearm d); [done|].
  set (d1 := with_polls _ d). assert (driver_wf d1) as H1 by (by destruct Hd).
  change (active d) with (active d1). clearbody d1. case_match; [|done].
  assert (driver_wf (with_polls 0 d1)) as H2 by (by destruct H1).
  destruct (send_wf _ RF_DEACTIVATE_DISCOVERY H2) as (t & ok & -> & Ht).
  destruct ok; (split; [by destruct H1; split|done]).
Qed.

Lemma is_card_present_wf d : driver_wf d ->
  exists d' b, is_card_present d = Ret (d', b) /\ driver_wf d'.
Proof.
  intros Hd. unfold is_card_present. destruct (active d).
  - destruct (next_event_wf d Hd) as (t & ev & -> & Ht & Hev). rewrite bind_ret.
    pose proof (wf_set_link t d Hd Ht) as H1.
    destruct ev as [[n ats|]|]; eexists _, _; (split; [done|]);
      [by apply wf_latch|by apply wf_teardown|done].
  - destruct (step_rearm_wf d Hd) as (d1 & -> & H1 & _). rewrite bind_ret.
    destruct (next_event_wf d1 H1) as (t & ev & -> & Ht & Hev). rewrite bind_ret.
    pose proof (wf_set_link t d1 H1 Ht) as H2.
    destruct ev as [[n ats|]|]; [eexists _, _; split; [done|by apply wf_latch]
      |eexists _, _; split; [done|by apply wf_clear]|].
    destruct (last_auto_ats _); eexists _, _; (split; [done|]); [done|by apply rearm_when_due_wf].
Qed.

Lemma poll_maintenance_wf now d : driver_wf d ->
  exists d', poll_maintenance now d = Ret d' /\ driver_wf d'.
Proof.
  intros Hd. unfold poll_maintenance. destruct (step_rearm_wf d Hd) as (d1 & -> & H1 & _).
  rewrite bind_ret. destruct (next_event_wf d1 H1) as (t & ev & -> & Ht & Hev). rewrite bind_ret.
  cbn [fst snd]. pose proof (wf_set_link t d1 H1 Ht) as H2. cbv zeta.
  set (d2 := match ev with Some _ => _ | None => _ end).
  assert (driver_wf d2) as H3 by (unfold d2; destruct ev; [by apply wf_absorb|done]). clearbody d2.
  destruct (negb (discovery_parked d2) || _)%bool; [by eexists|].
  destruct (match last_rearm_ms d2 with Some _ => _ | None => _ end); [|by eexists].
  destruct (send_wf d2 RF_DEACTIVATE_DISCOVERY H3) as (t1 & ok & -> & H4).
  eexists. split; [done|]. by destruct ok; destruct H3; split.
Qed.

(** *** Bring-up and the end of a session *)
Lemma run_steps_runs steps t : runs t (run_steps steps t) (fun _ _ => True).
Proof.
  revert t. induction steps as [|s steps IH]; intros t; [by exists []; split; [constructor|]|].
  cbn [run_steps]. destruct (transact t (tx_bytes s)) as [t1 rsp] eqn:E.
  eapply (runs_event t (Asked (tx_bytes s) rsp)); [exact E|].
  assert (forall r, runs t1 (t1, r : result unit string) (fun _ _ => True)) as Hstop
    by (intros r; exists []; by split; [constructor|]).
  destruct rsp as [rsp|]; [|done]. destruct (negb _); [done|]. destruct (_ && _); [done|apply IH].
Qed.

Lemma run_ladder_runs t : runs t (run_ladder t) (fun _ _ => True).
Proof.
  unfold run_ladder. destruct (transact t CORE_RESET) as [t1 rsp] eqn:E.
  eapply (runs_event t (Asked CORE_RESET rsp)); [exact E|].
  assert (forall r, runs t1 (t1, r : result unit string) (fun _ _ => True)) as Hstop
    by (intros r; exists []; by split; [constructor|]).
  destruct rsp as [rsp|]; [|done]. destruct (negb _); [done|].
  destruct (drain t1) as [t2 f] eqn:E2. eapply (runs_event t1 (Drained f)); [exact E2|].
  apply run_steps_runs.
Qed.

Lemma init_wf d : driver_wf d -> driver_wf (init d).1.
Proof.
  intros Hd. unfold init. pose proof (run_ladder_runs (transport d)) as R.
  destruct (run_ladder (transport d)) as [t r].
  pose proof (wf_set_link t d Hd (runs_link_ok _ (t, r) _ (wf_link d Hd) R)) as H1.
  destruct r; [by destruct H1|done].
Qed.

Lemma to_discovery_wf d : driver_wf d -> exists t ok, to_discovery d = (with_transport t d, ok) /\ link_ok t.
Proof.
  intros Hd. unfold to_discovery. pose proof (to_discovery_runs (transport d)) as R.
  destruct (deactivate_to_discovery (transport d)) as [t r]. exists t, (is_ok r). split; [done|].
  exact (runs_link_ok _ (t, r) _ (wf_link d Hd) R).
Qed.
Lemma discover_wf d : driver_wf d -> exists t ok, discover d = (with_transport t d, ok) /\ link_ok t.
Proof.
  intros Hd. unfold discover, restart_discovery.
  pose proof (strict_ok_runs RF_DISCOVER_PASSIVE_A "no discover response"
    "discover status != OK" (transport d)) as R.
  destruct (strict_ok _ _ _ _) as [t r]. exists t, (is_ok r). split; [done|].
  exact (runs_link_ok _ (t, r) _ (wf_link d Hd) R).
Qed.

Lemma power_off_wf d : driver_wf d -> driver_wf (power_off d) /\ active (power_off d) = false.
Proof.
  intros Hd. unfold power_off. destruct (last_auto_ats d) as [a|] eqn:Ea.
  { split; [|done]. destruct Hd as [H1 H2 H3 H4 H5]. split; try done. }
  set (d1 := if active d then _ else d).
  assert (driver_wf d1) as H1.
  { unfold d1. destruct (active d); [|done].
    destruct (to_discovery_wf d Hd) as (t & ok & -> & Ht). pose proof (wf_set_link t d Hd Ht) as H1.
    destruct ok; [done|]. destruct (discover_wf _ H1) as (t2 & ok2 & -> & Ht2).
    apply (wf_set_link _ (with_transport t2 (with_transport t d)));
      [by apply (wf_set_link t2 (with_transport t d))|].
    eapply runs_link_ok; [|apply drain_link_runs]. exact Ht2. }
  clearbody d1. split; [|done]. destruct H1 as [L1 L2 L3 L4 L5]. split; try done. cbn. lia.
Qed.

Lemma resync_wf d : driver_wf d -> driver_wf (resync d).
Proof.
  intros Hd. destruct (resync_runs d) as (tr & L & _). destruct (link_heard _ _ _ (wf_link d Hd) L) as [Ht _].
  revert Ht. unfold resync. destruct (to_discovery d) as [d1 ok] eqn:E1.
  assert (exists t1, d1 = with_transport t1 d) as [t1 ->].
  { unfold to_discovery in E1. destruct (deactivate_to_discovery _). injection E1 as <- _. eauto. }
  set (d2 := if ok then _ else _).
  assert (exists t2, d2 = with_transport t2 d) as [t2 E2].
  { unfold d2. destruct ok; [eauto|]. unfold discover. destruct (restart_discovery _). cbn. eauto. }
  rewrite E2. intros Ht. apply wf_end, wf_clear. by destruct Hd; split.
Qed.

(** *** The exchange *)
Lemma frames_heard tr : Forall event_heard tr -> Forall heard (frames_of tr).
Proof.
  unfold frames_of. induction 1 as [|e tr He _ IH]; [constructor|]. cbn.
  destruct e as [| [f|] | | |]; cbn; try done. by constructor.
Qed.
Lemma answers_bytes conn tr : Forall event_heard tr -> bytes (concat (map body (answers conn tr))).
Proof.
  intros H%frames_heard. apply Forall_concat. apply Forall_map. unfold answers.
  eapply (Forall_impl heard); [exact (incl_Forall (incl_filter _ _) H)|].
  intros f [[Hb _] _]. unfold body. apply bytes_take, Hb.
Qed.

Lemma exchange_wf cmd stall t : link_ok t ->
  exists t' c o arrival, exchange_detailed 0 cmd stall t = Ret (t', c, o, arrival) /\ link_ok t' /\
    match o with Data v => bytes v | _ => True end.
Proof.
  intros Ht. destruct (fragments_ok cmd) as (_ & Hne & Hl).
  destruct (send_fragments_spec 0 stall (fragments_of cmd) DATA_COLLECT_ROUNDS Collect_new t Hne)
    as (tr & t' & L & _ & _ & _ & _ & _ & R).
  { eapply Forall_impl; [exact Hl|]. unfold MAX_DATA_FRAGMENT. cbn. lia. }
  destruct (link_heard t tr t' Ht L) as [H1 Htr]. unfold exchange_detailed.
  destruct (send_fragments _ _ _ _ _ _) as [[[[t1 c] o] arrival]|].
  - destruct R as (-> & _ & R). exists t', c, o, arrival. split; [done|]. split; [done|].
    destruct o as [v| |]; [|done..]. destruct R as (_ & _ & tr2 & (tr1 & w & -> & _) & -> & _).
    apply answers_bytes. apply Forall_app in Htr as [_ Htr]. by apply Forall_cons in Htr as [_ Htr].
  - destruct (panicked_heard tr Htr). exact R.
Qed.

(** The answer is written into the caller's buffer or not at all. *)
Lemma transmit_wf cmd buf d : driver_wf d ->
  exists d' buf' r log, transmit_apdu cmd buf d = Ret (d', buf', r, log) /\ driver_wf d' /\
    length buf' = length buf /\ (bytes buf -> bytes buf') /\
    match r with Ok n => (n <= length buf)%nat | Err _ => True end.
Proof.
  intros Hd. unfold transmit_apdu. destruct (active d); cbn [negb]; [|by eexists _, _, _, _; split_and!].
  destruct (exchange_wf cmd (stall_hook d) (transport d) (wf_link d Hd))
    as (t & c & o & arrival & -> & Ht & Ho). rewrite bind_ret.
  set (d1 := with_wtx _ _ _ _). assert (driver_wf d1) as H1 by (by destruct Hd; split). clearbody d1.
  destruct o as [v| |].
  - destruct v as [|x v].
    { rewrite bind_ret. eexists _, _, _, _. split_and!; try done. apply wf_end, wf_clear, H1. }
    destruct (length buf <? length (x :: v))%nat eqn:E.
    { rewrite bind_ret. eexists _, _, _, _. by split_and!. }
    rewrite copy_at_ok by (cbn in *; lia). rewrite !bind_ret. eexists _, _, _, _.
    split; [reflexivity|]. split; [done|]. change (take 0 buf) with (@nil Z). rewrite app_nil_l.
    split; [rewrite length_app, length_drop; cbn in *; lia|]. split; [|cbn in *; lia].
    intros Hb. apply bytes_app. auto with bytes.
  - rewrite bind_ret. eexists _, _, _, _. split_and!; try done. by apply resync_wf.
  - rewrite bind_ret. eexists _, _, _, _. split_and!; try done. by apply wf_teardown.
Qed.

(** ** Power on *)
(** Collecting and the steps of a power-on leave the session flag alone. *)
Definition same_session d d' : Prop := driver_wf d' /\ active d' = active d.

Lemma collect_tag_wf n d : driver_wf d ->
  exists d' r, collect_tag n d = Ret (d', r) /\ same_session d d' /\
    match r with
    | Ok (Some (ntf, ats)) => last_ntf d' = Some ntf /\ last_auto_ats d' = ats
    | Ok None => last_ntf d' = last_ntf d
    | Err e => e = NoCard
    end.
Proof.
  revert d. induction n as [|n IH]; intros d Hd; cbn [collect_tag];
    destruct (next_event_wf d Hd) as (t & ev & -> & Ht & Hev); rewrite bind_ret;
    pose proof (wf_set_link t d Hd Ht) as H1; destruct ev as [[ntf ats|]|].
  1, 4: eexists _, _; split; [done|]; split; [split; [|done]|done];
    destruct H1 as [L1 L2 L3 _ _], Hev; split; try done; by intros ? [= <-].
  1, 3: eexists _, _; split; [done|]; split; [split; [by apply wf_clear|done]|done].
  - by eexists _, _.
  - set (d1 := with_transport (wait_ms _ _) _).
    assert (driver_wf d1) as H2.
    { apply (wf_set_link _ (with_collect_rounds (collect_rounds d + 1) (with_transport t d)));
        [by destruct H1; split|]. by apply (link_ok_step t (Waited 150)). }
    destruct (IH d1 H2) as (d' & r & E & [Hw Ha] & Hr).
    exists d', r. split; [exact E|]. split; [by split|]. by destruct r as [[[]|]|].
Qed.

(** [note_uid] stores at most ten bytes, the UID when the tag tells one. *)
Lemma note_uid_wf ntf d : driver_wf d -> tag_ok ntf ->
  exists d', note_uid ntf d = Ret d' /\ same_session d d' /\ last_ntf d' = last_ntf d /\
    last_auto_ats d' = last_auto_ats d /\
    forall u, nfca_uid ntf = Ret (Some u) -> card_uid d' = take 10 u.
Proof.
  intros [H0 [H1 Hb] H2 H3 H4] [Hn [u Hu]]. unfold note_uid. rewrite Hu, bind_ret. destruct u as [u|]; cycle 1.
  { exists d. split; [done|]. split; [by split; [split|]|by split_and!]. }
  assert (length (take (length u `min` 10) u) = length u `min` 10)%nat as Hl by (rewrite length_take; lia).
  rewrite copy_at_ok by lia. rewrite bind_ret. eexists. split; [done|]. split.
  - assert (bytes u) as Hu'.
    { revert Hu. unfold nfca_uid. do 2 (case_match; [done|]). unfold slice. case_decide; [|done].
      intros [= <-]. auto with bytes. }
    split; [split; try done; cbn [uid uid_len with_uid]|done]; [|lia]. rewrite take_0, app_nil_l. split.
    + rewrite length_app, Hl, length_drop. lia.
    + apply bytes_app. auto with bytes.
  - split; [done|]. split; [done|]. intros u' [= <-]. unfold card_uid. cbn [uid uid_len with_uid].
    rewrite take_0, app_nil_l, take_app_length' by lia. destruct (decide (length u <= 10)%nat).
    + by rewrite !take_ge by lia.
    + by replace (length u `min` 10)%nat with 10%nat by lia.
Qed.

(** The latched tag's UID is the one the driver tells. *)
Definition identified d : Prop := exists ntf, last_ntf d = Some ntf /\
  forall u, nfca_uid ntf = Ret (Some u) -> card_uid d = take 10 u.

(** What a power-on returns. *)
Definition activated atr d (r : Pn7160Driver T * list Z * result nat Error) : Prop :=
  let '(d', atr', r) := r in
  driver_wf d' /\
  match r with
  | Ok n => active d' = true /\ drop n atr' = drop n atr /\ (n <= length atr)%nat /\
      (exists ats, bytes ats /\ ats_to_atr ats = Some (take n atr')) /\ length atr' = length atr /\
      identified d'
  | Err _ => active d' = active d /\ atr' = atr
  end.

Lemma activated_session atr d d1 r : same_session d d1 -> activated atr d1 r -> activated atr d r.
Proof.
  intros [_ Ha]. unfold activated. destruct r as [[d' atr'] [n|e]]; [done|].
  by rewrite Ha.
Qed.

Lemma activated_err atr d d1 e : same_session d d1 -> activated atr d (d1, atr, Err e).
Proof. by intros [H1 H2]. Qed.

Lemma ats_to_atr_bytes ats a : bytes ats -> ats_to_atr ats = Some a -> bytes a.
Proof.
  intros Hb. unfold ats_to_atr. destruct ats as [|t0 ats]; [done|].
  destruct (ats_groups _ _ _ _) as [i|]; [|done]. set (hist := drop i _).
  set (head := [_; _; _; _; _; _]). destruct (_ <? _)%nat; [done|]. intros [= <-].
  assert (bytes (head ++ hist)) as H.
  { apply bytes_app. split; [|unfold hist; auto with bytes]. unfold head, bytes.
    repeat (apply Forall_cons; split); try (unfold u8; lia); [|constructor].
    apply u8_lor; [unfold u8; lia|]. apply u8_land; [apply u8_wrap8|unfold u8; lia]. }
  unfold vec_push. case_match; [|done]. apply bytes_app. split; [done|].
  constructor; [|constructor]. apply u8_xor_all. exact (bytes_drop 1 _ H).
Qed.

Lemma activate_with_wf ats atr d : driver_wf d -> identified d -> bytes ats ->
  exists r, activate_with ats atr d = Ret r /\ activated atr d r.
Proof.
  intros Hd Hid Hats. unfold activate_with. destruct (ats_to_atr ats) as [a|] eqn:Ea; cycle 1.
  { eexists. split; [done|]. by apply activated_err. }
  destruct (_ <? _)%nat eqn:El; [eexists; split; [done|]; by apply activated_err|].
  rewrite copy_at_ok by lia. rewrite bind_ret. eexists. split; [done|].
  change (take 0 atr) with (@nil Z). rewrite app_nil_l. unfold activated. split_and!; try done.
  - destruct Hd. by split.
  - by rewrite drop_app_length'.
  - lia.
  - exists ats. split; [done|]. by rewrite take_app_length'.
  - rewrite length_app, length_drop. lia.
Qed.

Lemma reactivate_wf atr d : driver_wf d ->
  exists r, reactivate atr d = Ret r /\ activated atr d r.
Proof.
  intros Hd. unfold reactivate. set (d0 := with_collect_rounds _ _).
  assert (same_session d d0) as H0.
  { subst d0. destruct (to_discovery_wf d Hd) as (t & ok & -> & Ht). by destruct Hd; split; [split|]. }
  destruct (collect_tag_wf 8 d0) as (d1 & r & -> & [H1 Ha1] & Hr); [apply H0|].
  rewrite bind_ret.
  assert (same_session d d1) as Hs by (split; [done|by rewrite Ha1; apply H0]).
  destruct r as [[[ntf [ats|]]|]|e];
    try (eexists; split; [done|]; by apply activated_err).
  destruct Hr as [Hn Hats].
  destruct (note_uid_wf ntf d1 H1 (wf_tag d1 H1 ntf Hn)) as (d2 & -> & H2 & Hn2 & _ & Hu).
  rewrite bind_ret. destruct (activate_with_wf ats atr d2) as (r & -> & H3);
    [apply H2|exists ntf; by rewrite Hn2|by apply (wf_ats d1 H1)|].
  exists r. split; [done|]. eapply activated_session, H3. destruct H2. split; [done|].
  rewrite <- (proj2 Hs). done.
Qed.

(** The activation of a tag: the transaction, then one drain. *)
Lemma select_tag_heard t n : link_ok t -> link_ok (select_tag t n).1 /\
  match (select_tag t n).2 with Ok f => heard f | Err _ => True end.
Proof.
  intros Ht. unfold select_tag. destruct (transact t _) as [t1 rsp] eqn:E1.
  destruct (link_ok_step t (Asked _ rsp) t1 Ht E1) as [H1 _].
  destruct rsp as [rsp|]; [|done]. destruct (negb _); [done|]. destruct (negb _); [done|].
  destruct (drain t1) as [t2 f] eqn:E2. destruct (link_ok_step t1 (Drained f) t2 H1 E2) as [H2 Hf].
  by destruct f.
Qed.

Lemma select_ats_same ntf d : driver_wf d ->
  same_session d (select_ats ntf d).1 /\ last_ntf (select_ats ntf d).1 = last_ntf d /\
  uid (select_ats ntf d).1 = uid d /\ uid_len (select_ats ntf d).1 = uid_len d /\
  match (select_ats ntf d).2 with Ok ats => bytes ats | Err _ => True end.
Proof.
  intros Hd. unfold select_ats. destruct (select_tag_heard (transport d) ntf (wf_link d Hd)) as [Ht Hf].
  destruct (select_tag (transport d) ntf) as [t [f|e]]; cbn [fst snd] in *.
  - pose proof (wf_set_link t d Hd Ht) as H1. destruct Hf as [[Hb _] _].
    destruct (extract_ats f) as [v|] eqn:Ev; [destruct (_ <? _)%nat|]; split_and!; try done.
    revert Ev. unfold extract_ats. repeat (case_match; [done|]). intros [= <-]. cbn. auto with bytes.
  - pose proof (wf_set_link t d Hd Ht). by split_and!.
Qed.

(** The end of a power-on with a tag: its UID, then its ATS. *)
Lemma activate_tag_wf ntf ats atr d : driver_wf d -> last_ntf d = Some ntf -> ats_ok ats ->
  exists r, (d ← note_uid ntf d;
     match ats with
     | Some ats => activate_with ats atr d
     | None =>
         let '(d, r) := select_ats ntf d in
         match r with
         | Err e => Ret (d, atr, Err e)
         | Ok ats => activate_with ats atr d
         end
     end) = Ret r /\ activated atr d r.
Proof.
  intros Hd Hn Hats. destruct (note_uid_wf ntf d Hd (wf_tag d Hd ntf Hn)) as (d1 & -> & H1 & Hn1 & _ & Hu).
  rewrite bind_ret. rewrite Hn in Hn1.
  assert (identified d1) as Hi by (by exists ntf).
  destruct ats as [ats|].
  { destruct (activate_with_wf ats atr d1 (proj1 H1) Hi (Hats ats eq_refl)) as (r & -> & H2).
    exists r. split; [done|]. by eapply activated_session. }
  destruct (select_ats_same ntf d1 (proj1 H1)) as ([H2 H3] & H4 & H5 & H6 & H7).
  destruct (select_ats ntf d1) as [d2 [ats|e]]; cbn [fst] in *.
  - assert (same_session d d2) as Hs by (split; [done|by rewrite H3; apply H1]).
    destruct (activate_with_wf ats atr d2 H2) as (r & -> & H8); [|done|].
    { exists ntf. rewrite H4, Hn1. split; [done|]. intros u E. rewrite <- (Hu u E).
      unfold card_uid. by rewrite H5, H6. }
    exists r. split; [done|]. by eapply activated_session.
  - eexists. split; [done|]. apply activated_err. split; [done|]. by rewrite H3; apply H1.
Qed.
End Reader.


(** A power-on: the tag, then its UID and its ATR. *)
Lemma power_on_activates {T} `{!Transport T, !ReadableLink T} atr (d : Pn7160Driver T) :
  driver_wf d -> exists r, power_on atr d = Ret r /\ activated atr d r.
Proof.
  intros Hd. unfold power_on. set (d0 := with_collect_rounds 0 d).
  assert (same_session d d0) as H0 by (destruct Hd; by split; [split|]).
  destruct (collect_tag_wf 8 d0) as (d1 & c & -> & [H1 Ha1] & Hc); [apply H0|].
  rewrite bind_ret.
  assert (same_session d d1) as Hs by (split; [done|by rewrite Ha1; apply H0]).
  destruct c as [[[ntf ats]|]|e]; [| |eexists; split; [done|]; by apply activated_err].
  - destruct Hc as [Hn Ha].
    edestruct (activate_tag_wf ntf (match ats with Some a => Some a | None => last_auto_ats d1 end)
      atr d1 H1 Hn) as (r & E & H2).
    { pose proof (wf_ats d1 H1) as Hats. rewrite Ha in *. by destruct ats. }
    exists r. split; [|by eapply activated_session]. destruct ats; exact E.
  - destruct (last_ntf d1) as [ntf|] eqn:En; cycle 1.
    { destruct (reactivate_wf atr d1 H1) as (r & E & H2). exists r.
      split; [|by eapply activated_session]. by destruct (last_auto_ats d1). }
    destruct (last_auto_ats d1) as [ats|] eqn:Ea; cycle 1.
    { eexists. split; [done|]. apply activated_err. destruct Hs as [Hs ?].
      split; [|done]. destruct Hs. by split. }
    destruct (activate_tag_wf ntf (Some ats) atr d1 H1 En) as (r & E & H2);
      [rewrite <- Ea; apply (wf_ats d1 H1)|].
    exists r. split; [exact E|by eapply activated_session].
Qed.

(** Powering a contactless card on.  Over a link that delivers only
    notifications the reader can take, a power-on never panics and keeps the
    driver well formed.  On success a session is active, what was written into
    the caller's buffer is exactly the synthetic ATR of the card's ATS and
    nothing else of it changed, and the UID the driver tells is the one the
    tag's notification carries.  On an error the buffer is untouched and the
    session is as it was. *)
Theorem contactless_power_on {T} `{!Transport T, !ReadableLink T} atr (d : Pn7160Driver T) :
  driver_wf d -> exists r, power_on atr d = Ret r /\ activated atr d r.
Proof. apply power_on_activates. Qed.

Lemma confirmation_heard cmd : heard (confirmation cmd).
Proof.
  split; [|by exists None].
  destruct (padded_ok [STATUS_OK]) as (Hb & Hl & _); [by repeat constructor|cbn; lia|].
  split; [exact Hb|]. split; [exact Hl|cbn; lia].
Qed.
#[export] Instance prompt_readable : ReadableLink Prompt.
Proof.
  refine {| link_ok (_ : Prompt) := True |}.
  intros t e t' _ H. split; [done|].
  destruct e as [cmd ok|f|f|cmd f|ms]; cbn in H; try done; injection H as _ <-; try done.
  - destruct t; cbn; [apply confirmation_heard|done].
  - apply confirmation_heard.
Defined.

Definition latched_card : Pn7160Driver Prompt :=
  latch_tag (mkNtf 1 4 0 2 (tech16 [0x44; 0; 4; 0xDE; 0xAD; 0xBE; 0xEF]) 7)
    (Some [0x78; 0x77; 0x81; 0x02; 0x80; 0x90; 0]) (new None).

Example contactless_power_on_witness :
  driver_wf latched_card /\
  exists d', power_on (replicate 16 0) latched_card =
    Ret (d', [0x3B; 0x83; 0x81; 0x31; 0xFE; 0x45; 0x80; 0x90; 0; 0x98; 0; 0; 0; 0; 0; 0], Ok 10%nat) /\
    active d' = true /\ card_uid d' = [0xDE; 0xAD; 0xBE; 0xEF].
Proof.
  assert (driver_wf latched_card) as Hd.
  { split; [done|by split; [|solve_bytes]|cbn; lia| |].
    - intros n [= <-]. split; [cbn; solve_bytes|by eexists].
    - intros a [= <-]. solve_bytes. }
  split; [done|].
  destruct (contactless_power_on (replicate 16 0) latched_card Hd) as (r & E & H).
  destruct r as [[d' atr'] r]. exists d'. revert E H.
  vm_compute (power_on (replicate 16 0) latched_card). intros [= <- <- <-] (_ & Ha & _).
  split_and!; [done|exact Ha|done].
Defined.
