(* ===== verification/NciLink.v ===== *)
(** * The two links to the NFC controller

    [pn7160-nci/src/hal_transport.rs] (module [Hal]: an I2C bus, an IRQ pin, a
    VEN pin and a delay of the embedded-hal traits) and [esp_transport.rs] with
    the pins of [board.rs] (module [Esp]: the calls of ESP-IDF).  Both are
    instances of the [Transport] class of [Nci.v].  The hardware is the class
    argument of each module.  The loop of [transact] counts the rounds it waits,
    not the notifications it takes: on a controller that never stops raising
    notifications it does not return ([flooded_transact] of [NciLinkSpec.v]).
    [transact] is therefore defined for a controller that raises finitely many
    frames, the second class argument of each module ([Controller]), on which
    its loop is proved to return here. *)
From Stdlib Require Import ZArith Lia ZifyBool.
From stdpp Require Import prelude strings.
From S2P Require Import Prelude Nci.
Import Nci.
Local Open Scope Z_scope.

(** [boards.rs]: the geometry of a board. *)
Record BoardPins := mkPins { addr : Z; sda : Z; scl : Z; irq : Z; ven : Z }.
Definition NUCULA : BoardPins := mkPins 0x28 4 5 6 7.

(** ** Over embedded-hal *)
Module Hal.

Definition VEN_HOLD_MS : Z := 10.
Definition VEN_OFF_MS : Z := 50.
Definition VEN_SETTLE_MS : Z := 50.
Definition IRQ_WAIT_BUDGET_MS : Z := 200.

Inductive HalLinkError := NoAckAfterVenCycle.

(** The four handles, on the one piece of hardware they reach; [false] and
    [None] are errors. *)
Class HalPins (B : Type) := {
  i2c_write : B -> Z -> list Z -> B * bool;
  i2c_read : B -> Z -> nat -> B * option (list Z);
  irq_is_high : B -> B * option bool;
  ven_set : B -> bool -> B;
  delay_ms : B -> Z -> B
}.

(** A controller that raises finitely many frames: [supply] of them, at most,
    are still to come.  A header that was read while the IRQ line was raised
    has used one up, and nothing brings more. *)
Class Controller (B : Type) `{!HalPins B} := {
  supply : B -> nat;
  supply_irq b : (supply (irq_is_high b).1 <= supply b)%nat;
  supply_header b a hdr : (irq_is_high b).2 = Some true ->
    (i2c_read (irq_is_high b).1 a 3).2 = Some hdr ->
    (supply (i2c_read (irq_is_high b).1 a 3).1 < supply b)%nat;
  supply_read b a n : (supply (i2c_read b a n).1 <= supply b)%nat;
  supply_delay b ms : (supply (delay_ms b ms) <= supply b)%nat
}.

Record HalPn7160Transport (B : Type) := mkHal {
  hw : B;
  hal_addr : Z;
  ntf : list Frame (* Deque<Frame, NTF_STASH_SLOTS> *)
}.
Arguments mkHal {B}.
Arguments hw {B} _.
Arguments hal_addr {B} _.
Arguments ntf {B} _.

Section Hal.
Context {B : Type} `{!HalPins B, !Controller B}.
Implicit Types (b : B) (t : HalPn7160Transport B).

Definition new b (addr : Z) : HalPn7160Transport B := mkHal b addr [].
Definition with_hw b t : HalPn7160Transport B := mkHal b (hal_addr t) (ntf t).
Definition with_ntf q t : HalPn7160Transport B := mkHal (hw t) (hal_addr t) q.

Definition ven_cycle t : HalPn7160Transport B :=
  let b := delay_ms (ven_set (hw t) true) VEN_HOLD_MS in
  let b := delay_ms (ven_set b false) VEN_OFF_MS in
  with_hw (delay_ms (ven_set b true) VEN_SETTLE_MS) t.

Definition link_probe t : HalPn7160Transport B * bool :=
  let '(b, ok) := i2c_write (hw t) (hal_addr t) [] in (with_hw b t, ok).

Definition bring_up b (addr : Z) : result (HalPn7160Transport B) HalLinkError :=
  let t := ven_cycle (new b addr) in
  let '(t, ok) := link_probe t in
  if ok then Ok t else Err NoAckAfterVenCycle.

Definition irq_raised t : HalPn7160Transport B * bool :=
  let '(b, high) := irq_is_high (hw t) in (with_hw b t, default false high).

Definition read_frame t : HalPn7160Transport B * option Frame :=
  let '(b, hdr) := i2c_read (hw t) (hal_addr t) 3 in
  match hdr with
  | None => (with_hw b t, None)
  | Some hdr =>
      let plen := Z.to_nat (nth 2 hdr 0) in
      if (0 <? plen)%nat then
        let '(b, payload) := i2c_read b (hal_addr t) plen in
        (with_hw b t, match payload with
                      | None => None
                      | Some payload => decode (hdr ++ payload)
                      end)
      else (with_hw b t, decode hdr)
  end.

Definition push_ntf (f : Frame) t : HalPn7160Transport B :=
  let q := if (length (ntf t) =? NTF_STASH_SLOTS)%nat then drop 1 (ntf t) else ntf t in
  with_ntf (q ++ [f]) t.

Definition pop_ntf t : HalPn7160Transport B * option Frame :=
  match ntf t with
  | [] => (t, None)
  | f :: q => (with_ntf q t, Some f)
  end.

Definition send t (cmd : list Z) : HalPn7160Transport B * bool :=
  let '(b, ok) := i2c_write (hw t) (hal_addr t) cmd in (with_hw b t, ok).

Definition poll_frame t : HalPn7160Transport B * option Frame :=
  let '(t, raised) := irq_raised t in if raised then read_frame t else (t, None).

(** The loop of [transact]; [None] when the fuel is used up. *)
Fixpoint transact_loop (fuel : nat) (waited : Z) t :
    option (HalPn7160Transport B * option Frame) :=
  match fuel with
  | O => None
  | S fuel =>
      let '(t, raised) := irq_raised t in
      if raised then
        let '(t, f) := read_frame t in
        match f with
        | None => Some (t, None)
        | Some f =>
            if is_transact_reply f then Some (t, Some f)
            else transact_loop fuel waited (push_ntf f t)
        end
      else if IRQ_WAIT_BUDGET_MS <=? waited then Some (t, None)
      else transact_loop fuel (waited + 1) (with_hw (delay_ms (hw t) 1) t)
  end.

(** Every round waits or takes a frame. *)
Definition transact_fuel t : nat := (supply (hw t) + Z.to_nat IRQ_WAIT_BUDGET_MS + 1)%nat.

(** A frame that was read while the line was raised is one less to come. *)
Lemma frame_supply t : (irq_raised t).2 = true ->
  match read_frame (irq_raised t).1 with
  | (t', Some _) => (supply (hw t') < supply (hw t))%nat
  | _ => True
  end.
Proof.
  unfold irq_raised, read_frame. pose proof (supply_header (hw t) (hal_addr t)) as H.
  destruct (irq_is_high (hw t)) as [b [[]|]]; cbn [fst snd default hw with_hw hal_addr] in *; try done.
  intros _. destruct (i2c_read b (hal_addr t) 3) as [b1 [hdr|]]; [|done].
  specialize (H hdr eq_refl eq_refl). cbn [fst] in H.
  destruct (0 <? _)%nat; [|by destruct (decode hdr)].
  pose proof (supply_read b1 (hal_addr t) (Z.to_nat (nth 2 hdr 0))) as H2.
  destruct (i2c_read b1 _ _) as [b2 [p|]]; [|done]. cbn [fst hw with_hw] in *.
  destruct (decode _); [cbn; lia|done].
Qed.

Lemma transact_loop_returns fuel waited t : 0 <= waited ->
  (supply (hw t) + Z.to_nat (IRQ_WAIT_BUDGET_MS - waited) < fuel)%nat ->
  is_Some (transact_loop fuel waited t).
Proof.
  revert waited t. induction fuel as [|fuel IH]; intros waited t Hw Hf; [lia|]. cbn [transact_loop].
  pose proof (frame_supply t) as Hframe.
  assert (supply (hw (irq_raised t).1) <= supply (hw t))%nat as Hirq.
  { unfold irq_raised. pose proof (supply_irq (hw t)). by destruct (irq_is_high (hw t)). }
  destruct (irq_raised t) as [t1 []]; cbn [fst snd] in *.
  - specialize (Hframe eq_refl). destruct (read_frame t1) as [t2 [f|]]; [|by eexists].
    destruct (is_transact_reply f); [by eexists|]. apply IH; [done|]. cbn [hw push_ntf with_ntf]. lia.
  - destruct (IRQ_WAIT_BUDGET_MS <=? waited) eqn:E; [by eexists|].
    pose proof (supply_delay (hw t1) 1). apply IH; [lia|]. cbn [hw with_hw].
    unfold IRQ_WAIT_BUDGET_MS in *. lia.
Qed.

Lemma transact_returns t : is_Some (transact_loop (transact_fuel t) 0 t).
Proof. apply transact_loop_returns; [lia|]. unfold transact_fuel. lia. Qed.

Definition transact t (cmd : list Z) : HalPn7160Transport B * option Frame :=
  let '(b, ok) := i2c_write (hw t) (hal_addr t) cmd in
  let t := with_hw b t in
  if ok then is_Some_proj (transact_returns t) else (t, None).

Definition drain t : HalPn7160Transport B * option Frame :=
  let '(t, f) := pop_ntf t in
  match f with
  | Some f => (t, Some f)
  | None => poll_frame t
  end.

Definition wait_ms t (ms : Z) : HalPn7160Transport B :=
  with_hw (delay_ms (hw t) (wrap32 ms)) t.

#[global] Instance hal_transport : Transport (HalPn7160Transport B) := {
  Nci.t_send := send;
  Nci.poll_frame := poll_frame;
  Nci.transact := transact;
  Nci.drain := drain;
  Nci.wait_ms := wait_ms;
  Nci.link_probe := link_probe
}.
End Hal.

End Hal.

(** ** Over ESP-IDF *)
Module Esp.

Definition XFER_TIMEOUT_MS : Z := 500.
Definition IRQ_WAIT_BUDGET_US : Z := 200000.
Definition NTF_SLOTS : nat := NTF_STASH_SLOTS.
Definition SEND_TIMEOUT_MS : Z := 50.

(** The calls that configure the bus and the pins, in the order of their
    arguments; each returns a code, zero for success. *)
Inductive idf_call :=
| NewMasterBus (port sda scl glitch : Z)
| AddDevice (address speed : Z)
| DeepSleepHoldDis
| HoldDis (pin : Z)
| SleepSelDis (pin : Z)
| ConfigInputHighLevel (pin : Z)
| InstallIsrService
| IsrHandlerAdd (pin : Z)
| IntrDisable (pin : Z)
| ConfigOutput (pin : Z)
| SetLevel (pin level : Z).

Class Idf (B : Type) := {
  idf : B -> idf_call -> B * Z;
  master_transmit : B -> list Z -> Z -> B * Z;
  master_receive : B -> nat -> Z -> B * result (list Z) Z;
  master_probe : B -> Z -> Z -> B * Z;
  gpio_get_level : B -> Z -> B * Z;
  rtos_delay_ms : B -> Z -> B;
  configTICK_RATE_HZ : Z
}.

(** The transport, with the statics of its module. *)
(** A constant: a rate of zero does not compile. *)
Definition RTOS_TICK_US {B} `{!Idf B} : Z :=
  match tick_period_us (configTICK_RATE_HZ (B := B)) with Ret us => us | Panic => 0 end.

(** As for the other link, with a scheduler rate of one hertz to a megahertz (at
    a higher one the period is zero microseconds and the wait never ends). *)
Class Controller (B : Type) `{!Idf B} := {
  supply : B -> nat;
  supply_irq b pin : (supply (gpio_get_level b pin).1 <= supply b)%nat;
  supply_header b pin ms hdr : (gpio_get_level b pin).2 = 1 ->
    (master_receive (gpio_get_level b pin).1 3 ms).2 = Ok hdr ->
    (supply (master_receive (gpio_get_level b pin).1 3 ms).1 < supply b)%nat;
  supply_receive b n ms : (supply (master_receive b n ms).1 <= supply b)%nat;
  supply_delay b ms : (supply (rtos_delay_ms b ms) <= supply b)%nat;
  tick_rate : 1 <= configTICK_RATE_HZ (B := B) <= 1000000
}.

Record EspPn7160Transport (B : Type) := mkEsp {
  hw : B;
  dev : bool; (* whether the device handle is not null *)
  board : BoardPins;
  ntf : list (option Frame); (* [Option<Frame>; NTF_SLOTS] *)
  ntf_head : nat;
  ntf_count : nat;
  irq_pin_no : Z; (* IRQ_PIN_NO *)
  isr_service_rc : Z;
  isr_add_rc : Z;
  i2c_send_failures : Z (* I2C_SEND_FAILURES *)
}.
Arguments mkEsp {B}.
Arguments hw {B} _.
Arguments dev {B} _.
Arguments board {B} _.
Arguments ntf {B} _.
Arguments ntf_head {B} _.
Arguments ntf_count {B} _.
Arguments irq_pin_no {B} _.
Arguments isr_service_rc {B} _.
Arguments isr_add_rc {B} _.
Arguments i2c_send_failures {B} _.

Section Esp.
Context {B : Type} `{!Idf B, !Controller B}.
Implicit Types (b : B) (t : EspPn7160Transport B).

Definition with_hw b t : EspPn7160Transport B :=
  mkEsp b (dev t) (board t) (ntf t) (ntf_head t) (ntf_count t) (irq_pin_no t)
    (isr_service_rc t) (isr_add_rc t) (i2c_send_failures t).
Definition with_dev v t : EspPn7160Transport B :=
  mkEsp (hw t) v (board t) (ntf t) (ntf_head t) (ntf_count t) (irq_pin_no t)
    (isr_service_rc t) (isr_add_rc t) (i2c_send_failures t).
Definition with_ring slots head count t : EspPn7160Transport B :=
  mkEsp (hw t) (dev t) (board t) slots head count (irq_pin_no t)
    (isr_service_rc t) (isr_add_rc t) (i2c_send_failures t).
Definition with_failures n t : EspPn7160Transport B :=
  mkEsp (hw t) (dev t) (board t) (ntf t) (ntf_head t) (ntf_count t) (irq_pin_no t)
    (isr_service_rc t) (isr_add_rc t) n.

Definition i2c_send_failure_streak t : Z := i2c_send_failures t.

(** A call whose result is dropped. *)
Definition call t (c : idf_call) : EspPn7160Transport B := with_hw (idf (hw t) c).1 t.

(** [from_peripherals]: [failures] is what the static already holds.  The number
    of the pin is published before the handler is added. *)
Definition from_peripherals b (failures : Z) (pins : BoardPins) :
    result (EspPn7160Transport B) Z * B :=
  let '(b, rc) := idf b (NewMasterBus 0 (sda pins) (scl pins) 7) in
  if negb (rc =? 0) then (Err rc, b)
  else
    let b := (idf b (ConfigInputHighLevel (irq pins))).1 in
    let irq_no := irq pins in
    let '(b, service_rc) := idf b InstallIsrService in
    let '(b, add_rc) := idf b (IsrHandlerAdd (irq pins)) in
    let b := (idf b (IntrDisable (irq pins))).1 in
    let b := (idf b (ConfigOutput (ven pins))).1 in
    (Ok (mkEsp b false pins (replicate NTF_SLOTS None) 0 0 irq_no service_rc add_rc failures), b).

(** The handler of the IRQ. *)
Definition dummy_irq_isr t : EspPn7160Transport B := call t (IntrDisable (irq_pin_no t)).

Definition add_pn_device t : EspPn7160Transport B * result unit Z :=
  if dev t then (t, Ok tt)
  else
    let '(b, rc) := idf (hw t) (AddDevice (addr (board t)) 100000) in
    if rc =? 0 then (with_dev true (with_hw b t), Ok tt) else (with_hw b t, Err rc).

Definition level t (v : Z) : EspPn7160Transport B := call t (SetLevel (ven (board t)) v).
Definition pause t (ms : Z) : EspPn7160Transport B := with_hw (rtos_delay_ms (hw t) ms) t.

Definition ven_cycle t : EspPn7160Transport B :=
  let t := pause (level t 1) 10 in
  let t := pause (level t 0) 50 in
  pause (level t 1) 50.
Definition ven_cycle_extended t : EspPn7160Transport B :=
  let t := pause (level t 1) 10 in
  let t := pause (level t 0) 100 in
  pause (level t 1) 100.

Definition probe_addr t (a : Z) : EspPn7160Transport B * result unit Z :=
  let '(b, rc) := master_probe (hw t) a 50 in
  (with_hw b t, if rc =? 0 then Ok tt else Err rc).
Definition probe t : EspPn7160Transport B * result unit Z := probe_addr t (addr (board t)).

(** The constructors, on a transport [from_peripherals] made. *)
Definition finish (t : EspPn7160Transport B) : result (EspPn7160Transport B) Z * B :=
  let '(t, r) := add_pn_device t in
  (match r with Ok _ => Ok t | Err rc => Err rc end, hw t).

Definition with_peripherals (k : EspPn7160Transport B -> result (EspPn7160Transport B) Z * B)
    b failures pins : result (EspPn7160Transport B) Z * B :=
  let '(r, b) := from_peripherals b failures pins in
  match r with Ok t => k t | Err rc => (Err rc, b) end.

Definition bringup_config_order : B -> Z -> BoardPins -> result (EspPn7160Transport B) Z * B :=
  with_peripherals (fun t => finish (probe (ven_cycle t)).1).
(** With the feature [ven-never]. *)
Definition bringup_ven_never : B -> Z -> BoardPins -> result (EspPn7160Transport B) Z * B :=
  with_peripherals (fun t => finish (level t 1)).
Definition bringup_ven_timing : B -> Z -> BoardPins -> result (EspPn7160Transport B) Z * B :=
  with_peripherals (fun t => finish (ven_cycle_extended t)).

Fixpoint release_pads b (pins : list Z) : B :=
  match pins with
  | [] => b
  | pin :: pins => release_pads (idf (idf b (HoldDis pin)).1 (SleepSelDis pin)).1 pins
  end.
Definition bringup_pad_hold_clear b (failures : Z) (pins : BoardPins) :
    result (EspPn7160Transport B) Z * B :=
  let b := (idf b DeepSleepHoldDis).1 in
  bringup_config_order (release_pads b [sda pins; scl pins; irq pins; ven pins]) failures pins.

Definition push_ntf (f : Frame) t : EspPn7160Transport B :=
  let t := if (ntf_count t =? NTF_SLOTS)%nat then
      with_ring (<[ntf_head t := None]> (ntf t)) ((ntf_head t + 1) `mod` NTF_SLOTS)%nat
        (ntf_count t - 1) t
    else t in
  let tail := ((ntf_head t + ntf_count t) `mod` NTF_SLOTS)%nat in
  with_ring (<[tail := Some f]> (ntf t)) (ntf_head t) (ntf_count t + 1) t.

Definition pop_ntf t : EspPn7160Transport B * option Frame :=
  if (ntf_count t =? 0)%nat then (t, None)
  else
    let f := default None (ntf t !! ntf_head t) in
    (with_ring (<[ntf_head t := None]> (ntf t)) ((ntf_head t + 1) `mod` NTF_SLOTS)%nat
       (ntf_count t - 1) t, f).

Definition read_frame t : EspPn7160Transport B * option Frame :=
  let '(b, hdr) := master_receive (hw t) 3 XFER_TIMEOUT_MS in
  match hdr with
  | Err _ => (with_hw b t, None)
  | Ok hdr =>
      let plen := Z.to_nat (nth 2 hdr 0) in
      if (0 <? plen)%nat then
        let '(b, payload) := master_receive b plen XFER_TIMEOUT_MS in
        (with_hw b t, match payload with
                      | Err _ => None
                      | Ok payload => decode (hdr ++ payload)
                      end)
      else (with_hw b t, decode hdr)
  end.

(** The addresses that acknowledge. *)
Fixpoint scan_from (n : nat) (a found : Z) b : B * Z :=
  match n with
  | O => (b, found)
  | S n =>
      let '(b, rc) := master_probe b a 50 in
      scan_from n (a + 1) (if rc =? 0 then found + 1 else found) b
  end.
Definition i2c_scan t : EspPn7160Transport B * Z :=
  let '(b, found) := scan_from 0x7F 1 0 (hw t) in (with_hw b t, found).

Definition link_probe t : EspPn7160Transport B * bool :=
  let '(t, r) := probe t in (t, is_ok r).

Definition send t (cmd : list Z) : EspPn7160Transport B * bool :=
  let '(b, rc) := master_transmit (hw t) cmd SEND_TIMEOUT_MS in
  let t := with_hw b t in
  if negb (rc =? 0) then (with_failures (wrap32 (i2c_send_failures t + 1)) t, false)
  else (with_failures 0 t, true).

Definition irq_raised t : EspPn7160Transport B * bool :=
  let '(b, v) := gpio_get_level (hw t) (irq (board t)) in (with_hw b t, v =? 1).

Definition poll_frame t : EspPn7160Transport B * option Frame :=
  let '(t, raised) := irq_raised t in if raised then read_frame t else (t, None).

Fixpoint transact_loop (fuel : nat) (waited : Z) t :
    option (EspPn7160Transport B * option Frame) :=
  match fuel with
  | O => None
  | S fuel =>
      let '(t, raised) := irq_raised t in
      if raised then
        let '(t, f) := read_frame t in
        match f with
        | None => Some (t, None)
        | Some f =>
            if is_transact_reply f then Some (t, Some f)
            else transact_loop fuel waited (push_ntf f t)
        end
      else if IRQ_WAIT_BUDGET_US <=? waited then Some (t, None)
      else transact_loop fuel (wrap32 (waited + RTOS_TICK_US (B := B))) (pause t 1)
  end.

(** Every round waits for a tick or takes a frame. *)
Definition transact_fuel t : nat :=
  (supply (hw t) + Z.to_nat (IRQ_WAIT_BUDGET_US / RTOS_TICK_US (B := B)) + 2)%nat.

Lemma tick_range : 0 < RTOS_TICK_US (B := B) <= 1000000.
Proof.
  pose proof (tick_rate (B := B)) as H. unfold RTOS_TICK_US, tick_period_us.
  rewrite (proj2 (Z.eqb_neq _ _)) by lia. split.
  - apply Z.div_str_pos. lia.
  - apply Z.div_le_upper_bound; lia.
Qed.

(** The rounds of one tick that fill the budget. *)
Definition ticks (us : Z) : nat := Z.to_nat ((us + RTOS_TICK_US (B := B) - 1) / RTOS_TICK_US (B := B)).
Lemma ticks_zero us : us <= 0 -> ticks us = 0%nat.
Proof.
  intros Hu. unfold ticks. pose proof tick_range as [Ht _].
  pose proof (Z.div_lt_upper_bound (us + RTOS_TICK_US (B := B) - 1) (RTOS_TICK_US (B := B)) 1 Ht). lia.
Qed.
Lemma ticks_succ us : 0 < us -> ticks us = S (ticks (us - RTOS_TICK_US (B := B))).
Proof.
  intros Hu. unfold ticks. pose proof tick_range as [Ht _].
  replace (us + RTOS_TICK_US (B := B) - 1) with ((us - RTOS_TICK_US (B := B) + RTOS_TICK_US (B := B) - 1) + 1 * RTOS_TICK_US (B := B)) by lia.
  rewrite Z.div_add by lia.
  assert (0 <= (us - RTOS_TICK_US (B := B) + RTOS_TICK_US (B := B) - 1) / RTOS_TICK_US (B := B)) by (apply Z.div_pos; lia). lia.
Qed.

(** A frame that was read while the line was raised is one less to come. *)
Lemma esp_frame_supply t : (irq_raised t).2 = true ->
  match read_frame (irq_raised t).1 with
  | (t', Some _) => (supply (hw t') < supply (hw t))%nat
  | _ => True
  end.
Proof.
  unfold irq_raised, read_frame. pose proof (supply_header (hw t) (irq (board t)) XFER_TIMEOUT_MS) as H.
  destruct (gpio_get_level _ _) as [b v]. cbn [fst snd hw with_hw] in *. intros Hv.
  assert (v = 1) as -> by lia.
  destruct (master_receive b 3 XFER_TIMEOUT_MS) as [b1 [hdr|]]; [|done].
  specialize (H hdr eq_refl eq_refl). cbn [fst] in H.
  destruct (0 <? _)%nat; [|by destruct (decode hdr)].
  pose proof (supply_receive b1 (Z.to_nat (nth 2 hdr 0)) XFER_TIMEOUT_MS) as H2.
  destruct (master_receive b1 _ _) as [b2 [p|]]; [|done]. cbn [fst hw with_hw] in *.
  destruct (decode _); [cbn; lia|done].
Qed.

Lemma push_ntf_hw f t : hw (push_ntf f t) = hw t.
Proof. unfold push_ntf. by case_match. Qed.

Lemma esp_loop_returns fuel waited t : 0 <= waited <= 1200000 ->
  (supply (hw t) + ticks (IRQ_WAIT_BUDGET_US - waited) < fuel)%nat ->
  is_Some (transact_loop fuel waited t).
Proof.
  pose proof tick_range as Htick.
  revert waited t. induction fuel as [|fuel IH]; intros waited t Hw Hf; [lia|]. cbn [transact_loop].
  pose proof (esp_frame_supply t) as Hframe.
  assert (supply (hw (irq_raised t).1) <= supply (hw t))%nat as Hirq.
  { unfold irq_raised. pose proof (supply_irq (hw t) (irq (board t))). by destruct (gpio_get_level _ _). }
  destruct (irq_raised t) as [t1 []]; cbn [fst snd] in *.
  - specialize (Hframe eq_refl). destruct (read_frame t1) as [t2 [f|]]; [|by eexists].
    destruct (is_transact_reply f); [by eexists|]. apply IH; [done|]. rewrite push_ntf_hw. lia.
  - destruct (IRQ_WAIT_BUDGET_US <=? waited) eqn:E; [by eexists|].
    unfold IRQ_WAIT_BUDGET_US in *. rewrite ticks_succ in Hf by lia.
    assert (wrap32 (waited + RTOS_TICK_US (B := B)) = waited + RTOS_TICK_US (B := B)) as -> by int_lia.
    pose proof (supply_delay (hw t1) 1). apply IH; [lia|]. cbn [hw with_hw pause].
    replace (200000 - (waited + RTOS_TICK_US (B := B))) with (200000 - waited - RTOS_TICK_US (B := B)) by lia. lia.
Qed.

Lemma enough_ticks n : (n + ticks IRQ_WAIT_BUDGET_US < n + Z.to_nat (IRQ_WAIT_BUDGET_US / RTOS_TICK_US (B := B)) + 2)%nat.
Proof.
  unfold ticks. pose proof tick_range as Ht.
  assert ((IRQ_WAIT_BUDGET_US + RTOS_TICK_US (B := B) - 1) / RTOS_TICK_US (B := B) <= IRQ_WAIT_BUDGET_US / RTOS_TICK_US (B := B) + 1).
  { rewrite <- Z.div_add by lia. apply Z.div_le_mono; lia. }
  assert (0 <= IRQ_WAIT_BUDGET_US / RTOS_TICK_US (B := B)) by (apply Z.div_pos; unfold IRQ_WAIT_BUDGET_US; lia). lia.
Qed.

Lemma esp_transact_returns t : is_Some (transact_loop (transact_fuel t) 0 t).
Proof.
  apply esp_loop_returns; [lia|]. rewrite Z.sub_0_r. apply enough_ticks.
Qed.

Definition transact t (cmd : list Z) : EspPn7160Transport B * option Frame :=
  let '(b, rc) := master_transmit (hw t) cmd XFER_TIMEOUT_MS in
  let t := with_hw b t in
  if negb (rc =? 0) then (t, None)
  else is_Some_proj (esp_transact_returns t).

Definition wait_ms t (ms : Z) : EspPn7160Transport B := pause t (wrap32 ms).

Definition drain t : EspPn7160Transport B * option Frame :=
  let '(t, f) := pop_ntf t in
  match f with
  | Some f => (t, Some f)
  | None => poll_frame t
  end.

#[global] Instance esp_transport : Transport (EspPn7160Transport B) := {
  Nci.t_send := send;
  Nci.poll_frame := poll_frame;
  Nci.transact := transact;
  Nci.drain := drain;
  Nci.wait_ms := wait_ms;
  Nci.link_probe := link_probe
}.
End Esp.

End Esp.
