(* ===== verification/NciLinkSpec.v ===== *)
(** * The two links to the NFC controller: theorems

    About [NciLink.v]: both links behave as one reference link whose stash is a
    list that keeps its newest four frames; a [transact] on it returns within
    its budget; and a link to a controller that sends readable notifications is
    a [ReadableLink] for the driver. *)
From Stdlib Require Import ZArith Lia ZifyBool.
From stdpp Require Import prelude strings.
From S2P Require Import Prelude Nci NciSpec NciDriver NciDriverSpec NciReaderSpec NciLink.
Import Nci.
Local Open Scope Z_scope.

(** ** The reference link *)
(** What a link needs of the wire: writes (of commands, and of what [transact]
    sends), the IRQ line, the reading of one frame, one round of waiting and the
    number of rounds.  [w_left] bounds the frames still to come: a frame read
    while the line was raised is one less, and [w_fuel] is enough for all of
    them and the rounds. *)
Record Wire (B : Type) := mkWire {
  w_send : B -> list Z -> B * bool;
  w_write : B -> list Z -> B * bool;
  w_irq : B -> B * bool;
  w_frame : B -> B * option Frame;
  w_tick : B -> B;
  w_wait : B -> Z -> B;
  w_probe : B -> B * bool;
  w_rounds : nat;
  w_left : B -> nat;
  w_fuel : B -> nat;
  w_irq_left b : (w_left (w_irq b).1 <= w_left b)%nat;
  w_frame_left b f : (w_irq b).2 = true -> (w_frame (w_irq b).1).2 = Some f ->
    (w_left (w_frame (w_irq b).1).1 < w_left b)%nat;
  w_tick_left b : (w_left (w_tick b) <= w_left b)%nat;
  w_enough b : (w_left b + w_rounds < w_fuel b)%nat
}.
Arguments mkWire {B}.
Arguments w_send {B} _ _ _.
Arguments w_write {B} _ _ _.
Arguments w_irq {B} _ _.
Arguments w_frame {B} _ _.
Arguments w_tick {B} _ _.
Arguments w_wait {B} _ _ _.
Arguments w_probe {B} _ _.
Arguments w_rounds {B} _.
Arguments w_left {B} _ _.
Arguments w_fuel {B} _ _.
Arguments w_irq_left {B} _ _.
Arguments w_frame_left {B} _ _ _.
Arguments w_tick_left {B} _ _.
Arguments w_enough {B} _ _.

(** The stash after a frame more: the newest four. *)
Definition newest (q : list Frame) : list Frame := drop (length q - NTF_STASH_SLOTS) q.

Section Reference.
Context {B : Type} (W : Wire B).

(** The hardware and the stash. *)
Definition RefLink : Type := B * list Frame.
Implicit Types s : RefLink.

Definition ref_poll s : RefLink * option Frame :=
  let '(b, raised) := w_irq W s.1 in
  if raised then let '(b, f) := w_frame W b in ((b, s.2), f) else ((b, s.2), None).

Fixpoint await (fuel rounds : nat) s : option (RefLink * option Frame) :=
  match fuel with
  | O => None
  | S fuel =>
      let '(b, raised) := w_irq W s.1 in
      if raised then
        let '(b, f) := w_frame W b in
        match f with
        | None => Some ((b, s.2), None)
        | Some f =>
            if is_transact_reply f then Some ((b, s.2), Some f)
            else await fuel rounds (b, newest (s.2 ++ [f]))
        end
      else
        match rounds with
        | O => Some ((b, s.2), None)
        | S rounds => await fuel rounds (w_tick W b, s.2)
        end
  end.

Lemma await_returns fuel rounds s : (w_left W s.1 + rounds < fuel)%nat -> is_Some (await fuel rounds s).
Proof.
  revert rounds s. induction fuel as [|fuel IH]; intros rounds s Hf; [lia|]. cbn [await].
  pose proof (w_irq_left W s.1) as H1. pose proof (w_frame_left W s.1) as H2.
  destruct (w_irq W s.1) as [b []]; cbn [fst snd] in *.
  - destruct (w_frame W b) as [b1 [f|]]; [|by eexists]. specialize (H2 f eq_refl eq_refl).
    destruct (is_transact_reply f); [by eexists|]. apply IH. cbn [fst] in *. lia.
  - pose proof (w_tick_left W b). destruct rounds as [|rounds]; [by eexists|]. apply IH. cbn [fst]. lia.
Qed.
Lemma ref_returns s : is_Some (await (w_fuel W s.1) (w_rounds W) s).
Proof. apply await_returns, w_enough. Qed.

Definition ref_transact s (cmd : list Z) : RefLink * option Frame :=
  let '(b, ok) := w_write W s.1 cmd in
  if ok then is_Some_proj (ref_returns (b, s.2)) else ((b, s.2), None).

Definition ref_drain s : RefLink * option Frame :=
  match s.2 with
  | f :: q => ((s.1, q), Some f)
  | [] => ref_poll s
  end.

Definition ref_transport : Transport RefLink := {|
  t_send s cmd := let '(b, ok) := w_send W s.1 cmd in ((b, s.2), ok);
  poll_frame := ref_poll;
  transact := ref_transact;
  drain := ref_drain;
  wait_ms s ms := (w_wait W s.1 ms, s.2);
  link_probe s := let '(b, ok) := w_probe W s.1 in ((b, s.2), ok)
|}.
End Reference.

(** ** The operations of a link, as inputs and answers *)
Inductive link_op := OSend (cmd : list Z) | OPoll | OTransact (cmd : list Z) | ODrain
  | OWait (ms : Z) | OProbe.
Definition frame_answer {T} (r : T * option Frame) : T * (option Frame * bool) := (r.1, (r.2, true)).
Definition flag_answer {T} (r : T * bool) : T * (option Frame * bool) := (r.1, (None, r.2)).
Definition link_answer {T} `{!Transport T} (t : T) (o : link_op) : T * (option Frame * bool) :=
  match o with
  | OSend cmd => flag_answer (t_send t cmd)
  | OPoll => frame_answer (poll_frame t)
  | OTransact cmd => frame_answer (transact t cmd)
  | ODrain => frame_answer (drain t)
  | OWait ms => (wait_ms t ms, (None, true))
  | OProbe => flag_answer (link_probe t)
  end.
Definition link_step {T} `{!Transport T} (t : T) (o : link_op) : outcome (T * (option Frame * bool)) :=
  Ret (link_answer t o).

(** A link does what the reference does: from related states, the same answer
    and related states again. *)
Definition mirrors {T B} `{!Transport T} (W : Wire B) (inv : T -> Prop) (abs : T -> RefLink) : Prop :=
  simulates link_step (@link_answer _ (ref_transport W)) inv (fun _ => True) abs.

(** *** The link over embedded-hal *)
Section HalRefines.
Import Hal.
Context {B : Type} `{!HalPins B, !Controller B}.
Implicit Types (b : B) (t : HalPn7160Transport B).

#[local] Obligation Tactic := idtac.
Definition hal_line (b : B) : B * bool := let '(b, high) := irq_is_high b in (b, default false high).
Definition hal_frame (a : Z) (b : B) : B * option Frame := let '(t, f) := read_frame (new b a) in (hw t, f).

Lemma hal_line_left b : (supply (hal_line b).1 <= supply b)%nat.
Proof. unfold hal_line. pose proof (supply_irq b). by destruct (irq_is_high b). Qed.
Lemma hal_frame_left a b f : (hal_line b).2 = true -> (hal_frame a (hal_line b).1).2 = Some f ->
  (supply (hal_frame a (hal_line b).1).1 < supply b)%nat.
Proof.
  unfold hal_line, hal_frame. intros Hr Hf. pose proof (frame_supply (new b a)) as H.
  unfold irq_raised in H. cbn [hw new] in H. destruct (irq_is_high b) as [b1 high]. cbn [fst snd] in *.
  specialize (H Hr). change (with_hw b1 (new b a)) with (new b1 a) in H.
  destruct (read_frame (new b1 a)) as [t r]. cbn [fst snd] in *. by subst r.
Qed.
Lemma hal_enough b :
  (supply b + Z.to_nat IRQ_WAIT_BUDGET_MS < supply b + Z.to_nat IRQ_WAIT_BUDGET_MS + 1)%nat.
Proof. lia. Qed.

Definition hal_wire (a : Z) : Wire B := {|
  w_send b cmd := i2c_write b a cmd;
  w_write b cmd := i2c_write b a cmd;
  w_irq := hal_line;
  w_frame := hal_frame a;
  w_tick b := delay_ms b 1;
  w_wait b ms := delay_ms b (wrap32 ms);
  w_probe b := i2c_write b a [];
  w_rounds := Z.to_nat IRQ_WAIT_BUDGET_MS;
  w_left := supply;
  w_fuel b := (supply b + Z.to_nat IRQ_WAIT_BUDGET_MS + 1)%nat;
  w_irq_left := hal_line_left;
  w_frame_left b := hal_frame_left a b;
  w_tick_left b := supply_delay b 1;
  w_enough := hal_enough
|}.

Record hal_inv (a : Z) t : Prop := { hi_addr : hal_addr t = a; hi_ntf : (length (ntf t) <= 4)%nat }.
Definition hal_abs t : RefLink := (hw t, ntf t).

Lemma hal_read_frame t : read_frame t =
  let '(b, f) := w_frame (hal_wire (hal_addr t)) (hw t) in (with_hw b t, f).
Proof.
  cbn [w_frame hal_wire]. unfold hal_frame, read_frame, new. cbn [hw hal_addr].
  repeat case_match; by simplify_eq.
Qed.
Lemma hal_irq t : irq_raised t =
  let '(b, r) := w_irq (hal_wire (hal_addr t)) (hw t) in (with_hw b t, r).
Proof. unfold irq_raised. cbn. unfold hal_line. by destruct (irq_is_high (hw t)). Qed.

Lemma hal_push f t : (length (ntf t) <= 4)%nat ->
  push_ntf f t = with_ntf (newest (ntf t ++ [f])) t.
Proof.
  intros Hl. unfold push_ntf, newest. f_equal. rewrite length_app. cbn [length].
  unfold NTF_STASH_SLOTS. case_match.
  - replace (length (ntf t) + 1 - 4)%nat with 1%nat by lia. by rewrite drop_app_le by lia.
  - by replace (length (ntf t) + 1 - 4)%nat with 0%nat by lia.
Qed.
Lemma length_newest q : (length (newest q) <= 4)%nat.
Proof. unfold newest, NTF_STASH_SLOTS. rewrite length_drop. lia. Qed.

Lemma hal_loop fuel waited t : 0 <= waited -> hal_inv (hal_addr t) t ->
  match await (hal_wire (hal_addr t)) fuel (Z.to_nat (IRQ_WAIT_BUDGET_MS - waited)) (hal_abs t) with
  | None => transact_loop fuel waited t = None
  | Some (s, f) => exists t', transact_loop fuel waited t = Some (t', f) /\
      hal_inv (hal_addr t) t' /\ hal_abs t' = s
  end.
Proof.
  revert waited t. induction fuel as [|fuel IH]; intros waited t Hw [_ Hl]; [done|].
  cbn [await transact_loop hal_abs fst snd]. rewrite hal_irq.
  destruct (w_irq _ _) as [b []].
  - rewrite hal_read_frame. cbn [hal_addr hw with_hw]. destruct (w_frame _ b) as [b1 [f|]].
    2: { by eexists. }
    destruct (is_transact_reply f); [by eexists|]. rewrite hal_push by done.
    set (t1 := with_ntf _ _).
    specialize (IH waited t1 Hw). apply IH. split; [done|apply length_newest].
  - unfold IRQ_WAIT_BUDGET_MS in *. destruct (200 <=? waited) eqn:E.
    + replace (Z.to_nat (200 - waited)) with 0%nat by lia. by eexists.
    + replace (Z.to_nat (200 - waited)) with (S (Z.to_nat (200 - (waited + 1)))) by lia.
      apply (IH (waited + 1) (with_hw (delay_ms b 1) t)); [lia|by split].
Qed.

Lemma hal_mirrors a : mirrors (hal_wire a) (hal_inv a) hal_abs.
Proof.
  intros t o Ht _. pose proof Ht as [<- Hl]. unfold link_step.
  enough (exists t', link_answer t o = (t', (@link_answer _ (ref_transport (hal_wire (hal_addr t)))
      (hal_abs t) o).2) /\ hal_inv (hal_addr t) t' /\
    hal_abs t' = (@link_answer _ (ref_transport (hal_wire (hal_addr t))) (hal_abs t) o).1)
    as (t' & -> & H) by (by exists t').
  assert (exists t', poll_frame t = (t', (ref_poll (hal_wire (hal_addr t)) (hal_abs t)).2) /\
     hal_inv (hal_addr t) t' /\ hal_abs t' = (ref_poll (hal_wire (hal_addr t)) (hal_abs t)).1) as Hpoll.
  { unfold poll_frame, ref_poll. rewrite hal_irq. cbn [hal_abs fst snd].
    destruct (w_irq _ _) as [b []]; [|by eexists]. rewrite hal_read_frame. cbn [hal_addr hw with_hw].
    destruct (w_frame _ b) as [b1 f]. by eexists. }
  destruct o as [cmd| |cmd| |ms|]; cbn [link_answer Nci.t_send Nci.poll_frame Nci.transact Nci.drain
    Nci.wait_ms Nci.link_probe hal_transport ref_transport]; unfold frame_answer, flag_answer.
  - unfold send. cbn [hal_abs fst snd w_send hal_wire]. destruct (i2c_write _ _ _). by eexists.
  - destruct Hpoll as (t' & -> & H). by exists t'.
  - unfold transact, ref_transact. cbn [hal_abs fst snd w_write hal_wire].
    destruct (i2c_write _ _ _) as [b []]; [|by eexists].
    pose proof (hal_loop (transact_fuel (with_hw b t)) 0 (with_hw b t) ltac:(lia) ltac:(by split)) as H.
    cbn [hal_addr with_hw] in H. change (hal_abs (with_hw b t)) with (b, ntf t) in H.
    pose proof (ref_returns (hal_wire (hal_addr t)) (b, ntf t)) as Hret. cbn [fst] in Hret.
    change (w_fuel (hal_wire (hal_addr t)) b) with (transact_fuel (with_hw b t)) in Hret.
    destruct Hret as [[s f] Hret]. rewrite (is_Some_proj_eq _ _ _ Hret).
    change (await (hal_wire (hal_addr t)) (transact_fuel (with_hw b t))
      (Z.to_nat (IRQ_WAIT_BUDGET_MS - 0)) (b, ntf t) = Some (s, f)) in Hret. rewrite Hret in H.
    destruct H as (t' & E & H). rewrite (is_Some_proj_eq _ _ _ E). by exists t'.
  - unfold drain, pop_ntf, ref_drain. destruct t as [b a [|f q]]; cbn [ntf hal_abs fst snd] in *.
    + destruct Hpoll as (t' & E & H). exists t'. unfold with_ntf. by rewrite E.
    + eexists. split; [done|]. split; [split; [done|cbn in *; lia]|done].
  - by eexists.
  - unfold link_probe. cbn [hal_abs fst snd w_probe hal_wire]. destruct (i2c_write _ _ _). by eexists.
Qed.
End HalRefines.

(** *** The link over ESP-IDF *)
Section EspRefines.
Import Esp.
Context {B : Type} `{!Idf B, !Controller B}.
Implicit Types (b : B) (t : EspPn7160Transport B).
#[local] Obligation Tactic := idtac.

(** A transport to read and write with, on the board's pins. *)
Definition bare (pins : BoardPins) b : EspPn7160Transport B :=
  mkEsp b true pins (replicate NTF_SLOTS None) 0 0 0 0 0 0.

Definition esp_line (pins : BoardPins) (b : B) : B * bool :=
  let '(b, v) := gpio_get_level b (irq pins) in (b, v =? 1).
Definition esp_frame (pins : BoardPins) (b : B) : B * option Frame :=
  let '(t, f) := read_frame (bare pins b) in (hw t, f).

Lemma esp_line_left pins b : (supply (esp_line pins b).1 <= supply b)%nat.
Proof. unfold esp_line. pose proof (supply_irq b (irq pins)). by destruct (gpio_get_level _ _). Qed.
Lemma esp_frame_left pins b f :
  (esp_line pins b).2 = true -> (esp_frame pins (esp_line pins b).1).2 = Some f ->
  (supply (esp_frame pins (esp_line pins b).1).1 < supply b)%nat.
Proof.
  unfold esp_line, esp_frame. intros Hr Hf. pose proof (esp_frame_supply (bare pins b)) as H.
  unfold irq_raised in H. cbn [hw board bare] in H. destruct (gpio_get_level _ _) as [b1 v]. cbn [fst snd] in *.
  specialize (H Hr). change (with_hw b1 (bare pins b)) with (bare pins b1) in H.
  destruct (read_frame (bare pins b1)) as [t r]. cbn [fst snd] in *. by subst r.
Qed.

Definition esp_wire (pins : BoardPins) : Wire B := {|
  w_send b cmd := let '(b, rc) := master_transmit b cmd SEND_TIMEOUT_MS in (b, rc =? 0);
  w_write b cmd := let '(b, rc) := master_transmit b cmd XFER_TIMEOUT_MS in (b, rc =? 0);
  w_irq := esp_line pins;
  w_frame := esp_frame pins;
  w_tick b := rtos_delay_ms b 1;
  w_wait b ms := rtos_delay_ms b (wrap32 ms);
  w_probe b := let '(b, rc) := master_probe b (addr pins) 50 in (b, rc =? 0);
  w_rounds := ticks (B := B) IRQ_WAIT_BUDGET_US;
  w_left := supply;
  w_fuel b := (supply b + Z.to_nat (IRQ_WAIT_BUDGET_US / RTOS_TICK_US (B := B)) + 2)%nat;
  w_irq_left := esp_line_left pins;
  w_frame_left b := esp_frame_left pins b;
  w_tick_left b := supply_delay b 1;
  w_enough b := enough_ticks (supply b)
|}.

(** The stashed frames, oldest first. *)
Definition stashed (slots : list (option Frame)) (head count : nat) : list (option Frame) :=
  map (fun i => default None (slots !! ((head + i) `mod` NTF_SLOTS)%nat)) (List.seq 0 count).

(** The ring holds the queue [q]. *)
Record ring_holds t (q : list Frame) : Prop := {
  rh_slots : length (ntf t) = NTF_SLOTS;
  rh_head : (ntf_head t < NTF_SLOTS)%nat;
  rh_count : (ntf_count t <= NTF_SLOTS)%nat;
  rh_queue : stashed (ntf t) (ntf_head t) (ntf_count t) = map Some q
}.
Definition esp_abs t : RefLink :=
  (hw t, omap id (stashed (ntf t) (ntf_head t) (ntf_count t))).
Record esp_inv (pins : BoardPins) t : Prop := {
  ei_board : board t = pins;
  ei_ring : exists q, ring_holds t q
}.
Lemma omap_map_Some {A} (q : list A) : omap id (map Some q) = q.
Proof. induction q as [|x q IH]; [done|]. cbn. by f_equal. Qed.
Lemma esp_abs_eq t q : ring_holds t q -> esp_abs t = (hw t, q).
Proof. intros H. unfold esp_abs. by rewrite (rh_queue t q H), omap_map_Some. Qed.

(** The ring by cases: four slots, four heads, five counts. *)
Ltac by_slots t :=
  destruct t as [? ? ? slots head count ? ? ? ?]; cbn [ntf ntf_head ntf_count] in *;
  change NTF_SLOTS with 4%nat in *; change NTF_STASH_SLOTS with 4%nat in *;
  destruct slots as [|? [|? [|? [|? [|]]]]]; try done;
  destruct head as [|[|[|[|]]]]; try lia;
  destruct count as [|[|[|[|[|]]]]]; try lia.

Lemma length_ring t q : ring_holds t q -> length q = ntf_count t.
Proof.
  intros [_ _ _ Hq]. apply (f_equal length) in Hq. unfold stashed in Hq.
  by rewrite !length_map, length_seq in Hq.
Qed.
Ltac by_queue Hq q :=
  destruct q as [|? [|? [|? [|? [|]]]]]; cbn in Hq; try discriminate Hq; simplify_eq.

Lemma ring_push f t q : ring_holds t q -> ring_holds (push_ntf f t) (newest (q ++ [f])).
Proof.
  intros [Hs Hh Hc Hq]. by_slots t; by_queue Hq q;
    (split; [reflexivity|apply Nat.ltb_lt; reflexivity|apply Nat.leb_le; reflexivity|reflexivity]).
Qed.

Lemma ring_pop t q : ring_holds t q ->
  (pop_ntf t).2 = head q /\ ring_holds (pop_ntf t).1 (tail q).
Proof.
  intros [Hs Hh Hc Hq]. by_slots t; by_queue Hq q;
    (split; [reflexivity|split; [reflexivity|apply Nat.ltb_lt; reflexivity
      |apply Nat.leb_le; reflexivity|reflexivity]]).
Qed.

Lemma esp_irq t : irq_raised t =
  let '(b, r) := w_irq (esp_wire (board t)) (hw t) in (with_hw b t, r).
Proof. unfold irq_raised. cbn. unfold esp_line. by destruct (gpio_get_level _ _). Qed.
Lemma esp_read_frame t : read_frame t =
  let '(b, f) := w_frame (esp_wire (board t)) (hw t) in (with_hw b t, f).
Proof.
  cbn [w_frame esp_wire]. unfold esp_frame, read_frame, bare. cbn [hw].
  repeat case_match; by simplify_eq.
Qed.

Lemma ring_same t t' q : ntf t' = ntf t -> ntf_head t' = ntf_head t -> ntf_count t' = ntf_count t ->
  ring_holds t q -> ring_holds t' q.
Proof. intros H1 H2 H3 []. split; by rewrite ?H1, ?H2, ?H3. Qed.

Lemma ring_hw b t q : ring_holds t q -> ring_holds (with_hw b t) q.
Proof. by apply ring_same. Qed.
Local Hint Resolve ring_hw : core.

Lemma esp_loop fuel waited t q : 0 <= waited <= 1200000 -> ring_holds t q ->
  match await (esp_wire (board t)) fuel (ticks (B := B) (IRQ_WAIT_BUDGET_US - waited)) (hw t, q) with
  | None => transact_loop fuel waited t = None
  | Some (s, f) => exists t', transact_loop fuel waited t = Some (t', f) /\
      board t' = board t /\ hw t' = s.1 /\ ring_holds t' s.2
  end.
Proof.
  pose proof (tick_range (B := B)) as Ht. revert waited t q. induction fuel as [|fuel IH]; intros waited t q Hw Hr; [done|].
  cbn [await transact_loop fst snd]. rewrite esp_irq.
  destruct (w_irq _ _) as [b []].
  - rewrite esp_read_frame. cbn [board hw with_hw]. destruct (w_frame _ b) as [b1 [f|]].
    2: { eexists. by split_and!; auto. }
    destruct (is_transact_reply f); [eexists; by split_and!; auto|].
    set (t1 := with_hw b1 _).
    assert (ring_holds (push_ntf f t1) (newest (q ++ [f]))) as H1 by (apply ring_push; subst t1; auto).
    assert (board (push_ntf f t1) = board t /\ hw (push_ntf f t1) = b1) as [H2 H3]
      by (unfold push_ntf; by case_match).
    specialize (IH waited (push_ntf f t1) _ Hw H1). by rewrite H2, H3 in IH.
  - unfold IRQ_WAIT_BUDGET_US in *. destruct (200000 <=? waited) eqn:E.
    + rewrite ticks_zero by lia. eexists. by split_and!; auto.
    + rewrite ticks_succ by lia.
      assert (wrap32 (waited + RTOS_TICK_US (B := B)) = waited + RTOS_TICK_US (B := B)) as -> by int_lia.
      assert (0 <= waited + RTOS_TICK_US (B := B) <= 1200000) as Hw' by lia.
      specialize (IH _ (pause (with_hw b t) 1) q Hw').
      replace (200000 - waited - RTOS_TICK_US (B := B))
        with (200000 - (waited + RTOS_TICK_US (B := B))) by lia.
      apply IH. by eapply ring_same, Hr.
Qed.

Lemma esp_mirrors pins : mirrors (esp_wire pins) (esp_inv pins) esp_abs.
Proof.
  intros t o Ht _. pose proof Ht as [<- [q Hr]]. unfold link_step. rewrite (esp_abs_eq t q Hr).
  assert (forall t', board t' = board t -> (exists q', ring_holds t' q') -> esp_inv (board t) t') as Hinv
    by by split.
  enough (exists t' q', link_answer t o = (t', (@link_answer _ (ref_transport (esp_wire (board t)))
      (hw t, q) o).2) /\ board t' = board t /\ ring_holds t' q' /\
    (hw t', q') = (@link_answer _ (ref_transport (esp_wire (board t))) (hw t, q) o).1)
    as (t' & q' & -> & H1 & H2 & H3).
  { exists t'. split; [done|]. split; [eauto|]. by rewrite (esp_abs_eq t' q' H2). }
  assert (forall t q, board t = board t -> ring_holds t q ->
    exists t', poll_frame t = (t', (ref_poll (esp_wire (board t)) (hw t, q)).2) /\
     board t' = board t /\ ring_holds t' q /\ (hw t', q) = (ref_poll (esp_wire (board t)) (hw t, q)).1) as Hpoll.
  { intros t0 q0 _ H0. unfold poll_frame, ref_poll. rewrite esp_irq. cbn [fst snd].
    destruct (w_irq _ _) as [b []]; cycle 1.
    { eexists. split; [done|]. split; [done|]. split; [|done]. by eapply ring_same, H0. }
    rewrite esp_read_frame. cbn [board hw with_hw]. destruct (w_frame _ b) as [b1 f].
    eexists. split; [done|]. split; [done|]. split; [|done]. by eapply ring_same, H0. }
  destruct o as [cmd| |cmd| |ms|]; cbn [link_answer Nci.t_send Nci.poll_frame Nci.transact Nci.drain
    Nci.wait_ms Nci.link_probe esp_transport ref_transport]; unfold frame_answer, flag_answer.
  - unfold send. cbn [fst snd w_send esp_wire]. destruct (master_transmit _ _ _) as [b rc].
    destruct (rc =? 0); eexists _, q; (split; [done|]; split; [done|]; split; [|done];
      by eapply ring_same, Hr).
  - destruct (Hpoll t q eq_refl Hr) as (t' & -> & H). by exists t', q.
  - unfold transact, ref_transact. cbn [fst snd w_write esp_wire].
    destruct (master_transmit _ _ _) as [b rc].
    assert (ring_holds (with_hw b t) q) as H0 by (by eapply ring_same, Hr).
    destruct (rc =? 0); cbn [negb]; [|by eexists _, q].
    pose proof (esp_loop (transact_fuel (with_hw b t)) 0 (with_hw b t) q ltac:(lia) H0) as H.
    cbn [board hw with_hw] in H.
    pose proof (ref_returns (esp_wire (board t)) (b, q)) as Hret. cbn [fst] in Hret.
    change (w_fuel (esp_wire (board t)) b) with (transact_fuel (with_hw b t)) in Hret.
    destruct Hret as [[s f] Hret]. rewrite (is_Some_proj_eq _ _ _ Hret).
    change (await (esp_wire (board t)) (transact_fuel (with_hw b t))
      (ticks (B := B) (IRQ_WAIT_BUDGET_US - 0)) (b, q) = Some (s, f)) in Hret.
    rewrite Hret in H. destruct H as (t' & E & H1 & H2 & H3). rewrite (is_Some_proj_eq _ _ _ E). exists t', s.2. rewrite H2. by destruct s.
  - unfold drain, ref_drain. destruct (ring_pop t q Hr) as [H1 H2].
    assert (board (pop_ntf t).1 = board t /\ hw (pop_ntf t).1 = hw t) as [H3 H4]
      by (unfold pop_ntf; by case_match).
    destruct (pop_ntf t) as [t1 f]. cbn [fst snd] in *. subst f. destruct q as [|f q]; cbn [head tail] in *.
    + destruct (Hpoll t1 [] eq_refl H2) as (t' & E & H5 & H6 & H7). exists t', [].
      rewrite H3, H4 in *. by rewrite E.
    + exists t1, q. by rewrite H4.
  - eexists _, q. split; [done|]. split; [done|]. split; [|done]. by eapply ring_same, Hr.
  - unfold link_probe, probe, probe_addr. cbn [fst snd w_probe esp_wire].
    destruct (master_probe _ _ _) as [b rc]. eexists _, q. split; [by destruct (rc =? 0)|].
    split; [done|]. split; [|done]. by eapply ring_same, Hr.
Qed.
End EspRefines.

(** A controller that never stops raising notifications: the loop of [transact]
    takes one after the other and does not return, however many turns it is
    given. *)
Lemma flooded_transact {B} `{!Hal.HalPins B} fuel waited (t : Hal.HalPn7160Transport B) :
  (forall t, exists t1 t2 f, Hal.irq_raised (B := B) t = (t1, true) /\
     Hal.read_frame t1 = (t2, Some f) /\ is_transact_reply f = false) ->
  Hal.transact_loop fuel waited t = None.
Proof.
  intros Hf. revert waited t. induction fuel as [|fuel IH]; intros waited t; [done|].
  cbn [Hal.transact_loop]. destruct (Hf t) as (t1 & t2 & f & -> & -> & ->). apply IH.
Qed.
Lemma flooded_esp_transact {B} `{!Esp.Idf B} fuel waited (t : Esp.EspPn7160Transport B) :
  (forall t, exists t1 t2 f, Esp.irq_raised (B := B) t = (t1, true) /\
     Esp.read_frame t1 = (t2, Some f) /\ is_transact_reply f = false) ->
  Esp.transact_loop fuel waited t = None.
Proof.
  intros Hf. revert waited t. induction fuel as [|fuel IH]; intros waited t; [done|].
  cbn [Esp.transact_loop]. destruct (Hf t) as (t1 & t2 & f & -> & -> & ->). apply IH.
Qed.

(** C29: the two links, over embedded-hal and over ESP-IDF, are one reference
    link, for every hardware whose controller raises finitely many frames
    (Hal.Controller, Esp.Controller; on one that floods the link with
    notifications [transact] does not return, [flooded_transact]): for every
    sequence of writes, polls, transactions, drains, waits and probes they
    return the answers of a link whose stash is a list that keeps its newest
    four frames, oldest first -- the ring of optional slots included -- and
    whose [transact] returns after at most its number of silent rounds.  The
    links start with their address and pins and a well-formed stash.  The
    ESP-IDF link counts its budget in scheduler ticks, for every tick rate from
    one hertz to a megahertz. *)
Theorem nci_links_refine {B C} `{!Hal.HalPins B, !Hal.Controller B, !Esp.Idf C, !Esp.Controller C}
    a pins ops (t : Hal.HalPn7160Transport B) (u : Esp.EspPn7160Transport C) :
  hal_inv a t -> esp_inv pins u ->
  (exists t', run link_step t ops =
     Ret (t', (spec_run (@link_answer _ (ref_transport (hal_wire a))) (hal_abs t) ops).2) /\
     hal_inv a t') /\
  (exists u', run link_step u ops =
     Ret (u', (spec_run (@link_answer _ (ref_transport (esp_wire pins))) (esp_abs u) ops).2) /\
     esp_inv pins u').
Proof.
  intros Ht Hu. assert (Forall (fun _ : link_op => True) ops) as Hops by by apply Forall_true.
  split.
  - destruct (run_refines link_step _ _ _ hal_abs t ops (hal_mirrors a) Ht Hops) as (t' & E & Hi & _).
    by exists t'.
  - destruct (run_refines link_step _ _ _ esp_abs u ops (esp_mirrors pins) Hu Hops) as (u' & E & Hi & _).
    by exists u'.
Qed.

(** ** What a transaction does *)
Section Contract.
Context {B : Type} (W : Wire B).
Implicit Types (b : B) (q : list Frame).

(** What the wire does during a transaction: it delivers a frame, or one round
    passes in silence. *)
Inductive seen := Took (f : Frame) | Silent.
Definition wire_step b (e : seen) b' : Prop :=
  match e with
  | Took f => (w_irq W b).2 = true /\ w_frame W (w_irq W b).1 = (b', Some f)
  | Silent => (w_irq W b).2 = false /\ b' = w_tick W (w_irq W b).1
  end.
Definition taken (tr : list seen) : list Frame :=
  omap (fun e => match e with Took f => Some f | Silent => None end) tr.
Definition silences (tr : list seen) : nat :=
  length (List.filter (fun e => match e with Silent => true | _ => false end) tr).

(** How a transaction ends: with the reply, with a frame that cannot be read, or
    after its last silent round. *)
Definition ends (rounds : nat) (tr : list seen) b (r : option Frame) b' : Prop :=
  match r with
  | Some f => wire_step b (Took f) b' /\ is_transact_reply f = true
  | None =>
      (w_irq W b).2 = true /\ w_frame W (w_irq W b).1 = (b', None) \/
      w_irq W b = (b', false) /\ silences tr = rounds
  end.

Lemma newest_more q f : newest (newest q ++ [f]) = newest (q ++ [f]).
Proof.
  unfold newest, NTF_STASH_SLOTS. rewrite !length_app, length_drop. cbn [length].
  destruct (decide (length q <= 4)%nat).
  - replace (length q - 4)%nat with 0%nat by lia. rewrite drop_0. do 2 f_equal. lia.
  - rewrite !drop_app_le, drop_drop by (rewrite ?length_drop; lia). do 2 f_equal. lia.
Qed.
Lemma newest_app q l : newest (newest q ++ l) = newest (q ++ l).
Proof.
  revert q. induction l as [|f l IH]; intros q.
  - rewrite !app_nil_r. unfold newest, NTF_STASH_SLOTS. rewrite length_drop.
    rewrite drop_drop. f_equal. lia.
  - change (f :: l) with ([f] ++ l). rewrite !app_assoc, <- (IH (newest q ++ [f])), newest_more.
    by rewrite IH.
Qed.

Lemma await_spec fuel rounds b q : (w_left W b + rounds < fuel)%nat ->
  exists tr b1 r b', trace wire_step b tr b1 /\
    await W fuel rounds (b, newest q) = Some ((b', newest (q ++ taken tr)), r) /\
    Forall (fun f => is_transact_reply f = false) (taken tr) /\
    (silences tr <= rounds)%nat /\ ends rounds tr b1 r b'.
Proof.
  revert rounds b q. induction fuel as [|fuel IH]; intros rounds b q Hf; [lia|].
  cbn [await fst snd]. pose proof (w_irq_left W b) as Hirq. pose proof (w_frame_left W b) as Hframe.
  destruct (w_irq W b) as [b1 []] eqn:Ei; cbn [fst snd] in *.
  - destruct (w_frame W b1) as [b2 [f|]] eqn:Ef; cbn [fst snd] in *; cycle 1.
    { exists [], b, None, b2. rewrite app_nil_r. split; [constructor|]. split; [done|]. split; [constructor|]. split; [cbn; lia|].
      left. by rewrite Ei. }
    assert (wire_step b (Took f) b2) as Hstep by (split; by rewrite Ei).
    destruct (is_transact_reply f) eqn:Er.
    { exists [], b, (Some f), b2. rewrite app_nil_r. split; [constructor|]. split; [done|]. split; [constructor|]. split; [cbn; lia|]. done. }
    specialize (Hframe f eq_refl eq_refl). rewrite newest_more.
    destruct (IH rounds b2 (q ++ [f])) as (tr & b3 & r & b' & L & E & Hn & Hs & He); [lia|].
    exists (Took f :: tr), b3, r, b'. split_and!.
    + by econstructor.
    + rewrite E. by rewrite <- app_assoc.
    + by constructor.
    + exact Hs.
    + by destruct r.
  - pose proof (w_tick_left W b1) as Htick. destruct rounds as [|rounds].
    { exists [], b, None, b1. rewrite app_nil_r. split; [constructor|]. split; [done|]. split; [constructor|]. split; [cbn; lia|]. by right. }
    destruct (IH rounds (w_tick W b1) q) as (tr & b3 & r & b' & L & E & Hn & Hs & He); [lia|].
    exists (Silent :: tr), b3, r, b'. split_and!.
    + econstructor; [|exact L]. split; by rewrite Ei.
    + exact E.
    + exact Hn.
    + cbn. unfold silences in Hs. lia.
    + destruct r; [done|]. destruct He as [He|[He1 He2]]; [by left|right]. split; [done|].
      cbn. by unfold silences in He2; rewrite He2.
Qed.
End Contract.

(** A transaction on either link.  When the command cannot be written, there
    is no reply and the stash is untouched.  Otherwise the transaction ends: of
    what the controller raises it takes frame after frame, waits in between for
    at most its number of silent rounds, and returns the first frame that is no
    notification; the notifications before it go to the stash in their order, of
    which the newest four are kept.  Without a reply it returns because a frame
    could not be read, or after exactly its number of silent rounds. *)
Theorem transact_contract {T B} `{!Transport T} (W : Wire B) inv abs cmd (t : T) :
  mirrors W inv abs -> inv t -> (length (abs t).2 <= 4)%nat ->
  let '(t', r) := transact t cmd in
  inv t' /\
  let '(b, written) := w_write W (abs t).1 cmd in
  if written then
    exists tr b1 b', trace (wire_step W) b tr b1 /\ ends W (w_rounds W) tr b1 r b' /\
      abs t' = (b', newest ((abs t).2 ++ taken tr)) /\
      Forall (fun f => is_transact_reply f = false) (taken tr) /\
      (silences tr <= w_rounds W)%nat
  else r = None /\ abs t' = (b, (abs t).2).
Proof.
  intros HM Ht Hq. destruct (HM t (OTransact cmd) Ht I) as (t' & E & Hi & Ha).
  injection E as E Er. cbn [link_answer transact ref_transport] in *. unfold frame_answer in *.
  destruct (transact t cmd) as [t1 r]. cbn [fst snd] in *. subst t1 r.
  split; [done|]. rewrite Ha. clear Ha Hi. unfold ref_transact.
  destruct (abs t) as [b q]. cbn [fst snd] in *.
  destruct (w_write W b cmd) as [b1 []]; [|done].
  assert (newest q = q) as Hn.
  { unfold newest, NTF_STASH_SLOTS. by replace (length q - 4)%nat with 0%nat by lia. }
  destruct (await_spec W (w_fuel W b1) (w_rounds W) b1 q (w_enough W b1))
    as (tr & b2 & r & b' & L & E & H1 & H2 & H3).
  rewrite Hn in E. rewrite (is_Some_proj_eq _ _ _ E). cbn [fst snd]. by exists tr, b2, b'.
Qed.

(** ** A link to a controller that can be understood *)
Record polite {B} (W : Wire B) (ok : B -> Prop) : Prop := {
  po_send b cmd : ok b -> ok (w_send W b cmd).1;
  po_write b cmd : ok b -> ok (w_write W b cmd).1;
  po_irq b : ok b -> ok (w_irq W b).1;
  po_frame b : ok b -> ok (w_frame W b).1 /\
    match (w_frame W b).2 with Some f => heard f | None => True end;
  po_tick b : ok b -> ok (w_tick W b);
  po_wait b ms : ok b -> ok (w_wait W b ms);
  po_probe b : ok b -> ok (w_probe W b).1
}.

Section Readable.
Context {T B : Type} `{!Transport T} (W : Wire B) (ok : B -> Prop).
Context (inv : T -> Prop) (abs : T -> RefLink (B := B)).
Context (HM : mirrors W inv abs) (HP : polite W ok).

Definition stash_ok (s : RefLink (B := B)) : Prop := ok s.1 /\ Forall heard s.2.

Lemma newest_heard q : Forall heard q -> Forall heard (newest q).
Proof. apply Forall_drop. Qed.

Lemma await_heard fuel rounds s : stash_ok s ->
  match await W fuel rounds s with
  | None => True
  | Some (s', r) => stash_ok s' /\ match r with Some f => heard f | None => True end
  end.
Proof.
  revert rounds s. induction fuel as [|fuel IH]; intros rounds s [H1 H2]; [done|]. cbn [await].
  pose proof (po_irq W ok HP _ H1) as H3. destruct (w_irq W s.1) as [b []]; cbn [fst] in *.
  - destruct (po_frame W ok HP b H3) as [H4 H5]. destruct (w_frame W b) as [b1 [f|]]; [|done].
    destruct (is_transact_reply f); [done|]. apply IH. split; [done|].
    apply newest_heard, Forall_app. by split; [|constructor].
  - destruct rounds; [done|]. apply IH. split; [by apply (po_tick W ok HP)|done].
Qed.

Lemma poll_heard s : stash_ok s -> stash_ok (ref_poll W s).1 /\
  match (ref_poll W s).2 with Some f => heard f | None => True end.
Proof.
  intros [H1 H2]. unfold ref_poll. pose proof (po_irq W ok HP _ H1) as H3.
  destruct (w_irq W s.1) as [b []]; [|done].
  destruct (po_frame W ok HP b H3) as [H4 H5]. by destruct (w_frame W b).
Qed.

Lemma ref_heard s o : stash_ok s ->
  stash_ok (@link_answer _ (ref_transport W) s o).1 /\
  match (@link_answer _ (ref_transport W) s o).2.1 with Some f => heard f | None => True end.
Proof.
  intros Hs. pose proof Hs as [H1 H2]. destruct o as [cmd| |cmd| |ms|];
    cbn [link_answer t_send poll_frame transact drain wait_ms link_probe ref_transport];
    unfold frame_answer, flag_answer; cbn [fst snd].
  - pose proof (po_send W ok HP _ cmd H1). by destruct (w_send W s.1 cmd).
  - by apply poll_heard.
  - unfold ref_transact. pose proof (po_write W ok HP _ cmd H1) as H3.
    destruct (w_write W s.1 cmd) as [b []]; [|done].
    pose proof (await_heard (w_fuel W b) (w_rounds W) (b, s.2) ltac:(by split)) as H.
    destruct (ref_returns W (b, s.2)) as [[s' r] E]. rewrite (is_Some_proj_eq _ _ _ E).
    cbn [fst] in E. by rewrite E in H.
  - unfold ref_drain. destruct s as [b [|f q]]; cbn [fst snd] in *; [by apply poll_heard|].
    apply Forall_cons in H2 as [H2 H3]. by split.
  - split; [|done]. split; [by apply (po_wait W ok HP)|done].
  - pose proof (po_probe W ok HP _ H1). by destruct (w_probe W s.1).
Qed.

Lemma mirror_heard t o t1 r : inv t -> stash_ok (abs t) -> link_answer t o = (t1, r) ->
  (inv t1 /\ stash_ok (abs t1)) /\ match r.1 with Some f => heard f | None => True end.
Proof.
  intros Hi Hs E. destruct (HM t o Hi I) as (t' & E' & Hi' & Ha). injection E' as E'.
  rewrite E in E'. injection E' as -> ->. rewrite Ha.
  destruct (ref_heard (abs t) o Hs) as [H1 H2]. by split.
Qed.

(** Such a link satisfies the contract of the reader's theorems. *)
Definition link_readable : ReadableLink T.
Proof.
  refine {| link_ok t := inv t /\ stash_ok (abs t) |}.
  intros t e t1 [Hi Hs] H. destruct e as [cmd b|f|f|cmd f|ms]; cbn [stepped] in H.
  - destruct (mirror_heard t (OSend cmd) t1 (None, b) Hi Hs) as [Hok _]; [|done].
    cbn. unfold flag_answer. by rewrite H.
  - destruct (mirror_heard t OPoll t1 (f, true) Hi Hs) as [Hok Hf]; [|by destruct f].
    cbn. unfold frame_answer. by rewrite H.
  - destruct (mirror_heard t ODrain t1 (f, true) Hi Hs) as [Hok Hf]; [|by destruct f].
    cbn. unfold frame_answer. by rewrite H.
  - destruct (mirror_heard t (OTransact cmd) t1 (f, true) Hi Hs) as [Hok Hf]; [|by destruct f].
    cbn. unfold frame_answer. by rewrite H.
  - destruct (mirror_heard t (OWait ms) t1 (None, true) Hi Hs) as [Hok _]; [|done]. by rewrite H.
Defined.
End Readable.

(** ** A controller on the bench *)
Module Bench.

(** The clock in milliseconds, the frames to come with the time from which each
    raises the IRQ line, and the rest of a frame whose header was read. *)
Record Chip := mkChip { clock : Z; frames : list (Z * list Z); rest : list Z }.

Definition raised (c : Chip) : bool :=
  match rest c, frames c with
  | _ :: _, _ => true
  | [], (at_ms, _) :: _ => at_ms <=? clock c
  | [], [] => false
  end.
(** Reading past the end of a frame gives zeros. *)
Definition receive (c : Chip) (n : nat) : Chip * list Z :=
  let filled l := take n (l ++ replicate n 0) in
  match rest c, frames c with
  | _ :: _, _ => (mkChip (clock c) (frames c) [], filled (rest c))
  | [], (_, l) :: fs => (mkChip (clock c) fs (drop n l), filled l)
  | [], [] => (c, replicate n 0)
  end.
Definition pass (c : Chip) (ms : Z) : Chip := mkChip (clock c + ms) (frames c) (rest c).

(** The reads that can still find something. *)
Definition reads (c : Chip) : nat := (2 * length (frames c) + match rest c with [] => 0 | _ => 1 end)%nat.
#[export] Instance chip_hal : Hal.HalPins Chip := {
  Hal.i2c_write c a _ := (c, a =? 0x28);
  Hal.i2c_read c a n :=
    if a =? 0x28 then let '(c, l) := receive c n in (c, Some l) else (c, None);
  Hal.irq_is_high c := (c, Some (raised c));
  Hal.ven_set c _ := c;
  Hal.delay_ms := pass
}.
(** At a hundred ticks a second, a delay of a millisecond takes ten. *)
#[export] Instance chip_idf : Esp.Idf Chip := {
  Esp.idf c _ := (c, 0);
  Esp.master_transmit c _ _ := (c, 0);
  Esp.master_receive c n _ := let '(c, l) := receive c n in (c, Ok l);
  Esp.master_probe c a _ := (c, if a =? 0x28 then 0 else 263);
  Esp.gpio_get_level c _ := (c, if raised c then 1 else 0);
  Esp.rtos_delay_ms c ms := pass c (10 * ((ms + 9) / 10));
  Esp.configTICK_RATE_HZ := 100
}.

Lemma receive_supply c n : raised c = true -> (reads (receive c n).1 < reads c)%nat.
Proof.
  unfold raised, receive, reads.
  destruct c as [t fs [|b l]]; cbn; [|lia]. destruct fs as [|[at_ms l] fs]; [done|]. cbn.
  intros _. destruct (drop n l); lia.
Qed.

Lemma receive_le c n : (reads (receive c n).1 <= reads c)%nat.
Proof.
  unfold receive, reads. destruct c as [t fs [|b l]]; cbn; [|lia].
  destruct fs as [|[at_ms l] fs]; [done|]. cbn. destruct (drop n l); lia.
Qed.

(** It raises finitely many frames on both links. *)
#[export] Instance chip_hal_controller : Hal.Controller Chip.
Proof.
  refine {| Hal.supply := reads |}.
  - intros c. done.
  - intros c a hdr Hr. injection Hr as Hr. cbn. destruct (a =? 0x28); [|done].
    pose proof (receive_supply c 3 Hr). by destruct (receive c 3).
  - intros c a n. cbn. destruct (a =? 0x28); [|done]. pose proof (receive_le c n). by destruct (receive c n).
  - intros c ms. done.
Defined.
#[export] Instance chip_controller : Esp.Controller Chip.
Proof.
  refine {| Esp.supply := reads |}.
  - intros c pin. done.
  - intros c pin ms hdr Hr _. cbn in *. assert (raised c = true) as Hc by (by destruct (raised c)).
    pose proof (receive_supply c 3 Hc). by destruct (receive c 3).
  - intros c n ms. cbn. pose proof (receive_le c n). by destruct (receive c n).
  - intros c ms. done.
  - cbn. lia.
Defined.

(** A transport on it; a notification and a response within the budget. *)
Definition chatty : Chip :=
  mkChip 0 [(25, [0x61; 0x05; 1; 0]); (30, [0x40; 0x00; 1; 0])] [].
Definition link : Esp.EspPn7160Transport Chip :=
  Esp.mkEsp chatty true NUCULA (replicate 4 None) 3 0 6 0 0 0.
Lemma link_inv : esp_inv NUCULA link.
Proof. split; [done|exists []; split;
  [done|by apply Nat.ltb_lt|by apply Nat.leb_le|done]]. Qed.
End Bench.
Import Bench.

Definition bench_hal : Hal.HalPn7160Transport Chip := Hal.new chatty 0x28.

Example nci_links_refine_witness :
  hal_inv 0x28 bench_hal /\ esp_inv NUCULA Bench.link /\
  exists t', run link_step Bench.link [OTransact CORE_RESET; ODrain; OPoll] =
    Ret (t', [(decode [0x40; 0; 1; 0], true); (decode [0x61; 5; 1; 0], true); (None, true)]).
Proof.
  assert (hal_inv 0x28 bench_hal) as H1 by (split; [done|cbn; lia]).
  split; [exact H1|]. split; [exact link_inv|].
  destruct (nci_links_refine 0x28 NUCULA [OTransact CORE_RESET; ODrain; OPoll] bench_hal Bench.link
    H1 link_inv) as [_ (u & E & _)].
  exists u. rewrite E. vm_compute. reflexivity.
Defined.

Example transact_contract_witness :
  mirrors (esp_wire NUCULA) (esp_inv NUCULA) (esp_abs (B := Chip)) /\
  esp_inv NUCULA Bench.link /\
  exists tr b1 b', trace (wire_step (esp_wire NUCULA)) chatty tr b1 /\
    ends (esp_wire NUCULA) 20 tr b1 (decode [0x40; 0; 1; 0]) b' /\ (silences tr <= 20)%nat.
Proof.
  pose proof (esp_mirrors NUCULA (B := Chip)) as HM.
  split; [exact HM|]. split; [exact link_inv|].
  assert (length (esp_abs Bench.link).2 <= 4)%nat as Hq by (cbn; lia).
  pose proof (transact_contract (esp_wire NUCULA) (esp_inv NUCULA) esp_abs CORE_RESET Bench.link
    HM link_inv Hq) as H.
  assert ((transact Bench.link CORE_RESET).2 = decode [0x40; 0; 1; 0]) as Er by (vm_compute; reflexivity).
  destruct (transact Bench.link CORE_RESET) as [t' r]. cbn [snd] in Er. subst r.
  destruct H as [_ (tr & b1 & b' & L & He & _ & _ & Hs)]. exists tr, b1, b'. by split_and!.
Defined.
