(* ===== verification/Listen.v ===== *)
(** * Card emulation: the listen role of the NFC controller

    [pn7160-nci/src/listen.rs] and [responder.rs], and the loop of
    [esp32-ccid/src/pn7160_listen.rs] around them: the bring-up ladder, the
    session that reassembles a reader's commands and sends the answers one
    packet per credit, and the table of answers.  The link is the class of
    [Nci.v]; the unbounded [while let] loops over pending frames run for the
    link's [backlog].  The theorems are in [ListenSpec.v]. *)
From Stdlib Require Import ZArith Lia ZifyBool.
From stdpp Require Import prelude strings.
From S2P Require Import Prelude Nci.
Import Nci.
Local Open Scope Z_scope.

Module Listen.

(** How many frames are waiting on the link: the fuel of the loops that read
    until nothing is pending. *)
Class Backlog (T : Type) := backlog : T -> nat.

#[global] Instance mock_backlog : Backlog MockTransport := fun m =>
  (length (stash m) + length (notifications m) +
   match pending_rsp m with Some _ => 1 | None => 0 end)%nat.

(** ** Commands *)
Definition OID_RF_SET_LISTEN_MODE_ROUTING : Z := 0x01.
Definition RF_TECH_PASSIVE_NFCA_LISTEN : Z := 0x80.

Definition RF_DISCOVER_MAP_ISO_DEP_LISTEN : list Z :=
  [Z.lor MT_CMD GID_RF; OID_RF_DISCOVER_MAP; 0x04; 0x01; NCI_PROTOCOL_ISO_DEP;
   NCI_INTERFACE_ISO_DEP; 0x02].
Definition SET_CONFIG_LISTEN_NFCA : list Z :=
  [MT_CMD; OID_CORE_SET_CONFIG; 0x0A; 0x03; 0x30; 0x01; 0x04; 0x31; 0x01; 0x00; 0x32; 0x01; 0x20].
Definition RF_SET_LISTEN_MODE_ROUTING_DH_ISO_DEP : list Z :=
  [Z.lor MT_CMD GID_RF; OID_RF_SET_LISTEN_MODE_ROUTING; 0x07; 0x00; 0x01; 0x01; 0x03; 0x00;
   0x01; NCI_PROTOCOL_ISO_DEP].
Definition RF_DISCOVER_PASSIVE_A_LISTEN : list Z :=
  [Z.lor MT_CMD GID_RF; OID_RF_DISCOVER; 0x03; 0x01; RF_TECH_PASSIVE_NFCA_LISTEN; 0x01].

Definition LISTEN_STEPS : list (list Z) :=
  [CORE_INIT; SET_CONFIG_TOTAL_DURATION; SET_CONFIG_LISTEN_NFCA; RF_DISCOVER_MAP_ISO_DEP_LISTEN;
   RF_SET_LISTEN_MODE_ROUTING_DH_ISO_DEP; RF_DISCOVER_PASSIVE_A_LISTEN].

Section Ladder.
Context {T : Type} `{!Transport T, !Backlog T}.
Implicit Types t : T.

(** [while let Some(_f) = t.drain() {}] *)
Fixpoint drain_all (fuel : nat) t : T :=
  match fuel with
  | O => t
  | S fuel =>
      let '(t, f) := drain t in
      match f with Some _ => drain_all fuel t | None => t end
  end.

Fixpoint listen_steps (steps : list (list Z)) t : T * result unit string :=
  match steps with
  | [] => (t, Ok tt)
  | step :: steps =>
      let '(t, rsp) := transact t step in
      match rsp with
      | None => (t, Err "transport ran dry"%string)
      | Some rsp =>
          if negb (is_rsp_to rsp step) then (t, Err "response does not match command"%string)
          else if negb (bool_decide (status rsp = Some STATUS_OK))
          then (t, Err "listen ladder step rejected"%string)
          else listen_steps steps (drain_all (S (backlog t)) t)
      end
  end.

Definition run_ladder_listen t : T * result unit string :=
  let '(t, rsp) := transact t CORE_RESET in
  match rsp with
  | None => (t, Err "no CORE_RESET response"%string)
  | Some rsp =>
      if negb (is_rsp_to rsp CORE_RESET) then (t, Err "malformed CORE_RESET response"%string)
      else listen_steps LISTEN_STEPS (drain t).1
  end.

(** The retries of [pn7160_listen.rs]; [recover] is the power cycle of the
    controller and the probe after it. *)
Definition LADDER_ATTEMPTS : nat := 5.
Fixpoint ladder_attempts (recover : T -> T) (n : nat) t : T * result unit string :=
  match n with
  | O => (t, Err "listen ladder exhausted"%string)
  | S n =>
      let '(t, r) := run_ladder_listen t in
      match r with
      | Ok _ => (t, Ok tt)
      | Err _ => ladder_attempts recover n (recover t)
      end
  end.
Definition ladder_with_ven_retry (recover : T -> T) t : T * result unit string :=
  ladder_attempts recover LADDER_ATTEMPTS t.
End Ladder.

(** ** The session *)
Definition fragment_cap (max_data_payload : Z) : nat :=
  let advertised := Z.to_nat max_data_payload in
  if (advertised =? 0)%nat || (MAX_DATA_FRAGMENT <? advertised)%nat then MAX_DATA_FRAGMENT
  else advertised.

Inductive RespondError :=
| Inactive
| ConnUnbound
| Divergence (bound seen : Z)
| CreditTimeout
| SendFailed.

Definition CREDIT_POLLS : nat := 24.
Definition CREDIT_WAIT_MS : Z := 10.

Inductive ListenEvent :=
| Activated (max_data_payload initial_credits : Z)
| Apdu (capdu : list Z)
| ReaderLeft (reason : Z)
| ConnDivergence (bound seen : Z)
| RxOverflow.

(** [rx] is a vector of at most [RX_CAP] bytes. *)
Definition RX_CAP : nat := 1024.
Record ListenSession := mkSession {
  active : bool;
  bound_conn : option Z;
  credits : Z;
  max_data_payload : Z;
  rx : list Z
}.

Definition new : ListenSession := mkSession false None 0 0 [].
Definition reset (s : ListenSession) : ListenSession := new.

Definition with_conn (conn : Z) (s : ListenSession) : ListenSession :=
  mkSession (active s) (Some conn) (credits s) (max_data_payload s) (rx s).
Definition with_credits (n : Z) (s : ListenSession) : ListenSession :=
  mkSession (active s) (bound_conn s) n (max_data_payload s) (rx s).
Definition with_rx (l : list Z) (s : ListenSession) : ListenSession :=
  mkSession (active s) (bound_conn s) (credits s) (max_data_payload s) l.

(** The error is the divergence. *)
Definition bind_conn (seen : Z) (s : ListenSession) : ListenSession * option (Z * Z) :=
  match bound_conn s with
  | None => (with_conn seen s, None)
  | Some bound => if bound =? seen then (s, None) else (reset s, Some (bound, seen))
  end.

(** The entries [i], [i + 1], ... of a credit notification. *)
Fixpoint note_entries (f : Frame) (i entries : nat) (s : ListenSession) :
    ListenSession * option (Z * Z) :=
  match entries with
  | O => (s, None)
  | S entries =>
      let conn := pl f (1 + i * 2) in
      let granted := pl f (2 + i * 2) in
      let '(s, e) := bind_conn conn s in
      match e with
      | Some d => (s, Some d)
      | None => note_entries f (S i) entries (with_credits (Z.min (credits s + granted) u8_max) s)
      end
  end.
Definition note_credits (f : Frame) (s : ListenSession) : ListenSession * option (Z * Z) :=
  if (len f <? 1)%nat then (s, None)
  else note_entries f 0 (Z.to_nat (pl f 0) `min` ((len f - 1) / 2))%nat s.

(** [ListenSession::poll] on the frame it has read. *)
Definition on_frame (f : Frame) (s : ListenSession) : ListenSession * option ListenEvent :=
  if is_wtx_ntf f then (s, None)
  else if is_conn_credits_ntf f then
    let '(s, e) := note_credits f s in
    (s, option_map (fun d => ConnDivergence d.1 d.2) e)
  else if is_rf_ntf NTF_RF_INTF_ACTIVATED f && (6 <=? len f)%nat then
    let s := mkSession true (bound_conn s) (pl f 5) (pl f 4) [] in
    (s, Some (Activated (max_data_payload s) (credits s)))
  else if is_rf_ntf NTF_RF_DEACTIVATE f then
    (reset s, Some (ReaderLeft (if (2 <=? len f)%nat then pl f 1 else 0)))
  else if mt f =? MT_DATA then
    let '(s, e) := bind_conn (gid f) s in
    match e with
    | Some d => (s, Some (ConnDivergence d.1 d.2))
    | None =>
        if (RX_CAP <? length (rx s) + length (body f))%nat then (reset s, Some RxOverflow)
        else
          let s := with_rx (rx s ++ body f) s in
          if negb (pbf f) then (with_rx [] s, Some (Apdu (rx s))) else (s, None)
    end
  else (s, None).

Section Session.
Context {T : Type} `{!Transport T, !Backlog T}.
Implicit Types t : T.

Definition poll t (s : ListenSession) : T * ListenSession * option ListenEvent :=
  let '(t, f) := poll_frame t in
  match f with
  | None => (t, s, None)
  | Some f => let '(s, e) := on_frame f s in (t, s, e)
  end.

(** The inner loop of [await_credit]: it ends with a credit, a divergence or
    when nothing is pending. *)
Inductive await := Granted | Diverged (bound seen : Z) | NothingPending.
Fixpoint await_frames (fuel : nat) t (s : ListenSession) : T * ListenSession * await :=
  match fuel with
  | O => (t, s, NothingPending)
  | S fuel =>
      let '(t, f) := poll_frame t in
      match f with
      | None => (t, s, NothingPending)
      | Some f =>
          if is_conn_credits_ntf f then
            let '(s, e) := note_credits f s in
            match e with
            | Some (bound, seen) => (t, s, Diverged bound seen)
            | None => if 0 <? credits s then (t, s, Granted) else await_frames fuel t s
            end
          else await_frames fuel t s
      end
  end.

Fixpoint await_rounds (n : nat) t (s : ListenSession) :
    T * ListenSession * result unit RespondError :=
  match n with
  | O => (t, reset s, Err CreditTimeout)
  | S n =>
      let t := wait_ms t CREDIT_WAIT_MS in
      let '(t, s, a) := await_frames (S (backlog t)) t s in
      match a with
      | Granted => (t, s, Ok tt)
      | Diverged bound seen => (t, s, Err (Divergence bound seen))
      | NothingPending => if 0 <? credits s then (t, s, Ok tt) else await_rounds n t s
      end
  end.
Definition await_credit t (s : ListenSession) : T * ListenSession * result unit RespondError :=
  await_rounds CREDIT_POLLS t s.

(** The loop of [respond] from the [i]-th chunk on; [n] is the length of the
    answer. *)
Fixpoint respond_chunks (conn : Z) (cap n i : nat) (cs : list (list Z)) t (s : ListenSession) :
    T * ListenSession * result unit RespondError :=
  match cs with
  | [] => (t, s, Ok tt)
  | chunk :: cs =>
      let '(t, s, r) := if credits s =? 0 then await_credit t s else (t, s, Ok tt) in
      match r with
      | Err e => (t, s, Err e)
      | Ok _ =>
          match encode_fragment conn (S i * cap <? n)%nat chunk with
          | None => (t, reset s, Err SendFailed)
          | Some out =>
              let '(t, sent) := t_send t out in
              if negb sent then (t, reset s, Err SendFailed)
              else respond_chunks conn cap n (S i) cs t (with_credits (wrap8 (credits s - 1)) s)
          end
      end
  end.

Definition respond t (s : ListenSession) (rapdu : list Z) :
    T * ListenSession * result unit RespondError :=
  if negb (active s) then (t, s, Err Inactive)
  else
    match bound_conn s with
    | None => (t, s, Err ConnUnbound)
    | Some conn =>
        let cap := fragment_cap (max_data_payload s) in
        match rapdu with
        | [] => (t, s, Err SendFailed)
        | _ => respond_chunks conn cap (length rapdu) 0 (chunks cap rapdu) t s
        end
    end.
End Session.

(** ** The table of answers ([responder.rs])

    ["PN7160-LISTEN"] *)
Definition MARKER : list Z :=
  [0x50; 0x4E; 0x37; 0x31; 0x36; 0x30; 0x2D; 0x4C; 0x49; 0x53; 0x54; 0x45; 0x4E].
Definition ISD_AID : list Z := [0xA0; 0x00; 0x00; 0x00; 0x51; 0x00; 0x00].
Definition ISD_AID_FCI : list Z := [0xA0; 0x00; 0x00; 0x00; 0x51; 0x00; 0x00; 0x00].

Definition tlv (cap : nat) (tag : Z) (value out : list Z) : list Z :=
  vec_extend cap (vec_extend cap out [tag; wrap8 (Z.of_nat (length value))]) value.

Definition fci (out : list Z) : list Z :=
  let inner := tlv 64 0x84 ISD_AID_FCI [] in
  let inner := tlv 64 0x79 [0x60] inner in
  let inner := tlv 64 0x90 MARKER inner in
  tlv 1024 0x6F inner out.

Definition push_answer (out l : list Z) : list Z := vec_extend 1024 out l.

(** The answer, into the cleared buffer. *)
Definition answer (capdu : list Z) : outcome (list Z) :=
  match capdu with
  | cla :: ins :: _ :: _ :: _ =>
      if (cla =? 0x00) && (ins =? 0xA4) then
        let lc := if (4 <? length capdu)%nat then Z.to_nat (nth 4 capdu 0) else O in
        aid ← slice capdu 5 ((5 + lc) `min` length capdu);
        Ret (if bool_decide (aid = ISD_AID) then push_answer (fci []) [0x90; 0x00]
             else push_answer [] [0x6A; 0x82])
      else if (cla =? 0x80) && (ins =? 0x50) then
        Ret (push_answer (push_answer (push_answer (push_answer [] [0x00; 0x00; 0x00])
               (replicate 8 0xA5)) (replicate 8 0x5A)) [0x90; 0x00])
      else if (cla =? 0x84) && (ins =? 0x82) then Ret (push_answer [] [0x90; 0x00])
      else if (cla =? 0x80) && (ins =? 0xCA) then
        Ret (push_answer (push_answer (push_answer [] [0x9F; 0x7F; 0x2D])
               (replicate 0x2D 0xA5)) [0x90; 0x00])
      else if (cla =? 0x80) && ((ins =? 0xF2) || (ins =? 0xE8) || (ins =? 0xE6) || (ins =? 0xE4))
      then Ret (push_answer [] [0x90; 0x00])
      else Ret (push_answer [] [0x6A; 0x82])
  | _ => Ret (push_answer [] [0x67; 0x00])
  end.

(** ** One turn of the listen loop ([pn7160_listen.rs]) *)
Section Loop.
Context {T : Type} `{!Transport T, !Backlog T}.

Definition listen_turn (recover : T -> T) (t : T) (s : ListenSession) : outcome (T * ListenSession) :=
  let '(t, s, e) := poll t s in
  match e with
  | Some (Apdu capdu) =>
      rapdu ← answer capdu;
      let '(t, s, _) := respond t s rapdu in Ret (t, s)
  | Some (ConnDivergence _ _) | Some RxOverflow => Ret ((ladder_with_ven_retry recover t).1, s)
  | Some (Activated _ _) | Some (ReaderLeft _) | None => Ret (t, s)
  end.
End Loop.

End Listen.
