(* ===== verification/ListenSpec.v ===== *)
(** * Card emulation: theorems

    About [Listen.v].  A session reassembles the reader's commands on one
    connection; an answer goes out in packets, each backed by a credit. *)
From Stdlib Require Import ZArith Lia ZifyBool.
From stdpp Require Import prelude strings.
From S2P Require Import Prelude Nci NciSpec Listen.
Import Nci Listen.
Local Open Scope Z_scope.

(** ** Links *)
(** A link delivers well-formed frames, one less pending with each. *)
Class LawfulLink (T : Type) `{!Transport T, !Backlog T} := {
  link_ok : T -> Prop;
  send_keeps t w : link_ok t -> link_ok (t_send t w).1;
  wait_keeps t ms : link_ok t -> link_ok (wait_ms t ms);
  poll_keeps t : link_ok t -> link_ok (poll_frame t).1;
  poll_lowers t t' f : link_ok t -> poll_frame t = (t', Some f) ->
    frame_ok f /\ (backlog t' < backlog t)%nat
}.

(** The mock, when its scripts are bytes. *)
Definition mock_ok (m : MockTransport) : Prop :=
  Forall bytes (replies m) /\ Forall bytes (notifications m) /\ Forall bytes (stash m) /\
  Forall bytes (late_on_wait m) /\ match pending_rsp m with Some raw => bytes raw | None => True end.

#[export] Instance mock_lawful : LawfulLink MockTransport.
Proof.
  refine {| link_ok := mock_ok |}.
  - intros m w (H1 & H2 & H3 & H4 & H5). unfold mock_ok. cbn [t_send mock_transport fst].
    destruct (replies m); cbn; [by split_and!|]. apply Forall_cons in H1 as [? ?]. by split_and!.
  - intros m ms (H1 & H2 & H3 & H4 & H5). unfold mock_ok. cbn [wait_ms mock_transport].
    destruct (late_on_wait m); cbn; [by split_and!|]. apply Forall_cons in H4 as [? ?].
    split_and!; try done. apply Forall_app_2; [done|by repeat constructor].
  - intros m (H1 & H2 & H3 & H4 & H5). unfold mock_ok. cbn [poll_frame mock_transport].
    destruct (pending_rsp m) eqn:Ep; cbn; [by split_and!|].
    destruct (notifications m) eqn:E; cbn; [rewrite E, Ep; by split_and!|].
    apply Forall_cons in H2 as [? ?]. by split_and!.
  - intros m m' f (H1 & H2 & H3 & H4 & H5). cbn [poll_frame mock_transport].
    unfold backlog, mock_backlog. destruct (pending_rsp m) as [raw|].
    { intros [= <- E]. split; [by eapply decode_ok|]. cbn. lia. }
    destruct (notifications m) as [|raw rest]; [done|]. apply Forall_cons in H2 as [? ?].
    intros [= <- E]. split; [by eapply decode_ok|]. cbn. lia.
Defined.

(** ** Credits *)
(** The credits a notification grants, and those of a trace. *)
Fixpoint entries_grant (f : Frame) (i entries : nat) : Z :=
  match entries with
  | O => 0
  | S entries => pl f (2 + i * 2) + entries_grant f (S i) entries
  end.
Definition grant (f : Frame) : Z :=
  if is_conn_credits_ntf f then
    if (len f <? 1)%nat then 0
    else entries_grant f 0 (Z.to_nat (pl f 0) `min` ((len f - 1) / 2))%nat
  else 0.
Definition grants (tr : list event) : Z := foldr Z.add 0 (map grant (frames_of tr)).

Lemma foldr_add_app a b : foldr Z.add 0 (a ++ b) = foldr Z.add 0 a + foldr Z.add 0 b.
Proof. induction a as [|x a IH]; cbn; lia. Qed.
Lemma grants_app a b : grants (a ++ b) = grants a + grants b.
Proof. unfold grants. by rewrite frames_app, map_app, foldr_add_app. Qed.

Lemma pl_u8 f i : frame_ok f -> u8 (pl f i).
Proof.
  intros H. unfold pl. rewrite nth_lookup. destruct (payload f !! i) eqn:E; cbn; [|by unfold u8].
  eapply (Forall_lookup_1 u8); [apply H|exact E].
Qed.

Lemma entries_grant_nonneg f i n : frame_ok f -> 0 <= entries_grant f i n.
Proof.
  intros H. revert i. induction n as [|n IH]; intros i; cbn [entries_grant]; [lia|].
  pose proof (pl_u8 f (2 + i * 2) H). specialize (IH (S i)). unfold u8 in *. lia.
Qed.
Lemma grant_nonneg f : frame_ok f -> 0 <= grant f.
Proof.
  intros H. unfold grant. destruct (is_conn_credits_ntf f); [|lia].
  destruct (_ <? _)%nat; [lia|]. by apply entries_grant_nonneg.
Qed.

(** A session on its connection. *)
Definition on_conn (conn : Z) (s : ListenSession) : Prop :=
  bound_conn s = Some conn /\ 0 <= credits s <= 255.

Lemma note_entries_spec conn f i n s : frame_ok f -> on_conn conn s ->
  match note_entries f i n s with
  | (s', None) => exists c, s' = with_credits c s /\ 0 <= c <= 255 /\
      c = Z.min (credits s + entries_grant f i n) 255
  | (s', Some (b, x)) => s' = new /\ b = conn /\ x <> conn
  end.
Proof.
  intros Hf. revert i s. induction n as [|n IH]; intros i s [Hb Hc]; cbn [note_entries entries_grant].
  { exists (credits s). split_and!; try lia. by destruct s. }
  unfold bind_conn. rewrite Hb. destruct (conn =? pl f (1 + i * 2)) eqn:E; [|split_and!; [done|done|lia]].
  pose proof (pl_u8 f (2 + i * 2) Hf) as Hg. unfold u8, u8_max in *.
  set (s1 := with_credits (Z.min (credits s + pl f (2 + i * 2)) 255) s).
  assert (on_conn conn s1) as H1 by (split; [done|cbn [credits with_credits s1]; lia]).
  specialize (IH (S i) s1 H1). pose proof (entries_grant_nonneg f (S i) n Hf).
  destruct (note_entries f (S i) n s1) as [s' [[b x]|]]; [done|].
  destruct IH as (c & -> & Hc' & E'). exists c. split; [done|]. split; [done|].
  cbn [s1 credits with_credits] in E'. lia.
Qed.

Lemma note_credits_spec conn f s : frame_ok f -> is_conn_credits_ntf f = true -> on_conn conn s ->
  match note_credits f s with
  | (s', None) => exists c, s' = with_credits c s /\ 0 <= c <= 255 /\
      c = Z.min (credits s + grant f) 255
  | (s', Some (b, x)) => s' = new /\ b = conn /\ x <> conn
  end.
Proof.
  intros Hf E H. unfold note_credits, grant. rewrite E.
  destruct (len f <? 1)%nat; [|by apply note_entries_spec].
  exists (credits s). destruct H as [? ?]. split_and!; try lia. by destruct s.
Qed.

Section Respond.
Context {T : Type} `{!Transport T, !Backlog T, !LawfulLink T}.
Implicit Types (t : T) (s : ListenSession).

(** The link was found empty so many times. *)
Definition found_empty (tr : list event) : Z :=
  count (fun e => match e with Polled None => true | _ => false end) tr.
Lemma found_empty_app a b : found_empty (a ++ b) = found_empty a + found_empty b.
Proof. apply count_app. Qed.

(** What waiting for a credit does to the session and the link. *)
Record awaited (conn : Z) s (tr : list event) (s' : ListenSession) : Prop := {
  aw_conn : exists c, s' = with_credits c s /\ 0 <= c <= 255;
  aw_grants : credits s <= credits s' <= credits s + grants tr;
  aw_zero : credits s = 0 -> credits s' = 0 -> grants tr = 0
}.

(** The last frame read was a credit of another connection. *)
Definition diverged (tr : list event) : Prop :=
  exists f, ends_with tr f /\ is_conn_credits_ntf f = true.

Lemma awaited_same conn s tr : on_conn conn s -> grants tr = 0 -> awaited conn s tr s.
Proof. intros [? ?] Hg. split; [exists (credits s); by destruct s|lia|done]. Qed.

Lemma awaited_conn conn s tr s' : on_conn conn s -> awaited conn s tr s' -> on_conn conn s'.
Proof. intros [H1 H2] [(c & -> & Hc) _ _]. by split. Qed.

Lemma awaited_trans conn s1 s2 s3 a b : on_conn conn s1 ->
  0 <= grants a -> 0 <= grants b ->
  awaited conn s1 a s2 -> awaited conn s2 b s3 -> awaited conn s1 (a ++ b) s3.
Proof.
  intros H Ha Hb A1 A2. pose proof (awaited_conn _ _ _ _ H A1) as [_ H2].
  destruct A1 as [(c & -> & Hc) G1 Z1], A2 as [(c' & -> & Hc') G2 Z2].
  cbn [credits with_credits] in *.
  split; [by exists c'|rewrite grants_app; cbn [credits with_credits]; lia|].
  cbn [credits with_credits]. intros H1 H3. rewrite grants_app. specialize (Z1 H1). specialize (Z2 ltac:(lia)). lia.
Qed.

Lemma await_frames_spec conn fuel t s : link_ok t -> on_conn conn s -> (backlog t < fuel)%nat ->
  exists tr t', link t tr t' /\ link_ok t' /\ sends tr = [] /\ waits tr = [] /\ 0 <= grants tr /\
    match await_frames fuel t s with
    | (t'', s', Granted) => t'' = t' /\ awaited conn s tr s' /\ 0 < credits s'
    | (t'', s', Diverged b x) => t'' = t' /\ s' = new /\ b = conn /\ x <> conn /\ diverged tr
    | (t'', s', NothingPending) => t'' = t' /\ awaited conn s tr s' /\ 1 <= found_empty tr
    end.
Proof.
  revert t s. induction fuel as [|fuel IH]; intros t s Ht Hs Hf; [lia|].
  cbn [await_frames]. pose proof (poll_keeps t Ht) as Ht1.
  destruct (poll_frame t) as [t1 [f|]] eqn:Ep; cbn [fst] in Ht1; cycle 1.
  { exists [Polled None], t1. split; [by apply trace_one|]. split; [done|]. split; [done|].
    split; [done|]. split; [done|]. split; [done|]. split; [by apply awaited_same|done]. }
  destruct (poll_lowers t t1 f Ht Ep) as [Hfr Hlt].
  assert (link t [Polled (Some f)] t1) as L1 by (by apply trace_one).
  assert (grants [Polled (Some f)] = grant f) as Hg1 by (unfold grants; cbn; lia).
  pose proof (grant_nonneg f Hfr) as Hg0.
  assert (forall s1, awaited conn s [Polled (Some f)] s1 ->
    exists tr t', link t tr t' /\ link_ok t' /\ sends tr = [] /\ waits tr = [] /\ 0 <= grants tr /\
    match await_frames fuel t1 s1 with
    | (t'', s', Granted) => t'' = t' /\ awaited conn s tr s' /\ 0 < credits s'
    | (t'', s', Diverged b x) => t'' = t' /\ s' = new /\ b = conn /\ x <> conn /\ diverged tr
    | (t'', s', NothingPending) => t'' = t' /\ awaited conn s tr s' /\ 1 <= found_empty tr
    end) as Hon.
  { intros s1 A1. destruct (IH t1 s1) as (tr & t' & L & Hok & Hs1 & Hw1 & Hg & R); [done| |lia|].
    { by eapply awaited_conn. }
    exists ([Polled (Some f)] ++ tr), t'.
    split; [by eapply trace_app|]. split; [done|]. split; [by rewrite sends_app|].
    split; [exact Hw1|]. split; [rewrite grants_app; lia|].
    destruct (await_frames fuel t1 s1) as [[t2 s2] [|b x|]].
    - destruct R as (-> & A2 & H0). split_and!; try done. eapply awaited_trans; eauto; lia.
    - destruct R as (-> & -> & -> & Hx & h & Hh & Hc). split_and!; try done.
      exists h. split; [by apply ends_with_cons|done].
    - destruct R as (-> & A2 & H0). split_and!; try done. eapply awaited_trans; eauto; lia. }
  destruct (is_conn_credits_ntf f) eqn:Ec.
  - pose proof (note_credits_spec conn f s Hfr Ec Hs) as Hn.
    destruct (note_credits f s) as [s1 [[b x]|]].
    { destruct Hn as (-> & -> & Hx). exists [Polled (Some f)], t1.
      split_and!; try done; try lia. exists f. split; [apply ends_with_one|done]. }
    destruct Hn as (c & -> & Hc & E). destruct Hs as [Hs1 Hs2].
    assert (awaited conn s [Polled (Some f)] (with_credits c s)) as A1.
    { split; [by exists c|cbn [credits with_credits]; lia|cbn [credits with_credits]; lia]. }
    cbn [credits with_credits]. destruct (0 <? c) eqn:E0; [|by apply Hon].
    exists [Polled (Some f)], t1. split_and!; try done; cbn [credits with_credits]; lia.
  - apply Hon. unfold grant in Hg1. rewrite Ec in Hg1. destruct Hs as [Hs1 Hs2].
    split; [exists (credits s); by destruct s|lia|lia].
Qed.

Lemma await_rounds_spec conn n t s : link_ok t -> on_conn conn s -> credits s = 0 ->
  exists tr t', link t tr t' /\ link_ok t' /\ sends tr = [] /\
    0 <= total_wait tr <= CREDIT_WAIT_MS * Z.of_nat n /\
    match await_rounds n t s with
    | (t'', s', Ok _) => t'' = t' /\ awaited conn s tr s' /\ 0 < credits s'
    | (t'', s', Err e) => t'' = t' /\ s' = new /\
        match e with
        | Divergence b x => b = conn /\ x <> conn /\ diverged tr
        | CreditTimeout => grants tr = 0 /\ total_wait tr = CREDIT_WAIT_MS * Z.of_nat n /\
            Z.of_nat n <= found_empty tr
        | _ => False
        end
    end.
Proof.
  intros Ht Hs H0. revert t Ht s Hs H0. induction n as [|n IH]; intros t Ht s Hs H0.
  { exists [], t. split; [constructor|]. cbn. by split_and!. }
  cbn [await_rounds]. pose proof (wait_keeps t CREDIT_WAIT_MS Ht) as Ht1.
  set (t1 := wait_ms t CREDIT_WAIT_MS) in *.
  assert (link t [Waited CREDIT_WAIT_MS] t1) as L1 by (by apply trace_one).
  destruct (await_frames_spec conn (S (backlog t1)) t1 s) as (tr & t2 & L2 & Ht2 & Hse & Hw & Hg & R);
    [done|done|lia|].
  assert (link t ([Waited CREDIT_WAIT_MS] ++ tr) t2) as L by (by eapply trace_app).
  assert (total_wait ([Waited CREDIT_WAIT_MS] ++ tr) = CREDIT_WAIT_MS) as Htw.
  { rewrite total_wait_app. unfold total_wait at 2. rewrite Hw. done. }
  assert (sends ([Waited CREDIT_WAIT_MS] ++ tr) = []) as Hs0 by (by rewrite sends_app, Hse).
  assert (forall s', awaited conn s tr s' -> awaited conn s ([Waited CREDIT_WAIT_MS] ++ tr) s') as Haw.
  { intros s' [H1 H2 H3]. by split. }
  unfold CREDIT_WAIT_MS in *.
  destruct (await_frames (S (backlog t1)) t1 s) as [[t2' s2] [|b x|]].
  - destruct R as (-> & A & Hc). exists ([Waited 10] ++ tr), t2. rewrite Htw.
    split_and!; try done; try lia. by apply Haw.
  - destruct R as (-> & -> & -> & Hx & Hd). exists ([Waited 10] ++ tr), t2. rewrite Htw.
    split_and!; try done; try lia.
    destruct Hd as (f & Hf & Hc). exists f. split; [by apply ends_with_cons|done].
  - destruct R as (-> & A & He). destruct (0 <? credits s2) eqn:E.
    { exists ([Waited 10] ++ tr), t2. rewrite Htw. split_and!; try done; try lia. by apply Haw. }
    assert (credits s2 = 0) as H2.
    { destruct (aw_conn _ _ _ _ A) as (c & -> & Hc). cbn [credits with_credits] in *. lia. }
    pose proof (aw_zero _ _ _ _ A H0 H2) as Hz.
    destruct (IH t2 Ht2 s2 (awaited_conn _ _ _ _ Hs A) H2) as (tr2 & t3 & L3 & Ht3 & Hs3 & Hw3 & R).
    exists (([Waited 10] ++ tr) ++ tr2), t3. rewrite total_wait_app, Htw.
    split; [by eapply trace_app|]. split; [done|]. split; [by rewrite sends_app, Hs0|].
    split; [lia|].
    assert (grants ([Waited 10] ++ tr) = 0) as Hz1 by exact Hz.
    destruct (await_rounds n t2 s2) as [[t3' s3] [[]|e]].
    + destruct R as (-> & A2 & Hc). split_and!; try done.
      apply (awaited_trans conn s s2 s3); [done|lia| |by apply Haw|done].
      destruct A2 as [_ G _]. lia.
    + destruct R as (-> & -> & R). split; [done|]. split; [done|]. destruct e; try done.
      * destruct R as (-> & Hx & f & Hf & Hc). split_and!; try done. exists f.
        split; [by apply ends_with_app|done].
      * destruct R as (R1 & R2 & R3). rewrite grants_app, found_empty_app. split_and!; [lia|lia|].
        change (found_empty ([Waited 10] ++ tr)) with (found_empty tr). lia.
Qed.

(** Every packet that goes out is backed by a credit: one held at the start or
    one granted before it, and none is spent twice. *)
Definition credit_backed (held : Z) (tr : list event) : Prop :=
  forall a w ok b, tr = a ++ Sent w ok :: b ->
    Z.of_nat (length (sends a)) + 1 <= held + grants a.

Lemma credit_backed_quiet held tr : sends tr = [] -> credit_backed held tr.
Proof.
  intros H a w ok b ->. rewrite sends_app in H. apply app_eq_nil in H as [_ H]. done.
Qed.

Lemma credit_backed_le h1 h2 tr : credit_backed h1 tr -> h1 <= h2 -> credit_backed h2 tr.
Proof. intros H ? a w ok b E. specialize (H a w ok b E). lia. Qed.

Lemma credit_backed_step held g w ok rest : sends g = [] -> 1 <= held + grants g ->
  credit_backed (held + grants g - 1) rest -> credit_backed held (g ++ Sent w ok :: rest).
Proof.
  intros Hg Hc Hr a v ok' b E.
  apply app_eq_app in E as (m & [[-> Hm]|[-> Hm]]).
  - rewrite sends_app in Hg. apply app_eq_nil in Hg as [Hg1 Hg2].
    destruct m as [|e m]; [|injection Hm as <- Hm; cbn in Hg2; done].
    rewrite app_nil_r in *. rewrite Hg1. cbn. lia.
  - destruct m as [|e m].
    { rewrite app_nil_r, Hg. cbn. lia. }
    injection Hm as <- Hm. specialize (Hr m v ok' b Hm).
    rewrite sends_app, grants_app, Hg.
    change (sends (Sent w ok :: m)) with (w :: sends m).
    change (grants (Sent w ok :: m)) with (grants m). cbn [app length]. lia.
Qed.

(** The chunks of an answer, from one of them on. *)
Definition cut (cap : nat) (cs : list (list Z)) : Prop :=
  Forall (fun c => (0 < length c <= cap)%nat) cs /\
  (forall front last, cs = front ++ [last] -> Forall (fun c => length c = cap) front).

Lemma cut_tail cap c cs : cut cap (c :: cs) -> cut cap cs.
Proof.
  intros [H1 H2]. apply Forall_cons in H1 as [_ H1]. split; [done|].
  intros front last ->. by apply (Forall_inv_tail (H2 (c :: front) last eq_refl)).
Qed.

(** The boundary flag of a chunk: whether another one follows. *)
Lemma cut_flag cap n i c cs : cut cap (c :: cs) ->
  n = (i * cap + length (concat (c :: cs)))%nat ->
  (S i * cap <? n)%nat = (match cs with [] => false | _ => true end) /\
  n = match cs with [] => n | _ => (S i * cap + length (concat cs))%nat end.
Proof.
  intros [H1 H2] ->. apply Forall_cons in H1 as [Hc Hcs].
  cbn [concat]. rewrite length_app. destruct cs as [|c' cs].
  { cbn [concat length]. split; [apply Nat.ltb_ge; lia|done]. }
  destruct (exists_last (l := c' :: cs)) as (front & last & E); [done|].
  assert (length c = cap) as <-.
  { specialize (H2 (c :: front) last). rewrite E in H2. specialize (H2 eq_refl).
    by apply Forall_inv in H2. }
  apply Forall_cons in Hcs as [Hc' _]. cbn [concat]. rewrite length_app.
  split; [apply Nat.ltb_lt; lia|lia].
Qed.

(** How a failed answer ends. *)
Definition gave_up conn (tr : list event) (e : RespondError) : Prop :=
  match e with
  | SendFailed => exists tr' w, tr = tr' ++ [Sent w false]
  | Divergence b x => b = conn /\ x <> conn /\ diverged tr
  | CreditTimeout => exists tr1 tr2, tr = tr1 ++ tr2 /\ sends tr2 = [] /\ grants tr2 = 0 /\
      total_wait tr2 = 240 /\ 24 <= found_empty tr2
  | _ => False
  end.

Lemma gave_up_app conn a b e : gave_up conn b e -> gave_up conn (a ++ b) e.
Proof.
  destruct e; cbn; try done.
  - intros (H1 & H2 & f & H3 & H4). split_and!; [done..|]. exists f. split; [by apply ends_with_app|done].
  - intros (x & y & -> & H). exists (a ++ x), y. by rewrite app_assoc.
  - intros (x & w & ->). exists (a ++ x), w. by rewrite app_assoc.
Qed.

Definition all_sent (tr : list event) : Prop :=
  Forall (fun e => match e with Sent _ ok => ok = true | _ => True end) tr.

(** What sending the packets [ps] with [held] credits does. *)
Definition sent_out conn (ps : list (list Z)) (held : Z) (rounds : nat) s (tr : list event) (t' : T)
    (r : T * ListenSession * result unit RespondError) : Prop :=
  credit_backed held tr /\ (exists k, sends tr = take k ps) /\
  0 <= total_wait tr <= 240 * Z.of_nat rounds /\
  match r with
  | (t'', s', Ok _) => t'' = t' /\ sends tr = ps /\ all_sent tr /\
      exists c, s' = with_credits c s /\ 0 <= c /\ c + Z.of_nat (length (sends tr)) <= held + grants tr
  | (t'', s', Err e) => t'' = t' /\ s' = new /\ gave_up conn tr e
  end.

Lemma quiet_all_sent tr : sends tr = [] -> all_sent tr.
Proof.
  intros H. apply Forall_forall. intros [w ok|?|?|? ?|?] Hin; try done.
  apply list_elem_of_split in Hin as (a & b & ->). rewrite sends_app in H.
  by apply app_eq_nil in H as [_ H].
Qed.

(** A credit before a chunk: the one held, or the one waited for. *)
Lemma credit_spec conn t s : link_ok t -> on_conn conn s ->
  exists g t', link t g t' /\ link_ok t' /\ sends g = [] /\ 0 <= total_wait g <= 240 /\ 
    match (if credits s =? 0 then await_credit t s else (t, s, Ok tt)) with
    | (t'', s', Ok _) => t'' = t' /\ awaited conn s g s' /\ 0 < credits s'
    | (t'', s', Err e) => t'' = t' /\ s' = new /\ gave_up conn g e
    end.
Proof.
  intros Ht Hs. destruct (credits s =? 0) eqn:E; cycle 1.
  { exists [], t. split; [constructor|]. split; [done|]. split; [done|]. split; [done|].
    split; [done|]. split; [by apply awaited_same|]. destruct Hs. lia. }
  destruct (await_rounds_spec conn CREDIT_POLLS t s) as (g & t' & L & Ht' & Hg & Hw & R); [done..|lia|].
  exists g, t'. split; [done|]. split; [done|]. split; [done|].
  split; [unfold CREDIT_WAIT_MS, CREDIT_POLLS in *; lia|]. unfold await_credit.
  destruct (await_rounds CREDIT_POLLS t s) as [[t'' s'] [[]|e]]; [done|].
  destruct R as (-> & -> & R). split; [done|]. split; [done|]. destruct e; try done.
  exists [], g. by destruct R as (? & ? & ?).
Qed.

Lemma sent_stop conn ps held n s g t' s' e : sends g = [] -> 0 <= total_wait g <= 240 ->
  s' = new -> gave_up conn g e -> sent_out conn ps held (S n) s g t' (t', s', Err e).
Proof.
  intros Hg Hw -> He. split; [by apply credit_backed_quiet|]. split; [by exists O|].
  split; [lia|]. by split_and!.
Qed.

Lemma sent_next conn w ps n s c g ok tr t' r : sends g = [] -> 0 <= total_wait g <= 240 ->
  0 < c <= credits s + grants g ->
  sent_out conn ps (c - 1) n (with_credits (c - 1) (with_credits c s)) tr t' r -> ok = true ->
  sent_out conn (w :: ps) (credits s) (S n) s (g ++ Sent w ok :: tr) t' r.
Proof.
  intros Hg Hw Hc (H1 & (k & H2) & H3 & H4) ->. split.
  { apply credit_backed_step; [done|lia|]. eapply credit_backed_le; [exact H1|lia]. }
  assert (sends (g ++ Sent w true :: tr) = w :: sends tr) as Es by (by rewrite sends_app, Hg).
  split; [exists (S k); by rewrite Es, H2|]. split.
  { rewrite total_wait_app. change (total_wait (Sent w true :: tr)) with (total_wait tr). lia. }
  destruct r as [[t'' s'] [[]|e]].
  - destruct H4 as (-> & H5 & H6 & c' & -> & H7 & H8). split; [done|]. rewrite Es, H5.
    split; [done|]. split.
    { apply Forall_app_2; [by apply quiet_all_sent|by constructor]. }
    exists c'. split; [done|]. split; [done|]. rewrite grants_app.
    change (grants (Sent w true :: tr)) with (grants tr). cbn [length]. rewrite H5 in H8. lia.
  - destruct H4 as (-> & -> & He). split; [done|]. split; [done|].
    change (g ++ Sent w true :: tr) with (g ++ ([Sent w true] ++ tr)). rewrite app_assoc.
    by apply gave_up_app.
Qed.

Lemma respond_chunks_spec conn cap n i cs t s : (cap <= 255)%nat -> link_ok t -> on_conn conn s ->
  cut cap cs -> (cs <> [] -> n = (i * cap + length (concat cs))%nat) ->
  exists tr t', link t tr t' /\
    sent_out conn (packets conn cs) (credits s) (length cs) s tr t'
      (respond_chunks conn cap n i cs t s).
Proof.
  intros Hcap. revert i t s. induction cs as [|chunk cs IH]; intros i t s Ht Hs Hcut Hn.
  { exists [], t. split; [constructor|]. split; [by apply credit_backed_quiet|].
    split; [by exists O|]. split; [cbn; lia|]. cbn [respond_chunks]. split; [done|]. split; [done|].
    split; [constructor|]. exists (credits s). destruct Hs. unfold grants. cbn.
    split; [by destruct s|lia]. }
  cbn [respond_chunks length].
  destruct (credit_spec conn t s Ht Hs) as (g & t1 & L1 & Ht1 & Hg & Hw & R).
  destruct (if credits s =? 0 then await_credit t s else (t, s, Ok tt)) as [[t1' s1] [[]|e]]; cycle 1.
  { destruct R as (-> & -> & He). exists g, t1. split; [done|]. by apply sent_stop. }
  destruct R as (-> & A & Hc). pose proof (awaited_conn _ _ _ _ Hs A) as Hs1.
  destruct A as [(c & -> & Hcr) G _]. cbn [credits with_credits] in *.
  destruct (cut_flag cap n i chunk cs Hcut (Hn ltac:(done))) as [Hflag Hn'].
  assert (length chunk <= 255)%nat as Hl.
  { destruct Hcut as [H _]. apply Forall_inv in H. lia. }
  rewrite Hflag, encode_packet by done. set (w := packet conn _ chunk).
  assert (packets conn (chunk :: cs) = w :: packets conn cs) as Hp by (by destruct cs).
  destruct (t_send t1 w) as [t2 ok] eqn:Es. pose proof (send_keeps t1 w Ht1) as Ht2.
  rewrite Es in Ht2. cbn [fst] in Ht2. destruct ok; cbn [negb]; cycle 1.
  { exists (g ++ [Sent w false]), t2. split; [eapply trace_app; [exact L1|by apply trace_one]|].
    assert (sends (g ++ [Sent w false]) = [w]) as E1 by (by rewrite sends_app, Hg).
    split.
    { apply credit_backed_step; [done|lia|]. by apply credit_backed_quiet. }
    split; [exists 1%nat; by rewrite E1, Hp|]. split.
    { rewrite total_wait_app. change (total_wait [Sent w false]) with 0. lia. }
    split; [done|]. split; [done|]. by exists g, w. }
  replace (wrap8 (c - 1)) with (c - 1) by int_lia.
  destruct (IH (S i) t2 (with_credits (c - 1) (with_credits c s))) as (tr & t' & L & R).
  - done.
  - split; [apply Hs|cbn [credits with_credits]; lia].
  - by eapply cut_tail.
  - intros Hne. rewrite Hn'. by destruct cs.
  - exists (g ++ Sent w true :: tr), t'. split.
    { eapply trace_app; [exact L1|]. eapply link_sent; [exact Es|exact L]. }
    rewrite Hp. apply (sent_next conn w (packets conn cs) (length cs) s c); [done|done|lia|exact R|done].
Qed.
End Respond.

(** The packets of an answer: the chunks the activation allows. *)
Definition answer_packets (conn max : Z) (rapdu : list Z) : list (list Z) :=
  packets conn (chunks (fragment_cap max) rapdu).

Lemma fragment_cap_range m : (0 < fragment_cap m <= 253)%nat.
Proof.
  unfold fragment_cap, MAX_DATA_FRAGMENT.
  destruct ((Z.to_nat m =? 0)%nat || (253 <? Z.to_nat m)%nat) eqn:E; lia.
Qed.

(** An answer of the emulated card.  On an active session bound to a
    connection, over any lawful link, sending an answer always ends, waiting
    at most 240 milliseconds per packet.  The packets are the answer's chunks
    in order, each no longer than the reader allows, and not one of them goes
    out without a credit that was held or has been granted since.  On success
    all of them were taken and the credits left are covered by the ones
    granted; on failure the session is reset, and the last write failed, or a
    credit named another connection, or no credit came while the link was
    found empty twenty-four times over 240 milliseconds. *)
Theorem listen_respond {T} `{!Transport T, !Backlog T, !LawfulLink T} conn rapdu (t : T) s :
  link_ok t -> active s = true -> on_conn conn s -> rapdu <> [] ->
  exists tr t', link t tr t' /\
    sent_out conn (answer_packets conn (max_data_payload s) rapdu) (credits s)
      (length (chunks (fragment_cap (max_data_payload s)) rapdu)) s tr t' (respond t s rapdu).
Proof.
  intros Ht Ha Hs Hne. unfold respond. rewrite Ha, (proj1 Hs). cbn [negb].
  pose proof (fragment_cap_range (max_data_payload s)) as Hcap.
  set (cap := fragment_cap (max_data_payload s)) in *.
  destruct (chunks_spec cap rapdu ltac:(lia)) as (H1 & H2 & H3).
  destruct (respond_chunks_spec conn cap (length rapdu) 0 (chunks cap rapdu) t s) as (tr & t' & L & R);
    [lia|done|done|by split|by rewrite H1|].
  exists tr, t'. split; [done|]. by destruct rapdu.
Qed.

(** ** Reassembly *)
(** [poll] on a list of frames, with the events in order. *)
Fixpoint feed (fs : list Frame) (s : ListenSession) : ListenSession * list ListenEvent :=
  match fs with
  | [] => (s, [])
  | f :: fs =>
      let '(s, e) := on_frame f s in
      let '(s, es) := feed fs s in
      (s, match e with Some e => e :: es | None => es end)
  end.

(** Every entry of a credit notification names the connection. *)
Fixpoint entries_on (conn : Z) (f : Frame) (i entries : nat) : bool :=
  match entries with
  | O => true
  | S entries => (pl f (1 + i * 2) =? conn) && entries_on conn f (S i) entries
  end.
Definition credits_on (conn : Z) (f : Frame) : bool :=
  (len f <? 1)%nat || entries_on conn f 0 (Z.to_nat (pl f 0) `min` ((len f - 1) / 2))%nat.

Definition is_data (f : Frame) : bool := mt f =? MT_DATA.
(** A frame that leaves the command on [conn] open: a fragment that announces
    another, credits of the connection, or what the session ignores. *)
Definition continues (conn : Z) (f : Frame) : Prop :=
  if is_data f then gid f = conn /\ pbf f = true
  else is_wtx_ntf f = true \/
    (if is_conn_credits_ntf f then credits_on conn f = true
     else (is_rf_ntf NTF_RF_INTF_ACTIVATED f && (6 <=? len f)%nat) = false /\
       is_rf_ntf NTF_RF_DEACTIVATE f = false).

Definition fragments (fs : list Frame) : list Z := concat (map body (List.filter is_data fs)).
(** A WTX advisory carries no credits, whatever else it looks like. *)
Definition granted (fs : list Frame) : Z := foldr Z.add 0 (map grant fs).

Lemma data_kind f : is_data f = true ->
  is_wtx_ntf f = false /\ is_conn_credits_ntf f = false /\
  is_rf_ntf NTF_RF_INTF_ACTIVATED f = false /\ is_rf_ntf NTF_RF_DEACTIVATE f = false.
Proof.
  unfold is_data, is_wtx_ntf, is_conn_credits_ntf, is_rf_ntf, MT_DATA, MT_NTF. intros H.
  assert ((mt f =? 0x60) = false) as -> by lia. done.
Qed.

Lemma wtx_no_credits f : is_wtx_ntf f = true -> is_conn_credits_ntf f = false.
Proof. unfold is_wtx_ntf, is_conn_credits_ntf, GID_PROP, GID_CORE. lia. Qed.

Lemma on_data f conn s : is_data f = true -> gid f = conn -> on_conn conn s ->
  on_frame f s =
    if (RX_CAP <? length (rx s) + length (body f))%nat then (new, Some RxOverflow)
    else if pbf f then (with_rx (rx s ++ body f) s, None)
    else (with_rx [] s, Some (Apdu (rx s ++ body f))).
Proof.
  intros Hd Hg [Hb _]. destruct (data_kind f Hd) as (H1 & H2 & H3 & H4).
  unfold on_frame. unfold is_data in Hd. rewrite H1, H2, H3, H4, Hd. cbn [andb].
  unfold bind_conn. rewrite Hb, Hg, Z.eqb_refl. destruct (_ <? _)%nat; [done|].
  by destruct (pbf f).
Qed.

Lemma note_entries_on conn f i n s : frame_ok f -> on_conn conn s -> entries_on conn f i n = true ->
  note_entries f i n s = (with_credits (Z.min (credits s + entries_grant f i n) 255) s, None).
Proof.
  intros Hf. revert i s. induction n as [|n IH]; intros i s [Hb Hc]; cbn [note_entries entries_on entries_grant].
  { intros _. rewrite Z.add_0_r, Z.min_l by lia. by destruct s. }
  intros [E1 E2]%andb_prop. unfold bind_conn. rewrite Hb.
  replace (conn =? pl f (1 + i * 2)) with true by lia.
  pose proof (pl_u8 f (2 + i * 2) Hf) as Hg. unfold u8, u8_max in *.
  pose proof (entries_grant_nonneg f (S i) n Hf) as Hg2.
  rewrite IH; [|split; [done|cbn [credits with_credits]; lia]|done].
  unfold with_credits. cbn [credits active bound_conn max_data_payload rx].
  do 2 f_equal. lia.
Qed.

Lemma continues_step conn f s : frame_ok f -> on_conn conn s -> continues conn f ->
  (length (rx s) + length (fragments [f]) <= RX_CAP)%nat ->
  on_frame f s =
    (with_credits (Z.min (credits s + grant f) 255) (with_rx (rx s ++ fragments [f]) s), None).
Proof.
  intros Hf Hs Hc Hl. pose proof Hs as [Hb Hcr]. unfold fragments, continues in *.
  cbn [List.filter] in *. destruct (is_data f) eqn:Ed.
  - destruct Hc as [Hg Hp]. cbn [map concat] in *. rewrite app_nil_r in *.
    rewrite (on_data f conn) by done. destruct (_ <? _)%nat eqn:E; [lia|]. rewrite Hp.
    unfold grant. destruct (data_kind f Ed) as (_ & -> & _).
    rewrite Z.add_0_r, Z.min_l by lia. by destruct s.
  - cbn [map concat]. rewrite app_nil_r.
    assert ((s, @None ListenEvent) = (with_credits (Z.min (credits s + 0) 255) (with_rx (rx s) s), None)) as Hsame.
    { rewrite Z.add_0_r, Z.min_l by lia. by destruct s. }
    unfold on_frame, grant. destruct (is_wtx_ntf f) eqn:Ew; [by rewrite wtx_no_credits|].
    destruct Hc as [?|Hc]; [done|]. destruct (is_conn_credits_ntf f).
    + unfold note_credits, credits_on in *. destruct (len f <? 1)%nat; [exact Hsame|].
      rewrite (note_entries_on conn) by done. by destruct s.
    + destruct Hc as [-> ->]. unfold is_data in Ed. by rewrite Ed.
Qed.

Lemma granted_nonneg fs : Forall frame_ok fs -> 0 <= granted fs.
Proof.
  unfold granted. induction 1 as [|g gs Hg _ IH]; cbn [map foldr]; [lia|].
  pose proof (grant_nonneg g Hg). lia.
Qed.

Lemma feed_continues conn fs s : Forall frame_ok fs -> on_conn conn s -> Forall (continues conn) fs ->
  (length (rx s) + length (fragments fs) <= RX_CAP)%nat ->
  feed fs s = (with_credits (Z.min (credits s + granted fs) 255)
    (with_rx (rx s ++ fragments fs) s), []).
Proof.
  revert s. induction fs as [|f fs IH]; intros s Hf Hs Hc Hl.
  { cbn [feed]. unfold fragments, granted. cbn. rewrite app_nil_r, Z.add_0_r, Z.min_l by apply Hs.
    by destruct s. }
  apply Forall_cons in Hf as [Hf Hfs]. apply Forall_cons in Hc as [Hc Hcs].
  assert (fragments (f :: fs) = fragments [f] ++ fragments fs) as Ef.
  { unfold fragments. cbn. destruct (is_data f); cbn; by rewrite ?app_nil_r. }
  rewrite Ef in *. rewrite length_app in Hl. pose proof (grant_nonneg f Hf).
  pose proof Hs as [Hb Hcr]. cbn [feed]. rewrite (continues_step conn) by (done || lia).
  rewrite IH; [|done|split; [done|cbn [credits with_credits with_rx]; unfold grant in *; lia]|done|].
  - unfold with_credits, with_rx. cbn [credits rx active bound_conn max_data_payload].
    pose proof (granted_nonneg fs Hfs).
    assert (Z.min (Z.min (credits s + grant f) 255 + granted fs) 255 =
      Z.min (credits s + granted (f :: fs)) 255) as -> by (unfold granted in *; cbn [map foldr]; lia).
    by rewrite app_assoc.
  - cbn [rx with_credits with_rx]. rewrite length_app. lia.
Qed.

(** C32: a reader's command is reassembled.  While frames come that leave the
    command on the bound connection open (fragments with the boundary flag,
    credits of the connection, advisories and what the session ignores), no
    event is raised, the fragments are collected in order and the credits are
    added up, saturating at 255.  The last fragment yields exactly the
    concatenation and leaves the session ready for the next command; one that
    would pass 1024 bytes resets the session; and data or credits of another
    connection reset it and name both connections. *)
Theorem listen_reassembly conn fs s :
  on_conn conn s -> Forall frame_ok fs -> Forall (continues conn) fs ->
  (length (rx s) + length (fragments fs) <= 1024)%nat ->
  exists s', feed fs s = (s', []) /\ on_conn conn s' /\ active s' = active s /\
    rx s' = rx s ++ fragments fs /\ credits s' = Z.min (credits s + granted fs) 255 /\
    (forall f, is_data f = true -> gid f = conn -> pbf f = false ->
       (length (rx s') + length (body f) <= 1024)%nat ->
       on_frame f s' = (with_rx [] s', Some (Apdu (rx s ++ fragments fs ++ body f)))) /\
    (forall f, is_data f = true -> gid f = conn -> (1024 < length (rx s') + length (body f))%nat ->
       on_frame f s' = (new, Some RxOverflow)) /\
    (forall f, is_data f = true -> gid f <> conn ->
       on_frame f s' = (new, Some (ConnDivergence conn (gid f)))) /\
    (forall f, frame_ok f -> is_conn_credits_ntf f = true -> credits_on conn f = false ->
       exists x, x <> conn /\ on_frame f s' = (new, Some (ConnDivergence conn x))).
Proof.
  intros Hs Hf Hc Hl. rewrite (feed_continues conn) by done. set (s' := with_credits _ _).
  exists s'. split; [done|].
  pose proof (granted_nonneg fs Hf) as Hg.
  assert (on_conn conn s') as Hs'.
  { destruct Hs as [Hb Hcr]. split; [done|]. unfold s'. cbn [credits with_credits]. lia. }
  split; [done|]. split; [done|]. split; [done|]. split; [done|]. split_and!.
  - intros f Hd Hgf Hp Hle. rewrite (on_data f conn) by done.
    destruct (_ <? _)%nat eqn:E; [unfold RX_CAP in E; lia|]. rewrite Hp.
    do 3 f_equal. unfold s'. cbn [rx with_credits with_rx]. by rewrite app_assoc.
  - intros f Hd Hgf Hle. rewrite (on_data f conn) by done.
    destruct (_ <? _)%nat eqn:E; [done|unfold RX_CAP in E; lia].
  - intros f Hd Hgf. destruct (data_kind f Hd) as (H1 & H2 & H3 & H4). unfold on_frame.
    unfold is_data in Hd. rewrite H1, H2, H3, H4, Hd. cbn [andb]. unfold bind_conn.
    rewrite (proj1 Hs'). by destruct (conn =? gid f) eqn:E; [lia|].
  - intros f Hfr Hcr Hoff. unfold on_frame. rewrite Hcr.
    assert (is_wtx_ntf f = false) as ->.
    { destruct (is_wtx_ntf f) eqn:E; [|done]. apply wtx_no_credits in E. congruence. }
    unfold note_credits, credits_on in *. destruct (len f <? 1)%nat; [done|]. cbn [orb] in Hoff.
    revert Hoff. generalize (Z.to_nat (pl f 0) `min` ((len f - 1) / 2))%nat as n. intros n.
    generalize 0%nat as i. revert Hs'. clearbody s'. revert s'.
    induction n as [|n IH]; intros s' Hs' i; cbn [entries_on note_entries]; [done|].
    unfold bind_conn. rewrite (proj1 Hs'). rewrite (Z.eqb_sym _ conn).
    destruct (conn =? pl f (1 + i * 2)) eqn:E; cbn [andb].
    + apply IH. pose proof (pl_u8 f (2 + i * 2) Hfr). destruct Hs' as [Hb Hc'].
      split; [done|]. cbn [credits with_credits]. unfold u8, u8_max in *. lia.
    + intros _. exists (pl f (1 + i * 2)). split; [lia|done].
Qed.

(** ** The table of answers *)
Definition status_words : list (list Z) := [[0x90; 0x00]; [0x6A; 0x82]; [0x67; 0x00]].
(** A complete answer: its status word at the end, and short enough for every
    buffer on the way. *)
Definition complete (r : list Z) : Prop :=
  (length r <= 50)%nat /\ exists data sw, r = data ++ sw /\ sw ∈ status_words.
(** A SELECT of four bytes: the code slices past its end. *)
Definition bare_select (capdu : list Z) : Prop := exists p1 p2, capdu = [0x00; 0xA4; p1; p2].

Lemma complete_answer data sw : (length data <= 48)%nat -> sw ∈ status_words ->
  complete (data ++ sw).
Proof.
  intros H Hsw. split; [|by exists data, sw]. rewrite length_app.
  assert (length sw = 2)%nat; [|lia].
  unfold status_words in Hsw. rewrite !elem_of_cons, elem_of_nil in Hsw.
  by destruct Hsw as [->|[->|[->|[]]]].
Qed.

Lemma answer_complete capdu :
  match answer capdu with
  | Panic => bare_select capdu
  | Ret r => complete r
  end.
Proof.
  unfold answer. destruct capdu as [|cla [|ins [|p1 [|p2 rest]]]];
    try (apply (complete_answer [] [0x67; 0x00]); [cbn; lia|]; unfold status_words;
         rewrite !elem_of_cons; auto).
  assert ([0x90; 0x00] ∈ status_words /\ [0x6A; 0x82] ∈ status_words) as [Hok Hno].
  { unfold status_words. rewrite !elem_of_cons. auto. }
  destruct ((cla =? 0x00) && (ins =? 0xA4)) eqn:E.
  { destruct (4 <? length (cla :: ins :: p1 :: p2 :: rest))%nat eqn:El; cycle 1.
    { destruct rest; [|cbn in El; lia]. exists p1, p2. repeat f_equal; lia. }
    rewrite slice_ok by lia. rewrite bind_ret. destruct (bool_decide _).
    - by apply (complete_answer (fci []) [0x90; 0x00]); [vm_compute; lia|].
    - by apply (complete_answer [] [0x6A; 0x82]); [cbn; lia|]. }
  clear E. destruct (_ && _).
  { by apply (complete_answer ([0; 0; 0] ++ replicate 8 0xA5 ++ replicate 8 0x5A) [0x90; 0x00]);
      [cbn; lia|]. }
  destruct (_ && _); [by apply (complete_answer [] [0x90; 0x00]); [cbn; lia|]|].
  destruct (_ && _).
  { by apply (complete_answer ([0x9F; 0x7F; 0x2D] ++ replicate 0x2D 0xA5) [0x90; 0x00]); [cbn; lia|]. }
  destruct (_ && _).
  - by apply (complete_answer [] [0x90; 0x00]); [cbn; lia|].
  - by apply (complete_answer [] [0x6A; 0x82]); [cbn; lia|].
Qed.

Lemma complete_cons r : complete r -> r <> [].
Proof.
  intros (_ & data & sw & -> & Hsw). unfold status_words in Hsw.
  rewrite !elem_of_cons, elem_of_nil in Hsw.
  destruct Hsw as [->|[->|[->|[]]]]; by destruct data.
Qed.

(** A turn of the listen loop that completes a command.  Over any lawful
    link, when the frame read is the last fragment on the bound connection of
    an active session, the table's answer to the whole command, which always
    ends in a status word and has at most 50 bytes, goes out on that
    connection as [listen_respond] describes; the device aborts only on a
    SELECT of exactly four bytes. *)
Theorem listen_turn_answers {T} `{!Transport T, !Backlog T, !LawfulLink T} recover conn f
    (t t1 : T) s :
  link_ok t -> poll_frame t = (t1, Some f) -> active s = true -> on_conn conn s ->
  is_data f = true -> gid f = conn -> pbf f = false ->
  (length (rx s) + length (body f) <= 1024)%nat ->
  match listen_turn recover t s with
  | Panic => bare_select (rx s ++ body f)
  | Ret (t', s') => exists rapdu tr r,
      answer (rx s ++ body f) = Ret rapdu /\ complete rapdu /\ link t1 tr t' /\
      sent_out conn (answer_packets conn (max_data_payload s) rapdu) (credits s)
        (length (chunks (fragment_cap (max_data_payload s)) rapdu)) (with_rx [] s) tr t' (t', s', r)
  end.
Proof.
  intros Ht Ep Ha Hs Hd Hg Hp Hl. unfold listen_turn, poll. rewrite Ep, (on_data f conn) by done.
  destruct (_ <? _)%nat eqn:E; [unfold RX_CAP in E; lia|]. clear E. rewrite Hp.
  pose proof (answer_complete (rx s ++ body f)) as Hc.
  destruct (answer (rx s ++ body f)) as [rapdu|]; [|done]. rewrite bind_ret.
  pose proof (complete_cons rapdu Hc) as Hne. unfold respond.
  assert (on_conn conn (with_rx [] s)) as [Hb Hcr] by exact Hs.
  change (active (with_rx [] s)) with (active s). rewrite Ha, Hb. cbn [negb].
  change (max_data_payload (with_rx [] s)) with (max_data_payload s).
  pose proof (fragment_cap_range (max_data_payload s)) as Hcap.
  set (cap := fragment_cap (max_data_payload s)) in *.
  destruct (chunks_spec cap rapdu ltac:(lia)) as (H1 & H2 & H3).
  pose proof (poll_keeps t Ht) as Ht1. rewrite Ep in Ht1.
  destruct (respond_chunks_spec conn cap (length rapdu) 0 (chunks cap rapdu) t1 (with_rx [] s))
    as (tr & t' & L & R); [lia|done|done|by split|by rewrite H1|].
  destruct rapdu as [|x rapdu]; [done|].
  destruct (respond_chunks conn cap _ 0 _ t1 _) as [[t2 s2] r] eqn:Er.
  assert (t2 = t') as ->.
  { destruct R as (_ & _ & _ & R). destruct r as [[]|]; by destruct R. }
  by exists (x :: rapdu), tr, r.
Qed.

(** The finding: the loop aborts on a bare SELECT. *)
Example bare_select_aborts : answer [0x00; 0xA4; 0x04; 0x00] = Panic.
Proof. reflexivity. Qed.

(** ** Witnesses *)
(** An activation with one credit, then an INITIALIZE UPDATE. *)
Definition activated_session : ListenSession := mkSession true (Some 0) 1 20 [].
Definition update_frame : Frame := default (mkFrame 0 0 0 false [] 0)
  (decode [0x00; 0x00; 0x05; 0x80; 0x50; 0x00; 0x00; 0x08]).
Definition update_link : MockTransport :=
  push_notification [0x60; 0x06; 0x03; 0x01; 0x00; 0x01] MockTransport_new.

Lemma update_frame_ok : frame_ok update_frame.
Proof. apply (decode_ok [0x00; 0x00; 0x05; 0x80; 0x50; 0x00; 0x00; 0x08]); [solve_bytes|reflexivity]. Qed.
Lemma update_link_ok : link_ok update_link.
Proof. split_and!; repeat constructor; unfold u8; lia. Qed.

Example listen_respond_witness :
  active activated_session = true /\
  exists tr t', link update_link tr t' /\ credit_backed 1 tr /\
    sends tr = answer_packets 0 20 (replicate 22 0x5A).
Proof.
  split; [done|].
  destruct (listen_respond 0 (replicate 22 0x5A) update_link activated_session)
    as (tr & t' & L & H1 & _ & _ & R); [apply update_link_ok|done|by split|done|].
  exists tr, t'. split; [exact L|]. split; [exact H1|]. revert R.
  vm_compute (respond update_link activated_session (replicate 22 0x5A)).
  intros (_ & H & _). exact H.
Defined.

Example listen_reassembly_witness :
  on_conn 0 activated_session /\
  on_frame update_frame (feed [] activated_session).1 =
    (activated_session, Some (Apdu [0x80; 0x50; 0x00; 0x00; 0x08])).
Proof.
  split; [by split|].
  destruct (listen_reassembly 0 [] activated_session) as (s' & E & _ & _ & _ & _ & H & _);
    [by split|constructor|constructor|cbn; lia|].
  injection E as <-. cbn [feed fst].
  exact (H update_frame eq_refl eq_refl eq_refl ltac:(vm_compute; lia)).
Defined.

Example listen_turn_answers_witness :
  let t := push_notification [0x00; 0x00; 0x05; 0x80; 0x50; 0x00; 0x00; 0x08] MockTransport_new in
  link_ok t /\ exists rapdu, answer (body update_frame) = Ret rapdu /\ complete rapdu.
Proof.
  intros t. assert (link_ok t) as Ht by (split_and!; repeat constructor; unfold u8; lia).
  split; [exact Ht|].
  assert (poll_frame t = ((poll_frame t).1, Some update_frame)) as Hp by (vm_compute; reflexivity).
  pose proof (listen_turn_answers (fun t => t) 0 update_frame t (poll_frame t).1 activated_session
    Ht Hp eq_refl ltac:(by split) eq_refl eq_refl eq_refl ltac:(vm_compute; lia)) as H.
  destruct (listen_turn (fun t => t) t activated_session) as [[t' s']|] eqn:E; [|by vm_compute in E].
  destruct H as (rapdu & tr & r & H1 & H2 & _). by exists rapdu.
Defined.
