(* ===== verification/EspHandler.v ===== *)
(** * The ESP32 handler wrapper

    [ccid-service/src/ccid_handler.rs]: the handler of the serial reader.  It
    owns the shared core of [Handler.v] (serial profile, over the clocked
    adapter of [CardInterface.v]) and the T=1 endpoint of [T1Endpoint.v], and
    routes XfrBlocks through the endpoint while an accepted SetParameters has
    armed it.  The injected clock is the adapter's list of readings.  The
    theorems are in [EspSpec.v]. *)
From Stdlib Require Import ZArith Lia ZifyBool.
From stdpp Require Import prelude.
From S2P Require Import Prelude T1Endpoint Wire Atr Diag Secure CardInterface Handler.
Local Open Scope Z_scope.

#[local] Existing Instance SerialNfcProfile.

(** ** The driver's diagnostics ([card-interface/src/frontend_diag.rs] and the
    diagnostic methods of [NfcDriver]) *)
Inductive FrontendHealth := Healthy | Degraded | Unavailable.
Inductive FrontendErrorKind :=
| FNone | FNotInitialized | FBus | FTimeout | FProtocol | FNoCard | FBufferOverflow.

Record FrontendStatus := mkStatus {
  health : FrontendHealth;
  last_error : FrontendErrorKind;
  init_attempts : Z;
  fs_reinit_count : Z;
  bus_errors : Z;
  presence_polls : Z
}.
Definition FrontendStatus_ok : FrontendStatus := mkStatus Healthy FNone 0 0 0 0.

Class FrontendDiagnostics (D : Type) := {
  frontend_status : D -> FrontendStatus;
  frontend_self_test : D -> D * result unit FrontendErrorKind
}.

Class NfcProbes (D : Type) := {
  wtx_counters : D -> option (Z * Z);
  timer_registers : D -> D * option (list Z);
  i2c_timing_probe : D -> Z -> D * option Z;
  configured_fwt_ms : D -> Z
}.

(** The trait's defaults, and the mock as [new] leaves it. *)
#[global] Instance mock_probes : NfcProbes Mock.MockNfcDriver := {
  wtx_counters _ := None;
  timer_registers d := (d, None);
  i2c_timing_probe d _ := (d, None);
  configured_fwt_ms _ := 0
}.
#[global] Instance mock_frontend : FrontendDiagnostics Mock.MockNfcDriver := {
  frontend_status d := mkStatus Healthy FNone 0 0 0 (Mock.poll_count d);
  frontend_self_test d := (d, Ok tt)
}.

(** ** Constants *)
(** ["GemPC Twin ESP32 1.0\0"] *)
Definition FIRMWARE_VERSION : list Z :=
  [0x47; 0x65; 0x6D; 0x50; 0x43; 0x20; 0x54; 0x77; 0x69; 0x6E; 0x20; 0x45; 0x53; 0x50;
   0x33; 0x32; 0x20; 0x31; 0x2E; 0x30; 0x00].
Definition ESCAPE_SET_BAUD : Z := 0x05.
Definition BAUD_TABLE : list (Z * Z) :=
  [(0x00, 115200); (0x01, 230400); (0x02, 460800); (0x03, 576000); (0x04, 921600);
   (0x05, 1000000); (0x06, 1500000); (0x07, 2000000); (0x08, 3000000)].
Definition baud_from_code (code : Z) : option Z :=
  option_map snd (List.find (fun e => fst e =? code) BAUD_TABLE).
Definition CARD_TIMEOUT_SW : list Z := [0x64; 0x00].
Definition CMD_NOT_SUPPORTED : Z := CCID_ERR_CMD_NOT_SUPPORTED.

(** ** State *)
Record CcidHandler (D : Type) := mkEsp {
  core : Core (Adapter.CardDriverAdapter D);
  t1 : T1Endpoint.T1Endpoint;
  t1_armed : bool;
  last_frontend_health : option FrontendHealth;
  baud_escape_enabled : bool;
  pending_baud_change : option Z
}.
Arguments mkEsp {D}.
Arguments core {D} _.
Arguments t1 {D} _.
Arguments t1_armed {D} _.
Arguments last_frontend_health {D} _.
Arguments baud_escape_enabled {D} _.
Arguments pending_baud_change {D} _.

Section Esp.
Context {D E : Type} `{!NfcDriver D E, !NfcProbes D, !FrontendDiagnostics D}.
Implicit Types (e : CcidHandler D) (h : CcidHeader).

Definition with_core c e : CcidHandler D :=
  mkEsp c (t1 e) (t1_armed e) (last_frontend_health e) (baud_escape_enabled e)
    (pending_baud_change e).
Definition with_t1 t e : CcidHandler D :=
  mkEsp (core e) t (t1_armed e) (last_frontend_health e) (baud_escape_enabled e)
    (pending_baud_change e).
Definition with_armed t armed e : CcidHandler D :=
  mkEsp (core e) t armed (last_frontend_health e) (baud_escape_enabled e)
    (pending_baud_change e).
Definition with_health f e : CcidHandler D :=
  mkEsp (core e) (t1 e) (t1_armed e) f (baud_escape_enabled e) (pending_baud_change e).
Definition with_baud b e : CcidHandler D :=
  mkEsp (core e) (t1 e) (t1_armed e) (last_frontend_health e) (baud_escape_enabled e) b.

(** [driver_mut().0 = d] *)
Definition driver_of e : D := Adapter.driver (nfc (core e)).
Definition with_driver (d : D) e : CcidHandler D :=
  with_core (set_nfc (Adapter.with_driver (nfc (core e)) d) (core e)) e.
Definition stats_of e : Turnaround.TurnaroundStats := Adapter.stats (nfc (core e)).

Definition new (d : D) (clock : list Z) : CcidHandler D :=
  {| core := Handler.new (Adapter.new d clock) FIRMWARE_VERSION;
     t1 := T1Endpoint.new; t1_armed := false; last_frontend_health := None;
     baud_escape_enabled := false; pending_baud_change := None |}.

Definition enable_baud_escape e : CcidHandler D :=
  mkEsp (core e) (t1 e) (t1_armed e) (last_frontend_health e) true (pending_baud_change e).
Definition take_baud_change e : CcidHandler D * option Z :=
  (with_baud None e, pending_baud_change e).

Definition esp_record_turnaround_us (us : Z) e : CcidHandler D :=
  let a := nfc (core e) in
  with_core (set_nfc (Adapter.mkAdapter (Adapter.driver a)
                        (Turnaround.record_turnaround_us us (Adapter.stats a))
                        (Adapter.clock a)) (core e)) e.

Definition esp_take_snapshot_request e : CcidHandler D * bool :=
  let r := take_snapshot_request (core e) in (with_core r.1 e, r.2).

(** [refresh_diagnostics]; the log line is not modelled, the transition
    detector's memory is. *)
Definition esp_refresh_diagnostics (uptime_ticks : Z) e : CcidHandler D :=
  let e := with_core (refresh_diagnostics (core e) uptime_ticks) e in
  with_health (Some (health (frontend_status (driver_of e)))) e.

Definition esp_record_nak e : CcidHandler D := with_core (record_nak (core e)) e.

(** [check_card_change]: the answer, and the presence pushed to an installed
    sink. *)
Definition esp_check_card_change e : CcidHandler D * option bool * bool :=
  let r := check_card_change (core e) in
  let e := with_core r.1 e in
  let k := take_card_reset (core e) in
  let e := with_core k.1 e in
  let e := if k.2 then with_armed (T1Endpoint.reset (t1 e)) false e else e in
  (e, r.2, Diagnostics.card_present (diagnostics (core e))).

(** ** The T=1 route *)

(** A reading of the injected clock. *)
Definition now_us e : Z * CcidHandler D :=
  let a := nfc (core e) in
  let r := Adapter.now_us (Adapter.clock a) in
  (r.1, with_core (set_nfc (Adapter.mkAdapter (Adapter.driver a) (Adapter.stats a) r.2)
                     (core e)) e).

Definition icc_of e : Z := icc_status (slot_state (core e)).

(** A block in a successful DataBlock. *)
Definition block_reply h (icc : Z) (bytes response : list Z) : reply :=
  write_message RDR_TO_PC_DATABLOCK (slot h) (seq h)
    (build_bstatus COMMAND_STATUS_NO_ERROR icc) 0 0 bytes response.

(** [account_failed_status] *)
Definition account_failed_status (r : CcidHandler D * reply) : outcome (CcidHandler D * reply) :=
  let '(e, (response, len)) := r in
  if (7 <? len)%nat then
    status ← index response 7;
    Ret (if negb (Z.land status 0x40 =? 0)
         then (with_core (record_protocol_error (core e)) e, (response, len)) else r)
  else Ret r.

(** The exchange of a completed command: through the APDU pipeline of the core
    and back into the endpoint. *)
Definition relay_apdu e h (card_apdu response : list Z) : outcome (CcidHandler D * reply) :=
  apdu_buf ← copy_at (replicate T1Endpoint.MAX_RELAY 0) 0 card_apdu;
  apdu ← slice apdu_buf 0 (length card_apdu);
  let '(started_us, e) := now_us e in
  r ← apdu_pipeline (core e) h apdu (replicate 271 0);
  let '(c, (scratch, n)) := r in
  let '(ended_us, e) := now_us (with_core c e) in
  let took := T1Endpoint.elapsed_ms_since ended_us started_us in
  status ← index scratch 7;
  payload ← (if negb (Z.land status (Z.shiftl COMMAND_STATUS_FAILED 6) =? 0)
             then Ret CARD_TIMEOUT_SW else slice scratch (10 `min` n) n);
  b ← T1Endpoint.card_response payload took (t1 e);
  Ret (with_t1 b.1 e, block_reply h ICC_STATUS_PRESENT_ACTIVE b.2 response).

(** The tail of [xfr_via_t1]: blocks that need the card. *)
Definition card_block e h (apdu response : list Z) : outcome (CcidHandler D * reply) :=
  if negb (bool_decide (slot_state (core e) = PresentActive)) then
    account_failed_status
      (e, write_message RDR_TO_PC_DATABLOCK (slot h) (seq h)
            (build_bstatus COMMAND_STATUS_FAILED (icc_of e)) ICC_NOT_ACTIVE 0 [] response)
  else
    r ← T1Endpoint.feed apdu (t1 e);
    let e := with_t1 r.1 e in
    match r.2 with
    | T1Endpoint.Immediate bytes =>
        Ret (e, block_reply h ICC_STATUS_PRESENT_ACTIVE bytes response)
    | T1Endpoint.Apdu card_apdu => relay_apdu e h card_apdu response
    end.

Definition xfr_via_t1 e h (ccid_msg response : list Z) : outcome (CcidHandler D * reply) :=
  let msg_end := usize_add (Z.of_nat CCID_HEADER_SIZE) (dw_length h) in
  if Z.of_nat (length ccid_msg) <? msg_end then
    let e := with_core (record_protocol_error (core e)) e in
    Ret (e, write_slot_status (slot h) (seq h) (icc_of e) COMMAND_STATUS_FAILED
              CMD_NOT_SUPPORTED 0 response)
  else
    apdu ← slice ccid_msg CCID_HEADER_SIZE (Z.to_nat msg_end);
    if T1Endpoint.is_s_block_request apdu then
      r ← T1Endpoint.feed apdu (t1 e);
      let e := with_t1 r.1 e in
      match r.2 with
      | T1Endpoint.Immediate bytes =>
          account_failed_status (e, block_reply h (icc_of e) bytes response)
      | T1Endpoint.Apdu _ => card_block e h apdu response
      end
    else card_block e h apdu response.

(** ** Escapes answered by the wrapper *)
Definition escape_message e h (cmd_status error specific : Z) (payload response : list Z) :
    reply :=
  write_message RDR_TO_PC_ESCAPE (slot h) (seq h) (build_bstatus cmd_status (icc_of e))
    error specific payload response.

(** Escape 0xD2: the turnaround counters. *)
Definition answer_turnaround e h (response : list Z) : reply :=
  let buf := (Turnaround.to_bytes (stats_of e)
                (replicate Turnaround.SERIALIZED_SIZE 0)).1 in
  escape_message e h COMMAND_STATUS_NO_ERROR 0 0 buf response.

(** Escape 0xD4: the waiting-time counters. *)
Definition answer_wtx e h (counters : Z * Z) (response : list Z) : reply :=
  escape_message e h COMMAND_STATUS_NO_ERROR 0 0
    (to_le32 counters.1 ++ to_le32 counters.2) response.

(** Escape 0xD3: the bus timing probe. *)
Definition answer_probe e h (ccid_msg response : list Z) : CcidHandler D * reply :=
  let reads := default 0 (ccid_msg !! (CCID_HEADER_SIZE + 1)%nat) in
  let '(d, regs) := timer_registers (driver_of e) in
  let '(d, probed) := i2c_timing_probe d reads in
  let e := with_driver d e in
  let '(took_us, fwt_ms) :=
    match probed with
    | Some us => (us, configured_fwt_ms (driver_of e))
    | None => (u32_max, 0)
    end in
  let payload := to_le32 took_us ++ to_le32 reads ++ to_le32 fwt_ms ++ default [] regs in
  let failed := took_us =? u32_max in
  (e, escape_message e h (if failed then COMMAND_STATUS_FAILED else COMMAND_STATUS_NO_ERROR)
        (if failed then CMD_NOT_SUPPORTED else 0) 0 payload response).

(** Escape [0x05, code]: the baud switch. *)
Definition answer_baud e h (ccid_msg response : list Z) : CcidHandler D * reply :=
  let code := ccid_msg !! (CCID_HEADER_SIZE + 1)%nat in
  let accepted := if dw_length h =? 2
                  then match code with Some c => baud_from_code c | None => None end
                  else None in
  match accepted with
  | Some baud =>
      let e := with_baud (Some baud) e in
      (e, escape_message e h COMMAND_STATUS_NO_ERROR 0 0
            (ESCAPE_SET_BAUD :: default 0 code :: to_le32 baud) response)
  | None =>
      (e, escape_message e h COMMAND_STATUS_FAILED 0 CMD_NOT_SUPPORTED [] response)
  end.

(** ** [process_command] *)
Definition escape_is h (ccid_msg : list Z) (len code : Z) : bool :=
  (message_type h =? PC_TO_RDR_ESCAPE) && (dw_length h =? len) &&
  bool_decide (ccid_msg !! CCID_HEADER_SIZE = Some code).

(** The messages the wrapper answers itself; [None] delegates to the core. *)
Definition answer_locally e (ccid_msg response : list Z) :
    option (outcome (CcidHandler D * reply)) :=
  match CcidHeader_parse ccid_msg with
  | None => None
  | Some h =>
      if (message_type h =? PC_TO_RDR_XFR_BLOCK) && t1_armed e &&
         (current_protocol (core e) =? 1)
      then Some (xfr_via_t1 e h ccid_msg response)
      else if escape_is h ccid_msg 1 0xD2 then Some (Ret (e, answer_turnaround e h response))
      else
        match (if escape_is h ccid_msg 1 0xD4 then wtx_counters (driver_of e) else None) with
        | Some counters => Some (Ret (e, answer_wtx e h counters response))
        | None =>
            if escape_is h ccid_msg 2 0xD3 then Some (Ret (answer_probe e h ccid_msg response))
            else if (message_type h =? PC_TO_RDR_ESCAPE) && baud_escape_enabled e &&
                    bool_decide (ccid_msg !! CCID_HEADER_SIZE = Some ESCAPE_SET_BAUD)
            then Some (Ret (answer_baud e h ccid_msg response))
            else None
        end
  end.

(** Consuming the core's events after a delegated command: an accepted
    SetParameters opens a fresh T=1 session, a card reset closes it. *)
Definition on_parameters_accepted e : CcidHandler D :=
  let k := take_parameters_accepted (core e) in
  let e := with_core k.1 e in
  if k.2 then
    let t := T1Endpoint.reset (t1 e) in
    let t := match applied_t1_timing (core e) with
             | Some (bwi, _, ifsc) => T1Endpoint.set_host_timing bwi ifsc t
             | None => t
             end in
    with_armed t true e
  else e.

Definition on_card_reset e : CcidHandler D :=
  let k := take_card_reset (core e) in
  let e := with_core k.1 e in
  if k.2 then with_armed (T1Endpoint.reset (t1 e)) false e else e.

Definition esp_process_command e (ccid_msg response : list Z) :
    outcome (CcidHandler D * reply) :=
  match answer_locally e ccid_msg response with
  | Some answer => answer
  | None =>
      r ← process_command (core e) ccid_msg response;
      Ret (on_card_reset (on_parameters_accepted (with_core r.1 e)), r.2)
  end.
End Esp.
