(* ===== verification/EspSpec.v ===== *)
(** * The ESP32 handler wrapper: theorems

    The wrapper keeps the invariants of the core and of the endpoint on every
    message a framed link can carry; the life of a T=1 session; and the
    exchange of one command end to end, from the host's block chain through
    the card driver to the answer's block chain.  Witnesses run the wrapper
    over the mock driver. *)
From Stdlib Require Import ZArith Lia ZifyBool.
From stdpp Require Import prelude.
From S2P Require Import Prelude T1Endpoint Wire Atr Diag.
From S2P Require Import Secure CardInterface Handler HandlerFacts HandlerSpec EspHandler.
Local Open Scope Z_scope.

#[local] Existing Instance SerialNfcProfile.

(** The driver's probes keep its invariant. *)
Class NfcProbesLaws (D E : Type) `{!NfcDriver D E, !NfcDriverLaws D E, !NfcProbes D} := {
  timer_registers_ok d : nfc_ok d -> nfc_ok (timer_registers d).1 /\
    (forall l, (timer_registers d).2 = Some l -> bytes l /\ length l = 4%nat);
  i2c_timing_probe_ok d n : nfc_ok d -> nfc_ok (i2c_timing_probe d n).1
}.
#[export] Instance mock_probes_laws : NfcProbesLaws Mock.MockNfcDriver NfcError.
Proof. by constructor. Qed.

(** ** The invariant *)
Record esp_ok {D E} `{!NfcDriver D E, !NfcDriverLaws D E} (e : CcidHandler D) : Prop := mkEspOk {
  eo_core : core_ok (core e);
  eo_t1 : t1_inv (t1 e);
  eo_reset : card_reset_event (core e) = false;
  eo_params : parameters_accepted_event (core e) = false;
  eo_pad : pin_pad (core e) = false
}.

(** A reply is one message to [h]'s slot and sequence number, with at most [cap]
    bytes of payload. *)
Definition message_to (cap : nat) (h : CcidHeader) (buf : list Z) (ty status : Z) (data : list Z) (r : reply)
    : Prop :=
  u8 ty /\ bytes data /\ (length data <= cap)%nat /\
  exists err sp, u8 err /\ u8 sp /\
    r = write_message ty (slot h) (seq h) status err sp data buf.

Section Spec.
Context {D E : Type} `{!NfcDriver D E, !NfcDriverLaws D E, !NfcProbes D, !NfcProbesLaws D E,
  !FrontendDiagnostics D}.
Implicit Types (e : CcidHandler D) (h : CcidHeader).

Lemma core_ok_set_nfc (c : Core (Adapter.CardDriverAdapter D)) a :
  core_ok c -> driver_ok a -> core_ok (set_nfc a c).
Proof. intros [] Ha. by constructor. Qed.

Lemma core_ok_clear_events (c : Core (Adapter.CardDriverAdapter D)) a b :
  core_ok c -> core_ok (set_card_reset_event a (set_parameters_accepted b c)).
Proof. intros []. by constructor. Qed.

Lemma esp_ok_core e c :
  esp_ok e -> core_ok c -> card_reset_event c = false -> parameters_accepted_event c = false ->
  pin_pad c = false -> esp_ok (with_core c e).
Proof. intros []. by constructor. Qed.

Lemma esp_ok_t1 e t : esp_ok e -> t1_inv t -> esp_ok (with_t1 t e).
Proof. intros []. by constructor. Qed.

Lemma now_us_spec e : esp_ok e ->
  esp_ok (EspHandler.now_us e).2 /\ driver_of (EspHandler.now_us e).2 = driver_of e /\
  t1 (EspHandler.now_us e).2 = t1 e /\
  slot_state (core (EspHandler.now_us e).2) = slot_state (core e) /\
  tx_buf (core (EspHandler.now_us e).2) = tx_buf (core e) /\
  (EspHandler.now_us e).1 = nth 0 (Adapter.clock (nfc (core e))) 0 /\
  Adapter.clock (nfc (core (EspHandler.now_us e).2)) = drop 1 (Adapter.clock (nfc (core e))).
Proof.
  intros He. split.
  - pose proof (ok_driver _ (eo_core _ He)) as Hd. destruct He.
    apply esp_ok_core; try done. by apply core_ok_set_nfc.
  - unfold EspHandler.now_us, driver_of. simpl.
    by destruct (Adapter.clock (nfc (core e))).
Qed.

(** Failure accounting of a written message. *)
Lemma account_failed_written e ty s q (failed : bool) icc err sp data buf :
  0 <= icc <= 2 -> (10 + length data <= length buf)%nat ->
  let st := build_bstatus (if failed then COMMAND_STATUS_FAILED else COMMAND_STATUS_NO_ERROR)
              icc in
  account_failed_status (e, write_message ty s q st err sp data buf) =
    Ret (if failed then with_core (record_protocol_error (core e)) e else e,
         write_message ty s q st err sp data buf).
Proof.
  intros Hicc Hl st. unfold account_failed_status.
  pose proof (write_message_status ty s q st err sp data buf Hl) as Hs.
  destruct (write_message _ _ _ _ _ _ _ _) as [b n] eqn:Ew.
  assert (n = 10 + length data)%nat as ->.
  { rewrite write_message_fits in Ew by done. by injection Ew. }
  replace (7 <? 10 + length data)%nat with true by lia. unfold index. cbn [fst] in Hs.
  rewrite Hs, bind_ret. unfold st. change 0x40 with (Z.shiftl COMMAND_STATUS_FAILED 6).
  rewrite bstatus_failed_bit by (destruct failed; unfold COMMAND_STATUS_FAILED,
    COMMAND_STATUS_NO_ERROR; lia). by destruct failed.
Qed.

Lemma esp_ok_error e : esp_ok e -> esp_ok (with_core (record_protocol_error (core e)) e).
Proof.
  intros He. destruct He. apply esp_ok_core; try done. by apply core_ok_record_error.
Qed.

(** *** The relay of a completed command *)
Lemma pipeline_relay (c : Core (Adapter.CardDriverAdapter D)) h apdu buf :
  relays apdu = true ->
  apdu_pipeline c h apdu buf =
    (let '(c, tx, result) := transmit_counted c apdu (tx_buf c) in
     let c := set_tx_buf tx c in
     match result with
     | Ok n => answer ← slice tx 0 n; Ret (data_block_reply c h answer buf)
     | Err e =>
         let c := set_slot_state PresentInactive c in
         Ret (data_block_failed_reply c h (current_icc_status c)
                (xfr_failure_b_error (xfr_error_class (nfc c) e)) buf)
     end).
Proof.
  intros Hr. unfold relays in Hr. apply andb_prop in Hr as [Hpps Hr].
  apply negb_true_iff in Hpps. unfold apdu_pipeline. rewrite Hpps.
  simpl in Hr. unfold pseudo_apdu in Hr. apply negb_true_iff in Hr. rewrite Hr.
  by destruct (transmit_counted c apdu (tx_buf c)) as [[? ?] [?|?]].
Qed.

(** What goes back to the endpoint: the card's answer when it fits behind a
    header in the 271-byte scratch, nothing when it does not, 64 00 when the
    exchange failed. *)
Definition t1_payload (r : filled D E) : list Z :=
  match r.2 with
  | Ok n => if decide (n <= 261)%nat then take n r.1.2 else []
  | Err _ => CARD_TIMEOUT_SW
  end.

(** The milliseconds between the first and the fourth reading of the clock:
    before the relay, around the transmit, after the relay. *)
Definition exchange_ms e : Z :=
  let clk := Adapter.clock (nfc (core e)) in
  T1Endpoint.elapsed_ms_since (nth 3 clk 0) (nth 0 clk 0).

(** The payload of an answer in the scratch buffer. *)
Lemma answered_payload {C} h buf (c' : Core C) failed r :
  answered h buf c' failed r -> (8 <= length buf)%nat ->
  (exists st, index r.1 7 = Ret st) /\
  exists data, slice r.1 (10 `min` r.2) r.2 = Ret data /\ bytes data.
Proof.
  intros Ha Hl. pose proof (proj2 (answered_replied _ _ _ _ _ Ha)) as Hlen. split.
  { destruct (lookup_lt_is_Some_2 r.1 7) as [st Hst]; [lia|].
    exists st. by apply index_ok. }
  destruct Ha as [ty f icc err sp data Hty Hicc Hslot _ _ Hb Hdl|Ht Hpin].
  2: { exists []. split; [|constructor]. cbn [fst snd]. by rewrite slice_ok by lia. }
  destruct (Nat.lt_ge_cases (length buf) (10 + length data)) as [Hs|Hs].
  - exists []. rewrite write_message_short by done. cbn [fst snd].
    split; [by rewrite slice_ok by lia|constructor].
  - exists data. split; [|done]. rewrite write_message_fits by done. cbn [fst snd].
    rewrite Nat.min_l by lia.
    rewrite slice_ok by (rewrite ?length_app, ?length_build, ?length_drop; lia).
    rewrite drop_app_length' by done. f_equal. apply take_app_length'. lia.
Qed.

(** The endpoint's command survives the copy into the relay buffer. *)
Lemma relay_apdu_buffered e h a buf :
  (length a <= T1Endpoint.MAX_RELAY)%nat ->
  relay_apdu e h a buf =
    (let '(started_us, e) := EspHandler.now_us e in
     r ← apdu_pipeline (core e) h a (replicate 271 0);
     let '(c, (scratch, n)) := r in
     let '(ended_us, e) := EspHandler.now_us (with_core c e) in
     let took := T1Endpoint.elapsed_ms_since ended_us started_us in
     status ← index scratch 7;
     payload ← (if negb (Z.land status (Z.shiftl COMMAND_STATUS_FAILED 6) =? 0)
                then Ret CARD_TIMEOUT_SW else slice scratch (10 `min` n) n);
     b ← T1Endpoint.card_response payload took (t1 e);
     Ret (with_t1 b.1 e, block_reply h ICC_STATUS_PRESENT_ACTIVE b.2 buf)).
Proof.
  intros Hl. unfold relay_apdu.
  rewrite copy_at_ok by (rewrite length_replicate; simpl; lia). rewrite bind_ret.
  change (take 0 _ ++ ?l) with l. by rewrite slice_app, bind_ret by done.
Qed.

Lemma relay_apdu_ok e h a buf :
  esp_ok e -> message_type h = PC_TO_RDR_XFR_BLOCK -> slot_state (core e) = PresentActive ->
  bytes a -> (length a <= T1Endpoint.MAX_RELAY)%nat ->
  exists e' b, relay_apdu e h a buf = Ret (e', block_reply h ICC_STATUS_PRESENT_ACTIVE b buf) /\
    esp_ok e' /\ wf_block b /\ t1_armed e' = t1_armed e.
Proof.
  intros He Ht Hact Hb Hl. rewrite relay_apdu_buffered by done.
  destruct (EspHandler.now_us e) as [t0 e0] eqn:E0.
  destruct (now_us_spec e He) as (He0 & _ & Ht0 & Hs0 & _). rewrite E0 in *. cbn [fst snd] in *.
  assert (t1_armed e0 = t1_armed e) as Ha0
    by (unfold EspHandler.now_us in E0; by injection E0 as _ <-).
  destruct (apdu_pipeline_completes (P := SerialNfcProfile) (core e0) h a (replicate 271 0) eq_refl (eo_core _ He0) Ht)
    as (f & c' & r & Er & Hst & Hans); [congruence|done|].
  rewrite Er, bind_ret. destruct r as [scratch n]. cbn [fst snd].
  pose proof (st_events _ _ _ _ Hst) as [Hev1 Hev2]. rewrite Ht in Hev1, Hev2.
  rewrite (eo_reset _ He0) in Hev1. rewrite (eo_params _ He0) in Hev2.
  destruct (st_fixed _ _ _ _ Hst) as (_ & Hpad & _). rewrite (eo_pad _ He0) in Hpad.
  pose proof (esp_ok_core e0 c' He0 (st_ok _ _ _ _ Hst) Hev1 Hev2 Hpad) as He1.
  destruct (EspHandler.now_us (with_core c' e0)) as [t2 e2] eqn:E2.
  destruct (now_us_spec _ He1) as (He2 & _ & Ht2 & _). rewrite E2 in *. cbn [fst snd] in *.
  assert (t1_armed e2 = t1_armed e0) as Ha2
    by (unfold EspHandler.now_us in E2; by injection E2 as _ <-).
  destruct (answered_payload _ _ _ _ _ Hans) as [[st Hst7] (data & Hdata & Hbd)];
    [rewrite length_replicate; lia|]. cbn [fst snd] in *.
  rewrite Hst7, bind_ret.
  set (payload := if negb _ then _ else _).
  assert (exists l, payload = Ret l /\ bytes l) as (l & -> & Hbl).
  { unfold payload. case_match; [|by exists data]. eexists. split; [done|]. solve_bytes. }
  rewrite bind_ret.
  destruct (card_response_ok l (T1Endpoint.elapsed_ms_since t2 t0) (t1 e2) (eo_t1 _ He2) Hbl)
    as (t' & b & Eb & Ht' & Hwf).
  rewrite Eb, bind_ret. exists (with_t1 t' e2), b.
  split; [done|]. split; [by apply esp_ok_t1|]. split; [done|]. simpl. congruence.
Qed.

(** The scratch buffer after the pipeline wrote its message. *)
Definition scratch_of (h : CcidHeader) (tx : list Z) (res : result nat E) : reply :=
  match res with
  | Ok n => write_message RDR_TO_PC_DATABLOCK (slot h) (seq h)
              (build_bstatus COMMAND_STATUS_NO_ERROR ICC_STATUS_PRESENT_ACTIVE) 0 0
              (take n tx) (replicate 271 0)
  | Err _ => write_message RDR_TO_PC_DATABLOCK (slot h) (seq h)
              (build_bstatus COMMAND_STATUS_FAILED ICC_STATUS_PRESENT_INACTIVE)
              (xfr_failure_b_error Unclassified) 0 [] (replicate 271 0)
  end.

Lemma scratch_status res tx h : length tx = TX_BUF_SIZE ->
  index (scratch_of h tx res).1 7 = Ret (if is_ok res then 0 else 0x41).
Proof.
  intros Hl. destruct res as [n|k]; [|done]. cbn [scratch_of is_ok].
  destruct (Nat.lt_ge_cases 271 (10 + length (take n tx))).
  - by rewrite write_message_short by (rewrite length_replicate; lia).
  - apply index_ok. by rewrite write_message_status by (rewrite length_replicate; lia).
Qed.

Lemma scratch_payload n tx h : length tx = TX_BUF_SIZE -> (n <= 271)%nat ->
  let r := scratch_of h tx (Ok n) in
  slice r.1 (10 `min` r.2) r.2 = Ret (if decide (n <= 261)%nat then take n tx else []).
Proof.
  intros Hl Hn r. assert (length (take n tx) = n) as Hln
    by (rewrite length_take, Hl; unfold TX_BUF_SIZE; lia).
  unfold r, scratch_of. case_decide.
  - rewrite write_message_fits by (rewrite length_replicate; lia). cbn [fst snd].
    rewrite Nat.min_l by lia. rewrite slice_ok by
      (rewrite ?length_app, ?length_build, ?length_drop, ?length_replicate; lia).
    rewrite drop_app_length' by done. f_equal. apply take_app_length'. lia.
  - rewrite write_message_short by (rewrite length_replicate; lia).
    by rewrite slice_ok by (simpl; lia).
Qed.

(** The relayed command in detail. *)
Lemma relay_apdu_spec e h a buf :
  esp_ok e -> slot_state (core e) = PresentActive ->
  (length a <= T1Endpoint.MAX_RELAY)%nat -> relays a = true ->
  let y := nfc_transmit_apdu (driver_of e) a (tx_buf (core e)) in
  exists e1,
    relay_apdu e h a buf =
      (b ← T1Endpoint.card_response (t1_payload y) (exchange_ms e) (t1 e);
       Ret (with_t1 b.1 e1, block_reply h ICC_STATUS_PRESENT_ACTIVE b.2 buf)) /\
    driver_of e1 = y.1.1 /\ t1_armed e1 = t1_armed e /\
    current_protocol (core e1) = current_protocol (core e) /\
    slot_state (core e1) = (if is_ok y.2 then PresentActive else PresentInactive).
Proof.
  intros He Hact Hl Hrel y. rewrite relay_apdu_buffered by done.
  destruct (now_us_spec e He) as (He0 & Hd0 & Ht0 & Hs0 & Htx0 & Hnow0 & Hclk0).
  destruct (EspHandler.now_us e) as [t0 e0] eqn:E0. cbn [fst snd] in *.
  assert (t1_armed e0 = t1_armed e /\ current_protocol (core e0) = current_protocol (core e))
    as [Ha0 Hp0] by (unfold EspHandler.now_us in E0; by injection E0 as _ <-).
  rewrite pipeline_relay by done.
  destruct (transmit_counted (core e0) a (tx_buf (core e0))) as [[c1 tx] res] eqn:Et.
  destruct (transmit_counted_spec _ _ _ _ _ _ (eo_core _ He0) (tx_buf_room _ (eo_core _ He0)) Et)
    as (Etx & Eres & Ec1 & _ & Hf).
  assert (let x := transmit_apdu (nfc (core e0)) a (tx_buf (core e0)) in
    x.1.2 = y.1.2 /\ x.2 = y.2 /\ Adapter.driver x.1.1 = y.1.1 /\
    Adapter.clock x.1.1 = drop 2 (Adapter.clock (nfc (core e0)))) as (X1 & X2 & X3 & X4).
  { simpl. unfold Adapter.transmit_apdu. fold (driver_of e0). rewrite Hd0, Htx0. fold y.
    destruct y as [[d b] r]. destruct (Adapter.clock (nfc (core e0))) as [|k [|k2 ks]]; done. }
  set (x := transmit_apdu (nfc (core e0)) a (tx_buf (core e0))) in *. clearbody x.
  rewrite X1 in Etx. rewrite X2 in Eres.
  assert (slot_state c1 = PresentActive /\ nfc c1 = x.1.1 /\
    current_protocol c1 = current_protocol (core e0)) as (S1 & S2 & S3)
    by (rewrite Ec1; simpl; rewrite Hs0; by rewrite Hact).
  clear Ec1. destruct Hf as (_ & Hlen & Hby & Hn). cbn [fst snd] in *.
  rewrite Htx0 in Hlen, Hn. rewrite (ok_tx_length _ (eo_core _ He)) in Hlen, Hn.
  set (c2 := match res with Ok _ => set_tx_buf tx c1
             | Err _ => set_slot_state PresentInactive (set_tx_buf tx c1) end).
  set (msg := scratch_of h tx res).
  match goal with |- exists e1, (r ← ?m; _) = _ /\ _ =>
    assert (m = Ret (c2, msg)) as -> end.
  { unfold c2, msg, scratch_of. destruct res as [n|k]; [|done].
    by rewrite slice_prefix by lia. }
  rewrite bind_ret. destruct msg as [scratch n] eqn:Em. cbn [fst snd].
  set (e2 := with_core c2 e0).
  assert (slot_state c2 = (if is_ok y.2 then PresentActive else PresentInactive) /\
    nfc c2 = x.1.1 /\ current_protocol c2 = current_protocol (core e)) as (Q1 & Q2 & Q3)
    by (unfold c2; rewrite <- Eres; destruct res; simpl; rewrite ?S1, ?S2, ?S3, ?Hp0; done).
  destruct (EspHandler.now_us e2) as [t3 e3] eqn:E3.
  unfold EspHandler.now_us in E3. injection E3 as <- <-.
  set (e3 := with_core _ _). exists e3.
  assert (index scratch 7 = Ret (if is_ok res then 0 else 0x41)) as ->.
  { pose proof (scratch_status res tx h Hlen) as Hs. fold msg in Hs. by rewrite Em in Hs. }
  rewrite bind_ret.
  match goal with |- (payload ← ?p; _) = _ /\ _ =>
    assert (p = Ret (t1_payload y)) as -> end.
  { unfold t1_payload. rewrite <- Eres, <- Etx. destruct res as [k|k]; [|done].
    pose proof (scratch_payload k tx h Hlen Hn) as Hs. cbv zeta in Hs. unfold msg in Em.
    rewrite Em in Hs. exact Hs. }
  rewrite bind_ret. split_and!; try done.
  - unfold exchange_ms. rewrite Hnow0. unfold e2. cbn [core with_core].
    rewrite Q2, X4, Hclk0, drop_drop. cbn [t1 e3].
    assert (forall l : list Z, (Adapter.now_us (drop (1 + 2) l)).1 = nth 3 l 0) as ->
      by (intros [|? [|? [|? [|? ?]]]]; done).
    change (t1 e3) with (t1 e0). by rewrite Ht0.
  - unfold e3, driver_of, e2. cbn [core with_core nfc set_nfc Adapter.driver]. by rewrite Q2.
Qed.

(** *** The armed route *)
Definition routed e h : bool :=
  (message_type h =? PC_TO_RDR_XFR_BLOCK) && t1_armed e && (current_protocol (core e) =? 1).

Lemma wf_block_payload b : wf_block b -> bytes b /\ (length b <= 261)%nat.
Proof. intros H. destruct (wf_block_props b H) as (? & _ & ?). split; [done|lia]. Qed.

(** The reply of the route: a DataBlock, with a well-formed block when the card
    is active. *)
Definition route_reply e h (buf : list Z) (r : reply) : Prop :=
  exists (failed : bool) icc data, 0 <= icc <= 2 /\
    message_to 261 h buf RDR_TO_PC_DATABLOCK
      (build_bstatus (if failed then COMMAND_STATUS_FAILED else COMMAND_STATUS_NO_ERROR) icc)
      data r /\
    (slot_state (core e) = PresentActive -> failed = false /\ wf_block data).

Lemma route_block e h icc b buf : 0 <= icc <= 2 -> wf_block b ->
  route_reply e h buf (block_reply h icc b buf).
Proof.
  intros Hi Hb. destruct (wf_block_payload b Hb). exists false, icc, b.
  split; [done|]. split; [|done]. split; [done|]. split; [done|]. split; [done|].
  exists 0, 0. by split_and!.
Qed.

Lemma card_block_ok e h apdu buf :
  esp_ok e -> message_type h = PC_TO_RDR_XFR_BLOCK -> bytes apdu -> (271 <= length buf)%nat ->
  exists e' r, card_block e h apdu buf = Ret (e', r) /\ esp_ok e' /\ route_reply e h buf r /\
    t1_armed e' = t1_armed e.
Proof.
  intros He Ht Hb Hbuf. unfold card_block. case_bool_decide as Hact; cbn [negb].
  - destruct (feed_ok apdu (t1 e) (eo_t1 _ He) Hb) as (t' & res & -> & Ht' & Hres).
    rewrite bind_ret. cbn [fst snd]. destruct res as [b|a].
    + eexists _, _. split; [done|]. split; [by apply esp_ok_t1|].
      split; [by apply route_block|done].
    + destruct Hres as [Hba Hla].
      destruct (relay_apdu_ok (with_t1 t' e) h a buf) as (e' & b & -> & He' & Hwf & Ha);
        [by apply esp_ok_t1|done..|].
      exists e'. eexists. split; [done|]. split; [done|]. split; [by apply route_block|done].
  - rewrite (account_failed_written e _ _ _ true) by (apply icc_range || (simpl; lia)).
    eexists _, _. split; [done|]. split; [by apply esp_ok_error|]. split; [|done].
    exists true. eexists. exists []. split; [apply (icc_range (slot_state (core e)))|].
    split; [|done]. split; [done|]. split; [constructor|]. split; [simpl; lia|].
    exists ICC_NOT_ACTIVE, 0. by split_and!.
Qed.

(** A complete XfrBlock on the route, by kind of block. *)
Lemma xfr_via_t1_complete e h msg buf :
  bytes msg -> complete_message msg h -> 10 + dw_length h <= u32_max ->
  xfr_via_t1 e h msg buf =
    (let apdu := payload_of msg h in
     if T1Endpoint.is_s_block_request apdu then
       r ← T1Endpoint.feed apdu (t1 e);
       match r.2 with
       | T1Endpoint.Immediate b =>
           account_failed_status (with_t1 r.1 e, block_reply h (icc_of e) b buf)
       | T1Endpoint.Apdu _ => card_block (with_t1 r.1 e) h apdu buf
       end
     else card_block e h apdu buf).
Proof.
  intros Hb [Hp Hl] Hd. unfold xfr_via_t1.
  destruct (parse_bytes _ _ Hb Hp) as (_ & Hdw & _).
  assert (usize_add (Z.of_nat CCID_HEADER_SIZE) (dw_length h) = 10 + dw_length h) as ->.
  { unfold usize_add, wrap32, CCID_HEADER_SIZE, u32_max in *. apply Z.mod_small.
    unfold u32 in Hdw. lia. }
  unfold u32 in Hdw. replace (_ <? _) with false by lia.
  unfold CCID_HEADER_SIZE. rewrite slice_ok by lia. rewrite bind_ret.
  unfold payload_of. replace (Z.to_nat (10 + dw_length h) - 10)%nat
    with (Z.to_nat (dw_length h)) by lia. done.
Qed.

(** An S-block request never hands the card a command. *)
Lemma s_request_immediate bs t :
  t1_inv t -> bytes bs -> T1Endpoint.is_s_block_request bs = true ->
  exists t' b, T1Endpoint.feed bs t = Ret (t', T1Endpoint.Immediate b) /\ t1_inv t' /\
    wf_block b.
Proof.
  intros Ht Hb Hs. destruct (feed_ok bs t Ht Hb) as (t' & [b|a] & E1 & Ht' & Hres);
    [by exists t', b|]. exfalso.
  destruct (feed_cases bs Hb) as [(nad & pcb & inf & p & -> & Hl & Hpcb & Hinf & Hp)|[Hbad _]];
    [|by rewrite Hbad in E1].
  rewrite (feed_host_block nad pcb inf p) in E1 by done.
  assert (Z.land pcb 0xC0 = 0xC0) as Hc0.
  { unfold T1Endpoint.is_s_block_request, host_block in Hs. cbn [app] in Hs.
    case_match; [done|]. apply andb_prop in Hs as [Hs _]. by apply Z.eqb_eq. }
  assert (Z.land pcb 0x80 = 0x80) as H80.
  { change 0x80 with (Z.land 0xC0 0x80). by rewrite Z.land_assoc, Hc0. }
  unfold T1Endpoint.parse_pcb in Hp. rewrite H80, Hc0 in Hp. simpl in Hp.
  assert (exists k r, p = T1Endpoint.PS k r) as (k & [] & ->)
    by (repeat case_match; simplify_eq; eauto); cbn [T1Endpoint.dispatch] in E1.
  - unfold T1Endpoint.on_s_response in E1. destruct (_ && _).
    + destruct (T1Endpoint.take_next_chain_block _) as [[? [?|]]|]; try done.
    + unfold T1Endpoint.resend_last, T1Endpoint.bad_block in E1.
      by destruct (T1Endpoint.last_sent t).
  - by destruct k.
Qed.

Lemma xfr_via_t1_ok e h msg buf :
  esp_ok e -> bytes msg -> complete_message msg h -> 10 + dw_length h <= u32_max ->
  message_type h = PC_TO_RDR_XFR_BLOCK -> (271 <= length buf)%nat ->
  exists e' r, xfr_via_t1 e h msg buf = Ret (e', r) /\ esp_ok e' /\ route_reply e h buf r /\
    t1_armed e' = t1_armed e.
Proof.
  intros He Hb Hm Hd Ht Hbuf. rewrite xfr_via_t1_complete by done. cbv zeta.
  assert (bytes (payload_of msg h)) as Hp by (unfold payload_of; auto with bytes).
  destruct (T1Endpoint.is_s_block_request _) eqn:Es; [|by apply card_block_ok].
  destruct (s_request_immediate _ (t1 e) (eo_t1 _ He) Hp Es) as (t' & b & -> & Ht' & Hwf).
  rewrite bind_ret. cbn [fst snd]. destruct (wf_block_payload b Hwf) as [_ Hlb].
  unfold block_reply at 1.
  rewrite (account_failed_written _ _ _ _ false) by (apply icc_range || lia).
  eexists _, _. split; [done|]. split; [by apply esp_ok_t1|]. split; [|done].
  apply route_block; [apply icc_range|done].
Qed.

(** *** Delegated commands *)

(** Without a PIN pad no answer is deferred: every complete command is answered
    by one message. *)
Lemma core_answers (c : Core (Adapter.CardDriverAdapter D)) msg buf h :
  core_ok c -> pin_pad c = false -> bytes msg -> complete_message msg h ->
  10 + dw_length h <= u32_max -> (271 <= length buf)%nat ->
  exists (failed : bool) c' r ty icc data,
    process_command c msg buf = Ret (account failed c' r, r) /\
    stepped c h failed c' /\ failed_reply r = failed /\ 0 <= icc <= 2 /\
    message_to (room h failed) h buf ty
      (build_bstatus (if failed then COMMAND_STATUS_FAILED else COMMAND_STATUS_NO_ERROR) icc)
      data r.
Proof.
  intros Hc Hpad Hb Hm Hd Hbuf.
  destruct (process_handled c msg buf h Hc Hb Hm Hd) as (f & c' & r & Ep & Hs & Ha).
  { intros [_ [Hp _]]. congruence. }
  pose proof (answered_failed _ _ _ _ _ Ha) as Hf.
  destruct Ha as [ty f icc err sp data Hty Hicc Hslot He Hsp Hbd Hld|Ht Hpin].
  - exists f, c'. eexists. exists ty, icc, data. split; [done|]. split; [done|].
    split_and!; try done; try lia.
    + rewrite Hf. destruct f; [|done]. cbn in Hld. rewrite write_message_fits by lia. cbn [snd].
      by replace (10 <=? _)%nat with true by lia.
    + split; [by eapply reply_type_u8|]. split; [done|]. split; [done|]. by exists err, sp.
  - exfalso. rewrite (process_complete c msg buf h) in Ep by done.
    unfold dispatch in Ep. rewrite Ht in Ep. cbn in Ep. unfold handle_secure in Ep.
    rewrite Hpad in Ep. cbn [negb] in Ep. rewrite bind_ret in Ep.
    unfold secure_not_supported, slot_status_failed_reply, write_slot_status in Ep.
    cbn [CONTACT SerialNfcProfile] in Ep.
    rewrite (account_message c _ _ _ true) in Ep by (apply icc_range || (simpl; lia)).
    rewrite write_message_fits in Ep by (simpl; lia). done.
Qed.

(** A fresh endpoint with the timing the core has accepted. *)
Definition fresh_endpoint (c : Core (Adapter.CardDriverAdapter D)) : T1Endpoint.T1Endpoint :=
  match applied_t1_timing c with
  | Some (bwi, _, ifsc) => T1Endpoint.set_host_timing bwi ifsc T1Endpoint.new
  | None => T1Endpoint.new
  end.

Lemma fresh_endpoint_inv c : t1_inv (fresh_endpoint c).
Proof.
  unfold fresh_endpoint. destruct (applied_t1_timing c) as [[[bwi ?] ifsc]|];
    [apply set_host_timing_inv|]; apply new_inv.
Qed.

(** The events raised by a core that had none pending. *)
Lemma events_spec e (reset accepted : bool) :
  core_ok (core e) -> t1_inv (t1 e) -> pin_pad (core e) = false ->
  card_reset_event (core e) = reset -> parameters_accepted_event (core e) = accepted ->
  let e' := on_card_reset (on_parameters_accepted e) in
  esp_ok e' /\
  core e' = set_card_reset_event false (set_parameters_accepted false (core e)) /\
  (t1_armed e', t1 e') =
    (if reset then (false, T1Endpoint.new)
     else if accepted then (true, fresh_endpoint (core e)) else (t1_armed e, t1 e)).
Proof.
  intros Hc Ht Hp Hr Ha. pose proof (fresh_endpoint_inv (core e)) as Hfr.
  assert (applied_t1_timing (set_parameters_accepted false (core e)) =
          applied_t1_timing (core e)) as Htm by done.
  unfold on_card_reset, on_parameters_accepted, take_parameters_accepted, take_card_reset.
  cbn [fst snd]. rewrite Ha. destruct accepted; cbn [core with_core with_armed];
    cbn [card_reset_event set_parameters_accepted]; rewrite Hr; destruct reset;
    (split; [|split; [done|]]); try done;
    try (constructor; cbn; try done; try apply new_inv; by apply core_ok_clear_events).
Qed.

Lemma set_events_same (c : Core (Adapter.CardDriverAdapter D)) :
  card_reset_event c = false -> parameters_accepted_event c = false ->
  set_card_reset_event false (set_parameters_accepted false c) = c.
Proof. destruct c. simpl. by intros -> ->. Qed.

Lemma esp_delegated e msg buf h :
  esp_ok e -> bytes msg -> complete_message msg h -> 10 + dw_length h <= u32_max ->
  (271 <= length buf)%nat -> answer_locally e msg buf = None ->
  exists (failed : bool) c' e' r ty icc data,
    esp_process_command e msg buf = Ret (e', r) /\ esp_ok e' /\
    stepped (core e) h failed c' /\ failed_reply r = failed /\ 0 <= icc <= 2 /\
    message_to (room h failed) h buf ty
      (build_bstatus (if failed then COMMAND_STATUS_FAILED else COMMAND_STATUS_NO_ERROR) icc)
      data r /\
    core e' = set_card_reset_event false (set_parameters_accepted false (account failed c' r)) /\
    (t1_armed e', t1 e') =
      (if resets_card (message_type h) && negb failed then (false, T1Endpoint.new)
       else if sets_params (message_type h) && negb failed
            then (true, fresh_endpoint (core e')) else (t1_armed e, t1 e)).
Proof.
  intros He Hb Hm Hd Hbuf Hloc.
  destruct (core_answers (core e) msg buf h (eo_core _ He) (eo_pad _ He) Hb Hm Hd Hbuf)
    as (f & c' & r & ty & icc & data & Ep & Hs & Hf & Hicc & Hmsg).
  destruct (st_events _ _ _ _ Hs) as [Hr Ha].
  rewrite (eo_reset _ He) in Hr. rewrite (eo_params _ He) in Ha. cbn [orb] in Hr, Ha.
  destruct (st_fixed _ _ _ _ Hs) as (_ & Hpad & _). rewrite (eo_pad _ He) in Hpad.
  set (e1 := with_core (account f c' r) e).
  destruct (events_spec e1 (resets_card (message_type h) && negb f)
              (sets_params (message_type h) && negb f)) as (He' & Hcore & Harm).
  { apply account_ok, Hs. }
  { apply He. }
  1-3: unfold e1, account; cbn [core with_core]; by destruct (f && _).
  exists f, c', (on_card_reset (on_parameters_accepted e1)), r, ty, icc, data.
  split; [unfold esp_process_command; rewrite Hloc, Ep; done|].
  do 5 (split; [done|]). split; [exact Hcore|]. by rewrite Harm, Hcore.
Qed.

(** *** Locally answered messages *)
Definition one_message h (buf : list Z) (r : reply) : Prop :=
  exists ty (failed : bool) icc data, 0 <= icc <= 2 /\
    message_to (room h failed) h buf ty
      (build_bstatus (if failed then COMMAND_STATUS_FAILED else COMMAND_STATUS_NO_ERROR) icc)
      data r.

Lemma escape_one_message e h (failed : bool) err sp data buf :
  u8 err -> u8 sp -> bytes data -> (length data <= 261)%nat ->
  one_message h buf
    (escape_message e h (if failed then COMMAND_STATUS_FAILED else COMMAND_STATUS_NO_ERROR)
       err sp data buf).
Proof.
  intros. exists RDR_TO_PC_ESCAPE, failed, (icc_of e), data. split; [apply icc_range|].
  split; [done|]. split; [done|]. split; [by apply room_small|]. by exists err, sp.
Qed.

Lemma msg_byte_u8 msg i : bytes msg -> u8 (default 0 (msg !! i)).
Proof.
  intros Hb. destruct (msg !! i) as [x|] eqn:E1; [|by unfold u8].
  by apply (Forall_lookup_1 _ _ _ _ Hb E1).
Qed.

Lemma turnaround_bytes t :
  bytes (Turnaround.to_bytes t (replicate Turnaround.SERIALIZED_SIZE 0)).1 /\
  (length (Turnaround.to_bytes t (replicate Turnaround.SERIALIZED_SIZE 0%Z)).1 <= 261)%nat.
Proof.
  unfold Turnaround.to_bytes. case_match; simpl; (split; [|lia]); [solve_bytes|].
  change (bytes (words (Turnaround.fields t) ++ [])). rewrite app_nil_r. apply words_bytes.
Qed.

Lemma answer_probe_ok e h msg buf : esp_ok e ->
  esp_ok (answer_probe e h msg buf).1 /\ one_message h buf (answer_probe e h msg buf).2 /\
  t1_armed (answer_probe e h msg buf).1 = t1_armed e /\ t1 (answer_probe e h msg buf).1 = t1 e.
Proof.
  intros He. unfold answer_probe.
  pose proof (ok_driver _ (eo_core _ He)) as Hd. change (nfc_ok (driver_of e)) in Hd.
  destruct (timer_registers_ok (driver_of e) Hd) as [Hd1 Hregs].
  destruct (timer_registers (driver_of e)) as [d1 regs]. cbn [fst snd] in *.
  pose proof (i2c_timing_probe_ok d1 (default 0 (msg !! (CCID_HEADER_SIZE + 1)%nat)) Hd1) as Hd2.
  destruct (i2c_timing_probe d1 _) as [d2 probed]. cbn [fst snd] in Hd2.
  set (e2 := with_driver d2 e).
  assert (esp_ok e2) as He2.
  { destruct He. apply esp_ok_core; try done. by apply core_ok_set_nfc. }
  destruct (match probed with Some us => _ | None => _ end) as [took fwt].
  cbv zeta. cbn [fst snd]. split; [done|]. split; [|done].
  set (data := to_le32 took ++ _).
  assert (bytes data /\ (length data <= 261)%nat) as [Hb Hl].
  { destruct regs as [l|]; [destruct (Hregs l eq_refl) as [Hbl Hll]|];
      unfold data; cbn [default]; rewrite ?bytes_app, ?length_app; simpl;
      (split; [split_and!; auto with bytes; constructor|lia]). }
  destruct (took =? u32_max).
  - by apply (escape_one_message e2 h true CMD_NOT_SUPPORTED).
  - by apply (escape_one_message e2 h false 0).
Qed.

Lemma answer_baud_ok e h msg buf : esp_ok e -> bytes msg ->
  esp_ok (answer_baud e h msg buf).1 /\ one_message h buf (answer_baud e h msg buf).2 /\
  t1_armed (answer_baud e h msg buf).1 = t1_armed e /\ t1 (answer_baud e h msg buf).1 = t1 e.
Proof.
  intros He Hb. pose proof (msg_byte_u8 msg (CCID_HEADER_SIZE + 1)%nat Hb) as Hc.
  unfold answer_baud. cbv zeta.
  destruct (if dw_length h =? 2 then _ else _) as [baud|]; cbn [fst snd].
  - split; [by destruct He|]. split; [|done].
    apply (escape_one_message (with_baud (Some baud) e) h false); try done.
    + apply Forall_cons. split; [by unfold u8|]. apply Forall_cons. split; [done|].
      apply bytes_to_le32.
    + simpl. lia.
  - split; [done|]. split; [|done].
    apply (escape_one_message e h true 0 CMD_NOT_SUPPORTED); try done;
      [constructor|simpl; lia].
Qed.

(** What the wrapper answers itself. *)
Lemma answer_locally_ok e msg buf h m :
  esp_ok e -> bytes msg -> CcidHeader_parse msg = Some h -> 10 + dw_length h <= u32_max ->
  (271 <= length buf)%nat -> answer_locally e msg buf = Some m ->
  exists e' r, m = Ret (e', r) /\ esp_ok e' /\ one_message h buf r /\
    t1_armed e' = t1_armed e /\
    (routed e h = true -> complete_message msg h -> route_reply e h buf r) /\
    (routed e h = true \/ message_type h = PC_TO_RDR_ESCAPE /\ t1 e' = t1 e).
Proof.
  intros He Hb Hp Hd Hbuf. unfold answer_locally. rewrite Hp.
  fold (routed e h). destruct (routed e h) eqn:Hr.
  - intros [= <-].
    assert (message_type h = PC_TO_RDR_XFR_BLOCK) as Ht by (unfold routed in Hr; lia).
    destruct (Z.lt_ge_cases (Z.of_nat (length msg)) (10 + dw_length h)) as [Hlt|Hge].
    + unfold xfr_via_t1.
      destruct (parse_bytes _ _ Hb Hp) as (_ & Hdw & _).
      assert (usize_add (Z.of_nat CCID_HEADER_SIZE) (dw_length h) = 10 + dw_length h) as ->.
      { unfold usize_add, wrap32, CCID_HEADER_SIZE, u32_max in *. apply Z.mod_small.
        unfold u32 in Hdw. lia. }
      replace (_ <? _) with true by lia. eexists _, _. split; [done|].
      split; [by apply esp_ok_error|]. split; [|split; [done|split; [intros _ [_ ?]; lia|by left]]].
      exists RDR_TO_PC_SLOTSTATUS, true, (icc_of e), []. split; [apply icc_range|].
      split; [done|]. split; [constructor|]. split; [apply room_small; simpl; lia|].
      by exists CMD_NOT_SUPPORTED, 0.
    + destruct (xfr_via_t1_ok e h msg buf) as (e' & r & E1 & He' & Hrep & Ha); try done.
      exists e', r. split_and!; try done; [|by left].
      destruct Hrep as (f & icc & data & Hi & (Hty & Hbd & Hld & Hr') & _).
      exists RDR_TO_PC_DATABLOCK, f, icc, data. split; [done|]. split; [done|].
      split; [done|]. split; [by apply room_small|done].
  - assert (forall len code, escape_is h msg len code = true ->
      message_type h = PC_TO_RDR_ESCAPE) as Hesc by (unfold escape_is; intros; lia).
    assert (forall r, one_message h buf r -> message_type h = PC_TO_RDR_ESCAPE ->
      forall e', esp_ok e' -> t1_armed e' = t1_armed e /\ t1 e' = t1 e ->
      exists e2 r2, @Ret (CcidHandler D * reply) (e', r) = Ret (e2, r2) /\ esp_ok e2 /\
        one_message h buf r2 /\ t1_armed e2 = t1_armed e /\
        (false = true -> complete_message msg h -> route_reply e h buf r2) /\
        (false = true \/ message_type h = PC_TO_RDR_ESCAPE /\ t1 e2 = t1 e)) as Hdone
      by (intros ? ? ? ? ? [? ?]; eexists _, _; split_and!; try done; by right).
    destruct (escape_is h msg 1 0xD2) eqn:E2.
    { intros [= <-]. apply Hdone; eauto. destruct (turnaround_bytes (stats_of e)).
      by apply (escape_one_message e h false). }
    destruct (if escape_is h msg 1 0xD4 then _ else _) as [[c1 c2]|] eqn:E4.
    { intros [= <-]. apply Hdone; [|destruct (escape_is h msg 1 0xD4) eqn:?; eauto; done|done|done].
      unfold answer_wtx. cbn [fst snd].
      apply (escape_one_message e h false); try done; [|simpl; lia].
      apply bytes_app. auto with bytes. }
    destruct (escape_is h msg 2 0xD3) eqn:E3.
    { intros [= <-]. destruct (answer_probe_ok e h msg buf He) as (? & ? & ?).
      rewrite (surjective_pairing (answer_probe e h msg buf)). apply Hdone; eauto. }
    destruct (_ && _) eqn:E5; [|done].
    intros [= <-]. destruct (answer_baud_ok e h msg buf He Hb) as (? & ? & ?).
    rewrite (surjective_pairing (answer_baud e h msg buf)). apply Hdone; [done|lia|done|done].
Qed.

(** Every message a framed link can carry is answered. *)
Lemma esp_answers e msg buf :
  esp_ok e -> bytes msg -> (271 <= length buf)%nat ->
  (forall h, CcidHeader_parse msg = Some h -> 10 + dw_length h <= u32_max) ->
  exists e' r, esp_process_command e msg buf = Ret (e', r) /\ esp_ok e' /\
    match CcidHeader_parse msg with
    | None => core e' = core e /\ t1 e' = t1 e /\ r = (buf, 0%nat)
    | Some h =>
        one_message h buf r /\
        (routed e h = true -> complete_message msg h -> route_reply e h buf r)
    end.
Proof.
  intros He Hb Hbuf Hd. destruct (CcidHeader_parse msg) as [h|] eqn:Hp.
  - specialize (Hd h eq_refl). destruct (answer_locally e msg buf) as [m|] eqn:El.
    + destruct (answer_locally_ok e msg buf h m) as (e' & r & -> & He' & Hm & _ & Hr & _);
        try done.
      exists e', r. unfold esp_process_command. by rewrite El.
    + assert (routed e h = false) as Hnr.
      { destruct (routed e h) eqn:Hr; [|done]. unfold answer_locally in El. rewrite Hp in El.
        fold (routed e h) in El. by rewrite Hr in El. }
      destruct (Z.lt_ge_cases (Z.of_nat (length msg)) (10 + dw_length h)) as [Hlt|Hge].
      * unfold esp_process_command. rewrite El, (process_truncated _ _ _ h), bind_ret by done.
        cbn [fst snd]. eexists _, _. split; [done|].
        set (e1 := with_core (record_protocol_error (core e)) e).
        pose proof (esp_ok_error e He) as He1. fold e1 in He1.
        destruct (events_spec e1 false false) as (He' & _); try apply He1.
        split; [done|]. split; [|by rewrite Hnr].
        exists RDR_TO_PC_SLOTSTATUS, true, (icc_of e), []. split; [apply icc_range|].
        split; [done|]. split; [constructor|]. split; [apply room_small; simpl; lia|].
        by exists CCID_ERR_CMD_NOT_SUPPORTED, 0.
      * destruct (esp_delegated e msg buf h)
          as (f & c' & e' & r & ty & icc & data & E1 & He' & _ & _ & Hi & Hm & _); try done.
        exists e', r. split_and!; try done; [|by rewrite Hnr]. by exists ty, f, icc, data.
  - assert (answer_locally e msg buf = None) as El by (unfold answer_locally; by rewrite Hp).
    unfold esp_process_command. rewrite El. unfold process_command. rewrite Hp, bind_ret.
    cbn [fst snd]. eexists _, _. split; [done|].
    destruct (events_spec (with_core (core e) e) false false) as (He' & Hc & Ht); try apply He.
    split; [done|]. injection Ht as _ Ht. rewrite Hc, Ht. cbn [core with_core t1].
    rewrite set_events_same by apply He. done.
Qed.

(** The serial reader answers everything a link can carry.  For every state
    within the invariant and every message whose length does not wrap, the
    wrapper returns and keeps the invariants of the core and of the endpoint;
    whatever is longer than a header gets exactly one CCID message to its slot
    and sequence number; and while the T=1 route is armed and a card active,
    every XfrBlock, whatever bytes it holds, is answered by a successful
    DataBlock with one well-formed T=1 block. *)
Theorem esp_answers_everything e msg buf :
  esp_ok e -> bytes msg -> (271 <= length buf)%nat ->
  (forall h, CcidHeader_parse msg = Some h -> 10 + dw_length h <= u32_max) ->
  exists e' r, esp_process_command e msg buf = Ret (e', r) /\ esp_ok e' /\
    match CcidHeader_parse msg with
    | None => core e' = core e /\ t1 e' = t1 e /\ r = (buf, 0%nat)
    | Some h =>
        one_message h buf r /\
        (routed e h = true -> complete_message msg h -> route_reply e h buf r)
    end.
Proof. apply esp_answers. Qed.

(** The presence poll: a session lost under a present card closes the route. *)
Lemma esp_poll_spec e :
  esp_ok e ->
  let poll := esp_check_card_change e in
  let lost := negb (session_active (nfc (core e))) &&
              bool_decide (slot_state (core e) = PresentActive) &&
              (poll_card_presence (nfc (core e))).2 in
  esp_ok poll.1.1 /\ poll.1.2 = (check_card_change (core e)).2 /\
  if lost then t1_armed poll.1.1 = false /\ t1 poll.1.1 = T1Endpoint.new /\
               poll.1.2 = Some true
  else t1_armed poll.1.1 = t1_armed e /\ t1 poll.1.1 = t1 e.
Proof.
  intros He.
  pose proof (check_card_change_ok (P := SerialNfcProfile) (core e) (eo_core _ He)) as Hc.
  unfold esp_check_card_change, take_card_reset. cbv zeta. cbn [fst snd].
  set (c' := (check_card_change (core e)).1) in *.
  assert (parameters_accepted_event c' = false /\ pin_pad c' = false /\
    card_reset_event c' = negb (session_active (nfc (core e))) &&
             bool_decide (slot_state (core e) = PresentActive) &&
             (poll_card_presence (nfc (core e))).2 /\
    (card_reset_event c' = true -> (check_card_change (core e)).2 = Some true))
    as (H1 & H2 & H3 & H4).
  { unfold c', check_card_change. destruct (session_active (nfc (core e)));
      [destruct He; cbn; split_and!; try done; congruence|].
    destruct (poll_card_presence (nfc (core e))) as [d now]. cbn [fst snd].
    cbn [CONTACT SerialNfcProfile negb andb slot_state set_diagnostics set_nfc present].
    destruct He as [_ _ Hr Hp Hpad].
    case_bool_decide; destruct now; cbn [andb]; [done|..];
      destruct (negb _); cbn; rewrite ?Hr, ?Hp, ?Hpad; done. }
  cbn [core with_core]. rewrite H3 in H4 |- *. destruct (_ && _ && _).
  + split; [|by rewrite H4]. constructor; cbn; try done; [by destruct Hc|apply new_inv].
  + split; [|done]. destruct He. constructor; cbn; try done. by destruct Hc.
Qed.

(** C6: the life of a T=1 session.  A SetParameters or ResetParameters that the
    host sees accepted opens one: the route is armed and the endpoint starts
    afresh, with the timing the host has just set.  A successful IccPowerOn,
    and a presence poll that finds the session of a still present card gone,
    close it: the route is disarmed and the endpoint reset.  No other command,
    refused command or poll arms or disarms the route, and only blocks sent on
    the armed route change the endpoint. *)
Theorem t1_session_lifecycle e msg h buf e' r :
  esp_ok e -> bytes msg -> complete_message msg h -> 10 + dw_length h <= u32_max ->
  (271 <= length buf)%nat -> esp_process_command e msg buf = Ret (e', r) ->
  (if resets_card (message_type h) && negb (failed_reply r)
   then t1_armed e' = false /\ t1 e' = T1Endpoint.new
   else if sets_params (message_type h) && negb (failed_reply r)
   then t1_armed e' = true /\ t1 e' = fresh_endpoint (core e')
   else t1_armed e' = t1_armed e /\ (routed e h = false -> t1 e' = t1 e)) /\
  (let poll := esp_check_card_change e in
   let lost := negb (session_active (nfc (core e))) &&
               bool_decide (slot_state (core e) = PresentActive) &&
               (poll_card_presence (nfc (core e))).2 in
   esp_ok poll.1.1 /\ poll.1.2 = (check_card_change (core e)).2 /\
   if lost then t1_armed poll.1.1 = false /\ t1 poll.1.1 = T1Endpoint.new /\
                poll.1.2 = Some true
   else t1_armed poll.1.1 = t1_armed e /\ t1 poll.1.1 = t1 e).
Proof.
  intros He Hb Hm Hd Hbuf Ep. split.
  - destruct (answer_locally e msg buf) as [m|] eqn:El.
    + destruct (answer_locally_ok e msg buf h m)
        as (e2 & r2 & -> & _ & _ & Ha & _ & Hk); try done; [apply Hm|].
      unfold esp_process_command in Ep. rewrite El in Ep. injection Ep as <- <-.
      unfold routed in Hk.
      assert (message_type h = PC_TO_RDR_XFR_BLOCK \/ message_type h = PC_TO_RDR_ESCAPE)
        as Ht by lia.
      assert (resets_card (message_type h) = false /\ sets_params (message_type h) = false)
        as [-> ->] by (destruct Ht as [-> | ->]; done).
      cbn [andb]. split; [done|]. unfold routed. intros Hr.
      destruct Hk as [Hk|[_ Hk]]; [congruence|done].
    + destruct (esp_delegated e msg buf h)
        as (f & c' & e2 & r2 & ty & icc & data & E2 & _ & _ & Hf & _ & _ & _ & Ha); try done.
      rewrite E2 in Ep. injection Ep as <- <-. rewrite Hf.
      destruct (_ && negb f); [by injection Ha as -> ->|].
      destruct (_ && negb f); [by injection Ha|]. by injection Ha as -> ->.
  - by apply esp_poll_spec.
Qed.

(** ** One command, end to end *)

Lemma i_r_not_s pcb inf p : (forall k r, p <> T1Endpoint.PS k r) ->
  T1Endpoint.parse_pcb pcb = Some p ->
  T1Endpoint.is_s_block_request (mk_block pcb inf) = false.
Proof.
  intros Hp E1. unfold T1Endpoint.is_s_block_request, mk_block. cbn [app].
  case_match; [done|]. destruct (Z.eqb_spec (Z.land pcb 0xC0) 0xC0) as [Hc|]; [|done]. exfalso.
  assert (Z.land pcb 0x80 = 0x80) as H80.
  { change 0x80 with (Z.land 0xC0 0x80). by rewrite Z.land_assoc, Hc. }
  unfold T1Endpoint.parse_pcb in E1. rewrite H80, Hc in E1. simpl in E1.
  repeat case_match; simplify_eq; by eapply Hp.
Qed.

(** The blocks of a chain, as XfrBlock payloads. *)
Definition payload_ok (b : list Z) : Prop :=
  bytes b /\ small b /\ T1Endpoint.is_s_block_request b = false.

Lemma i_block_ok n m nr inf : bit n -> bit nr -> bytes inf -> (length inf <= 254)%nat ->
  payload_ok (mk_block (T1Endpoint.i_pcb n m nr) inf).
Proof.
  intros Hn Hnr Hb Hl.
  assert (wf_block (mk_block (T1Endpoint.i_pcb n m nr) inf)) as Hwf
    by (eexists _, _; split_and!; auto using u8_i_pcb).
  destruct (wf_block_props _ Hwf) as (? & _ & ?). split; [done|]. split; [unfold small; lia|].
  by apply (i_r_not_s _ _ (T1Endpoint.PI n m nr)); [|apply parse_i_pcb].
Qed.

Lemma r_block_payload b : r_block b -> payload_ok b.
Proof.
  intros (m & e & Hm & He & ->).
  assert (wf_block (mk_block (T1Endpoint.r_pcb m e) [])) as Hwf.
  { eexists _, _. split; [done|]. split; [apply u8_r_pcb; unfold u8; lia|].
    split; [constructor|simpl; lia]. }
  destruct (wf_block_props _ Hwf) as (? & _ & ?). split; [done|]. split; [unfold small; lia|].
  by apply (i_r_not_s _ _ (T1Endpoint.PR m e)); [|apply parse_r_pcb].
Qed.

Lemma chain_payloads n nr pieces : bit n -> bit nr ->
  Forall (fun p => bytes p /\ (length p <= 254)%nat) pieces ->
  Forall payload_ok (chain_blocks n nr pieces).
Proof.
  intros Hn Hnr H. induction H as [|p ps [Hb Hl] H IH]; [constructor|].
  destruct ps; constructor; try done; by apply i_block_ok.
Qed.

Lemma length_chain n nr pieces : length (chain_blocks n nr pieces) = length pieces.
Proof.
  induction pieces as [|p ps IH]; [done|]. destruct ps; [done|].
  change (S (length (chain_blocks n nr (l :: ps))) = S (length (l :: ps))). by rewrite IH.
Qed.

Lemma answer_length e a :
  esp_ok e -> bytes a ->
  let y := nfc_transmit_apdu (driver_of e) a (tx_buf (core e)) in
  bytes (t1_payload y) /\ (length (t1_payload y) <= T1Endpoint.MAX_RELAY)%nat /\
  (is_ok y.2 = false -> t1_payload y = CARD_TIMEOUT_SW).
Proof.
  intros He Hb y. pose proof (ok_driver _ (eo_core _ He)) as Hd.
  change (nfc_ok (driver_of e)) in Hd.
  destruct (nfc_transmit_fills (driver_of e) a (tx_buf (core e)) Hd) as (_ & Hl & Hby & Hn).
  fold y in Hl, Hby, Hn. specialize (Hby (ok_tx_bytes _ (eo_core _ He))).
  rewrite (ok_tx_length _ (eo_core _ He)) in Hl. unfold t1_payload.
  destruct y as [[d b] [n|k]]; cbn [fst snd] in *.
  - split_and!; [case_decide; [auto with bytes|constructor]| |done].
    case_decide; [|simpl; lia]. rewrite length_take. unfold T1Endpoint.MAX_RELAY. lia.
  - split_and!; [solve_bytes|simpl; unfold T1Endpoint.MAX_RELAY; lia|done].
Qed.

(** The host's XfrBlocks: sequence numbers and payloads. *)
Definition send_xfr (s : Z) (sp : Z * Z * Z) (buf : list Z) e (m : Z * list Z) :
    outcome (CcidHandler D * reply) :=
  esp_process_command e (command PC_TO_RDR_XFR_BLOCK s m.1 sp m.2) buf.

(** The message a reply put into the buffer. *)
Definition sent (r : reply) : list Z := take r.2 r.1.

Section Route.
Context (s : Z) (sp : Z * Z * Z) (buf : list Z).
Context (Hs : u8 s) (H0 : u8 sp.1.1) (H1 : u8 sp.1.2) (H2 : u8 sp.2)
  (Hbuf : (271 <= length buf)%nat).

Definition on_route e : Prop :=
  esp_ok e /\ t1_armed e = true /\ current_protocol (core e) = 1 /\
  slot_state (core e) = PresentActive.

Lemma send_on_route e q b :
  on_route e -> u8 q -> payload_ok b ->
  send_xfr s sp buf e (q, b) =
    card_block e (command_header PC_TO_RDR_XFR_BLOCK s q sp b) b buf.
Proof.
  intros (He & Ha & Hp & Hact) Hq (Hb & Hsm & Hns). unfold send_xfr. cbn [fst snd].
  set (h := command_header PC_TO_RDR_XFR_BLOCK s q sp b).
  pose proof (complete_command PC_TO_RDR_XFR_BLOCK s q sp b Hsm) as Hm. fold h in Hm.
  assert (bytes (command PC_TO_RDR_XFR_BLOCK s q sp b)) as Hby by solve_command.
  assert (payload_of (command PC_TO_RDR_XFR_BLOCK s q sp b) h = b) as Hpl.
  { unfold payload_of, h, command_header, command. cbn [dw_length]. rewrite Nat2Z.id.
    change (drop 10 (_ ++ b)) with b. apply firstn_all. }
  unfold esp_process_command, answer_locally. rewrite (proj1 Hm).
  change (message_type h =? PC_TO_RDR_XFR_BLOCK) with true. rewrite Ha, Hp. cbn [andb Z.eqb Pos.eqb].
  rewrite xfr_via_t1_complete; [|done|done|unfold h, command_header, small, u32_max in *; simpl; lia].
  cbv zeta. by rewrite Hpl, Hns.
Qed.

Lemma send_immediate e q b t' x :
  on_route e -> u8 q -> payload_ok b ->
  T1Endpoint.feed b (t1 e) = Ret (t', T1Endpoint.Immediate x) ->
  exists r, send_xfr s sp buf e (q, b) = Ret (with_t1 t' e, r) /\
    sent r = data_reply s q ICC_STATUS_PRESENT_ACTIVE false 0 x /\ on_route (with_t1 t' e).
Proof.
  intros Hr Hq Hb Ef. rewrite send_on_route by done.
  destruct Hr as (He & Ha & Hp & Hact).
  unfold card_block. rewrite Hact, bool_decide_true by done. cbn [negb]. rewrite Ef, bind_ret.
  destruct (feed_ok b (t1 e) (eo_t1 _ He) (proj1 Hb)) as (t2 & r2 & E2 & Ht2 & Hw).
  rewrite Ef in E2. injection E2 as <- <-. destruct (wf_block_props x Hw) as (_ & _ & Hlx).
  eexists. split; [done|]. split.
  - apply (take_message _ _ _ false); [lia|unfold small; lia].
  - split; [by apply esp_ok_t1|done].
Qed.

(** A run of blocks the endpoint answers itself. *)
Lemma send_immediates ms e t' outs :
  on_route e -> Forall (fun m => u8 m.1) ms ->
  Forall payload_ok (map snd ms) ->
  feeds (t1 e) (map snd ms) = Ret (t', map T1Endpoint.Immediate outs) ->
  exists rs, run (send_xfr s sp buf) e ms = Ret (with_t1 t' e, rs) /\
    map sent rs = zip_with (fun m x => data_reply s m.1 ICC_STATUS_PRESENT_ACTIVE false 0 x)
                    ms outs /\
    on_route (with_t1 t' e).
Proof.
  intros Hr Hq Hms. revert e Hr outs. unfold feeds.
  induction ms as [|[q b] ms IH]; intros e Hr outs; cbn [map run snd] in *.
  - intros [= <- Ho]. assert (outs = []) as -> by (by destruct outs). exists [].
    split; [by destruct e|]. split; [done|]. by destruct e.
  - apply Forall_cons in Hq as [Hq Hqs]. apply Forall_cons in Hms as [Hb Hms]. intros Ef.
    apply bind_Ret_inv in Ef as ([t1' r1] & E1 & Ef).
    apply bind_Ret_inv in Ef as ([t2' r2] & E2 & Ef). cbn [fst snd] in *.
    injection Ef as -> Ho. destruct outs as [|x outs]; [done|]. injection Ho as -> ->.
    destruct (send_immediate e q b t1' x Hr Hq Hb E1) as (r & -> & Hx & Hr1).
    rewrite bind_ret. cbn [fst snd].
    destruct (IH Hqs Hms (with_t1 t1' e) Hr1 outs E2) as (rs & -> & Hrs & Hr2).
    rewrite bind_ret. cbn [fst snd]. exists (r :: rs). split; [done|].
    split; [|done]. cbn [map zip_with fst]. by rewrite Hx, Hrs.
Qed.
(** The block that completes a command: one call of the driver, and the first
    block of its answer. *)
Lemma send_completing e q b t2 a t3 first :
  on_route e -> u8 q -> payload_ok b -> relays a = true ->
  T1Endpoint.feed b (t1 e) = Ret (t2, T1Endpoint.Apdu a) ->
  let y := nfc_transmit_apdu (driver_of e) a (tx_buf (core e)) in
  T1Endpoint.card_response (t1_payload y) (exchange_ms e) t2 = Ret (t3, first) ->
  exists e3 r, send_xfr s sp buf e (q, b) = Ret (with_t1 t3 e3, r) /\
    sent r = data_reply s q ICC_STATUS_PRESENT_ACTIVE false 0 first /\
    driver_of e3 = y.1.1 /\ (is_ok y.2 = true -> on_route (with_t1 t3 e3)).
Proof.
  intros Hr Hq Hb Hrel Ef y Ec. rewrite send_on_route by done.
  destruct Hr as (He & Harm & Hproto & Hact).
  unfold card_block. rewrite Hact, bool_decide_true by done. cbn [negb]. rewrite Ef, bind_ret.
  cbn [fst snd]. set (h := command_header PC_TO_RDR_XFR_BLOCK s q sp b).
  destruct (feed_ok b (t1 e) (eo_t1 _ He) (proj1 Hb)) as (t2' & r2 & E2 & Ht2 & Hw).
  rewrite Ef in E2. injection E2 as <- <-. destruct Hw as [Hba Hla].
  assert (esp_ok (with_t1 t2 e)) as He2 by (by apply esp_ok_t1).
  destruct (relay_apdu_spec (with_t1 t2 e) h a buf He2 Hact Hla Hrel)
    as (e3 & E3 & Hd3 & Ha3 & Hp3 & Hs3).
  destruct (relay_apdu_ok (with_t1 t2 e) h a buf He2 eq_refl Hact Hba Hla)
    as (e3' & b3 & E3' & He3' & Hwf & _).
  change (driver_of (with_t1 t2 e)) with (driver_of e) in *.
  change (tx_buf (core (with_t1 t2 e))) with (tx_buf (core e)) in *. fold y in E3, Hd3, Hs3.
  change (exchange_ms (with_t1 t2 e)) with (exchange_ms e) in E3.
  change (t1 (with_t1 t2 e)) with t2 in E3. rewrite Ec, bind_ret in E3. cbn [fst snd] in E3.
  rewrite E3' in E3. injection E3 as -> Heq. rewrite E3', Heq.
  destruct (card_response_ok (t1_payload y) (exchange_ms e) t2 Ht2
    (proj1 (answer_length e a He Hba))) as (? & ? & E4 & _ & Hwf1).
  rewrite Ec in E4. injection E4 as _ <-.
  destruct (wf_block_props first Hwf1) as (_ & _ & Hlf).
  eexists _, _. split; [done|]. split; [|split; [done|]].
  - apply (take_message _ _ _ false); [lia|unfold small; lia].
  - intros Hok. rewrite Hok in Hs3. split; [done|]. cbn. by rewrite Ha3, Hp3.
Qed.
End Route.

(** A run that ends in a completed command: all blocks but the last are
    answered by the endpoint. *)
Lemma feeds_last t bs b t2 outs a :
  feeds t (bs ++ [b]) = Ret (t2, map T1Endpoint.Immediate outs ++ [T1Endpoint.Apdu a]) ->
  exists t1, feeds t bs = Ret (t1, map T1Endpoint.Immediate outs) /\
    T1Endpoint.feed b t1 = Ret (t2, T1Endpoint.Apdu a).
Proof.
  unfold feeds. rewrite run_app. intros E1.
  apply bind_Ret_inv in E1 as ([t1' r1] & E1 & E2). cbn [fst snd run] in E2.
  apply bind_Ret_inv in E2 as ([t2' r2] & E2 & E3).
  apply bind_Ret_inv in E2 as ([t3 r3] & E2 & E4). cbn [fst snd] in *.
  rewrite bind_ret in E4. cbn [fst snd] in E4. injection E4 as <- <-.
  injection E3 as -> E3. apply app_inj_tail in E3 as [-> ->]. by exists t1'.
Qed.

Lemma flip_host_inv t : t1_inv t ->
  t1_inv (T1Endpoint.with_host_ns (Z.lxor (T1Endpoint.host_ns t) 1) t).
Proof. intros (? & ? & ? & ? & ? & ? & ? & ? & ? & ?). t1_inv_solve. Qed.

(** The rest of an answer: R-blocks while the card is active, none at all after
    the two bytes of a failed exchange. *)
Lemma send_rest s sp buf (Hs : u8 s) (H0 : u8 sp.1.1) (H1 : u8 sp.1.2) (H2 : u8 sp.2)
    (Hbuf : (271 <= length buf)%nat) ms e t' bs rs (ok : bool) answer ifsc :
  (ok = true -> on_route e) -> Forall (fun m => u8 m.1) ms -> map snd ms = rs ->
  Forall r_block rs -> feeds (t1 e) rs = Ret (t', map T1Endpoint.Immediate bs) ->
  (ok = false -> answer = CARD_TIMEOUT_SW) -> (2 <= ifsc)%nat ->
  length rs = (length (pieces_of ifsc answer) - 1)%nat ->
  exists replies e', run (send_xfr s sp buf) e ms = Ret (e', replies) /\
    driver_of e' = driver_of e /\
    map sent replies =
      zip_with (fun m x => data_reply s m.1 ICC_STATUS_PRESENT_ACTIVE false 0 x) ms bs.
Proof.
  intros Hr Hq <- Hrs Ef Herr Hi Hl. destruct ok.
  - destruct (send_immediates s sp buf Hs H0 H1 H2 Hbuf ms e t' bs)
      as (replies & E1 & Hsent & _); [by apply Hr|done| |done|].
    + eapply Forall_impl; [exact Hrs|]. apply r_block_payload.
    + exists replies. eexists. split; [exact E1|]. by split.
  - rewrite (Herr eq_refl), pieces_of_more, decide_True in Hl by (simpl; lia).
    destruct ms; [|done]. injection Ef as _ Ef. exists [], e. by split_and!.
Qed.

End Spec.

(** ** Witnesses: the wrapper over the mock driver *)
Module EspDemo.
Definition adapter : MockSlot :=
  Adapter.new (Mock.with_session true
    (Mock.new true [0x3B; 0x81; 0x01; 0x11; 0x90] (replicate 40 0x5A))) [10; 20; 30; 5040].
Definition c : Core MockSlot :=
  set_slot_state PresentActive (with_profile adapter FIRMWARE_VERSION false).
(** An active card, before and after the host has opened a T=1 session. *)
Definition active : CcidHandler Mock.MockNfcDriver :=
  mkEsp (set_current_protocol 0 c) T1Endpoint.new false None true None.
Definition armed : CcidHandler Mock.MockNfcDriver :=
  mkEsp (set_current_protocol 1 c) (T1Endpoint.set_host_timing 5 64 T1Endpoint.new) true None
    true None.
Definition buf : list Z := replicate 300 0xAA.
End EspDemo.

Lemma esp_demo_core_ok p : u8 p -> core_ok (set_current_protocol p EspDemo.c).
Proof.
  intros Hp. assert (core_ok (with_profile EspDemo.adapter FIRMWARE_VERSION false)) as [].
  { apply with_profile_ok; [split_and!; try solve_bytes; simpl; lia|solve_bytes|simpl; lia]. }
  by constructor.
Qed.

(** The wrapper starts within the invariant. *)
Lemma esp_new_ok {D E} `{!NfcDriver D E, !NfcDriverLaws D E} (d : D) clock :
  driver_ok (Adapter.new d clock) -> esp_ok (EspHandler.new d clock).
Proof.
  intros Hd. constructor; try done; [|apply T1Endpoint.new_inv].
  apply with_profile_ok; [done|solve_bytes|simpl; lia].
Qed.

Lemma esp_active_ok : esp_ok EspDemo.active.
Proof.
  constructor; try done; [apply esp_demo_core_ok; unfold u8; lia|apply T1Endpoint.new_inv].
Qed.

Lemma esp_armed_ok : esp_ok EspDemo.armed.
Proof.
  constructor; try done; [apply esp_demo_core_ok; unfold u8; lia|].
  apply set_host_timing_inv, T1Endpoint.new_inv.
Qed.

(** A garbage block on the armed route. *)
Example esp_answers_everything_witness :
  let msg := command PC_TO_RDR_XFR_BLOCK 0 7 (0, 0, 0) [1; 2; 3] in
  exists e' r, esp_process_command EspDemo.armed msg EspDemo.buf = Ret (e', r) /\ esp_ok e' /\
    exists h, CcidHeader_parse msg = Some h /\ route_reply EspDemo.armed h EspDemo.buf r.
Proof.
  intros msg.
  destruct (esp_answers_everything EspDemo.armed msg EspDemo.buf) as (e' & r & E & He & H);
    [exact esp_armed_ok|solve_bytes|vm_compute; lia|intros h [= <-]; vm_compute; congruence|].
  exists e', r. split; [exact E|]. split; [exact He|].
  destruct H as [_ H]. eexists. split; [reflexivity|].
  apply H; [reflexivity|]. apply complete_command. solve_small.
Defined.

(** SetParameters for T=1 with BWI 4 and IFSC 64 opens the session. *)
Example t1_session_lifecycle_witness :
  let raw := [0x18; 0x10; 0x00; 0x45; 0x00; 0x40; 0x00] in
  exists e' r,
    esp_process_command EspDemo.active (command PC_TO_RDR_SET_PARAMETERS 0 7 (1, 0, 0) raw)
      EspDemo.buf = Ret (e', r) /\
    failed_reply r = false /\ t1_armed e' = true /\ t1 e' = fresh_endpoint (core e') /\
    T1Endpoint.host_ifsd (t1 e') = 64 /\ T1Endpoint.host_bwi (t1 e') = 4.
Proof.
  intros raw.
  destruct (esp_process_command EspDemo.active
    (command PC_TO_RDR_SET_PARAMETERS 0 7 (1, 0, 0) raw) EspDemo.buf) as [[e' r]|] eqn:E;
    [|vm_compute in E; discriminate].
  destruct (t1_session_lifecycle EspDemo.active
    (command PC_TO_RDR_SET_PARAMETERS 0 7 (1, 0, 0) raw)
    (command_header PC_TO_RDR_SET_PARAMETERS 0 7 (1, 0, 0) raw) EspDemo.buf e' r) as [H _];
    [exact esp_active_ok|solve_bytes|by apply complete_command; solve_small
    |vm_compute; congruence|vm_compute; lia|exact E|].
  assert (failed_reply r = false) as Hf
    by (vm_compute in E; injection E as <- <-; vm_compute; reflexivity).
  rewrite Hf in H. destruct H as [Ha Ht]. exists e', r. split; [done|]. split; [exact Hf|].
  split; [exact Ha|]. split; [exact Ht|]. rewrite Ht.
  vm_compute in E. injection E as <- _. split; reflexivity.
Defined.

