(* ===== verification/Snapshot.v ===== *)
(** * The snapshot request

    The flag behind the 0xD1 escape: which commands raise it, through the core
    and the ESP32 wrapper around it.  The servers read it to decide when the
    device resets. *)
From Stdlib Require Import ZArith Lia ZifyBool.
From stdpp Require Import prelude.
From S2P Require Import Prelude T1Endpoint Wire Atr Diag Secure CardInterface Handler HandlerFacts EspHandler EspSpec.
Local Open Scope Z_scope.

#[local] Existing Instance SerialNfcProfile.

(** The command [m] asks for a snapshot: an escape whose payload starts with
    0xD1. *)
Definition asks_snapshot (m : list Z) : bool :=
  match CcidHeader_parse m with
  | Some h => (message_type h =? PC_TO_RDR_ESCAPE) && bool_decide (head (payload_of m h) = Some 0xD1)
  | None => false
  end.

Section Core.
Context {D E : Type} `{!CardBackend D E, !SlotDriver D E}.
Implicit Types (c : Core D) (h : CcidHeader).

(** Whatever [m] comes to, the flag is [v] at its end. *)
Definition leaves (v : bool) (m : outcome (Core D * reply)) : Prop :=
  match m with Ret (c, _) => diagnostic_snapshot_requested c = v | Panic => True end.

Lemma leaves_bind {A} v (m : outcome A) k : (forall a, leaves v (k a)) -> leaves v (a ← m; k a).
Proof. intros H. by destruct m; [apply H|]. Qed.
Lemma leaves_ret v c r : diagnostic_snapshot_requested c = v -> leaves v (Ret (c, r)).
Proof. done. Qed.

Ltac leaves_step :=
  match goal with
  | |- leaves _ (Ret _) => first [by apply leaves_ret | case_match; [] | case_match]
  | |- leaves _ (mbind _ _) => apply leaves_bind; intros ?
  | _ => case_match; simplify_eq
  end.

Lemma power_on_leaves c h buf : leaves (diagnostic_snapshot_requested c) (handle_power_on c h buf).
Proof. unfold handle_power_on. cbn [CONTACT SerialNfcProfile]. repeat leaves_step. Qed.
Lemma pipeline_leaves c h apdu buf : leaves (diagnostic_snapshot_requested c) (apdu_pipeline c h apdu buf).
Proof.
  unfold apdu_pipeline, answer_get_uid, transmit_counted. repeat leaves_step.
  all: by apply leaves_ret.
Qed.
Lemma xfr_leaves c h apdu buf : leaves (diagnostic_snapshot_requested c) (handle_xfr_block c h apdu buf).
Proof.
  unfold handle_xfr_block. cbn [CONTACT SerialNfcProfile]. case_match; [done|apply pipeline_leaves].
Qed.
Lemma secure_leaves c h payload buf : leaves (diagnostic_snapshot_requested c) (handle_secure c h payload buf).
Proof. unfold handle_secure. repeat leaves_step. Qed.
Lemma set_parameters_leaves c h payload buf :
  leaves (diagnostic_snapshot_requested c) (handle_set_parameters c h payload buf).
Proof.
  unfold handle_set_parameters. cbn [CONTACT SerialNfcProfile]. case_match; [done|].
  unfold write_parameters. by repeat case_match.
Qed.
Lemma escape_leaves c h payload buf :
  leaves (bool_decide (head payload = Some 0xD1) || diagnostic_snapshot_requested c)
    (Ret (handle_escape c h payload buf)).
Proof.
  unfold handle_escape. cbn [CONTACT SerialNfcProfile negb andb].
  case_bool_decide as H0; [rewrite H0; by case_match|].
  case_bool_decide; [done|]. by repeat case_match.
Qed.

Lemma dispatch_leaves c h payload buf :
  leaves ((message_type h =? PC_TO_RDR_ESCAPE) && bool_decide (head payload = Some 0xD1) ||
          diagnostic_snapshot_requested c) (dispatch c h payload buf).
Proof.
  unfold dispatch. destruct (message_type h =? PC_TO_RDR_ESCAPE) eqn:Et; cbn [andb orb].
  { apply Z.eqb_eq in Et. rewrite Et. apply escape_leaves. }
  cbn [CONTACT SerialNfcProfile]. rewrite andb_false_r.
  repeat (match goal with |- context [if ?t =? ?x then _ else _] => destruct (t =? x) end);
    first [apply power_on_leaves | apply xfr_leaves | apply set_parameters_leaves
      | apply secure_leaves | idtac]; try done.
  all: unfold handle_reset_parameters, write_parameters; cbn [CONTACT SerialNfcProfile];
    by destruct (parameter_payload _).
Qed.

Lemma account_failure_leaves v (r : Core D * reply) :
  diagnostic_snapshot_requested r.1 = v -> leaves v (account_failure r).
Proof. destruct r as [c [b n]]. cbn. intros H. unfold account_failure. repeat leaves_step. Qed.

Lemma process_leaves c m h buf : bytes m -> complete_message m h -> 10 + dw_length h <= u32_max ->
  leaves (asks_snapshot m || diagnostic_snapshot_requested c) (process_command c m buf).
Proof.
  intros Hb Hm Hd. rewrite (process_complete c m buf h) by done.
  unfold asks_snapshot. rewrite (proj1 Hm). pose proof (dispatch_leaves c h (payload_of m h) buf) as H.
  destruct (dispatch _ _ _ _) as [r|]; [|done]. rewrite bind_ret. apply account_failure_leaves.
  by destruct r.
Qed.
End Core.

(** ** Through the wrapper *)
Section Wrapper.
Context {D E : Type} `{!NfcDriver D E, !NfcProbes D, !FrontendDiagnostics D}.
Implicit Types (e : CcidHandler D) (h : CcidHeader).

(** The flag as the wrapper holds it. *)
Definition snapshot_pending e : bool := diagnostic_snapshot_requested (core e).
Definition esp_leaves (v : bool) (m : outcome (CcidHandler D * reply)) : Prop :=
  match m with Ret (e, _) => snapshot_pending e = v | Panic => True end.

Lemma esp_leaves_bind {A} v (m : outcome A) k :
  (forall a, esp_leaves v (k a)) -> esp_leaves v (a ← m; k a).
Proof. intros H. by destruct m; [apply H|]. Qed.

Lemma account_failed_leaves v (r : CcidHandler D * reply) :
  snapshot_pending r.1 = v -> esp_leaves v (account_failed_status r).
Proof.
  destruct r as [e [b n]]. cbn [fst]. intros H. unfold account_failed_status.
  destruct (7 <? n)%nat; [|exact H]. apply esp_leaves_bind. intros s. by destruct (negb _).
Qed.

Lemma relay_leaves e h apdu buf : esp_leaves (snapshot_pending e) (relay_apdu e h apdu buf).
Proof.
  unfold relay_apdu. do 2 (apply esp_leaves_bind; intros ?).
  destruct (now_us e) as [t0 e0] eqn:E0.
  assert (snapshot_pending e0 = snapshot_pending e) as <- by (by injection E0 as _ <-).
  pose proof (pipeline_leaves (core e0) h a0 (replicate 271 0)) as H.
  destruct (apdu_pipeline _ _ _ _) as [[c [b n]]|]; [|done]. rewrite bind_ret. cbn [leaves] in H.
  destruct (now_us (with_core c e0)) as [t1 e1] eqn:E1.
  assert (snapshot_pending e1 = snapshot_pending e0) as <-.
  { injection E1 as _ <-. exact H. }
  by repeat (apply esp_leaves_bind; intros ?).
Qed.

Lemma card_block_leaves e h apdu buf : esp_leaves (snapshot_pending e) (card_block e h apdu buf).
Proof.
  unfold card_block. case_match; [by apply account_failed_leaves|].
  apply esp_leaves_bind. intros [t []]; [done|]. apply (relay_leaves (with_t1 t e)).
Qed.

Lemma xfr_via_t1_leaves e h m buf : esp_leaves (snapshot_pending e) (xfr_via_t1 e h m buf).
Proof.
  unfold xfr_via_t1. case_match; [done|]. apply esp_leaves_bind. intros apdu.
  case_match; [|apply card_block_leaves]. apply esp_leaves_bind. intros [t []].
  - by apply account_failed_leaves.
  - apply (card_block_leaves (with_t1 t e)).
Qed.

(** Answered by the wrapper: no command that asks for a snapshot, and the flag
    is as it was. *)
Lemma locally_leaves e m h buf a : CcidHeader_parse m = Some h ->
  Z.of_nat (length m) = 10 + dw_length h -> answer_locally e m buf = Some a ->
  asks_snapshot m = false /\ esp_leaves (snapshot_pending e) a.
Proof.
  intros Hp Hl. unfold answer_locally, asks_snapshot. rewrite Hp.
  assert (forall c, m !! CCID_HEADER_SIZE = Some c -> c <> 0xD1 ->
    bool_decide (head (payload_of m h) = Some 0xD1) = false) as Hn.
  { intros c Hc Hne. apply bool_decide_eq_false_2. unfold payload_of. intros H.
    assert (m !! 10%nat = Some 0xD1) as H1.
    { do 10 (destruct m as [|? m]; [done|]). cbn [drop] in H.
      destruct m as [|x m]; [by rewrite firstn_nil in H|]. cbn.
      by destruct (Z.to_nat (dw_length h)). }
    change CCID_HEADER_SIZE with 10%nat in Hc. congruence. }
  assert (forall n c, escape_is h m n c = true -> c <> 0xD1 ->
    bool_decide (head (payload_of m h) = Some 0xD1) = false) as Hn2.
  { intros n c Hc Hne. apply andb_prop in Hc as [_ Hc]. apply bool_decide_eq_true in Hc. by eapply Hn. }
  destruct (_ && _ && _) eqn:E1.
  { intros [= <-]. assert (message_type h = PC_TO_RDR_XFR_BLOCK) as -> by lia.
    split; [done|apply xfr_via_t1_leaves]. }
  destruct (escape_is h m 1 0xD2) eqn:E2.
  { intros [= <-]. by rewrite (Hn2 _ _ E2), andb_false_r by done. }
  destruct (escape_is h m 1 0xD4) eqn:E3; [destruct (wtx_counters (driver_of e))|].
  { intros [= <-]. by rewrite (Hn2 _ _ E3), andb_false_r by done. }
  all: destruct (escape_is h m 2 0xD3) eqn:E4;
    [intros [= <-]; rewrite (Hn2 _ _ E4), andb_false_r by done; split; [done|];
     unfold answer_probe; by repeat case_match|].
  all: destruct ((message_type h =? PC_TO_RDR_ESCAPE) && baud_escape_enabled e && _) eqn:E5; [|done]; intros [= <-];
    apply andb_prop in E5 as [_ E5]; apply bool_decide_eq_true in E5;
    rewrite (Hn _ E5), andb_false_r by done; split; [done|]; unfold answer_baud; by repeat case_match.
Qed.

(** The presence poll does not touch it. *)
Lemma check_snapshot e :
  snapshot_pending (esp_check_card_change e).1.1 = snapshot_pending e.
Proof.
  assert (diagnostic_snapshot_requested (check_card_change (core e)).1 = snapshot_pending e) as <-.
  { unfold check_card_change. by repeat case_match. }
  unfold esp_check_card_change, snapshot_pending. cbn. by case_match.
Qed.

(** For the servers: after a framed command the flag is up
    when it was up or the command asked for a snapshot. *)
Lemma esp_process_snapshot e m h buf e' r : bytes m -> complete_message m h ->
  Z.of_nat (length m) = 10 + dw_length h -> 10 + dw_length h <= u32_max ->
  esp_process_command e m buf = Ret (e', r) ->
  snapshot_pending e' = asks_snapshot m || snapshot_pending e.
Proof.
  intros Hb Hm Hl Hd E0. assert (esp_leaves (asks_snapshot m || snapshot_pending e)
    (esp_process_command e m buf)) as H; [|by rewrite E0 in H].
  clear E0. unfold esp_process_command. destruct (answer_locally e m buf) as [a|] eqn:Ea.
  - by destruct (locally_leaves e m h buf a (proj1 Hm) Hl Ea) as [-> H].
  - pose proof (process_leaves (core e) m h buf Hb Hm Hd) as H.
    destruct (process_command _ _ _) as [[c x]|]; [|done]. rewrite bind_ret. cbn [leaves] in H.
    unfold snapshot_pending. rewrite <- H.
    cbn [esp_leaves]. unfold on_card_reset, on_parameters_accepted, snapshot_pending. cbn. by repeat case_match.
Qed.
End Wrapper.
