(* ===== verification/SerialServer.v ===== *)
(** * The serial server

    [ccid-service/src/ccid_serial_server.rs] and [cdc_burst.rs]: the core that
    serves the GemPC Twin protocol between a byte stream and the handler of
    [EspHandler.v], with the parser of [SerialFrame.v]: echo, presence notice,
    framed response, the answer-or-silence windows, and the time extensions a
    stalling front end writes from inside an exchange.

    The tick source and the stalls of the front end are arguments: every
    operation takes the tick the caller reads, and [feed_byte] the number of
    times the stall hook fires while the command is processed.  The theorems
    are in [SerialSpec.v]. *)
From Stdlib Require Import ZArith Lia ZifyBool.
From stdpp Require Import prelude.
From S2P Require Import Prelude T1Endpoint Wire Diag CardInterface Handler SerialFrame EspHandler.
Local Open Scope Z_scope.
Import SerialFrame.Parser.

Definition MAX_CCID_RESPONSE_SIZE : nat := 271.
Definition MAX_FRAME_SIZE : nat := 2 + MAX_CCID_RESPONSE_SIZE + 1.

(** ** [mod time_extension]: the bridge to the stall hook

    The statics of the module as one record; [writer] tells whether a raw wire
    writer is registered, what it writes is the second result. *)
Module TimeExtension.
Definition BWT_UNIT_MULTIPLIER : Z := 2.
Definition FRAME_SIZE : nat := 13.

Record Bridge := mkBridge {
  armed : bool;
  seq : Z;
  icc : Z;
  echo_flushed : bool;
  extensions_written : Z;
  writer : bool;
  echo_len : nat;
  echo : list Z
}.

Definition boot : Bridge := mkBridge false 0 0 false 0 false 0 (replicate MAX_FRAME_SIZE 0).

Definition register_writer (b : Bridge) : Bridge :=
  mkBridge (armed b) (seq b) (icc b) (echo_flushed b) (extensions_written b) true
    (echo_len b) (echo b).

Definition arm (q i : Z) (frame : list Z) (b : Bridge) : outcome Bridge :=
  let n := (length frame `min` length (echo b))%nat in
  src ← slice frame 0 n;
  stash ← copy_at (echo b) 0 src;
  Ret (mkBridge true q i false 0 (writer b) n stash).

Definition disarm_and_take_emitted (b : Bridge) : Bridge * Z :=
  (mkBridge false (seq b) (icc b) false 0 (writer b) (echo_len b) (echo b),
   extensions_written b).

Definition build_frame (q i : Z) : list Z :=
  let body := [SYNC; CTRL_ACK; RDR_TO_PC_DATABLOCK; 0; 0; 0; 0; 0; q;
               Z.lor 0x80 (Z.land i 0x07); BWT_UNIT_MULTIPLIER; 0; 0] in
  take (FRAME_SIZE - 1) body ++ [calculate_lrc (take (FRAME_SIZE - 1) body)].

Definition stall_hook (b : Bridge) : outcome (Bridge * list (list Z)) :=
  if negb (armed b) then Ret (b, [])
  else if negb (writer b) then Ret (b, [])
  else
    first ← (if echo_flushed b then Ret []
             else frame ← slice (echo b) 0 (echo_len b); Ret [frame]);
    Ret (mkBridge (armed b) (seq b) (icc b) true (wrap8 (extensions_written b + 1)) (writer b)
           (echo_len b) (echo b),
         first ++ [build_frame (seq b) (icc b)]).

(** The hook fires [n] times. *)
Fixpoint stalls (n : nat) (b : Bridge) : outcome (Bridge * list (list Z)) :=
  match n with
  | O => Ret (b, [])
  | S n =>
      r ← stall_hook b;
      rest ← stalls n r.1;
      Ret (rest.1, r.2 ++ rest.2)
  end.
End TimeExtension.

(** ** Windows *)
Definition RESPONSE_WINDOW_MS : Z := 2500.
Definition XFR_BLOCK_RESPONSE_WINDOW_MS : Z := 7500.
Definition ICC_POWER_ON_RESPONSE_WINDOW_MS : Z := 59500.

(** [ms * tick_hz / 1000] in u32. *)
Definition window_ticks (ms tick_hz : Z) : Z := wrap32 (ms * tick_hz) / 1000.
Definition response_window_ticks (tick_hz : Z) : Z := window_ticks RESPONSE_WINDOW_MS tick_hz.
Definition xfr_block_response_window_ticks (tick_hz : Z) : Z :=
  window_ticks XFR_BLOCK_RESPONSE_WINDOW_MS tick_hz.
Definition icc_power_on_response_window_ticks (tick_hz : Z) : Z :=
  window_ticks ICC_POWER_ON_RESPONSE_WINDOW_MS tick_hz.

Record ResponseWindows := mkWindows { tight : Z; xfr_block : Z; power_on_window : Z }.

Definition from_tick_hz (tick_hz : Z) : ResponseWindows :=
  let tight := response_window_ticks tick_hz in
  let xfr_block := xfr_block_response_window_ticks tick_hz in
  let power_on := icc_power_on_response_window_ticks tick_hz in
  mkWindows (if tight <? 1 then 1 else tight) (if xfr_block <? 1 then 1 else xfr_block)
    (if power_on <? 1 then 1 else power_on).

(** ** State *)
Inductive ServeAction := Respond | Nak | NoAction.

Record ServeConfig := mkConfig {
  nak_on_error : bool;
  notify_slot_change : bool;
  inline_poll : bool
}.
Definition ServeConfig_default : ServeConfig := mkConfig false false true.

Record CcidSerialServer (D : Type) := mkServer {
  handler : CcidHandler D;
  parser : FrameParser;
  config : ServeConfig;
  pending_notify : option bool;
  echo_buf : list Z;
  notify_buf : list Z;
  notify_len : nat;
  nak_buf : list Z;
  last_byte_tick : Z;
  echo_len : nat;
  ccid_resp_buf : list Z;
  resp_buf : list Z;
  resp_len : nat;
  poll_interval_ticks : Z;
  windows : ResponseWindows;
  active_deadline_ticks : Z;
  last_poll_tick : Z;
  frame_done_tick : Z;
  late_drop_count : Z
}.
Arguments mkServer {D}.
Arguments handler {D} _.
Arguments parser {D} _.
Arguments config {D} _.
Arguments pending_notify {D} _.
Arguments echo_buf {D} _.
Arguments notify_buf {D} _.
Arguments notify_len {D} _.
Arguments nak_buf {D} _.
Arguments last_byte_tick {D} _.
Arguments echo_len {D} _.
Arguments ccid_resp_buf {D} _.
Arguments resp_buf {D} _.
Arguments resp_len {D} _.
Arguments poll_interval_ticks {D} _.
Arguments windows {D} _.
Arguments active_deadline_ticks {D} _.
Arguments last_poll_tick {D} _.
Arguments frame_done_tick {D} _.
Arguments late_drop_count {D} _.

Import TimeExtension(Bridge, writer, arm, disarm_and_take_emitted).

Section Server.
Context {D E : Type} `{!NfcDriver D E, !NfcProbes D, !FrontendDiagnostics D}.
Implicit Types (s : CcidSerialServer D).

Definition set_handler (e : CcidHandler D) s : CcidSerialServer D :=
  mkServer e (parser s) (config s) (pending_notify s) (echo_buf s) (notify_buf s) (notify_len s)
    (nak_buf s) (last_byte_tick s) (echo_len s) (ccid_resp_buf s) (resp_buf s) (resp_len s)
    (poll_interval_ticks s) (windows s) (active_deadline_ticks s) (last_poll_tick s)
    (frame_done_tick s) (late_drop_count s).

Definition set_parser (p : FrameParser) s : CcidSerialServer D :=
  mkServer (handler s) p (config s) (pending_notify s) (echo_buf s) (notify_buf s) (notify_len s)
    (nak_buf s) (last_byte_tick s) (echo_len s) (ccid_resp_buf s) (resp_buf s) (resp_len s)
    (poll_interval_ticks s) (windows s) (active_deadline_ticks s) (last_poll_tick s)
    (frame_done_tick s) (late_drop_count s).

Definition set_pending_notify (n : option bool) s : CcidSerialServer D :=
  mkServer (handler s) (parser s) (config s) n (echo_buf s) (notify_buf s) (notify_len s) (nak_buf s)
    (last_byte_tick s) (echo_len s) (ccid_resp_buf s) (resp_buf s) (resp_len s)
    (poll_interval_ticks s) (windows s) (active_deadline_ticks s) (last_poll_tick s)
    (frame_done_tick s) (late_drop_count s).

Definition set_echo (b : list Z) (n : nat) s : CcidSerialServer D :=
  mkServer (handler s) (parser s) (config s) (pending_notify s) b (notify_buf s) (notify_len s)
    (nak_buf s) (last_byte_tick s) n (ccid_resp_buf s) (resp_buf s) (resp_len s)
    (poll_interval_ticks s) (windows s) (active_deadline_ticks s) (last_poll_tick s)
    (frame_done_tick s) (late_drop_count s).

Definition set_notify (b : list Z) (n : nat) s : CcidSerialServer D :=
  mkServer (handler s) (parser s) (config s) (pending_notify s) (echo_buf s) b n (nak_buf s)
    (last_byte_tick s) (echo_len s) (ccid_resp_buf s) (resp_buf s) (resp_len s)
    (poll_interval_ticks s) (windows s) (active_deadline_ticks s) (last_poll_tick s)
    (frame_done_tick s) (late_drop_count s).

Definition set_nak_buf (b : list Z) s : CcidSerialServer D :=
  mkServer (handler s) (parser s) (config s) (pending_notify s) (echo_buf s) (notify_buf s) (notify_len
    s) b (last_byte_tick s) (echo_len s) (ccid_resp_buf s) (resp_buf s) (resp_len s)
    (poll_interval_ticks s) (windows s) (active_deadline_ticks s) (last_poll_tick s)
    (frame_done_tick s) (late_drop_count s).

Definition set_last_byte_tick (t : Z) s : CcidSerialServer D :=
  mkServer (handler s) (parser s) (config s) (pending_notify s) (echo_buf s) (notify_buf s) (notify_len
    s) (nak_buf s) t (echo_len s) (ccid_resp_buf s) (resp_buf s) (resp_len s)
    (poll_interval_ticks s) (windows s) (active_deadline_ticks s) (last_poll_tick s)
    (frame_done_tick s) (late_drop_count s).

Definition set_ccid_resp_buf (b : list Z) s : CcidSerialServer D :=
  mkServer (handler s) (parser s) (config s) (pending_notify s) (echo_buf s) (notify_buf s) (notify_len
    s) (nak_buf s) (last_byte_tick s) (echo_len s) b (resp_buf s) (resp_len s)
    (poll_interval_ticks s) (windows s) (active_deadline_ticks s) (last_poll_tick s)
    (frame_done_tick s) (late_drop_count s).

Definition set_resp (b : list Z) (n : nat) s : CcidSerialServer D :=
  mkServer (handler s) (parser s) (config s) (pending_notify s) (echo_buf s) (notify_buf s) (notify_len
    s) (nak_buf s) (last_byte_tick s) (echo_len s) (ccid_resp_buf s) b n (poll_interval_ticks s)
    (windows s) (active_deadline_ticks s) (last_poll_tick s) (frame_done_tick s)
    (late_drop_count s).

Definition set_active_deadline_ticks (t : Z) s : CcidSerialServer D :=
  mkServer (handler s) (parser s) (config s) (pending_notify s) (echo_buf s) (notify_buf s) (notify_len
    s) (nak_buf s) (last_byte_tick s) (echo_len s) (ccid_resp_buf s) (resp_buf s) (resp_len s)
    (poll_interval_ticks s) (windows s) t (last_poll_tick s) (frame_done_tick s)
    (late_drop_count s).

Definition set_last_poll_tick (t : Z) s : CcidSerialServer D :=
  mkServer (handler s) (parser s) (config s) (pending_notify s) (echo_buf s) (notify_buf s) (notify_len
    s) (nak_buf s) (last_byte_tick s) (echo_len s) (ccid_resp_buf s) (resp_buf s) (resp_len s)
    (poll_interval_ticks s) (windows s) (active_deadline_ticks s) t (frame_done_tick s)
    (late_drop_count s).

Definition set_frame_done_tick (t : Z) s : CcidSerialServer D :=
  mkServer (handler s) (parser s) (config s) (pending_notify s) (echo_buf s) (notify_buf s) (notify_len
    s) (nak_buf s) (last_byte_tick s) (echo_len s) (ccid_resp_buf s) (resp_buf s) (resp_len s)
    (poll_interval_ticks s) (windows s) (active_deadline_ticks s) (last_poll_tick s) t
    (late_drop_count s).

Definition set_late_drop_count (n : Z) s : CcidSerialServer D :=
  mkServer (handler s) (parser s) (config s) (pending_notify s) (echo_buf s) (notify_buf s) (notify_len
    s) (nak_buf s) (last_byte_tick s) (echo_len s) (ccid_resp_buf s) (resp_buf s) (resp_len s)
    (poll_interval_ticks s) (windows s) (active_deadline_ticks s) (last_poll_tick s)
    (frame_done_tick s) n.

(** ** Construction *)
Definition with_config (h : CcidHandler D) (poll_interval : Z) (w : ResponseWindows) (now : Z)
    (cfg : ServeConfig) : CcidSerialServer D :=
  let w := mkWindows (Z.max (tight w) 1) (Z.max (xfr_block w) 1) (Z.max (power_on_window w) 1) in
  {| handler := h; parser := Parser.new; config := cfg; pending_notify := None;
     echo_buf := replicate MAX_FRAME_SIZE 0; notify_buf := replicate 2 0; notify_len := 0;
     nak_buf := replicate 3 0; last_byte_tick := now; echo_len := 0;
     ccid_resp_buf := replicate MAX_CCID_RESPONSE_SIZE 0; resp_buf := replicate MAX_FRAME_SIZE 0;
     resp_len := 0; poll_interval_ticks := Z.max poll_interval 1; windows := w;
     active_deadline_ticks := tight w; last_poll_tick := now; frame_done_tick := now;
     late_drop_count := 0 |}.

Definition new (h : CcidHandler D) (poll_interval : Z) (w : ResponseWindows) (now : Z) :
    CcidSerialServer D :=
  with_config h poll_interval w now ServeConfig_default.

(** ** What the caller writes *)
Definition echo s : list Z := take (echo_len s) (echo_buf s).
Definition notify s : list Z := take (notify_len s) (notify_buf s).
Definition response s : list Z := take (resp_len s) (resp_buf s).

(** ** Polls *)
Definition poll_due (now : Z) s : CcidSerialServer D * bool :=
  if poll_interval_ticks s <=? wrapping_sub32 now (last_poll_tick s)
  then (set_last_poll_tick now s, true) else (s, false).

Definition refresh (now : Z) s : CcidSerialServer D :=
  set_handler (esp_refresh_diagnostics now (handler s)) s.

(** [check_card_change]: the transition the handler saw. *)
Definition check_card s : CcidSerialServer D * option bool :=
  let '(e, changed, _) := esp_check_card_change (handler s) in (set_handler e s, changed).

Definition INTER_BYTE_STALL_TICKS : Z := 10.

Definition poll_if_due (now : Z) s : CcidSerialServer D * bool :=
  let s := if mid_frame (parser s) &&
              (INTER_BYTE_STALL_TICKS <? wrapping_sub32 now (last_byte_tick s))
           then set_parser (Parser.reset (parser s)) s else s in
  let '(s, due) := poll_due now s in
  if due then ((check_card s).1, true) else (s, false).

Definition poll_and_stash (now : Z) s : CcidSerialServer D * bool :=
  let '(s, due) := poll_due now s in
  if due then
    let '(s, changed) := check_card (refresh now s) in
    ((match changed with
      | Some present => set_pending_notify (Some present) s
      | None => s
      end), true)
  else (s, false).

Definition on_read_idle (now : Z) s : CcidSerialServer D * bool :=
  poll_and_stash now (set_parser (Parser.reset (parser s)) s).

Definition poll_if_due_after_response (now : Z) s : CcidSerialServer D * bool :=
  poll_and_stash now s.

(** ** The answer-or-silence window *)
Definition response_expired (now : Z) s : bool :=
  active_deadline_ticks s <? wrapping_sub32 now (frame_done_tick s).

Definition response_deadline_tick s : Z :=
  wrapping_add32 (frame_done_tick s) (active_deadline_ticks s).

Definition refresh_host_deadline (now : Z) s : CcidSerialServer D := set_frame_done_tick now s.

Definition extend_response_deadline (extra : Z) s : CcidSerialServer D :=
  set_frame_done_tick (wrapping_add32 (frame_done_tick s) extra) s.

Definition take_snapshot s : CcidSerialServer D * bool :=
  let k := esp_take_snapshot_request (handler s) in (set_handler k.1 s, k.2).

Definition record_late_response s : CcidSerialServer D :=
  let s := set_echo (echo_buf s) 0 s in
  let s := set_notify (notify_buf s) 0 s in
  let s := set_resp (resp_buf s) 0 s in
  let s := set_late_drop_count (wrapping_add32 (late_drop_count s) 1) s in
  let s := (take_snapshot s).1 in
  set_handler (take_baud_change (handler s)).1 s.

(** ** [feed_byte] *)
Definition starts_with (t : Z) (ccid_bytes : list Z) : bool :=
  bool_decide (head ccid_bytes = Some t).

(** The window of the command and its anchor. *)
Definition open_window (ccid_bytes : list Z) (now : Z) s : CcidSerialServer D :=
  let s := set_frame_done_tick now s in
  set_active_deadline_ticks
    (if starts_with PC_TO_RDR_XFR_BLOCK ccid_bytes then xfr_block (windows s)
     else if starts_with PC_TO_RDR_ICC_POWER_ON ccid_bytes then power_on_window (windows s)
     else tight (windows s)) s.

Definition echo_frame s : outcome (CcidSerialServer D) :=
  let frame := received_frame_bytes (parser s) in
  buf ← copy_at (echo_buf s) 0 frame;
  Ret (set_echo buf (length frame) s).

(** The presence notice before the answer of GetSlotStatus. *)
Definition notify_presence (ccid_bytes : list Z) (now : Z) s : outcome (CcidSerialServer D) :=
  let s := set_notify (notify_buf s) 0 s in
  if starts_with PC_TO_RDR_GET_SLOT_STATUS ccid_bytes then
    let stale := pending_notify s in
    let s := set_pending_notify None s in
    let '(s, fresh) :=
      if inline_poll (config s) then
        let '(s, due) := poll_due now s in
        if due then check_card (refresh now s) else (s, None)
      else (s, None) in
    match (match fresh with Some p => Some p | None => stale end) with
    | Some present =>
        if notify_slot_change (config s) then
          r ← build_slot_change_notification present (notify_buf s);
          Ret (set_notify r.1 r.2 s)
        else Ret s
    | None => Ret s
    end
  else Ret s.

(** The command through the handler, with the bridge armed around it. *)
Definition process (ccid_bytes : list Z) (stalls : nat) s (b : Bridge) :
    outcome (CcidSerialServer D * Bridge * list (list Z)) :=
  let time_ext := writer b && starts_with PC_TO_RDR_XFR_BLOCK ccid_bytes in
  b ← (if time_ext
       then arm (default 0 (ccid_bytes !! 6%nat)) (icc_of (handler s)) (echo s) b
       else Ret b);
  hooked ← TimeExtension.stalls stalls b;
  let '(b, written) := hooked in
  r ← esp_process_command (handler s) ccid_bytes (ccid_resp_buf s);
  let '(e, (buf, len)) := r in
  let s := set_ccid_resp_buf buf (set_handler e s) in
  let '(s, b) :=
    if time_ext then
      let '(b, emitted) := disarm_and_take_emitted b in
      if 0 <? emitted then
        let s := set_echo (echo_buf s) 0 s in
        (extend_response_deadline (wrap32 (active_deadline_ticks s * emitted)) s, b)
      else (s, b)
    else (s, b) in
  msg ← slice (ccid_resp_buf s) 0 len;
  f ← build_response_frame msg (resp_buf s);
  Ret (set_resp f.1 f.2 s, b, written).

Definition serve_command (ccid_bytes : list Z) (now : Z) (stalls : nat) s (b : Bridge) :
    outcome (CcidSerialServer D * Bridge * list (list Z)) :=
  s ← echo_frame (open_window ccid_bytes now s);
  s ← notify_presence ccid_bytes now s;
  process ccid_bytes stalls (refresh now s) b.

Definition drop_stalled_frame (now : Z) s : CcidSerialServer D :=
  let gap := wrapping_sub32 now (last_byte_tick s) in
  let s := set_last_byte_tick now s in
  if INTER_BYTE_STALL_TICKS <? gap then set_parser (Parser.reset (parser s)) s else s.

Definition feed_byte (byte now : Z) (stalls : nat) s (b : Bridge) :
    outcome (CcidSerialServer D * Bridge * (ServeAction * list (list Z))) :=
  let s := drop_stalled_frame now s in
  p ← Parser.feed (parser s) byte;
  let s := set_parser p.1 s in
  match p.2 with
  | Some (Command ccid_bytes) =>
      r ← serve_command ccid_bytes now stalls s b;
      Ret (r.1.1, r.1.2, (Respond, r.2))
  | Some (Error _) =>
      if nak_on_error (config s) then
        let s := set_handler (esp_record_nak (handler s)) s in
        n ← build_nak_frame (nak_buf s);
        Ret (set_nak_buf n.1 s, b, (Nak, []))
      else Ret (s, b, (NoAction, []))
  | None => Ret (s, b, (NoAction, []))
  end.
End Server.

(** ** [cdc_burst.rs]: one read of a CDC-class transport *)
Module CdcBurst.
Record BurstOutcome := mkOutcome {
  bytes_read : nat;
  responses : Z;
  naks : Z;
  late_dropped : Z;
  write_failures : Z;
  idle : bool;
  snapshot_requested : bool
}.
Definition BurstOutcome_default : BurstOutcome := mkOutcome 0 0 0 0 0 false false.

Definition with_bytes_read (n : nat) (o : BurstOutcome) : BurstOutcome :=
  mkOutcome n (responses o) (naks o) (late_dropped o) (write_failures o) (idle o)
    (snapshot_requested o).
Definition add_response (o : BurstOutcome) : BurstOutcome :=
  mkOutcome (bytes_read o) (wrap32 (responses o + 1)) (naks o) (late_dropped o)
    (write_failures o) (idle o) (snapshot_requested o).
Definition add_nak (o : BurstOutcome) : BurstOutcome :=
  mkOutcome (bytes_read o) (responses o) (wrap32 (naks o + 1)) (late_dropped o)
    (write_failures o) (idle o) (snapshot_requested o).
Definition add_late (o : BurstOutcome) : BurstOutcome :=
  mkOutcome (bytes_read o) (responses o) (naks o) (wrap32 (late_dropped o + 1))
    (write_failures o) (idle o) (snapshot_requested o).
Definition add_failure (o : BurstOutcome) : BurstOutcome :=
  mkOutcome (bytes_read o) (responses o) (naks o) (late_dropped o)
    (wrap32 (write_failures o + 1)) (idle o) (snapshot_requested o).
Definition set_idle (o : BurstOutcome) : BurstOutcome :=
  mkOutcome (bytes_read o) (responses o) (naks o) (late_dropped o) (write_failures o) true
    (snapshot_requested o).
Definition set_snapshot (o : BurstOutcome) : BurstOutcome :=
  mkOutcome (bytes_read o) (responses o) (naks o) (late_dropped o) (write_failures o) (idle o)
    true.

Record CdcBurstServe (D : Type) := mkServe {
  server : CcidSerialServer D;
  arrival_floor : Z
}.
Arguments mkServe {D}.
Arguments server {D} _.
Arguments arrival_floor {D} _.

(** What happens to the wire: frames of the stall hook, [write_frame] calls with
    their result, and the notice that an exchange has reached the host. *)
Inductive WireEvent :=
| Extension (frame : list Z)
| Write (frame : list Z) (sent : bool)
| ServeEvidence.

(** One byte of a burst with what the environment does while it is served: the
    tick at the feed and after it, the stalls, the results of the writes. *)
Record Fed := mkFed {
  byte : Z;
  feed_tick : Z;
  post_tick : Z;
  stalls : nat;
  echo_sent : bool;
  notify_sent : bool;
  response_sent : bool;
  nak_sent : bool
}.

Section Burst.
Context {D E : Type} `{!NfcDriver D E, !NfcProbes D, !FrontendDiagnostics D}.
Implicit Types (s : CcidSerialServer D).

Definition new s (now : Z) : CdcBurstServe D := mkServe s now.

(** [write_frame] of echo, notice and response, in this order, each only if the
    one before it went out. *)
Definition write_exchange (x : Fed) s : list WireEvent * bool :=
  if negb (echo_sent x) then ([Write (echo s) false], false)
  else
    let notice := match notify s with [] => [] | n => [Write n (notify_sent x)] end in
    if match notify s with [] => false | _ => negb (notify_sent x) end
    then (Write (echo s) true :: notice, false)
    else (Write (echo s) true :: notice ++ [Write (response s) (response_sent x)],
          response_sent x).

(** The body of the byte loop; [true] stops the burst. *)
Definition serve_byte (floor : Z) (x : Fed) s (b : Bridge) (o : BurstOutcome) :
    outcome (CcidSerialServer D * Bridge * BurstOutcome * list WireEvent * bool) :=
  r ← feed_byte (byte x) (feed_tick x) (stalls x) s b;
  let '(s, b, (action, hooked)) := r in
  let events := map Extension hooked in
  match action with
  | Respond =>
      let s := refresh_host_deadline floor s in
      if response_expired (post_tick x) s then
        Ret (record_late_response s, b, add_late o, events, false)
      else
        let '(writes, sent) := write_exchange x s in
        let o := if sent then add_response o else add_failure o in
        let events := events ++ writes ++ (if sent then [ServeEvidence] else []) in
        let '(s, snapshot) := take_snapshot s in
        Ret (s, b, if snapshot then set_snapshot o else o, events, snapshot)
  | Nak =>
      Ret (s, b, if nak_sent x then add_nak o else add_failure o,
           events ++ [Write (nak_buf s) (nak_sent x)], false)
  | NoAction => Ret (s, b, o, events, false)
  end.

(** The byte loop: the bytes after a snapshot request are not consumed. *)
Fixpoint serve_bytes (floor : Z) (xs : list Fed) s (b : Bridge) (o : BurstOutcome) :
    outcome (CcidSerialServer D * Bridge * BurstOutcome * list WireEvent * bool) :=
  match xs with
  | [] => Ret (s, b, o, [], false)
  | x :: xs =>
      r ← serve_byte floor x s b o;
      let '(s, b, o, events, stop) := r in
      if stop : bool then Ret (s, b, o, events, true)
      else
        r ← serve_bytes floor xs s b o;
        let '(s, b, o, rest, stop) := r in
        Ret (s, b, o, events ++ rest, stop)
  end.

(** One iteration: [burst] is what the read returned ([None] is an error),
    [read_end] the tick after it (the idle tick on an idle read), [capacity] the
    length of the read buffer. *)
Definition serve_once (burst : option (list Fed)) (read_end : Z) (capacity : nat)
    (c : CdcBurstServe D) (b : Bridge) :
    outcome (CdcBurstServe D * Bridge * BurstOutcome * list WireEvent) :=
  match burst with
  | None | Some [] =>
      Ret (mkServe (poll_if_due read_end (server c)).1 read_end, b,
           set_idle BurstOutcome_default, [])
  | Some xs =>
      r ← serve_bytes (arrival_floor c) xs (server c) b
            (with_bytes_read (length xs) BurstOutcome_default);
      let '(s, b, o, events, stop) := r in
      let floor := if negb stop && (length xs <? capacity)%nat
                   then read_end else arrival_floor c in
      Ret (mkServe s floor, b, o, events)
  end.
End Burst.
End CdcBurst.
