(* ===== verification/SerialSpec.v ===== *)
(** * The serial server: theorems

    No byte stream crashes the server; what it puts on the wire for a command;
    when an answer is still in time; and the wire protocol of a burst.
    Witnesses run the server over the mock driver. *)
From Stdlib Require Import ZArith Lia ZifyBool.
From stdpp Require Import prelude.
From S2P Require Import Prelude T1Endpoint Wire Atr Diag CardInterface.
From S2P Require Import Handler HandlerFacts HandlerSpec SerialFrame EspHandler EspSpec SerialServer.
Local Open Scope Z_scope.
Import SerialFrame.Parser SerialServer.TimeExtension(Bridge).

#[local] Existing Instance SerialNfcProfile.

(** ** The parser's promise: what a Command event carries *)
Lemma parser_command p b p' m :
  parser_inv p -> u8 b -> Parser.feed p b = Ret (p', Some (Command m)) ->
  message m /\ received_frame_bytes p' = frame_of m.
Proof.
  intros Hi Hb E. destruct (parser_simulates p b Hi Hb) as (p1 & E1 & Hi1 & Ha1).
  rewrite E in E1. injection E1 as <- E1.
  destruct (abs p) as [echo| |msg] eqn:Ea; cbn [spec_feed] in E1, Ha1.
  1-2: repeat case_match; simplify_eq.
  destruct (complete msg) eqn:Ec; [|repeat case_match; simplify_eq].
  cbn [fst snd] in *. destruct (Z.eqb_spec b (xor_all (SYNC :: CTRL_ACK :: msg))) as [->|];
    [|done]. injection E1 as ->.
  split; [by apply (complete_message p)|]. unfold received_frame_bytes.
  unfold abs in Ha1. destruct (state p'); try done. injection Ha1 as ->. done.
Qed.

Lemma parser_feed p b :
  parser_inv p -> u8 b -> exists p' ev, Parser.feed p b = Ret (p', ev) /\ parser_inv p'.
Proof.
  intros Hi Hb. destruct (parser_simulates p b Hi Hb) as (p' & E & Hi' & _). eauto.
Qed.

Lemma parser_reset p : parser_inv (Parser.reset p) /\ abs (Parser.reset p) = ASync [].
Proof. unfold parser_inv, Parser.reset. simpl. split_and!; done || lia. Qed.

Lemma length_frame_of m : length (frame_of m) = (length m + 3)%nat.
Proof. unfold frame_of. simpl. rewrite length_app. simpl. lia. Qed.

(** ** The bridge *)
Import SerialServer.TimeExtension(mkBridge, armed, icc, writer, echo_flushed, extensions_written,
  arm, stall_hook, build_frame, disarm_and_take_emitted).

Definition bridge_ok (b : Bridge) : Prop :=
  armed b = false /\ length (TimeExtension.echo b) = MAX_FRAME_SIZE.

Lemma stalls_unarmed n b :
  armed b && writer b = false -> TimeExtension.stalls n b = Ret (b, []).
Proof.
  intros Hb. induction n as [|n IH]; [done|]. cbn [TimeExtension.stalls]. unfold stall_hook.
  destruct (armed b); cbn [negb andb] in *; rewrite ?Hb; cbn [negb]; rewrite bind_ret;
    cbn [fst snd]; by rewrite IH.
Qed.

Lemma stalls_flushed n b :
  armed b = true -> writer b = true -> echo_flushed b = true ->
  TimeExtension.stalls n b =
    Ret (mkBridge true (TimeExtension.seq b) (icc b) true
           (match n with O => extensions_written b | _ => wrap8 (extensions_written b + Z.of_nat n) end)
           true (TimeExtension.echo_len b) (TimeExtension.echo b),
         replicate n (build_frame (TimeExtension.seq b) (icc b))).
Proof.
  revert b. induction n as [|n IH]; intros b Ha Hw Hf; [by destruct b; simpl in *; subst|].
  cbn [TimeExtension.stalls]. unfold stall_hook. rewrite Ha, Hw, Hf. cbn [negb].
  rewrite !bind_ret. cbn [fst snd]. rewrite IH by done. rewrite bind_ret. cbn.
  do 3 f_equal. f_equal. destruct n; [done|]. unfold wrap8.
  rewrite Zplus_mod_idemp_l. f_equal. lia.
Qed.

(** Armed with a frame, [n] stalls: the echo once, then [n] extensions. *)
Lemma stalls_armed n q i frame b b1 :
  length (TimeExtension.echo b) = MAX_FRAME_SIZE -> (length frame <= MAX_FRAME_SIZE)%nat ->
  writer b = true -> arm q i frame b = Ret b1 ->
  exists b2, TimeExtension.stalls n b1 =
      Ret (b2, match n with O => [] | _ => frame :: replicate n (build_frame q i) end) /\
    extensions_written b2 = wrap8 (Z.of_nat n) /\ writer b2 = true /\
    length (TimeExtension.echo b2) = MAX_FRAME_SIZE.
Proof.
  intros Hl Hf Hw. unfold arm. rewrite Nat.min_l by lia.
  rewrite slice_prefix, firstn_all, bind_ret by lia.
  rewrite copy_at_ok by lia. rewrite bind_ret. cbn [take app]. rewrite Hw. intros [= <-].
  destruct n as [|n]; cbn [TimeExtension.stalls].
  { eexists. split; [done|]. simpl. rewrite length_app, length_drop. split_and!; try done. lia. }
  unfold stall_hook. cbn [armed writer echo_flushed negb TimeExtension.echo
    TimeExtension.echo_len TimeExtension.seq icc extensions_written].
  rewrite slice_app by done. rewrite !bind_ret. cbn [fst snd].
  rewrite stalls_flushed by done. rewrite bind_ret.
  eexists. split; [done|]. cbn [extensions_written writer TimeExtension.echo snd app fst].
  rewrite length_app, length_drop. split_and!; [|done|lia].
  destruct n; [done|]. unfold wrap8. rewrite Zplus_mod_idemp_l. f_equal. lia.
Qed.

(** ** The server's invariant *)
Record server_ok {D E} `{!NfcDriver D E, !NfcDriverLaws D E} (s : CcidSerialServer D)
    (b : Bridge) : Prop := mkServerOk {
  so_handler : esp_ok (handler s);
  so_parser : parser_inv (parser s);
  so_echo : length (echo_buf s) = MAX_FRAME_SIZE /\ (echo_len s <= MAX_FRAME_SIZE)%nat;
  so_notify : length (notify_buf s) = 2%nat /\ (notify_len s <= 2)%nat;
  so_nak : length (nak_buf s) = 3%nat;
  so_ccid : length (ccid_resp_buf s) = MAX_CCID_RESPONSE_SIZE;
  so_resp : length (resp_buf s) = MAX_FRAME_SIZE /\ (resp_len s <= MAX_FRAME_SIZE)%nat;
  so_bridge : bridge_ok b
}.

Section Spec.
Context {D E : Type} `{!NfcDriver D E, !NfcDriverLaws D E, !NfcProbes D, !NfcProbesLaws D E,
  !FrontendDiagnostics D}.
Implicit Types (s : CcidSerialServer D) (e : CcidHandler D).

(** *** The handler's small operations *)
Lemma esp_refresh_ok now e : esp_ok e -> u32 now -> esp_ok (esp_refresh_diagnostics now e).
Proof.
  intros He Hn. pose proof (ok_diagnostics _ (eo_core _ He)) as Hd.
  pose proof (reinit_count_ok _ (ok_driver _ (eo_core _ He))) as Hr.
  destruct He as [Hc Ht ? ? ?]. constructor; try done. destruct Hc. constructor; try done.
  unfold Diagnostics.wf in *. cbn. tauto.
Qed.

Lemma esp_nak_ok e : esp_ok e -> esp_ok (esp_record_nak e).
Proof.
  intros He. pose proof (ok_diagnostics _ (eo_core _ He)) as Hd.
  destruct He as [Hc Ht ? ? ?]. constructor; try done. destruct Hc. constructor; try done.
  unfold Diagnostics.wf in *. cbn. int_lia.
Qed.

Lemma esp_snapshot_ok e : esp_ok e -> esp_ok (esp_take_snapshot_request e).1.
Proof. intros [[] ? ? ? ?]. by do 2 (constructor; try done). Qed.

Lemma esp_baud_ok b e : esp_ok e -> esp_ok (with_baud b e).
Proof. intros []. by constructor. Qed.

Lemma esp_turnaround_ok us e : esp_ok e -> esp_ok (esp_record_turnaround_us us e).
Proof.
  intros He. pose proof (ok_driver _ (eo_core _ He)). destruct He. apply esp_ok_core; try done.
  by apply core_ok_set_nfc.
Qed.

(** *** Polls *)
Ltac server_ok_solve := intros []; constructor; simpl; try done; try lia.
Ltac resized := try done; destruct_and?; split_and?; done || lia.

Lemma set_handler_ok e s b : server_ok s b -> esp_ok e -> server_ok (set_handler e s) b.
Proof. server_ok_solve. Qed.
Lemma set_parser_ok p s b : server_ok s b -> parser_inv p -> server_ok (set_parser p s) b.
Proof. server_ok_solve. Qed.
Lemma set_bridge_ok s b b' : server_ok s b -> bridge_ok b' -> server_ok s b'.
Proof. server_ok_solve. Qed.

Lemma reset_parser_ok s b : server_ok s b -> server_ok (set_parser (Parser.reset (parser s)) s) b.
Proof. intros H. apply set_parser_ok; [done|apply parser_reset]. Qed.

Lemma poll_due_ok now s b : server_ok s b -> server_ok (poll_due now s).1 b.
Proof. unfold poll_due. case_match; [|done]. server_ok_solve. Qed.

Lemma refresh_ok now s b : server_ok s b -> u32 now -> server_ok (refresh now s) b.
Proof. intros H Hn. apply set_handler_ok; [done|]. by apply esp_refresh_ok; [apply H|]. Qed.

Lemma check_card_eq s :
  check_card s = (set_handler (esp_check_card_change (handler s)).1.1 s,
                  (esp_check_card_change (handler s)).1.2).
Proof. unfold check_card. by destruct (esp_check_card_change (handler s)) as [[? ?] ?]. Qed.

Lemma check_card_ok s b : server_ok s b -> server_ok (check_card s).1 b.
Proof.
  intros H. rewrite check_card_eq. apply set_handler_ok; [done|]. apply esp_poll_spec, H.
Qed.

Lemma poll_if_due_ok now s b : server_ok s b -> server_ok (poll_if_due now s).1 b.
Proof.
  intros H. unfold poll_if_due. set (s1 := if _ && _ then _ else s).
  assert (server_ok s1 b) as H1 by (unfold s1; case_match; [by apply reset_parser_ok|done]).
  pose proof (poll_due_ok now s1 b H1) as H2. destruct (poll_due now s1) as [s2 [|]]; [|done].
  by apply check_card_ok.
Qed.

Lemma poll_and_stash_ok now s b : server_ok s b -> u32 now -> server_ok (poll_and_stash now s).1 b.
Proof.
  intros H Hn. unfold poll_and_stash.
  pose proof (poll_due_ok now s b H) as H2. destruct (poll_due now s) as [s2 [|]]; [|done].
  pose proof (check_card_ok _ b (refresh_ok now s2 b H2 Hn)) as H3.
  destruct (check_card (refresh now s2)) as [s3 [p|]]; [|done].
  cbn [fst snd] in *. revert H3. server_ok_solve.
Qed.

(** *** One command *)

(** The presence poll of a GetSlotStatus, and the transition it or an earlier
    idle poll saw. *)
Definition polls (m : list Z) (now : Z) s : bool :=
  starts_with PC_TO_RDR_GET_SLOT_STATUS m && inline_poll (config s) &&
  (poll_interval_ticks s <=? wrapping_sub32 now (last_poll_tick s)).
Definition polled (m : list Z) (now : Z) s : CcidHandler D :=
  if polls m now s
  then (esp_check_card_change (esp_refresh_diagnostics now (handler s))).1.1 else handler s.
Definition transition (m : list Z) (now : Z) s : option bool :=
  if starts_with PC_TO_RDR_GET_SLOT_STATUS m then
    match (if polls m now s
           then (esp_check_card_change (esp_refresh_diagnostics now (handler s))).1.2
           else None) with
    | Some p => Some p
    | None => pending_notify s
    end
  else None.
Definition notice (m : list Z) (now : Z) s : list Z :=
  match transition m now s with
  | Some p =>
      if notify_slot_change (config s)
      then [RDR_TO_PC_NOTIFY_SLOT_CHANGE; if p then CARD_PRESENT else CARD_ABSENT] else []
  | None => []
  end.

Lemma notification_spec p buf : length buf = 2%nat ->
  build_slot_change_notification p buf =
    Ret ([RDR_TO_PC_NOTIFY_SLOT_CHANGE; if p then CARD_PRESENT else CARD_ABSENT], 2%nat).
Proof. destruct buf as [|x [|y [|]]]; try done. Qed.

(** What [notify_presence] and the poll leave alone. *)
Definition same_window s s' : Prop :=
  parser s' = parser s /\ config s' = config s /\ windows s' = windows s /\
  ccid_resp_buf s' = ccid_resp_buf s /\ echo s' = echo s /\
  active_deadline_ticks s' = active_deadline_ticks s /\ frame_done_tick s' = frame_done_tick s.

Lemma notify_presence_spec m now s b : server_ok s b -> u32 now ->
  exists s', notify_presence m now s = Ret s' /\ server_ok s' b /\
    handler s' = polled m now s /\ notify s' = notice m now s /\ same_window s s'.
Proof.
  intros H Hn. unfold notify_presence, notice, transition, polled, polls.
  set (s1 := set_notify (notify_buf s) 0 s).
  assert (server_ok s1 b) as H1 by (destruct H; constructor; simpl; try done; lia).
  destruct (starts_with _ m); cbn [andb]; [|by exists s1].
  set (s2 := set_pending_notify None s1).
  assert (server_ok s2 b) as H2 by (revert H1; server_ok_solve).
  change (inline_poll (config s2)) with (inline_poll (config s)).
  set (r := if inline_poll (config s) then _ else (s2, None)).
  set (due := inline_poll (config s) && _).
  assert (server_ok r.1 b /\
    handler r.1 = (if due then (esp_check_card_change
      (esp_refresh_diagnostics now (handler s))).1.1 else handler s) /\
    r.2 = (if due then (esp_check_card_change
      (esp_refresh_diagnostics now (handler s))).1.2 else None) /\
    notify_buf r.1 = notify_buf s /\ notify_len r.1 = 0%nat /\ same_window s r.1)
    as (Hr & Hh & Hf & Hnb & Hnl & Hsame).
  { unfold r, due. destruct (inline_poll (config s)); cbn [andb]; [|done].
    pose proof (poll_due_ok now s2 b H2) as Hp. unfold poll_due in *.
    change (poll_interval_ticks s2) with (poll_interval_ticks s) in *.
    change (last_poll_tick s2) with (last_poll_tick s) in *.
    destruct (_ <=? _); cbn [fst snd] in *; [|done].
    rewrite check_card_eq. split; [|done].
    rewrite <- (f_equal fst (check_card_eq _)). by apply check_card_ok, refresh_ok. }
  destruct r as [s3 fresh]. cbn [fst snd] in *. subst fresh. rewrite <- Hh.
  destruct (match (if due then _ else None) with Some p => _ | None => _ end) as [p|].
  2: { exists s3. split_and!; try done. unfold notify. by rewrite Hnl. }
  replace (config s3) with (config s) by (symmetry; apply Hsame).
  destruct (notify_slot_change (config s)).
  - rewrite notification_spec, bind_ret by (apply Hr). eexists. split; [done|].
    split_and!; try done; try apply Hsame. revert Hr. server_ok_solve.
  - exists s3. split_and!; try done. unfold notify. by rewrite Hnl.
Qed.

(** What the handler leaves in a 271-byte buffer: nothing, or a message to the
    command's slot and sequence number that fits a frame. *)
Definition addressed (h : CcidHeader) (m : list Z) : Prop :=
  message m /\ exists hdr, CcidHeader_parse m = Some hdr /\ slot hdr = slot h /\ seq hdr = seq h.

Lemma bstatus_u8 (failed : bool) icc : 0 <= icc <= 2 ->
  u8 (build_bstatus (if failed then COMMAND_STATUS_FAILED else COMMAND_STATUS_NO_ERROR) icc).
Proof.
  intros H. assert (icc = 0 \/ icc = 1 \/ icc = 2) as [-> |[-> | ->]] by lia; by destruct failed.
Qed.

Lemma written_message m h buf r :
  bytes m -> CcidHeader_parse m = Some h -> length buf = MAX_CCID_RESPONSE_SIZE ->
  one_message h buf r ->
  length r.1 = MAX_CCID_RESPONSE_SIZE /\ (r.2 <= MAX_CCID_RESPONSE_SIZE)%nat /\
  (sent r = [] \/ addressed h (sent r)).
Proof.
  intros Hm Hp Hbuf (ty & failed & icc & data & Hicc & Hty & Hb & Hl & err & sp & He & Hs & ->).
  destruct (parse_bytes m h Hm Hp) as (_ & _ & Hslot & Hseq & _).
  split; [by rewrite write_message_length|].
  destruct (Nat.lt_ge_cases (length buf) (10 + length data)) as [Hlt|Hge].
  { rewrite write_message_short by done. split; [simpl; lia|by left]. }
  rewrite write_message_fits at 1 by done. cbn [snd]. split; [lia|right].
  unfold MAX_CCID_RESPONSE_SIZE in Hbuf.
  assert (small data) as Hsm by (unfold small, u32_max; lia).
  unfold sent. rewrite take_message by done.
  pose proof (parse_build ty (Z.of_nat (length data)) (slot h) (seq h)
    (build_bstatus (if failed then COMMAND_STATUS_FAILED else COMMAND_STATUS_NO_ERROR) icc)
    err sp data ltac:(unfold u32; lia)) as Hh.
  split; [|by eexists]. split; [|split; [|eexists; split; [exact Hh|]]].
  - apply bytes_app. split; [|done]. unfold CcidHeader_build.
    pose proof (bytes_to_le32 (Z.of_nat (length data))).
    pose proof (bstatus_u8 failed icc Hicc).
    repeat first [apply Forall_cons; split; [done|] | apply bytes_app; split | done | constructor].
  - rewrite length_app, length_build. unfold MAX_CCID_BYTES, MAX_CCID_MESSAGE_LENGTH. lia.
  - rewrite length_app, length_build. simpl. lia.
Qed.

(** The handler's share of a command. *)
Lemma handler_serves e m buf :
  esp_ok e -> message m -> length buf = MAX_CCID_RESPONSE_SIZE ->
  exists e' r h, esp_process_command e m buf = Ret (e', r) /\ esp_ok e' /\
    CcidHeader_parse m = Some h /\
    length r.1 = MAX_CCID_RESPONSE_SIZE /\ (r.2 <= MAX_CCID_RESPONSE_SIZE)%nat /\
    (sent r = [] \/ addressed h (sent r)).
Proof.
  intros He (Hb & Hl & h & Hp & Hlen) Hbuf.
  destruct (esp_answers e m buf) as (e' & r & E1 & He' & Hr); try done.
  - rewrite Hbuf. unfold MAX_CCID_RESPONSE_SIZE. lia.
  - intros h' Hh'. rewrite Hp in Hh'. injection Hh' as <-.
    unfold MAX_CCID_BYTES, MAX_CCID_MESSAGE_LENGTH, u32_max in *. lia.
  - rewrite Hp in Hr. destruct Hr as [Hr _].
    exists e', r, h. do 3 (split; [done|]). by apply (written_message m h buf).
Qed.

(** The window of a command; the interim frames of its exchange. *)
Definition window_in (ws : ResponseWindows) (m : list Z) : Z :=
  if starts_with PC_TO_RDR_XFR_BLOCK m then xfr_block ws
  else if starts_with PC_TO_RDR_ICC_POWER_ON m then power_on_window ws
  else tight ws.
Definition window (m : list Z) s : Z := window_in (windows s) m.
Definition extends (m : list Z) (b : Bridge) : bool :=
  writer b && starts_with PC_TO_RDR_XFR_BLOCK m.
Definition extension (m : list Z) e : list Z := build_frame (default 0 (m !! 6%nat)) (icc_of e).
Definition hooked (m : list Z) (k : nat) e (b : Bridge) : list (list Z) :=
  if extends m b
  then match k with O => [] | _ => frame_of m :: replicate k (extension m e) end else [].
Definition emitted (m : list Z) (k : nat) (b : Bridge) : Z :=
  if extends m b then wrap8 (Z.of_nat k) else 0.

Lemma bridge_run m k e b :
  bridge_ok b -> message m ->
  exists b1 b2,
    (if extends m b then arm (default 0 (m !! 6%nat)) (icc_of e) (frame_of m) b else Ret b)
      = Ret b1 /\
    TimeExtension.stalls k b1 = Ret (b2, hooked m k e b) /\
    let out := if extends m b then disarm_and_take_emitted b2 else (b2, 0) in
    out.2 = emitted m k b /\ bridge_ok out.1 /\ writer out.1 = writer b.
Proof.
  intros [Ha Hl] (Hb & Hlen & _). unfold hooked, emitted. destruct (extends m b) eqn:Ex.
  - assert (writer b = true) as Hw by (unfold extends in Ex; by destruct (writer b)).
    assert (length (frame_of m) <= MAX_FRAME_SIZE)%nat as Hf.
    { rewrite length_frame_of. change MAX_CCID_BYTES with 271%nat in Hlen.
      change MAX_FRAME_SIZE with 274%nat. lia. }
    assert (exists b1, arm (default 0 (m !! 6%nat)) (icc_of e) (frame_of m) b = Ret b1)
      as [b1 E1].
    { unfold arm. rewrite Nat.min_l, slice_prefix, bind_ret by lia.
      rewrite copy_at_ok by (rewrite length_take; lia). rewrite bind_ret. by eexists. }
    destruct (stalls_armed k _ _ _ b b1 Hl Hf Hw E1) as (b2 & E2 & Hex & Hw2 & Hl2).
    exists b1, b2. split; [done|]. split; [exact E2|]. cbn. by rewrite Hw.
  - exists b, b. split; [done|]. split; [apply stalls_unarmed; by rewrite Ha|]. done.
Qed.

Lemma process_spec m k s b :
  server_ok s b -> message m -> echo s = frame_of m ->
  exists e' r h s' b',
    esp_process_command (handler s) m (ccid_resp_buf s) = Ret (e', r) /\
    process m k s b = Ret (s', b', hooked m k (handler s) b) /\ server_ok s' b' /\
    handler s' = e' /\ CcidHeader_parse m = Some h /\
    (sent r = [] \/ addressed h (sent r)) /\ response s' = frame_of (sent r) /\
    notify s' = notify s /\ echo s' = (if 0 <? emitted m k b then [] else frame_of m) /\
    active_deadline_ticks s' = active_deadline_ticks s /\
    frame_done_tick s' =
      (if 0 <? emitted m k b
       then wrapping_add32 (frame_done_tick s)
              (wrap32 (active_deadline_ticks s * emitted m k b))
       else frame_done_tick s) /\
    writer b' = writer b /\ parser s' = parser s /\ config s' = config s /\
    windows s' = windows s.
Proof.
  intros H Hm He.
  destruct (handler_serves (handler s) m (ccid_resp_buf s) (so_handler _ _ H) Hm (so_ccid _ _ H))
    as (e' & r & h & E1 & He' & Hp & Hl1 & Hl2 & Hsent).
  destruct (bridge_run m k (handler s) b (so_bridge _ _ H) Hm)
    as (b1 & b2 & Earm & Est & Hem & Hbok & Hw).
  unfold process. fold (extends m b). rewrite He, Earm, bind_ret, Est, bind_ret. cbn [fst snd].
  rewrite E1, bind_ret. destruct r as [buf len]. cbn [fst snd] in *.
  set (s1 := set_ccid_resp_buf buf (set_handler e' s)).
  assert (forall b, bridge_ok b -> server_ok s1 b) as H1
    by (intros b0 Hb0; destruct H; constructor; simpl; try done; lia).
  set (sb := if extends m b then _ else (s1, b2)).
  assert (exists s2 b3, sb = (s2, b3) /\ server_ok s2 b3 /\ handler s2 = e' /\
    ccid_resp_buf s2 = buf /\ notify s2 = notify s /\ resp_buf s2 = resp_buf s /\
    echo s2 = (if 0 <? emitted m k b then [] else frame_of m) /\
    active_deadline_ticks s2 = active_deadline_ticks s /\
    frame_done_tick s2 =
      (if 0 <? emitted m k b
       then wrapping_add32 (frame_done_tick s)
              (wrap32 (active_deadline_ticks s * emitted m k b))
       else frame_done_tick s) /\
    writer b3 = writer b /\ parser s2 = parser s /\ config s2 = config s /\
    windows s2 = windows s) as (s2 & b3 & -> & H2 & Hh & Hrb & Hno & Hresp & Hrest).
  { unfold sb. destruct (extends m b) eqn:Ex.
    - destruct (disarm_and_take_emitted b2) as [b3 n]. cbn [fst snd] in Hem, Hbok, Hw. subst n.
      destruct (0 <? emitted m k b); eexists _, b3; (split; [reflexivity|]);
        (split; [pose proof (H1 b3 Hbok) as Hs1; revert Hs1; server_ok_solve; resized|]);
        split_and!; try done; exact He.
    - assert (emitted m k b = 0) as -> by (unfold emitted; by rewrite Ex).
      cbn [fst snd] in Hbok, Hw. eexists _, b2. split; [reflexivity|].
      split; [by apply H1|]. by split_and!. }
  rewrite Hrb, slice_prefix, bind_ret by lia.
  pose proof (so_resp _ _ H2) as [Hrl _].
  assert (length (take len buf) <= MAX_CCID_BYTES)%nat as Hlt.
  { rewrite length_take. change MAX_CCID_BYTES with MAX_CCID_RESPONSE_SIZE. lia. }
  change MAX_CCID_BYTES with 271%nat in Hlt. unfold MAX_FRAME_SIZE, MAX_CCID_RESPONSE_SIZE in Hrl.
  rewrite build_response_frame_spec, bind_ret by (change MAX_CCID_BYTES with 271%nat; lia).
  cbn [fst snd]. exists e', (buf, len), h. eexists _, b3.
  split; [done|]. split; [reflexivity|]. split; [|split; [done|split; [done|split; [done|]]]].
  - destruct H2. constructor; try done. unfold set_resp. cbn [resp_buf resp_len].
    unfold MAX_FRAME_SIZE, MAX_CCID_RESPONSE_SIZE.
    rewrite length_app, length_drop, length_frame_of. lia.
  - split; [|done]. unfold response, set_resp. cbn [resp_len resp_buf].
    rewrite take_app_length'; [done|]. by rewrite length_frame_of.
Qed.

(** What serving the command [m] at tick [now], with [k] stalls, does: the
    handler runs on exactly [m] after the refreshes, the wire buffers hold echo,
    notice and framed reply, and the window opens at [now], moved by the interim
    frames. *)
Record served (m : list Z) (now : Z) (k : nat) s (b : Bridge) (s' : CcidSerialServer D)
    (b' : Bridge) (frames : list (list Z)) : Prop := mkServed {
  sv_ok : server_ok s' b';
  sv_handler : exists r h,
    esp_process_command (esp_refresh_diagnostics now (polled m now s)) m (ccid_resp_buf s) =
      Ret (handler s', r) /\
    CcidHeader_parse m = Some h /\ response s' = frame_of (sent r) /\
    (sent r = [] \/ addressed h (sent r));
  sv_hooked : frames = hooked m k (esp_refresh_diagnostics now (polled m now s)) b;
  sv_echo : echo s' = if 0 <? emitted m k b then [] else frame_of m;
  sv_notify : notify s' = notice m now s;
  sv_window : active_deadline_ticks s' = window m s;
  sv_anchor : frame_done_tick s' =
    wrapping_add32 now (wrap32 (window m s * emitted m k b));
  sv_config : config s' = config s /\ windows s' = windows s /\ parser s' = parser s /\
    writer b' = writer b
}.

Lemma echo_frame_spec s b : server_ok s b ->
  (length (received_frame_bytes (parser s)) <= MAX_FRAME_SIZE)%nat ->
  exists s', echo_frame s = Ret s' /\ server_ok s' b /\
    echo s' = received_frame_bytes (parser s) /\ s' = set_echo (echo_buf s') (echo_len s') s.
Proof.
  intros H Hl. pose proof (so_echo _ _ H) as [He _]. unfold echo_frame.
  rewrite copy_at_ok by lia. rewrite bind_ret. eexists. split; [reflexivity|].
  split; [|split; [|done]].
  - destruct H. constructor; try done. unfold set_echo. cbn [echo_buf echo_len].
    rewrite !length_app, length_drop. simpl. lia.
  - unfold echo, set_echo. cbn [echo_buf echo_len]. rewrite take_0, app_nil_l. apply take_app_length.
Qed.

Lemma serve_command_spec m now k s b :
  server_ok s b -> message m -> u32 now -> received_frame_bytes (parser s) = frame_of m ->
  exists s' b' frames, serve_command m now k s b = Ret (s', b', frames) /\
    served m now k s b s' b' frames.
Proof.
  intros H Hm Hn Hf. unfold serve_command.
  set (s0 := open_window m now s).
  assert (server_ok s0 b) as H0 by (revert H; unfold s0, open_window; server_ok_solve).
  destruct (echo_frame_spec s0 b H0) as (s1 & -> & H1 & He1 & Es1).
  { change (parser s0) with (parser s). rewrite Hf, length_frame_of.
    destruct Hm as (_ & Hl & _). change MAX_CCID_BYTES with 271%nat in Hl.
    change MAX_FRAME_SIZE with 274%nat. lia. }
  change (parser s0) with (parser s) in He1. rewrite Hf in He1. rewrite bind_ret.
  assert (polled m now s1 = polled m now s /\ notice m now s1 = notice m now s /\
    window m s1 = window m s /\ ccid_resp_buf s1 = ccid_resp_buf s /\
    config s1 = config s /\ windows s1 = windows s /\ parser s1 = parser s /\
    active_deadline_ticks s1 = window m s /\ frame_done_tick s1 = now)
    as (Hpo & Hno & Hwi & Hcb & Hco & Hws & Hpa & Hac & Hfd) by (by rewrite Es1).
  clear Es1. destruct (notify_presence_spec m now s1 b H1 Hn)
    as (s2 & -> & H2 & Hh & Hnot & Hpa2 & Hco2 & Hws2 & Hcb2 & He2 & Hac2 & Hfd2).
  rewrite bind_ret. pose proof (refresh_ok now s2 b H2 Hn) as H3.
  destruct (process_spec m k (refresh now s2) b H3 Hm) as
    (e' & r & h & s' & b' & E1 & E2 & Hok & He' & Hp & Hs & Hr & Hno' & Hec & Hac3 & Hfd3 & Hw &
     Hpa3 & Hco3 & Hws3); [by rewrite <- He1, <- He2|].
  change (handler (refresh now s2)) with (esp_refresh_diagnostics now (handler s2)) in *.
  change (ccid_resp_buf (refresh now s2)) with (ccid_resp_buf s2) in *.
  change (active_deadline_ticks (refresh now s2)) with (active_deadline_ticks s2) in *.
  change (frame_done_tick (refresh now s2)) with (frame_done_tick s2) in *.
  rewrite Hh, Hpo in *. rewrite Hcb2, Hcb in E1. rewrite Hac2, Hac in *. rewrite Hfd2, Hfd in *.
  eexists s', b', _. split; [exact E2|]. constructor; try done.
  - exists r, h. by rewrite He'.
  - by rewrite Hno', <- Hno.
  - rewrite Hfd3. destruct (0 <? emitted m k b) eqn:Ez; [done|].
    assert (emitted m k b = 0) as ->.
    { revert Ez. unfold emitted, wrap8. case_match; [|done].
      pose proof (Z.mod_pos_bound (Z.of_nat k) 256 ltac:(lia)). lia. }
    rewrite Z.mul_0_r. unfold wrapping_add32, wrap32, u32 in *. rewrite Z.add_0_r.
    by rewrite Z.mod_small.
  - rewrite Hco3, Hws3, Hpa3. by rewrite <- Hco, <- Hws, <- Hpa.
Qed.

(** *** One byte *)
Lemma drop_stalled_ok now s b : server_ok s b -> server_ok (drop_stalled_frame now s) b.
Proof.
  intros H. unfold drop_stalled_frame.
  assert (server_ok (set_last_byte_tick now s) b) as H1 by (revert H; server_ok_solve).
  case_match; [by apply reset_parser_ok|done].
Qed.

Lemma nak_frame_spec buf : length buf = 3%nat ->
  build_nak_frame buf = Ret ([SYNC; CTRL_NAK; Z.lxor SYNC CTRL_NAK], 3%nat).
Proof. destruct buf as [|? [|? [|? [|]]]]; try done. Qed.

Lemma feed_byte_spec byte now k s b :
  server_ok s b -> u8 byte -> u32 now ->
  exists s' b' action frames,
    feed_byte byte now k s b = Ret (s', b', (action, frames)) /\ server_ok s' b' /\
    windows s' = windows s /\
    match action with
    | Respond => exists m p,
        Parser.feed (parser (drop_stalled_frame now s)) byte = Ret (p, Some (Command m)) /\
        message m /\ served m now k (set_parser p (drop_stalled_frame now s)) b s' b' frames
    | Nak => nak_on_error (config s) = true /\ frames = [] /\ b' = b /\
             nak_buf s' = [SYNC; CTRL_NAK; Z.lxor SYNC CTRL_NAK]
    | NoAction => frames = [] /\ b' = b /\ exists p ev,
        Parser.feed (parser (drop_stalled_frame now s)) byte = Ret (p, ev) /\
        s' = set_parser p (drop_stalled_frame now s)
    end.
Proof.
  intros H Hb Hn. unfold feed_byte. set (s0 := drop_stalled_frame now s).
  pose proof (drop_stalled_ok now s b H) as H0. fold s0 in H0.
  assert (config s0 = config s /\ windows s0 = windows s) as [Hcfg Hws]
    by (unfold s0, drop_stalled_frame; by case_match).
  destruct (parser_feed (parser s0) byte (so_parser _ _ H0) Hb) as (p & ev & E1 & Hp).
  rewrite E1, bind_ret. cbn [fst snd].
  pose proof (set_parser_ok p s0 b H0 Hp) as H1. destruct ev as [[m|err]|].
  - destruct (parser_command _ _ _ _ (so_parser _ _ H0) Hb E1) as [Hm Hr].
    destruct (serve_command_spec m now k (set_parser p s0) b H1 Hm Hn Hr)
      as (s' & b' & frames & -> & Hs). rewrite bind_ret. cbn [fst snd].
    eexists _, _, Respond, frames. split; [done|]. split; [apply Hs|].
    split; [by destruct (sv_config _ _ _ _ _ _ _ _ Hs) as (_ & -> & _)|]. by exists m, p.
  - change (config (set_parser p s0)) with (config s0). rewrite Hcfg.
    destruct (nak_on_error (config s)) eqn:En.
    + cbn [nak_buf set_handler]. rewrite nak_frame_spec by apply H1. rewrite bind_ret.
      eexists _, b, Nak, []. split; [done|]. split; [|done].
      assert (server_ok (set_handler (esp_record_nak (handler (set_parser p s0)))
        (set_parser p s0)) b) as H2 by (apply set_handler_ok; [done|apply esp_nak_ok, H1]).
      revert H2. server_ok_solve.
    + eexists _, b, NoAction, []. split; [done|]. split; [done|]. split; [done|].
      split; [done|]. split; [done|]. by exists p, (Some (Error err)).
  - eexists _, b, NoAction, []. split; [done|]. split; [done|]. split; [done|].
    split; [done|]. split; [done|]. by exists p, None.
Qed.

(** ** Every caller, every byte *)
Inductive call :=
| FeedByte (byte now : Z) (stalls : nat)
| PollIfDue (now : Z)
| OnReadIdle (now : Z)
| PollAfterResponse (now : Z)
| RefreshDeadline (now : Z)
| LateResponse
| TakeSnapshotRequest
| TakeBaudChange
| RecordTurnaround (us : Z)
| RegisterWriter.

(** What goes to the wire when a command is served: the frames of the stall hook
    during the exchange, then echo, notice and response. *)
Record wire := mkWire {
  w_frames : list (list Z);
  w_echo : list Z;
  w_notify : list Z;
  w_response : list Z
}.
Definition wire_bytes (w : wire) : list Z :=
  concat (w_frames w) ++ w_echo w ++ w_notify w ++ w_response w.

Definition call_step (st : CcidSerialServer D * Bridge) (c : call) :
    outcome ((CcidSerialServer D * Bridge) * option (ServeAction * wire)) :=
  let '(s, b) := st in
  match c with
  | FeedByte byte now stalls =>
      r ← feed_byte byte now stalls s b;
      let '(s, b, (action, frames)) := r in
      Ret ((s, b), Some (action, mkWire frames (echo s) (notify s) (response s)))
  | PollIfDue now => Ret (((poll_if_due now s).1, b), None)
  | OnReadIdle now => Ret (((on_read_idle now s).1, b), None)
  | PollAfterResponse now => Ret (((poll_if_due_after_response now s).1, b), None)
  | RefreshDeadline now => Ret ((refresh_host_deadline now s, b), None)
  | LateResponse => Ret ((record_late_response s, b), None)
  | TakeSnapshotRequest => Ret (((take_snapshot s).1, b), None)
  | TakeBaudChange => Ret ((set_handler (take_baud_change (handler s)).1 s, b), None)
  | RecordTurnaround us => Ret ((set_handler (esp_record_turnaround_us us (handler s)) s, b), None)
  | RegisterWriter => Ret ((s, TimeExtension.register_writer b), None)
  end.

Definition call_ok (c : call) : Prop :=
  match c with
  | FeedByte byte now stalls => u8 byte /\ u32 now /\ (stalls < 256)%nat
  | PollIfDue now | OnReadIdle now | PollAfterResponse now => u32 now
  | _ => True
  end.

(** The wire protocol of one served command [m]: its frame comes back first and
    exactly once, then the time extensions of [m]'s exchange, then the notice,
    then the framed reply to [m]'s slot and sequence number. *)
Definition protocol (m : list Z) (w : wire) : Prop :=
  exists h reply n icc notice,
    CcidHeader_parse m = Some h /\ (reply = [] \/ addressed h reply) /\
    (n = 0%nat \/ message_type h = PC_TO_RDR_XFR_BLOCK) /\
    (notice = [] \/ message_type h = PC_TO_RDR_GET_SLOT_STATUS /\ length notice = 2%nat) /\
    wire_bytes w =
      frame_of m ++ concat (replicate n (build_frame (seq h) icc)) ++ notice ++ frame_of reply.

Definition answer_ok (a : option (ServeAction * wire)) : Prop :=
  match a with
  | Some (Respond, w) => exists m, message m /\ protocol m w
  | Some (_, w) => w_frames w = []
  | None => True
  end.

Lemma starts_with_type t m h : CcidHeader_parse m = Some h ->
  starts_with t m = (message_type h =? t).
Proof.
  intros Hp. do 10 (destruct m as [|? m]; [done|]). injection Hp as <-.
  unfold starts_with. cbn. case_bool_decide as Ht.
  - injection Ht as ->. lia.
  - destruct (Z.eqb_spec z t); [|done]. by subst.
Qed.

Lemma notice_cases m now s h : CcidHeader_parse m = Some h ->
  notice m now s = [] \/ message_type h = PC_TO_RDR_GET_SLOT_STATUS /\ length (notice m now s) = 2%nat.
Proof.
  intros Hp. unfold notice, transition. rewrite (starts_with_type _ m h Hp).
  destruct (Z.eqb_spec (message_type h) PC_TO_RDR_GET_SLOT_STATUS); [|by left].
  destruct (match (if polls m now s then _ else None) with Some p => _ | None => _ end);
    [|by left]. case_match; [by right|by left].
Qed.

Lemma seq_byte m h : CcidHeader_parse m = Some h -> default 0 (m !! 6%nat) = seq h.
Proof. intros Hp. do 10 (destruct m as [|? m]; [done|]). by injection Hp as <-. Qed.

Lemma served_wire m now k s b s' b' frames :
  (k < 256)%nat -> served m now k s b s' b' frames ->
  wire_bytes (mkWire frames (echo s') (notify s') (response s')) =
    frame_of m ++
    concat (replicate (if extends m b then k else 0)
      (extension m (esp_refresh_diagnostics now (polled m now s)))) ++
    notice m now s ++ response s'.
Proof.
  intros Hk [_ _ -> Hec Hno _ _ _]. unfold wire_bytes.
  cbn [w_frames w_echo w_notify w_response]. rewrite Hec, Hno. unfold hooked, emitted.
  destruct (extends m b); [|done]. destruct k as [|k]; [done|].
  unfold wrap8. rewrite Z.mod_small by lia. replace (0 <? Z.of_nat (S k)) with true by lia.
  cbn [concat app]. by rewrite <- app_assoc.
Qed.

Lemma served_protocol m now k s b s' b' frames :
  (k < 256)%nat -> served m now k s b s' b' frames ->
  protocol m (mkWire frames (echo s') (notify s') (response s')).
Proof.
  intros Hk Hserved. pose proof (served_wire _ _ _ _ _ _ _ _ Hk Hserved) as Hw.
  destruct (sv_handler _ _ _ _ _ _ _ _ Hserved) as (r & h & _ & Hp & Hr & Hs).
  exists h, (sent r), (if extends m b then k else 0%nat),
    (icc_of (esp_refresh_diagnostics now (polled m now s))), (notice m now s).
  split; [done|]. split; [done|]. split; [|split; [by apply notice_cases|]].
  - unfold extends. rewrite (starts_with_type _ m h Hp). destruct (writer b); [|by left].
    cbn [andb]. destruct (Z.eqb_spec (message_type h) PC_TO_RDR_XFR_BLOCK); [by right|by left].
  - by rewrite Hw, <- (seq_byte m h Hp), Hr.
Qed.

Lemma late_ok s b : server_ok s b -> server_ok (record_late_response s) b.
Proof.
  intros H. unfold record_late_response, take_snapshot, take_baud_change. cbn [fst snd].
  apply set_handler_ok.
  - apply set_handler_ok; [|apply esp_snapshot_ok; apply H].
    destruct H. constructor; simpl; try done; split; try apply so_echo0; try apply so_notify0;
      try apply so_resp0; lia.
  - apply esp_baud_ok. apply (esp_snapshot_ok (handler s)), H.
Qed.

Lemma call_step_spec st c :
  server_ok st.1 st.2 -> call_ok c ->
  exists st' a, call_step st c = Ret (st', a) /\ server_ok st'.1 st'.2 /\ answer_ok a.
Proof.
  destruct st as [s b]. intros H Hc. cbn [fst snd] in H.
  destruct c as [byte now k|now|now|now|now| | | |us|]; cbn [call_step call_ok] in *.
  - destruct Hc as (Hb & Hn & Hk).
    destruct (feed_byte_spec byte now k s b H Hb Hn)
      as (s' & b' & action & frames & -> & Hok & _ & Ha). rewrite bind_ret.
    eexists (s', b'), _. split; [done|]. split; [done|]. destruct action.
    + destruct Ha as (m & p & _ & Hm & Hs). exists m. split; [done|].
      by eapply served_protocol.
    + by destruct Ha as (_ & -> & _).
    + by destruct Ha as (-> & _).
  - eexists (_, b), None. split; [done|]. split; [by apply poll_if_due_ok|done].
  - eexists (_, b), None. split; [done|]. split; [|done].
    by apply poll_and_stash_ok; [apply reset_parser_ok|].
  - eexists (_, b), None. split; [done|]. split; [by apply poll_and_stash_ok|done].
  - eexists (_, b), None. split; [done|]. split; [revert H; server_ok_solve|done].
  - eexists (_, b), None. split; [done|]. split; [by apply late_ok|done].
  - eexists (_, b), None. split; [done|]. split; [|done].
    apply set_handler_ok; [done|apply esp_snapshot_ok, H].
  - eexists (_, b), None. split; [done|]. split; [|done].
    apply set_handler_ok; [done|apply esp_baud_ok, H].
  - eexists (_, b), None. split; [done|]. split; [|done].
    apply set_handler_ok; [done|apply esp_turnaround_ok, H].
  - eexists (s, _), None. split; [done|]. split; [|done].
    destruct H. constructor; try done.
Qed.

(** Any interleaving of calls runs to its end within the invariant. *)
Lemma calls_ok s b cs :
  server_ok s b -> Forall call_ok cs ->
  exists s' b' answers, run call_step (s, b) cs = Ret ((s', b'), answers) /\
    server_ok s' b' /\ Forall answer_ok answers.
Proof.
  intros H Hcs. revert s b H. induction Hcs as [|c cs Hc Hcs IH]; intros s b H.
  { by exists s, b, []. }
  destruct (call_step_spec (s, b) c H Hc) as ([s1 b1] & a & E1 & H1 & Ha).
  destruct (IH s1 b1 H1) as (s' & b' & answers & E2 & H2 & Has).
  exists s', b', (a :: answers). cbn [run]. rewrite E1, bind_ret. cbn [fst snd].
  rewrite E2, bind_ret. cbn [fst snd]. split; [done|]. split; [done|]. by constructor.
Qed.

(** C17: no host can crash the serial reader.  From a server within its invariant
    (a new one over any handler, [server_new_ok]), any interleaving of received
    bytes, polls, dropped answers and the other calls of the mains runs to its
    end without a panic and within the invariant of server, parser, handler, core
    and T=1 endpoint: what [process_command] panics on never comes out of the
    frame parser.  And each served command [m] puts on the wire exactly its own
    frame first, then the time extensions written while it ran, then the presence
    notice, then one framed reply to [m]'s slot and sequence number (an empty
    frame when the reply did not fit); nothing else is ever written. *)
Theorem serial_server_safe s b cs :
  server_ok s b -> Forall call_ok cs ->
  exists s' b' answers, run call_step (s, b) cs = Ret ((s', b'), answers) /\
    server_ok s' b' /\ Forall answer_ok answers.
Proof. apply calls_ok. Qed.

(** ** One exchange on the wire *)

(** Consecutive ticks at most [INTER_BYTE_STALL_TICKS] apart. *)
Fixpoint steady (t : Z) (ts : list Z) : Prop :=
  match ts with
  | [] => True
  | t' :: ts => wrapping_sub32 t' t <= INTER_BYTE_STALL_TICKS /\ steady t' ts
  end.

(** The tick of the last byte read. *)
Definition last_tick (t : Z) (ts : list Z) : Z := fold_left (fun _ t' => t') ts t.

Definition quiet : option (ServeAction * wire) -> Prop :=
  fun a => exists w, a = Some (NoAction, w) /\ w_frames w = [].

(** The server up to its parser and the tick of the last byte. *)
Definition reading (p : FrameParser) (t : Z) s : CcidSerialServer D :=
  set_parser p (set_last_byte_tick t s).

Lemma reading_reading p t p' t' s : reading p t (reading p' t' s) = reading p t s.
Proof. done. Qed.
Lemma drop_stalled_steady t s : wrapping_sub32 t (last_byte_tick s) <= INTER_BYTE_STALL_TICKS ->
  drop_stalled_frame t s = set_last_byte_tick t s.
Proof. intros H. unfold drop_stalled_frame. by replace (_ <? _) with false by lia. Qed.

(** A byte that completes nothing only moves the parser. *)
Lemma feed_quiet c t s b a :
  server_ok s b -> u8 c -> u32 t -> spec_feed (abs (parser (drop_stalled_frame t s))) c = (a, None) ->
  exists p ans, call_step (s, b) (FeedByte c t 0) = Ret ((reading p t s, b), ans) /\
    server_ok (reading p t s) b /\ abs p = a /\ quiet ans.
Proof.
  intros H Hc Ht Hs. set (s0 := drop_stalled_frame t s) in *.
  pose proof (drop_stalled_ok t s b H) as H0. fold s0 in H0.
  destruct (parser_simulates (parser s0) c (so_parser _ _ H0) Hc) as (p & E1 & Hp & Ha).
  rewrite Hs in E1, Ha. cbn [fst snd] in E1, Ha.
  assert (set_parser p s0 = reading p t s) as Er
    by (unfold s0, drop_stalled_frame, reading; by case_match).
  exists p. eexists. unfold call_step, feed_byte. fold s0. rewrite E1, bind_ret. cbn [fst snd].
  rewrite bind_ret. rewrite Er. split; [done|]. split; [|split; [done|by eexists]].
  rewrite <- Er. by apply set_parser_ok.
Qed.

(** The bytes of a message behind SYNC ACK, without a stall. *)
Lemma feed_collecting m bs pre : message m -> m = pre ++ bs -> forall ts t s b,
  server_ok s b -> abs (parser s) = AData pre -> last_byte_tick s = t ->
  length ts = length bs -> Forall u32 ts -> steady t ts ->
  exists p answers,
    run call_step (s, b) (zip_with (fun c t => FeedByte c t 0) bs ts) =
      Ret ((reading p (last_tick t ts) s, b), answers) /\
    server_ok (reading p (last_tick t ts) s) b /\ abs p = AData m /\ Forall quiet answers.
Proof.
  intros Hm. revert pre. induction bs as [|c bs IH]; intros pre Epre ts t s b H Ha Hlt Hl Hu Hst.
  - destruct ts; [|done]. exists (parser s), []. subst t. rewrite app_nil_r in Epre. subst pre.
    cbn. assert (reading (parser s) (last_byte_tick s) s = s) as -> by (by destruct s). done.
  - destruct ts as [|t' ts]; [done|]. injection Hl as Hl. apply Forall_cons in Hu as [Hu Hus].
    destruct Hst as [Hg Hst].
    assert (u8 c) as Hc.
    { destruct Hm as (Hb & _). rewrite Epre in Hb. apply bytes_app in Hb as [_ Hb].
      by apply Forall_cons in Hb as [? _]. }
    destruct (message_prefix m pre c bs Hm Epre) as [Hinc Hsh].
    destruct (feed_quiet c t' s b (AData (pre ++ [c])) H Hc Hu) as (p & ans & E1 & H1 & Hp & Hq).
    { rewrite drop_stalled_steady by (by subst t). change (parser (set_last_byte_tick t' s))
        with (parser s). rewrite Ha. cbn [spec_feed]. by rewrite Hinc, Hsh. }
    destruct (IH (pre ++ [c]) ltac:(by rewrite <- app_assoc) ts t' (reading p t' s) b H1 Hp
      eq_refl Hl Hus Hst) as (p' & answers & E2 & H2 & Hp' & Hqs).
    exists p', (ans :: answers). cbn [zip_with run]. rewrite E1, bind_ret. cbn [fst snd].
    rewrite E2, bind_ret. cbn [fst snd]. rewrite reading_reading in *.
    split; [done|]. split; [done|]. split; [done|]. by constructor.
Qed.

(** SYNC and ACK, from between two frames. *)
Lemma feed_preamble t1 t2 s b :
  server_ok s b -> mid_frame (parser s) = false -> u32 t1 -> u32 t2 ->
  wrapping_sub32 t2 t1 <= INTER_BYTE_STALL_TICKS ->
  exists p answers,
    run call_step (s, b) [FeedByte SYNC t1 0; FeedByte CTRL_ACK t2 0] =
      Ret ((reading p t2 s, b), answers) /\
    server_ok (reading p t2 s) b /\ abs p = AData [] /\ Forall quiet answers /\
    length answers = 2%nat.
Proof.
  intros H Hmid Hu1 Hu2 Hg.
  assert (exists echo, abs (parser (drop_stalled_frame t1 s)) = ASync echo) as [echo Ha].
  { unfold drop_stalled_frame. case_match; [by eexists|]. cbn [parser set_last_byte_tick].
    unfold abs. unfold mid_frame in Hmid. destruct (state (parser s)); try done. by eexists. }
  destruct (feed_quiet SYNC t1 s b ACtrl H) as (p1 & a1 & E1 & H1 & Hp1 & Hq1);
    [done|done|by rewrite Ha|].
  destruct (feed_quiet CTRL_ACK t2 (reading p1 t1 s) b (AData []) H1) as
    (p2 & a2 & E2 & H2 & Hp2 & Hq2); [done|done| |].
  { rewrite drop_stalled_steady by done.
    change (parser (set_last_byte_tick t2 (reading p1 t1 s))) with p1. by rewrite Hp1. }
  exists p2, [a1; a2]. cbn [run]. rewrite E1, bind_ret. cbn [fst snd]. rewrite E2, !bind_ret.
  split; [done|]. split; [done|]. split; [done|]. split; [|done].
  apply Forall_cons. split; [done|]. apply Forall_cons. split; [done|]. by apply Forall_nil.
Qed.

(** The last byte. *)
Lemma feed_check m t k s b :
  server_ok s b -> message m -> abs (parser s) = AData m -> u32 t ->
  wrapping_sub32 t (last_byte_tick s) <= INTER_BYTE_STALL_TICKS ->
  exists p s' b' frames,
    call_step (s, b) (FeedByte (xor_all (SYNC :: CTRL_ACK :: m)) t k) =
      Ret ((s', b'), Some (Respond, mkWire frames (echo s') (notify s') (response s'))) /\
    served m t k (reading p t s) b s' b' frames.
Proof.
  intros H Hm Ha Ht Hg. set (lrc := xor_all _).
  assert (u8 lrc) as Hu.
  { apply u8_xor_all. destruct Hm as (Hb & _). by repeat (apply Forall_cons; split; [done|]). }
  destruct (feed_byte_spec lrc t k s b H Hu Ht) as (s' & b' & action & frames & E1 & Hok & _ & Hact).
  rewrite drop_stalled_steady in Hact by done.
  change (parser (set_last_byte_tick t s)) with (parser s) in Hact.
  destruct (parser_simulates (parser s) lrc (so_parser _ _ H) Hu) as (p & Ep & _ & _).
  rewrite Ha in Ep. cbn [spec_feed snd] in Ep. rewrite message_complete in Ep by done.
  fold lrc in Ep. rewrite Z.eqb_refl in Ep. cbn [snd] in Ep.
  assert (action = Respond) as ->.
  { unfold feed_byte in E1. rewrite drop_stalled_steady in E1 by done.
    change (parser (set_last_byte_tick t s)) with (parser s) in E1.
    rewrite Ep, bind_ret in E1. cbn [snd] in E1.
    apply bind_Ret_inv in E1 as (? & _ & E1). by injection E1. }
  destruct Hact as (m' & p' & Ep' & _ & Hs). rewrite Ep in Ep'. injection Ep' as <- <-.
  exists p, s', b', frames. split; [|done]. cbn [call_step]. by rewrite E1, bind_ret.
Qed.

(** C16: one exchange on the wire.  A framed command of up to 271 bytes, its bytes
    at most ten ticks apart, sent while the parser is between frames: no byte but
    the last triggers anything, the last one answers.  The handler runs exactly
    once, on exactly the framed message, after the poll a GetSlotStatus may owe;
    the host reads its own frame back, then one time extension per stall of the
    exchange, then the presence notice, then the handler's reply framed.  The
    window of the command's class opens at the last byte and is moved on by one
    length per extension. *)
Theorem serial_exchange s b m ticks t k :
  server_ok s b -> message m -> mid_frame (parser s) = false ->
  length ticks = (2 + length m)%nat -> Forall u32 (ticks ++ [t]) ->
  steady (nth 0 ticks 0) (drop 1 ticks ++ [t]) -> (k < 256)%nat ->
  let e0 := esp_refresh_diagnostics t (polled m t s) in
  let n := if extends m b then k else 0%nat in
  exists s' b' quiets w r,
    run call_step (s, b)
      (zip_with (fun c t => FeedByte c t 0) (SYNC :: CTRL_ACK :: m) ticks ++
       [FeedByte (xor_all (SYNC :: CTRL_ACK :: m)) t k]) =
      Ret ((s', b'), quiets ++ [Some (Respond, w)]) /\
    Forall quiet quiets /\ length quiets = (2 + length m)%nat /\ server_ok s' b' /\
    esp_process_command e0 m (ccid_resp_buf s) = Ret (handler s', r) /\
    wire_bytes w =
      frame_of m ++ concat (replicate n (extension m e0)) ++ notice m t s ++ frame_of (sent r) /\
    active_deadline_ticks s' = window m s /\
    frame_done_tick s' = wrapping_add32 t (wrap32 (window m s * Z.of_nat n)).
Proof.
  intros H Hm Hmid Hl Hu Hst Hk e0 n.
  destruct ticks as [|t1 [|t2 ticks]]; [done..|]. injection Hl as Hl.
  cbn [nth drop app] in Hst. destruct Hst as [Hg1 Hst].
  apply Forall_app in Hu as [[Hu1 [Hu2 Hu]%Forall_cons]%Forall_cons [Hut _]%Forall_cons].
  destruct (feed_preamble t1 t2 s b H Hmid Hu1 Hu2 Hg1) as (p1 & q1 & E1 & H1 & Ha1 & Hq1 & Hl1).
  assert (steady t2 ticks /\ wrapping_sub32 t (last_tick t2 ticks) <= INTER_BYTE_STALL_TICKS)
    as [Hst1 Hg].
  { clear -Hst. revert t2 Hst. induction ticks as [|x ticks IH]; intros t2; cbn; [tauto|].
    intros [? Hs]. destruct (IH x Hs). done. }
  destruct (feed_collecting m m [] Hm eq_refl ticks t2 (reading p1 t2 s) b H1 Ha1 eq_refl Hl Hu
    Hst1) as (p2 & q2 & E2 & H2 & Ha2 & Hq2). rewrite reading_reading in E2, H2.
  destruct (feed_check m t k (reading p2 (last_tick t2 ticks) s) b H2 Hm Ha2 Hut Hg)
    as (p3 & s' & b' & frames & E3 & Hs).
  change (reading p3 t (reading p2 (last_tick t2 ticks) s)) with (reading p3 t s) in Hs.
  pose proof (served_wire _ _ _ _ _ _ _ _ Hk Hs) as Hw.
  destruct (sv_handler _ _ _ _ _ _ _ _ Hs) as (r & h & Er & _ & Hr & _).
  exists s', b', (q1 ++ q2). eexists. exists r. split_and!.
  - cbn [zip_with app]. set (l := zip_with _ m ticks ++ _).
    change (run _ _ (?x :: ?y :: l)) with (run call_step (s, b) ([x; y] ++ l)). unfold l.
    rewrite run_app, E1, bind_ret. cbn [fst snd]. rewrite run_app, E2, bind_ret. cbn [fst snd run].
    rewrite E3, !bind_ret. cbn [fst snd]. by rewrite <- app_assoc.
  - by apply Forall_app.
  - apply length_run in E2. rewrite length_app, Hl1, E2, length_zip_with. lia.
  - apply Hs.
  - exact Er.
  - rewrite Hw, Hr. done.
  - apply Hs.
  - rewrite (sv_anchor _ _ _ _ _ _ _ _ Hs). change (window m (reading p3 t s)) with (window m s).
    unfold emitted, n, wrap8. destruct (extends m b); [|done]. by rewrite Z.mod_small by lia.
Qed.

(** ** Answer or silence *)
Definition window_ms (m : list Z) : Z :=
  if starts_with PC_TO_RDR_XFR_BLOCK m then XFR_BLOCK_RESPONSE_WINDOW_MS
  else if starts_with PC_TO_RDR_ICC_POWER_ON m then ICC_POWER_ON_RESPONSE_WINDOW_MS
  else RESPONSE_WINDOW_MS.

Lemma window_hz m s hz : windows s = from_tick_hz hz -> 1 <= hz <= 1000 ->
  window m s = Z.max 1 (window_ms m * hz / 1000).
Proof.
  intros Hws Hhz. unfold window, window_in. rewrite Hws. unfold window_ms, from_tick_hz, xfr_block_response_window_ticks,
    icc_power_on_response_window_ticks, response_window_ticks, window_ticks, wrap32.
  cbn [tight xfr_block power_on_window].
  unfold XFR_BLOCK_RESPONSE_WINDOW_MS, ICC_POWER_ON_RESPONSE_WINDOW_MS, RESPONSE_WINDOW_MS.
  rewrite !Z.mod_small by lia.
  repeat case_match; rewrite ?Z.ltb_lt, ?Z.ltb_ge in *; lia.
Qed.

(** Elapsed ticks against a window that was moved on by [moved]. *)
Lemma expired_after now w moved d :
  u32 now -> 1 <= w -> 0 <= moved -> moved + w <= u32_max -> 0 <= d <= u32_max ->
  (w <? wrapping_sub32 (wrapping_add32 now d) (wrapping_add32 now (wrap32 moved))) = true <->
  d < moved \/ moved + w < d.
Proof.
  unfold u32, wrapping_sub32, wrapping_add32, wrap32, u32_max. intros Hn Hw H0 Hm Hd.
  rewrite (Z.mod_small moved) by lia.
  rewrite Zminus_mod_idemp_l, Zminus_mod_idemp_r.
  replace (now + d - (now + moved)) with (d - moved) by lia.
  destruct (Z.lt_ge_cases d moved).
  - replace ((d - moved) mod 4294967296) with (d - moved + 4294967296); [lia|].
    rewrite <- (Z_mod_plus_full (d - moved) 1). symmetry. apply Z.mod_small. lia.
  - rewrite Z.mod_small by lia. lia.
Qed.

(** When an answer is in time.  On a reader with 1 to 1000 ticks a second,
    an answer is judged by the window of its command's class ([window_ms], 7.5 s
    for XfrBlock, 59.5 s for IccPowerOn, 2.5 s otherwise), counted from the last
    byte of the command and across the wrap of the tick counter.  With [n] time
    extensions the judgement is right only from the [n]-th window on: an answer
    that is ready earlier counts as expired too.  And a caller that re-anchors
    the window to an arrival floor afterwards, as the mains do, is back to a
    single window: the extensions are lost. *)
Theorem answer_window hz s b m now k d floor post :
  server_ok s b -> message m -> u32 now -> received_frame_bytes (parser s) = frame_of m ->
  windows s = from_tick_hz hz -> 1 <= hz <= 1000 -> (k < 256)%nat -> 0 <= d <= u32_max ->
  let n := if extends m b then Z.of_nat k else 0 in
  let w := Z.max 1 (window_ms m * hz / 1000) in
  exists s' b' frames, serve_command m now k s b = Ret (s', b', frames) /\
    (response_expired (wrapping_add32 now d) s' = true <-> d < w * n \/ w * n + w < d) /\
    (response_expired post (refresh_host_deadline floor s') = true <->
     w < wrapping_sub32 post floor).
Proof.
  intros H Hm Hn Hf Hhz Hr Hk Hd n w.
  destruct (serve_command_spec m now k s b H Hm Hn Hf) as (s' & b' & frames & E1 & Hs).
  exists s', b', frames. split; [done|]. unfold response_expired.
  rewrite (sv_anchor _ _ _ _ _ _ _ _ Hs), (sv_window _ _ _ _ _ _ _ _ Hs).
  change (active_deadline_ticks (refresh_host_deadline floor s')) with (active_deadline_ticks s').
  change (frame_done_tick (refresh_host_deadline floor s')) with floor.
  rewrite (sv_window _ _ _ _ _ _ _ _ Hs), (window_hz m s hz) by done. fold w.
  assert (emitted m k b = n) as ->.
  { unfold emitted, n, wrap8. case_match; [|done]. by rewrite Z.mod_small by lia. }
  assert (1 <= w <= 59500) as Hw.
  { unfold w, window_ms, XFR_BLOCK_RESPONSE_WINDOW_MS, ICC_POWER_ON_RESPONSE_WINDOW_MS,
      RESPONSE_WINDOW_MS. repeat case_match; Z.to_euclidean_division_equations; lia. }
  assert (0 <= n <= 255) as Hn255 by (unfold n; case_match; lia).
  split; [apply expired_after; first [done | unfold u32_max in *; nia]|lia].
Qed.

(** ** Bursts *)
Import CdcBurst.
Implicit Types (x : Fed) (o : BurstOutcome).

Definition fed_ok x : Prop :=
  u8 (byte x) /\ u32 (feed_tick x) /\ (CdcBurst.stalls x < 256)%nat.

(** What a served command owes the wire, and how far the transport took it: every
    frame before the first failed write went out, and only a complete exchange is
    serve evidence. *)
Definition owed (w : wire) : list (list Z) :=
  w_echo w :: (match w_notify w with [] => [] | _ => [w_notify w] end) ++ [w_response w].
Definition delivered (w : wire) (j : nat) : list WireEvent :=
  map (fun f => Write f true) (take j (owed w)) ++
  match owed w !! j with Some f => [Write f false] | None => [ServeEvidence] end.

Definition byte_events (ws : ResponseWindows) (floor : Z) x (g : list WireEvent) : Prop :=
  g = [] \/ g = [Write [SYNC; CTRL_NAK; Z.lxor SYNC CTRL_NAK] (nak_sent x)] \/
  exists m w, message m /\ protocol m w /\
    if window_in ws m <? wrapping_sub32 (post_tick x) floor
    then g = map Extension (w_frames w)
    else exists j, (j <= length (owed w))%nat /\
           g = map Extension (w_frames w) ++ delivered w j.

Definition evidence (g : list WireEvent) : Z :=
  count (fun ev => match ev with ServeEvidence => true | _ => false end) g.

Lemma evidence_extensions frames : evidence (map Extension frames) = 0.
Proof. unfold evidence. induction frames as [|f frames IH]; [done|]. exact IH. Qed.

(** [write_exchange] is a delivery, complete exactly when it says so. *)
Lemma write_exchange_spec x s frames :
  let w := mkWire frames (echo s) (notify s) (response s) in
  exists j, (j <= length (owed w))%nat /\
    (write_exchange x s).1 ++ (if (write_exchange x s).2 then [ServeEvidence] else []) =
      delivered w j /\
    evidence (delivered w j) = if (write_exchange x s).2 then 1 else 0.
Proof.
  intros w. unfold write_exchange, delivered, owed, w. cbn [w_echo w_notify w_response].
  destruct (echo_sent x); cbn [negb]; [|by exists 0%nat; split; [simpl; lia|]].
  destruct (notify s) as [|n ns]; cbn [app].
  - destruct (response_sent x); [by exists 2%nat|by exists 1%nat; split; [simpl; lia|]].
  - destruct (notify_sent x); cbn [negb]; [|by exists 1%nat; split; [simpl; lia|]].
    destruct (response_sent x); [by exists 3%nat|by exists 2%nat; split; [simpl; lia|]].
Qed.

Lemma take_snapshot_ok s b : server_ok s b -> server_ok (take_snapshot s).1 b.
Proof. intros H. apply set_handler_ok; [done|apply esp_snapshot_ok, H]. Qed.

Definition wrap_add (z : Z) (n : Z) : Z := wrap32 (z + n).

Lemma serve_byte_spec floor x s b o :
  server_ok s b -> fed_ok x -> u32 (responses o) ->
  exists s' b' o' g stop, serve_byte floor x s b o = Ret (s', b', o', g, stop) /\
    server_ok s' b' /\ windows s' = windows s /\ byte_events (windows s) floor x g /\
    responses o' = wrap_add (responses o) (evidence g) /\
    snapshot_requested o' = (stop || snapshot_requested o) /\ idle o' = idle o.
Proof.
  intros H (Hb & Ht & Hk) Ho. unfold serve_byte.
  destruct (feed_byte_spec (byte x) (feed_tick x) (CdcBurst.stalls x) s b H Hb Ht)
    as (s1 & b1 & action & frames & -> & H1 & Hws1 & Hact). rewrite bind_ret.
  assert (wrap_add (responses o) 0 = responses o) as Hw0
    by (unfold wrap_add, wrap32; rewrite Z.add_0_r; by apply Z.mod_small).
  destruct action.
  - destruct Hact as (m & p & _ & Hm & Hs).
    pose proof (served_protocol _ _ _ _ _ _ _ _ Hk Hs) as Hproto.
    assert (response_expired (post_tick x) (refresh_host_deadline floor s1) =
      (window_in (windows s) m <? wrapping_sub32 (post_tick x) floor)) as ->.
    { rewrite <- Hws1. destruct (sv_config _ _ _ _ _ _ _ _ Hs) as (_ & Hws2 & _).
      unfold response_expired. cbn. by rewrite (sv_window _ _ _ _ _ _ _ _ Hs), Hws2. }
    assert (server_ok (refresh_host_deadline floor s1) b1) as H2
      by (revert H1; server_ok_solve).
    destruct (_ <? _) eqn:Elate.
    + eexists _, b1, _, _, false. split; [reflexivity|]. split; [by apply late_ok|].
      split; [exact Hws1|]. split; [|by rewrite evidence_extensions].
      right. right. exists m. eexists. split; [done|]. split; [exact Hproto|]. by rewrite Elate.
    + destruct (write_exchange_spec x (refresh_host_deadline floor s1) frames)
        as (j & Hj & Hd & Hev).
      destruct (write_exchange x (refresh_host_deadline floor s1)) as [writes sent].
      cbn [fst snd] in *. pose proof (take_snapshot_ok _ b1 H2) as H3.
      destruct (take_snapshot (refresh_host_deadline floor s1)) as [s3 snap] eqn:E3.
      assert (windows s3 = windows s) as Hws3 by (injection E3 as <- _; exact Hws1).
      eexists _, b1, _, _, snap. split; [reflexivity|]. split; [exact H3|]. split; [done|].
      rewrite Hd. split.
      { right. right. exists m. eexists. split; [done|]. split; [exact Hproto|].
        rewrite Elate. exists j. done. }
      unfold evidence in *. rewrite count_app, Hev. fold (evidence (map Extension frames)).
      rewrite evidence_extensions. destruct sent, snap; cbn; by rewrite ?Hw0.
  - destruct Hact as (_ & -> & -> & Hnak). rewrite Hnak.
    eexists _, b, _, _, false. split; [reflexivity|]. split; [done|]. split; [done|].
    split; [right; by left|]. change (evidence _) with 0. rewrite Hw0. by destruct (nak_sent x).
  - destruct Hact as (-> & -> & _).
    eexists _, b, o, [], false. split; [reflexivity|]. split; [done|].
    split; [done|]. split; [by left|]. change (evidence _) with 0. by rewrite Hw0.
Qed.

(** The byte loop: one group of wire events per byte consumed. *)
Lemma serve_bytes_spec floor xs s b o :
  server_ok s b -> Forall fed_ok xs -> u32 (responses o) -> snapshot_requested o = false ->
  exists s' b' o' groups stop,
    serve_bytes floor xs s b o = Ret (s', b', o', concat groups, stop) /\ server_ok s' b' /\
    windows s' = windows s /\
    Forall2 (byte_events (windows s) floor) (take (length groups) xs) groups /\
    responses o' = wrap_add (responses o) (evidence (concat groups)) /\
    snapshot_requested o' = stop /\ idle o' = idle o /\
    (length groups <= length xs)%nat /\ (stop = false -> length groups = length xs).
Proof.
  intros H Hxs. revert s b o H. induction Hxs as [|x xs Hx Hxs IH]; intros s b o H Ho Hsn.
  { exists s, b, o, [], false. split_and!; try done. unfold wrap_add, wrap32.
    rewrite Z.add_0_r. symmetry. by apply Z.mod_small. }
  destruct (serve_byte_spec floor x s b o H Hx Ho)
    as (s1 & b1 & o1 & g & stop & E1 & H1 & Hw1 & Hg & Hr1 & Hs1 & Hb1).
  cbn [serve_bytes]. rewrite E1, bind_ret. rewrite Hsn, orb_false_r in Hs1.
  assert (u32 (responses o1)) as Ho1
    by (rewrite Hr1; unfold wrap_add, wrap32, u32; apply Z.mod_pos_bound; lia).
  destruct stop.
  - exists s1, b1, o1, [g], true. cbn [concat length take]. rewrite app_nil_r.
    split_and!; try done; [|simpl; lia].
    apply Forall2_cons. by split.
  - destruct (IH s1 b1 o1 H1 Ho1 Hs1)
      as (s' & b' & o' & gs & stop & E2 & H2 & Hw2 & Hgs & Hr2 & Hs2 & Hb2 & Hl & Hst).
    exists s', b', o', (g :: gs), stop. rewrite E2, bind_ret. split; [done|]. split; [done|].
    rewrite Hw1 in Hw2, Hgs. split; [done|]. split; [by apply Forall2_cons|].
    split; [|split; [done|split; [by rewrite Hb2|split; [simpl; lia|]]]].
    + rewrite Hr2, Hr1. cbn [concat]. unfold evidence. rewrite count_app. unfold wrap_add, wrap32.
      rewrite Zplus_mod_idemp_l. f_equal. lia.
    + intros ->. simpl. by rewrite Hst.
Qed.

Lemma poll_if_due_windows now s : windows (poll_if_due now s).1 = windows s.
Proof.
  unfold poll_if_due. set (s1 := if _ && _ then _ else s).
  assert (windows s1 = windows s) as <- by (unfold s1; by case_match).
  unfold poll_due. destruct (_ <=? _); [|done]. by rewrite check_card_eq.
Qed.

(** One iteration. *)
Lemma serve_once_spec burst read_end capacity (c : CdcBurstServe D) b :
  server_ok (server c) b ->
  Forall fed_ok (default [] burst) ->
  exists c' b' o groups,
    serve_once burst read_end capacity c b = Ret (c', b', o, concat groups) /\
    server_ok (server c') b' /\ windows (server c') = windows (server c) /\
    Forall2 (byte_events (windows (server c)) (arrival_floor c))
      (take (length groups) (default [] burst)) groups /\
    (length groups <= length (default [] burst))%nat /\
    (snapshot_requested o = false -> length groups = length (default [] burst)) /\
    responses o = wrap32 (evidence (concat groups)) /\
    idle o = bool_decide (default [] burst = []) /\
    arrival_floor c' =
      if idle o || (negb (snapshot_requested o) && (length (default [] burst) <? capacity)%nat)
      then read_end else arrival_floor c.
Proof.
  intros H Hxs. unfold serve_once. destruct burst as [[|x xs]|].
  1,3: eexists _, b, _, []; split; [reflexivity|]; split; [by apply poll_if_due_ok|];
    split; [apply poll_if_due_windows|]; split_and!; try done; simpl; lia.
  cbn [default id] in *. set (l := x :: xs) in *.
  destruct (serve_bytes_spec (arrival_floor c) l (server c) b
    (with_bytes_read (length l) BurstOutcome_default) H Hxs)
    as (s' & b' & o & gs & stop & -> & H1 & Hw & Hg & Hr & Hs & Hb & Hl & Hst); [by split|done|].
  rewrite bind_ret. eexists _, b', o, gs. split; [reflexivity|]. split; [done|].
  split; [done|]. split; [done|]. split; [done|]. split; [by rewrite Hs|]. split; [exact Hr|].
  rewrite Hb, bool_decide_eq_false_2 by done. split; [done|]. cbn [idle with_bytes_read
    BurstOutcome_default orb arrival_floor]. by rewrite Hs.
Qed.

(** C22: answer or silence on a CDC transport.  Whatever a read returns, one
    iteration of the burst loop ends without a panic and within the invariant,
    and the wire sees one group of events per byte consumed: nothing, a NAK frame,
    or the exchange of a served command.  An exchange whose tick after the handler
    lies past its class window, counted from the arrival floor, leaves only the
    extensions already written; any other is written in order up to the first
    failed write, and counts as a response and as serve evidence exactly when all
    of it went out.  Bytes are left unread only behind a snapshot request, and the
    floor moves up exactly on an idle read or a short one read to its end. *)
Theorem burst_answer_or_silence burst read_end capacity (c : CdcBurstServe D) b :
  server_ok (server c) b ->
  Forall fed_ok (default [] burst) ->
  exists c' b' o groups,
    serve_once burst read_end capacity c b = Ret (c', b', o, concat groups) /\
    server_ok (server c') b' /\
    Forall2 (byte_events (windows (server c)) (arrival_floor c))
      (take (length groups) (default [] burst)) groups /\
    (length groups <= length (default [] burst))%nat /\
    (snapshot_requested o = false -> length groups = length (default [] burst)) /\
    responses o = wrap32 (evidence (concat groups)) /\
    idle o = bool_decide (default [] burst = []) /\
    arrival_floor c' =
      if idle o || (negb (snapshot_requested o) && (length (default [] burst) <? capacity)%nat)
      then read_end else arrival_floor c.
Proof.
  intros H Hxs. destruct (serve_once_spec burst read_end capacity c b H Hxs)
    as (c' & b' & o & groups & H1 & H2 & _ & H3). by exists c', b', o, groups.
Qed.
End Spec.

(** A new server is within the invariant. *)
Lemma server_new_ok {D E} `{!NfcDriver D E, !NfcDriverLaws D E} (h : CcidHandler D)
    poll w now cfg :
  esp_ok h -> server_ok (with_config h poll w now cfg) TimeExtension.boot.
Proof.
  intros Hh. constructor; simpl; try done; try (split; [done|lia]).
  unfold parser_inv. simpl. split_and!; done || lia.
Qed.

(** ** Witnesses: the server of a 100 Hz reader over the mock driver *)
Module SerialDemo.
Definition server : CcidSerialServer Mock.MockNfcDriver :=
  SerialServer.new EspDemo.active 50 (from_tick_hz 100) 0.
Definition bridge : Bridge := TimeExtension.register_writer TimeExtension.boot.
(** SELECT on the raw route, and GetSlotStatus. *)
Definition select : list Z := command PC_TO_RDR_XFR_BLOCK 0 9 (0, 0, 0) [0x00; 0xA4; 0x04; 0x00].
Definition status : list Z := command PC_TO_RDR_GET_SLOT_STATUS 0 3 (0, 0, 0) [].
Definition fed (t : Z) (c : Z) : CdcBurst.Fed := CdcBurst.mkFed c t t 0 true true true true.
End SerialDemo.

Lemma serial_demo_server_ok : server_ok SerialDemo.server SerialDemo.bridge.
Proof.
  apply (set_bridge_ok _ TimeExtension.boot); [by apply server_new_ok, esp_active_ok|].
  split; [done|apply length_replicate].
Qed.

Lemma select_message : message SerialDemo.select.
Proof. split; [solve_bytes|]. split; [vm_compute; lia|]. by eexists. Qed.

(** A list that computes to one [solve_all] settles. *)
Ltac solve_computed tac :=
  match goal with |- Forall ?P ?l =>
    let l' := eval vm_compute in l in change (Forall P l'); solve_all tac end.

(** SELECT with one stall: two frames of the hook, then the response. *)
Example serial_server_safe_witness :
  let cs := zip_with (fun c t => FeedByte c t 1) (frame_of SerialDemo.select)
              (replicate 17 5) ++ [LateResponse; OnReadIdle 60] in
  exists s' b' answers,
    run call_step (SerialDemo.server, SerialDemo.bridge) cs = Ret ((s', b'), answers) /\
    server_ok s' b' /\ Forall answer_ok answers.
Proof.
  intros cs. refine (serial_server_safe _ _ cs serial_demo_server_ok _).
  solve_computed ltac:(first [exact I | split; [unfold u8; lia|split; [unfold u32; lia|lia]]
                        | unfold call_ok, u32; lia]).
Defined.

Example serial_exchange_witness :
  exists s' b' quiets w,
    run call_step (SerialDemo.server, SerialDemo.bridge)
      (zip_with (fun c t => FeedByte c t 0) (SYNC :: CTRL_ACK :: SerialDemo.select)
         (replicate 16 5) ++
       [FeedByte (xor_all (SYNC :: CTRL_ACK :: SerialDemo.select)) 6 2]) =
      Ret ((s', b'), quiets ++ [Some (Respond, w)]) /\
    wire_bytes w =
      frame_of SerialDemo.select ++
      concat (replicate 2 (TimeExtension.build_frame 9 ICC_STATUS_PRESENT_ACTIVE)) ++
      frame_of (data_reply 0 9 ICC_STATUS_PRESENT_ACTIVE false 0 (replicate 40 0x5A)) /\
    response_deadline_tick s' = 6 + 750 * 3.
Proof.
  destruct (serial_exchange SerialDemo.server SerialDemo.bridge SerialDemo.select
    (replicate 16 5) 6 2)
    as (s' & b' & quiets & w & r & E1 & _ & _ & _ & E2 & E3 & Hw & Hf);
    [exact serial_demo_server_ok|exact select_message|reflexivity|reflexivity
    |solve_computed ltac:(unfold u32; lia)
    |cbn [nth drop app steady replicate]; repeat split; vm_compute; discriminate|lia|].
  exists s', b', quiets, w. split; [exact E1|]. split.
  - rewrite E3. vm_compute in E2. injection E2 as _ <-. reflexivity.
  - unfold response_deadline_tick. rewrite Hw, Hf. reflexivity.
Defined.

(** One extension, the answer ready one second later: expired. *)
Example answer_window_witness :
  exists s' b' frames,
    serve_command SerialDemo.select 4294967290 1
      (set_parser (Parser.mkParser WaitSync [] (frame_of SerialDemo.select) [] 0) SerialDemo.server)
      SerialDemo.bridge = Ret (s', b', frames) /\
    response_expired 94 s' = true /\ response_expired 800 s' = false /\
    response_expired 100 (refresh_host_deadline 90 s') = false.
Proof.
  set (s := set_parser _ _).
  assert (server_ok s SerialDemo.bridge) as H.
  { apply set_parser_ok; [exact serial_demo_server_ok|].
    split_and!; try done. vm_compute. lia. }
  destruct (answer_window 100 s SerialDemo.bridge SerialDemo.select 4294967290 1 100 90 100)
    as (s' & b' & frames & E1 & H1 & H2);
    [exact H|exact select_message|unfold u32; lia|reflexivity|reflexivity|lia|lia
    |unfold u32_max; lia|].
  exists s', b', frames. split; [exact E1|].
  split; [apply H1; vm_compute; by left|]. split.
  - vm_compute in E1. by injection E1 as <- _ _.
  - apply not_true_is_false. intros Hc. apply H2 in Hc. vm_compute in Hc. discriminate.
Defined.

(** Two commands in one burst: two whole exchanges. *)
Example burst_answer_or_silence_witness :
  let burst := map (SerialDemo.fed 5) (frame_of SerialDemo.status ++ frame_of SerialDemo.select) in
  exists c' b' o groups,
    CdcBurst.serve_once (Some burst) 5 64 (CdcBurst.new SerialDemo.server 0) SerialDemo.bridge =
      Ret (c', b', o, concat groups) /\
    CdcBurst.responses o = 2 /\ length groups = 30%nat /\ CdcBurst.arrival_floor c' = 5.
Proof.
  intros burst.
  destruct (burst_answer_or_silence (Some burst) 5 64 (CdcBurst.new SerialDemo.server 0)
    SerialDemo.bridge) as (c' & b' & o & groups & E1 & _ & _ & _ & Hl & _ & _ & _);
    [exact serial_demo_server_ok
    |solve_computed ltac:(split; [unfold u8; simpl; lia|split; [unfold u32; simpl; lia|simpl; lia]])|].
  exists c', b', o, groups. split; [exact E1|].
  vm_compute in E1. injection E1 as <- _ <- _. split; [reflexivity|].
  split; [by rewrite Hl|reflexivity].
Defined.
