(* ===== verification/Frontend.v ===== *)
(** * Fault isolation of the NFC front end

    [ccid-service/src/frontend.rs]: the wrapper that serves a degraded front
    end as card-absent and retries its initialisation with every presence poll
    ([RetryFrontend]), the stand-in for a controller that could not be
    constructed ([UnavailableNfcDriver]) and the choice between two front ends
    ([EitherFrontend]).  Each is an instance of the driver classes of
    [CardInterface.v] and [EspHandler.v], over any driver that is one; the
    part of the [NfcDriver] trait those classes leave out is [NfcService]. *)
From Stdlib Require Import ZArith Lia ZifyBool.
From stdpp Require Import prelude.
From S2P Require Import Prelude CardInterface EspHandler.
Local Open Scope Z_scope.

(** ** The rest of the trait ([nfc.rs]) *)
Class NfcService (D E : Type) := {
  nfc_init : D -> D * result unit E;
  nfc_init_recovering : D -> D * result unit E;
  nfc_poll_maintenance : D -> Z -> D;
  nfc_presence_poll_detects_removal : D -> bool
}.

(** ** Retrying *)
Module Retry.

Record RetryFrontend (D : Type) := mkRetry { inner : D; degraded : bool }.
Arguments mkRetry {D}.
Arguments inner {D} _.
Arguments degraded {D} _.

Definition healthy {D} (d : D) : RetryFrontend D := mkRetry d false.
Definition new_degraded {D} (d : D) : RetryFrontend D := mkRetry d true.
Definition is_degraded {D} (r : RetryFrontend D) : bool := degraded r.
Definition into_inner {D} (r : RetryFrontend D) : D := inner r.

Section Retry.
Context {D E : Type} `{!NfcDriver D E, !NfcProbes D, !FrontendDiagnostics D, !NfcService D E}.
Implicit Types r : RetryFrontend D.

Definition with_inner (d : D) r : RetryFrontend D := mkRetry d (degraded r).

Definition init r : RetryFrontend D * result unit E :=
  let '(d, result) := nfc_init_recovering (inner r) in
  (mkRetry d (negb (is_ok result)), result).

Definition poll_card_presence r : RetryFrontend D * bool :=
  let r :=
    if degraded r then
      let '(d, result) := nfc_init_recovering (inner r) in
      mkRetry d (negb (is_ok result))
    else r in
  if degraded r then (r, false)
  else
    let '(d, present) := nfc_poll_card_presence (inner r) in
    (with_inner d r, present).

(** A probe that is not made while degraded. *)
Definition gated {A} (probe : D -> D * option A) r : RetryFrontend D * option A :=
  if degraded r then (r, None)
  else let '(d, a) := probe (inner r) in (with_inner d r, a).

#[global] Instance retry_nfc : NfcDriver (RetryFrontend D) E := {
  nfc_is_card_present r := poll_card_presence r;
  nfc_poll_card_presence := poll_card_presence;
  nfc_session_active r := negb (degraded r) && nfc_session_active (inner r);
  nfc_power_on r buf :=
    let '(d, buf, result) := nfc_power_on (inner r) buf in (with_inner d r, buf, result);
  nfc_power_off r := with_inner (nfc_power_off (inner r)) r;
  nfc_transmit_apdu r command buf :=
    let '(d, buf, result) := nfc_transmit_apdu (inner r) command buf in
    (with_inner d r, buf, result);
  nfc_card_uid r := if degraded r then None else nfc_card_uid (inner r);
  nfc_reinit_count r := nfc_reinit_count (inner r);
  nfc_exchange_decomposition r :=
    if degraded r then None else nfc_exchange_decomposition (inner r)
}.

#[global] Instance retry_probes : NfcProbes (RetryFrontend D) := {
  wtx_counters r := if degraded r then None else wtx_counters (inner r);
  timer_registers r := gated timer_registers r;
  i2c_timing_probe r reads := gated (fun d => i2c_timing_probe d reads) r;
  configured_fwt_ms r := if degraded r then 0 else configured_fwt_ms (inner r)
}.

#[global] Instance retry_service : NfcService (RetryFrontend D) E := {
  nfc_init := init;
  nfc_init_recovering := init;
  nfc_poll_maintenance r now_ms := with_inner (nfc_poll_maintenance (inner r) now_ms) r;
  nfc_presence_poll_detects_removal r :=
    negb (degraded r) && nfc_presence_poll_detects_removal (inner r)
}.

Definition classify (degraded : bool) (s : FrontendStatus) : FrontendStatus :=
  match health s with
  | Unavailable => s
  | _ => mkStatus (if degraded then Degraded else Healthy) (last_error s) (init_attempts s)
           (fs_reinit_count s) (bus_errors s) (presence_polls s)
  end.

#[global] Instance retry_diagnostics : FrontendDiagnostics (RetryFrontend D) := {
  frontend_status r := classify (degraded r) (frontend_status (inner r));
  frontend_self_test r :=
    let '(d, result) := frontend_self_test (inner r) in (with_inner d r, result)
}.
End Retry.

End Retry.

(** ** The stand-in *)
Module Unavail.

Inductive UnavailableNfcDriver := mkUnavailable.
Implicit Types d : UnavailableNfcDriver.

#[global] Instance unavailable_nfc : NfcDriver UnavailableNfcDriver NfcError := {
  nfc_is_card_present d := (d, false);
  nfc_poll_card_presence d := (d, false);
  nfc_session_active _ := false;
  nfc_power_on d buf := (d, buf, Err NotInitialized);
  nfc_power_off d := d;
  nfc_transmit_apdu d _ buf := (d, buf, Err NotInitialized);
  nfc_card_uid _ := None;
  nfc_reinit_count _ := 0;
  nfc_exchange_decomposition _ := None
}.

(** The trait's defaults. *)
#[global] Instance unavailable_probes : NfcProbes UnavailableNfcDriver := {
  wtx_counters _ := None;
  timer_registers d := (d, None);
  i2c_timing_probe d _ := (d, None);
  configured_fwt_ms _ := 0
}.

#[global] Instance unavailable_service : NfcService UnavailableNfcDriver NfcError := {
  nfc_init d := (d, Err NotInitialized);
  nfc_init_recovering d := (d, Err NotInitialized);
  nfc_poll_maintenance d _ := d;
  nfc_presence_poll_detects_removal _ := false
}.

#[global] Instance unavailable_diagnostics : FrontendDiagnostics UnavailableNfcDriver := {
  frontend_status _ := mkStatus Unavailable FNotInitialized 0 0 0 0;
  frontend_self_test d := (d, Err FNotInitialized)
}.
End Unavail.

(** ** One of two *)
Module Either.

Inductive EitherFrontend (A B : Type) :=
| Primary (d : A)
| Fallback (d : B).
Arguments Primary {A B} d.
Arguments Fallback {A B} d.

Section Either.
Context {A B E : Type} `{!NfcDriver A E, !NfcProbes A, !FrontendDiagnostics A, !NfcService A E}.
Context `{!NfcDriver B E, !NfcProbes B, !FrontendDiagnostics B, !NfcService B E}.
Implicit Types e : EitherFrontend A B.

(** [match self { Self::Primary(d) => ..., Self::Fallback(d) => ... }], for
    methods that read, that answer, that change and that fill a buffer. *)
Definition reads {R} (fa : A -> R) (fb : B -> R) e : R :=
  match e with Primary d => fa d | Fallback d => fb d end.
Definition answers {R} (fa : A -> A * R) (fb : B -> B * R) e : EitherFrontend A B * R :=
  match e with
  | Primary d => let '(d, r) := fa d in (Primary d, r)
  | Fallback d => let '(d, r) := fb d in (Fallback d, r)
  end.
Definition changes (fa : A -> A) (fb : B -> B) e : EitherFrontend A B :=
  match e with Primary d => Primary (fa d) | Fallback d => Fallback (fb d) end.
Definition fills (fa : A -> filled A E) (fb : B -> filled B E) e : filled (EitherFrontend A B) E :=
  match e with
  | Primary d => let '(d, buf, r) := fa d in (Primary d, buf, r)
  | Fallback d => let '(d, buf, r) := fb d in (Fallback d, buf, r)
  end.

#[global] Instance either_nfc : NfcDriver (EitherFrontend A B) E := {
  nfc_is_card_present := answers nfc_is_card_present nfc_is_card_present;
  nfc_poll_card_presence := answers nfc_poll_card_presence nfc_poll_card_presence;
  nfc_session_active := reads nfc_session_active nfc_session_active;
  nfc_power_on e buf := fills (fun d => nfc_power_on d buf) (fun d => nfc_power_on d buf) e;
  nfc_power_off := changes nfc_power_off nfc_power_off;
  nfc_transmit_apdu e command buf :=
    fills (fun d => nfc_transmit_apdu d command buf) (fun d => nfc_transmit_apdu d command buf) e;
  nfc_card_uid := reads nfc_card_uid nfc_card_uid;
  nfc_reinit_count := reads nfc_reinit_count nfc_reinit_count;
  nfc_exchange_decomposition := reads nfc_exchange_decomposition nfc_exchange_decomposition
}.

#[global] Instance either_probes : NfcProbes (EitherFrontend A B) := {
  wtx_counters := reads wtx_counters wtx_counters;
  timer_registers := answers timer_registers timer_registers;
  i2c_timing_probe e n := answers (fun d => i2c_timing_probe d n) (fun d => i2c_timing_probe d n) e;
  configured_fwt_ms := reads configured_fwt_ms configured_fwt_ms
}.

#[global] Instance either_service : NfcService (EitherFrontend A B) E := {
  nfc_init := answers nfc_init nfc_init;
  (* the trait's default *)
  nfc_init_recovering := answers nfc_init nfc_init;
  nfc_poll_maintenance e now :=
    changes (fun d => nfc_poll_maintenance d now) (fun d => nfc_poll_maintenance d now) e;
  nfc_presence_poll_detects_removal :=
    reads nfc_presence_poll_detects_removal nfc_presence_poll_detects_removal
}.

#[global] Instance either_diagnostics : FrontendDiagnostics (EitherFrontend A B) := {
  frontend_status := reads frontend_status frontend_status;
  frontend_self_test := answers frontend_self_test frontend_self_test
}.
End Either.

End Either.
