(* ===== verification/FrontendSpec.v ===== *)
(** * Fault isolation of the NFC front end: laws

    About [Frontend.v]: the retrying wrapper, the stand-in and the choice keep
    the contract of the driver classes, over any driver that does; so the
    theorems about the handler and the serial server hold of the production
    stack.  What a degraded front end shows of its driver. *)
From Stdlib Require Import ZArith Lia ZifyBool.
From stdpp Require Import prelude.
From S2P Require Import Prelude Diag CardInterface EspHandler EspSpec Frontend.
Local Open Scope Z_scope.

(** The rest of the trait keeps the driver's invariant too. *)
Class NfcServiceLaws (D E : Type) `{!NfcDriver D E, !NfcDriverLaws D E, !NfcService D E} := {
  nfc_init_ok (d : D) : nfc_ok d -> nfc_ok (nfc_init d).1;
  nfc_init_recovering_ok (d : D) : nfc_ok d -> nfc_ok (nfc_init_recovering d).1;
  nfc_poll_maintenance_ok (d : D) now : nfc_ok d -> nfc_ok (nfc_poll_maintenance d now)
}.

(** ** The retrying wrapper *)
Section RetryLaws.
Context {D E : Type} `{!NfcDriver D E, !NfcDriverLaws D E, !NfcProbes D, !NfcProbesLaws D E,
  !FrontendDiagnostics D, !NfcService D E, !NfcServiceLaws D E}.
Implicit Types r : Retry.RetryFrontend D.

Definition retry_ok r : Prop := nfc_ok (Retry.inner r).

Lemma retry_init_ok r : retry_ok r -> retry_ok (Retry.init r).1.
Proof.
  intros Hr. unfold Retry.init. pose proof (nfc_init_recovering_ok _ Hr) as H.
  by destruct (nfc_init_recovering (Retry.inner r)).
Qed.

Lemma retry_poll_ok r : retry_ok r -> retry_ok (Retry.poll_card_presence r).1.
Proof.
  intros Hr. unfold Retry.poll_card_presence.
  set (r1 := if Retry.degraded r then _ else r).
  assert (retry_ok r1) as H1.
  { unfold r1. destruct (Retry.degraded r); [|done].
    pose proof (nfc_init_recovering_ok _ Hr) as H. by destruct (nfc_init_recovering (Retry.inner r)). }
  clearbody r1. destruct (Retry.degraded r1); [done|].
  pose proof (nfc_poll_ok _ H1) as H2. by destruct (nfc_poll_card_presence (Retry.inner r1)).
Qed.

#[export] Instance retry_laws : NfcDriverLaws (Retry.RetryFrontend D) E.
Proof.
  refine {| nfc_ok := retry_ok |}.
  - intros r buf Hr. pose proof (nfc_power_on_fills _ buf Hr) as H. cbn [nfc_power_on Retry.retry_nfc].
    by destruct (nfc_power_on (Retry.inner r) buf) as [[d b] res].
  - intros r cmd buf Hr. pose proof (nfc_transmit_fills _ cmd buf Hr) as H.
    cbn [nfc_transmit_apdu Retry.retry_nfc].
    by destruct (nfc_transmit_apdu (Retry.inner r) cmd buf) as [[d b] res].
  - intros r Hr. exact (nfc_power_off_ok _ Hr).
  - apply retry_poll_ok.
  - apply retry_poll_ok.
  - intros r u Hr. cbn [nfc_card_uid Retry.retry_nfc]. destruct (Retry.degraded r); [done|].
    exact (nfc_card_uid_ok _ u Hr).
  - intros r Hr. exact (nfc_reinit_count_ok _ Hr).
Defined.

Lemma gated_ok {A} (probe : D -> D * option A) r : retry_ok r ->
  (nfc_ok (Retry.inner r) -> nfc_ok (probe (Retry.inner r)).1) -> retry_ok (Retry.gated probe r).1.
Proof.
  intros Hr H. unfold Retry.gated. destruct (Retry.degraded r); [done|].
  specialize (H Hr). by destruct (probe (Retry.inner r)).
Qed.

#[export] Instance retry_probes_laws : NfcProbesLaws (Retry.RetryFrontend D) E.
Proof.
  split.
  - intros r Hr. pose proof (timer_registers_ok (Retry.inner r) Hr) as [H1 H2]. split.
    + by apply (gated_ok timer_registers).
    + cbn [timer_registers Retry.retry_probes]. unfold Retry.gated.
      destruct (Retry.degraded r); [done|].
      by destruct (timer_registers (Retry.inner r)).
  - intros r n Hr. apply (gated_ok (fun d => i2c_timing_probe d n)); [done|].
    apply i2c_timing_probe_ok.
Qed.

#[export] Instance retry_service_laws : NfcServiceLaws (Retry.RetryFrontend D) E.
Proof.
  split; [apply retry_init_ok|apply retry_init_ok|].
  intros r now Hr. exact (nfc_poll_maintenance_ok (Retry.inner r) now Hr).
Qed.
End RetryLaws.

(** ** The stand-in *)
#[export] Instance unavailable_laws : NfcDriverLaws Unavail.UnavailableNfcDriver NfcError.
Proof.
  refine {| nfc_ok := fun _ => True |}; try done.
Defined.
#[export] Instance unavailable_probes_laws : NfcProbesLaws Unavail.UnavailableNfcDriver NfcError.
Proof. by split. Qed.
#[export] Instance unavailable_service_laws : NfcServiceLaws Unavail.UnavailableNfcDriver NfcError.
Proof. by split. Qed.

(** ** One of two *)
Section EitherLaws.
Context {A B E : Type} `{!NfcDriver A E, !NfcDriverLaws A E, !NfcProbes A, !NfcProbesLaws A E,
  !FrontendDiagnostics A, !NfcService A E, !NfcServiceLaws A E}.
Context `{!NfcDriver B E, !NfcDriverLaws B E, !NfcProbes B, !NfcProbesLaws B E,
  !FrontendDiagnostics B, !NfcService B E, !NfcServiceLaws B E}.
Implicit Types e : Either.EitherFrontend A B.

Definition either_ok e : Prop :=
  match e with Either.Primary d => nfc_ok d | Either.Fallback d => nfc_ok d end.

Lemma answers_ok {R} (fa : A -> A * R) (fb : B -> B * R) e : either_ok e ->
  (forall d, nfc_ok d -> nfc_ok (fa d).1) -> (forall d, nfc_ok d -> nfc_ok (fb d).1) ->
  either_ok (Either.answers fa fb e).1.
Proof.
  intros He Ha Hb. destruct e as [d|d]; cbn [Either.answers].
  - specialize (Ha d He). by destruct (fa d).
  - specialize (Hb d He). by destruct (fb d).
Qed.

Lemma fills_ok (fa : A -> filled A E) (fb : B -> filled B E) buf e : either_ok e ->
  (forall d, nfc_ok d -> fills nfc_ok buf (fa d)) ->
  (forall d, nfc_ok d -> fills nfc_ok buf (fb d)) -> fills either_ok buf (Either.fills fa fb e).
Proof.
  intros He Ha Hb. destruct e as [d|d]; cbn [Either.fills].
  - specialize (Ha d He). by destruct (fa d) as [[]].
  - specialize (Hb d He). by destruct (fb d) as [[]].
Qed.

#[export] Instance either_laws : NfcDriverLaws (Either.EitherFrontend A B) E.
Proof.
  refine {| nfc_ok := either_ok |}.
  - intros e buf He. apply fills_ok; [done|intros; by apply nfc_power_on_fills..].
  - intros e cmd buf He. apply fills_ok; [done|intros; by apply nfc_transmit_fills..].
  - intros [d|d] He; exact (nfc_power_off_ok d He).
  - intros e He. apply answers_ok; [done|apply nfc_is_card_present_ok..].
  - intros e He. apply answers_ok; [done|apply nfc_poll_ok..].
  - intros [d|d] u He; exact (nfc_card_uid_ok d u He).
  - intros [d|d] He; exact (nfc_reinit_count_ok d He).
Defined.

#[export] Instance either_probes_laws : NfcProbesLaws (Either.EitherFrontend A B) E.
Proof.
  split.
  - intros e He. split; [apply answers_ok; [done|apply timer_registers_ok..]|].
    destruct e as [d|d]; cbn [timer_registers Either.either_probes Either.answers];
      destruct (timer_registers_ok d He) as [_ H]; by destruct (timer_registers d).
  - intros e n He. apply answers_ok; [done|intros; by apply i2c_timing_probe_ok..].
Qed.

#[export] Instance either_service_laws : NfcServiceLaws (Either.EitherFrontend A B) E.
Proof.
  split.
  - intros e He. apply answers_ok; [done|apply nfc_init_ok..].
  - intros e He. apply answers_ok; [done|apply nfc_init_ok..].
  - intros [d|d] now He; exact (nfc_poll_maintenance_ok d now He).
Qed.
End EitherLaws.
