(* ===== verification/Mfrc522.v ===== *)
(** * The MFRC522 front end

    [mfrc522-pcd/src/lib.rs] (module [Pcd]): the register sequences over the
    controller, among them the choice of the timer's prescaler and reload
    value; [esp32-ccid/src/mfrc522_driver.rs] (module [Mfrc522]): the card's
    life cycle, the failure counters, activation, sessions and the counted
    exchange; and the bring-up of [board_ctor.rs].  The controller crate, the
    ISO-DEP crate and the platform's delay and clock are classes: their code is
    not in the repository.  Log lines are left out.  The theorems are in
    [Mfrc522Spec.v]. *)
From Stdlib Require Import ZArith Lia ZifyBool.
From stdpp Require Import prelude.
From S2P Require Import Prelude Atr Diag CardInterface EspHandler Frontend.
Local Open Scope Z_scope.

(** A fallible call on a world [T], and [?]. *)
Definition fallible (T A E : Type) : Type := T * result A E.
Definition rbind {T A B E} (m : fallible T A E) (k : T -> A -> fallible T B E) : fallible T B E :=
  match m.2 with Ok a => k m.1 a | Err e => (m.1, Err e) end.
Definition map_err {T A E E'} (f : E -> E') (m : fallible T A E) : fallible T A E' :=
  (m.1, match m.2 with Ok a => Ok a | Err e => Err (f e) end).
Notation "'let?' t , x := m 'in' k" := (rbind m (fun t x => k))
  (at level 10, t name, x pattern, m at level 100, k at level 200).

Module Pcd.

Inductive Mfrc522Error (C : Type) :=
| Comm (e : C)
| Timeout
| Protocol
| BufferOverflow
| NoRoom
| Bcc | Collision | Crc | IncompleteFrame | Overheating | Parity | Wr | Nak | Proprietary.
Arguments Comm {C}. Arguments Timeout {C}. Arguments Protocol {C}. Arguments BufferOverflow {C}.
Arguments NoRoom {C}. Arguments Bcc {C}. Arguments Collision {C}. Arguments Crc {C}.
Arguments IncompleteFrame {C}. Arguments Overheating {C}. Arguments Parity {C}. Arguments Wr {C}.
Arguments Nak {C}. Arguments Proprietary {C}.

Inductive Register :=
| CommandReg | TxModeReg | RxModeReg | ModWidthReg | TxASKReg | ModeReg | TxControlReg
| FIFOLevelReg | TModeReg | TPrescalerReg | TReloadRegHigh | TReloadRegLow | CollReg
| ComIrqReg | ErrorReg.

Record FifoData := mkFifo { valid_bytes : nat; valid_bits : Z; buffer : list Z }.

(** The controller crate. *)
Class Mfrc522Chip (T C : Type) := {
  chip_init : T -> Z -> fallible T unit (Mfrc522Error C);
  set_antenna_gain : T -> fallible T unit (Mfrc522Error C);
  version : T -> fallible T Z (Mfrc522Error C);
  write_register : T -> Register -> Z -> fallible T unit (Mfrc522Error C);
  read_register : T -> Register -> fallible T Z (Mfrc522Error C);
  rmw_register : T -> Register -> (Z -> Z) -> fallible T unit (Mfrc522Error C);
  wupa : T -> fallible T unit (Mfrc522Error C);
  chip_transceive : T -> nat -> list Z -> Z -> Z -> fallible T FifoData (Mfrc522Error C)
}.

(** A frame of the ISO-DEP crate. *)
Inductive Frame :=
| Short (data : list Z)
| BitOriented (data : list Z)
| Standard (data : list Z).
Definition data (f : Frame) : list Z :=
  match f with Short d | BitOriented d | Standard d => d end.

Class PcdTransceiver (X E : Type) := {
  transceive : X -> Frame -> fallible X (list Z) E;
  try_enable_hw_crc : X -> fallible X unit E;
  try_set_timeout_ms : X -> Z -> fallible X unit unit
}.

Definition VERSION_REG_EXPECTED : list Z := [0x91; 0x92].
Definition version_expected (v : Z) : bool := existsb (Z.eqb v) VERSION_REG_EXPECTED.
Definition FIELD_OFF_DWELL_MS : Z := 50.
Definition FIELD_ON_SETTLE_MS : Z := 5.
(** [FnDelay]: nanoseconds up to whole milliseconds. *)
Definition fn_delay_ms (ns : Z) : Z := div_ceil ns 1000000.

Inductive Error (C : Type) :=
| Communication (e : C) | ETimeout | EProtocol | EBufferOverflow.
Arguments Communication {C}. Arguments ETimeout {C}. Arguments EProtocol {C}.
Arguments EBufferOverflow {C}.
Definition Error_from {C} (e : Mfrc522Error C) : Error C :=
  match e with
  | Comm inner => Communication inner
  | Timeout => ETimeout
  | Protocol => EProtocol
  | BufferOverflow | NoRoom => EBufferOverflow
  | _ => EProtocol
  end.

Definition SOFT_RESET_MAX_POLLS : nat := 1024.
Definition TIMER_INPUT_HZ : Z := 13560000.
Definition TIMER_MIN_DIVISOR : Z := 2 * 0xA9 + 1.
Definition TIMER_MAX_DIVISOR : Z := 2 * 4095 + 1.

(** The divisor for a timeout and the reload value for it.  [u32], the product
    saturating, then [u64]. *)
Definition timer_divisor (ms : Z) : Z :=
  let min_div := Z.min (Z.min (ms * 904) u32_max + 4368) u32_max / 4369 in
  let div := Z.max min_div TIMER_MIN_DIVISOR in
  if div mod 2 =? 0 then div + 1 else div.
Definition timer_reload (ms div : Z) : Z :=
  wrap32 ((ms * TIMER_INPUT_HZ + div * 1000 - 1) / (div * 1000)).

Section Pcd.
Context {T C : Type} `{!Mfrc522Chip T C}.
Implicit Types t : T.

Definition from_i2c t (address : Z) : fallible T unit (Mfrc522Error C) :=
  let? t, _ := chip_init t address in set_antenna_gain t.

(** The version is the answer. *)
Definition bring_up t (i2c_addr : Z) : fallible T Z (Mfrc522Error C) :=
  let? t, _ := chip_init t i2c_addr in
  let? t, _ := set_antenna_gain t in
  let? t, v := version t in
  (t, if version_expected v then Ok v else Err Nak).

Definition self_test t : fallible T Z (Mfrc522Error C) :=
  let? t, v := version t in
  (t, if version_expected v then Ok v else Err Nak).

Fixpoint soft_reset_polls (n : nat) t : fallible T unit (Mfrc522Error C) :=
  match n with
  | O => (t, Err Timeout)
  | S n =>
      let? t, v := read_register t CommandReg in
      if Z.land v 0x10 =? 0 then (t, Ok tt) else soft_reset_polls n t
  end.
Definition soft_reset t : fallible T unit (Mfrc522Error C) :=
  let? t, _ := write_register t CommandReg 0x0F in
  soft_reset_polls SOFT_RESET_MAX_POLLS t.

Definition reset_frontend t : fallible T unit (Mfrc522Error C) :=
  let? t, _ := write_register t TxModeReg 0x00 in
  let? t, _ := write_register t RxModeReg 0x00 in
  let? t, _ := write_register t ModWidthReg 0x26 in
  let? t, _ := write_register t TxASKReg 0x40 in
  write_register t ModeReg (Z.lor (Z.land 0x3F 0xFC) 0x01).

Fixpoint flush_fifo (n : nat) t : fallible T unit (Mfrc522Error C) :=
  match n with
  | O => (t, Ok tt)
  | S n => let? t, _ := write_register t FIFOLevelReg 0x80 in flush_fifo n t
  end.

(** [!0b11] on a byte. *)
Definition field_off (b : Z) : Z := Z.land b 0xFC.
Definition field_on (b : Z) : Z := Z.lor b 0x03.

Definition prepare_for_activation_with_delays (delay : T -> Z -> T) t : fallible T unit (Mfrc522Error C) :=
  let? t, _ := soft_reset t in
  let? t, _ := reset_frontend t in
  let? t, _ := rmw_register t TxControlReg field_off in
  let t := delay t FIELD_OFF_DWELL_MS in
  let? t, _ := flush_fifo 4 t in
  let? t, _ := rmw_register t TxControlReg field_on in
  let t := delay t FIELD_ON_SETTLE_MS in
  set_antenna_gain t.
Definition prepare_for_activation t : fallible T unit (Mfrc522Error C) :=
  prepare_for_activation_with_delays (fun t _ => t) t.

Definition set_timeout_ms t (ms : Z) : fallible T unit (Mfrc522Error C) :=
  let div := timer_divisor ms in
  if TIMER_MAX_DIVISOR <? div then (t, Err Timeout)
  else
    let prescaler := (div - 1) / 2 in
    let reload := timer_reload ms div in
    let? t, _ := write_register t TModeReg
                   (Z.lor 0x80 (Z.land (wrap8 (Z.shiftr prescaler 8)) 0x0F)) in
    let? t, _ := write_register t TPrescalerReg (wrap8 prescaler) in
    let? t, _ := write_register t TReloadRegHigh (wrap8 (Z.shiftr reload 8)) in
    write_register t TReloadRegLow (wrap8 reload).

Definition timer_registers t : fallible T (list Z) (Mfrc522Error C) :=
  let? t, a := read_register t TModeReg in
  let? t, b := read_register t TPrescalerReg in
  let? t, c := read_register t TReloadRegHigh in
  let? t, d := read_register t TReloadRegLow in
  (t, Ok [a; b; c; d]).

Definition enable_hw_crc t : fallible T unit (Mfrc522Error C) :=
  let? t, _ := rmw_register t TxModeReg (fun v => Z.lor v 0x80) in
  rmw_register t RxModeReg (fun v => Z.lor v 0x80).

(** What is left of the FIFO after an exchange. *)
Definition fifo_response (fifo : FifoData) : result (list Z) (Mfrc522Error C) :=
  if negb (valid_bits fifo =? 0) then Err Protocol
  else Ok (take (valid_bytes fifo `min` length (buffer fifo)) (buffer fifo)).

(** The registers [log_crc_error] reads. *)
Definition log_crc_error t : T :=
  let t := (read_register t ComIrqReg).1 in
  let t := (read_register t ErrorReg).1 in
  (read_register t FIFOLevelReg).1.

Definition pcd_transceive t (frame : Frame) : fallible T (list Z) (Mfrc522Error C) :=
  let? t, _ := rmw_register t CollReg (fun v => Z.land v 0x7F) in
  match frame with
  | Short d => let? t, fifo := chip_transceive t 2 d 7 0 in (t, fifo_response fifo)
  | BitOriented d =>
      let tx_last_bits := Z.land (nth 1 d 0) 0x07 in
      let? t, fifo := chip_transceive t 5 d tx_last_bits tx_last_bits in (t, fifo_response fifo)
  | Standard d =>
      let '(t, r) := chip_transceive t 64 d 0 0 in
      match r with
      | Ok fifo => (t, fifo_response fifo)
      | Err Crc => (log_crc_error t, Err Crc)
      | Err e => (t, Err e)
      end
  end.

#[global] Instance pcd_transceiver : PcdTransceiver T (Mfrc522Error C) := {
  transceive := pcd_transceive;
  try_enable_hw_crc t := (t, Err Protocol);
  try_set_timeout_ms t ms := map_err (fun _ => tt) (set_timeout_ms t ms)
}.
End Pcd.

End Pcd.

(** ** The ISO-DEP crate, the delay and the clock *)
(** What the driver reads of an ATS. *)
Record Ats := mkAts {
  historical_bytes : list Z;
  sfgt_us : Z;
  fsc : Z;
  fwi : Z
}.
Record Activation := mkActivation { act_uid : list Z; iso14443_4_compliant : bool }.

(** Sessions [S], generic over the transceiver they are driven through. *)
Class IsoDep (S : Type) := {
  wakeup : forall {X E} `{!Pcd.PcdTransceiver X E}, X -> fallible X Activation unit;
  from_connect : forall {X E} `{!Pcd.PcdTransceiver X E}, X -> fallible X Ats unit;
  from_ats : Ats -> S;
  set_limits : S -> S;
  set_fsc : S -> Z -> S;
  set_base_fwt_ms : S -> Z -> S;
  deselect : forall {X E} `{!Pcd.PcdTransceiver X E}, S -> X -> X;
  exchange : forall {X E} `{!Pcd.PcdTransceiver X E}, S -> X -> list Z -> S * fallible X (list Z) unit
}.

Class Platform (T : Type) := {
  delay_ms : T -> Z -> T;
  now_us : T -> T * Z
}.

Module Mfrc522.

Definition REINIT_THRESHOLD : Z := 3.
Definition CARD_ABSENT_THRESHOLD : Z := 3.

(** *** The failure tracker *)
Record InitRecoveryTracker := mkTracker { tr_consecutive_failures : Z; tr_reinit_count : Z }.
Definition tracker_new : InitRecoveryTracker := mkTracker 0 0.
Definition record_success (k : InitRecoveryTracker) : InitRecoveryTracker :=
  mkTracker 0 (tr_reinit_count k).
Definition record_failure (k : InitRecoveryTracker) : InitRecoveryTracker * bool :=
  let failures := Z.min (tr_consecutive_failures k + 1) u8_max in
  if REINIT_THRESHOLD <=? failures
  then (mkTracker 0 (sat_add32 (tr_reinit_count k) 1), true)
  else (mkTracker failures (tr_reinit_count k), false).

(** *** The counted transceiver *)
Record CountingTransceiver (T : Type) := mkCounting {
  inner : T;
  blocks : Z;
  wtx_replies : Z;
  recoveries : Z;
  max_transceive_us : Z
}.
Arguments mkCounting {T}. Arguments inner {T} _. Arguments blocks {T} _.
Arguments wtx_replies {T} _. Arguments recoveries {T} _. Arguments max_transceive_us {T} _.

Section Counting.
Context {T C : Type} `{!Pcd.Mfrc522Chip T C, !Platform T}.
Implicit Types c : CountingTransceiver T.

Definition counting_transceive c (frame : Pcd.Frame) :
    fallible (CountingTransceiver T) (list Z) (Pcd.Mfrc522Error C) :=
  let '(t, started_us) := now_us (inner c) in
  let '(t, result) := Pcd.pcd_transceive t frame in
  let '(t, ended_us) := now_us t in
  let took_us := clamp (ended_us - started_us) 0 u32_max in
  let kind := match Pcd.data frame with pcb :: _ => Turnaround.from_pcb pcb | [] => None end in
  let '(w, r) :=
    match kind with
    | Some Turnaround.SBlock => (sat_add32 (wtx_replies c) 1, recoveries c)
    | Some Turnaround.RBlock => (wtx_replies c, sat_add32 (recoveries c) 1)
    | _ => (wtx_replies c, recoveries c)
    end in
  (mkCounting t (sat_add32 (blocks c) 1) w r (Z.max (max_transceive_us c) took_us), result).

Definition with_inner (t : T) c : CountingTransceiver T :=
  mkCounting t (blocks c) (wtx_replies c) (recoveries c) (max_transceive_us c).

#[global] Instance counting_transceiver : Pcd.PcdTransceiver (CountingTransceiver T) (Pcd.Mfrc522Error C) := {
  Pcd.transceive := counting_transceive;
  Pcd.try_enable_hw_crc c := (c, Err Pcd.Protocol);
  Pcd.try_set_timeout_ms c ms :=
    let '(t, r) := Pcd.try_set_timeout_ms (inner c) ms in (with_inner t c, r)
}.
End Counting.

(** *** The driver *)
Inductive CardLifecycle := LNoCard | LPresentInactive | LActiveSession.
#[global] Instance CardLifecycle_eq_dec : EqDecision CardLifecycle.
Proof. solve_decision. Defined.

Record Mfrc522NfcDriver (T S : Type) := mkDriver {
  transceiver : T;
  is_initialized : bool;
  lifecycle : CardLifecycle;
  session : option S;
  cached_ats : option Ats;
  consecutive_failures : Z;
  init_tracker : InitRecoveryTracker;
  cached_uid : list Z; (* [u8; 10] *)
  cached_uid_len : nat;
  last_exchange : option (Z * Z * Z * Z);
  cfg_fwt_ms : Z;
  diag_init_attempts : Z;
  diag_presence_polls : Z;
  diag_bus_errors : Z;
  diag_last_error : option NfcError
}.
Arguments mkDriver {T S}.
Arguments transceiver {T S} _.
Arguments is_initialized {T S} _.
Arguments lifecycle {T S} _.
Arguments session {T S} _.
Arguments cached_ats {T S} _.
Arguments consecutive_failures {T S} _.
Arguments init_tracker {T S} _.
Arguments cached_uid {T S} _.
Arguments cached_uid_len {T S} _.
Arguments last_exchange {T S} _.
Arguments cfg_fwt_ms {T S} _.
Arguments diag_init_attempts {T S} _.
Arguments diag_presence_polls {T S} _.
Arguments diag_bus_errors {T S} _.
Arguments diag_last_error {T S} _.

Section Setters.
Context {T S : Type}.
Implicit Types d : Mfrc522NfcDriver T S.
Definition with_transceiver v_transceiver d : Mfrc522NfcDriver T S := mkDriver v_transceiver
  (is_initialized d) (lifecycle d) (session d) (cached_ats d) (consecutive_failures d)
  (init_tracker d) (cached_uid d) (cached_uid_len d) (last_exchange d) (cfg_fwt_ms d)
  (diag_init_attempts d) (diag_presence_polls d) (diag_bus_errors d) (diag_last_error d).
Definition with_initialized v_is_initialized d : Mfrc522NfcDriver T S := mkDriver (transceiver d)
  v_is_initialized (lifecycle d) (session d) (cached_ats d) (consecutive_failures d) (init_tracker
  d) (cached_uid d) (cached_uid_len d) (last_exchange d) (cfg_fwt_ms d) (diag_init_attempts d)
  (diag_presence_polls d) (diag_bus_errors d) (diag_last_error d).
Definition with_lifecycle v_lifecycle d : Mfrc522NfcDriver T S := mkDriver (transceiver d)
  (is_initialized d) v_lifecycle (session d) (cached_ats d) (consecutive_failures d) (init_tracker
  d) (cached_uid d) (cached_uid_len d) (last_exchange d) (cfg_fwt_ms d) (diag_init_attempts d)
  (diag_presence_polls d) (diag_bus_errors d) (diag_last_error d).
Definition with_session v_session d : Mfrc522NfcDriver T S := mkDriver (transceiver d)
  (is_initialized d) (lifecycle d) v_session (cached_ats d) (consecutive_failures d) (init_tracker
  d) (cached_uid d) (cached_uid_len d) (last_exchange d) (cfg_fwt_ms d) (diag_init_attempts d)
  (diag_presence_polls d) (diag_bus_errors d) (diag_last_error d).
Definition with_ats v_cached_ats d : Mfrc522NfcDriver T S := mkDriver (transceiver d)
  (is_initialized d) (lifecycle d) (session d) v_cached_ats (consecutive_failures d) (init_tracker
  d) (cached_uid d) (cached_uid_len d) (last_exchange d) (cfg_fwt_ms d) (diag_init_attempts d)
  (diag_presence_polls d) (diag_bus_errors d) (diag_last_error d).
Definition with_failures v_consecutive_failures d : Mfrc522NfcDriver T S := mkDriver (transceiver
  d) (is_initialized d) (lifecycle d) (session d) (cached_ats d) v_consecutive_failures
  (init_tracker d) (cached_uid d) (cached_uid_len d) (last_exchange d) (cfg_fwt_ms d)
  (diag_init_attempts d) (diag_presence_polls d) (diag_bus_errors d) (diag_last_error d).
Definition with_tracker v_init_tracker d : Mfrc522NfcDriver T S := mkDriver (transceiver d)
  (is_initialized d) (lifecycle d) (session d) (cached_ats d) (consecutive_failures d)
  v_init_tracker (cached_uid d) (cached_uid_len d) (last_exchange d) (cfg_fwt_ms d)
  (diag_init_attempts d) (diag_presence_polls d) (diag_bus_errors d) (diag_last_error d).
Definition with_uid v_cached_uid v_cached_uid_len d : Mfrc522NfcDriver T S := mkDriver
  (transceiver d) (is_initialized d) (lifecycle d) (session d) (cached_ats d)
  (consecutive_failures d) (init_tracker d) v_cached_uid v_cached_uid_len (last_exchange d)
  (cfg_fwt_ms d) (diag_init_attempts d) (diag_presence_polls d) (diag_bus_errors d)
  (diag_last_error d).
Definition with_last_exchange v_last_exchange d : Mfrc522NfcDriver T S := mkDriver (transceiver d)
  (is_initialized d) (lifecycle d) (session d) (cached_ats d) (consecutive_failures d)
  (init_tracker d) (cached_uid d) (cached_uid_len d) v_last_exchange (cfg_fwt_ms d)
  (diag_init_attempts d) (diag_presence_polls d) (diag_bus_errors d) (diag_last_error d).
Definition with_fwt v_cfg_fwt_ms d : Mfrc522NfcDriver T S := mkDriver (transceiver d)
  (is_initialized d) (lifecycle d) (session d) (cached_ats d) (consecutive_failures d)
  (init_tracker d) (cached_uid d) (cached_uid_len d) (last_exchange d) v_cfg_fwt_ms
  (diag_init_attempts d) (diag_presence_polls d) (diag_bus_errors d) (diag_last_error d).
Definition with_attempts v_diag_init_attempts d : Mfrc522NfcDriver T S := mkDriver (transceiver d)
  (is_initialized d) (lifecycle d) (session d) (cached_ats d) (consecutive_failures d)
  (init_tracker d) (cached_uid d) (cached_uid_len d) (last_exchange d) (cfg_fwt_ms d)
  v_diag_init_attempts (diag_presence_polls d) (diag_bus_errors d) (diag_last_error d).
Definition with_presence_polls v_diag_presence_polls d : Mfrc522NfcDriver T S := mkDriver
  (transceiver d) (is_initialized d) (lifecycle d) (session d) (cached_ats d)
  (consecutive_failures d) (init_tracker d) (cached_uid d) (cached_uid_len d) (last_exchange d)
  (cfg_fwt_ms d) (diag_init_attempts d) v_diag_presence_polls (diag_bus_errors d) (diag_last_error
  d).
Definition with_bus_errors v_diag_bus_errors d : Mfrc522NfcDriver T S := mkDriver (transceiver d)
  (is_initialized d) (lifecycle d) (session d) (cached_ats d) (consecutive_failures d)
  (init_tracker d) (cached_uid d) (cached_uid_len d) (last_exchange d) (cfg_fwt_ms d)
  (diag_init_attempts d) (diag_presence_polls d) v_diag_bus_errors (diag_last_error d).
Definition with_last_error v_diag_last_error d : Mfrc522NfcDriver T S := mkDriver (transceiver d)
  (is_initialized d) (lifecycle d) (session d) (cached_ats d) (consecutive_failures d)
  (init_tracker d) (cached_uid d) (cached_uid_len d) (last_exchange d) (cfg_fwt_ms d)
  (diag_init_attempts d) (diag_presence_polls d) (diag_bus_errors d) v_diag_last_error.
End Setters.

(** The synthetic ATR around the historical bytes. *)
Definition pcsc_atr (historical : list Z) : list Z :=
  let atr := [0x3B; Z.lor 0x80 (Z.land (wrap8 (Z.of_nat (length historical))) 0x0F); 0x81; 0x31;
              0xFE; t1_tb3 4 5] ++ historical in
  atr ++ [xor_all (drop 1 atr)].
Definition build_pcsc_atr_from_historical (historical atr_buf : list Z) :
    list Z * result nat NfcError :=
  let atr_len := (7 + length historical)%nat in
  if (length atr_buf <? atr_len)%nat then (atr_buf, Err BufferOverflow)
  else (pcsc_atr historical ++ drop atr_len atr_buf, Ok atr_len).
Definition build_pcsc_atr (ats : Ats) (atr_buf : list Z) : list Z * result nat NfcError :=
  build_pcsc_atr_from_historical (historical_bytes ats) atr_buf.

Section Driver.
Context {T C S : Type} `{!Pcd.Mfrc522Chip T C, !Platform T, !IsoDep S}.
Implicit Types d : Mfrc522NfcDriver T S.

Definition new (t : T) : Mfrc522NfcDriver T S :=
  mkDriver t false LNoCard None None 0 tracker_new (replicate 10 0) 0 None 0 0 0 0 None.

(** A call on the transceiver whose error becomes [CommunicationError]. *)
Definition on_pcd {A} (m : T -> fallible T A (Pcd.Mfrc522Error C)) d :
    fallible (Mfrc522NfcDriver T S) A NfcError :=
  let '(t, r) := map_err (fun _ => CommunicationError) (m (transceiver d)) in
  (with_transceiver t d, r).
Definition pause (ms : Z) d : Mfrc522NfcDriver T S :=
  with_transceiver (delay_ms (transceiver d) ms) d.

Definition has_card d : bool := negb (bool_decide (lifecycle d = LNoCard)).

Definition mark_card_absent d : Mfrc522NfcDriver T S :=
  with_failures 0 (with_uid (cached_uid d) 0 (with_ats None (with_session None
    (with_lifecycle LNoCard d)))).
Definition mark_card_present d : Mfrc522NfcDriver T S :=
  with_failures 0 (if bool_decide (lifecycle d = LNoCard) then with_lifecycle LPresentInactive d else d).
Definition clear_session d : Mfrc522NfcDriver T S :=
  let d := with_session None d in
  with_ats None
    (if bool_decide (lifecycle d = LNoCard) then d else with_lifecycle LPresentInactive d).

Definition reset_activation_frontend d : fallible (Mfrc522NfcDriver T S) unit NfcError :=
  let? d, _ := on_pcd (fun t => Pcd.rmw_register t Pcd.TxControlReg Pcd.field_off) d in
  let d := pause Pcd.FIELD_OFF_DWELL_MS d in
  let? d, _ := on_pcd (fun t => Pcd.rmw_register t Pcd.TxControlReg Pcd.field_on) d in
  let d := pause Pcd.FIELD_ON_SETTLE_MS d in
  let? d, _ := on_pcd Pcd.reset_frontend d in
  on_pcd Pcd.set_antenna_gain d.

Definition init d : fallible (Mfrc522NfcDriver T S) unit NfcError :=
  let? d, v := on_pcd Pcd.version d in
  if negb (v =? 0x91) && negb (v =? 0x92) then (d, Err CommunicationError)
  else
    let? d, _ := on_pcd Pcd.set_antenna_gain d in
    (with_initialized true d, Ok tt).

Definition full_reinit d : fallible (Mfrc522NfcDriver T S) unit NfcError :=
  let d := with_failures 0 (with_uid (cached_uid d) 0 (with_ats None (with_session None
             (with_lifecycle LNoCard (with_initialized false d))))) in
  let? d, _ := reset_activation_frontend d in
  init d.

Definition init_with_recovery d : fallible (Mfrc522NfcDriver T S) unit NfcError :=
  let d := with_attempts (sat_add32 (diag_init_attempts d) 1) d in
  let '(d, r) := init d in
  match r with
  | Ok _ => (with_last_error None (with_tracker (record_success (init_tracker d)) d), Ok tt)
  | Err e =>
      let d := with_bus_errors (sat_add32 (diag_bus_errors d) 1) (with_last_error (Some e) d) in
      let '(k, reinit) := record_failure (init_tracker d) in
      let d := with_tracker k d in
      if reinit then full_reinit d else (d, Err e)
  end.

(** One more failed poll. *)
Definition presence_failure d : Mfrc522NfcDriver T S * bool :=
  let d := with_failures (Z.min (consecutive_failures d + 1) u8_max) d in
  if CARD_ABSENT_THRESHOLD <=? consecutive_failures d then (mark_card_absent d, false)
  else (d, has_card d).

Definition poll_physical_card d : Mfrc522NfcDriver T S * bool :=
  if negb (is_initialized d) then (d, false)
  else if bool_decide (lifecycle d = LActiveSession) then (d, true)
  else
    let '(d, r) := reset_activation_frontend d in
    match r with
    | Err _ => presence_failure d
    | Ok _ =>
        let '(t, r) := Pcd.wupa (transceiver d) in
        let d := with_transceiver t d in
        match r with
        | Ok _ => (mark_card_present d, true)
        | Err _ => presence_failure d
        end
    end.

Definition poll_card_presence d : Mfrc522NfcDriver T S * bool :=
  poll_physical_card (with_presence_polls (sat_add32 (diag_presence_polls d) 1) d).

(** *** Power on *)
Definition ACTIVATION_ATTEMPTS : nat := 4.
Definition MFRC522_MAX_FSC : Z := 64.

Definition power_off d : Mfrc522NfcDriver T S :=
  let d := match session d with
           | Some s => with_session None (with_transceiver (deselect s (transceiver d)) d)
           | None => d
           end in
  with_lifecycle (if is_initialized d then LPresentInactive else LNoCard) (with_ats None d).

Fixpoint wake_attempts (n : nat) (first : bool) d : Mfrc522NfcDriver T S * option Activation :=
  match n with
  | O => (d, None)
  | Datatypes.S n =>
      let '(d, broken) :=
        if first then (d, false)
        else
          let '(d, r) := reset_activation_frontend d in
          if is_ok r then (pause 15 d, false) else (d, true) in
      if broken then (d, None)
      else
        let '(t, r) := wakeup (transceiver d) in
        let d := with_transceiver t d in
        match r with
        | Ok a => if iso14443_4_compliant a then (d, Some a) else wake_attempts n false d
        | Err _ => wake_attempts n false d
        end
  end.

Fixpoint rats_attempts (n : nat) d : Mfrc522NfcDriver T S * option Ats :=
  match n with
  | O => (d, None)
  | Datatypes.S n =>
      let '(t, r) := from_connect (transceiver d) in
      let d := with_transceiver t d in
      match r with Ok ats => (d, Some ats) | Err _ => rats_attempts n d end
  end.

Definition cache_uid (uid : list Z) d : Mfrc522NfcDriver T S :=
  if (length uid <=? length (cached_uid d))%nat
  then with_uid (uid ++ drop (length uid) (cached_uid d)) (length uid) d else d.

Definition frame_waiting_ms (fwi : Z) : Z :=
  if 0 <? fwi then wrap32 (302 * 2 ^ fwi / 1000 + 10) else 5.

(** The session of an ATS, and its announcement. *)
Definition establish (ats : Ats) (atr_buf : list Z) d : filled (Mfrc522NfcDriver T S) NfcError :=
  let '(d, r) := on_pcd Pcd.enable_hw_crc d in
  match r with
  | Err e => (d, atr_buf, Err e)
  | Ok _ =>
      let s := set_fsc (set_limits (from_ats ats)) (Z.min (fsc ats) MFRC522_MAX_FSC) in
      let d := if 0 <? sfgt_us ats then pause (wrap32 ((sfgt_us ats + 999) / 1000)) d else d in
      let fwt_ms := frame_waiting_ms (fwi ats) in
      let '(d, r) := on_pcd (fun t => Pcd.set_timeout_ms t fwt_ms) d in
      match r with
      | Err e => (d, atr_buf, Err e)
      | Ok _ =>
          let d := with_failures 0 (with_lifecycle LActiveSession (with_ats (Some ats)
                     (with_session (Some (set_base_fwt_ms s fwt_ms)) (with_fwt fwt_ms d)))) in
          let '(atr_buf, r) := build_pcsc_atr ats atr_buf in
          (d, atr_buf, r)
      end
  end.

Definition power_on d (atr_buf : list Z) : filled (Mfrc522NfcDriver T S) NfcError :=
  if negb (is_initialized d) then (d, atr_buf, Err NotInitialized)
  else
    let d := if bool_decide (lifecycle d = LActiveSession) ||
                match session d with Some _ => true | None => false end
             then power_off d else d in
    let '(d, r) := reset_activation_frontend d in
    match r with
    | Err e => (d, atr_buf, Err e)
    | Ok _ =>
        let '(d, woke) := wake_attempts ACTIVATION_ATTEMPTS true (pause 15 d) in
        match woke with
        | None => (clear_session d, atr_buf, Err CommunicationError)
        | Some activation =>
            let '(d, ats) := rats_attempts ACTIVATION_ATTEMPTS (cache_uid (act_uid activation) d) in
            match ats with
            | None => (clear_session d, atr_buf, Err CommunicationError)
            | Some ats => establish ats atr_buf d
            end
        end
    end.

(** *** The exchange *)
Definition transmit_apdu d (command response : list Z) : filled (Mfrc522NfcDriver T S) NfcError :=
  if negb (is_initialized d) then (d, response, Err NotInitialized)
  else
    match session d with
    | None => (d, response, Err NotInitialized)
    | Some s =>
        if negb (bool_decide (lifecycle d = LActiveSession)) then (d, response, Err NotInitialized)
        else
          let '(s, (c, r)) := exchange s (mkCounting (transceiver d) 0 0 0 0) command in
          let d := with_last_exchange
                     (Some (blocks c, wtx_replies c, recoveries c, max_transceive_us c))
                     (with_transceiver (inner c) (with_session None d)) in
          match r with
          | Err _ =>
              (with_lifecycle LPresentInactive (clear_session d), response, Err CommunicationError)
          | Ok resp =>
              if (length response <? length resp)%nat
              then (with_session (Some s) d, response, Err BufferOverflow)
              else (with_lifecycle LActiveSession (with_session (Some s) d),
                    resp ++ drop (length resp) response, Ok (length resp))
          end
    end.

(** *** Probes *)
Fixpoint probe_reads (n : nat) (t : T) : T * bool :=
  match n with
  | O => (t, true)
  | Datatypes.S n =>
      let '(t, r) := Pcd.read_register t Pcd.ComIrqReg in
      if is_ok r then probe_reads n t else (t, false)
  end.
Definition i2c_timing_probe d (reads : Z) : Mfrc522NfcDriver T S * option Z :=
  let n := clamp reads 1 256 in
  let '(t, started_us) := now_us (transceiver d) in
  let '(t, ok) := probe_reads (Z.to_nat n) t in
  if ok then
    let '(t, ended_us) := now_us t in
    (with_transceiver t d, Some (clamp (ended_us - started_us) 0 u32_max))
  else (with_transceiver t d, None).
Definition timer_registers d : Mfrc522NfcDriver T S * option (list Z) :=
  let '(t, r) := Pcd.timer_registers (transceiver d) in
  (with_transceiver t d, match r with Ok l => Some l | Err _ => None end).

(** [From<NfcError> for FrontendErrorKind] ([nfc.rs]). *)
Definition error_kind (e : NfcError) : FrontendErrorKind :=
  match e with
  | NotInitialized => FNotInitialized
  | NoCard => FNoCard
  | CommunicationError => FBus
  | NTimeout => FTimeout
  | BufferOverflow => FBufferOverflow
  end.

#[global] Instance mfrc522_nfc : NfcDriver (Mfrc522NfcDriver T S) NfcError := {
  nfc_is_card_present := poll_card_presence;
  nfc_poll_card_presence := poll_card_presence;
  nfc_session_active d := bool_decide (lifecycle d = LActiveSession);
  nfc_power_on := power_on;
  nfc_power_off := power_off;
  nfc_transmit_apdu := transmit_apdu;
  nfc_card_uid d :=
    if (0 <? cached_uid_len d)%nat then Some (take (cached_uid_len d) (cached_uid d)) else None;
  nfc_reinit_count d := tr_reinit_count (init_tracker d);
  nfc_exchange_decomposition := last_exchange
}.
#[global] Instance mfrc522_probes : NfcProbes (Mfrc522NfcDriver T S) := {
  wtx_counters _ := None;
  EspHandler.timer_registers := timer_registers;
  EspHandler.i2c_timing_probe := i2c_timing_probe;
  configured_fwt_ms := cfg_fwt_ms
}.
#[global] Instance mfrc522_service : NfcService (Mfrc522NfcDriver T S) NfcError := {
  nfc_init := init;
  nfc_init_recovering := init_with_recovery;
  nfc_poll_maintenance d _ := d;
  nfc_presence_poll_detects_removal _ := false
}.
#[global] Instance mfrc522_diagnostics : FrontendDiagnostics (Mfrc522NfcDriver T S) := {
  frontend_status d :=
    mkStatus (if is_initialized d then Healthy else Degraded)
      (match diag_last_error d with Some e => error_kind e | None => FNone end)
      (diag_init_attempts d) (tr_reinit_count (init_tracker d)) (diag_bus_errors d)
      (diag_presence_polls d);
  frontend_self_test d :=
    let '(t, r) := Pcd.version (transceiver d) in
    (with_transceiver t d,
     match r with
     | Err _ => Err FBus
     | Ok v => if (v =? 0x91) || (v =? 0x92) then Ok tt else Err FProtocol
     end)
}.

(** *** Bring-up ([board_ctor.rs]) behind the constructed bus *)
Definition Frontend : Type :=
  Either.EitherFrontend (Retry.RetryFrontend (Mfrc522NfcDriver T S))
    (Retry.RetryFrontend Unavail.UnavailableNfcDriver).

Fixpoint boot_inits (n : nat) d : Mfrc522NfcDriver T S * bool :=
  match n with
  | O => (d, false)
  | Datatypes.S n =>
      let '(d, r) := init_with_recovery d in
      if is_ok r then (d, true) else boot_inits n (pause 1000 d)
  end.

Definition frontend_bring_up (bus : T) (i2c_addr : Z) : Frontend * bool :=
  let '(t, hw) := Pcd.bring_up bus i2c_addr in
  match hw with
  | Ok _ =>
      let '(d, init_ok) := boot_inits 5 (new t) in
      if init_ok then (Either.Primary (Retry.healthy d), true)
      else (Either.Primary (Retry.new_degraded d), false)
  | Err _ => (Either.Fallback (Retry.new_degraded Unavail.mkUnavailable), false)
  end.
End Driver.

End Mfrc522.
