(* ===== verification/Mfrc522Spec.v ===== *)
(** * The MFRC522 front end: theorems

    About [Mfrc522.v], alone and under the wrappers of [Frontend.v]: the timer
    values, the debounced presence, the recovery of a controller that does not
    answer, sessions, and the driver as a lawful instance of the interface. *)
From Stdlib Require Import ZArith Lia ZifyBool.
From stdpp Require Import prelude.
From S2P Require Import Prelude Atr Diag CardInterface Handler EspHandler EspSpec SerialFrame SerialServer SerialSpec NciSpec Frontend FrontendSpec Mfrc522.
Local Open Scope Z_scope.
Import Mfrc522.

(** ** The timer *)
(** The four writes that arm the timer. *)
Definition arm {T C} `{!Pcd.Mfrc522Chip T C} (tmode tpre hi lo : Z) (t : T) :
    fallible T unit (Pcd.Mfrc522Error C) :=
  let? t, _ := Pcd.write_register t Pcd.TModeReg tmode in
  let? t, _ := Pcd.write_register t Pcd.TPrescalerReg tpre in
  let? t, _ := Pcd.write_register t Pcd.TReloadRegHigh hi in
  Pcd.write_register t Pcd.TReloadRegLow lo.

Lemma timer_divisor_small ms : 0 <= ms -> 904 * ms + 4368 <= u32_max ->
  let d := Pcd.timer_divisor ms in
  339 <= d /\ d mod 2 = 1 /\ ms * 904 <= d * 4369 /\
  (ms <= 1638 -> d = 339) /\ (d <= 8191 <-> ms <= 39586).
Proof.
  intros H0 Hs d. subst d. unfold Pcd.timer_divisor, Pcd.TIMER_MIN_DIVISOR, u32_max in *.
  rewrite !Z.min_l by lia. change (2 * 169 + 1) with 339.
  set (m := (ms * 904 + 4368) / 4369).
  assert (ms * 904 <= m * 4369 < ms * 904 + 4369) as Hm.
  { unfold m. Z.to_euclidean_division_equations. lia. }
  destruct (Z.max m 339 mod 2 =? 0) eqn:E; Z.to_euclidean_division_equations; lia.
Qed.

Lemma timer_divisor_large ms : 0 <= ms -> u32_max < 904 * ms + 4368 ->
  8191 < Pcd.timer_divisor ms.
Proof.
  intros H0 Hs. unfold Pcd.timer_divisor, Pcd.TIMER_MIN_DIVISOR, u32_max in *.
  assert (983053 <= Z.min (Z.min (ms * 904) 4294967295 + 4368) 4294967295 / 4369) as H.
  { apply Z.div_le_lower_bound; lia. }
  set (m := _ / 4369) in *. destruct (_ =? 0); lia.
Qed.

Lemma timer_reload_spec ms d : 0 <= ms <= 39586 -> 339 <= d -> ms * 904 <= d * 4369 ->
  let r := Pcd.timer_reload ms d in
  0 <= r <= 65535 /\ ms * 13560000 <= r * (d * 1000) /\ (0 < ms -> (r - 1) * (d * 1000) < ms * 13560000).
Proof.
  intros H0 Hd Hle r. subst r. unfold Pcd.timer_reload, Pcd.TIMER_INPUT_HZ.
  set (q := (ms * 13560000 + d * 1000 - 1) / (d * 1000)).
  assert (q * (d * 1000) <= ms * 13560000 + d * 1000 - 1 < q * (d * 1000) + d * 1000) as Hq.
  { unfold q. pose proof (Z.div_mod (ms * 13560000 + d * 1000 - 1) (d * 1000) ltac:(lia)) as E.
    pose proof (Z.mod_pos_bound (ms * 13560000 + d * 1000 - 1) (d * 1000) ltac:(lia)). lia. }
  assert (0 <= q <= 65535) as Hr.
  { split; [apply Z.div_pos; lia|]. apply Z.lt_succ_r. unfold q. apply Z.div_lt_upper_bound; lia. }
  replace (wrap32 q) with q by (unfold wrap32; rewrite Z.mod_small; lia). lia.
Qed.

Lemma high_nibble_byte k : 0 <= k < 16 ->
  Z.lor 0x80 k = 128 + k /\ Z.land (128 + k) 0xF0 = 0x80 /\ Z.land (128 + k) 0x0F = k.
Proof.
  intros Hk. assert (Forall (fun k => Z.lor 0x80 k = 128 + k /\ Z.land (128 + k) 0xF0 = 0x80 /\
    Z.land (128 + k) 0x0F = k) (map Z.of_nat (seq 0 16))) as H by (repeat constructor).
  rewrite Forall_forall in H. apply H, list_elem_of_In, in_map_iff.
  exists (Z.to_nat k). split; [lia|]. apply in_seq. lia.
Qed.

(** The controller's timer is armed with the timeout that was asked for.
    A timeout up to 39586 milliseconds is programmed with an odd divisor of
    the 13.56 MHz clock that fits the 12-bit prescaler and a reload value that
    fits 16 bits, both recoverable from the four registers; the armed period
    is never shorter than the request and longer by less than one tick; up to
    1638 milliseconds the prescaler is the historical 0xA9.  Anything longer
    is refused before a register is written. *)
Theorem timer_armed {T C} `{!Pcd.Mfrc522Chip T C} (t : T) ms : u32 ms ->
  if 39586 <? ms then Pcd.set_timeout_ms t ms = (t, Err Pcd.Timeout)
  else exists tmode tpre hi lo,
    Pcd.set_timeout_ms t ms = arm tmode tpre hi lo t /\
    u8 tmode /\ u8 tpre /\ u8 hi /\ u8 lo /\ Z.land tmode 0xF0 = 0x80 /\
    let prescaler := Z.land tmode 0x0F * 256 + tpre in
    let tick := 2 * prescaler + 1 in
    let reload := hi * 256 + lo in
    ms * 13560000 <= reload * (tick * 1000) /\
    (0 < ms -> (reload - 1) * (tick * 1000) < ms * 13560000) /\
    (ms <= 1638 -> prescaler = 0xA9).
Proof.
  intros Hms. unfold u32 in Hms. destruct (39586 <? ms) eqn:Em.
  { unfold Pcd.set_timeout_ms. assert (8191 < Pcd.timer_divisor ms) as Hgt.
    { destruct (decide (904 * ms + 4368 <= u32_max)) as [Hs|Hs].
      - destruct (timer_divisor_small ms ltac:(lia) Hs) as (_ & _ & _ & _ & Hdiv). lia.
      - apply timer_divisor_large; lia. }
    unfold Pcd.TIMER_MAX_DIVISOR. change (2 * 4095 + 1) with 8191.
    by destruct (8191 <? Pcd.timer_divisor ms) eqn:E; [|lia]. }
  destruct (timer_divisor_small ms) as (H1 & H2 & H3 & H4 & H5); [lia|unfold u32_max; lia|].
  set (d := Pcd.timer_divisor ms) in *.
  destruct (timer_reload_spec ms d) as (R1 & R2 & R3); [lia..|].
  set (r := Pcd.timer_reload ms d) in *. set (p := (d - 1) / 2).
  assert (0 <= p <= 4095 /\ d = 2 * p + 1) as [Hp Hd].
  { unfold p. Z.to_euclidean_division_equations. lia. }
  assert (0 <= p / 256 < 16) as Hph by (Z.to_euclidean_division_equations; lia).
  assert (Z.land (wrap8 (Z.shiftr p 8)) 0x0F = p / 256) as Epr.
  { rewrite Z.shiftr_div_pow2 by lia. change (2 ^ 8) with 256. unfold wrap8.
    rewrite (Z.mod_small (p / 256) 256) by lia.
    change 0x0F with (Z.ones 4). rewrite Z.land_ones by lia. by rewrite Z.mod_small. }
  assert (Z.lor 0x80 (p / 256) = 128 + p / 256) as Eor.
  { by apply high_nibble_byte. }
  exists (128 + p / 256), (p mod 256), (r / 256), (r mod 256). split.
  { unfold Pcd.set_timeout_ms, Pcd.TIMER_MAX_DIVISOR. fold d. change (2 * 4095 + 1) with 8191.
    destruct (8191 <? d) eqn:E; [lia|]. fold p r. rewrite Epr, Eor.
    rewrite Z.shiftr_div_pow2 by lia. change (2 ^ 8) with 256.
    unfold arm, wrap8. by rewrite (Z.mod_small (r / 256) 256) by (Z.to_euclidean_division_equations; lia). }
  destruct (high_nibble_byte (p / 256) Hph) as (_ & N1 & N2). rewrite N1, N2.
  assert (p / 256 * 256 + p mod 256 = p /\ r / 256 * 256 + r mod 256 = r) as [Ep Er].
  { Z.to_euclidean_division_equations. lia. }
  cbv zeta. rewrite Ep, Er, <- Hd. unfold u8.
  split_and!; try done; try (Z.to_euclidean_division_equations; lia).
Qed.

(** ** Presence *)
Section Driver.
Context {T C S : Type} {CH : Pcd.Mfrc522Chip T C} {PL : Platform T} {ID : IsoDep S}.
Implicit Types d : Mfrc522NfcDriver T S.

(** Whether the next poll of an idle driver finds the card: the field cycle
    works and the card answers the wake-up. *)
Definition sees_card d : bool :=
  let '(d, r) := reset_activation_frontend d in is_ok r && is_ok (Pcd.wupa (transceiver d)).2.

(** A series of polls: what each saw and what it reported. *)
Fixpoint watch (n : nat) d : Mfrc522NfcDriver T S * list (bool * bool) :=
  match n with
  | O => (d, [])
  | Datatypes.S n =>
      let '(d1, reported) := poll_card_presence d in
      let '(d2, obs) := watch n d1 in
      (d2, (sees_card (with_presence_polls (sat_add32 (diag_presence_polls d) 1) d), reported) :: obs)
  end.

(** The debounced presence: seen by this poll or one of the two before. *)
Fixpoint debounced (a b : bool) (seen : list bool) : list bool :=
  match seen with
  | [] => []
  | s :: seen => (a || b || s) :: debounced b s seen
  end.

(** What the driver's counters say of the last two polls. *)
Definition recalls (a b : bool) d : Prop :=
  is_initialized d = true /\ lifecycle d <> LActiveSession /\
  if b then lifecycle d = LPresentInactive /\ consecutive_failures d = 0
  else if a then lifecycle d = LPresentInactive /\ consecutive_failures d = 1
  else lifecycle d = LPresentInactive /\ consecutive_failures d = 2 \/
    lifecycle d = LNoCard /\ 0 <= consecutive_failures d <= 2.

(** The card's bookkeeping, which the register sequences do not touch. *)
Definition same_card d d' : Prop :=
  is_initialized d' = is_initialized d /\ lifecycle d' = lifecycle d /\ session d' = session d /\
  cached_ats d' = cached_ats d /\ consecutive_failures d' = consecutive_failures d /\
  init_tracker d' = init_tracker d /\ cached_uid d' = cached_uid d /\
  cached_uid_len d' = cached_uid_len d.

Lemma same_card_refl d : same_card d d.
Proof. by split_and!. Qed.
Lemma same_card_trans d1 d2 d3 : same_card d1 d2 -> same_card d2 d3 -> same_card d1 d3.
Proof. unfold same_card. intuition congruence. Qed.
Lemma same_card_transceiver d t : same_card d (with_transceiver t d).
Proof. by split_and!. Qed.

Lemma on_pcd_same {A} (m : T -> fallible T A (Pcd.Mfrc522Error C)) d : same_card d (on_pcd m d).1.
Proof. unfold on_pcd, map_err. by destruct (m (transceiver d)). Qed.

Lemma rbind_same {A B} d (m : fallible (Mfrc522NfcDriver T S) A NfcError)
    (k : Mfrc522NfcDriver T S -> A -> fallible (Mfrc522NfcDriver T S) B NfcError) :
  same_card d m.1 -> (forall d' a, same_card d d' -> same_card d (k d' a).1) ->
  same_card d (rbind m k).1.
Proof. intros H Hk. unfold rbind. destruct m as [d1 [a|e]]; [by apply Hk|done]. Qed.

Lemma reset_same d : same_card d (reset_activation_frontend d).1.
Proof.
  unfold reset_activation_frontend, pause.
  repeat (apply rbind_same; [first [apply on_pcd_same | eapply same_card_trans; [|apply on_pcd_same];
    eapply same_card_trans; [eassumption|apply same_card_transceiver]
    | eapply same_card_trans; [eassumption|apply on_pcd_same]]|]; intros ? ? ?).
  eapply same_card_trans; [eassumption|apply on_pcd_same].
Qed.

Lemma presence_failure_recalls a b d : recalls a b d ->
  let '(d', reported) := presence_failure d in reported = a || b /\ recalls b false d'.
Proof.
  intros (Hi & Hl & H). unfold presence_failure, CARD_ABSENT_THRESHOLD, u8_max, has_card.
  cbn [consecutive_failures with_failures]. destruct (3 <=? _) eqn:E.
  - assert (a = false /\ b = false) as [-> ->].
    { destruct b; [cbn in H; lia|]. destruct a; [cbn in H; lia|done]. }
    split; [done|]. split; [done|]. split; [done|]. right. split; [done|cbn; lia].
  - destruct b; [|destruct a].
    + destruct H as [Hp Hc]. cbn [lifecycle with_failures]. rewrite Hp. split; [by destruct a|].
      split; [done|]. split; [done|]. cbn. split; [done|lia].
    + destruct H as [Hp Hc]. cbn [lifecycle with_failures]. rewrite Hp. split; [done|].
      split; [done|]. split; [done|]. left. cbn. split; [done|lia].
    + destruct H as [[Hp Hc]|[Hp Hc]]; [lia|]. cbn [lifecycle with_failures]. rewrite Hp.
      split; [done|]. split; [done|]. split; [done|]. right. cbn. split; [done|lia].
Qed.

Lemma recalls_same a b d d' : same_card d d' -> recalls a b d -> recalls a b d'.
Proof.
  intros (H1 & H2 & _ & _ & H3 & _). unfold recalls. by rewrite H1, H2, H3.
Qed.

Lemma poll_recalls a b d : recalls a b d ->
  let d0 := with_presence_polls (sat_add32 (diag_presence_polls d) 1) d in
  let '(d', reported) := poll_card_presence d in
  reported = a || b || sees_card d0 /\ recalls b (sees_card d0) d'.
Proof.
  intros H d0. assert (recalls a b d0) as H0 by exact H. clear H.
  unfold poll_card_presence. fold d0. unfold poll_physical_card, sees_card.
  destruct H0 as (Hi & Hl & H). rewrite Hi. cbn [negb].
  rewrite bool_decide_eq_false_2 by done.
  pose proof (reset_same d0) as Hs. destruct (reset_activation_frontend d0) as [d1 [[]|e]];
    cbn [fst is_ok andb] in *.
  - destruct (Pcd.wupa (transceiver d1)) as [t [[]|e]]; cbn [snd is_ok].
    + rewrite !orb_true_r. split; [done|].
      destruct Hs as (H1 & H2 & _). unfold mark_card_present, recalls.
      destruct (bool_decide_reflect (lifecycle (with_transceiver t d1) = LNoCard)) as [E|E];
        cbn [is_initialized lifecycle consecutive_failures with_failures with_lifecycle with_transceiver] in *.
      * by rewrite H1.
      * rewrite H1, H2 in *. split_and!; try done. by destruct (lifecycle d0).
    + rewrite orb_false_r. apply presence_failure_recalls.
      eapply recalls_same; [eapply same_card_trans; [exact Hs|apply same_card_transceiver]|done].
  - rewrite orb_false_r. apply presence_failure_recalls. by eapply recalls_same.
Qed.

Lemma watch_recalls n a b d : recalls a b d ->
  map snd (watch n d).2 = debounced a b (map fst (watch n d).2).
Proof.
  revert a b d. induction n as [|n IH]; intros a b d H; [done|].
  cbn [watch]. pose proof (poll_recalls a b d H) as Hp. cbv zeta in Hp.
  destruct (poll_card_presence d) as [d1 reported]. destruct Hp as [Hr H1].
  specialize (IH _ _ d1 H1). destruct (watch n d1) as [d2 obs].
  cbn [snd map fst debounced] in *. by rewrite IH, Hr.
Qed.
End Driver.

(** Presence is debounced.  From an initialised driver without a card,
    however the controller and the card behave, a poll reports the card
    exactly when it, or one of the two polls before it, found the card: one or
    two missed answers do not eject it, the third does, and it is reported
    again by the first poll that finds it. *)
Theorem presence_debounced {T C S} `{!Pcd.Mfrc522Chip T C, !Platform T, !IsoDep S} n
    (d : Mfrc522NfcDriver T S) :
  is_initialized d = true -> lifecycle d = LNoCard -> consecutive_failures d = 0 ->
  map snd (watch n d).2 = debounced false false (map fst (watch n d).2).
Proof.
  intros Hi Hl Hc. apply watch_recalls. split; [done|]. split; [by rewrite Hl|].
  right. split; [done|lia].
Qed.

(** ** Recovery under the retrying wrapper *)
Section Recovery.
Context {T C S : Type} {CH : Pcd.Mfrc522Chip T C} {PL : Platform T} {ID : IsoDep S}.
Implicit Types (d : Mfrc522NfcDriver T S) (r : Retry.RetryFrontend (Mfrc522NfcDriver T S)).

Lemma init_spec d :
  init_tracker (init d).1 = init_tracker d /\
  (is_ok (init d).2 = true -> is_initialized (init d).1 = true).
Proof.
  unfold init, rbind. pose proof (on_pcd_same Pcd.version d) as H1.
  destruct (on_pcd Pcd.version d) as [d1 [v|e]]; cbn [fst snd] in *; [|by split; [apply H1|]].
  destruct (negb _ && negb _); [by split; [apply H1|]|].
  pose proof (on_pcd_same Pcd.set_antenna_gain d1) as H2.
  destruct (on_pcd Pcd.set_antenna_gain d1) as [d2 [[]|e]]; cbn [fst snd] in *;
    (split; [|done]); destruct H1 as (_ & _ & _ & _ & _ & H1 & _), H2 as (_ & _ & _ & _ & _ & H2 & _);
    cbn [init_tracker with_initialized]; congruence.
Qed.

Lemma full_reinit_spec d :
  init_tracker (full_reinit d).1 = init_tracker d /\
  (is_ok (full_reinit d).2 = true -> is_initialized (full_reinit d).1 = true).
Proof.
  unfold full_reinit, rbind. set (d0 := with_failures _ _). pose proof (reset_same d0) as H.
  destruct (reset_activation_frontend d0) as [d1 [[]|e]]; cbn [fst snd] in *.
  - destruct (init_spec d1) as [H1 H2]. rewrite H1. split; [|exact H2].
    by destruct H as (_ & _ & _ & _ & _ & -> & _).
  - split; [|done]. by destruct H as (_ & _ & _ & _ & _ & -> & _).
Qed.

Lemma init_with_recovery_spec d :
  if is_ok (init_with_recovery d).2 then is_initialized (init_with_recovery d).1 = true
  else init_tracker (init_with_recovery d).1 = (record_failure (init_tracker d)).1.
Proof.
  unfold init_with_recovery. set (d0 := with_attempts _ d).
  destruct (init_spec d0) as [H1 H2]. destruct (init d0) as [d1 [[]|e]]; cbn [fst snd is_ok] in *;
    [by apply H2|]. set (d2 := with_bus_errors _ _).
  assert (init_tracker d2 = init_tracker d) as E by exact H1. rewrite E.
  destruct (record_failure (init_tracker d)) as [k reinit] eqn:Ek. destruct reinit; [|done].
  destruct (full_reinit_spec (with_tracker k d2)) as [H3 H4].
  destruct (is_ok (full_reinit (with_tracker k d2)).2) eqn:Eo; [by apply H4|exact H3].
Qed.

(** A series of presence polls of the wrapper, with their answers. *)
Fixpoint retry_polls (n : nat) r : Retry.RetryFrontend (Mfrc522NfcDriver T S) * list bool :=
  match n with
  | O => (r, [])
  | Datatypes.S n =>
      let '(r, present) := Retry.poll_card_presence r in
      let '(r, l) := retry_polls n r in (r, present :: l)
  end.

Lemma poll_physical_initialized d : is_initialized (poll_card_presence d).1 = is_initialized d.
Proof.
  unfold poll_card_presence. set (d0 := with_presence_polls _ d).
  change (is_initialized d) with (is_initialized d0).
  unfold poll_physical_card. destruct (negb (is_initialized d0)); [done|].
  destruct (bool_decide _); [done|].
  assert (forall d, is_initialized (presence_failure d).1 = is_initialized d) as Hf.
  { intros d2. unfold presence_failure. by destruct (_ <=? _). }
  pose proof (reset_same d0) as (H & _). destruct (reset_activation_frontend d0) as [d1 [[]|e]];
    cbn [fst] in *; [|by rewrite Hf].
  destruct (Pcd.wupa (transceiver d1)) as [t [[]|e]]; [|by rewrite Hf].
  unfold mark_card_present. by destruct (bool_decide _).
Qed.

Lemma healthy_polls n r : Retry.degraded r = false -> is_initialized (Retry.inner r) = true ->
  Retry.degraded (retry_polls n r).1 = false /\
  is_initialized (Retry.inner (retry_polls n r).1) = true.
Proof.
  revert r. induction n as [|n IH]; intros r Hd Hi; [done|]. cbn [retry_polls].
  unfold Retry.poll_card_presence. rewrite Hd. pose proof (poll_physical_initialized (Retry.inner r)) as H.
  change (nfc_poll_card_presence (Retry.inner r)) with (poll_card_presence (Retry.inner r)).
  destruct (poll_card_presence (Retry.inner r)) as [d1 p]. rewrite Hd. cbn [fst] in H.
  specialize (IH (Retry.with_inner d1 r) Hd ltac:(by rewrite <- Hi)).
  by destruct (retry_polls n (Retry.with_inner d1 r)).
Qed.

(** The tracker after [n] failures in a row. *)
Definition failing (c n : Z) : InitRecoveryTracker := mkTracker (n mod 3) (Z.min (c + n / 3) u32_max).

Lemma failing_step c n : 0 <= c -> 0 <= n -> (record_failure (failing c n)).1 = failing c (n + 1).
Proof.
  intros Hc H. unfold record_failure, failing, REINIT_THRESHOLD, u8_max, sat_add32, u32_max.
  cbn [tr_consecutive_failures tr_reinit_count].
  destruct (3 <=? _) eqn:E; cbn [fst]; f_equal; Z.to_euclidean_division_equations; lia.
Qed.

(** *** The attempts, by their number *)
(** The attempt behind [i] failures: the plain initialisation and, when this
    failure is a third one, the full re-initialisation, whose result counts. *)
Definition attempt (c i : Z) d : fallible (Mfrc522NfcDriver T S) unit NfcError :=
  let '(d, r) := init (with_attempts (sat_add32 (diag_init_attempts d) 1) d) in
  match r with
  | Ok _ => (with_last_error None (with_tracker (record_success (init_tracker d)) d), Ok tt)
  | Err e =>
      let d := with_tracker (failing c (i + 1))
        (with_bus_errors (sat_add32 (diag_bus_errors d) 1) (with_last_error (Some e) d)) in
      if (i + 1) mod 3 =? 0 then full_reinit d else (d, Err e)
  end.

(** At most [n] attempts: the driver they leave, and the number of those that
    failed before the first success. *)
Fixpoint attempts (c : Z) (n : nat) (i : Z) d : Mfrc522NfcDriver T S * option nat :=
  match n with
  | O => (d, None)
  | Datatypes.S n =>
      let '(d, r) := attempt c i d in
      if is_ok r then (d, Some O)
      else let '(d, k) := attempts c n (i + 1) d in (d, option_map Datatypes.S k)
  end.

Lemma third_failure c i : 0 <= i -> (record_failure (failing c i)).2 = ((i + 1) mod 3 =? 0).
Proof.
  intros H. unfold record_failure, failing, REINIT_THRESHOLD, u8_max.
  cbn [tr_consecutive_failures]. destruct (3 <=? _) eqn:E; cbn [snd];
    Z.to_euclidean_division_equations; lia.
Qed.

Lemma recovery_attempt c i d : 0 <= c -> 0 <= i -> init_tracker d = failing c i ->
  init_with_recovery d = attempt c i d.
Proof.
  intros Hc Hi Hk. unfold init_with_recovery, attempt. set (d0 := with_attempts _ d).
  destruct (init_spec d0) as [H1 _]. destruct (init d0) as [d1 [[]|e]]; [done|]. cbn [fst] in H1.
  set (d2 := with_bus_errors _ _). assert (init_tracker d2 = failing c i) as -> by (rewrite <- Hk; exact H1).
  pose proof (failing_step c i Hc Hi) as E1. pose proof (third_failure c i Hi) as E2.
  destruct (record_failure (failing c i)) as [k reinit]. cbn [fst snd] in *. by subst.
Qed.

(** The polls of a degraded front end are the attempts; from the first success on
    it stays healthy. *)
Lemma degraded_polls c n i r : 0 <= c -> 0 <= i ->
  Retry.degraded r = true -> init_tracker (Retry.inner r) = failing c i ->
  let '(r', seen) := retry_polls n r in
  let '(d, first) := attempts c n i (Retry.inner r) in
  match first with
  | None => r' = Retry.new_degraded d /\ seen = replicate n false /\
      init_tracker d = failing c (i + Z.of_nat n)
  | Some k => Retry.degraded r' = false /\ is_initialized (Retry.inner r') = true /\
      (k < n)%nat /\ exists rest, seen = replicate k false ++ rest
  end.
Proof.
  intros Hc. revert i r. induction n as [|n IH]; intros i [d0 dg] Hi Hd Hk;
    cbn [Retry.degraded Retry.inner] in Hd, Hk; subst dg; cbn [retry_polls attempts].
  { split; [done|]. split; [done|]. by rewrite Z.add_0_r. }
  unfold Retry.poll_card_presence. cbn [Retry.degraded Retry.inner].
  change (nfc_init_recovering d0) with (init_with_recovery d0).
  pose proof (init_with_recovery_spec d0) as Hs. rewrite (recovery_attempt c i d0) in * by done.
  destruct (attempt c i d0) as [d1 res]. cbn [fst snd] in Hs.
  cbn [Retry.degraded Retry.inner]. destruct (is_ok res); cbn [negb].
  - change (nfc_poll_card_presence d1) with (poll_card_presence d1).
    pose proof (poll_physical_initialized d1) as Hp. destruct (poll_card_presence d1) as [d2 p].
    cbn [fst] in Hp. set (r2 := Retry.with_inner d2 _).
    destruct (healthy_polls n r2) as [H1 H2]; [done|by rewrite <- Hs|].
    destruct (retry_polls n r2) as [r3 l]. cbn [fst] in *. split; [done|]. split; [done|].
    split; [lia|by exists (p :: l)].
  - rewrite Hk, failing_step in Hs by done.
    specialize (IH (i + 1) (Retry.mkRetry d1 true) ltac:(lia) eq_refl Hs). cbn [Retry.inner] in IH.
    destruct (retry_polls n (Retry.mkRetry d1 true)) as [r3 l].
    destruct (attempts c n (i + 1) d1) as [d3 [k|]]; cbn [option_map].
    + destruct IH as (H1 & H2 & H3 & rest & ->). split; [done|]. split; [done|].
      split; [lia|by exists rest].
    + destruct IH as (-> & -> & ->). split; [done|]. split; [done|]. f_equal. lia.
Qed.

(** *** The degraded front end the boot leaves *)
Lemma boot_attempts n i d d' : 0 <= i -> init_tracker d = failing 0 i ->
  boot_inits n d = (d', false) -> init_tracker d' = failing 0 (i + Z.of_nat n).
Proof.
  revert i d. induction n as [|n IH]; intros i d Hi Hk; cbn [boot_inits].
  { intros [= <-]. by rewrite Z.add_0_r. }
  pose proof (init_with_recovery_spec d) as Hs. destruct (init_with_recovery d) as [d1 res].
  cbn [fst snd] in Hs. destruct (is_ok res); [done|]. rewrite Hk, failing_step in Hs by lia.
  intros E. rewrite (IH (i + 1) (pause 1000 d1)) by first [lia | exact Hs | exact E]. f_equal. lia.
Qed.
End Recovery.

(** What the boot of the firmware hands over when no attempt succeeds: two
    failures since the last re-initialisation, which was the first. *)
Lemma boot_leaves_two {T C S} `{!Pcd.Mfrc522Chip T C, !Platform T, !IsoDep S} (t : T) d :
  boot_inits (S := S) 5 (new t) = (d, false) -> init_tracker d = mkTracker 2 1.
Proof. intros Hb. by rewrite (boot_attempts 5 0 (new t) d ltac:(lia) eq_refl Hb). Qed.

(** C21: a controller that does not answer is served as an empty slot and
    recovered in place.  Over any controller and however it behaves, a front end
    that goes degraded with fewer than three failures in a row behind it (two,
    when the boot of the firmware leaves it so) makes one attempt at every
    presence poll: the plain initialisation and, behind every third failure
    counted from those, the full re-initialisation of the controller, whose
    result decides.  While all attempts have failed the driver is the one these
    attempts have left, every poll has reported no card, the slot shows no
    session and no UID, the status is degraded, and after [n] polls behind [f]
    failures the re-initialisation was counted [(f + n) / 3] times (the counter
    saturates).  The first attempt that succeeds ends it: the front end is
    healthy from that poll on and stays initialised. *)
Theorem degraded_recovery {T C S} `{!Pcd.Mfrc522Chip T C, !Platform T, !IsoDep S} n
    (d : Mfrc522NfcDriver T S) :
  let f := tr_consecutive_failures (init_tracker d) in
  let c := nfc_reinit_count d in
  0 <= f < 3 -> u32 c ->
  let '(r, seen) := retry_polls n (Retry.new_degraded d) in
  let '(d', first) := attempts c n f d in
  match first with
  | None => r = Retry.new_degraded d' /\ seen = replicate n false /\
      nfc_reinit_count r = Z.min (c + (f + Z.of_nat n) / 3) u32_max /\
      nfc_session_active r = false /\ nfc_card_uid r = None /\
      health (frontend_status r) = Degraded
  | Some k => Retry.degraded r = false /\ is_initialized (Retry.inner r) = true /\
      health (frontend_status r) = Healthy /\
      (k < n)%nat /\ exists rest, seen = replicate k false ++ rest
  end.
Proof.
  intros f c Hf Hc.
  assert (init_tracker d = failing c f) as Hk.
  { unfold failing, u32, u32_max, f, c in *. cbn [nfc_reinit_count mfrc522_nfc] in *.
    destruct (init_tracker d) as [a b]. cbn [tr_consecutive_failures tr_reinit_count] in *.
    f_equal; Z.to_euclidean_division_equations; lia. }
  clearbody f c.
  pose proof (degraded_polls c n f (Retry.new_degraded d) ltac:(unfold u32 in Hc; lia) ltac:(lia) eq_refl Hk) as Hr.
  cbn [Retry.inner Retry.new_degraded] in Hr.
  destruct (retry_polls n (Retry.new_degraded d)) as [r seen].
  destruct (attempts c n f d) as [d' [k|]].
  - destruct Hr as (H1 & H2 & H3 & H4). split; [done|]. split; [done|]. split; [|by split].
    destruct r as [d2 dg]. cbn in *. by rewrite H1, H2.
  - destruct Hr as (-> & -> & Ht). split; [done|]. split; [done|]. split.
    { cbn [nfc_reinit_count Retry.retry_nfc mfrc522_nfc Retry.inner Retry.new_degraded]. by rewrite Ht. }
    split; [done|]. split; [done|]. cbn. by destruct (is_initialized d').
Qed.

(** ** The driver keeps the contract of the interface *)
(** What it relies on of the ISO-DEP crate: the bytes it hands over are
    bytes. *)
Class IsoDepLaws (S : Type) `{!IsoDep S} := {
  wakeup_bytes {X E} `{!Pcd.PcdTransceiver X E} (x : X) a : (wakeup x).2 = Ok a -> bytes (act_uid a);
  connect_bytes {X E} `{!Pcd.PcdTransceiver X E} (x : X) ats :
    (from_connect x).2 = Ok ats -> bytes (historical_bytes ats);
  exchange_bytes {X E} `{!Pcd.PcdTransceiver X E} (s : S) (x : X) cmd resp :
    (exchange s x cmd).2.2 = Ok resp -> bytes resp
}.
(** The controller's registers are bytes. *)
Class ChipLaws (T C : Type) `{!Pcd.Mfrc522Chip T C} := {
  read_register_u8 t r v : (Pcd.read_register t r).2 = Ok v -> u8 v
}.

Section Laws.
Context {T C S : Type} {CH : Pcd.Mfrc522Chip T C} {PL : Platform T} {ID : IsoDep S} {IL : IsoDepLaws S}.
Implicit Types d : Mfrc522NfcDriver T S.

(** The invariant of the driver: an active card has its session, on an
    initialised controller. *)
Record mfrc_ok d : Prop := {
  ok_uid : length (cached_uid d) = 10%nat /\ bytes (cached_uid d);
  ok_uid_len : (cached_uid_len d <= 10)%nat;
  ok_count : u32 (tr_reinit_count (init_tracker d));
  ok_session : lifecycle d = LActiveSession -> is_initialized d = true /\ session d <> None
}.

Lemma ok_same d d' : same_card d d' -> mfrc_ok d -> mfrc_ok d'.
Proof.
  intros (H1 & H2 & H3 & _ & _ & H6 & H7 & H8) []. split; rewrite ?H1, ?H2, ?H3, ?H6, ?H7, ?H8; auto.
Qed.

(** Without a session the slot is not active. *)
Lemma ok_idle d d' : mfrc_ok d -> cached_uid d' = cached_uid d -> (cached_uid_len d' <= 10)%nat ->
  init_tracker d' = init_tracker d -> lifecycle d' <> LActiveSession -> mfrc_ok d'.
Proof. intros [] H1 H2 H3 H4. split; rewrite ?H1, ?H3; auto. Qed.

Lemma power_off_ok d : mfrc_ok d -> mfrc_ok (power_off d) /\
  lifecycle (power_off d) <> LActiveSession /\ session (power_off d) = None /\
  is_initialized (power_off d) = is_initialized d.
Proof.
  intros Hd. assert (lifecycle (power_off d) <> LActiveSession) as Hl.
  { unfold power_off. cbn [lifecycle with_lifecycle]. by destruct (is_initialized _). }
  split; [|split; [done|]].
  - apply (ok_idle d); try done; unfold power_off; destruct (session d); try done; apply Hd.
  - unfold power_off. by destruct (session d) eqn:E.
Qed.

Lemma clear_session_ok d : mfrc_ok d -> mfrc_ok (clear_session d).
Proof.
  intros Hd. assert (lifecycle (clear_session d) <> LActiveSession) as Hl.
  { unfold clear_session. cbn [lifecycle with_session].
    destruct (bool_decide_reflect (lifecycle d = LNoCard)) as [E|E]; [|done].
    cbn. by rewrite E. }
  apply (ok_idle d); try done; unfold clear_session; destruct (bool_decide _); try done; apply Hd.
Qed.

Lemma absent_ok d : mfrc_ok d -> mfrc_ok (mark_card_absent d).
Proof. intros Hd. apply (ok_idle d); try done. cbn. lia. Qed.

Lemma presence_failure_ok d : mfrc_ok d -> mfrc_ok (presence_failure d).1.
Proof.
  intros Hd. unfold presence_failure.
  assert (mfrc_ok (with_failures (Z.min (consecutive_failures d + 1) u8_max) d)) as H by (by destruct Hd).
  destruct (_ <=? _); [by apply absent_ok|exact H].
Qed.

Lemma poll_ok d : mfrc_ok d -> mfrc_ok (poll_card_presence d).1.
Proof.
  intros Hd. unfold poll_card_presence.
  assert (mfrc_ok (with_presence_polls (sat_add32 (diag_presence_polls d) 1) d)) as H by (by destruct Hd).
  clear Hd. set (d0 := with_presence_polls _ _) in *. clearbody d0. clear d.
  unfold poll_physical_card. destruct (negb (is_initialized d0)); [done|].
  destruct (bool_decide _); [done|]. pose proof (reset_same d0) as Hs.
  destruct (reset_activation_frontend d0) as [d1 [[]|e]]; cbn [fst] in *.
  - apply (ok_same _ d1) in H; [|done].
    destruct (Pcd.wupa (transceiver d1)) as [t [[]|e]].
    + apply (ok_same _ (with_transceiver t d1)) in H; [|apply same_card_transceiver].
      cbn [fst]. unfold mark_card_present. destruct (bool_decide _); by destruct H.
    + apply presence_failure_ok. by eapply ok_same; [apply same_card_transceiver|].
  - apply presence_failure_ok. by eapply ok_same.
Qed.

Lemma rats_same n d : same_card d (rats_attempts n d).1 /\
  match (rats_attempts n d).2 with Some ats => bytes (historical_bytes ats) | None => True end.
Proof.
  revert d. induction n as [|n IH]; intros d; [by split; [apply same_card_refl|]|].
  cbn [rats_attempts]. pose proof (connect_bytes (transceiver d)) as Hb.
  destruct (from_connect (transceiver d)) as [t [ats|e]]; cbn [snd] in Hb.
  - split; [apply same_card_transceiver|by apply Hb].
  - destruct (IH (with_transceiver t d)) as [H1 H2]. split; [|done].
    eapply same_card_trans; [apply same_card_transceiver|exact H1].
Qed.

Lemma wake_same n first d : same_card d (wake_attempts n first d).1 /\
  match (wake_attempts n first d).2 with Some a => bytes (act_uid a) | None => True end.
Proof.
  revert first d. induction n as [|n IH]; intros first d; [by split; [apply same_card_refl|]|].
  cbn [wake_attempts].
  assert (forall d0, same_card d d0 -> 
    let r := (let '(t, r) := wakeup (transceiver d0) in
       let d := with_transceiver t d0 in
       match r with
       | Ok a => if iso14443_4_compliant a then (d, Some a) else wake_attempts n false d
       | Err _ => wake_attempts n false d
       end) in same_card d r.1 /\ match r.2 with Some a => bytes (act_uid a) | None => True end) as Hw.
  { intros d0 H0 r. subst r. pose proof (wakeup_bytes (transceiver d0)) as Hb.
    destruct (wakeup (transceiver d0)) as [t res]. cbn [snd] in Hb.
    assert (same_card d (with_transceiver t d0)) as H1.
    { eapply same_card_trans; [exact H0|apply same_card_transceiver]. }
    destruct (IH false (with_transceiver t d0)) as [H2 H3].
    assert (same_card d (wake_attempts n false (with_transceiver t d0)).1) as H4.
    { by eapply same_card_trans. }
    destruct res as [a|e]; [|done]. destruct (iso14443_4_compliant a); [|done].
    split; [done|]. by apply Hb. }
  destruct first; [apply Hw, same_card_refl|].
  pose proof (reset_same d) as Hr. destruct (reset_activation_frontend d) as [d1 r]. cbn [fst] in Hr.
  destruct (is_ok r).
  - apply Hw. eapply same_card_trans; [exact Hr|]. apply same_card_transceiver.
  - by split.
Qed.

Lemma cache_uid_ok uid d : bytes uid -> mfrc_ok d -> mfrc_ok (cache_uid uid d).
Proof.
  intros Hu [[H1 H1'] H2 H3 H4]. unfold cache_uid. destruct (_ <=? _)%nat eqn:E; [|by split].
  split; cbn [cached_uid cached_uid_len with_uid init_tracker lifecycle is_initialized session]; try done.
  - split; [rewrite length_app, length_drop; lia|]. apply bytes_app. split; [done|].
    by apply Forall_drop.
  - lia.
Qed.

Lemma length_pcsc_atr h : length (pcsc_atr h) = (7 + length h)%nat.
Proof. unfold pcsc_atr. rewrite length_app. cbn. lia. Qed.

Lemma pcsc_atr_bytes h : bytes h -> bytes (pcsc_atr h).
Proof.
  intros Hh. unfold pcsc_atr. cbn [app drop].
  assert (u8 (Z.lor 0x80 (Z.land (wrap8 (Z.of_nat (length h))) 0x0F))) as Ht.
  { change 0x0F with (Z.ones 4). rewrite Z.land_ones by lia.
    destruct (high_nibble_byte (wrap8 (Z.of_nat (length h)) mod 2 ^ 4)) as (-> & _);
      [|unfold u8]; Z.to_euclidean_division_equations; lia. }
  repeat apply Forall_cons_2; [by vm_compute|done|by vm_compute..|].
  apply bytes_app. split; [done|]. apply Forall_singleton, u8_xor_all.
  repeat apply Forall_cons_2; [done|by vm_compute..|done].
Qed.

(** What a power-on leaves behind: a session and the announcement of its ATS,
    or an untouched buffer. *)
Definition powered (buf : list Z) (r : filled (Mfrc522NfcDriver T S) NfcError) : Prop :=
  mfrc_ok r.1.1 /\
  match r.2 with
  | Ok n => exists ats, cached_ats r.1.1 = Some ats /\ bytes (historical_bytes ats) /\
      n = length (pcsc_atr (historical_bytes ats)) /\ (n <= length buf)%nat /\
      r.1.2 = pcsc_atr (historical_bytes ats) ++ drop n buf /\
      lifecycle r.1.1 = LActiveSession /\ consecutive_failures r.1.1 = 0 /\
      cfg_fwt_ms r.1.1 = frame_waiting_ms (fwi ats)
  | Err BufferOverflow => r.1.2 = buf /\ lifecycle r.1.1 = LActiveSession
  | Err _ => r.1.2 = buf /\ lifecycle r.1.1 <> LActiveSession
  end.

Lemma powered_err buf d e : mfrc_ok d -> lifecycle d <> LActiveSession -> e <> BufferOverflow ->
  powered buf (d, buf, Err e).
Proof. intros. split; [done|]. by destruct e. Qed.

Lemma on_pcd_err {A} (m : T -> fallible T A (Pcd.Mfrc522Error C)) d e :
  (on_pcd m d).2 = Err e -> e = CommunicationError.
Proof. unfold on_pcd, map_err. destruct (m (transceiver d)) as [t [a|e']]; cbn; congruence. Qed.

Lemma establish_powered ats buf d : mfrc_ok d -> is_initialized d = true ->
  lifecycle d <> LActiveSession -> bytes (historical_bytes ats) -> powered buf (establish ats buf d).
Proof.
  intros Hd Hi Hl Hb. unfold establish.
  pose proof (on_pcd_same Pcd.enable_hw_crc d) as H1. pose proof (on_pcd_err Pcd.enable_hw_crc d) as E1.
  destruct (on_pcd Pcd.enable_hw_crc d) as [d1 [[]|e]]; cbn [fst snd] in *; cycle 1.
  { rewrite (E1 e eq_refl). apply powered_err; [by eapply ok_same|by destruct H1 as (_ & -> & _)|done]. }
  set (s := set_fsc _ _). set (d2 := if _ <? _ then _ else d1).
  assert (same_card d d2) as H2.
  { eapply same_card_trans; [exact H1|]. unfold d2. destruct (_ <? _); [|apply same_card_refl].
    apply same_card_transceiver. }
  clearbody d2. clear H1 E1 d1. set (fwt := frame_waiting_ms (fwi ats)).
  set (m := fun t => Pcd.set_timeout_ms t fwt).
  pose proof (on_pcd_same m d2) as H3. pose proof (on_pcd_err m d2) as E3.
  destruct (on_pcd m d2) as [d3 [[]|e]]; cbn [fst snd] in *.
  all: assert (same_card d d3) as Hs by (eapply same_card_trans; eassumption).
  - set (d4 := with_failures _ _). assert (mfrc_ok d4) as H4.
    { pose proof (ok_same _ _ Hs Hd) as []. split; try done. intros _. split; [|done].
      unfold d4. cbn. destruct Hs as (-> & _). done. }
    unfold build_pcsc_atr, build_pcsc_atr_from_historical. rewrite <- length_pcsc_atr.
    destruct (_ <? _)%nat eqn:E; split; try done. cbn [fst snd].
    exists ats. split_and!; try done. lia.
  - rewrite (E3 e eq_refl). apply powered_err; [by eapply ok_same|by destruct Hs as (_ & -> & _)|done].
Qed.

Lemma clear_session_idle d : lifecycle (clear_session d) <> LActiveSession.
Proof.
  unfold clear_session. cbn [lifecycle with_session].
  destruct (bool_decide_reflect (lifecycle d = LNoCard)) as [E|E]; [|done]. cbn. by rewrite E.
Qed.

Lemma cache_uid_lifecycle uid d : lifecycle (cache_uid uid d) = lifecycle d /\
  is_initialized (cache_uid uid d) = is_initialized d.
Proof. unfold cache_uid. by destruct (_ <=? _)%nat. Qed.

Lemma reset_err d e : (reset_activation_frontend d).2 = Err e -> e = CommunicationError.
Proof.
  unfold reset_activation_frontend, rbind.
  repeat match goal with
  | |- context [on_pcd ?m ?d] =>
      let E := fresh in pose proof (on_pcd_err m d) as E; destruct (on_pcd m d) as [? [?|?]];
      cbn [fst snd] in *
  | H : forall e', Err ?e = Err e' -> _ |- Err ?e = Err _ -> _ => exact (H _)
  | |- Ok _ = Err _ -> _ => done
  end; auto.
Qed.

Lemma power_on_powered d buf : mfrc_ok d -> powered buf (power_on d buf).
Proof.
  intros Hd. unfold power_on. destruct (is_initialized d) eqn:Ei; cbn [negb]; cycle 1.
  { apply powered_err; [done| |done]. intros Hl. destruct (ok_session d Hd Hl). congruence. }
  set (d1 := if _ || _ then power_off d else d).
  assert (mfrc_ok d1 /\ is_initialized d1 = true /\ lifecycle d1 <> LActiveSession) as (H1 & Hi & Hl).
  { unfold d1. destruct (power_off_ok d Hd) as (P1 & P2 & _ & P4).
    destruct (bool_decide_reflect (lifecycle d = LActiveSession)); cbn [orb].
    - by rewrite P4.
    - destruct (session d); [by rewrite P4|done]. }
  clearbody d1. pose proof (reset_same d1) as Hs. pose proof (reset_err d1) as He.
  destruct (reset_activation_frontend d1) as [d2 [[]|e]]; cbn [fst snd] in *; cycle 1.
  { rewrite (He e eq_refl). apply powered_err; [by eapply ok_same|by destruct Hs as (_ & -> & _)|done]. }
  assert (same_card d1 (pause 15 d2)) as Hp.
  { eapply same_card_trans; [exact Hs|apply same_card_transceiver]. }
  destruct (wake_same ACTIVATION_ATTEMPTS true (pause 15 d2)) as [Hw Hu].
  destruct (wake_attempts _ _ _) as [d3 [a|]]; cbn [fst snd] in *.
  all: assert (same_card d1 d3) as H3 by (eapply same_card_trans; eassumption).
  all: pose proof (ok_same _ _ H3 H1) as Hd3.
  2: { apply powered_err; [by apply clear_session_ok|apply clear_session_idle|done]. }
  pose proof (cache_uid_ok (act_uid a) d3 Hu Hd3) as H4.
  destruct (rats_same ACTIVATION_ATTEMPTS (cache_uid (act_uid a) d3)) as [Hr Hb].
  destruct (cache_uid_lifecycle (act_uid a) d3) as [L1 L2].
  destruct (rats_attempts _ _) as [d5 [ats|]]; cbn [fst snd] in *.
  all: pose proof (ok_same _ _ Hr H4) as Hd5.
  2: { apply powered_err; [by apply clear_session_ok|apply clear_session_idle|done]. }
  destruct Hr as (R1 & R2 & _). destruct H3 as (S1 & S2 & _).
  apply establish_powered; try done; congruence.
Qed.

Lemma powered_fills buf r : powered buf r -> fills mfrc_ok buf r.
Proof.
  destruct r as [[d b] [n|e]]; intros [Hd H]; cbn [fst snd] in *.
  - destruct H as (ats & _ & Hb & -> & Hn & -> & _). unfold fills. cbn [fst snd].
    rewrite length_app, length_drop. split_and!; [done|lia| |done].
    intros Hbuf. apply bytes_app. split; [by apply pcsc_atr_bytes|by apply Forall_drop].
  - assert (b = buf) as -> by (by destruct e, H). by apply fills_unchanged.
Qed.

Lemma transmit_ok d cmd buf : mfrc_ok d -> fills mfrc_ok buf (transmit_apdu d cmd buf).
Proof.
  intros Hd. unfold transmit_apdu. destruct (is_initialized d) eqn:Ei; cbn [negb];
    [|by apply fills_unchanged].
  destruct (session d) as [s|] eqn:Es; [|by apply fills_unchanged].
  destruct (bool_decide_reflect (lifecycle d = LActiveSession)) as [El|]; cbn [negb];
    [|by apply fills_unchanged].
  pose proof (exchange_bytes s (mkCounting (transceiver d) 0 0 0 0) cmd) as Hb.
  destruct (exchange s _ cmd) as [s' [c r]]. cbn [fst snd] in Hb.
  set (d1 := with_last_exchange _ _).
  assert (mfrc_ok (with_session (Some s') d1)) as H1.
  { destruct Hd. split; try done. }
  destruct r as [resp|e].
  - destruct (_ <? _)%nat eqn:E; [by apply fills_unchanged|].
    unfold fills. cbn [fst snd]. rewrite length_app, length_drop. split_and!; [|lia| |lia].
    + destruct Hd. split; try done.
    + intros Hbuf. apply bytes_app. split; [by apply Hb|by apply Forall_drop].
  - apply fills_unchanged. destruct Hd. unfold clear_session. 
    destruct (bool_decide _); split; try done.
Qed.

#[export] Instance mfrc522_laws : NfcDriverLaws (Mfrc522NfcDriver T S) NfcError.
Proof.
  refine {| nfc_ok := mfrc_ok |}.
  - intros d buf Hd. by apply powered_fills, power_on_powered.
  - apply transmit_ok.
  - intros d Hd. by apply power_off_ok.
  - apply poll_ok.
  - apply poll_ok.
  - intros d u Hd E. destruct Hd as [[_ Hu] Hl _ _]. revert E.
    change (nfc_card_uid d) with
      (if (0 <? cached_uid_len d)%nat then Some (take (cached_uid_len d) (cached_uid d)) else None).
    destruct (_ <? _)%nat; [|done]. intros [= <-].
    split; [by apply Forall_take|]. rewrite length_take. lia.
  - intros d Hd. apply Hd.
Defined.

(** *** The rest of the trait *)
Lemma init_same d : same_card (with_initialized (is_initialized (init d).1) d) (init d).1.
Proof.
  unfold init, rbind. pose proof (on_pcd_same Pcd.version d) as (H1 & H2 & H3 & H4 & H5 & H6 & H7 & H8).
  destruct (on_pcd Pcd.version d) as [d1 [v|e]]; cbn [fst snd] in *; [|by split_and!].
  destruct (negb _ && negb _); [by split_and!|].
  pose proof (on_pcd_same Pcd.set_antenna_gain d1) as (I1 & I2 & I3 & I4 & I5 & I6 & I7 & I8).
  destruct (on_pcd Pcd.set_antenna_gain d1) as [d2 [[]|e]]; cbn [fst snd] in *;
    split_and!; cbn; congruence.
Qed.

Lemma init_ok d : mfrc_ok d -> mfrc_ok (init d).1.
Proof.
  intros Hd. assert (is_initialized d = true -> is_initialized (init d).1 = true) as Hi.
  { intros Hi. unfold init, rbind. pose proof (on_pcd_same Pcd.version d) as (H1 & _).
    destruct (on_pcd Pcd.version d) as [d1 [v|e]]; cbn [fst snd] in *; [|congruence].
    destruct (negb _ && negb _); [cbn; congruence|].
    pose proof (on_pcd_same Pcd.set_antenna_gain d1) as (I1 & _).
    destruct (on_pcd Pcd.set_antenna_gain d1) as [d2 [[]|e]]; cbn in *; congruence. }
  eapply ok_same; [apply init_same|]. destruct Hd as [? ? ? Hs]. split; try done.
  intros Hl. destruct (Hs Hl) as [H1 H2]. split; [by apply Hi|done].
Qed.

Lemma record_failure_u32 k : u32 (tr_reinit_count k) -> u32 (tr_reinit_count (record_failure k).1).
Proof.
  unfold record_failure, sat_add32, u32, u32_max. intros. destruct (_ <=? _); cbn; lia.
Qed.

Lemma full_reinit_ok d : mfrc_ok d -> mfrc_ok (full_reinit d).1.
Proof.
  intros Hd. unfold full_reinit, rbind. set (d0 := with_failures _ _).
  assert (mfrc_ok d0) as H0 by (apply (ok_idle d); try done; cbn; lia).
  pose proof (reset_same d0) as Hs. destruct (reset_activation_frontend d0) as [d1 [[]|e]];
    cbn [fst snd] in *; [apply init_ok|]; by eapply ok_same.
Qed.

Lemma init_with_recovery_ok d : mfrc_ok d -> mfrc_ok (init_with_recovery d).1.
Proof.
  intros Hd. unfold init_with_recovery. set (d0 := with_attempts _ d).
  assert (mfrc_ok d0) as H0 by (by destruct Hd). pose proof (init_ok d0 H0) as H1.
  destruct (init d0) as [d1 [[]|e]]; cbn [fst] in *; [by destruct H1|].
  set (d2 := with_bus_errors _ _). assert (mfrc_ok d2) as H2 by (by destruct H1).
  pose proof (record_failure_u32 (init_tracker d2) (ok_count d2 H2)) as Hk.
  destruct (record_failure (init_tracker d2)) as [k b]. cbn [fst] in Hk.
  assert (mfrc_ok (with_tracker k d2)) as H3 by (by destruct H2).
  destruct b; [by apply full_reinit_ok|done].
Qed.

#[export] Instance mfrc522_service_laws : NfcServiceLaws (Mfrc522NfcDriver T S) NfcError.
Proof. split; [apply init_ok|apply init_with_recovery_ok|done]. Qed.

Lemma pcd_timer_registers_bytes `{!ChipLaws T C} t l : (Pcd.timer_registers t).2 = Ok l ->
  bytes l /\ length l = 4%nat.
Proof.
  assert (forall t r v, (Pcd.read_register t r).2 = Ok v -> u8 v) as Hr by (intros *; apply read_register_u8).
  unfold Pcd.timer_registers, rbind.
  repeat match goal with
  | |- context [Pcd.read_register ?t ?r] =>
      let E := fresh in pose proof (Hr t r) as E; destruct (Pcd.read_register t r) as [? [?|?]];
      cbn [fst snd] in *; [specialize (E _ eq_refl)|done]
  end.
  intros [= <-]. split; [|done]. repeat apply Forall_cons_2; done || constructor.
Qed.

#[export] Instance mfrc522_probes_laws `{!ChipLaws T C} : NfcProbesLaws (Mfrc522NfcDriver T S) NfcError.
Proof.
  split.
  - intros d Hd. cbn [EspHandler.timer_registers mfrc522_probes]. unfold timer_registers.
    pose proof (pcd_timer_registers_bytes (transceiver d)) as Hb.
    destruct (Pcd.timer_registers (transceiver d)) as [t r]. cbn [fst snd] in *.
    split; [exact (ok_same _ _ (same_card_transceiver _ _) Hd)|].
    intros l. destruct r as [l'|e]; [|done]. intros [= <-]. by apply Hb.
  - intros d n Hd. cbn [EspHandler.i2c_timing_probe mfrc522_probes]. unfold i2c_timing_probe.
    destruct (Mfrc522.now_us _) as [t us]. destruct (probe_reads _ t) as [t1 []].
    + destruct (Mfrc522.now_us t1) as [t2 us2]. exact (ok_same _ _ (same_card_transceiver _ _) Hd).
    + exact (ok_same _ _ (same_card_transceiver _ _) Hd).
Qed.

Lemma new_ok t : mfrc_ok (new t).
Proof.
  split; [split; [done|]| | |]; cbn; [solve_bytes|lia|unfold u32; lia|done].
Qed.

Lemma boot_inits_ok n d : mfrc_ok d -> mfrc_ok (boot_inits n d).1.
Proof.
  revert d. induction n as [|n IH]; intros d Hd; [done|]. cbn [boot_inits].
  pose proof (init_with_recovery_ok d Hd) as H1. destruct (init_with_recovery d) as [d1 r].
  destruct (is_ok r); [done|]. apply IH. by eapply ok_same; [apply same_card_transceiver|].
Qed.

Lemma bring_up_ok bus addr : nfc_ok (frontend_bring_up bus addr).1.
Proof.
  unfold frontend_bring_up. destruct (Pcd.bring_up bus addr) as [t [v|e]]; [|exact I].
  pose proof (boot_inits_ok 5 (new t) (new_ok t)) as H.
  destruct (boot_inits 5 (new t)) as [d []]; exact H.
Qed.
End Laws.

Lemma bring_up_health {T C S} `{!Pcd.Mfrc522Chip T C, !Platform T, !IsoDep S} (bus : T) addr :
  let boot : Frontend (S := S) * bool := frontend_bring_up bus addr in
  boot.2 = true <-> health (frontend_status boot.1) = Healthy.
Proof.
  intros boot. unfold boot, frontend_bring_up. destruct (Pcd.bring_up bus addr) as [t [v|e]]; [|done].
  destruct (boot_inits 5 (new t)) as [d []]; cbn; by destruct (is_initialized d).
Qed.

(** C20: powering a card on through the MFRC522.  From a driver within its
    invariant, whatever the controller and the card do: on success a session is
    active, at the frame waiting time of the card's ATS, and the caller's
    buffer holds, before what it held, the synthetic ATR around the ATS's
    historical bytes, which the shared parser reads as a T=1 card (IFSC 254,
    BWI 4, CWI 5) with a correct check byte and, up to fifteen historical
    bytes, their true count.  On an error the buffer is untouched and no
    session is active, the one exception being an ATR that does not fit the
    buffer: that one leaves the session it had opened. *)
Theorem mfrc522_power_on {T C S} `{!Pcd.Mfrc522Chip T C, !Platform T, !IsoDep S, !IsoDepLaws S}
    (d : Mfrc522NfcDriver T S) buf :
  mfrc_ok d ->
  let r := power_on d buf in
  mfrc_ok r.1.1 /\
  match r.2 with
  | Ok n => exists ats atr, cached_ats r.1.1 = Some ats /\ lifecycle r.1.1 = LActiveSession /\
      cfg_fwt_ms r.1.1 = frame_waiting_ms (fwi ats) /\ (n <= length buf)%nat /\
      r.1.2 = atr ++ drop n buf /\ n = length atr /\
      parse_atr atr = contactless_params /\ verify_atr_tck atr 1 = true /\
      exists t0 head tck, atr = 0x3B :: t0 :: head ++ historical_bytes ats ++ [tck] /\
        ((length (historical_bytes ats) <= 15)%nat ->
         Z.land t0 0x0F = Z.of_nat (length (historical_bytes ats)))
  | Err BufferOverflow => r.1.2 = buf /\ lifecycle r.1.1 = LActiveSession
  | Err _ => r.1.2 = buf /\ lifecycle r.1.1 <> LActiveSession
  end.
Proof.
  intros Hd r. destruct (power_on_powered d buf Hd) as [H1 H2]. fold r in H1, H2.
  split; [done|]. destruct (r.2) as [n|e]; [|done].
  destruct H2 as (ats & Ha & _ & Hn & Hle & Hb & Hl & _ & Hf).
  exists ats, (pcsc_atr (historical_bytes ats)). set (h := historical_bytes ats) in *.
  split_and!; try done.
  - change (pcsc_atr h) with ((atr_head (length h) ++ h) ++
      [xor_all (drop 1 (atr_head (length h) ++ h))]).
    rewrite <- app_assoc. apply parse_contactless.
  - apply (verify_tck_snoc 0x3B (drop 1 (atr_head (length h) ++ h))).
  - eexists _, [0x81; 0x31; 0xFE; t1_tb3 4 5], _. split; [reflexivity|].
    intros Hh. unfold wrap8. rewrite (Z.mod_small (Z.of_nat (length h)) 256) by lia.
    change 0x0F with (Z.ones 4) at 1. rewrite Z.land_ones, Z.mod_small by lia.
    destruct (high_nibble_byte (Z.of_nat (length h)) ltac:(lia)) as (E1 & _ & E2).
    by rewrite E1, E2.
Qed.

(** C19: from the bus to the host, nothing brings the reader down.  Whatever
    controller answers on the constructed bus, or none, and however it, the card and the
    host behave: the firmware boots over the front end [frontend_bring_up]
    makes of it and serves any interleaving of received bytes, polls and the
    other calls of the mains to the end, without a panic, within the invariant
    of the whole stack, and with every served command answered as
    [serial_server_safe] says.  The front end reports itself healthy at
    boot exactly when the bring-up succeeded. *)
Theorem booted_reader_serves {T C S} `{!Pcd.Mfrc522Chip T C, !Platform T, !IsoDep S, !IsoDepLaws S,
    !ChipLaws T C} (bus : T) addr clock poll w now cfg cs :
  Forall call_ok cs ->
  let boot : Frontend (S := S) * bool := frontend_bring_up bus addr in
  exists s' b' answers,
    run call_step (with_config (EspHandler.new boot.1 clock) poll w now cfg,
      TimeExtension.boot) cs = Ret ((s', b'), answers) /\
    server_ok s' b' /\ Forall answer_ok answers /\
    (boot.2 = true <-> health (frontend_status boot.1) = Healthy).
Proof.
  intros Hcs boot. destruct (calls_ok (with_config (EspHandler.new boot.1 clock) poll w now cfg)
    TimeExtension.boot cs) as (s' & b' & answers & H1 & H2 & H3); [|done|].
  { apply server_new_ok, esp_new_ok. apply bring_up_ok. }
  exists s', b', answers. split; [done|]. split; [done|]. split; [done|].
  apply bring_up_health.
Qed.

(** ** Witnesses: a bench controller with a card *)
Module Bench.
(** The version register, the answers to the coming wake-ups, the registers
    written (latest first) and the clock. *)
Record Chip := mkChip {
  version_reg : Z;
  wakes : list bool;
  written : list (Pcd.Register * Z);
  us : Z
}.
Definition set_written w c : Chip := mkChip (version_reg c) (wakes c) w (us c).
Definition fifo (l : list Z) : Pcd.FifoData := Pcd.mkFifo (length l) 0 l.

(** The card: an anticollision UID, an ATS of three historical bytes, 90 00 to
    every I-block. *)
Definition answer (f : list Z) : result (list Z) (Pcd.Mfrc522Error unit) :=
  match f with
  | 0x26 :: _ => Ok [0x04; 0xA1; 0xB2; 0xC3]
  | 0xE0 :: _ => Ok [0x80; 0x73; 0x08]
  | 0x02 :: _ => Ok [0x02; 0x90; 0x00]
  | _ => Err Pcd.Timeout
  end.

#[global] Instance bench_chip : Pcd.Mfrc522Chip Chip unit := {
  Pcd.chip_init c _ := (c, Ok tt);
  Pcd.set_antenna_gain c := (c, Ok tt);
  Pcd.version c := (c, Ok (version_reg c));
  Pcd.write_register c r v := (set_written ((r, v) :: written c) c, Ok tt);
  Pcd.read_register c _ := (c, Ok 0);
  Pcd.rmw_register c _ _ := (c, Ok tt);
  Pcd.wupa c :=
    (mkChip (version_reg c) (tail (wakes c)) (written c) (us c),
     if default false (head (wakes c)) then Ok tt else Err Pcd.Timeout);
  Pcd.chip_transceive c _ d _ _ :=
    (c, match answer d with Ok l => Ok (fifo l) | Err e => Err e end)
}.
#[global] Instance bench_chip_laws : ChipLaws Chip unit.
Proof. split. intros c r v [= <-]. unfold u8. lia. Qed.
#[global] Instance bench_platform : Platform Chip := {
  delay_ms c ms := mkChip (version_reg c) (wakes c) (written c) (us c + 1000 * ms);
  now_us c := (mkChip (version_reg c) (wakes c) (written c) (us c + 700), us c)
}.

(** A session that frames a command as one I-block. *)
Definition ask {X E} `{!Pcd.PcdTransceiver X E} (x : X) (f : Pcd.Frame) : fallible X (list Z) unit :=
  let '(x, r) := Pcd.transceive x f in
  (x, match r with Ok l => Ok (map wrap8 l) | Err _ => Err tt end).
#[global] Instance bench_isodep : IsoDep unit := {
  wakeup X E _ x :=
    let '(x, r) := ask x (Pcd.Short [0x26]) in
    (x, match r with Ok u => Ok (mkActivation u true) | Err e => Err e end);
  from_connect X E _ x :=
    let '(x, r) := ask x (Pcd.Standard [0xE0; 0x50]) in
    (x, match r with Ok h => Ok (mkAts h 0 64 8) | Err e => Err e end);
  from_ats _ := tt;
  set_limits s := s;
  set_fsc s _ := s;
  set_base_fwt_ms s _ := s;
  deselect X E _ s x := x;
  exchange X E _ s x cmd :=
    let '(x, r) := ask x (Pcd.Standard (0x02 :: cmd)) in
    (s, (x, match r with Ok l => Ok (drop 1 l) | Err e => Err e end))
}.

Lemma ask_bytes {X E} `{!Pcd.PcdTransceiver X E} (x : X) f l : (ask x f).2 = Ok l -> bytes l.
Proof.
  unfold ask. destruct (Pcd.transceive x f) as [x' [l'|e]]; [|done]. intros [= <-].
  apply Forall_map. induction l'; constructor; [apply u8_wrap8|done].
Qed.

#[global] Instance bench_isodep_laws : IsoDepLaws unit.
Proof.
  split.
  - intros X E P x a. cbn. pose proof (ask_bytes x (Pcd.Short [0x26])) as H.
    destruct (ask x (Pcd.Short [0x26])) as [x' [l|e]]; [|done]. intros [= <-]. by apply H.
  - intros X E P x a. cbn. pose proof (ask_bytes x (Pcd.Standard [0xE0; 0x50])) as H.
    destruct (ask x _) as [x' [l|e]]; [|done]. intros [= <-]. by apply H.
  - intros X E P s x cmd resp. cbn. pose proof (ask_bytes x (Pcd.Standard (0x02 :: cmd))) as H.
    destruct (ask x _) as [x' [l|e]]; [|done]. intros [= <-]. apply Forall_drop. by apply H.
Qed.

Definition chip (v : Z) (wakes : list bool) : Chip := mkChip v wakes [] 0.
Definition idle (wakes : list bool) : Mfrc522NfcDriver Chip unit :=
  with_initialized true (new (chip 0x92 wakes)).
End Bench.

Example timer_armed_witness :
  u32 87 /\
  (Pcd.set_timeout_ms (Bench.chip 0x92 []) 87).1 =
    Bench.set_written [(Pcd.TReloadRegLow, 0x98); (Pcd.TReloadRegHigh, 0x0D);
      (Pcd.TPrescalerReg, 0xA9); (Pcd.TModeReg, 0x80)] (Bench.chip 0x92 []) /\
  exists tmode tpre hi lo,
    Pcd.set_timeout_ms (Bench.chip 0x92 []) 87 = arm tmode tpre hi lo (Bench.chip 0x92 []).
Proof.
  assert (u32 87) as Hu by (unfold u32; lia). split; [done|]. split; [vm_compute; reflexivity|].
  destruct (timer_armed (Bench.chip 0x92 []) 87 Hu) as (a & b & c & d & H & _). by exists a, b, c, d.
Defined.

(** Two missed answers, then three: ejected by the third. *)
Example presence_debounced_witness :
  let seen := [true; false; false; true; false; false; false; true] in
  map snd (watch 8 (Bench.idle seen)).2 = [true; true; true; true; true; true; false; true] /\
  map snd (watch 8 (Bench.idle seen)).2 =
    debounced false false (map fst (watch 8 (Bench.idle seen)).2).
Proof.
  intros seen. split; [vm_compute; reflexivity|].
  by apply (presence_debounced 8 (Bench.idle seen)).
Defined.

(** A controller that answers with a wrong version: five failing attempts at boot,
    then seven failing polls, with the re-initialisation behind the first, the
    fourth and the seventh of them. *)
Example degraded_recovery_witness :
  let d := (boot_inits (S := unit) 5 (new (Bench.chip 0x00 []))).1 in
  init_tracker d = mkTracker 2 1 /\
  Retry.degraded (retry_polls 7 (Retry.new_degraded d)).1 = true /\
  nfc_reinit_count (retry_polls 7 (Retry.new_degraded d)).1 = 4 /\
  (retry_polls 7 (Retry.new_degraded d)).2 = replicate 7 false.
Proof.
  intros d. assert (init_tracker d = mkTracker 2 1) as Hk by (vm_compute; reflexivity).
  split; [exact Hk|].
  assert (tr_consecutive_failures (init_tracker d) = 2 /\ nfc_reinit_count d = 1) as [Hf Hc]
    by (split; vm_compute; reflexivity).
  pose proof (degraded_recovery 7 d) as H. cbv zeta in H. rewrite Hf, Hc in H.
  specialize (H ltac:(lia) ltac:(unfold u32; lia)).
  assert ((attempts 1 7 2 d).2 = None) as Hd by (vm_compute; reflexivity).
  destruct (retry_polls 7 (Retry.new_degraded d)) as [r seen].
  destruct (attempts 1 7 2 d) as [d' first]. cbn [snd] in Hd. subst first.
  destruct H as (H1 & H2 & H3 & _). split; [by rewrite H1|]. split; [exact H3|exact H2].
Defined.

Example mfrc522_power_on_witness :
  let d := Bench.idle [] in
  let r := power_on d (replicate 12 0) in
  r.1.2 = [0x3B; 0x83; 0x81; 0x31; 0xFE; 0x45; 0x80; 0x73; 0x08; 0x73; 0; 0] /\
  lifecycle r.1.1 = LActiveSession /\ mfrc_ok r.1.1.
Proof.
  intros d r. assert (mfrc_ok d) as Hd.
  { split; [split; [done|]| | |]; cbn; [solve_bytes|lia|unfold u32; lia|done]. }
  split; [vm_compute; reflexivity|]. split; [vm_compute; reflexivity|].
  exact (proj1 (mfrc522_power_on d (replicate 12 0) Hd)).
Defined.

(** A GetSlotStatus over a controller nobody answers for. *)
Example booted_reader_serves_witness :
  let cs := zip_with (fun c t => FeedByte c t 1) (frame_of SerialDemo.status) (replicate 13 5) ++
              [OnReadIdle 60] in
  let boot := frontend_bring_up (S := unit) (Bench.chip 0x88 []) 0x28 in
  boot.2 = false /\
  exists s' b' answers,
    run call_step (with_config (EspHandler.new boot.1 []) 50 (from_tick_hz 100) 0 ServeConfig_default,
      TimeExtension.boot) cs = Ret ((s', b'), answers) /\ server_ok s' b'.
Proof.
  intros cs boot. split; [vm_compute; reflexivity|].
  destruct (booted_reader_serves (S := unit) (Bench.chip 0x88 []) 0x28 [] 50 (from_tick_hz 100) 0
    ServeConfig_default cs) as (s' & b' & a & H1 & H2 & _).
  { solve_computed ltac:(first [exact I | split; [unfold u8; lia|split; [unfold u32; lia|lia]]
                        | unfold call_ok, u32; lia]). }
  exists s', b', a. split; [exact H1|exact H2].
Defined.

(** *** What the life cycle leaves behind *)
(** Powering off an empty slot marks a card present: the next two polls report
    one that was never there, the third takes it back. *)
Example power_off_marks_empty_slot :
  let d := power_off (Bench.idle []) in
  lifecycle (Bench.idle []) = LNoCard /\ lifecycle d = LPresentInactive /\
  map snd (watch 3 d).2 = [true; true; false] /\ map fst (watch 3 d).2 = [false; false; false].
Proof. vm_compute. repeat split. Qed.

(** An ATR that does not fit the caller's buffer fails the power-on, and leaves
    the session it opened: presence polls no longer touch the field. *)
Example short_buffer_leaves_session :
  let r := power_on (Bench.idle []) (replicate 8 0) in
  r.2 = Err BufferOverflow /\ lifecycle r.1.1 = LActiveSession /\
  (poll_card_presence r.1.1).2 = true.
Proof. vm_compute. repeat split. Qed.

(** Sixteen historical bytes: T0 announces none. *)
Example sixteen_historical_bytes :
  nth 1 (pcsc_atr (replicate 16 0x41)) 0 = 0x80.
Proof. reflexivity. Qed.

(** The third failing initialisation, recovered by the full one it runs: the
    error stays on record. *)
Module Drift.
#[global] Instance drifting : Pcd.Mfrc522Chip (Z * list Z) unit := {
  Pcd.chip_init c _ := (c, Ok tt);
  Pcd.set_antenna_gain c := (c, Ok tt);
  Pcd.version c := ((c.1, tail c.2), Ok (default 0x92 (head c.2)));
  Pcd.write_register c _ _ := (c, Ok tt);
  Pcd.read_register c _ := (c, Ok 0);
  Pcd.rmw_register c _ _ := (c, Ok tt);
  Pcd.wupa c := (c, Ok tt);
  Pcd.chip_transceive c _ _ _ _ := (c, Err Pcd.Timeout)
}.
#[global] Instance drifting_platform : Platform (Z * list Z) := {
  delay_ms c ms := (c.1 + ms, c.2);
  now_us c := (c, c.1)
}.
Definition driver : Mfrc522NfcDriver (Z * list Z) unit := new (0, [0; 0; 0]).
End Drift.

Example reinit_keeps_error :
  let r := init_with_recovery (init_with_recovery (init_with_recovery Drift.driver).1).1 in
  is_ok r.2 = true /\ frontend_status r.1 = mkStatus Healthy FBus 3 1 3 0.
Proof. vm_compute. repeat split. Qed.
