(* ===== verification/Vpcd.v ===== *)
(** * The virtual smart card client

    [ccid-service/src/vpcd.rs]: the client of the host's vpcd driver.  Messages
    carry a two-byte length; a message of one byte is a control, any other an
    APDU for the card driver of the handler of [EspHandler.v].  The socket is
    the list of what its reads are going to meet and of the writes it is going
    to refuse; connecting and reconnecting are not modelled.  A log line is
    represented by what its format string prints.  The theorems are in
    [VpcdSpec.v]. *)
From Stdlib Require Import ZArith Lia ZifyBool.
From stdpp Require Import prelude.
From S2P Require Import Prelude CardInterface Handler EspHandler Frontend.
Local Open Scope Z_scope.

Module Vpcd.

Definition VPCD_CTRL_OFF : Z := 0x00.
Definition VPCD_CTRL_ON : Z := 0x01.
Definition VPCD_CTRL_RESET : Z := 0x02.
Definition VPCD_CTRL_ATR : Z := 0x04.

(** ** The absence gate *)
Inductive AbsenceNote := Transition | Heartbeat (polls : Z).

Record AbsenceGate := mkGate { was_present : bool; absent_polls : Z }.
Definition ABSENCE_LOG_EVERY : Z := 900.
Definition gate_new : AbsenceGate := mkGate true 0.

Definition note_absent (g : AbsenceGate) : AbsenceGate * option AbsenceNote :=
  let polls := wrapping_add32 (absent_polls g) 1 in
  if was_present g then (mkGate false 1, Some Transition)
  else (mkGate false polls,
        if polls mod ABSENCE_LOG_EVERY =? 0 then Some (Heartbeat polls) else None).
Definition note_present (g : AbsenceGate) : AbsenceGate := mkGate true 0.

(** ** Log lines *)
Inductive LogLine :=
| LCtrl (b : Z)                        (* "ctrl 0x{:02x}" *)
| LApdu (n : nat)                      (* "APDU {}B [redacted]" *)
| LStatus (n : nat) (sw1 sw2 : Z)      (* "{}B SW {:02x}{:02x}" *)
| LLength (n : nat).                   (* "{}B" *)

Definition request_log_line (payload : list Z) : LogLine :=
  match payload with [b] => LCtrl b | _ => LApdu (length payload) end.
Definition response_log_line (resp : list Z) (was_apdu : bool) : outcome LogLine :=
  if was_apdu && (2 <=? length resp)%nat then
    let n := length resp in
    a ← index resp (n - 2);
    b ← index resp (n - 1);
    Ret (LStatus n a b)
  else Ret (LLength (length resp)).

(** ** The client *)
(** The handler, the gate shared by the probes, the exchange buffer and the
    cached ATR of the connection. *)
Record Client (D : Type) := mkClient {
  handler : CcidHandler D;
  gate : AbsenceGate;
  rx_buf : list Z;
  cached_atr : list Z
}.
Arguments mkClient {D}.
Arguments handler {D} _.
Arguments gate {D} _.
Arguments rx_buf {D} _.
Arguments cached_atr {D} _.

Section Client.
Context {D E : Type} `{!NfcDriver D E}.
Implicit Types c : Client D.

Definition driver c : D := driver_of (handler c).
Definition with_driver (d : D) c : Client D :=
  mkClient (EspHandler.with_driver d (handler c)) (gate c) (rx_buf c) (cached_atr c).
Definition with_gate g c : Client D := mkClient (handler c) g (rx_buf c) (cached_atr c).
Definition with_rx_buf b c : Client D := mkClient (handler c) (gate c) b (cached_atr c).
Definition with_cache atr c : Client D := mkClient (handler c) (gate c) (rx_buf c) atr.

(** [power_on] into a fresh 64-byte buffer: the ATR written. *)
Definition power_on c : outcome (Client D * option (list Z)) :=
  let '(d, atr, r) := nfc_power_on (driver c) (replicate 64 0) in
  let c := with_driver d c in
  match r with
  | Ok len => atr ← slice atr 0 len; Ret (c, Some atr)
  | Err _ => Ret (c, None)
  end.
Definition power_off c : Client D := with_driver (nfc_power_off (driver c)) c.

(** ON and RESET: the cache follows the activation. *)
Definition power_on_cached c : outcome (Client D) :=
  r ← power_on c;
  Ret (with_cache (default [] r.2) r.1).

(** Get ATR. *)
Definition answer_atr c : outcome (Client D * option (list Z)) :=
  let '(d, present) := nfc_is_card_present (driver c) in
  let c := with_driver d c in
  if present && nfc_session_active (driver c) && negb (bool_decide (cached_atr c = []))
  then Ret (c, Some (cached_atr c))
  else if present then
    r ← power_on c;
    let '(c, atr) := r in
    match atr with
    | Some atr => Ret (with_gate (note_present (gate c)) (with_cache atr c), Some atr)
    | None => Ret (c, Some [])
    end
  else Ret (with_cache [] (with_gate (note_absent (gate c)).1 c), Some []).

Definition answer_apdu c (payload : list Z) : outcome (Client D * option (list Z)) :=
  let '(d, buf, r) := nfc_transmit_apdu (driver c) payload (rx_buf c) in
  let c := with_rx_buf buf (with_driver d c) in
  match r with
  | Ok len => resp ← slice (rx_buf c) 0 len; Ret (c, Some resp)
  | Err _ => Ret (c, Some (if nfc_session_active (driver c) then CARD_TIMEOUT_SW else []))
  end.

Definition handle_message c (payload : list Z) : outcome (Client D * option (list Z)) :=
  match payload with
  | [] => Ret (c, None)
  | [b] =>
      if b =? VPCD_CTRL_ATR then answer_atr c
      else if b =? VPCD_CTRL_ON then c ← power_on_cached c; Ret (c, None)
      else if b =? VPCD_CTRL_OFF then Ret (with_cache [] (power_off c), None)
      else if b =? VPCD_CTRL_RESET then c ← power_on_cached (power_off c); Ret (c, None)
      else Ret (c, None)
  | _ => answer_apdu c payload
  end.
End Client.

(** ** The socket *)
(** What a read is going to meet; at the end of the list the host has closed
    the stream. *)
Inductive arrival :=
| Arrives (b : Z)
| TimesOut (now_ms : Z)  (* the read timeout, and the clock after it *)
| Fails.

Inductive read_result (A : Type) :=
| Got (a : A)
| UnexpectedEof
| TimedOut (now_ms : Z)
| HardError.
Arguments Got {A} a.
Arguments UnexpectedEof {A}.
Arguments TimedOut {A} now_ms.
Arguments HardError {A}.

(** [read_exact]: what it has read when it fails is lost. *)
Fixpoint read_exact (n : nat) (s : list arrival) : list arrival * read_result (list Z) :=
  match n with
  | O => (s, Got [])
  | S n =>
      match s with
      | [] => ([], UnexpectedEof)
      | Arrives b :: s =>
          let '(s, r) := read_exact n s in
          (s, match r with Got l => Got (b :: l) | r => r end)
      | TimesOut t :: s => (s, TimedOut t)
      | Fails :: s => (s, HardError)
      end
  end.

Definition from_be16 (l : list Z) : Z := nth 0 l 0 * 256 + nth 1 l 0.
Definition to_be16 (z : Z) : list Z := [z / 256; z mod 256].

(** [None] is the end of the stream before a message. *)
Definition read_message (s : list arrival) : list arrival * read_result (option (list Z)) :=
  let '(s, r) := read_exact 2 s in
  match r with
  | Got len_buf =>
      let len := Z.to_nat (from_be16 len_buf) in
      if decide (len = 0%nat) then (s, Got (Some []))
      else
        let '(s, r) := read_exact len s in
        (s, match r with
            | Got payload => Got (Some payload)
            | UnexpectedEof => UnexpectedEof
            | TimedOut t => TimedOut t
            | HardError => HardError
            end)
  | UnexpectedEof => (s, Got None)
  | TimedOut t => (s, TimedOut t)
  | HardError => (s, HardError)
  end.

(** The bytes of a message on the wire. *)
Definition send_message (payload : list Z) : list Z :=
  to_be16 (wrap16 (Z.of_nat (length payload))) ++ payload.

Section Serve.
Context {D E : Type} `{!NfcDriver D E, !NfcService D E}.
Implicit Types c : Client D.

(** One connection over the arrivals; [accepts] tells which of the coming
    writes succeed (all of them past its end).  The result carries what was
    written.  Every turn of the loop reads at least one arrival or ends. *)
Fixpoint serve (fuel : nat) c (s : list arrival) (accepts : list bool) :
    outcome (Client D * list (list Z)) :=
  match fuel with
  | O => Ret (c, [])
  | S fuel =>
      let '(s, r) := read_message s in
      match r with
      | Got (Some payload) =>
          r ← handle_message c payload;
          let '(c, response) := r in
          match response with
          | Some resp =>
              line ← response_log_line resp (negb (length payload =? 1)%nat);
              if default true (head accepts) then
                r ← serve fuel c s (tail accepts);
                Ret (r.1, send_message resp :: r.2)
              else Ret (c, [])
          | None => serve fuel c s accepts
          end
      | Got None => Ret (c, [])
      | TimedOut now_ms =>
          serve fuel (with_driver (nfc_poll_maintenance (driver c) now_ms) c) s accepts
      | UnexpectedEof | HardError => Ret (c, [])
      end
  end.

Definition serve_connection c (s : list arrival) (accepts : list bool) :=
  serve (S (length s)) (with_cache [] c) s accepts.
End Serve.

End Vpcd.
