(* ===== verification/VpcdSpec.v ===== *)
(** * The virtual smart card client: theorems

    About [Vpcd.v]: the pairing of requests and answers on the stream, the
    cached ATR, the pace of the absence log, and what a read timeout inside a
    message does. *)
From Stdlib Require Import ZArith Lia ZifyBool.
From stdpp Require Import prelude.
From S2P Require Import Prelude Diag CardInterface Handler EspHandler Frontend FrontendSpec Vpcd.
Local Open Scope Z_scope.
Import Vpcd.

(** ** The stream *)
Lemma read_exact_got l s : read_exact (length l) (map Arrives l ++ s) = (s, Got l).
Proof. induction l as [|b l IH]; [done|]. cbn [length map app read_exact]. by rewrite IH. Qed.

Lemma be16_roundtrip n : u16 (Z.of_nat n) ->
  Z.to_nat (from_be16 (to_be16 (wrap16 (Z.of_nat n)))) = n.
Proof.
  intros Hn. unfold from_be16, to_be16, wrap16. cbn [nth].
  unfold u16 in Hn. rewrite Z.mod_small by lia. Z.to_euclidean_division_equations. lia.
Qed.

(** What is sent is read back. *)
Lemma read_sent m s : u16 (Z.of_nat (length m)) ->
  read_message (map Arrives (send_message m) ++ s) = (s, Got (Some m)).
Proof.
  intros Hm. unfold read_message, send_message. rewrite map_app, <- app_assoc.
  change 2%nat with (length (to_be16 (wrap16 (Z.of_nat (length m))))).
  rewrite read_exact_got, be16_roundtrip by done. case_decide as E.
  - destruct m; [done|done].
  - by rewrite read_exact_got.
Qed.

(** ** One request *)
(** The requests the protocol answers. *)
Definition asks (m : list Z) : bool :=
  match m with [] => false | [b] => b =? VPCD_CTRL_ATR | _ => true end.

Section Client.
Context {D E : Type} `{!NfcDriver D E, !NfcDriverLaws D E, !NfcService D E, !NfcServiceLaws D E}.
Implicit Types c : Client D.

Record client_ok c : Prop := {
  co_driver : nfc_ok (driver c);
  co_rx : length (rx_buf c) = 1024%nat /\ bytes (rx_buf c);
  co_cache : (length (cached_atr c) <= 64)%nat /\ bytes (cached_atr c)
}.

(** An answer, when the request asks for one. *)
Definition answered (m : list Z) (a : option (list Z)) : Prop :=
  if asks m then exists l, a = Some l /\ (length l <= 1024)%nat /\ bytes l else a = None.

Lemma driver_with_driver d c : driver (with_driver d c) = d.
Proof. done. Qed.

Lemma client_ok_driver d c : client_ok c -> nfc_ok d -> client_ok (with_driver d c).
Proof. intros [] Hd. by split. Qed.
Lemma client_ok_cache atr c : client_ok c -> (length atr <= 64)%nat -> bytes atr ->
  client_ok (with_cache atr c).
Proof. intros [] H1 H2. by split. Qed.
Lemma client_ok_gate g c : client_ok c -> client_ok (with_gate g c).
Proof. intros []. by split. Qed.

Lemma power_on_ok c : client_ok c -> exists c' atr, Vpcd.power_on c = Ret (c', atr) /\
  client_ok c' /\ cached_atr c' = cached_atr c /\
  driver c' = (nfc_power_on (driver c) (replicate 64 0)).1.1 /\
  match atr with
  | Some a => (length a <= 64)%nat /\ bytes a /\
      exists n, (nfc_power_on (driver c) (replicate 64 0)).2 = Ok n /\
        a = take n (nfc_power_on (driver c) (replicate 64 0)).1.2
  | None => exists e, (nfc_power_on (driver c) (replicate 64 0)).2 = Err e
  end.
Proof.
  intros Hc. unfold Vpcd.power_on.
  pose proof (nfc_power_on_fills (driver c) (replicate 64 0) (co_driver c Hc)) as (H1 & H2 & H3 & H4).
  destruct (nfc_power_on (driver c) (replicate 64 0)) as [[d buf] [n|e]]; cbn [fst snd] in *.
  - rewrite length_replicate in *. rewrite slice_ok by lia. rewrite bind_ret, Nat.sub_0_r, drop_0.
    eexists _, _. split; [done|]. split; [by apply client_ok_driver|]. split; [done|]. split; [done|].
    split; [rewrite length_take; lia|]. split; [apply Forall_take, H3; solve_bytes|]. by exists n.
  - eexists _, None. split; [done|]. split; [by apply client_ok_driver|]. split; [done|].
    split; [done|]. by exists e.
Qed.

Lemma power_on_cached_ok c : client_ok c -> exists c', power_on_cached c = Ret c' /\ client_ok c'.
Proof.
  intros Hc. unfold power_on_cached. destruct (power_on_ok c Hc) as (c' & atr & -> & H1 & _ & _ & H2).
  rewrite bind_ret. eexists. split; [done|]. cbn [fst snd].
  destruct atr as [a|]; cbn [default].
  - destruct H2 as (H2 & H3 & _). by apply client_ok_cache.
  - apply client_ok_cache; [done|cbn; lia|constructor].
Qed.

Lemma handle_message_ok c m : client_ok c -> exists c' a, handle_message c m = Ret (c', a) /\
  client_ok c' /\ answered m a.
Proof.
  intros Hc. destruct m as [|b [|b' m]].
  - eexists _, _. by split.
  - cbn [handle_message]. unfold answered. cbn [asks].
    destruct (Z.eqb_spec b VPCD_CTRL_ATR) as [->|_].
    + unfold answer_atr. pose proof (nfc_is_card_present_ok _ (co_driver c Hc)) as Hd.
      destruct (nfc_is_card_present (driver c)) as [d present]. cbn [fst] in Hd.
      assert (client_ok (with_driver d c)) as H1 by (by apply client_ok_driver).
      set (c1 := with_driver d c) in *.
      destruct (present && _ && _).
      { eexists _, _. split; [done|]. split; [done|]. eexists. split; [done|].
        destruct (co_cache c1 H1). split; [lia|done]. }
      destruct present; cycle 1.
      { eexists _, _. split; [done|]. split; [|exists []; split; [done|split; [cbn; lia|constructor]]].
        apply client_ok_cache; [by apply client_ok_gate|cbn; lia|constructor]. }
      destruct (power_on_ok c1 H1) as (c2 & atr & -> & H2 & _ & _ & H3). rewrite bind_ret.
      destruct atr as [a|].
      * destruct H3 as (H3 & H4 & _). eexists _, _. split; [done|].
        split; [by apply client_ok_gate, client_ok_cache|]. exists a. split; [done|]. split; [lia|done].
      * eexists _, _. split; [done|]. split; [done|]. exists [].
        split; [done|split; [cbn; lia|constructor]].
    + destruct (Z.eqb_spec b VPCD_CTRL_ON) as [->|_].
      { destruct (power_on_cached_ok c Hc) as (c' & -> & H). rewrite bind_ret. by eexists _, _. }
      assert (client_ok (Vpcd.power_off c)) as Hoff.
      { apply client_ok_driver; [done|]. apply nfc_power_off_ok, Hc. }
      destruct (Z.eqb_spec b VPCD_CTRL_OFF) as [->|_].
      { eexists _, _. split; [done|]. split; [|done]. apply client_ok_cache; [done|cbn; lia|constructor]. }
      destruct (Z.eqb_spec b VPCD_CTRL_RESET) as [->|_]; [|by eexists _, _].
      destruct (power_on_cached_ok _ Hoff) as (c' & -> & H). rewrite bind_ret. by eexists _, _.
  - cbn [handle_message]. unfold answer_apdu, answered. cbn [asks].
    destruct (co_rx c Hc) as [Hl Hb].
    pose proof (nfc_transmit_fills (driver c) (b :: b' :: m) (rx_buf c) (co_driver c Hc)) as (H1 & H2 & H3 & H4).
    destruct (nfc_transmit_apdu (driver c) (b :: b' :: m) (rx_buf c)) as [[d buf] [n|e]]; cbn [fst snd] in *.
    all: assert (client_ok (with_rx_buf buf (with_driver d c))) as H5
      by (destruct Hc; split; cbn [driver rx_buf cached_atr with_rx_buf]; [done|split; [lia|auto]|done]).
    + cbn [rx_buf with_rx_buf]. rewrite slice_ok by lia. rewrite bind_ret, Nat.sub_0_r, drop_0.
      eexists _, _. split; [done|]. split; [done|]. eexists. split; [done|].
      split; [rewrite length_take; lia|]. by apply Forall_take, H3.
    + eexists _, _. split; [done|]. split; [done|]. eexists. split; [done|].
      destruct (nfc_session_active _); cbn; (split; [lia|]); solve_bytes.
Qed.

(** ** A connection *)
(** What arrives: requests, each in one piece, with idle spells between them. *)
Inductive item := Idle (now_ms : Z) | Request (m : list Z).
Definition arrivals (i : item) : list arrival :=
  match i with Idle t => [TimesOut t] | Request m => map Arrives (send_message m) end.
Definition item_ok (i : item) : Prop :=
  match i with Idle _ => True | Request m => u16 (Z.of_nat (length m)) end.
Definition asked (i : item) : list (list Z) :=
  match i with Request m => if asks m then [m] else [] | Idle _ => [] end.
Definition wire (its : list item) : list arrival := mjoin (map arrivals its).

Lemma response_log_line_ok resp b : returns (response_log_line resp b).
Proof.
  unfold response_log_line. destruct (b && _)%nat eqn:Eb; [|by eexists].
  assert (2 <= length resp)%nat as Hl by (apply andb_prop in Eb as [_ Eb]; lia).
  destruct (lookup_lt_is_Some_2 resp (length resp - 2)) as [x Hx]; [lia|].
  destruct (lookup_lt_is_Some_2 resp (length resp - 1)) as [y Hy]; [lia|].
  rewrite (index_ok _ _ _ Hx), bind_ret, (index_ok _ _ _ Hy), bind_ret. by eexists.
Qed.

Lemma arrivals_nonempty i : (1 <= length (arrivals i))%nat.
Proof. destruct i; cbn; lia. Qed.

(** A conversation: each request in turn through [handle_message], each idle
    spell through the driver's maintenance. *)
Inductive talks : Client D -> list item -> Client D -> list (list Z) -> Prop :=
| talks_end c : talks c [] c []
| talks_idle c t its c' l :
    talks (with_driver (nfc_poll_maintenance (driver c) t) c) its c' l -> talks c (Idle t :: its) c' l
| talks_request c m c1 a its c' l :
    handle_message c m = Ret (c1, a) -> talks c1 its c' l ->
    talks c (Request m :: its) c' (option_list a ++ l).

Lemma serve_items fuel c its : client_ok c -> Forall item_ok its -> (length (wire its) < fuel)%nat ->
  exists c' answers, serve fuel c (wire its) [] = Ret (c', map send_message answers) /\ client_ok c' /\
    talks c its c' answers /\ length answers = length (mjoin (map asked its)) /\
    Forall (fun a => (length a <= 1024)%nat /\ bytes a) answers.
Proof.
  intros Hc Hits. revert fuel c Hc. induction Hits as [|i its Hi Hits IH]; intros fuel c Hc Hf.
  { destruct fuel as [|fuel]; [cbn in Hf; lia|]. exists c, []. cbn.
    split_and!; try done. constructor. }
  assert (wire (i :: its) = arrivals i ++ wire its) as Hw by done.
  rewrite Hw, length_app in Hf. pose proof (arrivals_nonempty i) as Hlen.
  destruct fuel as [|fuel]; [lia|]. cbn [serve]. rewrite Hw.
  destruct i as [t|m].
  - cbn [arrivals app]. cbn [read_message read_exact].
    destruct (IH fuel (with_driver (nfc_poll_maintenance (driver c) t) c)) as (c' & l & -> & H2 & H3 & H4); [|lia|].
    { apply client_ok_driver; [done|]. apply nfc_poll_maintenance_ok, Hc. }
    exists c', l. split; [done|]. split; [done|]. split; [by constructor|done].
  - cbn [arrivals]. rewrite read_sent by exact Hi.
    destruct (handle_message_ok c m Hc) as (c1 & a & Em1 & H1 & Ha). rewrite Em1, bind_ret.
    destruct (IH fuel c1 H1) as (c' & l & Es & H2 & H5 & H3 & H4); [lia|].
    unfold answered in Ha. unfold mjoin. cbn [map asked mjoin list_join]. destruct (asks m) eqn:Em.
    + destruct Ha as (x & -> & Hx & Hb).
      destruct (response_log_line_ok x (negb (length m =? 1)%nat)) as [line ->]. rewrite bind_ret.
      cbn [default head tail]. rewrite Es, bind_ret. exists c', (x :: l). split; [done|]. split; [done|].
      split; [exact (talks_request c m c1 (Some x) its c' l Em1 H5)|].
      cbn. rewrite H3. split; [done|]. by constructor.
    + subst a. rewrite Es. exists c', l. split; [done|]. split; [done|].
      split; [exact (talks_request c m c1 None its c' l Em1 H5)|done].
Qed.

(** The host's reading of the stream. *)
Fixpoint host_reads (n : nat) (s : list arrival) : list arrival * list (list Z) :=
  match n with
  | O => (s, [])
  | S n =>
      match read_message s with
      | (s, Got (Some m)) => let '(s, l) := host_reads n s in (s, m :: l)
      | (s, _) => (s, [])
      end
  end.

Lemma host_reads_sent l s : Forall (fun a => (length a <= 1024)%nat /\ bytes a) l ->
  host_reads (length l) (map Arrives (mjoin (map send_message l)) ++ s) = (s, l).
Proof.
  induction 1 as [|a l [Ha _] Hl IH]; [done|]. cbn [length host_reads map].
  assert (mjoin (send_message a :: map send_message l) = send_message a ++ mjoin (map send_message l))
    as -> by done.
  rewrite map_app, <- app_assoc, read_sent by (unfold u16; lia). by rewrite IH.
Qed.

(** C23: a conversation over the socket pairs up.  Over any driver that keeps its
    contract, for any sequence of requests that arrive whole, with idle spells
    between them, the connection is served to its end without a panic; what is
    written is, for each request in turn, the answer [handle_message] gives it,
    and there is exactly one for every Get ATR and every APDU and none for OFF,
    ON, RESET, an unknown control or an empty message.  The host reading the
    stream gets back those answers, whatever follows them. *)
Theorem vpcd_serves c its : client_ok c -> Forall item_ok its ->
  exists c' answers, serve_connection c (wire its) [] = Ret (c', map send_message answers) /\
    client_ok c' /\ talks (with_cache [] c) its c' answers /\
    length answers = length (mjoin (map asked its)) /\
    forall s, host_reads (length answers) (map Arrives (mjoin (map send_message answers)) ++ s) =
      (s, answers).
Proof.
  intros Hc Hits. unfold serve_connection.
  destruct (serve_items (S (length (wire its))) (with_cache [] c) its) as (c' & l & H1 & H2 & H3 & H4 & H5).
  { apply client_ok_cache; [done|cbn; lia|constructor]. }
  { done. }
  { lia. }
  exists c', l. split_and!; try done. intros s. by apply host_reads_sent.
Qed.
End Client.

(** ** The cached ATR *)
(** A driver whose sessions come from its power-ons: only a successful one
    opens a session, a power-off or a failed one closes it. *)
Class QuietSessions (D E : Type) `{!NfcDriver D E, !NfcDriverLaws D E, !NfcService D E} := {
  quiet : D -> Prop;
  quiet_power_on d buf : quiet d -> length buf = 64%nat -> quiet (nfc_power_on d buf).1.1 /\
    (forall e, (nfc_power_on d buf).2 = Err e -> nfc_session_active (nfc_power_on d buf).1.1 = false);
  quiet_power_off d : quiet d -> quiet (nfc_power_off d) /\ nfc_session_active (nfc_power_off d) = false;
  quiet_present d : quiet d -> quiet (nfc_is_card_present d).1 /\
    (nfc_session_active (nfc_is_card_present d).1 = true -> nfc_session_active d = true);
  quiet_transmit d cmd buf : quiet d -> quiet (nfc_transmit_apdu d cmd buf).1.1 /\
    (nfc_session_active (nfc_transmit_apdu d cmd buf).1.1 = true -> nfc_session_active d = true);
  quiet_maintenance d now : quiet d -> quiet (nfc_poll_maintenance d now) /\
    (nfc_session_active (nfc_poll_maintenance d now) = true -> nfc_session_active d = true)
}.

(** A driver that remembers the ATR of its last activation. *)
Module Traced.
Record Traced (D : Type) := mkTraced { inner : D; last_atr : option (list Z) }.
Arguments mkTraced {D}.
Arguments inner {D} _.
Arguments last_atr {D} _.

Section Traced.
Context {D E : Type} `{!NfcDriver D E, !NfcService D E}.
Implicit Types t : Traced D.
Definition same (t : Traced D) (d : D) : Traced D := mkTraced d (last_atr t).

#[global] Instance traced_nfc : NfcDriver (Traced D) E := {
  nfc_is_card_present t := let '(d, b) := nfc_is_card_present (inner t) in (same t d, b);
  nfc_poll_card_presence t := let '(d, b) := nfc_poll_card_presence (inner t) in (same t d, b);
  nfc_session_active t := nfc_session_active (inner t);
  nfc_power_on t buf :=
    let '(d, buf, r) := nfc_power_on (inner t) buf in
    (mkTraced d (match r with Ok n => Some (take n buf) | Err _ => None end), buf, r);
  nfc_power_off t := mkTraced (nfc_power_off (inner t)) None;
  nfc_transmit_apdu t cmd buf :=
    let '(d, buf, r) := nfc_transmit_apdu (inner t) cmd buf in (same t d, buf, r);
  nfc_card_uid t := nfc_card_uid (inner t);
  nfc_reinit_count t := nfc_reinit_count (inner t);
  nfc_exchange_decomposition t := nfc_exchange_decomposition (inner t)
}.
#[global] Instance traced_service : NfcService (Traced D) E := {
  nfc_init t := let '(d, r) := nfc_init (inner t) in (same t d, r);
  nfc_init_recovering t := let '(d, r) := nfc_init_recovering (inner t) in (same t d, r);
  nfc_poll_maintenance t now := same t (nfc_poll_maintenance (inner t) now);
  nfc_presence_poll_detects_removal t := nfc_presence_poll_detects_removal (inner t)
}.

#[global] Instance traced_laws `{!NfcDriverLaws D E} : NfcDriverLaws (Traced D) E.
Proof.
  refine {| nfc_ok := fun t => nfc_ok (inner t) |}.
  - intros t buf Ht. pose proof (nfc_power_on_fills _ buf Ht) as H. cbn [nfc_power_on traced_nfc].
    by destruct (nfc_power_on (inner t) buf) as [[d b] r].
  - intros t cmd buf Ht. pose proof (nfc_transmit_fills _ cmd buf Ht) as H.
    cbn [nfc_transmit_apdu traced_nfc]. by destruct (nfc_transmit_apdu (inner t) cmd buf) as [[d b] r].
  - intros t Ht. exact (nfc_power_off_ok _ Ht).
  - intros t Ht. pose proof (nfc_is_card_present_ok _ Ht) as H. cbn [nfc_is_card_present traced_nfc].
    by destruct (nfc_is_card_present (inner t)).
  - intros t Ht. pose proof (nfc_poll_ok _ Ht) as H. cbn [nfc_poll_card_presence traced_nfc].
    by destruct (nfc_poll_card_presence (inner t)).
  - intros t u Ht. exact (nfc_card_uid_ok _ u Ht).
  - intros t Ht. exact (nfc_reinit_count_ok _ Ht).
Defined.
End Traced.
End Traced.

Section Cache.
Context {D E : Type} `{!NfcDriver D E, !NfcDriverLaws D E, !NfcService D E, !NfcServiceLaws D E,
  !QuietSessions D E}.
Implicit Types c : Client (Traced.Traced D).

(** While a session is open the cache holds the ATR it was opened with, or
    nothing. *)
Record coherent c : Prop := {
  ch_ok : client_ok c;
  ch_quiet : quiet (Traced.inner (driver c));
  ch_cache : nfc_session_active (driver c) = true ->
    cached_atr c = [] \/ Traced.last_atr (driver c) = Some (cached_atr c)
}.

Lemma power_on_coherent c : coherent c -> exists c' atr, Vpcd.power_on c = Ret (c', atr) /\
  client_ok c' /\ quiet (Traced.inner (driver c')) /\ cached_atr c' = cached_atr c /\
  match atr with
  | Some a => (length a <= 64)%nat /\ bytes a /\ Traced.last_atr (driver c') = Some a
  | None => nfc_session_active (driver c') = false
  end.
Proof.
  intros Hc. destruct (power_on_ok c (ch_ok c Hc)) as (c' & atr & E1 & H1 & H2 & H3 & H4).
  exists c', atr. split; [done|]. split; [done|].
  destruct (quiet_power_on (Traced.inner (driver c)) (replicate 64 0) (ch_quiet c Hc))
    as [Hq He]; [apply length_replicate|].
  revert H3 H4. cbn [nfc_power_on Traced.traced_nfc].
  destruct (nfc_power_on (Traced.inner (driver c)) (replicate 64 0)) as [[d buf] r]. cbn [fst snd] in *.
  intros Hd H4. rewrite Hd. split; [done|]. split; [done|]. destruct atr as [a|].
  - destruct H4 as (H4 & H5 & n & -> & ->). by split_and!.
  - destruct H4 as [e ->]. by apply (He e).
Qed.

Lemma power_on_cached_coherent c : coherent c ->
  exists c', power_on_cached c = Ret c' /\ coherent c'.
Proof.
  intros Hc. unfold power_on_cached. destruct (power_on_coherent c Hc) as (c' & atr & -> & H1 & H2 & _ & H3).
  rewrite bind_ret. eexists. split; [done|]. cbn [fst snd]. destruct atr as [a|]; cbn [default].
  - destruct H3 as (H3 & H4 & H5). split; [by apply client_ok_cache|done|]. intros _. by right.
  - split; [apply client_ok_cache; [done|cbn; lia|constructor]|done|]. intros _. by left.
Qed.

Lemma handle_message_coherent c m c' a : coherent c -> handle_message c m = Ret (c', a) ->
  coherent c' /\
  (m = [VPCD_CTRL_ATR] -> exists x, a = Some x /\ (x = [] \/ Traced.last_atr (driver c') = Some x)).
Proof.
  intros Hc. destruct (handle_message_ok c m (ch_ok c Hc)) as (c2 & a2 & E2 & Hok & _).
  rewrite E2. intros [= <- <-]. revert E2. destruct m as [|b [|b' m]].
  - intros [= <- <-]. by split.
  - cbn [handle_message]. destruct (Z.eqb_spec b VPCD_CTRL_ATR) as [->|Hb].
    + unfold answer_atr. cbn [nfc_is_card_present Traced.traced_nfc].
      destruct (quiet_present (Traced.inner (driver c)) (ch_quiet c Hc)) as [Hq Hs].
      pose proof (nfc_is_card_present_ok _ (co_driver c (ch_ok c Hc))) as Hd.
      cbn [nfc_is_card_present Traced.traced_nfc] in Hd.
      destruct (nfc_is_card_present (Traced.inner (driver c))) as [d present]. cbn [fst] in *.
      set (c1 := with_driver _ c).
      assert (coherent c1) as H1.
      { split; [by apply client_ok_driver; [apply Hc|]|done|].
        intros Ha. apply (ch_cache c Hc). by apply Hs. }
      destruct (present && nfc_session_active (driver c1) && _) eqn:Ep.
      { intros [= <- <-]. split; [done|]. intros _. eexists. split; [done|].
        apply (ch_cache c1 H1). destruct present; [|done]. by destruct (nfc_session_active (driver c1)). }
      destruct present; cycle 1.
      { intros [= <- <-]. split; [|intros _; exists []; by split; [|left]].
        split; [exact Hok|exact Hq|]. intros _. by left. }
      destruct (power_on_coherent c1 H1) as (c3 & atr & -> & H2 & H3 & Hcache & H4). rewrite bind_ret.
      destruct atr as [x|]; intros [= <- <-].
      * destruct H4 as (H4 & H5 & H6). split; [split; [done|done|intros _; by right]|].
        intros _. exists x. split; [done|by right].
      * split; [|intros _; exists []; by split; [|left]]. split; [done|done|]. by rewrite H4.
    + assert (coherent (Vpcd.power_off c)) as Hoff.
      { destruct (quiet_power_off (Traced.inner (driver c)) (ch_quiet c Hc)) as [H1 H2].
        split; [|done|cbn; by rewrite H2].
        apply client_ok_driver; [apply Hc|]. exact (nfc_power_off_ok _ (co_driver c (ch_ok c Hc))). }
      destruct (Z.eqb_spec b VPCD_CTRL_ON) as [->|_].
      { destruct (power_on_cached_coherent c Hc) as (c3 & -> & H). rewrite bind_ret. by intros [= <- <-]. }
      destruct (Z.eqb_spec b VPCD_CTRL_OFF) as [->|_].
      { intros [= <- <-]. split; [|done]. split; [exact Hok|apply Hoff|]. intros _. by left. }
      destruct (Z.eqb_spec b VPCD_CTRL_RESET) as [->|_].
      { destruct (power_on_cached_coherent _ Hoff) as (c3 & -> & H). rewrite bind_ret. by intros [= <- <-]. }
      intros [= <- <-]. split; [done|]. intros [= ->]. done.
  - cbn [handle_message]. unfold answer_apdu. cbn [nfc_transmit_apdu Traced.traced_nfc].
    destruct (quiet_transmit (Traced.inner (driver c)) (b :: b' :: m) (rx_buf c) (ch_quiet c Hc)) as [Hq Hs].
    destruct (nfc_transmit_apdu (Traced.inner (driver c)) (b :: b' :: m) (rx_buf c)) as [[d buf] r].
    cbn [fst snd] in *. set (c1 := with_rx_buf _ _).
    assert (client_ok c1 -> coherent c1) as H1.
    { intros H1. split; [done|done|]. intros Ha. apply (ch_cache c Hc). by apply Hs. }
    destruct r as [n|e].
    + destruct (slice _ _ _); [|done]. rewrite bind_ret. intros [= <- <-]. split; [by apply H1|done].
    + intros [= <- <-]. split; [by apply H1|done].
Qed.

Lemma maintenance_coherent c now : coherent c ->
  coherent (with_driver (nfc_poll_maintenance (driver c) now) c).
Proof.
  intros Hc. destruct (quiet_maintenance (Traced.inner (driver c)) now (ch_quiet c Hc)) as [H1 H2].
  split; [apply client_ok_driver; [apply Hc|]|done|].
  - exact (nfc_poll_maintenance_ok (Traced.inner (driver c)) now (co_driver c (ch_ok c Hc))).
  - intros Ha. apply (ch_cache c Hc). by apply H2.
Qed.

Lemma talks_coherent c its c' l : talks c its c' l -> coherent c -> coherent c'.
Proof.
  induction 1 as [|c t its c' l _ IH|c m c1 a its c' l E1 _ IH]; intros Hc; [done|..].
  - by apply IH, maintenance_coherent.
  - apply IH. by eapply handle_message_coherent.
Qed.

Lemma talks_snoc c its m c' l : talks c (its ++ [Request m]) c' l ->
  exists c1 l1 a, talks c its c1 l1 /\ handle_message c1 m = Ret (c', a) /\ l = l1 ++ option_list a.
Proof.
  revert c l. induction its as [|i its IH]; intros c l H; cbn [app] in H.
  - inversion H as [| |? ? c1 a ? ? l0 E1 H1]; subst. inversion H1; subst.
    exists c, [], a. rewrite app_nil_r. split; [constructor|done].
  - inversion H as [|? ? ? ? ? H1|? ? c1 a ? ? l0 E1 H1]; subst; destruct (IH _ _ H1) as (c2 & l2 & b & H2 & H3 & ->).
    + exists c2, l2, b. split; [by constructor|done].
    + exists c2, (option_list a ++ l2), b. split; [by econstructor|]. by rewrite app_assoc.
Qed.

(** The cached ATR is the card's.  Over a driver whose sessions come from
    its power-ons, at every Get ATR of every conversation, whatever OFF, ON,
    RESET, APDUs, absences and failed activations came before, the answer is
    either empty or the ATR of the driver's last activation, and no power-off
    or failed activation came after that one. *)
Theorem vpcd_atr_current c its c' l :
  client_ok c -> quiet (Traced.inner (driver c)) ->
  talks (with_cache [] c) (its ++ [Request [VPCD_CTRL_ATR]]) c' l ->
  exists earlier atr, l = earlier ++ [atr] /\ (atr = [] \/ Traced.last_atr (driver c') = Some atr).
Proof.
  intros Hc Hq Ht. destruct (talks_snoc _ _ _ _ _ Ht) as (c1 & l1 & a & H1 & H2 & ->).
  assert (coherent c1) as Hc1.
  { eapply talks_coherent; [exact H1|]. split; [|done|intros _; by left].
    apply client_ok_cache; [done|cbn; lia|constructor]. }
  destruct (handle_message_coherent c1 _ _ _ Hc1 H2) as [_ H3].
  destruct (H3 eq_refl) as (x & -> & Hx). by exists l1, x.
Qed.
End Cache.

(** ** The pace of the absence log *)
Fixpoint absences (n : nat) (g : AbsenceGate) : list (option AbsenceNote) :=
  match n with
  | O => []
  | S n => let '(g, note) := note_absent g in note :: absences n g
  end.

(** The note of the [k]-th absent poll in a row. *)
Definition paced (k : Z) : option AbsenceNote :=
  if k =? 1 then Some Transition
  else if k mod ABSENCE_LOG_EVERY =? 0 then Some (Heartbeat k) else None.

Lemma absences_from n k : 1 <= k -> k + Z.of_nat n <= u32_max ->
  absences n (mkGate false k) = map (fun i => paced (k + Z.of_nat i)) (seq 1 n).
Proof.
  revert k. induction n as [|n IH]; intros k Hk Hn; [done|].
  cbn [absences]. unfold note_absent. cbn [was_present absent_polls].
  unfold wrapping_add32, wrap32, u32_max in *. rewrite (Z.mod_small (k + 1)) by lia.
  rewrite IH by lia. cbn [seq map]. f_equal.
  - unfold paced. by replace (k + Z.of_nat 1 =? 1) with false by lia.
  - rewrite <- (seq_shift n 1), map_map. apply map_ext. intros i. f_equal. lia.
Qed.

(** The first absence after a presence, or after boot, is announced, and then
    one poll in nine hundred is. *)
Lemma absence_log_paced n g : Z.of_nat n <= u32_max ->
  absences n (note_present g) = map (fun i => paced (Z.of_nat i)) (seq 1 n) /\
  absences n gate_new = absences n (note_present g).
Proof.
  intros Hn. split; [|done]. destruct n as [|n]; [done|]. cbn [absences note_absent note_present was_present].
  rewrite absences_from by lia. cbn [seq map]. f_equal.
  rewrite <- (seq_shift n 1), map_map. apply map_ext. intros i. f_equal. lia.
Qed.

(** ** Witnesses *)
Module VpcdDemo.
Definition card : Mock.MockNfcDriver := Mock.new true [0x3B; 0x80; 0x01; 0x81] [0x90; 0x00].
Definition client {D E} `{!NfcDriver D E} (d : D) : Client D :=
  mkClient (EspHandler.new d []) gate_new (replicate 1024 0) [].
Definition traced : Traced.Traced Mock.MockNfcDriver := Traced.mkTraced card None.
Definition select : list Z := [0x00; 0xA4; 0x04; 0x00].
Definition script : list item :=
  [Request [VPCD_CTRL_ON]; Idle 5000; Request select; Request [VPCD_CTRL_RESET]; Request [];
   Request select].
End VpcdDemo.

#[export] Instance mock_service : NfcService Mock.MockNfcDriver NfcError := {
  nfc_init d := (d, Ok tt);
  nfc_init_recovering d := (d, Ok tt);
  nfc_poll_maintenance d _ := d;
  nfc_presence_poll_detects_removal _ := false
}.
#[export] Instance mock_service_laws : NfcServiceLaws Mock.MockNfcDriver NfcError.
Proof. by split. Qed.

#[export] Instance mock_quiet : QuietSessions Mock.MockNfcDriver NfcError.
Proof.
  refine {| quiet := fun d => (length (Mock.atr d) <= 64)%nat |}.
  - intros d buf Hd Hb. cbn [nfc_power_on Mock.mock_nfc]. unfold Mock.power_on.
    destruct (negb (Mock.card_present d)); [by split|].
    destruct (_ <? _)%nat eqn:El; [lia|]. by split.
  - intros d Hd. by split.
  - intros d Hd. by split.
  - intros d cmd buf Hd. cbn [nfc_transmit_apdu Mock.mock_nfc]. unfold Mock.transmit_apdu.
    destruct (negb (Mock.card_present d)); [by split|].
    destruct (negb (Mock.mock_session_active d)) eqn:Es; [by split|]. cbv zeta.
    destruct (_ <? _)%nat; cbn; by destruct (Mock.mock_session_active d).
  - intros d now Hd. by split.
Defined.

Lemma demo_client_ok {D E} `{!NfcDriver D E, !NfcDriverLaws D E} (d : D) :
  nfc_ok d -> client_ok (VpcdDemo.client d).
Proof.
  intros Hd. split; [done| |]; cbn [rx_buf cached_atr VpcdDemo.client].
  - split; [apply length_replicate|]. apply Forall_replicate. unfold u8. lia.
  - split; [cbn; lia|constructor].
Qed.

Lemma demo_card_ok : Mock.ok VpcdDemo.card.
Proof. split_and!; [solve_bytes..|cbn; lia]. Qed.

Example vpcd_serves_witness :
  let c := VpcdDemo.client VpcdDemo.card in
  client_ok c /\ exists c', serve_connection c (wire VpcdDemo.script) [] =
    Ret (c', [[0; 2; 0x90; 0x00]; [0; 2; 0x90; 0x00]]) /\ client_ok c'.
Proof.
  intros c. assert (client_ok c) as Hc by (apply demo_client_ok, demo_card_ok). split; [done|].
  destruct (vpcd_serves c VpcdDemo.script Hc) as (c' & l & H1 & H2 & _).
  { unfold VpcdDemo.script. repeat apply Forall_cons_2; try apply Forall_nil_2; done || (unfold item_ok, u16; cbn; lia). }
  exists c'. split; [|done]. rewrite H1. do 2 f_equal.
  assert (option_map snd (match serve_connection c (wire VpcdDemo.script) [] with
    Ret r => Some r | Panic => None end) = Some [[0; 2; 0x90; 0x00]; [0; 2; 0x90; 0x00]]) as Hv
    by (vm_compute; reflexivity).
  rewrite H1 in Hv. by injection Hv.
Defined.

Example vpcd_atr_current_witness :
  exists (c' : Client (Traced.Traced Mock.MockNfcDriver)) earlier atr, earlier = [[0x90; 0x00]; [0x90; 0x00]] /\
    atr = [0x3B; 0x80; 0x01; 0x81] /\ Traced.last_atr (driver c') = Some atr.
Proof.
  set (c := VpcdDemo.client VpcdDemo.traced).
  assert (client_ok c) as Hc by (apply demo_client_ok, demo_card_ok).
  assert (exists c', talks (with_cache [] c) (VpcdDemo.script ++ [Request [VPCD_CTRL_ATR]]) c'
    [[0x90; 0x00]; [0x90; 0x00]; [0x3B; 0x80; 0x01; 0x81]]) as [c' Ht].
  { eexists. unfold VpcdDemo.script. cbn [app].
    eapply (talks_request _ _ _ None); [vm_compute; reflexivity|].
    apply talks_idle.
    eapply (talks_request _ _ _ (Some _)); [vm_compute; reflexivity|].
    eapply (talks_request _ _ _ None); [vm_compute; reflexivity|].
    eapply (talks_request _ _ _ None); [vm_compute; reflexivity|].
    eapply (talks_request _ _ _ (Some _)); [vm_compute; reflexivity|].
    eapply (talks_request _ _ _ (Some _)); [vm_compute; reflexivity|]. apply talks_end. }
  assert (quiet (Traced.inner (driver c))) as Hq by (cbn; lia).
  destruct (vpcd_atr_current c VpcdDemo.script c' _ Hc Hq Ht) as (l1 & x & E1 & H).
  apply (app_inj_2 [[0x90; 0x00]; [0x90; 0x00]] l1 [[0x3B; 0x80; 0x01; 0x81]] [x]) in E1 as [<- [= <-]];
    [|done].
  exists c'. eexists _, _. split; [reflexivity|]. split; [reflexivity|]. by destruct H.
Defined.

(** A read that times out inside a message loses what it had read: two Get ATR
    requests, the first with a pause after its length, and neither is answered. *)
Example split_message_desynchronises :
  let whole := map Arrives (send_message [VPCD_CTRL_ATR]) in
  let split := map Arrives [0; 1] ++ [TimesOut 5000] ++ map Arrives [VPCD_CTRL_ATR] in
  option_map snd (match serve_connection (VpcdDemo.client VpcdDemo.card) (whole ++ whole) [] with
    Ret r => Some r | Panic => None end) =
    Some [[0; 4; 0x3B; 0x80; 0x01; 0x81]; [0; 4; 0x3B; 0x80; 0x01; 0x81]] /\
  option_map snd (match serve_connection (VpcdDemo.client VpcdDemo.card) (split ++ whole) [] with
    Ret r => Some r | Panic => None end) = Some [].
Proof. split; vm_compute; reflexivity. Qed.
