(* ===== verification/SppServer.v ===== *)
(** * The Bluetooth serial transport

    [ccid-service/src/spp_server.rs] (module [Spp]): the ring the Bluetooth
    callback fills and the serve loop drains, the link with its one parked
    packet, and the pump that drives the server of [SerialServer.v] into a
    packet buffer; [esp32-ccid/src/spp_shell.rs] (module [Shell]): the callback
    and the body of the serve loop, with what the callback does while the lock
    is free as an argument.  Ticks, stalls, clock readings and the results of
    [esp_spp_write] are arguments too; bring-up, pairing and log lines are not
    modelled.  The theorems are in [SppSpec.v]. *)
From Stdlib Require Import ZArith Lia ZifyBool.
From stdpp Require Import prelude.
From S2P Require Import Prelude CardInterface EspHandler SerialServer.
Local Open Scope Z_scope.

Module Spp.

Record RxByte := mkRx { byte : Z; tick : Z }.
Definition SPP_RX_RING_ENTRIES : nat := 512.
Definition SPP_TX_BUF_SIZE : nat := 1024.

(** ** The ring *)
Record SppRxRing := mkRing {
  entries : list RxByte;
  head : nat;
  count : nat;
  overflow : bool;
  dropped : Z
}.

Definition ring_new : SppRxRing := mkRing (replicate SPP_RX_RING_ENTRIES (mkRx 0 0)) 0 0 false 0.

Fixpoint push_bytes (bytes : list Z) (t : Z) (r : SppRxRing) : outcome SppRxRing :=
  match bytes with
  | [] => Ret r
  | b :: bytes =>
      es ← store (entries r) (head r) (mkRx b t);
      push_bytes bytes t
        (mkRing es ((head r + 1) mod SPP_RX_RING_ENTRIES) (count r + 1) (overflow r) (dropped r))
  end.
Definition push (bytes : list Z) (t : Z) (r : SppRxRing) : outcome SppRxRing :=
  if (SPP_RX_RING_ENTRIES - count r <? length bytes)%nat
  then Ret (mkRing (entries r) (head r) (count r) true
              (sat_add32 (dropped r) (wrap32 (Z.of_nat (length bytes)))))
  else push_bytes bytes t r.

(** At most [max] entries. *)
Fixpoint pop_batch (max : nat) (r : SppRxRing) : outcome (SppRxRing * list RxByte) :=
  match max with
  | O => Ret (r, [])
  | S max =>
      if (0 <? count r)%nat then
        let tail := ((head r + SPP_RX_RING_ENTRIES - count r) mod SPP_RX_RING_ENTRIES)%nat in
        e ← index (entries r) tail;
        rest ← pop_batch max (mkRing (entries r) (head r) (count r - 1) (overflow r) (dropped r));
        Ret (rest.1, e :: rest.2)
      else Ret (r, [])
  end.

Definition ring_clear (r : SppRxRing) : SppRxRing := mkRing (entries r) 0 0 false (dropped r).
Definition take_overflow (r : SppRxRing) : SppRxRing * bool :=
  (mkRing (entries r) (head r) (count r) false (dropped r), overflow r).

(** ** The link *)
Record SppLink := mkLink {
  handle : option Z;
  congested : bool;
  last_rx_tick : Z;
  pending_buf : list Z;
  pending_len : nat;
  pending_deadline : option Z;
  pending_snapshot : bool;
  dropped_tx : Z
}.

Definition link_new (now : Z) : SppLink :=
  mkLink None false now (replicate SPP_TX_BUF_SIZE 0) 0 None false 0.

(** The parked bytes counted as dropped, if there are any. *)
Definition count_pending (l : SppLink) : Z :=
  if (0 <? pending_len l)%nat
  then sat_add32 (dropped_tx l) (wrap32 (Z.of_nat (pending_len l))) else dropped_tx l.

Definition on_open (h now : Z) (l : SppLink) : SppLink :=
  mkLink (Some h) false now (pending_buf l) 0 None false (count_pending l).
Definition on_close (now : Z) (l : SppLink) : SppLink :=
  mkLink None false now (pending_buf l) 0 None false (count_pending l).
Definition on_cong (c : bool) (l : SppLink) : SppLink :=
  mkLink (handle l) c (last_rx_tick l) (pending_buf l) (pending_len l) (pending_deadline l)
    (pending_snapshot l) (dropped_tx l).
Definition on_rx (now : Z) (l : SppLink) : SppLink :=
  mkLink (handle l) (congested l) now (pending_buf l) (pending_len l) (pending_deadline l)
    (pending_snapshot l) (dropped_tx l).
Definition rx_idle_ms (now : Z) (l : SppLink) : Z := wrapping_sub32 now (last_rx_tick l).

Definition park (bytes : list Z) (deadline : option Z) (snapshot : bool) (l : SppLink) :
    outcome SppLink :=
  let n := (length bytes `min` SPP_TX_BUF_SIZE)%nat in
  let d := count_pending l in
  src ← slice bytes 0 n;
  buf ← copy_at (pending_buf l) 0 src;
  let d := if (SPP_TX_BUF_SIZE <? length bytes)%nat
           then sat_add32 d (wrap32 (Z.of_nat (length bytes - n))) else d in
  Ret (mkLink (handle l) (congested l) (last_rx_tick l) buf n deadline snapshot d).

Definition pending (l : SppLink) : list Z := take (pending_len l) (pending_buf l).
Definition clear_pending (l : SppLink) : SppLink :=
  mkLink (handle l) (congested l) (last_rx_tick l) (pending_buf l) 0 None false (dropped_tx l).
Definition take_pending_snapshot (l : SppLink) : SppLink * bool :=
  (mkLink (handle l) (congested l) (last_rx_tick l) (pending_buf l) (pending_len l)
     (pending_deadline l) false (dropped_tx l), pending_snapshot l).
Definition pending_expired (now : Z) (l : SppLink) : bool :=
  match pending_deadline l with
  | Some deadline =>
      (0 <? pending_len l)%nat &&
      let since := wrapping_sub32 now deadline in
      negb (since =? 0) && (since <? 0x80000000)
  | None => false
  end.
Definition note_dropped_tx (n : nat) (l : SppLink) : SppLink :=
  mkLink (handle l) (congested l) (last_rx_tick l) (pending_buf l) (pending_len l)
    (pending_deadline l) (pending_snapshot l) (sat_add32 (dropped_tx l) (wrap32 (Z.of_nat n))).

Inductive Deliver := DWrite | DPark | DDrop.
Definition delivery_plan (l : SppLink) : Deliver :=
  match handle l with
  | None => DDrop
  | Some _ => if congested l || (0 <? pending_len l)%nat then DPark else DWrite
  end.

(** ** The pump *)
Record PumpOutcome := mkPumped { responded : Z; naks : Z; late_dropped : Z }.
Definition pumped_default : PumpOutcome := mkPumped 0 0 0.
Definition any (o : PumpOutcome) : bool := negb (responded o =? 0) || negb (naks o =? 0).
Definition merge (a b : PumpOutcome) : PumpOutcome :=
  mkPumped (wrapping_add32 (responded a) (responded b)) (wrapping_add32 (naks a) (naks b))
    (wrapping_add32 (late_dropped a) (late_dropped b)).

Record SppPump (D : Type) := mkPump {
  server : CcidSerialServer D;
  tx_buf : list Z;
  tx_len : nat;
  tx_deadline : option Z;
  respond_stamp_us : option Z;
  dropped_responses : Z
}.
Arguments mkPump {D}.
Arguments server {D} _.
Arguments tx_buf {D} _.
Arguments tx_len {D} _.
Arguments tx_deadline {D} _.
Arguments respond_stamp_us {D} _.
Arguments dropped_responses {D} _.

(** The buffer, its length and whether the bytes fitted. *)
Definition append_slice (buf : list Z) (len : nat) (bytes : list Z) : outcome (list Z * nat * bool) :=
  if (length buf <? len + length bytes)%nat then Ret (buf, len, false)
  else buf ← copy_at buf len bytes; Ret (buf, (len + length bytes)%nat, true).
(** [append_slice(..) && append_slice(..) && ..] *)
Fixpoint append_all (buf : list Z) (len : nat) (parts : list (list Z)) : outcome (list Z * nat * bool) :=
  match parts with
  | [] => Ret (buf, len, true)
  | p :: parts =>
      r ← append_slice buf len p;
      let '(buf, len, ok) := r in
      if ok : bool then append_all buf len parts else Ret (buf, len, false)
  end.

(** What happens while a byte is served: the stalls of the front end, the tick
    after it and the clock reading of the response. *)
Record FeedEnv := mkEnv { stalls : nat; post_tick : Z; stamp_us : Z }.

Section Pump.
Context {D E : Type} `{!NfcDriver D E, !NfcProbes D, !FrontendDiagnostics D}.
Implicit Types p : SppPump D.

Definition pump_new (h : CcidHandler D) (poll_interval : Z) (w : ResponseWindows) (now : Z) : SppPump D :=
  mkPump (with_config h poll_interval w now (mkConfig true true false))
    (replicate SPP_TX_BUF_SIZE 0) 0 None None 0.

Definition with_server s p : SppPump D :=
  mkPump s (tx_buf p) (tx_len p) (tx_deadline p) (respond_stamp_us p) (dropped_responses p).
Definition with_tx buf len p : SppPump D :=
  mkPump (server p) buf len (tx_deadline p) (respond_stamp_us p) (dropped_responses p).
Definition with_deadline d p : SppPump D :=
  mkPump (server p) (tx_buf p) (tx_len p) d (respond_stamp_us p) (dropped_responses p).
Definition with_stamp t p : SppPump D :=
  mkPump (server p) (tx_buf p) (tx_len p) (tx_deadline p) t (dropped_responses p).
Definition drop_response p : SppPump D :=
  mkPump (server p) (tx_buf p) (tx_len p) (tx_deadline p) (respond_stamp_us p)
    (wrapping_add32 (dropped_responses p) 1).

Definition tx p : list Z := take (tx_len p) (tx_buf p).
Definition tx_clear p : SppPump D := with_deadline None (with_tx (tx_buf p) 0 p).

Definition pump_byte (x : RxByte) (v : FeedEnv) p (b : TimeExtension.Bridge) (o : PumpOutcome) :
    outcome (SppPump D * TimeExtension.Bridge * PumpOutcome) :=
  r ← feed_byte (byte x) (tick x) (stalls v) (server p) b;
  let '(s, b, (action, _)) := r in
  let p := with_server s p in
  match action with
  | Respond =>
      if response_expired (post_tick v) s then
        Ret (with_server (record_late_response s) p, b,
             mkPumped (responded o) (naks o) (wrapping_add32 (late_dropped o) 1))
      else
        r ← append_all (tx_buf p) (tx_len p) [echo s; notify s; response s];
        let '(buf, len, ok) := r in
        if ok : bool then
          let p := with_tx buf len p in
          let p := with_deadline (match tx_deadline p with
                                  | Some d => Some d
                                  | None => Some (response_deadline_tick s)
                                  end) p in
          Ret (with_stamp (Some (stamp_us v)) p, b,
               mkPumped (wrapping_add32 (responded o) 1) (naks o) (late_dropped o))
        else
          let p := with_tx buf (tx_len p) p in
          let p := if (tx_len p =? 0)%nat then with_deadline None p else p in
          Ret (drop_response p, b, o)
  | Nak =>
      r ← append_slice (tx_buf p) (tx_len p) (nak_buf s);
      let '(buf, len, ok) := r in
      if ok : bool
      then Ret (with_tx buf len p, b, mkPumped (responded o) (wrapping_add32 (naks o) 1) (late_dropped o))
      else Ret (drop_response (with_tx buf (tx_len p) p), b, o)
  | NoAction => Ret (p, b, o)
  end.

Fixpoint pump_rx (xs : list (RxByte * FeedEnv)) p (b : TimeExtension.Bridge) (o : PumpOutcome) :
    outcome (SppPump D * TimeExtension.Bridge * PumpOutcome) :=
  match xs with
  | [] => Ret (p, b, o)
  | (x, v) :: xs =>
      r ← pump_byte x v p b o;
      let '(p, b, o) := r in pump_rx xs p b o
  end.

Definition record_turnaround (now_us : Z) p : SppPump D :=
  match respond_stamp_us p with
  | Some stamp =>
      let us := clamp (now_us - stamp) 0 u32_max in
      with_stamp None (with_server
        (set_handler (esp_record_turnaround_us us (handler (server p))) (server p)) p)
  | None => p
  end.
Definition idle (now : Z) p : SppPump D := with_server (on_read_idle now (server p)).1 p.
Definition pump_poll_if_due (now : Z) p : SppPump D := with_server (poll_if_due now (server p)).1 p.
Definition pump_poll_after_response (now : Z) p : SppPump D :=
  with_server (poll_if_due_after_response now (server p)).1 p.
Definition take_snapshot_request p : SppPump D * bool :=
  let '(s, k) := take_snapshot (server p) in (with_server s p, k).
End Pump.
End Spp.

(** ** The shell ([spp_shell.rs]) *)
Module Shell.
Import Spp.

Definition SPP_IDLE_TIMEOUT_MS : Z := 500.
Definition SPP_POP_BATCH : nat := 128.

(** The events of the Bluetooth stack that change the shared state; the others
    only log. *)
Inductive SppEvent :=
| ServerOpen (success : bool) (h now : Z)
| Close (now : Z)
| Cong (c : bool)
| DataInd (success : bool) (data : list Z) (now : Z).

Record Shared := mkShared { ring : SppRxRing; link : SppLink }.
Definition shared_new (now : Z) : Shared := mkShared ring_new (link_new now).

Definition on_event (e : SppEvent) (g : Shared) : outcome Shared :=
  match e with
  | ServerOpen true h now => Ret (mkShared (ring_clear (ring g)) (on_open h now (link g)))
  | ServerOpen false _ _ => Ret g
  | Close now => Ret (mkShared (ring_clear (ring g)) (on_close now (link g)))
  | Cong c => Ret (mkShared (ring g) (on_cong c (link g)))
  | DataInd true data now => r ← push data now (ring g); Ret (mkShared r (on_rx now (link g)))
  | DataInd false _ _ => Ret g
  end.
Fixpoint on_events (es : list SppEvent) (g : Shared) : outcome Shared :=
  match es with [] => Ret g | e :: es => g ← on_event e g; on_events es g end.

Definition with_link (l : SppLink) (g : Shared) : Shared := mkShared (ring g) l.
Definition with_ring (r : SppRxRing) (g : Shared) : Shared := mkShared r (link g).

Record Shell (D : Type) := mkShell {
  shared : Shared;
  pump : SppPump D;
  bridge : TimeExtension.Bridge
}.
Arguments mkShell {D}.
Arguments shared {D} _.
Arguments pump {D} _.
Arguments bridge {D} _.

(** What reaches the wire, and the deliberate reset after the acknowledged
    snapshot escape. *)
Inductive Sent := Written (packet : list Z) | Snapshot.

Section Shell.
Context {D E : Type} `{!NfcDriver D E, !NfcProbes D, !FrontendDiagnostics D}.
Implicit Types h : Shell D.

Definition with_shared g h : Shell D := mkShell g (pump h) (bridge h).
Definition with_pump p h : Shell D := mkShell (shared h) p (bridge h).

(** The callback runs while the lock is free. *)
Definition callbacks (es : list SppEvent) h : outcome (Shell D) :=
  g ← on_events es (shared h); Ret (with_shared g h).

(** *** 1. Receive

    One round of the inner loop: the callback's events before the lock is
    taken, and what happens while each popped byte is served. *)
Definition Round : Type := list SppEvent * list FeedEnv.
Definition quiet_env : FeedEnv := mkEnv 0 0 0.

(** Each popped byte with its environment. *)
Fixpoint fed (xs : list RxByte) (vs : list FeedEnv) : list (RxByte * FeedEnv) :=
  match xs with
  | [] => []
  | x :: xs => (x, default quiet_env (List.head vs)) :: fed xs (tail vs)
  end.

Fixpoint drain (fuel : nat) (rounds : list Round) h (o : PumpOutcome) :
    outcome (Shell D * PumpOutcome) :=
  match fuel with
  | O => Ret (h, o)
  | S fuel =>
      let '(es, vs) := default ([], []) (List.head rounds) in
      h ← callbacks es h;
      r ← pop_batch SPP_POP_BATCH (ring (shared h));
      let '(ring, xs) := r in
      let h := with_shared (with_ring ring (shared h)) h in
      match xs with
      | [] => Ret (h, o)
      | _ =>
          r ← pump_rx (fed xs vs) (pump h) (bridge h) pumped_default;
          let '(p, b, o') := r in
          drain fuel (tail rounds) (mkShell (shared h) p b) (merge o o')
      end
  end.

(** *** 2 and 3. Deliver *)
(** The result of the write, the events between the plan and the next lock,
    the clock and the tick after the delivery. *)
Record DeliverEnv := mkDeliver {
  write_ok : bool;
  between : list SppEvent;
  now_us : Z;
  after_tick : Z
}.

Definition park_packet h : outcome (Shell D) :=
  let deadline := tx_deadline (pump h) in
  let '(p, snapshot) := take_snapshot_request (pump h) in
  l ← park (tx p) deadline snapshot (link (shared h));
  Ret (with_shared (with_link l (shared h)) (with_pump p h)).

(** After a delivery: turnaround, polls, and the reset of a snapshot request. *)
Definition delivered (now : Z) (v : DeliverEnv) h : Shell D * list Sent :=
  let p := pump_poll_if_due now (record_turnaround (now_us v) (pump h)) in
  let '(p, snapshot) := take_snapshot_request p in
  if snapshot then (with_pump p h, [Snapshot])
  else (with_pump (pump_poll_after_response (after_tick v) p) h, []).

Definition deliver (now : Z) (v : DeliverEnv) h : outcome (Shell D * list Sent) :=
  let packet := tx (pump h) in
  let cleared h := with_pump (tx_clear (pump h)) h in
  let plan := delivery_plan (link (shared h)) in
  h ← callbacks (between v) h;
  match plan with
  | DWrite =>
      if write_ok v then
        let '(h, sent) := delivered now v (cleared h) in Ret (h, Written packet :: sent)
      else h ← park_packet h; Ret (cleared h, [])
  | DPark => h ← park_packet h; Ret (cleared h, [])
  | DDrop =>
      let h := with_shared (with_link (note_dropped_tx (length packet) (link (shared h))) (shared h)) h in
      let h := cleared h in
      Ret (with_pump (take_snapshot_request (pump h)).1 h, [])
  end.

(** *** 4. Retry of the parked packet *)
Definition retry (now : Z) (ok : bool) (between : list SppEvent) h : outcome (Shell D * list Sent) :=
  let l := link (shared h) in
  match handle l with
  | Some _ =>
      if negb (congested l) && (0 <? pending_len l)%nat then
        let packet := pending l in
        let expired := pending_expired now l in
        h ← callbacks between h;
        if expired then
          Ret (with_shared (with_link (note_dropped_tx (length packet)
                 (clear_pending (link (shared h)))) (shared h)) h, [])
        else if ok then
          let '(l, snapshot) := take_pending_snapshot (link (shared h)) in
          Ret (with_shared (with_link (clear_pending l) (shared h)) h,
               Written packet :: (if snapshot then [Snapshot] else []))
        else Ret (h, [])
      else Ret (h, [])
  | None => Ret (h, [])
  end.

(** *** 5. Idle *)
Definition idle_check (now : Z) h : Shell D :=
  let idle_ms := rx_idle_ms now (link (shared h)) in
  let '(r, overflow) := take_overflow (ring (shared h)) in
  let h := with_shared (with_ring r (shared h)) h in
  if (SPP_IDLE_TIMEOUT_MS <=? idle_ms) || overflow then with_pump (idle now (pump h)) h else h.

(** *** One turn of the loop *)
Record Turn := mkTurn {
  turn_now : Z;
  rounds : list Round;
  delivery : DeliverEnv;
  before_retry : list SppEvent;
  retry_tick : Z;
  retry_ok : bool;
  during_retry : list SppEvent;
  before_idle : list SppEvent
}.

(** The snapshot escape resets the device: nothing comes after it. *)
Definition resets (sent : list Sent) : bool :=
  existsb (fun x => match x with Snapshot => true | Written _ => false end) sent.

(** Rounds that come without events empty the ring of 512 entries, 128 at a
    time, in four; one more finds it empty. *)
Definition turn (t : Turn) h : outcome (Shell D * list Sent) :=
  let now := turn_now t in
  r ← drain (length (rounds t) + 5) (rounds t) h pumped_default;
  let '(h, o) := r in
  r ← (if any o then deliver now (delivery t) h else Ret (h, []));
  let '(h, sent1) := r in
  if resets sent1 then Ret (h, sent1)
  else
    h ← callbacks (before_retry t) h;
    r ← retry (retry_tick t) (retry_ok t) (during_retry t) h;
    let '(h, sent2) := r in
    if resets sent2 then Ret (h, sent1 ++ sent2)
    else
      h ← callbacks (before_idle t) h;
      Ret (idle_check now h, sent1 ++ sent2).
End Shell.
End Shell.
