(* ===== verification/SppSpec.v ===== *)
(** * The Bluetooth serial transport: theorems

    About [SppServer.v]: the ring is a bounded queue; and whatever the
    Bluetooth stack, the host and the card do, the serve loop keeps the
    server's invariant and writes only whole exchanges, in the order they were
    produced. *)
From Stdlib Require Import ZArith Lia ZifyBool.
From stdpp Require Import prelude.
From S2P Require Import Prelude T1Endpoint Wire Atr Diag CardInterface.
From S2P Require Import Handler HandlerFacts HandlerSpec SerialFrame EspHandler EspSpec SerialServer SerialSpec SppServer.
Local Open Scope Z_scope.
Import Spp Shell.

(** ** The ring is a queue *)
Record ring_inv (r : SppRxRing) : Prop := {
  ri_entries : length (entries r) = 512%nat;
  ri_head : (head r < 512)%nat;
  ri_count : (count r <= 512)%nat
}.

(** The position of the [i]-th queued entry, and the queue. *)
Definition cell (r : SppRxRing) (i : nat) : nat := ((head r + 512 - count r + i) mod 512)%nat.
Definition queue (r : SppRxRing) : list RxByte :=
  map (fun i => nth (cell r i) (entries r) (mkRx 0 0)) (List.seq 0 (count r)).

Lemma length_queue r : length (queue r) = count r.
Proof. unfold queue. by rewrite length_map, length_seq. Qed.

Lemma mod512_cases k : (k < 1536)%nat ->
  (k mod 512 = if (k <? 512)%nat then k else if (k <? 1024)%nat then k - 512 else k - 1024)%nat.
Proof.
  intros Hk. destruct (k <? 512)%nat eqn:E1; [apply Nat.mod_small; lia|].
  destruct (k <? 1024)%nat eqn:E2.
  - replace k with (k - 512 + 1 * 512)%nat at 1 by lia. rewrite Nat.Div0.mod_add. apply Nat.mod_small. lia.
  - replace k with (k - 1024 + 2 * 512)%nat at 1 by lia. rewrite Nat.Div0.mod_add. apply Nat.mod_small. lia.
Qed.

(** The write position moves behind the queue. *)
Definition next_head (h : nat) : nat := if (h + 1 <? 512)%nat then (h + 1)%nat else O.
Lemma next_head_mod h : (h < 512)%nat -> ((h + 1) mod 512 = next_head h)%nat.
Proof.
  intros Hh. unfold next_head. rewrite mod512_cases by lia.
  repeat case_match; lia.
Qed.
Lemma cell_shift h c i : (h < 512)%nat -> (c < 512)%nat -> (i <= c)%nat ->
  ((next_head h + 512 - (c + 1) + i) mod 512 = (h + 512 - c + i) mod 512)%nat.
Proof.
  intros Hh Hc Hi. unfold next_head. case_match; rewrite !mod512_cases by lia; repeat case_match; lia.
Qed.
Lemma cell_free h c i : (h < 512)%nat -> (c < 512)%nat -> (i < c)%nat ->
  ((h + 512 - c + i) mod 512 <> h)%nat.
Proof.
  intros Hh Hc Hi. rewrite mod512_cases by lia. repeat case_match; lia.
Qed.
Lemma cell_last h c : (h < 512)%nat -> (c < 512)%nat -> ((h + 512 - c + c) mod 512 = h)%nat.
Proof.
  intros Hh Hc. rewrite mod512_cases by lia. repeat case_match; lia.
Qed.

Lemma queue_pushed es h c o d x : length es = 512%nat -> (h < 512)%nat -> (c < 512)%nat ->
  queue (mkRing (<[h := x]> es) (next_head h) (c + 1) o d) = queue (mkRing es h c o d) ++ [x].
Proof.
  intros He Hh Hc. unfold queue, cell. cbn [entries head count].
  rewrite seq_app, map_app. cbn [List.seq map]. f_equal.
  - apply map_ext_in. intros i Hi. apply in_seq in Hi. rewrite cell_shift by lia.
    pose proof (cell_free h c i Hh Hc ltac:(lia)) as Hne.
    set (k := ((h + 512 - c + i) mod 512)%nat) in *. clearbody k.
    rewrite !nth_lookup. by rewrite list_lookup_insert_ne.
  - f_equal. rewrite cell_shift, cell_last by lia.
    rewrite nth_lookup. by rewrite list_lookup_insert_eq by lia.
Qed.

Lemma push_one r x : ring_inv r -> (count r < 512)%nat ->
  exists es, store (entries r) (head r) x = Ret es /\
    let r' := mkRing es ((head r + 1) mod SPP_RX_RING_ENTRIES) (count r + 1) (overflow r) (dropped r) in
    ring_inv r' /\ queue r' = queue r ++ [x].
Proof.
  intros [He Hh Hc] Hlt. unfold store. rewrite decide_True by lia. eexists. split; [reflexivity|].
  change SPP_RX_RING_ENTRIES with 512%nat. cbv zeta. rewrite next_head_mod by done. split.
  - split; cbn [entries head count]; [by rewrite length_insert| |lia].
    unfold next_head. case_match; lia.
  - rewrite queue_pushed by done. by destruct r.
Qed.

Lemma push_bytes_queue bs t r : ring_inv r -> (count r + length bs <= 512)%nat ->
  exists r', push_bytes bs t r = Ret r' /\ ring_inv r' /\
    queue r' = queue r ++ map (fun b => mkRx b t) bs /\
    overflow r' = overflow r /\ dropped r' = dropped r.
Proof.
  revert r. induction bs as [|b bs IH]; intros r Hr Hl; cbn [length push_bytes] in *.
  - exists r. rewrite app_nil_r. by split_and!.
  - destruct (push_one r (mkRx b t) Hr) as (es & -> & H1 & H2); [lia|]. rewrite bind_ret.
    destruct (IH _ H1) as (r' & -> & H3 & H4 & H5 & H6); [cbn; lia|].
    exists r'. split_and!; try done. by rewrite H4, H2, <- app_assoc.
Qed.

Lemma pop_batch_queue max r : ring_inv r ->
  exists r', pop_batch max r = Ret (r', take max (queue r)) /\ ring_inv r' /\
    queue r' = drop max (queue r) /\ overflow r' = overflow r /\ dropped r' = dropped r.
Proof.
  revert r. induction max as [|max IH]; intros r Hr; cbn [pop_batch].
  { exists r. by rewrite take_0, drop_0. }
  destruct (0 <? count r)%nat eqn:E0; cycle 1.
  { exists r. assert (queue r = []) as ->; [|by split_and!].
    apply nil_length_inv. rewrite length_queue. lia. }
  apply Nat.ltb_lt in E0. set (r1 := mkRing _ _ _ _ _).
  assert (ring_inv r1) as H1 by (destruct Hr; split; cbn; lia).
  assert (queue r = nth (cell r 0) (entries r) (mkRx 0 0) :: queue r1) as Eq.
  { unfold queue. change (count r1) with (count r - 1)%nat. destruct (count r) as [|n] eqn:En; [lia|].
    cbn [List.seq map]. f_equal. rewrite Nat.sub_succ, Nat.sub_0_r, <- seq_shift, map_map.
    apply map_ext. intros i. f_equal. unfold cell. cbn [head count r1]. f_equal.
    rewrite En. pose proof (ri_count r Hr). lia. }
  assert ((head r + SPP_RX_RING_ENTRIES - count r) mod SPP_RX_RING_ENTRIES = cell r 0)%nat as ->.
  { unfold cell. by rewrite Nat.add_0_r. }
  assert (cell r 0 < 512)%nat as Hs by (apply Nat.mod_upper_bound; lia).
  rewrite (index_ok _ _ (nth (cell r 0) (entries r) (mkRx 0 0))); cycle 1.
  { rewrite nth_lookup. destruct (lookup_lt_is_Some_2 (entries r) (cell r 0)) as [x Hx];
      [rewrite (ri_entries r Hr); lia|]. by rewrite Hx. }
  rewrite bind_ret. destruct (IH r1 H1) as (r' & -> & H2 & H3 & H4 & H5). rewrite bind_ret.
  exists r'. cbn [fst snd]. rewrite Eq. by split_and!.
Qed.

(** The operations of the ring, on the ring and on a queue. *)
Inductive ring_op := Push (bs : list Z) (t : Z) | Pop (max : nat) | Clear | TakeOverflow.
Definition ring_step (o : ring_op) (r : SppRxRing) : outcome (SppRxRing * (list RxByte * bool)) :=
  match o with
  | Push bs t => r ← push bs t r; Ret (r, ([], false))
  | Pop max => x ← pop_batch max r; Ret (x.1, (x.2, false))
  | Clear => Ret (ring_clear r, ([], false))
  | TakeOverflow => let '(r, b) := take_overflow r in Ret (r, ([], b))
  end.

(** The queued bytes, the overflow flag and the number of bytes dropped. *)
Definition Queue : Type := list RxByte * bool * Z.
Definition queue_step (o : ring_op) (q : Queue) : Queue * (list RxByte * bool) :=
  let '(l, lost, n) := q in
  match o with
  | Push bs t =>
      if (512 - length l <? length bs)%nat
      then ((l, true, sat_add32 n (wrap32 (Z.of_nat (length bs)))), ([], false))
      else ((l ++ map (fun b => mkRx b t) bs, lost, n), ([], false))
  | Pop max => ((drop max l, lost, n), (take max l, false))
  | Clear => (([], false, n), ([], false))
  | TakeOverflow => ((l, false, n), ([], lost))
  end.
Definition as_queue (r : SppRxRing) : Queue := (queue r, overflow r, dropped r).

Lemma push_queue bs t r : ring_inv r -> exists r', push bs t r = Ret r' /\ ring_inv r' /\
  as_queue r' = (queue_step (Push bs t) (as_queue r)).1.
Proof.
  intros Hr. unfold push, queue_step, as_queue. rewrite length_queue. change SPP_RX_RING_ENTRIES with 512%nat.
  destruct (_ <? _)%nat eqn:E.
  - eexists. split; [done|]. split; [by destruct Hr|done].
  - apply Nat.ltb_ge in E. pose proof (ri_count r Hr).
    destruct (push_bytes_queue bs t r Hr) as (r' & -> & H1 & H2 & H3 & H4); [lia|].
    exists r'. split; [done|]. split; [done|]. cbn. by rewrite H2, H3, H4.
Qed.

Lemma ring_step_queue o r : ring_inv r -> exists r' out, ring_step o r = Ret (r', out) /\
  ring_inv r' /\ (as_queue r', out) = queue_step o (as_queue r).
Proof.
  intros Hr. destruct o as [bs t|max| |].
  - destruct (push_queue bs t r Hr) as (r' & E & H1 & H2). cbn [ring_step]. rewrite E, bind_ret.
    exists r', ([], false). split; [done|]. split; [done|]. rewrite H2.
    unfold queue_step, as_queue. by destruct (_ <? _)%nat.
  - destruct (pop_batch_queue max r Hr) as (r' & E & H1 & H2 & H3 & H4). cbn [ring_step].
    rewrite E, bind_ret. eexists _, _. split; [done|]. split; [done|].
    unfold as_queue. cbn [fst snd queue_step]. by rewrite H2, H3, H4.
  - eexists _, _. split; [done|]. split; [|done]. destruct Hr; split; cbn [entries head count ring_clear]; lia.
  - eexists _, _. split; [done|]. split; [by destruct Hr|done].
Qed.

Fixpoint ring_run (os : list ring_op) (r : SppRxRing) : outcome (SppRxRing * list (list RxByte * bool)) :=
  match os with
  | [] => Ret (r, [])
  | o :: os => x ← ring_step o r; y ← ring_run os x.1; Ret (y.1, x.2 :: y.2)
  end.
Fixpoint queue_run (os : list ring_op) (q : Queue) : Queue * list (list RxByte * bool) :=
  match os with
  | [] => (q, [])
  | o :: os => let '(q, x) := queue_step o q in let '(q, l) := queue_run os q in (q, x :: l)
  end.

Lemma ring_run_queue os r : ring_inv r -> exists r' outs, ring_run os r = Ret (r', outs) /\
  ring_inv r' /\ queue_run os (as_queue r) = (as_queue r', outs).
Proof.
  revert r. induction os as [|o os IH]; intros r Hr; [by exists r, []|].
  destruct (ring_step_queue o r Hr) as (r1 & out & E1 & H1 & H2). cbn [ring_run]. rewrite E1, bind_ret.
  destruct (IH r1 H1) as (r' & outs & E2 & H3 & H4). cbn [fst]. rewrite E2, bind_ret.
  exists r', (out :: outs). split; [done|]. split; [done|].
  cbn [queue_run]. rewrite <- H2, H4. done.
Qed.

Lemma ring_new_inv : ring_inv ring_new.
Proof. split; cbn [entries head count ring_new]; [apply length_replicate|lia|lia]. Qed.

(** The callback's ring is a queue of at most 512 bytes.  For every sequence
    of received chunks, batches taken out, resets and overflow checks, the ring
    never indexes outside its array and behaves as a list: a chunk is appended
    whole when it fits and is dropped whole, counted and flagged, when it does
    not; a batch takes the oldest bytes, in order, each with its tick; the flag
    is reported once. *)
Theorem ring_fifo os : exists r outs, ring_run os ring_new = Ret (r, outs) /\
  queue_run os ([], false, 0) = (as_queue r, outs) /\ (length (queue r) <= 512)%nat.
Proof.
  destruct (ring_run_queue os ring_new ring_new_inv) as (r & outs & H1 & H2 & H3).
  exists r, outs. split; [done|]. split; [exact H3|]. rewrite length_queue. apply H2.
Qed.

(** ** Whole packets *)
(** What a packet is made of: exchanges (the command's frame, a presence notice,
    the framed reply to its slot and sequence number) and refusals. *)
Definition exchange (x : list Z) : Prop :=
  exists m h reply notice, message m /\ CcidHeader_parse m = Some h /\
    (reply = [] \/ addressed h reply) /\
    (notice = [] \/ message_type h = PC_TO_RDR_GET_SLOT_STATUS /\ length notice = 2%nat) /\
    x = frame_of m ++ notice ++ frame_of reply.
Definition refusal (x : list Z) : Prop := x = [SYNC; CTRL_NAK; Z.lxor SYNC CTRL_NAK].
Definition whole (packet : list Z) : Prop :=
  exists parts, packet = mjoin parts /\ Forall (fun x => exchange x \/ refusal x) parts.

Lemma whole_nil : whole [].
Proof. by exists []. Qed.
Lemma whole_snoc p x : whole p -> exchange x \/ refusal x -> whole (p ++ x).
Proof.
  intros (parts & -> & Hp) Hx. exists (parts ++ [x]). split.
  - rewrite join_app. cbn. by rewrite app_nil_r.
  - apply Forall_app. split; [done|]. by constructor.
Qed.

(** *** The packet buffer *)
Lemma append_all_spec parts buf len : length buf = SPP_TX_BUF_SIZE -> (len <= SPP_TX_BUF_SIZE)%nat ->
  exists buf' len' ok, append_all buf len parts = Ret (buf', len', ok) /\
    length buf' = SPP_TX_BUF_SIZE /\ take len buf' = take len buf /\
    if ok : bool then len' = (len + length (mjoin parts))%nat /\ (len' <= SPP_TX_BUF_SIZE)%nat /\
                      take len' buf' = take len buf ++ mjoin parts
    else (SPP_TX_BUF_SIZE < len + length (mjoin parts))%nat.
Proof.
  intros Hb. revert buf len Hb. induction parts as [|p parts IH]; intros buf len Hb Hl.
  { exists buf, len, true. cbn. rewrite Nat.add_0_r, app_nil_r. by split_and!. }
  cbn [append_all]. unfold append_slice. rewrite Hb.
  assert (mjoin (p :: parts) = p ++ mjoin parts) as Ej by done. rewrite Ej, length_app.
  destruct (_ <? _)%nat eqn:E.
  { rewrite bind_ret. exists buf, len, false. split_and!; try done. lia. }
  apply Nat.ltb_ge in E. rewrite copy_at_ok by lia. rewrite !bind_ret.
  set (b1 := take len buf ++ p ++ drop (len + length p) buf).
  assert (length b1 = SPP_TX_BUF_SIZE) as H1.
  { unfold b1. rewrite !length_app, length_take, length_drop. lia. }
  destruct (IH b1 (len + length p)%nat H1 E) as (b2 & l2 & ok & -> & H2 & H3 & H4).
  exists b2, l2, ok. split; [done|]. split; [done|].
  assert (take (len + length p) b1 = take len buf ++ p) as E1.
  { unfold b1. rewrite app_assoc, take_app_le by (rewrite length_app, length_take; lia).
    apply take_ge. rewrite length_app, length_take. lia. }
  assert (take len b1 = take len buf) as E0.
  { unfold b1. rewrite take_app_le by (rewrite length_take; lia). by rewrite take_take, Nat.min_id. }
  split.
  - rewrite <- E0. replace (take len b2) with (take len (take (len + length p) b2)) by
      (rewrite take_take; f_equal; lia).
    rewrite H3, take_take. f_equal. lia.
  - destruct ok; [|lia]. destruct H4 as (-> & H5 & H6). split; [lia|]. split; [done|].
    rewrite H6, E1. by rewrite <- app_assoc.
Qed.

(** ** The pump *)
Definition feed_ok (x : RxByte) : Prop := u8 (byte x) /\ u32 (tick x).

Section Shell.
Context {D E : Type} `{!NfcDriver D E, !NfcDriverLaws D E, !NfcProbes D, !NfcProbesLaws D E,
  !FrontendDiagnostics D}.
Implicit Types (p : SppPump D) (h : Shell D).

Record pump_ok p (b : TimeExtension.Bridge) : Prop := {
  po_server : server_ok (server p) b;
  po_writer : TimeExtension.writer b = false;
  po_tx : length (tx_buf p) = SPP_TX_BUF_SIZE /\ (tx_len p <= SPP_TX_BUF_SIZE)%nat;
  po_whole : whole (tx p)
}.

Lemma pump_ok_server s p b b' : pump_ok p b -> server_ok s b' -> TimeExtension.writer b' = false ->
  pump_ok (with_server s p) b'.
Proof. intros [] Hs Hw. by split. Qed.

Lemma served_exchange m now k s b s' b' frames : TimeExtension.writer b = false -> message m ->
  served m now k s b s' b' frames ->
  exchange (echo s' ++ notify s' ++ response s') /\ TimeExtension.writer b' = false.
Proof.
  intros Hw Hm Hs. pose proof (sv_config _ _ _ _ _ _ _ _ Hs) as (_ & _ & _ & Hb).
  split; [|by rewrite Hb]. destruct (sv_handler _ _ _ _ _ _ _ _ Hs) as (r & h & _ & Hp & Hr & Hd).
  exists m, h, (sent r), (SerialSpec.notice m now s). split; [done|]. split; [done|].
  split; [done|]. split; [by apply notice_cases|].
  rewrite (sv_echo _ _ _ _ _ _ _ _ Hs), (sv_notify _ _ _ _ _ _ _ _ Hs), Hr.
  unfold emitted, extends. by rewrite Hw.
Qed.

Lemma pump_byte_ok x v p b o : pump_ok p b -> feed_ok x ->
  exists p' b' o', pump_byte x v p b o = Ret (p', b', o') /\ pump_ok p' b'.
Proof.
  intros Hp [Hx1 Hx2]. unfold pump_byte.
  destruct (feed_byte_spec (byte x) (tick x) (stalls v) (server p) b (po_server p b Hp) Hx1 Hx2)
    as (s & b' & action & frames & -> & Hs & _ & Ha). rewrite bind_ret.
  destruct (po_tx p b Hp) as [Ht1 Ht2].
  assert (TimeExtension.writer b' = false) as Hw.
  { destruct action.
    - destruct Ha as (m & q & _ & Hm & Hsv). by eapply served_exchange; [apply Hp| |].
    - destruct Ha as (_ & _ & -> & _). apply Hp.
    - destruct Ha as (_ & -> & _). apply Hp. }
  pose proof (pump_ok_server s p b b' Hp Hs Hw) as Hps.
  destruct action.
  - destruct Ha as (m & q & _ & Hm & Hsv).
    destruct (served_exchange _ _ _ _ _ _ _ _ (po_writer p b Hp) Hm Hsv) as [Hx _].
    destruct (response_expired _ s).
    { eexists _, _, _. split; [done|]. apply (pump_ok_server _ p b); [done|by apply late_ok|done]. }
    cbn [tx_buf tx_len with_server].
    destruct (append_all_spec [echo s; notify s; response s] (tx_buf p) (tx_len p) Ht1 Ht2)
      as (buf & len & ok & -> & H1 & H2 & H3). rewrite bind_ret. destruct ok.
    + destruct H3 as (-> & H4 & H5). eexists _, _, _. split; [done|].
      split; [done|done|by split|].
      unfold tx. cbn [tx_len tx_buf with_stamp with_deadline with_tx]. rewrite H5.
      apply whole_snoc; [apply Hp|]. left.
      replace (mjoin [echo s; notify s; response s]) with (echo s ++ notify s ++ response s)
        by (cbn; by rewrite app_nil_r). exact Hx.
    + eexists _, _, _. split; [done|].
      cbn [tx_len with_tx]. destruct (tx_len p =? 0)%nat;
        (split; [done|done|by split|]; unfold tx; cbn [tx_len tx_buf with_tx drop_response with_deadline];
         rewrite H2; apply Hp).
  - destruct Ha as (_ & _ & _ & Hn). cbn [tx_buf tx_len with_server].
    pose proof (append_all_spec [nak_buf s] (tx_buf p) (tx_len p) Ht1 Ht2) as Hall.
    assert (mjoin [nak_buf s] = nak_buf s) as Ej by apply app_nil_r.
    rewrite Ej in Hall. cbn [append_all] in Hall. unfold append_slice in *. rewrite Ht1 in *.
    destruct (_ <? _)%nat eqn:El.
    + rewrite bind_ret. eexists _, _, _. split; [done|]. destruct Hps; by split.
    + apply Nat.ltb_ge in El. rewrite copy_at_ok in * by lia. rewrite !bind_ret in Hall. rewrite !bind_ret.
      destruct Hall as (buf & len & ok & [= <- <- <-] & H1 & H2 & _ & H4 & H5).
      eexists _, _, _. split; [done|]. split; [done|done|by split|].
      unfold tx. cbn [tx_len tx_buf with_tx]. rewrite H5. apply whole_snoc; [apply Hp|]. by right.
  - eexists _, _, _. by split.
Qed.

Lemma pump_rx_ok xs p b o : pump_ok p b -> Forall (fun x => feed_ok x.1) xs ->
  exists p' b' o', pump_rx xs p b o = Ret (p', b', o') /\ pump_ok p' b'.
Proof.
  intros Hp Hxs. revert p b o Hp. induction Hxs as [|[x v] xs Hx _ IH]; intros p b o Hp.
  { by exists p, b, o. }
  cbn [pump_rx]. destruct (pump_byte_ok x v p b o Hp Hx) as (p1 & b1 & o1 & -> & H1).
  rewrite bind_ret. by apply IH.
Qed.

(** ** The shared state *)
Record shared_ok (g : Shared) : Prop := {
  sh_ring : ring_inv (ring g);
  sh_queue : Forall feed_ok (queue (ring g));
  sh_pending : length (pending_buf (link g)) = SPP_TX_BUF_SIZE /\ (pending_len (link g) <= SPP_TX_BUF_SIZE)%nat;
  sh_whole : whole (pending (link g))
}.
Definition event_ok (e : SppEvent) : Prop :=
  match e with DataInd _ data now => bytes data /\ u32 now | _ => True end.

(** The callback never parks: it leaves the parked packet or drops it. *)
Definition keeps_or_drops (l l' : SppLink) : Prop := pending l' = pending l \/ pending l' = [].

Lemma keeps_trans l1 l2 l3 : keeps_or_drops l1 l2 -> keeps_or_drops l2 l3 -> keeps_or_drops l1 l3.
Proof. unfold keeps_or_drops. intuition congruence. Qed.

Lemma on_event_ok e g : shared_ok g -> event_ok e ->
  exists g', on_event e g = Ret g' /\ shared_ok g' /\ keeps_or_drops (link g) (link g').
Proof.
  intros [H1 H2 H3 H4] He.
  assert (ring_inv (ring_clear (ring g))) as Hc.
  { destruct H1. split; cbn [entries head count ring_clear]; lia. }
  destruct e as [[|] h now|now|c|[|] data now]; cbn [on_event].
  - eexists. split; [done|]. split; [|by right].
    split; [exact Hc|constructor|cbn; split; [apply H3|lia]|apply whole_nil].
  - exists g. split; [done|]. split; [done|by left].
  - eexists. split; [done|]. split; [|by right].
    split; [exact Hc|constructor|cbn; split; [apply H3|lia]|apply whole_nil].
  - eexists. split; [done|]. split; [done|by left].
  - destruct (push_queue data now (ring g) H1) as (r & -> & Hr & Eq). rewrite bind_ret.
    eexists. split; [done|]. split; [|by left]. split; try done. cbn [ring].
    assert (queue r = ((queue_step (Push data now) (as_queue (ring g))).1).1.1) as -> by (by rewrite <- Eq).
    unfold queue_step, as_queue. destruct (_ <? _)%nat; [done|]. cbn [fst snd].
    apply Forall_app. split; [done|]. destruct He as [Hb Ht].
    apply Forall_map. eapply Forall_impl; [exact Hb|]. intros b Hu. by split.
  - exists g. split; [done|]. split; [done|by left].
Qed.

Lemma on_events_ok es g : shared_ok g -> Forall event_ok es ->
  exists g', on_events es g = Ret g' /\ shared_ok g' /\ keeps_or_drops (link g) (link g').
Proof.
  intros Hg Hes. revert g Hg. induction Hes as [|e es He _ IH]; intros g Hg.
  { exists g. split; [done|]. split; [done|by left]. }
  cbn [on_events]. destruct (on_event_ok e g Hg He) as (g1 & -> & H1 & H2). rewrite bind_ret.
  destruct (IH g1 H1) as (g' & -> & H3 & H4). exists g'. split; [done|]. split; [done|].
  by eapply keeps_trans.
Qed.

(** ** The loop *)
Record shell_ok h : Prop := {
  sk_shared : shared_ok (shared h);
  sk_pump : pump_ok (pump h) (bridge h)
}.

Lemma callbacks_ok es h : shell_ok h -> Forall event_ok es ->
  exists h', callbacks es h = Ret h' /\ shell_ok h' /\ pump h' = pump h /\
    keeps_or_drops (link (shared h)) (link (shared h')).
Proof.
  intros [Hg Hp] Hes. unfold callbacks. destruct (on_events_ok es _ Hg Hes) as (g & -> & H1 & H2).
  rewrite bind_ret. eexists. by split_and!.
Qed.

Lemma Forall_fed (xs : list RxByte) vs : Forall feed_ok xs -> Forall (fun x => feed_ok x.1) (fed xs vs).
Proof. intros H. revert vs. induction H; intros vs; cbn [fed]; by constructor. Qed.

Lemma length_fed xs vs : length (fed xs vs) = length xs.
Proof. revert vs. induction xs as [|x xs IH]; intros vs; [done|]. cbn. by rewrite IH. Qed.

Definition round_ok (r : Round) : Prop := Forall event_ok r.1.

(** Enough rounds: those with events, and one for each full batch and the last,
    empty one. *)
Definition enough (fuel : nat) (rounds : list Round) (queued : nat) : Prop :=
  match rounds with
  | [] => (queued + 128 <= 128 * fuel)%nat
  | _ => (length rounds + 5 <= fuel)%nat
  end.

Lemma drain_ok fuel rounds h o : shell_ok h -> Forall round_ok rounds ->
  enough fuel rounds (count (ring (shared h))) ->
  exists h' o', drain fuel rounds h o = Ret (h', o') /\ shell_ok h' /\
    keeps_or_drops (link (shared h)) (link (shared h')) /\ queue (ring (shared h')) = [].
Proof.
  revert rounds h o. induction fuel as [|fuel IH]; intros rounds h o Hh Hrs Hf.
  { destruct rounds; cbn in Hf; lia. }
  cbn [drain]. destruct (default ([], []) (List.head rounds)) as [es vs] eqn:Er.
  assert (Forall event_ok es) as Hes.
  { destruct Hrs as [|r rs Hr _]; cbn in Er; [by injection Er as <- <-|]. subst r. exact Hr. }
  destruct (callbacks_ok es h Hh Hes) as (h1 & E1 & H1 & Hp1 & Hk1). rewrite E1, bind_ret.
  destruct (pop_batch_queue SPP_POP_BATCH (ring (shared h1)) (sh_ring _ (sk_shared _ H1)))
    as (r & -> & Hr & Hq & _ & _). rewrite bind_ret.
  pose proof (sh_queue _ (sk_shared _ H1)) as Hfeed.
  remember (take SPP_POP_BATCH (queue (ring (shared h1)))) as xs eqn:Exs.
  assert (shell_ok (with_shared (with_ring r (shared h1)) h1)) as H2.
  { destruct H1 as [[G1 G2 G3 G4] P]. split; [|exact P]. split; try done.
    cbn [ring with_ring shared with_shared]. rewrite Hq. by apply Forall_drop. }
  destruct xs as [|x xs'].
  - eexists _, _. split; [done|]. split; [done|]. split; [exact Hk1|].
    cbn [ring with_ring shared with_shared]. rewrite Hq.
    destruct (queue (ring (shared h1))) as [|y l]; done.
  - cbn [pump bridge with_shared]. destruct (pump_rx_ok (fed (x :: xs') vs) (pump h1) (bridge h1) pumped_default (sk_pump _ H1))
      as (p & b & o' & -> & Hp).
    { apply Forall_fed. rewrite Exs. by apply Forall_take. }
    rewrite bind_ret.
    cbn [shared with_shared]. set (h3 := mkShell (with_ring r (shared h1)) p b).
    assert (shell_ok h3) as H3 by (split; [apply H2|exact Hp]).
    destruct (IH (tail rounds) h3 (merge o o') H3) as (h' & o'' & -> & H4 & H5 & H6).
    { by destruct Hrs. }
    { change (count (ring (shared h3))) with (count r). rewrite <- length_queue, Hq, length_drop.
      rewrite length_queue. pose proof (ri_count _ (sh_ring _ (sk_shared _ H1))) as Hc.
      unfold enough in *. destruct rounds as [|rd [|rd' rs]]; cbn [tail length] in *.
      - assert (h1 = h) as -> .
        { cbn in Er. injection Er as <- <-. revert E1. unfold callbacks. cbn [on_events]. rewrite bind_ret.
          destruct h. by intros [= <-]. }
        unfold SPP_POP_BATCH.
        assert (1 <= count (ring (shared h)))%nat.
        { rewrite <- length_queue. destruct (queue (ring (shared h))); [done|cbn; lia]. }
        lia.
      - unfold SPP_POP_BATCH. lia.
      - lia. }
    exists h', o''. split; [done|]. split; [done|]. split; [|done]. by eapply keeps_trans.
Qed.

(** What reached the wire. *)
Definition writes (sent : list Sent) : list (list Z) :=
  omap (fun x => match x with Written l => Some l | Snapshot => None end) sent.

(** The packets written are among the packets made, in order, and the parked one
    comes after all of them. *)
Definition in_order (made written : list (list Z)) (l : SppLink) : Prop :=
  written `sublist_of` made /\
  (pending l = [] \/
   exists before after, made = before ++ pending l :: after /\ written `sublist_of` before).

Lemma in_order_keeps made written l l' : in_order made written l -> keeps_or_drops l l' ->
  in_order made written l'.
Proof. intros [H1 H2] [Ek|Ek]; (split; [done|]); [by rewrite Ek|by left]. Qed.

Lemma in_order_more made more written l : in_order made written l -> in_order (made ++ more) written l.
Proof.
  intros [H1 H2]. split; [by apply sublist_inserts_r|]. destruct H2 as [H2|(b & a & -> & H2)]; [by left|].
  right. exists b, (a ++ more). by rewrite <- app_assoc.
Qed.

Lemma pending_nil g : shared_ok g -> pending (link g) = [] <-> pending_len (link g) = 0%nat.
Proof.
  intros [_ _ [H1 H2] _]. unfold pending. split; intros H.
  - apply (f_equal length) in H. rewrite length_take in H. cbn in H. lia.
  - by rewrite H.
Qed.

Lemma pump_ok_snapshot p b : pump_ok p b ->
  pump_ok (take_snapshot_request p).1 b /\ tx (take_snapshot_request p).1 = tx p /\
  tx_deadline (take_snapshot_request p).1 = tx_deadline p.
Proof.
  intros Hp. unfold take_snapshot_request. pose proof (take_snapshot_ok _ _ (po_server p b Hp)) as H.
  destruct (take_snapshot (server p)) as [s k]. split; [|done].
  exact (pump_ok_server s p b b Hp H (po_writer p b Hp)).
Qed.

Lemma tx_clear_ok p b : pump_ok p b -> pump_ok (tx_clear p) b.
Proof.
  intros [? ? [] ?]. split; [done|done|split; [done|cbn; lia]|]. exact whole_nil.
Qed.

Lemma length_packet p b : pump_ok p b -> (length (tx p) <= SPP_TX_BUF_SIZE)%nat.
Proof. intros []. unfold tx. rewrite length_take. lia. Qed.

Lemma park_packet_ok h : shell_ok h -> exists h', park_packet h = Ret h' /\ shell_ok h' /\
  pending (link (shared h')) = tx (pump h) /\ tx (pump h') = tx (pump h).
Proof.
  intros [[G1 G2 [G3 G4] G5] Hp]. unfold park_packet.
  destruct (pump_ok_snapshot _ _ Hp) as (H1 & H2 & _).
  destruct (take_snapshot_request (pump h)) as [p snapshot]. cbn [fst] in *.
  unfold park. rewrite H2. pose proof (length_packet _ _ Hp) as Hl. rewrite Nat.min_l by done.
  rewrite slice_ok by lia. rewrite bind_ret, Nat.sub_0_r, drop_0, take_ge by done.
  rewrite copy_at_ok by (rewrite G3; exact Hl). rewrite !bind_ret.
  eexists. split; [done|]. assert (forall l, take (length (tx (pump h))) (tx (pump h) ++ l) = tx (pump h)) as Et.
  { intros l. by rewrite take_app_length. }
  split; [|split; [apply Et|exact H2]].
  split; [|exact H1]. split; try done.
  - cbn [link with_link with_shared with_pump shared pending_buf pending_len]. split; [|done].
    rewrite take_0, !length_app, length_drop. cbn [length]. lia.
  - cbn [link with_link with_shared with_pump shared]. unfold pending.
    cbn [pending_buf pending_len]. rewrite take_0. cbn [app]. rewrite Et. apply Hp.
Qed.

(** The environment's ticks and bytes. *)
Definition deliver_ok_env (v : DeliverEnv) : Prop := Forall event_ok (between v) /\ u32 (after_tick v).

Lemma delivered_ok now v h : shell_ok h -> deliver_ok_env v ->
  shell_ok (delivered now v h).1 /\ shared (delivered now v h).1 = shared h /\
  writes (delivered now v h).2 = [].
Proof.
  intros [Hg Hp] [_ Ht]. unfold delivered.
  assert (pump_ok (record_turnaround (now_us v) (pump h)) (bridge h)) as H1.
  { unfold record_turnaround. destruct (respond_stamp_us (pump h)); [|done].
    assert (server_ok (set_handler (esp_record_turnaround_us (clamp (now_us v - z) 0 u32_max)
      (handler (server (pump h)))) (server (pump h))) (bridge h)) as Hs.
    { apply set_handler_ok; [apply Hp|]. apply esp_turnaround_ok, Hp. }
    destruct Hp. by split. }
  assert (pump_ok (pump_poll_if_due now (record_turnaround (now_us v) (pump h))) (bridge h)) as H2.
  { apply (pump_ok_server _ _ (bridge h)); [done|apply poll_if_due_ok, H1|apply H1]. }
  destruct (pump_ok_snapshot _ _ H2) as (H3 & _).
  destruct (take_snapshot_request _) as [p []]; cbn [fst] in *.
  - by split.
  - split; [|done]. split; [done|].
    apply (pump_ok_server _ _ (bridge h)); [done|apply poll_and_stash_ok; [apply H3|done]|apply H3].
Qed.

Lemma clear_ok h : shell_ok h -> shell_ok (with_pump (tx_clear (pump h)) h).
Proof. intros []. split; [done|by apply tx_clear_ok]. Qed.

Lemma deliver_ok now v h made written : shell_ok h -> deliver_ok_env v ->
  in_order made written (link (shared h)) ->
  exists h' sent, deliver now v h = Ret (h', sent) /\ shell_ok h' /\ Forall whole (writes sent) /\
    in_order (made ++ [tx (pump h)]) (written ++ writes sent) (link (shared h')).
Proof.
  intros Hh Hv Ho. unfold deliver. destruct (callbacks_ok (between v) h Hh (proj1 Hv))
    as (h1 & -> & H1 & Hp1 & Hk). rewrite bind_ret. rewrite <- Hp1.
  pose proof (in_order_keeps _ _ _ _ Ho Hk) as Ho1.
  assert (whole (tx (pump h1))) as Hw by apply (sk_pump _ H1).
  assert (forall h2, shell_ok h2 -> pending (link (shared h2)) = tx (pump h1) ->
    in_order (made ++ [tx (pump h1)]) (written ++ writes []) (link (shared h2))) as Hparked.
  { intros h2 H2 Et. split; rewrite app_nil_r; [apply sublist_inserts_r, Ho1|].
    right. exists made, []. rewrite Et. split; [done|apply Ho1]. }
  destruct (delivery_plan (link (shared h))) eqn:Ep.
  - assert (pending (link (shared h)) = []) as Hn.
    { apply pending_nil; [apply Hh|]. unfold delivery_plan in Ep.
      destruct (handle (link (shared h))); [|done].
      destruct (congested (link (shared h)) || (0 <? pending_len (link (shared h)))%nat) eqn:Ec; [done|].
      apply orb_false_iff in Ec as [_ Ec]. lia. }
    destruct (write_ok v).
    + destruct (delivered_ok now v _ (clear_ok h1 H1) Hv) as (H2 & H3 & H4).
      destruct (delivered now v _) as [h2 sent]. cbn [fst snd] in *.
      eexists _, _. split; [done|]. split; [done|].
      change (writes (Written (tx (pump h1)) :: sent)) with (tx (pump h1) :: writes sent). rewrite H4.
      split; [by constructor|]. rewrite H3. split; [by apply sublist_app; [apply Ho1|]|].
      left. destruct Hk as [Hk|Hk]; [by rewrite <- Hn|done].
    + destruct (park_packet_ok h1 H1) as (h2 & -> & H2 & H3 & H4). rewrite bind_ret.
      eexists _, _. split; [done|]. split; [by apply clear_ok|]. split; [constructor|].
      by apply (Hparked _ (clear_ok h2 H2)).
  - destruct (park_packet_ok h1 H1) as (h2 & -> & H2 & H3 & H4). rewrite bind_ret.
    eexists _, _. split; [done|]. split; [by apply clear_ok|]. split; [constructor|].
    by apply (Hparked _ (clear_ok h2 H2)).
  - eexists _, _. split; [done|].
    set (h2 := with_shared _ h1). assert (shell_ok h2) as H2.
    { destruct H1 as [[]]. split; [by split|done]. }
    pose proof (clear_ok h2 H2) as H3. destruct (pump_ok_snapshot _ _ (sk_pump _ H3)) as (H4 & _).
    split; [split; [apply H3|exact H4]|]. split; [constructor|]. rewrite app_nil_r.
    by apply in_order_more.
Qed.

Lemma retry_spec now ok es h made written : shell_ok h -> Forall event_ok es ->
  in_order made written (link (shared h)) ->
  exists h' sent, retry now ok es h = Ret (h', sent) /\ shell_ok h' /\ Forall whole (writes sent) /\
    in_order made (written ++ writes sent) (link (shared h')).
Proof.
  intros Hh Hes Ho. unfold retry.
  assert (exists h' sent, @Ret (Shell D * list Sent) (h, []) = Ret (h', sent) /\ shell_ok h' /\
    Forall whole (writes sent) /\ in_order made (written ++ writes sent) (link (shared h'))) as Hno.
  { exists h, []. split; [done|]. split; [done|]. split; [constructor|]. by rewrite app_nil_r. }
  destruct (handle (link (shared h))); [|exact Hno].
  destruct (negb (congested (link (shared h))) && _) eqn:Ec; [|exact Hno].
  assert (pending (link (shared h)) <> []) as Hne.
  { rewrite pending_nil by apply Hh. apply andb_prop in Ec as [_ Ec]. lia. }
  destruct (callbacks_ok es h Hh Hes) as (h1 & -> & H1 & _ & Hk). rewrite bind_ret.
  assert (forall l, pending_buf l = pending_buf (link (shared h1)) -> pending_len l = 0%nat ->
    shell_ok (with_shared (with_link l (shared h1)) h1)) as Hcl.
  { intros l E1 E2. destruct H1 as [[G1 G2 [G3 G4] G5] Hp]. split; [|done]. split; try done; cbn [link with_link with_shared shared].
    - rewrite E1, E2. split; [done|lia].
    - unfold pending. rewrite E2. apply whole_nil. }
  destruct Ho as [Ho1 [Ho2|(b & a & Em & Ho2)]]; [done|].
  destruct (pending_expired now (link (shared h))); [|destruct ok].
  - eexists _, _. split; [done|]. split; [by apply Hcl|]. split; [constructor|].
    rewrite app_nil_r. split; [done|]. by left.
  - eexists _, _. split; [done|]. split; [by apply Hcl|].
    assert (writes (Written (pending (link (shared h))) ::
      (if (take_pending_snapshot (link (shared h1))).2 then [Snapshot] else [])) = [pending (link (shared h))]) as Ew.
    { by destruct (take_pending_snapshot (link (shared h1))).2. }
    cbn [take_pending_snapshot snd] in Ew. rewrite Ew. split; [constructor; [apply Hh|constructor]|].
    split; [|by left]. rewrite Em. rewrite (cons_middle _ b a). rewrite app_assoc.
    apply sublist_inserts_r. by apply sublist_app.
  - eexists _, _. split; [done|]. split; [done|]. split; [constructor|]. rewrite app_nil_r.
    eapply in_order_keeps; [|exact Hk]. split; [done|]. right. by exists b, a.
Qed.

Lemma idle_check_ok now h : shell_ok h -> u32 now ->
  shell_ok (idle_check now h) /\ link (shared (idle_check now h)) = link (shared h).
Proof.
  intros [[G1 G2 G3 G4] Hp] Hn. unfold idle_check. cbn [take_overflow].
  set (h1 := with_shared _ h). assert (shell_ok h1) as H1.
  { split; [|done]. split; try done. by destruct G1. }
  destruct (_ || _); [|done]. split; [|done]. split; [apply H1|].
  apply (pump_ok_server _ _ (bridge h)); [done| |apply Hp].
  apply poll_and_stash_ok; [|done]. apply reset_parser_ok, Hp.
Qed.

Record turn_ok (t : Turn) : Prop := {
  to_now : u32 (turn_now t);
  to_rounds : Forall round_ok (rounds t);
  to_delivery : deliver_ok_env (delivery t);
  to_before_retry : Forall event_ok (before_retry t);
  to_during_retry : Forall event_ok (during_retry t);
  to_before_idle : Forall event_ok (before_idle t)
}.

(** The packet a turn makes. *)
Definition made_by (t : Turn) h : list (list Z) :=
  match drain (length (rounds t) + 5) (rounds t) h pumped_default with
  | Ret (h, o) => if any o then [tx (pump h)] else []
  | Panic => []
  end.

Lemma turn_spec t h made written : shell_ok h -> turn_ok t -> in_order made written (link (shared h)) ->
  exists h' sent, turn t h = Ret (h', sent) /\ shell_ok h' /\ Forall whole (writes sent) /\
    in_order (made ++ made_by t h) (written ++ writes sent) (link (shared h')).
Proof.
  intros Hh [T1 T2 T3 T4 T5 T6] Ho. unfold turn, made_by.
  destruct (drain_ok (length (rounds t) + 5) (rounds t) h pumped_default Hh T2) as (h1 & o & -> & H1 & Hk & _).
  { unfold enough. pose proof (ri_count _ (sh_ring _ (sk_shared _ Hh))).
    destruct (rounds t); cbn [length]; lia. }
  rewrite bind_ret. pose proof (in_order_keeps _ _ _ _ Ho Hk) as Ho1.
  assert (exists h2 sent, (if any o then deliver (turn_now t) (delivery t) h1 else Ret (h1, [])) = Ret (h2, sent) /\
    shell_ok h2 /\ Forall whole (writes sent) /\
    in_order (made ++ (if any o then [tx (pump h1)] else [])) (written ++ writes sent) (link (shared h2)))
    as (h2 & s1 & -> & H2 & W1 & Ho2).
  { destruct (any o); [by apply deliver_ok|]. exists h1, []. rewrite !app_nil_r. by split_and!. }
  rewrite bind_ret. destruct (resets s1); [by exists h2, s1|].
  destruct (callbacks_ok (before_retry t) h2 H2 T4) as (h3 & -> & H3 & _ & Hk3). rewrite bind_ret.
  destruct (retry_spec (retry_tick t) (retry_ok t) (during_retry t) h3 _ _ H3 T5
    (in_order_keeps _ _ _ _ Ho2 Hk3)) as (h4 & s2 & -> & H4 & W2 & Ho4). rewrite bind_ret.
  assert (writes (s1 ++ s2) = writes s1 ++ writes s2) as Ew by apply omap_app.
  rewrite <- app_assoc, <- Ew in Ho4.
  assert (Forall whole (writes (s1 ++ s2))) as W3 by (rewrite Ew; by apply Forall_app).
  destruct (resets s2); [by exists h4, (s1 ++ s2)|].
  destruct (callbacks_ok (before_idle t) h4 H4 T6) as (h5 & -> & H5 & _ & Hk5). rewrite bind_ret.
  destruct (idle_check_ok (turn_now t) h5 H5 T1) as [H6 E6].
  eexists _, _. split; [done|]. split; [done|]. split; [done|]. rewrite E6. by eapply in_order_keeps.
Qed.

(** The turns of the loop until the device resets, with the packets made. *)
Fixpoint turns (ts : list Turn) h : outcome (Shell D * list Sent * list (list Z)) :=
  match ts with
  | [] => Ret (h, [], [])
  | t :: ts =>
      let made := made_by t h in
      r ← turn t h;
      if resets r.2 then Ret (r.1, r.2, made)
      else rest ← turns ts r.1; Ret (rest.1.1, r.2 ++ rest.1.2, made ++ rest.2)
  end.

Lemma turns_spec ts h made written : shell_ok h -> Forall turn_ok ts ->
  in_order made written (link (shared h)) ->
  exists h' sent more, turns ts h = Ret (h', sent, more) /\ shell_ok h' /\ Forall whole (writes sent) /\
    in_order (made ++ more) (written ++ writes sent) (link (shared h')).
Proof.
  intros Hh Hts. revert h made written Hh. induction Hts as [|t ts Ht _ IH]; intros h made written Hh Ho.
  { exists h, [], []. rewrite !app_nil_r. by split_and!. }
  cbn [turns]. destruct (turn_spec t h made written Hh Ht Ho) as (h1 & s1 & -> & H1 & W1 & Ho1).
  rewrite bind_ret. cbn [fst snd]. destruct (resets s1); [by exists h1, s1, (made_by t h)|].
  destruct (IH h1 _ _ H1 Ho1) as (h' & s2 & m & -> & H2 & W2 & Ho2). rewrite bind_ret. cbn [fst snd].
  assert (writes (s1 ++ s2) = writes s1 ++ writes s2) as Ew by apply omap_app.
  eexists _, _, _. split; [done|]. split; [done|]. rewrite Ew. split; [by apply Forall_app|].
  by rewrite !app_assoc.
Qed.

(** C24: the Bluetooth reader never writes a piece of a packet.  Over any driver
    that keeps its contract, for every sequence of turns of the serve loop,
    with any data, connections, disconnections and congestion arriving between
    its critical sections, any failed write and any tick, the loop runs without
    a panic, within the invariant of server, ring, link and packet buffer.
    Every packet that reaches the wire consists of whole parts, each an
    exchange (a received command's frame, its presence notice, the framed
    reply to its slot and sequence number) or a refusal; and the packets
    written are among the packets made, in the order they were made. *)
Theorem spp_wire ts handler poll w now : esp_ok handler -> Forall turn_ok ts ->
  exists h' sent made,
    turns ts (mkShell (shared_new now) (pump_new handler poll w now) TimeExtension.boot) =
      Ret (h', sent, made) /\
    shell_ok h' /\ Forall whole (writes sent) /\ writes sent `sublist_of` made.
Proof.
  intros He Hts. set (h0 := mkShell _ _ _). assert (shell_ok h0) as H0.
  { split.
    - split; [apply ring_new_inv|constructor|split; [apply length_replicate|cbn; lia]|apply whole_nil].
    - split; [by apply server_new_ok|done|split; [apply length_replicate|cbn; lia]|apply whole_nil]. }
  destruct (turns_spec ts h0 [] [] H0 Hts) as (h' & sent & made & -> & H1 & H2 & H3).
  { split; [done|]. by left. }
  exists h', sent, made. split; [done|]. split; [done|]. split; [done|]. apply H3.
Qed.
End Shell.

(** ** Witness: a status request over a new connection, then a parked answer *)
Module SppDemo.
Definition status : list Z := frame_of SerialDemo.status.
Definition quiet : DeliverEnv := mkDeliver true [] 0 12.
Definition busy : DeliverEnv := mkDeliver false [] 0 12.
(** The frame arrives in two chunks, the second while the first is served. *)
Definition opening : Turn :=
  mkTurn 10 [([ServerOpen true 7 9; DataInd true (take 5 status) 9], []);
             ([DataInd true (drop 5 status) 10], replicate 8 (mkEnv 0 11 0))]
    quiet [] 12 true [] [].
Definition parked : Turn :=
  mkTurn 20 [([DataInd true status 20], replicate 13 (mkEnv 0 21 0))] busy [Cong true] 22 true [] [].
Definition cleared : Turn := mkTurn 30 [] quiet [Cong false] 32 true [] [].
End SppDemo.

(** [Forall] over a list that is written out. *)
Ltac forall_list :=
  repeat match goal with
  | |- Forall _ (_ :: _) => apply Forall_cons_2
  | |- Forall _ [] => apply Forall_nil_2
  end.

Example spp_wire_witness :
  exists sent made,
    option_map (fun r => (r.1.2, r.2))
      (match turns [SppDemo.opening; SppDemo.parked; SppDemo.cleared]
         (mkShell (shared_new 0) (pump_new EspDemo.active 300 (from_tick_hz 100) 0) TimeExtension.boot)
       with Ret r => Some r | Panic => None end) = Some (sent, made) /\
    length (writes sent) = 2%nat /\ Forall whole (writes sent) /\ writes sent `sublist_of` made.
Proof.
  destruct (spp_wire [SppDemo.opening; SppDemo.parked; SppDemo.cleared] EspDemo.active 300
    (from_tick_hz 100) 0 esp_active_ok) as (h' & sent & made & E & _ & H1 & H2).
  { unfold SppDemo.opening, SppDemo.parked, SppDemo.cleared, SppDemo.quiet, SppDemo.busy.
    assert (bytes SppDemo.status) as Hs by solve_bytes.
    pose proof (Forall_take _ 5 _ Hs) as Hs1. pose proof (Forall_drop _ 5 _ Hs) as Hs2.
    forall_list; (split; cbn [turn_now rounds delivery before_retry during_retry before_idle];
       [unfold u32; lia| |split; [constructor|cbn; unfold u32; lia]| | |]);
      forall_list; try exact I; unfold round_ok; cbn [fst]; forall_list; try exact I;
      (split; [first [exact Hs|exact Hs1|exact Hs2]|unfold u32; lia]). }
  exists sent, made. rewrite E. split; [reflexivity|]. split; [|split; [exact H1|exact H2]].
  clear H1 H2.
  assert (option_map (fun r => length (writes r.1.2))
    (match turns [SppDemo.opening; SppDemo.parked; SppDemo.cleared]
       (mkShell (shared_new 0) (pump_new EspDemo.active 300 (from_tick_hz 100) 0) TimeExtension.boot)
     with Ret r => Some r | Panic => None end) = Some 2%nat) as Hv by (vm_compute; reflexivity).
  rewrite E in Hv. by injection Hv.
Defined.
