(* ===== verification/TcpServer.v ===== *)
(** * The TCP session

    [ccid-service/src/tcp_server.rs]: one accepted client of the serial server
    of [SerialServer.v] over TCP.  Every read is a tick of at most 250 ms; what
    the reads return, the ticks, the stalls and the results of the writes are
    arguments, and so is what the injected recovery hook does to the driver.
    The rejection of a second client only closes its socket and is left out.
    The theorems are in [TcpSpec.v]. *)
From Stdlib Require Import ZArith Lia ZifyBool.
From stdpp Require Import prelude.
From S2P Require Import Prelude CardInterface EspHandler SerialServer.
Local Open Scope Z_scope.

Module Tcp.

Definition IDLE_CLOSE_TICKS : Z := 2400.
Definition BURST_BUF_LEN : nat := 64.

Inductive SessionEnd := ClientClosed | IdleTimeout | ReadError.

(** One byte of a burst: the ticks before and after it is fed, the stalls, and
    whether the echo and the response can be written. *)
Record Fed := mkFed {
  byte : Z;
  feed_tick : Z;
  post_tick : Z;
  stalls : nat;
  echo_ok : bool;
  response_ok : bool
}.

(** What a read returns. *)
Inductive Read :=
| Closed                                     (* [Ok(0)] *)
| Burst (bytes : list Fed) (read_end : Z)    (* [Ok(n)] *)
| TimedOut (now : Z)
| Failed.

(** One iteration: the read, the hook, the tick of the poll. *)
Record Tick (D : Type) := mkTick {
  read : Read;
  on_tick : D -> D;
  poll_tick : Z
}.
Arguments mkTick {D}.
Arguments read {D} _.
Arguments on_tick {D} _.
Arguments poll_tick {D} _.

(** What happens to the stream. *)
Inductive WireEvent :=
| Extension (frame : list Z)
| Write (data : list Z) (sent : bool)
| ServeEvidence.

Record Session (D : Type) := mkSession {
  server : CcidSerialServer D;
  bridge : TimeExtension.Bridge;
  arrival_floor : Z;
  idle_ticks : Z
}.
Arguments mkSession {D}.
Arguments server {D} _.
Arguments bridge {D} _.
Arguments arrival_floor {D} _.
Arguments idle_ticks {D} _.

(** How an iteration ends: the loop goes on, the session is over, or the device
    resets on an acknowledged snapshot escape. *)
Inductive Next := GoOn | Ends (e : SessionEnd) | Resets.

Section Session.
Context {D E : Type} `{!NfcDriver D E, !NfcProbes D, !FrontendDiagnostics D}.
Implicit Types (s : CcidSerialServer D) (x : Session D).

Definition with_server s b x : Session D := mkSession s b (arrival_floor x) (idle_ticks x).

(** The byte loop: [true] when the snapshot escape was acknowledged.  A failed
    write abandons the burst. *)
Fixpoint serve_burst (floor : Z) (fs : list Fed) s (b : TimeExtension.Bridge) :
    outcome (CcidSerialServer D * TimeExtension.Bridge * list WireEvent * bool) :=
  match fs with
  | [] => Ret (s, b, [], false)
  | f :: fs =>
      r ← feed_byte (byte f) (feed_tick f) (stalls f) s b;
      let '(s, b, (action, hooked)) := r in
      let events := map Extension hooked in
      match action with
      | Respond =>
          let s := refresh_host_deadline floor s in
          if response_expired (post_tick f) s then
            r ← serve_burst floor fs (record_late_response s) b;
            let '(s, b, rest, reset) := r in Ret (s, b, events ++ rest, reset)
          else if negb (echo_ok f) then Ret (s, b, events ++ [Write (echo s) false], false)
          else if negb (response_ok f) then
            Ret (s, b, events ++ [Write (echo s) true; Write (response s) false], false)
          else
            let events := events ++ [Write (echo s) true; Write (response s) true; ServeEvidence] in
            let '(s, snapshot) := take_snapshot s in
            if snapshot : bool then Ret (s, b, events, true)
            else
              r ← serve_burst floor fs s b;
              let '(s, b, rest, reset) := r in Ret (s, b, events ++ rest, reset)
      | Nak | NoAction =>
          r ← serve_burst floor fs s b;
          let '(s, b, rest, reset) := r in Ret (s, b, events ++ rest, reset)
      end
  end.

(** The end of an iteration that does not terminate the session. *)
Definition after_read (t : Tick D) x : Session D :=
  let h := handler (server x) in
  let s := set_handler (EspHandler.with_driver (on_tick t (driver_of h)) h) (server x) in
  with_server (poll_if_due (poll_tick t) s).1 (bridge x) x.

Definition tick (idle_close_ticks : Z) (t : Tick D) x :
    outcome (Session D * list WireEvent * Next) :=
  match read t with
  | Closed => Ret (x, [], Ends ClientClosed)
  | Burst fs read_end =>
      r ← serve_burst (arrival_floor x) fs (server x) (bridge x);
      let '(s, b, events, reset) := r in
      let floor := if (length fs <? BURST_BUF_LEN)%nat then read_end else arrival_floor x in
      if reset : bool then Ret (mkSession s b (arrival_floor x) 0, events, Resets)
      else Ret (after_read t (mkSession s b floor 0), events, GoOn)
  | TimedOut now =>
      let idle := wrapping_add32 (idle_ticks x) 1 in
      let x := mkSession (server x) (bridge x) (arrival_floor x) idle in
      if idle_close_ticks <=? idle then Ret (x, [], Ends IdleTimeout)
      else Ret (after_read t (mkSession (server x) (bridge x) now idle), [], GoOn)
  | Failed => Ret (x, [], Ends ReadError)
  end.

(** The session over the coming ticks; [GoOn] when they run out. *)
Fixpoint serve (idle_close_ticks : Z) (ts : list (Tick D)) x :
    outcome (Session D * list WireEvent * Next) :=
  match ts with
  | [] => Ret (x, [], GoOn)
  | t :: ts =>
      r ← tick idle_close_ticks t x;
      let '(x, events, next) := r in
      match next with
      | GoOn =>
          r ← serve idle_close_ticks ts x;
          let '(x, rest, next) := r in Ret (x, events ++ rest, next)
      | _ => Ret (x, events, next)
      end
  end.

Definition serve_session (idle_close_ticks : Z) (now : Z) (ts : list (Tick D)) s
    (b : TimeExtension.Bridge) : outcome (Session D * list WireEvent * Next) :=
  serve idle_close_ticks ts (mkSession s b now 0).
End Session.
End Tcp.
