(* ===== verification/TcpSpec.v ===== *)
(** * The TCP session: theorems

    About [TcpServer.v]: the reference log of a session, which follows the frame
    parser over the bytes read and allows what each byte may put on the stream;
    a session runs within the server's invariant and keeps to the log; and a
    silent client is dropped at the tick that was asked for. *)
From Stdlib Require Import ZArith Lia ZifyBool.
From stdpp Require Import prelude.
From S2P Require Import Prelude T1Endpoint Wire Atr Diag CardInterface.
From S2P Require Import Handler HandlerFacts HandlerSpec SerialFrame EspHandler EspSpec Snapshot SerialServer SerialSpec TcpServer.
Local Open Scope Z_scope.
Import SerialFrame.Parser Tcp.

Section Tcp.
Context {D E : Type} `{!NfcDriver D E, !NfcDriverLaws D E, !NfcProbes D, !NfcProbesLaws D E,
  !FrontendDiagnostics D}.
Implicit Types (s : CcidSerialServer D) (x : Session D).

(** What the environment may do. *)
Definition fed_ok (f : Fed) : Prop := u8 (byte f) /\ u32 (feed_tick f) /\ (stalls f < 256)%nat.
Definition read_ok (r : Read) : Prop := match r with Burst fs _ => Forall fed_ok fs | _ => True end.
Definition tick_ok (t : Tick D) : Prop :=
  read_ok (read t) /\ u32 (poll_tick t) /\ forall d, nfc_ok d -> nfc_ok (on_tick t d).

(** *** The log of a session *)
(** What the server hears with: its frame parser, the tick of the last byte, and
    whether a snapshot has been asked for and not yet taken. *)
Record Ear := mkEar { hears : FrameParser; heard_at : Z; asked : bool }.
Definition ear s : Ear := mkEar (parser s) (last_byte_tick s) (snapshot_pending (handler s)).
Implicit Types (e : Ear).

(** The byte [c] at tick [t]: a frame that has stalled for too long is dropped
    first. *)
Definition listen e (c t : Z) : outcome (FrameParser * option FrameEvent) :=
  Parser.feed (if INTER_BYTE_STALL_TICKS <? wrapping_sub32 t (heard_at e)
               then Parser.reset (hears e) else hears e) c.

(** The presence poll at tick [t] drops a stalled frame too. *)
Definition hush (t : Z) e : Ear :=
  mkEar (if mid_frame (hears e) && (INTER_BYTE_STALL_TICKS <? wrapping_sub32 t (heard_at e))
         then Parser.reset (hears e) else hears e) (heard_at e) (asked e).

Definition in_time (ws : ResponseWindows) (floor : Z) (m : list Z) (f : Fed) : bool :=
  wrapping_sub32 (post_tick f) floor <=? window_in ws m.

(** What a burst read by the floor [floor] may put on the stream.  A byte that
    completes no command: nothing.  One that completes the command [m]: the
    time extensions of the one exchange that serves [m], then, when the answer is
    in time, its echo and its reply; a failed write ends the burst, an answer
    delivered while a snapshot is pending resets the device ([true]). *)
Inductive burst_log (ws : ResponseWindows) (floor : Z) :
    Ear -> list Fed -> list WireEvent -> Ear -> bool -> Prop :=
| log_end e : burst_log ws floor e [] [] e false
| log_quiet e f fs p ev events e' reset :
    listen e (byte f) (feed_tick f) = Ret (p, ev) -> (forall m, ev <> Some (Command m)) ->
    burst_log ws floor (mkEar p (feed_tick f) (asked e)) fs events e' reset ->
    burst_log ws floor e (f :: fs) events e' reset
| log_late e f fs p m w events e' reset :
    listen e (byte f) (feed_tick f) = Ret (p, Some (Command m)) -> protocol m w ->
    in_time ws floor m f = false ->
    burst_log ws floor (mkEar p (feed_tick f) false) fs events e' reset ->
    burst_log ws floor e (f :: fs) (map Extension (w_frames w) ++ events) e' reset
| log_cut e f fs p m w :
    listen e (byte f) (feed_tick f) = Ret (p, Some (Command m)) -> protocol m w ->
    in_time ws floor m f = true -> echo_ok f && response_ok f = false ->
    burst_log ws floor e (f :: fs)
      (map Extension (w_frames w) ++ Write (w_echo w) (echo_ok f) ::
       if echo_ok f then [Write (w_response w) false] else [])
      (mkEar p (feed_tick f) (asked e || asks_snapshot m)) false
| log_answered e f fs p m w events e' reset :
    listen e (byte f) (feed_tick f) = Ret (p, Some (Command m)) -> protocol m w ->
    in_time ws floor m f = true -> echo_ok f && response_ok f = true ->
    asked e || asks_snapshot m = false ->
    burst_log ws floor (mkEar p (feed_tick f) false) fs events e' reset ->
    burst_log ws floor e (f :: fs)
      ((map Extension (w_frames w) ++ [Write (w_echo w) true; Write (w_response w) true; ServeEvidence]) ++ events)
      e' reset
| log_reset e f fs p m w :
    listen e (byte f) (feed_tick f) = Ret (p, Some (Command m)) -> protocol m w ->
    in_time ws floor m f = true -> echo_ok f && response_ok f = true ->
    asked e || asks_snapshot m = true ->
    burst_log ws floor e (f :: fs)
      (map Extension (w_frames w) ++ [Write (w_echo w) true; Write (w_response w) true; ServeEvidence])
      (mkEar p (feed_tick f) false) true.

(** The log of a session over its ticks, from the arrival floor [floor]: the
    bursts write, the timed-out reads and the short bursts move the floor, and
    nothing follows the end of the session. *)
Inductive session_log (ws : ResponseWindows) :
    Ear -> Z -> list (Tick D) -> list WireEvent -> Ear -> bool -> Prop :=
| log_none e floor : session_log ws e floor [] [] e false
| log_over e floor t : (forall fs z, read t <> Burst fs z) -> session_log ws e floor [t] [] e false
| log_silence e floor t now ts events e' reset :
    read t = TimedOut now -> session_log ws (hush (poll_tick t) e) now ts events e' reset ->
    session_log ws e floor (t :: ts) events e' reset
| log_burst e floor t fs z said e1 ts events e' reset :
    read t = Burst fs z -> burst_log ws floor e fs said e1 false ->
    session_log ws (hush (poll_tick t) e1) (if (length fs <? BURST_BUF_LEN)%nat then z else floor)
      ts events e' reset ->
    session_log ws e floor (t :: ts) (said ++ events) e' reset
| log_last e floor t fs z said e' :
    read t = Burst fs z -> burst_log ws floor e fs said e' true ->
    session_log ws e floor [t] said e' true.

(** *** The server keeps to it *)
Lemma refresh_deadline_ok now s b : server_ok s b -> server_ok (refresh_host_deadline now s) b.
Proof. intros []. by constructor. Qed.

Lemma served_ear m now k s b s' b' frames : message m -> served m now k s b s' b' frames ->
  parser s' = parser s /\
  snapshot_pending (handler s') = snapshot_pending (handler s) || asks_snapshot m.
Proof.
  intros Hm Hs. split; [by destruct (sv_config _ _ _ _ _ _ _ _ Hs) as (_ & _ & -> & _)|].
  destruct (sv_handler _ _ _ _ _ _ _ _ Hs) as (r & h & E1 & Hp & _).
  destruct Hm as (Hb & Hl & h' & Hp' & Hlen). rewrite Hp in Hp'. injection Hp' as <-.
  change MAX_CCID_BYTES with 271%nat in Hl.
  assert (HandlerFacts.complete_message m h) as Hc by (split; [done|lia]).
  assert (10 + dw_length h <= u32_max) as Hd by (unfold u32_max; lia).
  rewrite (esp_process_snapshot _ m h _ _ _ Hb Hc Hlen Hd E1).
  rewrite orb_comm. f_equal. unfold polled. case_match; [|done].
  apply (check_snapshot (esp_refresh_diagnostics now (handler s))).
Qed.

(** The tick of the last byte survives a command. *)
Lemma serve_command_tick m now k s b s' b' frames :
  serve_command m now k s b = Ret (s', b', frames) -> last_byte_tick s' = last_byte_tick s.
Proof.
  unfold serve_command. intros (s1 & E1 & H1)%bind_Ret_inv.
  apply bind_Ret_inv in H1 as (s2 & E2 & H2).
  assert (last_byte_tick s1 = last_byte_tick s) as <-.
  { unfold echo_frame in E1. apply bind_Ret_inv in E1 as (? & _ & E1). by injection E1 as <-. }
  assert (last_byte_tick s2 = last_byte_tick s1) as <-.
  { revert E2. unfold notify_presence. case_match; [|by intros [= <-]].
    set (r := if inline_poll _ then _ else _).
    assert (last_byte_tick r.1 = last_byte_tick s1) as <-.
    { unfold r, poll_due. repeat case_match; simplify_eq; done. }
    destruct r as [s3 fresh]. repeat case_match; try (by intros [= <-]);
      intros (? & _ & E2)%bind_Ret_inv; by injection E2 as <-. }
  change (last_byte_tick s2) with (last_byte_tick (refresh now s2)).
  generalize dependent (refresh now s2). intros s3. clear. unfold process.
  intros (? & _ & H)%bind_Ret_inv. apply bind_Ret_inv in H as ([b1 written] & _ & H).
  apply bind_Ret_inv in H as ([e' [buf len]] & _ & H).
  set (s4 := set_ccid_resp_buf buf (set_handler e' s3)) in *.
  set (sb := if (_ && _ : bool) then _ else (s4, b1)) in H.
  assert (last_byte_tick sb.1 = last_byte_tick s4) as H4.
  { unfold sb, TimeExtension.disarm_and_take_emitted. by repeat case_match. }
  destruct sb as [s5 b5]. apply bind_Ret_inv in H as (? & _ & H).
  apply bind_Ret_inv in H as (? & _ & H). by injection H as <- _ _.
Qed.

Lemma stalled_ear now s b :
  server_ok s b -> last_byte_tick (drop_stalled_frame now s) = now /\
  snapshot_pending (handler (drop_stalled_frame now s)) = snapshot_pending (handler s) /\
  parser (drop_stalled_frame now s) =
    if INTER_BYTE_STALL_TICKS <? wrapping_sub32 now (last_byte_tick s)
    then Parser.reset (parser s) else parser s.
Proof. intros _. unfold drop_stalled_frame. by case_match. Qed.

(** One byte, as the server hears it. *)
Lemma feed_byte_hears byte now k s b :
  server_ok s b -> u8 byte -> u32 now -> (k < 256)%nat ->
  exists s' b' action frames p ev,
    feed_byte byte now k s b = Ret (s', b', (action, frames)) /\ server_ok s' b' /\
    windows s' = windows s /\ listen (ear s) byte now = Ret (p, ev) /\
    match action with
    | Respond => exists m, ev = Some (Command m) /\
        protocol m (mkWire frames (echo s') (notify s') (response s')) /\
        active_deadline_ticks s' = window_in (windows s) m /\
        ear s' = mkEar p now (snapshot_pending (handler s) || asks_snapshot m)
    | _ => frames = [] /\ (forall m, ev <> Some (Command m)) /\
           ear s' = mkEar p now (snapshot_pending (handler s))
    end.
Proof.
  intros H Hb Hn Hk. destruct (feed_byte_spec byte now k s b H Hb Hn)
    as (s' & b' & action & frames & E1 & H1 & Hw & Ha).
  destruct (stalled_ear now s b H) as (Ht & Hsn & Hp).
  assert (Parser.feed (parser (drop_stalled_frame now s)) byte = listen (ear s) byte now) as Hl
    by (unfold listen; by rewrite Hp).
  exists s', b', action, frames. pose proof E1 as E2. unfold feed_byte in E2. cbv zeta in E2.
  rewrite Hl in *. destruct (listen (ear s) byte now) as [[p ev]|]; [|done].
  rewrite bind_ret in E2. cbn [fst snd] in E2. exists p, ev. do 4 (split; [done|]).
  unfold ear. rewrite <- Hsn. destruct ev as [[m|err]|].
  - apply bind_Ret_inv in E2 as ([[s1 b1] fr] & E2 & E3). injection E3 as -> -> <- ->.
    destruct Ha as (m' & p' & Hpm & Hm & Hs). injection Hpm as <- <-. exists m. split; [done|].
    split; [by eapply served_protocol|]. split.
    { rewrite (sv_window _ _ _ _ _ _ _ _ Hs). unfold window. cbn [windows set_parser].
      unfold drop_stalled_frame. by case_match. }
    apply serve_command_tick in E2. destruct (served_ear _ _ _ _ _ _ _ _ Hm Hs) as [-> ->].
    rewrite E2. cbn. by rewrite Ht.
  - destruct (nak_on_error (config (set_parser p (drop_stalled_frame now s)))).
    + apply bind_Ret_inv in E2 as (nb & _ & E2). injection E2 as <- _ <- <-. cbn. by rewrite Ht.
    + injection E2 as <- _ <- <-. cbn. by rewrite Ht.
  - injection E2 as <- _ <- <-. cbn. by rewrite Ht.
Qed.

Lemma serve_burst_ok floor fs s b : server_ok s b -> Forall fed_ok fs ->
  exists s' b' events reset, serve_burst floor fs s b = Ret (s', b', events, reset) /\
    server_ok s' b' /\ windows s' = windows s /\
    burst_log (windows s) floor (ear s) fs events (ear s') reset.
Proof.
  intros Hs Hfs. revert s b Hs. induction Hfs as [|f fs (Hf1 & Hf2 & Hf3) _ IH]; intros s b Hs.
  { exists s, b, [], false. split_and!; try done. constructor. }
  cbn [serve_burst]. destruct (feed_byte_hears (byte f) (feed_tick f) (stalls f) s b Hs Hf1 Hf2 Hf3)
    as (s1 & b1 & action & frames & p & ev & -> & H1 & Hw & Hl & Ha). rewrite bind_ret.
  assert (action <> Respond -> frames = [] /\ (forall m, ev <> Some (Command m)) /\
    ear s1 = mkEar p (feed_tick f) (snapshot_pending (handler s))) as Hquiet by (by destruct action).
  assert (action <> Respond -> exists s' b' events reset,
    (r ← serve_burst floor fs s1 b1;
     let '(s, b, rest, reset) := r in Ret (s, b, map Extension frames ++ rest, reset)) =
       Ret (s', b', events, reset) /\
    server_ok s' b' /\ windows s' = windows s /\
    burst_log (windows s) floor (ear s) (f :: fs) events (ear s') reset) as Hrest.
  { intros Hne. destruct (Hquiet Hne) as (-> & Hev & He).
    destruct (IH s1 b1 H1) as (s' & b' & l & r & -> & H3 & H4 & H5). rewrite bind_ret, Hw in *.
    exists s', b', l, r. split; [done|]. split; [done|]. split; [done|].
    eapply log_quiet; [exact Hl|exact Hev|]. change (asked (ear s)) with (snapshot_pending (handler s)). by rewrite <- He. }
  destruct action; [|by apply Hrest..]. clear Hquiet Hrest.
  destruct Ha as (m & -> & Hp & Hd & He).
  set (w := mkWire frames (echo s1) (notify s1) (response s1)) in *.
  pose proof (refresh_deadline_ok floor s1 b1 H1) as H2.
  assert (response_expired (post_tick f) (refresh_host_deadline floor s1) =
    negb (in_time (windows s) floor m f)) as Hlate.
  { unfold response_expired, in_time, refresh_host_deadline, set_frame_done_tick.
    cbn [active_deadline_ticks frame_done_tick]. rewrite Hd. lia. }
  rewrite Hlate. destruct (in_time (windows s) floor m f) eqn:Et; cbn [negb].
  2: { destruct (IH (record_late_response (refresh_host_deadline floor s1)) b1 (late_ok _ _ H2))
         as (s' & b' & l & r & -> & H3 & H4 & H5). rewrite bind_ret.
    eexists s', b', _, r. split; [done|]. split; [done|]. split; [by rewrite H4|].
    eapply (log_late _ _ _ _ _ p m w); try done. cbn in H5. rewrite Hw in H5.
    assert (ear (record_late_response (refresh_host_deadline floor s1)) = mkEar p (feed_tick f) false)
      as <- by (revert He; unfold ear; cbn; by intros [= -> -> _]). exact H5. }
  pose proof (log_cut (windows s) floor (ear s) f fs p m w Hl Hp Et) as Hcut.
  cbn [ear asked] in Hcut. rewrite <- He in Hcut.
  destruct (echo_ok f) eqn:Ee; cbn [negb andb] in *.
  2: { eexists _, b1, _, false. split; [done|]. split; [done|]. split; [done|]. by apply Hcut. }
  destruct (response_ok f) eqn:Er; cbn [negb andb] in *.
  2: { eexists _, b1, _, false. split; [done|]. split; [done|]. split; [done|]. by apply Hcut. }
  pose proof (take_snapshot_ok _ b1 H2) as H3.
  assert (snapshot_pending (handler s1) = asked (ear s) || asks_snapshot m) as Hask
    by (by injection He).
  destruct (take_snapshot (refresh_host_deadline floor s1)) as [s3 reset] eqn:E3. cbn [fst] in H3.
  assert (reset = asked (ear s) || asks_snapshot m /\ windows s3 = windows s /\
    ear s3 = mkEar p (feed_tick f) false) as (Hr & Hw3 & He3).
  { injection E3 as <- <-. split; [exact Hask|]. split; [exact Hw|].
    revert He. unfold ear. cbn. by intros [= -> -> _]. }
  destruct reset.
  - eexists s3, b1, _, true. split; [done|]. split; [done|]. split; [done|]. rewrite He3.
    eapply (log_reset _ _ _ _ _ p m w); try done. by rewrite Ee, Er.
  - destruct (IH s3 b1 H3) as (s' & b' & l & r & -> & H4 & H5 & H6). rewrite bind_ret.
    eexists s', b', _, r. split; [done|]. split; [done|]. split; [by rewrite H5|].
    rewrite Hw3, He3 in H6. eapply (log_answered _ _ _ _ _ p m w); try done. by rewrite Ee, Er.
Qed.

Lemma after_read_ok t x : server_ok (server x) (bridge x) -> tick_ok t ->
  server_ok (server (after_read t x)) (bridge (after_read t x)).
Proof.
  intros Hx (_ & Ht & Hd). unfold after_read. cbn [server bridge with_server].
  apply poll_if_due_ok, set_handler_ok; [done|].
  pose proof (so_handler _ _ Hx) as He. pose proof (ok_driver _ (eo_core _ He)) as Hdr.
  destruct He. apply esp_ok_core; try done. apply core_ok_set_nfc; [done|]. exact (Hd _ Hdr).
Qed.

Lemma poll_if_due_ear now s : ear (poll_if_due now s).1 = hush now (ear s).
Proof.
  unfold poll_if_due, hush, poll_due. cbn [ear hears heard_at asked].
  destruct (mid_frame (parser s) && _); (destruct (_ <=? _); [|done]);
    rewrite check_card_eq; unfold ear; cbn [fst parser last_byte_tick handler set_handler set_parser set_last_byte_tick];
    by rewrite check_snapshot.
Qed.

Lemma after_read_ear t x : ear (server (after_read t x)) = hush (poll_tick t) (ear (server x)) /\
  windows (server (after_read t x)) = windows (server x) /\
  arrival_floor (after_read t x) = arrival_floor x.
Proof.
  unfold after_read. cbn [server with_server arrival_floor]. rewrite poll_if_due_windows, poll_if_due_ear.
  done.
Qed.

Definition resets (next : Next) : bool := match next with Resets => true | _ => false end.

Lemma tick_spec n t x : server_ok (server x) (bridge x) -> tick_ok t ->
  exists x' events next, tick n t x = Ret (x', events, next) /\
    server_ok (server x') (bridge x') /\ windows (server x') = windows (server x) /\
    match next with
    | GoOn => forall ts rest e reset,
        session_log (windows (server x)) (ear (server x')) (arrival_floor x') ts rest e reset ->
        session_log (windows (server x)) (ear (server x)) (arrival_floor x) (t :: ts) (events ++ rest) e reset
    | _ => session_log (windows (server x)) (ear (server x)) (arrival_floor x) [t] events
             (ear (server x')) (resets next)
    end.
Proof.
  intros Hx Ht. unfold tick. destruct (read t) as [|fs read_end|now|] eqn:Er.
  1, 4: eexists _, _, _; (split; [reflexivity|]); (split; [done|]); (split; [done|]);
    apply log_over; by rewrite Er.
  - pose proof (proj1 Ht) as Hr. rewrite Er in Hr.
    destruct (serve_burst_ok (arrival_floor x) fs _ _ Hx Hr) as (s & b & l & reset & -> & H1 & H2 & H3).
    rewrite bind_ret. destruct reset.
    + eexists _, _, _. split; [reflexivity|]. split; [done|]. split; [done|]. by eapply log_last.
    + destruct (after_read_ear t (mkSession s b
        (if (length fs <? BURST_BUF_LEN)%nat then read_end else arrival_floor x) 0)) as (He & Hw & Hf).
      eexists _, _, _. split; [reflexivity|]. split; [by apply after_read_ok|].
      split; [by rewrite Hw|]. intros ts rest e reset Hl. rewrite He, Hf in Hl. by eapply log_burst.
  - cbn [server bridge arrival_floor idle_ticks]. destruct (n <=? _).
    + eexists _, _, _. split; [reflexivity|]. split; [done|]. split; [done|]. apply log_over. by rewrite Er.
    + destruct (after_read_ear t (mkSession (server x) (bridge x) now
        (wrapping_add32 (idle_ticks x) 1))) as (He & Hw & Hf).
      eexists _, _, _. split; [reflexivity|]. split; [by apply after_read_ok|]. split; [done|].
      intros ts rest e reset Hl. rewrite He, Hf in Hl. by eapply log_silence.
Qed.

(** *** Idle *)
Definition silent (t : Tick D) : bool := match read t with TimedOut _ => true | _ => false end.

(** The silent reads in a row at the end of [ts], after [k] before it. *)
Definition streak (k : nat) (ts : list (Tick D)) : nat :=
  fold_left (fun k t => if silent t then S k else O) ts k.

Lemma after_read_idle t x : idle_ticks (after_read t x) = idle_ticks x.
Proof. done. Qed.

Lemma tick_idle n t x x' events next : 0 <= idle_ticks x -> idle_ticks x < u32_max ->
  tick n t x = Ret (x', events, next) ->
  match next with
  | GoOn => idle_ticks x' = (if silent t then idle_ticks x + 1 else 0) /\
            (silent t = true -> idle_ticks x' < n)
  | Ends IdleTimeout => silent t = true /\ n <= idle_ticks x + 1
  | _ => silent t = false
  end.
Proof.
  intros H0 Hm. unfold tick, silent. destruct (read t) as [|fs read_end|now|].
  - by intros [= <- <- <-].
  - destruct (serve_burst _ _ _ _) as [[[[s b] l] []]|]; [| |done]; rewrite bind_ret.
    + by intros [= <- <- <-].
    + intros [= <- <- <-]. by rewrite after_read_idle.
  - unfold wrapping_add32, wrap32, u32_max in *. rewrite (Z.mod_small (idle_ticks x + 1)) by lia.
    destruct (n <=? idle_ticks x + 1) eqn:En; intros [= <- <- <-].
    + split; [done|lia].
    + rewrite after_read_idle. cbn [idle_ticks]. lia.
  - by intros [= <- <- <-].
Qed.

(** The whole session, [k] silent reads already behind it. *)
Lemma serve_spec n ts x k : 1 <= n <= u32_max -> server_ok (server x) (bridge x) -> Forall tick_ok ts ->
  idle_ticks x = Z.of_nat k -> Z.of_nat k < n ->
  exists x' events next used rest, serve n ts x = Ret (x', events, next) /\ ts = used ++ rest /\
    server_ok (server x') (bridge x') /\ windows (server x') = windows (server x) /\
    session_log (windows (server x)) (ear (server x)) (arrival_floor x) used events
      (ear (server x')) (resets next) /\
    match next with
    | Ends IdleTimeout => Z.of_nat (streak k used) = n
    | GoOn => rest = [] /\ Z.of_nat (streak k used) < n
    | _ => exists before t, used = before ++ [t] /\ silent t = false
    end /\
    forall pre post, used = pre ++ post -> post <> [] -> Z.of_nat (streak k pre) < n.
Proof.
  intros Hn Hx Hts. revert x k Hx. induction Hts as [|t ts Ht _ IH]; intros x k Hx Hk Hlt.
  { exists x, [], GoOn, [], []. do 4 (split; [done|]). split; [constructor|]. split; [done|].
    intros pre post Hp Hne. by destruct pre, post. }
  cbn [serve]. destruct (tick_spec n t x Hx Ht) as (x1 & l & next & Et & H1 & Hw1 & Hlog).
  pose proof (tick_idle n t x x1 l next ltac:(lia) ltac:(lia) Et) as Hi. rewrite Et, bind_ret.
  assert (forall next', match next' with GoOn => False | _ => True end ->
    session_log (windows (server x)) (ear (server x)) (arrival_floor x) [t] l (ear (server x1)) (resets next') ->
    match next' with
    | Ends IdleTimeout => silent t = true /\ n <= idle_ticks x + 1
    | GoOn => True
    | _ => silent t = false
    end ->
    exists x' events next used rest, @Ret (Session D * list WireEvent * Next) (x1, l, next') = Ret (x', events, next) /\
    t :: ts = used ++ rest /\
    server_ok (server x') (bridge x') /\ windows (server x') = windows (server x) /\
    session_log (windows (server x)) (ear (server x)) (arrival_floor x) used events
      (ear (server x')) (resets next) /\
    match next with
    | Ends IdleTimeout => Z.of_nat (streak k used) = n
    | GoOn => rest = [] /\ Z.of_nat (streak k used) < n
    | _ => exists before t, used = before ++ [t] /\ silent t = false
    end /\
    forall pre post, used = pre ++ post -> post <> [] -> Z.of_nat (streak k pre) < n) as Hend.
  { intros next' Hne Hl Hs. exists x1, l, next', [t], ts. do 5 (split; [done|]). split.
    - destruct next' as [|[]|]; try done; try by exists [], t.
      destruct Hs as [Hs1 Hs2]. cbn. rewrite Hs1. lia.
    - intros pre post Hp Hpost. destruct pre as [|? pre]; [cbn; lia|].
      destruct pre; destruct post; done. }
  destruct next as [|e|]; [|apply Hend; [done|done|]; by destruct e|by apply Hend].
  destruct Hi as [Hi1 Hi2].
  set (k1 := if silent t then S k else O).
  assert (idle_ticks x1 = Z.of_nat k1) as Hk1 by (rewrite Hi1; unfold k1; destruct (silent t); lia).
  assert (Z.of_nat k1 < n) as Hlt1.
  { unfold k1 in *. destruct (silent t); [specialize (Hi2 eq_refl)|]; lia. }
  destruct (IH x1 k1 H1 Hk1 Hlt1)
    as (x' & l' & next & used & rest & -> & -> & H2 & Hw2 & Hlog2 & H3 & H4). rewrite bind_ret.
  exists x', (l ++ l'), next, (t :: used), rest. do 3 (split; [done|]).
  split; [by rewrite Hw2|]. split; [apply Hlog; by rewrite <- Hw1|]. split.
  - destruct next as [|[]|]; try done; destruct H3 as (b & y & -> & Hy); by exists (t :: b), y.
  - intros pre post Hp Hne. destruct pre as [|t' pre]; [cbn; lia|]. injection Hp as <- Hp.
    exact (H4 pre post Hp Hne).
Qed.

(** C25: a TCP session serves until it must not.  Over any driver that keeps its
    contract ([NfcDriverLaws], [NfcProbesLaws]) and with any recovery hook that
    keeps the driver's invariant, whatever the reads return and whenever the
    writes fail, the session stays within the server's invariant and ends as one
    of the source's: it goes on, it closes, or the device resets, which is the
    panic the source raises on purpose for the 0xD1 escape; there is no other
    panic.  What it puts on the stream is a log of the bytes it has read: a byte
    that completes a command starts the one exchange that serves it, in its
    order, answered in the window of the command from the arrival floor or not at
    all; no other byte writes anything; and the device resets exactly behind an
    answer delivered while a snapshot is pending.  A client is dropped as idle
    exactly when its [n]-th read in a row times out: never earlier, whatever
    bytes came between the silences, and at the latest then. *)
Theorem tcp_session n now ts s b : 1 <= n <= u32_max -> server_ok s b -> Forall tick_ok ts ->
  exists x events next used rest,
    serve_session n now ts s b = Ret (x, events, next) /\ ts = used ++ rest /\
    server_ok (server x) (bridge x) /\
    session_log (windows s) (ear s) now used events (ear (server x)) (resets next) /\
    (forall pre post, used = pre ++ post -> post <> [] -> Z.of_nat (streak 0 pre) < n) /\
    match next with
    | Ends IdleTimeout => Z.of_nat (streak 0 used) = n
    | GoOn => rest = [] /\ Z.of_nat (streak 0 used) < n
    | _ => exists before t, used = before ++ [t] /\ silent t = false
    end.
Proof.
  intros Hn Hs Hts. unfold serve_session. set (x0 := mkSession s b now 0).
  destruct (serve_spec n ts x0 0 Hn Hs Hts eq_refl ltac:(lia))
    as (x & l & next & used & rest & E1 & E2 & H1 & _ & H2 & H3 & H4).
  exists x, l, next, used, rest. by split_and!.
Qed.
End Tcp.

(** ** Witness *)
Module TcpDemo.
Definition fed (c : Z) : Fed := mkFed c 5 6 0 true true.
Definition unsent (c : Z) : Fed := mkFed c 5 6 0 false false.
Definition tick (r : Read) : Tick Mock.MockNfcDriver := mkTick r (fun d => d) 7.
Definition status : list Z := frame_of SerialDemo.status.
Definition snapshot : list Z := frame_of (command PC_TO_RDR_ESCAPE 0 4 (0, 0, 0) [0xD1]).
(** A request, then silence. *)
Definition script : list (Tick Mock.MockNfcDriver) :=
  [tick (TimedOut 1); tick (Burst (map fed status) 6); tick (TimedOut 8); tick (TimedOut 9);
   tick (TimedOut 10); tick (TimedOut 11)].
End TcpDemo.

Example tcp_session_witness :
  exists x events used, serve_session 3 0 TcpDemo.script SerialDemo.server SerialDemo.bridge =
      Ret (x, events, Ends IdleTimeout) /\ length events = 3%nat /\
    used `prefix_of` TcpDemo.script /\
    session_log (windows SerialDemo.server) (ear SerialDemo.server) 0 used events
      (ear (server x)) false.
Proof.
  destruct (tcp_session 3 0 TcpDemo.script SerialDemo.server SerialDemo.bridge)
    as (x & events & next & used & rest & H1 & Hu & _ & H2 & _ & H3);
    [unfold u32_max; lia|exact serial_demo_server_ok| |].
  { unfold TcpDemo.script, TcpDemo.tick.
    repeat match goal with
    | |- Forall _ (_ :: _) => apply Forall_cons_2
    | |- Forall _ [] => apply Forall_nil_2
    end; (split; [|split; [cbn; unfold u32; lia|done]]); try exact I.
    cbn [read read_ok]. solve_computed ltac:(split; [unfold u8; cbn; lia|split; [unfold u32; cbn; lia|cbn; lia]]). }
  assert (option_map (fun r => (length r.1.2, r.2))
    (match serve_session 3 0 TcpDemo.script SerialDemo.server SerialDemo.bridge with
     Ret r => Some r | Panic => None end) = Some (3%nat, Ends IdleTimeout)) as Hv by (vm_compute; reflexivity).
  rewrite H1 in Hv. cbn in Hv. injection Hv as Hl Hn. rewrite Hn in H1.
  subst next. exists x, events, used. split; [exact H1|]. split; [exact Hl|].
  split; [by exists rest|exact H2].
Defined.

(** The snapshot escape whose acknowledgement cannot be written stays armed: the
    first answer to the next client resets the device. *)
Example unsent_snapshot_resets_later :
  let first := match serve_session 2400 0
      [TcpDemo.tick (Burst (map TcpDemo.unsent TcpDemo.snapshot) 6); TcpDemo.tick Closed]
      SerialDemo.server SerialDemo.bridge with Ret r => Some r | Panic => None end in
  option_map snd first = Some (Ends ClientClosed) /\
  match first with
  | Some (x, _, _) =>
      option_map snd (match serve_session 2400 0 [TcpDemo.tick (Burst (map TcpDemo.fed TcpDemo.status) 6)]
        (server x) (bridge x) with Ret r => Some r | Panic => None end) = Some Resets
  | None => False
  end.
Proof. split; vm_compute; reflexivity. Qed.
