(* ===== verification/UartServer.v ===== *)
(** * The UART serving loop

    [serve_byte], [write_all] and [serve_uart] of [esp32-ccid/src/main.rs]: the
    serial server of [SerialServer.v] on UART0, the one link whose rate the host
    may negotiate.  What the reads return, the ticks, the stalls, the clock and
    what the UART driver does with the writes are arguments.  The purge of stale
    input before the loop and the hook that pumps the log to Bluetooth are left
    out.  The theorems are in [UartSpec.v]. *)
From Stdlib Require Import ZArith Lia ZifyBool.
From stdpp Require Import prelude.
From S2P Require Import Prelude CardInterface EspHandler SerialServer.
Local Open Scope Z_scope.

Module UartMain.

(** [uart.write] on so many bytes: how many were taken, or an error.  When the
    list is used up the driver takes all it is given. *)
Definition UartWrite : Type := nat -> option nat.

(** [write_all]: what reached the driver, and whether it was everything. *)
Fixpoint write_all (ws : list UartWrite) (data : list Z) : outcome (list Z * bool) :=
  match data, ws with
  | [], _ => Ret ([], true)
  | _, [] => Ret (data, true)
  | _, w :: ws =>
      match w (length data) with
      | None => Ret ([], false)
      | Some O => write_all ws data
      | Some written =>
          rest ← slice data written (length data);
          r ← write_all ws rest;
          Ret (take written data ++ r.1, r.2)
      end
  end.

(** One host byte: the tick and the clock before it is fed, the tick and the
    clock when it is served, the stalls of its exchange, what the driver does. *)
Record Fed := mkFed {
  byte : Z;
  feed_tick : Z;
  byte_us : Z;
  stalls : nat;
  post_tick : Z;
  echo_writes : list UartWrite;
  notify_writes : list UartWrite;
  response_writes : list UartWrite;
  nak_writes : list UartWrite;
  drained : bool;           (* [wait_tx_done] *)
  baud_set : bool;          (* [change_baudrate] *)
  done_us : Z;
  poll_tick : Z;
  idle_tick : Z
}.

(** What happens on the line.  [Tx] is what a [write_all] handed to the driver. *)
Inductive LineEvent :=
| Extension (frame : list Z)
| Tx (sent : list Z) (whole : bool)
| Drain (ok : bool)
| Baud (rate : Z) (ok : bool)
| ServeEvidence.

(** [i64] subtraction, then [clamp(0, u32::MAX)]. *)
Definition wrap_i64 (z : Z) : Z := (z + 2 ^ 63) mod 2 ^ 64 - 2 ^ 63.
Definition turnaround (byte_us done_us : Z) : Z :=
  Z.min (Z.max (wrap_i64 (done_us - byte_us)) 0) u32_max.

Section Serve.
Context {D E : Type} `{!NfcDriver D E, !NfcProbes D, !FrontendDiagnostics D}.
Implicit Types (s : CcidSerialServer D).

(** Echo, notice and response, each attempted whatever became of the one
    before, then the drain. *)
Definition write_exchange (f : Fed) s : outcome (list LineEvent * bool) :=
  e ← write_all (echo_writes f) (echo s);
  n ← (match notify s with
       | [] => Ret ([], true)
       | notice => w ← write_all (notify_writes f) notice; Ret ([Tx w.1 w.2], w.2)
       end);
  r ← write_all (response_writes f) (response s);
  Ret (Tx e.1 e.2 :: n.1 ++ [Tx r.1 r.2; Drain (drained f)], e.2 && n.2 && r.2 && drained f).

(** [serve_byte]; [true] when the device resets on a snapshot escape. *)
Definition serve_byte (arrival_floor : Z) (f : Fed) s (b : TimeExtension.Bridge) :
    outcome (CcidSerialServer D * TimeExtension.Bridge * list LineEvent * bool) :=
  r ← feed_byte (byte f) (feed_tick f) (stalls f) s b;
  let '(s, b, (action, hooked)) := r in
  let events := map Extension hooked in
  match action with
  | Respond =>
      let s := refresh_host_deadline arrival_floor s in
      if response_expired (post_tick f) s then
        let s := record_late_response s in
        Ret ((poll_if_due_after_response (idle_tick f) s).1, b, events, false)
      else
        x ← write_exchange f s;
        let '(writes, sent) := x in
        let '(h, baud) := take_baud_change (handler s) in
        let switch := match baud with
                      | Some rate => if sent : bool then [Baud rate (baud_set f)] else []
                      | None => []
                      end in
        let evidence := if sent : bool then [ServeEvidence] else [] in
        let events := events ++ writes ++ switch ++ evidence in
        let us := turnaround (byte_us f) (done_us f) in
        let s := set_handler (esp_record_turnaround_us us h) s in
        let s := (poll_if_due (poll_tick f) s).1 in
        let '(s, snapshot) := take_snapshot s in
        if snapshot : bool then Ret (s, b, events, true)
        else Ret ((poll_if_due_after_response (idle_tick f) s).1, b, events, false)
  | Nak =>
      w ← write_all (nak_writes f) (nak_buf s);
      Ret (s, b, events ++ [Tx w.1 w.2], false)
  | NoAction => Ret (s, b, events, false)
  end.

(** The bytes of one read and of the drain behind it share a floor. *)
Fixpoint serve_bytes (arrival_floor : Z) (fs : list Fed) s (b : TimeExtension.Bridge) :
    outcome (CcidSerialServer D * TimeExtension.Bridge * list LineEvent * bool) :=
  match fs with
  | [] => Ret (s, b, [], false)
  | f :: fs =>
      r ← serve_byte arrival_floor f s b;
      let '(s, b, events, reset) := r in
      if reset : bool then Ret (s, b, events, true)
      else
        r ← serve_bytes arrival_floor fs s b;
        let '(s, b, rest, reset) := r in Ret (s, b, events ++ rest, reset)
  end.

(** One turn of the loop: a byte, its arrival floor and what the drain then
    returns with the floor of those, or a read that timed out. *)
Inductive Read :=
| Byte (read_start : Z) (first : Fed) (pre_dispatch : Z) (drain : list Fed)
| Idle (now : Z).

Definition turn (r : Read) s (b : TimeExtension.Bridge) :
    outcome (CcidSerialServer D * TimeExtension.Bridge * list LineEvent * bool) :=
  match r with
  | Byte read_start first pre_dispatch drain =>
      r ← serve_byte read_start first s b;
      let '(s, b, events, reset) := r in
      if reset : bool then Ret (s, b, events, true)
      else
        r ← serve_bytes pre_dispatch drain s b;
        let '(s, b, rest, reset) := r in Ret (s, b, events ++ rest, reset)
  | Idle now => Ret ((on_read_idle now s).1, b, [], false)
  end.

(** The loop over the coming reads; it has no other end than a reset. *)
Fixpoint serve (rs : list Read) s (b : TimeExtension.Bridge) :
    outcome (CcidSerialServer D * TimeExtension.Bridge * list LineEvent * bool) :=
  match rs with
  | [] => Ret (s, b, [], false)
  | r :: rs =>
      x ← turn r s b;
      let '(s, b, events, reset) := x in
      if reset : bool then Ret (s, b, events, true)
      else
        x ← serve rs s b;
        let '(s, b, rest, reset) := x in Ret (s, b, events ++ rest, reset)
  end.

Definition UART_CONFIG : ServeConfig :=
  {| nak_on_error := true; notify_slot_change := true; inline_poll := false |}.

Definition serve_uart (poll_interval_ticks tick_hz now : Z) (rs : list Read)
    (h : CcidHandler D) (b : TimeExtension.Bridge) :
    outcome (CcidSerialServer D * TimeExtension.Bridge * list LineEvent * bool) :=
  serve rs (with_config (enable_baud_escape h) poll_interval_ticks (from_tick_hz tick_hz) now
              UART_CONFIG) b.
End Serve.
End UartMain.
