(* ===== verification/UartSpec.v ===== *)
(** * The UART serving loop: theorems

    About [UartServer.v]: the loop never panics and keeps the server's invariant;
    each byte puts nothing, a NAK or one exchange on the line; the link's rate
    changes exactly behind an acknowledgement that left the reader. *)
From Stdlib Require Import ZArith Lia ZifyBool.
From stdpp Require Import prelude.
From S2P Require Import Prelude T1Endpoint Wire Atr Diag CardInterface.
From S2P Require Import Handler HandlerFacts HandlerSpec SerialFrame EspHandler EspSpec SerialServer SerialSpec UartServer.
Local Open Scope Z_scope.
Import UartMain.

(** ** [write_all] *)

(** The driver never claims to have taken more than it was given. *)
Definition honest (w : UartWrite) : Prop := forall n taken, w n = Some taken -> (taken <= n)%nat.

Lemma slice_suffix {A} (l : list A) n : (n <= length l)%nat -> slice l n (length l) = Ret (drop n l).
Proof. intros H. rewrite slice_ok by lia. by rewrite take_ge by (rewrite length_drop; lia). Qed.

Lemma write_all_spec ws data : Forall honest ws ->
  exists sent whole, write_all ws data = Ret (sent, whole) /\ sent `prefix_of` data /\
    (whole = true <-> sent = data).
Proof.
  intros Hws. revert data. induction Hws as [|w ws Hw _ IH]; intros data.
  { exists data, true. by destruct data. }
  destruct data as [|x data]; [by exists [], true|]. cbn [write_all].
  destruct (w (length (x :: data))) as [[|n]|] eqn:Ew.
  - apply IH.
  - apply Hw in Ew. rewrite slice_suffix, bind_ret by done.
    destruct (IH (drop (S n) (x :: data))) as (sent & whole & -> & [rest Hp] & Hall). rewrite bind_ret.
    eexists _, _. split; [done|]. cbn [fst snd]. split.
    + exists rest. by rewrite <- app_assoc, <- Hp, take_drop.
    + rewrite Hall. split; [intros ->; by rewrite take_drop|].
      intros He. rewrite <- (take_drop (S n) (x :: data)) in He at 2. by apply app_inv_head in He.
  - exists [], false. split; [done|]. split; [apply prefix_nil|]. done.
Qed.

(** ** The rate the host asks for *)
Section Rate.
Context {D E : Type} `{!NfcDriver D E, !NfcProbes D, !FrontendDiagnostics D}.
Implicit Types (e : CcidHandler D).

Definition link e : bool * option Z := (baud_escape_enabled e, pending_baud_change e).

(** The rate of a baud escape the handler accepts. *)
Definition requested (m : list Z) : option Z :=
  match CcidHeader_parse m with
  | Some h =>
      if (message_type h =? PC_TO_RDR_ESCAPE) && (dw_length h =? 2) &&
         bool_decide (m !! CCID_HEADER_SIZE = Some ESCAPE_SET_BAUD)
      then match m !! (CCID_HEADER_SIZE + 1)%nat with Some c => baud_from_code c | None => None end
      else None
  | None => None
  end.

Lemma account_failed_link (p : CcidHandler D * reply) e' r :
  account_failed_status p = Ret (e', r) -> link e' = link p.1.
Proof.
  destruct p as [e [buf len]]. unfold account_failed_status. destruct (7 <? len)%nat.
  - intros (status & _ & H)%bind_Ret_inv. by case_match; injection H as <- <-.
  - by intros [= <- <-].
Qed.

Lemma relay_link e h apdu buf e' r : relay_apdu e h apdu buf = Ret (e', r) -> link e' = link e.
Proof.
  unfold relay_apdu. intros (? & _ & H)%bind_Ret_inv. apply bind_Ret_inv in H as (? & _ & H).
  destruct (now_us e) as [t0 e0] eqn:E0. apply bind_Ret_inv in H as ([c [scratch n]] & _ & H).
  destruct (now_us (with_core c e0)) as [t1 e1] eqn:E1.
  apply bind_Ret_inv in H as (? & _ & H). apply bind_Ret_inv in H as (? & _ & H).
  apply bind_Ret_inv in H as (? & _ & H). injection H as <- <-.
  injection E0 as _ <-. by injection E1 as _ <-.
Qed.

Lemma card_block_link e h apdu buf e' r : card_block e h apdu buf = Ret (e', r) -> link e' = link e.
Proof.
  unfold card_block. destruct (negb _).
  - intros H. by apply account_failed_link in H.
  - intros ([t [bs|c]] & _ & H)%bind_Ret_inv; cbn [fst snd] in H.
    + by injection H as <- <-.
    + by apply relay_link in H.
Qed.

Lemma route_link e h m buf e' r : xfr_via_t1 e h m buf = Ret (e', r) -> link e' = link e.
Proof.
  unfold xfr_via_t1. destruct (_ <? _); [by intros [= <- <-]|].
  intros (apdu & _ & H)%bind_Ret_inv. destruct (T1Endpoint.is_s_block_request apdu).
  - apply bind_Ret_inv in H as ([t [bs|c]] & _ & H); cbn [fst snd] in H.
    + by apply account_failed_link in H.
    + by apply card_block_link in H.
  - by apply card_block_link in H.
Qed.

Lemma events_link e : link (on_card_reset (on_parameters_accepted e)) = link e.
Proof. unfold on_card_reset, on_parameters_accepted. repeat case_match; done. Qed.

(** A command leaves the request of the last one standing, unless it is an
    accepted baud escape. *)
Lemma process_link e m buf e' r : baud_escape_enabled e = true ->
  esp_process_command e m buf = Ret (e', r) ->
  link e' = (true, match requested m with Some rate => Some rate | None => pending_baud_change e end).
Proof.
  intros Hen. unfold esp_process_command, answer_locally, requested. unfold link in *.
  assert (forall e1 : CcidHandler D, link e1 = link e -> link e1 = (true, pending_baud_change e)) as Hk
    by (intros e1 ->; unfold link; by rewrite Hen).
  destruct (CcidHeader_parse m) as [h|] eqn:Hp.
  2: { intros (r1 & _ & H)%bind_Ret_inv. injection H as <- _. apply Hk. by rewrite events_link. }
  destruct ((message_type h =? PC_TO_RDR_XFR_BLOCK) && _ && _) eqn:Ex.
  { intros H%route_link. replace (message_type h =? PC_TO_RDR_ESCAPE) with false; [by apply Hk|].
    unfold PC_TO_RDR_XFR_BLOCK, PC_TO_RDR_ESCAPE in *. lia. }
  unfold escape_is. destruct (Z.eqb_spec (message_type h) PC_TO_RDR_ESCAPE) as [Ht|Ht]; cbn [andb].
  2: { intros (r1 & _ & H)%bind_Ret_inv. injection H as <- _. apply Hk. by rewrite events_link. }
  destruct (bool_decide (m !! CCID_HEADER_SIZE = Some ESCAPE_SET_BAUD)) eqn:E5.
  - apply bool_decide_eq_true in E5. rewrite E5, Hen.
    replace (bool_decide (Some ESCAPE_SET_BAUD = Some 0xD2)) with false by done.
    replace (bool_decide (Some ESCAPE_SET_BAUD = Some 0xD3)) with false by done.
    replace (bool_decide (Some ESCAPE_SET_BAUD = Some 0xD4)) with false by done.
    replace (bool_decide (Some ESCAPE_SET_BAUD = Some ESCAPE_SET_BAUD)) with true by done.
    rewrite !andb_false_r, andb_true_r. cbn [andb]. unfold answer_baud. cbv zeta.
    destruct (dw_length h =? 2); cbn [andb]; [|intros [= <- _]; by apply Hk].
    destruct (m !! (CCID_HEADER_SIZE + 1)%nat) as [c|]; [|intros [= <- _]; by apply Hk].
    destruct (baud_from_code c) as [rate|]; intros [= <- _]; [|by apply Hk]. cbn. by rewrite Hen.
  - rewrite !andb_false_r. intros H. apply Hk. revert H.
    destruct ((dw_length h =? 1) && bool_decide (m !! CCID_HEADER_SIZE = Some 210)); [by intros [= <- _]|].
    destruct (if (dw_length h =? 1) && _ then wtx_counters _ else None); [by intros [= <- _]|].
    destruct ((dw_length h =? 2) && _).
    + intros [= H]. revert H. unfold answer_probe.
      destruct (timer_registers (driver_of e)) as [d regs]. destruct (i2c_timing_probe _ _) as [d' [us|]];
        by intros [= <- _].
    + intros (r1 & _ & H)%bind_Ret_inv. injection H as <- _. by rewrite events_link.
Qed.
End Rate.

(** ** The loop *)
Section Loop.
Context {D E : Type} `{!NfcDriver D E, !NfcDriverLaws D E, !NfcProbes D, !NfcProbesLaws D E,
  !FrontendDiagnostics D}.
Implicit Types (s : CcidSerialServer D).

(** What the environment may do. *)
Definition fed_ok (f : Fed) : Prop :=
  u8 (byte f) /\ u32 (feed_tick f) /\ u32 (idle_tick f) /\ (stalls f < 256)%nat /\
  Forall honest (echo_writes f) /\ Forall honest (notify_writes f) /\
  Forall honest (response_writes f) /\ Forall honest (nak_writes f).
Definition read_ok (r : Read) : Prop :=
  match r with
  | Byte _ f _ drain => Forall fed_ok (f :: drain)
  | Idle now => u32 now
  end.

(** The invariant between two bytes: the server's, and no rate change waits. *)
Definition uart_ok (ws : ResponseWindows) s (b : TimeExtension.Bridge) : Prop :=
  server_ok s b /\ windows s = ws /\ link (handler s) = (true, None).

(** The delivery of a served command: of each frame owed, a prefix; behind the
    whole of it, drained, the rate the command asked for, and evidence. *)
Definition tx (sent frame : list Z) : LineEvent := Tx sent (bool_decide (sent = frame)).
Definition delivery (m : list Z) (w : wire) (sents : list (list Z)) (drained baud_set : bool) :
    list LineEvent :=
  zip_with tx sents (owed w) ++ Drain drained ::
  (if bool_decide (sents = owed w) && drained
   then match requested m with Some rate => [Baud rate baud_set] | None => [] end ++ [ServeEvidence]
   else []).

(** What one byte puts on the line. *)
Definition byte_events (ws : ResponseWindows) (arrival : Z * Fed) (g : list LineEvent) : Prop :=
  let '(floor, f) := arrival in
  g = [] \/
  (exists sent, sent `prefix_of` [SYNC; CTRL_NAK; Z.lxor SYNC CTRL_NAK] /\
     g = [tx sent [SYNC; CTRL_NAK; Z.lxor SYNC CTRL_NAK]]) \/
  exists m w, message m /\ protocol m w /\
    if window_in ws m <? wrapping_sub32 (post_tick f) floor
    then g = map Extension (w_frames w)
    else exists sents, Forall2 prefix sents (owed w) /\
           g = map Extension (w_frames w) ++ delivery m w sents (drained f) (baud_set f).

(** *** Polls keep the invariant *)
Lemma check_card_link e : link (esp_check_card_change e).1.1 = link e.
Proof. unfold esp_check_card_change. cbn [fst snd]. by case_match. Qed.

Lemma poll_if_due_uart ws now s b : uart_ok ws s b -> uart_ok ws (poll_if_due now s).1 b.
Proof.
  intros (H & Hw & Hl). split; [by apply poll_if_due_ok|]. unfold poll_if_due.
  set (s1 := if _ && _ then _ else s).
  assert (windows s1 = ws /\ link (handler s1) = (true, None)) as [H1 H2] by (unfold s1; by case_match).
  unfold poll_due. destruct (_ <=? _); [|done]. cbn [fst]. rewrite check_card_eq. cbn [fst].
  split; [done|]. cbn [handler set_handler]. by rewrite check_card_link.
Qed.

Lemma poll_and_stash_uart ws now s b : uart_ok ws s b -> u32 now -> uart_ok ws (poll_and_stash now s).1 b.
Proof.
  intros (H & Hw & Hl) Hn. split; [by apply poll_and_stash_ok|]. unfold poll_and_stash, poll_due.
  destruct (_ <=? _); [|done]. rewrite check_card_eq. cbn [fst snd].
  assert (link (esp_check_card_change (handler (refresh now (set_last_poll_tick now s)))).1.1 =
    (true, None)) as Hc by (by rewrite check_card_link). by case_match.
Qed.

(** *** One byte *)
Lemma feed_byte_link c now k s b s' b' action frames :
  feed_byte c now k s b = Ret (s', b', (action, frames)) -> action <> Respond ->
  link (handler s') = link (handler s).
Proof.
  unfold feed_byte. assert (handler (drop_stalled_frame now s) = handler s) as Hd
    by (unfold drop_stalled_frame; by case_match).
  intros (p & _ & H)%bind_Ret_inv Hne. destruct (p.2) as [[m|err]|].
  - apply bind_Ret_inv in H as (r & _ & H). by injection H.
  - destruct (nak_on_error _).
    + apply bind_Ret_inv in H as (n & _ & H). injection H as <- _ _ _. cbn. by rewrite <- Hd.
    + injection H as <- _ _ _. cbn. by rewrite Hd.
  - injection H as <- _ _ _. cbn. by rewrite Hd.
Qed.

Lemma polled_link m now s : link (polled m now s) = link (handler s).
Proof. unfold polled. case_match; [by rewrite check_card_link|done]. Qed.

(** A served command leaves the rate it asked for waiting, and no other. *)
Lemma served_request m now k s s0 p b s' b' frames :
  link (handler s) = (true, None) -> s0 = set_parser p (drop_stalled_frame now s) ->
  served m now k s0 b s' b' frames -> link (handler s') = (true, requested m).
Proof.
  intros Hl -> Hs. destruct (sv_handler _ _ _ _ _ _ _ _ Hs) as (r & h & Hr & _).
  assert (link (handler (set_parser p (drop_stalled_frame now s))) = (true, None)) as Hl0
    by (unfold drop_stalled_frame; by case_match).
  rewrite <- (polled_link m now) in Hl0. unfold link in Hl0. injection Hl0 as H1 H2.
  apply process_link in Hr; [|exact H1]. rewrite Hr. f_equal.
  change (pending_baud_change (esp_refresh_diagnostics ?t ?e)) with (pending_baud_change e).
  rewrite H2. by destruct (requested m).
Qed.

Lemma tx_eq sent whole frame : (whole = true <-> sent = frame) -> Tx sent whole = tx sent frame.
Proof. intros H. unfold tx. f_equal. case_bool_decide; destruct whole; naive_solver. Qed.

Lemma uart_exchange_spec f s frames : fed_ok f ->
  let w := mkWire frames (echo s) (notify s) (response s) in
  exists sents sent, write_exchange f s = Ret (zip_with tx sents (owed w) ++ [Drain (drained f)], sent) /\
    Forall2 prefix sents (owed w) /\ sent = bool_decide (sents = owed w) && drained f.
Proof.
  intros (_ & _ & _ & _ & He & Hn & Hr & _). unfold write_exchange, owed. cbn [w_echo w_notify w_response].
  destruct (write_all_spec _ (echo s) He) as (e & ew & -> & Pe & Ee).
  destruct (write_all_spec _ (response s) Hr) as (r & rw & -> & Pr & Er). rewrite !bind_ret.
  destruct (notify s) as [|n0 ns] eqn:En.
  - rewrite !bind_ret. exists [e; r]. eexists. cbn [fst snd app zip_with].
    rewrite (tx_eq e ew (echo s)), (tx_eq r rw (response s)) by done.
    split; [done|]. split; [by repeat constructor|]. case_bool_decide as Hb.
    + injection Hb as Hb1 Hb2. apply Ee in Hb1 as ->. by apply Er in Hb2 as ->.
    + destruct ew, rw; cbn; try done. exfalso. apply Hb. f_equal; [by apply Ee|]. f_equal. by apply Er.
  - destruct (write_all_spec _ (n0 :: ns) Hn) as (n & nw & -> & Pn & Hnw). rewrite !bind_ret.
    exists [e; n; r]. eexists. cbn [fst snd app zip_with].
    rewrite (tx_eq e ew (echo s)), (tx_eq r rw (response s)), (tx_eq n nw (n0 :: ns)) by done.
    split; [done|]. split; [by repeat constructor|]. case_bool_decide as Hb.
    + injection Hb as Hb1 Hb2 Hb3. apply Ee in Hb1 as ->. apply Er in Hb3 as ->. by apply Hnw in Hb2 as ->.
    + destruct ew, nw, rw; cbn; try done. exfalso. apply Hb.
      by rewrite (proj1 Ee eq_refl), (proj1 Hnw eq_refl), (proj1 Er eq_refl).
Qed.

Lemma uart_byte_spec ws floor f s b : uart_ok ws s b -> fed_ok f ->
  exists s' b' g reset, serve_byte floor f s b = Ret (s', b', g, reset) /\
    uart_ok ws s' b' /\ byte_events ws (floor, f) g.
Proof.
  intros (H & Hws & Hlk) Hf. pose proof Hf as (Hb & Ht & Hi & Hk & _ & _ & _ & Hnak).
  unfold serve_byte.
  destruct (feed_byte_spec (byte f) (feed_tick f) (stalls f) s b H Hb Ht)
    as (s1 & b1 & action & frames & Ef & H1 & Hws1 & Ha).
  pose proof (feed_byte_link _ _ _ _ _ _ _ _ _ Ef) as Hl1. rewrite Ef, bind_ret. destruct action.
  - destruct Ha as (m & p & _ & Hm & Hs).
    pose proof (served_protocol _ _ _ _ _ _ _ _ Hk Hs) as Hp.
    pose proof (served_request _ _ _ _ _ _ _ _ _ _ Hlk eq_refl Hs) as Hreq. injection Hreq as Hen Hpend.
    set (s2 := refresh_host_deadline floor s1) in *.
    assert (server_ok s2 b1) as H2 by (destruct H1; by constructor).
    assert (response_expired (post_tick f) s2 =
      (window_in ws m <? wrapping_sub32 (post_tick f) floor)) as ->.
    { unfold response_expired, s2. cbn. rewrite (sv_window _ _ _ _ _ _ _ _ Hs), <- Hws. unfold window.
      unfold drop_stalled_frame. by case_match. }
    destruct (_ <? _) eqn:Elate.
    + eexists _, b1, _, false. split; [done|]. split.
      * apply poll_and_stash_uart; [|done]. split; [by apply late_ok|]. split; [cbn; congruence|].
        unfold link. cbn. by rewrite Hen.
      * right; right. exists m. eexists. split; [done|]. split; [exact Hp|]. by rewrite Elate.
    + destruct (uart_exchange_spec f s2 frames Hf) as (sents & sent & -> & Hpre & Hsent).
      change (mkWire frames (echo s2) (notify s2) (response s2)) with
        (mkWire frames (echo s1) (notify s1) (response s1)) in *.
      rewrite bind_ret. cbn [take_baud_change]. change (handler s2) with (handler s1). rewrite Hpend.
      set (s3 := set_handler _ s2).
      assert (uart_ok ws s3 b1) as H3.
      { split; [|split; [cbn; congruence|unfold link; cbn; by rewrite Hen]].
        apply set_handler_ok; [done|]. apply esp_turnaround_ok, esp_baud_ok, H1. }
      pose proof (poll_if_due_uart ws (poll_tick f) s3 b1 H3) as H4.
      destruct (poll_if_due (poll_tick f) s3) as [s4 due]. cbn [fst] in *.
      assert (uart_ok ws (take_snapshot s4).1 b1) as H5.
      { destruct H4 as (H4 & Hw4 & Hl4). split; [by apply take_snapshot_ok|done]. }
      destruct (take_snapshot s4) as [s5 snapshot]. cbn [fst] in H5.
      assert (byte_events ws (floor, f) (map Extension frames ++
        (zip_with tx sents (owed (mkWire frames (echo s1) (notify s1) (response s1))) ++ [Drain (drained f)]) ++
        match requested m with Some rate => if sent then [Baud rate (baud_set f)] else [] | None => [] end ++
        if sent then [ServeEvidence] else [])) as Hg.
      { right; right. exists m. eexists. split; [done|]. split; [exact Hp|]. rewrite Elate.
        exists sents. split; [exact Hpre|]. f_equal. rewrite <- app_assoc. unfold delivery. f_equal.
        cbn [app]. f_equal. rewrite <- Hsent. destruct sent; [done|]. by destruct (requested m). }
      destruct snapshot.
      * exists s5, b1. eexists _, true. split; [reflexivity|]. done.
      * eexists _, b1, _, false. split; [reflexivity|]. split; [by apply poll_and_stash_uart|exact Hg].
  - destruct Ha as (_ & -> & -> & Hnb). destruct (write_all_spec _ (nak_buf s1) Hnak) as (n & nw & -> & Pn & En).
    rewrite bind_ret. eexists s1, b, _, false. split; [done|]. split; [split; [done|]|].
    + split; [congruence|]. by rewrite Hl1.
    + right; left. exists n. rewrite <- Hnb. split; [done|]. cbn. by rewrite (tx_eq n nw (nak_buf s1)).
  - destruct Ha as (-> & -> & _). eexists s1, b, _, false. split; [done|]. split; [split; [done|]|by left].
    split; [congruence|]. by rewrite Hl1.
Qed.

(** *** Every byte *)

(** What a run over the arrivals [xs] puts on the line: one group a byte, and a
    group for every byte unless the device resets. *)
Definition line_events (ws : ResponseWindows) (xs : list (Z * Fed)) (events : list LineEvent)
    (reset : bool) : Prop :=
  exists groups, events = concat groups /\ (length groups <= length xs)%nat /\
    Forall2 (byte_events ws) (take (length groups) xs) groups /\
    (reset = false -> length groups = length xs).

Lemma line_nil ws : line_events ws [] [] false.
Proof. by exists []. Qed.
Lemma line_one ws x g reset : byte_events ws x g -> line_events ws [x] g reset.
Proof. intros H. exists [g]. cbn. rewrite app_nil_r. split_and!; try done. by repeat constructor. Qed.
Lemma line_app ws xs ys l1 l2 reset : line_events ws xs l1 false -> line_events ws ys l2 reset ->
  line_events ws (xs ++ ys) (l1 ++ l2) reset.
Proof.
  intros (g1 & -> & Hl1 & H1 & He1) (g2 & -> & Hl2 & H2 & He2). specialize (He1 eq_refl).
  exists (g1 ++ g2). rewrite concat_app, !length_app. split; [done|]. split; [lia|]. split; [|lia].
  rewrite He1 in *. rewrite take_app_add. apply Forall2_app; [|done]. by rewrite firstn_all in H1.
Qed.
Lemma line_stop ws xs ys l : line_events ws xs l true -> line_events ws (xs ++ ys) l true.
Proof.
  intros (g & -> & Hl & H & _). exists g. rewrite length_app. split_and!; try done; [lia|].
  by rewrite take_app_le.
Qed.

Definition runs (ws : ResponseWindows) (xs : list (Z * Fed))
    (r : outcome (CcidSerialServer D * TimeExtension.Bridge * list LineEvent * bool)) : Prop :=
  exists s b events reset, r = Ret (s, b, events, reset) /\ uart_ok ws s b /\
    line_events ws xs events reset.

Lemma loop_bind ws xs ys r
    (k : CcidSerialServer D -> TimeExtension.Bridge -> outcome (CcidSerialServer D * TimeExtension.Bridge * list LineEvent * bool)) :
  runs ws xs r -> (forall s b, uart_ok ws s b -> runs ws ys (k s b)) ->
  runs ws (xs ++ ys)
    (x ← r; let '(s, b, events, reset) := x in
     if reset : bool then Ret (s, b, events, true)
     else y ← k s b; let '(s, b, rest, reset) := y in Ret (s, b, events ++ rest, reset)).
Proof.
  intros (s & b & l & reset & -> & Hok & Hl) Hk. rewrite bind_ret. destruct reset.
  - exists s, b, l, true. split; [done|]. split; [done|]. by apply line_stop.
  - destruct (Hk s b Hok) as (s' & b' & l' & reset & -> & Hok' & Hl'). rewrite bind_ret.
    exists s', b', (l ++ l'), reset. split; [done|]. split; [done|]. by apply line_app.
Qed.

Lemma serve_byte_runs ws floor f s b : uart_ok ws s b -> fed_ok f ->
  runs ws [(floor, f)] (serve_byte floor f s b).
Proof.
  intros H Hf. destruct (uart_byte_spec ws floor f s b H Hf) as (s' & b' & g & reset & -> & H1 & Hg).
  exists s', b', g, reset. split; [done|]. split; [done|]. by apply line_one.
Qed.

Lemma serve_bytes_runs ws floor fs s b : uart_ok ws s b -> Forall fed_ok fs ->
  runs ws (map (pair floor) fs) (serve_bytes floor fs s b).
Proof.
  intros H Hfs. revert s b H. induction Hfs as [|f fs Hf _ IH]; intros s b H.
  { exists s, b, [], false. split; [done|]. split; [done|apply line_nil]. }
  apply (loop_bind ws [(floor, f)]); [by apply serve_byte_runs|exact IH].
Qed.

Definition arrivals (r : Read) : list (Z * Fed) :=
  match r with
  | Byte read_start first pre_dispatch drain => (read_start, first) :: map (pair pre_dispatch) drain
  | Idle _ => []
  end.

Lemma turn_runs ws r s b : uart_ok ws s b -> read_ok r -> runs ws (arrivals r) (turn r s b).
Proof.
  intros H Hr. destruct r as [start f pre drain|now]; cbn [read_ok arrivals turn] in *.
  - apply Forall_cons in Hr as [Hf Hd]. apply (loop_bind ws [(start, f)]); [by apply serve_byte_runs|].
    intros s1 b1 H1. by apply serve_bytes_runs.
  - eexists _, b, [], false. split; [done|]. split; [|apply line_nil].
    apply poll_and_stash_uart; [|done]. destruct H as (H & ? & ?). split; [by apply reset_parser_ok|done].
Qed.

Lemma serve_runs ws rs s b : uart_ok ws s b -> Forall read_ok rs ->
  runs ws (concat (map arrivals rs)) (serve rs s b).
Proof.
  intros H Hrs. revert s b H. induction Hrs as [|r rs Hr _ IH]; intros s b H.
  { exists s, b, [], false. split; [done|]. split; [done|apply line_nil]. }
  cbn [map concat serve]. apply loop_bind; [by apply turn_runs|exact IH].
Qed.

(** The windows of the loop: none is shorter than a tick. *)
Definition uart_windows (hz : Z) : ResponseWindows :=
  let w := from_tick_hz hz in
  mkWindows (Z.max (tight w) 1) (Z.max (xfr_block w) 1) (Z.max (power_on_window w) 1).

Lemma serve_uart_spec poll hz now rs (h : CcidHandler D) :
  esp_ok h -> pending_baud_change h = None -> Forall read_ok rs ->
  exists s b events reset, serve_uart poll hz now rs h TimeExtension.boot = Ret (s, b, events, reset) /\
    server_ok s b /\ pending_baud_change (handler s) = None /\
    line_events (uart_windows hz) (concat (map arrivals rs)) events reset.
Proof.
  intros Hh Hp Hrs. unfold serve_uart.
  set (s0 := with_config (enable_baud_escape h) poll (from_tick_hz hz) now UART_CONFIG).
  assert (uart_ok (windows s0) s0 TimeExtension.boot) as H0.
  { split; [apply server_new_ok; by destruct Hh|]. split; [done|]. unfold link. cbn. by rewrite Hp. }
  destruct (serve_runs _ rs s0 _ H0 Hrs) as (s & b & l & reset & -> & (H1 & _ & H2) & H3).
  exists s, b, l, reset. injection H2 as _ ->. by split_and!.
Qed.

(** C26: the UART reader and the rate of its line.  Over any driver that keeps its
    contract, from a handler no rate change waits in, whatever the reads return
    and however the UART driver splits, refuses or fails the writes, the loop
    runs without a panic but the reset a snapshot escape asks for, within the
    server's invariant, and no rate change is left waiting after any byte.  Each
    byte puts on the line nothing, a NAK or, for a served command, of its echo,
    notice and response a prefix each; an answer past its window, counted from
    the arrival floor, is not written at all.  The rate changes exactly behind an
    exchange that was written whole and drained, and to exactly the rate its
    command asked for; a request whose acknowledgement did not leave is
    forgotten. *)
Theorem uart_rate_changes_acknowledged poll hz now rs (h : CcidHandler D) :
  esp_ok h -> pending_baud_change h = None -> Forall read_ok rs ->
  exists s b events reset,
    serve_uart poll hz now rs h TimeExtension.boot = Ret (s, b, events, reset) /\
    server_ok s b /\ pending_baud_change (handler s) = None /\
    line_events (uart_windows hz) (concat (map arrivals rs)) events reset.
Proof.
  apply serve_uart_spec.
Qed.
End Loop.

(** ** Witness *)
Module UartDemo.
(** A driver that takes three bytes at a time, once nothing, and one that fails. *)
Definition three : UartWrite := fun n => Some (Nat.min n 3).
Definition busy : UartWrite := fun _ => Some 0%nat.
Definition broken : UartWrite := fun _ => None.
Definition fed_with (ws : list UartWrite) (c : Z) : Fed :=
  mkFed c 5 100 0 6 [] [] ws [] true true 900 7 8.
Definition baud (code : Z) : list Z :=
  frame_of (command PC_TO_RDR_ESCAPE 0 4 (0, 0, 0) [ESCAPE_SET_BAUD; code]).
Definition read (ws : list UartWrite) (frame : list Z) : Read :=
  match map (fed_with ws) frame with
  | f :: fs => Byte 4 f 4 fs
  | [] => Idle 4
  end.
(** A negotiation that is lost, one that succeeds, a request at the new rate. *)
Definition script : list Read :=
  [read [broken] (baud 0x02); Idle 5; read [three; busy; three] (baud 0x01);
   read [] (frame_of SerialDemo.status)].
Definition snapshot : list Z := frame_of (command PC_TO_RDR_ESCAPE 0 4 (0, 0, 0) [0xD1]).
Definition rates (events : list LineEvent) : list Z :=
  omap (fun ev => match ev with Baud rate true => Some rate | _ => None end) events.
Definition serve (rs : list Read) := serve_uart 300 100 0 rs EspDemo.active TimeExtension.boot.
End UartDemo.

Lemma demo_fed_ok ws c : u8 c -> Forall honest ws -> fed_ok (UartDemo.fed_with ws c).
Proof.
  intros Hc Hw. refine (conj Hc (conj _ (conj _ (conj _ (conj (Forall_nil_2 _) (conj (Forall_nil_2 _)
    (conj Hw (Forall_nil_2 _)))))))); cbn; unfold u32; lia.
Qed.

Lemma demo_read_ok ws frame : bytes frame -> Forall honest ws -> read_ok (UartDemo.read ws frame).
Proof.
  intros Hf Hw. unfold UartDemo.read. destruct Hf as [|c frame Hc Hf]; [cbn; unfold u32; lia|].
  cbn [map read_ok]. constructor; [by apply demo_fed_ok|].
  induction Hf as [|c' frame Hc' _ IH]; [constructor|]. constructor; [by apply demo_fed_ok|exact IH].
Qed.

Lemma demo_honest : honest UartDemo.three /\ honest UartDemo.busy /\ honest UartDemo.broken.
Proof. unfold honest. split_and!; intros n k; [intros [= <-]; lia|intros [= <-]; lia|done]. Qed.

Lemma demo_script_ok : Forall read_ok UartDemo.script.
Proof.
  destruct demo_honest as (H3 & Hb & Hx).
  assert (Forall honest [UartDemo.broken] /\ Forall honest [UartDemo.three; UartDemo.busy; UartDemo.three])
    as [H1 H2] by (split; repeat constructor; done).
  unfold UartDemo.script. refine (Forall_cons_2 _ _ _ _ (Forall_cons_2 _ _ _ _
    (Forall_cons_2 _ _ _ _ (Forall_cons_2 _ _ _ _ (Forall_nil_2 _))))).
  2: unfold read_ok, u32; lia. all: apply demo_read_ok; [solve_bytes|done || constructor].
Qed.

Example uart_rate_changes_acknowledged_witness :
  exists s b events, serve_uart 300 100 0 UartDemo.script EspDemo.active TimeExtension.boot = Ret (s, b, events, false) /\
    UartDemo.rates events = [230400] /\
    line_events (uart_windows 100) (concat (map arrivals UartDemo.script)) events false.
Proof.
  destruct (uart_rate_changes_acknowledged 300 100 0 UartDemo.script EspDemo.active esp_active_ok eq_refl
    demo_script_ok) as (s & b & events & reset & H1 & _ & _ & H2).
  assert (option_map (fun r => (UartDemo.rates r.1.2, r.2))
    (match serve_uart 300 100 0 UartDemo.script EspDemo.active TimeExtension.boot with
     Ret r => Some r | Panic => None end) = Some ([230400], false))
    as Hv by (vm_compute; reflexivity).
  rewrite H1 in Hv. cbn [option_map fst snd] in Hv.
  injection Hv as Hv ->. exists s, b, events. split; [exact H1|]. split; [exact Hv|exact H2].
Defined.

(** The snapshot escape resets the device whether or not its acknowledgement was
    written. *)
Example unsent_snapshot_resets :
  option_map (fun r => (last r.1.2, r.2))
    (match UartDemo.serve [UartDemo.read [UartDemo.broken] UartDemo.snapshot] with
     Ret r => Some r | Panic => None end) = Some (Some (Drain true), true) /\
  option_map (fun r => existsb (fun ev => match ev with Tx [] false => true | _ => false end) r.1.2)
    (match UartDemo.serve [UartDemo.read [UartDemo.broken] UartDemo.snapshot] with
     Ret r => Some r | Panic => None end) = Some true.
Proof. split; vm_compute; reflexivity. Qed.
