(* ===== verification/Pn532.v ===== *)
(** * The PN532 front end

    [esp32-ccid/src/pn532_driver.rs] on target, and the front end its [main] of
    [main.rs] builds of it.  The controller behind its transport crate is the
    class [Pn532Device]; the delays are left out.  The laws and theorems are in
    [Pn532Spec.v]. *)
From Stdlib Require Import ZArith Lia ZifyBool.
From stdpp Require Import prelude.
From S2P Require Import Prelude CardInterface EspHandler Frontend SerialServer UartServer.
From S2P Require Mfrc522.
Local Open Scope Z_scope.

(** The transport's errors and its device: initialisation is a hardware reset,
    the firmware version and the SAM configuration; [detect_card] lists one
    target. *)
Inductive TransportError := TNotInitialized | TNoCard | TCommunication | TBufferOverflow.

Class Pn532Device (P : Type) := {
  dev_init : P -> P * result unit TransportError;
  detect_card : P -> P * bool;
  is_initialized : P -> bool;
  card_present : P -> bool;
  release_card : P -> P;
  exchange_apdu : list Z -> P -> P * result (list Z) TransportError
}.

Module Pn532.

Definition SYNTHETIC_ATR : list Z := [0x3B; 0x80; 0x80; 0x01; 0x01].

Definition map_transport_error (e : TransportError) : NfcError :=
  match e with
  | TNotInitialized => NotInitialized
  | TNoCard => NoCard
  | TCommunication => CommunicationError
  | TBufferOverflow => BufferOverflow
  end.

Record Pn532NfcDriver (P : Type) := mkDriver {
  device : P;
  session_active : bool;
  diag_init_attempts : Z;
  diag_presence_polls : Z;
  diag_bus_errors : Z;
  diag_last_error : option NfcError
}.
Arguments mkDriver {P}.
Arguments device {P} _.
Arguments session_active {P} _.
Arguments diag_init_attempts {P} _.
Arguments diag_presence_polls {P} _.
Arguments diag_bus_errors {P} _.
Arguments diag_last_error {P} _.

Section Driver.
Context {P : Type} `{!Pn532Device P}.
Implicit Types (d : Pn532NfcDriver P).

Definition with_device p d : Pn532NfcDriver P :=
  mkDriver p (session_active d) (diag_init_attempts d) (diag_presence_polls d) (diag_bus_errors d)
    (diag_last_error d).
Definition with_session b d : Pn532NfcDriver P :=
  mkDriver (device d) b (diag_init_attempts d) (diag_presence_polls d) (diag_bus_errors d)
    (diag_last_error d).
Definition count_attempt d : Pn532NfcDriver P :=
  mkDriver (device d) (session_active d) (sat_add32 (diag_init_attempts d) 1) (diag_presence_polls d)
    (diag_bus_errors d) (diag_last_error d).
Definition count_poll d : Pn532NfcDriver P :=
  mkDriver (device d) (session_active d) (diag_init_attempts d) (sat_add32 (diag_presence_polls d) 1)
    (diag_bus_errors d) (diag_last_error d).
Definition count_bus_error e d : Pn532NfcDriver P :=
  mkDriver (device d) (session_active d) (diag_init_attempts d) (diag_presence_polls d)
    (sat_add32 (diag_bus_errors d) 1) (Some e).

Definition new (p : P) : Pn532NfcDriver P := mkDriver p false 0 0 0 None.

Definition init d : Pn532NfcDriver P * result unit NfcError :=
  let d := count_attempt d in
  let '(p, r) := dev_init (device d) in
  let d := with_device p d in
  match r with
  | Ok _ => (d, Ok tt)
  | Err e => let mapped := map_transport_error e in (count_bus_error mapped d, Err mapped)
  end.

Fixpoint bring_up_attempts (attempts : nat) d : Pn532NfcDriver P * bool :=
  match attempts with
  | O => (d, false)
  | S attempts =>
      let '(d, r) := init d in
      if is_ok r then (d, true) else bring_up_attempts attempts d
  end.
Definition bring_up (p : P) (attempts : nat) : Pn532NfcDriver P * bool :=
  bring_up_attempts attempts (new p).

Definition poll_card_presence d : Pn532NfcDriver P * bool :=
  let d := count_poll d in
  let '(p, present) := detect_card (device d) in
  let d := with_device p d in
  (if present then d else with_session false d, present).

Definition power_on d (atr_buf : list Z) : filled (Pn532NfcDriver P) NfcError :=
  if negb (is_initialized (device d)) then (d, atr_buf, Err NotInitialized)
  else
    let '(d, found) :=
      if card_present (device d) then (d, true)
      else let '(p, found) := detect_card (device d) in (with_device p d, found) in
    if negb found then (d, atr_buf, Err NoCard)
    else if (length atr_buf <? length SYNTHETIC_ATR)%nat then (d, atr_buf, Err BufferOverflow)
    else (with_session true d, SYNTHETIC_ATR ++ drop (length SYNTHETIC_ATR) atr_buf,
          Ok (length SYNTHETIC_ATR)).

Definition power_off d : Pn532NfcDriver P :=
  with_session false (with_device (release_card (device d)) d).

Definition transmit_apdu d (command response : list Z) : filled (Pn532NfcDriver P) NfcError :=
  if negb (session_active d) then (d, response, Err NotInitialized)
  else
    let '(p, r) := exchange_apdu command (device d) in
    let d := with_device p d in
    match r with
    | Err e => (d, response, Err (map_transport_error e))
    | Ok result =>
        if (length response <? length result)%nat then (d, response, Err BufferOverflow)
        else (d, result ++ drop (length result) response, Ok (length result))
    end.

Definition frontend_self_test d : Pn532NfcDriver P * result unit FrontendErrorKind :=
  let d := count_attempt d in
  let '(p, r) := dev_init (device d) in
  let d := with_device p d in
  match r with
  | Ok _ => (d, Ok tt)
  | Err e => (count_bus_error (map_transport_error e) d, Err FBus)
  end.

(** The driver keeps the trait's defaults for the rest. *)
#[global] Instance pn532_nfc : NfcDriver (Pn532NfcDriver P) NfcError := {
  nfc_is_card_present := poll_card_presence;
  nfc_poll_card_presence := poll_card_presence;
  nfc_session_active := session_active;
  nfc_power_on := power_on;
  nfc_power_off := power_off;
  nfc_transmit_apdu := transmit_apdu;
  nfc_card_uid _ := None;
  nfc_reinit_count _ := 0;
  nfc_exchange_decomposition _ := None
}.
#[global] Instance pn532_probes : NfcProbes (Pn532NfcDriver P) := {
  wtx_counters _ := None;
  timer_registers d := (d, None);
  i2c_timing_probe d _ := (d, None);
  configured_fwt_ms _ := 0
}.
#[global] Instance pn532_service : NfcService (Pn532NfcDriver P) NfcError := {
  nfc_init := init;
  nfc_init_recovering := init;
  nfc_poll_maintenance d _ := d;
  nfc_presence_poll_detects_removal _ := false
}.
#[global] Instance pn532_diagnostics : FrontendDiagnostics (Pn532NfcDriver P) := {
  frontend_status d :=
    mkStatus (if is_initialized (device d) then Healthy else Degraded)
      (match diag_last_error d with Some e => Mfrc522.Mfrc522.error_kind e | None => FNone end)
      (diag_init_attempts d) 0 (diag_bus_errors d) (diag_presence_polls d);
  EspHandler.frontend_self_test := frontend_self_test
}.

(** *** [main]: five attempts, a healthy or degraded front end, UART0 *)
Definition BOOT_ATTEMPTS : nat := 5.
Definition boot (p : P) : Retry.RetryFrontend (Pn532NfcDriver P) :=
  let '(d, ok) := bring_up p BOOT_ATTEMPTS in
  if ok then Retry.healthy d else Retry.new_degraded d.
Definition reader (p : P) (clock : list Z) (poll_interval_ticks tick_hz now : Z) (rs : list UartMain.Read) :=
  UartMain.serve_uart poll_interval_ticks tick_hz now rs (EspHandler.new (boot p) clock)
    TimeExtension.boot.
End Driver.
End Pn532.
