(* ===== verification/Pn532Spec.v ===== *)
(** * The PN532 front end: theorems

    About [Pn532.v], over any transport whose replies are bytes: the driver keeps
    the contract of the driver classes; when a session is open; the reader the
    firmware boots on it. *)
From Stdlib Require Import ZArith Lia ZifyBool.
From stdpp Require Import prelude.
From S2P Require Import Prelude Wire Atr Diag CardInterface SerialFrame EspHandler EspSpec Frontend FrontendSpec SerialServer SerialSpec UartServer UartSpec Pn532.
Local Open Scope Z_scope.
Import Pn532 UartMain.

Class Pn532DeviceLaws (P : Type) `{!Pn532Device P} := {
  exchange_bytes cmd p reply : (exchange_apdu cmd p).2 = Ok reply -> bytes reply
}.

Section Laws.
Context {P : Type} `{!Pn532Device P, !Pn532DeviceLaws P}.
Implicit Types (d : Pn532NfcDriver P).

Lemma power_on_fills d buf : fills (fun _ => True) buf (power_on d buf).
Proof.
  unfold power_on. destruct (negb _); [by split_and!|].
  destruct (if card_present (device d) then _ else _) as [d1 [|]]; cbn [negb]; [|by split_and!].
  destruct (Nat.ltb_spec (length buf) (length SYNTHETIC_ATR)) as [Hl|Hl]; [by split_and!|].
  split; [done|]. cbn [fst snd]. rewrite length_app, length_drop. split; [lia|]. split; [|done].
  intros Hb. apply bytes_app. split; [solve_bytes|by apply Forall_drop].
Qed.

Lemma transmit_fills d cmd buf : fills (fun _ => True) buf (transmit_apdu d cmd buf).
Proof.
  unfold transmit_apdu. destruct (negb _); [by split_and!|].
  pose proof (exchange_bytes cmd (device d)) as Hx. destruct (exchange_apdu cmd (device d)) as [p [reply|e]];
    cbn [snd] in Hx; [|by split_and!].
  destruct (Nat.ltb_spec (length buf) (length reply)) as [Hl|Hl]; [by split_and!|].
  split; [done|]. cbn [fst snd]. rewrite length_app, length_drop. split; [lia|]. split; [|done].
  intros Hb. apply bytes_app. split; [by apply Hx|by apply Forall_drop].
Qed.

#[export] Instance pn532_laws : NfcDriverLaws (Pn532NfcDriver P) NfcError.
Proof.
  refine {| nfc_ok := fun _ => True |}; try done.
  - intros. apply power_on_fills.
  - intros. apply transmit_fills.
Defined.
#[export] Instance pn532_probes_laws : NfcProbesLaws (Pn532NfcDriver P) NfcError.
Proof. by split. Qed.
#[export] Instance pn532_service_laws : NfcServiceLaws (Pn532NfcDriver P) NfcError.
Proof. by split. Qed.

(** ** Sessions *)
Inductive call :=
| Init | Poll | SelfTest
| PowerOn (buf : list Z)
| PowerOff
| Transmit (command buf : list Z).

(** A call and whether it succeeded. *)
Definition step d (c : call) : Pn532NfcDriver P * bool :=
  match c with
  | Init => let '(d, r) := init d in (d, is_ok r)
  | Poll => poll_card_presence d
  | SelfTest => let '(d, r) := frontend_self_test d in (d, is_ok r)
  | PowerOn buf => let '(d, _, r) := power_on d buf in (d, is_ok r)
  | PowerOff => (power_off d, true)
  | Transmit command buf => let '(d, _, r) := transmit_apdu d command buf in (d, is_ok r)
  end.

Fixpoint steps d (cs : list call) : Pn532NfcDriver P * list (call * bool) :=
  match cs with
  | [] => (d, [])
  | c :: cs => let '(d, ok) := step d c in let '(d, seen) := steps d cs in (d, (c, ok) :: seen)
  end.

(** A session opens with an activation, and ends with a power-off or a poll that
    finds no card. *)
Definition session_after (active : bool) (seen : list (call * bool)) : bool :=
  fold_left (fun active '(c, ok) =>
    match c with
    | PowerOn _ => ok || active
    | PowerOff => false
    | Poll => ok && active
    | _ => active
    end) seen active.

Lemma step_session d c : session_active (step d c).1 = session_after (session_active d) [(c, (step d c).2)].
Proof.
  destruct c as [| | |buf| |command buf]; cbn [step session_after fold_left].
  - unfold init. by destruct (dev_init _) as [p [[]|e]].
  - unfold poll_card_presence. by destruct (detect_card _) as [p []].
  - unfold frontend_self_test. by destruct (dev_init _) as [p [[]|e]].
  - unfold power_on. destruct (negb _); [done|].
    destruct (if card_present (device d) then (d, true) else _) as [d1 found] eqn:E.
    assert (session_active d1 = session_active d) as Hs.
    { destruct (card_present (device d)); [by injection E as <- _|].
      destruct (detect_card (device d)). by injection E as <- _. }
    destruct found; cbn [negb]; [|by cbn]. by destruct (_ <? _)%nat.
  - done.
  - unfold transmit_apdu. destruct (negb _); [done|]. destruct (exchange_apdu _ _) as [p [reply|e]]; [|done].
    by destruct (_ <? _)%nat.
Qed.

Lemma steps_session d cs : session_active (steps d cs).1 = session_after (session_active d) (steps d cs).2.
Proof.
  revert d. induction cs as [|c cs IH]; intros d; [done|]. cbn [steps].
  pose proof (step_session d c) as Hs. destruct (step d c) as [d1 ok]. cbn [fst snd] in Hs.
  specialize (IH d1). destruct (steps d1 cs) as [d2 seen]. cbn [fst snd] in *.
  rewrite IH, Hs. done.
Qed.

(** The life of a session on this driver: it is open exactly when an activation
    succeeded and since then no poll found the field empty and nothing powered it
    off -- whatever exchanges, initialisations and self-tests did in between.  An
    activation succeeds only on an initialised controller with a card listed, by
    this call if not before, and answers the synthetic ATR; a failed one leaves
    the buffer and the session as they were. *)
Theorem pn532_sessions d cs :
  let '(d1, seen) := steps d cs in
  session_active d1 = session_after (session_active d) seen /\
  forall buf, let '(d2, buf', r) := power_on d1 buf in
  match r with
  | Ok n => buf' = SYNTHETIC_ATR ++ drop (length SYNTHETIC_ATR) buf /\ n = length SYNTHETIC_ATR /\
      session_active d2 = true /\ is_initialized (device d1) = true /\
      (card_present (device d1) = true \/ (detect_card (device d1)).2 = true)
  | Err e => buf' = buf /\ session_active d2 = session_active d1
  end.
Proof.
  pose proof (steps_session d cs) as Hs. destruct (steps d cs) as [d1 seen]. split; [exact Hs|].
  intros buf. unfold power_on. destruct (is_initialized (device d1)) eqn:Ei; cbn [negb]; [|done].
  destruct (card_present (device d1)) eqn:Ec.
  - cbn [negb]. destruct (_ <? _)%nat; [done|]. split_and!; try done. by left.
  - destruct (detect_card (device d1)) as [p []] eqn:Ed; cbn [negb]; [|done].
    destruct (_ <? _)%nat; [done|]. split_and!; try done. by right.
Qed.

(** The self-test is documented to be stateless; it resets the controller and
    leaves the session open. *)
Lemma self_test_resets_under_session d : let d' := (frontend_self_test d).1 in
  device d' = (dev_init (device d)).1 /\ session_active d' = session_active d.
Proof. unfold frontend_self_test. cbn. by destruct (dev_init (device d)) as [p [[]|e]]. Qed.

(** ** Bring-up *)
(** The PN532 reader from the controller to the UART.  Over any transport
    and any UART driver, the firmware boots on what five attempts to bring the
    controller up leave -- a healthy front end exactly when one succeeded -- and
    serves any reads of the line to the end, without a panic but the reset a
    snapshot escape asks for and within the invariant of the whole stack, with
    the line events of [uart_rate_changes_acknowledged]. *)
Theorem pn532_reader_serves (p : P) clock poll hz now rs :
  Forall read_ok rs ->
  exists s b events reset,
    reader p clock poll hz now rs = Ret (s, b, events, reset) /\ server_ok s b /\
    line_events (uart_windows hz) (concat (map arrivals rs)) events reset /\
    (Retry.degraded (boot p) = false <-> (bring_up p BOOT_ATTEMPTS).2 = true).
Proof.
  intros Hrs. destruct (serve_uart_spec poll hz now rs (EspHandler.new (boot p) clock))
    as (s & b & l & reset & E & H1 & _ & H2); [|done..|].
  { apply esp_new_ok. unfold boot. destruct (bring_up p BOOT_ATTEMPTS) as [d []]; exact I. }
  exists s, b, l, reset. split; [exact E|]. split; [done|]. split; [exact H2|].
  unfold boot. by destruct (bring_up p BOOT_ATTEMPTS) as [d []].
Qed.
End Laws.

(** ** Witness: a controller that comes up at its third reset *)
Module Pn532Bench.
Record Controller := mkController { resets_left : nat; up : bool; listed : bool }.
#[global] Instance bench_device : Pn532Device Controller := {
  dev_init p := match resets_left p with
                | O => (mkController 0 true false, Ok tt)
                | S n => (mkController n false false, Err TCommunication)
                end;
  detect_card p := (mkController (resets_left p) (up p) (up p), up p);
  is_initialized := up;
  card_present := listed;
  release_card p := mkController (resets_left p) (up p) false;
  exchange_apdu _ p := if listed p then (p, Ok [0x90; 0x00]) else (p, Err TNoCard)
}.
#[global] Instance bench_device_laws : Pn532DeviceLaws Controller.
Proof. constructor. intros cmd p reply. cbn. destruct (listed p); intros [= <-]. solve_bytes. Qed.
Definition off : Controller := mkController 2 false false.
End Pn532Bench.

Lemma status_read_ok : Forall read_ok [UartDemo.read [] (frame_of SerialDemo.status); Idle 5].
Proof.
  refine (Forall_cons_2 _ _ _ _ (Forall_cons_2 _ _ _ _ (Forall_nil_2 _))).
  - apply demo_read_ok; [solve_bytes|constructor].
  - unfold read_ok, u32. lia.
Qed.

Example pn532_reader_serves_witness :
  Retry.degraded (boot Pn532Bench.off) = false /\
  exists s b events, reader Pn532Bench.off [] 300 100 0 [UartDemo.read [] (frame_of SerialDemo.status); Idle 5] =
    Ret (s, b, events, false) /\ server_ok s b.
Proof.
  split; [vm_compute; reflexivity|].
  destruct (pn532_reader_serves Pn532Bench.off [] 300 100 0 _ status_read_ok)
    as (s & b & events & reset & H1 & H2 & _).
  assert (match reader Pn532Bench.off [] 300 100 0 [UartDemo.read [] (frame_of SerialDemo.status); Idle 5] with
    Ret (_, _, _, reset) => reset | Panic => true end = false) as Hv by (vm_compute; reflexivity).
  rewrite H1 in Hv. subst reset. exists s, b, events. split; [exact H1|exact H2].
Defined.
