(* ===== verification/BusRecovery.v ===== *)
(** * Freeing a stuck I2C bus

    [mfrc522-pcd/src/bus_recovery.rs]: the clocking out of a device that holds
    SDA low, run on the raw pins before the bus driver owns them.  The pins are
    the class argument; what the procedure promises follows its definition. *)
From Stdlib Require Import ZArith Lia ZifyBool.
From stdpp Require Import prelude.
From S2P Require Import Prelude.
Local Open Scope Z_scope.

Module Recovery.

Definition GPIO_MODE_INPUT : Z := 1.
Definition GPIO_MODE_OUTPUT : Z := 2.
Definition MAX_CLOCKS : nat := 32.
Definition HALF_PERIOD_US : Z := 10.

(** The pins: configuration (a mode and the pull-up, [true] for success), the
    level read and driven, the busy wait, and the reset of a pin. *)
Class Gpio (B : Type) := {
  gpio_config : B -> Z -> Z -> bool -> B * bool;
  gpio_read : B -> Z -> B * bool;
  gpio_drive : B -> Z -> bool -> B;
  rom_delay_us : B -> Z -> B;
  gpio_reset_pin : B -> Z -> B
}.

Inductive BusRecovery :=
| AlreadyIdle
| Recovered (clocks : nat)
| StillStuck.

Section Recovery.
Context {B : Type} `{!Gpio B}.
Implicit Types b : B.

Definition pin_as b (pin mode : Z) (pull_up : bool) : B * bool := gpio_config b pin mode pull_up.

(** One level on the clock line for half a period. *)
Definition hold b (pin : Z) (high : bool) : B :=
  rom_delay_us (gpio_drive b pin high) HALF_PERIOD_US.

(** The clocks, from [clocks] on; [n] are left. *)
Fixpoint clock_out (scl sda : Z) (n clocks : nat) b : B * nat :=
  match n with
  | O => (b, clocks)
  | S n =>
      let '(b, high) := gpio_read (hold b scl true) sda in
      if high then (b, S clocks) else clock_out scl sda n (S clocks) (hold b scl false)
  end.

Definition stop_condition (scl sda : Z) b : B * bool :=
  let '(b, ok) := pin_as b sda GPIO_MODE_OUTPUT true in
  if negb ok then (b, false)
  else
    let b := hold (hold (hold (hold b scl false) sda false) scl true) sda true in
    let '(b, sda_high) := gpio_read b sda in
    if negb sda_high then (b, false) else gpio_read b scl.

Definition recover_i2c_bus (scl sda : Z) b : B * BusRecovery :=
  let '(b, ok) := pin_as b sda GPIO_MODE_INPUT true in
  if negb ok then (b, StillStuck)
  else
    let '(b, high) := gpio_read b sda in
    if high then (gpio_reset_pin b sda, AlreadyIdle)
    else
      let '(b, ok) := pin_as b scl GPIO_MODE_OUTPUT true in
      if negb ok then (gpio_reset_pin b sda, StillStuck)
      else
        let '(b, clocks) := clock_out scl sda MAX_CLOCKS 0 b in
        let '(b, released) := gpio_read b sda in
        let '(b, stopped) := if released : bool then stop_condition scl sda b else (b, false) in
        (gpio_reset_pin (gpio_reset_pin b scl) sda,
         if stopped : bool then Recovered clocks else StillStuck).
End Recovery.

(** ** What it does to the pins *)
Inductive pin_event :=
| Config (pin mode : Z) (pull_up ok : bool)
| Read (pin : Z) (high : bool)
| Drive (pin : Z) (high : bool)
| Delay (us : Z)
| Reset (pin : Z).

Section Facts.
Context {B : Type} `{!Gpio B}.
Implicit Types b : B.

Definition pin_step b (e : pin_event) b' : Prop :=
  match e with
  | Config pin mode pull_up ok => gpio_config b pin mode pull_up = (b', ok)
  | Read pin high => gpio_read b pin = (b', high)
  | Drive pin high => b' = gpio_drive b pin high
  | Delay us => b' = rom_delay_us b us
  | Reset pin => b' = gpio_reset_pin b pin
  end.
Definition pins : B -> list pin_event -> B -> Prop := trace pin_step.

Definition half (pin : Z) (high : bool) : list pin_event := [Drive pin high; Delay HALF_PERIOD_US].
(** A clock that finds SDA still low, and the last one. *)
Definition futile (scl sda : Z) : list pin_event :=
  half scl true ++ Read sda false :: half scl false.
Definition freeing (scl sda : Z) : list pin_event := half scl true ++ [Read sda true].
(** STOP: the clock low, the data low, the clock high, then the data high. *)
Definition stop_pulses (scl sda : Z) : list pin_event :=
  half scl false ++ half sda false ++ half scl true ++ half sda true.

Lemma half_step b pin high : pins b (half pin high) (hold b pin high).
Proof. eapply trace_cons; [done|]. eapply trace_cons; [done|constructor]. Qed.
Lemma one_step b e b' : pin_step b e b' -> pins b [e] b'.
Proof. intros. eapply trace_cons; [done|constructor]. Qed.

Lemma clock_out_spec scl sda n clocks b :
  exists k tr, pins b (concat (replicate k (futile scl sda)) ++ tr) (clock_out scl sda n clocks b).1 /\
    ((k < n)%nat /\ tr = freeing scl sda /\ (clock_out scl sda n clocks b).2 = (clocks + S k)%nat \/
     k = n /\ tr = [] /\ (clock_out scl sda n clocks b).2 = (clocks + n)%nat).
Proof.
  revert clocks b. induction n as [|n IH]; intros clocks b; cbn [clock_out].
  { exists O, []. split; [constructor|]. right. cbn. split_and!; lia || done. }
  destruct (gpio_read (hold b scl true) sda) as [b1 []] eqn:E.
  - exists O, (freeing scl sda). split.
    + cbn [replicate concat app]. unfold freeing. eapply trace_app; [apply half_step|by apply one_step].
    + left. cbn. split_and!; lia || done.
  - destruct (IH (S clocks) (hold b1 scl false)) as (k & tr & H1 & H2).
    exists (S k), tr. split.
    + change (concat (replicate (S k) (futile scl sda))) with
        (futile scl sda ++ concat (replicate k (futile scl sda))).
      rewrite <- app_assoc. eapply trace_app; [|exact H1]. unfold futile.
      eapply trace_app; [apply half_step|]. econstructor; [exact E|apply half_step].
    + destruct H2 as [(? & ? & ->)|(? & ? & ->)]; [left|right]; split_and!; lia || done.
Qed.

Lemma stop_spec scl sda b : pins b (stop_pulses scl sda)
  (hold (hold (hold (hold b scl false) sda false) scl true) sda true).
Proof. repeat (eapply trace_app; [apply half_step|]). apply half_step. Qed.

(** Freeing a stuck bus.  The procedure ends after at most thirty-two
    clocks.  It leaves a bus whose SDA is high as it is, without driving a pin.
    It reports [Recovered] with the number of clocks only if SDA was low at
    first, was found low at each clock but the last and high at the last, and
    both lines were high after the STOP condition; SDA is driven for the STOP
    only.  When all the clocks are used up, SDA reading high just after them
    still counts.  Both pins are given back, except that SDA stays configured as
    an input when that configuration failed, and the clock pin is not reset when
    its own failed. *)
Theorem bus_recovery scl sda b :
  let '(b', r) := recover_i2c_bus scl sda b in
  exists tr, pins b tr b' /\
  match r with
  | AlreadyIdle =>
      tr = [Config sda GPIO_MODE_INPUT true true; Read sda true; Reset sda]
  | Recovered clocks =>
      (1 <= clocks <= 32)%nat /\ exists last,
        (last = concat (replicate (clocks - 1) (futile scl sda)) ++ freeing scl sda \/
         clocks = 32%nat /\ last = concat (replicate 32 (futile scl sda))) /\
        tr = [Config sda GPIO_MODE_INPUT true true; Read sda false;
              Config scl GPIO_MODE_OUTPUT true true] ++ last ++
             Read sda true :: Config sda GPIO_MODE_OUTPUT true true :: stop_pulses scl sda ++
             [Read sda true; Read scl true; Reset scl; Reset sda]
  | StillStuck =>
      tr = [Config sda GPIO_MODE_INPUT true false] \/
      tr = [Config sda GPIO_MODE_INPUT true true; Read sda false;
            Config scl GPIO_MODE_OUTPUT true false; Reset sda] \/
      exists tr0, tr = tr0 ++ [Reset scl; Reset sda]
  end.
Proof.
  unfold recover_i2c_bus, pin_as. destruct (gpio_config b sda _ _) as [b1 []] eqn:E1; cbn [negb]; cycle 1.
  { eexists. split; [|left; reflexivity]. by apply one_step. }
  destruct (gpio_read b1 sda) as [b2 []] eqn:E2.
  { eexists. split; [|reflexivity]. econstructor; [exact E1|]. econstructor; [exact E2|].
    by apply one_step. }
  destruct (gpio_config b2 scl _ _) as [b3 []] eqn:E3; cbn [negb]; cycle 1.
  { eexists. split; [|right; left; reflexivity]. econstructor; [exact E1|].
    econstructor; [exact E2|]. econstructor; [exact E3|]. by apply one_step. }
  destruct (clock_out_spec scl sda MAX_CLOCKS 0 b3) as (k & tr & L & Hk).
  destruct (clock_out scl sda MAX_CLOCKS 0 b3) as [b4 clocks]. cbn [fst snd] in *.
  set (last := _ ++ tr) in *.
  assert (pins b ([Config sda GPIO_MODE_INPUT true true; Read sda false;
    Config scl GPIO_MODE_OUTPUT true true] ++ last) b4) as L4.
  { econstructor; [exact E1|]. econstructor; [exact E2|]. by econstructor; [exact E3|]. }
  assert (forall t b5, pins b4 t b5 -> pins b (([Config sda GPIO_MODE_INPUT true true; Read sda false;
    Config scl GPIO_MODE_OUTPUT true true] ++ last ++ t) ++ [Reset scl; Reset sda])
    (gpio_reset_pin (gpio_reset_pin b5 scl) sda)) as Hend.
  { intros t b5 L5. eapply trace_app; [rewrite app_assoc; eapply trace_app; [exact L4|exact L5]|].
    econstructor; [done|]. by apply one_step. }
  destruct (gpio_read b4 sda) as [b5 []] eqn:E5; cycle 1.
  { eexists. split; [apply (Hend [Read sda false]); by apply one_step|]. right. right. by eexists. }
  unfold stop_condition, pin_as. destruct (gpio_config b5 sda _ _) as [b6 []] eqn:E6; cbn [negb]; cycle 1.
  { eexists. split; [apply (Hend [Read sda true; Config sda GPIO_MODE_OUTPUT true false]);
      econstructor; [exact E5|by apply one_step]|]. right. right. by eexists. }
  pose proof (stop_spec scl sda b6) as L6. set (b7 := hold _ _ _) in *.
  destruct (gpio_read b7 sda) as [b8 []] eqn:E8; cbn [negb]; cycle 1.
  { eexists. split; [apply (Hend (Read sda true :: Config sda GPIO_MODE_OUTPUT true true ::
      stop_pulses scl sda ++ [Read sda false]))|right; right; by eexists].
    econstructor; [exact E5|]. econstructor; [exact E6|]. eapply trace_app; [exact L6|by apply one_step]. }
  destruct (gpio_read b8 scl) as [b9 high] eqn:E9.
  assert (pins b4 (Read sda true :: Config sda GPIO_MODE_OUTPUT true true ::
    stop_pulses scl sda ++ [Read sda true; Read scl high]) b9) as L9.
  { econstructor; [exact E5|]. econstructor; [exact E6|]. eapply trace_app; [exact L6|].
    econstructor; [exact E8|by apply one_step]. }
  eexists. split; [apply (Hend _ _ L9)|]. destruct high; [|right; right; by eexists].
  split; [unfold MAX_CLOCKS in Hk; lia|]. exists last. split; [|by rewrite <- !app_assoc].
  unfold last. destruct Hk as [(Hk & -> & ->)|(-> & -> & ->)].
  - left. by replace (0 + S k - 1)%nat with k by lia.
  - right. by rewrite app_nil_r.
Qed.
End Facts.
End Recovery.
