(* ===== verification/Pn7160Nfc.v ===== *)
(** * The PN7160 front end

    [firmware/esp32-ccid/src/pn7160_driver.rs]: the controller's driver of
    [NciDriver.v] behind the front-end traits, over any link.  A panic of the
    driver aborts the firmware; [Aborted] is the state in which nothing runs any
    more.  Module [Wifi] is the board: the construction of [board_ctor.rs]
    (module [pn7160] there), the recovery of a mute controller that
    [wifi_ccid.rs] gives the TCP session as its hook, and the [run] of that file:
    the bring-up, the bridge with its writer registered, and the clients one
    after the other.  The network bring-up and the accepting socket are left
    out.  The theorems are in [Pn7160NfcSpec.v]. *)
From Stdlib Require Import ZArith Lia ZifyBool.
From stdpp Require Import prelude strings.
From S2P Require Import Prelude CardInterface EspHandler Frontend Nci NciDriver NciLink BusRecovery SerialServer TcpServer.
Local Open Scope Z_scope.

Module Pn7160Nfc.

Inductive NfcError :=
| BringUp (s : string)
| Select (s : string)
| NoCard
| ExchangeFailed
| BufferTooSmall.

(** [From<CoreError>]. *)
Definition from_core (e : Pn7160.Error) : NfcError :=
  match e with
  | Pn7160.BringUp s => BringUp s
  | Pn7160.Select s => Select s
  | Pn7160.NoCard => NoCard
  | Pn7160.ExchangeFailed => ExchangeFailed
  | Pn7160.BufferTooSmall => BufferTooSmall
  end.
Definition map_core {A} (r : result A Pn7160.Error) : result A NfcError :=
  match r with Ok a => Ok a | Err e => Err (from_core e) end.

Inductive Pn7160NfcDriver (T : Type) :=
| Running (inner : Pn7160.Pn7160Driver T)
| Aborted.
Arguments Running {T} inner.
Arguments Aborted {T}.

Section Driver.
Context {T : Type} `{!Nci.Transport T}.
Implicit Types (p : Pn7160NfcDriver T) (d : Pn7160.Pn7160Driver T).

(** A call on the inner driver; [lost] stands for the answer that never
    comes. *)
Definition on_inner {A} (f : Pn7160.Pn7160Driver T -> outcome (Pn7160.Pn7160Driver T * A)) (lost : A)
    p : Pn7160NfcDriver T * A :=
  match p with
  | Aborted => (Aborted, lost)
  | Running d =>
      match f d with
      | Ret (d, a) => (Running d, a)
      | Panic => (Aborted, lost)
      end
  end.
Definition changes (f : Pn7160.Pn7160Driver T -> outcome (Pn7160.Pn7160Driver T)) p : Pn7160NfcDriver T :=
  (on_inner (fun d => d ← f d; Ret (d, tt)) tt p).1.
Definition reads {A} (f : Pn7160.Pn7160Driver T -> A) (lost : A) p : A :=
  match p with Running d => f d | Aborted => lost end.

Definition new (t : T) : Pn7160NfcDriver T := Running (Pn7160.new t).
Definition from_driver d : Pn7160NfcDriver T := Running d.
Definition bring_up (t : T) (attempts : nat) (recover : T -> T) : Pn7160NfcDriver T * bool :=
  let '(d, ok) := Pn7160.bring_up t attempts recover in (Running d, ok).
Definition silent_rearm_streak : Pn7160NfcDriver T -> Z := reads Pn7160.silent_rearm_streak 0.
Definition set_stall_hook (hook : bool) : Pn7160NfcDriver T -> Pn7160NfcDriver T :=
  changes (fun d => Ret (Pn7160.set_stall_hook hook d)).
(** What is done to the link through [transport_mut]. *)
Definition with_link (f : T -> T) : Pn7160NfcDriver T -> Pn7160NfcDriver T :=
  changes (fun d => Ret (Pn7160.with_transport (f (Pn7160.transport d)) d)).
Definition into_transport : Pn7160NfcDriver T -> option T :=
  reads (fun d => Some (Pn7160.transport d)) None.

Definition init : Pn7160NfcDriver T -> Pn7160NfcDriver T * result unit NfcError :=
  on_inner (fun d => let '(d, r) := Pn7160.init d in Ret (d, map_core r)) (Err NoCard).

Definition is_card_present : Pn7160NfcDriver T -> Pn7160NfcDriver T * bool :=
  on_inner Pn7160.is_card_present false.

Definition power_on p (buf : list Z) : filled (Pn7160NfcDriver T) NfcError :=
  let '(p, (buf, r)) :=
    on_inner (fun d => x ← Pn7160.power_on buf d;
                let '(d, buf, r) := x in Ret (d, (buf, map_core r))) (buf, Err NoCard) p in
  (p, buf, r).

Definition transmit_apdu p (command buf : list Z) : filled (Pn7160NfcDriver T) NfcError :=
  let '(p, (buf, r)) :=
    on_inner (fun d => x ← Pn7160.transmit_apdu command buf d;
                let '(d, buf, r, _) := x in Ret (d, (buf, map_core r))) (buf, Err NoCard) p in
  (p, buf, r).

#[global] Instance pn7160_nfc : NfcDriver (Pn7160NfcDriver T) NfcError := {
  nfc_is_card_present := is_card_present;
  nfc_poll_card_presence := is_card_present;
  nfc_session_active := reads Pn7160.session_active false;
  nfc_power_on := power_on;
  nfc_power_off := changes (fun d => Ret (Pn7160.power_off d));
  nfc_transmit_apdu := transmit_apdu;
  (* the trait's defaults *)
  nfc_card_uid _ := None;
  nfc_reinit_count _ := 0;
  nfc_exchange_decomposition :=
    reads (fun d => Some (0, (Pn7160.wtx_counters d).1, 0,
             wrap32 (wrap32 (Pn7160.last_data_arrival_ms d) * 1000))) None
}.

#[global] Instance pn7160_probes : NfcProbes (Pn7160NfcDriver T) := {
  wtx_counters := reads (fun d => Some (Pn7160.wtx_counters d)) None;
  (* the trait's defaults *)
  timer_registers p := (p, None);
  i2c_timing_probe p _ := (p, None);
  configured_fwt_ms _ := 0
}.

#[global] Instance pn7160_service : NfcService (Pn7160NfcDriver T) NfcError := {
  nfc_init := init;
  (* the trait's default *)
  nfc_init_recovering := init;
  nfc_poll_maintenance p now_ms := changes (Pn7160.poll_maintenance now_ms) p;
  nfc_presence_poll_detects_removal _ := true
}.

#[global] Instance pn7160_diagnostics : FrontendDiagnostics (Pn7160NfcDriver T) := {
  frontend_status _ := mkStatus Healthy FNone 0 0 0 0;
  frontend_self_test :=
    on_inner (fun d =>
      let '(t, alive) := Nci.link_probe (Pn7160.transport d) in
      Ret (Pn7160.with_transport t d, if alive : bool then Ok tt else Err FBus)) (Err FBus)
}.
End Driver.

End Pn7160Nfc.

(** ** The board *)
Module Wifi.
Import Pn7160Nfc.

Definition I2C_MUTE_THRESHOLD : Z := 3.
Definition INIT_ATTEMPTS : nat := 5.

Section Wifi.
Context {B : Type} `{!Recovery.Gpio B, !Esp.Idf B, !Esp.Controller B}.

Definition EspPn7160NfcDriver : Type := Pn7160NfcDriver (Esp.EspPn7160Transport B).
Implicit Types drv : EspPn7160NfcDriver.

(** Between two attempts: the power cycle, then the probe at once. *)
Definition recover (t : Esp.EspPn7160Transport B) : Esp.EspPn7160Transport B :=
  (Esp.probe (Esp.ven_cycle t)).1.

(** [board_ctor::pn7160::bring_up]: the bus is freed first, a transport that
    cannot be made panics. *)
Definition bring_up (b : B) : outcome (EspPn7160NfcDriver * bool) :=
  let b := (Recovery.recover_i2c_bus (scl NUCULA) (sda NUCULA) b).1 in
  match (Esp.bringup_config_order b 0 NUCULA).1 with
  | Err _ => Panic
  | Ok t => Ret (Pn7160Nfc.bring_up t INIT_ATTEMPTS recover)
  end.

Definition streaks drv : Z * Z :=
  (reads (fun d => Esp.i2c_send_failure_streak (Pn7160.transport d)) 0 drv, silent_rearm_streak drv).

(** The hook of the session. *)
Definition mute_recovery drv : EspPn7160NfcDriver :=
  let '(send_streak, silent_streak) := streaks drv in
  if (I2C_MUTE_THRESHOLD <=? send_streak) || (I2C_MUTE_THRESHOLD <=? silent_streak) then
    let drv := changes (fun d => Ret (Pn7160.power_off d)) drv in
    let drv := with_link Esp.ven_cycle drv in
    (init drv).1
  else drv.

(** *** [run] *)
(** One accepted client: the tick its session starts at, then each read with the
    tick of the poll behind it. *)
Record Client := mkClient { accepted_at : Z; turns : list (Tcp.Read * Z) }.

Definition session_ticks (c : Client) : list (Tcp.Tick EspPn7160NfcDriver) :=
  map (fun r => Tcp.mkTick r.1 mute_recovery r.2) (turns c).

(** The accept loop: server and bridge outlive a session; a reset, or a session
    that has not ended yet, is the last. *)
Fixpoint serve_clients (cs : list Client) (s : CcidSerialServer EspPn7160NfcDriver)
    (b : TimeExtension.Bridge) :
    outcome (CcidSerialServer EspPn7160NfcDriver * TimeExtension.Bridge *
             list (list Tcp.WireEvent) * Tcp.Next) :=
  match cs with
  | [] => Ret (s, b, [], Tcp.GoOn)
  | c :: cs =>
      r ← Tcp.serve_session Tcp.IDLE_CLOSE_TICKS (accepted_at c) (session_ticks c) s b;
      let '(x, events, next) := r in
      match next with
      | Tcp.Ends _ =>
          r ← serve_clients cs (Tcp.server x) (Tcp.bridge x);
          let '(s, b, rest, next) := r in Ret (s, b, events :: rest, next)
      | _ => Ret (Tcp.server x, Tcp.bridge x, [events], next)
      end
  end.

Definition wifi_ccid (board : B) (clock : list Z) (poll_interval_ticks tick_hz now : Z)
    (cs : list Client) :=
  r ← bring_up board;
  let '(driver, _) := r in
  let b := TimeExtension.register_writer TimeExtension.boot in
  let driver := set_stall_hook true driver in
  serve_clients cs
    (SerialServer.new (EspHandler.new driver clock) poll_interval_ticks (from_tick_hz tick_hz) now) b.
End Wifi.
End Wifi.
