(* ===== verification/Pn7160NfcSpec.v ===== *)
(** * The PN7160 front end: theorems

    About [Pn7160Nfc.v]: over a link that delivers only readable frames the front
    end is a lawful driver that never aborts; the board's recovery hook; and the
    whole WiFi reader, from the pins to the TCP client. *)
From Stdlib Require Import ZArith Lia ZifyBool.
From stdpp Require Import prelude strings.
From S2P Require Import Prelude Diag CardInterface Handler HandlerFacts EspHandler EspSpec SerialFrame SerialServer SerialSpec TcpServer TcpSpec.
From S2P Require UartSpec.
From S2P Require Import Frontend FrontendSpec Nci NciSpec NciDriver NciDriverSpec NciReaderSpec NciLink NciLinkSpec BusRecovery Pn7160Nfc.
Local Open Scope Z_scope.
Import Pn7160Nfc.

(** ** A lawful driver *)
Section Laws.
Context {T : Type} {TR : Nci.Transport T} {RL : ReadableLink T}.
Implicit Types p : Pn7160NfcDriver T.

(** Running, with the inner driver well formed. *)
Definition running p : Prop := match p with Running d => driver_wf d | Aborted => False end.

Lemma on_inner_ok {A} (f : Pn7160.Pn7160Driver T -> outcome (Pn7160.Pn7160Driver T * A)) lost p
    (P : A -> Prop) :
  running p -> (forall d, driver_wf d -> exists d' a, f d = Ret (d', a) /\ driver_wf d' /\ P a) ->
  running (on_inner f lost p).1 /\ P (on_inner f lost p).2.
Proof.
  destruct p as [d|]; [|done]. intros Hd Hf. destruct (Hf d Hd) as (d' & a & E & H1 & H2).
  cbn [on_inner]. by rewrite E.
Qed.
Lemma changes_ok (f : Pn7160.Pn7160Driver T -> outcome (Pn7160.Pn7160Driver T)) p :
  running p -> (forall d, driver_wf d -> exists d', f d = Ret d' /\ driver_wf d') -> running (changes f p).
Proof.
  intros Hp Hf. unfold changes. apply (on_inner_ok _ tt p (fun _ => True) Hp).
  intros d Hd. destruct (Hf d Hd) as (d' & -> & H). by exists d', tt.
Qed.

Lemma init_running p : running p -> running (init p).1.
Proof.
  intros Hp. unfold init. apply (on_inner_ok _ _ p (fun _ => True) Hp).
  intros d Hd. pose proof (init_wf d Hd) as H. destruct (Pn7160.init d) as [d' r]. by exists d', (map_core r).
Qed.

Lemma power_on_buffer d buf r : driver_wf d -> activated buf d r ->
  length r.1.2 = length buf /\ (bytes buf -> bytes r.1.2) /\
  match r.2 with Ok n => (n <= length buf)%nat | Err _ => True end.
Proof.
  destruct r as [[d' buf'] [n|e]]; intros Hd (Hw & H); cbn [fst snd]; [|by destruct H as [_ ->]].
  destruct H as (_ & Hdrop & Hn & (ats & Hats & Ea) & Hl & _). split; [done|]. split; [|done].
  intros Hb. rewrite <- (take_drop n buf'). apply bytes_app. split; [|rewrite Hdrop; auto with bytes].
  exact (ats_to_atr_bytes ats _ Hats Ea).
Qed.

Lemma power_on_running p buf : running p -> fills running buf (power_on p buf).
Proof.
  intros Hp. unfold power_on.
  pose proof (on_inner_ok (fun d => x ← Pn7160.power_on buf d;
    let '(d, buf, r) := x in Ret (d, (buf, map_core r))) (buf, Err NoCard) p
    (fun a => length a.1 = length buf /\ (bytes buf -> bytes a.1) /\
       match a.2 with Ok n => (n <= length buf)%nat | Err _ => True end) Hp) as H.
  destruct H as [H1 H2].
  { intros d Hd. destruct (power_on_activates buf d Hd) as (r & E & Ha). rewrite E, bind_ret.
    pose proof (power_on_buffer d buf r Hd Ha) as Hr.
    destruct r as [[d' buf'] r]. destruct Ha as [Hw _]. exists d', (buf', map_core r). split; [done|]. split; [done|].
    by destruct r. }
  by destruct (on_inner _ _ p) as [p' [buf' r]].
Qed.

Lemma transmit_running p cmd buf : running p -> fills running buf (transmit_apdu p cmd buf).
Proof.
  intros Hp. unfold transmit_apdu.
  pose proof (on_inner_ok (fun d => x ← Pn7160.transmit_apdu cmd buf d;
    let '(d, buf, r, _) := x in Ret (d, (buf, map_core r))) (buf, Err NoCard) p
    (fun a => length a.1 = length buf /\ (bytes buf -> bytes a.1) /\
       match a.2 with Ok n => (n <= length buf)%nat | Err _ => True end) Hp) as H.
  destruct H as [H1 H2].
  { intros d Hd. destruct (transmit_wf cmd buf d Hd) as (d' & buf' & r & log & -> & H1 & H2 & H3 & H4).
    rewrite bind_ret. exists d', (buf', map_core r). split; [done|]. split; [done|]. by destruct r. }
  by destruct (on_inner _ _ p) as [p' [buf' r]].
Qed.

Lemma presence_running p : running p -> running (is_card_present p).1.
Proof.
  intros Hp. apply (on_inner_ok _ _ p (fun _ => True) Hp).
  intros d Hd. destruct (is_card_present_wf d Hd) as (d' & b & E & H). by exists d', b.
Qed.

#[export] Instance pn7160_laws : NfcDriverLaws (Pn7160NfcDriver T) NfcError.
Proof.
  refine {| nfc_ok := running |}.
  - intros p buf. apply power_on_running.
  - intros p cmd buf. apply transmit_running.
  - intros p Hp. apply changes_ok; [done|]. intros d Hd. eexists. split; [done|apply power_off_wf, Hd].
  - apply presence_running.
  - apply presence_running.
  - done.
  - intros p _. cbn. unfold u32. lia.
Defined.

#[export] Instance pn7160_service_laws : NfcServiceLaws (Pn7160NfcDriver T) NfcError.
Proof.
  constructor.
  - apply init_running.
  - apply init_running.
  - intros p now Hp. apply changes_ok; [done|]. intros d. apply poll_maintenance_wf.
Defined.

#[export] Instance pn7160_probes_laws : NfcProbesLaws (Pn7160NfcDriver T) NfcError.
Proof. by constructor. Defined.
End Laws.

(** ** Bring-up *)
Lemma new_driver_wf {T} `{!Nci.Transport T, !ReadableLink T} (t : T) : link_ok t -> driver_wf (Pn7160.new t).
Proof. intros Ht. split; [done|split; [done|cbn; solve_bytes]|cbn; lia|done|done]. Qed.

Lemma bring_up_wf {T} `{!Nci.Transport T, !ReadableLink T} (t : T) n recover :
  link_ok t -> (forall t, link_ok t -> link_ok (recover t)) -> running (bring_up t n recover).1.
Proof.
  intros Ht Hr. unfold bring_up, Pn7160.bring_up. generalize (Nat.max n 1) as k. clear n.
  intros k. revert t Ht. induction k as [|k IH]; intros t Ht; cbn [Pn7160.bring_up_rounds].
  { by apply new_driver_wf. }
  pose proof (init_wf _ (new_driver_wf t Ht)) as H1. destruct (Pn7160.init _) as [d [u|e]]; [done|].
  apply IH, Hr, (wf_link d H1).
Qed.

(** ** The board *)
Class PoliteBoard (B : Type) `{!Recovery.Gpio B, !Esp.Idf B, !Esp.Controller B} := {
  board_ok : B -> Prop;
  pb_wire : polite (esp_wire NUCULA) board_ok;
  pb_idf b c : board_ok b -> board_ok (Esp.idf b c).1;
  pb_config b pin mode pull : board_ok b -> board_ok (Recovery.gpio_config b pin mode pull).1;
  pb_read b pin : board_ok b -> board_ok (Recovery.gpio_read b pin).1;
  pb_drive b pin high : board_ok b -> board_ok (Recovery.gpio_drive b pin high);
  pb_delay b us : board_ok b -> board_ok (Recovery.rom_delay_us b us);
  pb_reset b pin : board_ok b -> board_ok (Recovery.gpio_reset_pin b pin)
}.

Section Board.
Context {B : Type} {GP : Recovery.Gpio B} {ID : Esp.Idf B} {CO : Esp.Controller B} {PB : PoliteBoard B}.
Implicit Types (b : B) (t : Esp.EspPn7160Transport B).

#[export] Instance board_readable : ReadableLink (Esp.EspPn7160Transport B) :=
  link_readable (esp_wire NUCULA) board_ok (esp_inv NUCULA) esp_abs (esp_mirrors NUCULA) pb_wire.

Lemma hw_link_ok b t : link_ok t -> board_ok b -> link_ok (Esp.with_hw b t).
Proof.
  intros [[H1 [q H2]] [H4 H5]] Hb. split; [split; [done|by exists q; apply ring_hw]|].
  by split.
Qed.
Lemma link_hw t : link_ok t -> board_ok (Esp.hw t).
Proof. by intros [_ [H _]]. Qed.

Lemma level_link_ok t v : link_ok t -> link_ok (Esp.level t v).
Proof. intros Ht. apply hw_link_ok; [done|]. by apply pb_idf, link_hw. Qed.
Lemma pause_link_ok t ms : 0 <= ms <= u32_max -> link_ok t -> link_ok (Esp.pause t ms).
Proof.
  intros Hm Ht. apply hw_link_ok; [done|].
  pose proof (po_wait _ _ pb_wire (Esp.hw t) ms (link_hw t Ht)) as H. cbn [w_wait esp_wire] in H.
  unfold wrap32, u32_max in *. by rewrite Z.mod_small in H by lia.
Qed.
Lemma ven_cycle_link_ok t : link_ok t -> link_ok (Esp.ven_cycle t).
Proof.
  intros Ht. unfold Esp.ven_cycle. repeat (apply pause_link_ok; [unfold u32_max; lia|];
    apply level_link_ok). done.
Qed.
Lemma probe_link_ok t : link_ok t -> link_ok (Esp.probe t).1.
Proof.
  intros Ht. assert (Esp.board t = NUCULA) as Hb by apply Ht.
  unfold Esp.probe, Esp.probe_addr. rewrite Hb.
  pose proof (po_probe _ _ pb_wire (Esp.hw t) (link_hw t Ht)) as H. cbn [w_probe esp_wire] in H.
  destruct (Esp.master_probe _ _ _) as [b rc]. by apply hw_link_ok.
Qed.
Lemma recover_link_ok t : link_ok t -> link_ok (Wifi.recover t).
Proof. intros Ht. by apply probe_link_ok, ven_cycle_link_ok. Qed.

(** *** Construction *)
Lemma hold_board_ok b pin high : board_ok b -> board_ok (Recovery.hold b pin high).
Proof. intros Hb. by apply pb_delay, pb_drive. Qed.

Lemma clock_out_board_ok scl sda n k b : board_ok b -> board_ok (Recovery.clock_out scl sda n k b).1.
Proof.
  revert k b. induction n as [|n IH]; intros k b Hb; [done|]. cbn [Recovery.clock_out].
  pose proof (pb_read _ sda (hold_board_ok b scl true Hb)) as H.
  destruct (Recovery.gpio_read _ sda) as [b1 []]; [done|]. by apply IH, hold_board_ok.
Qed.

Lemma stop_board_ok scl sda b : board_ok b -> board_ok (Recovery.stop_condition scl sda b).1.
Proof.
  intros Hb. unfold Recovery.stop_condition, Recovery.pin_as.
  pose proof (pb_config b sda Recovery.GPIO_MODE_OUTPUT true Hb) as H1.
  destruct (Recovery.gpio_config _ _ _ _) as [b1 []]; [|done]. cbn [negb fst] in *.
  set (b2 := Recovery.hold _ _ _).
  assert (board_ok b2) as H2 by (repeat apply hold_board_ok; done).
  pose proof (pb_read b2 sda H2) as H3. destruct (Recovery.gpio_read b2 sda) as [b3 []]; [|done].
  by apply pb_read.
Qed.

Lemma recover_board_ok scl sda b : board_ok b -> board_ok (Recovery.recover_i2c_bus scl sda b).1.
Proof.
  intros Hb. unfold Recovery.recover_i2c_bus, Recovery.pin_as.
  pose proof (pb_config b sda Recovery.GPIO_MODE_INPUT true Hb) as H1.
  destruct (Recovery.gpio_config b _ _ _) as [b1 []]; [|done]. cbn [negb fst] in *.
  pose proof (pb_read b1 sda H1) as H2.
  destruct (Recovery.gpio_read b1 sda) as [b2 []]; [by apply pb_reset|]. cbn [fst] in *.
  pose proof (pb_config b2 scl Recovery.GPIO_MODE_OUTPUT true H2) as H3.
  destruct (Recovery.gpio_config b2 _ _ _) as [b3 []]; [|by apply pb_reset]. cbn [negb fst] in *.
  pose proof (clock_out_board_ok scl sda Recovery.MAX_CLOCKS 0 b3 H3) as H4.
  destruct (Recovery.clock_out _ _ _ _ b3) as [b4 k]. cbn [fst] in H4.
  pose proof (pb_read b4 sda H4) as H5.
  destruct (Recovery.gpio_read b4 sda) as [b5 []]; cbn [fst] in H5.
  - pose proof (stop_board_ok scl sda b5 H5) as H6.
    destruct (Recovery.stop_condition scl sda b5). by apply pb_reset, pb_reset.
  - by apply pb_reset, pb_reset.
Qed.

Lemma fresh_link_ok b rc1 rc2 n :
  board_ok b -> link_ok (Esp.mkEsp b false NUCULA (replicate Esp.NTF_SLOTS None) 0 0 6 rc1 rc2 n).
Proof.
  intros Hb. split; [|by split]. split; [done|].
  exists []. split; [done|by apply Nat.ltb_lt|by apply Nat.leb_le|done].
Qed.

Lemma config_order_link_ok b n : board_ok b ->
  match (Esp.bringup_config_order b n NUCULA).1 with Ok t => link_ok t | Err _ => True end.
Proof.
  intros Hb. unfold Esp.bringup_config_order, Esp.with_peripherals, Esp.from_peripherals.
  pose proof (pb_idf b (Esp.NewMasterBus 0 (sda NUCULA) (scl NUCULA) 7) Hb) as H0.
  destruct (Esp.idf b (Esp.NewMasterBus _ _ _ _)) as [b0 rc]. cbn [fst] in H0.
  destruct (negb (rc =? 0)); [done|].
  apply (pb_idf _ (Esp.ConfigInputHighLevel (irq NUCULA))) in H0.
  apply (pb_idf _ Esp.InstallIsrService) in H0.
  destruct (Esp.idf _ Esp.InstallIsrService) as [b1 rc1]. cbn [fst] in H0.
  apply (pb_idf _ (Esp.IsrHandlerAdd (irq NUCULA))) in H0.
  destruct (Esp.idf _ (Esp.IsrHandlerAdd _)) as [b2 rc2]. cbn [fst] in H0.
  apply (pb_idf _ (Esp.IntrDisable (irq NUCULA))), (pb_idf _ (Esp.ConfigOutput (ven NUCULA))) in H0.
  set (t := Esp.mkEsp _ _ _ _ _ _ _ _ _ _).
  assert (link_ok (Esp.probe (Esp.ven_cycle t)).1) as Ht
    by (apply probe_link_ok, ven_cycle_link_ok, fresh_link_ok, H0).
  set (t1 := (Esp.probe _).1) in *. clearbody t1. unfold Esp.finish, Esp.add_pn_device.
  destruct (Esp.dev t1); [done|].
  pose proof (pb_idf _ (Esp.AddDevice (addr (Esp.board t1)) 100000) (link_hw t1 Ht)) as H1.
  destruct (Esp.idf _ (Esp.AddDevice _ _)) as [b3 rc3]. cbn [fst] in H1.
  destruct (rc3 =? 0); [|done]. cbn [fst].
  pose proof (hw_link_ok b3 t1 Ht H1) as [[E [q [Q1 Q2 Q3 Q4]]] S].
  split; [split; [exact E|exists q; by split]|exact S].
Qed.

Lemma board_bring_up_ok b : board_ok b ->
  match Wifi.bring_up b with
  | Ret (drv, _) => running drv
  | Panic => exists rc, (Esp.bringup_config_order
      (Recovery.recover_i2c_bus (scl NUCULA) (sda NUCULA) b).1 0 NUCULA).1 = Err rc
  end.
Proof.
  intros Hb. unfold Wifi.bring_up.
  pose proof (config_order_link_ok _ 0 (recover_board_ok (scl NUCULA) (sda NUCULA) b Hb)) as H.
  destruct (Esp.bringup_config_order _ _ _) as [[t|rc] b']; cbn [fst] in *; [|by exists rc].
  pose proof (bring_up_wf t Wifi.INIT_ATTEMPTS Wifi.recover H recover_link_ok) as H1.
  by destruct (bring_up t _ _).
Qed.

(** *** The hook *)
Lemma mute_recovery_ok drv : running drv -> running (Wifi.mute_recovery drv).
Proof.
  intros Hd. unfold Wifi.mute_recovery, Wifi.streaks. destruct (_ || _); [|done].
  apply init_running. unfold with_link. apply changes_ok.
  - apply changes_ok; [done|]. intros d H. eexists. split; [done|apply power_off_wf, H].
  - intros d H. eexists. split; [done|]. apply wf_set_link; [done|].
    apply ven_cycle_link_ok, (wf_link d H).
Qed.
End Board.

(** ** The WiFi reader *)
Section Clients.
Context {B : Type} {GP : Recovery.Gpio B} {ID : Esp.Idf B} {CO : Esp.Controller B} {PB : PoliteBoard B}.

(** What the environment may do in a session. *)
Definition client_ok (c : Wifi.Client) : Prop :=
  Forall (fun r => read_ok r.1 /\ u32 r.2) (Wifi.turns c).

(** The logs of the clients in turn, each from the arrival of its client and from
    what the one before has left of the ear. *)
Inductive clients_log (ws : ResponseWindows) :
    Ear -> list Wifi.Client -> list (list Tcp.WireEvent) -> Ear -> bool -> Prop :=
| clients_none e : clients_log ws e [] [] e false
| clients_next e c used rest said e1 cs logs e' reset :
    Wifi.session_ticks (B := B) c = used ++ rest ->
    session_log ws e (Wifi.accepted_at c) used said e1 false ->
    clients_log ws e1 cs logs e' reset -> clients_log ws e (c :: cs) (said :: logs) e' reset
| clients_last e c used rest said e' cs reset :
    Wifi.session_ticks (B := B) c = used ++ rest ->
    session_log ws e (Wifi.accepted_at c) used said e' reset ->
    clients_log ws e (c :: cs) [said] e' reset.

Lemma session_ticks_ok c : client_ok c -> Forall tick_ok (Wifi.session_ticks (B := B) c).
Proof.
  intros H. apply Forall_map. eapply Forall_impl; [exact H|]. intros r [Hr Hp].
  split; [done|]. split; [done|]. intros d. apply mute_recovery_ok.
Qed.

Lemma serve_clients_spec cs (s : CcidSerialServer (Wifi.EspPn7160NfcDriver (B := B))) b :
  server_ok s b -> Forall client_ok cs ->
  exists s' b' logs next, Wifi.serve_clients cs s b = Ret (s', b', logs, next) /\
    server_ok s' b' /\ clients_log (windows s) (ear s) cs logs (ear s') (resets next).
Proof.
  intros Hs Hcs. revert s b Hs. induction Hcs as [|c cs Hc _ IH]; intros s b Hs.
  { exists s, b, [], Tcp.GoOn. split; [done|]. split; [done|]. constructor. }
  cbn [Wifi.serve_clients].
  destruct (serve_spec Tcp.IDLE_CLOSE_TICKS (Wifi.session_ticks c)
    (Tcp.mkSession s b (Wifi.accepted_at c) 0) 0)
    as (x & events & next & used & rest & E & Hu & H1 & Hw & Hl & _);
    [unfold Tcp.IDLE_CLOSE_TICKS, u32_max; lia|exact Hs|by apply session_ticks_ok|done|done|].
  unfold Tcp.serve_session. rewrite E, bind_ret. cbn [Tcp.server Tcp.arrival_floor] in *.
  destruct next as [|e|].
  - exists (Tcp.server x), (Tcp.bridge x), [events], Tcp.GoOn. split; [done|]. split; [done|].
    by eapply clients_last.
  - destruct (IH _ _ H1) as (s' & b' & logs & next & -> & H2 & H3). rewrite bind_ret.
    exists s', b', (events :: logs), next. split; [done|]. split; [done|].
    rewrite Hw in H3. by eapply clients_next.
  - exists (Tcp.server x), (Tcp.bridge x), [events], Tcp.Resets. split; [done|]. split; [done|].
    by eapply clients_last.
Qed.
End Clients.

(** C18: the WiFi reader, from the pins to its clients.  On a board whose
    controller runs out of notifications and whose ticks pass ([Esp.Controller])
    and which sends only frames the reader can take ([PoliteBoard]), whatever
    else controller, bus, cards and clients do: the firmware stops at boot
    because the bus or the device could not be added, or it boots -- the ladder
    answered or not -- and serves its clients one after the other within the
    invariant of the whole stack, the recovery of a mute controller running at
    every tick.  Every session keeps to its log: a byte that completes a command
    starts the one exchange that serves it, answered in its window or not at
    all, and no other byte writes anything; what a session leaves of a frame or
    of an unanswered snapshot request goes over to the next.  Nothing panics but
    the reset the source raises itself, behind an answer delivered while a
    snapshot (escape 0xD1) is pending. *)
Theorem wifi_reader_serves {B} `{!Recovery.Gpio B, !Esp.Idf B, !Esp.Controller B, !PoliteBoard B}
    (board : B) clock poll hz now cs :
  board_ok board -> Forall client_ok cs ->
  match Wifi.wifi_ccid board clock poll hz now cs with
  | Panic => exists rc, (Esp.bringup_config_order
      (Recovery.recover_i2c_bus (scl NUCULA) (sda NUCULA) board).1 0 NUCULA).1 = Err rc
  | Ret (s, b, logs, next) =>
      server_ok s b /\
      clients_log (B := B) (UartSpec.uart_windows hz) (mkEar Parser.new now false) cs logs
        (ear s) (resets next) /\
      running (EspHandler.driver_of (handler s))
  end.
Proof.
  intros Hb Hcs. pose proof (board_bring_up_ok board Hb) as Hboot. unfold Wifi.wifi_ccid.
  destruct (Wifi.bring_up board) as [[drv up]|]; [|exact Hboot]. rewrite bind_ret.
  assert (running (set_stall_hook true drv)) as Hrun.
  { unfold set_stall_hook. apply changes_ok; [done|]. intros d []. by eexists. }
  destruct (serve_clients_spec cs
    (SerialServer.new (EspHandler.new (set_stall_hook true drv) clock) poll (from_tick_hz hz) now)
    (TimeExtension.register_writer TimeExtension.boot)) as (s & b & logs & next & -> & Hs1 & Hs2).
  { apply (set_bridge_ok _ TimeExtension.boot); [by apply server_new_ok, esp_new_ok|].
    split; [done|apply length_replicate]. }
  { done. }
  split; [done|]. split; [exact Hs2|]. exact (ok_driver _ (eo_core _ (so_handler _ _ Hs1))).
Qed.

(** ** What the recovery leaves *)
Section Streak.
Context {B : Type} {GP : Recovery.Gpio B} {ID : Esp.Idf B} {CO : Esp.Controller B}.
Implicit Types t : Esp.EspPn7160Transport B.

Lemma poll_fails t : Esp.i2c_send_failures (Esp.poll_frame t).1 = Esp.i2c_send_failures t.
Proof.
  unfold Esp.poll_frame, Esp.irq_raised. destruct (Esp.gpio_get_level _ _) as [b v].
  destruct (v =? 1); [|done]. unfold Esp.read_frame. repeat case_match; by simplify_eq.
Qed.
Lemma loop_fails fuel waited t : match Esp.transact_loop fuel waited t with
  | Some (t', _) => Esp.i2c_send_failures t' = Esp.i2c_send_failures t | None => True end.
Proof.
  revert waited t. induction fuel as [|fuel IH]; intros waited t; [done|]. cbn [Esp.transact_loop].
  destruct (Esp.irq_raised t) as [t1 raised] eqn:E1.
  assert (Esp.i2c_send_failures t1 = Esp.i2c_send_failures t) as H1.
  { revert E1. unfold Esp.irq_raised. destruct (Esp.gpio_get_level _ _). by intros [= <- _]. }
  rewrite <- H1. clear H1 E1. destruct raised.
  - destruct (Esp.read_frame t1) as [t2 f] eqn:E2.
    assert (Esp.i2c_send_failures t2 = Esp.i2c_send_failures t1) as H2.
    { revert E2. unfold Esp.read_frame. repeat case_match; by intros [= <- _]. }
    destruct f as [f|]; [|done]. destruct (Nci.is_transact_reply f); [done|].
    specialize (IH waited (Esp.push_ntf f t2)). destruct (Esp.transact_loop _ _ _) as [[]|]; [|done].
    rewrite IH, <- H2. unfold Esp.push_ntf. by case_match.
  - destruct (_ <=? _); [done|].
    specialize (IH (wrap32 (waited + Esp.RTOS_TICK_US)) (Esp.pause t1 1)).
    by destruct (Esp.transact_loop _ _ _) as [[]|].
Qed.
Lemma transact_fails t cmd : Esp.i2c_send_failures (Esp.transact t cmd).1 = Esp.i2c_send_failures t.
Proof.
  unfold Esp.transact. destruct (Esp.master_transmit _ _ _) as [b rc].
  destruct (negb _); [done|].
  pose proof (loop_fails (Esp.transact_fuel (Esp.with_hw b t)) 0 (Esp.with_hw b t)) as H.
  destruct (Esp.esp_transact_returns (Esp.with_hw b t)) as [[t' f] E].
  rewrite (is_Some_proj_eq _ _ _ E). by rewrite E in H.
Qed.
Lemma drain_fails t : Esp.i2c_send_failures (Esp.drain t).1 = Esp.i2c_send_failures t.
Proof.
  unfold Esp.drain. destruct (Esp.pop_ntf t) as [t1 f] eqn:E.
  assert (Esp.i2c_send_failures t1 = Esp.i2c_send_failures t) as H1 by (revert E; unfold Esp.pop_ntf; case_match; by intros [= <- _]).
  destruct f; [done|]. by rewrite poll_fails.
Qed.
Lemma steps_fails steps t : Esp.i2c_send_failures (Nci.run_steps steps t).1 = Esp.i2c_send_failures t.
Proof.
  revert t. induction steps as [|s steps IH]; intros t; [done|]. cbn [Nci.run_steps].
  pose proof (transact_fails t (Nci.tx_bytes s)) as H. cbn [Nci.transact Esp.esp_transport].
  destruct (Esp.transact t _) as [t1 [rsp|]]; [|done]. cbn [fst] in H.
  destruct (negb _); [done|]. destruct (_ && _)%bool; [done|]. by rewrite IH.
Qed.
Lemma ladder_fails t : Esp.i2c_send_failures (Nci.run_ladder t).1 = Esp.i2c_send_failures t.
Proof.
  unfold Nci.run_ladder. pose proof (transact_fails t Nci.CORE_RESET) as H.
  cbn [Nci.transact Nci.drain Esp.esp_transport].
  destruct (Esp.transact t _) as [t1 [rsp|]]; [|done]. cbn [fst] in H.
  destruct (negb _); [done|]. by rewrite steps_fails, drain_fails.
Qed.
End Streak.

(** The recovery does not clear what triggers it.  When the hook finds three
    or more failed writes in a row and no session to close, it power-cycles the
    controller and replays the ladder, and whatever comes of that, the count of
    failed writes is the same afterwards, because the ladder's transactions do
    not maintain it: so the hook of the next tick does it again, and the one
    after that, until something else writes to the controller. *)
Theorem mute_recovery_repeats {B} `{!Recovery.Gpio B, !Esp.Idf B, !Esp.Controller B} d :
  let drv : Wifi.EspPn7160NfcDriver (B := B) := Running d in
  Wifi.I2C_MUTE_THRESHOLD <= Esp.i2c_send_failure_streak (Pn7160.transport d) ->
  Pn7160.active d = false ->
  exists d', Wifi.mute_recovery drv = Running d' /\
    d' = (Pn7160.init (Pn7160.with_transport (Esp.ven_cycle (Pn7160.transport d)) (Pn7160.power_off d))).1 /\
    Esp.i2c_send_failure_streak (Pn7160.transport d') =
      Esp.i2c_send_failure_streak (Pn7160.transport d) /\
    Pn7160.active d' = false.
Proof.
  intros drv Hs Ha. unfold Wifi.mute_recovery, Wifi.streaks, drv. cbn [reads].
  replace (Wifi.I2C_MUTE_THRESHOLD <=? _) with true by lia. cbn [orb].
  assert (Pn7160.transport (Pn7160.power_off d) = Pn7160.transport d /\
    Pn7160.active (Pn7160.power_off d) = false) as [Hm1 Hm2].
  { unfold Pn7160.power_off. rewrite Ha. by destruct (Pn7160.last_auto_ats d). }
  unfold with_link, changes. cbn [on_inner fst mbind outcome_bind]. rewrite Hm1.
  unfold init. cbn [on_inner].
  set (d1 := Pn7160.with_transport _ _).
  pose proof (ladder_fails (Pn7160.transport d1)) as Hm3. unfold Pn7160.init.
  destruct (Nci.run_ladder (Pn7160.transport d1)) as [t r]. cbn [fst] in Hm3.
  exists (match r with
    | Ok _ => Pn7160.with_polls Pn7160.PRESENCE_REARM_POLLS (Pn7160.with_transport t d1)
    | Err _ => Pn7160.with_transport t d1 end).
  destruct r; (split; [done|]; split; [done|]; split; [|done]); exact Hm3.
Qed.

(** ** Witnesses: the controller on the bench *)
Module WifiBench.
Import Bench.

#[export] Instance chip_gpio : Recovery.Gpio Chip := {
  Recovery.gpio_config c _ _ _ := (c, true);
  Recovery.gpio_read c _ := (c, true);
  Recovery.gpio_drive c _ _ := c;
  Recovery.rom_delay_us c _ := c;
  Recovery.gpio_reset_pin c _ := c
}.

(** A whole frame, which the reader can take. *)
Definition whole (l : list Z) : Prop :=
  (3 <= length l)%nat /\ length l = (3 + Z.to_nat (nth 2 l 0%Z))%nat /\
  match Nci.decode l with Some f => heard f | None => True end.
Definition speaks (c : Chip) : Prop := rest c = [] /\ Forall (fun f => whole f.2) (frames c).

Lemma silence_heard : match Nci.decode [0; 0; 0] with Some f => heard f | None => True end.
Proof.
  change (match Nci.decode [0; 0; 0] with Some f => heard f | None => True end)
    with (heard (Nci.mkFrame 0 0 0 false (Nci.padded []) 0)).
  split; [|by exists None]. destruct (padded_ok []) as (H1 & H2 & _); [constructor|cbn; lia|].
  split; [exact H1|]. split; [exact H2|cbn; lia].
Qed.

Lemma whole_frame t at_ms l fs : whole l ->
  w_frame (esp_wire NUCULA) (mkChip t ((at_ms, l) :: fs) []) = (mkChip t fs [], Nci.decode l).
Proof.
  intros (H1 & H2 & _). destruct l as [|b0 [|b1 [|b2 l]]]; [cbn in H1; lia..|].
  cbn [nth length] in H2. assert (Z.to_nat b2 = length l) as Hl by lia.
  cbn [w_frame esp_wire]. unfold esp_frame, Esp.read_frame. cbn [Esp.hw bare Esp.master_receive chip_idf].
  unfold receive at 1. cbn [rest frames clock replicate app take drop nth fst snd].
  rewrite Hl. destruct l as [|x l]; [done|].
  cbn [length Nat.ltb Nat.leb]. unfold receive. cbn [rest frames clock fst snd Esp.hw Esp.with_hw].
  change (replicate (S (length l)) 0) with (replicate (length (x :: l)) 0).
  change (S (length l)) with (length (x :: l)). by rewrite take_app_length.
Qed.

Lemma quiet_whole l f : bytes l -> (3 <= length l)%nat -> length l = (3 + Z.to_nat (nth 2 l 0%Z))%nat ->
  Nci.decode l = Some f -> Nci.event_of f = Ret None -> whole l.
Proof.
  intros Hb H1 H2 E He. split; [done|]. split; [done|]. rewrite E.
  split; [by eapply decode_ok|by exists None].
Qed.

Lemma speaks_frame c : speaks c ->
  speaks (w_frame (esp_wire NUCULA) c).1 /\
  match (w_frame (esp_wire NUCULA) c).2 with Some f => heard f | None => True end.
Proof.
  intros [Hr Hf]. destruct c as [t fs r]. cbn [rest frames] in *. subst r.
  destruct fs as [|[at_ms l] fs]; [split; [by split|apply silence_heard]|].
  apply Forall_cons in Hf as [Hl Hf]. rewrite whole_frame by done. destruct Hl as (_ & _ & H3).
  split; [by split|exact H3].
Qed.

#[export] Instance polite_chip : PoliteBoard Chip.
Proof.
  refine {| board_ok := speaks |}; try done.
  - split; try done. apply speaks_frame.
Defined.

(** A board without a card: the ladder is confirmed, then silence. *)
Definition ladder : list (Z * list Z) :=
  [(0, [0x40; 0; 1; 0]); (0, [0x60; 0; 1; 0]); (0, [0x40; 1; 1; 0]); (0, [0x41; 0; 1; 0]); (0, [0x41; 3; 1; 0])].
Definition board : Chip := mkChip 0 ladder [].
(** Two clients: GetSlotStatus in one burst, then the peer closes; a silent one. *)
Definition asking : Wifi.Client := Wifi.mkClient 0
  [(Tcp.Burst (map (fun c => Tcp.mkFed c 5 6 0 true true) (frame_of SerialDemo.status)) 6, 7); (Tcp.Closed, 8)].
Definition silent_client : Wifi.Client := Wifi.mkClient 9 [(Tcp.TimedOut 10, 11); (Tcp.Closed, 12)].
End WifiBench.
Import Bench WifiBench.

Example wifi_reader_serves_witness :
  board_ok board /\ Forall client_ok [asking; silent_client] /\
  exists s b logs, Wifi.wifi_ccid board [] 50 100 0 [asking; silent_client] = Ret (s, b, logs, Tcp.GoOn) /\
    map length logs = [3; 0]%nat /\
    clients_log (B := Chip) (UartSpec.uart_windows 100) (mkEar Parser.new 0 false)
      [asking; silent_client] logs (ear s) false.
Proof.
  assert (board_ok board) as Hb.
  { split; [done|]. unfold board, ladder. cbn [frames].
    repeat (apply Forall_cons; split); try apply Forall_nil_2; cbn [snd].
    all: eapply quiet_whole; [solve_bytes|cbn; lia|reflexivity|reflexivity|reflexivity]. }
  assert (Forall client_ok [asking; silent_client]) as Hcs.
  { apply Forall_cons_2; [|apply Forall_cons_2; [|apply Forall_nil_2]].
    all: apply Forall_cons_2; [|apply Forall_cons_2; [|apply Forall_nil_2]].
    all: split; [try exact I|cbn; unfold u32; lia].
    cbn [fst read_ok]. solve_computed ltac:(split; [unfold u8; cbn; lia|split; [unfold u32; cbn; lia|cbn; lia]]). }
  split; [exact Hb|]. split; [exact Hcs|].
  pose proof (wifi_reader_serves board [] 50 100 0 [asking; silent_client] Hb Hcs) as H.
  assert (match Wifi.wifi_ccid board [] 50 100 0 [asking; silent_client] with
    | Ret (_, _, logs, next) => Some (map length logs, next) | Panic => None end =
    Some ([3; 0]%nat, Tcp.GoOn)) as Hv by (vm_compute; reflexivity).
  destruct (Wifi.wifi_ccid _ _ _ _ _ _) as [[[[s b] logs] next]|]; [|discriminate Hv].
  injection Hv as Hl ->. destruct H as (_ & H & _). by exists s, b, logs.
Defined.

(** Three failed writes: the hook cycles, and the count is still three. *)
Definition mute : Pn7160.Pn7160Driver (Esp.EspPn7160Transport Chip) :=
  Pn7160.new (Esp.with_failures 3 Bench.link).

Example mute_recovery_repeats_witness :
  Wifi.I2C_MUTE_THRESHOLD <= Esp.i2c_send_failure_streak (Pn7160.transport mute) /\
  Pn7160.active mute = false /\
  (Wifi.streaks (Wifi.mute_recovery (Running mute))).1 = 3.
Proof.
  split; [done|]. split; [done|].
  destruct (mute_recovery_repeats mute) as (d' & -> & _ & H & _); [done..|exact H].
Defined.

(** A front end that never answered reports itself healthy.  When the board's
    bring-up fails on every attempt, the driver it returns is served all the
    same, and its status is [Healthy], with no error and no attempt. *)
Lemma unresponsive_reported_healthy {B} `{!Recovery.Gpio B, !Esp.Idf B, !Esp.Controller B} (b : B) drv :
  Wifi.bring_up b = Ret (drv, false) ->
  frontend_status drv = mkStatus Healthy FNone 0 0 0 0.
Proof. done. Qed.
