(* ===== verification/Readers.v ===== *)
(** * The readers the serial images boot

    The [main] of the MFRC522 image ([esp32-ccid/src/main.rs]: the front end of
    [Mfrc522.v] behind the UART loop) and of the PN7160 image
    ([pn7160_ccid.rs]: the driver of [Pn7160Nfc.v] behind the USB-CDC burst
    loop), and the theorems about them.  The reader of the PN532 image is in
    [Pn532.v], the WiFi reader in [Pn7160NfcSpec.v]. *)
From Stdlib Require Import ZArith Lia ZifyBool.
From stdpp Require Import prelude.
From S2P Require Import Mfrc522 Mfrc522Spec Prelude Wire Atr Diag CardInterface SerialFrame EspHandler EspSpec Handler HandlerFacts Frontend FrontendSpec SerialServer SerialSpec.
From S2P Require Import Nci NciDriver NciDriverSpec NciReaderSpec NciLink NciLinkSpec BusRecovery Pn7160Nfc Pn7160NfcSpec.
From S2P Require UartServer UartSpec.
Local Open Scope Z_scope.
Import Pn7160Nfc CdcBurst.

Module Mains.

(** ** The MFRC522 on UART0 *)
Section Mfrc522.
Context {T C S : Type} `{!Mfrc522.Pcd.Mfrc522Chip T C, !Mfrc522.Platform T, !Mfrc522.IsoDep S}.

Definition mfrc522_main (bus : T) (i2c_addr : Z) (clock : list Z) (poll_interval_ticks tick_hz now : Z)
    (rs : list UartServer.UartMain.Read) :=
  UartServer.UartMain.serve_uart poll_interval_ticks tick_hz now rs
    (EspHandler.new (Mfrc522.Mfrc522.frontend_bring_up (S := S) bus i2c_addr).1 clock) TimeExtension.boot.
End Mfrc522.

(** ** The burst loop, up to the reset a snapshot escape asks for *)
Definition BURST_BUF : nat := 64.

Record Burst := mkBurst { burst : option (list Fed); read_end : Z }.

Section Loop.
Context {D E : Type} `{!NfcDriver D E, !NfcProbes D, !FrontendDiagnostics D}.

Fixpoint cdc_loop (bs : list Burst) (c : CdcBurstServe D) (b : TimeExtension.Bridge) :
    outcome (CdcBurstServe D * TimeExtension.Bridge * list WireEvent * bool) :=
  match bs with
  | [] => Ret (c, b, [], false)
  | x :: bs =>
      r ← serve_once (burst x) (read_end x) BURST_BUF c b;
      let '(c, b, o, events) := r in
      if snapshot_requested o then Ret (c, b, events, true)
      else
        r ← cdc_loop bs c b;
        let '(c, b, rest, reset) := r in Ret (c, b, events ++ rest, reset)
  end.
End Loop.

(** ** The PN7160 on USB-CDC *)
Section Pn7160.
Context {B : Type} `{!Recovery.Gpio B, !Esp.Idf B, !Esp.Controller B}.

Definition pn7160_ccid (board : B) (clock : list Z) (poll_interval_ticks tick_hz now : Z) (bs : list Burst) :=
  r ← Wifi.bring_up board;
  let '(driver, _) := r in
  let driver := set_stall_hook true driver in
  let s := SerialServer.new (EspHandler.new driver clock) poll_interval_ticks (from_tick_hz tick_hz) now in
  cdc_loop bs (CdcBurst.new s now) (TimeExtension.register_writer TimeExtension.boot).
End Pn7160.
End Mains.
Import Mains.

(** ** Theorems *)
Section Loop.
Context {D E : Type} `{!NfcDriver D E, !NfcDriverLaws D E, !NfcProbes D, !NfcProbesLaws D E,
  !FrontendDiagnostics D}.

Definition bursts_ok (bs : list Burst) : Prop := Forall (fun x => Forall fed_ok (default [] (burst x))) bs.

(** Every byte of the bursts, or of those before the reset, has its group. *)
Definition burst_groups (ws : ResponseWindows) (bs : list Burst) (events : list WireEvent) (reset : bool) : Prop :=
  exists groups, events = concat groups /\
    Forall2 (fun x g => exists floor, byte_events ws floor x g)
      (take (length groups) (concat (map (fun x => default [] (burst x)) bs))) groups /\
    (reset = false -> length groups = length (concat (map (fun x => default [] (burst x)) bs))).

Lemma cdc_loop_spec bs (c : CdcBurstServe D) b :
  server_ok (server c) b -> bursts_ok bs ->
  exists c' b' events reset, cdc_loop bs c b = Ret (c', b', events, reset) /\ server_ok (server c') b' /\
    windows (server c') = windows (server c) /\ burst_groups (windows (server c)) bs events reset.
Proof.
  intros Hc Hbs. revert c b Hc. induction Hbs as [|x bs Hx _ IH]; intros c b Hc.
  { exists c, b, [], false. split; [done|]. split; [done|]. split; [done|]. by exists []. }
  destruct (serve_once_spec (burst x) (read_end x) BURST_BUF c b Hc Hx)
    as (c1 & b1 & o & groups & E1 & H1 & Hw & Hg & Hl & Hs & _).
  cbn [cdc_loop]. rewrite E1, bind_ret. set (xs := default [] (burst x)) in *.
  assert (Forall2 (fun x g => exists floor, byte_events (windows (server c)) floor x g)
    (take (length groups) xs) groups) as Hg1.
  { eapply Forall2_impl; [exact Hg|]. intros y g Hy. by eexists. }
  destruct (snapshot_requested o).
  - exists c1, b1, (concat groups), true. split; [done|]. split; [done|]. split; [done|]. exists groups.
    cbn [map concat]. fold xs. split; [done|]. split; [|done]. by rewrite take_app_le by lia.
  - specialize (Hs eq_refl). destruct (IH c1 b1 H1) as (c2 & b2 & rest & reset & -> & H2 & Hw2 & (gs & -> & Hgs & Hr)).
    rewrite bind_ret. exists c2, b2, (concat groups ++ concat gs), reset. split; [done|]. split; [done|].
    split; [congruence|]. exists (groups ++ gs). cbn [map concat]. fold xs.
    rewrite concat_app, !length_app. split; [done|]. rewrite Hs in *.
    split; [|lia]. rewrite take_app_add. apply Forall2_app; [by rewrite firstn_all in Hg1|]. by rewrite Hw in Hgs.
Qed.
End Loop.

(** The MFRC522 image from the bus to the UART.  Whatever answers on the bus, or
    nothing, and whatever the card, the host and the UART driver do: the firmware
    boots and serves the line to the end, without a panic but the reset of a
    snapshot escape, within the invariant of the whole stack and with the line
    events of [uart_rate_changes_acknowledged]. *)
Theorem mfrc522_uart_reader_serves {T C S} `{!Mfrc522.Pcd.Mfrc522Chip T C, !Mfrc522.Platform T,
    !Mfrc522.IsoDep S, !Mfrc522Spec.IsoDepLaws S, !Mfrc522Spec.ChipLaws T C}
    (bus : T) addr clock poll hz now rs :
  Forall UartSpec.read_ok rs ->
  exists s b events reset,
    mfrc522_main (S := S) bus addr clock poll hz now rs = Ret (s, b, events, reset) /\ server_ok s b /\
    UartSpec.line_events (UartSpec.uart_windows hz) (concat (map UartSpec.arrivals rs)) events reset.
Proof.
  intros Hrs. destruct (UartSpec.serve_uart_spec poll hz now rs
    (EspHandler.new (Mfrc522.Mfrc522.frontend_bring_up (S := S) bus addr).1 clock))
    as (s & b & l & reset & E & Hs & _ & Hl); [|done..|by exists s, b, l, reset].
  apply esp_new_ok. apply Mfrc522Spec.bring_up_ok.
Qed.

(** The PN7160 image from the pins to the USB line.  On a board whose
    controller sends only frames the reader can take, with whatever else the
    controller, the bus, the cards and the host do: the firmware either stops at
    boot because the bus or the device could not be added, or it boots -- whether
    the controller answered the ladder or not -- and runs the burst loop over any
    reads, without a panic but the reset of a snapshot escape, within the
    invariant of the whole stack, the driver still running.  Each byte puts on the
    line nothing or one exchange in its order, with the time extensions the
    driver's stalls ask for in front; an answer past its window is not written. *)
Theorem pn7160_cdc_reader_serves {B} `{!Recovery.Gpio B, !Esp.Idf B, !Esp.Controller B, !PoliteBoard B}
    (board : B) clock poll hz now bs :
  board_ok board -> bursts_ok bs ->
  match pn7160_ccid board clock poll hz now bs with
  | Panic => exists rc, (Esp.bringup_config_order
      (Recovery.recover_i2c_bus (scl NUCULA) (sda NUCULA) board).1 0 NUCULA).1 = Err rc
  | Ret (c, b, events, reset) =>
      server_ok (server c) b /\ burst_groups (UartSpec.uart_windows hz) bs events reset /\
      running (driver_of (handler (server c)))
  end.
Proof.
  intros Hb Hbs. pose proof (board_bring_up_ok board Hb) as Hboot. unfold pn7160_ccid.
  destruct (Wifi.bring_up board) as [[drv up]|]; [|exact Hboot]. rewrite bind_ret.
  assert (running (set_stall_hook true drv)) as Hrun.
  { unfold set_stall_hook. apply changes_ok; [done|]. intros d []. by eexists. }
  set (s := SerialServer.new (EspHandler.new (set_stall_hook true drv) clock) poll (from_tick_hz hz) now).
  destruct (cdc_loop_spec bs (CdcBurst.new s now) (TimeExtension.register_writer TimeExtension.boot))
    as (c & b & events & reset & -> & Hc & _ & Hg); [|done|].
  - apply (set_bridge_ok _ TimeExtension.boot); [by apply server_new_ok, esp_new_ok|].
    split; [done|apply length_replicate].
  - split; [done|]. split; [exact Hg|]. exact (ok_driver _ (eo_core _ (so_handler _ _ Hc))).
Qed.

(** ** A status request at both readers, without a card *)
Import NciLinkSpec.Bench Pn7160NfcSpec.WifiBench Mfrc522Spec.Bench.

Example readers_answer_status :
  let status := frame_of SerialDemo.status in
  match pn7160_ccid WifiBench.board [] 300 100 0
          [mkBurst (Some (map (SerialDemo.fed 5) status)) 6; mkBurst None 7] with
  | Ret (_, _, events, reset) =>
      reset = false /\ map (fun ev => match ev with Write f sent => Some (length f, sent) | _ => None end) events =
        [Some (13%nat, true); Some (13%nat, true); None]
  | Panic => False
  end /\
  match mfrc522_main (S := unit) (Mfrc522Spec.Bench.chip 0x88 []) 0x28 [] 300 100 0
          [UartSpec.UartDemo.read [] status] with
  | Ret (_, _, events, reset) => reset = false /\ length events = 4%nat
  | Panic => False
  end.
Proof. vm_compute. by split_and!. Qed.
