(* ===== verification/I2cMaster.v ===== *)
(** * The I2C adapter of the ESP32 readers

    [pn7160-nci/src/hal_i2c.rs]: how one [transaction] of embedded-hal becomes
    calls of the bus driver (consecutive writes are one transfer, a read behind
    them is fused with a repeated START), the device bound to an address and the
    bus that makes it.  The driver's calls are the class [RawI2cMaster] (what the
    walk is generic in) and, below it, [DriverNg]. *)
From Stdlib Require Import ZArith Lia ZifyBool.
From stdpp Require Import prelude.
From S2P Require Import Prelude.
Local Open Scope Z_scope.

Module I2c.

Inductive NoAcknowledgeSource := Address | Data | Unknown.
(** Of embedded-hal. *)
Inductive ErrorKind :=
| Bus
| ArbitrationLoss
| NoAcknowledge (source : NoAcknowledgeSource)
| Overrun
| Other.

(** A read carries its buffer. *)
Inductive Operation :=
| Read (buf : list Z)
| Write (data : list Z).

Record AdapterError := mkError { kind : ErrorKind; raw : Z }.

Definition as_i32 (z : Z) : Z :=
  let w := wrap32 z in if w <? 2147483648 then w else w - 4294967296.

Definition esp_err_to_kind (rc : Z) : ErrorKind :=
  if rc =? 0x107 then NoAcknowledge Unknown else Other.

Definition check_rc (rc : Z) : result unit AdapterError :=
  if rc =? 0 then Ok tt else Err (mkError (esp_err_to_kind rc) rc).

Definition validate_address (call_addr handle_addr : Z) : result unit AdapterError :=
  if call_addr =? handle_addr then Ok tt
  else Err (mkError (NoAcknowledge Address) call_addr).

(** ** Classification *)
Inductive OpKind := KWrite | KRead.
#[global] Instance OpKind_eq_dec : EqDecision OpKind.
Proof. solve_decision. Defined.

Definition op_kind (op : Operation) : OpKind :=
  match op with Write _ => KWrite | Read _ => KRead end.

(** The loop ends at the end of the slice. *)
Fixpoint write_run (kinds : list OpKind) : nat :=
  match kinds with
  | KWrite :: kinds => S (write_run kinds)
  | _ => 0
  end.
Definition write_run_len (kinds : list OpKind) (idx : nat) : nat := write_run (drop idx kinds).

Definition op_is_read (kinds : list OpKind) (idx : nat) : bool :=
  bool_decide (kinds !! idx = Some KRead).

Definition MAX_TRANSACTION_OPS : nat := 32.

Fixpoint classify_from (kinds : list OpKind) (ops : list Operation) :
    result (list OpKind) AdapterError :=
  match ops with
  | [] => Ok kinds
  | op :: ops =>
      if (length kinds <? MAX_TRANSACTION_OPS)%nat then classify_from (kinds ++ [op_kind op]) ops
      else Err (mkError Other (-2))
  end.
Definition classify_ops : list Operation -> result (list OpKind) AdapterError :=
  classify_from [].

(** The buffer keeps what was copied before an error. *)
Fixpoint concat_from (n : nat) (ops : list Operation) (buf : list Z) :
    outcome (list Z * result nat AdapterError) :=
  match ops with
  | [] => Ret (buf, Ok n)
  | Read _ :: _ => Ret (buf, Err (mkError Other (-2)))
  | Write data :: ops =>
      if (length buf <? n + length data)%nat then
        Ret (buf, Err (mkError Other (as_i32 (Z.of_nat (n + length data)))))
      else
        buf ← copy_at buf n data;
        concat_from (n + length data) ops buf
  end.
Definition concat_writes : list Operation -> list Z -> outcome (list Z * result nat AdapterError) :=
  concat_from 0.

Inductive DispatchStep :=
| SRead (idx : nat)
| SWriteRead (idx run : nat)
| SWrite (idx run : nat).

Definition next_idx (s : DispatchStep) : nat :=
  match s with
  | SRead idx => idx + 1
  | SWrite idx run => idx + run
  | SWriteRead idx run => idx + run + 1
  end.

Definition next_step (kinds : list OpKind) (idx : nat) : option DispatchStep :=
  if (length kinds <=? idx)%nat then None
  else
    let run := write_run_len kinds idx in
    Some (if (run =? 0)%nat then SRead idx
          else if op_is_read kinds (idx + run) then SWriteRead idx run
          else SWrite idx run).

(** ** The walk *)

(** The transfers of a bus driver: a read fills the buffer it is given. *)
Class RawI2cMaster (B : Type) := {
  raw_transmit : B -> list Z -> Z -> B * result unit AdapterError;
  raw_receive : B -> list Z -> Z -> B * list Z * result unit AdapterError;
  raw_transmit_receive : B -> list Z -> list Z -> Z -> B * list Z * result unit AdapterError
}.

Section Walk.
Context {B : Type} `{M : !RawI2cMaster B}.
Implicit Types (b : B) (ops : list Operation) (wbuf : list Z).

(** The state of the walk and the result of a step. *)
Definition walked : Type := B * list Operation * list Z * result unit AdapterError.

(** The read at an index; anything else is [unreachable!]. *)
Definition read_at ops (idx : nat) : outcome (list Z) :=
  match ops !! idx with Some (Read buf) => Ret buf | _ => Panic end.

Definition dispatch_step (s : DispatchStep) b ops wbuf (timeout_ms : Z) : outcome walked :=
  match s with
  | SRead idx =>
      buf ← read_at ops idx;
      let '(b, buf, r) := raw_receive b buf timeout_ms in
      Ret (b, <[idx := Read buf]> ops, wbuf, r)
  | SWriteRead idx run =>
      window ← slice ops idx (idx + run + 1);
      '(wbuf, n) ← concat_writes (take run window) wbuf;
      match n with
      | Err e => Ret (b, ops, wbuf, Err e)
      | Ok n =>
          rbuf ← read_at (drop run window) 0;
          tx ← slice wbuf 0 n;
          let '(b, rbuf, r) := raw_transmit_receive b tx rbuf timeout_ms in
          Ret (b, <[(idx + run)%nat := Read rbuf]> ops, wbuf, r)
      end
  | SWrite idx 1 =>
      match ops !! idx with
      | Some (Write data) =>
          let '(b, r) := raw_transmit b data timeout_ms in Ret (b, ops, wbuf, r)
      | _ => Panic
      end
  | SWrite idx run =>
      window ← slice ops idx (idx + run);
      '(wbuf, n) ← concat_writes window wbuf;
      match n with
      | Err e => Ret (b, ops, wbuf, Err e)
      | Ok n =>
          tx ← slice wbuf 0 n;
          let '(b, r) := raw_transmit b tx timeout_ms in Ret (b, ops, wbuf, r)
      end
  end.

(** [None] when the fuel is used up. *)
Fixpoint walk (fuel : nat) (kinds : list OpKind) (idx : nat) b ops wbuf (timeout_ms : Z) :
    option (outcome walked) :=
  match fuel with
  | O => None
  | S fuel =>
      match next_step kinds idx with
      | None => Some (Ret (b, ops, wbuf, Ok tt))
      | Some s =>
          match dispatch_step s b ops wbuf timeout_ms with
          | Panic => Some Panic
          | Ret (b, ops, wbuf, Err e) => Some (Ret (b, ops, wbuf, Err e))
          | Ret (b, ops, wbuf, Ok _) => walk fuel kinds (next_idx s) b ops wbuf timeout_ms
          end
      end
  end.

(** Every step covers at least one operation. *)
Definition dispatch_transaction b ops wbuf (timeout_ms : Z) : option (outcome walked) :=
  match classify_ops ops with
  | Err e => Some (Ret (b, ops, wbuf, Err e))
  | Ok kinds => walk (S (length ops)) kinds 0 b ops wbuf timeout_ms
  end.
End Walk.

(** ** The device and the bus *)

(** The calls of ESP-IDF, each with the code it returns; a device handle is a
    number. *)
Class DriverNg (B : Type) := {
  new_master_bus : B -> Z -> Z -> Z -> B * Z;
  master_probe : B -> Z -> Z -> B * Z;
  bus_add_device : B -> Z -> Z -> B * Z * Z;
  master_transmit : B -> Z -> list Z -> Z -> B * Z;
  master_receive : B -> Z -> list Z -> Z -> B * list Z * Z;
  master_transmit_receive : B -> Z -> list Z -> list Z -> Z -> B * list Z * Z
}.

Definition OP_TIMEOUT_MS : Z := 100.
Definition WBUF_SZ : nat := 128.

(** A device: its handle and the address it was added with, on the hardware. *)
Record I2cMasterDevice (B : Type) := mkDevice { hw : B; dev : Z; addr : Z }.
Arguments mkDevice {B}.
Arguments hw {B} _.
Arguments dev {B} _.
Arguments addr {B} _.

Section Device.
Context {B : Type} `{D : !DriverNg B}.
Implicit Types (b : B) (d : I2cMasterDevice B).

Definition with_hw b d : I2cMasterDevice B := mkDevice b (dev d) (addr d).

Definition bus_new b (port sda scl : Z) : B * result unit AdapterError :=
  let '(b, rc) := new_master_bus b port sda scl in (b, check_rc rc).

Definition probe b (addr timeout_ms : Z) : B * result unit AdapterError :=
  let '(b, rc) := master_probe b addr timeout_ms in (b, check_rc rc).

Definition add_hal_device b (addr scl_speed_hz : Z) :
    B * result (I2cMasterDevice B) AdapterError :=
  let '(b, dev, rc) := bus_add_device b addr scl_speed_hz in
  match check_rc rc with
  | Err e => (b, Err e)
  | Ok _ => (b, Ok (mkDevice b dev addr))
  end.

Definition check d (address : Z) : result unit AdapterError := validate_address address (addr d).

#[global] Instance device_raw : RawI2cMaster (I2cMasterDevice B) := {
  raw_transmit d bytes timeout_ms :=
    let '(b, rc) := master_transmit (hw d) (dev d) bytes timeout_ms in
    (with_hw b d, check_rc rc);
  raw_receive d buffer timeout_ms :=
    let '(b, buffer, rc) := master_receive (hw d) (dev d) buffer timeout_ms in
    (with_hw b d, buffer, check_rc rc);
  raw_transmit_receive d tx rx timeout_ms :=
    let '(b, rx, rc) := master_transmit_receive (hw d) (dev d) tx rx timeout_ms in
    (with_hw b d, rx, check_rc rc)
}.

(** [I2c::transaction]: the buffer is a local. *)
Definition transaction d (address : Z) (ops : list Operation) :
    option (outcome (I2cMasterDevice B * list Operation * result unit AdapterError)) :=
  match check d address with
  | Err e => Some (Ret (d, ops, Err e))
  | Ok _ =>
      match dispatch_transaction d ops (replicate WBUF_SZ 0) OP_TIMEOUT_MS with
      | None => None
      | Some Panic => Some Panic
      | Some (Ret (d, ops, _, r)) => Some (Ret (d, ops, r))
      end
  end.
End Device.

(** ** Reference: one transfer per group of operations *)

(** A group is a run of writes with the read behind it, if there is one. *)
Record Group := mkGroup { writes : list (list Z); read : option (list Z) }.

(** The first group of a transaction that starts with the writes [ws]. *)
Fixpoint groups_from (ws : list (list Z)) (ops : list Operation) : list Group :=
  match ops with
  | [] => match ws with [] => [] | _ => [mkGroup ws None] end
  | Write data :: ops => groups_from (ws ++ [data]) ops
  | Read buf :: ops => mkGroup ws (Some buf) :: groups_from [] ops
  end.
Definition groups : list Operation -> list Group := groups_from [].

(** The operations of a group. *)
Definition group_ops (g : Group) : list Operation :=
  map Write (writes g) ++ match read g with Some buf => [Read buf] | None => [] end.

(** The first write that no longer fits in [room] bytes: what it would need. *)
Fixpoint overflow_at (room n : nat) (ws : list (list Z)) : option nat :=
  match ws with
  | [] => None
  | w :: ws =>
      if (room <? n + length w)%nat then Some (n + length w)%nat
      else overflow_at room (n + length w) ws
  end.

Section Reference.
Context {B : Type} `{M : !RawI2cMaster B}.

(** One group is one transfer: the bytes of its writes behind each other, fused
    with its read; a lone write is passed through and never overflows. *)
Definition transfer (room : nat) (b : B) (g : Group) (timeout_ms : Z) :
    B * Group * result unit AdapterError :=
  let over :=
    match writes g, read g with
    | [], _ | [_], None => None
    | ws, _ => overflow_at room 0 ws
    end in
  match over with
  | Some n => (b, g, Err (mkError Other (as_i32 (Z.of_nat n))))
  | None =>
      match read g, writes g with
      | None, ws => let '(b, r) := raw_transmit b (concat ws) timeout_ms in (b, g, r)
      | Some buf, [] =>
          let '(b, buf, r) := raw_receive b buf timeout_ms in (b, mkGroup [] (Some buf), r)
      | Some buf, ws =>
          let '(b, buf, r) := raw_transmit_receive b (concat ws) buf timeout_ms in
          (b, mkGroup ws (Some buf), r)
      end
  end.

(** The groups in order, up to the first that fails. *)
Fixpoint transfers (room : nat) (b : B) (gs : list Group) (timeout_ms : Z) :
    B * list Group * result unit AdapterError :=
  match gs with
  | [] => (b, [], Ok tt)
  | g :: gs =>
      let '(b, g, r) := transfer room b g timeout_ms in
      match r with
      | Err e => (b, g :: gs, Err e)
      | Ok _ => let '(b, gs, r) := transfers room b gs timeout_ms in (b, g :: gs, r)
      end
  end.
End Reference.

End I2c.
