(* ===== verification/I2cMasterSpec.v ===== *)
(** * Theorems about the I2C adapter

    The walk of a transaction is the groups of its operations, one transfer each
    ([wire_shape]); the rest of the file characterises the groups. *)
From Stdlib Require Import ZArith Lia ZifyBool.
From stdpp Require Import prelude.
From S2P Require Import Prelude I2cMaster.
Import I2c.
Local Open Scope Z_scope.

(** ** Groups *)
Definition ops_of (gs : list Group) : list Operation := concat (map group_ops gs).

Lemma ops_of_cons g gs : ops_of (g :: gs) = group_ops g ++ ops_of gs.
Proof. done. Qed.

Lemma groups_from_writes ws0 ws tl :
  groups_from ws0 (map Write ws ++ tl) = groups_from (ws0 ++ ws) tl.
Proof.
  revert ws0; induction ws as [|w ws IH]; intros ws0; [by rewrite app_nil_r|].
  cbn. rewrite IH, <- app_assoc. done.
Qed.

Lemma ops_of_groups_from ws ops : ops_of (groups_from ws ops) = map Write ws ++ ops.
Proof.
  revert ws; induction ops as [|[buf|data] ops IH]; intros ws; cbn [groups_from].
  - destruct ws; [done|]. rewrite ops_of_cons. by unfold group_ops; rewrite !app_nil_r.
  - rewrite ops_of_cons, IH. unfold group_ops. cbn. by rewrite <- app_assoc.
  - rewrite IH, map_app, <- app_assoc. done.
Qed.

(** The groups are the operations, in order. *)
Lemma ops_of_groups ops : ops_of (groups ops) = ops.
Proof. apply ops_of_groups_from. Qed.

(** A run of writes, and what stops it. *)
Lemma split_run ops : exists ws tl, ops = map Write ws ++ tl /\
  (tl = [] \/ exists buf tl', tl = Read buf :: tl').
Proof.
  induction ops as [|[buf|data] ops (ws & tl & E & Htl)].
  - exists [], []. auto.
  - exists [], (Read buf :: ops). eauto.
  - exists (data :: ws), tl. by rewrite E.
Qed.

Lemma write_run_map ws kinds : write_run (map op_kind (map Write ws) ++ kinds) = (length ws + write_run kinds)%nat.
Proof. induction ws as [|w ws IH]; cbn; congruence. Qed.

(** ** Coalescing *)
Lemma concat_from_writes n ws buf : (n <= length buf)%nat -> exists buf',
  length buf' = length buf /\
  concat_from n (map Write ws) buf = Ret (buf',
    match overflow_at (length buf) n ws with
    | Some k => Err (mkError Other (as_i32 (Z.of_nat k)))
    | None => Ok (n + length (concat ws))%nat
    end) /\
  (overflow_at (length buf) n ws = None ->
    (n + length (concat ws) <= length buf)%nat /\
    take (n + length (concat ws)) buf' = take n buf ++ concat ws).
Proof.
  revert n buf; induction ws as [|w ws IH]; intros n buf Hn; cbn.
  { exists buf. rewrite Nat.add_0_r, app_nil_r. eauto. }
  case_match eqn:Hfit; [exists buf; eauto; done|].
  apply Nat.ltb_ge in Hfit. rewrite copy_at_ok by done. cbn.
  set (buf1 := take n buf ++ w ++ drop (n + length w) buf).
  assert (Hl : length buf1 = length buf).
  { unfold buf1. rewrite !length_app, length_take, length_drop. lia. }
  destruct (IH (n + length w)%nat buf1) as (buf' & Hl' & Hc & Hnone); [lia|].
  exists buf'. rewrite Hl in *. rewrite length_app, Nat.add_assoc.
  split; [done|]. split; [done|]. intros Ho. destruct (Hnone Ho) as [Hle Ht].
  split; [done|]. rewrite Ht. unfold buf1.
  rewrite app_assoc, take_app_length', <- app_assoc; [done|].
  rewrite length_app, length_take. lia.
Qed.

Lemma concat_writes_prefix ws buf : exists buf',
  length buf' = length buf /\
  concat_writes (map Write ws) buf = Ret (buf',
    match overflow_at (length buf) 0 ws with
    | Some k => Err (mkError Other (as_i32 (Z.of_nat k)))
    | None => Ok (length (concat ws))
    end) /\
  (overflow_at (length buf) 0 ws = None -> slice buf' 0 (length (concat ws)) = Ret (concat ws)).
Proof.
  destruct (concat_from_writes 0 ws buf) as (buf' & Hl & Hc & Hn); [lia|].
  exists buf'. split_and!; [done..|]. intros Ho. destruct (Hn Ho) as [Hle Ht].
  rewrite slice_prefix by lia. cbn in Ht. by rewrite Ht.
Qed.

Lemma classify_from_map kinds ops :
  classify_from kinds ops =
    if (length kinds + length ops <=? MAX_TRANSACTION_OPS)%nat
       || (length ops =? 0)%nat then Ok (kinds ++ map op_kind ops)
    else Err (mkError Other (-2)).
Proof.
  revert kinds; induction ops as [|op ops IH]; intros kinds; cbn [classify_from length map].
  { rewrite app_nil_r, orb_true_r. done. }
  case_match eqn:Hk.
  - rewrite IH, length_app, <- app_assoc. cbn [length app].
    apply Nat.ltb_lt in Hk. repeat case_match; try done; lia.
  - apply Nat.ltb_ge in Hk. case_match; [lia|done].
Qed.

Lemma classify_ops_map ops :
  classify_ops ops =
    if (length ops <=? MAX_TRANSACTION_OPS)%nat then Ok (map op_kind ops)
    else Err (mkError Other (-2)).
Proof.
  unfold classify_ops. rewrite classify_from_map. destruct ops; [done|]. by rewrite orb_false_r.
Qed.

(** ** The walk *)

(** A group is not empty, and only the last one may lack a read. *)
Fixpoint well_grouped (gs : list Group) : Prop :=
  match gs with
  | [] => True
  | g :: gs =>
      group_ops g <> [] /\ (read g = None -> gs = []) /\ well_grouped gs
  end.

Lemma groups_from_well_grouped ws ops : well_grouped (groups_from ws ops).
Proof.
  revert ws; induction ops as [|[buf|data] ops IH]; intros ws; cbn; [|..|auto].
  - destruct ws; cbn; [done|]. split_and!; done.
  - split_and!; [|done|auto]. unfold group_ops. cbn. by destruct (map Write ws).
Qed.

(** The step that covers a group. *)
Definition step_of (idx : nat) (g : Group) : DispatchStep :=
  match writes g, read g with
  | [], _ => SRead idx
  | ws, None => SWrite idx (length ws)
  | ws, Some _ => SWriteRead idx (length ws)
  end.

Lemma length_group_ops g :
  length (group_ops g) = (length (writes g) + match read g with Some _ => 1 | None => 0 end)%nat.
Proof. unfold group_ops. rewrite length_app, length_map. by destruct (read g). Qed.

Lemma next_idx_step_of idx g : group_ops g <> [] ->
  next_idx (step_of idx g) = (idx + length (group_ops g))%nat.
Proof.
  destruct g as [ws rd]. rewrite length_group_ops. unfold step_of, group_ops. cbn.
  destruct ws as [|w ws], rd; cbn; intros ?; try done; lia.
Qed.

Lemma next_step_end d : next_step (map op_kind d) (length d) = None.
Proof. unfold next_step. rewrite length_map, (proj2 (Nat.leb_le _ _)); done. Qed.

Lemma nil_length_pos {A} (l : list A) : l <> [] -> (0 < length l)%nat.
Proof. destruct l; [done|]. cbn. lia. Qed.

(** What the walk decides at the start of a group. *)
Lemma next_step_group d g rest : group_ops g <> [] -> (read g = None -> rest = []) ->
  next_step (map op_kind (d ++ group_ops g ++ rest)) (length d) = Some (step_of (length d) g).
Proof.
  intros Hne Hlast. unfold next_step, write_run_len, op_is_read.
  unfold group_ops in *.
  destruct g as [ws rd]; cbn [writes read] in *. set (tl := match rd with Some _ => _ | None => _ end) in *.
  assert (Htl : write_run (map op_kind (tl ++ rest)) = 0%nat).
  { destruct rd; [done|]. by rewrite Hlast. }
  rewrite <- app_assoc, !map_app, drop_app_length' by (by rewrite length_map).
  rewrite write_run_map, <- map_app, Htl, Nat.add_0_r.
  rewrite (proj2 (Nat.leb_gt _ _)).
  2:{ apply nil_length_pos in Hne. rewrite length_app, length_map in Hne.
      rewrite !length_app, !length_map, length_app. lia. }
  rewrite !lookup_app_r by (rewrite ?length_map; lia). rewrite !length_map.
  replace (length d + length ws - length d - length ws)%nat with 0%nat by lia.
  unfold step_of. cbn [writes read]. destruct ws as [|w ws]; [done|]. cbn [length Nat.eqb].
  destruct rd as [buf|]; [done|]. by rewrite Hlast.
Qed.

(** The outcome of the one transfer of a goal. *)
Ltac run_transfer :=
  try destruct (overflow_at _ _ _);
  try destruct (raw_receive _ _ _) as [[? ?] ?];
  try destruct (raw_transmit_receive _ _ _ _) as [[? ?] ?];
  try destruct (raw_transmit _ _ _) as [? ?]; cbn [map app]; rewrite <- ?app_assoc, ?app_nil_r.

Section Walk.
Context {B : Type} {M : RawI2cMaster B}.
Implicit Types (b : B) (ops d : list Operation) (wbuf : list Z) (g : Group).

Lemma transfer_kinds room b g ms b' g' r : transfer room b g ms = (b', g', r) ->
  map op_kind (group_ops g') = map op_kind (group_ops g) /\ (read g' = None <-> read g = None).
Proof.
  unfold transfer. destruct g as [ws rd]; cbn [writes read].
  repeat case_match; intros; simplify_eq; unfold group_ops; cbn; rewrite ?map_app; done.
Qed.

Lemma read_at_middle d buf rest i : i = length d -> read_at (d ++ Read buf :: rest) i = Ret buf.
Proof. intros ->. unfold read_at. by rewrite list_lookup_middle. Qed.

Lemma slice_middle {A} (l m r : list A) i j : i = length l -> j = (length l + length m)%nat ->
  slice (l ++ m ++ r) i j = Ret m.
Proof.
  intros -> ->. rewrite slice_ok by (rewrite ?length_app; lia).
  rewrite drop_app_length. replace (_ - _)%nat with (length m) by lia. by rewrite take_app_length.
Qed.

Lemma insert_middle {A} (l r : list A) x y i : i = length l ->
  <[i := y]> (l ++ x :: r) = l ++ y :: r.
Proof. intros ->. by rewrite insert_app_r_alt, Nat.sub_diag by lia. Qed.

(** The three kinds of transfer behind a coalesced run of writes. *)
Lemma dispatch_read d buf rest b wbuf ms :
  dispatch_step (SRead (length d)) b (d ++ Read buf :: rest) wbuf ms =
    let '(b, buf, r) := raw_receive b buf ms in Ret (b, d ++ Read buf :: rest, wbuf, r).
Proof.
  cbn [dispatch_step]. rewrite read_at_middle by done. cbn.
  destruct (raw_receive _ _ _) as [[? ?] ?]. by rewrite insert_middle.
Qed.

Lemma dispatch_write_one d data rest b wbuf ms :
  dispatch_step (SWrite (length d) 1) b (d ++ Write data :: rest) wbuf ms =
    let '(b, r) := raw_transmit b data ms in Ret (b, d ++ Write data :: rest, wbuf, r).
Proof. cbn [dispatch_step]. by rewrite list_lookup_middle. Qed.

Lemma dispatch_write_run d ws rest b wbuf ms : (1 < length ws)%nat -> exists wbuf',
  length wbuf' = length wbuf /\
  dispatch_step (SWrite (length d) (length ws)) b (d ++ map Write ws ++ rest) wbuf ms =
    match overflow_at (length wbuf) 0 ws with
    | Some k => Ret (b, d ++ map Write ws ++ rest, wbuf', Err (mkError Other (as_i32 (Z.of_nat k))))
    | None => let '(b, r) := raw_transmit b (concat ws) ms in
              Ret (b, d ++ map Write ws ++ rest, wbuf', r)
    end.
Proof.
  intros Hlen. destruct (concat_writes_prefix ws wbuf) as (wbuf' & Hl & Hc & Hs).
  exists wbuf'. split; [done|]. destruct ws as [|w [|w' ws]]; cbn in Hlen; try lia.
  cbn [dispatch_step length]. rewrite slice_middle by (rewrite ?length_map; done).
  cbn [mbind outcome_bind]. rewrite Hc. cbn [mbind outcome_bind].
  destruct (overflow_at _ _ _); [done|]. by rewrite Hs.
Qed.

Lemma dispatch_write_read d ws buf rest b wbuf ms : exists wbuf',
  length wbuf' = length wbuf /\
  dispatch_step (SWriteRead (length d) (length ws)) b
    (d ++ map Write ws ++ Read buf :: rest) wbuf ms =
    match overflow_at (length wbuf) 0 ws with
    | Some k =>
        Ret (b, d ++ map Write ws ++ Read buf :: rest, wbuf',
             Err (mkError Other (as_i32 (Z.of_nat k))))
    | None => let '(b, buf, r) := raw_transmit_receive b (concat ws) buf ms in
              Ret (b, d ++ map Write ws ++ Read buf :: rest, wbuf', r)
    end.
Proof.
  destruct (concat_writes_prefix ws wbuf) as (wbuf' & Hl & Hc & Hs).
  exists wbuf'. split; [done|]. cbn [dispatch_step].
  replace (map Write ws ++ Read buf :: rest) with ((map Write ws ++ [Read buf]) ++ rest)
    by (by rewrite <- app_assoc).
  rewrite slice_middle by (rewrite ?length_app, ?length_map; cbn; lia).
  cbn [mbind outcome_bind]. rewrite take_app_length', drop_app_length' by (by rewrite length_map).
  rewrite Hc. cbn [mbind outcome_bind]. destruct (overflow_at _ _ _); [done|].
  cbn [read_at lookup list_lookup mbind outcome_bind]. rewrite Hs by done.
  cbn [mbind outcome_bind]. destruct (raw_transmit_receive _ _ _ _) as [[b' buf'] r].
  rewrite <- (app_assoc _ [_] rest), app_assoc. cbn [app].
  rewrite insert_middle by (rewrite length_app, length_map; done). by rewrite <- app_assoc.
Qed.

(** A step is the transfer of its group. *)
Lemma dispatch_group d g rest b wbuf ms : group_ops g <> [] -> exists wbuf',
  length wbuf' = length wbuf /\
  dispatch_step (step_of (length d) g) b (d ++ group_ops g ++ rest) wbuf ms =
    let '(b, g, r) := transfer (length wbuf) b g ms in
    Ret (b, d ++ group_ops g ++ rest, wbuf', r).
Proof.
  destruct g as [[|w [|w' ws]] [buf|]]; intros Hne; try done; clear Hne;
    unfold step_of, transfer, group_ops; cbn [writes read map app].
  - exists wbuf. split; [done|]. rewrite dispatch_read. by run_transfer.
  - destruct (dispatch_write_read d [w] buf rest b wbuf ms) as (wbuf' & Hl & E).
    exists wbuf'. split; [done|]. cbn [map app] in E. rewrite E. by run_transfer.
  - exists wbuf. split; [done|]. rewrite dispatch_write_one. cbn [concat]. rewrite app_nil_r.
    by run_transfer.
  - destruct (dispatch_write_read d (w :: w' :: ws) buf rest b wbuf ms) as (wbuf' & Hl & E).
    exists wbuf'. split; [done|]. cbn [map app] in E. rewrite <- app_assoc. cbn [app].
    rewrite E. by run_transfer.
  - destruct (dispatch_write_run d (w :: w' :: ws) rest b wbuf ms) as (wbuf' & Hl & E); [cbn; lia|].
    exists wbuf'. split; [done|]. cbn [map app] in E. rewrite app_nil_r, E.
    by run_transfer.
Qed.

(** The walk is the transfers of its groups. *)
Lemma walk_groups gs fuel d b wbuf ms :
  well_grouped gs -> (length (ops_of gs) < fuel)%nat -> exists wbuf',
  length wbuf' = length wbuf /\
  walk fuel (map op_kind (d ++ ops_of gs)) (length d) b (d ++ ops_of gs) wbuf ms =
    let '(b, gs, r) := transfers (length wbuf) b gs ms in
    Some (Ret (b, d ++ ops_of gs, wbuf', r)).
Proof.
  revert fuel d b wbuf; induction gs as [|g gs IH]; intros [|fuel] d b wbuf Hwf Hf; try (cbn in Hf; lia).
  { exists wbuf. split; [done|]. cbn [walk transfers]. change (ops_of []) with (@nil Operation).
    by rewrite app_nil_r, next_step_end. }
  destruct Hwf as (Hne & Hlast & Hwf). cbn [walk]. rewrite ops_of_cons in *.
  rewrite next_step_group; [|done|by intros Hr; rewrite (Hlast Hr)].
  destruct (dispatch_group d g (ops_of gs) b wbuf ms Hne) as (wbuf1 & Hl1 & ->).
  cbn [transfers]. destruct (transfer _ b g ms) as [[b1 g1] [[]|e]] eqn:Ht.
  2:{ exists wbuf1. split; [done|]. by rewrite ops_of_cons. }
  destruct (transfer_kinds _ _ _ _ _ _ _ Ht) as [Hk _].
  rewrite next_idx_step_of by done.
  assert (Hlen : length (group_ops g1) = length (group_ops g)).
  { rewrite <- (length_map op_kind), Hk. by rewrite length_map. }
  destruct (IH fuel (d ++ group_ops g1) b1 wbuf1) as (wbuf' & Hl' & Hw); [done|..].
  { apply nil_length_pos in Hne. rewrite length_app in Hf. lia. }
  exists wbuf'. split; [congruence|]. rewrite Hl1, length_app, <- app_assoc, Hlen in Hw.
  rewrite !map_app, <- Hk, <- !map_app, Hw.
  repeat case_match; simplify_eq. by rewrite ops_of_cons, <- app_assoc.
Qed.

(** The whole walk. *)
Lemma walk_transaction b ops wbuf ms : exists wbuf',
  length wbuf' = length wbuf /\
  dispatch_transaction b ops wbuf ms =
    if (MAX_TRANSACTION_OPS <? length ops)%nat then
      Some (Ret (b, ops, wbuf', Err (mkError Other (-2))))
    else
      let '(b, gs, r) := transfers (length wbuf) b (groups ops) ms in
      Some (Ret (b, ops_of gs, wbuf', r)).
Proof.
  unfold dispatch_transaction. rewrite classify_ops_map.
  destruct (walk_groups (groups ops) (S (length ops)) [] b wbuf ms) as (wbuf' & Hl & Hw).
  { apply groups_from_well_grouped. }
  { rewrite ops_of_groups. lia. }
  rewrite ops_of_groups in Hw. cbn [app length] in Hw.
  destruct (Nat.ltb_spec MAX_TRANSACTION_OPS (length ops)).
  - exists wbuf. split; [done|]. rewrite (proj2 (Nat.leb_gt _ _)) by done. done.
  - exists wbuf'. split; [done|]. rewrite (proj2 (Nat.leb_le _ _)) by done. done.
Qed.

(** C28: a transaction of embedded-hal, whatever it holds, is its groups in
    order, one transfer of the bus each: a run of writes sends the bytes behind
    each other in one transfer, the read behind it is fused with it, and a read
    of its own is a receive.  It stops at the first group that fails; a run that
    does not fit the buffer fails before its transfer with the length it would
    need, and more than 32 operations touch the bus not at all.  It never panics
    and never runs on; the operations come back in place with the buffers of the
    reads filled. *)
Theorem wire_shape b ops wbuf ms : exists wbuf',
  length wbuf' = length wbuf /\
  dispatch_transaction b ops wbuf ms =
    if (MAX_TRANSACTION_OPS <? length ops)%nat then
      Some (Ret (b, ops, wbuf', Err (mkError Other (-2))))
    else
      let '(b, gs, r) := transfers (length wbuf) b (groups ops) ms in
      Some (Ret (b, ops_of gs, wbuf', r)).
Proof. apply walk_transaction. Qed.
End Walk.

(** ** The groups are the only grouping *)
Lemma ops_of_nil gs : well_grouped gs -> ops_of gs = [] -> gs = [].
Proof.
  destruct gs as [|g gs]; [done|]. intros (Hne & _) E. rewrite ops_of_cons in E.
  by apply app_eq_nil in E as [E _].
Qed.

Lemma groups_of_wf gs : well_grouped gs -> groups (ops_of gs) = gs.
Proof.
  induction gs as [|g gs IH]; [done|]. intros (Hne & Hlast & Hwf). specialize (IH Hwf).
  rewrite ops_of_cons. unfold groups, group_ops in *. destruct g as [ws [buf|]]; cbn [read writes] in *.
  - rewrite <- app_assoc, groups_from_writes. cbn. by rewrite IH.
  - rewrite (Hlast eq_refl), app_nil_r, groups_from_writes. cbn. by destruct ws.
Qed.

(** Two ways to cut operations into runs of writes with the read behind each are
    the same. *)
Lemma groups_unique gs ops : well_grouped gs -> ops_of gs = ops -> gs = groups ops.
Proof. intros Hwf <-. by rewrite groups_of_wf. Qed.

(** ** The device *)
Section Device.
Context {B : Type} {D : DriverNg B}.
Implicit Types d : I2cMasterDevice B.

(** An address that is not the device's is refused before any traffic. *)
Lemma transaction_other_address d address ops : address <> addr d ->
  transaction d address ops = Some (Ret (d, ops, Err (mkError (NoAcknowledge Address) address))).
Proof.
  intros Ha. unfold transaction, check, validate_address.
  by rewrite (proj2 (Z.eqb_neq _ _) Ha).
Qed.

(** On its own address the device runs the transfers with a buffer of 128. *)
Lemma device_transaction d ops : transaction d (addr d) ops =
  if (MAX_TRANSACTION_OPS <? length ops)%nat then
    Some (Ret (d, ops, Err (mkError Other (-2))))
  else
    let '(d, gs, r) := transfers WBUF_SZ d (groups ops) OP_TIMEOUT_MS in
    Some (Ret (d, ops_of gs, r)).
Proof.
  unfold transaction, check, validate_address. rewrite Z.eqb_refl.
  destruct (walk_transaction d ops (replicate WBUF_SZ 0) OP_TIMEOUT_MS) as (wbuf & _ & ->).
  rewrite length_replicate. destruct (_ <? _)%nat; [done|]. by destruct (transfers _ _ _ _) as [[? ?] ?].
Qed.

(** No operation changes which device it is. *)
Lemma device_kept room d gs ms d' gs' r :
  transfers room d gs ms = (d', gs', r) -> dev d' = dev d /\ addr d' = addr d.
Proof.
  revert d d' gs' r; induction gs as [|g gs IH]; intros d d' gs' r; cbn [transfers].
  { by intros [= <- <- <-]. }
  unfold transfer. cbn [raw_transmit raw_receive raw_transmit_receive device_raw].
  repeat case_match; intros; simplify_eq; try done;
    match goal with HT : transfers _ _ _ _ = _ |- _ => apply IH in HT as [-> ->] end; done.
Qed.
End Device.
