(* ===== verification/PinUi.v ===== *)
(** * The PIN pad's user interface

    [ccid-firmware/src/pinpad/ui.rs] (module [Ui]: the keypad, the touch handler
    and the screens over any draw target), the frame buffer and the screens of
    [main.rs] (module [Screen]) and [app_enum.rs] (module [Apps]: the SELECT probes
    whose outcome the idle screen shows).  The graphics library is the class
    [Graphics]: when a rectangle contains a point, the pixels of an item and the
    bits of a colour. *)
From Stdlib Require Import ZArith Lia ZifyBool Ascii.
From stdpp Require Import prelude strings.
From S2P Require Import Prelude Secure PinPad CardInterface Handler ContactHandler.
Import PinBuf.
Local Open Scope Z_scope.

(** ** Of the graphics library *)
Record Point := mkPoint { px : Z; py : Z }.
Record Rectangle := mkRect { top_left : Point; width : Z; height : Z }.

Inductive Rgb565 :=
| BLACK | WHITE | CSS_DARK_GRAY | CSS_SLATE_GRAY | CSS_CYAN | CSS_ORANGE_RED | CSS_GRAY
| Rgb (r g b : Z).

(** What a screen draws: a text in the one font, a rectangle with its fill, its
    border and the border's width. *)
Inductive Item :=
| Text (s : string) (at_ : Point) (color : Rgb565)
| Rect (r : Rectangle) (fill stroke : Rgb565) (stroke_width : Z).

Class Graphics := {
  rect_contains : Rectangle -> Point -> bool;
  pixels : Item -> list (Point * Rgb565);
  into_storage : Rgb565 -> Z
}.

(** A draw target, with its errors. *)
Class DrawTarget (T E : Type) := {
  t_clear : T -> Rgb565 -> T * result unit E;
  t_draw : T -> Item -> T * result unit E
}.

(** [a.saturating_sub(b)] on small numbers. *)
Definition centred (width len : Z) : Z := width `div` 2 - (len * 10) `div` 2.
Definition slen (s : string) : Z := Z.of_nat (String.length s).

Fixpoint stars (n : nat) : string :=
  match n with O => ""%string | S n => String "*"%char (stars n) end.

(** ** pinpad/ui.rs *)
Module Ui.

Definition COLOR_BG : Rgb565 := BLACK.
Definition COLOR_BUTTON : Rgb565 := CSS_DARK_GRAY.
Definition COLOR_BUTTON_HOVER : Rgb565 := CSS_SLATE_GRAY.
Definition COLOR_BUTTON_OK : Rgb565 := Rgb (Z.shiftr 0x1F 3) (Z.shiftr 0x8B 2) (Z.shiftr 0 3).
Definition COLOR_BUTTON_CANCEL : Rgb565 :=
  Rgb (Z.shiftr 0xDC 3) (Z.shiftr 0x14 2) (Z.shiftr 0x3C 3).
Definition COLOR_TEXT : Rgb565 := WHITE.
Definition COLOR_ACCENT : Rgb565 := CSS_CYAN.
Definition SCREEN_WIDTH : Z := 480.
Definition SCREEN_HEIGHT : Z := 800.
Definition BUTTON_SIZE : Z := 100.
Definition BUTTON_SPACING : Z := 20.
Definition KEYPAD_START_Y : Z := 200.
Definition KEYPAD_START_X : Z := 50.

Inductive ButtonId := BDigit (d : Z) | BOk | BCancel | BBackspace | BNone.
#[global] Instance ButtonId_eq_dec : EqDecision ButtonId.
Proof. solve_decision. Defined.

Record Button := mkButton { id : ButtonId; bounds : Rectangle; label : string; color : Rgb565 }.
Definition button (id : ButtonId) (x y : Z) (label : string) (color : Rgb565) : Button :=
  mkButton id (mkRect (mkPoint x y) BUTTON_SIZE BUTTON_SIZE) label color.

Definition Keypad : Type := list Button.
Definition keypad : Keypad :=
  let step := BUTTON_SIZE + BUTTON_SPACING in
  let bottom_y := KEYPAD_START_Y + 3 * step in
  let cancel_y := bottom_y + step in
  let cancel_x := KEYPAD_START_X + step in
  [button (BDigit 1) KEYPAD_START_X KEYPAD_START_Y "1" COLOR_BUTTON;
   button (BDigit 2) (KEYPAD_START_X + step) KEYPAD_START_Y "2" COLOR_BUTTON;
   button (BDigit 3) (KEYPAD_START_X + 2 * step) KEYPAD_START_Y "3" COLOR_BUTTON;
   button (BDigit 4) KEYPAD_START_X (KEYPAD_START_Y + step) "4" COLOR_BUTTON;
   button (BDigit 5) (KEYPAD_START_X + step) (KEYPAD_START_Y + step) "5" COLOR_BUTTON;
   button (BDigit 6) (KEYPAD_START_X + 2 * step) (KEYPAD_START_Y + step) "6" COLOR_BUTTON;
   button (BDigit 7) KEYPAD_START_X (KEYPAD_START_Y + 2 * step) "7" COLOR_BUTTON;
   button (BDigit 8) (KEYPAD_START_X + step) (KEYPAD_START_Y + 2 * step) "8" COLOR_BUTTON;
   button (BDigit 9) (KEYPAD_START_X + 2 * step) (KEYPAD_START_Y + 2 * step) "9" COLOR_BUTTON;
   button BBackspace KEYPAD_START_X bottom_y "<" COLOR_BUTTON;
   button (BDigit 0) (KEYPAD_START_X + step) bottom_y "0" COLOR_BUTTON;
   button BOk (KEYPAD_START_X + 2 * step) bottom_y "OK" COLOR_BUTTON_OK;
   button BCancel cancel_x cancel_y "X" COLOR_BUTTON_CANCEL].

Definition get_button (k : Keypad) (i : ButtonId) : option Button :=
  List.find (fun b => bool_decide (id b = i)) k.

Record TouchHandler := mkTouch { pressed : option ButtonId; was_pressed : bool }.
Definition touch_new : TouchHandler := mkTouch None false.

(** [Some] colour of a button: the highlight or its own. *)
Definition fill (pressed_button : option ButtonId) (hover : Rgb565) (b : Button) : Rgb565 :=
  if bool_decide (pressed_button = Some (id b)) then hover else color b.
Definition label_at (b : Button) : Point :=
  mkPoint (px (top_left (bounds b)) + BUTTON_SIZE `div` 2 - slen (label b) * 5)
    (py (top_left (bounds b)) + BUTTON_SIZE `div` 2 + 10).

Section Hit.
Context `{G : !Graphics}.

Definition contains (b : Button) (p : Point) : bool := rect_contains (bounds b) p.

Fixpoint hit_test (k : Keypad) (p : Point) : ButtonId :=
  match k with
  | [] => BNone
  | b :: k => if contains b p then id b else hit_test k p
  end.

Definition process (h : TouchHandler) (k : Keypad) (touch : option Point) :
    TouchHandler * option ButtonId :=
  match touch with
  | Some point => (mkTouch (Some (hit_test k point)) true, None)
  | None => (mkTouch None false, if was_pressed h then pressed h else None)
  end.
End Hit.

Section Draw.
Context {T E : Type} `{D : !DrawTarget T E}.
Implicit Types t : T.

(** [draw(..)?] one after the other. *)
Fixpoint draws t (items : list Item) : T * result unit E :=
  match items with
  | [] => (t, Ok tt)
  | i :: items =>
      let '(t, r) := t_draw t i in
      match r with Err e => (t, Err e) | Ok _ => draws t items end
  end.

Definition clear_then t (items : list Item) : T * result unit E :=
  let '(t, r) := t_clear t COLOR_BG in
  match r with Err e => (t, Err e) | Ok _ => draws t items end.

Definition button_items (pressed_button : option ButtonId) (hover : Rgb565) (b : Button) :
    list Item :=
  [Rect (bounds b) (fill pressed_button hover b) COLOR_TEXT 2;
   Text (label b) (label_at b) COLOR_TEXT].

Definition draw_pinpad t (title pin_mask : string) (k : Keypad) (status : option string)
    (pressed_button : option ButtonId) : T * result unit E :=
  clear_then t
    ([Text title (mkPoint (centred SCREEN_WIDTH (slen title)) 50) COLOR_TEXT;
      Text pin_mask (mkPoint (centred SCREEN_WIDTH (slen pin_mask)) 130) COLOR_ACCENT] ++
     flat_map (button_items pressed_button COLOR_BUTTON_HOVER) k ++
     match status with
     | Some s => [Text s (mkPoint (SCREEN_WIDTH `div` 2 - slen s * 5) 750) CSS_ORANGE_RED]
     | None => []
     end).

Definition draw_simple_pin_screen t (pin_len : nat) (pin_type : string) : T * result unit E :=
  let title := if String.eqb pin_type "Admin" then "Enter Admin PIN"%string
               else "Enter PIN"%string in
  draw_pinpad t title (stars (Nat.min pin_len 8)) keypad None None.

Definition draw_status_screen t (card_present usb_configured : bool) : T * result unit E :=
  let card_text := if card_present then "Card: present"%string else "Card: absent"%string in
  let usb_text := if usb_configured then "USB: configured"%string else "USB: waiting"%string in
  clear_then t
    [Text "CCID Reader" (mkPoint 150 60) COLOR_TEXT; Text "Idle" (mkPoint 220 120) COLOR_ACCENT;
     Text card_text (mkPoint 130 220) COLOR_TEXT; Text usb_text (mkPoint 130 260) COLOR_TEXT;
     Text "v0.1.0" (mkPoint 10 750) CSS_GRAY; Text "git:78bb26e" (mkPoint 350 750) CSS_GRAY].
End Draw.

End Ui.

(** ** The screens of main.rs *)
Module Screen.
Import Ui.

Record FrameBufferDrawTarget := mkFb { framebuffer : list Z; fb_width : Z; fb_height : Z }.
Definition with_fb fb (t : FrameBufferDrawTarget) : FrameBufferDrawTarget :=
  mkFb fb (fb_width t) (fb_height t).

Section Screen.
Context `{G : !Graphics}.
Implicit Types t : FrameBufferDrawTarget.

Definition clear (t : FrameBufferDrawTarget) (c : Rgb565) : FrameBufferDrawTarget :=
  with_fb (map (fun _ => into_storage c) (framebuffer t)) t.

(** A pixel that is on the screen; the index is a [u32] product. *)
Definition set_pixel t (p : Point * Rgb565) : FrameBufferDrawTarget :=
  let '(point, c) := p in
  if (0 <=? px point) && (0 <=? py point) then
    let x := wrap32 (px point) in
    let y := wrap32 (py point) in
    if (x <? fb_width t) && (y <? fb_height t) then
      let idx := Z.to_nat (wrap32 (y * fb_width t + x)) in
      if (idx <? length (framebuffer t))%nat
      then with_fb (<[idx := into_storage c]> (framebuffer t)) t
      else t
    else t
  else t.
Definition draw_iter t (ps : list (Point * Rgb565)) : FrameBufferDrawTarget :=
  fold_left set_pixel ps t.

Definition draw t (i : Item) : FrameBufferDrawTarget := draw_iter t (pixels i).
Definition paint t (items : list Item) : FrameBufferDrawTarget := fold_left draw items t.

Definition title_at t (s : string) (y : Z) : Point := mkPoint (centred (fb_width t) (slen s)) y.

(** What both PIN screens show below their titles. *)
Definition mask_and_keys t (pin_len : nat) (k : Keypad) (pressed_button : option ButtonId) :
    list Item :=
  let n := Nat.min pin_len 16 in
  Text (stars n) (mkPoint (centred (fb_width t) (Z.of_nat n)) 130) COLOR_ACCENT ::
  flat_map (button_items pressed_button CSS_SLATE_GRAY) k.

Definition draw_pin_screen t (context : Entry.PinEntryContext) (k : Keypad)
    (pressed_button : option ButtonId) : FrameBufferDrawTarget :=
  paint (clear t COLOR_BG)
    (Text "Enter PIN" (title_at t "Enter PIN" 50) COLOR_TEXT ::
     mask_and_keys t (len (Entry.buffer context)) k pressed_button).

Definition subtitle (s : Modify.PinModifyStep) : string :=
  match s with
  | Modify.OldPin => "Enter current PIN"
  | Modify.NewPin => "Enter new PIN"
  | Modify.ConfirmPin => "Confirm new PIN"
  | Modify.Completed => "Done!"
  | Modify.SCancelled => "Cancelled"
  | Modify.STimeout => "Timeout"
  | Modify.Mismatch => "PINs don't match"
  | Modify.SInvalidLength => "Invalid length"
  | Modify.Idle => ""
  end.

Definition draw_pin_modify_screen t (context : Modify.PinModifyContext) (k : Keypad)
    (pressed_button : option ButtonId) : FrameBufferDrawTarget :=
  let sub := subtitle (Modify.step context) in
  paint (clear t COLOR_BG)
    (Text "Change PIN" (title_at t "Change PIN" 30) COLOR_TEXT ::
     Text sub (title_at t sub 60) COLOR_ACCENT ::
     mask_and_keys t (Modify.current_buffer_len context) k pressed_button).

(** One line each, from 260 down. *)
Fixpoint app_items (y : Z) (apps : list string) : list Item :=
  match apps with
  | [] => []
  | a :: apps => Text a (mkPoint 150 y) CSS_GRAY :: app_items (y + 40) apps
  end.

(** [version] is the build's. *)
Definition draw_idle_screen t (version : string) (card_present : bool)
    (detected_apps : list string) : FrameBufferDrawTarget :=
  let card_text := if card_present then "Card: present"%string else "Card: absent"%string in
  let usb_y := 260 + 40 * Z.of_nat (length detected_apps) in
  paint (clear t COLOR_BG)
    ([Text "CCID Reader" (mkPoint 150 60) COLOR_TEXT; Text "Idle" (mkPoint 220 120) COLOR_ACCENT;
      Text card_text (mkPoint 130 220) COLOR_TEXT] ++
     app_items 260 detected_apps ++
     [Text "USB: ready" (mkPoint 130 usb_y) COLOR_TEXT; Text version (mkPoint 10 750) CSS_GRAY]).
End Screen.

End Screen.

(** ** app_enum.rs *)
Module Apps.

Definition APP_COUNT : nat := 5.
Definition AID_OPENPGP : list Z := [0xD2; 0x76; 0x00; 0x01; 0x24; 0x01].
Definition AID_PIV : list Z := [0xA0; 0x00; 0x00; 0x03; 0x08].
Definition AID_SEEDKEEPER : list Z :=
  [0x53; 0x65; 0x65; 0x64; 0x4B; 0x65; 0x65; 0x70; 0x65; 0x72; 0x00].
Definition AID_FIDO2 : list Z := [0xA0; 0x00; 0x00; 0x06; 0x47].
Definition AID_GIDS : list Z := [0xA0; 0x00; 0x00; 0x03; 0x97; 0x42; 0x54; 0x46; 0x59; 0x00; 0x00].

Definition KNOWN_APPS : list (string * list Z * nat) :=
  [("OpenPGP"%string, AID_OPENPGP, 6%nat); ("PIV"%string, AID_PIV, 5%nat);
   ("SeedKeeper"%string, AID_SEEDKEEPER, 11%nat); ("FIDO2"%string, AID_FIDO2, 5%nat);
   ("GIDS"%string, AID_GIDS, 11%nat)].

Record DetectedApp := mkApp { name : string; found : bool }.
Record AppEnumerationState := mkApps { apps : list DetectedApp; enumerated : bool }.

Definition new : AppEnumerationState :=
  mkApps (map (fun k => mkApp k.1.1 false) KNOWN_APPS) false.
Definition reset (s : AppEnumerationState) : AppEnumerationState :=
  mkApps (map (fun a => mkApp (name a) false) (apps s)) false.
Definition detected_names (s : AppEnumerationState) : list string :=
  map name (List.filter found (apps s)).
Definition is_enumerated (s : AppEnumerationState) : bool := enumerated s.

(** The SELECT command, cut from its 32-byte array. *)
Definition select_apdu (aid : list Z) (aid_len : nat) : outcome (list Z) :=
  let apdu := [0x00; 0xA4; 0x04; 0x00; wrap8 (Z.of_nat aid_len)] ++ replicate 27 0 in
  let len := Nat.min aid_len 26 in
  prefix ← slice aid 0 len;
  apdu ← copy_at apdu 5 prefix;
  apdu ← store apdu (5 + len) 0x00;
  slice apdu 0 (5 + len + 1).

(** The status word at the end of an answer; one byte alone is the second. *)
Definition status_of (response : list Z) (resp_len : nat) : outcome Z :=
  sw1 ← (if (1 <? resp_len)%nat then index response (resp_len - 2) else Ret 0);
  sw2 ← (if (0 <? resp_len)%nat then index response (resp_len - 1) else Ret 0);
  Ret (Z.lor (Z.shiftl sw1 8) sw2).

Section Enumerate.
Context {D E : Type} `{SD : !SmartcardDriver D E}.
Implicit Types m : Contact.CcidMessageHandler D.

Definition probe m (k : string * list Z * nat) : 
    outcome (Contact.CcidMessageHandler D * DetectedApp) :=
  let '(name, aid, aid_len) := k in
  apdu ← select_apdu aid aid_len;
  let '(m, response, r) := Contact.transmit_counted m apdu (replicate 32 0) in
  match r with
  | Ok resp_len => sw ← status_of response resp_len; Ret (m, mkApp name (sw =? 0x9000))
  | Err _ => Ret (m, mkApp name false)
  end.

Fixpoint probes m (ks : list (string * list Z * nat)) : 
    outcome (Contact.CcidMessageHandler D * list DetectedApp) :=
  match ks with
  | [] => Ret (m, [])
  | k :: ks =>
      '(m, a) ← probe m k;
      '(m, l) ← probes m ks;
      Ret (m, a :: l)
  end.

Definition enumerate_if_needed (s : AppEnumerationState) m (card_present : bool) :
    outcome (AppEnumerationState * Contact.CcidMessageHandler D * bool) :=
  if negb card_present then Ret (reset s, m, false)
  else if enumerated s then Ret (s, m, false)
  else
    '(m, l) ← probes m KNOWN_APPS;
    Ret (mkApps l true, m, true).
End Enumerate.

End Apps.
