(* ===== verification/PinUiSpec.v ===== *)
(** * Theorems about the PIN pad's user interface

    The keypad answers for every point of the plane with the one button that
    covers it, a touch counts when it is released, the screens depend on the
    number of digits only, and the probes are five SELECT commands. *)
From Stdlib Require Import ZArith Lia ZifyBool.
From stdpp Require Import prelude strings.
From S2P Require Import Prelude Secure PinPad CardInterface Handler HandlerFacts HandlerSpec.
From S2P Require Import ContactHandler ContactSpec PinUi.
Import PinBuf Ui.
Local Open Scope Z_scope.

(** ** The keypad *)

(** What [Rectangle::contains] documents: the right and the bottom edge are
    outside. *)
Definition inside (r : Rectangle) (p : Point) : bool :=
  (px (top_left r) <=? px p) && (px p <? px (top_left r) + width r) &&
  (py (top_left r) <=? py p) && (py p <? py (top_left r) + height r).

Class GraphicsLaws `{G : !Graphics} : Prop := {
  contains_inside r p : rect_contains r p = inside r p
}.

(** Two rectangles with a line between them, and their buttons. *)
Definition apart (b1 b2 : Button) : bool :=
  let '(r1, r2) := (bounds b1, bounds b2) in
  negb (bool_decide (id b1 = id b2)) &&
  ((px (top_left r1) + width r1 <=? px (top_left r2)) ||
   (px (top_left r2) + width r2 <=? px (top_left r1)) ||
   (py (top_left r1) + height r1 <=? py (top_left r2)) ||
   (py (top_left r2) + height r2 <=? py (top_left r1))).

Fixpoint laid_out (k : Keypad) : bool :=
  match k with
  | [] => true
  | b :: k => negb (bool_decide (id b = BNone)) && forallb (apart b) k && laid_out k
  end.

Lemma keypad_laid_out : laid_out keypad = true.
Proof. reflexivity. Qed.

Lemma apart_inside b1 b2 p : apart b1 b2 = true ->
  id b1 <> id b2 /\ (inside (bounds b1) p = true -> inside (bounds b2) p = false).
Proof.
  unfold apart, inside. intros H. apply andb_prop in H as [Hid H].
  split; [by case_bool_decide|]. lia.
Qed.

Section Keypad.
Context `{G : !Graphics} {GL : GraphicsLaws}.

Lemma hit_test_none k p : laid_out k = true ->
  hit_test k p = BNone <-> Forall (fun b => inside (bounds b) p = false) k.
Proof.
  induction k as [|b k IH]; cbn [laid_out hit_test]; [done|]. intros H.
  apply andb_prop in H as [[Hid Ha]%andb_prop Hk]. rewrite Forall_cons. unfold contains.
  rewrite contains_inside. destruct (inside (bounds b) p).
  - split; [|by intros [? _]]. intros E. rewrite E in Hid. by case_bool_decide.
  - rewrite IH by done. naive_solver.
Qed.

Lemma hit_test_button k p b : laid_out k = true -> b ∈ k ->
  hit_test k p = id b <-> inside (bounds b) p = true.
Proof.
  induction k as [|b' k IH]; cbn [laid_out hit_test]; [by intros _ ?%elem_of_nil|]. intros H Hb.
  apply andb_prop in H as [[Hid Ha]%andb_prop Hk]. unfold contains. rewrite contains_inside.
  rewrite forallb_forall in Ha. apply elem_of_cons in Hb as [->|Hb].
  - destruct (inside (bounds b') p) eqn:Ei; [done|]. split; [|done]. intros E. exfalso.
    destruct (decide (hit_test k p = BNone)) as [En|En].
    { rewrite <- E, En in Hid. by case_bool_decide. }
    clear IH Hid Ei. induction k as [|c k IHk]; [done|]. cbn [hit_test] in *.
    cbn [laid_out] in Hk. apply andb_prop in Hk as [_ Hk].
    destruct (contains c p); [|apply IHk; auto; intros x Hx; apply Ha; by right].
    destruct (apart_inside b' c p) as [Hne _]; [apply Ha; by left|done].
  - destruct (apart_inside b' b p) as [Hne Hin].
    { apply Ha. by apply list_elem_of_In. }
    destruct (inside (bounds b') p) eqn:Ei; [|by apply IH].
    split; [done|]. rewrite Hin by done. done.
Qed.

(** The keypad.  A point is answered with the button whose square it lies in,
    the right and bottom edges excluded, and with no button outside of all; the
    order in which the buttons are tried is of no consequence. *)
Theorem keypad_exact p :
  (forall b, b ∈ keypad -> hit_test keypad p = id b <-> inside (bounds b) p = true) /\
  (hit_test keypad p = BNone <-> Forall (fun b => inside (bounds b) p = false) keypad).
Proof.
  split; [intros b Hb; by apply hit_test_button|by apply hit_test_none].
Qed.

(** ** A touch *)
Definition samples (h : TouchHandler) (l : list (option Point)) : TouchHandler * list (option ButtonId) :=
  fold_left (fun s t => let '(h, b) := process s.1 keypad t in (h, s.2 ++ [b])) l (h, []).

Lemma samples_acc h l acc :
  fold_left (fun s t => let '(h, b) := process s.1 keypad t in (h, s.2 ++ [b])) l (h, acc) =
  ((samples h l).1, acc ++ (samples h l).2).
Proof.
  unfold samples. revert h acc; induction l as [|t l IH]; intros h acc; cbn [fold_left].
  { by rewrite app_nil_r. }
  cbn [fst snd]. destruct (process h keypad t) as [h' b]. rewrite IH, (IH h' ([] ++ [b])).
  cbn [fst snd app]. by rewrite <- app_assoc.
Qed.

Lemma samples_cons h t l : samples h (t :: l) =
  ((samples (process h keypad t).1 l).1, (process h keypad t).2 :: (samples (process h keypad t).1 l).2).
Proof.
  unfold samples at 1. cbn [fold_left fst snd].
  destruct (process h keypad t) as [h' b]. by rewrite samples_acc.
Qed.

(** A finger that rests and moves on the screen and is lifted answers once, at
    the release, with the button under its last position; between touches
    nothing is pressed and nothing answers. *)
Lemma touch_release h ps p :
  samples h (map Some ps ++ [Some p; None]) =
    (touch_new, replicate (S (length ps)) None ++ [Some (hit_test keypad p)]).
Proof.
  revert h; induction ps as [|q ps IH]; intros h; cbn [map app].
  - by rewrite !samples_cons.
  - rewrite samples_cons, IH. done.
Qed.

Lemma no_touch n : samples touch_new (replicate n None) = (touch_new, replicate n None).
Proof.
  induction n as [|n IH]; [done|]. cbn [replicate]. rewrite samples_cons.
  change (process touch_new keypad None) with (touch_new, @None ButtonId). cbn [fst snd]. by rewrite IH.
Qed.
End Keypad.

(** ** The screens *)
Section Screens.
Context `{G : !Graphics}.
Import Screen.
Implicit Types t : FrameBufferDrawTarget.

(** The size of a screen. *)
Definition same_size t t' : Prop :=
  fb_width t = fb_width t' /\ fb_height t = fb_height t' /\
  length (framebuffer t) = length (framebuffer t').

Lemma clear_same t t' c : same_size t t' -> clear t c = clear t' c.
Proof.
  destruct t as [fb w h], t' as [fb' w' h']. intros (Hw & Hh & Hl). cbn in *. subst.
  unfold clear, with_fb. cbn. f_equal. revert fb' Hl.
  induction fb as [|x fb IH]; intros [|x' fb'] Hl; try done. cbn in *. f_equal. by apply IH; lia.
Qed.

Lemma set_pixel_size t p : same_size (set_pixel t p) t.
Proof.
  unfold set_pixel. destruct p as [q c].
  repeat case_match; try done. unfold same_size. cbn. by rewrite length_insert.
Qed.

Lemma same_size_trans t1 t2 t3 : same_size t1 t2 -> same_size t2 t3 -> same_size t1 t3.
Proof. unfold same_size. intuition congruence. Qed.

Lemma draw_iter_size ps t : same_size (draw_iter t ps) t.
Proof.
  revert t; induction ps as [|p ps IH]; intros t; [done|]. cbn.
  eapply same_size_trans; [apply IH|apply set_pixel_size].
Qed.

Lemma paint_size items t : same_size (paint t items) t.
Proof.
  revert t; induction items as [|i items IH]; intros t; [done|]. cbn.
  eapply same_size_trans; [apply IH|apply draw_iter_size].
Qed.

Lemma clear_size t c : same_size (clear t c) t.
Proof. unfold same_size. cbn. by rewrite length_map. Qed.

(** A pixel outside of the screen changes nothing, one on it a single place. *)
Lemma set_pixel_spec t x y c :
  0 < fb_width t -> fb_width t * fb_height t <= u32_max ->
  Z.of_nat (length (framebuffer t)) = fb_width t * fb_height t ->
  -2147483648 <= x < 2147483648 -> -2147483648 <= y < 2147483648 ->
  set_pixel t (mkPoint x y, c) =
    if (0 <=? x) && (x <? fb_width t) && (0 <=? y) && (y <? fb_height t)
    then with_fb (<[Z.to_nat (y * fb_width t + x) := into_storage c]> (framebuffer t)) t
    else t.
Proof.
  intros Hw Hs Hl Hx Hy. unfold set_pixel. cbn [px py]. unfold u32_max in Hs.
  destruct (0 <=? x) eqn:Ex, (0 <=? y) eqn:Ey; cbn [andb];
    rewrite ?andb_false_r; try (by destruct (x <? fb_width t)).
  assert (Ewx : wrap32 x = x) by (unfold wrap32; rewrite Z.mod_small; lia).
  assert (Ewy : wrap32 y = y) by (unfold wrap32; rewrite Z.mod_small; lia).
  rewrite Ewx, Ewy, andb_true_r.
  destruct (x <? fb_width t) eqn:Exw, (y <? fb_height t) eqn:Eyh; cbn [andb]; try done.
  assert (Hidx : 0 <= y * fb_width t + x < fb_width t * fb_height t) by nia.
  unfold wrap32. rewrite Z.mod_small by lia. rewrite (proj2 (Nat.ltb_lt _ _)) by lia. done.
Qed.

(** C11: the PIN is not on the screen.  What the pad shows depends on the number of
    digits typed and on the key under the finger, not on the digits, on what was
    on the screen before or on anything else of the session; beyond sixteen
    digits not even on the number. *)
Theorem screen_hides_pin t t' c c' k b :
  same_size t t' ->
  Nat.min (len (Entry.buffer c)) 16 = Nat.min (len (Entry.buffer c')) 16 ->
  draw_pin_screen t c k b = draw_pin_screen t' c' k b /\ same_size (draw_pin_screen t c k b) t.
Proof.
  intros Hs Hn. unfold draw_pin_screen, mask_and_keys, title_at. destruct (Hs) as (-> & _ & _).
  rewrite Hn, (clear_same t t') by done. split; [done|].
  eapply same_size_trans; [apply paint_size|].
  eapply same_size_trans; [apply clear_size|]. unfold same_size in *. intuition congruence.
Qed.

(** The same of a modification, whose titles show its step. *)
Lemma modify_screen_hides_pin t t' c c' k b :
  same_size t t' -> Modify.step c = Modify.step c' ->
  Nat.min (Modify.current_buffer_len c) 16 = Nat.min (Modify.current_buffer_len c') 16 ->
  draw_pin_modify_screen t c k b = draw_pin_modify_screen t' c' k b.
Proof.
  intros Hs Hst Hn. unfold draw_pin_modify_screen, mask_and_keys, title_at.
  destruct (Hs) as (-> & _ & _). by rewrite Hst, Hn, (clear_same t t').
Qed.
End Screens.

(** ** The application probes *)
Section Probes.
Context {D E : Type} {SD : SmartcardDriver D E} {SL : SmartcardLaws D E}.
Import Apps.
Implicit Types (m : Contact.CcidMessageHandler D) (k : string * list Z * nat).

(** SELECT by name, with the longest answer asked for. *)
Definition select k : list Z :=
  [0x00; 0xA4; 0x04; 0x00; Z.of_nat (length k.1.2)] ++ k.1.2 ++ [0x00].

Lemma select_known : Forall (fun k => select_apdu k.1.2 k.2 = Ret (select k)) KNOWN_APPS.
Proof. repeat constructor. Qed.

(** Whether an answer ends in 90 00. *)
Definition accepted (response : list Z) (r : result nat E) : bool :=
  match r with
  | Ok n => (2 <=? n)%nat && bool_decide (take 2 (drop (n - 2) response) = [0x90; 0x00])
  | Err _ => false
  end.

Lemma lor_high_byte x y : u8 x -> u8 y -> Z.lor (Z.shiftl x 8) y = x * 256 + y.
Proof.
  unfold u8. intros Hx Hy. pose proof (Z.add_lor_land (Z.shiftl x 8) y) as H.
  assert (Z.land (Z.shiftl x 8) y = 0) as E0.
  { apply Z.bits_inj'. intros n Hn. rewrite Z.land_spec, Z.bits_0, Z.shiftl_spec by done.
    destruct (Z.ltb_spec n 8); [by rewrite (Z.testbit_neg_r _ (n - 8)) by lia|].
    rewrite (Z.bits_above_log2 y n); [by rewrite andb_false_r|lia|].
    destruct (decide (y = 0)) as [->|]; [cbn; lia|]. apply Z.log2_lt_pow2; [lia|].
    apply Z.lt_le_trans with (2 ^ 8); [lia|]. apply Z.pow_le_mono_r; lia. }
  rewrite E0, Z.shiftl_mul_pow2 in H by lia. rewrite Z.shiftl_mul_pow2 by lia. lia.
Qed.

Lemma status_of_spec response n : bytes response -> (n <= length response)%nat ->
  exists sw, status_of response n = Ret sw /\ (sw =? 0x9000) = accepted response (Ok n).
Proof.
  intros Hb Hn. unfold status_of, accepted.
  destruct n as [|[|n]]; cbn [Nat.ltb Nat.leb].
  - by eexists.
  - destruct (lookup_lt_is_Some_2 response 0 ltac:(lia)) as [y Hy].
    cbn [Nat.sub]. rewrite (index_ok _ _ _ Hy). eexists. split; [reflexivity|].
    assert (u8 y) by (eapply Forall_lookup_1; [exact Hb|exact Hy]). unfold u8 in *.
    rewrite Z.shiftl_0_l, Z.lor_0_l. cbn [andb Nat.leb]. lia.
  - destruct (lookup_lt_is_Some_2 response n ltac:(lia)) as [x Hx].
    destruct (lookup_lt_is_Some_2 response (S n) ltac:(lia)) as [y Hy].
    replace (S (S n) - 2)%nat with n by lia. replace (S (S n) - 1)%nat with (S n) by lia.
    rewrite (index_ok _ _ _ Hx), (index_ok _ _ _ Hy). cbn [mbind outcome_bind].
    eexists. split; [reflexivity|]. cbn [andb Nat.leb].
    rewrite (drop_S _ _ _ Hx), (drop_S _ _ _ Hy). cbn [take].
    assert (u8 x /\ u8 y) as [Ux Uy] by (split; eapply Forall_lookup_1; eauto).
    unfold u8 in *. rewrite lor_high_byte by done.
    case_bool_decide as Ec; [injection Ec as -> ->; lia|].
    destruct (Z.eqb_spec (x * 256 + y) 0x9000); [|done]. exfalso. apply Ec.
    assert (x = 0x90 /\ y = 0) as [-> ->] by lia. done.
Qed.

Lemma transmit_counted_ok m cmd buf : contact_ok m -> (32 <= length buf)%nat ->
  let x := Contact.transmit_counted m cmd buf in
  contact_ok x.1.1 /\ length x.1.2 = length buf /\ (bytes buf -> bytes x.1.2) /\
  match x.2 with Ok n => (n <= length buf)%nat | Err _ => True end.
Proof.
  intros [Hm Hev] Hlen. unfold Contact.transmit_counted.
  destruct (Handler.transmit_counted (Contact.core m) cmd buf) as [[c b] res] eqn:Et.
  destruct (transmit_counted_spec _ _ _ _ _ _ (mo_core _ Hm) Hlen Et) as (_ & _ & Ec & Hc & Hf).
  destruct Hf as (_ & Hl & Hb & Hn). cbn [fst snd] in *.
  split; [split; [by apply wf_core|]|done]. cbn. rewrite Ec. by destruct (is_ok _).
Qed.

Lemma probe_spec m k : contact_ok m -> select_apdu k.1.2 k.2 = Ret (select k) ->
  let x := Contact.transmit_counted m (select k) (replicate 32 0) in
  probe m k = Ret (x.1.1, mkApp k.1.1 (accepted x.1.2 x.2)) /\ contact_ok x.1.1.
Proof.
  intros Hm Hk x. pose proof (transmit_counted_ok m (select k) (replicate 32 0) Hm (Nat.le_refl 32)) as Hx.
  fold x in Hx. destruct Hx as (Hok & Hl & Hb & Hn). split; [|done].
  unfold probe. destruct k as [[nm aid] n]. cbn [fst snd] in *. rewrite Hk. cbn [mbind outcome_bind].
  fold x. destruct x as [[m' response] [n'|e]]; cbn [fst snd] in *; [|done].
  assert (Hbr : bytes (replicate 32 0)) by (apply Forall_replicate; unfold u8; lia).
  destruct (status_of_spec response n') as (sw & -> & <-); [by apply Hb|lia|]. done.
Qed.

(** The exchanges one after the other: what each finds, and the handler behind
    them. *)
Fixpoint selects m (ks : list (string * list Z * nat)) : Contact.CcidMessageHandler D * list DetectedApp :=
  match ks with
  | [] => (m, [])
  | k :: ks =>
      let x := Contact.transmit_counted m (select k) (replicate 32 0) in
      let r := selects x.1.1 ks in
      (r.1, mkApp k.1.1 (accepted x.1.2 x.2) :: r.2)
  end.

Lemma probes_spec ks m : contact_ok m ->
  Forall (fun k => select_apdu k.1.2 k.2 = Ret (select k)) ks ->
  probes m ks = Ret (selects m ks) /\ contact_ok (selects m ks).1.
Proof.
  revert m; induction ks as [|k ks IH]; intros m Hm Hks; [done|].
  apply Forall_cons in Hks as [Hk Hks]. cbn [probes selects].
  destruct (probe_spec m k Hm Hk) as [-> Hm']. cbn [mbind outcome_bind].
  destruct (IH _ Hm' Hks) as [-> Hok]. cbn [mbind outcome_bind fst snd].
  destruct (selects _ ks). done.
Qed.

(** One pass of the probes never panics, sends the five SELECT commands once, in
    order, and an application counts as found when its answer ends in 90 00; a
    second pass sends nothing until the state is reset. *)
Lemma enumerate_spec s m present : contact_ok m ->
  exists s' m' b, enumerate_if_needed s m present = Ret (s', m', b) /\ contact_ok m' /\
    (present = true -> enumerated s = false ->
       m' = (selects m KNOWN_APPS).1 /\ s' = mkApps (selects m KNOWN_APPS).2 true /\ b = true) /\
    (present = true -> enumerated s = true -> s' = s /\ m' = m /\ b = false) /\
    (present = false -> s' = reset s /\ m' = m /\ b = false).
Proof.
  intros Hm. unfold enumerate_if_needed. destruct present; cbn [negb].
  2: { eexists _, _, _. split_and!; done. }
  destruct (enumerated s); [by eexists _, _, _|].
  destruct (probes_spec KNOWN_APPS m Hm select_known) as [-> Hok]. cbn [mbind outcome_bind].
  destruct (selects m KNOWN_APPS) as [m' l]. by eexists _, _, _.
Qed.

(** Only the card and its counters are touched: the message under assembly, the
    answer in flight and the pending results stay. *)
Lemma selects_core m ks : exists c, (selects m ks).1 = Contact.set_core c m.
Proof.
  revert m; induction ks as [|k ks IH]; intros m; [exists (Contact.core m); by destruct m|].
  cbn [selects fst]. unfold Contact.transmit_counted.
  destruct (Handler.transmit_counted _ _ _) as [[c b] r]. cbn [fst].
  destruct (IH (Contact.set_core c m)) as [c' ->]. by exists c'.
Qed.
End Probes.

(** ** Witnesses *)
Example screen_hides_pin_witness :
  let G : Graphics := {| rect_contains := inside; pixels i := match i with
      | Rect r c _ _ => [(top_left r, c)] | Text s p c => [(p, c)] end; into_storage _ := 7 |} in
  let entry ds := Entry.mkEntry Entry.WaitingForPin (mkBuf (ds ++ replicate 12 0) 4 8)
                    Secure.Parse.verify_default 0 None in
  let t := Screen.mkFb (replicate 12 1) 4 3 in
  let t' := Screen.mkFb (replicate 12 2) 4 3 in
  Screen.draw_pin_screen t (entry [1; 2; 3; 4]) keypad None =
    Screen.draw_pin_screen t' (entry [9; 8; 7; 6]) keypad None.
Proof. intros G entry t t'. by apply screen_hides_pin. Defined.
