(* ===== verification/MainLoop.v ===== *)
(** * The main loop of the contact reader with a display

    [ccid-firmware/src/main.rs], the loop behind the bring-up: the USB class is
    polled, then the mode decides between the idle screen with its application
    probes, a PIN entry and a PIN modification, and the pending PIN results are
    run on the card.  What the bus, the touch controller and the tick counter
    answer in a turn is its argument; log lines and the bring-up of clocks, pins
    and display are not modelled. *)
From Stdlib Require Import ZArith Lia ZifyBool.
From stdpp Require Import prelude strings.
From S2P Require Import Prelude Secure PinPad Handler ContactHandler UsbClass PinUi.
Import PinBuf Ui Screen.
Local Open Scope Z_scope.

Module Main.

Inductive AppMode :=
| Normal
| PinEntry (context : Entry.PinEntryContext) (k : Keypad) (touch_handler : TouchHandler) (seq : Z)
| PinModify (context : Modify.PinModifyContext) (k : Keypad) (touch_handler : TouchHandler)
    (seq : Z).

(** What the loop keeps. *)
Record Reader (D : Type) := mkReader {
  ccid_class : Usb.CcidClass D;
  mode : AppMode;
  last_card_present : bool;
  app_enum_state : Apps.AppEnumerationState;
  draw_target : FrameBufferDrawTarget
}.
Arguments mkReader {D}.
Arguments ccid_class {D} _.
Arguments mode {D} _.
Arguments last_card_present {D} _.
Arguments app_enum_state {D} _.
Arguments draw_target {D} _.

(** The calls [usb_device.poll] makes into the class. *)
Inductive UsbCall :=
| Poll (now_cycles : Z) (w1 : Usb.written) (r : Usb.received) (w2 : Usb.written)
| InComplete (is_ep_in : bool) (w : Usb.written).

(** The touch controller in a turn: whether there is one, the number of touches
    and the first of them, [None] for errors. *)
Record Touch := mkSample { controller : bool; detected : option Z; first : option (Z * Z) }.

(** A turn of the loop: [get_tick_ms()] is read once. *)
Record Turn := mkTurn { usb : list UsbCall; touch : Touch; tick_ms : Z }.

Definition touch_point (t : Touch) : option Point :=
  if controller t then
    match detected t with
    | Some num =>
        if 0 <? num then
          match first t with Some (x, y) => Some (mkPoint x y) | None => None end
        else None
    | None => None
    end
  else None.

(** The names the idle screen has room for. *)
Definition shown (s : Apps.AppEnumerationState) : list string := take 5 (Apps.detected_names s).

(** ** A key of the pad *)
Definition press_entry (c : Entry.PinEntryContext) (b : ButtonId) : outcome Entry.PinEntryContext :=
  match b with
  | BDigit d => r ← Entry.add_digit c d; Ret r.1
  | BBackspace => Ret (Entry.backspace c).1
  | BOk => Ret (Entry.submit c).1
  | BCancel => Ret (Entry.cancel c)
  | BNone => Ret c
  end.

Definition press_modify (c : Modify.PinModifyContext) (b : ButtonId) :
    outcome Modify.PinModifyContext :=
  match b with
  | BDigit d => r ← Modify.add_digit c d; Ret r.1
  | BBackspace => Ret (Modify.backspace c).1
  | BOk => r ← Modify.submit c; Ret r.1
  | BCancel => Ret (Modify.cancel c)
  | BNone => Ret c
  end.

Section Loop.
Context {D E : Type} `{SD : !SmartcardDriver D E} `{G : !Graphics}.
(** [option_env!("GIT_VERSION")] of the build. *)
Variable version : string.
Implicit Types (r : Reader D) (u : Usb.CcidClass D).

Definition with_class u r : Reader D :=
  mkReader u (mode r) (last_card_present r) (app_enum_state r) (draw_target r).
Definition with_mode v r : Reader D :=
  mkReader (ccid_class r) v (last_card_present r) (app_enum_state r) (draw_target r).
Definition with_last v r : Reader D :=
  mkReader (ccid_class r) (mode r) v (app_enum_state r) (draw_target r).
Definition with_apps v r : Reader D :=
  mkReader (ccid_class r) (mode r) (last_card_present r) v (draw_target r).
Definition with_screen v r : Reader D :=
  mkReader (ccid_class r) (mode r) (last_card_present r) (app_enum_state r) v.

Definition handler r : Contact.CcidMessageHandler D := Usb.handler (ccid_class r).
Definition with_handler m r : Reader D := with_class (Usb.with_handler m (ccid_class r)) r.

Fixpoint usb_poll (calls : list UsbCall) u : outcome (Usb.CcidClass D) :=
  match calls with
  | [] => Ret u
  | Poll now w1 rd w2 :: calls => s ← Usb.poll now w1 rd w2 u; usb_poll calls s.1
  | InComplete is_ep_in w :: calls =>
      s ← Usb.endpoint_in_complete is_ep_in w u; usb_poll calls s.1
  end.

Definition idle_screen r (card_present : bool) : Reader D :=
  with_screen (draw_idle_screen (draw_target r) version card_present (shown (app_enum_state r))) r.

(** The idle screen and the probes. *)
Definition idle r : outcome (Reader D) :=
  let card_present := Contact.is_card_present (handler r) in
  let card_active := Contact.is_card_active (handler r) in
  if negb (eqb card_present (last_card_present r)) then
    let r := if card_present then r else with_apps (Apps.reset (app_enum_state r)) r in
    Ret (with_last card_present (idle_screen r card_present))
  else if card_active && negb (Apps.is_enumerated (app_enum_state r)) then
    '(s, m, _) ← Apps.enumerate_if_needed (app_enum_state r) (handler r) card_active;
    Ret (idle_screen (with_apps s (with_handler m r)) card_present)
  else Ret r.

Definition normal_arm r (now : Z) : outcome (Reader D) :=
  let c := Contact.core (handler r) in
  if is_pin_entry_active c then
    let '(m, taken) := Contact.take_secure_params (handler r) in
    let r := with_handler m r in
    Ret (match taken with
         | Some (seq, params) =>
             with_mode (PinEntry (Entry.start (Entry.new params) now) keypad touch_new seq) r
         | None => r
         end)
  else if is_pin_modify_active c then
    let '(m, taken) := Contact.take_secure_modify_params (handler r) in
    let r := with_handler m r in
    Ret (match taken with
         | Some (seq, params) =>
             with_mode (PinModify (Modify.start (Modify.new params) now) keypad touch_new seq) r
         | None => r
         end)
  else idle r.

(** Back to normal operation. *)
Definition leave r : Reader D :=
  with_last (Contact.is_card_present (handler r)) (with_mode Normal r).

Definition entry_arm r (context : Entry.PinEntryContext) (k : Keypad) (th : TouchHandler)
    (seq : Z) (t : Touch) (now : Z) : outcome (Reader D) :=
  let '(th, button) := process th k (touch_point t) in
  context ← (match button with Some b => press_entry context b | None => Ret context end);
  '(context, _) ← Entry.check_timeout context now 1000;
  let r := with_screen (draw_pin_screen (draw_target r) context k (pressed th)) r in
  Ret (if Entry.is_complete context then
         let r := match Entry.result context with
                  | Some result =>
                      with_handler (Contact.set_pin_result seq result (Entry.buffer context)
                                      (Entry.params context) (handler r)) r
                  | None => r
                  end in
         leave r
       else with_mode (PinEntry context k th seq) r).

Definition modify_arm r (context : Modify.PinModifyContext) (k : Keypad) (th : TouchHandler)
    (seq : Z) (t : Touch) (now : Z) : outcome (Reader D) :=
  let '(th, button) := process th k (touch_point t) in
  context ← (match button with Some b => press_modify context b | None => Ret context end);
  '(context, _) ← Modify.check_timeout context now 1000;
  let r := with_screen (draw_pin_modify_screen (draw_target r) context k (pressed th)) r in
  Ret (if Modify.is_complete context then
         let r := match Modify.result context with
                  | Some result =>
                      with_handler (Contact.set_pin_modify_result seq result
                                      (Modify.old_buffer context) (Modify.new_buffer context)
                                      (Modify.params context) (handler r)) r
                  | None => r
                  end in
         leave r
       else with_mode (PinModify context k th seq) r).

Definition mode_arm r (t : Touch) (now : Z) : outcome (Reader D) :=
  match mode r with
  | Normal => normal_arm r now
  | PinEntry context k th seq => entry_arm r context k th seq t now
  | PinModify context k th seq => modify_arm r context k th seq t now
  end.

(** The pending results at the end of a turn. *)
Definition process_results r : outcome (Reader D) :=
  u ← Usb.process_pin_result (ccid_class r);
  u ← Usb.process_pin_modify_result u;
  Ret (with_class u r).

Definition turn r (t : Turn) : outcome (Reader D) :=
  u ← usb_poll (usb t) (ccid_class r);
  r ← mode_arm (with_class u r) (touch t) (tick_ms t);
  process_results r.

Fixpoint turns r (ts : list Turn) : outcome (Reader D) :=
  match ts with
  | [] => Ret r
  | t :: ts => r ← turn r t; turns r ts
  end.

(** The reader the loop starts with. *)
Definition boot u (screen : FrameBufferDrawTarget) : Reader D :=
  mkReader u Normal false Apps.new screen.
End Loop.

End Main.
