(* ===== verification/MainLoopSpec.v ===== *)
(** * Theorems about the main loop of the contact reader

    The loop keeps its invariant through every turn, a PIN pad session is the
    abstract entry machine of [PinPad.v] over the keys that were released, and
    what it ends with is what the card is asked to verify. *)
From Stdlib Require Import ZArith Lia ZifyBool.
From stdpp Require Import prelude strings.
From S2P Require Import Prelude Wire Secure CardInterface Handler HandlerFacts HandlerSpec.
From S2P Require Import ContactHandler ContactSpec UsbClass UsbSpec PinUi PinUiSpec MainLoop PinPad.
From S2P Require Import DeviceProfile Smartcard SmartcardSpec UsartContract.
Import PinBuf Ui Screen Main.
Local Open Scope Z_scope.

#[local] Existing Instance ContactProfile.

(** ** The pad, abstractly *)
Definition key_events (b : ButtonId) : list PinPad.event :=
  match b with
  | BDigit d => [Digit d]
  | BBackspace => [Backspace]
  | BOk => [Submit]
  | BCancel => [Cancel]
  | BNone => []
  end.

Section Pad.
Context `{G : !Graphics}.

(** What a turn feeds to the machine: the key that was released, then the clock. *)
Definition pad_events (th : TouchHandler) (t : Touch) (now : Z) : list PinPad.event :=
  match (process th keypad (touch_point t)).2 with Some b => key_events b | None => [] end ++
  [CheckTimeout now 1000].

Definition entry_machine (p : PinVerifyParams) : aentry -> PinPad.event -> aentry * answer :=
  spec_entry (Z.to_nat (v_max_len p) `min` 16) (Z.to_nat (v_min_len p)) (v_timeout_secs p).

(** A turn of the pad: the finger and the entry. *)
Definition pad_step (p : PinVerifyParams) (s : TouchHandler * aentry) (t : Turn) :
    TouchHandler * aentry :=
  ((process s.1 keypad (touch_point (touch t))).1,
   (spec_run (entry_machine p) s.2 (pad_events s.1 (touch t) (tick_ms t))).1).
Definition pad_run (p : PinVerifyParams) (s : TouchHandler * aentry) (ts : list Turn) :
    TouchHandler * aentry := fold_left (pad_step p) ts s.
End Pad.

(** Only the keys of the pad are digits. *)
Definition th_ok (th : TouchHandler) : Prop :=
  match pressed th with Some (BDigit d) => u8 d | _ => True end.

Definition pad_inv (p : PinVerifyParams) : Entry.PinEntryContext -> Prop :=
  entry_inv p (Z.to_nat (v_max_len p) `min` 16).

(** A modification is never entered ([modification_swallowed]). *)
Definition mode_ok (m : AppMode) : Prop :=
  match m with
  | Normal => True
  | PinEntry c k th seq =>
      k = keypad /\ th_ok th /\ pad_inv (Entry.params c) c /\ Entry.is_active c = true
  | PinModify _ _ _ _ => False
  end.

Section Keys.
Context `{G : !Graphics}.

Lemma hit_test_digit p d : hit_test keypad p = BDigit d -> u8 d.
Proof.
  assert (H : forall k, Forall (fun b => match id b with BDigit d => u8 d | _ => True end) k ->
    hit_test k p = BDigit d -> u8 d).
  { intros k; induction k as [|b k IH]; cbn [hit_test]; [done|]. intros [Hb Hk]%Forall_cons.
    destruct (contains b p); [|by apply IH]. intros E. by rewrite E in Hb. }
  apply H. repeat constructor; unfold u8; cbn; lia.
Qed.

Lemma process_ok th t : th_ok th ->
  th_ok (process th keypad t).1 /\
  match (process th keypad t).2 with Some (BDigit d) => u8 d | _ => True end.
Proof.
  unfold th_ok, process. intros H. destruct t as [p|]; cbn [fst snd pressed].
  - split; [|done]. destruct (hit_test keypad p) eqn:Eh; try done. by eapply hit_test_digit.
  - split; [done|]. destruct (was_pressed th); [|done]. by destruct (pressed th) as [[]|].
Qed.

Lemma pad_events_ok th t now : th_ok th -> Forall PinPad.event_ok (pad_events th t now).
Proof.
  intros H. destruct (process_ok th (touch_point t) H) as [_ Hb]. unfold pad_events.
  apply Forall_app. split; [|by apply Forall_singleton].
  destruct (process th keypad (touch_point t)).2 as [[]|]; cbn [key_events];
    first [by apply Forall_nil|by apply Forall_singleton].
Qed.
End Keys.

(** A key is its events. *)
Lemma press_entry_run c b : press_entry c b = r ← run Entry.step c (key_events b); Ret r.1.
Proof.
  destruct b as [d| | | |]; cbn [key_events run Entry.step press_entry mbind outcome_bind fst];
    try done.
  destruct (Entry.add_digit c d) as [[? ?]|]; done.
Qed.

Lemma run_one {C E R} (step : C -> E -> outcome (C * R)) c e :
  run step c [e] = r ← step c e; Ret (r.1, [r.2]).
Proof. cbn. destruct (step c e) as [[? ?]|]; done. Qed.

(** A turn of the pad's machine is the machine of the specification. *)
Lemma pad_turn `{G : !Graphics} c th t now : th_ok th -> pad_inv (Entry.params c) c ->
  exists c1 c2 f,
    (match (process th keypad (touch_point t)).2 with
     | Some b => press_entry c b | None => Ret c end) = Ret c1 /\
    Entry.check_timeout c1 now 1000 = Ret (c2, f) /\
    pad_inv (Entry.params c) c2 /\ Entry.params c2 = Entry.params c /\
    abs_entry c2 =
      (spec_run (entry_machine (Entry.params c)) (abs_entry c) (pad_events th t now)).1.
Proof.
  intros Hth Hc. pose proof (pad_events_ok th t now Hth) as Hev.
  destruct (run_refines _ _ _ _ _ c (pad_events th t now)
    (entry_simulates (Entry.params c) _) Hc Hev) as (c2 & Er & Hc2 & Ha).
  unfold pad_events in Er. rewrite run_app in Er.
  set (es := match _ with Some b => key_events b | None => [] end) in Er.
  assert (Ep : (match (process th keypad (touch_point t)).2 with
     | Some b => press_entry c b | None => Ret c end) = r ← run Entry.step c es; Ret r.1).
  { unfold es. destruct (process th keypad (touch_point t)).2 as [b|]; [apply press_entry_run|done]. }
  rewrite Ep. destruct (run Entry.step c es) as [[c1 rs]|]; [|done].
  cbn [mbind outcome_bind fst snd] in *. rewrite run_one in Er. cbn [Entry.step] in Er.
  destruct (Entry.check_timeout c1 now 1000) as [[c2' f]|] eqn:Et; [|done].
  cbn [mbind outcome_bind fst snd] in Er. injection Er as <- _.
  exists c1, c2', f. split_and!; try done. apply Hc2.
Qed.

(** ** What the bus leaves alone *)
Section Bus.
Context {D E : Type} {SD : SmartcardDriver D E} {SL : SmartcardLaws D E}.
Implicit Types (m : Contact.CcidMessageHandler D) (u : Usb.CcidClass D).

(** No result of a session is waiting for its exchange. *)
Definition no_pending m : Prop :=
  Contact.pin_result_pending m = None /\ Contact.pin_modify_result_pending m = None.

(** [m'] has the pending results of [m]. *)
Definition same_pending m m' : Prop :=
  Contact.pin_result_pending m' = Contact.pin_result_pending m /\
  Contact.pin_modify_result_pending m' = Contact.pin_modify_result_pending m.

Lemma delegate_pending m m' : Contact.delegate_to_core m = Ret m' -> same_pending m m'.
Proof.
  unfold Contact.delegate_to_core. intros H.
  destruct (slice _ _ _); [|done]. cbn [mbind outcome_bind] in H.
  destruct (process_command _ _ _); [|done]. by injection H as <-.
Qed.

Lemma route_pending ty q m m' : Contact.route ty q m = Ret m' -> same_pending m m'.
Proof.
  unfold Contact.route, Contact.handle_icc_clock, Contact.handle_set_data_rate_and_clock,
    Contact.handle_escape, Contact.send_err_resp.
  intros H. repeat case_match; simplify_eq; try done; by apply delegate_pending.
Qed.

Lemma handle_message_pending m m' : Contact.handle_message m = Ret m' -> same_pending m m'.
Proof.
  unfold Contact.handle_message. intros H.
  destruct (_ <? _)%nat; [by simplify_eq|]. cbv zeta in H.
  destruct (negb _); [by simplify_eq|]. destruct (Contact.cmd_busy m); [by simplify_eq|].
  destruct (Contact.route _ _ _) as [m1|] eqn:Er; [|done].
  apply route_pending in Er. cbn [mbind outcome_bind] in H. injection H as <-.
  unfold same_pending in *. cbn in Er. destruct Er as [<- <-].
  unfold Contact.surface_reinit, Contact.apply_parameters. repeat case_match; done.
Qed.

Lemma try_send_pending w u u' o : Usb.try_send w u = Ret (u', o) ->
  same_pending (Usb.handler u) (Usb.handler u').
Proof.
  unfold Usb.try_send. intros H. repeat case_match; simplify_eq; try done.
  all: destruct (slice _ _ _); [|done]; cbn [mbind outcome_bind] in H; injection H as <- _;
    repeat case_match; done.
Qed.

Lemma receive_pending r u u' : Usb.receive r u = Ret u' ->
  same_pending (Usb.handler u) (Usb.handler u').
Proof.
  unfold Usb.receive. intros H. destruct r; [|by simplify_eq].
  destruct (Contact.feed _ _) as [m|] eqn:Ef; [|done]. cbn [mbind outcome_bind] in H.
  assert (same_pending (Usb.handler u) m) as Hf.
  { unfold Contact.feed in Ef. destruct (copy_at _ _ _); [|done]. cbn [mbind outcome_bind] in Ef.
    injection Ef as <-. unfold Contact.drop_unassemblable. by destruct (_ && _). }
  destruct (Contact.message_ready m); [|by simplify_eq].
  destruct (Contact.handle_message m) as [m'|] eqn:Eh; [|done]. cbn [mbind outcome_bind] in H.
  injection H as <-. apply handle_message_pending in Eh. unfold same_pending in *. cbn. intuition congruence.
Qed.

Lemma presence_pending m : no_pending m -> no_pending (Contact.check_card_presence m).1.
Proof.
  intros Hn. unfold Contact.check_card_presence.
  destruct (check_card_change _) as [c [ch|]]; cbn [fst]; [|done]. by destruct (negb _).
Qed.

Lemma poll_pending now w1 rd w2 u u' out : Usb.poll now w1 rd w2 u = Ret (u', out) ->
  no_pending (Usb.handler u) -> no_pending (Usb.handler u').
Proof.
  unfold Usb.poll, Contact.poll_diagnostics. intros H Hn.
  destruct (SelfHeal.Dwt.poll _ _) as [[up ticks]|]; [|done]. cbn [mbind outcome_bind] in H.
  match type of H with context [Contact.check_card_presence ?m] =>
    pose proof (presence_pending m Hn) as Hp; destruct (Contact.check_card_presence m) as [m1 ch] end.
  cbn [fst] in Hp.
  destruct (Usb.try_send w1 _) as [[u1 o1]|] eqn:E1; [|done]. cbn [mbind outcome_bind fst snd] in H.
  destruct (Usb.receive rd u1) as [u2|] eqn:E2; [|done]. cbn [mbind outcome_bind fst snd] in H.
  destruct (Usb.try_send w2 u2) as [[u3 o3]|] eqn:E3; [|done]. cbn [mbind outcome_bind fst snd] in H.
  injection H as <- _. apply try_send_pending in E1, E3. apply receive_pending in E2.
  unfold no_pending, same_pending in *. cbn in *. intuition congruence.
Qed.

(** What the host sends are bytes. *)
Definition call_ok (c : UsbCall) : Prop :=
  match c with Poll _ _ rd _ => received_bytes rd | InComplete _ _ => True end.

Lemma usb_poll_ok calls u u' : usb_ok u -> no_pending (Usb.handler u) -> Forall call_ok calls ->
  usb_poll calls u = Ret u' -> usb_ok u' /\ no_pending (Usb.handler u').
Proof.
  revert u; induction calls as [|[now w1 rd w2|ep w] calls IH]; intros u Hu Hn Hc Hp;
    cbn [usb_poll] in Hp; [by injection Hp as <-|..]; apply Forall_cons in Hc as [Hc Hcs].
  - destruct (Usb.poll now w1 rd w2 u) as [[u1 out]|] eqn:E1; [|done].
    destruct (usb_poll_safe now w1 rd w2 u Hu Hc) as (u2 & _ & _ & _ & Hok).
    eapply IH; [by eapply Hok|by eapply poll_pending|done|exact Hp].
  - unfold Usb.endpoint_in_complete in Hp. destruct ep; [|by eapply IH].
    destruct (try_send_ok w u Hu) as ([u1 o] & E1 & Hu1). rewrite E1 in Hp.
    eapply IH; [exact Hu1| |done|exact Hp].
    apply try_send_pending in E1. unfold no_pending, same_pending in *. cbn in *. intuition congruence.
Qed.
End Bus.

(** ** The exchange at the end of a session *)
Section Results.
Context {D E : Type} {SD : SmartcardDriver D E} {SL : SmartcardLaws D E}.
Implicit Types (m : Contact.CcidMessageHandler D) (u : Usb.CcidClass D).

(** What a session leaves: the core and a reply that fits. *)
Definition ended (c c' : Core (CardAdapter.SmartcardCoreAdapter D)) (r : reply) : Prop :=
  core_ok c' /\ (r.2 <= 271)%nat /\ length r.1 = 271%nat /\
  parameters_accepted_event c' = parameters_accepted_event c /\ secure_state c' = SecureIdle /\
  slot_state c' = slot_state c.

Lemma complete_ended (c : Core (CardAdapter.SmartcardCoreAdapter D)) seq result data buf : core_ok c -> length buf = 271%nat ->
  let r := complete_pin_entry c seq result data buf in ended c r.1 r.2.
Proof.
  intros Hc Hl r. unfold r, complete_pin_entry.
  assert (core_ok (set_secure_state SecureIdle c)) by (by destruct Hc; constructor).
  destruct result; cbn [fst snd]; (split; [done|]); rewrite <- Hl;
    (split; [apply write_message_bound|]); (split; [apply write_message_length|done]).
Qed.

Lemma exchange_ended (c : Core (CardAdapter.SmartcardCoreAdapter D)) seq apdu buf : core_ok c -> length buf = 271%nat ->
  exists c' r, pin_exchange c seq apdu buf = Ret (c', r) /\ ended c c' r.
Proof.
  intros Hc Hl. unfold pin_exchange.
  destruct (transmit_counted c apdu (replicate CARD_RESP_SIZE 0)) as [[c1 tx] res] eqn:Et.
  destruct (transmit_counted_spec _ _ _ _ _ _ Hc response_room Et) as (-> & -> & Ec1 & Hc1 & Hf).
  set (t := transmit_apdu _ _ _) in *.
  assert (parameters_accepted_event c1 = parameters_accepted_event c /\ slot_state c1 = slot_state c)
    as [Hev Hs] by (by rewrite Ec1).
  assert (Hend : forall result data, exists c' r,
    complete_pin_entry c1 seq result data buf = (c', r) /\ ended c c' r).
  { intros result data. pose proof (complete_ended c1 seq result data buf Hc1 Hl) as H.
    destruct (complete_pin_entry c1 seq result data buf) as [c' r]. exists c', r.
    split; [done|]. unfold ended in *. by rewrite <- Hev, <- Hs. }
  destruct t as [[d b] [n|e]]; cbn [fst snd] in *.
  - destruct (fills_slice _ _ _ _ Hf) as (Es & _).
    { apply Forall_replicate. by unfold u8. }
    rewrite Es, bind_ret. destruct (Hend Success (Some (take n b))) as (c' & r & -> & H).
    by exists c', r.
  - destruct (Hend Cancelled None) as (c' & r & -> & H). by exists c', r.
Qed.

(** The command a PIN becomes. *)
Definition verify_apdu (p : PinVerifyParams) (b : PinBuffer) : list Z :=
  let t := v_apdu_template p in
  [arr t 0; 0x20; arr t 2; arr t 3; Z.of_nat (len b)] ++ ascii_of b.

(** More digits than the builder's array under a P2 that sets no limit. *)
Definition overrun (p : PinVerifyParams) (n : nat) : Prop :=
  length_ok (arr (v_apdu_template p) 3) n /\ (8 < n)%nat.

(** The handler behind the pending result. *)
Lemma process_pin_result_spec m seq result b p : contact_ok m -> wf b ->
  Contact.pin_result_pending m = Some (seq, result, b, p) ->
  (Contact.process_pin_result m = Panic <-> result = Success /\ overrun p (len b)) /\
  forall m', Contact.process_pin_result m = Ret m' ->
    contact_ok m' /\ Contact.pin_result_pending m' = None /\
    Contact.pin_modify_result_pending m' = Contact.pin_modify_result_pending m.
Proof.
  intros [Hm Hev] Hb Hpend. unfold Contact.process_pin_result. rewrite Hpend.
  set (m0 := Contact.set_verify_pending None m).
  assert (Hm0 : contact_wf m0) by (by destruct Hm; constructor).
  assert (Hfin : forall c' r, ended (Contact.core m) c' r ->
    let m' := Contact.set_tx r (Contact.set_core c' m0) in
    contact_ok m' /\ Contact.pin_result_pending m' = None /\
    Contact.pin_modify_result_pending m' = Contact.pin_modify_result_pending m).
  { intros c' r (Hc & Hn & Hl & He & _) m'. split; [|done]. split; [|unfold m'; cbn; congruence].
    apply wf_tx; [by apply wf_core|done|done]. }
  pose proof (mo_tx_length _ Hm) as Htl. pose proof (mo_core _ Hm) as Hc.
  change (Contact.core m0) with (Contact.core m). change (Contact.tx_buffer m0) with (Contact.tx_buffer m).
  destruct (verify_exchange_cases (Contact.core m) seq result b p (Contact.tx_buffer m) Hb)
    as [[Hr Er]|[(-> & Hn & Er)|[(-> & Ha & H8 & Er)|(-> & Ha & H8 & Er)]]].
  - rewrite Er. split; [split; [done|by intros [? _]]|]. intros m' [= <-].
    by apply Hfin, complete_ended.
  - rewrite Er. split; [split; [done|by intros (_ & ? & _)]|]. intros m' [= <-].
    by apply (Hfin _ _ (complete_ended (Contact.core m) seq InvalidLength None _ Hc Htl)).
  - rewrite Er. by split; [split|].
  - match type of Er with _ = pin_exchange _ _ ?a _ => change a with (verify_apdu p b) in Er end.
    destruct (exchange_ended (Contact.core m) seq (verify_apdu p b) (Contact.tx_buffer m) Hc Htl)
      as (c' & r & Ex & He). rewrite Er, Ex. cbn [mbind outcome_bind fst snd].
    split; [split; [done|intros (_ & _ & ?); lia]|]. intros m' [= <-]. by apply Hfin.
Qed.
End Results.

(** ** The arms of a turn *)
Definition entry_result (s : aentry) : option PinResult :=
  match s with
  | EDone _ => Some Success
  | ECancelled => Some Cancelled
  | ETimeout => Some Secure.Timeout
  | ETooShort _ => Some InvalidLength
  | EIdle | EEntering _ _ => None
  end.

Lemma abs_result c : Entry.result c = entry_result (abs_entry c) /\
  Entry.is_complete c = bool_decide (is_Some (entry_result (abs_entry c))).
Proof. unfold Entry.result, Entry.is_complete, abs_entry. by destruct (Entry.state c). Qed.

(** An entry under way stays one or ends; it is not forgotten. *)
Lemma machine_awake p s e : s <> EIdle -> e <> Reset_ctx -> (entry_machine p s e).1 <> EIdle.
Proof.
  intros Hs He. unfold entry_machine, spec_entry.
  destruct e, s; try done; cbn [fst]; by repeat case_match.
Qed.

Lemma spec_run_awake p es s : s <> EIdle -> Forall (fun e => e <> Reset_ctx) es ->
  (spec_run (entry_machine p) s es).1 <> EIdle.
Proof.
  revert s; induction es as [|e es IH]; intros s Hs Hes; [done|].
  apply Forall_cons in Hes as [He Hes]. cbn [spec_run fst]. apply IH; [|done].
  by apply machine_awake.
Qed.

Lemma pad_events_no_reset `{G : !Graphics} th t now :
  Forall (fun e => e <> Reset_ctx) (pad_events th t now).
Proof.
  unfold pad_events. apply Forall_app. split; [|by apply Forall_singleton].
  destruct (process th keypad (touch_point t)).2 as [[]|]; cbn [key_events];
    first [by apply Forall_nil|by apply Forall_singleton].
Qed.

Section Turns.
Context {D E : Type} {SD : SmartcardDriver D E} {SL : SmartcardLaws D E} `{G : !Graphics}.
Variable version : string.
Implicit Types (r : Reader D) (u : Usb.CcidClass D) (m : Contact.CcidMessageHandler D).

(** A turn of the pad, in the terms of the machine. *)
Lemma entry_arm_spec r c th seq t now : mode_ok (PinEntry c keypad th seq) ->
  exists c2,
    pad_inv (Entry.params c) c2 /\ Entry.params c2 = Entry.params c /\
    abs_entry c2 = (spec_run (entry_machine (Entry.params c)) (abs_entry c) (pad_events th t now)).1 /\
    let th' := (process th keypad (touch_point t)).1 in
    let r1 := with_screen (draw_pin_screen (draw_target r) c2 keypad (pressed th')) r in
    entry_arm r c keypad th seq t now = Ret
      match entry_result (abs_entry c2) with
      | Some result =>
          leave (with_handler (Contact.set_pin_result seq result (Entry.buffer c2) (Entry.params c)
                                 (handler r1)) r1)
      | None => with_mode (PinEntry c2 keypad th' seq) r1
      end /\
    (entry_result (abs_entry c2) = None -> mode_ok (PinEntry c2 keypad th' seq)).
Proof.
  intros (_ & Hth & Hc & Ha).
  destruct (pad_turn c th t now Hth Hc) as (c1 & c2 & f & E1 & E2 & Hc2 & Hp & Habs).
  exists c2. split; [done|]. split; [done|]. split; [done|]. cbv zeta. split.
  - unfold entry_arm. destruct (process th keypad (touch_point t)) as [th' b]. cbn [fst snd] in *.
    rewrite E1. cbn [mbind outcome_bind]. rewrite E2. cbn [mbind outcome_bind].
    destruct (abs_result c2) as [-> ->]. rewrite Hp.
    by destruct (entry_result (abs_entry c2)).
  - intros Hn. unfold mode_ok. rewrite Hp. split_and!; try done; [by apply process_ok|].
    assert (Hw : abs_entry c2 <> EIdle).
    { rewrite Habs. apply spec_run_awake; [|apply pad_events_no_reset].
      unfold Entry.is_active, abs_entry in *. by destruct (Entry.state c). }
    unfold Entry.is_active, abs_entry in *. by destruct (Entry.state c2).
Qed.

(** Between two turns. *)
Record reader_ok r : Prop := mkReaderOk {
  ro_class : usb_ok (ccid_class r);
  ro_pending : no_pending (handler r);
  ro_mode : mode_ok (mode r)
}.

Lemma idle_arm_ok r : usb_ok (ccid_class r) -> no_pending (handler r) -> mode_ok (mode r) ->
  exists r', idle version r = Ret r' /\ usb_ok (ccid_class r') /\ no_pending (handler r') /\
    mode r' = mode r.
Proof.
  intros Hu Hn Hmode. unfold idle. destruct (negb (eqb _ _)).
  { eexists. split; [reflexivity|]. by destruct (Contact.is_card_present _). }
  destruct (_ && _) eqn:Ea; [|by eexists].
  apply andb_prop in Ea as [Eact Een].
  destruct (enumerate_spec (app_enum_state r) (handler r) (Contact.is_card_active (handler r)) (uo_handler _ Hu))
    as (s' & m' & b & -> & Hok & Hnew & Hold & Habs). cbn [mbind outcome_bind].
  eexists. split; [reflexivity|]. cbn [idle_screen with_screen with_apps with_handler with_class ccid_class handler mode].
  assert (Hm : exists c, m' = Contact.set_core c (handler r)).
  { destruct (Hnew Eact) as (-> & _ & _); [by apply negb_true_iff|]. apply selects_core. }
  destruct Hm as [c ->]. split; [|done]. by apply with_handler_ok.
Qed.

Lemma normal_arm_ok r now : usb_ok (ccid_class r) -> no_pending (handler r) -> mode r = Normal ->
  exists r', normal_arm version r now = Ret r' /\ reader_ok r' /\
    (forall p q, secure_state (Contact.core (handler r)) = WaitingForPinVerify q p ->
       mode r' = PinEntry (Entry.start (Entry.new p) now) keypad touch_new q /\
       ccid_class r' = Usb.with_handler (Contact.set_core
         (set_secure_state SecureIdle (Contact.core (handler r))) (handler r)) (ccid_class r) /\
       draw_target r' = draw_target r) /\
    (forall p q, secure_state (Contact.core (handler r)) = WaitingForPinModify q p ->
       r' = with_handler (Contact.set_core
              (set_secure_state SecureIdle (Contact.core (handler r))) (handler r)) r).
Proof.
  intros Hu Hn Hmode.
  assert (Hidle : usb_ok (Usb.with_handler (Contact.set_core
      (set_secure_state SecureIdle (Contact.core (handler r))) (handler r)) (ccid_class r))).
  { apply with_handler_ok; [done| |done]. destruct (uo_handler _ Hu) as [Hm Hev].
    split; [|done]. apply wf_core; [done|]. destruct (mo_core _ Hm). by constructor. }
  unfold normal_arm, is_pin_entry_active, Contact.take_secure_params, Handler.take_secure_params.
  destruct (secure_state (Contact.core (handler r))) as [|q p|q p] eqn:Es; cbn [fst snd].
  - unfold is_pin_modify_active. rewrite Es.
    destruct (idle_arm_ok r Hu Hn) as (r' & -> & Hu' & Hn' & Hm'); [by rewrite Hmode|].
    exists r'. split; [done|]. split; [|done]. constructor; [done..|]. by rewrite Hm', Hmode.
  - eexists. split; [reflexivity|]. split.
    + constructor; [done..|]. split_and!; try done. unfold pad_inv.
      destruct (buf_new (Z.to_nat (v_max_len p))) as [Hb _].
      split; [|by split]. apply (buf_clear _ _ Hb).
    + split; [by intros p' q' [= <- <-]|done].
  - eexists. split; [reflexivity|]. split; [|split; [done|done]].
    constructor; [done..|]. cbn. by rewrite Hmode.
Qed.

(** The turn in which an entry ends with more digits than its P2 has room for. *)
Definition turn_overruns r (t : Turn) : Prop :=
  match mode r with
  | PinEntry c k th seq =>
      match (pad_step (Entry.params c) (th, abs_entry c) t).2 with
      | EDone pin => overrun (Entry.params c) (length pin)
      | _ => False
      end
  | _ => False
  end.

(** The invariant but for a reply that was being sent when the answer of a
    session replaced it, and is shorter than what was sent already. *)
Definition answered_or_torn r r' : Prop :=
  contact_ok (handler r') /\ no_pending (handler r') /\ mode_ok (mode r') /\
  (usb_ok (ccid_class r') \/
   (mode r' = Normal /\ mode r <> Normal /\
    (Contact.tx_len (handler r') < Usb.tx_offset (ccid_class r'))%nat)).

Lemma with_class_ok u r : usb_ok u -> no_pending (Usb.handler u) -> mode_ok (mode r) ->
  reader_ok (with_class u r).
Proof. by constructor. Qed.

Lemma process_results_quiet r : no_pending (handler r) -> process_results r = Ret r.
Proof.
  intros [H1 H2]. unfold process_results, Usb.process_pin_result, Usb.process_pin_modify_result,
    Contact.process_pin_result, Contact.process_pin_modify_result, handler in *.
  rewrite H1. cbn [mbind outcome_bind Usb.with_handler Usb.handler]. rewrite H2.
  destruct r as [[] ? ? ? ?]. done.
Qed.

(** The last turn of a session: the handler holds the result that waits. *)
Lemma process_results_spec r u m seq result b p : usb_ok u -> contact_ok m ->
  Contact.tx_len m = Contact.tx_len (Usb.handler u) ->
  Contact.pin_modify_result_pending m = None ->
  Contact.pin_result_pending m = Some (seq, result, b, p) -> wf b ->
  ccid_class r = Usb.with_handler m u -> mode r = Normal ->
  (process_results r = Panic <-> result = Success /\ overrun p (len b)) /\
  forall r' r0, process_results r = Ret r' -> mode r0 <> Normal -> answered_or_torn r0 r'.
Proof.
  intros Hu Hm Htl Hmod Hpend Hb Hclass Hmode.
  destruct (process_pin_result_spec m seq result b p Hm Hb Hpend) as [Hp Hret].
  unfold process_results, Usb.process_pin_result. rewrite Hclass.
  cbn [Usb.with_handler Usb.handler].
  destruct (Contact.process_pin_result m) as [m1|] eqn:Em; cbn [mbind outcome_bind].
  2: { split; [|done]. rewrite <- Hp. done. }
  destruct (Hret m1 eq_refl) as (Hok & Hn1 & Hn2). rewrite Hmod in Hn2.
  unfold Usb.process_pin_modify_result, Contact.process_pin_modify_result.
  cbn [Usb.with_handler Usb.handler]. rewrite Hn2. cbn [mbind outcome_bind].
  split; [rewrite <- Hp; done|]. intros r' r0 [= <-] Hr0.
  split; [done|]. split; [done|]. split; [change (mode_ok (mode r)); by rewrite Hmode|].
  cbn [handler with_class ccid_class Usb.with_handler Usb.handler Usb.tx_offset mode].
  destruct (Nat.le_gt_cases (Usb.tx_offset u) (Contact.tx_len m1)).
  - left. destruct Hu. by constructor.
  - right. split; [exact Hmode|done].
Qed.

(** C10: the main loop, over a card driver that keeps its contract
    (SmartcardLaws: in particular it counts no more response bytes than the
    buffer holds).  Whatever the bus, the finger and the clock do in a turn, the
    loop ends it with its invariant: the class in order, no result left waiting,
    the pad's session standing for a state of the entry machine.  It panics only
    where the USB class does, or when a PIN of more than eight digits is
    confirmed under a P2 that sets no limit; and the one thing that may be torn
    is a reply that was half sent when the answer of a session replaced it.
    The F469's own driver keeps the contract for as long as no T=0 answer is
    counted past its buffer (UsartContract.usart_laws; the witness runs that
    driver); a card that makes it do so panics the reader
    (SmartcardSpec.stubborn_card_resets_reader). *)
Theorem main_loop_turn r t : reader_ok r -> Forall call_ok (usb t) ->
  (turn version r t = Panic <-> usb_poll (usb t) (ccid_class r) = Panic \/ turn_overruns r t) /\
  forall r', turn version r t = Ret r' -> answered_or_torn r r'.
Proof.
  intros [Hu Hn Hmode] Hc. unfold turn, turn_overruns.
  destruct (usb_poll (usb t) (ccid_class r)) as [u|] eqn:Eu; cbn [mbind outcome_bind].
  2: { split; [split; [by left|done]|done]. }
  destruct (usb_poll_ok _ _ _ Hu Hn Hc Eu) as [Hu1 Hn1].
  unfold mode_arm. cbn [mode with_class].
  destruct (mode r) as [|c k th seq|] eqn:Em; [| |done].
  - destruct (normal_arm_ok (with_class u r) (tick_ms t) Hu1 Hn1 Em) as (r1 & -> & [Hu2 Hn2 Hm2] & _).
    cbn [mbind outcome_bind]. rewrite process_results_quiet by done.
    split; [by split; [|intros [?|[]]]|]. intros r' [= <-].
    split_and!; [apply Hu2|done..|by left].
  - destruct Hmode as (-> & Hmode).
    destruct (entry_arm_spec (with_class u r) c th seq (touch t) (tick_ms t)) as
      (c2 & Hc2 & Hp & Habs & -> & Hok); [done|]. cbn [mbind outcome_bind].
    assert (Hps : (pad_step (Entry.params c) (th, abs_entry c) t).2 = abs_entry c2) by done.
    rewrite Hps. destruct Hc2 as (Hbuf & _ & Hst).
    assert (Hpin : length (pin (Entry.buffer c2)) = len (Entry.buffer c2)) by apply length_pin, Hbuf.
    destruct (entry_result (abs_entry c2)) as [result|] eqn:Er.
    + destruct (uo_handler _ Hu1) as [Hm Hev]. set (r1 := leave _).
      set (m := Contact.set_pin_result seq result (Entry.buffer c2) (Entry.params c) (Usb.handler u)).
      destruct (process_results_spec r1 u m seq result (Entry.buffer c2) (Entry.params c) Hu1)
        as [Hpanic Hret]; try done; [|apply Hn1|apply Hbuf|].
      { split; [|done]. destruct Hm; by constructor. }
      split; [|intros r' Hr'; apply (Hret r' r Hr'); by rewrite Em]. rewrite Hpanic.
      destruct (abs_entry c2) as [| |pn| | |] eqn:Ea; try done; injection Er as <-;
        try (split; [by intros [? _]|by intros [?|?]]).
      assert (pn = pin (Entry.buffer c2)) as ->.
      { unfold abs_entry in Ea. destruct (Entry.state c2); congruence. }
      rewrite Hpin. split; [intros [_ ?]; by right|by intros [?|?]].
    + rewrite process_results_quiet by done. split.
      * split; [done|]. intros [?|Hx]; [done|]. by destruct (abs_entry c2).
      * intros r' [= <-]. split; [apply Hu1|]. split; [done|]. split; [by apply Hok|by left].
Qed.

(** ** Quiet turns: nothing from the bus *)
Definition in_pad r (p : PinVerifyParams) (seq : Z) (s : TouchHandler * aentry) u : Prop :=
  exists c, mode r = PinEntry c keypad s.1 seq /\ mode_ok (mode r) /\ Entry.params c = p /\
    abs_entry c = s.2 /\ ccid_class r = u.

Lemma pad_turn_quiet r p seq s u t : in_pad r p seq s u -> no_pending (Usb.handler u) ->
  usb t = [] -> entry_result (pad_step p s t).2 = None ->
  exists r', turn version r t = Ret r' /\ in_pad r' p seq (pad_step p s t) u.
Proof.
  intros (c & Em & Hmode & Hp & Ha & Hu) Hn Hq Hr. unfold turn. rewrite Hq. cbn [usb_poll mbind outcome_bind].
  unfold mode_arm. cbn [mode with_class]. rewrite Em in *.
  destruct (entry_arm_spec (with_class (ccid_class r) r) c s.1 seq (touch t) (tick_ms t) Hmode)
    as (c2 & Hc2 & Hp2 & Habs & -> & Hok). cbn [mbind outcome_bind].
  assert (Hs : abs_entry c2 = (pad_step p s t).2) by (by rewrite Habs, Hp, Ha).
  rewrite Hs, Hr in *. rewrite process_results_quiet by (unfold handler; cbn; by rewrite Hu).
  eexists. split; [reflexivity|]. exists c2. split_and!; try done; [by apply Hok|congruence].
Qed.

(** An entry that ended stays ended. *)
Lemma machine_ended p es s : entry_result s <> None ->
  Forall (fun e => match e with Start _ | Reset_ctx => False | _ => True end) es ->
  entry_result (spec_run (entry_machine p) s es).1 <> None.
Proof.
  revert s; induction es as [|e es IH]; intros s Hs Hes; [done|].
  apply Forall_cons in Hes as [He Hes]. cbn [spec_run fst]. apply IH; [|done].
  unfold entry_machine, spec_entry. by destruct e, s.
Qed.

Lemma pad_run_ended p s ts : entry_result s.2 <> None -> entry_result (pad_run p s ts).2 <> None.
Proof.
  revert s; induction ts as [|t ts IH]; intros s Hs; [done|]. cbn [pad_run fold_left].
  apply IH. cbn [pad_step snd]. apply machine_ended; [done|]. unfold pad_events.
  apply Forall_app. split; [|by apply Forall_singleton].
  destruct (process s.1 keypad (touch_point (touch t))).2 as [[]|]; cbn [key_events];
    first [by apply Forall_nil|by apply Forall_singleton].
Qed.

Lemma pad_turns_quiet ts r p seq s u : in_pad r p seq s u -> no_pending (Usb.handler u) ->
  Forall (fun t => usb t = []) ts -> entry_result (pad_run p s ts).2 = None ->
  exists r', turns version r ts = Ret r' /\ in_pad r' p seq (pad_run p s ts) u.
Proof.
  revert r s; induction ts as [|t ts IH]; intros r s Hr Hn Hq Hend; [by exists r|].
  apply Forall_cons in Hq as [Hq Hqs]. cbn [turns pad_run fold_left] in *.
  assert (Hstep : entry_result (pad_step p s t).2 = None).
  { destruct (entry_result (pad_step p s t).2) eqn:Es; [|done].
    exfalso. eapply (pad_run_ended p (pad_step p s t) ts); [congruence|exact Hend]. }
  destruct (pad_turn_quiet r p seq s u t Hr Hn Hq Hstep) as (r1 & -> & Hr1). cbn [mbind outcome_bind].
  by apply IH.
Qed.

(** The command for the digits. *)
Definition verify_pin (p : PinVerifyParams) (digits : list Z) : list Z :=
  let t := v_apdu_template p in
  [arr t 0; 0x20; arr t 2; arr t 3; Z.of_nat (length digits)] ++ map (fun d => d + 0x30) digits.

Lemma turns_app r ts1 ts2 : turns version r (ts1 ++ ts2) = r ← turns version r ts1; turns version r ts2.
Proof.
  revert r; induction ts1 as [|t ts1 IH]; intros r; [done|]. cbn [app turns].
  destruct (turn version r t); [apply IH|done].
Qed.

Lemma start_session r t seq p : reader_ok r -> mode r = Normal -> usb t = [] ->
  secure_state (Contact.core (handler r)) = WaitingForPinVerify seq p ->
  let m := Contact.set_core (set_secure_state SecureIdle (Contact.core (handler r))) (handler r) in
  exists r', turn version r t = Ret r' /\
    in_pad r' p seq (touch_new, EEntering (tick_ms t) []) (Usb.with_handler m (ccid_class r)).
Proof.
  intros [Hu Hn Hmode] Hm Hq Hs m. unfold turn. rewrite Hq. cbn [usb_poll mbind outcome_bind].
  unfold mode_arm. cbn [mode with_class]. rewrite Hm.
  destruct (normal_arm_ok (with_class (ccid_class r) r) (tick_ms t) Hu Hn Hm)
    as (r1 & -> & [Hu1 Hn1 Hm1] & Hv & _). cbn [mbind outcome_bind].
  rewrite process_results_quiet by done. destruct (Hv p seq Hs) as (Em & Ec & _).
  exists r1. split; [done|]. eexists. split; [exact Em|]. split; [done|]. split; [done|].
  split; [|exact Ec]. unfold abs_entry, Entry.start, Entry.new.
  cbn [Entry.state Entry.start_ticks Entry.buffer snd]. done.
Qed.

(** The exchange with the card, and what it leaves. *)
Lemma process_results_exchange r u m seq b p : contact_ok m ->
  Contact.pin_modify_result_pending m = None ->
  Contact.pin_result_pending m = Some (seq, Success, b, p) -> wf b ->
  ccid_class r = Usb.with_handler m u ->
  length_ok (arr (v_apdu_template p) 3) (len b) -> (len b <= 8)%nat ->
  let c := Contact.core m in
  let x := transmit_apdu (nfc c) (verify_apdu p b) (replicate CARD_RESP_SIZE 0) in
  exists r', process_results r = Ret r' /\ mode r' = mode r /\
    nfc (Contact.core (handler r')) = x.1.1 /\
    secure_state (Contact.core (handler r')) = SecureIdle /\
    Contact.get_tx_buffer (handler r') =
      match x.2 with
      | Ok n => data_reply 0 seq (icc_status (slot_state c)) false 0 (take n x.1.2)
      | Err _ => pin_reply_failed c seq CCID_ERR_PIN_CANCELLED
      end.
Proof.
  intros [Hm Hev] Hmod Hpend Hb Hclass Hok H8 c x.
  destruct (verify_exchange_cases c seq Success b p (Contact.tx_buffer m) Hb)
    as [[Hr _]|[(_ & Hx & _)|[(_ & _ & H9 & _)|(_ & _ & _ & Er)]]]; [done..|lia|].
  match type of Er with _ = pin_exchange _ _ ?a _ => change a with (verify_apdu p b) in Er end.
  destruct (pin_exchange_spec c seq (verify_apdu p b) (Contact.tx_buffer m) (mo_core _ Hm))
    as (c' & rp & Ex & Hnfc & Hsec & _ & Htx).
  { rewrite (mo_tx_length _ Hm). unfold CARD_RESP_SIZE. lia. }
  rewrite Ex in Er. unfold process_results, Usb.process_pin_result, Contact.process_pin_result.
  rewrite Hclass. cbn [Usb.with_handler Usb.handler]. rewrite Hpend.
  change (Contact.core (Contact.set_verify_pending None m)) with c.
  change (Contact.tx_buffer (Contact.set_verify_pending None m)) with (Contact.tx_buffer m).
  rewrite Er. cbn [mbind outcome_bind]. unfold Usb.process_pin_modify_result,
    Contact.process_pin_modify_result. cbn [Usb.with_handler Usb.handler Contact.set_tx Contact.set_core
    Contact.set_verify_pending Contact.pin_modify_result_pending]. rewrite Hmod.
  cbn [mbind outcome_bind]. eexists. split; [reflexivity|]. done.
Qed.

(** The turn that ends a session with a PIN. *)
Lemma end_session r t seq p s u digits : in_pad r p seq s u -> usb_ok u -> no_pending (Usb.handler u) ->
  usb t = [] -> (pad_step p s t).2 = EDone digits ->
  length_ok (arr (v_apdu_template p) 3) (length digits) -> (length digits <= 8)%nat ->
  let c := Contact.core (Usb.handler u) in
  let x := transmit_apdu (nfc c) (verify_pin p digits) (replicate CARD_RESP_SIZE 0) in
  exists r', turn version r t = Ret r' /\ mode r' = Normal /\
    nfc (Contact.core (handler r')) = x.1.1 /\
    secure_state (Contact.core (handler r')) = SecureIdle /\
    Contact.get_tx_buffer (handler r') =
      match x.2 with
      | Ok n => data_reply 0 seq (icc_status (slot_state c)) false 0 (take n x.1.2)
      | Err _ => pin_reply_failed c seq CCID_ERR_PIN_CANCELLED
      end.
Proof.
  intros (cx & Em & Hmode & Hp & Ha & Hcl) Hu Hn Hq Hd Hlen H8 c x.
  unfold turn. rewrite Hq. cbn [usb_poll mbind outcome_bind].
  unfold mode_arm. cbn [mode with_class]. rewrite Em in *.
  destruct (entry_arm_spec (with_class (ccid_class r) r) cx s.1 seq (touch t) (tick_ms t) Hmode)
    as (c2 & [Hbuf _] & Hp2 & Habs & -> & _). cbn [mbind outcome_bind].
  assert (Hs : abs_entry c2 = EDone digits) by (by rewrite Habs, Hp, Ha, <- Hd).
  rewrite Hs. cbn [entry_result]. rewrite Hp.
  assert (Epin : pin (Entry.buffer c2) = digits).
  { unfold abs_entry in Hs. destruct (Entry.state c2); congruence. }
  assert (El : len (Entry.buffer c2) = length digits) by (rewrite <- Epin; symmetry; apply length_pin, Hbuf).
  set (r1 := leave _). set (m := Contact.set_pin_result seq Success (Entry.buffer c2) p (Usb.handler u)).
  assert (Ev : verify_apdu p (Entry.buffer c2) = verify_pin p digits).
  { unfold verify_apdu, verify_pin, ascii_of. by rewrite El, Epin. }
  destruct (process_results_exchange r1 u m seq (Entry.buffer c2) p) as (r' & E1 & E2 & E3 & E4 & E5);
    rewrite ?El; try done.
  - destruct (uo_handler _ Hu) as [Hm Hev]. split; [|done]. by destruct Hm; constructor.
  - apply Hn.
  - apply Hbuf.
  - unfold r1, m. by rewrite <- Hcl.
  - rewrite Ev in *. by exists r'.
Qed.

(** C9: a PIN pad session, from an armed verification to the card.  The reader is
    in its normal mode with a PIN verification armed (the state an accepted
    Secure command leaves), its card driver keeps SmartcardLaws, and the bus is
    quiet in every turn of the session (no USB traffic is modelled while the
    pad is up).  Then the loop starts the pad; the keys released in the turns
    that follow, with the timeout, are the abstract entry machine's; and when
    that machine has its PIN, of at most eight digits and of no more than P2 of
    the template lets into its block (`length_ok`; P2 = 0 sets no limit), the
    card receives one VERIFY command, with exactly the digits that were typed,
    and the answer laid out for the host holds what the card said, or the PIN
    failure when the exchange failed. *)
Theorem pin_pad_session r t0 ts tl seq p th typed digits :
  reader_ok r -> mode r = Normal ->
  secure_state (Contact.core (handler r)) = WaitingForPinVerify seq p ->
  Forall (fun t => usb t = []) (t0 :: ts ++ [tl]) ->
  pad_run p (touch_new, EEntering (tick_ms t0) []) ts = (th, EEntering (tick_ms t0) typed) ->
  (pad_step p (th, EEntering (tick_ms t0) typed) tl).2 = EDone digits ->
  length_ok (arr (v_apdu_template p) 3) (length digits) -> (length digits <= 8)%nat ->
  let x := transmit_apdu (nfc (Contact.core (handler r))) (verify_pin p digits)
             (replicate CARD_RESP_SIZE 0) in
  let icc := slot_state (Contact.core (handler r)) in
  exists r', turns version r (t0 :: ts ++ [tl]) = Ret r' /\ mode r' = Normal /\
    nfc (Contact.core (handler r')) = x.1.1 /\
    secure_state (Contact.core (handler r')) = SecureIdle /\
    Contact.get_tx_buffer (handler r') =
      match x.2 with
      | Ok n => data_reply 0 seq (icc_status icc) false 0 (take n x.1.2)
      | Err _ => pin_reply_failed (Contact.core (handler r)) seq CCID_ERR_PIN_CANCELLED
      end.
Proof.
  intros Hr Hm Hs Hq Hrun Hend Hlen H8 x icc.
  apply Forall_cons in Hq as [Hq0 Hq]. apply Forall_app in Hq as [Hqs Hql].
  apply Forall_cons in Hql as [Hql _].
  destruct (start_session r t0 seq p Hr Hm Hq0 Hs) as (r1 & E1 & Hin).
  set (u := Usb.with_handler _ _) in Hin. cbn [turns]. rewrite E1. cbn [mbind outcome_bind].
  assert (Hn : no_pending (Usb.handler u)) by apply (ro_pending _ Hr).
  assert (Hu : usb_ok u).
  { apply with_handler_ok; [apply Hr| |done]. destruct (uo_handler _ (ro_class _ Hr)) as [Hw Hev].
    split; [|done]. apply wf_core; [done|]. destruct (mo_core _ Hw). by constructor. }
  destruct (pad_turns_quiet ts r1 p seq _ u Hin Hn Hqs) as (r2 & E2 & Hin2); [by rewrite Hrun|].
  rewrite Hrun in Hin2. rewrite turns_app, E2. cbn [mbind outcome_bind turns].
  destruct (end_session r2 tl seq p _ u digits Hin2 Hu Hn Hql Hend Hlen H8) as (r3 & E3 & Hend3).
  rewrite E3. by exists r3.
Qed.

(** ** Three behaviours worth knowing *)

(** A PIN modification is never entered.  The loop asks whether any PIN session
    is armed before it asks for a modification, and takes the session as a
    verification: the request is dropped, nothing is shown and the host gets no
    answer. *)
Lemma modification_swallowed r t seq p : reader_ok r -> mode r = Normal -> usb t = [] ->
  secure_state (Contact.core (handler r)) = WaitingForPinModify seq p ->
  turn version r t = Ret (with_handler (Contact.set_core
    (set_secure_state SecureIdle (Contact.core (handler r))) (handler r)) r).
Proof.
  intros [Hu Hn Hmode] Hm Hq Hs. unfold turn. rewrite Hq. cbn [usb_poll mbind outcome_bind].
  unfold mode_arm. cbn [mode with_class]. rewrite Hm.
  destruct (normal_arm_ok (with_class (ccid_class r) r) (tick_ms t) Hu Hn Hm)
    as (r1 & -> & [Hu1 Hn1 Hm1] & _ & Hv). cbn [mbind outcome_bind].
  rewrite process_results_quiet by done. by rewrite (Hv p seq Hs).
Qed.

(** The pad stays on the screen.  Behind a session the presence of the card is
    remembered and the idle screen is not drawn: until the presence changes (or an
    application probe runs) the display shows the pad as it was left. *)
Lemma pad_left_on_screen r :
  Contact.is_card_active (handler r) = false \/ Apps.is_enumerated (app_enum_state r) = true ->
  idle version (leave r) = Ret (leave r).
Proof.
  intros H. unfold idle. change (handler (leave r)) with (handler r).
  change (last_card_present (leave r)) with (Contact.is_card_present (handler r)).
  change (app_enum_state (leave r)) with (app_enum_state r). rewrite eqb_reflx. cbn [negb].
  destruct H as [->| ->]; cbn [negb]; by rewrite ?andb_false_r.
Qed.

(** The applications of a card that was removed during a session are kept: the
    removal is never noticed by the idle arm, and the card inserted next is shown
    with them and not probed. *)
Lemma removed_card_apps_kept r m : Contact.is_card_present (handler r) = false ->
  Contact.is_card_present m = true ->
  let r1 := with_handler m (leave r) in
  exists r2, idle version r1 = Ret r2 /\ app_enum_state r2 = app_enum_state r /\
    draw_target r2 = draw_idle_screen (draw_target r) version true (shown (app_enum_state r)).
Proof.
  intros Ha Hp r1. unfold idle. change (handler r1) with m.
  change (last_card_present r1) with (Contact.is_card_present (handler r)).
  rewrite Ha, Hp. cbn [eqb negb]. by eexists.
Qed.
End Turns.

(** ** Witnesses *)
Module Desk.
#[global] Instance graphics : Graphics := {
  rect_contains := inside; pixels _ := []; into_storage _ := 0 }.
#[global] Instance graphics_laws : GraphicsLaws.
Proof. by constructor. Defined.

(** A reader the host has powered the card on, and armed for a PIN of four to
    eight digits. *)
Definition calls : list UsbCall :=
  [Poll 0 (Err Usb.WouldBlock) (Ok UsbDemo.power_on) (Ok 64%nat);
   Poll 0 (Err Usb.WouldBlock) (Ok UsbDemo.secure) (Ok 64%nat)].
Definition screen : FrameBufferDrawTarget := mkFb (replicate 8 0) 4 2.
Definition armed : Reader CardMock.MockSmartcardDriver :=
  match usb_poll calls UsbDemo.fresh with
  | Ret u => boot u screen
  | Panic => boot UsbDemo.fresh screen
  end.

(** A finger on the middle of a button, and lifted. *)
Definition finger (x y : Z) : Turn := mkTurn [] (mkSample true (Some 1) (Some (x, y))) 1000.
Definition lifted : Turn := mkTurn [] (mkSample true (Some 0) None) 1000.
Definition typing : list Turn :=
  [finger 100 250; lifted; finger 220 250; lifted; finger 340 250; lifted;
   finger 100 370; finger 105 375; lifted; finger 220 370; lifted; finger 340 370; lifted;
   finger 340 610].
End Desk.

Lemma armed_ok : reader_ok Desk.armed.
Proof.
  unfold Desk.armed. destruct (usb_poll Desk.calls UsbDemo.fresh) as [u|] eqn:E.
  - destruct (usb_poll_ok Desk.calls UsbDemo.fresh u fresh_ok (conj eq_refl eq_refl)) as [Hu Hn];
      [|exact E|].
    2: exact (mkReaderOk (boot u Desk.screen) Hu Hn I).
    repeat (apply Forall_cons; split; [unfold call_ok, received_bytes; solve_bytes|]). by apply Forall_nil.
  - exact (mkReaderOk (boot UsbDemo.fresh Desk.screen) fresh_ok (conj eq_refl eq_refl) I).
Qed.

(** The PIN 123456, typed with a finger that slips within a key. *)
Example pin_pad_session_witness :
  exists r', turns "v1" Desk.armed (Desk.lifted :: Desk.typing ++ [Desk.lifted]) = Ret r' /\
    mode r' = Normal /\
    Contact.get_tx_buffer (handler r') = [0x80; 2; 0; 0; 0; 0; 2; 0; 0; 0; 0x90; 0x00] /\
    CardMock.call_log (Contact.driver (handler r')) = [CardMock.PowerOn; CardMock.TransmitApdu 11].
Proof.
  destruct (secure_state (Contact.core (handler Desk.armed))) as [|q p|] eqn:Es;
    [vm_compute in Es; discriminate| |vm_compute in Es; discriminate].
  destruct (pin_pad_session "v1" Desk.armed Desk.lifted Desk.typing Desk.lifted q p
    (mkTouch (Some BOk) true) [1; 2; 3; 4; 5; 6] [1; 2; 3; 4; 5; 6]) as (r' & E1 & E2 & E3 & E4 & E5).
  - exact armed_ok.
  - reflexivity.
  - exact Es.
  - repeat (apply Forall_cons; split; [reflexivity|]). by apply Forall_nil.
  - vm_compute in Es. injection Es as <- <-. reflexivity.
  - vm_compute in Es. injection Es as <- <-. reflexivity.
  - vm_compute in Es. injection Es as <- <-. split; [simpl; lia|split; [simpl; lia|done]].
  - cbn. lia.
  - exists r'. split; [exact E1|]. split; [exact E2|].
    vm_compute in Es. injection Es as <- <-.
    split; [rewrite E5; vm_compute; reflexivity|]. unfold Contact.driver. rewrite E3. vm_compute. reflexivity.
Defined.

(** The F469's own driver, on a board with a T=1 card: the host powers it on. *)
Definition f469_board : Bench.bench :=
  Bench.mkBench true [Bench.atr_t1] (Bench.pps_echo ++ Bench.ifs_answer) [].
Definition f469_reader : Reader (Wrapper.SmartcardWrapper ShortCard.short) :=
  boot (Usb.new (ShortCard.driver f469_board) Profile.PROFILE_CHERRY_SMARTTERMINAL_ST2XXX Contact.F469)
    Desk.screen.

Lemma f469_reader_ok : reader_ok f469_reader.
Proof.
  refine (mkReaderOk f469_reader _ (conj eq_refl eq_refl) I).
  constructor; [|vm_compute; lia|done]. apply contact_new_ok. apply short_driver_ok.
Qed.

Example main_loop_turn_witness :
  let t := mkTurn [Poll 0 (Err Usb.WouldBlock) (Ok UsbDemo.power_on) (Ok 64%nat)]
             (mkSample true None None) 5 in
  exists r', turn "v1" f469_reader t = Ret r' /\ answered_or_torn f469_reader r' /\
    Uart.powered (Wrapper.uart (Contact.driver (handler r'))) = true /\
    Uart.atr (Wrapper.uart (Contact.driver (handler r'))) = Bench.atr_t1.
Proof.
  intros t. destruct (turn "v1" f469_reader t) as [r'|] eqn:E; [|vm_compute in E; discriminate].
  exists r'. split; [done|]. split.
  - apply (main_loop_turn "v1" f469_reader t); [exact f469_reader_ok| |exact E].
    repeat (apply Forall_cons; split; [unfold call_ok, received_bytes; solve_bytes|]). by apply Forall_nil.
  - vm_compute in E. injection E as <-. split; reflexivity.
Defined.

(** A T=0 card that acknowledges SELECT, announces an answer of 32 bytes with
    [61 20] and sends it: the driver counts 34 bytes in the probe's buffer of
    32, and the reader panics while it draws the idle screen. *)
Definition talkative_reader : Reader (Wrapper.SmartcardWrapper Bench.bench) :=
  boot (Usb.new (Wrapper.new (Bench.board (Bench.mkBench true [Bench.atr_t0]
    ([0xA4; 0x61; 0x20; 0xC0] ++ replicate 30 0x6F ++ [0x90; 0x00]) [])))
    Profile.PROFILE_CHERRY_SMARTTERMINAL_ST2XXX Contact.F469) Desk.screen.

Example long_answer_panics_probe :
  let on := mkTurn [Poll 0 (Err Usb.WouldBlock) (Ok UsbDemo.power_on) (Ok 64%nat)]
              (mkSample true None None) 5 in
  let quiet := mkTurn [] (mkSample true None None) 6 in
  turns "v1" talkative_reader [on] <> Panic /\
  turns "v1" talkative_reader [on; quiet] = Panic.
Proof. vm_compute. split; [discriminate|reflexivity]. Qed.
