(* ===== verification/Ota.v ===== *)
(** * Updates over the network

    Modules [Header] ([esp32-ccid/src/ota_header.rs]: the two header forms, the
    size gate, the token) and [Ota] ([ota.rs]: the connection that writes an
    image to the spare partition and boots it).  The app_update calls of ESP-IDF
    are the class [OtaFlash]; a connection is the bytes its client sends before
    it closes or stalls past the deadline.  The theorems, at the end, are about
    any flash whose calls do what ESP-IDF documents. *)
From Stdlib Require Import ZArith Lia ZifyBool.
From stdpp Require Import prelude.
From S2P Require Import Prelude.
Local Open Scope Z_scope.

(** Why an update was refused, a constructor per message. *)
Inductive OtaError :=
| BadSize | ImageTooLarge
| TokenMissing | TokenMismatch | TokenRequired | BadMagic
| HeaderReadFailed | NoOtaPartition | TokenReadFailed
| BeginFailed | ImageReadFailed | WriteFailed | EndFailed | SetBootFailed.

#[global] Instance OtaError_eq_dec : EqDecision OtaError.
Proof. solve_decision. Defined.

(** ** ota_header.rs *)
Module Header.

Definition MAGIC_V1 : list Z := [0x4F; 0x54; 0x41; 0x31].
Definition MAGIC_V2 : list Z := [0x4F; 0x54; 0x41; 0x32].
Definition TOKEN_LEN : nat := 32.

Definition validate_size (announced partition_size : Z) : result unit OtaError :=
  if announced =? 0 then Err BadSize
  else if partition_size <? announced then Err ImageTooLarge
  else Ok tt.

(** [option_env!("OTA_TOKEN")] is an argument. *)
Definition compiled_token (ota_token : option (list Z)) : outcome (option (list Z)) :=
  match ota_token with
  | None => Ret None
  | Some tok => if (length tok =? TOKEN_LEN)%nat then Ret (Some tok) else Panic
  end.

Definition authorize (magic : list Z) (token expected : option (list Z)) : result unit OtaError :=
  match bool_decide (magic = MAGIC_V2), expected with
  | true, Some want =>
      match token with
      | None => Err TokenMissing
      | Some got => if bool_decide (got = want) then Ok tt else Err TokenMismatch
      end
  | true, None => Ok tt
  | false, Some _ => Err TokenRequired
  | false, None => if bool_decide (magic = MAGIC_V1) then Ok tt else Err BadMagic
  end.
End Header.

(** ** The app_update calls

    The spare partition's size, [None] without one; the others say whether they
    returned zero. *)
Class OtaFlash (F : Type) := {
  next_partition : F -> option Z;
  ota_begin : F -> F * bool;
  ota_write : list Z -> F -> F * bool;
  ota_abort : F -> F;
  ota_end : F -> F * bool;
  set_boot : F -> F * bool
}.

(** ** ota.rs *)
Module Ota.
Import Header.

Definition CHUNK : nat := 1024.

(** [read_exact]: the bytes and the rest of the connection. *)
Definition read_exact (n : nat) (stream : list Z) : option (list Z * list Z) :=
  if (n <=? length stream)%nat then Some (take n stream, drop n stream) else None.

Section Server.
Context {F : Type} `{!OtaFlash F}.
Implicit Types (f : F).

(** [None] when the fuel runs out: one turn a chunk. *)
Fixpoint stream_image (fuel : nat) (remaining : nat) (stream : list Z) f :
    option (F * result unit OtaError) :=
  match remaining with
  | O => Some (f, Ok tt)
  | _ =>
      match fuel with
      | O => None
      | S fuel =>
          let want := (remaining `min` CHUNK)%nat in
          match read_exact want stream with
          | None => Some (f, Err ImageReadFailed)
          | Some (buf, stream) =>
              let '(f, ok) := ota_write buf f in
              if ok : bool then stream_image fuel (remaining - want) stream f
              else Some (f, Err WriteFailed)
          end
      end
  end.

(** [handle]: [Ok] is the restart into the new image, behind which nothing
    comes. *)
Definition handle (ota_token : option (list Z)) (fuel : nat) (stream : list Z) f :
    outcome (option (F * result unit OtaError)) :=
  match read_exact 8 stream with
  | None => Ret (Some (f, Err HeaderReadFailed))
  | Some (hdr, stream) =>
      let magic := take 4 hdr in
      let size := from_le32 (nth 4 hdr 0) (nth 5 hdr 0) (nth 6 hdr 0) (nth 7 hdr 0) in
      match next_partition f with
      | None => Ret (Some (f, Err NoOtaPartition))
      | Some partition_size =>
          match validate_size size partition_size with
          | Err e => Ret (Some (f, Err e))
          | Ok _ =>
              expected ← compiled_token ota_token;
              let authorized :=
                if bool_decide (magic = MAGIC_V2) then
                  match read_exact TOKEN_LEN stream with
                  | None => (stream, Err TokenReadFailed)
                  | Some (token, stream) => (stream, authorize magic (Some token) expected)
                  end
                else (stream, authorize magic None expected) in
              match authorized.2 with
              | Err e => Ret (Some (f, Err e))
              | Ok _ =>
                  let '(f, ok) := ota_begin f in
                  if negb ok then Ret (Some (f, Err BeginFailed))
                  else
                    match stream_image fuel (Z.to_nat size) authorized.1 f with
                    | None => Ret None
                    | Some (f, Err e) => Ret (Some (ota_abort f, Err e))
                    | Some (f, Ok _) =>
                        let '(f, ok) := ota_end f in
                        if negb ok then Ret (Some (f, Err EndFailed))
                        else
                          let '(f, ok) := set_boot f in
                          if negb ok then Ret (Some (f, Err SetBootFailed))
                          else Ret (Some (f, Ok tt))
                    end
              end
          end
      end
  end.

(** [server]: the connections in their order, up to a restart.  An accept that
    fails changes nothing; [replies] are the refusals, each answered by one E. *)
Fixpoint server (ota_token : option (list Z)) (fuel : nat) (clients : list (list Z)) f :
    outcome (option (F * list OtaError * bool)) :=
  match clients with
  | [] => Ret (Some (f, [], false))
  | stream :: clients =>
      r ← handle ota_token fuel stream f;
      match r with
      | None => Ret None
      | Some (f, Ok _) => Ret (Some (f, [], true))
      | Some (f, Err e) =>
          r ← server ota_token fuel clients f;
          Ret (option_map (fun r => (r.1.1, e :: r.1.2, r.2)) r)
      end
  end.
End Server.
End Ota.

(** ** What the app_update calls promise

    [staged] is the open handle with the bytes written so far, [complete] the
    image of the spare partition, [boot] what the next restart boots, [None]
    being the image that runs. *)
Class OtaFlashLaws (F : Type) `{!OtaFlash F} := {
  staged : F -> option (list Z);
  complete : F -> option (list Z);
  boot : F -> option (list Z);
  kept (f f' : F) : Prop := next_partition f' = next_partition f /\ boot f' = boot f;
  begin_law f : kept f (ota_begin f).1 /\
    staged (ota_begin f).1 = if (ota_begin f).2 then Some [] else staged f;
  write_law data f image : staged f = Some image ->
    kept f (ota_write data f).1 /\
    staged (ota_write data f).1 = Some (if (ota_write data f).2 then image ++ data else image);
  abort_law f : kept f (ota_abort f) /\ staged (ota_abort f) = None;
  end_law f image : staged f = Some image ->
    kept f (ota_end f).1 /\ staged (ota_end f).1 = None /\
    ((ota_end f).2 = true -> complete (ota_end f).1 = Some image);
  set_boot_law f image : complete f = Some image ->
    next_partition (set_boot f).1 = next_partition f /\ staged (set_boot f).1 = staged f /\
    boot (set_boot f).1 = if (set_boot f).2 then Some image else boot f
}.

Section Ota.
Import Header Ota.
Context {F : Type} `{!OtaFlash F} {FL : OtaFlashLaws F}.
Implicit Types (f : F).

(** ** What a client offers: the image its bytes carry, or why they are refused. *)
Definition image_of (size : Z) (rest : list Z) : result (list Z) OtaError :=
  if Z.of_nat (length rest) <? size then Err ImageReadFailed else Ok (take (Z.to_nat size) rest).

Definition offer (token : option (list Z)) (partition : option Z) (stream : list Z) :
    result (list Z) OtaError :=
  match stream with
  | m0 :: m1 :: m2 :: m3 :: s0 :: s1 :: s2 :: s3 :: rest =>
      let magic := [m0; m1; m2; m3] in
      let size := from_le32 s0 s1 s2 s3 in
      match partition with
      | None => Err NoOtaPartition
      | Some room =>
          if size =? 0 then Err BadSize
          else if room <? size then Err ImageTooLarge
          else if bool_decide (magic = MAGIC_V2) then
            if (length rest <? TOKEN_LEN)%nat then Err TokenReadFailed
            else
              match token with
              | Some want => if bool_decide (take TOKEN_LEN rest = want)
                             then image_of size (drop TOKEN_LEN rest) else Err TokenMismatch
              | None => image_of size (drop TOKEN_LEN rest)
              end
          else
            match token with
            | Some _ => Err TokenRequired
            | None => if bool_decide (magic = MAGIC_V1) then image_of size rest else Err BadMagic
            end
      end
  | _ => Err HeaderReadFailed
  end.

(** A flash that never refuses, and the refusals of one that does. *)
Definition reliable : Prop := forall f, (ota_begin f).2 = true /\
  (forall data, (ota_write data f).2 = true) /\ (ota_end f).2 = true /\ (set_boot f).2 = true.
Definition flash_error (e : OtaError) : Prop :=
  ~ reliable /\ (e = BeginFailed \/ e = WriteFailed \/ e = EndFailed \/ e = SetBootFailed).

Definition token_ok (token : option (list Z)) : Prop :=
  match token with Some tok => length tok = TOKEN_LEN | None => True end.

(** ** The image *)
Lemma stream_image_spec fuel remaining stream f image :
  staged f = Some image -> (length stream < fuel * CHUNK)%nat ->
  exists f' r, stream_image fuel remaining stream f = Some (f', r) /\ kept f f' /\
    match r with
    | Ok _ => (remaining <= length stream)%nat /\ staged f' = Some (image ++ take remaining stream)
    | Err ImageReadFailed => (length stream < remaining)%nat
    | Err e => e = WriteFailed /\ ~ reliable
    end.
Proof.
  unfold CHUNK. revert remaining stream f image. induction fuel as [|fuel IH]; intros remaining stream f image Hs Hl; [lia|].
  destruct remaining as [|n]; cbn [stream_image].
  { exists f, (Ok tt). split; [done|]. split; [done|]. split; [lia|]. by rewrite take_0, app_nil_r. }
  set (want := (S n `min` CHUNK)%nat). unfold read_exact.
  destruct (Nat.leb_spec want (length stream)) as [Hw|Hw].
  2: { exists f, (Err ImageReadFailed). split; [done|]. split; [done|]. lia. }
  destruct (write_law (take want stream) f image Hs) as [Hk Hst].
  destruct (ota_write (take want stream) f) as [f1 []] eqn:Ew; cbn [fst snd] in *.
  2: { exists f1, (Err WriteFailed). split_and!; try done. intros Hr. destruct (Hr f) as (_ & H & _).
       specialize (H (take want stream)). by rewrite Ew in H. }
  destruct (Nat.le_gt_cases (S n) 1024) as [Hsmall|Hbig].
  - replace (S n - want)%nat with 0%nat by (unfold want, CHUNK; lia).
    assert (want = S n) as Hw1 by (unfold want, CHUNK; lia). rewrite Hw1 in *.
    exists f1, (Ok tt). split; [by destruct fuel|]. split; [done|]. by split.
  - assert (want = 1024%nat) as Hw1 by (unfold want, CHUNK; lia). rewrite Hw1 in *.
    destruct (IH (S n - 1024)%nat (drop 1024 stream) f1 _ Hst) as (f2 & r & -> & [Hk1 Hk2] & Hr);
      [rewrite length_drop; lia|].
    exists f2, r. split; [done|]. destruct Hk as [Hk3 Hk4]. split; [split; congruence|].
    rewrite length_drop in Hr. destruct r as [u|[]]; try done; [|lia].
    destruct Hr as [Hr1 Hr2]. split; [lia|]. rewrite Hr2, <- app_assoc. do 2 f_equal.
    rewrite <- (take_drop 1024 stream) at 3. rewrite take_app, length_take.
    rewrite (take_ge (take 1024 stream)) by (rewrite length_take; lia). f_equal. f_equal. lia.
Qed.

(** What is left once the header is accepted: the flash, then the boot switch. *)
Lemma write_image_spec fuel size stream f : staged f = None -> 0 <= size -> (length stream < fuel * CHUNK)%nat ->
  exists f' r,
    (let '(f, ok) := ota_begin f in
     if negb ok then Ret (Some (f, Err BeginFailed))
     else
       match stream_image fuel (Z.to_nat size) stream f with
       | None => Ret None
       | Some (f, Err e) => Ret (Some (ota_abort f, Err e))
       | Some (f, Ok _) =>
           let '(f, ok) := ota_end f in
           if negb ok then Ret (Some (f, Err EndFailed))
           else
             let '(f, ok) := set_boot f in
             if negb ok then Ret (Some (f, Err SetBootFailed))
             else Ret (Some (f, Ok tt))
       end) = Ret (Some (f', r)) /\
    staged f' = None /\ next_partition f' = next_partition f /\
    match r with
    | Ok _ => exists image, image_of size stream = Ok image /\ boot f' = Some image
    | Err e => boot f' = boot f /\ (image_of size stream = Err e \/ flash_error e)
    end.
Proof.
  intros Hs Hz Hl. unfold flash_error, image_of.
  destruct (begin_law f) as [[Hk1 Hk2] Hst]. destruct (ota_begin f) as [f1 []] eqn:Eb; cbn [fst snd negb] in *.
  2: { exists f1. eexists. split; [done|]. rewrite Hst. split; [done|]. split; [done|]. split; [done|]. right.
       split; [|by auto]. intros Hr. destruct (Hr f) as (H & _). by rewrite Eb in H. }
  destruct (stream_image_spec fuel (Z.to_nat size) stream f1 [] Hst Hl) as (f2 & r & -> & [Hk3 Hk4] & Hr).
  destruct r as [[]|e].
  - destruct Hr as [Hr1 Hr2]. cbn [app] in Hr2. replace (_ <? _) with false by lia.
    destruct (end_law f2 _ Hr2) as ([Hk5 Hk6] & Hs3 & Hc). destruct (ota_end f2) as [f3 []] eqn:Ee; cbn [fst snd negb] in *.
    2: { exists f3. eexists. split; [done|]. split; [done|]. split; [congruence|]. split; [congruence|]. right.
         split; [|by auto]. intros H. destruct (H f2) as (_ & _ & H1 & _). by rewrite Ee in H1. }
    specialize (Hc eq_refl). destruct (set_boot_law f3 _ Hc) as (Hk7 & Hs4 & Hb).
    destruct (set_boot f3) as [f4 []] eqn:Eo; cbn [fst snd negb] in *; exists f4; eexists; (split; [done|]);
      (split; [congruence|]); (split; [congruence|]).
    + eexists. split; [done|]. exact Hb.
    + split; [congruence|]. right. split; [|by auto]. intros H. destruct (H f3) as (_ & _ & _ & H1). by rewrite Eo in H1.
  - destruct (abort_law f2) as [[Hk5 Hk6] Hs3]. exists (ota_abort f2). eexists. split; [done|]. split; [done|].
    split; [congruence|]. split; [congruence|].
    destruct e; try (destruct Hr as [Hr ?]; try discriminate Hr; by auto 6). left. by replace (_ <? _) with true by lia.
Qed.

Lemma handle_spec token fuel stream f :
  token_ok token -> bytes stream -> staged f = None -> (length stream < fuel * CHUNK)%nat ->
  exists f' r, handle token fuel stream f = Ret (Some (f', r)) /\
    staged f' = None /\ next_partition f' = next_partition f /\
    match r with
    | Ok _ => exists image, offer token (next_partition f) stream = Ok image /\ boot f' = Some image
    | Err e => boot f' = boot f /\ (offer token (next_partition f) stream = Err e \/ flash_error e)
    end.
Proof.
  intros Ht Hb Hs Hl. unfold handle, read_exact at 1.
  assert (forall e (P : F -> Prop), exists f' r, Ret (Some (f, Err e)) = Ret (Some (f', r)) :> outcome (option (F * result unit OtaError)) /\
    staged f' = None /\ next_partition f' = next_partition f /\
    match r with
    | Ok _ => P f'
    | Err e' => boot f' = boot f /\ (@Err (list Z) OtaError e = Err e' \/ flash_error e')
    end) as Hrefuse by (intros e P; exists f, (Err e); by split_and!; auto).
  destruct stream as [|m0 [|m1 [|m2 [|m3 [|s0 [|s1 [|s2 [|s3 rest]]]]]]]]; try apply Hrefuse.
  cbn [Nat.leb length take drop nth offer].
  destruct (next_partition f) as [room|] eqn:Er; [|apply Hrefuse].
  unfold validate_size. set (size := from_le32 s0 s1 s2 s3).
  assert (0 <= size) as Hz.
  { assert (u8 s0 /\ u8 s1 /\ u8 s2 /\ u8 s3) as (? & ? & ? & ?).
    { unfold bytes in Hb. rewrite !Forall_cons in Hb. tauto. }
    unfold size, from_le32, u8 in *. lia. }
  destruct (size =? 0); [apply Hrefuse|]. destruct (room <? size); [apply Hrefuse|].
  assert (compiled_token token = Ret token) as ->.
  { unfold compiled_token. destruct token; [|done]. cbn in Ht. by rewrite Ht. }
  rewrite bind_ret, ?drop_0. unfold authorize. cbn [length] in Hl.
  assert (forall r, (length r <= length rest)%nat -> exists f' res,
    _ = Ret (Some (f', res)) /\ staged f' = None /\ next_partition f' = next_partition f /\ _) as Hwrite
    by (intros r Hr; exact (write_image_spec fuel size r f Hs Hz ltac:(lia))).
  rewrite Er in Hwrite.
  destruct (bool_decide ([m0; m1; m2; m3] = MAGIC_V2)) eqn:Em.
  - unfold read_exact. destruct (Nat.leb_spec TOKEN_LEN (length rest)) as [Hlen|Hlen].
    + replace (length rest <? TOKEN_LEN)%nat with false by (symmetry; apply Nat.ltb_ge; lia). cbn [fst snd].
      destruct token as [want|]; [destruct (bool_decide (take TOKEN_LEN rest = want)); cbv iota; [|apply Hrefuse]|];
        apply Hwrite; rewrite length_drop; lia.
    + replace (length rest <? TOKEN_LEN)%nat with true by (symmetry; apply Nat.ltb_lt; lia). apply Hrefuse.
  - cbn [fst snd]. destruct token; [apply Hrefuse|].
    destruct (bool_decide ([m0; m1; m2; m3] = MAGIC_V1)); [by apply Hwrite|apply Hrefuse].
Qed.

(** C27: the reader boots only what it was authorised to.  However clients
    connect, stall, lie about the size or send garbage, the update server runs
    without a panic (a token of the wrong length aside), leaves no update handle
    open behind any connection, and boots another image only if some client
    offered one: an announced size that is not zero and fits the partition, the
    token if the build has one, and then that many bytes -- and what it boots is
    exactly those bytes, in order, accepted by the flash.  Every connection before
    was refused, each for the reason its own bytes give or a failure of the flash;
    with a flash that does not fail, exactly the first good offer is booted. *)
Theorem ota_boots_only_offers token fuel clients f :
  token_ok token -> staged f = None ->
  Forall (fun c => bytes c /\ (length c < fuel * CHUNK)%nat) clients ->
  exists f' refusals restarted,
    server token fuel clients f = Ret (Some (f', refusals, restarted)) /\ staged f' = None /\
    let refused c e := offer token (next_partition f) c = Err e \/ flash_error e in
    if restarted : bool
    then exists before client after image, clients = before ++ client :: after /\
           Forall2 refused before refusals /\
           offer token (next_partition f) client = Ok image /\ boot f' = Some image
    else Forall2 refused clients refusals /\ boot f' = boot f.
Proof.
  intros Ht Hs Hc. revert f Hs. induction Hc as [|c clients [Hb Hl] _ IH]; intros f Hs.
  { exists f, [], false. by split_and!. }
  destruct (handle_spec token fuel c f Ht Hb Hs Hl) as (f1 & r & E1 & Hs1 & Hp1 & Hr).
  cbn [server]. rewrite E1, bind_ret. destruct r as [[]|e].
  - destruct Hr as (image & Ho & Hboot). exists f1, [], true. split; [done|]. split; [done|].
    exists [], c, clients, image. by split_and!.
  - destruct Hr as [Hboot He]. destruct (IH f1 Hs1) as (f2 & refusals & restarted & -> & Hs2 & Hrest).
    rewrite bind_ret. exists f2, (e :: refusals), restarted. split; [done|]. split; [done|].
    rewrite Hp1 in Hrest. cbv zeta in *. destruct restarted.
    + destruct Hrest as (before & client & after & image & -> & Hf & Ho & Hi).
      exists (c :: before), client, after, image. split; [done|]. split; [by constructor|]. done.
    + destruct Hrest as [Hf Hi]. split; [by constructor|congruence].
Qed.

(** An armed build boots nothing without its token. *)
Lemma offer_armed want partition stream image : offer (Some want) partition stream = Ok image ->
  exists size rest, stream = MAGIC_V2 ++ size ++ rest /\ length size = 4%nat /\ take TOKEN_LEN rest = want /\
    image = take (length image) (drop TOKEN_LEN rest).
Proof.
  unfold offer. destruct stream as [|m0 [|m1 [|m2 [|m3 [|s0 [|s1 [|s2 [|s3 rest]]]]]]]]; try done.
  destruct partition as [room|]; [|done]. case_match; [done|]. case_match; [done|].
  case_bool_decide as Hm; [|done]. case_match; [done|]. case_bool_decide as Hw; [|done].
  unfold image_of. destruct (Z.ltb_spec (Z.of_nat (length (drop TOKEN_LEN rest))) (from_le32 s0 s1 s2 s3)); [done|].
  intros [= <-]. exists [s0; s1; s2; s3], rest. split; [by rewrite <- Hm|]. split; [done|]. split; [done|].
  rewrite length_take. f_equal. lia.
Qed.
End Ota.

(** ** Witness *)
Module OtaBench.
(** A flash of [room] bytes that accepts images starting with 0xE9 and whose
    writes wear out. *)
Record Flash := mkFlash {
  room : Z; writes : nat;
  open_handle : option (list Z); written : option (list Z); boots : option (list Z)
}.
#[global] Instance bench_flash : OtaFlash Flash := {
  next_partition f := Some (room f);
  ota_begin f := (mkFlash (room f) (writes f) (Some []) (written f) (boots f), true);
  ota_write data f :=
    match writes f, open_handle f with
    | S n, Some image => (mkFlash (room f) n (Some (image ++ data)) (written f) (boots f), true)
    | _, _ => (f, false)
    end;
  ota_abort f := mkFlash (room f) (writes f) None (written f) (boots f);
  ota_end f :=
    if bool_decide ((open_handle f ≫= head) = Some 0xE9)
    then (mkFlash (room f) (writes f) None (open_handle f) (boots f), true)
    else (mkFlash (room f) (writes f) None None (boots f), false);
  set_boot f :=
    match written f with
    | Some image => (mkFlash (room f) (writes f) (open_handle f) (written f) (Some image), true)
    | None => (f, false)
    end
}.
#[global] Instance bench_laws : OtaFlashLaws Flash.
Proof.
  refine {| staged := open_handle; complete := written; boot := boots |}; cbn.
  - done.
  - intros data f image Hs. rewrite Hs. by destruct (writes f).
  - done.
  - intros f image Hs. rewrite Hs. by case_bool_decide.
  - intros f image Hc. by rewrite Hc.
Defined.
Definition token : list Z := replicate 32 0xA5.
Definition image : list Z := 0xE9 :: replicate 1500 0x11.
Definition push (magic tok img : list Z) : list Z := magic ++ to_le32 (Z.of_nat (length img)) ++ tok ++ img.
(** Without the token, with a wrong one, cut off, not an image, good. *)
Definition clients : list (list Z) :=
  [push Header.MAGIC_V1 [] image; push Header.MAGIC_V2 (replicate 32 0) image;
   take 600 (push Header.MAGIC_V2 token image); push Header.MAGIC_V2 token [1; 2; 3];
   push Header.MAGIC_V2 token image].
Definition flash : Flash := mkFlash 4096 9 None None None.
End OtaBench.

Example ota_boots_only_offers_witness :
  exists f refusals, Ota.server (Some OtaBench.token) 2 OtaBench.clients OtaBench.flash = Ret (Some (f, refusals, true)) /\
    refusals = [TokenRequired; TokenMismatch; ImageReadFailed; EndFailed] /\
    OtaBench.boots f = Some OtaBench.image.
Proof.
  destruct (ota_boots_only_offers (Some OtaBench.token) 2 OtaBench.clients OtaBench.flash)
    as (f & refusals & restarted & H1 & _ & H2); [done|done| |].
  { refine (Forall_cons_2 _ _ _ _ (Forall_cons_2 _ _ _ _ (Forall_cons_2 _ _ _ _ (Forall_cons_2 _ _ _ _
      (Forall_cons_2 _ _ _ _ (Forall_nil_2 _)))))); (split; [solve_bytes|vm_compute; lia]). }
  assert (match Ota.server (Some OtaBench.token) 2 OtaBench.clients OtaBench.flash with
    | Ret (Some (f, l, b)) => (OtaBench.boots f, l, b) | _ => (None, [], false) end =
    (Some OtaBench.image, [TokenRequired; TokenMismatch; ImageReadFailed; EndFailed], true)) as Hv
    by (vm_compute; reflexivity).
  rewrite H1 in Hv. injection Hv as Hb Hr Hres. exists f, refusals. split; [by rewrite <- Hres|]. by split.
Defined.
