(* ===== verification/BleConsole.v ===== *)
(** * The Bluetooth log console

    Modules [LogQueue] ([esp32-ccid/src/ble_log_queue.rs]), [Addr]
    ([ble_addr.rs]), [Server] ([ble_debug.rs]: the GATT server, its events and
    its notifications) and [Logger] ([ble_logger.rs]: the sink of the log and the
    pump).  Text is a list of bytes.  The calls into the Bluetooth stack are the
    class [BleStack].  The bring-up of [ble_console.rs] and prints are left out.
    The theorems are in [BleSpec.v]. *)
From Stdlib Require Import ZArith Lia ZifyBool Ascii.
From stdpp Require Import prelude strings.
From S2P Require Import Prelude.
Local Open Scope Z_scope.

(** A string literal. *)
Definition text (s : string) : list Z := map (fun a => Z.of_N (N_of_ascii a)) (String.list_ascii_of_string s).

(** ** ble_log_queue.rs *)
Module LogQueue.

Definition MAX_LOG_LINE_LEN : nat := 200.
Definition QUEUE_CAPACITY : nat := 32.
Definition NL : Z := 0x0A.

Record LogQueue := mkQueue { lines : list (list Z); dropped : Z }.

Definition new : LogQueue := mkQueue [] 0.

Definition push_line (line : list Z) (q : LogQueue) : LogQueue :=
  if (QUEUE_CAPACITY <=? length (lines q))%nat
  then mkQueue (drop 1 (lines q) ++ [line]) (wrapping_add32 (dropped q) 1)
  else mkQueue (lines q ++ [line]) (dropped q).

Definition pop_front (q : LogQueue) : LogQueue := mkQueue (drop 1 (lines q)) (dropped q).
Definition front (q : LogQueue) : option (list Z) := head (lines q).

(** [format!] of a u32, at most ten digits. *)
Fixpoint digits (fuel : nat) (n : Z) : list Z :=
  match fuel with
  | O => []
  | S fuel => (if n <? 10 then [] else digits fuel (n / 10)) ++ [48 + n mod 10]
  end.
Definition decimal (n : Z) : list Z := digits 10 n.

Definition take_banner (q : LogQueue) : LogQueue * list Z :=
  (mkQueue (lines q) 0,
   if dropped q =? 0 then text "=== BLE log attached ===" ++ [NL]
   else text "=== BLE log attached; " ++ decimal (dropped q) ++ text " older lines dropped ===" ++ [NL]).

Definition format_record (level module_path message : list Z) : list Z :=
  let rendered := text "[" ++ level ++ text "] " ++ module_path ++ text ": " ++ message ++ [NL] in
  if (MAX_LOG_LINE_LEN <? length rendered)%nat then
    let rendered := take (MAX_LOG_LINE_LEN - 1) rendered in
    if bool_decide (last rendered = Some NL) then rendered else rendered ++ [NL]
  else rendered.
End LogQueue.

(** ** ble_addr.rs *)
Module Addr.
Definition static_random_from_mac (mac : list Z) : list Z :=
  match mac with
  | msb :: rest => Z.lor msb 0xC0 :: rest
  | [] => []
  end.
End Addr.

(** ** The stack: a call and whether it succeeded, and the factory address *)
Inductive GattCall :=
| SetDeviceName (name : list Z)
| SetAdvConf (service_uuid : Z)
| SetScanRspConf
| SetRandAddr (addr : list Z)
| StartAdvertising
| CreateService (gatt_if uuid : Z)
| StartService (service_handle : Z)
| AddCharacteristic (service_handle uuid : Z) (max_len : nat)
| AddDescriptor (service_handle uuid : Z)
| SetConnParams (peer : Z)
| SendResponse (gatt_if conn_id trans_id : Z)
| Notify (gatt_if conn_id attr_handle : Z) (chunk : list Z).

Class BleStack (S : Type) := {
  ble_call : GattCall -> S -> S * bool;
  read_mac : S -> list Z
}.

(** ** ble_debug.rs *)
Module Server.

Definition APP_ID : Z := 0.
Definition DEVICE_NAME : list Z := text "ESP32-CCID-Debug".
Definition SERVICE_UUID : Z := 0x6E400001B5A3F393E0A9E50E24DCCA9E.
Definition LOG_CHAR_UUID : Z := 0x6E400003B5A3F393E0A9E50E24DCCA9E.
Definition CCCD_UUID : Z := 0x2902.
Definition DEFAULT_MTU : nat := 23.
Definition GATT_NOTIFY_OVERHEAD : nat := 3.
Definition MAX_LOG_CHUNK : nat := 200.

Record Connection := mkConn { peer : Z; conn_id : Z; notify_enabled : bool; mtu : nat }.

Record BleState := mkState {
  gatt_if : option Z;
  service_handle : option Z;
  log_handle : option Z;
  cccd_handle : option Z;
  connections : list Connection
}.
Definition BleState_default : BleState := mkState None None None None [].

Definition set_gatt_if v st : BleState :=
  mkState (Some v) (service_handle st) (log_handle st) (cccd_handle st) (connections st).
Definition set_service v st : BleState :=
  mkState (gatt_if st) (Some v) (log_handle st) (cccd_handle st) (connections st).
Definition set_log_handle v st : BleState :=
  mkState (gatt_if st) (service_handle st) (Some v) (cccd_handle st) (connections st).
Definition set_cccd v st : BleState :=
  mkState (gatt_if st) (service_handle st) (log_handle st) (Some v) (connections st).
Definition set_connections v st : BleState :=
  mkState (gatt_if st) (service_handle st) (log_handle st) (cccd_handle st) v.

(** [iter_mut().find(p)]: the first that fits, changed. *)
Fixpoint update_first (p : Connection -> bool) (f : Connection -> Connection) (l : list Connection) :
    list Connection :=
  match l with
  | [] => []
  | c :: l => if p c then f c :: l else c :: update_first p f l
  end.

Inductive GapEvent :=
| AdvertisingConfigured (ok : bool)
| ScanResponseConfigured (ok : bool)
| AdvertisingStarted (ok : bool)
| AdvertisingStopped (ok : bool)
| OtherGap.

Inductive GattsEvent :=
| ServiceRegistered (ok : bool) (app_id : Z)
| ServiceCreated (ok : bool) (handle : Z)
| CharacteristicAdded (ok : bool) (attr_handle service uuid : Z)
| DescriptorAdded (ok : bool) (attr_handle service uuid : Z)
| PeerConnected (conn addr : Z)
| PeerDisconnected (addr : Z)
| Write (conn trans_id handle offset : Z) (need_rsp : bool) (value : list Z)
| Mtu (conn : Z) (mtu : nat)
| OtherGatts.

Section Server.
Context {S : Type} `{!BleStack S}.
Implicit Types (st : BleState) (s : S).

(** Calls in a row, up to the first that fails. *)
Fixpoint calls (cs : list GattCall) s : S * bool :=
  match cs with
  | [] => (s, true)
  | c :: cs => let '(s, ok) := ble_call c s in if ok : bool then calls cs s else (s, false)
  end.

Definition has_subscribers st : bool := existsb notify_enabled (connections st).

Definition mtu_payload (c : Connection) : nat :=
  ((mtu c - GATT_NOTIFY_OVERHEAD) `max` 1) `min` MAX_LOG_CHUNK.

(** The chunks to one connection: whether any was taken, and whether one failed. *)
Fixpoint notify_chunks (gatt_if log_handle : Z) (c : Connection) (chunks : list (list Z)) s : S * bool * bool :=
  match chunks with
  | [] => (s, false, false)
  | chunk :: chunks =>
      let '(s, ok) := ble_call (Notify gatt_if (conn_id c) log_handle chunk) s in
      if ok : bool then
        let '(s, _, failed) := notify_chunks gatt_if log_handle c chunks s in (s, true, failed)
      else (s, false, true)
  end.

Fixpoint notify_all (gatt_if log_handle : Z) (data : list Z) (cs : list Connection) s :
    S * list Connection * bool :=
  match cs with
  | [] => (s, [], false)
  | c :: cs =>
      if notify_enabled c then
        let '(s, taken, failed) := notify_chunks gatt_if log_handle c (chunks (mtu_payload c) data) s in
        let c := if failed : bool then mkConn (peer c) (conn_id c) false (mtu c) else c in
        let '(s, cs, delivered) := notify_all gatt_if log_handle data cs s in
        (s, c :: cs, taken || delivered)
      else
        let '(s, cs, delivered) := notify_all gatt_if log_handle data cs s in
        (s, c :: cs, delivered)
  end.

Definition send_log_bytes (data : list Z) st s : BleState * S * bool :=
  match data with
  | [] => (st, s, true)
  | _ =>
      match gatt_if st, log_handle st with
      | Some g, Some h =>
          let '(s, cs, delivered) := notify_all g h data (connections st) s in
          (set_connections cs st, s, delivered)
      | _, _ => (st, s, false)
      end
  end.

(** *** GAP: configure, then the scan response, then advertise *)
Definition on_gap_event (e : GapEvent) s : S * bool :=
  match e with
  | AdvertisingConfigured ok => if ok then calls [SetScanRspConf] s else (s, false)
  | ScanResponseConfigured ok =>
      if ok then
        let s := (ble_call (SetRandAddr (Addr.static_random_from_mac (read_mac s))) s).1 in
        ((ble_call StartAdvertising s).1, true)
      else (s, false)
  | AdvertisingStarted ok | AdvertisingStopped ok => (s, ok)
  | OtherGap => (s, true)
  end.

(** *** GATT *)
Definition set_adv_conf : GattCall := SetAdvConf SERVICE_UUID.

Definition create_service (g : Z) st s : BleState * S * bool :=
  let '(s, ok) := calls [SetDeviceName DEVICE_NAME; set_adv_conf; CreateService g SERVICE_UUID] s in
  (set_gatt_if g st, s, ok).

Definition configure_and_start_service (service : Z) st s : BleState * S * bool :=
  let '(s, ok) := calls [StartService service; AddCharacteristic service LOG_CHAR_UUID MAX_LOG_CHUNK] s in
  (set_service service st, s, ok).

Definition register_characteristic (service attr uuid : Z) st s : BleState * S * bool :=
  if bool_decide (service_handle st = Some service) && (uuid =? LOG_CHAR_UUID) then
    let '(s, ok) := calls [AddDescriptor service CCCD_UUID] s in (set_log_handle attr st, s, ok)
  else (st, s, true).

Definition register_descriptor (service attr uuid : Z) st : BleState :=
  if bool_decide (service_handle st = Some service) && (uuid =? CCCD_UUID) then set_cccd attr st else st.

Definition create_conn (conn addr : Z) st s : BleState * S * bool :=
  let fresh := mkConn addr conn false DEFAULT_MTU in
  let cs := if existsb (fun c => peer c =? addr) (connections st)
            then update_first (fun c => peer c =? addr) (fun _ => fresh) (connections st)
            else connections st ++ [fresh] in
  let '(s, ok) := calls [set_adv_conf; SetConnParams addr] s in
  (set_connections cs st, s, ok).

Definition delete_conn (addr : Z) st s : BleState * S * bool :=
  let cs := List.filter (fun c => negb (peer c =? addr)) (connections st) in
  let '(s, ok) := calls [set_adv_conf] s in (set_connections cs st, s, ok).

Definition register_conn_mtu (conn : Z) (m : nat) st : BleState :=
  set_connections (update_first (fun c => conn_id c =? conn)
    (fun c => mkConn (peer c) (conn_id c) (notify_enabled c) m) (connections st)) st.

(** [handle_write]: only the two bytes at the start of the descriptor count. *)
Definition handle_write (g conn trans handle offset : Z) (need_rsp : bool) (value : list Z) st s :
    BleState * S * bool :=
  match value with
  | v0 :: _ :: _ =>
      if negb (bool_decide (Some handle = cccd_handle st)) || negb (offset =? 0) then (st, s, true)
      else if existsb (fun c => conn_id c =? conn) (connections st) then
        let enabled := negb (Z.land v0 1 =? 0) in
        let st := set_connections (update_first (fun c => conn_id c =? conn)
                    (fun c => mkConn (peer c) (conn_id c) enabled (mtu c)) (connections st)) st in
        if need_rsp then let '(s, ok) := calls [SendResponse g conn trans] s in (st, s, ok)
        else (st, s, true)
      else (st, s, true)
  | _ => (st, s, true)
  end.

Definition on_gatts_event (g : Z) (e : GattsEvent) st s : BleState * S * bool :=
  match e with
  | ServiceRegistered ok app_id =>
      if ok then (if app_id =? APP_ID then create_service g st s else (st, s, true)) else (st, s, false)
  | ServiceCreated ok handle => if ok then configure_and_start_service handle st s else (st, s, false)
  | CharacteristicAdded ok attr service uuid =>
      if ok then register_characteristic service attr uuid st s else (st, s, false)
  | DescriptorAdded ok attr service uuid =>
      if ok then (register_descriptor service attr uuid st, s, true) else (st, s, false)
  | PeerConnected conn addr => create_conn conn addr st s
  | PeerDisconnected addr => delete_conn addr st s
  | Write conn trans handle offset need_rsp value => handle_write g conn trans handle offset need_rsp value st s
  | Mtu conn m => (register_conn_mtu conn m st, s, true)
  | OtherGatts => (st, s, true)
  end.
End Server.
End Server.

(** ** ble_logger.rs *)
Module Logger.
Import LogQueue Server.

Record LoggerState := mkLogger { queue : LogQueue; subscribers_attached : bool }.
Definition new : LoggerState := mkLogger LogQueue.new false.

Definition log (level module_path message : list Z) (l : LoggerState) : LoggerState :=
  mkLogger (push_line (format_record level module_path message) (queue l)) (subscribers_attached l).

Section Drain.
Context {S : Type} `{!BleStack S}.

(** The loop: a line leaves the queue when the server says it was delivered. *)
Fixpoint pump (fuel : nat) (q : LogQueue) (st : BleState) (s : S) : option (LogQueue * BleState * S) :=
  match fuel with
  | O => None
  | Datatypes.S fuel =>
      match front q with
      | None => Some (q, st, s)
      | Some next =>
          let '(st, s, sent) := send_log_bytes next st s in
          if sent : bool then pump fuel (pop_front q) st s else Some (q, st, s)
      end
  end.

Definition drain (fuel : nat) (l : LoggerState) (st : BleState) (s : S) :
    option (LoggerState * BleState * S) :=
  if negb (has_subscribers st) then Some (mkLogger (queue l) false, st, s)
  else
    let '(q, st, s) :=
      if subscribers_attached l then (queue l, st, s)
      else let '(q, banner) := take_banner (queue l) in
           let '(st, s, _) := send_log_bytes banner st s in (q, st, s) in
    r ← pump fuel q st s;
    let '(q, st, s) := r in Some (mkLogger q true, st, s).
End Drain.
End Logger.
