(* ===== verification/BleSpec.v ===== *)
(** * The Bluetooth log console: theorems

    About [BleConsole.v]: the queue keeps the newest lines and counts the rest,
    a line always ends, what a drain delivers to whom and what it leaves, and who
    is subscribed. *)
From Stdlib Require Import ZArith Lia ZifyBool.
From stdpp Require Import prelude strings.
From S2P Require Import Prelude BleConsole.
Local Open Scope Z_scope.

(** ** The queue *)
Section Queue.
Import LogQueue.

Definition push_all (ls : list (list Z)) (q : LogQueue) : LogQueue :=
  fold_left (fun q line => push_line line q) ls q.

(** The newest thirty-two lines stay, in their order; the others are counted. *)
Theorem queue_keeps_newest ls : let q := push_all ls new in
  lines q = drop (length ls - QUEUE_CAPACITY) ls /\
  dropped q = wrap32 (Z.of_nat (length ls - QUEUE_CAPACITY)).
Proof.
  cbv zeta. induction ls as [|line ls IH] using rev_ind; [done|].
  unfold push_all in *. rewrite fold_left_app. cbn [fold_left]. destruct IH as [IH1 IH2].
  set (q := fold_left _ ls new) in *. clearbody q.
  unfold push_line. rewrite IH1, IH2, length_drop, length_app. cbn [length].
  unfold QUEUE_CAPACITY in *. destruct (Nat.leb_spec 32 (length ls - (length ls - 32))) as [Hf|Hf];
    cbn [lines dropped]; rewrite drop_app_le by lia.
  - rewrite drop_drop. split; [do 2 f_equal; lia|].
    unfold wrapping_add32, wrap32. rewrite Zplus_mod_idemp_l. f_equal. lia.
  - split; [do 2 f_equal; lia|do 2 f_equal; lia].
Qed.

(** A line is at most two hundred bytes and ends in one newline at least, and it
    is the record up to there. *)
Theorem record_always_ends level module_path message :
  let line := format_record level module_path message in
  let whole := text "[" ++ level ++ text "] " ++ module_path ++ text ": " ++ message ++ [NL] in
  (0 < length line <= MAX_LOG_LINE_LEN)%nat /\ last line = Some NL /\
  (line = whole \/ take (MAX_LOG_LINE_LEN - 1) line = take (MAX_LOG_LINE_LEN - 1) whole).
Proof.
  cbv zeta. unfold format_record. set (whole := text "[" ++ _).
  assert (last whole = Some NL) as Hl.
  { unfold whole. rewrite !app_assoc. apply last_snoc. }
  assert (0 < length whole)%nat as Hp by (destruct whole; [done|cbn; lia]).
  unfold MAX_LOG_LINE_LEN. destruct (Nat.ltb_spec 200 (length whole)) as [Hlt|Hle]; [|by auto].
  cbn [Nat.sub]. case_bool_decide as Hb.
  - rewrite length_take. split; [lia|]. split; [exact Hb|]. right. by rewrite take_take.
  - rewrite length_app, length_take. cbn [length]. split; [lia|]. split; [apply last_snoc|]. right.
    rewrite take_app_le by (rewrite length_take; lia). by rewrite take_take.
Qed.

Lemma banner_ends q : last (take_banner q).2 = Some NL.
Proof. unfold take_banner. cbn [snd]. case_match; rewrite ?app_assoc; apply last_snoc. Qed.
End Queue.

(** ** Notifications *)
Lemma existsb_false_iff {A} (f : A -> bool) l : existsb f l = false <-> forall x, x ∈ l -> f x = false.
Proof.
  induction l as [|x l IH]; cbn; [split; [by intros _ ? ?%elem_of_nil|done]|].
  rewrite orb_false_iff, IH. split.
  - intros [H1 H2] y [->|Hy]%elem_of_cons; auto.
  - intros H. split; [apply H; by left|]. intros y Hy. apply H. by right.
Qed.

(** [heard] collects the notifications the stack took, as connection and
    bytes. *)
Class BleTrace (S : Type) `{!BleStack S} := {
  heard : S -> list (Z * list Z);
  heard_law c s : heard (ble_call c s).1 = heard s ++
    match c with
    | Notify _ conn _ chunk => if (ble_call c s).2 then [(conn, chunk)] else []
    | _ => []
    end
}.

Definition for_conn (id : Z) (evs : list (Z * list Z)) : list Z :=
  concat (map snd (List.filter (fun e => fst e =? id) evs)).

Lemma for_conn_app id l1 l2 : for_conn id (l1 ++ l2) = for_conn id l1 ++ for_conn id l2.
Proof. unfold for_conn. by rewrite List.filter_app, map_app, concat_app. Qed.
Lemma for_conn_same id chunks : for_conn id (map (pair id) chunks) = concat chunks.
Proof.
  unfold for_conn. induction chunks as [|c chunks IH]; [done|]. cbn. rewrite Z.eqb_refl. cbn. by rewrite IH.
Qed.
Lemma for_conn_other id id' chunks : id <> id' -> for_conn id (map (pair id') chunks) = [].
Proof.
  intros H. unfold for_conn. induction chunks as [|c chunks IH]; [done|]. cbn.
  by destruct (Z.eqb_spec id' id); [subst|].
Qed.

Section Server.
Import LogQueue Server.
Context {S : Type} `{!BleStack S} {BT : BleTrace S}.
Implicit Types (st : BleState) (s : S) (c : Connection).

(** A connection after a delivery: perhaps unsubscribed. *)
Definition kept c c' : Prop := peer c' = peer c /\ conn_id c' = conn_id c /\ mtu c' = mtu c /\
  (notify_enabled c' = true -> notify_enabled c = true).
Lemma kept_refl c : kept c c. Proof. done. Qed.
Lemma kept_trans c1 c2 c3 : kept c1 c2 -> kept c2 c3 -> kept c1 c3.
Proof. intros (?&?&?&?) (?&?&?&?). split_and!; try congruence. auto. Qed.

(** A chunk fits the connection it goes to. *)
Definition fits (cs : list Connection) (e : Z * list Z) : Prop :=
  exists c, c ∈ cs /\ conn_id c = e.1 /\ (0 < length e.2 <= mtu_payload c)%nat.

Lemma mtu_payload_pos c : (0 < mtu_payload c <= MAX_LOG_CHUNK)%nat.
Proof. unfold mtu_payload, MAX_LOG_CHUNK. lia. Qed.

Lemma notify_chunks_spec g h c chunks s :
  let '(s', taken, failed) := notify_chunks g h c chunks s in
  exists k, heard s' = heard s ++ map (pair (conn_id c)) (take k chunks) /\ (k <= length chunks)%nat /\
    (failed = false -> k = length chunks) /\ (taken = false -> k = 0%nat).
Proof.
  revert s. induction chunks as [|chunk chunks IH]; intros s; cbn [notify_chunks].
  { exists 0%nat. rewrite app_nil_r. by split_and!. }
  pose proof (heard_law (Notify g (conn_id c) h chunk) s) as Hh.
  destruct (ble_call _ s) as [s1 []]; cbn [fst snd] in Hh.
  - specialize (IH s1). destruct (notify_chunks g h c chunks s1) as [[s2 taken] failed].
    destruct IH as (k & Hk & Hle & Hf & _). exists (1 + k)%nat. rewrite Hk, Hh, <- app_assoc.
    split; [done|]. cbn [length]. split; [lia|]. split; [|done]. intros H. by rewrite (Hf H).
  - exists 0%nat. rewrite Hh. cbn [take map]. rewrite !app_nil_r. by split_and!; try lia.
Qed.

Lemma data_chunks_nonempty (data : list Z) k : data <> [] -> (0 < k)%nat -> (0 < length (chunks k data))%nat.
Proof.
  intros Hd Hk. destruct (chunks k data) eqn:E; [|cbn; lia]. exfalso. apply Hd.
  rewrite <- (proj1 (chunks_spec k data Hk)), E. done.
Qed.

Lemma kept_ids cs cs' : Forall2 kept cs cs' -> map conn_id cs' = map conn_id cs.
Proof. induction 1 as [|c c' cs cs' (_ & H & _) _ IH]; [done|]. cbn. by rewrite H, IH. Qed.

Lemma notify_all_spec g h data cs s : data <> [] -> NoDup (map conn_id cs) ->
  let '(s', cs', delivered) := notify_all g h data cs s in
  exists evs, heard s' = heard s ++ evs /\ Forall2 kept cs cs' /\ Forall (fits cs) evs /\
    (forall c', c' ∈ cs' -> notify_enabled c' = true -> for_conn (conn_id c') evs = data) /\
    (forall id, (forall c, c ∈ cs -> conn_id c = id -> notify_enabled c = false) -> for_conn id evs = []) /\
    (delivered = false -> evs = [] /\ forall c', c' ∈ cs' -> notify_enabled c' = false).
Proof.
  intros Hd. revert s. induction cs as [|c cs IH]; intros s Hnd; cbn [notify_all].
  { exists []. rewrite app_nil_r. split_and!; try done; [|intros _; split; [done|]]; by intros c' ?%elem_of_nil. }
  cbn [map] in Hnd. apply NoDup_cons in Hnd as [Hni Hnd].
  assert (forall evs, Forall (fits cs) evs -> for_conn (conn_id c) evs = []) as Hnone.
  { intros evs He. unfold for_conn. induction He as [|e evs (c0 & Hc0 & Hid & _) Hr IHe]; [done|].
    cbn. destruct (Z.eqb_spec (fst e) (conn_id c)) as [Heq|]; [|exact IHe]. exfalso. apply Hni.
    rewrite <- Heq, <- Hid. apply list_elem_of_In, List.in_map, list_elem_of_In, Hc0. }
  assert (forall evs, Forall (fits cs) evs -> Forall (fits (c :: cs)) evs) as Hfit.
  { intros evs He. eapply Forall_impl; [exact He|]. intros e (c0 & H1 & H2). exists c0. split; [by right|done]. }
  destruct (notify_enabled c) eqn:Een.
  - pose proof (notify_chunks_spec g h c (chunks (mtu_payload c) data) s) as H1.
    destruct (notify_chunks g h c _ s) as [[s1 taken] failed]. destruct H1 as (k & Hk & Hle & Hf & Ht).
    specialize (IH s1 Hnd). destruct (notify_all g h data cs s1) as [[s2 cs2] delivered].
    destruct IH as (evs & He & Hkept & Hfits & Hen & Hdis & Hdel).
    destruct (chunks_spec (mtu_payload c) data ltac:(apply mtu_payload_pos)) as (Hcat & Hsizes & _).
    exists (map (pair (conn_id c)) (take k (chunks (mtu_payload c) data)) ++ evs).
    split; [by rewrite He, Hk, app_assoc|]. split.
    { constructor; [|done]. destruct failed; split_and!; try done. }
    split. { apply Forall_app. split; [|by apply Hfit]. apply Forall_map. apply Forall_take.
             eapply Forall_impl; [exact Hsizes|]. intros x Hx. exists c. split; [by left|]. by split. }
    split.
    { intros c' [->|Hin]%elem_of_cons Hen'.
      - destruct failed; [done|]. rewrite for_conn_app, for_conn_same, (Hf eq_refl), firstn_all, Hcat.
        rewrite (Hnone evs) by done. apply app_nil_r.
      - rewrite for_conn_app, for_conn_other, (Hen c' Hin Hen'); [done|]. intros Heq. apply Hni.
        rewrite <- Heq, <- (kept_ids cs cs2 Hkept). by apply list_elem_of_fmap_2. }
    split.
    { intros id Hid. rewrite for_conn_app, for_conn_other, Hdis; [done| |].
      - intros c0 Hc0. apply Hid. by right.
      - intros ->. specialize (Hid c ltac:(by left) eq_refl). congruence. }
    intros [Ht0 Hd0]%orb_false_iff. destruct (Hdel Hd0) as [-> Hall]. rewrite (Ht Ht0). split; [done|].
    intros c' [->|Hin]%elem_of_cons; [|by apply Hall]. destruct failed; [done|].
    pose proof (data_chunks_nonempty data _ Hd (proj1 (mtu_payload_pos c))). specialize (Hf eq_refl). specialize (Ht Ht0). lia.
  - specialize (IH s Hnd). destruct (notify_all g h data cs s) as [[s2 cs2] delivered].
    destruct IH as (evs & He & Hkept & Hfits & Hen & Hdis & Hdel). exists evs.
    split; [done|]. split; [by constructor|]. split; [by apply Hfit|]. split.
    { intros c' [->|Hin]%elem_of_cons Hen'; [congruence|by apply Hen]. }
    split.
    { intros id Hid. apply Hdis. intros c0 Hc0. apply Hid. by right. }
    intros Hd0. destruct (Hdel Hd0) as [-> Hall]. split; [done|].
    intros c' [->|Hin]%elem_of_cons; [done|by apply Hall].
Qed.

(** ** A drain *)
Import Logger.

(** The server is up. *)
Definition serving st : Prop := is_Some (gatt_if st) /\ is_Some (log_handle st).

(** One delivery from [st] to [st'] of what makes up [data] for the connections
    that stay subscribed. *)
Record delivers (data : list Z) st st' s s' (evs : list (Z * list Z)) : Prop := mkDelivers {
  dl_heard : heard s' = heard s ++ evs;
  dl_serving : serving st';
  dl_kept : Forall2 kept (connections st) (connections st');
  dl_fits : Forall (fits (connections st)) evs;
  dl_whole c' : c' ∈ connections st' -> notify_enabled c' = true -> for_conn (conn_id c') evs = data;
  dl_none id : (forall c, c ∈ connections st -> conn_id c = id -> notify_enabled c = false) -> for_conn id evs = []
}.

Lemma kept_all_refl cs : Forall2 kept cs cs.
Proof. induction cs; constructor; [apply kept_refl|done]. Qed.

Lemma delivers_nothing st s : serving st -> delivers [] st st s s [].
Proof. intros H. constructor; rewrite ?app_nil_r; try done. apply kept_all_refl. Qed.

Lemma fits_kept cs cs' e : Forall2 kept cs cs' -> fits cs' e -> fits cs e.
Proof.
  intros Hk (c' & Hin & Hid & Hl). apply list_elem_of_lookup in Hin as [i Hi].
  destruct (Forall2_lookup_r _ _ _ _ _ Hk Hi) as (c & Hc & (_ & H1 & H2 & _)).
  exists c. split; [by eapply list_elem_of_lookup_2|]. split; [congruence|].
  replace (mtu_payload c) with (mtu_payload c'); [done|]. unfold mtu_payload. by rewrite H2.
Qed.

Lemma kept_back cs cs' c' : Forall2 kept cs cs' -> c' ∈ cs' -> exists c, c ∈ cs /\ kept c c'.
Proof.
  intros Hk [i Hi]%list_elem_of_lookup. destruct (Forall2_lookup_r _ _ _ _ _ Hk Hi) as (c & Hc & H).
  exists c. split; [by eapply list_elem_of_lookup_2|done].
Qed.

Lemma delivers_app d1 d2 st1 st2 st3 s1 s2 s3 e1 e2 : NoDup (map conn_id (connections st1)) ->
  delivers d1 st1 st2 s1 s2 e1 -> delivers d2 st2 st3 s2 s3 e2 -> delivers (d1 ++ d2) st1 st3 s1 s3 (e1 ++ e2).
Proof.
  intros Hnd [H1 H2 H3 H4 H5 H6] [I1 I2 I3 I4 I5 I6]. constructor; try done.
  - by rewrite I1, H1, app_assoc.
  - clear -H3 I3. revert I3. generalize (connections st3). induction H3 as [|c1 c2 l1 l2 Hc _ IH]; intros l3 H.
    + by inversion H.
    + inversion H; subst. constructor; [by eapply kept_trans|by apply IH].
  - apply Forall_app. split; [done|]. eapply Forall_impl; [exact I4|]. intros e. by apply fits_kept.
  - intros c3 Hin Hen. rewrite for_conn_app, (I5 c3 Hin Hen). f_equal.
    destruct (kept_back _ _ _ I3 Hin) as (c2 & Hin2 & (_ & Hid & _ & He)). rewrite Hid. apply H5; [done|]. by apply He.
  - intros id Hid. rewrite for_conn_app, (H6 id Hid), I6; [done|]. intros c2 Hin2 Hid2.
    destruct (kept_back _ _ _ H3 Hin2) as (c1 & Hin1 & (_ & Hid1 & _ & He)).
    destruct (notify_enabled c2) eqn:E; [|done]. specialize (He eq_refl). rewrite (Hid c1 Hin1) in He by congruence. done.
Qed.

Lemma send_spec data st s : data <> [] -> serving st -> NoDup (map conn_id (connections st)) ->
  let '(st', s', sent) := send_log_bytes data st s in
  exists evs, delivers data st st' s s' evs /\ (sent = false -> evs = [] /\ has_subscribers st' = false).
Proof.
  intros Hd [[g Hg] [h Hh]] Hnd. unfold send_log_bytes. rewrite Hg, Hh. destruct data as [|x data]; [done|].
  pose proof (notify_all_spec g h (x :: data) (connections st) s Hd Hnd) as H.
  destruct (notify_all g h (x :: data) (connections st) s) as [[s' cs'] delivered].
  destruct H as (evs & H1 & H2 & H3 & H4 & H5 & H6). exists evs. split.
  - by constructor.
  - intros Hdel. destruct (H6 Hdel) as [-> Hall]. split; [done|]. unfold has_subscribers. cbn [connections set_connections].
    apply existsb_false_iff. exact Hall.
Qed.

Lemma pump_spec fuel q st s : (length (lines q) < fuel)%nat -> Forall (fun l => l <> []) (lines q) ->
  serving st -> NoDup (map conn_id (connections st)) ->
  exists n st' s' evs, pump fuel q st s = Some (mkQueue (drop n (lines q)) (dropped q), st', s') /\
    (n <= length (lines q))%nat /\ delivers (concat (take n (lines q))) st st' s s' evs /\
    (n = length (lines q) \/ has_subscribers st' = false).
Proof.
  revert q st s. induction fuel as [|fuel IH]; intros q st s Hf Hne Hs Hnd; [lia|]. cbn [pump].
  destruct q as [[|line ls] d]; unfold front; cbn [lines head].
  { exists 0%nat, st, s, []. split; [done|]. split; [done|]. split; [by apply delivers_nothing|by left]. }
  cbn [lines length dropped] in *. apply Forall_cons in Hne as [Hl Hne].
  pose proof (send_spec line st s Hl Hs Hnd) as H. destruct (send_log_bytes line st s) as [[st1 s1] sent].
  destruct H as (e1 & H1 & H2). destruct sent.
  - assert (NoDup (map conn_id (connections st1))) as Hnd1 by (by rewrite (kept_ids _ _ (dl_kept _ _ _ _ _ _ H1))).
    change (pop_front (mkQueue (line :: ls) d)) with (mkQueue (drop 0 ls) d). rewrite drop_0.
    destruct (IH (mkQueue ls d) st1 s1) as (n & st' & s' & e2 & -> & Hn & H3 & H4);
      [cbn [lines]; lia|done|apply H1|done|]. cbn [lines dropped] in *.
    exists (Datatypes.S n), st', s', (e1 ++ e2). split; [done|]. split; [lia|]. split; [by eapply delivers_app|].
    destruct H4 as [-> |?]; [by left|by right].
  - destruct (H2 eq_refl) as [-> H3]. exists 0%nat, st1, s1, []. split; [done|]. split; [lia|]. split; [|by right].
    destruct H1 as [? ? ? ? H5 ?]. by constructor.
Qed.

(** What a drain does, over a stack that takes what it likes.  With nobody
    subscribed it is a no-op that forgets the attachment.  Otherwise it ends --
    one turn for every queued line and one more are enough -- having taken [n]
    lines off the front: whoever is still subscribed has been notified of exactly
    the banner, if this is a new attachment, and those [n] lines, in their order
    and whole, in chunks that fit its link; who was not subscribed of nothing; and
    lines are left only when nobody is subscribed any more. *)
Theorem drain_delivers fuel (l : LoggerState) st s :
  (length (lines (queue l)) < fuel)%nat -> Forall (fun x => x <> []) (lines (queue l)) ->
  serving st -> NoDup (map conn_id (connections st)) ->
  exists n l' st' s' evs, drain fuel l st s = Some (l', st', s') /\
    lines (queue l') = drop n (lines (queue l)) /\
    subscribers_attached l' = has_subscribers st /\
    delivers ((if has_subscribers st && negb (subscribers_attached l) then (take_banner (queue l)).2 else []) ++
      concat (take n (lines (queue l)))) st st' s s' evs /\
    (lines (queue l') = [] \/ has_subscribers st' = false).
Proof.
  intros Hf Hne Hs Hnd. unfold drain. destruct (has_subscribers st) eqn:Esub; cbn [negb andb].
  2: { exists 0%nat. eexists _, st, s, []. split; [done|]. split; [done|]. split; [done|].
       split; [|by right]. by apply delivers_nothing. }
  set (banner := (take_banner (queue l)).2).
  set (start := if subscribers_attached l then _ else _).
  assert (exists q1 st1 s1 e1, start = (q1, st1, s1) /\ lines q1 = lines (queue l) /\
    delivers (if negb (subscribers_attached l) then banner else []) st st1 s s1 e1) as (q1 & st1 & s1 & e1 & -> & Hq & H1).
  { unfold start. destruct (subscribers_attached l); cbn [negb].
    - exists (queue l), st, s, []. split; [done|]. split; [done|]. by apply delivers_nothing.
    - assert (banner <> []) as Hb by (intros Hb; pose proof (banner_ends (queue l)) as H; fold banner in H; by rewrite Hb in H).
      rewrite (surjective_pairing (take_banner (queue l))). fold banner.
      pose proof (send_spec banner st s Hb Hs Hnd) as H. destruct (send_log_bytes banner st s) as [[st1 s1] sent].
      destruct H as (e1 & H1 & _). by exists (take_banner (queue l)).1, st1, s1, e1. }
  destruct (pump_spec fuel q1 st1 s1) as (n & st' & s' & e2 & -> & Hn & H2 & H3);
    [by rewrite Hq|by rewrite Hq|apply H1|by rewrite (kept_ids _ _ (dl_kept _ _ _ _ _ _ H1))|].
  rewrite Hq in *. exists n. eexists _, st', s', (e1 ++ e2). split; [reflexivity|]. cbn [queue lines subscribers_attached].
  split; [done|]. split; [done|]. split; [by eapply delivers_app|].
  destruct H3 as [-> |?]; [left; apply drop_all|by right].
Qed.
End Server.

(** ** Who is subscribed *)
Section Subscriptions.
Import Server.
Context {S : Type} `{!BleStack S}.
Implicit Types (st : BleState) (s : S) (c : Connection).

Definition event_step (x : BleState * S) (e : Z * GattsEvent) : BleState * S :=
  (on_gatts_event e.1 e.2 x.1 x.2).1.
Definition run_events (es : list (Z * GattsEvent)) (x : BleState * S) : BleState * S := fold_left event_step es x.

Definition peer_event (addr : Z) (e : GattsEvent) : Prop :=
  match e with PeerConnected _ a | PeerDisconnected a => a = addr | _ => False end.

(** The descriptor write that subscribed [c], with no connect or disconnect of
    its peer since. *)
Definition subscribed_by (es : list (Z * GattsEvent)) (s : S) c : Prop :=
  exists before g trans handle need v0 v1 value after,
    es = before ++ (g, Write (conn_id c) trans handle 0 need (v0 :: v1 :: value)) :: after /\
    Z.land v0 1 <> 0 /\ cccd_handle (run_events before (BleState_default, s)).1 = Some handle /\
    Forall (fun e => ~ peer_event (peer c) e.2) after.

Lemma update_first_in p f l c : c ∈ update_first p f l ->
  c ∈ l \/ exists c0, c0 ∈ l /\ p c0 = true /\ c = f c0.
Proof.
  induction l as [|x l IH]; cbn; [by left|]. destruct (p x) eqn:E.
  - intros [->|H]%elem_of_cons; [right; exists x; by split; [left|]|left; by right].
  - intros [->|H]%elem_of_cons; [left; by left|]. destruct (IH H) as [H1|(c0 & H1 & H2)]; [left; by right|].
    right. exists c0. split; [by right|done].
Qed.

Lemma update_first_peers p f l : (forall c, p c = true -> peer (f c) = peer c) ->
  map peer (update_first p f l) = map peer l.
Proof.
  intros Hf. induction l as [|x l IH]; [done|]. cbn. destruct (p x) eqn:E; cbn; [by rewrite Hf|by rewrite IH].
Qed.

Lemma replace_peer_in addr fresh l c : NoDup (map peer l) ->
  c ∈ update_first (fun c => peer c =? addr) (fun _ => fresh) l -> c = fresh \/ (c ∈ l /\ peer c <> addr).
Proof.
  induction l as [|x l IH]; cbn; [by intros _ ?%elem_of_nil|]. intros [Hni Hnd]%NoDup_cons.
  destruct (Z.eqb_spec (peer x) addr) as [He|He].
  - intros [->|H]%elem_of_cons; [by left|]. right. split; [by right|]. intros Hc. apply Hni.
    rewrite He, <- Hc. by apply list_elem_of_fmap_2.
  - intros [->|H]%elem_of_cons; [right; split; [by left|done]|].
    destruct (IH Hnd H) as [?|[? ?]]; [by left|right; split; [by right|done]].
Qed.

Lemma filter_peer_in addr l c : c ∈ List.filter (fun c => negb (peer c =? addr)) l -> c ∈ l /\ peer c <> addr.
Proof. rewrite !list_elem_of_In, List.filter_In. intros [? ?]. split; [done|lia]. Qed.

Lemma filter_peer_nodup addr l : NoDup (map peer l) ->
  NoDup (map peer (List.filter (fun c => negb (peer c =? addr)) l)).
Proof.
  induction l as [|x l IH]; cbn; [done|]. intros [Hni Hnd]%NoDup_cons. destruct (negb _); cbn; [|by apply IH].
  apply NoDup_cons. split; [|by apply IH]. intros (y & Hy & Hin)%list_elem_of_fmap. apply Hni. rewrite Hy.
  apply list_elem_of_fmap_2. by eapply filter_peer_in.
Qed.

Ltac same := match goal with H : forall st', connections st' = _ -> _ |- _ => apply H; [done|intros ? []] end.

(** One event: the peers stay distinct, and a subscription was there before or
    is the write's. *)
Lemma event_step_spec x e : NoDup (map peer (connections x.1)) ->
  let st' := (event_step x e).1 in
  NoDup (map peer (connections st')) /\
  forall c', c' ∈ connections st' -> notify_enabled c' = true ->
    (exists c, c ∈ connections x.1 /\ conn_id c = conn_id c' /\ peer c = peer c' /\ notify_enabled c = true /\
       ~ peer_event (peer c') e.2) \/
    (exists trans handle need v0 v1 value, e.2 = Write (conn_id c') trans handle 0 need (v0 :: v1 :: value) /\
       Z.land v0 1 <> 0 /\ cccd_handle x.1 = Some handle).
Proof.
  destruct x as [st s], e as [g e]. intros Hnd. unfold event_step. cbn [fst snd] in *.
  assert (forall st', connections st' = connections st -> (forall a, ~ peer_event a e) ->
    NoDup (map peer (connections st')) /\
    forall c', c' ∈ connections st' -> notify_enabled c' = true ->
    (exists c, c ∈ connections st /\ conn_id c = conn_id c' /\ peer c = peer c' /\ notify_enabled c = true /\
       ~ peer_event (peer c') e) \/
    (exists trans handle need v0 v1 value, e = Write (conn_id c') trans handle 0 need (v0 :: v1 :: value) /\
       Z.land v0 1 <> 0 /\ cccd_handle st = Some handle)) as Hsame.
  { intros st' -> He. split; [done|]. intros c' Hin Hen. left. by exists c'. }
  destruct e as [ok app_id|ok handle|ok attr service uuid|ok attr service uuid|conn addr|addr
    |conn trans handle offset need value|conn m|]; cbn [on_gatts_event].
  - destruct ok; [|same]. destruct (app_id =? APP_ID); [|same].
    unfold create_service. destruct (calls _ s). same.
  - destruct ok; [|same]. unfold configure_and_start_service. destruct (calls _ s). same.
  - destruct ok; [|same]. unfold register_characteristic. destruct (_ && _); [|same].
    destruct (calls _ s). same.
  - destruct ok; [|same]. unfold register_descriptor. cbn [fst snd]. destruct (_ && _); same.
  - unfold create_conn. destruct (calls _ s). cbn [fst snd connections set_connections].
    destruct (existsb (fun c => peer c =? addr) (connections st)) eqn:Ex.
    + split. { rewrite update_first_peers; [done|]. cbn. intros c. lia. }
      intros c' Hin Hen. apply replace_peer_in in Hin as [->|[Hin Hp]]; [done| |done].
      left. exists c'. split_and!; try done. cbn. congruence.
    + pose proof (proj1 (existsb_false_iff _ _) Ex) as Hno. split.
      { rewrite map_app. apply NoDup_app. split; [done|]. split; [|cbn; apply NoDup_singleton].
        intros p (c & -> & Hc)%list_elem_of_fmap Hin%list_elem_of_singleton. specialize (Hno c Hc). cbn in Hin. lia. }
      intros c' [Hin| ->%list_elem_of_singleton]%elem_of_app Hen; [|done]. left. exists c'. split_and!; try done.
      cbn. specialize (Hno c' Hin). cbn in Hno. lia.
  - unfold delete_conn. destruct (calls _ s). cbn [fst snd connections set_connections].
    split; [by apply filter_peer_nodup|]. intros c' [Hin Hp]%filter_peer_in Hen.
    left. exists c'. split_and!; try done. cbn. congruence.
  - unfold handle_write. destruct value as [|v0 [|v1 value]]; [same..|].
    destruct (negb (bool_decide (Some handle = cccd_handle st)) || negb (offset =? 0)) eqn:Eg; [same|].
    apply orb_false_iff in Eg as [Eh%negb_false_iff%bool_decide_eq_true Eo%negb_false_iff%Z.eqb_eq].
    destruct (existsb _ _); [|same].
    set (st1 := set_connections _ st).
    assert (forall s', NoDup (map peer (connections (st1, s' : S).1)) /\
      forall c', c' ∈ connections st1 -> notify_enabled c' = true ->
      (exists c, c ∈ connections st /\ conn_id c = conn_id c' /\ peer c = peer c' /\ notify_enabled c = true /\
         ~ peer_event (peer c') (Write conn trans handle offset need (v0 :: v1 :: value))) \/
      (exists trans' handle' need' v0' v1' value', Write conn trans handle offset need (v0 :: v1 :: value) =
         Write (conn_id c') trans' handle' 0 need' (v0' :: v1' :: value') /\
         Z.land v0' 1 <> 0 /\ cccd_handle st = Some handle')) as H1.
    { intros s'. split; [cbn; by rewrite update_first_peers|]. intros c' Hin Hen.
      apply update_first_in in Hin as [Hin|(c0 & Hin & Hid & ->)].
      - left. exists c'. split_and!; try done. intros [].
      - right. cbn in Hen |- *. apply Z.eqb_eq in Hid as ->. exists trans, handle, need, v0, v1, value. 
        subst offset. split; [done|].
        split; [lia|done]. }
    destruct need; [destruct (calls _ s)|]; apply (H1 s).
  - unfold register_conn_mtu. cbn [fst snd connections set_connections]. split; [by rewrite update_first_peers|].
    intros c' Hin Hen. left. apply update_first_in in Hin as [Hin|(c0 & Hin & _ & ->)].
    + exists c'. split_and!; try done. intros [].
    + exists c0. split_and!; try done. intros [].
  - same.
Qed.

(** Only a central that asked for it is notified.  After any events, in any
    order, of any connections: no peer is listed twice, and every connection that
    is subscribed wrote an odd value to the start of the configuration descriptor,
    with no connect or disconnect of its peer since. *)
Theorem subscribed_on_request es s : let st := (run_events es (BleState_default, s)).1 in
  NoDup (map peer (connections st)) /\
  forall c, c ∈ connections st -> notify_enabled c = true -> subscribed_by es s c.
Proof.
  cbv zeta. induction es as [|e es IH] using rev_ind.
  { split; [apply NoDup_nil_2|]. by intros c ?%elem_of_nil. }
  unfold run_events at 1 2. rewrite fold_left_app. fold (run_events es (BleState_default, s)). cbn [fold_left].
  destruct IH as [Hnd IH]. destruct (event_step_spec _ e Hnd) as [H1 H2]. split; [exact H1|].
  intros c Hin Hen. destruct (H2 c Hin Hen) as [(c0 & Hc0 & Hid & Hp & He & Hne)|(trans & handle & need & v0 & v1 & value & He & Hv & Hh)].
  - destruct (IH c0 Hc0 He) as (before & g & trans & handle & need & v0 & v1 & value & after & -> & Hv & Hh & Ha).
    exists before, g, trans, handle, need, v0, v1, value, (after ++ [e]). rewrite <- Hid, <- Hp.
    split; [by rewrite <- app_assoc|]. split; [done|]. split; [done|].
    apply Forall_app. split; [done|]. constructor; [by rewrite Hp|constructor].
  - destruct e as [g e]. cbn [snd] in He. subst e.
    exists es, g, trans, handle, need, v0, v1, value, []. by split_and!.
Qed.
End Subscriptions.

(** ** A stack to watch: it takes as many calls as it was told *)
Module Bench.
Import LogQueue Server Logger.

Record Radio := mkRadio { budget : nat; taken : list (Z * list Z) }.

#[global] Instance radio_stack : BleStack Radio := {
  ble_call c r :=
    match budget r with
    | O => (r, false)
    | Datatypes.S n =>
        (mkRadio n (match c with Notify _ conn _ chunk => taken r ++ [(conn, chunk)] | _ => taken r end), true)
    end;
  read_mac _ := [0x4C; 1; 2; 3; 4; 0x9E]
}.
#[global] Instance radio_trace : BleTrace Radio.
Proof.
  refine {| heard := taken |}. intros c r. cbn. destruct (budget r); cbn; [|by destruct c; rewrite ?app_nil_r].
  destruct c; by rewrite ?app_nil_r.
Defined.

(** The bring-up, a central on connection 3, and its subscription. *)
Definition attach : list (Z * GattsEvent) :=
  [(9, ServiceRegistered true 0); (9, ServiceCreated true 40); (9, CharacteristicAdded true 42 40 LOG_CHAR_UUID);
   (9, DescriptorAdded true 43 40 CCCD_UUID); (9, PeerConnected 3 77); (9, Mtu 3 103); (9, Write 3 1 43 0 true [1; 0])].
Definition attached (budget : nat) : BleState * Radio :=
  ((run_events attach (BleState_default, mkRadio 100 [])).1, mkRadio budget []).
Definition two_lines : LoggerState :=
  log (text "WARN") (text "m") (replicate 150 120) (log (text "INFO") (text "m") (text "up") new).

(** The hypotheses of [drain_delivers] hold, and everything goes out. *)
Example attached_drains : let x := attached 10 in
  exists n l' st' s' evs, drain 3 two_lines x.1 x.2 = Some (l', st', s') /\
    lines (queue l') = drop n (lines (queue two_lines)) /\ subscribers_attached l' = has_subscribers x.1 /\
    delivers ((if has_subscribers x.1 && negb (subscribers_attached two_lines)
               then (take_banner (queue two_lines)).2 else []) ++
      concat (take n (lines (queue two_lines)))) x.1 st' x.2 s' evs /\
    (lines (queue l') = [] \/ has_subscribers st' = false).
Proof.
  apply drain_delivers; [vm_compute; lia| | |].
  - vm_compute. by repeat constructor.
  - vm_compute. split; by eexists.
  - vm_compute. apply NoDup_singleton.
Defined.

Example all_out : option_map (fun r => length (lines (queue r.1.1)))
  (drain 3 two_lines (attached 10).1 (attached 10).2) = Some 0%nat.
Proof. reflexivity. Qed.

(** A line of two chunks whose second is refused: it leaves the queue, and the
    one central it was for is unsubscribed with half of it. *)
Example half_a_line_is_dropped :
  option_map (fun r => (length (lines (queue r.1.1)), has_subscribers r.1.2, map (length ∘ snd) (taken r.2)))
    (drain 3 two_lines (attached 3).1 (attached 3).2) = Some (0%nat, false, [25%nat; 13%nat; 100%nat]).
Proof. reflexivity. Qed.

(** The count of dropped lines is gone with a banner nobody got. *)
Example banner_lost : let l := mkLogger (mkQueue [text "x"] 7) false in
  option_map (fun r => (dropped (queue r.1.1), lines (queue r.1.1), taken r.2))
    (drain 2 l (attached 0).1 (attached 0).2) = Some (0, [text "x"], []).
Proof. reflexivity. Qed.

(** Two factory addresses that differ in their top bits advertise as one. *)
Example addresses_collide :
  Addr.static_random_from_mac [0x4C; 1; 2; 3; 4; 5] = Addr.static_random_from_mac [0xCC; 1; 2; 3; 4; 5].
Proof. reflexivity. Qed.
End Bench.
